(* ===== verification/_CoqProject ===== *)
-Q . S2P
Prelude.v
Core.v
OrgRoles.v
Auth.v
Assets.v
Events.v
Json.v
JsonFacts.v
Calendar.v
Attachments.v
TaskValues.v
SchemaModel.v
SchemaParser.v
SchemaValue.v
SchemaValueProofs.v
SchemaCheck.v
DialPolicy.v
LedgerValues.v
TaskWork.v
Database.v
Tx.v
LedgerSpec.v
Outbox.v
LedgerHelpers.v
LedgerStore.v
HelperSpecs.v
ReviewSpecs.v
StoreSpecs.v
Refinement.v
LedgerCorrect.v
LedgerReplay.v
LedgerBehaviour.v
LedgerInvariants.v
EscrowSpecs.v
LedgerService.v
DeliveryDB.v
TaskDB.v
OrgStore.v
TaskRows.v
TaskStore.v
CollectibleStore.v
CatalogStore.v
CollectibleService.v
TaskService.v
TaskSpecs.v
SweepSpecs.v
ReservationSpecs.v
CreationSpecs.v
GallerySpecs.v
Lifecycle.v
GalleryFrames.v
GalleryLife.v
GalleryCorrect.v
LifecycleCorrect.v
Inbox.v
EventStore.v
Recorder.v
DeliverySpecs.v
DeliveryCorrect.v
DeliverySystem.v
DeliveryProgress.v
DeliveryHealthy.v
Webhooks.v
WebhookWire.v
WireFacts.v
WebhookDispatch.v
WebhookPump.v
WebhookDrain.v
WebhookBehaviour.v
SubmissionStore.v
SubmissionService.v
SubmissionCorrect.v
SubmissionLife.v
Samples.v
Witnesses.v
SchemaWitnesses.v
DeliveryWitnesses.v
TaskWitnesses.v
GalleryWitnesses.v
WebhookWitnesses.v
