(* ===== verification/Prelude.v ===== *)
(** * Sharecrop: a verification library

    Sharecrop is a marketplace: users and organizations publish tasks, fund them
    with credits held in escrow, review submitted work, pay, tip and reject it,
    send credits to each other, and let agents spend through capped credentials.
    Every mutation records an event, which becomes inbox notifications and signed
    webhook deliveries.  This library models the credit ledger, the life of tasks
    with their reservations and escrow, collectibles and their catalog, submissions
    with their receipts and comments, the transactional outbox with the delivery of its events, the webhook dispatcher and
    the response schemas, from the services that validate requests down to the
    statements of the SQL transactions, and proves them correct.  Paths below are
    relative to the repository.

    ** The program and its model

    - [Core.v] models [internal/core] and [internal/core/id]: error codes, typed
      identifiers, lifecycle and visibility enums, the system actor, pagination.
      The UUID package is third-party code: the class [UUIDLib] stands for its
      two functions and [UUIDLaws] for the one law relied on (a printed
      identifier parses back).
    - [OrgRoles.v] models [internal/org/roles.go]; [Assets.v] the collectible
      values and transfer policies of [internal/assets]; [Events.v] the kinds,
      subjects, recipients and drafts of [internal/event].
    - [LedgerValues.v] models the values, commands, results and spend charges of
      [internal/ledger] ([values.go], [models.go], [results.go],
      [work_budget.go] and the pure helpers of [service.go]).
    - [Database.v] is the state: a record of the tables the ledger store touches,
      one row type per table, and every write as a function that checks the
      constraints of [migrations/] (keys, foreign keys, unique indexes, checks,
      column ranges).
    - [Tx.v] is the effect: a transaction monad in which each statement, scan,
      begin and commit consumes a step and may fail, as the environment [Env]
      decides.  A theorem over every [Env] holds under every schedule of faults.
    - [Outbox.v] models the recording half of [internal/db/event_store.go] and
      [internal/ledger/events.go]; [LedgerHelpers.v] models
      [internal/db/ledger_store_helpers.go], the spend counters of
      [work_budget_store.go] and the helpers of the collectible and task stores
      that the ledger calls; [LedgerStore.v] models
      [internal/db/ledger_store.go], one definition per operation:
      [FundTask], [FundTaskFromOrganization], [AcceptSubmission],
      [RequestChanges], [RejectSubmission], [RefundTask], [GrantCredits],
      [PeerTransfer] and the reads.
    - [LedgerService.v] models [internal/ledger/service.go].  The service is
      written against the class [Store] and proved against [StoreContract]; the
      instances [db_store] and [db_store_contract] say that the database store
      meets it.

    - [Json.v] models what is used of [encoding/json], [unicode/utf8] and
      [strconv]; [SchemaModel.v], [SchemaParser.v], [SchemaValue.v] and
      [SchemaCheck.v] model [internal/schema]: the schema language and its
      parser, the response reader with its limits, the encoder, validation and
      redaction.
    - [DeliveryDB.v] extends the tables with notifications, subscriptions,
      deliveries and profiles; [Inbox.v] models [internal/notification] and
      [notification_store.go]; [EventStore.v] the dispatch half of
      [event_store.go]; [Recorder.v] [event/recorder.go] and the recovery sweep
      of [cmd/sharecrop/lifecycle.go].
    - [TaskValues.v] models [task/task_type.go] and [TaskWork.v] the scopes of
      [internal/agent]; [Webhooks.v] models [internal/webhook] and the
      subscription half of [webhook_store.go]; [WebhookWire.v] SHA-256 and the
      signed wire format; [WebhookDispatch.v] the claims and marks of
      [webhook_store.go] with [internal/webhookdispatch]; [DialPolicy.v] its
      dial policy.

    - [Auth.v] models the subjects and display names of [internal/auth],
      [internal/orgactor] and [internal/authz]; [Calendar.v] the RFC 3339 half of
      package [time]; [Attachments.v] [internal/attachment] over a model of base64;
      [TaskValues.v] the values, states and transitions of [internal/task];
      [TaskWork.v] [task/work_budget.go] and [agent/work_policy.go].
    - [TaskDB.v] is the state of
      the task store: a [Market] is the ledger's tables with the other columns of
      tasks and reservations, their visibility and attachments, series, teams and
      profiles; [on_tables] runs a computation of the ledger's helpers inside it.
      [OrgStore.v] models the reads of [org_store.go] and the checks of
      [org/service.go] that decide access; [TaskRows.v] the columns and parsers of
      [task_store.go], [task_row_parse.go] and [attachments.go]; [TaskStore.v] its
      operations ([CreateTask], [FindTask], [ChangeTaskState],
      [CreateReservation], [ChangeReservationState], [ListReservations],
      [CheckSubmissionEligibility]) and the sweeps of
      [task_lifecycle_sweeps.go]; [TaskService.v] [task/service.go].
    - [CollectibleStore.v] models the catalog entries, commands and results of
      [internal/assets] (Module [Catalog]) and the operations of
      [collectible_store.go] that move a collectible (rewards, gifts, awards,
      transfers, withdrawal, deletion), on the ledger's tables;
      [CatalogStore.v] its mints and catalog on a [Gallery], which is a market with
      the catalog's table, under the unique indexes of migration 000051 ([clash]),
      and its listings; [CollectibleService.v] models [assets/service.go].
    - [SubmissionStore.v] models the values of [internal/submission] ([models.go],
      [values.go], [store_results.go], the comment of [submission_comments.go]) and
      [submission_store.go], [submission_row_parse.go] and
      [submission_comments_store.go] on a [Desk]: a gallery with what a submission
      has beside the row the ledger reads (response and time, receipt tokens,
      validation errors, sensitive fields, attachments, comments).
      [SubmissionService.v] models [submission/service.go] and
      [submission_comments.go].

    ** The specification and the proofs

    [LedgerSpec.v] is what the store promises: an abstract ledger (postings and
    allocations) that changes by five movements only ([Fund], [Payout],
    [Refund], [Transfer], [Grant]), each a partial function, with its invariant
    [balanced] (supply equals credits issued, no account below zero, every task's
    postings and escrow cancel out).  [view] reads it out of the tables.

    [HelperSpecs.v] and [ReviewSpecs.v] execute the helpers symbolically with the
    predicate transformer [wp]; [StoreSpecs.v] gives each operation an inductive
    relation between its result, the database before and the database after
    ([funded], [accepted], [rejected], ...) and proves the operation satisfies it
    in every environment.  [Refinement.v] turns those relations into movements.
    On top of them:

    - [LedgerCorrect.v]: the store refines the abstract ledger; over any run of
      commands the supply is conserved, no account is overdrawn, every task is
      reconciled; a refused command changes nothing; a replay changes nothing; a
      first execution commits its events with its effect.
    - [LedgerReplay.v]: funding, grants, transfers and acceptances are idempotent
      under their keys at any later time ([keeps] is what every run preserves).
    - [LedgerBehaviour.v]: the effect of each first execution on tasks,
      submissions, reservations, collectibles and escrow, and who may tip a
      collectible.
    - [LedgerInvariants.v]: at most one accepted submission per task, no escrow
      on finished tasks, who may have what executed and whose account it
      may take from, spend caps and the daily
      transfer ceiling, and two facts about retries.
    - [LedgerService.v]: balances and listings agree with the abstract ledger; the service dispatches durable events only, refuses what
      it must before reaching the store, and, over the database store, is the
      abstract ledger.
    - [Core.v], [OrgRoles.v], [Events.v]: pages cover a listing, the permission
      matrix is the role table, recipients are a set.

    - [JsonFacts.v], [SchemaValueProofs.v], [SchemaParser.v], [SchemaCheck.v]: the
      reader answers every input and reads back what the encoder writes, accepted
      responses and schemas are within their limits, validation is conformance to
      the schema; redaction hides nothing but what is marked ([same_public]), and all
      of it exactly for the schemas that keep their marks where it looks
      ([within_reach]): the parser accepts others.
    - [DeliverySpecs.v] and [DeliveryCorrect.v] give dispatch, fan-out and sweeps
      their relations; [DeliverySystem.v] is the running system (commands,
      dispatches of drafts in flight, sweeps, reads, subscription changes) with
      its invariant; [DeliveryProgress.v] and [DeliveryHealthy.v]
      show that sweeps settle every event and what a
      dispatch leaves.
    - [WebhookDispatch.v]: the retry schedule.  [WebhookPump.v]: dispatchers beside
      the running system as a step relation, the walk of a delivery, exclusive
      claims.  [WebhookDrain.v]: a run of the dispatcher is steps of the pump, and
      when it drains and when it stalls.  What was posted to receivers is kept
      beside the tables ([requests_sent]) and no rollback takes it back.  [WireFacts.v] and [WebhookBehaviour.v]:
      delivery bodies and subscriptions read back, who reaches a subscription,
      what revocation stops.

    - [EscrowSpecs.v] states what an ended task may hold and when a collectible is
      escrowed, for the ledger's commands; [TaskSpecs.v], [SweepSpecs.v],
      [ReservationSpecs.v] and [CreationSpecs.v] give the operations of the task
      store their relations ([state_changed], [task_expired], [reserved],
      [created], ...), with what a found task and a granted permission
      say of the tables.  [Lifecycle.v] makes the commits of both stores one step
      relation, shows every operation a run of such steps and keeps the invariant
      [market_ok]; [LifecycleCorrect.v] proves, under any faults, what expiry,
      cancellation, reservation, eligibility and the service's permissions
      promise, and that a created task reads back.
    - [GallerySpecs.v] gives the collectible operations
      their relations ([gift_made], [reward_returned], [award_minted], ...).
      [GalleryFrames.v] shows that the commits of the market and
      of the collectible store keep what a collectible is and the agreement of
      escrow with the kinds of rewards; [GalleryLife.v] puts market, collectible and
      catalog operations on one schedule and keeps the invariant [gallery_ok];
      [GalleryCorrect.v] proves, over any such schedule and faults, custody, that
      ended tasks hold nothing, the supply of credits and the caps of the catalog,
      and, for single operations, who may move a collectible and what a refunded reward
      leaves; a within-organization collectible handed out by an organization is stuck
      for the rest of the schedule.
    - [SubmissionCorrect.v] gives the creation of a submission, its budget and its
      gates their relations ([submission_filed], [submit_made]) and shows what the
      other stores leave of a submission ([vetted]); [SubmissionLife.v] puts market,
      gallery and submission operations on one schedule, keeps the invariant
      [desk_ok] and proves that every submission accepted anywhere in it had passed
      its task's schema, who may submit and what that consumes, that a submission
      reads back from its receipt, that a receipt shows nothing of the sensitive
      fields of such a schema, who reads and writes a thread, and what becomes of a submission
      filed after its task has ended.

    [Samples.v] is a concrete marketplace; [Witnesses.v], [SchemaWitnesses.v],
    [DeliveryWitnesses.v], [TaskWitnesses.v], [GalleryWitnesses.v] and
    [WebhookWitnesses.v] apply the theorems that have hypotheses to it.

    ** Conventions and bounds

    Identifiers are stored and compared as text, as the source does.  Integers
    are [Z]; where the source computes in [int64] the result is wrapped with
    [wrap64], and values scanned from SQL must fit ([in_int64], [in_int32] for
    the [integer] column of a task's reward).  Timestamps are [Z].  Row locks
    serialise conflicting transactions, so operations run one after another; a
    failed operation rolls back and only the refusal counter, written outside the
    transaction, survives.  [Tx] is generic in the database, so an operation of
    the ledger's tables runs inside the tables of delivery.

    Fuel: [strip_all] has the length of its input ([strip_all_done]);
    [follow_pages] needs no more than the rows ([follow_pages_complete]); the
    JSON readers have the length of the text ([ParseValueJSON_answers] and
    [parsed_schemas_are_well_formed] show it never decides the answer);
    [run_batches] counts the fifty rounds the source's loop has.  All other
    recursion is structural.  Progress of sweeps is bounded by 21 sweeps per
    recorded event; theorems that need distinct generated identifiers ask for
    them up to the number of steps of the run.

    Parameters, each with the laws relied on: the UUID package, JSONB printing,
    [net/url] parsing, [net/netip] address parsing, and the surroundings of a
    webhook run (replies of receivers, jitter draws, the database's clock, rows
    locked by other replicas), and of the task store ([World]: the database's
    clock, the identifier generators, the text of the attachments aggregate) and
    its service ([TaskCredentialIssuer]), the identifiers of new collectibles
    ([CollectibleIDs]), and what submissions draw ([SubmissionWorld]: identifiers,
    random bytes, the texts of the aggregated errors and sensitive fields).  That the
    aggregates of a submission's rows print what the rows hold
    ([aggregates_read_back]) is a hypothesis of the receipt's round trip.  A schedule of the gallery asks the task service for
    creations that declare a collectible reward when they escrow one
    ([valid_gallery]), as the parsers of the HTTP and MCP requests do.  That the database's clock does not run
    backwards is a hypothesis of the task sweep ([clock_advances]) and of the draining
    of deliveries ([all_well]).  The commands of the running system that delivers
    events are the eight of the ledger.  Who may fund from an organization or issue a
    grant is checked by the API boundary, outside the library.

    ** Not modelled

    The listings of tasks, series and their comments, and the in-memory
    stores of the browser build, are separate components, outside the model.  Building the HTTP client of the dispatcher is I/O,
    and the compiler's freedom to fuse the float multiplication and addition of
    the jitter is left out (the bounds proved would hold with it).  Transport
    (HTTP, MCP, WASI bridges), authentication and start-up code are outside the
    library: they decode requests and call the services. *)

From Stdlib Require Export ZArith Lia.
From stdpp Require Export base gmap strings list sorting pretty option.

#[global] Set Default Goal Selector "!".

(** ** Errors as values: the left of a sum stops a computation *)

#[export] Instance sum_ret E : MRet (sum E) := fun A a => inr a.
#[export] Instance sum_bind E : MBind (sum E) := fun A B k m =>
  match m with inl err => inl err | inr a => k a end.

(** A result that carries no value is an optional error. *)
Definition required {E A} (on_error : E) (value : option A) : E + A :=
  match value with Some a => inr a | None => inl on_error end.

Lemma bind_inr {E A B} (k : A -> E + B) a : mbind k (inr a) = k a.
Proof. done. Qed.
Lemma bind_inl {E A B} (k : A -> E + B) e : mbind k (inl e) = inl e.
Proof. done. Qed.

Lemma sum_bind_inr {E A B} (m : E + A) (k : A -> E + B) b :
  mbind k m = inr b <-> exists a, m = inr a /\ k a = inr b.
Proof. destruct m as [e|a]; cbn; [by split; [|intros (? & ? & ?)]|]. split; [eauto|]. by intros (? & [= ->] & ?). Qed.

(** ** Tactics shared by the components *)

(** Destruct the scrutinee of some [match] of the goal or of a hypothesis,
    innermost first, recording the equation. *)
Ltac split_match_in H :=
  match type of H with
  | context [match ?x with _ => _ end] =>
      lazymatch x with
      | context [match _ with _ => _ end] => fail
      | _ => let E := fresh "E" in destruct x eqn:E
      end
  end.

Ltac split_match :=
  match goal with
  | |- context [match ?x with _ => _ end] =>
      lazymatch x with
      | context [match _ with _ => _ end] => fail
      | _ => let E := fresh "E" in destruct x eqn:E
      end
  end.

(** ** Machine integers: Go's [int64] as a bounded [Z] *)

Declare Scope int64_scope.
Delimit Scope int64_scope with int64.

Definition int64_min : Z := - 2 ^ 63.
Definition int64_max : Z := 2 ^ 63 - 1.
Definition int32_min : Z := - 2 ^ 31.
Definition int32_max : Z := 2 ^ 31 - 1.

Definition in_int64 (z : Z) : bool := (int64_min <=? z)%Z && (z <=? int64_max)%Z.
Definition in_int32 (z : Z) : bool := (int32_min <=? z)%Z && (z <=? int32_max)%Z.

(** Two's complement wrap-around of Go's int64 arithmetic. *)
Definition wrap64 (z : Z) : Z := ((z + 2 ^ 63) mod 2 ^ 64 - 2 ^ 63)%Z.

Notation "a +64 b" := (wrap64 (a + b)) (at level 50, left associativity) : int64_scope.
Notation "a -64 b" := (wrap64 (a - b)) (at level 50, left associativity) : int64_scope.
Notation "-64 a" := (wrap64 (- a)) (at level 35, right associativity) : int64_scope.

Lemma in_int64_spec z : in_int64 z = true <-> (int64_min <= z <= int64_max)%Z.
Proof. unfold in_int64. rewrite andb_true_iff, !Z.leb_le. done. Qed.

Lemma wrap64_id z : in_int64 z = true -> wrap64 z = z.
Proof.
  rewrite in_int64_spec. unfold wrap64, int64_min, int64_max. intros H.
  rewrite Z.mod_small; lia.
Qed.

Lemma wrap64_range z : in_int64 (wrap64 z) = true.
Proof.
  rewrite in_int64_spec. unfold wrap64, int64_min, int64_max.
  pose proof (Z.mod_pos_bound (z + 2 ^ 63) (2 ^ 64)). lia.
Qed.

Lemma wrap64_opp_pos z : (0 < z)%Z -> in_int64 z = true -> wrap64 (- z) = (- z)%Z.
Proof.
  intros Hp Hr. apply wrap64_id. rewrite in_int64_spec in *.
  unfold int64_min, int64_max in *. lia.
Qed.

(** Wrapping an operand of a sum first does not change the wrapped sum. *)
Lemma wrap64_add_wrap a b : wrap64 (wrap64 a + b) = wrap64 (a + b).
Proof.
  unfold wrap64. f_equal.
  replace ((a + 2 ^ 63) mod 2 ^ 64 - 2 ^ 63 + b + 2 ^ 63)%Z with ((a + 2 ^ 63) mod 2 ^ 64 + b)%Z by lia.
  rewrite Z.add_mod_idemp_l by done. f_equal. lia.
Qed.

(** ** Sums of integers over lists *)

Definition sum_Z (l : list Z) : Z := foldr Z.add 0%Z l.

Lemma sum_Z_app l k : sum_Z (l ++ k) = (sum_Z l + sum_Z k)%Z.
Proof. induction l as [|x l IH]; cbn; [done|]. unfold sum_Z in *. lia. Qed.

Lemma sum_Z_perm l k : l ≡ₚ k -> sum_Z l = sum_Z k.
Proof. induction 1; unfold sum_Z in *; cbn; lia. Qed.

Lemma sum_Z_nonneg l : Forall (fun z => (0 <= z)%Z) l -> (0 <= sum_Z l)%Z.
Proof. induction 1; unfold sum_Z in *; cbn; lia. Qed.

(** The sum of [f v] over the values of a finite map. *)
Definition map_sum {K V} `{Countable K} (f : V -> Z) (m : gmap K V) : Z :=
  sum_Z ((fun kv => f kv.2) <$> map_to_list m).

Section MapSum.
Context `{Countable K} {V : Type} (f : V -> Z).
Implicit Types (m : gmap K V) (k : K) (v w : V).

Lemma map_sum_insert_new m k v :
  m !! k = None -> map_sum f (<[k:=v]> m) = (f v + map_sum f m)%Z.
Proof.
  intros Hk. unfold map_sum.
  rewrite (sum_Z_perm _ ((fun kv : K * V => f kv.2) <$> ((k, v) :: map_to_list m))); [done|].
  by rewrite map_to_list_insert.
Qed.

Lemma map_sum_delete m k v :
  m !! k = Some v -> map_sum f m = (f v + map_sum f (delete k m))%Z.
Proof.
  intros Hk. rewrite <- (insert_delete_id m k v Hk) at 1.
  apply map_sum_insert_new, lookup_delete_eq.
Qed.

Lemma map_sum_update m k v w :
  m !! k = Some v -> map_sum f (<[k:=w]> m) = (map_sum f m - f v + f w)%Z.
Proof.
  intros Hk. rewrite <- insert_delete_eq.
  rewrite map_sum_insert_new by apply lookup_delete_eq.
  rewrite (map_sum_delete m k v Hk). lia.
Qed.

Lemma map_sum_empty : map_sum f (∅ : gmap K V) = 0%Z.
Proof. unfold map_sum. by rewrite map_to_list_empty. Qed.
End MapSum.

Lemma fmap_rev {A B} (f : A -> B) (l : list A) : f <$> rev l = rev (f <$> l).
Proof. induction l as [|a l IH]; cbn; [done|]. by rewrite fmap_app, IH. Qed.

Lemma Forall_elem {A} (P : A -> Prop) l x : Forall P l -> x ∈ l -> P x.
Proof. intros Hl Hx. by eapply List.Forall_forall in Hl; [|apply list_elem_of_In]. Qed.

Lemma elem_of_rev {A} (x : A) l : x ∈ rev l <-> x ∈ l.
Proof. by rewrite !list_elem_of_In, <- in_rev. Qed.

(** ** Go's [switch] on a string and closed sets of wire values *)

(** The first case whose label equals the scrutinee, else the default. *)
Fixpoint switch {R} (raw : string) (cases : list (string * R)) (default : R) : R :=
  match cases with
  | [] => default
  | (label, result) :: rest => if String.eqb raw label then result else switch raw rest default
  end.

Lemma switch_cons {R} raw label (r : R) cases d :
  switch raw ((label, r) :: cases) d = if String.eqb raw label then r else switch raw cases d.
Proof. done. Qed.

Lemma switch_nil {R} raw (d : R) : switch raw [] d = d.
Proof. done. Qed.

Lemma switch_inv {R} raw (cases : list (string * R)) d r :
  switch raw cases d = r -> r = d \/ (raw, r) ∈ cases.
Proof.
  induction cases as [|[l c] cases IH]; cbn; [by left|].
  destruct (String.eqb_spec raw l) as [->|]; intros <-.
  - right. left.
  - destruct (IH eq_refl) as [->|?]; [by left|right]. by right.
Qed.

#[global] Arguments switch : simpl never.

(** ** Prefixes *)

Lemma String_prefix_app p s : String.prefix p (p +:+ s) = true.
Proof.
  induction p as [|c p IH]; [by destruct s|].
  change (String.prefix (String c p) (String c p +:+ s)) with (if Ascii.ascii_dec c c then String.prefix p (p +:+ s) else false).
  destruct (Ascii.ascii_dec c c); [exact IH|congruence].
Qed.

Lemma substring_app p s : String.substring (String.length p) (String.length (p +:+ s) - String.length p) (p +:+ s) = s.
Proof.
  assert (forall t, String.substring 0 (String.length t) t = t) as Hall by (intros t; induction t as [|c t IH]; cbn; congruence).
  induction p as [|c p IH]; [cbn; by rewrite Nat.sub_0_r|]. exact IH.
Qed.

(** ** Go's [strings.TrimSpace] on UTF-8 byte strings *)

Definition byte (n : nat) : Ascii.ascii := Ascii.ascii_of_nat n.

(** The white space code points of [unicode.IsSpace], as their UTF-8 bytes. *)
Definition space_runes : list string :=
  let s bs := String.string_of_list_ascii (byte <$> bs) in
  [ s [9]; s [10]; s [11]; s [12]; s [13]; s [32];
    s [194; 133]; s [194; 160]; s [225; 154; 128];
    s [226; 128; 128]; s [226; 128; 129]; s [226; 128; 130]; s [226; 128; 131];
    s [226; 128; 132]; s [226; 128; 133]; s [226; 128; 134]; s [226; 128; 135];
    s [226; 128; 136]; s [226; 128; 137]; s [226; 128; 138];
    s [226; 128; 168]; s [226; 128; 169]; s [226; 128; 175]; s [226; 129; 159];
    s [227; 128; 128] ]%nat.

(** Remove one leading element of [ps] from [l], if any is a prefix. *)
Definition strip_one (ps : list (list Ascii.ascii)) (l : list Ascii.ascii) : option (list Ascii.ascii) :=
  '(_, p) ← list_find (fun p => p `prefix_of` l) ps; Some (drop (length p) l).

Fixpoint strip_all (fuel : nat) (ps : list (list Ascii.ascii)) (l : list Ascii.ascii) : list Ascii.ascii :=
  match fuel with
  | O => l
  | S fuel => match strip_one ps l with Some rest => strip_all fuel ps rest | None => l end
  end.

Definition TrimSpace (raw : string) : string :=
  let ps := String.list_ascii_of_string <$> space_runes in
  let l := String.list_ascii_of_string raw in
  let left := strip_all (length l) ps l in
  let right := strip_all (length left) (reverse <$> ps) (reverse left) in
  String.string_of_list_ascii (reverse right).

Example TrimSpace_both : TrimSpace "  a b " = "a b".
Proof. reflexivity. Qed.

Lemma strip_one_shorter ps l rest :
  Forall (fun p => p <> []) ps -> strip_one ps l = Some rest -> length rest < length l.
Proof.
  unfold strip_one. intros Hne. destruct (list_find _ _) as [[i p]|] eqn:E; cbn; [|done].
  apply list_find_Some in E as (Hi & [k ->] & _). intros [= <-].
  pose proof (Forall_lookup_1 _ _ _ _ Hne Hi) as Hp. cbn in Hp.
  rewrite length_drop, length_app. destruct p; cbn; [done|lia].
Qed.

(** Enough fuel: after [length l] rounds no prefix is left to remove. *)
Lemma strip_all_done fuel ps l :
  Forall (fun p => p <> []) ps -> length l <= fuel -> strip_one ps (strip_all fuel ps l) = None.
Proof.
  intros Hne. revert l. induction fuel as [|fuel IH]; intros l Hl; cbn.
  - destruct l; [|cbn in Hl; lia].
    destruct (strip_one ps []) eqn:E; [|done].
    apply strip_one_shorter in E; [cbn in E; lia|done].
  - destruct (strip_one ps l) eqn:E; [|done].
    apply IH. apply strip_one_shorter in E; [lia|done].
Qed.
