(* ===== verification/Core.v ===== *)
(** * Core values: domain errors, typed identifiers, pages, small enums

    Models [internal/core] and [internal/core/id].  The UUID library behind the
    identifiers is third-party code: its two functions are the parameters of the
    class [UUIDLib], what is relied on is the class [UUIDLaws]. *)

From S2P Require Import Prelude.
Local Open Scope string_scope.
Local Open Scope Z_scope.

(** ** [domain_error.go] *)

Inductive ErrorCode :=
| ErrorCodeInvalidID
| ErrorCodeInvalidEnum
| ErrorCodeInvalidState
| ErrorCodeInvalidArgument
| ErrorCodeNotFound
| ErrorCodePermissionDenied
| ErrorCodeConflict
| ErrorCodeUnauthenticated
| ErrorCodeRateLimited
| ErrorCodeBudgetExceeded
| ErrorCodeUnavailable.

#[export] Instance ErrorCode_eq_dec : EqDecision ErrorCode.
Proof. solve_decision. Defined.

Definition ErrorCode_String (c : ErrorCode) : string :=
  match c with
  | ErrorCodeInvalidID => "invalid_id"
  | ErrorCodeInvalidEnum => "invalid_enum"
  | ErrorCodeInvalidState => "invalid_state"
  | ErrorCodeInvalidArgument => "invalid_argument"
  | ErrorCodeNotFound => "not_found"
  | ErrorCodePermissionDenied => "permission_denied"
  | ErrorCodeConflict => "conflict"
  | ErrorCodeUnauthenticated => "unauthenticated"
  | ErrorCodeRateLimited => "rate_limited"
  | ErrorCodeBudgetExceeded => "budget_exceeded"
  | ErrorCodeUnavailable => "unavailable"
  end.

Definition AllErrorCodes : list ErrorCode :=
  [ ErrorCodeInvalidID; ErrorCodeInvalidEnum; ErrorCodeInvalidState;
    ErrorCodeInvalidArgument; ErrorCodeNotFound; ErrorCodePermissionDenied;
    ErrorCodeConflict; ErrorCodeUnauthenticated; ErrorCodeRateLimited;
    ErrorCodeBudgetExceeded; ErrorCodeUnavailable ].

Record DomainError := NewDomainError { Code : ErrorCode; Description : string }.

#[export] Instance DomainError_eq_dec : EqDecision DomainError.
Proof. solve_decision. Defined.

Definition invalid_argument (description : string) : DomainError :=
  NewDomainError ErrorCodeInvalidArgument description.
Definition invalid_enum (description : string) : DomainError :=
  NewDomainError ErrorCodeInvalidEnum description.
Definition invalid_state (description : string) : DomainError :=
  NewDomainError ErrorCodeInvalidState description.
Definition conflict (description : string) : DomainError :=
  NewDomainError ErrorCodeConflict description.
Definition permission_denied (description : string) : DomainError :=
  NewDomainError ErrorCodePermissionDenied description.
Definition not_found (description : string) : DomainError :=
  NewDomainError ErrorCodeNotFound description.

(** The two-variant results of the constructors, as sums. *)
Class Outcome (R A : Type) := outcome : R -> DomainError + A.

(** ** [id/id.go] and [ids.go] *)

(** A [uuid.UUID] is an array of 16 bytes; formatting and parsing are the library's. *)
Record UUID := MkUUID {
  uuid_value : N;
  uuid_range : Is_true (uuid_value <? 2 ^ 128)%N
}.

Definition uuid_nil : UUID := MkUUID 0 I.

Lemma UUID_eq (a b : UUID) : uuid_value a = uuid_value b -> a = b.
Proof. destruct a as [v p], b as [w q]; cbn. intros ->. f_equal. apply Is_true_pi. Qed.

#[export] Instance UUID_eq_dec : EqDecision UUID.
Proof.
  refine (fun a b => cast_if (decide (uuid_value a = uuid_value b))).
  - by apply UUID_eq.
  - by intros ->.
Defined.

Class UUIDLib := {
  uuid_String : UUID -> string;
  uuid_Parse : string -> string + UUID    (* error text, or the value *)
}.

(** What the code relies on: a formatted UUID parses back to itself. *)
Class UUIDLaws `{UUIDLib} : Prop := {
  uuid_Parse_String : forall v, uuid_Parse (uuid_String v) = inr v
}.

Record ID := MkID { id_value : UUID }.

#[export] Instance ID_eq_dec : EqDecision ID.
Proof. solve_decision. Defined.

Inductive IDResult :=
| IDCreated (Value : ID)
| IDRejected (IDDescription : string).

Definition id_Parse `{UUIDLib} (raw : string) : IDResult :=
  match uuid_Parse raw with
  | inl err => IDRejected err
  | inr value => IDCreated (MkID value)
  end.

Definition id_String `{UUIDLib} (i : ID) : string := uuid_String (id_value i).

(** The identifier types of [ids.go] are one wrapper struct each; the index
    keeps them as distinct here as they are in the source. *)
Inductive IDKind :=
| KUser | KTask | KTaskSeries | KTaskReservation | KSubmission
| KSubmissionReceiptToken | KOrganization | KTeam | KOrganizationMembership
| KAgentCredential | KOrgCredential | KCollectible | KCreditAccount
| KLedgerEntry | KGuest | KRefreshToken | KAuditEvent | KNotification
| KPrivacyRequest | KDomainEvent | KWebhookSubscription | KWebhookDelivery | KSubmissionComment.

Record TypedID (k : IDKind) := MkTypedID { typed_value : ID }.
Arguments MkTypedID {k} _.
Arguments typed_value {k} _.

#[export] Instance TypedID_eq_dec k : EqDecision (TypedID k).
Proof. solve_decision. Defined.

Abbreviation UserID := (TypedID KUser).
Abbreviation TaskID := (TypedID KTask).
Abbreviation TaskSeriesID := (TypedID KTaskSeries).
Abbreviation TaskReservationID := (TypedID KTaskReservation).
Abbreviation SubmissionID := (TypedID KSubmission).
Abbreviation SubmissionReceiptTokenID := (TypedID KSubmissionReceiptToken).
Abbreviation SubmissionCommentID := (TypedID KSubmissionComment).
Abbreviation OrganizationID := (TypedID KOrganization).
Abbreviation TeamID := (TypedID KTeam).
Abbreviation AgentCredentialID := (TypedID KAgentCredential).
Abbreviation CollectibleID := (TypedID KCollectible).
Abbreviation CreditAccountID := (TypedID KCreditAccount).
Abbreviation LedgerEntryID := (TypedID KLedgerEntry).
Abbreviation DomainEventID := (TypedID KDomainEvent).

Inductive TypedIDResult (k : IDKind) :=
| TypedIDCreated (Value : TypedID k)
| TypedIDRejected (Reason : DomainError).
Arguments TypedIDCreated {k} _.
Arguments TypedIDRejected {k} _.

#[export] Instance TypedIDResult_outcome {k} : Outcome (TypedIDResult k) (TypedID k) := fun result =>
  match result with TypedIDCreated value => inr value | TypedIDRejected reason => inl reason end.

Definition typedIDFromIDResult {k} (result : IDResult) : TypedIDResult k :=
  match result with
  | IDCreated value => TypedIDCreated (MkTypedID value)
  | IDRejected description => TypedIDRejected (NewDomainError ErrorCodeInvalidID description)
  end.

Definition ParseTypedID `{UUIDLib} {k} (raw : string) : TypedIDResult k :=
  typedIDFromIDResult (id_Parse raw).

Definition TypedID_String `{UUIDLib} {k} (i : TypedID k) : string := id_String (typed_value i).

Abbreviation ParseUserID := (ParseTypedID (k:=KUser)).
Abbreviation ParseTaskID := (ParseTypedID (k:=KTask)).
Abbreviation ParseTaskReservationID := (ParseTypedID (k:=KTaskReservation)).
Abbreviation ParseTaskSeriesID := (ParseTypedID (k:=KTaskSeries)).
Abbreviation ParseTeamID := (ParseTypedID (k:=KTeam)).
Abbreviation ParseAgentCredentialID := (ParseTypedID (k:=KAgentCredential)).
Abbreviation ParseSubmissionID := (ParseTypedID (k:=KSubmission)).
Abbreviation ParseSubmissionCommentID := (ParseTypedID (k:=KSubmissionComment)).
Abbreviation ParseOrganizationID := (ParseTypedID (k:=KOrganization)).
Abbreviation ParseCollectibleID := (ParseTypedID (k:=KCollectible)).
Abbreviation ParseCreditAccountID := (ParseTypedID (k:=KCreditAccount)).
Abbreviation ParseLedgerEntryID := (ParseTypedID (k:=KLedgerEntry)).

Section IDLemmas.
Context `{UUIDLaws}.

Lemma ParseTypedID_String {k} (i : TypedID k) :
  ParseTypedID (TypedID_String i) = TypedIDCreated i.
Proof.
  unfold ParseTypedID, id_Parse, TypedID_String, id_String.
  rewrite uuid_Parse_String. by destruct i as [[v]].
Qed.

Lemma TypedID_String_inj {k} : Inj (=) (=) (TypedID_String (k:=k)).
Proof.
  intros i j E. apply (f_equal (ParseTypedID (k:=k))) in E.
  rewrite !ParseTypedID_String in E. by inv E.
Qed.
End IDLemmas.

(** ** [lifecycle.go], [visibility.go] *)

Inductive LifecycleState :=
| LifecycleStateDraft | LifecycleStateActive | LifecycleStateClosed | LifecycleStateCancelled.

Definition LifecycleState_String (s : LifecycleState) : string :=
  match s with
  | LifecycleStateDraft => "draft"
  | LifecycleStateActive => "active"
  | LifecycleStateClosed => "closed"
  | LifecycleStateCancelled => "cancelled"
  end.

Inductive LifecycleStateResult :=
| LifecycleStateParsed (Value : LifecycleState)
| LifecycleStateRejected (Reason : DomainError).

Definition ParseLifecycleState (raw : string) : LifecycleStateResult :=
  switch raw
    [ (LifecycleState_String LifecycleStateDraft, LifecycleStateParsed LifecycleStateDraft);
      (LifecycleState_String LifecycleStateActive, LifecycleStateParsed LifecycleStateActive);
      (LifecycleState_String LifecycleStateClosed, LifecycleStateParsed LifecycleStateClosed);
      (LifecycleState_String LifecycleStateCancelled, LifecycleStateParsed LifecycleStateCancelled) ]
    (LifecycleStateRejected (NewDomainError ErrorCodeInvalidState "unknown lifecycle state")).

Inductive VisibilityKind :=
| VisibilityKindPublic | VisibilityKindUser | VisibilityKindOrganization.

Definition VisibilityKind_String (v : VisibilityKind) : string :=
  match v with
  | VisibilityKindPublic => "public"
  | VisibilityKindUser => "user"
  | VisibilityKindOrganization => "organization"
  end.

Inductive VisibilityKindResult :=
| VisibilityKindParsed (Value : VisibilityKind)
| VisibilityKindRejected (Reason : DomainError).

Definition ParseVisibilityKind (raw : string) : VisibilityKindResult :=
  switch raw
    [ (VisibilityKind_String VisibilityKindPublic, VisibilityKindParsed VisibilityKindPublic);
      (VisibilityKind_String VisibilityKindUser, VisibilityKindParsed VisibilityKindUser);
      (VisibilityKind_String VisibilityKindOrganization, VisibilityKindParsed VisibilityKindOrganization) ]
    (VisibilityKindRejected (NewDomainError ErrorCodeInvalidEnum "unknown visibility kind")).

(** ** [system_actor.go] *)

Definition systemUserIDValue : string := "00000000-0000-7000-8000-000000000001".

(** The zero [UserID] is the fallback of the package initialiser. *)
Definition SystemUserID `{UUIDLib} : UserID :=
  match ParseUserID systemUserIDValue with
  | TypedIDCreated value => value
  | TypedIDRejected _ => MkTypedID (MkID uuid_nil)
  end.

(** ** [pagination.go] *)

Module Pagination.

Definition pageLimitMinimum : Z := 1.
Definition pageLimitMaximum : Z := 200.
Definition pageDefaultLimit : Z := 100.
Definition pageDefaultOffset : Z := 0.
Definition pageOffsetMinimum : Z := 0.

Record Page := MkPage { Limit : Z; Offset : Z }.

Definition DefaultPage : Page := MkPage pageDefaultLimit pageDefaultOffset.

Definition Probe (p : Page) : Page := MkPage (wrap64 (Limit p + 1)) (Offset p).

Definition ProbeListWindow (fetched : Z) (page : Page) : Z * Z :=
  if (Limit page <? fetched) then (Limit page, wrap64 (Offset page + Limit page)) else (fetched, 0).

Inductive PageResult :=
| PageAccepted (Value : Page)
| PageRejected (Reason : DomainError).

Definition NewPage (limit offset : Z) : PageResult :=
  if limit <? pageLimitMinimum then
    PageRejected (NewDomainError ErrorCodeInvalidArgument "page limit must be positive")
  else if offset <? pageOffsetMinimum then
    PageRejected (NewDomainError ErrorCodeInvalidArgument "page offset must not be negative")
  else
    let clampedLimit := if pageLimitMaximum <? limit then pageLimitMaximum else limit in
    PageAccepted (MkPage clampedLimit offset).

(** [limit $n offset $m] of a SQL listing. *)
Definition sql_page {A} (p : Page) (rows : list A) : list A :=
  take (Z.to_nat (Limit p)) (drop (Z.to_nat (Offset p)) rows).

(** One page of a list handler: fetch through [Probe], keep the visible window. *)
Definition list_page {A} (p : Page) (rows : list A) : list A * Z :=
  let fetched := sql_page (Probe p) rows in
  let '(visible, next) := ProbeListWindow (Z.of_nat (length fetched)) p in
  (take (Z.to_nat visible) fetched, next).

(** A client that follows [next_offset] until it is 0. *)
Fixpoint follow_pages {A} (fuel : nat) (limit offset : Z) (rows : list A) : option (list A) :=
  match fuel with
  | O => None
  | S fuel =>
      match NewPage limit offset with
      | PageRejected _ => None
      | PageAccepted p =>
          let '(items, next) := list_page p rows in
          if next =? 0 then Some items
          else rest ← follow_pages fuel limit next rows; Some (items ++ rest)%list
      end
  end.

Lemma NewPage_accepted_inv limit offset p :
  NewPage limit offset = PageAccepted p ->
  1 <= Limit p <= 200 /\ 0 <= Offset p /\ Offset p = offset /\ Limit p = Z.min limit 200.
Proof.
  unfold NewPage, pageLimitMinimum, pageLimitMaximum, pageOffsetMinimum.
  repeat case_match; intros [= <-]; cbn; lia.
Qed.

Lemma list_page_spec {A} (p : Page) (rows : list A) :
  1 <= Limit p <= 200 -> 0 <= Offset p -> Offset p + 200 <= int64_max ->
  list_page p rows =
    (take (Z.to_nat (Limit p)) (drop (Z.to_nat (Offset p)) rows),
     if (Offset p + Limit p <? Z.of_nat (length rows)) then Offset p + Limit p else 0).
Proof.
  intros Hl Ho Hb. unfold list_page, sql_page, Probe, ProbeListWindow; cbn.
  rewrite !wrap64_id by (apply in_int64_spec; unfold int64_min, int64_max in *; lia).
  rewrite length_take, length_drop.
  replace (Z.to_nat (Limit p + 1)) with (S (Z.to_nat (Limit p))) by lia.
  destruct (Z.ltb_spec (Limit p) (Z.of_nat (S (Z.to_nat (Limit p)) `min` (length rows - Z.to_nat (Offset p))))).
  - destruct (Z.ltb_spec (Offset p + Limit p) (Z.of_nat (length rows))); [|lia].
    f_equal. rewrite take_take. f_equal. lia.
  - destruct (Z.ltb_spec (Offset p + Limit p) (Z.of_nat (length rows))); [lia|].
    f_equal. rewrite take_take, !take_ge; [done|rewrite length_drop; lia|rewrite length_drop; lia].
Qed.

(** A client that follows next_offset until it is 0 gets every remaining row exactly once, in
    order, whatever positive limit it asks for. *)
Theorem follow_pages_complete {A} (rows : list A) (limit offset : Z) (fuel : nat) :
  1 <= limit ->
  0 <= offset ->
  Z.of_nat (length rows) + 400 <= int64_max ->
  (length rows < fuel + Z.to_nat offset)%nat ->
  offset <= Z.of_nat (length rows) ->
  follow_pages fuel limit offset rows = Some (drop (Z.to_nat offset) rows).
Proof.
  intros Hl. revert offset. induction fuel as [|fuel IH]; intros offset Ho Hb Hf Hle; [lia|].
  cbn. destruct (NewPage limit offset) as [p|] eqn:E.
  2:{ exfalso. revert E. unfold NewPage, pageLimitMinimum, pageLimitMaximum, pageOffsetMinimum.
      repeat case_match; intros [=]; lia. }
  apply NewPage_accepted_inv in E as (H1 & H2 & H3 & H4).
  rewrite list_page_spec by lia. cbn.
  destruct (Z.ltb_spec (Offset p + Limit p) (Z.of_nat (length rows))).
  - destruct (Z.eqb_spec (Offset p + Limit p) 0); [lia|].
    rewrite IH by lia. cbn. f_equal.
    rewrite H3, Z2Nat.inj_add, <- drop_drop by lia. apply take_drop.
  - cbn. f_equal. rewrite H3. apply take_ge. rewrite length_drop. lia.
Qed.

End Pagination.
