(* ===== verification/OrgRoles.v ===== *)
(** * Organization roles and permissions

    Models [internal/org/roles.go]: the closed sets of roles and permissions and
    the matrix [CheckPermission] that every organization-scoped operation of the
    ledger consults inside its transaction. *)

From S2P Require Import Prelude.
From S2P Require Import Core.
Local Open Scope string_scope.

Inductive Role :=
| RoleOwner | RoleAdmin | RoleMember | RoleBilling | RoleReviewer | RolePublicPublisher.

#[export] Instance Role_eq_dec : EqDecision Role.
Proof. solve_decision. Defined.

Definition Role_String (role : Role) : string :=
  match role with
  | RoleOwner => "owner"
  | RoleAdmin => "admin"
  | RoleMember => "member"
  | RoleBilling => "billing"
  | RoleReviewer => "reviewer"
  | RolePublicPublisher => "public_publisher"
  end.

Inductive RoleResult :=
| RoleAccepted (Value : Role)
| RoleRejected (Reason : DomainError).

Definition ParseRole (raw : string) : RoleResult :=
  switch raw
    [ (Role_String RoleOwner, RoleAccepted RoleOwner);
      (Role_String RoleAdmin, RoleAccepted RoleAdmin);
      (Role_String RoleMember, RoleAccepted RoleMember);
      (Role_String RoleBilling, RoleAccepted RoleBilling);
      (Role_String RoleReviewer, RoleAccepted RoleReviewer);
      (Role_String RolePublicPublisher, RoleAccepted RolePublicPublisher) ]
    (RoleRejected (NewDomainError ErrorCodeInvalidEnum "organization role is invalid")).

Inductive Permission :=
| PermissionManageMembers | PermissionManageTeams | PermissionCreateOrganizationTask
| PermissionReviewSubmissions | PermissionManageBilling | PermissionManageWallets
| PermissionManageCollectibles | PermissionPublishPublicTask | PermissionSwitchTaskVisibility.

#[export] Instance Permission_eq_dec : EqDecision Permission.
Proof. solve_decision. Defined.

Inductive PermissionCheck :=
| PermissionGranted
| PermissionDenied (Reason : DomainError).

Definition adminPermission (permission : Permission) : PermissionCheck :=
  match permission with
  | PermissionManageMembers | PermissionManageTeams | PermissionCreateOrganizationTask
  | PermissionReviewSubmissions | PermissionSwitchTaskVisibility
  | PermissionManageCollectibles => PermissionGranted
  | _ => PermissionDenied (NewDomainError ErrorCodePermissionDenied "admin role does not grant permission")
  end.

Definition billingPermission (permission : Permission) : PermissionCheck :=
  match permission with
  | PermissionManageBilling => PermissionGranted
  | _ => PermissionDenied (NewDomainError ErrorCodePermissionDenied "billing role does not grant permission")
  end.

Definition reviewerPermission (permission : Permission) : PermissionCheck :=
  match permission with
  | PermissionReviewSubmissions => PermissionGranted
  | _ => PermissionDenied (NewDomainError ErrorCodePermissionDenied "reviewer role does not grant permission")
  end.

Definition publisherPermission (permission : Permission) : PermissionCheck :=
  match permission with
  | PermissionPublishPublicTask | PermissionSwitchTaskVisibility => PermissionGranted
  | _ => PermissionDenied (NewDomainError ErrorCodePermissionDenied "public publisher role does not grant permission")
  end.

Definition roleGrantsPermission (role : Role) (permission : Permission) : PermissionCheck :=
  match role with
  | RoleOwner => PermissionGranted
  | RoleAdmin => adminPermission permission
  | RoleBilling => billingPermission permission
  | RoleReviewer => reviewerPermission permission
  | RolePublicPublisher => publisherPermission permission
  | RoleMember => PermissionDenied (NewDomainError ErrorCodePermissionDenied "role does not grant permission")
  end.

Fixpoint CheckPermission (roles : list Role) (permission : Permission) : PermissionCheck :=
  match roles with
  | [] => PermissionDenied (NewDomainError ErrorCodePermissionDenied "organization permission denied")
  | role :: roles =>
      match roleGrantsPermission role permission with
      | PermissionGranted => PermissionGranted
      | PermissionDenied _ => CheckPermission roles permission
      end
  end.

(** The reference specification: which roles are entitled to which permission. *)
Definition entitled (permission : Permission) : list Role :=
  match permission with
  | PermissionManageMembers | PermissionManageTeams | PermissionCreateOrganizationTask
  | PermissionManageCollectibles => [RoleOwner; RoleAdmin]
  | PermissionReviewSubmissions => [RoleOwner; RoleAdmin; RoleReviewer]
  | PermissionManageBilling => [RoleOwner; RoleBilling]
  | PermissionManageWallets => [RoleOwner]
  | PermissionPublishPublicTask => [RoleOwner; RolePublicPublisher]
  | PermissionSwitchTaskVisibility => [RoleOwner; RoleAdmin; RolePublicPublisher]
  end.

Lemma roleGrantsPermission_entitled role permission :
  roleGrantsPermission role permission = PermissionGranted <-> role ∈ entitled permission.
Proof.
  rewrite <- (bool_decide_eq_true (role ∈ entitled permission)).
  destruct role, permission; vm_compute; split; intros H; congruence.
Qed.

(** A member's roles grant a permission exactly when one of them is entitled to it in the role
    table. *)
Theorem CheckPermission_iff_entitled roles permission :
  CheckPermission roles permission = PermissionGranted <->
  exists role, role ∈ roles /\ role ∈ entitled permission.
Proof.
  induction roles as [|role roles IH]; cbn.
  - split; [done|]. intros (r & Hr & _). by apply not_elem_of_nil in Hr.
  - destruct (roleGrantsPermission role permission) eqn:E.
    + split; [|done]. intros _. exists role. split; [left|]. by apply roleGrantsPermission_entitled.
    + rewrite IH. setoid_rewrite elem_of_cons. split.
      * intros (r & ? & ?). exists r. tauto.
      * intros (r & [->|?] & Hr); [|by exists r].
        apply roleGrantsPermission_entitled in Hr. congruence.
Qed.

Lemma ParseRole_String role : ParseRole (Role_String role) = RoleAccepted role.
Proof. by destruct role. Qed.
