(* ===== verification/Auth.v ===== *)
(** * Who acts: subjects, display names and organization access

    Models the subjects and display names of [internal/auth], the actor check of
    [internal/orgactor] and the access decision of [internal/authz]. *)

From S2P Require Import Prelude.
From S2P Require Import Core.
From S2P Require Import OrgRoles.
Local Open Scope string_scope.

(** ** [auth/values.go]: display names *)

Record DisplayName := MkDisplayName { DisplayName_value : string }.
Definition displayNameMaxLength : nat := 120.

Inductive DisplayNameResult :=
| DisplayNameAccepted (value : DisplayName)
| DisplayNameRejected (reason : DomainError).

Definition NewDisplayName (raw : string) : DisplayNameResult :=
  let trimmed := TrimSpace raw in
  if String.eqb trimmed "" then DisplayNameRejected (NewDomainError ErrorCodeInvalidArgument "display name is required")
  else if (displayNameMaxLength <? String.length trimmed)%nat
  then DisplayNameRejected (NewDomainError ErrorCodeInvalidArgument "display name is too long")
  else DisplayNameAccepted (MkDisplayName trimmed).

Module Auth.

(** ** [auth/tokens.go]: who a request acts as *)

Inductive Subject :=
| UserSubject (ID : UserID)
| GuestSubject (ID : TypedID KGuest)
| OrgSubject (ID : OrganizationID).

#[global] Instance Subject_eq_dec : EqDecision Subject.
Proof. solve_decision. Defined.

(** ** [orgactor/orgactor.go] *)

Inductive OrgActorResult := NotApplicable | Match | Mismatch.

Definition orgactor_Check (actor : Subject) (organizationID : OrganizationID) : OrgActorResult :=
  match actor with
  | OrgSubject id => if decide (id = organizationID) then Match else Mismatch
  | _ => NotApplicable
  end.

(** ** [authz/authz.go] *)

Inductive Decision := Granted | Denied (Reason : DomainError).

(** The checker is consulted for a user only. *)
Definition RequireOrganizationAccess {M : Type -> Type} `{MRet M, MBind M}
    (checker : OrganizationID -> UserID -> Permission -> M PermissionCheck)
    (actor : Subject) (organizationID : OrganizationID) (permission : Permission)
    (deniedCode : ErrorCode) (deniedReason : string) : M Decision :=
  let denied := mret (Denied (NewDomainError deniedCode deniedReason)) in
  match orgactor_Check actor organizationID with
  | Match => mret Granted
  | Mismatch => denied
  | NotApplicable =>
      match actor with
      | UserSubject user =>
          check ← checker organizationID user permission;
          mret (match check with
                | PermissionDenied reason => Denied reason
                | _ => Granted
                end)
      | _ => denied
      end
  end.

End Auth.
