(* ===== verification/Assets.v ===== *)
(** * Collectibles: kinds, states, transfer policies

    Models the value types of [internal/assets/policy.go],
    [internal/assets/collectible.go] and the catalog slug of
    [internal/assets/catalog.go], as far as the review tip and the escrow of the
    ledger use them. *)

From Stdlib Require Import Ascii.
From S2P Require Import Prelude.
From S2P Require Import Core.
Local Open Scope string_scope.

(** ** Transfer policies *)

Inductive TransferPolicy :=
| TransferPolicyNonTransferableExceptPayout
| TransferPolicyTransferableBetweenUsers
| TransferPolicyTransferableWithinOrg
| TransferPolicyIssuerControlled.

#[export] Instance TransferPolicy_eq_dec : EqDecision TransferPolicy.
Proof. solve_decision. Defined.

Definition TransferPolicy_String (policy : TransferPolicy) : string :=
  match policy with
  | TransferPolicyNonTransferableExceptPayout => "non_transferable_except_payout"
  | TransferPolicyTransferableBetweenUsers => "transferable_between_users"
  | TransferPolicyTransferableWithinOrg => "transferable_within_organization"
  | TransferPolicyIssuerControlled => "issuer_controlled"
  end.

Inductive TransferPolicyResult :=
| TransferPolicyAccepted (Value : TransferPolicy)
| TransferPolicyRejected (Reason : DomainError).

Definition ParseTransferPolicy (raw : string) : TransferPolicyResult :=
  let case p := (TransferPolicy_String p, TransferPolicyAccepted p) in
  switch raw
    [ case TransferPolicyNonTransferableExceptPayout;
      case TransferPolicyTransferableBetweenUsers;
      case TransferPolicyTransferableWithinOrg;
      case TransferPolicyIssuerControlled ]
    (TransferPolicyRejected (NewDomainError ErrorCodeInvalidEnum "transfer policy is invalid")).

Inductive RewardCheck :=
| RewardAllowed
| RewardDenied (Reason : DomainError).

Definition AllowsTip (policy : TransferPolicy) : RewardCheck :=
  match policy with
  | TransferPolicyTransferableBetweenUsers | TransferPolicyTransferableWithinOrg => RewardAllowed
  | TransferPolicyNonTransferableExceptPayout =>
      RewardDenied (NewDomainError ErrorCodeInvalidState "this collectible can only move as a reward payout, not a tip")
  | TransferPolicyIssuerControlled =>
      RewardDenied (NewDomainError ErrorCodeInvalidState "issuer-controlled assets cannot be tipped")
  end.

Definition AllowsRewardPayout (policy : TransferPolicy) : RewardCheck :=
  match policy with
  | TransferPolicyNonTransferableExceptPayout
  | TransferPolicyTransferableBetweenUsers
  | TransferPolicyTransferableWithinOrg => RewardAllowed
  | TransferPolicyIssuerControlled =>
      RewardDenied (NewDomainError ErrorCodeInvalidState "issuer-controlled assets cannot be awarded as task rewards yet")
  end.

Definition AllowsTransfer (policy : TransferPolicy) : RewardCheck :=
  match policy with
  | TransferPolicyTransferableBetweenUsers | TransferPolicyTransferableWithinOrg => RewardAllowed
  | TransferPolicyNonTransferableExceptPayout =>
      RewardDenied (NewDomainError ErrorCodePermissionDenied "collectible is not transferable")
  | TransferPolicyIssuerControlled =>
      RewardDenied (NewDomainError ErrorCodePermissionDenied "collectible transfers are controlled by its issuer")
  end.

(** ** Kinds and states *)

Inductive CollectibleKind := CollectibleKindUnique | CollectibleKindEdition | CollectibleKindBadge.

#[export] Instance CollectibleKind_eq_dec : EqDecision CollectibleKind.
Proof. solve_decision. Defined.

Definition CollectibleKind_String (kind : CollectibleKind) : string :=
  match kind with
  | CollectibleKindUnique => "unique"
  | CollectibleKindEdition => "edition"
  | CollectibleKindBadge => "badge"
  end.

Inductive CollectibleKindResult :=
| CollectibleKindAccepted (Value : CollectibleKind)
| CollectibleKindRejected (Reason : DomainError).

Definition ParseCollectibleKind (raw : string) : CollectibleKindResult :=
  let case k := (CollectibleKind_String k, CollectibleKindAccepted k) in
  switch raw
    [ case CollectibleKindUnique; case CollectibleKindEdition; case CollectibleKindBadge ]
    (CollectibleKindRejected (NewDomainError ErrorCodeInvalidEnum "collectible kind is invalid")).

Inductive CollectibleState :=
| CollectibleStateMinted | CollectibleStateEscrowed | CollectibleStateAwarded | CollectibleStateWithdrawn.

#[export] Instance CollectibleState_eq_dec : EqDecision CollectibleState.
Proof. solve_decision. Defined.

Definition CollectibleState_String (state : CollectibleState) : string :=
  match state with
  | CollectibleStateMinted => "minted"
  | CollectibleStateEscrowed => "escrowed"
  | CollectibleStateAwarded => "awarded"
  | CollectibleStateWithdrawn => "withdrawn"
  end.

Inductive CollectibleStateResult :=
| CollectibleStateAccepted (Value : CollectibleState)
| CollectibleStateRejected (Reason : DomainError).

Definition ParseCollectibleState (raw : string) : CollectibleStateResult :=
  let case s := (CollectibleState_String s, CollectibleStateAccepted s) in
  switch raw
    [ case CollectibleStateMinted; case CollectibleStateEscrowed;
      case CollectibleStateAwarded; case CollectibleStateWithdrawn ]
    (CollectibleStateRejected (NewDomainError ErrorCodeInvalidEnum "collectible state is invalid")).

(** ** Names and slugs *)

Record CollectibleName := MkCollectibleName { CollectibleName_String : string }.

Inductive CollectibleNameResult :=
| CollectibleNameAccepted (Value : CollectibleName)
| CollectibleNameRejected (Reason : DomainError).

Definition NewCollectibleName (raw : string) : CollectibleNameResult :=
  let trimmed := TrimSpace raw in
  if String.eqb trimmed "" then
    CollectibleNameRejected (NewDomainError ErrorCodeInvalidArgument "collectible name is required")
  else if (120 <? String.length trimmed)%nat then
    CollectibleNameRejected (NewDomainError ErrorCodeInvalidArgument "collectible name is too long")
  else CollectibleNameAccepted (MkCollectibleName trimmed).

Record CatalogSlug := MkCatalogSlug { CatalogSlug_String : string }.

Inductive CatalogSlugResult :=
| CatalogSlugAccepted (Value : CatalogSlug)
| CatalogSlugRejected (Reason : DomainError).

Definition in_char_range (lo hi c : Ascii.ascii) : bool :=
  ((Ascii.nat_of_ascii lo <=? Ascii.nat_of_ascii c) && (Ascii.nat_of_ascii c <=? Ascii.nat_of_ascii hi))%nat.

Definition slug_character (c : Ascii.ascii) : bool :=
  in_char_range "a"%char "z"%char c || in_char_range "0"%char "9"%char c || Ascii.eqb c "-"%char.

(** [strings.Contains haystack needle] *)
Fixpoint contains (haystack needle : string) : bool :=
  String.prefix needle haystack ||
  match haystack with
  | EmptyString => false
  | String _ rest => contains rest needle
  end.

Definition has_suffix (s suffix : string) : bool :=
  let rev_string x := String.string_of_list_ascii (reverse (String.list_ascii_of_string x)) in
  String.prefix (rev_string suffix) (rev_string s).

Definition NewCatalogSlug (raw : string) : CatalogSlugResult :=
  let trimmed := TrimSpace raw in
  if String.eqb trimmed "" then
    CatalogSlugRejected (NewDomainError ErrorCodeInvalidArgument "catalog slug is required")
  else if (64 <? String.length trimmed)%nat then
    CatalogSlugRejected (NewDomainError ErrorCodeInvalidArgument "catalog slug is too long")
  else if negb (forallb slug_character (String.list_ascii_of_string trimmed)) then
    CatalogSlugRejected (NewDomainError ErrorCodeInvalidArgument "catalog slug may contain only lowercase letters, digits, and dashes")
  else if String.prefix "-" trimmed || has_suffix trimmed "-" || contains trimmed "--" then
    CatalogSlugRejected (NewDomainError ErrorCodeInvalidArgument "catalog slug dashes must separate words")
  else CatalogSlugAccepted (MkCatalogSlug trimmed).

(** ** The collectible *)

Inductive CatalogRef := NoCatalogRef | FromCatalog (Slug : CatalogSlug).
Inductive EditionRef := NoEditionNumber | EditionNumbered (Number : Z).
Inductive IssuerRef := NoIssuer | IssuedBy (ID : UserID).

Definition CollectibleOwnerKindUser : string := "user".
Definition CollectibleOwnerKindTeam : string := "team".
Definition CollectibleOwnerKindOrganization : string := "organization".

Definition ValidCollectibleOwnerKind (kind : string) : bool :=
  switch kind
    [ (CollectibleOwnerKindUser, true); (CollectibleOwnerKindTeam, true);
      (CollectibleOwnerKindOrganization, true) ] false.

(** The display names of read models are left out: mutations keep them zero. *)
Record Collectible := MkCollectible {
  Collectible_ID : CollectibleID;
  Collectible_Name : CollectibleName;
  Collectible_Kind : CollectibleKind;
  Collectible_State : CollectibleState;
  Collectible_Policy : TransferPolicy;
  Collectible_OwnerKind : string;
  Collectible_OwnerID : string;
  Collectible_OrganizationID : string;
  Collectible_Art : string;
  Collectible_Catalog : CatalogRef;
  Collectible_Edition : EditionRef;
  Collectible_Issuer : IssuerRef
}.

(** ** Lemmas *)

Lemma ParseTransferPolicy_String p : ParseTransferPolicy (TransferPolicy_String p) = TransferPolicyAccepted p.
Proof. by destruct p. Qed.

Lemma ParseCollectibleState_String s : ParseCollectibleState (CollectibleState_String s) = CollectibleStateAccepted s.
Proof. by destruct s. Qed.

(** A policy that lets a collectible be tipped also lets it be a task reward. *)
Lemma AllowsTip_AllowsRewardPayout p : AllowsTip p = RewardAllowed -> AllowsRewardPayout p = RewardAllowed.
Proof. by destruct p. Qed.
