(* ===== verification/Events.v ===== *)
(** * Domain events: kinds, subjects, recipients, drafts

    Models [internal/event]: [kind.go], [model.go], [metadata.go] and [draft.go]. *)

From S2P Require Import Prelude.
From S2P Require Import Core.
Local Open Scope string_scope.

(** ** [kind.go] *)

Inductive Kind :=
| KindTaskOpened | KindTaskFunded | KindTaskCancelled | KindTaskExpired
| KindTaskCommented | KindSeriesCommented | KindReservationRequested
| KindReservationApproved | KindReservationDeclined | KindReservationCancelled
| KindReservationExpired | KindSubmissionCreated | KindSubmissionAccepted
| KindSubmissionChangesRequested | KindSubmissionRejected
| KindSubmissionSuperseded | KindSubmissionCommented | KindPayoutReceived
| KindCreditGranted | KindTipReceived | KindCollectibleAwarded
| KindCollectibleWithdrawn | KindCollectibleReleased | KindCreditsSent.

#[export] Instance Kind_eq_dec : EqDecision Kind.
Proof. solve_decision. Defined.

Definition Kind_String (kind : Kind) : string :=
  match kind with
  | KindTaskOpened => "task_opened"
  | KindTaskFunded => "task_funded"
  | KindTaskCancelled => "task_cancelled"
  | KindTaskExpired => "task_expired"
  | KindTaskCommented => "task_commented"
  | KindSeriesCommented => "series_commented"
  | KindReservationRequested => "reservation_requested"
  | KindReservationApproved => "reservation_approved"
  | KindReservationDeclined => "reservation_declined"
  | KindReservationCancelled => "reservation_cancelled"
  | KindReservationExpired => "reservation_expired"
  | KindSubmissionCreated => "submission_created"
  | KindSubmissionAccepted => "submission_accepted"
  | KindSubmissionChangesRequested => "submission_changes_requested"
  | KindSubmissionRejected => "submission_rejected"
  | KindSubmissionSuperseded => "submission_superseded"
  | KindSubmissionCommented => "submission_commented"
  | KindPayoutReceived => "payout_received"
  | KindCreditGranted => "credit_granted"
  | KindTipReceived => "tip_received"
  | KindCollectibleAwarded => "collectible_awarded"
  | KindCollectibleWithdrawn => "collectible_withdrawn"
  | KindCollectibleReleased => "collectible_released"
  | KindCreditsSent => "credits_sent"
  end.

Definition AllKinds : list Kind :=
  [ KindTaskOpened; KindTaskFunded; KindTaskCancelled; KindTaskExpired;
    KindTaskCommented; KindSeriesCommented; KindReservationRequested;
    KindReservationApproved; KindReservationDeclined; KindReservationCancelled;
    KindReservationExpired; KindSubmissionCreated; KindSubmissionAccepted;
    KindSubmissionChangesRequested; KindSubmissionRejected;
    KindSubmissionSuperseded; KindSubmissionCommented; KindPayoutReceived;
    KindCreditGranted; KindTipReceived; KindCollectibleAwarded;
    KindCollectibleWithdrawn; KindCollectibleReleased; KindCreditsSent ].

Inductive KindResult :=
| KindParsed (Value : Kind)
| KindRejected (Reason : DomainError).

Definition ParseKind (raw : string) : KindResult :=
  match list_find (fun kind => Kind_String kind = raw) AllKinds with
  | Some (_, kind) => KindParsed kind
  | None => KindRejected (NewDomainError ErrorCodeInvalidEnum "unknown domain event kind")
  end.

(** ** [model.go] *)

Inductive Actor := ActorUser (ID : UserID) | ActorSystem.

Definition ActorUserID `{UUIDLib} (actor : Actor) : UserID :=
  match actor with
  | ActorUser id => id
  | ActorSystem => SystemUserID
  end.

Inductive TaskRef := NoTask | TaskSubject (ID : TaskID).
Inductive SubmissionRef := NoSubmission | SubmissionSubject (ID : SubmissionID).
Inductive ReservationRef := NoReservation | ReservationSubject (ID : TaskReservationID).
Inductive SeriesRef := NoSeries | SeriesSubject (ID : TaskSeriesID).
Inductive OrganizationRef := NoOrganization | OrganizationSubject (ID : OrganizationID).
Inductive CollectibleRef := NoCollectible | CollectibleSubject (ID : CollectibleID).

Record Subject := MkSubject {
  Subject_Task : TaskRef;
  Subject_Submission : SubmissionRef;
  Subject_Reservation : ReservationRef;
  Subject_Series : SeriesRef;
  Subject_Organization : OrganizationRef;
  Subject_Collectible : CollectibleRef
}.

Definition NoSubjectRefs : Subject :=
  MkSubject NoTask NoSubmission NoReservation NoSeries NoOrganization NoCollectible.

(** Assignments to a field of a subject value. *)
Definition set_Task (ref : TaskRef) (s : Subject) : Subject :=
  MkSubject ref (Subject_Submission s) (Subject_Reservation s) (Subject_Series s)
    (Subject_Organization s) (Subject_Collectible s).
Definition set_Submission (ref : SubmissionRef) (s : Subject) : Subject :=
  MkSubject (Subject_Task s) ref (Subject_Reservation s) (Subject_Series s)
    (Subject_Organization s) (Subject_Collectible s).
Definition set_Reservation (ref : ReservationRef) (s : Subject) : Subject :=
  MkSubject (Subject_Task s) (Subject_Submission s) ref (Subject_Series s) (Subject_Organization s) (Subject_Collectible s).
Definition set_Organization (ref : OrganizationRef) (s : Subject) : Subject :=
  MkSubject (Subject_Task s) (Subject_Submission s) (Subject_Reservation s) (Subject_Series s)
    ref (Subject_Collectible s).

Record Metadata := MkMetadata { Metadata_JSON : string }.

Definition EmptyMetadata : Metadata := MkMetadata "{}".

Record Cursor := MkCursor { Sequence : Z }.

(** ** [metadata.go] *)

(** JSON text is written with [\] for the quotation mark of the source. *)
Definition dquote : string := String (byte 34) "".
Definition quoted (s : string) : string := dquote +:+ s +:+ dquote.

(** [strconv.FormatInt amount 10] *)
Definition FormatInt (amount : Z) : string := pretty amount.

Definition TaskMetadata `{UUIDLib} (taskID : TaskID) : Metadata :=
  MkMetadata ("{" +:+ quoted "task_id" +:+ ":" +:+ quoted (TypedID_String taskID) +:+ "}").

Definition TaskAmountMetadata `{UUIDLib} (taskID : TaskID) (amount : Z) : Metadata :=
  MkMetadata ("{" +:+ quoted "task_id" +:+ ":" +:+ quoted (TypedID_String taskID) +:+ "," +:+
              quoted "amount" +:+ ":" +:+ FormatInt amount +:+ "}").

Definition AmountMetadata (amount : Z) : Metadata :=
  MkMetadata ("{" +:+ quoted "amount" +:+ ":" +:+ FormatInt amount +:+ "}").

Definition TaskRefundMetadata `{UUIDLib} (taskID : TaskID) : Metadata :=
  MkMetadata ("{" +:+ quoted "task_id" +:+ ":" +:+ quoted (TypedID_String taskID) +:+ "," +:+
              quoted "cause" +:+ ":" +:+ quoted "refund" +:+ "}").

Definition TaskCollectibleMetadata `{UUIDLib} (taskID : TaskID) (collectibleID : CollectibleID) : Metadata :=
  MkMetadata ("{" +:+ quoted "task_id" +:+ ":" +:+ quoted (TypedID_String taskID) +:+ "," +:+
              quoted "collectible_id" +:+ ":" +:+ quoted (TypedID_String collectibleID) +:+ "}").

(** ** Recipients *)

Record Recipients := MkRecipients { Users : list UserID }.

(** The loop of [NewRecipients]: [seen] is the map keyed by the formatted id. *)
Fixpoint dedup_users `{UUIDLib} (seen : gset string) (users : list UserID) : list UserID :=
  match users with
  | [] => []
  | user :: users =>
      if decide (TypedID_String user ∈ seen) then dedup_users seen users
      else user :: dedup_users ({[TypedID_String user]} ∪ seen) users
  end.

Definition NewRecipients `{UUIDLib} (users : list UserID) : Recipients :=
  MkRecipients (dedup_users ∅ users).

(** ** [draft.go] *)

Record Draft := MkDraft {
  Draft_ID : DomainEventID;
  Draft_Kind : Kind;
  Draft_Actor : Actor;
  Draft_Subject : Subject;
  Draft_Metadata : Metadata;
  Draft_Recipients : Recipients
}.

Inductive DraftResult :=
| DraftCreated (Value : Draft)
| DraftRejected (Reason : DomainError).

(** [idResult] is what [core.NewDomainEventID()] returned. *)
Definition NewDraft (idResult : TypedIDResult KDomainEvent) (kind : Kind) (actor : Actor)
    (subject : Subject) (metadata : Metadata) (recipients : Recipients) : DraftResult :=
  match idResult with
  | TypedIDCreated id => DraftCreated (MkDraft id kind actor subject metadata recipients)
  | TypedIDRejected reason => DraftRejected reason
  end.

Definition WithRecipients `{UUIDLib} (draft : Draft) (users : list UserID) : Draft :=
  let merged := (Users (Draft_Recipients draft) ++ users)%list in
  MkDraft (Draft_ID draft) (Draft_Kind draft) (Draft_Actor draft) (Draft_Subject draft)
    (Draft_Metadata draft) (NewRecipients merged).

Inductive Plan := NoEvent | RecordDraft (Draft : Draft).

Inductive DispatchState := DispatchStateRecorded | DispatchStateDispatched | DispatchStateFailed.

Definition DispatchState_String (state : DispatchState) : string :=
  match state with
  | DispatchStateRecorded => "recorded"
  | DispatchStateDispatched => "dispatched"
  | DispatchStateFailed => "dispatch_failed"
  end.

Inductive DispatchStateResult :=
| DispatchStateParsed (Value : DispatchState)
| DispatchStateRejected (Reason : DomainError).

Definition ParseDispatchState (raw : string) : DispatchStateResult :=
  let case s := (DispatchState_String s, DispatchStateParsed s) in
  switch raw
    [ case DispatchStateRecorded; case DispatchStateDispatched; case DispatchStateFailed ]
    (DispatchStateRejected (NewDomainError ErrorCodeInvalidEnum "unknown event dispatch state")).

(** ** Lemmas *)

Section Recipients.
Context `{UUIDLaws}.

Lemma dedup_users_elem seen us u :
  u ∈ dedup_users seen us <-> u ∈ us /\ TypedID_String u ∉ seen.
Proof.
  revert seen. induction us as [|v us IH]; intros seen; cbn.
  { split; [intros Hu|intros [Hu _]]; by apply not_elem_of_nil in Hu. }
  case_decide as Hv.
  - rewrite IH, elem_of_cons. split; [tauto|]. intros [[->|Hu] Hs]; [done|tauto].
  - rewrite !elem_of_cons, IH, not_elem_of_union, not_elem_of_singleton. split; [by intros [->|(? & ? & ?)]; auto|].
    intros [[->|Hu] Hs]; [by left|]. destruct (decide (u = v)) as [->|Hne]; [by left|right].
    split; [done|]. split; [|done]. by intros Heq%TypedID_String_inj.
Qed.

Lemma NewRecipients_elem us u : u ∈ Users (NewRecipients us) <-> u ∈ us.
Proof. unfold NewRecipients. cbn [Users]. rewrite dedup_users_elem. set_solver. Qed.

Lemma dedup_users_NoDup seen us : NoDup (dedup_users seen us).
Proof.
  revert seen. induction us as [|v us IH]; intros seen; cbn; [constructor|].
  case_decide; [apply IH|]. constructor; [|apply IH].
  rewrite dedup_users_elem, not_elem_of_union, not_elem_of_singleton. tauto.
Qed.

Lemma dedup_users_sublist seen us : dedup_users seen us `sublist_of` us.
Proof.
  revert seen. induction us as [|v us IH]; intros seen; cbn; [constructor|].
  case_decide; [by apply sublist_cons|by apply sublist_skip].
Qed.

(** The recipients of an event are the users given, each once, in the order of their first
    mention. *)
Theorem NewRecipients_set us :
  NoDup (Users (NewRecipients us)) /\ Users (NewRecipients us) `sublist_of` us /\
  forall u, u ∈ Users (NewRecipients us) <-> u ∈ us.
Proof.
  split; [apply dedup_users_NoDup|]. split; [apply dedup_users_sublist|].
  intros u. apply NewRecipients_elem.
Qed.
End Recipients.
