(* ===== verification/Json.v ===== *)
(** * The parts of Go's [encoding/json], [unicode/utf8] and [strconv] in use

    The schema package reads untrusted JSON with [json.Decoder.Token] and
    [json.Unmarshal], and writes strings with [json.Marshal].  This file models
    what it uses of them, on byte lists: UTF-8 runes, string literals and their
    escapes, the number scanner, the token state machine of the decoder, and
    [strconv.ParseInt] and [ParseFloat] on the numbers it finds. *)

From Stdlib Require Import Ascii.
From S2P Require Import Prelude.
Local Open Scope string_scope.
Local Open Scope list_scope.


Definition bytes : Type := list ascii.

Definition to_bytes (s : string) : bytes := String.list_ascii_of_string s.
Definition of_bytes (b : bytes) : string := String.string_of_list_ascii b.

Definition code (c : ascii) : N := N_of_ascii c.
Definition char_of (n : N) : ascii := ascii_of_N n.

Definition between (lo hi : N) (c : ascii) : bool := (lo <=? code c)%N && (code c <=? hi)%N.
Definition ceq (c : ascii) (d : ascii) : bool := Ascii.eqb c d.
Definition one_of (s : string) (c : ascii) : bool := existsb (ceq c) (to_bytes s).

Definition is_ascii (c : ascii) : bool := (code c <? 128)%N.
Definition is_digit (c : ascii) : bool := between 48 57 c.
Definition isSpace (c : ascii) : bool := one_of " " c || between 9 10 c || between 13 13 c.

(** ** Runes *)

Definition continuation (c : ascii) : bool := between 128 191 c.

(** The range of the second byte after a lead byte, which excludes overlong
    forms, surrogates and code points past U+10FFFF. *)
Definition second_ok (lead c : ascii) : bool :=
  between (if (code lead =? 224)%N then 160 else if (code lead =? 240)%N then 144 else 128)
          (if (code lead =? 237)%N then 159 else if (code lead =? 244)%N then 143 else 191) c.

(** [utf8.DecodeRune] on a non-ASCII first byte: the rest of the encoded rune and
    what follows it, or [None] where it answers [RuneError] with width 1. *)
Definition rune_rest (lead : ascii) (t : bytes) : option (bytes * bytes) :=
  if between 194 223 lead then
    match t with
    | a :: r => if second_ok lead a then Some ([a], r) else None
    | _ => None
    end
  else if between 224 239 lead then
    match t with
    | a :: b :: r => if second_ok lead a && continuation b then Some ([a; b], r) else None
    | _ => None
    end
  else if between 240 244 lead then
    match t with
    | a :: b :: c :: r =>
        if second_ok lead a && continuation b && continuation c then Some ([a; b; c], r) else None
    | _ => None
    end
  else None.

(** [utf8.RuneError], U+FFFD, encoded. *)
Definition replacement : bytes := char_of <$> [239; 191; 189]%N.

Inductive utf8 : bytes -> Prop :=
| utf8_nil : utf8 []
| utf8_ascii c s : is_ascii c = true -> utf8 s -> utf8 (c :: s)
| utf8_rune c k s : rune_rest c (k ++ s) = Some (k, s) -> utf8 s -> utf8 (c :: k ++ s).

(** [utf8.EncodeRune] *)
Definition encode_rune (r : N) : bytes :=
  char_of <$>
  (if r <? 128 then [r]
   else if r <? 2048 then [192 + r / 64; 128 + r mod 64]
   else if r <? 65536 then [224 + r / 4096; 128 + r / 64 mod 64; 128 + r mod 64]
   else [240 + r / 262144; 128 + r / 4096 mod 64; 128 + r / 64 mod 64; 128 + r mod 64])%N.

(** ** Loops that consume a string chunk by chunk *)

Section Drive.
Variable step : ascii -> bytes -> bytes * bytes.

Fixpoint drive_fuel (fuel : nat) (s : bytes) : bytes :=
  match fuel, s with
  | S fuel, c :: t => let '(out, rest) := step c t in out ++ drive_fuel fuel rest
  | _, _ => []
  end.

Definition drive (s : bytes) : bytes := drive_fuel (length s) s.

Hypothesis step_shorter : forall c t, length (step c t).2 <= length t.

Lemma drive_fuel_enough fuel fuel' s :
  length s <= fuel -> length s <= fuel' -> drive_fuel fuel s = drive_fuel fuel' s.
Proof using step_shorter.
  revert fuel' s. induction fuel as [|fuel IH]; intros [|fuel'] [|c t]; cbn; try lia; try done.
  intros H1 H2. pose proof (step_shorter c t) as Hs. destruct (step c t) as [out rest]. cbn in Hs.
  f_equal. apply IH; lia.
Qed.

Lemma drive_nil : drive [] = [].
Proof. done. Qed.

Lemma drive_cons c t : drive (c :: t) = (step c t).1 ++ drive (step c t).2.
Proof using step_shorter.
  unfold drive. cbn. pose proof (step_shorter c t) as Hs. destruct (step c t) as [out rest]. cbn in *.
  f_equal. apply drive_fuel_enough; lia.
Qed.
End Drive.

(** ** String literals *)

Definition rune_or (c : ascii) (t : bytes) (invalid : bytes) : bytes * bytes :=
  match rune_rest c t with
  | Some (k, rest) => (c :: k, rest)
  | None => (invalid, t)
  end.

Definition hex_digit (n : N) : ascii := char_of (if n <? 10 then 48 + n else 87 + n)%N.

(** The loop of [json.Marshal] on a string, with HTML escaping. *)
Definition quote_step (c : ascii) (t : bytes) : bytes * bytes :=
  if is_ascii c then
    (if ceq c "034"%char || ceq c "\"%char then ["\"%char; c]
     else if ceq c "008"%char then ["\"%char; "b"%char]
     else if ceq c "012"%char then ["\"%char; "f"%char]
     else if ceq c "010"%char then ["\"%char; "n"%char]
     else if ceq c "013"%char then ["\"%char; "r"%char]
     else if ceq c "009"%char then ["\"%char; "t"%char]
     else if (code c <? 32)%N || one_of "<>&" c then
       to_bytes "\u00" ++ [hex_digit (code c / 16); hex_digit (code c mod 16)]
     else [c], t)
  else
    let '(out, rest) := rune_or c t (to_bytes "\ufffd") in
    (if bool_decide (out = char_of <$> [226; 128; 168]%N) then to_bytes "\u2028"
     else if bool_decide (out = char_of <$> [226; 128; 169]%N) then to_bytes "\u2029"
     else out, rest).

Definition Marshal_string (s : bytes) : bytes := "034"%char :: drive quote_step s ++ ["034"%char].

Definition hex_value (c : ascii) : option N :=
  if is_digit c then Some (code c - 48)%N
  else if between 97 102 c then Some (code c - 87)%N
  else if between 65 70 c then Some (code c - 55)%N
  else None.

(** Four hexadecimal digits. *)
Definition hex4 (t : bytes) : option (N * bytes) :=
  match t with
  | a :: b :: c :: d :: rest =>
      match hex_value a, hex_value b, hex_value c, hex_value d with
      | Some x, Some y, Some z, Some w => Some (4096 * x + 256 * y + 16 * z + w, rest)%N
      | _, _, _, _ => None
      end
  | _ => None
  end.

(** [getu4]: an escape [\uXXXX]. *)
Definition getu4 (t : bytes) : option (N * bytes) :=
  match t with
  | b :: u :: rest => if ceq b "\"%char && ceq u "u"%char then hex4 rest else None
  | _ => None
  end.

Definition is_surrogate (r : N) : bool := (55296 <=? r)%N && (r <? 57344)%N.

(** [utf16.DecodeRune] where it is not the replacement character. *)
Definition surrogate_pair (r r1 : N) : option N :=
  if (r <? 56320)%N && ((56320 <=? r1)%N && (r1 <? 57344)%N)
  then Some (65536 + 1024 * (r - 55296) + (r1 - 56320))%N else None.

(** The loop of [unquote].  The scanner lets no other escape through. *)
Definition unescape (e : ascii) : bytes :=
  if ceq e "034"%char || ceq e "\"%char || ceq e "/"%char then [e]
  else if ceq e "b"%char then ["008"%char]
  else if ceq e "f"%char then ["012"%char]
  else if ceq e "n"%char then ["010"%char]
  else if ceq e "r"%char then ["013"%char]
  else if ceq e "t"%char then ["009"%char]
  else [].

Definition unquote_step (c : ascii) (t : bytes) : bytes * bytes :=
  if ceq c "\"%char then
    match getu4 (c :: t) with
    | Some (r, rest) =>
        if is_surrogate r then
          match getu4 rest with
          | Some (r1, rest1) =>
              match surrogate_pair r r1 with
              | Some rune => (encode_rune rune, rest1)
              | None => (replacement, rest)
              end
          | None => (replacement, rest)
          end
        else (encode_rune r, rest)
    | None =>
        match t with
        | e :: rest => (unescape e, rest)
        | [] => ([], [])
        end
    end
  else if is_ascii c then ([c], t)
  else rune_or c t replacement.

Definition unquote (body : bytes) : bytes := drive unquote_step body.

(** The scanner inside a string literal: the body up to the closing quote. *)
Inductive StrState := stateInString | stateInStringEsc | stateInStringEscU (digits : nat).

Definition str_step (st : StrState) (c : ascii) : option StrState :=
  match st with
  | stateInString =>
      if ceq c "\"%char then Some stateInStringEsc
      else if (code c <? 32)%N then None else Some stateInString
  | stateInStringEsc =>
      if one_of "bfnrt\/" c || ceq c "034"%char then Some stateInString
      else if ceq c "u"%char then Some (stateInStringEscU 3) else None
  | stateInStringEscU n =>
      match hex_value c with
      | None => None
      | Some _ => Some (match n with O => stateInString | S n => stateInStringEscU n end)
      end
  end.

Fixpoint scan_string (st : StrState) (s : bytes) : option (bytes * bytes) :=
  match s with
  | [] => None
  | c :: t =>
      if ceq c "034"%char && match st with stateInString => true | _ => false end then Some ([], t)
      else match str_step st c with
           | None => None
           | Some st' => '(body, rest) ← scan_string st' t; Some (c :: body, rest)
           end
  end.

(** ** Numbers *)

Inductive NumState :=
  stateNeg | state0 | state1 | stateDot | stateDot0 | stateE | stateESign | stateE0.

(** What the scanner does with the next byte: go on, end the value before it, fail. *)
Inductive NumStep := NumNext (st : NumState) | NumEnd | NumError.

Definition is_exponent (c : ascii) : bool := one_of "eE" c.
Definition is_sign (c : ascii) : bool := one_of "+-" c.

Definition num_step (st : NumState) (c : ascii) : NumStep :=
  match st with
  | stateNeg => if ceq c "0"%char then NumNext state0 else if is_digit c then NumNext state1 else NumError
  | state0 => if ceq c "."%char then NumNext stateDot else if is_exponent c then NumNext stateE else NumEnd
  | state1 =>
      if is_digit c then NumNext state1
      else if ceq c "."%char then NumNext stateDot else if is_exponent c then NumNext stateE else NumEnd
  | stateDot => if is_digit c then NumNext stateDot0 else NumError
  | stateDot0 =>
      if is_digit c then NumNext stateDot0 else if is_exponent c then NumNext stateE else NumEnd
  | stateE =>
      if is_sign c then NumNext stateESign else if is_digit c then NumNext stateE0 else NumError
  | stateESign => if is_digit c then NumNext stateE0 else NumError
  | stateE0 => if is_digit c then NumNext stateE0 else NumEnd
  end.

(** At the end of the input a space is fed to the scanner. *)
Definition num_complete (st : NumState) : bool :=
  match num_step st " "%char with NumEnd => true | _ => false end.

Fixpoint scan_number_from (st : NumState) (s : bytes) : option (bytes * bytes) :=
  match s with
  | [] => if num_complete st then Some ([], []) else None
  | c :: t =>
      match num_step st c with
      | NumNext st' => '(lit, rest) ← scan_number_from st' t; Some (c :: lit, rest)
      | NumEnd => Some ([], s)
      | NumError => None
      end
  end.

Definition scan_number (s : bytes) : option (bytes * bytes) :=
  match s with
  | [] => None
  | c :: t =>
      '(lit, rest) ←
        (if ceq c "-"%char then scan_number_from stateNeg t
         else if ceq c "0"%char then scan_number_from state0 t
         else if is_digit c then scan_number_from state1 t
         else None);
      Some (c :: lit, rest)
  end.

(** ** [strconv] *)

Definition digit_value (c : ascii) : N := (code c - 48)%N.
Definition digits_value (ds : bytes) : N := foldl (fun acc c => 10 * acc + digit_value c)%N 0%N ds.

(** [strconv.ParseInt(s, 10, 64)]: [None] for a syntax or range error. *)
Definition ParseInt (s : bytes) : option Z :=
  let '(negative, ds) :=
    match s with
    | c :: t => if ceq c "-"%char then (true, t) else if ceq c "+"%char then (false, t) else (false, s)
    | [] => (false, [])
    end in
  if bool_decide (ds = []) || negb (forallb is_digit ds) then None
  else
    let z := (if negative then - Z.of_N (digits_value ds) else Z.of_N (digits_value ds))%Z in
    if in_int64 z then Some z else None.

Definition lower (c : ascii) : ascii := if between 65 90 c then char_of (code c + 32) else c.
Definition equal_fold (s t : bytes) : bool := bool_decide (lower <$> s = lower <$> t).

(** [special]: the whole of [s] is an infinity or a NaN. *)
Definition float_special (s : bytes) : bool :=
  let unsigned := match s with c :: t => if is_sign c then t else s | [] => s end in
  equal_fold unsigned (to_bytes "inf") || equal_fold unsigned (to_bytes "infinity") ||
  equal_fold s (to_bytes "nan").

(** [underscoreOK]: underscores separate digits, or the base prefix from them. *)
Inductive UnderscoreSaw := SawStart | SawDigit | SawUnderscore | SawOther.

Fixpoint underscore_scan (hex : bool) (saw : UnderscoreSaw) (s : bytes) : bool :=
  match s with
  | [] => match saw with SawUnderscore => false | _ => true end
  | c :: t =>
      if is_digit c || hex && between 97 102 (lower c) then underscore_scan hex SawDigit t
      else if ceq c "_"%char then
        match saw with SawDigit => underscore_scan hex SawUnderscore t | _ => false end
      else match saw with SawUnderscore => false | _ => underscore_scan hex SawOther t end
  end.

Definition underscoreOK (s : bytes) : bool :=
  let s := match s with c :: t => if is_sign c then t else s | [] => s end in
  match s with
  | z :: p :: t =>
      if ceq z "0"%char && one_of "box" (lower p)
      then underscore_scan (ceq (lower p) "x"%char) SawDigit t
      else underscore_scan false SawStart s
  | _ => underscore_scan false SawStart s
  end.

(** The mantissa of [readFloat]: its value, the digits after the point, what was
    seen, and the unread input. *)
Record Mantissa := MkMantissa {
  mant_value : N; mant_scale : nat; mant_dot : bool; mant_digits : bool; mant_rest : bytes
}.

Fixpoint read_mantissa (base : N) (m : Mantissa) (s : bytes) : Mantissa :=
  match s with
  | [] => MkMantissa (mant_value m) (mant_scale m) (mant_dot m) (mant_digits m) []
  | c :: t =>
      let stop := MkMantissa (mant_value m) (mant_scale m) (mant_dot m) (mant_digits m) s in
      if ceq c "_"%char then read_mantissa base m t
      else if ceq c "."%char then
        if mant_dot m then stop
        else read_mantissa base (MkMantissa (mant_value m) (mant_scale m) true (mant_digits m) t) t
      else
        match hex_value c with
        | Some d =>
            if (d <? base)%N
            then read_mantissa base (MkMantissa (base * mant_value m + d)%N
                   (if mant_dot m then S (mant_scale m) else mant_scale m) (mant_dot m) true t) t
            else stop
        | None => stop
        end
  end.

(** The exponent digits: their value stops growing once it reaches 10000. *)
Fixpoint read_exponent (e : Z) (s : bytes) : Z * bytes :=
  match s with
  | [] => (e, [])
  | c :: t =>
      if ceq c "_"%char then read_exponent e t
      else if is_digit c
      then read_exponent (if e <? 10000 then 10 * e + Z.of_N (digit_value c) else e)%Z t
      else (e, s)
  end.

Definition signed_exponent (s : bytes) : option (Z * bytes) :=
  let '(sign, t) :=
    match s with
    | c :: t => if ceq c "+"%char then (1, t) else if ceq c "-"%char then (-1, t) else (1, s)
    | [] => (1, s)
    end%Z in
  match t with
  | d :: _ => if is_digit d then let '(e, rest) := read_exponent 0 t in Some (sign * e, rest)%Z else None
  | [] => None
  end.

(** The least magnitude that rounds past the greatest float64. *)
Definition float64_overflow : Z := 2 ^ 1024 - 2 ^ 970.

(** [m * radix ^ e] is at least [float64_overflow]. *)
Definition overflows (m radix e : Z) : bool :=
  if (0 <=? e)%Z then (float64_overflow <=? m * radix ^ e)%Z
  else (float64_overflow * radix ^ (- e) <=? m)%Z.

(** [strconv.ParseFloat(s, 64)] returns no error. *)
Definition ParseFloat_ok (s : bytes) : bool :=
  float_special s ||
  (let t := match s with c :: t => if is_sign c then t else s | [] => s end in
   let '(hex, t) :=
     match t with
     | z :: x :: d :: t' => if ceq z "0"%char && ceq (lower x) "x"%char then (true, d :: t') else (false, t)
     | _ => (false, t)
     end in
   let m := read_mantissa (if hex then 16 else 10) (MkMantissa 0 0 false false t) t in
   let exponent :=
     match mant_rest m with
     | c :: rest =>
         if ceq (lower c) (if hex then "p"%char else "e"%char) then signed_exponent rest
         else if hex then None else Some (0%Z, mant_rest m)
     | [] => if hex then None else Some (0%Z, [])
     end in
   match exponent with
   | Some (e, []) =>
       mant_digits m && (negb (one_of (of_bytes s) "_"%char) || underscoreOK s) &&
       negb (if hex then overflows (Z.of_N (mant_value m)) 2 (e - 4 * Z.of_nat (mant_scale m))
             else overflows (Z.of_N (mant_value m)) 10 (e - Z.of_nat (mant_scale m)))
   | _ => false
   end).

Example ParseFloat_samples :
  ParseFloat_ok <$> (to_bytes <$> ["1.5"; "-0"; "1e400"; "1.7976931348623158e308"; "1.797693134862315e308";
    "NaN"; "+Inf"; "1_000"; "0x1p-2"; "1__0"; "_1"; "."; ""; "1e"; "5."]) =
  [true; true; false; true; true; true; true; true; true; false; false; false; false; false; true].
Proof. vm_compute. reflexivity. Qed.

(** ** [json.Decoder.Token] *)

Inductive TokenState :=
| tokenTopValue | tokenArrayStart | tokenArrayValue | tokenArrayComma
| tokenObjectStart | tokenObjectKey | tokenObjectColon | tokenObjectValue | tokenObjectComma.

(** The unread input, the state and the stack of the states of the enclosing
    values. *)
Record Decoder := MkDecoder {
  dec_buf : bytes;
  dec_state : TokenState;
  dec_stack : list TokenState
}.

Definition NewDecoder (raw : bytes) : Decoder := MkDecoder raw tokenTopValue [].

Inductive JSONToken :=
| TokenDelim (delim : ascii)
| TokenString (value : bytes)
| TokenNumber (literal : bytes)
| TokenBool (value : bool)
| TokenNull.

Fixpoint skip_space (s : bytes) : bytes :=
  match s with
  | c :: t => if isSpace c then skip_space t else s
  | [] => []
  end.

Definition More (d : Decoder) : bool :=
  match skip_space (dec_buf d) with
  | c :: _ => negb (one_of "]}" c)
  | [] => false
  end.

Definition tokenValueAllowed (st : TokenState) : bool :=
  match st with
  | tokenTopValue | tokenArrayStart | tokenArrayValue | tokenObjectValue => true
  | _ => false
  end.

Definition tokenValueEnd (st : TokenState) : TokenState :=
  match st with
  | tokenArrayStart | tokenArrayValue => tokenArrayComma
  | tokenObjectValue => tokenObjectComma
  | st => st
  end.

Definition strip_literal (word s : bytes) : option bytes :=
  if bool_decide (take (length word) s = word) then Some (drop (length word) s) else None.

(** [Decode] of a value that is neither an array nor an object. *)
Definition scan_scalar (s : bytes) : option (JSONToken * bytes) :=
  match s with
  | [] => None
  | c :: t =>
      if ceq c "034"%char then '(body, rest) ← scan_string stateInString t; Some (TokenString (unquote body), rest)
      else if ceq c "t"%char then rest ← strip_literal (to_bytes "true") s; Some (TokenBool true, rest)
      else if ceq c "f"%char then rest ← strip_literal (to_bytes "false") s; Some (TokenBool false, rest)
      else if ceq c "n"%char then rest ← strip_literal (to_bytes "null") s; Some (TokenNull, rest)
      else '(lit, rest) ← scan_number s; Some (TokenNumber lit, rest)
  end.

(** One turn of the loop of [Token]: a token, or a separator skipped. *)
Inductive TokenTurn :=
| TokenRead (token : JSONToken) (d : Decoder)
| TokenSkip (d : Decoder)
| TokenError.

Definition open_value (delim : ascii) (inside : TokenState) (d : Decoder) (rest : bytes) : TokenTurn :=
  if tokenValueAllowed (dec_state d)
  then TokenRead (TokenDelim delim) (MkDecoder rest inside (dec_state d :: dec_stack d))
  else TokenError.

Definition close_value (delim : ascii) (rest : bytes) (d : Decoder) : TokenTurn :=
  match dec_stack d with
  | outer :: stack => TokenRead (TokenDelim delim) (MkDecoder rest (tokenValueEnd outer) stack)
  | [] => TokenError
  end.

Definition token_turn (d : Decoder) : TokenTurn :=
  match skip_space (dec_buf d) with
  | [] => TokenError
  | c :: rest =>
      if ceq c "["%char then open_value c tokenArrayStart d rest
      else if ceq c "]"%char then
        match dec_state d with
        | tokenArrayStart | tokenArrayComma => close_value c rest d
        | _ => TokenError
        end
      else if ceq c "{"%char then open_value c tokenObjectStart d rest
      else if ceq c "}"%char then
        match dec_state d with
        | tokenObjectStart | tokenObjectComma => close_value c rest d
        | _ => TokenError
        end
      else if ceq c ":"%char then
        match dec_state d with
        | tokenObjectColon => TokenSkip (MkDecoder rest tokenObjectValue (dec_stack d))
        | _ => TokenError
        end
      else if ceq c ","%char then
        match dec_state d with
        | tokenArrayComma => TokenSkip (MkDecoder rest tokenArrayValue (dec_stack d))
        | tokenObjectComma => TokenSkip (MkDecoder rest tokenObjectKey (dec_stack d))
        | _ => TokenError
        end
      else
        match dec_state d, ceq c "034"%char with
        | (tokenObjectStart | tokenObjectKey), true =>
            match scan_scalar (c :: rest) with
            | Some (token, rest) => TokenRead token (MkDecoder rest tokenObjectColon (dec_stack d))
            | None => TokenError
            end
        | st, _ =>
            if tokenValueAllowed st then
              match scan_scalar (c :: rest) with
              | Some (token, rest) => TokenRead token (MkDecoder rest (tokenValueEnd st) (dec_stack d))
              | None => TokenError
              end
            else TokenError
        end
  end.

(** The loop turns at most twice: no separator is accepted after a separator. *)
Definition Token (d : Decoder) : option (JSONToken * Decoder) :=
  match token_turn d with
  | TokenRead token d' => Some (token, d')
  | TokenSkip d' =>
      match token_turn d' with
      | TokenRead token d'' => Some (token, d'')
      | _ => None
      end
  | TokenError => None
  end.

Lemma token_turn_skips_once d d' d'' : token_turn d = TokenSkip d' -> token_turn d' <> TokenSkip d''.
Proof.
  assert (forall e e', token_turn e = TokenSkip e' ->
    dec_state e' <> tokenObjectColon /\ dec_state e' <> tokenArrayComma /\ dec_state e' <> tokenObjectComma /\
    (dec_state e = tokenObjectColon \/ dec_state e = tokenArrayComma \/ dec_state e = tokenObjectComma)) as Hskip.
  { intros e e'. unfold token_turn, open_value, close_value. destruct (skip_space _) as [|c rest]; [done|].
    repeat split_match; intros E'; inversion E'; cbn; repeat split; first [done|auto]. }
  intros H1 H2. apply Hskip in H1 as (? & ? & ? & _), H2 as (_ & _ & _ & [?|[?|?]]); auto.
Qed.

(** ** [json.Unmarshal]: the syntax tree of a whole document *)

#[local] Unset Elimination Schemes.
Inductive JSON :=
| JNull
| JBool (value : bool)
| JNumber (literal : bytes)
| JString (value : bytes)
| JArray (items : list JSON)
| JObject (members : list (bytes * JSON)).
#[local] Set Elimination Schemes.

Definition maxScanDepth : nat := 100 * 100.

(** A document is a value between spaces.  [nesting] is what is left of the
    scanner's depth limit; the fuel is consumed with the input. *)
Fixpoint scan_json (fuel nesting : nat) (s : bytes) {struct fuel} : option (JSON * bytes) :=
  match fuel with
  | O => None
  | S fuel =>
      match skip_space s with
      | [] => None
      | c :: t =>
          if ceq c "["%char then
            match nesting with
            | O => None
            | S nesting =>
                match skip_space t with
                | e :: rest =>
                    if ceq e "]"%char then Some (JArray [], rest)
                    else '(items, rest) ← scan_items fuel nesting t; Some (JArray items, rest)
                | [] => None
                end
            end
          else if ceq c "{"%char then
            match nesting with
            | O => None
            | S nesting =>
                match skip_space t with
                | e :: rest =>
                    if ceq e "}"%char then Some (JObject [], rest)
                    else '(members, rest) ← scan_members fuel nesting t; Some (JObject members, rest)
                | [] => None
                end
            end
          else
            '(token, rest) ← scan_scalar (c :: t);
            match token with
            | TokenString v => Some (JString v, rest)
            | TokenNumber lit => Some (JNumber lit, rest)
            | TokenBool b => Some (JBool b, rest)
            | TokenNull => Some (JNull, rest)
            | TokenDelim _ => None
            end
      end
  end
with scan_items (fuel nesting : nat) (s : bytes) {struct fuel} : option (list JSON * bytes) :=
  match fuel with
  | O => None
  | S fuel =>
      '(item, rest) ← scan_json fuel nesting s;
      match skip_space rest with
      | c :: rest =>
          if ceq c "]"%char then Some ([item], rest)
          else if ceq c ","%char then '(items, rest) ← scan_items fuel nesting rest; Some (item :: items, rest)
          else None
      | [] => None
      end
  end
with scan_members (fuel nesting : nat) (s : bytes) {struct fuel} : option (list (bytes * JSON) * bytes) :=
  match fuel with
  | O => None
  | S fuel =>
      match skip_space s with
      | q :: t =>
          if ceq q "034"%char then
            '(body, rest) ← scan_string stateInString t;
            match skip_space rest with
            | c :: rest =>
                if ceq c ":"%char then
                  '(value, rest) ← scan_json fuel nesting rest;
                  match skip_space rest with
                  | c :: rest =>
                      if ceq c "}"%char then Some ([(unquote body, value)], rest)
                      else if ceq c ","%char then
                        '(members, rest) ← scan_members fuel nesting rest;
                        Some ((unquote body, value) :: members, rest)
                      else None
                  | [] => None
                  end
                else None
            | [] => None
            end
          else None
      | [] => None
      end
  end.

Definition json_document (raw : bytes) : option JSON :=
  '(value, rest) ← scan_json (2 * length raw + 2) maxScanDepth raw;
  match skip_space rest with
  | [] => Some value
  | _ => None
  end.

(** JSON text for samples: a quote stands for the double quote. *)
Definition json_text (s : string) : string :=
  of_bytes ((fun c => if ceq c "'"%char then "034"%char else c) <$> to_bytes s).
