(* ===== verification/JsonFacts.v ===== *)
(** * Facts about the JSON text layer

    UTF-8 validity under concatenation and trimming, the round trip of string
    literals, the number scanner and decimal numerals, and the token reader. *)

From Stdlib Require Import Ascii.
From S2P Require Import Prelude.
From S2P Require Import Events.
From S2P Require Import Json.
Local Open Scope string_scope.
Local Open Scope list_scope.

(** ** Bytes *)

Lemma of_to_bytes s : of_bytes (to_bytes s) = s.
Proof. apply String.string_of_list_ascii_of_string. Qed.

Lemma to_of_bytes b : to_bytes (of_bytes b) = b.
Proof. apply String.list_ascii_of_string_of_list_ascii. Qed.

Lemma to_bytes_inj s t : to_bytes s = to_bytes t -> s = t.
Proof. intros E. by rewrite <- (of_to_bytes s), E, of_to_bytes. Qed.

Lemma to_bytes_app s t : to_bytes (s +:+ t) = to_bytes s ++ to_bytes t.
Proof. induction s as [|c s IH]; [done|]. change (c :: to_bytes (s +:+ t) = c :: to_bytes s ++ to_bytes t). by rewrite IH. Qed.

Lemma ceq_spec c d : reflect (c = d) (ceq c d).
Proof. apply Ascii.eqb_spec. Qed.

Lemma ceq_refl c : ceq c c = true.
Proof. by destruct (ceq_spec c c). Qed.

Lemma between_spec lo hi c : between lo hi c = true <-> (lo <= code c <= hi)%N.
Proof. unfold between. rewrite andb_true_iff, !N.leb_le. done. Qed.

Lemma code_bound c : (code c < 256)%N.
Proof. apply N_ascii_bounded. Qed.

Lemma code_char_of n : (n < 256)%N -> code (char_of n) = n.
Proof. apply N_ascii_embedding. Qed.

Lemma between_char_of lo hi n : (n < 256)%N -> (lo <= n <= hi)%N -> between lo hi (char_of n) = true.
Proof. intros Hn Hb. rewrite between_spec, code_char_of; done. Qed.

(** A property of one byte is checked on the 256 of them. *)
Ltac by_byte c := destruct c as [[] [] [] [] [] [] [] []]; try done.

(** ** Runes *)

Lemma second_ok_continuation lead c : second_ok lead c = true -> continuation c = true.
Proof.
  unfold second_ok, continuation. rewrite !between_spec. intros [? ?].
  repeat case_match; lia.
Qed.

Lemma rune_lead c t : is_Some (rune_rest c t) -> is_ascii c = false /\ continuation c = false.
Proof.
  intros [kr H]. assert (194 <= code c <= 244)%N as Hc.
  { revert H. unfold rune_rest.
    destruct (between 194 223 c) eqn:E1; [rewrite between_spec in E1; lia|].
    destruct (between 224 239 c) eqn:E2; [rewrite between_spec in E2; lia|].
    destruct (between 240 244 c) eqn:E3; [rewrite between_spec in E3; lia|done]. }
  split; [apply N.ltb_ge; lia|apply not_true_iff_false; unfold continuation; rewrite between_spec; lia].
Qed.

(** What follows a lead byte depends on the continuation bytes only. *)
Lemma rune_rest_spec c t k r :
  rune_rest c t = Some (k, r) ->
  t = k ++ r /\ Forall (fun x => continuation x = true) k /\ forall r', rune_rest c (k ++ r') = Some (k, r').
Proof.
  unfold rune_rest. intros H.
  repeat (case_match; try discriminate); simplify_eq; cbn;
    repeat match goal with E : _ && _ = true |- _ => apply andb_true_iff in E as [? ?] end;
    (split; [done|split; [repeat constructor; eauto using second_ok_continuation|]]); intros r';
    repeat match goal with E : ?b = true |- context [?b] => rewrite E end; done.
Qed.

Lemma rune_rest_shorter c t k r : rune_rest c t = Some (k, r) -> length r <= length t.
Proof. intros (-> & _)%rune_rest_spec. rewrite length_app. lia. Qed.

(** A byte that is not in a rune stays out of it when the input is longer, if
    what is appended does not start with a continuation byte. *)
Definition no_continuation (s : bytes) : Prop :=
  match s with c :: _ => continuation c = false | [] => True end.

Lemma utf8_head c t : utf8 (c :: t) -> continuation c = false.
Proof.
  inversion 1 as [|? ? Hc|? ? ? Hr]; subst.
  - apply not_true_iff_false. unfold continuation, is_ascii in *. rewrite between_spec. apply N.ltb_lt in Hc. lia.
  - by eapply rune_lead.
Qed.

Lemma utf8_app s t : utf8 s -> utf8 t -> utf8 (s ++ t).
Proof.
  intros Hs Ht. induction Hs as [|c s Hc _ IH|c k s Hr _ IH]; cbn; [done|by constructor|].
  rewrite <- app_assoc. apply utf8_rune; [|done].
  apply rune_rest_spec in Hr as (_ & _ & Hr). apply Hr.
Qed.

Lemma app_split_middle {A} (a b k r : list A) :
  a ++ b = k ++ r -> (exists m, a = k ++ m /\ r = m ++ b) \/ (exists x m, k = a ++ x :: m /\ b = x :: m ++ r).
Proof.
  revert k. induction a as [|y a IH]; intros [|z k]; cbn.
  - intros ->. left. by exists [].
  - intros ->. right. by exists z, k.
  - intros <-. left. by exists (y :: a).
  - intros [= <- E]. destruct (IH _ E) as [(m & -> & ->)|(x & m & -> & ->)]; [left; by exists m|right; by exists x, m].
Qed.

Lemma utf8_split s t : no_continuation t -> utf8 (s ++ t) -> utf8 s /\ utf8 t.
Proof.
  intros Ht Hu. remember (s ++ t) as u eqn:Eu. revert s Eu.
  induction Hu as [|c u Hc Hu IH|c k u Hr Hu IH]; intros [|d s] Eu; cbn in Eu.
  - rewrite <- Eu. split; constructor.
  - done.
  - rewrite <- Eu. split; [constructor|by constructor].
  - injection Eu as <- Eu. destruct (IH _ Eu). split; [by constructor|done].
  - rewrite <- Eu. split; [constructor|by apply utf8_rune].
  - injection Eu as <- Eu. apply rune_rest_spec in Hr as (_ & Hk & Hr).
    apply eq_sym, app_split_middle in Eu as [(m & -> & E)|(x & m & -> & ->)].
    + destruct (IH _ E). split; [by apply utf8_rune|done].
    + apply Forall_app in Hk as [_ Hk]. apply Forall_cons_1 in Hk as [Hx _]. cbn in Ht. congruence.
Qed.

Lemma utf8_cancel s t : utf8 s -> utf8 (s ++ t) -> utf8 t.
Proof.
  intros Hs. induction Hs as [|c s Hc Hs IH|c k s Hr Hs IH]; cbn; intros Hu; [done| |].
  - inversion Hu as [|? ? Hd Hu'|? k' s' Hr' Hu' E]; simplify_eq; [auto|].
    assert (is_ascii c = false) by (by eapply rune_lead). congruence.
  - inversion Hu as [|? ? Hd Hu'|? k' s' Hr' Hu' [E1 E]].
    + assert (is_ascii c = false) by (by eapply rune_lead). congruence.
    + apply rune_rest_spec in Hr as (_ & _ & Hr).
      rewrite E, <- app_assoc, Hr in Hr'. injection Hr' as -> <-. auto.
Qed.

(** ** [strings.TrimSpace] *)

Lemma strip_one_Some ps l rest : strip_one ps l = Some rest -> exists p, p ∈ ps /\ l = p ++ rest.
Proof.
  unfold strip_one. destruct (list_find _ _) as [[i p]|] eqn:E; cbn; [|done].
  apply list_find_Some in E as (Hi & [k ->] & _). intros [= <-].
  exists p. split; [by eapply list_elem_of_lookup_2|]. by rewrite drop_app_length.
Qed.

Lemma strip_one_None ps l : strip_one ps l = None <-> Forall (fun p => ~ p `prefix_of` l) ps.
Proof.
  unfold strip_one. destruct (list_find _ _) as [[i p]|] eqn:E; cbn.
  - split; [done|]. intros Hall. apply list_find_Some in E as (Hi & Hp & _).
    exfalso. eapply (Forall_lookup_1 _ _ _ _ Hall); eauto.
  - split; [|done]. intros _. by apply list_find_None in E.
Qed.

Lemma strip_all_suffix (P : list ascii -> Prop) fuel ps l :
  P l -> (forall p rest, p ∈ ps -> P (p ++ rest) -> P rest) -> P (strip_all fuel ps l).
Proof.
  intros Hl Hstep. revert l Hl. induction fuel as [|fuel IH]; intros l Hl; cbn; [done|].
  destruct (strip_one ps l) as [rest|] eqn:E; [|done].
  apply strip_one_Some in E as (p & Hp & ->). eauto.
Qed.

Lemma strip_all_stuck fuel ps l : strip_one ps l = None -> strip_all fuel ps l = l.
Proof. intros E. destruct fuel; cbn; [done|]. by rewrite E. Qed.

Lemma strip_all_drops fuel ps l : exists pre, l = pre ++ strip_all fuel ps l.
Proof.
  revert l. induction fuel as [|fuel IH]; intros l; cbn; [by exists []|].
  destruct (strip_one ps l) as [rest|] eqn:E; [|by exists []].
  apply strip_one_Some in E as (p & _ & ->). destruct (IH rest) as [pre Hpre].
  exists (p ++ pre). by rewrite <- app_assoc, <- Hpre.
Qed.

Definition spaces : list bytes := to_bytes <$> space_runes.

(** [TrimSpace] on bytes. *)
Definition trim (l : bytes) : bytes :=
  let left := strip_all (length l) spaces l in
  reverse (strip_all (length left) (reverse <$> spaces) (reverse left)).

Lemma TrimSpace_trim s : to_bytes (TrimSpace s) = trim (to_bytes s).
Proof. unfold TrimSpace, trim, spaces, to_bytes. by rewrite String.list_ascii_of_string_of_list_ascii. Qed.

Lemma spaces_are_runes : Forall (fun p => p <> [] /\ no_continuation p /\ utf8 p) spaces.
Proof.
  assert (forall c, is_ascii c = true -> utf8 [c]) as H1 by (intros; apply utf8_ascii; [done|constructor]).
  assert (forall c k, rune_rest c k = Some (k, []) -> utf8 (c :: k)) as H2.
  { intros c k E. rewrite <- (app_nil_r k) at 1. apply utf8_rune; [by rewrite app_nil_r|constructor]. }
  vm_compute spaces.
  repeat (apply List.Forall_cons; [split; [done|split; [reflexivity|first [apply H1; reflexivity|apply H2; reflexivity]]]|]).
  constructor.
Qed.

Lemma trim_utf8 l : utf8 l -> utf8 (trim l).
Proof.
  intros Hl. unfold trim. pose proof spaces_are_runes as Hs. rewrite Forall_forall in Hs. setoid_rewrite <- list_elem_of_In in Hs.
  assert (utf8 (strip_all (length l) spaces l)) as Hleft.
  { apply (strip_all_suffix utf8); [done|]. intros p rest Hp. apply utf8_cancel. by apply Hs. }
  apply (strip_all_suffix (fun r => utf8 (reverse r))); [by rewrite reverse_involutive|].
  intros p rest (q & -> & Hq)%list_elem_of_fmap. rewrite reverse_app, reverse_involutive.
  intros Hu. apply (utf8_split _ q); [by apply Hs|done].
Qed.

Lemma trim_idempotent l : trim (trim l) = trim l.
Proof.
  pose proof spaces_are_runes as Hs.
  assert (Forall (fun p => p <> []) spaces) as Hne by (eapply Forall_impl; [|exact Hs]; by intros ? []).
  assert (Forall (fun p => p <> []) (reverse <$> spaces)) as Hrne.
  { apply Forall_fmap. eapply Forall_impl; [|exact Hne]. intros p Hp E. apply Hp. cbn in E.
    by rewrite <- (reverse_involutive p), E. }
  set (t := trim l). assert (strip_one spaces t = None) as Ht.
  { unfold t, trim. set (left := strip_all (length l) spaces l).
    assert (strip_one spaces left = None) as Hl by (by apply strip_all_done).
    destruct (strip_all_drops (length left) (reverse <$> spaces) (reverse left)) as [pre Hpre].
    apply strip_one_None. apply strip_one_None in Hl. eapply Forall_impl; [|exact Hl].
    intros p Hp Hpt. apply Hp. etrans; [exact Hpt|]. exists (reverse pre).
    by rewrite <- reverse_app, <- Hpre, reverse_involutive. }
  unfold trim at 1. cbv zeta. rewrite (strip_all_stuck _ _ _ Ht).
  rewrite strip_all_stuck; [by rewrite reverse_involutive|].
  unfold t, trim. cbv zeta. rewrite reverse_involutive. apply strip_all_done; [done|by rewrite length_reverse].
Qed.

Lemma TrimSpace_idempotent s : TrimSpace (TrimSpace s) = TrimSpace s.
Proof. apply to_bytes_inj. by rewrite !TrimSpace_trim, trim_idempotent. Qed.

(** ** String literals *)

Lemma rune_or_shorter c t x : length (rune_or c t x).2 <= length t.
Proof. unfold rune_or. destruct (rune_rest c t) as [[k r]|] eqn:E; cbn; [by eapply rune_rest_shorter|done]. Qed.

Lemma quote_step_shorter c t : length (quote_step c t).2 <= length t.
Proof.
  unfold quote_step. destruct (is_ascii c); [done|].
  pose proof (rune_or_shorter c t (to_bytes "\ufffd")) as Hs. by destruct (rune_or _ _ _).
Qed.

Lemma getu4_shorter t r rest : getu4 t = Some (r, rest) -> length rest + 6 <= length t.
Proof. unfold getu4, hex4. intros H. repeat (case_match; try done); simplify_eq; cbn; lia. Qed.

Lemma unquote_step_shorter c t : length (unquote_step c t).2 <= length t.
Proof.
  unfold unquote_step. destruct (ceq c "\"%char).
  - destruct (getu4 (c :: t)) as [[r rest]|] eqn:E; [|destruct t; cbn; lia].
    apply getu4_shorter in E. cbn in E. destruct (is_surrogate r); [|cbn; lia].
    destruct (getu4 rest) as [[r1 rest1]|] eqn:E1; [|cbn; lia].
    apply getu4_shorter in E1. destruct (surrogate_pair r r1); cbn; lia.
  - destruct (is_ascii c); [done|apply rune_or_shorter].
Qed.

Lemma unquote_cons c t : unquote (c :: t) = (unquote_step c t).1 ++ unquote (unquote_step c t).2.
Proof. apply drive_cons, unquote_step_shorter. Qed.

Definition quote (s : bytes) : bytes := drive quote_step s.

Lemma quote_cons c t : quote (c :: t) = (quote_step c t).1 ++ quote (quote_step c t).2.
Proof. apply drive_cons, quote_step_shorter. Qed.

(** Invalid bytes are replaced, valid text is kept. *)
Definition sanitize_step (c : ascii) (t : bytes) : bytes * bytes :=
  if is_ascii c then ([c], t) else rune_or c t replacement.

Definition sanitize (s : bytes) : bytes := drive sanitize_step s.

#[global] Arguments unquote : simpl never.
#[global] Arguments quote : simpl never.
#[global] Arguments sanitize : simpl never.

Lemma sanitize_cons c t : sanitize (c :: t) = (sanitize_step c t).1 ++ sanitize (sanitize_step c t).2.
Proof.
  apply drive_cons. intros c' t'. unfold sanitize_step.
  destruct (is_ascii c'); [done|apply rune_or_shorter].
Qed.

Lemma sanitize_utf8 s : utf8 s -> sanitize s = s.
Proof.
  induction 1 as [|c s Hc _ IH|c k s Hr _ IH]; [done| |]; rewrite sanitize_cons; unfold sanitize_step.
  - rewrite Hc. cbn -[sanitize]. by rewrite IH.
  - destruct (rune_lead _ _ (mk_is_Some _ _ Hr)) as [-> _]. unfold rune_or. rewrite Hr. cbn -[sanitize]. by rewrite IH.
Qed.

Lemma unquote_ascii c t X : is_ascii c = true -> unquote ((quote_step c t).1 ++ X) = c :: unquote X.
Proof.
  intros Hc. destruct c as [[] [] [] [] [] [] [] []]; try discriminate Hc;
    match goal with |- context [quote_step ?c t] =>
      let chunk := eval vm_compute in (quote_step c []).1 in change (quote_step c t).1 with chunk end;
    cbn [app]; rewrite unquote_cons; reflexivity.
Qed.

Lemma unquote_rune c k X : rune_rest c (k ++ X) = Some (k, X) -> unquote ((c :: k) ++ X) = (c :: k) ++ unquote X.
Proof.
  intros Hr. cbn. rewrite unquote_cons. unfold unquote_step.
  destruct (rune_lead _ _ (mk_is_Some _ _ Hr)) as [Ha _].
  destruct (ceq_spec c "\"%char) as [->|_]; [done|]. rewrite Ha. unfold rune_or. by rewrite Hr.
Qed.

Lemma unquote_escape (e : string) X r :
  e ∈ ["\ufffd"; "\u2028"; "\u2029"] -> getu4 (to_bytes e) = Some (r, []) ->
  unquote (to_bytes e ++ X) = encode_rune r ++ unquote X.
Proof.
  intros He Hg. repeat (apply elem_of_cons in He as [->|He]; [injection Hg as <-; cbn; by rewrite unquote_cons|]).
  by apply not_elem_of_nil in He.
Qed.

(** What one step of the two loops puts out, off ASCII. *)
Lemma unquote_quote_wide c t X :
  is_ascii c = false -> unquote ((quote_step c t).1 ++ X) = (sanitize_step c t).1 ++ unquote X.
Proof.
  intros Ha. unfold quote_step, sanitize_step. rewrite Ha. unfold rune_or.
  destruct (rune_rest c t) as [[k r]|] eqn:Hr; cbn [fst snd].
  - apply rune_rest_spec in Hr as (_ & _ & Hr).
    case_bool_decide as E1; [|case_bool_decide as E2]; cbn [fst snd].
    + rewrite E1. by apply (unquote_escape "\u2028" X 8232); [set_solver|].
    + rewrite E2. by apply (unquote_escape "\u2029" X 8233); [set_solver|].
    + by apply (unquote_rune c k X).
  - by apply (unquote_escape "\ufffd" X 65533); [set_solver|].
Qed.

Lemma step_rests_agree c t : (quote_step c t).2 = (sanitize_step c t).2.
Proof. unfold quote_step, sanitize_step, rune_or. repeat case_match; simplify_eq; done. Qed.

Lemma unquote_quote s : unquote (quote s) = sanitize s.
Proof.
  induction s as [s IH] using (induction_ltof1 _ length). unfold ltof in IH. destruct s as [|c t]; [done|].
  rewrite quote_cons, sanitize_cons, <- step_rests_agree.
  assert (unquote (quote (quote_step c t).2) = sanitize (quote_step c t).2) as E.
  { apply IH. pose proof (quote_step_shorter c t). cbn. lia. }
  destruct (is_ascii c) eqn:Ha; [rewrite unquote_ascii by done|rewrite unquote_quote_wide by done].
  - unfold sanitize_step. rewrite Ha. cbn -[unquote quote sanitize quote_step]. by rewrite E.
  - by rewrite E.
Qed.

(** The states of the scanner over a chunk without the closing quote. *)
Fixpoint str_run (st : StrState) (chunk : bytes) : option StrState :=
  match chunk with
  | [] => Some st
  | c :: t =>
      if ceq c "034"%char && match st with stateInString => true | _ => false end then None
      else st' ← str_step st c; str_run st' t
  end.

Lemma str_run_scan st st' chunk X :
  str_run st chunk = Some st' ->
  scan_string st (chunk ++ X) = '(body, rest) ← scan_string st' X; Some (chunk ++ body, rest).
Proof.
  revert st. induction chunk as [|c t IH]; intros st; cbn.
  - intros [= ->]. by destruct (scan_string st' X) as [[]|].
  - destruct (_ && _); [done|]. destruct (str_step st c) as [st1|]; cbn; [|done].
    intros Hr. rewrite (IH _ Hr). by destruct (scan_string st' X) as [[]|].
Qed.

Lemma str_run_plain c k :
  (32 <= code c)%N -> c <> "034"%char -> c <> "\"%char ->
  str_run stateInString (c :: k) = str_run stateInString k.
Proof.
  intros Hc Hq Hb. cbn. destruct (ceq_spec c "034"%char); [done|]. cbn.
  destruct (ceq_spec c "\"%char); [done|]. by rewrite (proj2 (N.ltb_ge _ _) Hc).
Qed.

Lemma wide_plain c : is_ascii c = false -> (32 <= code c)%N /\ c <> "034"%char /\ c <> "\"%char.
Proof. unfold is_ascii. intros H%N.ltb_ge. split_and!; [lia|by intros ->..]. Qed.

Lemma continuation_wide c : continuation c = true -> is_ascii c = false.
Proof. unfold continuation, is_ascii. rewrite between_spec. intros. apply N.ltb_ge. lia. Qed.

Lemma str_run_wide c k :
  is_ascii c = false -> Forall (fun x => continuation x = true) k ->
  str_run stateInString (c :: k) = Some stateInString.
Proof.
  intros (? & ? & ?)%wide_plain Hk. rewrite str_run_plain by done.
  induction Hk as [|x k Hx%continuation_wide _ IH]; [done|].
  apply wide_plain in Hx as (? & ? & ?). by rewrite str_run_plain.
Qed.

Lemma str_run_quote_step c t : str_run stateInString (quote_step c t).1 = Some stateInString.
Proof.
  destruct (is_ascii c) eqn:Ha.
  - destruct c as [[] [] [] [] [] [] [] []]; try discriminate Ha; reflexivity.
  - unfold quote_step. rewrite Ha. unfold rune_or.
    destruct (rune_rest c t) as [[k r]|] eqn:Hr; cbn [fst snd]; [|reflexivity].
    apply rune_rest_spec in Hr as (_ & Hk & _).
    case_bool_decide; [reflexivity|]. case_bool_decide; [reflexivity|]. by apply str_run_wide.
Qed.

Lemma scan_string_quote s rest :
  scan_string stateInString (quote s ++ "034"%char :: rest) = Some (quote s, rest).
Proof.
  induction s as [s IH] using (induction_ltof1 _ length). unfold ltof in IH. destruct s as [|c t]; [done|].
  rewrite quote_cons, <- app_assoc, (str_run_scan _ _ _ _ (str_run_quote_step c t)), IH; [done|].
  pose proof (quote_step_shorter c t). cbn. lia.
Qed.

(** ** Decoded strings are valid UTF-8 *)

Lemma between_char_of_false lo hi n : (n < 256)%N -> (n < lo \/ hi < n)%N -> between lo hi (char_of n) = false.
Proof. intros Hn Hb. apply not_true_iff_false. rewrite between_spec, code_char_of by done. lia. Qed.

Lemma continuation_char_of n : (128 <= n <= 191)%N -> continuation (char_of n) = true.
Proof. intros. apply between_char_of; lia. Qed.

Lemma second_ok_char_of l n :
  (l < 256 -> 128 <= n <= 191 -> (l = 224 -> 160 <= n) -> (l = 240 -> 144 <= n) ->
   (l = 237 -> n <= 159) -> (l = 244 -> n <= 143) -> second_ok (char_of l) (char_of n) = true)%N.
Proof.
  intros Hl Hn H1 H2 H3 H4. unfold second_ok. rewrite code_char_of by done.
  apply between_char_of; [lia|]. repeat case_match;
    repeat match goal with E : (_ =? _)%N = true |- _ => apply N.eqb_eq in E end; lia.
Qed.

Lemma utf8_one_rune c k : rune_rest c k = Some (k, []) -> utf8 (c :: k).
Proof. intros E. rewrite <- (app_nil_r k). apply utf8_rune; [by rewrite app_nil_r|constructor]. Qed.

(** Replace the quotients and remainders of the goal by fresh numbers. *)
Ltac forget_division :=
  repeat match goal with |- context [(?a mod ?b)%N] => generalize dependent (a mod b)%N; intros end;
  repeat match goal with |- context [(?a / ?b)%N] => generalize dependent (a / b)%N; intros end.

Lemma encode_rune_utf8 r : (r < 1114112)%N -> is_surrogate r = false -> utf8 (encode_rune r).
Proof.
  intros Hr Hs. assert (r < 55296 \/ 57344 <= r)%N as Hs'.
  { revert Hs. unfold is_surrogate. rewrite andb_false_iff, N.leb_gt, N.ltb_ge. lia. }
  clear Hs. unfold encode_rune.
  destruct (N.ltb_spec r 128); [|destruct (N.ltb_spec r 2048); [|destruct (N.ltb_spec r 65536)]]; cbn [fmap list_fmap].
  - apply utf8_ascii; [|constructor]. unfold is_ascii. rewrite code_char_of by lia. by apply N.ltb_lt.
  - apply utf8_one_rune. unfold rune_rest.
    assert (2 <= r / 64 < 32 /\ r mod 64 < 64)%N as [Hq Hm] by (zify; Z.to_euclidean_division_equations; lia).
    forget_division. rewrite between_char_of, second_ok_char_of by lia. done.
  - apply utf8_one_rune. unfold rune_rest.
    assert (r / 4096 < 16 /\ r / 64 mod 64 < 64 /\ r mod 64 < 64 /\
      r = 4096 * (r / 4096) + 64 * (r / 64 mod 64) + r mod 64)%N as (Ha & Hb & Hm & E).
    { zify; Z.to_euclidean_division_equations; lia. }
    forget_division. rewrite between_char_of_false, between_char_of, second_ok_char_of, continuation_char_of by lia. done.
  - apply utf8_one_rune. unfold rune_rest.
    assert (r / 262144 < 5 /\ r / 4096 mod 64 < 64 /\ r / 64 mod 64 < 64 /\ r mod 64 < 64 /\
      r = 262144 * (r / 262144) + 4096 * (r / 4096 mod 64) + 64 * (r / 64 mod 64) + r mod 64)%N as (Ha & Hb & Hc & Hm & E).
    { zify; Z.to_euclidean_division_equations; lia. }
    forget_division. rewrite !between_char_of_false, between_char_of, second_ok_char_of, !continuation_char_of by lia. done.
Qed.

Lemma replacement_utf8 : utf8 replacement.
Proof. by apply utf8_one_rune. Qed.

Lemma hex_value_bound c x : hex_value c = Some x -> (x < 16)%N.
Proof.
  unfold hex_value. intros H. repeat case_match; simplify_eq;
    repeat match goal with E : between _ _ _ = true |- _ => apply between_spec in E end;
    try match goal with E : is_digit _ = true |- _ => apply between_spec in E end; lia.
Qed.

Lemma getu4_bound t r rest : getu4 t = Some (r, rest) -> (r < 65536)%N.
Proof.
  unfold getu4, hex4. intros H. repeat (case_match; try done); simplify_eq.
  repeat match goal with E : hex_value _ = Some _ |- _ => apply hex_value_bound in E end. lia.
Qed.

Lemma surrogate_pair_range r r1 rune :
  is_surrogate r = true -> surrogate_pair r r1 = Some rune -> (65536 <= rune < 1114112)%N.
Proof.
  unfold is_surrogate, surrogate_pair. rewrite andb_true_iff, N.leb_le, N.ltb_lt. intros [? ?].
  destruct (N.ltb_spec r 56320); cbn; [|done].
  destruct (N.leb_spec 56320 r1); cbn; [|done]. destruct (N.ltb_spec r1 57344); [|done]. intros [= <-]. lia.
Qed.

Lemma unescape_utf8 e : utf8 (unescape e).
Proof.
  unfold unescape.
  destruct (ceq_spec e "034"%char) as [->|]; [by apply utf8_ascii; [|constructor]|].
  destruct (ceq_spec e "\"%char) as [->|]; [by apply utf8_ascii; [|constructor]|].
  destruct (ceq_spec e "/"%char) as [->|]; [by apply utf8_ascii; [|constructor]|]. cbn.
  repeat case_match; by (apply utf8_ascii; [|constructor]) || constructor.
Qed.

Lemma unquote_step_utf8 c t : utf8 (unquote_step c t).1.
Proof.
  unfold unquote_step. destruct (ceq c "\"%char).
  - destruct (getu4 (c :: t)) as [[r rest]|] eqn:E.
    + destruct (is_surrogate r) eqn:Es.
      * destruct (getu4 rest) as [[r1 rest1]|]; [|exact replacement_utf8].
        destruct (surrogate_pair r r1) as [rune|] eqn:Er; [|exact replacement_utf8].
        apply surrogate_pair_range in Er; [|done]. cbn. apply encode_rune_utf8; [lia|].
        unfold is_surrogate. destruct (N.ltb_spec rune 57344); [lia|]. by rewrite andb_false_r.
      * apply encode_rune_utf8; [apply getu4_bound in E; lia|done].
    + destruct t; [constructor|apply unescape_utf8].
  - destruct (is_ascii c) eqn:Ha; [by apply utf8_ascii; [|constructor]|]. unfold rune_or.
    destruct (rune_rest c t) as [[k r]|] eqn:Hr; [|exact replacement_utf8].
    apply rune_rest_spec in Hr as (_ & _ & Hr). apply utf8_one_rune.
    specialize (Hr []). by rewrite app_nil_r in Hr.
Qed.

Lemma unquote_utf8 s : utf8 (unquote s).
Proof.
  induction s as [s IH] using (induction_ltof1 _ length). unfold ltof in IH. destruct s as [|c t]; [constructor|].
  rewrite unquote_cons. apply utf8_app; [apply unquote_step_utf8|].
  apply IH. pose proof (unquote_step_shorter c t). cbn. lia.
Qed.

(** ** Numbers *)

(** A byte after which a complete number has ended. *)
Definition stops (rest : bytes) : Prop :=
  match rest with
  | c :: _ => is_digit c = false /\ is_exponent c = false /\ c <> "."%char
  | [] => True
  end.

Lemma num_end_complete st c : num_step st c = NumEnd -> num_complete st = true.
Proof. destruct st; unfold num_step; intros H; repeat case_match; done. Qed.

Lemma num_complete_end st rest :
  num_complete st = true -> stops rest -> scan_number_from st rest = Some ([], rest).
Proof.
  intros Hc Hstop. destruct rest as [|d rest]; cbn [scan_number_from]; [by rewrite Hc|].
  destruct Hstop as (Hd & He & Hdot).
  assert (num_step st d = NumEnd) as ->; [|done].
  destruct st; try discriminate Hc; unfold num_step; rewrite ?Hd, ?He; destruct (ceq_spec d "."%char); done.
Qed.

Lemma scan_number_from_app st s lit rest rest' :
  scan_number_from st s = Some (lit, rest) -> stops rest' ->
  s = lit ++ rest /\ scan_number_from st (lit ++ rest') = Some (lit, rest').
Proof.
  intros H Hstop. revert st lit H. induction s as [|c s IH]; intros st lit; cbn.
  - destruct (num_complete st) eqn:Hc; [|done]. intros [= <- <-]. split; [done|]. by apply num_complete_end.
  - destruct (num_step st c) as [st'| |] eqn:Hn; [| |done].
    + destruct (scan_number_from st' s) as [[lit' rest0]|] eqn:Hs; cbn; [|done].
      intros [= <- <-]. destruct (IH _ _ Hs) as [-> IH']. split; [done|]. cbn. by rewrite Hn, IH'.
    + intros [= <- <-]. split; [done|]. apply num_end_complete in Hn. by apply num_complete_end.
Qed.

(** The state a literal's first byte leads to. *)
Definition num_start (c : ascii) : option NumState :=
  if ceq c "-"%char then Some stateNeg
  else if ceq c "0"%char then Some state0
  else if is_digit c then Some state1 else None.

Lemma scan_number_start c t :
  scan_number (c :: t) =
    st ← num_start c; '(lit, rest) ← scan_number_from st t; Some (c :: lit, rest).
Proof. cbn. unfold num_start. repeat case_match; done. Qed.

Lemma scan_number_app s lit rest rest' :
  scan_number s = Some (lit, rest) -> stops rest' ->
  s = lit ++ rest /\ scan_number (lit ++ rest') = Some (lit, rest').
Proof.
  intros H Hstop. destruct s as [|c s]; [done|]. rewrite scan_number_start in H.
  destruct (num_start c) as [st|] eqn:Hst; cbn in H; [|done].
  destruct (scan_number_from st s) as [[lit' r]|] eqn:E; cbn in H; [|done]. injection H as <- <-.
  destruct (scan_number_from_app _ _ _ _ _ E Hstop) as [-> E']. split; [done|].
  cbn [app]. by rewrite scan_number_start, Hst; cbn; rewrite E'.
Qed.

(** ** Decimal numerals *)

(** The digits of a positive numeral: no leading zero. *)
Definition numeral (ds : bytes) (x : N) : Prop :=
  Forall (fun c => is_digit c = true) ds /\ digits_value ds = x /\
  match ds with c :: _ => c <> "0"%char | [] => False end.

Lemma digit_char x : (x < 10)%N ->
  is_digit (pretty_N_char x) = true /\ digit_value (pretty_N_char x) = x /\ (x <> 0%N -> pretty_N_char x <> "0"%char).
Proof.
  intros Hx. assert (x = 0 \/ x = 1 \/ x = 2 \/ x = 3 \/ x = 4 \/ x = 5 \/ x = 6 \/ x = 7 \/ x = 8 \/ x = 9)%N as H by lia.
  destruct_or! H; rewrite H; by repeat split.
Qed.

Lemma digits_value_snoc ds c : digits_value (ds ++ [c]) = (10 * digits_value ds + digit_value c)%N.
Proof. unfold digits_value. by rewrite foldl_app. Qed.

Lemma pretty_go_numeral x s :
  (0 < x)%N -> exists ds, to_bytes (pretty_N_go x s) = ds ++ to_bytes s /\ numeral ds x.
Proof.
  revert s. induction (N.lt_wf_0 x) as [x _ IH]; intros s Hx. rewrite pretty_N_go_step by done.
  assert (x mod 10 < 10 /\ x = 10 * (x / 10) + x mod 10 /\ x / 10 < x)%N as (Hm & Hd & Hlt).
  { zify; Z.to_euclidean_division_equations; lia. }
  destruct (digit_char (x mod 10) Hm) as (Hdig & Hval & Hnz).
  destruct (decide (x / 10 = 0)%N) as [Hz|Hz].
  - rewrite Hz, pretty_N_go_0. exists [pretty_N_char (x mod 10)]. split; [done|].
    split; [by constructor|]. split; [unfold digits_value; cbn; rewrite Hval; lia|]. apply Hnz. lia.
  - destruct (IH (x / 10)%N Hlt (String (pretty_N_char (x mod 10)) s)) as (ds & E & Hds & Hv & Hhd); [lia|].
    exists (ds ++ [pretty_N_char (x mod 10)]). split; [rewrite E; by rewrite <- app_assoc|].
    split; [apply Forall_app; split; [done|by constructor]|].
    split; [rewrite digits_value_snoc, Hv, Hval; lia|]. by destruct ds.
Qed.

Lemma FormatInt_bytes z :
  to_bytes (FormatInt z) = ["0"%char] /\ z = 0%Z \/
  (exists ds x, to_bytes (FormatInt z) = ds /\ numeral ds x /\ z = Z.of_N x) \/
  (exists ds x, to_bytes (FormatInt z) = "-"%char :: ds /\ numeral ds x /\ z = (- Z.of_N x)%Z).
Proof.
  unfold FormatInt. destruct z as [|p|p].
  - by left.
  - right; left. destruct (pretty_go_numeral (N.pos p) "") as (ds & E & Hn); [done|].
    exists ds, (N.pos p). rewrite app_nil_r in E. done.
  - right; right. destruct (pretty_go_numeral (N.pos p) "") as (ds & E & Hn); [done|].
    exists ds, (N.pos p). rewrite app_nil_r in E. split; [|done].
    change (to_bytes (pretty (Z.neg p))) with ("-"%char :: to_bytes (pretty_N_go (N.pos p) "")). by rewrite E.
Qed.

Lemma scan_digits st ds rest :
  (st = state1 \/ st = state0 /\ ds = []) -> Forall (fun c => is_digit c = true) ds -> stops rest ->
  scan_number_from st (ds ++ rest) = Some (ds, rest).
Proof.
  intros Hst Hds Hstop. revert st Hst. induction Hds as [|c ds Hc _ IH]; intros st Hst; cbn [app].
  - apply num_complete_end; [|done]. by destruct Hst as [->|[-> _]].
  - destruct Hst as [->|[_ ?]]; [|done]. cbn. rewrite Hc, IH by auto. done.
Qed.

Lemma digit_start c : is_digit c = true -> c <> "0"%char -> num_start c = Some state1.
Proof.
  intros Hc Hz. unfold num_start. destruct (ceq_spec c "-"%char) as [->|_]; [done|].
  destruct (ceq_spec c "0"%char); [done|]. by rewrite Hc.
Qed.

Lemma scan_number_FormatInt z rest :
  stops rest -> scan_number (to_bytes (FormatInt z) ++ rest) = Some (to_bytes (FormatInt z), rest).
Proof.
  intros Hstop.
  destruct (FormatInt_bytes z) as [[-> _]|[(ds & x & -> & (Hds & _ & Hhd) & _)|(ds & x & -> & (Hds & _ & Hhd) & _)]].
  - cbn [app]. rewrite scan_number_start. cbn. rewrite num_complete_end by done. done.
  - destruct ds as [|c ds]; [done|]. apply Forall_cons_1 in Hds as [Hc Hds]. cbn [app].
    rewrite scan_number_start, digit_start by done. cbn. by rewrite scan_digits by auto.
  - destruct ds as [|c ds]; [done|]. apply Forall_cons_1 in Hds as [Hc Hds].
    cbn [app]. rewrite scan_number_start. cbn.
    destruct (ceq_spec c "0"%char); [done|]. rewrite Hc, scan_digits by auto. done.
Qed.

Lemma forallb_Forall_true {A} (f : A -> bool) l : Forall (fun x => f x = true) l -> forallb f l = true.
Proof. induction 1 as [|x l Hx _ IH]; cbn; [done|]. by rewrite Hx, IH. Qed.

Lemma ParseInt_FormatInt z : in_int64 z = true -> ParseInt (to_bytes (FormatInt z)) = Some z.
Proof.
  intros Hz.
  destruct (FormatInt_bytes z) as [[-> ->]|[(ds & x & -> & (Hds & Hv & Hhd) & ->)|(ds & x & -> & (Hds & Hv & Hhd) & ->)]].
  - done.
  - destruct ds as [|c ds]; [done|]. unfold ParseInt.
    destruct (ceq_spec c "-"%char) as [->|_]; [by apply Forall_cons_1 in Hds as [? _]|].
    destruct (ceq_spec c "+"%char) as [->|_]; [by apply Forall_cons_1 in Hds as [? _]|].
    rewrite forallb_Forall_true, Hv by done. cbn. by rewrite Hz.
  - destruct ds as [|c ds]; [done|]. unfold ParseInt. rewrite ceq_refl.
    rewrite forallb_Forall_true, Hv by done. cbn. by rewrite Hz.
Qed.

(** ** Tokens *)

(** What is known of a token by itself. *)
Definition token_ok (token : JSONToken) : Prop :=
  match token with
  | TokenString s => utf8 s
  | TokenNumber literal => scan_number literal = Some (literal, [])
  | _ => True
  end.

Lemma skip_space_shorter s : length (skip_space s) <= length s.
Proof. induction s as [|c s IH]; cbn; [done|]. destruct (isSpace c); cbn; lia. Qed.

Lemma scan_string_shorter st s body rest : scan_string st s = Some (body, rest) -> length rest < length s.
Proof.
  revert st body. induction s as [|c s IH]; intros st body; cbn; [done|].
  destruct (_ && _); [intros [= <- <-]; lia|]. destruct (str_step st c) as [st'|]; [|done].
  destruct (scan_string st' s) as [[body' r]|] eqn:E; cbn; [|done]. intros [= <- <-].
  apply IH in E. lia.
Qed.

Lemma strip_literal_app word s rest : strip_literal word s = Some rest -> s = word ++ rest.
Proof.
  unfold strip_literal. case_bool_decide as E; [|done]. intros [= <-]. rewrite <- E at 1. by rewrite take_drop.
Qed.

Lemma strip_literal_word word rest : strip_literal word (word ++ rest) = Some rest.
Proof. unfold strip_literal. by rewrite take_app_length, bool_decide_true, drop_app_length. Qed.

Lemma scan_scalar_ok s token rest :
  scan_scalar s = Some (token, rest) -> token_ok token /\ length rest < length s.
Proof.
  unfold scan_scalar. destruct s as [|c t]; [done|].
  destruct (ceq c "034"%char).
  { destruct (scan_string stateInString t) as [[body r]|] eqn:E; cbn; [|done]. intros [= <- <-].
    split; [apply unquote_utf8|]. apply scan_string_shorter in E. lia. }
  do 3 (match goal with |- (if ?b then mbind _ (strip_literal ?w ?s) else _) = _ -> _ =>
    destruct b; [destruct (strip_literal w s) as [r|] eqn:E; cbn [mbind option_bind]; [|done];
      intros [= <- <-]; apply strip_literal_app in E; split; [done|]; rewrite E, length_app; cbn; lia|] end).
  destruct (scan_number (c :: t)) as [[lit r]|] eqn:E; cbn [mbind option_bind]; [|done]. intros [= <- <-].
  destruct (scan_number_app _ _ _ [] E I) as [Hs Hlit]. rewrite app_nil_r in Hlit.
  split; [done|]. rewrite Hs, length_app. destruct lit; [|cbn; lia]. by rewrite scan_number_start in E; destruct (num_start c) as [st|]; [cbn in E; destruct (scan_number_from st t) as [[]|]|].
Qed.

Lemma token_turn_ok d :
  match token_turn d with
  | TokenRead token d' => token_ok token /\ length (dec_buf d') < length (dec_buf d)
  | TokenSkip d' => length (dec_buf d') < length (dec_buf d)
  | TokenError => True
  end.
Proof.
  unfold token_turn, open_value, close_value. pose proof (skip_space_shorter (dec_buf d)) as Hs.
  destruct (skip_space (dec_buf d)) as [|c rest]; [done|]. cbn in Hs.
  assert (forall token r, scan_scalar (c :: rest) = Some (token, r) ->
    token_ok token /\ length r < length (dec_buf d)) as Hscalar.
  { intros token r [? Hr]%scan_scalar_ok. cbn in Hr. split; [done|lia]. }
  repeat split_match; cbn; try done; try lia; try (split; [done|lia]); by apply Hscalar.
Qed.

Lemma Token_ok d token d' : Token d = Some (token, d') -> token_ok token /\ length (dec_buf d') < length (dec_buf d).
Proof.
  unfold Token. pose proof (token_turn_ok d) as H1. destruct (token_turn d) as [token1 d1|d1|]; [by intros [= <- <-]| |done].
  pose proof (token_turn_ok d1) as H2. destruct (token_turn d1) as [token2 d2|d2|]; [|done|done].
  intros [= <- <-]. split; [by apply H2|lia].
Qed.
