(* ===== verification/Calendar.v ===== *)
(** * Instants as text

    What the source uses of Go's [time]: the civil calendar and the [RFC3339]
    layouts of [Format] and [Parse].  An instant is a number of nanoseconds. *)

From Stdlib Require Import Ascii.
From S2P Require Import Prelude.
From S2P Require Import Events.
From S2P Require Import Json.
From S2P Require Import JsonFacts.
Local Open Scope string_scope.
Local Open Scope Z_scope.

(** ** The civil calendar *)

(** A day of the civil calendar from the days since 1970-01-01, and back: years
    start in March, so that the leap day comes last. *)
Record Civil := MkCivil { civil_year : Z; civil_month : Z; civil_day : Z }.

Definition civil_of_days (days : Z) : Civil :=
  let z := days + 719468 in
  let era := z / 146097 in
  let doe := z mod 146097 in
  let yoe := (doe - doe / 1460 + doe / 36524 - doe / 146096) / 365 in
  let doy := doe - (365 * yoe + yoe / 4 - yoe / 100) in
  let mp := (5 * doy + 2) / 153 in
  let month := if mp <? 10 then mp + 3 else mp - 9 in
  MkCivil (yoe + era * 400 + (if month <=? 2 then 1 else 0)) month (doy - (153 * mp + 2) / 5 + 1).

Definition days_of_civil (c : Civil) : Z :=
  let y := if civil_month c <=? 2 then civil_year c - 1 else civil_year c in
  let era := y / 400 in
  let yoe := y mod 400 in
  let mp := if civil_month c <=? 2 then civil_month c + 9 else civil_month c - 3 in
  let doy := (153 * mp + 2) / 5 + civil_day c - 1 in
  era * 146097 + (yoe * 365 + yoe / 4 - yoe / 100 + doy) - 719468.

Lemma year_of_era doe :
  0 <= doe < 146097 ->
  let yoe := (doe - doe / 1460 + doe / 36524 - doe / 146096) / 365 in
  0 <= yoe < 400 /\ 0 <= doe - (365 * yoe + yoe / 4 - yoe / 100) <= 365.
Proof. cbv zeta. Z.to_euclidean_division_equations. lia. Qed.

Lemma month_of_year doy :
  0 <= doy <= 365 ->
  let mp := (5 * doy + 2) / 153 in 0 <= mp <= 11 /\ 1 <= doy - (153 * mp + 2) / 5 + 1 <= 31.
Proof. cbv zeta. Z.to_euclidean_division_equations. lia. Qed.

(** Every day has one civil date, and the date is one of the calendar. *)
Lemma civil_of_days_ok n :
  days_of_civil (civil_of_days n) = n /\ 1 <= civil_month (civil_of_days n) <= 12 /\ 1 <= civil_day (civil_of_days n) <= 31.
Proof.
  unfold civil_of_days, days_of_civil. cbv zeta. cbn [civil_year civil_month civil_day].
  pose proof (Z.div_mod (n + 719468) 146097 ltac:(lia)) as Hn.
  pose proof (Z.mod_pos_bound (n + 719468) 146097 ltac:(lia)) as Hr.
  set (era := (n + 719468) / 146097) in *. set (doe := (n + 719468) mod 146097) in *.
  destruct (year_of_era doe Hr) as [Hyoe Hdoy]. set (yoe := (_ - _ / 146096) / 365) in *.
  set (doy := doe - (365 * yoe + yoe / 4 - yoe / 100)) in *.
  destruct (month_of_year doy Hdoy) as [Hmp Hday]. set (mp := (5 * doy + 2) / 153) in *.
  assert (forall b, (yoe + era * 400 + b - b) / 400 = era /\ (yoe + era * 400 + b - b) mod 400 = yoe) as Hy.
  { intros b. replace (yoe + era * 400 + b - b) with (yoe + era * 400) by lia.
    rewrite Z.div_add, Z.mod_add, Z.div_small, Z.mod_small by lia. lia. }
  destruct (Z.ltb_spec mp 10).
  - destruct (Z.leb_spec (mp + 3) 2); [lia|]. destruct (Hy 0) as [Hera Hyear]. rewrite Z.sub_0_r in Hera, Hyear.
    rewrite Hera, Hyear. replace (mp + 3 - 3) with mp by lia. lia.
  - destruct (Z.leb_spec (mp - 9) 2); [|lia]. destruct (Hy 1) as [-> ->]. replace (mp - 9 + 9) with mp by lia. lia.
Qed.

(** ** Months *)

Definition leap_year (year : Z) : bool := (year mod 4 =? 0) && (negb (year mod 100 =? 0) || (year mod 400 =? 0)).

(** [daysIn(month, year)] *)
Definition daysIn (month year : Z) : Z :=
  if month =? 2 then if leap_year year then 29 else 28
  else if (month =? 4) || (month =? 6) || (month =? 9) || (month =? 11) then 30 else 31.

(** ** [Format] *)

Definition zeros (n : nat) : string := String.string_of_list_ascii (repeat "0"%char n).

(** [appendInt(x, width)] *)
Definition appendInt (x : Z) (width : nat) : string :=
  let digits := FormatInt (Z.abs x) in
  (if x <? 0 then "-" else "") +:+ zeros (width - String.length digits) +:+ digits.

Definition trim_zeros (s : string) : string :=
  String.string_of_list_ascii (rev ((fix drop l := match l with
    | c :: l' => if Ascii.eqb c "0"%char then drop l' else l
    | [] => [] end) (rev (String.list_ascii_of_string s)))).

(** The date and the time of day of [t.UTC()], without fraction and zone. *)
Definition format_seconds (seconds : Z) : string :=
  let date := civil_of_days (seconds / 86400) in
  let clock := seconds mod 86400 in
  appendInt (civil_year date) 4 +:+ "-" +:+ appendInt (civil_month date) 2 +:+ "-" +:+ appendInt (civil_day date) 2 +:+ "T" +:+
  appendInt (clock / 3600) 2 +:+ ":" +:+ appendInt (clock / 60 mod 60) 2 +:+ ":" +:+ appendInt (clock mod 60) 2.

(** [t.UTC().Format(time.RFC3339)] *)
Definition RFC3339 (t : Z) : string := format_seconds (t / 10 ^ 9) +:+ "Z".

(** [t.UTC().Format(time.RFC3339Nano)] *)
Definition RFC3339Nano (t : Z) : string :=
  let nanos := t mod 10 ^ 9 in
  format_seconds (t / 10 ^ 9) +:+ (if nanos =? 0 then "" else "." +:+ trim_zeros (appendInt nanos 9)) +:+ "Z".

Example RFC3339Nano_samples :
  RFC3339Nano 0 = "1970-01-01T00:00:00Z" /\
  RFC3339Nano (951782400 * 10 ^ 9 + 120000000) = "2000-02-29T00:00:00.12Z" /\
  RFC3339Nano (1767225599 * 10 ^ 9 + 1) = "2025-12-31T23:59:59.000000001Z".
Proof. by vm_compute. Qed.

(** ** [time.Parse(time.RFC3339, value)] *)

Definition digit (c : ascii) : option Z :=
  let n := Z.of_N (N_of_ascii c) - 48 in if (0 <=? n) && (n <=? 9) then Some n else None.

(** [getnum]: two digits, or one when not [fixed] *)
Definition getnum (fixed : bool) (value : bytes) : option (Z * bytes) :=
  match value with
  | c :: value' =>
      tens ← digit c;
      match value' with
      | c2 :: value'' =>
          match digit c2 with
          | Some units => Some (tens * 10 + units, value'')
          | None => if fixed then None else Some (tens, value')
          end
      | [] => if fixed then None else Some (tens, [])
      end
  | [] => None
  end.

Definition getyear (value : bytes) : option (Z * bytes) :=
  match value with
  | a :: b :: c :: d :: value => a ← digit a; b ← digit b; c ← digit c; d ← digit d; Some (a * 1000 + b * 100 + c * 10 + d, value)
  | _ => None
  end.

Definition skip (c : ascii) (value : bytes) : option bytes :=
  match value with c' :: value => if Ascii.eqb c c' then Some value else None | [] => None end.

Definition in_range (low high : Z) (number : option (Z * bytes)) : option (Z * bytes) :=
  '(n, value) ← number; if (low <=? n) && (n <=? high) then Some (n, value) else None.

(** The digits a fraction starts with, and what follows them. *)
Fixpoint leading_digits (value : bytes) : list Z * bytes :=
  match value with
  | c :: value' =>
      match digit c with
      | Some n => let '(ns, rest) := leading_digits value' in (n :: ns, rest)
      | None => ([], value)
      end
  | [] => ([], [])
  end.

(** [parseNanoseconds]: nine digits count. *)
Definition nanoseconds_of (digits : list Z) : Z :=
  foldl (fun n d => n * 10 + d) 0 (take 9 (digits ++ repeat 0 9)).

(** A fraction is accepted after the seconds although the layout has none. *)
Definition parse_fraction (value : bytes) : Z * bytes :=
  match value with
  | c :: value' =>
      if Ascii.eqb c "."%char || Ascii.eqb c ","%char then
        match leading_digits value' with
        | ([], _) => (0, value)
        | (digits, rest) => (nanoseconds_of digits, rest)
        end
      else (0, value)
  | [] => (0, [])
  end.

(** [Z], or a sign, hours and minutes; in seconds. *)
Definition parse_zone (value : bytes) : option (Z * bytes) :=
  match value with
  | c :: value' =>
      if Ascii.eqb c "Z"%char then Some (0, value')
      else match value' with
           | h1 :: h2 :: colon :: m1 :: m2 :: rest =>
               if negb (Ascii.eqb colon ":"%char) then None
               else
                 '(hr, _) ← getnum true [h1; h2];
                 '(mm, _) ← getnum true [m1; m2];
                 if (24 <? hr) || (60 <? mm) then None
                 else if Ascii.eqb c "+"%char then Some ((hr * 60 + mm) * 60, rest)
                 else if Ascii.eqb c "-"%char then Some (- ((hr * 60 + mm) * 60), rest)
                 else None
           | _ => None
           end
  | [] => None
  end.

Definition time_Parse_RFC3339 (text : string) : option Z :=
  '(year, value) ← getyear (to_bytes text);
  value ← skip "-"%char value;
  '(month, value) ← in_range 1 12 (getnum true value);
  value ← skip "-"%char value;
  '(day, value) ← getnum true value;
  value ← skip "T"%char value;
  '(hour, value) ← in_range 0 23 (getnum false value);
  value ← skip ":"%char value;
  '(minute, value) ← in_range 0 59 (getnum true value);
  value ← skip ":"%char value;
  '(second, value) ← in_range 0 59 (getnum true value);
  let '(nanos, value) := parse_fraction value in
  '(offset, value) ← parse_zone value;
  match value with
  | [] =>
      if (day <? 1) || (daysIn month year <? day) then None
      else
        let seconds := days_of_civil (MkCivil year month day) * 86400 + hour * 3600 + minute * 60 + second in
        Some ((seconds - offset) * 10 ^ 9 + nanos)
  | _ => None
  end.

Example time_Parse_samples :
  time_Parse_RFC3339 "1970-01-02T00:00:00Z" = Some (86400 * 10 ^ 9) /\
  time_Parse_RFC3339 "2000-02-29T02:00:00.12+02:00" = Some (951782400 * 10 ^ 9 + 120000000) /\
  time_Parse_RFC3339 "2001-02-29T00:00:00Z" = None /\
  time_Parse_RFC3339 "1970-01-01T0:00:00Z" = Some 0 /\
  time_Parse_RFC3339 "1970-01-01 00:00:00Z" = None /\
  time_Parse_RFC3339 "9999-12-31T23:59:59-01:00" = Some (253402304399 * 10 ^ 9).
Proof. by vm_compute. Qed.

(** ** An instant printed is read back *)

Lemma leap_day doe :
  0 <= doe < 146097 ->
  let yoe := (doe - doe / 1460 + doe / 36524 - doe / 146096) / 365 in
  doe - (365 * yoe + yoe / 4 - yoe / 100) = 365 -> leap_year (yoe + 1) = true.
Proof.
  cbv zeta. intros Hr Hd. apply andb_true_iff. rewrite orb_true_iff, negb_true_iff, !Z.eqb_eq, Z.eqb_neq.
  split; [|destruct (Z.eq_dec ((((doe - doe / 1460 + doe / 36524 - doe / 146096) / 365) + 1) mod 400) 0); [by right|left]];
    Z.to_euclidean_division_equations; lia.
Qed.

Lemma month_length doy :
  0 <= doy <= 365 ->
  let mp := (5 * doy + 2) / 153 in
  doy - (153 * mp + 2) / 5 + 1 <=
    (if mp =? 11 then (if doy =? 365 then 29 else 28) else if (mp =? 1) || (mp =? 3) || (mp =? 6) || (mp =? 8) then 30 else 31).
Proof.
  cbv zeta. intros Hd. repeat (match goal with |- context [?a =? ?b] => destruct (Z.eqb_spec a b) end; cbn [orb]);
    Z.to_euclidean_division_equations; lia.
Qed.

Lemma mod_shift x k m y : y = x + k * m -> m <> 0 -> y mod m = x mod m.
Proof. intros -> Hm. by apply Z.mod_add. Qed.

Lemma civil_day_in_month n : civil_day (civil_of_days n) <= daysIn (civil_month (civil_of_days n)) (civil_year (civil_of_days n)).
Proof.
  unfold civil_of_days. cbv zeta. cbn [civil_year civil_month civil_day].
  pose proof (Z.mod_pos_bound (n + 719468) 146097 ltac:(lia)) as Hr.
  set (era := (n + 719468) / 146097) in *. set (doe := (n + 719468) mod 146097) in *. clearbody era doe.
  destruct (year_of_era doe Hr) as [Hyoe Hdoy].
  pose proof (leap_day doe Hr) as Hleap. cbv zeta in Hleap.
  set (yoe := (_ - _ / 146096) / 365) in *. set (doy := doe - (365 * yoe + yoe / 4 - yoe / 100)) in *.
  destruct (month_of_year doy Hdoy) as [Hmp Hday]. pose proof (month_length doy Hdoy) as Hlen. cbv zeta in Hlen.
  set (mp := (5 * doy + 2) / 153) in *. clearbody mp doy yoe.
  destruct (Z.eq_dec mp 11) as [E|Hne].
  - subst mp. change (if 11 <? 10 then 11 + 3 else 11 - 9) with 2. change (2 <=? 2) with true. unfold daysIn.
    change (11 =? 11) with true in Hlen. change (2 =? 2) with true. cbn iota in *.
    assert (leap_year (yoe + era * 400 + 1) = leap_year (yoe + 1)) as ->.
    { unfold leap_year. by rewrite (mod_shift (yoe + 1) (era * 100) 4), (mod_shift (yoe + 1) (era * 4) 100), (mod_shift (yoe + 1) era 400)
        by lia. }
    destruct (Z.eqb_spec doy 365) as [Hd|]; [by rewrite (Hleap Hd)|]. destruct (leap_year _); lia.
  - rewrite (proj2 (Z.eqb_neq mp 11) Hne) in Hlen. etrans; [exact Hlen|]. unfold daysIn.
    repeat (match goal with |- context [?a =? ?b] => destruct (Z.eqb_spec a b) end; cbn [orb]); destruct (Z.ltb_spec mp 10); lia.
Qed.

Definition digit_char (n : Z) : ascii := ascii_of_N (Z.to_N (48 + n)).

(** What holds of the ten digits. *)
Lemma ten_digits (P : Z -> Prop) : Forall P (Z.of_nat <$> seq 0 10) -> forall n, 0 <= n <= 9 -> P n.
Proof.
  intros HP n Hn. apply (Forall_elem _ _ n HP), list_elem_of_fmap. exists (Z.to_nat n). split; [lia|]. apply elem_of_seq. lia.
Qed.

Lemma digit_digit_char n : 0 <= n <= 9 -> digit (digit_char n) = Some n.
Proof.
  revert n. apply (ten_digits (fun n => digit (digit_char n) = Some n)). repeat constructor.
Qed.

Definition two_digits (x : Z) : bytes := [digit_char (x / 10); digit_char (x mod 10)].

(** *** Printing to a fixed width *)

Fixpoint padded (width : nat) (x : N) : bytes :=
  match width with
  | O => []
  | S width => (padded width (x / 10) ++ [pretty_N_char (x mod 10)])%list
  end.

Lemma pretty_go_longer x s : (length (to_bytes s) <= length (to_bytes (pretty_N_go x s)))%nat.
Proof.
  revert s. induction (N.lt_wf_0 x) as [x _ IH]; intros s. destruct (decide (0 < x)%N) as [Hx|Hx].
  - rewrite pretty_N_go_step by done. pose proof (IH (x / 10)%N ltac:(by apply N.div_lt) (String (pretty_N_char (x mod 10)) s)) as Hlen.
    etrans; [|exact Hlen]. apply Nat.le_succ_diag_r.
  - assert (x = 0%N) as -> by lia. by rewrite pretty_N_go_0.
Qed.

Lemma padded_0 width : padded width 0 = repeat "0"%char width.
Proof. induction width as [|width IH]; [done|]. cbn [padded repeat]. change (0 / 10)%N with 0%N. rewrite IH. symmetry. apply repeat_cons. Qed.

Lemma pretty_go_padded width x s :
  (x < 10 ^ N.of_nat width)%N ->
  (repeat "0"%char (width - (length (to_bytes (pretty_N_go x s)) - length (to_bytes s))) ++ to_bytes (pretty_N_go x s))%list =
    (padded width x ++ to_bytes s)%list.
Proof.
  revert x s. induction width as [|width IH]; intros x s Hx.
  - assert (x = 0%N) as -> by (cbn in Hx; lia). by rewrite pretty_N_go_0.
  - destruct (decide (0 < x)%N) as [Hpos|Hzero].
    + rewrite pretty_N_go_step by done. set (c := pretty_N_char (x mod 10)). cbn [padded]. fold c.
      pose proof (pretty_go_longer (x / 10) (String c s)) as Hlen.
      change (length (to_bytes (String c s))) with (S (length (to_bytes s))) in Hlen.
      replace (S width - (length (to_bytes (pretty_N_go (x / 10) (String c s))) - length (to_bytes s)))%nat with
        (width - (length (to_bytes (pretty_N_go (x / 10) (String c s))) - length (to_bytes (String c s))))%nat
        by (change (length (to_bytes (String c s))) with (S (length (to_bytes s))); lia).
      rewrite IH; [by rewrite <- app_assoc|].
      apply N.Div0.div_lt_upper_bound. rewrite Nat2N.inj_succ, N.pow_succ_r' in Hx. lia.
    + assert (x = 0%N) as -> by lia. by rewrite pretty_N_go_0, Nat.sub_diag, Nat.sub_0_r, padded_0.
Qed.

Lemma length_to_bytes s : length (to_bytes s) = String.length s.
Proof. induction s as [|c s IH]; [done|]. cbn. by f_equal. Qed.

Lemma appendInt_padded x width :
  (0 < width)%nat -> 0 <= x < 10 ^ Z.of_nat width -> to_bytes (appendInt x width) = padded width (Z.to_N x).
Proof.
  intros Hw Hx. unfold appendInt. rewrite (proj2 (Z.ltb_ge x 0)) by lia. rewrite Z.abs_eq by lia.
  assert (Z.to_N x < 10 ^ N.of_nat width)%N as Hn.
  { apply N2Z.inj_lt. rewrite Z2N.id, N2Z.inj_pow, nat_N_Z by lia. lia. }
  change ("" +:+ ?t) with t. unfold zeros. rewrite to_bytes_app, <- length_to_bytes. change (String.string_of_list_ascii ?b) with (of_bytes b).
  rewrite to_of_bytes. destruct x as [|p|p]; [|change (FormatInt (Z.pos p)) with (pretty_N_go (N.pos p) "")|lia].
  - change (to_bytes (FormatInt 0)) with ["0"%char]. rewrite padded_0. cbn [length]. destruct width as [|width]; [lia|].
    cbn [Nat.sub]. rewrite Nat.sub_0_r. symmetry. apply repeat_cons.
  - pose proof (pretty_go_padded width (N.pos p) "" Hn) as E. cbn [length to_bytes] in E. rewrite Nat.sub_0_r, app_nil_r in E. exact E.
Qed.

Lemma pretty_digit n : 0 <= n <= 9 -> pretty_N_char (Z.to_N n) = digit_char n.
Proof.
  revert n. apply (ten_digits (fun n => pretty_N_char (Z.to_N n) = digit_char n)). repeat constructor.
Qed.

Lemma appendInt_two x : 0 <= x < 100 -> to_bytes (appendInt x 2) = two_digits x.
Proof.
  intros Hx. rewrite appendInt_padded by (lia || done). unfold two_digits. cbn [padded app].
  rewrite <- !pretty_digit by (Z.to_euclidean_division_equations; lia). rewrite !Z2N.inj_div, !Z2N.inj_mod by lia.
  change (Z.to_N 10) with 10%N. f_equal. rewrite (N.mod_small (Z.to_N x / 10)); [done|].
  apply N.Div0.div_lt_upper_bound. lia.
Qed.

Definition four_digits (x : Z) : bytes :=
  [digit_char (x / 1000); digit_char (x / 100 mod 10); digit_char (x / 10 mod 10); digit_char (x mod 10)].

Lemma appendInt_four x : 0 <= x < 10000 -> to_bytes (appendInt x 4) = four_digits x.
Proof.
  intros Hx. rewrite appendInt_padded by (lia || done). unfold four_digits. cbn [padded app].
  rewrite <- !pretty_digit by (Z.to_euclidean_division_equations; lia).
  rewrite !Z2N.inj_mod, !Z2N.inj_div by (Z.to_euclidean_division_equations; lia).
  change (Z.to_N 10) with 10%N. change (Z.to_N 100) with 100%N. change (Z.to_N 1000) with 1000%N.
  rewrite !N.Div0.div_div. change (10 * 10)%N with 100%N. change (100 * 10)%N with 1000%N.
  rewrite (N.mod_small (Z.to_N x / 1000)); [done|]. apply N.Div0.div_lt_upper_bound. lia.
Qed.

Lemma getnum_two fixed x rest : 0 <= x < 100 -> getnum fixed (two_digits x ++ rest)%list = Some (x, rest).
Proof.
  intros Hx. unfold two_digits, getnum. cbn [app]. rewrite !digit_digit_char by (Z.to_euclidean_division_equations; lia).
  cbv [mbind option_bind]. repeat f_equal. Z.to_euclidean_division_equations. lia.
Qed.

Lemma getyear_four x rest : 0 <= x < 10000 -> getyear (four_digits x ++ rest)%list = Some (x, rest).
Proof.
  intros Hx. unfold four_digits, getyear. cbn [app]. rewrite !digit_digit_char by (Z.to_euclidean_division_equations; lia).
  cbv [mbind option_bind]. repeat f_equal. Z.to_euclidean_division_equations. lia.
Qed.

Lemma skip_here c rest : skip c (c :: rest) = Some rest.
Proof. unfold skip. by rewrite Ascii.eqb_refl. Qed.

(** The years [time.Parse] can read. *)
Definition four_digit_year (seconds : Z) : Prop := 0 <= civil_year (civil_of_days (seconds / 86400)) < 10000.

Lemma Parse_RFC3339 seconds :
  four_digit_year seconds -> time_Parse_RFC3339 (RFC3339 (seconds * 10 ^ 9)) = Some (seconds * 10 ^ 9).
Proof.
  intros Hy. unfold RFC3339. rewrite Z.div_mul by done. unfold format_seconds.
  pose proof (civil_of_days_ok (seconds / 86400)) as (Hdays & Hm & Hd). pose proof (civil_day_in_month (seconds / 86400)) as Hin.
  unfold four_digit_year in Hy. destruct (civil_of_days (seconds / 86400)) as [year month day] eqn:Hc. cbn [civil_year civil_month civil_day] in *.
  pose proof (Z.mod_pos_bound seconds 86400 ltac:(lia)) as Hclock. set (clock := seconds mod 86400) in *.
  assert (0 <= clock / 3600 < 24 /\ 0 <= clock / 60 mod 60 < 60 /\ 0 <= clock mod 60 < 60 /\
          clock = clock / 3600 * 3600 + clock / 60 mod 60 * 60 + clock mod 60) as (Hh & Hmi & Hs & Hsum)
    by (clearbody clock; Z.to_euclidean_division_equations; lia).
  pose proof (Z.div_mod seconds 86400 ltac:(lia)) as Hsec. fold clock in Hsec. clearbody clock.
  unfold time_Parse_RFC3339. rewrite !to_bytes_app, appendInt_four, !appendInt_two by lia. rewrite <- !app_assoc.
  change (to_bytes "-") with ["-"%char]. change (to_bytes ":") with [":"%char]. change (to_bytes "T") with ["T"%char].
  change (to_bytes "Z") with ["Z"%char]. cbv [mbind option_bind]. unfold in_range. cbv [mbind option_bind]. cbn [app].
  repeat (first [rewrite getyear_four by lia|rewrite skip_here|rewrite getnum_two by lia|rewrite (proj2 (Z.leb_le _ _)) by lia];
    cbv beta iota; cbn [andb app]).
  change (parse_fraction ["Z"%char]) with (0, ["Z"%char]). change (parse_zone ["Z"%char]) with (Some (0, [] : bytes)). cbv beta iota.
  rewrite (proj2 (Z.ltb_ge day 1)), (proj2 (Z.ltb_ge (daysIn month year) day)) by lia. cbn [orb].
  rewrite Hdays. f_equal. lia.
Qed.

(** An offset can carry an accepted instant past the last four-digit year; printed, it is not read back. *)
Example parsed_beyond_the_calendar :
  exists t, time_Parse_RFC3339 "9999-12-31T23:59:59-01:00" = Some t /\ RFC3339 t = "10000-01-01T00:59:59Z" /\
    time_Parse_RFC3339 (RFC3339 t) = None.
Proof. exists (253402304399 * 10 ^ 9). by vm_compute. Qed.
