(* ===== verification/Attachments.v ===== *)
(** * Attachments

    Models [internal/attachment/attachment.go] with the [encoding/base64] it uses
    ([StdEncoding], both ways), over bytes as integers below 256. *)

From Stdlib Require Import Ascii.
From S2P Require Import Prelude.
From S2P Require Import Core.
From S2P Require Import Json.
From S2P Require Import JsonFacts.
Local Open Scope string_scope.
Local Open Scope Z_scope.

(** ** [base64.StdEncoding] *)

Definition std_alphabet : bytes := to_bytes "ABCDEFGHIJKLMNOPQRSTUVWXYZabcdefghijklmnopqrstuvwxyz0123456789+/".

Definition sextet_char (n : Z) : ascii := nth (Z.to_nat n) std_alphabet "A"%char.

Definition char_sextet (c : ascii) : option Z := '(i, _) ← list_find (fun a => a = c) std_alphabet; Some (Z.of_nat i).

Fixpoint base64_encode (content : list Z) : bytes :=
  match content with
  | a :: b :: c :: content =>
      sextet_char (a / 4) :: sextet_char (a mod 4 * 16 + b / 16) :: sextet_char (b mod 16 * 4 + c / 64) :: sextet_char (c mod 64)
        :: base64_encode content
  | [a; b] => [sextet_char (a / 4); sextet_char (a mod 4 * 16 + b / 16); sextet_char (b mod 16 * 4); "="%char]
  | [a] => [sextet_char (a / 4); sextet_char (a mod 4 * 16); "="%char; "="%char]
  | [] => []
  end.

(** The quanta of four characters; only the last may be padded.  The bits that
    padding leaves over are dropped, as by a decoder that is not [Strict]. *)
Fixpoint decode_quanta (encoded : bytes) : option (list Z) :=
  match encoded with
  | [] => Some []
  | w :: x :: y :: z :: rest =>
      w ← char_sextet w; x ← char_sextet x;
      let first := w * 4 + x / 16 in
      match char_sextet y with
      | None =>
          if Ascii.eqb y "="%char && Ascii.eqb z "="%char then match rest with [] => Some [first] | _ => None end else None
      | Some y =>
          let second := x mod 16 * 16 + y / 4 in
          match char_sextet z with
          | None => if Ascii.eqb z "="%char then match rest with [] => Some [first; second] | _ => None end else None
          | Some z =>
              content ← decode_quanta rest;
              Some (first :: second :: (y mod 4 * 64 + z) :: content)
          end
      end
  | _ => None
  end.

Definition is_line_break (c : ascii) : bool := Ascii.eqb c "010"%char || Ascii.eqb c "013"%char.

(** Line breaks are skipped wherever they stand. *)
Definition StdEncoding_DecodeString (encoded : string) : option (list Z) :=
  decode_quanta (List.filter (fun c => negb (is_line_break c)) (to_bytes encoded)).

Definition StdEncoding_EncodeToString (content : list Z) : string := of_bytes (base64_encode content).

(** ** The attachment's values *)

Module Attachment.

Definition MaxBytes : Z := 500 * 1024.
Definition MaxCount : nat := 5.

Record Name := MkName { Name_value : string }.
Record ContentType := MkContentType { ContentType_value : string }.
Record Content := MkContent { Content_value : list Z }.

#[local] Notation rejected_argument text := (NewDomainError ErrorCodeInvalidArgument text) (only parsing).

Inductive NameResult := NameAccepted (Value : Name) | NameRejected (Reason : DomainError).

Definition contains_byte (c : ascii) (s : string) : bool := existsb (Ascii.eqb c) (to_bytes s).

Definition NewName (raw : string) : NameResult :=
  let trimmed := TrimSpace raw in
  if String.eqb trimmed "" then NameRejected (rejected_argument "attachment filename is required")
  else if (160 <? String.length trimmed)%nat then NameRejected (rejected_argument "attachment filename is too long")
  else if contains_byte "000"%char trimmed || contains_byte "/"%char trimmed || contains_byte "\"%char trimmed
  then NameRejected (rejected_argument "attachment filename is invalid")
  else NameAccepted (MkName trimmed).

(** [strings.ToLower], as far as it makes ASCII: capital letters, and the two
    code points outside ASCII whose lower case is inside, U+0130 and U+212A.
    Every other rune stays outside ASCII; it is kept as it is here. *)
Definition lower_byte (c : ascii) : ascii :=
  let n := N_of_ascii c in if (65 <=? n)%N && (n <=? 90)%N then ascii_of_N (n + 32) else c.

Fixpoint ToLower (s : bytes) : bytes :=
  match s with
  | [] => []
  | c :: rest =>
      match c, rest with
      | "196"%char, "176"%char :: rest => "i"%char :: ToLower rest
      | "226"%char, "132"%char :: "170"%char :: rest => "k"%char :: ToLower rest
      | _, _ => lower_byte c :: ToLower rest
      end
  end.

Inductive ContentTypeResult := ContentTypeAccepted (Value : ContentType) | ContentTypeRejected (Reason : DomainError).

Definition allowed_content_types : list string :=
  ["image/png"; "image/jpeg"; "image/gif"; "image/webp"; "text/plain"; "application/json"; "application/pdf"].

Definition ParseContentType (raw : string) : ContentTypeResult :=
  let trimmed := of_bytes (ToLower (to_bytes (TrimSpace raw))) in
  if bool_decide (trimmed ∈ allowed_content_types) then ContentTypeAccepted (MkContentType trimmed)
  else ContentTypeRejected (rejected_argument "attachment content type is not allowed").

Inductive ContentResult := ContentAccepted (Value : Content) | ContentRejected (Reason : DomainError).

Definition NewContent (value : list Z) : ContentResult :=
  match value with
  | [] => ContentRejected (rejected_argument "attachment content is required")
  | _ => if MaxBytes <? Z.of_nat (length value) then ContentRejected (rejected_argument "attachment content is too large")
         else ContentAccepted (MkContent value)
  end.

Definition ParseDataURL (raw : string) (expectedContentType : ContentType) : ContentResult :=
  let value := TrimSpace raw in
  let prefix := "data:" +:+ ContentType_value expectedContentType +:+ ";base64," in
  if negb (String.prefix prefix value) then ContentRejected (rejected_argument "attachment data URL is invalid")
  else match StdEncoding_DecodeString (String.substring (String.length prefix) (String.length value - String.length prefix) value) with
       | None => ContentRejected (rejected_argument "attachment content is invalid")
       | Some decoded => NewContent decoded
       end.

Record Attachment := MkAttachment { AName : Name; AContentType : ContentType; AContent : Content }.

Inductive AttachmentResult := AttachmentAccepted (Value : Attachment) | AttachmentRejected (Reason : DomainError).

Definition with_content (rawName rawContentType : string) (content : ContentType -> ContentResult) : AttachmentResult :=
  match NewName rawName with
  | NameRejected reason => AttachmentRejected reason
  | NameAccepted name =>
      match ParseContentType rawContentType with
      | ContentTypeRejected reason => AttachmentRejected reason
      | ContentTypeAccepted contentType =>
          match content contentType with
          | ContentRejected reason => AttachmentRejected reason
          | ContentAccepted value => AttachmentAccepted (MkAttachment name contentType value)
          end
      end
  end.

Definition NewAttachment (rawName rawContentType dataURL : string) : AttachmentResult :=
  with_content rawName rawContentType (ParseDataURL dataURL).

Definition NewStoredAttachment (rawName rawContentType : string) (content : list Z) : AttachmentResult :=
  with_content rawName rawContentType (fun _ => NewContent content).

Definition DataURL (attachment : Attachment) : string :=
  "data:" +:+ ContentType_value (AContentType attachment) +:+ ";base64," +:+ StdEncoding_EncodeToString (Content_value (AContent attachment)).
End Attachment.

(** ** Decoding what was encoded *)

Lemma char_sextet_char n : 0 <= n < 64 -> char_sextet (sextet_char n) = Some n.
Proof.
  intros Hn. assert (Forall (fun n => char_sextet (sextet_char n) = Some n) (seqZ 0 64)) as H by (apply (bool_decide_unpack _); vm_compute; exact I).
  apply (Forall_elem _ _ _ H), elem_of_seqZ. lia.
Qed.

Lemma sextet_char_no_break n : 0 <= n < 64 -> is_line_break (sextet_char n) = false.
Proof.
  intros Hn. assert (Forall (fun n => is_line_break (sextet_char n) = false) (seqZ 0 64)) as H by (apply (bool_decide_unpack _); vm_compute; exact I).
  apply (Forall_elem _ _ _ H), elem_of_seqZ. lia.
Qed.

(** Induction three bytes at a time. *)
Lemma triples_ind {A} (P : list A -> Prop) :
  P [] -> (forall a, P [a]) -> (forall a b, P [a; b]) -> (forall a b c l, P l -> P (a :: b :: c :: l)) -> forall l, P l.
Proof.
  intros H0 H1' H2 H3. fix IH 1. intros [|a [|b [|c l]]]; [done|done|done|]. apply H3, IH.
Qed.

Lemma decode_encode content : Forall (fun b => 0 <= b < 256) content -> decode_quanta (base64_encode content) = Some content.
Proof.
  induction content as [|a|a b|a b c content IH] using triples_ind; intros Hb; [done|..];
    repeat (match goal with H : Forall _ (_ :: _) |- _ => apply List.Forall_cons_iff in H as [? H] end); cbn [base64_encode decode_quanta].
  - rewrite !char_sextet_char by (Z.to_euclidean_division_equations; lia). cbv [mbind option_bind]. change (char_sextet "=") with (@None Z).
    cbn. f_equal. f_equal. Z.to_euclidean_division_equations. lia.
  - rewrite !char_sextet_char by (Z.to_euclidean_division_equations; lia). cbv [mbind option_bind]. change (char_sextet "=") with (@None Z).
    cbn. f_equal. f_equal; [|f_equal]; Z.to_euclidean_division_equations; lia.
  - rewrite !char_sextet_char by (Z.to_euclidean_division_equations; lia). cbv [mbind option_bind]. rewrite IH by done.
    f_equal. f_equal; [|f_equal; [|f_equal]]; Z.to_euclidean_division_equations; lia.
Qed.

Lemma encode_no_breaks content :
  Forall (fun b => 0 <= b < 256) content -> Forall (fun c => is_line_break c = false) (base64_encode content).
Proof.
  induction content as [|a|a b|a b c content IH] using triples_ind; intros Hb; [constructor|..];
    repeat (match goal with H : Forall _ (_ :: _) |- _ => apply List.Forall_cons_iff in H as [? H] end); cbn [base64_encode];
    repeat (constructor; [first [reflexivity|apply sextet_char_no_break; Z.to_euclidean_division_equations; lia]|]); [constructor..|by apply IH].
Qed.

Lemma DecodeString_EncodeToString content :
  Forall (fun b => 0 <= b < 256) content -> StdEncoding_DecodeString (StdEncoding_EncodeToString content) = Some content.
Proof.
  intros Hb. unfold StdEncoding_DecodeString, StdEncoding_EncodeToString. rewrite to_of_bytes.
  rewrite List.forallb_filter_id; [by apply decode_encode|].
  apply forallb_forall. intros c Hc. pose proof (encode_no_breaks content Hb) as Hn. rewrite List.Forall_forall in Hn. by rewrite (Hn c Hc).
Qed.

(** ** Data URLs *)

Definition visible (c : ascii) : bool := let n := N_of_ascii c in (33 <=? n)%N && (n <=? 126)%N.

Definition hidden_head (p : bytes) : bool := match p with b :: _ => negb (visible b) | [] => false end.

Lemma strip_visible fuel ps c l :
  Forall (fun p => hidden_head p = true) ps -> visible c = true ->
  strip_all fuel ps (c :: l) = c :: l.
Proof.
  intros Hps Hc. apply strip_all_stuck, strip_one_None. eapply Forall_impl; [|exact Hps]. intros [|b p] Hb; [done|].
  intros [k [= <- _]]. cbn in Hb. by rewrite Hc in Hb.
Qed.

(** A text that starts and ends in a visible character has nothing to trim. *)
Lemma trim_visible a l b : visible a = true -> visible b = true -> trim (a :: l ++ [b])%list = (a :: l ++ [b])%list.
Proof.
  intros Ha Hb. unfold trim. rewrite strip_visible by (done || apply (bool_decide_unpack _); vm_compute; exact I).
  change (a :: l ++ [b])%list with ((a :: l) ++ [b])%list. rewrite (reverse_app (a :: l) [b]). change (reverse [b]) with [b]. cbn [app].
  rewrite strip_visible by (done || apply (bool_decide_unpack _); vm_compute; exact I).
  change (b :: reverse (a :: l)) with ([b] ++ reverse (a :: l))%list. by rewrite reverse_app, reverse_involutive.
Qed.

Lemma encode_last content :
  content <> [] -> Forall (fun b => 0 <= b < 256) content -> exists l c, base64_encode content = (l ++ [c])%list /\ visible c = true.
Proof.
  assert (forall n, 0 <= n < 64 -> visible (sextet_char n) = true) as Hv.
  { intros n Hn. assert (Forall (fun n => visible (sextet_char n) = true) (seqZ 0 64)) as H by (apply (bool_decide_unpack _); vm_compute; exact I).
    apply (Forall_elem _ _ _ H), elem_of_seqZ. lia. }
  induction content as [|a|a b|a b c content IH] using triples_ind; intros Hne Hb; [done|..]; cbn [base64_encode].
  - exists [sextet_char (a / 4); sextet_char (a mod 4 * 16); "="%char], "="%char. done.
  - exists [sextet_char (a / 4); sextet_char (a mod 4 * 16 + b / 16); sextet_char (b mod 16 * 4)], "="%char. done.
  - repeat (match goal with H : Forall _ (_ :: _) |- _ => apply List.Forall_cons_iff in H as [? H] end).
    destruct (decide (content = [])) as [->|Hc].
    + exists [sextet_char (a / 4); sextet_char (a mod 4 * 16 + b / 16); sextet_char (b mod 16 * 4 + c / 64)], (sextet_char (c mod 64)).
      split; [done|]. apply Hv. Z.to_euclidean_division_equations. lia.
    + destruct (IH Hc Hb) as (l & e & -> & He).
      eexists (_ :: _ :: _ :: _ :: l), e. done.
Qed.

(** A stored attachment's data URL parses back to its content type and content. *)
Theorem DataURL_reads_back attachment content :
  Attachment.AContent attachment = Attachment.MkContent content -> Attachment.NewContent content = Attachment.ContentAccepted (Attachment.MkContent content) ->
  Forall (fun b => 0 <= b < 256) content ->
  Attachment.ParseDataURL (Attachment.DataURL attachment) (Attachment.AContentType attachment) = Attachment.ContentAccepted (Attachment.AContent attachment).
Proof.
  intros Hc Hn Hb. unfold Attachment.ParseDataURL, Attachment.DataURL. rewrite Hc. cbn [Attachment.Content_value].
  set (head := "data:" +:+ _ +:+ ";base64,").
  assert (content <> []) as Hne by (by intros ->).
  destruct (encode_last content Hne Hb) as (l & c & Henc & Hv).
  assert (forall e, "data:" +:+ Attachment.ContentType_value (Attachment.AContentType attachment) +:+ ";base64," +:+ e = head +:+ e) as E.
  { intros e. apply to_bytes_inj. unfold head. rewrite !to_bytes_app. by rewrite <- !app_assoc. }
  rewrite E. clear E.
  assert (TrimSpace (head +:+ StdEncoding_EncodeToString content) = head +:+ StdEncoding_EncodeToString content) as ->.
  { apply to_bytes_inj. rewrite TrimSpace_trim, to_bytes_app. unfold StdEncoding_EncodeToString. rewrite to_of_bytes, Henc.
    unfold head. rewrite to_bytes_app. change (to_bytes "data:") with ("d"%char :: to_bytes "ata:"). cbn [app]. rewrite app_assoc.
    by apply trim_visible. }
  rewrite String_prefix_app. cbn [negb]. rewrite substring_app.
  by rewrite DecodeString_EncodeToString.
Qed.
