(* ===== verification/TaskValues.v ===== *)
(** * Tasks: values, states and rewards

    Models [internal/task] as far as a single task goes: [values.go], [models.go],
    [reward.go], [expiration.go] and the values of [series_model.go].  A sum the
    source keeps as a string of its own type is the enumeration of its values. *)

From Stdlib Require Import Ascii.
From S2P Require Import Prelude.
From S2P Require Import Core.
From S2P Require Import Auth.
From S2P Require Import Json.
From S2P Require Import Calendar.
From S2P Require Import Attachments.

(** * Task types and reference links

    Models [internal/task/task_type.go].  [net/url] is a parameter: the fields of
    a parsed link that the source reads. *)
Local Open Scope string_scope.

(** ** Task types *)

Inductive TaskType :=
| TaskTypeGeneral | TaskTypeCodeReview | TaskTypeSecurityReview | TaskTypeProductReview | TaskTypeUIUXReview
| TaskTypeQATesting | TaskTypeDocumentReview | TaskTypeDocumentationWriting | TaskTypeDiagramWriting
| TaskTypePlanning | TaskTypeResearch | TaskTypeDataExtraction | TaskTypeTroubleshooting
| TaskTypeCodeAnalysis | TaskTypeArchitectureReview | TaskTypeThreatAnalysis.

#[export] Instance TaskType_eq_dec : EqDecision TaskType.
Proof. solve_decision. Defined.

Definition TaskType_String (taskType : TaskType) : string :=
  match taskType with
  | TaskTypeGeneral => "general"
  | TaskTypeCodeReview => "code_review"
  | TaskTypeSecurityReview => "security_review"
  | TaskTypeProductReview => "product_review"
  | TaskTypeUIUXReview => "ui_ux_review"
  | TaskTypeQATesting => "qa_testing"
  | TaskTypeDocumentReview => "document_review"
  | TaskTypeDocumentationWriting => "documentation_writing"
  | TaskTypeDiagramWriting => "diagram_writing"
  | TaskTypePlanning => "planning"
  | TaskTypeResearch => "research"
  | TaskTypeDataExtraction => "data_extraction"
  | TaskTypeTroubleshooting => "troubleshooting"
  | TaskTypeCodeAnalysis => "code_analysis"
  | TaskTypeArchitectureReview => "architecture_review"
  | TaskTypeThreatAnalysis => "threat_analysis"
  end.

Definition allTaskTypes : list TaskType :=
  [ TaskTypeGeneral; TaskTypeCodeReview; TaskTypeSecurityReview; TaskTypeProductReview; TaskTypeUIUXReview;
    TaskTypeQATesting; TaskTypeDocumentReview; TaskTypeDocumentationWriting; TaskTypeDiagramWriting;
    TaskTypePlanning; TaskTypeResearch; TaskTypeDataExtraction; TaskTypeTroubleshooting;
    TaskTypeCodeAnalysis; TaskTypeArchitectureReview; TaskTypeThreatAnalysis ].

Inductive TaskTypeResult := TaskTypeAccepted (Value : TaskType) | TaskTypeRejected (Reason : DomainError).

Definition ParseTaskType (raw : string) : TaskTypeResult :=
  if String.eqb raw "" then TaskTypeAccepted TaskTypeGeneral
  else match list_find (fun taskType => TaskType_String taskType = raw) allTaskTypes with
       | Some (_, taskType) => TaskTypeAccepted taskType
       | None => TaskTypeRejected (NewDomainError ErrorCodeInvalidEnum "task type is invalid")
       end.

Lemma ParseTaskType_String taskType : ParseTaskType (TaskType_String taskType) = TaskTypeAccepted taskType.
Proof. by destruct taskType. Qed.

(** ** [net/url] *)

(** What [url.Parse] returns, as far as it is read: [UserInfo] says whether [User] is set. *)
Record URL := MkURL { Scheme : string; Host : string; Hostname : string; UserInfo : bool; URL_String : string }.

Class URLLib := { url_Parse : string -> option URL }.

(** [URL.String] writes the scheme first, and the authority after [//] when there is a host. *)
Class URLLaws `{URLLib} := {
  url_String_prefix : forall raw u, url_Parse raw = Some u -> Scheme u <> "" -> Host u <> "" ->
    String.prefix (Scheme u +:+ "://") (URL_String u) = true
}.

(** ** Reference links *)

Record ReferenceURL := MkReferenceURL { ReferenceURL_value : string }.

Inductive ReferenceURLResult :=
| ReferenceURLAccepted (Value : ReferenceURL)
| ReferenceURLRejected (Reason : DomainError).

Definition NewReferenceURL `{URLLib} (raw : string) : ReferenceURLResult :=
  let trimmed := TrimSpace raw in
  let malformed := ReferenceURLRejected (NewDomainError ErrorCodeInvalidArgument "reference URL must be an absolute http or https URL") in
  if String.eqb trimmed "" then ReferenceURLAccepted (MkReferenceURL "")
  else if (2000 <? String.length trimmed)%nat
  then ReferenceURLRejected (NewDomainError ErrorCodeInvalidArgument "reference URL is too long")
  else match url_Parse trimmed with
       | None => malformed
       | Some parsed =>
           if (negb (String.eqb (Scheme parsed) "http") && negb (String.eqb (Scheme parsed) "https")) ||
              String.eqb (Host parsed) ""
           then malformed
           else ReferenceURLAccepted (MkReferenceURL trimmed)
       end.

Local Open Scope string_scope.
Local Open Scope Z_scope.

Module Task.

(** ** [values.go] *)

(** A trimmed text, required and at most [limit] bytes. *)
Definition required_text {R} (limit : nat) (missing long : string) (accepted : string -> R) (rejected : DomainError -> R) (raw : string) : R :=
  let trimmed := TrimSpace raw in
  if String.eqb trimmed "" then rejected (invalid_argument missing)
  else if (limit <? String.length trimmed)%nat then rejected (invalid_argument long)
  else accepted trimmed.

Record Title := MkTitle { Title_value : string }.
Inductive TitleResult := TitleAccepted (Value : Title) | TitleRejected (Reason : DomainError).
Definition NewTitle (raw : string) : TitleResult :=
  required_text 160 "task title is required" "task title is too long" (fun s => TitleAccepted (MkTitle s)) TitleRejected raw.

Record SearchText := MkSearchText { SearchText_value : string }.
Inductive SearchTextResult := SearchTextAccepted (Value : SearchText) | SearchTextRejected (Reason : DomainError).
Definition NewSearchText (raw : string) : SearchTextResult :=
  required_text 160 "task search query is required" "task search query is too long"
    (fun s => SearchTextAccepted (MkSearchText s)) SearchTextRejected raw.

Record Description := MkDescription { Description_value : string }.
Inductive DescriptionResult := DescriptionAccepted (Value : Description) | DescriptionRejected (Reason : DomainError).
Definition NewDescription (raw : string) : DescriptionResult :=
  required_text 8000 "task description is required" "task description is too long"
    (fun s => DescriptionAccepted (MkDescription s)) DescriptionRejected raw.

Record ResponseSchemaSource := MkResponseSchemaSource { ResponseSchemaSource_value : string }.
Inductive ResponseSchemaSourceResult :=
| ResponseSchemaSourceAccepted (Value : ResponseSchemaSource)
| ResponseSchemaSourceRejected (Reason : DomainError).
Definition NewResponseSchemaSource (raw : string) : ResponseSchemaSourceResult :=
  let trimmed := TrimSpace raw in
  if String.eqb trimmed "" then ResponseSchemaSourceRejected (invalid_argument "response schema is required")
  else ResponseSchemaSourceAccepted (MkResponseSchemaSource trimmed).

Record PayloadSource := MkPayloadSource { PayloadSource_value : string }.
Inductive PayloadSourceResult := PayloadSourceAccepted (Value : PayloadSource) | PayloadSourceRejected (Reason : DomainError).
Definition NewPayloadSource (raw : string) : PayloadSourceResult :=
  let trimmed := TrimSpace raw in
  if String.eqb trimmed "" then PayloadSourceRejected (invalid_argument "payload JSON is required")
  else PayloadSourceAccepted (MkPayloadSource trimmed).

Record SeriesTitle := MkSeriesTitle { SeriesTitle_value : string }.
Inductive SeriesTitleResult := SeriesTitleAccepted (Value : SeriesTitle) | SeriesTitleRejected (Reason : DomainError).
Definition NewSeriesTitle (raw : string) : SeriesTitleResult :=
  required_text 160 "task series title is required" "task series title is too long"
    (fun s => SeriesTitleAccepted (MkSeriesTitle s)) SeriesTitleRejected raw.

Record SeriesPosition := MkSeriesPosition { SeriesPosition_value : Z }.
Inductive SeriesPositionResult := SeriesPositionAccepted (Value : SeriesPosition) | SeriesPositionRejected (Reason : DomainError).
Definition NewSeriesPosition (raw : Z) : SeriesPositionResult :=
  if raw <? 1 then SeriesPositionRejected (invalid_argument "task series position must be positive")
  else SeriesPositionAccepted (MkSeriesPosition raw).

(** ** [series_model.go] *)

Inductive SeriesState := SeriesStateDraft | SeriesStatePublished | SeriesStateClosed.

Definition SeriesState_String (state : SeriesState) : string :=
  match state with SeriesStateDraft => "draft" | SeriesStatePublished => "published" | SeriesStateClosed => "closed" end.

Inductive SeriesStateResult := SeriesStateAccepted (Value : SeriesState) | SeriesStateRejected (Reason : DomainError).
Definition ParseSeriesState (raw : string) : SeriesStateResult :=
  switch raw [ ("draft", SeriesStateAccepted SeriesStateDraft); ("published", SeriesStateAccepted SeriesStatePublished);
               ("closed", SeriesStateAccepted SeriesStateClosed) ]
    (SeriesStateRejected (invalid_enum "task series state is invalid")).

Inductive SeriesStateTransitionResult :=
| SeriesStateTransitionAccepted (Value : SeriesState)
| SeriesStateTransitionRejected (Reason : DomainError).

Definition PublishSeriesState (current : SeriesState) : SeriesStateTransitionResult :=
  match current with
  | SeriesStateDraft => SeriesStateTransitionAccepted SeriesStatePublished
  | _ => SeriesStateTransitionRejected (invalid_state "only a draft series can be published")
  end.

Definition UnpublishSeriesState (current : SeriesState) : SeriesStateTransitionResult :=
  match current with
  | SeriesStatePublished => SeriesStateTransitionAccepted SeriesStateDraft
  | _ => SeriesStateTransitionRejected (invalid_state "only a published series can be moved back to draft")
  end.

Definition CloseSeriesState (current : SeriesState) : SeriesStateTransitionResult :=
  match current with
  | SeriesStateDraft | SeriesStatePublished => SeriesStateTransitionAccepted SeriesStateClosed
  | SeriesStateClosed => SeriesStateTransitionRejected (invalid_state "series cannot be closed from this state")
  end.

Definition ReopenSeriesState (current : SeriesState) : SeriesStateTransitionResult :=
  match current with
  | SeriesStateClosed => SeriesStateTransitionAccepted SeriesStateDraft
  | _ => SeriesStateTransitionRejected (invalid_state "only a closed series can be reopened to draft")
  end.

Record SeriesDescription := MkSeriesDescription { SeriesDescription_value : string }.
Inductive SeriesDescriptionResult :=
| SeriesDescriptionAccepted (Value : SeriesDescription)
| SeriesDescriptionRejected (Reason : DomainError).
Definition NewSeriesDescription (raw : string) : SeriesDescriptionResult :=
  if (8000 <? String.length raw)%nat then SeriesDescriptionRejected (invalid_argument "task series description is too long")
  else SeriesDescriptionAccepted (MkSeriesDescription raw).

Record CommentBody := MkCommentBody { CommentBody_value : string }.
Inductive CommentBodyResult := CommentBodyAccepted (Value : CommentBody) | CommentBodyRejected (Reason : DomainError).
Definition NewCommentBody (raw : string) : CommentBodyResult :=
  required_text 4000 "comment body is required" "comment body is too long" (fun s => CommentBodyAccepted (MkCommentBody s)) CommentBodyRejected raw.

(** ** [reward.go] *)

Record CreditRewardAmount := MkCreditRewardAmount { CreditRewardAmount_Int64 : Z }.
Inductive CreditRewardAmountResult :=
| CreditRewardAmountAccepted (Value : CreditRewardAmount)
| CreditRewardAmountRejected (Reason : DomainError).
Definition NewCreditRewardAmount (value : Z) : CreditRewardAmountResult :=
  if value <=? 0 then CreditRewardAmountRejected (invalid_argument "credit reward amount must be positive")
  else CreditRewardAmountAccepted (MkCreditRewardAmount value).

Record CollectibleRewardCount := MkCollectibleRewardCount { CollectibleRewardCount_Int : Z }.
Inductive CollectibleRewardCountResult :=
| CollectibleRewardCountAccepted (Value : CollectibleRewardCount)
| CollectibleRewardCountRejected (Reason : DomainError).
Definition NewCollectibleRewardCount (value : Z) : CollectibleRewardCountResult :=
  if value <=? 0 then CollectibleRewardCountRejected (invalid_argument "collectible reward count must be positive")
  else CollectibleRewardCountAccepted (MkCollectibleRewardCount value).

(** ** [models.go]: the sums of a task *)

Inductive FundedState := FundedStateRewardFunded | FundedStateRewardUnfunded | FundedStateNoCreditReward.

#[global] Instance FundedState_eq_dec : EqDecision FundedState.
Proof. solve_decision. Defined.

Definition FundedState_String (state : FundedState) : string :=
  match state with
  | FundedStateRewardFunded => "reward_funded"
  | FundedStateRewardUnfunded => "reward_unfunded"
  | FundedStateNoCreditReward => "no_credit_reward"
  end.

Inductive FundedStateResult := FundedStateParsed (Value : FundedState) | FundedStateRejected (Reason : DomainError).
Definition ParseFundedState (raw : string) : FundedStateResult :=
  switch raw
    [ ("reward_funded", FundedStateParsed FundedStateRewardFunded);
      ("reward_unfunded", FundedStateParsed FundedStateRewardUnfunded);
      ("no_credit_reward", FundedStateParsed FundedStateNoCreditReward) ]
    (FundedStateRejected (invalid_enum "unknown task funded state")).

Inductive Owner :=
| UserOwner (user : UserID)
| TeamOwner (team : TeamID)
| OrganizationOwner (organization : OrganizationID)
| OrganizationTeamOwner (organization : OrganizationID) (team : TeamID).

Inductive RewardSpec :=
| NoRewardSpec
| CreditRewardSpec (Amount : CreditRewardAmount)
| CollectibleRewardSpec (Count : CollectibleRewardCount)
| BundleRewardSpec (Credit : CreditRewardAmount) (Collectible : CollectibleRewardCount).

Definition FundedStateFor (reward : RewardSpec) (escrowExists : bool) : FundedState :=
  match reward with
  | CreditRewardSpec _ | BundleRewardSpec _ _ =>
      if escrowExists then FundedStateRewardFunded else FundedStateRewardUnfunded
  | _ => FundedStateNoCreditReward
  end.

Inductive ParticipationPolicy := ParticipationPolicyOpen | ParticipationPolicyReservationRequired.

#[global] Instance ParticipationPolicy_eq_dec : EqDecision ParticipationPolicy.
Proof. solve_decision. Defined.

Definition ParticipationPolicy_String (policy : ParticipationPolicy) : string :=
  match policy with ParticipationPolicyOpen => "open" | ParticipationPolicyReservationRequired => "reservation_required" end.

Inductive ParticipationPolicyResult :=
| ParticipationPolicyAccepted (Value : ParticipationPolicy)
| ParticipationPolicyRejected (Reason : DomainError).
Definition ParseParticipationPolicy (raw : string) : ParticipationPolicyResult :=
  switch raw [ ("open", ParticipationPolicyAccepted ParticipationPolicyOpen);
               ("reservation_required", ParticipationPolicyAccepted ParticipationPolicyReservationRequired) ]
    (ParticipationPolicyRejected (invalid_enum "task participation policy is invalid")).

Inductive AssigneeScope := AssigneeScopeUser | AssigneeScopeOrganizationTeam | AssigneeScopeTeam.

#[global] Instance AssigneeScope_eq_dec : EqDecision AssigneeScope.
Proof. solve_decision. Defined.

Definition AssigneeScope_String (scope : AssigneeScope) : string :=
  match scope with AssigneeScopeUser => "user" | AssigneeScopeOrganizationTeam => "organization_team" | AssigneeScopeTeam => "team" end.

Inductive AssigneeScopeResult := AssigneeScopeAccepted (Value : AssigneeScope) | AssigneeScopeRejected (Reason : DomainError).
Definition ParseAssigneeScope (raw : string) : AssigneeScopeResult :=
  switch raw [ ("user", AssigneeScopeAccepted AssigneeScopeUser);
               ("organization_team", AssigneeScopeAccepted AssigneeScopeOrganizationTeam);
               ("team", AssigneeScopeAccepted AssigneeScopeTeam) ]
    (AssigneeScopeRejected (invalid_enum "task assignee scope is invalid")).

Record ReservationTTL := MkReservationTTL { ReservationTTL_Hours : Z }.
Inductive ReservationTTLResult := ReservationTTLAccepted (Value : ReservationTTL) | ReservationTTLRejected (Reason : DomainError).
Definition DefaultReservationTTL : ReservationTTL := MkReservationTTL 48.
Definition NewReservationTTL (hours : Z) : ReservationTTLResult :=
  if hours <? 1 then ReservationTTLRejected (invalid_argument "reservation expiry must be at least 1 hour")
  else if 720 <? hours then ReservationTTLRejected (invalid_argument "reservation expiry must be at most 720 hours")
  else ReservationTTLAccepted (MkReservationTTL hours).

Inductive Assignee :=
| UserAssignee (user : UserID)
| OrganizationTeamAssignee (organization : OrganizationID) (team : TeamID)
| TeamAssignee (team : TeamID).

Inductive ReservationState :=
| ReservationStateRequested | ReservationStateActive | ReservationStateDeclined | ReservationStateCancelledByRequester
| ReservationStateCancelledByWorker | ReservationStateExpired | ReservationStateSubmitted.

#[global] Instance ReservationState_eq_dec : EqDecision ReservationState.
Proof. solve_decision. Defined.

Definition ReservationState_String (state : ReservationState) : string :=
  match state with
  | ReservationStateRequested => "requested"
  | ReservationStateActive => "active"
  | ReservationStateDeclined => "declined"
  | ReservationStateCancelledByRequester => "cancelled_by_requester"
  | ReservationStateCancelledByWorker => "cancelled_by_worker"
  | ReservationStateExpired => "expired"
  | ReservationStateSubmitted => "submitted"
  end.

Inductive ReservationStateResult := ReservationStateAccepted (Value : ReservationState) | ReservationStateRejected (Reason : DomainError).
Definition ParseReservationState (raw : string) : ReservationStateResult :=
  switch raw
    [ ("requested", ReservationStateAccepted ReservationStateRequested);
      ("active", ReservationStateAccepted ReservationStateActive);
      ("declined", ReservationStateAccepted ReservationStateDeclined);
      ("cancelled_by_requester", ReservationStateAccepted ReservationStateCancelledByRequester);
      ("cancelled_by_worker", ReservationStateAccepted ReservationStateCancelledByWorker);
      ("expired", ReservationStateAccepted ReservationStateExpired);
      ("submitted", ReservationStateAccepted ReservationStateSubmitted) ]
    (ReservationStateRejected (invalid_enum "task reservation state is invalid")).

(** *** Task states *)

Inductive State := StateDraft | StateOpen | StateClosed | StateCancelled | StateExpired.

#[global] Instance State_eq_dec : EqDecision State.
Proof. solve_decision. Defined.

Definition State_String (state : State) : string :=
  match state with
  | StateDraft => "draft" | StateOpen => "open" | StateClosed => "closed"
  | StateCancelled => "cancelled" | StateExpired => "expired"
  end.

Inductive StateResult := StateAccepted (Value : State) | StateRejected (Reason : DomainError).
Definition ParseState (raw : string) : StateResult :=
  switch raw
    [ ("draft", StateAccepted StateDraft); ("open", StateAccepted StateOpen); ("closed", StateAccepted StateClosed);
      ("cancelled", StateAccepted StateCancelled); ("expired", StateAccepted StateExpired) ]
    (StateRejected (invalid_enum "task state is invalid")).

Inductive StateTransitionResult := StateTransitionAccepted (Value : State) | StateTransitionRejected (Reason : DomainError).

Definition OpenState (current : State) : StateTransitionResult :=
  match current with
  | StateDraft => StateTransitionAccepted StateOpen
  | _ => StateTransitionRejected (invalid_state "only draft tasks can be opened")
  end.

Definition CancelState (current : State) : StateTransitionResult :=
  match current with
  | StateDraft | StateOpen => StateTransitionAccepted StateCancelled
  | _ => StateTransitionRejected (invalid_state "task cannot be cancelled from this state")
  end.

Definition UnpublishState (current : State) : StateTransitionResult :=
  match current with
  | StateOpen => StateTransitionAccepted StateDraft
  | _ => StateTransitionRejected (invalid_state "only an open task can be moved back to draft")
  end.

Definition ExpireState (current : State) : StateTransitionResult :=
  match current with
  | StateOpen => StateTransitionAccepted StateExpired
  | _ => StateTransitionRejected (invalid_state "only open tasks can expire")
  end.

Inductive Visibility :=
| PublicVisibility
| UserVisibility (user : UserID)
| TeamVisibility (team : TeamID)
| OrganizationVisibility (organization : OrganizationID)
| OrganizationTeamVisibility (organization : OrganizationID) (team : TeamID).

Inductive SeriesPlacement :=
| StandalonePlacement
| NewSeriesPlacement (Title : SeriesTitle) (Position : SeriesPosition)
| ExistingSeriesPlacement (Series : TaskSeriesID) (Position : SeriesPosition).

Inductive DataPayload := NoDataPayload | JSONDataPayload (Source : PayloadSource).

(** ** [expiration.go] *)

Inductive ExpirationPolicy := NoExpiration | ExpiresAt (Instant : Z).
Inductive ExpirationPolicyResult := ExpirationPolicyAccepted (Value : ExpirationPolicy) | ExpirationPolicyRejected (Reason : DomainError).

Definition NewExpiresAt (instant now : Z) : ExpirationPolicyResult :=
  if negb (now <? instant) then ExpirationPolicyRejected (invalid_argument "task expiration must be in the future")
  else ExpirationPolicyAccepted (ExpiresAt instant).

Definition ParseExpirationPolicy (raw : string) (now : Z) : ExpirationPolicyResult :=
  if String.eqb raw "" then ExpirationPolicyAccepted NoExpiration
  else match time_Parse_RFC3339 raw with
       | None => ExpirationPolicyRejected (invalid_argument "expires_at must be an RFC3339 timestamp")
       | Some instant => NewExpiresAt instant now
       end.

Definition ExpirationInstantString (policy : ExpirationPolicy) : string :=
  match policy with ExpiresAt instant => RFC3339 instant | NoExpiration => "" end.

(** ** The results as sums *)

#[global] Instance Title_outcome : Outcome TitleResult Title := fun r => match r with TitleAccepted v => inr v | TitleRejected e => inl e end.
#[global] Instance SearchText_outcome : Outcome SearchTextResult SearchText := fun r => match r with SearchTextAccepted v => inr v | SearchTextRejected e => inl e end.
#[global] Instance Description_outcome : Outcome DescriptionResult Description := fun r => match r with DescriptionAccepted v => inr v | DescriptionRejected e => inl e end.
#[global] Instance ResponseSchemaSource_outcome : Outcome ResponseSchemaSourceResult ResponseSchemaSource := fun r => match r with ResponseSchemaSourceAccepted v => inr v | ResponseSchemaSourceRejected e => inl e end.
#[global] Instance PayloadSource_outcome : Outcome PayloadSourceResult PayloadSource := fun r => match r with PayloadSourceAccepted v => inr v | PayloadSourceRejected e => inl e end.
#[global] Instance SeriesTitle_outcome : Outcome SeriesTitleResult SeriesTitle := fun r => match r with SeriesTitleAccepted v => inr v | SeriesTitleRejected e => inl e end.
#[global] Instance SeriesPosition_outcome : Outcome SeriesPositionResult SeriesPosition := fun r => match r with SeriesPositionAccepted v => inr v | SeriesPositionRejected e => inl e end.
#[global] Instance SeriesState_outcome : Outcome SeriesStateResult SeriesState := fun r => match r with SeriesStateAccepted v => inr v | SeriesStateRejected e => inl e end.
#[global] Instance CreditRewardAmount_outcome : Outcome CreditRewardAmountResult CreditRewardAmount := fun r => match r with CreditRewardAmountAccepted v => inr v | CreditRewardAmountRejected e => inl e end.
#[global] Instance CollectibleRewardCount_outcome : Outcome CollectibleRewardCountResult CollectibleRewardCount := fun r => match r with CollectibleRewardCountAccepted v => inr v | CollectibleRewardCountRejected e => inl e end.
#[global] Instance ParticipationPolicy_outcome : Outcome ParticipationPolicyResult ParticipationPolicy := fun r => match r with ParticipationPolicyAccepted v => inr v | ParticipationPolicyRejected e => inl e end.
#[global] Instance AssigneeScope_outcome : Outcome AssigneeScopeResult AssigneeScope := fun r => match r with AssigneeScopeAccepted v => inr v | AssigneeScopeRejected e => inl e end.
#[global] Instance ReservationTTL_outcome : Outcome ReservationTTLResult ReservationTTL := fun r => match r with ReservationTTLAccepted v => inr v | ReservationTTLRejected e => inl e end.
#[global] Instance ReservationState_outcome : Outcome ReservationStateResult ReservationState := fun r => match r with ReservationStateAccepted v => inr v | ReservationStateRejected e => inl e end.
#[global] Instance State_outcome : Outcome StateResult State := fun r => match r with StateAccepted v => inr v | StateRejected e => inl e end.
#[global] Instance TaskType_outcome : Outcome TaskTypeResult TaskType := fun r => match r with TaskTypeAccepted v => inr v | TaskTypeRejected e => inl e end.
#[global] Instance ReferenceURL_outcome : Outcome ReferenceURLResult ReferenceURL := fun r => match r with ReferenceURLAccepted v => inr v | ReferenceURLRejected e => inl e end.
#[global] Instance DisplayName_outcome : Outcome DisplayNameResult DisplayName := fun r => match r with DisplayNameAccepted v => inr v | DisplayNameRejected e => inl e end.
#[global] Instance Attachment_outcome : Outcome Attachment.AttachmentResult Attachment.Attachment := fun r =>
  match r with Attachment.AttachmentAccepted v => inr v | Attachment.AttachmentRejected e => inl e end.

(** ** [models.go]: a task, its reservations and its list rows *)

Record Task := MkTask {
  ID : TaskID;
  TOwner : Owner;
  TTitle : Title;
  TDescription : Description;
  Type_ : TaskType;
  Reference : ReferenceURL;
  Reward : RewardSpec;
  Participation : ParticipationPolicy;
  TAssigneeScope : AssigneeScope;
  TReservationTTL : ReservationTTL;
  TState : State;
  TVisibility : Visibility;
  Placement : SeriesPlacement;
  ResponseSchema : ResponseSchemaSource;
  Payload : DataPayload;
  Attachments : list Attachment.Attachment;
  Expiration : ExpirationPolicy;
  CreatedBy : UserID
}.

Record Reservation := MkReservation {
  Reservation_ID : TaskReservationID;
  Reservation_TaskID : TaskID;
  Reservation_Assignee : Assignee;
  Reservation_State : ReservationState;
  RequestedBy : UserID;
  HolderDisplayName : DisplayName
}.

Inductive ActiveAssignee :=
| NoActiveAssignee
| ActiveUserAssignee (user : UserID)
| ActiveOrganizationTeamAssignee (organization : OrganizationID) (team : TeamID)
| ActiveTeamAssignee (team : TeamID).

Inductive HolderNameRef := NoHolderName | HolderNamed (name : DisplayName).

Record ListItem := MkListItem {
  Item_Task : Task;
  Item_ActiveAssignee : ActiveAssignee;
  Item_CreatorDisplayName : DisplayName;
  Item_HolderDisplayName : HolderNameRef;
  Item_PendingReviewCount : Z;
  Item_Funded : FundedState
}.

End Task.
