(* ===== verification/SchemaModel.v ===== *)
(** * Response schemas: their syntax and their parser

    Models [internal/schema/model.go], [sensitivity.go] and [parser.go]: field
    names, paths, the schema language and [ParseSchemaJSON], down to how
    [json.Unmarshal] fills the three structs of the parser. *)

From Stdlib Require Import Ascii.
From S2P Require Import Prelude.
From S2P Require Import Core.
From S2P Require Import Json.
Local Open Scope string_scope.

(** ** [model.go] *)

Record FieldName := MkFieldName { FieldName_value : string }.

#[export] Instance FieldName_eq_dec : EqDecision FieldName.
Proof. solve_decision. Defined.

Inductive FieldNameResult :=
| FieldNameAccepted (value : FieldName)
| FieldNameRejected (reason : DomainError).

Definition NewFieldName (raw : string) : FieldNameResult :=
  let trimmed := TrimSpace raw in
  if String.eqb trimmed "" then
    FieldNameRejected (NewDomainError ErrorCodeInvalidArgument "field name is required")
  else FieldNameAccepted (MkFieldName trimmed).

Definition FieldName_String (name : FieldName) : string := FieldName_value name.

Record Path := MkPath { Segments : list FieldName }.

Definition RootPath : Path := MkPath [].
Definition Path_Append (path : Path) (name : FieldName) : Path := MkPath (Segments path ++ [name]).
Definition Path_String (path : Path) : string := String.concat "." (FieldName_String <$> Segments path).

Inductive FieldPresence := FieldRequired | FieldMayOmit.

#[export] Instance FieldPresence_eq_dec : EqDecision FieldPresence.
Proof. solve_decision. Defined.

Definition FieldPresence_String (presence : FieldPresence) : string :=
  match presence with FieldRequired => "required" | FieldMayOmit => "may_omit" end.

Inductive FieldPresenceResult :=
| FieldPresenceAccepted (value : FieldPresence)
| FieldPresenceRejected (reason : DomainError).

Definition ParseFieldPresence (raw : string) : FieldPresenceResult :=
  switch raw
    [ (FieldPresence_String FieldRequired, FieldPresenceAccepted FieldRequired);
      (FieldPresence_String FieldMayOmit, FieldPresenceAccepted FieldMayOmit) ]
    (FieldPresenceRejected (NewDomainError ErrorCodeInvalidEnum "field presence is invalid")).

(** ** [sensitivity.go] *)

Inductive SensitivityCategory := SensitivityPII | SensitivitySecret.
Inductive RetentionPolicy := RetentionStandard | RetentionDeleteOnRequest.
Inductive RedactionPolicy := RedactionReplace | RedactionRemove.

#[export] Instance RedactionPolicy_eq_dec : EqDecision RedactionPolicy.
Proof. solve_decision. Defined.

Definition SensitivityCategory_String (category : SensitivityCategory) : string :=
  match category with SensitivityPII => "pii" | SensitivitySecret => "secret" end.

Definition RetentionPolicy_String (policy : RetentionPolicy) : string :=
  match policy with RetentionStandard => "standard" | RetentionDeleteOnRequest => "delete_on_request" end.

Definition RedactionPolicy_String (policy : RedactionPolicy) : string :=
  match policy with RedactionReplace => "replace" | RedactionRemove => "remove" end.

Inductive SensitivityCategoryResult :=
| SensitivityCategoryAccepted (value : SensitivityCategory)
| SensitivityCategoryRejected (reason : DomainError).

Inductive RetentionPolicyResult :=
| RetentionPolicyAccepted (value : RetentionPolicy)
| RetentionPolicyRejected (reason : DomainError).

Inductive RedactionPolicyResult :=
| RedactionPolicyAccepted (value : RedactionPolicy)
| RedactionPolicyRejected (reason : DomainError).

Definition ParseSensitivityCategory (raw : string) : SensitivityCategoryResult :=
  switch raw
    [ (SensitivityCategory_String SensitivityPII, SensitivityCategoryAccepted SensitivityPII);
      (SensitivityCategory_String SensitivitySecret, SensitivityCategoryAccepted SensitivitySecret) ]
    (SensitivityCategoryRejected (NewDomainError ErrorCodeInvalidEnum "sensitivity category is invalid")).

Definition ParseRetentionPolicy (raw : string) : RetentionPolicyResult :=
  switch raw
    [ (RetentionPolicy_String RetentionStandard, RetentionPolicyAccepted RetentionStandard);
      (RetentionPolicy_String RetentionDeleteOnRequest, RetentionPolicyAccepted RetentionDeleteOnRequest) ]
    (RetentionPolicyRejected (NewDomainError ErrorCodeInvalidEnum "retention policy is invalid")).

Definition ParseRedactionPolicy (raw : string) : RedactionPolicyResult :=
  switch raw
    [ (RedactionPolicy_String RedactionReplace, RedactionPolicyAccepted RedactionReplace);
      (RedactionPolicy_String RedactionRemove, RedactionPolicyAccepted RedactionRemove) ]
    (RedactionPolicyRejected (NewDomainError ErrorCodeInvalidEnum "redaction policy is invalid")).

Record Sensitive := MkSensitive {
  Category : SensitivityCategory;
  Retention : RetentionPolicy;
  Redaction : RedactionPolicy
}.

(** The interface [Sensitivity]: [NotSensitive{}] or a [Sensitive]. *)
Inductive Sensitivity := NotSensitive | IsSensitive (policy : Sensitive).

(** ** Schemas *)

#[local] Unset Elimination Schemes.
Inductive Schema :=
| ObjectSchema (fields : list ObjectField)
| ArraySchema (item : Schema)
| StringSchema (sensitivity : Sensitivity)
| IntegerSchema
| DecimalStringSchema
| EnumSchema (values : list string)
| LiteralSchema (value : string)
| UnionSchema (variants : list Schema)
| FreeformSchema
with ObjectField :=
| MkObjectField (name : FieldName) (presence : FieldPresence) (schema : Schema) (sensitivity : Sensitivity).
#[local] Set Elimination Schemes.

Definition field_name (f : ObjectField) : FieldName := let '(MkObjectField n _ _ _) := f in n.
Definition field_presence (f : ObjectField) : FieldPresence := let '(MkObjectField _ p _ _) := f in p.
Definition field_schema (f : ObjectField) : Schema := let '(MkObjectField _ _ s _) := f in s.
Definition field_sensitivity (f : ObjectField) : Sensitivity := let '(MkObjectField _ _ _ s) := f in s.

(** Induction on schemas, through the lists of fields and variants. *)
Section SchemaInd.
Variable P : Schema -> Prop.
Hypothesis P_object : forall fields, Forall (fun f => P (field_schema f)) fields -> P (ObjectSchema fields).
Hypothesis P_array : forall item, P item -> P (ArraySchema item).
Hypothesis P_string : forall sensitivity, P (StringSchema sensitivity).
Hypothesis P_integer : P IntegerSchema.
Hypothesis P_decimal : P DecimalStringSchema.
Hypothesis P_enum : forall values, P (EnumSchema values).
Hypothesis P_literal : forall value, P (LiteralSchema value).
Hypothesis P_union : forall variants, Forall P variants -> P (UnionSchema variants).
Hypothesis P_freeform : P FreeformSchema.

Fixpoint Schema_ind (s : Schema) : P s :=
  match s with
  | ObjectSchema fields => P_object fields
      ((fix go fs : Forall (fun f => P (field_schema f)) fs :=
          match fs with
          | [] => List.Forall_nil _
          | MkObjectField n p s v :: fs => @List.Forall_cons _ (fun f => P (field_schema f)) (MkObjectField n p s v) fs (Schema_ind s) (go fs)
          end) fields)
  | ArraySchema item => P_array item (Schema_ind item)
  | StringSchema v => P_string v
  | IntegerSchema => P_integer
  | DecimalStringSchema => P_decimal
  | EnumSchema vs => P_enum vs
  | LiteralSchema v => P_literal v
  | UnionSchema variants => P_union variants
      ((fix go vs : Forall P vs :=
          match vs with
          | [] => List.Forall_nil _
          | v :: vs => @List.Forall_cons _ P v vs (Schema_ind v) (go vs)
          end) variants)
  | FreeformSchema => P_freeform
  end.
End SchemaInd.

(** ** [parser.go]: the structs and how [json.Unmarshal] fills them *)

Inductive ParseResult :=
| SchemaParsed (value : Schema)
| SchemaParseRejected (reason : DomainError).

Definition maxNestingDepth : nat := 64.

(** A [json.RawMessage]: the document it holds, [None] while it is empty.  Its
    bytes are a value the scanner has already accepted, so it is kept parsed. *)
Definition RawMessage : Type := option JSON.

Record sensitivityDTO := MkSensitivityDTO {
  dto_Category : string;
  dto_Retention : string;
  dto_Redaction : string
}.

Record fieldDTO := MkFieldDTO {
  dto_Name : string;
  dto_Presence : string;
  dto_Schema : RawMessage;
  dto_FieldSensitivity : sensitivityDTO
}.

(** A slice as [Unmarshal] sees it: its backing array up to what was ever
    written, and its length.  A shorter array truncates the slice but keeps the
    elements behind it, and a later array decodes into them again. *)
Record Slice (A : Type) := MkSlice { slice_backing : list A; slice_len : nat }.
Arguments MkSlice {A} _ _.
Arguments slice_backing {A} _.
Arguments slice_len {A} _.

Definition slice_values {A} (s : Slice A) : list A := take (slice_len s) (slice_backing s).
Definition empty_slice {A} : Slice A := MkSlice [] 0.

Record schemaDTO := MkSchemaDTO {
  dto_Kind : string;
  dto_Fields : Slice fieldDTO;
  dto_Item : RawMessage;
  dto_Values : Slice string;
  dto_Value : string;
  dto_Variants : Slice RawMessage;
  dto_Sensitivity : sensitivityDTO
}.

Definition zero_sensitivityDTO : sensitivityDTO := MkSensitivityDTO "" "" "".
Definition zero_fieldDTO : fieldDTO := MkFieldDTO "" "" None zero_sensitivityDTO.
Definition zero_schemaDTO : schemaDTO :=
  MkSchemaDTO "" empty_slice None empty_slice "" empty_slice zero_sensitivityDTO.

(** [foldName]: ASCII letters in upper case, and the two other runes that fold
    to an ASCII letter, the Kelvin sign and the long s. *)
Definition fold_step (c : ascii) (t : bytes) : bytes * bytes :=
  if between 97 122 c then ([char_of (code c - 32)], t)
  else match rune_rest c t with
       | Some (k, rest) =>
           if bool_decide (c :: k = char_of <$> [226; 132; 170]%N) then (to_bytes "K", rest)
           else if bool_decide (c :: k = char_of <$> [197; 191]%N) then (to_bytes "S", rest)
           else (c :: k, rest)
       | None => ([c], t)
       end.

Definition foldName (name : bytes) : bytes := drive fold_step name.

(** The field of a struct a key names: exactly, else up to case. *)
Definition struct_field (fields : list string) (key : bytes) : option string :=
  if existsb (fun f => bool_decide (to_bytes f = key)) fields then Some (of_bytes key)
  else snd <$> list_find (fun f => foldName (to_bytes f) = foldName key) fields.

(** A result is [None] where [Unmarshal] reports a type mismatch. *)
Definition decode_string (current : string) (v : JSON) : option string :=
  match v with
  | JString s => Some (of_bytes s)
  | JNull => Some current
  | _ => None
  end.

Definition decode_raw (current : RawMessage) (v : JSON) : option RawMessage := Some (Some v).

Section DecodeSlice.
Context {A : Type} (zero : A) (decode : A -> JSON -> option A).

Fixpoint decode_items (backing : list A) (i : nat) (items : list JSON) : option (list A) :=
  match items with
  | [] => Some backing
  | v :: items =>
      element ← decode (default zero (backing !! i)) v;
      decode_items (if decide (i < length backing) then <[i := element]> backing else backing ++ [element])
        (S i) items
  end.

Definition decode_slice (current : Slice A) (v : JSON) : option (Slice A) :=
  match v with
  | JArray [] => Some empty_slice
  | JArray items => backing ← decode_items (slice_backing current) 0 items; Some (MkSlice backing (length items))
  | JNull => Some empty_slice
  | _ => None
  end.
End DecodeSlice.

(** A JSON object is decoded into a struct member by member. *)
Section DecodeStruct.
Context {A : Type} (set_member : A -> bytes -> JSON -> option A).

Fixpoint decode_members (current : A) (members : list (bytes * JSON)) : option A :=
  match members with
  | [] => Some current
  | (key, v) :: members => current ← set_member current key v; decode_members current members
  end.

Definition decode_struct (current : A) (v : JSON) : option A :=
  match v with
  | JObject members => decode_members current members
  | JNull => Some current
  | _ => None
  end.
End DecodeStruct.

Definition set_sensitivity_member (d : sensitivityDTO) (key : bytes) (v : JSON) : option sensitivityDTO :=
  let '(MkSensitivityDTO c r p) := d in
  match struct_field ["category"; "retention"; "redaction"] key with
  | Some f =>
      switch f
        [ ("category", c ← decode_string c v; Some (MkSensitivityDTO c r p));
          ("retention", r ← decode_string r v; Some (MkSensitivityDTO c r p)) ]
        (p ← decode_string p v; Some (MkSensitivityDTO c r p))
  | None => Some d
  end.

Definition decode_sensitivityDTO : sensitivityDTO -> JSON -> option sensitivityDTO :=
  decode_struct set_sensitivity_member.

Definition set_field_member (d : fieldDTO) (key : bytes) (v : JSON) : option fieldDTO :=
  let '(MkFieldDTO n p s e) := d in
  match struct_field ["name"; "presence"; "schema"; "sensitivity"] key with
  | Some f =>
      switch f
        [ ("name", n ← decode_string n v; Some (MkFieldDTO n p s e));
          ("presence", p ← decode_string p v; Some (MkFieldDTO n p s e));
          ("schema", s ← decode_raw s v; Some (MkFieldDTO n p s e)) ]
        (e ← decode_sensitivityDTO e v; Some (MkFieldDTO n p s e))
  | None => Some d
  end.

Definition decode_fieldDTO : fieldDTO -> JSON -> option fieldDTO := decode_struct set_field_member.

Definition set_schema_member (d : schemaDTO) (key : bytes) (v : JSON) : option schemaDTO :=
  let '(MkSchemaDTO k fs i vs l us e) := d in
  match struct_field ["kind"; "fields"; "item"; "values"; "value"; "variants"; "sensitivity"] key with
  | Some f =>
      switch f
        [ ("kind", k ← decode_string k v; Some (MkSchemaDTO k fs i vs l us e));
          ("fields", fs ← decode_slice zero_fieldDTO decode_fieldDTO fs v; Some (MkSchemaDTO k fs i vs l us e));
          ("item", i ← decode_raw i v; Some (MkSchemaDTO k fs i vs l us e));
          ("values", vs ← decode_slice "" decode_string vs v; Some (MkSchemaDTO k fs i vs l us e));
          ("value", l ← decode_string l v; Some (MkSchemaDTO k fs i vs l us e));
          ("variants", us ← decode_slice None decode_raw us v; Some (MkSchemaDTO k fs i vs l us e)) ]
        (e ← decode_sensitivityDTO e v; Some (MkSchemaDTO k fs i vs l us e))
  | None => Some d
  end.

Definition decode_schemaDTO : schemaDTO -> JSON -> option schemaDTO := decode_struct set_schema_member.

(** [json.Unmarshal(raw, &dto)] *)
Definition unmarshal_schema (raw : RawMessage) : option schemaDTO :=
  document ← raw; decode_schemaDTO zero_schemaDTO document.

(** ** [parser.go]: the parser *)

Inductive SensitivityParseResult :=
| SensitivityParsed (value : Sensitivity)
| SensitivityRejected (reason : DomainError).

Definition parseSensitivity (dto : sensitivityDTO) : SensitivityParseResult :=
  if String.eqb (dto_Category dto) "" && String.eqb (dto_Retention dto) "" && String.eqb (dto_Redaction dto) ""
  then SensitivityParsed NotSensitive
  else
    match ParseSensitivityCategory (dto_Category dto) with
    | SensitivityCategoryRejected reason => SensitivityRejected reason
    | SensitivityCategoryAccepted category =>
        match ParseRetentionPolicy (dto_Retention dto) with
        | RetentionPolicyRejected reason => SensitivityRejected reason
        | RetentionPolicyAccepted retention =>
            match ParseRedactionPolicy (dto_Redaction dto) with
            | RedactionPolicyRejected reason => SensitivityRejected reason
            | RedactionPolicyAccepted redaction =>
                SensitivityParsed (IsSensitive (MkSensitive category retention redaction))
            end
        end
    end.

Definition parseStringSchema (dto : schemaDTO) : ParseResult :=
  match parseSensitivity (dto_Sensitivity dto) with
  | SensitivityParsed value => SchemaParsed (StringSchema value)
  | SensitivityRejected reason => SchemaParseRejected reason
  end.

Definition parseEnumSchema (dto : schemaDTO) : ParseResult :=
  match slice_values (dto_Values dto) with
  | [] => SchemaParseRejected (NewDomainError ErrorCodeInvalidArgument "enum schema requires values")
  | values => SchemaParsed (EnumSchema values)
  end.

(** The three functions that call back [parseSchemaRaw], given as [recurse] at
    the depth below. *)
Section ParseNested.
Variable recurse : RawMessage -> ParseResult.

Definition parseObjectField (field : fieldDTO) : DomainError + ObjectField :=
  match NewFieldName (dto_Name field) with
  | FieldNameRejected reason => inl reason
  | FieldNameAccepted name =>
      match ParseFieldPresence (dto_Presence field) with
      | FieldPresenceRejected reason => inl reason
      | FieldPresenceAccepted presence =>
          match recurse (dto_Schema field) with
          | SchemaParseRejected reason => inl reason
          | SchemaParsed schema =>
              match parseSensitivity (dto_FieldSensitivity field) with
              | SensitivityRejected reason => inl reason
              | SensitivityParsed sensitivity => inr (MkObjectField name presence schema sensitivity)
              end
          end
      end
  end.

Fixpoint parse_fields (fields : list ObjectField) (dtos : list fieldDTO) : ParseResult :=
  match dtos with
  | [] => SchemaParsed (ObjectSchema fields)
  | dto :: dtos =>
      match parseObjectField dto with
      | inl reason => SchemaParseRejected reason
      | inr field => parse_fields (fields ++ [field]) dtos
      end
  end.

Definition parseObjectSchema (dto : schemaDTO) : ParseResult :=
  parse_fields [] (slice_values (dto_Fields dto)).

Definition parseArraySchema (dto : schemaDTO) : ParseResult :=
  match recurse (dto_Item dto) with
  | SchemaParsed item => SchemaParsed (ArraySchema item)
  | rejected => rejected
  end.

Fixpoint parse_variants (variants : list Schema) (raws : list RawMessage) : ParseResult :=
  match raws with
  | [] => SchemaParsed (UnionSchema variants)
  | raw :: raws =>
      match recurse raw with
      | SchemaParsed variant => parse_variants (variants ++ [variant]) raws
      | rejected => rejected
      end
  end.

Definition parseUnionSchema (dto : schemaDTO) : ParseResult :=
  match slice_values (dto_Variants dto) with
  | [] => SchemaParseRejected (NewDomainError ErrorCodeInvalidArgument "union schema requires variants")
  | raws => parse_variants [] raws
  end.
End ParseNested.

(** [room] is how many levels are left, [maxNestingDepth + 1 - depth]. *)
Fixpoint parseSchemaRaw (raw : RawMessage) (room : nat) : ParseResult :=
  match room with
  | O => SchemaParseRejected (NewDomainError ErrorCodeInvalidArgument "schema nesting is too deep")
  | S room =>
      match unmarshal_schema raw with
      | None => SchemaParseRejected (NewDomainError ErrorCodeInvalidArgument "schema JSON is invalid")
      | Some dto =>
          switch (dto_Kind dto)
            [ ("object", parseObjectSchema (fun raw => parseSchemaRaw raw room) dto);
              ("array", parseArraySchema (fun raw => parseSchemaRaw raw room) dto);
              ("string", parseStringSchema dto);
              ("integer", SchemaParsed IntegerSchema);
              ("decimal_string", SchemaParsed DecimalStringSchema);
              ("enum", parseEnumSchema dto);
              ("literal", SchemaParsed (LiteralSchema (dto_Value dto)));
              ("union", parseUnionSchema (fun raw => parseSchemaRaw raw room) dto);
              ("freeform", SchemaParsed FreeformSchema) ]
            (SchemaParseRejected (NewDomainError ErrorCodeInvalidEnum "schema kind is unsupported"))
      end
  end.

Definition ParseSchemaJSON (raw : string) : ParseResult :=
  parseSchemaRaw (json_document (to_bytes raw)) (S maxNestingDepth).

(** ** Samples, after the seeds of [fuzz_test.go] *)

Example parse_schema_samples :
  ParseSchemaJSON (json_text "{'kind':'object','fields':[{'name':' e ','presence':'required','schema':{'kind':'string'},
    'sensitivity':{'category':'pii','retention':'standard','redaction':'replace'}}]}") =
    SchemaParsed (ObjectSchema [MkObjectField (MkFieldName "e") FieldRequired (StringSchema NotSensitive)
      (IsSensitive (MkSensitive SensitivityPII RetentionStandard RedactionReplace))]) /\
  ParseSchemaJSON (json_text "{'KIND':'enum','values':['a','b'],'kind':null}") = SchemaParsed (EnumSchema ["a"; "b"]) /\
  ParseSchemaJSON (json_text "{'kind':7}") =
    SchemaParseRejected (NewDomainError ErrorCodeInvalidArgument "schema JSON is invalid") /\
  ParseSchemaJSON "null" = SchemaParseRejected (NewDomainError ErrorCodeInvalidEnum "schema kind is unsupported").
Proof. repeat split; vm_compute; reflexivity. Qed.
