(* ===== verification/SchemaParser.v ===== *)
(** * The schema parser is bounded and its schemas are well formed

    The syntax tree of a document does not depend on the fuel of its reader, and
    what [ParseSchemaJSON] accepts is well formed and at most [maxNestingDepth + 1]
    levels deep. *)

From Stdlib Require Import Ascii.
From S2P Require Import Prelude.
From S2P Require Import Core.
From S2P Require Import Json.
From S2P Require Import JsonFacts.
From S2P Require Import SchemaModel.
Local Open Scope string_scope.
Local Open Scope list_scope.

(** ** The fuel of the reader *)

Lemma scan_consumes fuel :
  (forall nesting s v rest, scan_json fuel nesting s = Some (v, rest) -> length rest < length s) /\
  (forall nesting s vs rest, scan_items fuel nesting s = Some (vs, rest) -> length rest < length s) /\
  (forall nesting s ms rest, scan_members fuel nesting s = Some (ms, rest) -> length rest < length s).
Proof.
  induction fuel as [|fuel (IHj & IHi & IHm)]; [done|]. split_and!; intros nesting s ? rest.
  - cbn [scan_json]. pose proof (skip_space_shorter s) as Hs. destruct (skip_space s) as [|c t]; [done|]. cbn in Hs.
    pose proof (skip_space_shorter t) as Ht.
    destruct (ceq c "["%char).
    { destruct nesting as [|nesting]; [done|]. destruct (skip_space t) as [|e u]; [done|].
      destruct (ceq e "]"%char); [intros [= <- <-]; cbn in Ht; lia|].
      destruct (scan_items fuel nesting t) as [[items r]|] eqn:E; cbn [mbind option_bind]; [|done].
      intros [= <- <-]. apply IHi in E. lia. }
    destruct (ceq c "{"%char).
    { destruct nesting as [|nesting]; [done|]. destruct (skip_space t) as [|e u]; [done|].
      destruct (ceq e "}"%char); [intros [= <- <-]; cbn in Ht; lia|].
      destruct (scan_members fuel nesting t) as [[members r]|] eqn:E; cbn [mbind option_bind]; [|done].
      intros [= <- <-]. apply IHm in E. lia. }
    destruct (scan_scalar (c :: t)) as [[token r]|] eqn:E; cbn [mbind option_bind]; [|done].
    apply scan_scalar_ok in E as [_ E]. cbn in E. destruct token; intros [= <- <-]; lia.
  - cbn [scan_items]. destruct (scan_json fuel nesting s) as [[item r]|] eqn:E; cbn [mbind option_bind]; [|done].
    apply IHj in E. pose proof (skip_space_shorter r) as Hr. destruct (skip_space r) as [|c t]; [done|]. cbn in Hr.
    destruct (ceq c "]"%char); [intros [= <- <-]; lia|]. destruct (ceq c ","%char); [|done].
    destruct (scan_items fuel nesting t) as [[items u]|] eqn:Ei; cbn [mbind option_bind]; [|done].
    intros [= <- <-]. apply IHi in Ei. lia.
  - cbn [scan_members]. pose proof (skip_space_shorter s) as Hs. destruct (skip_space s) as [|q t]; [done|]. cbn in Hs.
    destruct (ceq q _); [|done]. destruct (scan_string stateInString t) as [[body r]|] eqn:E; cbn [mbind option_bind]; [|done].
    apply scan_string_shorter in E. pose proof (skip_space_shorter r) as Hr. destruct (skip_space r) as [|c u]; [done|].
    cbn in Hr. destruct (ceq c _); [|done].
    destruct (scan_json fuel nesting u) as [[v w]|] eqn:Ev; cbn [mbind option_bind]; [|done]. apply IHj in Ev.
    pose proof (skip_space_shorter w) as Hw. destruct (skip_space w) as [|e x]; [done|]. cbn in Hw.
    destruct (ceq e _); [intros [= <- <-]; lia|]. destruct (ceq e _); [|done].
    destruct (scan_members fuel nesting x) as [[members y]|] eqn:Em; cbn [mbind option_bind]; [|done].
    intros [= <- <-]. apply IHm in Em. lia.
Qed.

(** Fuel beyond twice the input changes nothing. *)
Lemma scan_saturates fuel more :
  fuel <= more ->
  (forall nesting s, 2 * length s < fuel -> scan_json more nesting s = scan_json fuel nesting s) /\
  (forall nesting s, 2 * length s + 1 < fuel -> scan_items more nesting s = scan_items fuel nesting s) /\
  (forall nesting s, 2 * length s < fuel -> scan_members more nesting s = scan_members fuel nesting s).
Proof.
  revert more. induction fuel as [|fuel IH]; intros more Hmore; [split_and!; intros; lia|].
  destruct more as [|more]; [lia|]. destruct (IH more) as (IHj & IHi & IHm); [lia|]. split_and!; intros nesting s Hf.
  - cbn [scan_json]. pose proof (skip_space_shorter s) as Hs. destruct (skip_space s) as [|c t]; [done|]. cbn in Hs.
    destruct (ceq c "["%char).
    { destruct nesting as [|nesting]; [done|]. destruct (skip_space t) as [|e u]; [done|].
      destruct (ceq e "]"%char); [done|]. rewrite IHi by lia. done. }
    destruct (ceq c "{"%char); [|done].
    destruct nesting as [|nesting]; [done|]. destruct (skip_space t) as [|e u]; [done|].
    destruct (ceq e "}"%char); [done|]. rewrite IHm by lia. done.
  - cbn [scan_items]. rewrite IHj by lia.
    destruct (scan_json fuel nesting s) as [[item r]|] eqn:E; cbn [mbind option_bind]; [|done].
    apply scan_consumes in E. pose proof (skip_space_shorter r) as Hr. destruct (skip_space r) as [|c t]; [done|]. cbn in Hr.
    destruct (ceq c "]"%char); [done|]. destruct (ceq c ","%char); [|done]. rewrite IHi by lia. done.
  - cbn [scan_members]. pose proof (skip_space_shorter s) as Hs. destruct (skip_space s) as [|q t]; [done|]. cbn in Hs.
    destruct (ceq q _); [|done]. destruct (scan_string stateInString t) as [[body r]|] eqn:E; cbn [mbind option_bind]; [|done].
    apply scan_string_shorter in E. pose proof (skip_space_shorter r) as Hr. destruct (skip_space r) as [|c u]; [done|].
    cbn in Hr. destruct (ceq c _); [|done]. rewrite IHj by lia.
    destruct (scan_json fuel nesting u) as [[v w]|] eqn:Ev; cbn [mbind option_bind]; [|done]. apply scan_consumes in Ev.
    pose proof (skip_space_shorter w) as Hw. destruct (skip_space w) as [|e x]; [done|]. cbn in Hw.
    destruct (ceq e _); [done|]. destruct (ceq e _); [|done]. rewrite IHm by lia. done.
Qed.

(** The reader of a whole document, at any fuel. *)
Definition document_within (fuel : nat) (raw : bytes) : option JSON :=
  '(value, rest) ← scan_json fuel maxScanDepth raw;
  match skip_space rest with
  | [] => Some value
  | _ => None
  end.

Lemma json_document_fuel fuel raw :
  2 * length raw + 2 <= fuel -> json_document raw = document_within fuel raw.
Proof.
  intros Hf. unfold json_document, document_within. replace (scan_json fuel maxScanDepth raw)
    with (scan_json (2 * length raw + 2) maxScanDepth raw); [done|].
  symmetry. apply scan_saturates; lia.
Qed.

(** ** Well-formed schemas *)

Definition named (name : FieldName) : Prop :=
  TrimSpace (FieldName_String name) = FieldName_String name /\ FieldName_String name <> "".

(** [well_formed levels s]: [s] has at most that many levels, its field names are
    trimmed and not empty, and its enums and unions offer a choice. *)
Inductive well_formed : nat -> Schema -> Prop :=
| well_formed_object n fields :
    Forall (fun f => named (field_name f) /\ well_formed n (field_schema f)) fields -> well_formed (S n) (ObjectSchema fields)
| well_formed_array n item : well_formed n item -> well_formed (S n) (ArraySchema item)
| well_formed_string n sensitivity : well_formed (S n) (StringSchema sensitivity)
| well_formed_integer n : well_formed (S n) IntegerSchema
| well_formed_decimal n : well_formed (S n) DecimalStringSchema
| well_formed_enum n values : values <> [] -> well_formed (S n) (EnumSchema values)
| well_formed_literal n value : well_formed (S n) (LiteralSchema value)
| well_formed_union n variants :
    variants <> [] -> Forall (well_formed n) variants -> well_formed (S n) (UnionSchema variants)
| well_formed_freeform n : well_formed (S n) FreeformSchema.

Lemma NewFieldName_named raw name : NewFieldName raw = FieldNameAccepted name -> named name.
Proof.
  unfold NewFieldName, named. destruct (String.eqb_spec (TrimSpace raw) "") as [|Hne]; [done|].
  intros [= <-]. cbn. split; [apply TrimSpace_idempotent|done].
Qed.

Section Nested.
Context (recurse : RawMessage -> ParseResult) (n : nat).
Context (Hrec : forall raw s, recurse raw = SchemaParsed s -> well_formed n s).

Lemma parseObjectField_well_formed dto f :
  parseObjectField recurse dto = inr f -> named (field_name f) /\ well_formed n (field_schema f).
Proof using Hrec.
  unfold parseObjectField. destruct (NewFieldName _) as [name|] eqn:En; [|done].
  destruct (ParseFieldPresence _); [|done]. destruct (recurse _) as [s|] eqn:Er; [|done].
  destruct (parseSensitivity _); [|done]. intros [= <-]. split; [by eapply NewFieldName_named|by eapply Hrec].
Qed.

Lemma parse_fields_well_formed fields dtos s :
  Forall (fun f => named (field_name f) /\ well_formed n (field_schema f)) fields ->
  parse_fields recurse fields dtos = SchemaParsed s -> well_formed (S n) s.
Proof using Hrec.
  revert fields. induction dtos as [|dto dtos IH]; intros fields Hf; cbn [parse_fields].
  - intros [= <-]. by constructor.
  - destruct (parseObjectField recurse dto) as [|f] eqn:E; [done|]. apply IH, Forall_app_2; [done|].
    repeat constructor; by eapply parseObjectField_well_formed.
Qed.

Lemma parse_variants_well_formed variants raws s :
  variants <> [] \/ raws <> [] -> Forall (well_formed n) variants ->
  parse_variants recurse variants raws = SchemaParsed s -> well_formed (S n) s.
Proof using Hrec.
  revert variants. induction raws as [|raw raws IH]; intros variants Hne Hv; cbn [parse_variants].
  - intros [= <-]. by constructor; destruct Hne.
  - destruct (recurse raw) as [v|] eqn:E; [|done]. apply IH; [left; by destruct variants|].
    apply Forall_app_2; [done|]. repeat constructor. by eapply Hrec.
Qed.
End Nested.

Lemma parseSchemaRaw_well_formed room raw s : parseSchemaRaw raw room = SchemaParsed s -> well_formed room s.
Proof.
  revert raw s. induction room as [|room IH]; intros raw s; cbn [parseSchemaRaw]; [done|].
  destruct (unmarshal_schema raw) as [dto|]; [|done]. rewrite !switch_cons, switch_nil. repeat split_match; try done.
  - unfold parseObjectSchema. apply parse_fields_well_formed with (n := room); [exact IH|constructor].
  - unfold parseArraySchema. destruct (parseSchemaRaw _ _) as [item|] eqn:Eraw; [|done]. intros [= <-].
    constructor. by eapply IH.
  - unfold parseStringSchema. destruct (parseSensitivity _); [|done]. intros [= <-]. constructor.
  - intros [= <-]. constructor.
  - intros [= <-]. constructor.
  - unfold parseEnumSchema. destruct (slice_values _); [done|]. intros [= <-]. by constructor.
  - intros [= <-]. constructor.
  - unfold parseUnionSchema. destruct (slice_values _) as [|r raws]; [done|].
    apply parse_variants_well_formed with (n := room); [exact IH|by right|constructor].
  - intros [= <-]. constructor.
Qed.

(** ** Properties *)

(** C40: An accepted schema has at most 65 levels, trimmed and non-empty field names, and enums and
    unions that offer a choice; its syntax tree does not depend on the fuel of the model's reader.
    *)
Theorem parsed_schemas_are_well_formed raw s :
  ParseSchemaJSON raw = SchemaParsed s ->
  well_formed (S maxNestingDepth) s /\
  (forall fuel, 2 * length (to_bytes raw) + 2 <= fuel ->
     parseSchemaRaw (document_within fuel (to_bytes raw)) (S maxNestingDepth) = SchemaParsed s).
Proof.
  unfold ParseSchemaJSON. intros Hs. split; [by eapply parseSchemaRaw_well_formed|].
  intros fuel Hf. by rewrite <- json_document_fuel.
Qed.
