(* ===== verification/SchemaValue.v ===== *)
(** * Response values: the JSON reader and writer

    Models [internal/schema/value.go] and [encode.go]: the value tree, its parser
    over the tokens of a [json.Decoder], with its depth and width limits, and its
    encoder. *)

From Stdlib Require Import Ascii.
From S2P Require Import Prelude.
From S2P Require Import Core.
From S2P Require Import Events.
From S2P Require Import Json.
From S2P Require Import SchemaModel.
Local Open Scope string_scope.
Local Open Scope list_scope.

(** ** [value.go] *)

#[local] Unset Elimination Schemes.
Inductive Value :=
| NullValue
| StringValue (value : string)
| IntegerValue (value : Z)
| DecimalStringValue (value : string)
| ObjectValue (fields : list (FieldName * Value))
| ArrayValue (items : list Value).
#[local] Set Elimination Schemes.

Section ValueInd.
Variable P : Value -> Prop.
Hypothesis P_null : P NullValue.
Hypothesis P_string : forall s, P (StringValue s).
Hypothesis P_integer : forall z, P (IntegerValue z).
Hypothesis P_decimal : forall s, P (DecimalStringValue s).
Hypothesis P_object : forall fields, Forall (fun f => P f.2) fields -> P (ObjectValue fields).
Hypothesis P_array : forall items, Forall P items -> P (ArrayValue items).

Fixpoint Value_ind (v : Value) : P v :=
  match v with
  | NullValue => P_null
  | StringValue s => P_string s
  | IntegerValue z => P_integer z
  | DecimalStringValue s => P_decimal s
  | ObjectValue fields => P_object fields
      ((fix go fs : Forall (fun f => P f.2) fs :=
          match fs with
          | [] => List.Forall_nil _
          | f :: fs => @List.Forall_cons _ (fun f => P f.2) f fs (Value_ind f.2) (go fs)
          end) fields)
  | ArrayValue items => P_array items
      ((fix go vs : Forall P vs :=
          match vs with
          | [] => List.Forall_nil _
          | v :: vs => @List.Forall_cons _ P v vs (Value_ind v) (go vs)
          end) items)
  end.
End ValueInd.

Inductive ValueParseResult :=
| ValueParsed (value : Value)
| ValueParseRejected (reason : DomainError).

Definition maxArrayItems : nat := 4096.
Definition maxObjectFields : nat := 1024.

(** What a call of the parser comes to: a value and the decoder behind it, a
    rejection, or no answer within the fuel. *)
Inductive Outcome :=
| Parsed (value : Value) (d : Decoder)
| Refused (reason : DomainError)
| Unfinished.

Definition refuse (message : string) : Outcome :=
  Refused (NewDomainError ErrorCodeInvalidArgument message).

Definition parseJSONNumber (literal : bytes) (d : Decoder) : Outcome :=
  match ParseInt literal with
  | Some z => Parsed (IntegerValue z) d
  | None =>
      if ParseFloat_ok literal then Parsed (DecimalStringValue (of_bytes literal)) d
      else refuse "number is invalid"
  end.

(** The closing token of an object or array. *)
Definition parse_end (delim : ascii) (message : string) (value : Value) (d : Decoder) : Outcome :=
  match Token d with
  | Some (TokenDelim c, d) => if ceq c delim then Parsed value d else refuse message
  | _ => refuse message
  end.

(** [parseDecoderValue] with [parseDelimitedValue], and the loops of
    [parseObjectValue] and [parseArrayValue]. *)
Fixpoint parseDecoderValue (fuel : nat) (d : Decoder) (depth : nat) {struct fuel} : Outcome :=
  match fuel with
  | O => Unfinished
  | S fuel =>
      if (maxNestingDepth <? depth)%nat then refuse "response JSON nesting is too deep"
      else
        match Token d with
        | None => refuse "response JSON is invalid"
        | Some (token, d) =>
            match token with
            | TokenDelim c =>
                if ceq c "{"%char then parseObjectValue fuel d depth []
                else if ceq c "["%char then parseArrayValue fuel d depth []
                else refuse "response JSON delimiter is unsupported"
            | TokenString s => Parsed (StringValue (of_bytes s)) d
            | TokenNumber literal => parseJSONNumber literal d
            | TokenNull => Parsed NullValue d
            | TokenBool _ => refuse "response JSON token is unsupported"
            end
        end
  end
with parseObjectValue (fuel : nat) (d : Decoder) (depth : nat) (fields : list (FieldName * Value)) {struct fuel} : Outcome :=
  match fuel with
  | O => Unfinished
  | S fuel =>
      if negb (More d) then parse_end "}"%char "object end is invalid" (ObjectValue fields) d
      else if (maxObjectFields <=? length fields)%nat then refuse "object has too many fields"
      else
        match Token d with
        | Some (TokenString rawName, d) =>
            match NewFieldName (of_bytes rawName) with
            | FieldNameRejected reason => Refused reason
            | FieldNameAccepted name =>
                match parseDecoderValue fuel d (S depth) with
                | Parsed v d => parseObjectValue fuel d depth (fields ++ [(name, v)])
                | outcome => outcome
                end
            end
        | _ => refuse "object field name is invalid"
        end
  end
with parseArrayValue (fuel : nat) (d : Decoder) (depth : nat) (items : list Value) {struct fuel} : Outcome :=
  match fuel with
  | O => Unfinished
  | S fuel =>
      if negb (More d) then parse_end "]"%char "array end is invalid" (ArrayValue items) d
      else if (maxArrayItems <=? length items)%nat then refuse "array has too many items"
      else
        match parseDecoderValue fuel d (S depth) with
        | Parsed v d => parseArrayValue fuel d depth (items ++ [v])
        | outcome => outcome
        end
  end.

(** Fuel that is always enough for the input ([ParseValueJSON_answers]). *)
Definition parse_fuel (d : Decoder) : nat := S (2 * length (dec_buf d))%nat.

(** [ParseValueJSON]; [None] would be a run that does not end. *)
Definition ParseValueJSON (raw : string) : option ValueParseResult :=
  let decoder := NewDecoder (to_bytes raw) in
  match parseDecoderValue (parse_fuel decoder) decoder 0 with
  | Unfinished => None
  | Refused reason => Some (ValueParseRejected reason)
  | Parsed v d =>
      Some (if More d
            then ValueParseRejected (NewDomainError ErrorCodeInvalidArgument "response JSON has trailing values")
            else ValueParsed v)
  end.

(** ** [encode.go] *)

Inductive EncodeValueResult :=
| ValueEncoded (source : string)
| ValueEncodeRejected (reason : DomainError).

(** The builder is the bytes written so far. *)
Definition writeJSONString (builder : bytes) (value : string) : bytes :=
  builder ++ Marshal_string (to_bytes value).

(** The loops of [writeObjectJSON] and [writeArrayJSON]. *)
Section WriteNested.
Variable write : bytes -> Value -> bytes.

Fixpoint writeObjectJSON (builder : bytes) (first : bool) (fields : list (FieldName * Value)) : bytes :=
  match fields with
  | [] => builder ++ ["}"%char]
  | (name, v) :: fields =>
      let builder := if first then builder else builder ++ [","%char] in
      let builder := writeJSONString builder (FieldName_String name) ++ [":"%char] in
      writeObjectJSON (write builder v) false fields
  end.

Fixpoint writeArrayJSON (builder : bytes) (first : bool) (items : list Value) : bytes :=
  match items with
  | [] => builder ++ ["]"%char]
  | v :: items =>
      let builder := if first then builder else builder ++ [","%char] in
      writeArrayJSON (write builder v) false items
  end.
End WriteNested.

Fixpoint writeValueJSON (builder : bytes) (value : Value) {struct value} : bytes :=
  match value with
  | NullValue => builder ++ to_bytes "null"
  | StringValue s => writeJSONString builder s
  | IntegerValue z => builder ++ to_bytes (FormatInt z)
  | DecimalStringValue s => builder ++ to_bytes s
  | ObjectValue fields => writeObjectJSON writeValueJSON (builder ++ ["{"%char]) true fields
  | ArrayValue items => writeArrayJSON writeValueJSON (builder ++ ["["%char]) true items
  end.

(** Every value of the closed set is encoded: the rejections of the source are
    for an interface value outside it. *)
Definition EncodeValueJSON (value : Value) : EncodeValueResult :=
  ValueEncoded (of_bytes (writeValueJSON [] value)).

Example parse_value_samples :
  ParseValueJSON (json_text " {'a' : [1, 'two', null], ' b ':1.50 } ") =
    Some (ValueParsed (ObjectValue
      [ (MkFieldName "a", ArrayValue [IntegerValue 1; StringValue "two"; NullValue]);
        (MkFieldName "b", DecimalStringValue "1.50") ])) /\
  ParseValueJSON "[1,]" = Some (ValueParseRejected (NewDomainError ErrorCodeInvalidArgument "response JSON is invalid")) /\
  ParseValueJSON "1 2" =
    Some (ValueParseRejected (NewDomainError ErrorCodeInvalidArgument "response JSON has trailing values")) /\
  ParseValueJSON "-0" = Some (ValueParsed (IntegerValue 0)) /\
  ParseValueJSON "7] tail" = Some (ValueParsed (IntegerValue 7)).
Proof. repeat split; vm_compute; reflexivity. Qed.

Example encode_value_sample :
  EncodeValueJSON (ObjectValue [(MkFieldName "a<", ArrayValue [IntegerValue (-5); NullValue])]) =
    ValueEncoded (json_text "{'a\u003c':[-5,null]}").
Proof. vm_compute. reflexivity. Qed.
