(* ===== verification/SchemaValueProofs.v ===== *)
(** * The JSON reader and writer are correct

    The reader of response values always answers, what it accepts is well formed
    and within its limits, and writing an accepted value gives text that reads
    back as the same value. *)

From Stdlib Require Import Ascii.
From S2P Require Import Prelude.
From S2P Require Import Core.
From S2P Require Import Events.
From S2P Require Import Json.
From S2P Require Import JsonFacts.
From S2P Require Import SchemaModel.
From S2P Require Import SchemaValue.
Local Open Scope string_scope.
Local Open Scope list_scope.

(** ** Well-formed values *)

(** A field name as [NewFieldName] makes it from a JSON string. *)
Definition canonical (name : FieldName) : Prop :=
  utf8 (to_bytes (FieldName_String name)) /\
  TrimSpace (FieldName_String name) = FieldName_String name /\ FieldName_String name <> "".

(** A number literal that is no int64 but is in the range of a float64. *)
Definition decimal_literal (s : string) : Prop :=
  scan_number (to_bytes s) = Some (to_bytes s, []) /\
  ParseInt (to_bytes s) = None /\ ParseFloat_ok (to_bytes s) = true.

(** [fits depth v]: [v] is well formed and within the limits when it stands
    [depth] levels below the root. *)
Inductive fits : nat -> Value -> Prop :=
| fits_null depth : depth <= maxNestingDepth -> fits depth NullValue
| fits_string depth s : depth <= maxNestingDepth -> utf8 (to_bytes s) -> fits depth (StringValue s)
| fits_integer depth z : depth <= maxNestingDepth -> in_int64 z = true -> fits depth (IntegerValue z)
| fits_decimal depth s : depth <= maxNestingDepth -> decimal_literal s -> fits depth (DecimalStringValue s)
| fits_object depth fields : depth <= maxNestingDepth -> length fields <= maxObjectFields ->
    Forall (fun f => canonical f.1 /\ fits (S depth) f.2) fields -> fits depth (ObjectValue fields)
| fits_array depth items : depth <= maxNestingDepth -> length items <= maxArrayItems ->
    Forall (fits (S depth)) items -> fits depth (ArrayValue items).

Lemma NewFieldName_canonical raw name :
  utf8 (to_bytes raw) -> NewFieldName raw = FieldNameAccepted name -> canonical name.
Proof.
  unfold NewFieldName, canonical. intros Hu. destruct (String.eqb_spec (TrimSpace raw) "") as [|Hne]; [done|].
  intros [= <-]. unfold FieldName_String. cbn [FieldName_value].
  split; [rewrite TrimSpace_trim; by apply trim_utf8|]. split; [apply TrimSpace_idempotent|done].
Qed.

Lemma canonical_NewFieldName name : canonical name -> NewFieldName (FieldName_String name) = FieldNameAccepted name.
Proof.
  intros (_ & Ht & Hne). unfold NewFieldName. rewrite Ht. destruct (String.eqb_spec (FieldName_String name) ""); [done|].
  by destruct name.
Qed.

(** ** More fuel changes no answer *)

Definition answers (o : Outcome) : Prop := o <> Unfinished.

Lemma fuel_mono fuel :
  (forall d depth, answers (parseDecoderValue fuel d depth) ->
     parseDecoderValue (S fuel) d depth = parseDecoderValue fuel d depth) /\
  (forall d depth fields, answers (parseObjectValue fuel d depth fields) ->
     parseObjectValue (S fuel) d depth fields = parseObjectValue fuel d depth fields) /\
  (forall d depth items, answers (parseArrayValue fuel d depth items) ->
     parseArrayValue (S fuel) d depth items = parseArrayValue fuel d depth items).
Proof.
  unfold answers. induction fuel as [|fuel (IHv & IHo & IHa)]; [done|]. split_and!.
  - intros d depth Ha. cbn [parseDecoderValue] in Ha |- *. destruct (maxNestingDepth <? depth)%nat; [done|].
    destruct (Token d) as [[[c|s|l|b|] d1]|]; try done.
    destruct (ceq c "{"%char); [by apply IHo|]. destruct (ceq c "["%char); [by apply IHa|done].
  - intros d depth fields Ha. cbn [parseObjectValue] in Ha |- *. destruct (negb (More d)); [done|].
    destruct (maxObjectFields <=? length fields)%nat; [done|].
    destruct (Token d) as [[[c|s|l|b|] d1]|]; try done.
    destruct (NewFieldName (of_bytes s)) as [name|]; [|done].
    rewrite IHv; [|by destruct (parseDecoderValue fuel d1 (S depth))].
    destruct (parseDecoderValue fuel d1 (S depth)) as [v d2| |]; [by apply IHo|done..].
  - intros d depth items Ha. cbn [parseArrayValue] in Ha |- *. destruct (negb (More d)); [done|].
    destruct (maxArrayItems <=? length items)%nat; [done|].
    rewrite IHv; [|by destruct (parseDecoderValue fuel d (S depth))].
    destruct (parseDecoderValue fuel d (S depth)) as [v d2| |]; [by apply IHa|done..].
Qed.

Lemma value_fuel_le fuel fuel' d depth v d' :
  parseDecoderValue fuel d depth = Parsed v d' -> fuel <= fuel' -> parseDecoderValue fuel' d depth = Parsed v d'.
Proof.
  intros E. induction 1 as [|n _ IH]; [done|]. rewrite (proj1 (fuel_mono n)); [done|]. unfold answers. by rewrite IH.
Qed.

Lemma object_fuel_le fuel fuel' d depth fields v d' :
  parseObjectValue fuel d depth fields = Parsed v d' -> fuel <= fuel' ->
  parseObjectValue fuel' d depth fields = Parsed v d'.
Proof.
  intros E. induction 1 as [|n _ IH]; [done|]. rewrite (proj1 (proj2 (fuel_mono n))); [done|]. unfold answers. by rewrite IH.
Qed.

Lemma array_fuel_le fuel fuel' d depth items v d' :
  parseArrayValue fuel d depth items = Parsed v d' -> fuel <= fuel' ->
  parseArrayValue fuel' d depth items = Parsed v d'.
Proof.
  intros E. induction 1 as [|n _ IH]; [done|]. rewrite (proj2 (proj2 (fuel_mono n))); [done|]. unfold answers. by rewrite IH.
Qed.

(** ** The reader always answers *)

Lemma parse_end_answers delim message v d : answers (parse_end delim message v d).
Proof. unfold parse_end, answers. repeat case_match; done. Qed.

Lemma parse_end_Parsed delim message v d w d' :
  parse_end delim message v d = Parsed w d' -> w = v /\ length (dec_buf d') < length (dec_buf d).
Proof.
  unfold parse_end. destruct (Token d) as [[[c| | | |] d1]|] eqn:E; try done. destruct (ceq c delim); [|done].
  intros [= <- <-]. by apply Token_ok in E as [_ ?].
Qed.

Lemma parseJSONNumber_Parsed l d v d' : parseJSONNumber l d = Parsed v d' -> d' = d.
Proof. unfold parseJSONNumber. destruct (ParseInt l); [|destruct (ParseFloat_ok l)]; by intros [= _ <-]. Qed.

(** What has been parsed has been consumed. *)
Lemma parse_shorter fuel :
  (forall d depth v d', parseDecoderValue fuel d depth = Parsed v d' -> length (dec_buf d') < length (dec_buf d)) /\
  (forall d depth fields v d', parseObjectValue fuel d depth fields = Parsed v d' -> length (dec_buf d') < length (dec_buf d)) /\
  (forall d depth items v d', parseArrayValue fuel d depth items = Parsed v d' -> length (dec_buf d') < length (dec_buf d)).
Proof.
  induction fuel as [|fuel (IHv & IHo & IHa)]; [done|]. split_and!.
  - intros d depth v d' E. cbn [parseDecoderValue] in E. destruct (maxNestingDepth <? depth)%nat; [done|].
    destruct (Token d) as [[token d1]|] eqn:Et; [|done]. apply Token_ok in Et as [_ Hl].
    destruct token as [c|s|l|b|]; try (by simplify_eq).
    + destruct (ceq c "{"%char); [apply IHo in E; lia|]. destruct (ceq c "["%char); [apply IHa in E; lia|done].
    + by apply parseJSONNumber_Parsed in E as ->.
  - intros d depth fields v d' E. cbn [parseObjectValue] in E.
    destruct (negb (More d)); [by apply parse_end_Parsed in E as [_ ?]|].
    destruct (maxObjectFields <=? length fields)%nat; [done|].
    destruct (Token d) as [[[c|s|l|b|] d1]|] eqn:Et; try done. apply Token_ok in Et as [_ Hl].
    destruct (NewFieldName (of_bytes s)) as [name|]; [|done].
    destruct (parseDecoderValue fuel d1 (S depth)) as [w d2| |] eqn:Ev; [|done..].
    apply IHv in Ev. apply IHo in E. lia.
  - intros d depth items v d' E. cbn [parseArrayValue] in E.
    destruct (negb (More d)); [by apply parse_end_Parsed in E as [_ ?]|].
    destruct (maxArrayItems <=? length items)%nat; [done|].
    destruct (parseDecoderValue fuel d (S depth)) as [w d2| |] eqn:Ev; [|done..].
    apply IHv in Ev. apply IHa in E. lia.
Qed.

(** Twice the input is enough: a byte is consumed every two calls. *)
Lemma parse_answers fuel :
  (forall d depth, 2 * length (dec_buf d) < fuel -> answers (parseDecoderValue fuel d depth)) /\
  (forall d depth fields, S (2 * length (dec_buf d)) < fuel -> answers (parseObjectValue fuel d depth fields)) /\
  (forall d depth items, S (2 * length (dec_buf d)) < fuel -> answers (parseArrayValue fuel d depth items)).
Proof.
  induction fuel as [|fuel (IHv & IHo & IHa)]; [split_and!; intros; lia|]. split_and!.
  - intros d depth Hf. cbn [parseDecoderValue]. destruct (maxNestingDepth <? depth)%nat; [done|].
    destruct (Token d) as [[token d1]|] eqn:Et; [|done]. apply Token_ok in Et as [_ Hl].
    destruct token as [c|s|l|b|]; try done.
    + destruct (ceq c "{"%char); [apply IHo; lia|]. destruct (ceq c "["%char); [apply IHa; lia|done].
    + unfold parseJSONNumber, answers. repeat case_match; done.
  - intros d depth fields Hf. cbn [parseObjectValue]. destruct (negb (More d)); [apply parse_end_answers|].
    destruct (maxObjectFields <=? length fields)%nat; [done|].
    destruct (Token d) as [[[c|s|l|b|] d1]|] eqn:Et; try done. apply Token_ok in Et as [_ Hl].
    destruct (NewFieldName (of_bytes s)) as [name|]; [|done].
    assert (answers (parseDecoderValue fuel d1 (S depth))) as Ha by (apply IHv; lia).
    destruct (parseDecoderValue fuel d1 (S depth)) as [w d2| |] eqn:Ev; [|done..].
    apply (proj1 (parse_shorter fuel)) in Ev. apply IHo. lia.
  - intros d depth items Hf. cbn [parseArrayValue]. destruct (negb (More d)); [apply parse_end_answers|].
    destruct (maxArrayItems <=? length items)%nat; [done|].
    assert (answers (parseDecoderValue fuel d (S depth))) as Ha by (apply IHv; lia).
    destruct (parseDecoderValue fuel d (S depth)) as [w d2| |] eqn:Ev; [|done..].
    apply (proj1 (parse_shorter fuel)) in Ev. apply IHa. lia.
Qed.

(** ** What is accepted is well formed *)

Lemma parseJSONNumber_fits depth literal d v d' :
  depth <= maxNestingDepth -> scan_number literal = Some (literal, []) ->
  parseJSONNumber literal d = Parsed v d' -> fits depth v.
Proof.
  intros Hd Hs. unfold parseJSONNumber. destruct (ParseInt literal) as [z|] eqn:Ei.
  - intros [= <- _]. apply fits_integer; [done|]. revert Ei. unfold ParseInt.
    repeat case_match; intros; by simplify_eq.
  - destruct (ParseFloat_ok literal) eqn:Ef; [|done]. intros [= <- _].
    apply fits_decimal; [done|]. unfold decimal_literal. by rewrite to_of_bytes.
Qed.

Definition field_fits (depth : nat) (f : FieldName * Value) : Prop := canonical f.1 /\ fits depth f.2.

Lemma parse_fits fuel :
  (forall d depth v d', parseDecoderValue fuel d depth = Parsed v d' -> fits depth v) /\
  (forall d depth fields v d', depth <= maxNestingDepth -> length fields <= maxObjectFields ->
     Forall (field_fits (S depth)) fields ->
     parseObjectValue fuel d depth fields = Parsed v d' -> fits depth v) /\
  (forall d depth items v d', depth <= maxNestingDepth -> length items <= maxArrayItems ->
     Forall (fits (S depth)) items ->
     parseArrayValue fuel d depth items = Parsed v d' -> fits depth v).
Proof.
  induction fuel as [|fuel (IHv & IHo & IHa)]; [done|]. split_and!.
  - intros d depth v d' E. cbn [parseDecoderValue] in E.
    destruct (Nat.ltb_spec maxNestingDepth depth) as [|Hd]; [done|].
    destruct (Token d) as [[token d1]|] eqn:Et; [|done]. apply Token_ok in Et as [Ht _].
    destruct token as [c|s|l|b|]; cbn in Ht.
    + destruct (ceq c "{"%char); [eapply IHo; [..|exact E]; [done|cbn; lia|constructor]|].
      destruct (ceq c "["%char); [eapply IHa; [..|exact E]; [done|cbn; lia|constructor]|done].
    + injection E as <- _. apply fits_string; [done|by rewrite to_of_bytes].
    + by eapply parseJSONNumber_fits.
    + done.
    + injection E as <- _. by apply fits_null.
  - intros d depth fields v d' Hd Hl Hall E. cbn [parseObjectValue] in E.
    destruct (negb (More d)); [apply parse_end_Parsed in E as [-> _]; by apply fits_object|].
    destruct (Nat.leb_spec maxObjectFields (length fields)) as [|Hlt]; [done|].
    destruct (Token d) as [[[c|s|l|b|] d1]|] eqn:Et; try done. apply Token_ok in Et as [Hs _].
    destruct (NewFieldName (of_bytes s)) as [name|] eqn:En; [|done].
    destruct (parseDecoderValue fuel d1 (S depth)) as [w d2| |] eqn:Ev; [|done..].
    eapply IHo; [..|exact E]; [done|rewrite length_app; cbn; lia|].
    apply Forall_app. split; [done|]. constructor; [|constructor]. split; [|by eapply IHv].
    eapply NewFieldName_canonical; [|exact En]. by rewrite to_of_bytes.
  - intros d depth items v d' Hd Hl Hall E. cbn [parseArrayValue] in E.
    destruct (negb (More d)); [apply parse_end_Parsed in E as [-> _]; by apply fits_array|].
    destruct (Nat.leb_spec maxArrayItems (length items)) as [|Hlt]; [done|].
    destruct (parseDecoderValue fuel d (S depth)) as [w d2| |] eqn:Ev; [|done..].
    eapply IHa; [..|exact E]; [done|rewrite length_app; cbn; lia|].
    apply Forall_app. split; [done|]. constructor; [by eapply IHv|constructor].
Qed.

Lemma ParseValueJSON_inv raw v :
  ParseValueJSON raw = Some (ValueParsed v) ->
  exists d, parseDecoderValue (parse_fuel (NewDecoder (to_bytes raw))) (NewDecoder (to_bytes raw)) 0 = Parsed v d.
Proof.
  unfold ParseValueJSON. destruct (parseDecoderValue _ _ _) as [w d| |]; [|done..].
  destruct (More d); [done|]. intros [= <-]. by exists d.
Qed.

Lemma ParseValueJSON_fits raw v : ParseValueJSON raw = Some (ValueParsed v) -> fits 0 v.
Proof. intros [d E]%ParseValueJSON_inv. by eapply (proj1 (parse_fits _)). Qed.

(** ** The text of a value *)

Section Encoding.
Variable enc : Value -> bytes.

Fixpoint enc_members (first : bool) (fields : list (FieldName * Value)) : bytes :=
  match fields with
  | [] => ["}"%char]
  | (name, v) :: fields =>
      (if first then [] else [","%char]) ++ Marshal_string (to_bytes (FieldName_String name)) ++
      ":"%char :: enc v ++ enc_members false fields
  end.

Fixpoint enc_items (first : bool) (items : list Value) : bytes :=
  match items with
  | [] => ["]"%char]
  | v :: items => (if first then [] else [","%char]) ++ enc v ++ enc_items false items
  end.
End Encoding.

Fixpoint enc (v : Value) : bytes :=
  match v with
  | NullValue => to_bytes "null"
  | StringValue s => Marshal_string (to_bytes s)
  | IntegerValue z => to_bytes (FormatInt z)
  | DecimalStringValue s => to_bytes s
  | ObjectValue fields => "{"%char :: enc_members enc true fields
  | ArrayValue items => "["%char :: enc_items enc true items
  end.

(** The writer appends that text to its builder. *)
Lemma writeValueJSON_enc v builder : writeValueJSON builder v = builder ++ enc v.
Proof.
  revert builder. induction v as [|s|z|s|fields IH|items IH] using Value_ind; intros builder; try done.
  - assert (forall first b, writeObjectJSON writeValueJSON b first fields = b ++ enc_members enc first fields) as Hw.
    { induction IH as [|[name v] fields Hv _ IHf]; intros first b; [done|].
      cbn [writeObjectJSON enc_members]. rewrite IHf, Hv. unfold writeJSONString.
      destruct first; by rewrite <- !app_assoc. }
    cbn [writeValueJSON enc]. by rewrite Hw, <- app_assoc.
  - assert (forall first b, writeArrayJSON writeValueJSON b first items = b ++ enc_items enc first items) as Hw.
    { induction IH as [|v items Hv _ IHi]; intros first b; [done|].
      cbn [writeArrayJSON enc_items]. rewrite IHi, Hv. destruct first; by rewrite <- !app_assoc. }
    cbn [writeValueJSON enc]. by rewrite Hw, <- app_assoc.
Qed.

Lemma EncodeValueJSON_enc v : EncodeValueJSON v = ValueEncoded (of_bytes (enc v)).
Proof. unfold EncodeValueJSON. by rewrite writeValueJSON_enc. Qed.

(** ** Reading that text back *)

(** The decoder is at the value, or at one separator before it. *)
Definition ready (d d0 : Decoder) : Prop := d = d0 \/ token_turn d = TokenSkip d0.

Lemma ready_Token d d0 token d1 : ready d d0 -> token_turn d0 = TokenRead token d1 -> Token d = Some (token, d1).
Proof. unfold Token. intros [->|E] E1; [by rewrite E1|by rewrite E, E1]. Qed.

Definition scalar_head (c : ascii) : bool := negb (isSpace c) && negb (one_of "[]{}:," c).

Lemma scalar_turn c t st stack token rest :
  scalar_head c = true -> tokenValueAllowed st = true -> scan_scalar (c :: t) = Some (token, rest) ->
  token_turn (MkDecoder (c :: t) st stack) = TokenRead token (MkDecoder rest (tokenValueEnd st) stack).
Proof.
  unfold scalar_head. rewrite andb_true_iff, !negb_true_iff. intros [Hsp Hd] Ha Hs.
  unfold token_turn. cbn [dec_buf skip_space]. rewrite Hsp. unfold one_of in Hd. cbn [to_bytes String.list_ascii_of_string existsb] in Hd.
  repeat (apply orb_false_iff in Hd as [Hc Hd]; rewrite Hc; clear Hc). cbn [dec_state dec_stack].
  destruct st; try discriminate Ha; destruct (ceq c "034"%char); cbn [tokenValueAllowed]; by rewrite Hs.
Qed.

Lemma scan_scalar_string s rest :
  utf8 s -> scan_scalar (Marshal_string s ++ rest) = Some (TokenString s, rest).
Proof.
  intros Hs. unfold Marshal_string. fold (quote s). cbn [app scan_scalar]. rewrite ceq_refl.
  rewrite <- app_assoc. cbn [app]. rewrite scan_string_quote. cbn. by rewrite unquote_quote, sanitize_utf8.
Qed.

Lemma number_head c t lit rest :
  scan_number (c :: t) = Some (lit, rest) ->
  scalar_head c = true /\ scan_scalar (c :: t) = Some (TokenNumber lit, rest).
Proof.
  intros Hs. assert (is_Some (num_start c)) as Hc.
  { rewrite scan_number_start in Hs. by destruct (num_start c). }
  unfold scan_scalar. rewrite Hs. clear Hs.
  destruct c as [[] [] [] [] [] [] [] []]; try (by destruct Hc); done.
Qed.

Lemma number_turn l st stack rest :
  scan_number (l ++ rest) = Some (l, rest) -> tokenValueAllowed st = true ->
  token_turn (MkDecoder (l ++ rest) st stack) = TokenRead (TokenNumber l) (MkDecoder rest (tokenValueEnd st) stack).
Proof.
  intros Hs Ha. destruct (l ++ rest) as [|c t]; [done|].
  apply number_head in Hs as [Hc Hs]. by apply scalar_turn.
Qed.

Lemma string_turn s st stack rest :
  utf8 s -> tokenValueAllowed st = true ->
  token_turn (MkDecoder (Marshal_string s ++ rest) st stack) =
    TokenRead (TokenString s) (MkDecoder rest (tokenValueEnd st) stack).
Proof. intros Hs Ha. pose proof (scan_scalar_string s rest Hs) as E. by apply scalar_turn. Qed.

Lemma key_turn s st stack rest :
  utf8 s -> st = tokenObjectStart \/ st = tokenObjectKey ->
  token_turn (MkDecoder (Marshal_string s ++ rest) st stack) =
    TokenRead (TokenString s) (MkDecoder rest tokenObjectColon stack).
Proof.
  intros Hs Hst. pose proof (scan_scalar_string s rest Hs) as E. revert E.
  change (Marshal_string s ++ rest) with ("034"%char :: (quote s ++ ["034"%char]) ++ rest).
  generalize ((quote s ++ ["034"%char]) ++ rest). intros t E.
  unfold token_turn. cbn [dec_buf]. change (skip_space ("034"%char :: t)) with ("034"%char :: t).
  destruct Hst as [->| ->]; cbn -[scan_scalar]; by rewrite E.
Qed.

Lemma scalar_More c t st stack : scalar_head c = true -> More (MkDecoder (c :: t) st stack) = true.
Proof.
  unfold scalar_head, More. rewrite andb_true_iff, !negb_true_iff. cbn [dec_buf skip_space]. intros [-> Hd].
  unfold one_of in *. cbn in *. repeat (apply orb_false_iff in Hd as [? Hd]). apply negb_true_iff.
  repeat (apply orb_false_iff; split; [done|]). done.
Qed.

Lemma open_turns st stack t :
  tokenValueAllowed st = true ->
  token_turn (MkDecoder ("{"%char :: t) st stack) = TokenRead (TokenDelim "{"%char) (MkDecoder t tokenObjectStart (st :: stack)) /\
  token_turn (MkDecoder ("["%char :: t) st stack) = TokenRead (TokenDelim "["%char) (MkDecoder t tokenArrayStart (st :: stack)).
Proof.
  intros Ha. unfold token_turn. cbn [dec_buf].
  change (skip_space ("{"%char :: t)) with ("{"%char :: t). change (skip_space ("["%char :: t)) with ("["%char :: t).
  cbn -[open_value]. unfold open_value. cbn [dec_state dec_stack]. by rewrite Ha.
Qed.

Definition reads (v : Value) : Prop :=
  forall depth d st stack rest,
    fits depth v -> tokenValueAllowed st = true -> stops rest ->
    ready d (MkDecoder (enc v ++ rest) st stack) ->
    exists fuel, parseDecoderValue fuel d depth = Parsed v (MkDecoder rest (tokenValueEnd st) stack).

Lemma scalar_reads v depth d st stack rest token :
  depth <= maxNestingDepth -> ready d (MkDecoder (enc v ++ rest) st stack) ->
  token_turn (MkDecoder (enc v ++ rest) st stack) = TokenRead token (MkDecoder rest (tokenValueEnd st) stack) ->
  (forall d1, match token with
     | TokenString s => Parsed (StringValue (of_bytes s)) d1
     | TokenNumber literal => parseJSONNumber literal d1
     | TokenNull => Parsed NullValue d1
     | _ => Unfinished
     end = Parsed v d1) ->
  exists fuel, parseDecoderValue fuel d depth = Parsed v (MkDecoder rest (tokenValueEnd st) stack).
Proof.
  intros Hd Hr Ht Hv. exists 1%nat. cbn [parseDecoderValue].
  destruct (Nat.ltb_spec maxNestingDepth depth); [lia|]. rewrite (ready_Token _ _ _ _ Hr Ht).
  specialize (Hv (MkDecoder rest (tokenValueEnd st) stack)). by destruct token.
Qed.

(** The text of a value starts neither with a space nor with a closing delimiter. *)
Lemma enc_head depth v rest stack st : fits depth v -> More (MkDecoder (enc v ++ rest) st stack) = true.
Proof.
  inversion 1 as [| | |? s ? (Hs & _)| |]; try done.
  - pose proof (scan_number_FormatInt z [] I) as E. cbn [enc]. rewrite app_nil_r in E.
    destruct (to_bytes (FormatInt z)) as [|c t]; [done|]. apply number_head in E as [Hc _]. by apply scalar_More.
  - cbn [enc]. destruct (to_bytes s) as [|c t]; [done|]. apply number_head in Hs as [Hc _]. by apply scalar_More.
Qed.

Lemma enc_members_stops fields rest : stops (enc_members enc false fields ++ rest).
Proof. by destruct fields as [|[]]. Qed.

Lemma enc_items_stops items rest : stops (enc_items enc false items ++ rest).
Proof. by destruct items. Qed.

Lemma object_reads fields depth outer stack rest :
  Forall (fun f => reads f.2) fields -> Forall (field_fits (S depth)) fields ->
  forall first acc, length acc + length fields <= maxObjectFields ->
  exists fuel, parseObjectValue fuel
      (MkDecoder (enc_members enc first fields ++ rest) (if first then tokenObjectStart else tokenObjectComma) (outer :: stack))
      depth acc = Parsed (ObjectValue (acc ++ fields)) (MkDecoder rest (tokenValueEnd outer) stack).
Proof.
  induction 1 as [|[name v] fields Hv _ IH]; intros Hall first acc Hl.
  - exists 1%nat. rewrite app_nil_r. by destruct first.
  - apply Forall_cons_1 in Hall as [[Hname Hfit] Hall]. cbn in Hname, Hfit, Hv, Hl.
    set (tail := enc_members enc false fields ++ rest).
    destruct (Hv (S depth) (MkDecoder (":"%char :: enc v ++ tail) tokenObjectColon (outer :: stack))
      tokenObjectValue (outer :: stack) tail) as [f1 E1]; [done|done|apply enc_members_stops|by right|].
    destruct (IH Hall false (acc ++ [(name, v)])) as [f2 E2]; [rewrite length_app; cbn; lia|].
    exists (S (Nat.max f1 f2)). cbn [parseObjectValue].
    set (d := MkDecoder _ _ _).
    assert (More d = true) as -> by (by destruct first).
    destruct (Nat.leb_spec maxObjectFields (length acc)); [lia|]. cbn [negb].
    assert (Token d = Some (TokenString (to_bytes (FieldName_String name)),
      MkDecoder (":"%char :: enc v ++ tail) tokenObjectColon (outer :: stack))) as ->.
    { destruct Hname as [Hu _]. unfold d. cbn [enc_members]. rewrite <- !app_assoc. cbn [app]. rewrite <- app_assoc.
      destruct first; cbn [app].
      - eapply ready_Token; [|apply key_turn; [exact Hu|by left]]. by left.
      - eapply ready_Token; [|apply key_turn; [exact Hu|by right]]. by right. }
    rewrite of_to_bytes, canonical_NewFieldName by done.
    rewrite (value_fuel_le _ (Nat.max f1 f2) _ _ _ _ E1) by lia.
    rewrite <- app_assoc in E2. cbn [tokenValueEnd]. apply (object_fuel_le f2); [exact E2|lia].
Qed.

Lemma array_reads items depth outer stack rest :
  Forall reads items -> Forall (fits (S depth)) items ->
  forall first acc, length acc + length items <= maxArrayItems ->
  exists fuel, parseArrayValue fuel
      (MkDecoder (enc_items enc first items ++ rest) (if first then tokenArrayStart else tokenArrayComma) (outer :: stack))
      depth acc = Parsed (ArrayValue (acc ++ items)) (MkDecoder rest (tokenValueEnd outer) stack).
Proof.
  induction 1 as [|v items Hv _ IH]; intros Hall first acc Hl.
  - exists 1%nat. rewrite app_nil_r. by destruct first.
  - apply Forall_cons_1 in Hall as [Hfit Hall]. cbn in Hl.
    set (tail := enc_items enc false items ++ rest). set (d := MkDecoder _ _ _).
    destruct (Hv (S depth) d (if first then tokenArrayStart else tokenArrayValue) (outer :: stack) tail) as [f1 E1].
    { done. } { by destruct first. } { apply enc_items_stops. }
    { unfold d. cbn [enc_items]. rewrite <- !app_assoc. destruct first; [by left|by right]. }
    destruct (IH Hall false (acc ++ [v])) as [f2 E2]; [rewrite length_app; cbn; lia|].
    exists (S (Nat.max f1 f2)). cbn [parseArrayValue].
    assert (More d = true) as ->.
    { unfold d. cbn [enc_items]. destruct first; [|done]. cbn [app]. rewrite <- app_assoc. by apply (enc_head (S depth)). }
    destruct (Nat.leb_spec maxArrayItems (length acc)); [lia|]. cbn [negb].
    rewrite (value_fuel_le _ (Nat.max f1 f2) _ _ _ _ E1) by lia.
    rewrite <- app_assoc in E2. apply (array_fuel_le f2); [|lia]. by destruct first.
Qed.

Lemma enc_reads v : reads v.
Proof.
  induction v as [|s|z|s|fields IH|items IH] using Value_ind; intros depth d st stack rest Hfit Ha Hstop Hready.
  - inversion Hfit. eapply scalar_reads; [done|exact Hready|by apply scalar_turn; [|done|]|done].
  - inversion Hfit. eapply scalar_reads; [done|exact Hready|by apply string_turn|]. intros d1. cbn. by rewrite of_to_bytes.
  - inversion Hfit. eapply scalar_reads; [done|exact Hready|by apply number_turn; [apply scan_number_FormatInt|]|].
    intros d1. cbn. unfold parseJSONNumber. by rewrite ParseInt_FormatInt.
  - inversion Hfit as [| | |? ? Hd (Hs & Hi & Hf)| |]. subst.
    eapply scalar_reads; [done|exact Hready|apply number_turn; [|done]|].
    + by apply (scan_number_app (to_bytes s) _ [] rest).
    + intros d1. cbn. unfold parseJSONNumber. by rewrite Hi, Hf, of_to_bytes.
  - inversion Hfit as [| | | |? ? Hd Hl Hall|]; subst.
    destruct (object_reads fields depth st stack rest IH Hall true []) as [fuel E]; [done|].
    exists (S fuel). cbn [parseDecoderValue]. destruct (Nat.ltb_spec maxNestingDepth depth); [lia|].
    by rewrite (ready_Token _ _ _ _ Hready (proj1 (open_turns _ _ _ Ha))).
  - inversion Hfit as [| | | | |? ? Hd Hl Hall]; subst.
    destruct (array_reads items depth st stack rest IH Hall true []) as [fuel E]; [done|].
    exists (S fuel). cbn [parseDecoderValue]. destruct (Nat.ltb_spec maxNestingDepth depth); [lia|].
    by rewrite (ready_Token _ _ _ _ Hready (proj2 (open_turns _ _ _ Ha))).
Qed.

Lemma ParseValueJSON_enc v rest :
  fits 0 v -> stops rest -> More (MkDecoder rest tokenTopValue []) = false ->
  ParseValueJSON (of_bytes (enc v ++ rest)) = Some (ValueParsed v).
Proof.
  intros Hfit Hstop Hmore. unfold ParseValueJSON. rewrite to_of_bytes.
  set (d := NewDecoder (enc v ++ rest)).
  destruct (enc_reads v 0 d tokenTopValue [] rest Hfit eq_refl Hstop (or_introl eq_refl)) as [fuel E].
  pose proof (proj1 (parse_answers (parse_fuel d)) d 0%nat (Nat.lt_succ_diag_r _)) as Ha.
  destruct (Nat.le_ge_cases fuel (parse_fuel d)) as [Hle|Hle].
  - rewrite (value_fuel_le _ _ _ _ _ _ E Hle). cbn [tokenValueEnd]. by rewrite Hmore.
  - destruct (parseDecoderValue (parse_fuel d) d 0) as [w d'| reason |] eqn:Er; [| |done].
    + rewrite (value_fuel_le _ _ _ _ _ _ Er Hle) in E. injection E as -> ->. cbn [tokenValueEnd]. by rewrite Hmore.
    + exfalso. revert E. cut (parseDecoderValue fuel d 0 = Refused reason); [congruence|].
      clear - Er Hle. induction Hle as [|n _ IH]; [done|]. rewrite (proj1 (fuel_mono n)); [done|]. unfold answers. by rewrite IH.
Qed.

(** ** The properties *)

(** C39: Termination. The response reader answers every input, whatever bytes it is given: the fuel
    of the model is never the reason for its answer. *)
Theorem ParseValueJSON_answers raw : is_Some (ParseValueJSON raw).
Proof.
  unfold ParseValueJSON. set (d := NewDecoder (to_bytes raw)).
  pose proof (proj1 (parse_answers (parse_fuel d)) d 0%nat (Nat.lt_succ_diag_r _)) as Ha.
  by destruct (parseDecoderValue _ _ _).
Qed.

(** An accepted response is within the limits: nested at most 64 levels below the root, objects
    of at most 1024 members, arrays of at most 4096 items, int64 integers, decimals in the range of
    a float64, valid UTF-8 text, and trimmed, non-empty member names. *)
Theorem parsed_values_fit raw v : ParseValueJSON raw = Some (ValueParsed v) -> fits 0 v.
Proof. apply ParseValueJSON_fits. Qed.

(** C36: Round trip. Whatever response text is accepted, encoding its value gives text that is
    accepted again, with the same value. *)
Theorem encoding_reads_back raw v :
  ParseValueJSON raw = Some (ValueParsed v) ->
  exists source, EncodeValueJSON v = ValueEncoded source /\ ParseValueJSON source = Some (ValueParsed v).
Proof.
  intros Hfit%ParseValueJSON_fits. exists (of_bytes (enc v)). split; [apply EncodeValueJSON_enc|].
  rewrite <- (app_nil_r (enc v)). by apply ParseValueJSON_enc.
Qed.

(** The check for trailing values misses text that starts with a closing bracket or brace: an
    encoded value followed by one and by anything else is accepted as that value. *)
Theorem trailing_closers_are_ignored raw v source c tail :
  ParseValueJSON raw = Some (ValueParsed v) -> EncodeValueJSON v = ValueEncoded source ->
  c = "]"%char \/ c = "}"%char ->
  ParseValueJSON (source +:+ String c tail) = Some (ValueParsed v).
Proof.
  intros Hfit%ParseValueJSON_fits Hsrc Hc. rewrite EncodeValueJSON_enc in Hsrc. injection Hsrc as <-.
  replace (of_bytes (enc v) +:+ String c tail) with (of_bytes (enc v ++ c :: to_bytes tail))
    by (apply to_bytes_inj; by rewrite to_bytes_app, !to_of_bytes).
  apply ParseValueJSON_enc; [done|by destruct Hc as [->| ->]|by destruct Hc as [->| ->]].
Qed.
