(* ===== verification/SchemaCheck.v ===== *)
(** * Validation, sensitive fields and redaction

    Models [internal/schema/validate.go] and [redact.go]: the checks of a response
    value against a schema, the index of its sensitive parts and their redaction,
    with what each of them guarantees. *)

From S2P Require Import Prelude.
From S2P Require Import Core.
From S2P Require Import Json.
From S2P Require Import SchemaModel.
From S2P Require Import SchemaValue.
Local Open Scope string_scope.
Local Open Scope list_scope.

(** ** [validate.go] *)

Record ValidationError := MkValidationError { Error_Path : Path; Error_Message : string }.

Inductive ValidationResult :=
| ValidationAccepted
| ValidationRejected (errors : list ValidationError).

Inductive ObjectFieldLookupResult := ObjectFieldFound (value : Value) | ObjectFieldMissing.

(** The first field of that name. *)
Fixpoint findObjectField (fields : list (FieldName * Value)) (name : FieldName) : ObjectFieldLookupResult :=
  match fields with
  | [] => ObjectFieldMissing
  | (n, v) :: fields =>
      if String.eqb (FieldName_String n) (FieldName_String name) then ObjectFieldFound v
      else findObjectField fields name
  end.

Definition validateString (value : Value) (path : Path) : list ValidationError :=
  match value with
  | StringValue _ => []
  | _ => [MkValidationError path "value must be a string"]
  end.

Definition validateInteger (value : Value) (path : Path) : list ValidationError :=
  match value with
  | IntegerValue _ => []
  | _ => [MkValidationError path "value must be an integer"]
  end.

Definition validateDecimalString (value : Value) (path : Path) : list ValidationError :=
  match value with
  | StringValue s =>
      if ParseFloat_ok (to_bytes s) then [] else [MkValidationError path "value must be a decimal string"]
  | _ => [MkValidationError path "value must be a decimal string"]
  end.

Definition validateEnum (values : list string) (value : Value) (path : Path) : list ValidationError :=
  match value with
  | StringValue s =>
      if existsb (String.eqb s) values then [] else [MkValidationError path "value is not an allowed enum member"]
  | _ => [MkValidationError path "value must be an enum string"]
  end.

Definition validateLiteral (literal : string) (value : Value) (path : Path) : list ValidationError :=
  match value with
  | StringValue s =>
      if String.eqb s literal then [] else [MkValidationError path "value does not match literal"]
  | _ => [MkValidationError path "value must be a literal string"]
  end.

(** The functions that call back [validateAt]. *)
Section ValidateNested.
Variable validate : Schema -> Value -> Path -> list ValidationError.

Definition validateField (field : ObjectField) (object : list (FieldName * Value)) (path : Path) : list ValidationError :=
  let '(MkObjectField name presence schema _) := field in
  match findObjectField object name with
  | ObjectFieldMissing =>
      if decide (presence = FieldRequired)
      then [MkValidationError (Path_Append path name) "required field is missing"] else []
  | ObjectFieldFound v => validate schema v (Path_Append path name)
  end.

Definition validateObject (fields : list ObjectField) (value : Value) (path : Path) : list ValidationError :=
  match value with
  | ObjectValue object => flat_map (fun field => validateField field object path) fields
  | _ => [MkValidationError path "value must be an object"]
  end.

Definition validateArray (item : Schema) (value : Value) (path : Path) : list ValidationError :=
  match value with
  | ArrayValue items => flat_map (fun v => validate item v path) items
  | _ => [MkValidationError path "value must be an array"]
  end.

Fixpoint validateUnion (variants : list Schema) (value : Value) (path : Path) : list ValidationError :=
  match variants with
  | [] => [MkValidationError path "value did not match a union variant"]
  | variant :: variants =>
      match validate variant value path with
      | [] => []
      | _ => validateUnion variants value path
      end
  end.
End ValidateNested.

Fixpoint validateAt (schema : Schema) (value : Value) (path : Path) {struct schema} : list ValidationError :=
  match schema with
  | ObjectSchema fields => validateObject validateAt fields value path
  | ArraySchema item => validateArray validateAt item value path
  | StringSchema _ => validateString value path
  | IntegerSchema => validateInteger value path
  | DecimalStringSchema => validateDecimalString value path
  | EnumSchema values => validateEnum values value path
  | LiteralSchema literal => validateLiteral literal value path
  | UnionSchema variants => validateUnion validateAt variants value path
  | FreeformSchema => []
  end.

Definition Validate (schema : Schema) (value : Value) : ValidationResult :=
  match validateAt schema value RootPath with
  | [] => ValidationAccepted
  | errors => ValidationRejected errors
  end.

(** ** [redact.go]: the index of sensitive fields *)

Record SensitiveField := MkSensitiveField { Sensitive_Path : Path; Sensitive_Policy : Sensitive }.

Definition sensitive_at (path : Path) (sensitivity : Sensitivity) : list SensitiveField :=
  match sensitivity with
  | IsSensitive policy => [MkSensitiveField path policy]
  | NotSensitive => []
  end.

Section CollectNested.
Variable collect : Schema -> Value -> Path -> list SensitiveField.

Definition collectField (field : ObjectField) (object : list (FieldName * Value)) (path : Path) : list SensitiveField :=
  let '(MkObjectField name _ schema sensitivity) := field in
  match findObjectField object name with
  | ObjectFieldMissing => []
  | ObjectFieldFound v =>
      let fieldPath := Path_Append path name in
      sensitive_at fieldPath sensitivity ++ collect schema v fieldPath
  end.
End CollectNested.

Fixpoint collectSensitive (schema : Schema) (value : Value) (path : Path) {struct schema} : list SensitiveField :=
  match schema, value with
  | ObjectSchema fields, ObjectValue object =>
      flat_map (fun field => collectField collectSensitive field object path) fields
  | ArraySchema item, ArrayValue items => flat_map (fun v => collectSensitive item v path) items
  | StringSchema sensitivity, _ => sensitive_at path sensitivity
  | _, _ => []
  end.

Definition BuildSensitiveIndex (schema : Schema) (value : Value) : list SensitiveField :=
  collectSensitive schema value RootPath.

(** ** [redact.go]: redaction *)

Definition redacted : Value := StringValue "[redacted]".

Inductive SchemaFieldLookupResult := SchemaFieldFound (field : ObjectField) | SchemaFieldMissing.

Fixpoint findSchemaField (fields : list ObjectField) (name : FieldName) : SchemaFieldLookupResult :=
  match fields with
  | [] => SchemaFieldMissing
  | field :: fields =>
      if String.eqb (FieldName_String (field_name field)) (FieldName_String name) then SchemaFieldFound field
      else findSchemaField fields name
  end.

(** What becomes of one field of a value; a removed field gives nothing.  The
    recursive call is made on the schema of the first field of that name. *)
Section RedactNested.
Variable redact : Schema -> Value -> Value.

Fixpoint redactField (fields : list ObjectField) (name : FieldName) (v : Value) : list (FieldName * Value) :=
  match fields with
  | [] => [(name, v)]
  | MkObjectField n _ schema sensitivity :: fields =>
      if String.eqb (FieldName_String n) (FieldName_String name) then
        match sensitivity with
        | IsSensitive policy =>
            if decide (Redaction policy = RedactionRemove) then [] else [(name, redacted)]
        | NotSensitive => [(name, redact schema v)]
        end
      else redactField fields name v
  end.
End RedactNested.

Fixpoint redactAt (schema : Schema) (value : Value) {struct schema} : Value :=
  match schema with
  | ObjectSchema fields =>
      match value with
      | ObjectValue object => ObjectValue (flat_map (fun f => redactField redactAt fields f.1 f.2) object)
      | _ => value
      end
  | ArraySchema item =>
      match value with
      | ArrayValue items => ArrayValue (map (redactAt item) items)
      | _ => value
      end
  | StringSchema (IsSensitive policy) =>
      if decide (Redaction policy = RedactionReplace) then redacted else value
  | _ => value
  end.

Definition RedactSensitive (schema : Schema) (value : Value) : Value := redactAt schema value.

Lemma redactField_found fields name v :
  redactField redactAt fields name v =
    match findSchemaField fields name with
    | SchemaFieldMissing => [(name, v)]
    | SchemaFieldFound field =>
        match field_sensitivity field with
        | IsSensitive policy =>
            if decide (Redaction policy = RedactionRemove) then [] else [(name, redacted)]
        | NotSensitive => [(name, redactAt (field_schema field) v)]
        end
    end.
Proof.
  induction fields as [|[n p s e] fields IH]; cbn; [done|].
  destruct (String.eqb _ _); [done|exact IH].
Qed.

(** ** What a schema means *)

(** [conforms s v]: the value has the shape the schema describes.  An object is
    judged by the first field of each name. *)
Inductive conforms : Schema -> Value -> Prop :=
| conforms_object fields object :
    Forall (fun f =>
      (forall v, findObjectField object (field_name f) = ObjectFieldFound v -> conforms (field_schema f) v) /\
      (findObjectField object (field_name f) = ObjectFieldMissing -> field_presence f = FieldMayOmit)) fields ->
    conforms (ObjectSchema fields) (ObjectValue object)
| conforms_array item items : Forall (conforms item) items -> conforms (ArraySchema item) (ArrayValue items)
| conforms_string sensitivity s : conforms (StringSchema sensitivity) (StringValue s)
| conforms_integer z : conforms IntegerSchema (IntegerValue z)
| conforms_decimal s : ParseFloat_ok (to_bytes s) = true -> conforms DecimalStringSchema (StringValue s)
| conforms_enum values s : s ∈ values -> conforms (EnumSchema values) (StringValue s)
| conforms_literal s : conforms (LiteralSchema s) (StringValue s)
| conforms_union variants v : Exists (fun variant => conforms variant v) variants -> conforms (UnionSchema variants) v
| conforms_freeform v : conforms FreeformSchema v.

Lemma Forall_pointwise {A} (P Q : A -> Prop) l : Forall (fun x => P x <-> Q x) l -> Forall P l <-> Forall Q l.
Proof. induction 1 as [|x l Hx _ IH]; [by split|]. rewrite !List.Forall_cons_iff. tauto. Qed.

Lemma Exists_pointwise {A} (P Q : A -> Prop) l : Forall (fun x => P x <-> Q x) l -> Exists P l <-> Exists Q l.
Proof. induction 1 as [|x l Hx _ IH]; [by rewrite !Exists_nil|]. rewrite !Exists_cons. tauto. Qed.

Lemma flat_map_nil {A B} (f : A -> list B) l : flat_map f l = [] <-> Forall (fun x => f x = []) l.
Proof.
  induction l as [|x l IH]; cbn; [by split|]. rewrite List.Forall_cons_iff, <- IH. split.
  - by intros [? ?]%app_eq_nil.
  - by intros [-> ->].
Qed.

Lemma existsb_eqb s values : existsb (String.eqb s) values = true <-> s ∈ values.
Proof.
  rewrite existsb_exists. split.
  - intros (x & Hx & ->%String.eqb_eq). by apply list_elem_of_In.
  - intros Hs. exists s. split; [by apply list_elem_of_In|apply String.eqb_refl].
Qed.

Lemma validateUnion_nil variants value path :
  validateUnion validateAt variants value path = [] <-> Exists (fun s => validateAt s value path = []) variants.
Proof.
  induction variants as [|s variants IH]; cbn [validateUnion]; [by rewrite Exists_nil|].
  rewrite Exists_cons, <- IH. destruct (validateAt s value path); [by split; [left|]|].
  split; [by right|by intros [?|?]].
Qed.

Lemma validateField_nil f object path :
  validateField validateAt f object path = [] <->
    (forall v, findObjectField object (field_name f) = ObjectFieldFound v ->
       validateAt (field_schema f) v (Path_Append path (field_name f)) = []) /\
    (findObjectField object (field_name f) = ObjectFieldMissing -> field_presence f = FieldMayOmit).
Proof.
  destruct f as [n p s e]. cbn. destruct (findObjectField object n) as [v|].
  - split; [by intros Hv; split; [intros ? [= <-]|]|intros [Hv _]; auto].
  - destruct p; cbn; split; [done|naive_solver|by split|done].
Qed.

(** One kind of value is accepted, the others are rejected and do not conform. *)
Ltac other_kinds v := destruct v; try (by split; [|inversion 1]).

Lemma validateAt_conforms s v path : validateAt s v path = [] <-> conforms s v.
Proof.
  revert v path. induction s as [fields IH|item IH|e| | |values|l|variants IH|] using Schema_ind; intros v path.
  - other_kinds v. cbn. rewrite flat_map_nil.
    trans (Forall (fun f =>
      (forall v, findObjectField fields0 (field_name f) = ObjectFieldFound v -> conforms (field_schema f) v) /\
      (findObjectField fields0 (field_name f) = ObjectFieldMissing -> field_presence f = FieldMayOmit)) fields);
      [|by split; [constructor|inversion 1]].
    apply Forall_pointwise. eapply Forall_impl; [|exact IH]. intros f Hf. rewrite validateField_nil.
    split; intros [Hv Hm]; (split; [intros w Hw; by eapply Hf, Hv|exact Hm]).
  - other_kinds v. cbn. rewrite flat_map_nil.
    trans (Forall (conforms item) items); [|by split; [constructor|inversion 1]].
    apply Forall_pointwise, Forall_true. auto.
  - other_kinds v. by split; [constructor|].
  - other_kinds v. by split; [constructor|].
  - other_kinds v. cbn. destruct (ParseFloat_ok (to_bytes value)) eqn:E; [by split; [constructor|]|].
    split; [done|]. inversion 1. congruence.
  - other_kinds v. cbn. destruct (existsb (String.eqb value) values) eqn:E.
    + split; [|done]. intros _. constructor. by apply existsb_eqb.
    + split; [done|]. inversion 1 as [| | | | |? ? Hs%existsb_eqb| | |]. congruence.
  - other_kinds v. cbn. destruct (String.eqb_spec value l) as [->|Hne]; [by split; [constructor|]|].
    split; [done|]. by inversion 1.
  - cbn. rewrite validateUnion_nil.
    trans (Exists (fun variant => conforms variant v) variants); [|by split; [constructor|inversion 1]].
    apply Exists_pointwise. eapply Forall_impl; [|exact IH]. auto.
  - by split; [constructor|].
Qed.

(** ** What a schema marks as sensitive

    The specification of redaction, read off the schema alone: what a schema marks, at
    a field or at a string, in an object, an array or any variant of a union, is not
    public.  Several fields may share a name; a member is marked when one of them is. *)

Definition named (fields : list ObjectField) (n : FieldName) (f : ObjectField) : Prop :=
  f ∈ fields /\ FieldName_String (field_name f) = FieldName_String n.

(** Two lists of members that agree, up to [same], outside the fields marked
    sensitive: a field to remove may be on one side only, a field to replace is
    on both with any two values. *)
Section SameFields.
Variable same : Schema -> Value -> Value -> Prop.
Variable fields : list ObjectField.

Inductive same_fields : list (FieldName * Value) -> list (FieldName * Value) -> Prop :=
| same_fields_nil : same_fields [] []
| same_fields_removed_left n v f policy a b :
    named fields n f -> field_sensitivity f = IsSensitive policy ->
    Redaction policy = RedactionRemove -> same_fields a b -> same_fields ((n, v) :: a) b
| same_fields_removed_right n w f policy a b :
    named fields n f -> field_sensitivity f = IsSensitive policy ->
    Redaction policy = RedactionRemove -> same_fields a b -> same_fields a ((n, w) :: b)
| same_fields_replaced n v w f policy a b :
    named fields n f -> field_sensitivity f = IsSensitive policy ->
    Redaction policy = RedactionReplace -> same_fields a b -> same_fields ((n, v) :: a) ((n, w) :: b)
| same_fields_public n v w f a b :
    named fields n f -> field_sensitivity f = NotSensitive ->
    same (field_schema f) v w -> same_fields a b -> same_fields ((n, v) :: a) ((n, w) :: b)
| same_fields_unknown n v a b :
    (forall f, ~ named fields n f) -> same_fields a b -> same_fields ((n, v) :: a) ((n, v) :: b).
End SameFields.

(** [same_public s v w]: the values agree outside what [s] marks sensitive. *)
Inductive same_public : Schema -> Value -> Value -> Prop :=
| same_public_refl s v : same_public s v v
| same_public_object fields a b :
    same_fields same_public fields a b -> same_public (ObjectSchema fields) (ObjectValue a) (ObjectValue b)
| same_public_array item vs ws :
    Forall2 (same_public item) vs ws -> same_public (ArraySchema item) (ArrayValue vs) (ArrayValue ws)
| same_public_string policy v w : same_public (StringSchema (IsSensitive policy)) v w
| same_public_union variants variant v w :
    variant ∈ variants -> same_public variant v w -> same_public (UnionSchema variants) v w.

(** *** Where redaction looks *)

(** The schema marks nothing. *)
Fixpoint unmarked (s : Schema) : bool :=
  match s with
  | ObjectSchema fields =>
      forallb (fun f => let '(MkObjectField _ _ s e) := f in
        match e with NotSensitive => unmarked s | IsSensitive _ => false end) fields
  | ArraySchema item => unmarked item
  | StringSchema (IsSensitive _) => false
  | UnionSchema variants => forallb unmarked variants
  | _ => true
  end.

(** Every mark is at a field, or replaces a string; none is in a union. *)
Fixpoint within_reach (s : Schema) : bool :=
  match s with
  | ObjectSchema fields =>
      forallb (fun f => let '(MkObjectField _ _ s e) := f in
        match e with NotSensitive => within_reach s | IsSensitive _ => true end) fields
  | ArraySchema item => within_reach item
  | StringSchema (IsSensitive policy) => bool_decide (Redaction policy = RedactionReplace)
  | UnionSchema variants => forallb unmarked variants
  | _ => true
  end.

(** No object schema names a field twice. *)
Fixpoint distinct_names (s : Schema) : bool :=
  match s with
  | ObjectSchema fields =>
      bool_decide (NoDup ((fun f => FieldName_String (field_name f)) <$> fields)) &&
      forallb (fun f => let '(MkObjectField _ _ s _) := f in distinct_names s) fields
  | ArraySchema item => distinct_names item
  | UnionSchema variants => forallb distinct_names variants
  | _ => true
  end.

Lemma findSchemaField_named fields n f : findSchemaField fields n = SchemaFieldFound f -> named fields n f.
Proof.
  unfold named. induction fields as [|g fields IH]; cbn; [done|]. destruct (String.eqb_spec (FieldName_String (field_name g)) (FieldName_String n)) as [E|_].
  - intros [= ->]. split; [by left|done].
  - intros [? ?]%IH. split; [by right|done].
Qed.

Lemma findSchemaField_missing fields n f : findSchemaField fields n = SchemaFieldMissing -> ~ named fields n f.
Proof.
  unfold named. induction fields as [|g fields IH]; cbn; [by intros _ [?%elem_of_nil ?]|].
  destruct (String.eqb_spec (FieldName_String (field_name g)) (FieldName_String n)) as [|Hne]; [done|].
  intros Hf [[->|Hin]%elem_of_cons E]; [done|]. by apply IH.
Qed.

(** Among distinct names the field of a name is the first one. *)
Lemma findSchemaField_unique fields n f :
  NoDup ((fun f => FieldName_String (field_name f)) <$> fields) -> named fields n f -> findSchemaField fields n = SchemaFieldFound f.
Proof.
  unfold named. intros Hnd [Hin E]. induction fields as [|g fields IH]; [by apply elem_of_nil in Hin|].
  cbn in *. apply list.NoDup_cons in Hnd as [Hg Hnd].
  destruct (String.eqb_spec (FieldName_String (field_name g)) (FieldName_String n)) as [Eg|Hne].
  - apply elem_of_cons in Hin as [->|Hin]; [done|]. destruct Hg. apply list_elem_of_fmap. exists f. split; [congruence|done].
  - apply elem_of_cons in Hin as [->|Hin]; [done|auto].
Qed.

(** ** What redaction hides *)

Definition redactFields (fields : list ObjectField) (object : list (FieldName * Value)) : list (FieldName * Value) :=
  flat_map (fun f => redactField redactAt fields f.1 f.2) object.

(** *** Nothing but what is marked *)

(** Values of equal redactions agree on what is public. *)
Definition shows_public (s : Schema) : Prop := forall v w, redactAt s v = redactAt s w -> same_public s v w.

Section FieldsShown.
Context (fields : list ObjectField) (Hfields : Forall (fun f => shows_public (field_schema f)) fields).

(** The members redaction leaves of one field: none, or one of the same name. *)
Lemma redactField_cases n v :
  (redactField redactAt fields n v = [] /\ exists f policy,
     named fields n f /\ field_sensitivity f = IsSensitive policy /\ Redaction policy = RedactionRemove) \/
  exists u, redactField redactAt fields n v = [(n, u)].
Proof using Type.
  rewrite redactField_found. destruct (findSchemaField fields n) as [f|] eqn:Hf; [apply findSchemaField_named in Hf|by eauto].
  destruct (field_sensitivity f) as [|policy] eqn:He; [eauto|].
  destruct (decide _) as [Hr|Hr]; [|eauto]. left. split; [done|]. by exists f, policy.
Qed.

Lemma redactField_kept n v w a b u :
  redactField redactAt fields n v = [(n, u)] -> redactField redactAt fields n w = [(n, u)] ->
  same_fields same_public fields a b -> same_fields same_public fields ((n, v) :: a) ((n, w) :: b).
Proof using Hfields.
  rewrite !redactField_found. destruct (findSchemaField fields n) as [f|] eqn:Hf.
  - apply findSchemaField_named in Hf as Hn. destruct (field_sensitivity f) as [|policy] eqn:He.
    + intros [= Hv] [= Hw] Hab. eapply same_fields_public; [done..| |done].
      apply (Forall_elem _ _ _ Hfields (proj1 Hn)). congruence.
    + destruct (decide _) as [Hr|Hr]; [done|]. intros _ _ Hab. eapply same_fields_replaced; [done..| |done].
      by destruct (Redaction policy).
  - intros [= ->] [= ->] Hab. apply same_fields_unknown; [|done]. intros f. by apply findSchemaField_missing.
Qed.

Lemma redact_same_fields a b : redactFields fields a = redactFields fields b -> same_fields same_public fields a b.
Proof using Hfields.
  unfold redactFields. revert b. induction a as [|[n v] a IHa].
  - intros b. cbn [flat_map]. induction b as [|[m w] b IHb]; [constructor|]. cbn [flat_map fst snd].
    intros [Hw Hb]%eq_sym%app_eq_nil. destruct (redactField_cases m w) as [(_ & f & policy & ? & ? & ?)|[u Hu]]; [|congruence].
    eapply same_fields_removed_right; eauto.
  - intros b. cbn [flat_map fst snd]. destruct (redactField_cases n v) as [(-> & f & policy & ? & ? & ?)|[u Hv]].
    { cbn. intros ?. eapply same_fields_removed_left; eauto. }
    rewrite Hv. induction b as [|[m w] b IHb]; [done|]. cbn [flat_map fst snd].
    destruct (redactField_cases m w) as [(Hw & f & policy & ? & ? & ?)|[t Hw]]; rewrite Hw; cbn.
    + intros Hb. eapply same_fields_removed_right; eauto.
    + intros [= <- <- Hb]. eapply redactField_kept; eauto.
Qed.
End FieldsShown.

Lemma all_show_public s : shows_public s.
Proof.
  induction s as [fields IH|item IH|[|policy]| | |values|l|variants IH|] using Schema_ind; intros v w;
    try (cbn; intros ->; constructor).
  - destruct v as [| | | |a|]; try (destruct w as [| | | |b|]; intros [=]; subst; by constructor).
    destruct w as [| | | |b|]; try done. intros [= H]. constructor. by apply redact_same_fields.
  - destruct v as [| | | | |vs]; try (destruct w as [| | | | |ws]; intros [=]; subst; by constructor).
    destruct w as [| | | | |ws]; try done. intros [= H]. constructor. revert ws H.
    induction vs as [|v vs IHvs]; intros [|w ws]; try done. intros [= Hv Hvs]. constructor; [by apply IH|auto].
  - intros _. constructor.
Qed.

(** *** All that is marked, within reach *)

Lemma unmarked_same s : unmarked s = true -> forall v w, same_public s v w -> v = w.
Proof.
  induction s as [fields IH|item IH|[|policy]| | |values|l|variants IH|] using Schema_ind; intros Hu v w Hs;
    cbn in Hu; try done; try by (inversion Hs; subst).
  - inversion Hs as [|? a b Hf| | |]; subst; [done|]. clear Hs. f_equal. rewrite forallb_forall in Hu.
    assert (forall n f, named fields n f -> field_sensitivity f = NotSensitive /\ unmarked (field_schema f) = true) as Hfield.
    { intros n [nm p s e] [Hin%list_elem_of_In _]. specialize (Hu _ Hin). cbn in *. by destruct e. }
    induction Hf as [|n v f policy a b Hn He _ _ _|n w f policy a b Hn He _ _ _|n v w f policy a b Hn He _ _ _|n v w f a b Hn _ Hvw _ IHf|n v a b _ _ IHf];
      try (by destruct (Hfield _ _ Hn) as [? _]; congruence); [done| |by f_equal].
    f_equal; [|done]. f_equal. eapply (Forall_elem _ _ _ IH (proj1 Hn)); [by apply (Hfield n)|done].
  - inversion Hs as [| |? vs ws Hvs| |]; subst; [done|]. clear Hs. f_equal.
    induction Hvs as [|v w vs ws Hv _ IHvs]; [done|]. f_equal; [by apply IH|done].
  - inversion Hs as [| | | |? variant ? ? Hin Hv]; subst; [done|]. rewrite forallb_forall in Hu.
    eapply (Forall_elem _ _ _ IH Hin); [by apply Hu, list_elem_of_In|done].
Qed.

(** Values that agree on what is public have one redaction. *)
Definition hides_marked (s : Schema) : Prop := forall v w, same_public s v w -> redactAt s v = redactAt s w.

Lemma same_fields_redact fields a b :
  NoDup ((fun f => FieldName_String (field_name f)) <$> fields) ->
  Forall (fun f => field_sensitivity f = NotSensitive -> hides_marked (field_schema f)) fields ->
  same_fields same_public fields a b -> redactFields fields a = redactFields fields b.
Proof.
  intros Hnd Hh. unfold redactFields.
  induction 1 as [|? ? f ? ? ? Hn He Hr _ IH|? ? f ? ? ? Hn He Hr _ IH|? ? ? f ? ? ? Hn He Hr _ IH
    |? ? ? f ? ? Hn He Hs _ IH|n v ? ? Hn _ IH]; [done|..]; cbn [flat_map fst snd]; rewrite ?redactField_found;
    try (rewrite (findSchemaField_unique _ _ _ Hnd Hn), He, ?Hr; cbn; by rewrite IH); [|by rewrite IH].
  rewrite (findSchemaField_unique _ _ _ Hnd Hn), He, IH. cbn. f_equal. f_equal.
  by apply (Forall_elem _ _ _ Hh (proj1 Hn) He).
Qed.

Lemma reached_hides s : distinct_names s = true -> within_reach s = true -> hides_marked s.
Proof.
  induction s as [fields IH|item IH|[|policy]| | |values|l|variants IH|] using Schema_ind; intros Hd Hr v w Hs;
    cbn in Hd, Hr; try by (inversion Hs; subst).
  - inversion Hs as [|? a b Hf| | |]; subst; [done|]. apply andb_true_iff in Hd as [Hnd%bool_decide_eq_true Hd].
    rewrite forallb_forall in Hd, Hr. cbn. f_equal. apply same_fields_redact; [done| |done].
    apply List.Forall_forall. intros [n p s e] Hin He. specialize (Hd _ Hin). specialize (Hr _ Hin). cbn in *. subst e.
    exact (proj1 (List.Forall_forall _ _) IH _ Hin Hd Hr).
  - inversion Hs as [| |? vs ws Hvs| |]; subst; [done|]. cbn. f_equal. clear Hs.
    induction Hvs as [|v w vs ws Hv _ IHvs]; [done|]. cbn. f_equal; [by apply IH|done].
  - cbn. apply bool_decide_eq_true in Hr. by rewrite !decide_True.
  - by apply (unmarked_same (UnionSchema variants) Hr) in Hs as ->.
Qed.

(** *** What is out of reach is shown *)

(** Every mark is a difference that does not count. *)
Lemma marked_differ s : unmarked s = false -> exists v w, v <> w /\ same_public s v w.
Proof.
  induction s as [fields IH|item IH|[|policy]| | |values|l|variants IH|] using Schema_ind; intros Hu; cbn in Hu; try done.
  - assert (exists n p s e, MkObjectField n p s e ∈ fields /\ match e with NotSensitive => unmarked s | IsSensitive _ => false end = false)
      as (n & p & s & e & Hin & He).
    { clear IH. induction fields as [|[n p s e] fields IHf]; [done|]. cbn in Hu. apply andb_false_iff in Hu as [Hu|Hu].
      - exists n, p, s, e. split; [by left|done].
      - destruct (IHf Hu) as (n' & p' & s' & e' & Hin & He). exists n', p', s', e'. split; [by right|done]. }
    assert (named fields n (MkObjectField n p s e)) as Hn by done. destruct e as [|policy].
    + destruct (Forall_elem _ _ _ IH Hin He) as (v & w & Hne & Hs). exists (ObjectValue [(n, v)]), (ObjectValue [(n, w)]).
      split; [congruence|]. constructor. eapply same_fields_public; [done..|constructor].
    + destruct (Redaction policy) eqn:Hr.
      * exists (ObjectValue [(n, NullValue)]), (ObjectValue [(n, IntegerValue 0)]). split; [done|]. constructor.
        eapply same_fields_replaced; [done..|constructor].
      * exists (ObjectValue [(n, NullValue)]), (ObjectValue []). split; [done|]. constructor.
        eapply same_fields_removed_left; [done..|constructor].
  - destruct (IH Hu) as (v & w & Hne & Hs). exists (ArrayValue [v]), (ArrayValue [w]). split; [congruence|]. by repeat constructor.
  - exists NullValue, (IntegerValue 0). split; [done|constructor].
  - assert (exists variant, variant ∈ variants /\ unmarked variant = false) as (variant & Hin & Hv).
    { clear IH. induction variants as [|s variants IHv]; [done|]. cbn in Hu. apply andb_false_iff in Hu as [Hu|Hu].
      - exists s. split; [by left|done].
      - destruct (IHv Hu) as (s' & ? & ?). exists s'. split; [by right|done]. }
    destruct (Forall_elem _ _ _ IH Hin Hv) as (v & w & Hne & Hs). exists v, w. split; [done|]. by econstructor.
Qed.

Lemma unreached_shown s : distinct_names s = true -> within_reach s = false -> exists v w, same_public s v w /\ redactAt s v <> redactAt s w.
Proof.
  induction s as [fields IH|item IH|[|policy]| | |values|l|variants IH|] using Schema_ind; intros Hd Hr; cbn in Hd, Hr; try done.
  - apply andb_true_iff in Hd as [Hnd%bool_decide_eq_true Hd]. rewrite forallb_forall in Hd.
    assert (exists n p s, MkObjectField n p s NotSensitive ∈ fields /\ within_reach s = false) as (n & p & s & Hin & Hs).
    { clear -Hr. induction fields as [|[n p s e] fields IHf]; [done|]. cbn in Hr. apply andb_false_iff in Hr as [Hr|Hr].
      - destruct e; [|done]. exists n, p, s. split; [by left|done].
      - destruct (IHf Hr) as (n' & p' & s' & Hin & He). exists n', p', s'. split; [by right|done]. }
    assert (named fields n (MkObjectField n p s NotSensitive)) as Hn by done.
    pose proof (Hd _ (proj1 (list_elem_of_In _ _) Hin)) as Hds. cbn in Hds.
    destruct (Forall_elem _ _ _ IH Hin Hds Hs) as (v & w & Hvw & Hne). exists (ObjectValue [(n, v)]), (ObjectValue [(n, w)]). split.
    + constructor. eapply same_fields_public; [done..|constructor].
    + cbn [redactAt flat_map fst snd]. rewrite !redactField_found, (findSchemaField_unique _ _ _ Hnd Hn). cbn. intros [= E]. by apply Hne.
  - destruct (IH Hd Hr) as (v & w & Hvw & Hne). exists (ArrayValue [v]), (ArrayValue [w]). split; [by repeat constructor|].
    cbn. intros [= E]. by apply Hne.
  - apply bool_decide_eq_false in Hr. exists NullValue, (IntegerValue 0). split; [constructor|]. cbn. by rewrite !decide_False.
  - destruct (marked_differ (UnionSchema variants) Hr) as (v & w & Hne & Hs). by exists v, w.
Qed.

Lemma redactField_idempotent fields n v :
  Forall (fun f => forall w, redactAt (field_schema f) (redactAt (field_schema f) w) = redactAt (field_schema f) w) fields ->
  redactFields fields (redactField redactAt fields n v) = redactField redactAt fields n v.
Proof.
  intros Hfields. unfold redactFields. rewrite redactField_found.
  destruct (findSchemaField fields n) as [f|] eqn:Hf; [destruct (field_sensitivity f) as [|policy] eqn:He|].
  - cbn. rewrite redactField_found, Hf, He. cbn.
    apply findSchemaField_named in Hf as [Hf _]. by rewrite (Forall_elem _ _ _ Hfields Hf v).
  - destruct (decide _) as [Hr|Hr]; [done|]. cbn. rewrite redactField_found, Hf, He. by rewrite decide_False.
  - cbn. by rewrite redactField_found, Hf.
Qed.

Lemma redactAt_idempotent s v : redactAt s (redactAt s v) = redactAt s v.
Proof.
  revert v. induction s as [fields IH|item IH|[|policy]| | |values|l|variants IH|] using Schema_ind; intros v; try done.
  - destruct v as [| | | |object|]; try done. cbn. f_equal.
    change (redactFields fields (redactFields fields object) = redactFields fields object).
    induction object as [|[n v] object IHo]; [done|]. unfold redactFields in *. cbn [flat_map fst snd].
    rewrite flat_map_app, IHo. f_equal. by apply redactField_idempotent.
  - destruct v as [| | | | |vs]; try done. cbn. f_equal. rewrite map_map. apply map_ext. exact IH.
  - cbn. by destruct (decide _).
Qed.

(** ** Members that repeat a name *)

Lemma findObjectField_app object name n w :
  name ∈ object.*1 ->
  findObjectField (object ++ [(name, w)]) n = findObjectField object n.
Proof.
  intros Hin. induction object as [|[m v] object IH]; cbn in *; [by apply elem_of_nil in Hin|].
  destruct (String.eqb_spec (FieldName_String m) (FieldName_String n)) as [|Hne]; [done|].
  apply elem_of_cons in Hin as [->|Hin]; [|auto]. clear IH.
  induction object as [|[k v'] object IH]; cbn.
  - by destruct (String.eqb_spec (FieldName_String m) (FieldName_String n)).
  - by destruct (String.eqb _ _).
Qed.

(** ** Properties *)

(** C38: Validation accepts a value exactly when the value has the shape the schema describes, and a
    rejection names at least one error. *)
Theorem Validate_iff_conforms s v :
  (Validate s v = ValidationAccepted <-> conforms s v) /\
  (forall errors, Validate s v = ValidationRejected errors -> errors <> []).
Proof.
  rewrite <- (validateAt_conforms s v RootPath). unfold Validate. destruct (validateAt s v RootPath); naive_solver.
Qed.

(** Adding a member whose name an object already has changes nothing in its validation,
    whatever the member's value. *)
Theorem repeated_members_escape_validation fields object name w :
  name ∈ object.*1 ->
  Validate (ObjectSchema fields) (ObjectValue (object ++ [(name, w)])) = Validate (ObjectSchema fields) (ObjectValue object).
Proof.
  intros Hname. unfold Validate. replace (validateAt _ _ _) with (validateAt (ObjectSchema fields) (ObjectValue object) RootPath);
    [done|]. cbn. apply flat_map_ext. intros [n p s e]. cbn. by rewrite findObjectField_app.
Qed.

(** C37: Non-interference, and its limit. Redaction hides nothing but what the schema marks: values
    with the same redaction agree outside the marks, a redacted value agrees with its original
    there, and redacting twice is redacting once. For a schema that names no field twice it hides
    all of what is marked (values that agree outside the marks have the same redaction) exactly when
    every mark is at an object field or replaces a string, and none is in a union; otherwise it
    tells apart two values that differ only in what is marked. *)
Theorem redaction_hides_exactly_the_sensitive_part s :
  (forall v w, RedactSensitive s v = RedactSensitive s w -> same_public s v w) /\
  (forall v, same_public s v (RedactSensitive s v) /\ RedactSensitive s (RedactSensitive s v) = RedactSensitive s v) /\
  (distinct_names s = true ->
     within_reach s = true <-> forall v w, same_public s v w -> RedactSensitive s v = RedactSensitive s w).
Proof.
  split; [apply all_show_public|]. split; [intros v; split; [apply all_show_public; symmetry|]; apply redactAt_idempotent|].
  intros Hd. split; [by apply reached_hides|]. intros Hall. destruct (within_reach s) eqn:Hr; [done|].
  destruct (unreached_shown s Hd Hr) as (v & w & Hs & Hne). by destruct Hne; apply Hall.
Qed.
