(* ===== verification/DialPolicy.v ===== *)
(** * Where a webhook may connect

    Models [internal/webhookdispatch/dialpolicy.go] with the address methods of
    [net/netip] it calls, and compares the policy with the list of networks it
    is meant to keep out.  Parsing and printing addresses are parameters. *)

From S2P Require Import Prelude.
Local Open Scope string_scope.
Local Open Scope Z_scope.

(** ** [net/netip] *)

(** An address: 32 bits, or 128 bits and a zone. *)
Inductive Addr := Addr4 (bits : Z) | Addr6 (bits : Z) (zone : string).

#[export] Instance Addr_eq_dec : EqDecision Addr.
Proof. solve_decision. Defined.

(** The width of the bits. *)
Definition addr_ok (addr : Addr) : Prop :=
  match addr with Addr4 bits => 0 <= bits < 2 ^ 32 | Addr6 bits _ => 0 <= bits < 2 ^ 128 end.

(** [ParseAddrPort(...).Addr()], [Addr.String] and the [%q] verb. *)
Class NetIP := {
  ParseAddrPort : string -> option Addr;
  Addr_String : Addr -> string;
  Quote : string -> string
}.

Class NetIPLaws `{NetIP} : Prop := { ParseAddrPort_ok : forall raw addr, ParseAddrPort raw = Some addr -> addr_ok addr }.

Definition v4 (i bits : Z) : Z := Z.land (Z.shiftr bits ((3 - i) * 8)) 0xff.
Definition v6 (i bits : Z) : Z := Z.land (Z.shiftr bits ((15 - i) * 8)) 0xff.
Definition v6u16 (i bits : Z) : Z := Z.land (Z.shiftr bits ((7 - i) * 16)) 0xffff.
Definition addr_hi (bits : Z) : Z := Z.shiftr bits 64.
Definition addr_lo (bits : Z) : Z := Z.land bits (2 ^ 64 - 1).

Definition Is6 (addr : Addr) : bool := match addr with Addr6 _ _ => true | Addr4 _ => false end.

Definition Is4In6 (addr : Addr) : bool :=
  match addr with
  | Addr6 bits _ => (addr_hi bits =? 0) && (Z.shiftr (addr_lo bits) 32 =? 0xffff)
  | Addr4 _ => false
  end.

Definition Unmap (addr : Addr) : Addr :=
  match addr with
  | Addr6 bits _ => if Is4In6 addr then Addr4 (Z.land bits 0xffffffff) else addr
  | Addr4 _ => addr
  end.

Definition IPv4Unspecified : Addr := Addr4 0.
Definition IPv6Unspecified : Addr := Addr6 0 "".

Definition IsLoopback (addr : Addr) : bool :=
  match Unmap addr with
  | Addr4 bits => v4 0 bits =? 127
  | Addr6 bits _ => (addr_hi bits =? 0) && (addr_lo bits =? 1)
  end.

Definition IsMulticast (addr : Addr) : bool :=
  match Unmap addr with
  | Addr4 bits => Z.land (v4 0 bits) 0xf0 =? 0xe0
  | Addr6 bits _ => Z.shiftr (addr_hi bits) 56 =? 0xff
  end.

Definition IsLinkLocalUnicast (addr : Addr) : bool :=
  match Unmap addr with
  | Addr4 bits => (v4 0 bits =? 169) && (v4 1 bits =? 254)
  | Addr6 bits _ => Z.land (v6u16 0 bits) 0xffc0 =? 0xfe80
  end.

Definition IsGlobalUnicast (addr : Addr) : bool :=
  if match addr with Addr4 _ => bool_decide (addr = IPv4Unspecified) || bool_decide (addr = Addr4 (2 ^ 32 - 1)) | _ => false end
  then false
  else negb (bool_decide (addr = IPv6Unspecified)) && negb (IsLoopback addr) && negb (IsMulticast addr) &&
       negb (IsLinkLocalUnicast addr).

Definition IsPrivate (addr : Addr) : bool :=
  match Unmap addr with
  | Addr4 bits =>
      (v4 0 bits =? 10) || (v4 0 bits =? 172) && (Z.land (v4 1 bits) 0xf0 =? 16) || (v4 0 bits =? 192) && (v4 1 bits =? 168)
  | Addr6 bits _ => Z.land (v6 0 bits) 0xfe =? 0xfc
  end.

(** ** The policy *)

Section Policy.
Context `{NetIP}.

(** The error's text, [None] for the nil of the source.  A parsed address is valid, unmapped or not. *)
Definition RejectNonPublicAddress (address : string) : option string :=
  match ParseAddrPort address with
  | None => Some ("webhook dial blocked: address " +:+ Quote address +:+ " is not an ip:port")
  | Some parsed =>
      let addr := Unmap parsed in
      let blocked reason := Some ("webhook dial blocked: " +:+ Addr_String addr +:+ reason) in
      if negb (IsGlobalUnicast addr) then blocked " is not a global unicast address"
      else if IsPrivate addr then blocked " is a private address"
      else if match addr with Addr6 bits _ => Z.land (v6 0 bits) 0xfe =? 0xfc | Addr4 _ => false end
      then blocked " is a unique-local address"
      else None
  end.

Definition DialPolicy : Type := string -> string -> option string.

Definition StrictDialPolicy : DialPolicy := fun _ address => RejectNonPublicAddress address.
Definition AllowEveryAddress : DialPolicy := fun _ _ => None.
End Policy.

(** ** The networks to keep out *)

(** A prefix: the first [len] bits of an address of [width] bits. *)
Definition in_prefix (width base len bits : Z) : Prop := bits / 2 ^ (width - len) = base / 2 ^ (width - len).

#[export] Instance in_prefix_dec width base len bits : Decision (in_prefix width base len bits).
Proof. unfold in_prefix. apply _. Defined.

Definition ipv4 (a b c d : Z) : Z := ((a * 256 + b) * 256 + c) * 256 + d.

Definition blocked4 : list (Z * Z) :=
  [ (ipv4 0 0 0 0, 32); (ipv4 255 255 255 255, 32); (ipv4 127 0 0 0, 8); (ipv4 224 0 0 0, 4); (ipv4 169 254 0 0, 16);
    (ipv4 10 0 0 0, 8); (ipv4 172 16 0 0, 12); (ipv4 192 168 0 0, 16) ].

Definition blocked6 : list (Z * Z) :=
  [ (1, 128); (0xff * 2 ^ 120, 8); (0xfe80 * 2 ^ 112, 10); (0xfc * 2 ^ 120, 7) ].

(** The first 96 bits of an IPv4 address mapped into IPv6. *)
Definition mapped_prefix : Z := 0xffff.

(** Which addresses the policy is to admit, by their networks alone. *)
Definition public4 (bits : Z) : Prop := Forall (fun p => ~ in_prefix 32 p.1 p.2 bits) blocked4.
Definition public6 (bits : Z) (zone : string) : Prop :=
  ~ (bits = 0 /\ zone = "") /\ Forall (fun p => ~ in_prefix 128 p.1 p.2 bits) blocked6.

Definition public_address (addr : Addr) : Prop :=
  match addr with
  | Addr4 bits => public4 bits
  | Addr6 bits zone => if decide (bits / 2 ^ 32 = mapped_prefix) then public4 (bits mod 2 ^ 32) else public6 bits zone
  end.

(** ** The policy admits exactly those *)

Lemma land_mask x n : 0 <= n -> Z.land x (Z.ones n) = x mod 2 ^ n.
Proof. apply Z.land_ones. Qed.

(** Masking the low [k] of [n] bits away. *)
Lemma land_high x n k :
  0 <= k <= n -> 0 <= x < 2 ^ n -> Z.land x (Z.shiftl (Z.ones (n - k)) k) = x / 2 ^ k * 2 ^ k.
Proof.
  intros Hk Hx. rewrite <- Z.shiftr_div_pow2, <- Z.shiftl_mul_pow2 by lia. apply Z.bits_inj'. intros i Hi.
  rewrite Z.land_spec, !Z.shiftl_spec by lia. destruct (decide (i < k)) as [Hlt|Hge].
  - rewrite !(Z.testbit_neg_r _ (i - k)) by lia. by rewrite andb_false_r.
  - rewrite Z.shiftr_spec by lia. replace (i - k + k) with i by lia. destruct (decide (i < n)) as [Hin|Hout].
    + rewrite Z.ones_spec_low by lia. by rewrite andb_true_r.
    + rewrite Z.ones_spec_high by lia. rewrite andb_false_r. destruct (decide (x = 0)) as [->|]; [by rewrite Z.testbit_0_l|].
      symmetry. apply Z.bits_above_log2; [lia|]. apply Z.log2_lt_pow2; [lia|].
      apply Z.lt_le_trans with (2 ^ n); [lia|]. apply Z.pow_le_mono_r; lia.
Qed.

(** Comparing the kept bits is comparing quotients. *)
Lemma mask_eqb x n k c :
  0 <= k <= n -> 0 <= x < 2 ^ n -> (Z.land x (Z.shiftl (Z.ones (n - k)) k) =? c * 2 ^ k) = (x / 2 ^ k =? c).
Proof.
  intros Hk Hx. rewrite land_high by done. assert (0 < 2 ^ k) by (apply Z.pow_pos_nonneg; lia).
  destruct (Z.eqb_spec (x / 2 ^ k) c) as [->|Hne]; [apply Z.eqb_refl|]. apply Z.eqb_neq. nia.
Qed.

Section Bits.
Context (bits : Z).

Lemma v4_0 : 0 <= bits < 2 ^ 32 -> v4 0 bits = bits / 2 ^ 24.
Proof.
  intros Hb. unfold v4. change 0xff with (Z.ones 8). rewrite land_mask, Z.shiftr_div_pow2 by lia. cbn [Z.sub Z.mul].
  apply Z.mod_small. Z.to_euclidean_division_equations. lia.
Qed.

Lemma v4_1 : v4 1 bits = bits / 2 ^ 16 mod 256.
Proof. unfold v4. change 0xff with (Z.ones 8). by rewrite land_mask, Z.shiftr_div_pow2 by lia. Qed.

Lemma v6_0 : 0 <= bits < 2 ^ 128 -> v6 0 bits = bits / 2 ^ 120.
Proof.
  intros Hb. unfold v6. change 0xff with (Z.ones 8). rewrite land_mask, Z.shiftr_div_pow2 by lia.
  apply Z.mod_small. change ((15 - 0) * 8) with 120. Z.to_euclidean_division_equations. lia.
Qed.

Lemma v6u16_0 : 0 <= bits < 2 ^ 128 -> v6u16 0 bits = bits / 2 ^ 112.
Proof.
  intros Hb. unfold v6u16. change 0xffff with (Z.ones 16). rewrite land_mask, Z.shiftr_div_pow2 by lia.
  apply Z.mod_small. change ((7 - 0) * 16) with 112. Z.to_euclidean_division_equations. lia.
Qed.

Lemma addr_hi_div : addr_hi bits = bits / 2 ^ 64.
Proof. unfold addr_hi. by rewrite Z.shiftr_div_pow2. Qed.

Lemma addr_lo_mod : addr_lo bits = bits mod 2 ^ 64.
Proof. unfold addr_lo. change (2 ^ 64 - 1) with (Z.ones 64). by rewrite land_mask. Qed.

Lemma Is4In6_prefix zone : 0 <= bits < 2 ^ 128 -> Is4In6 (Addr6 bits zone) = bool_decide (bits / 2 ^ 32 = mapped_prefix).
Proof.
  intros Hb. unfold Is4In6, mapped_prefix. rewrite addr_hi_div, addr_lo_mod, Z.shiftr_div_pow2 by lia.
  apply eq_bool_prop_intro. rewrite andb_True, bool_decide_spec, !Is_true_true, !Z.eqb_eq.
  Z.to_euclidean_division_equations. lia.
Qed.
End Bits.

(** Quotients of constants, computed. *)
Ltac eval_quotients :=
  repeat match goal with |- context [?c / ?d] => let v := eval vm_compute in (c / d) in change (c / d) with v end.

(** ** IPv4 *)

Lemma if_false (c b : bool) : (if c then false else b) = negb c && b.
Proof. by destruct c. Qed.

Definition admits4 (bits : Z) : bool := IsGlobalUnicast (Addr4 bits) && negb (IsPrivate (Addr4 bits)).

Lemma high_nibble b v : 0 <= b < 256 -> (Z.land b 0xf0 =? v * 16) = (b / 16 =? v).
Proof. intros Hb. exact (mask_eqb b 8 4 v ltac:(lia) Hb). Qed.

Lemma admits4_public bits : 0 <= bits < 2 ^ 32 -> admits4 bits = true <-> public4 bits.
Proof.
  intros Hb. unfold admits4, IsGlobalUnicast, IsPrivate, IsLoopback, IsMulticast, IsLinkLocalUnicast. cbn [Unmap].
  assert (forall v, bool_decide (Addr4 bits = Addr4 v) = (bits =? v)) as Heq.
  { intros v. destruct (Z.eqb_spec bits v) as [->|]; [by apply bool_decide_true|apply bool_decide_false; congruence]. }
  unfold IPv4Unspecified. rewrite !Heq. rewrite (bool_decide_false (Addr4 bits = IPv6Unspecified)) by discriminate. rewrite v4_0, v4_1 by done.
  assert (0 <= bits / 2 ^ 24 < 256) as Ha by (Z.to_euclidean_division_equations; lia).
  pose proof (Z.mod_pos_bound (bits / 2 ^ 16) 256 ltac:(lia)) as Hb1.
  change (0xe0) with (14 * 16). replace (Z.land (bits / 2 ^ 16 mod 256) 0xf0 =? 16) with (bits / 2 ^ 16 mod 256 / 16 =? 1)
    by (symmetry; exact (high_nibble _ 1 Hb1)).
  rewrite high_nibble by done.
  unfold public4, blocked4. rewrite !List.Forall_cons_iff, List.Forall_nil_iff. unfold in_prefix, ipv4. cbn [fst snd].
  rewrite if_false, !andb_true_iff, !negb_true_iff, !orb_false_iff, !andb_false_iff, !Z.eqb_neq. clear Heq.
  assert (bits / 2 ^ (32 - 4) = bits / 2 ^ 24 / 16) as -> by (Z.to_euclidean_division_equations; lia).
  assert (bits / 2 ^ (32 - 16) = bits / 2 ^ 24 * 256 + bits / 2 ^ 16 mod 256) as -> by (Z.to_euclidean_division_equations; lia).
  assert (bits / 2 ^ (32 - 12) = bits / 2 ^ 24 * 16 + bits / 2 ^ 16 mod 256 / 16) as -> by (Z.to_euclidean_division_equations; lia).
  change (32 - 8) with 24. change (2 ^ (32 - 32)) with 1. rewrite !Z.div_1_r.
  assert (0 <= bits / 2 ^ 16 mod 256 / 16 < 16) as Hb2 by (Z.to_euclidean_division_equations; lia).
  set (a := bits / 2 ^ 24) in *. set (b := bits / 2 ^ 16 mod 256) in *. set (b' := b / 16) in *. set (a' := a / 16).
  clearbody a a' b b'. eval_quotients. cbn [negb]. intuition lia.
Qed.

(** ** IPv6 *)

Definition admits6 (bits : Z) (zone : string) : bool :=
  let addr := Addr6 bits zone in
  IsGlobalUnicast addr && negb (IsPrivate addr) && negb (Z.land (v6 0 bits) 0xfe =? 0xfc).

Lemma admits6_public bits zone :
  0 <= bits < 2 ^ 128 -> Is4In6 (Addr6 bits zone) = false -> admits6 bits zone = true <-> public6 bits zone.
Proof.
  intros Hb Hm. unfold admits6, IsGlobalUnicast, IsPrivate, IsLoopback, IsMulticast, IsLinkLocalUnicast, Unmap. rewrite Hm.
  rewrite v6_0, v6u16_0, addr_hi_div, addr_lo_mod, Z.shiftr_div_pow2 by done.
  rewrite Z.div_div by done.
  assert (0 <= bits / 2 ^ 120 < 256) as Ha by (Z.to_euclidean_division_equations; lia).
  assert (0 <= bits / 2 ^ 112 < 2 ^ 16) as Hw by (Z.to_euclidean_division_equations; lia).
  change 0xfc with (126 * 2 ^ 1). change (Z.land (bits / 2 ^ 120) 0xfe) with (Z.land (bits / 2 ^ 120) (Z.shiftl (Z.ones (8 - 1)) 1)).
  rewrite (mask_eqb _ 8 1) by (done || lia).
  change 0xfe80 with (1018 * 2 ^ 6) at 1.
  change (Z.land (bits / 2 ^ 112) 0xffc0) with (Z.land (bits / 2 ^ 112) (Z.shiftl (Z.ones (16 - 6)) 6)).
  rewrite (mask_eqb _ 16 6) by (done || lia). rewrite !Z.div_div by done.
  unfold public6, blocked6. rewrite !List.Forall_cons_iff, List.Forall_nil_iff. unfold in_prefix. cbn [fst snd].
  assert ((bits / 2 ^ 64 =? 0) && (bits mod 2 ^ 64 =? 1) = (bits =? 1)) as ->.
  { apply eq_bool_prop_intro. rewrite andb_True, !Is_true_true, !Z.eqb_eq. Z.to_euclidean_division_equations. lia. }
  rewrite !andb_true_iff, !negb_true_iff, !Z.eqb_neq, bool_decide_eq_false. clear Ha Hw Hm.
  change (2 ^ (128 - 128)) with 1. rewrite !Z.div_1_r. cbn [Z.sub Z.add Z.opp Z.pos_sub].
  change (2 ^ 64 * 2 ^ 56) with (2 ^ (128 - 8)). change (2 ^ 112 * 2 ^ 6) with (2 ^ (128 - 10)).
  change (2 ^ 120 * 2 ^ 1) with (2 ^ (128 - 7)).
  assert (Addr6 bits zone = IPv6Unspecified <-> bits = 0 /\ zone = "") as ->.
  { unfold IPv6Unspecified. split; [intros [= -> ->]|intros [-> ->]]; done. }
  change (255 * 2 ^ 120 / 2 ^ (128 - 8)) with 255. change (65152 * 2 ^ 112 / 2 ^ (128 - 10)) with 1018.
  change (252 * 2 ^ 120 / 2 ^ (128 - 7)) with 126. tauto.
Qed.

(** ** The theorem *)

Section Admission.
Context `{NetIPLaws}.

(** The dialler may connect to exactly the addresses that parse and, once an IPv4 address
    mapped into IPv6 is unmapped, lie in none of the kept-out networks: unspecified, loopback,
    private, link-local, unique-local, multicast and broadcast. *)
Theorem dial_policy_admits_public network address :
  StrictDialPolicy network address = None <-> exists addr, ParseAddrPort address = Some addr /\ public_address addr.
Proof.
  unfold StrictDialPolicy, RejectNonPublicAddress. destruct (ParseAddrPort address) as [addr|] eqn:Hp.
  2: { split; [done|]. by intros (? & ? & _). }
  pose proof (ParseAddrPort_ok _ _ Hp) as Hok. transitivity (public_address addr).
  2: { split; [by exists addr|]. by intros (? & [= <-] & ?). }
  cbv zeta. destruct addr as [bits|bits zone]; cbn [Unmap public_address addr_ok] in *.
  - rewrite <- (admits4_public bits Hok). unfold admits4. by destruct (IsGlobalUnicast _), (IsPrivate _).
  - rewrite (Is4In6_prefix bits zone Hok). case_bool_decide as Hm; case_decide; try done.
    + change 0xffffffff with (Z.ones 32). rewrite land_mask by done.
      pose proof (Z.mod_pos_bound bits (2 ^ 32) ltac:(done)) as Hb.
      rewrite <- (admits4_public _ Hb). unfold admits4. by destruct (IsGlobalUnicast _), (IsPrivate _).
    + rewrite <- (admits6_public bits zone Hok) by (rewrite Is4In6_prefix by done; by apply bool_decide_false).
      unfold admits6. by destruct (IsGlobalUnicast _), (IsPrivate _), (_ =? _).
Qed.
End Admission.

(** The unspecified IPv6 address is compared with its zone, so with one it is let through. *)
Example unspecified_with_zone :
  public_address (Addr6 0 "lo") /\ ~ public_address (Addr6 0 "").
Proof.
  split; [|by intros [Hn _]; apply Hn].
  split; [by intros [_ ?]|]. by repeat (constructor; [vm_compute; discriminate|]).
Qed.

(** Shared address space and the NAT64 form of a private address are public here. *)
Example other_networks_are_public :
  public_address (Addr4 (ipv4 100 64 0 1)) /\ public_address (Addr6 (0x64ff9b * 2 ^ 96 + ipv4 10 0 0 1) "").
Proof.
  split; [by repeat (constructor; [vm_compute; discriminate|])|].
  split; [by intros [? _]|]. by repeat (constructor; [vm_compute; discriminate|]).
Qed.
