(* ===== verification/LedgerValues.v ===== *)
(** * The ledger's values, commands and results

    Models [internal/ledger/values.go], [models.go], [results.go],
    [work_budget.go], [events.go], the command structs and the pure helpers of
    [service.go], and the review note of [internal/submission/models.go].  A Go
    struct with one private field is a one-field record; a sealed Go interface is
    the inductive type of its implementations. *)

From S2P Require Import Prelude.
From S2P Require Import Core.
From S2P Require Import OrgRoles.
From S2P Require Import Events.
Local Open Scope string_scope.
Local Open Scope Z_scope.

(** ** [values.go]: amounts *)

Record CreditAmount := MkCreditAmount { CreditAmount_Int64 : Z }.

#[export] Instance CreditAmount_eq_dec : EqDecision CreditAmount.
Proof. solve_decision. Defined.

Inductive CreditAmountResult :=
| CreditAmountAccepted (Value : CreditAmount)
| CreditAmountRejected (Reason : DomainError).

Definition NewCreditAmount (value : Z) : CreditAmountResult :=
  if value <=? 0 then
    CreditAmountRejected (invalid_argument "credit amount must be a positive number of base units")
  else CreditAmountAccepted (MkCreditAmount value).

Record SignedAmount := MkSignedAmount { SignedAmount_Int64 : Z }.

Inductive SignedAmountResult :=
| SignedAmountAccepted (Value : SignedAmount)
| SignedAmountRejected (Reason : DomainError).

Definition ParseSignedAmount (value : Z) : SignedAmountResult :=
  if value =? 0 then
    SignedAmountRejected (invalid_argument "ledger entry amount must be non-zero")
  else SignedAmountAccepted (MkSignedAmount value).

Record Balance := NewBalance { Spendable : Z; Allocated : Z }.

Definition Total (balance : Balance) : Z := wrap64 (Spendable balance + Allocated balance).

Record IdempotencyKey := MkIdempotencyKey { IdempotencyKey_String : string }.

Inductive IdempotencyKeyResult :=
| IdempotencyKeyAccepted (Value : IdempotencyKey)
| IdempotencyKeyRejected (Reason : DomainError).

Definition NewIdempotencyKey (raw : string) : IdempotencyKeyResult :=
  if String.eqb raw "" then
    IdempotencyKeyRejected (invalid_argument "idempotency key is required")
  else if (200 <? String.length raw)%nat then
    IdempotencyKeyRejected (invalid_argument "idempotency key is too long")
  else IdempotencyKeyAccepted (MkIdempotencyKey raw).

(** ** [values.go]: entry kinds *)

Inductive EntryKind :=
| EntryKindSignupGrant | EntryKindTaskFund | EntryKindTaskRefund | EntryKindTaskPayout
| EntryKindTaskTip | EntryKindManualAdjustment | EntryKindPeerTransfer.

#[export] Instance EntryKind_eq_dec : EqDecision EntryKind.
Proof. solve_decision. Defined.

Definition EntryKind_String (kind : EntryKind) : string :=
  match kind with
  | EntryKindSignupGrant => "signup_grant"
  | EntryKindTaskFund => "task_fund"
  | EntryKindTaskRefund => "task_refund"
  | EntryKindTaskPayout => "task_payout"
  | EntryKindTaskTip => "task_tip"
  | EntryKindManualAdjustment => "manual_adjustment"
  | EntryKindPeerTransfer => "peer_transfer"
  end.

Inductive EntryKindResult :=
| EntryKindAccepted (Value : EntryKind)
| EntryKindRejected (Reason : DomainError).

Definition ParseEntryKind (raw : string) : EntryKindResult :=
  let case k := (EntryKind_String k, EntryKindAccepted k) in
  switch raw
    [ case EntryKindSignupGrant; case EntryKindTaskFund; case EntryKindTaskRefund;
      case EntryKindTaskPayout; case EntryKindTaskTip; case EntryKindManualAdjustment;
      case EntryKindPeerTransfer ]
    (EntryKindRejected (NewDomainError ErrorCodeInvalidEnum "ledger entry kind is invalid")).

(** ** [values.go]: notes, targets, selections *)

Record GrantNote := MkGrantNote { GrantNote_String : string }.

Inductive GrantNoteResult :=
| GrantNoteAccepted (Value : GrantNote)
| GrantNoteRejected (Reason : DomainError).

Definition NewGrantNote (raw : string) : GrantNoteResult :=
  let trimmed := TrimSpace raw in
  if String.eqb trimmed "" then
    GrantNoteRejected (invalid_argument "credit grant note is required")
  else if (500 <? String.length trimmed)%nat then
    GrantNoteRejected (invalid_argument "credit grant note is too long")
  else GrantNoteAccepted (MkGrantNote trimmed).

Inductive GrantTarget :=
| GrantToUser (ID : UserID)
| GrantToOrganization (ID : OrganizationID).

Definition SignupGrantAmount : CreditAmount := MkCreditAmount 100.

Inductive CreditReviewSelection :=
| FullCreditReviewSelection
| PartialCreditReviewSelection (Amount : CreditAmount)
| NoCreditReviewSelection.

Inductive TipSelection :=
| NoTipSelection
| CreditTipSelection (Amount : CreditAmount).

Inductive CollectibleTipSelection :=
| NoCollectibleTipSelection
| CollectibleTipSelected (ID : CollectibleID).

Inductive Reviewer :=
| UserReviewer (ID : UserID)
| OrganizationReviewer (ID : OrganizationID).

Inductive BanSelection := NoBanSelection | BanImplementorSelection.

Inductive TransferSource :=
| TransferFromSelf
| TransferFromOrganization (ID : OrganizationID).

Inductive TransferTarget :=
| TransferToUser (ID : UserID)
| TransferToOrganization (ID : OrganizationID).

Inductive TransferNote :=
| NoTransferNote
| TransferNoteProvided (Note : GrantNote).

(** ** [internal/submission/models.go]: review notes *)

Record ReviewNote := MkReviewNote { ReviewNote_String : string }.

Inductive ReviewNoteResult :=
| ReviewNoteAccepted (Value : ReviewNote)
| ReviewNoteRejected (Reason : DomainError).

Definition NewRequiredReviewNote (raw : string) : ReviewNoteResult :=
  if String.eqb raw "" then ReviewNoteRejected (invalid_argument "review note is required")
  else if (2000 <? String.length raw)%nat then
    ReviewNoteRejected (invalid_argument "review note is too long")
  else ReviewNoteAccepted (MkReviewNote raw).

Definition NewStoredReviewNote (raw : string) : ReviewNoteResult :=
  if (2000 <? String.length raw)%nat then
    ReviewNoteRejected (invalid_argument "review note is too long")
  else ReviewNoteAccepted (MkReviewNote raw).

Definition EmptyReviewNote : ReviewNote := MkReviewNote "".

(** ** [models.go] *)

Inductive TaskReference :=
| NoTaskReference
| TaskReferenced (TaskID : TaskID).

Record LedgerEntry := MkLedgerEntry {
  LedgerEntry_ID : LedgerEntryID;
  LedgerEntry_Kind : EntryKind;
  LedgerEntry_Amount : SignedAmount;
  LedgerEntry_TaskRef : TaskReference;
  LedgerEntry_Note : string
}.

Record TaskFund := MkTaskFund {
  TaskFund_TaskID : TaskID;
  TaskFund_FunderAccountID : CreditAccountID;
  TaskFund_CreditAmount : CreditAmount
}.

(** The loop of [DeriveSpendable], adding with int64 wrap-around. *)
Definition DeriveSpendable (entries : list LedgerEntry) : Z :=
  foldl (fun total entry => wrap64 (total + SignedAmount_Int64 (LedgerEntry_Amount entry))) 0 entries.

(** ** [work_budget.go] *)

Definition DailyPeerTransferCeilingCredits : Z := 500.

Inductive SpendDayCap :=
| NoSpendDayCap
| SpendDayCapAtMost (Limit : CreditAmount).

Inductive SpendOrigin :=
| SpendByUser
| SpendViaWorkCredential (CredentialID : AgentCredentialID) (Cap : SpendDayCap).

Inductive SpendCharge :=
| NoSpendCharge
| ChargeSpendBudget (CredentialID : AgentCredentialID) (DayLimit Amount : CreditAmount).

Definition spendChargeFor (origin : SpendOrigin) (amount : CreditAmount) : SpendCharge :=
  match origin with
  | SpendByUser => NoSpendCharge
  | SpendViaWorkCredential credentialID cap =>
      match cap with
      | NoSpendDayCap => NoSpendCharge
      | SpendDayCapAtMost limit => ChargeSpendBudget credentialID limit amount
      end
  end.

Definition tipSpendChargeFor (origin : SpendOrigin) (selection : TipSelection) : SpendCharge :=
  match selection with
  | NoTipSelection => NoSpendCharge
  | CreditTipSelection amount => spendChargeFor origin amount
  end.

(** ** [results.go] *)

Inductive Execution := FirstExecution | IdempotentReplay.

Inductive FundResult :=
| TaskFunded (Fund : TaskFund) (Execution : Execution) (RecordedEvents : list Draft)
| FundRejected (Reason : DomainError).

Inductive PayoutOutcome :=
| NoPayout
| CreditPayout (WorkerUserID : UserID) (Amount : CreditAmount)
| CollectiblePayout (WorkerUserID : UserID) (CollectibleIDs : list CollectibleID)
| BundlePayout (WorkerUserID : UserID) (Amount : CreditAmount) (CollectibleIDs : list CollectibleID).

Inductive TipOutcome :=
| NoTip
| CreditTip (WorkerUserID : UserID) (Amount : CreditAmount)
| CollectibleTip (WorkerUserID : UserID) (CollectibleID : CollectibleID)
| BundleTip (WorkerUserID : UserID) (Amount : CreditAmount) (CollectibleID : CollectibleID).

Inductive AcceptResult :=
| SubmissionAccepted (TaskID : TaskID) (SubmissionID : SubmissionID) (WorkerUserID : UserID)
    (Payout : PayoutOutcome) (Tip : TipOutcome) (Execution : Execution) (RecordedEvents : list Draft)
| AcceptRejected (Reason : DomainError).

Inductive RequestChangesResult :=
| ChangesRequested (TaskID : TaskID) (SubmissionID : SubmissionID) (WorkerUserID : UserID)
    (ReviewNote : string) (Execution : Execution) (RecordedEvents : list Draft)
| RequestChangesRejected (Reason : DomainError).

Inductive RejectResult :=
| SubmissionRejected (TaskID : TaskID) (SubmissionID : SubmissionID) (WorkerUserID : UserID)
    (Payout : PayoutOutcome) (Tip : TipOutcome) (Execution : Execution) (RecordedEvents : list Draft)
| RejectRejected (Reason : DomainError).

Inductive RefundResult :=
| TaskRefunded (Fund : TaskFund) (Execution : Execution) (RecordedEvents : list Draft)
| RefundRejected (Reason : DomainError).

Inductive BalanceResult :=
| BalanceFound (Value : Balance)
| BalanceRejected (Reason : DomainError).

Inductive TaskAllocatedResult :=
| TaskAllocatedFound (Amount : Z)
| TaskAllocatedRejected (Reason : DomainError).

Inductive ListEntriesResult :=
| EntriesListed (Values : list LedgerEntry) (Total : Z)
| ListEntriesRejected (Reason : DomainError).

Inductive GrantResult :=
| CreditsGranted (EntryID : LedgerEntryID) (Amount : CreditAmount)
    (RecipientUserIDs : list UserID) (Execution : Execution) (RecordedEvents : list Draft)
| GrantRejected (Reason : DomainError).

Inductive SendResult :=
| CreditsSent (DebitEntryID : LedgerEntryID) (Amount : CreditAmount)
    (ReceiverUserIDs : list UserID) (Execution : Execution) (RecordedEvents : list Draft)
| SendRejected (Reason : DomainError).

(** ** [service.go]: store commands *)

Record FundStoreCommand := MkFundStoreCommand {
  fund_EntryID : LedgerEntryID;
  fund_FunderUserID : UserID;
  fund_TaskID : TaskID;
  fund_Amount : CreditAmount;
  fund_IdempotencyKey : IdempotencyKey;
  fund_Spend : SpendCharge;
  fund_Draft : Draft
}.

Record OrganizationFundStoreCommand := MkOrganizationFundStoreCommand {
  orgfund_EntryID : LedgerEntryID;
  orgfund_OrganizationID : OrganizationID;
  orgfund_TaskID : TaskID;
  orgfund_Amount : CreditAmount;
  orgfund_IdempotencyKey : IdempotencyKey;
  orgfund_ActingUserID : UserID;
  orgfund_Spend : SpendCharge;
  orgfund_Draft : Draft
}.

Record AcceptStoreCommand := MkAcceptStoreCommand {
  accept_PayoutEntryID : LedgerEntryID;
  accept_RefundEntryID : LedgerEntryID;
  accept_TipDebitEntryID : LedgerEntryID;
  accept_TipCreditEntryID : LedgerEntryID;
  accept_Reviewer : Reviewer;
  accept_TaskID : TaskID;
  accept_SubmissionID : SubmissionID;
  accept_IdempotencyKey : IdempotencyKey;
  accept_CreditSelection : CreditReviewSelection;
  accept_TipSelection : TipSelection;
  accept_CollectibleTip : CollectibleTipSelection;
  accept_Spend : SpendCharge;
  accept_Draft : Draft
}.

Record RequestChangesStoreCommand := MkRequestChangesStoreCommand {
  changes_Reviewer : Reviewer;
  changes_TaskID : TaskID;
  changes_SubmissionID : SubmissionID;
  changes_IdempotencyKey : IdempotencyKey;
  changes_ReviewNote : ReviewNote;
  changes_Draft : Draft
}.

Record RejectStoreCommand := MkRejectStoreCommand {
  reject_PayoutEntryID : LedgerEntryID;
  reject_TipDebitEntryID : LedgerEntryID;
  reject_TipCreditEntryID : LedgerEntryID;
  reject_Reviewer : Reviewer;
  reject_TaskID : TaskID;
  reject_SubmissionID : SubmissionID;
  reject_IdempotencyKey : IdempotencyKey;
  reject_ReviewNote : ReviewNote;
  reject_CreditSelection : CreditReviewSelection;
  reject_TipSelection : TipSelection;
  reject_BanSelection : BanSelection;
  reject_Spend : SpendCharge;
  reject_Draft : Draft
}.

Record RefundStoreCommand := MkRefundStoreCommand {
  refund_EntryID : LedgerEntryID;
  refund_RequesterUserID : UserID;
  refund_TaskID : TaskID;
  refund_IdempotencyKey : IdempotencyKey;
  refund_Draft : Draft
}.

Record GrantStoreCommand := MkGrantStoreCommand {
  grant_EntryID : LedgerEntryID;
  grant_Target : GrantTarget;
  grant_Amount : CreditAmount;
  grant_Note : GrantNote;
  grant_IdempotencyKey : IdempotencyKey;
  grant_Draft : Draft
}.

Record PeerTransferStoreCommand := MkPeerTransferStoreCommand {
  send_DebitEntryID : LedgerEntryID;
  send_CreditEntryID : LedgerEntryID;
  send_ActingUserID : UserID;
  send_Source : TransferSource;
  send_Target : TransferTarget;
  send_Amount : CreditAmount;
  send_Note : TransferNote;
  send_IdempotencyKey : IdempotencyKey;
  send_Spend : SpendCharge;
  send_Draft : Draft
}.

(** ** [service.go]: subjects and actors of the ledger's events *)

Definition reviewSubject (taskID : TaskID) (submissionID : SubmissionID) : Subject :=
  set_Submission (SubmissionSubject submissionID) (set_Task (TaskSubject taskID) NoSubjectRefs).

Definition taskSubject (taskID : TaskID) : Subject := set_Task (TaskSubject taskID) NoSubjectRefs.

(** The default case of the Go switch (a nil reviewer) has no counterpart. *)
Definition reviewerActor `{UUIDLib} (reviewer : Reviewer) : Actor * Recipients :=
  match reviewer with
  | UserReviewer id => (ActorUser id, NewRecipients [id])
  | OrganizationReviewer _ => (ActorSystem, NewRecipients [])
  end.

(** [requireReviewerCanPay]: [None] is the nil of the source. *)
Definition requireReviewerCanPay (reviewer : Reviewer) (tipSelection : TipSelection)
    (collectibleTip : CollectibleTipSelection) (banSelection : BanSelection) : option DomainError :=
  match reviewer with
  | UserReviewer _ => None
  | OrganizationReviewer _ =>
      match tipSelection with
      | CreditTipSelection _ => Some (invalid_argument "an organization credential cannot pay a credit tip")
      | NoTipSelection =>
          match collectibleTip with
          | CollectibleTipSelected _ => Some (invalid_argument "an organization credential cannot tip a collectible")
          | NoCollectibleTipSelection =>
              match banSelection with
              | BanImplementorSelection => Some (invalid_argument "an organization credential cannot ban an implementor")
              | NoBanSelection => None
              end
          end
      end
  end.

(** ** Lemmas *)

Lemma NewCreditAmount_accepted_inv v a :
  NewCreditAmount v = CreditAmountAccepted a -> 0 < v /\ CreditAmount_Int64 a = v.
Proof. unfold NewCreditAmount. destruct (Z.leb_spec v 0); intros [= <-]; done. Qed.

Lemma ParseEntryKind_String kind : ParseEntryKind (EntryKind_String kind) = EntryKindAccepted kind.
Proof. by destruct kind. Qed.

Lemma EntryKind_String_inj : Inj (=) (=) EntryKind_String.
Proof. intros [] []; vm_compute; congruence. Qed.

(** An in-range sum is the sum of the entries. *)
Lemma DeriveSpendable_wrap entries :
  DeriveSpendable entries = wrap64 (sum_Z ((fun e => SignedAmount_Int64 (LedgerEntry_Amount e)) <$> entries)).
Proof.
  unfold DeriveSpendable. enough (forall acc, foldl (fun total entry =>
    wrap64 (total + SignedAmount_Int64 (LedgerEntry_Amount entry))) (wrap64 acc) entries =
    wrap64 (acc + sum_Z ((fun e => SignedAmount_Int64 (LedgerEntry_Amount e)) <$> entries))) as H by apply (H 0).
  induction entries as [|e entries IH]; intros acc; cbn; [by rewrite Z.add_0_r|].
  rewrite wrap64_add_wrap, IH. f_equal. unfold sum_Z. lia.
Qed.
