(* ===== verification/TaskWork.v ===== *)
(** * Work budgets of agent credentials

    Models [internal/task/work_budget.go] and the reservation gate of
    [internal/task/service.go], with [internal/agent/work_policy.go] and the
    credential of [internal/agent/models.go]: the policy its owner configures, and
    the snapshots of it the task and ledger services enforce. *)

From S2P Require Import Prelude.
From S2P Require Import Core.
From S2P Require Import TaskValues.
From S2P Require Import LedgerValues.

(** * Agent credentials: scopes and labels

    Models the scopes, states and labels of [internal/agent/values.go] and the
    scope sets of [internal/agent/models.go].  Secrets rest on random bytes and a
    hash and are left out. *)
Local Open Scope string_scope.

Module Agent.

(** ** [agent/values.go] *)

Inductive Scope :=
| ScopeTasksRead | ScopeTasksWrite | ScopeSubmissionsWrite | ScopeSubmissionsRead | ScopeSubmissionsReview
| ScopeOrgRead | ScopeOrgManage | ScopeCollectiblesRead | ScopeCollectiblesManage
| ScopeNotificationsRead | ScopeNotificationsManage | ScopeUsersRead | ScopeLedgerRead | ScopeLedgerWrite
| ScopeModerationRead | ScopeModerationManage | ScopePrivacyRead | ScopePrivacyManage | ScopePlatformAdmin
| ScopeCredentialsManage | ScopeWebhooksRead | ScopeWebhooksManage.

#[export] Instance Scope_eq_dec : EqDecision Scope.
Proof. solve_decision. Defined.

Definition Scope_String (scope : Scope) : string :=
  match scope with
  | ScopeTasksRead => "tasks_read"
  | ScopeTasksWrite => "tasks_write"
  | ScopeSubmissionsWrite => "submissions_write"
  | ScopeSubmissionsRead => "submissions_read"
  | ScopeSubmissionsReview => "submissions_review"
  | ScopeOrgRead => "org_read"
  | ScopeOrgManage => "org_manage"
  | ScopeCollectiblesRead => "collectibles_read"
  | ScopeCollectiblesManage => "collectibles_manage"
  | ScopeNotificationsRead => "notifications_read"
  | ScopeNotificationsManage => "notifications_manage"
  | ScopeUsersRead => "users_read"
  | ScopeLedgerRead => "ledger_read"
  | ScopeLedgerWrite => "ledger_write"
  | ScopeModerationRead => "moderation_read"
  | ScopeModerationManage => "moderation_manage"
  | ScopePrivacyRead => "privacy_read"
  | ScopePrivacyManage => "privacy_manage"
  | ScopePlatformAdmin => "platform_admin"
  | ScopeCredentialsManage => "credentials_manage"
  | ScopeWebhooksRead => "webhooks_read"
  | ScopeWebhooksManage => "webhooks_manage"
  end.

Definition allScopes : list Scope :=
  [ ScopeTasksRead; ScopeTasksWrite; ScopeSubmissionsWrite; ScopeSubmissionsRead; ScopeSubmissionsReview;
    ScopeOrgRead; ScopeOrgManage; ScopeCollectiblesRead; ScopeCollectiblesManage;
    ScopeNotificationsRead; ScopeNotificationsManage; ScopeUsersRead; ScopeLedgerRead; ScopeLedgerWrite;
    ScopeModerationRead; ScopeModerationManage; ScopePrivacyRead; ScopePrivacyManage; ScopePlatformAdmin;
    ScopeCredentialsManage; ScopeWebhooksRead; ScopeWebhooksManage ].

Inductive ScopeResult := ScopeAccepted (Value : Scope) | ScopeRejected (Reason : DomainError).

Definition ParseScope (raw : string) : ScopeResult :=
  match list_find (fun scope => Scope_String scope = raw) allScopes with
  | Some (_, scope) => ScopeAccepted scope
  | None => ScopeRejected (NewDomainError ErrorCodeInvalidEnum "agent scope is invalid")
  end.

Inductive State := StateActive | StateRevoked.

Definition State_String (state : State) : string :=
  match state with StateActive => "active" | StateRevoked => "revoked" end.

Inductive StateResult := StateAccepted (Value : State) | StateRejected (Reason : DomainError).

Definition ParseState (raw : string) : StateResult :=
  switch raw
    [ (State_String StateActive, StateAccepted StateActive);
      (State_String StateRevoked, StateAccepted StateRevoked) ]
    (StateRejected (NewDomainError ErrorCodeInvalidEnum "agent credential state is invalid")).

Record Label := MkLabel { Label_value : string }.

Inductive LabelResult := LabelAccepted (Value : Label) | LabelRejected (Reason : DomainError).

Definition NewLabel (raw : string) : LabelResult :=
  let trimmed := TrimSpace raw in
  if String.eqb trimmed "" then LabelRejected (NewDomainError ErrorCodeInvalidArgument "agent credential label is required")
  else if (120 <? String.length trimmed)%nat
  then LabelRejected (NewDomainError ErrorCodeInvalidArgument "agent credential label is too long")
  else LabelAccepted (MkLabel trimmed).

(** ** [agent/models.go]: scope sets *)

Record ScopeSet := MkScopeSet { scope_values : list Scope }.

Definition containsScope (scopes : list Scope) (scope : Scope) : bool := bool_decide (scope ∈ scopes).

Fixpoint unique_scopes (unique scopes : list Scope) : list Scope :=
  match scopes with
  | [] => unique
  | scope :: scopes => unique_scopes (if containsScope unique scope then unique else unique ++ [scope]) scopes
  end.

Definition NewScopeSet (scopes : list Scope) : ScopeSet := MkScopeSet (unique_scopes [] scopes).

Definition Values (set : ScopeSet) : list Scope := scope_values set.

Inductive ScopeCheck := ScopeGranted | ScopeDenied (Reason : DomainError).

Definition Allows (set : ScopeSet) (scope : Scope) : ScopeCheck :=
  if containsScope (scope_values set) scope then ScopeGranted
  else ScopeDenied (NewDomainError ErrorCodeInvalidState ("agent credential is missing the " +:+ Scope_String scope +:+ " scope")).

Definition IsEmpty (set : ScopeSet) : bool := match scope_values set with [] => true | _ => false end.

Lemma unique_scopes_elem unique scopes s : s ∈ unique_scopes unique scopes <-> s ∈ unique \/ s ∈ scopes.
Proof.
  revert unique. induction scopes as [|x scopes IH]; intros unique; cbn; [set_solver|].
  rewrite IH. unfold containsScope. case_bool_decide; set_solver.
Qed.

(** A set grants exactly what it was built from. *)
Lemma Allows_iff scopes scope : Allows (NewScopeSet scopes) scope = ScopeGranted <-> scope ∈ scopes.
Proof.
  unfold Allows, containsScope. cbn. case_bool_decide as Hin; rewrite unique_scopes_elem in Hin; set_solver.
Qed.
End Agent.

Local Open Scope string_scope.
Local Open Scope Z_scope.

Module Work.

(** ** [task/work_budget.go] *)

Inductive ReservationConcurrencyCap := NoReservationConcurrencyCap | ReservationConcurrencyCapAtMost (Limit : Z).
Inductive WorkTaskTypeCheck := AnyWorkTaskType | OnlyWorkTaskTypes (Values : list TaskType).
Inductive WorkRewardFloor := NoWorkRewardFloor | WorkRewardFloorAtLeast (MinimumCredits : Z).

Record CredentialWorkBudget := MkCredentialWorkBudget {
  DailyTaskLimit : Z;
  Concurrent : ReservationConcurrencyCap;
  Types : WorkTaskTypeCheck;
  RewardFloor : WorkRewardFloor
}.

Inductive CredentialWorkPolicy := CredentialWorkDisabled | CredentialWorkEnabled (budget : CredentialWorkBudget).

Inductive WorkerOrigin :=
| WorkerIsUser
| WorkerViaTaskCredential (CredentialID : AgentCredentialID)
| WorkerViaCredential (CredentialID : AgentCredentialID) (Policy : CredentialWorkPolicy).

Definition OnlyWorkTaskTypes_Allows (values : list TaskType) (taskType : TaskType) : bool :=
  existsb (fun allowed => bool_decide (allowed = taskType)) values.

Definition creditRewardOf (reward : Task.RewardSpec) : Z :=
  match reward with
  | Task.CreditRewardSpec amount => Task.CreditRewardAmount_Int64 amount
  | Task.BundleRewardSpec credit _ => Task.CreditRewardAmount_Int64 credit
  | _ => 0
  end.

Definition checkWorkPolicyAgainstTask (budget : CredentialWorkBudget) (value : Task.Task) : option DomainError :=
  let refused_type :=
    match Types budget with
    | OnlyWorkTaskTypes values => negb (OnlyWorkTaskTypes_Allows values (Task.Type_ value))
    | AnyWorkTaskType => false
    end in
  let below_floor :=
    match RewardFloor budget with
    | WorkRewardFloorAtLeast minimum => creditRewardOf (Task.Reward value) <? minimum
    | NoWorkRewardFloor => false
    end in
  if refused_type
  then Some (permission_denied ("agent credential is not allowed to work " +:+ TaskType_String (Task.Type_ value) +:+ " tasks"))
  else if below_floor
  then Some (permission_denied "task credit reward is below the agent credential's minimum reward floor")
  else None.

Inductive ReservationOrigin :=
| ReservedByUserSession
| ReservedViaWorkCredential (CredentialID : AgentCredentialID) (DailyTaskLimit : Z) (Concurrent : ReservationConcurrencyCap).

Inductive WorkBudgetCharge :=
| NoWorkBudgetCharge
| ChargeDailyTaskBudget (CredentialID : AgentCredentialID) (DailyTaskLimit : Z).

Definition not_enabled : DomainError :=
  permission_denied "agent credential is not enabled for work-seeking; its owner must enable it with a work budget".

Definition WorkBudgetForSubmission (origin : WorkerOrigin) (target : Task.Task) : DomainError + WorkBudgetCharge :=
  match origin with
  | WorkerViaCredential credentialID policy =>
      if decide (Task.Participation target = Task.ParticipationPolicyReservationRequired) then inr NoWorkBudgetCharge
      else match policy with
           | CredentialWorkDisabled => inl not_enabled
           | CredentialWorkEnabled budget =>
               match checkWorkPolicyAgainstTask budget target with
               | Some problem => inl problem
               | None => inr (ChargeDailyTaskBudget credentialID (DailyTaskLimit budget))
               end
           end
  | _ => inr NoWorkBudgetCharge
  end.

(** ** [task/service.go]: the gate of a reservation *)

Definition reservationOriginFor (origin : WorkerOrigin) (target : Task.Task) : DomainError + ReservationOrigin :=
  match origin with
  | WorkerIsUser => inr ReservedByUserSession
  | WorkerViaTaskCredential _ =>
      inl (permission_denied "a task-scoped worker credential cannot reserve tasks; it works within the reservation it was issued for")
  | WorkerViaCredential credentialID policy =>
      match policy with
      | CredentialWorkDisabled => inl not_enabled
      | CredentialWorkEnabled budget =>
          match checkWorkPolicyAgainstTask budget target with
          | Some problem => inl problem
          | None => inr (ReservedViaWorkCredential credentialID (DailyTaskLimit budget) (Concurrent budget))
          end
      end
  end.

(** ** [agent/work_policy.go] *)

Inductive WorkSeekingState := WorkSeekingDisabled | WorkSeekingEnabled.

Definition WorkSeekingState_String (state : WorkSeekingState) : string :=
  match state with
  | WorkSeekingDisabled => "work_seeking_disabled"
  | WorkSeekingEnabled => "work_seeking_enabled"
  end.

Inductive WorkSeekingStateResult :=
| WorkSeekingStateAccepted (Value : WorkSeekingState)
| WorkSeekingStateRejected (Reason : DomainError).

Definition ParseWorkSeekingState (raw : string) : WorkSeekingStateResult :=
  switch raw
    [ ("work_seeking_disabled", WorkSeekingStateAccepted WorkSeekingDisabled);
      ("work_seeking_enabled", WorkSeekingStateAccepted WorkSeekingEnabled) ]
    (WorkSeekingStateRejected (invalid_enum "work-seeking state is invalid")).

Record DailyTaskBudget := MkDailyTaskBudget { DailyTaskBudget_Int64 : Z }.
Definition maxDailyTaskBudget : Z := 100 * 100.
Inductive DailyTaskBudgetResult :=
| DailyTaskBudgetAccepted (Value : DailyTaskBudget)
| DailyTaskBudgetRejected (Reason : DomainError).
Definition NewDailyTaskBudget (value : Z) : DailyTaskBudgetResult :=
  if value <? 1 then DailyTaskBudgetRejected (invalid_argument "daily task budget must be at least 1")
  else if maxDailyTaskBudget <? value then DailyTaskBudgetRejected (invalid_argument "daily task budget is too large")
  else DailyTaskBudgetAccepted (MkDailyTaskBudget value).

Record ConcurrentReservationCap := MkConcurrentReservationCap { ConcurrentReservationCap_Int64 : Z }.
Definition maxConcurrentReservationCap : Z := 1000.
Inductive ConcurrentReservationCapResult :=
| ConcurrentReservationCapAccepted (Value : ConcurrentReservationCap)
| ConcurrentReservationCapRejected (Reason : DomainError).
Definition NewConcurrentReservationCap (value : Z) : ConcurrentReservationCapResult :=
  if value <? 1 then ConcurrentReservationCapRejected (invalid_argument "concurrent reservation cap must be at least 1")
  else if maxConcurrentReservationCap <? value
  then ConcurrentReservationCapRejected (invalid_argument "concurrent reservation cap is too large")
  else ConcurrentReservationCapAccepted (MkConcurrentReservationCap value).

Inductive ConcurrentReservationAllowance :=
| ConcurrentReservationsUnlimited
| ConcurrentReservationsCapped (Limit : ConcurrentReservationCap).
Inductive DailySpendAllowance := DailySpendUnlimited | DailySpendCapped (Limit : CreditAmount).
Inductive RewardFloorAllowance := NoRewardFloor | RewardFloorAtLeast (Minimum : CreditAmount).

Definition containsTaskType (types : list TaskType) (taskType : TaskType) : bool :=
  existsb (fun existing => bool_decide (existing = taskType)) types.

Record TaskTypesLimited := MkTaskTypesLimited { TaskTypesLimited_Values : list TaskType }.
Inductive TaskTypeAllowance := AllTaskTypesAllowed | TaskTypesLimitedTo (limited : TaskTypesLimited).
Inductive TaskTypesLimitedResult :=
| TaskTypesLimitedAccepted (Value : TaskTypesLimited)
| TaskTypesLimitedRejected (Reason : DomainError).

(** The loop of [NewTaskTypesLimited]. *)
Definition unique_types (types : list TaskType) : list TaskType :=
  foldl (fun unique candidate => if containsTaskType unique candidate then unique else (unique ++ [candidate])%list) [] types.

Definition NewTaskTypesLimited (types : list TaskType) : TaskTypesLimitedResult :=
  match unique_types types with
  | [] => TaskTypesLimitedRejected (invalid_argument "a task type restriction needs at least one task type")
  | unique => TaskTypesLimitedAccepted (MkTaskTypesLimited unique)
  end.

Definition TaskTypesLimited_Allows (limited : TaskTypesLimited) (taskType : TaskType) : bool :=
  containsTaskType (TaskTypesLimited_Values limited) taskType.

Record TokenBudgetTokens := MkTokenBudgetTokens { TokenBudgetTokens_Int64 : Z }.
Inductive TokenBudgetTokensResult :=
| TokenBudgetTokensAccepted (Value : TokenBudgetTokens)
| TokenBudgetTokensRejected (Reason : DomainError).
Definition NewTokenBudgetTokens (value : Z) : TokenBudgetTokensResult :=
  if value <? 1 then TokenBudgetTokensRejected (invalid_argument "advisory token budget must be a positive number of tokens")
  else TokenBudgetTokensAccepted (MkTokenBudgetTokens value).

Record TokenBudgetNote := MkTokenBudgetNote { TokenBudgetNote_String : string }.
Inductive TokenBudgetNoteResult :=
| TokenBudgetNoteAccepted (Value : TokenBudgetNote)
| TokenBudgetNoteRejected (Reason : DomainError).
Definition NewTokenBudgetNote (raw : string) : TokenBudgetNoteResult :=
  let trimmed := TrimSpace raw in
  if (500 <? String.length trimmed)%nat
  then TokenBudgetNoteRejected (invalid_argument "advisory token budget note is too long")
  else TokenBudgetNoteAccepted (MkTokenBudgetNote trimmed).

Inductive TokenBudgetAdvisory := NoTokenBudgetAdvisory | TokenBudgetAdvised (Tokens : TokenBudgetTokens) (Note : TokenBudgetNote).

Record WorkAllowances := MkWorkAllowances {
  MaxTasksPerDay : DailyTaskBudget;
  ConcurrentReservations : ConcurrentReservationAllowance;
  DailySpend : DailySpendAllowance;
  TaskTypes : TaskTypeAllowance;
  Floor : RewardFloorAllowance;
  TokenBudget : TokenBudgetAdvisory
}.

Inductive WorkPolicy := WorkPolicyDisabled | WorkPolicyEnabled (Allowances : WorkAllowances).

Definition WorkPolicyState (policy : WorkPolicy) : WorkSeekingState :=
  match policy with WorkPolicyEnabled _ => WorkSeekingEnabled | WorkPolicyDisabled => WorkSeekingDisabled end.

(** ** [agent/models.go] *)

Record Credential := MkCredential {
  Credential_ID : AgentCredentialID;
  Credential_UserID : UserID;
  Credential_Label : Agent.Label;
  Credential_Scopes : Agent.ScopeSet;
  Credential_State : Agent.State;
  Credential_ExpiresAt : option Z;
  Credential_TaskID : option TaskID;
  Credential_WorkPolicy : WorkPolicy
}.

Definition IsExpired (credential : Credential) (now : Z) : bool :=
  match Credential_ExpiresAt credential with Some expiresAt => expiresAt <? now | None => false end.

Definition MatchesTask (credential : Credential) (taskID : TaskID) : bool :=
  match Credential_TaskID credential with Some own => bool_decide (own = taskID) | None => true end.

Definition workPolicySnapshot (credential : Credential) : CredentialWorkPolicy :=
  match Credential_WorkPolicy credential with
  | WorkPolicyDisabled => CredentialWorkDisabled
  | WorkPolicyEnabled allowances =>
      CredentialWorkEnabled (MkCredentialWorkBudget
        (DailyTaskBudget_Int64 (MaxTasksPerDay allowances))
        match ConcurrentReservations allowances with
        | ConcurrentReservationsCapped limit => ReservationConcurrencyCapAtMost (ConcurrentReservationCap_Int64 limit)
        | ConcurrentReservationsUnlimited => NoReservationConcurrencyCap
        end
        match TaskTypes allowances with
        | TaskTypesLimitedTo limited => OnlyWorkTaskTypes (TaskTypesLimited_Values limited)
        | AllTaskTypesAllowed => AnyWorkTaskType
        end
        match Floor allowances with
        | RewardFloorAtLeast minimum => WorkRewardFloorAtLeast (CreditAmount_Int64 minimum)
        | NoRewardFloor => NoWorkRewardFloor
        end)
  end.

Definition TaskWorkerOrigin (credential : Credential) : WorkerOrigin :=
  match Credential_TaskID credential with
  | Some _ => WorkerViaTaskCredential (Credential_ID credential)
  | None => WorkerViaCredential (Credential_ID credential) (workPolicySnapshot credential)
  end.

Definition Credential_SpendOrigin (credential : Credential) : SpendOrigin :=
  SpendViaWorkCredential (Credential_ID credential)
    match Credential_WorkPolicy credential with
    | WorkPolicyEnabled allowances =>
        match DailySpend allowances with
        | DailySpendCapped limit => SpendDayCapAtMost limit
        | DailySpendUnlimited => NoSpendDayCap
        end
    | WorkPolicyDisabled => NoSpendDayCap
    end.

(** ** What a credential may engage *)

Lemma unique_types_spec types : NoDup (unique_types types) /\ forall t, t ∈ unique_types types <-> t ∈ types.
Proof.
  unfold unique_types.
  assert (forall acc, NoDup acc -> NoDup (foldl (fun unique candidate => if containsTaskType unique candidate then unique
      else (unique ++ [candidate])%list) acc types) /\
    forall t, t ∈ foldl (fun unique candidate => if containsTaskType unique candidate then unique
      else (unique ++ [candidate])%list) acc types <-> t ∈ acc \/ t ∈ types) as H.
  { induction types as [|a types IH]; intros acc Hacc; cbn.
    - split; [done|]. intros t. rewrite elem_of_nil. tauto.
    - assert (containsTaskType acc a = true <-> a ∈ acc) as Hc.
      { unfold containsTaskType. rewrite existsb_exists. setoid_rewrite <- list_elem_of_In. setoid_rewrite bool_decide_eq_true. naive_solver. }
      destruct (containsTaskType acc a).
      + destruct (IH acc Hacc) as [? Hin]. split; [done|]. intros t. rewrite Hin, elem_of_cons. naive_solver.
      + destruct (IH (acc ++ [a])%list) as [? Hin].
        { apply list.NoDup_app. split; [done|]. split; [|apply NoDup_singleton].
          intros x Hx ->%list_elem_of_singleton. naive_solver. }
        split; [done|]. intros t. rewrite Hin, elem_of_app, !elem_of_cons, elem_of_nil. tauto. }
  destruct (H [] (NoDup_nil_2)) as [? Hin]. split; [done|]. intros t. rewrite Hin, elem_of_nil. tauto.
Qed.

(** What a work policy lets an unscoped credential take on by itself. *)
Definition may_engage (policy : WorkPolicy) (target : Task.Task) : Prop :=
  exists allowances, policy = WorkPolicyEnabled allowances /\
    match TaskTypes allowances with
    | AllTaskTypesAllowed => True
    | TaskTypesLimitedTo limited => Task.Type_ target ∈ TaskTypesLimited_Values limited
    end /\
    match Floor allowances with
    | NoRewardFloor => True
    | RewardFloorAtLeast minimum => CreditAmount_Int64 minimum <= creditRewardOf (Task.Reward target)
    end.

Lemma OnlyWorkTaskTypes_Allows_iff values taskType : OnlyWorkTaskTypes_Allows values taskType = true <-> taskType ∈ values.
Proof. unfold OnlyWorkTaskTypes_Allows. rewrite existsb_exists. setoid_rewrite <- list_elem_of_In. setoid_rewrite bool_decide_eq_true. naive_solver. Qed.

Lemma snapshot_checks credential target :
  may_engage (Credential_WorkPolicy credential) target <->
  exists budget, workPolicySnapshot credential = CredentialWorkEnabled budget /\
    checkWorkPolicyAgainstTask budget target = None.
Proof.
  unfold may_engage, workPolicySnapshot. destruct (Credential_WorkPolicy credential) as [|a].
  { split; [intros (? & ? & _)|intros (? & ? & _)]; congruence. }
  transitivity (checkWorkPolicyAgainstTask
    (MkCredentialWorkBudget (DailyTaskBudget_Int64 (MaxTasksPerDay a))
        match ConcurrentReservations a with
        | ConcurrentReservationsCapped limit => ReservationConcurrencyCapAtMost (ConcurrentReservationCap_Int64 limit)
        | ConcurrentReservationsUnlimited => NoReservationConcurrencyCap
        end
        match TaskTypes a with
        | TaskTypesLimitedTo limited => OnlyWorkTaskTypes (TaskTypesLimited_Values limited)
        | AllTaskTypesAllowed => AnyWorkTaskType
        end
        match Floor a with
        | RewardFloorAtLeast minimum => WorkRewardFloorAtLeast (CreditAmount_Int64 minimum)
        | NoRewardFloor => NoWorkRewardFloor
        end) target = None);
    [|split; [intros ?; eexists; by split|by intros (? & [= <-] & ?)]].
  unfold checkWorkPolicyAgainstTask. cbn [Types RewardFloor].
  split.
  - intros (? & [= <-] & Ht & Hf).
    destruct (TaskTypes a) as [|l]; [|apply OnlyWorkTaskTypes_Allows_iff in Ht; rewrite Ht]; cbn [negb];
      (destruct (Floor a) as [|m]; [done|]; destruct (Z.ltb_spec (creditRewardOf (Task.Reward target)) (CreditAmount_Int64 m)); [lia|done]).
  - intros H. exists a. split; [done|]. destruct (TaskTypes a) as [|l].
    + split; [done|]. destruct (Floor a) as [|m]; [done|]. destruct (Z.ltb_spec (creditRewardOf (Task.Reward target)) (CreditAmount_Int64 m)); [done|lia].
    + destruct (OnlyWorkTaskTypes_Allows (TaskTypesLimited_Values l) (Task.Type_ target)) eqn:E; [|done]. cbn [negb] in H.
      split; [by apply OnlyWorkTaskTypes_Allows_iff|].
      destruct (Floor a) as [|m]; [done|]. destruct (Z.ltb_spec (creditRewardOf (Task.Reward target)) (CreditAmount_Int64 m)); [done|lia].
Qed.

(** A credential may establish a reservation exactly when it is no task's own credential
    and its policy admits the task; the reservation then carries its daily budget
    and its concurrency cap. *)
Theorem credential_reserves_within_its_policy credential target :
  (exists origin, reservationOriginFor (TaskWorkerOrigin credential) target = inr origin) <->
  Credential_TaskID credential = None /\ may_engage (Credential_WorkPolicy credential) target.
Proof.
  rewrite snapshot_checks. unfold TaskWorkerOrigin. destruct (Credential_TaskID credential) as [own|].
  - split; [by intros (? & ?)|by intros [? _]].
  - cbn. destruct (workPolicySnapshot credential) as [|budget].
    + split; [by intros (? & ?)|]. by intros (_ & ? & ? & _).
    + destruct (checkWorkPolicyAgainstTask budget target) eqn:E.
      * split; [by intros (? & ?)|]. intros (_ & ? & [= <-] & ?). congruence.
      * split; [|by eexists]. intros _. split; [done|]. by exists budget.
Qed.

End Work.
