(* ===== verification/Database.v ===== *)
(** * The database tables the ledger reads and writes

    A [DB] value is the committed contents of the tables of [migrations/] that
    the ledger store touches, identifiers in their canonical text form as the
    store compares them.  Columns no modelled statement reads
    ([state_recorded_at], [review_recorded_at], ...) are left out.  Every write
    is a function to [StmtError + DB] that checks the constraints the migrations
    declare on the table: primary keys, foreign keys, unique indexes, checks and
    the range of the column type. *)

From S2P Require Import Prelude.
From S2P Require Import Core.
Local Open Scope string_scope.
Local Open Scope Z_scope.

Inductive StmtError := ErrNoRows | ErrUniqueViolation | ErrOther.

(** ** Rows *)

Record AccountRow := MkAccountRow {
  acct_id : string;
  acct_user_id : option string;
  acct_organization_id : option string
}.

Record EntryRow := MkEntryRow {
  entry_id : string;
  entry_account_id : string;
  entry_kind : string;
  entry_amount : Z;
  entry_task_id : option string;
  entry_idempotency_key : option string;
  entry_note : string;
  entry_created_at : Z
}.

Record FundRow := MkFundRow { fund_account_id : string; fund_credit_amount : Z }.

Record TaskRow := MkTaskRow {
  task_state : string;
  task_created_by_user_id : string;
  task_organization_id : option string;
  task_reward_kind : string;
  task_reward_credit_amount : option Z
}.

Record SubmissionRow := MkSubmissionRow {
  sub_task_id : string;
  sub_user_id : option string;
  sub_state : string;
  sub_accepted_idempotency_key : option string;
  sub_changes_idempotency_key : option string;
  sub_review_idempotency_key : option string;
  sub_review_note : string;
  sub_reviewed_by_user_id : option string
}.

Record ReservationRow := MkReservationRow {
  res_task_id : string;
  res_assignee_kind : string;
  res_user_id : option string;
  res_requested_by_user_id : string;
  res_state : string
}.

Record BanRow := MkBanRow { ban_user_id : string; ban_banned_by_user_id : string }.

Record CollectibleRow := MkCollectibleRow {
  col_name : string;
  col_kind : string;
  col_state : string;
  col_transfer_policy : string;
  col_owner_user_id : string;
  col_owner_kind : string;
  col_organization_id : option string;
  col_art : string;
  col_catalog_slug : option string;
  col_edition_number : option Z;
  col_issued_by_user_id : option string
}.

(** A membership with its rows of [organization_membership_roles]. *)
Record MembershipRow := MkMembershipRow {
  mem_organization_id : string;
  mem_user_id : string;
  mem_status : string;
  mem_roles : list string
}.

Record EventRow := MkEventRow {
  ev_seq : Z;
  ev_id : string;
  ev_kind : string;
  ev_actor_kind : string;
  ev_actor_user_id : string;
  ev_task_id : option string;
  ev_submission_id : option string;
  ev_reservation_id : option string;
  ev_series_id : option string;
  ev_organization_id : option string;
  ev_collectible_id : option string;
  ev_metadata_json : string;
  ev_occurred_at : Z;
  ev_dispatch_state : string
}.

#[export] Instance EntryRow_eq_dec : EqDecision EntryRow.
Proof. solve_decision. Defined.

(** ** Tables *)

Record DB := MkDB {
  users : gset string;
  agent_credentials : gset string;
  credit_accounts : list AccountRow;
  organization_memberships : list MembershipRow;
  tasks : gmap string TaskRow;
  ledger_entries : list EntryRow;
  task_funds : gmap string FundRow;
  task_fund_collectibles : gmap string string;   (* collectible -> task *)
  collectibles : gmap string CollectibleRow;
  submissions : gmap string SubmissionRow;
  task_reservations : gmap string ReservationRow;
  task_implementor_bans : gmap (string * string * string) BanRow;
  work_day_counters : gmap (string * string) Z;
  domain_events : list EventRow;
  domain_event_recipients : list (Z * string)
}.

Definition with_tasks (t : gmap string TaskRow) (db : DB) : DB :=
  MkDB (users db) (agent_credentials db) (credit_accounts db) (organization_memberships db) t
    (ledger_entries db) (task_funds db) (task_fund_collectibles db) (collectibles db)
    (submissions db) (task_reservations db) (task_implementor_bans db) (work_day_counters db)
    (domain_events db) (domain_event_recipients db).

Definition with_entries (e : list EntryRow) (db : DB) : DB :=
  MkDB (users db) (agent_credentials db) (credit_accounts db) (organization_memberships db) (tasks db)
    e (task_funds db) (task_fund_collectibles db) (collectibles db)
    (submissions db) (task_reservations db) (task_implementor_bans db) (work_day_counters db)
    (domain_events db) (domain_event_recipients db).

Definition with_funds (f : gmap string FundRow) (db : DB) : DB :=
  MkDB (users db) (agent_credentials db) (credit_accounts db) (organization_memberships db) (tasks db)
    (ledger_entries db) f (task_fund_collectibles db) (collectibles db)
    (submissions db) (task_reservations db) (task_implementor_bans db) (work_day_counters db)
    (domain_events db) (domain_event_recipients db).

Definition with_fund_collectibles (f : gmap string string) (db : DB) : DB :=
  MkDB (users db) (agent_credentials db) (credit_accounts db) (organization_memberships db) (tasks db)
    (ledger_entries db) (task_funds db) f (collectibles db)
    (submissions db) (task_reservations db) (task_implementor_bans db) (work_day_counters db)
    (domain_events db) (domain_event_recipients db).

Definition with_collectibles (c : gmap string CollectibleRow) (db : DB) : DB :=
  MkDB (users db) (agent_credentials db) (credit_accounts db) (organization_memberships db) (tasks db)
    (ledger_entries db) (task_funds db) (task_fund_collectibles db) c
    (submissions db) (task_reservations db) (task_implementor_bans db) (work_day_counters db)
    (domain_events db) (domain_event_recipients db).

Definition with_submissions (s : gmap string SubmissionRow) (db : DB) : DB :=
  MkDB (users db) (agent_credentials db) (credit_accounts db) (organization_memberships db) (tasks db)
    (ledger_entries db) (task_funds db) (task_fund_collectibles db) (collectibles db)
    s (task_reservations db) (task_implementor_bans db) (work_day_counters db)
    (domain_events db) (domain_event_recipients db).

Definition with_reservations (r : gmap string ReservationRow) (db : DB) : DB :=
  MkDB (users db) (agent_credentials db) (credit_accounts db) (organization_memberships db) (tasks db)
    (ledger_entries db) (task_funds db) (task_fund_collectibles db) (collectibles db)
    (submissions db) r (task_implementor_bans db) (work_day_counters db)
    (domain_events db) (domain_event_recipients db).

Definition with_bans (b : gmap (string * string * string) BanRow) (db : DB) : DB :=
  MkDB (users db) (agent_credentials db) (credit_accounts db) (organization_memberships db) (tasks db)
    (ledger_entries db) (task_funds db) (task_fund_collectibles db) (collectibles db)
    (submissions db) (task_reservations db) b (work_day_counters db)
    (domain_events db) (domain_event_recipients db).

Definition with_counters (c : gmap (string * string) Z) (db : DB) : DB :=
  MkDB (users db) (agent_credentials db) (credit_accounts db) (organization_memberships db) (tasks db)
    (ledger_entries db) (task_funds db) (task_fund_collectibles db) (collectibles db)
    (submissions db) (task_reservations db) (task_implementor_bans db) c
    (domain_events db) (domain_event_recipients db).

Definition with_events (e : list EventRow) (r : list (Z * string)) (db : DB) : DB :=
  MkDB (users db) (agent_credentials db) (credit_accounts db) (organization_memberships db) (tasks db)
    (ledger_entries db) (task_funds db) (task_fund_collectibles db) (collectibles db)
    (submissions db) (task_reservations db) (task_implementor_bans db) (work_day_counters db)
    e r.

(** ** Reads *)

Definition first_row {A} (rows : list A) : StmtError + A :=
  match rows with
  | [] => inl ErrNoRows
  | row :: _ => inr row
  end.

Definition accounts_of_user (user : string) (db : DB) : list AccountRow :=
  filter (fun a => acct_user_id a = Some user) (credit_accounts db).

Definition accounts_of_organization (organization : string) (db : DB) : list AccountRow :=
  filter (fun a => acct_organization_id a = Some organization) (credit_accounts db).

Definition entries_of (account : string) (entries : list EntryRow) : list EntryRow :=
  filter (fun e => entry_account_id e = account) entries.

(** [sum(amount) ... where account_id = $1] *)
Definition account_sum (account : string) (entries : list EntryRow) : Z :=
  sum_Z (entry_amount <$> entries_of account entries).

(** A numeric SQL value scanned into an int64. *)
Definition scan_int64 (z : Z) : StmtError + Z :=
  if in_int64 z then inr z else inl ErrOther.

Definition entry_with_key (key account : string) (db : DB) : StmtError + EntryRow :=
  first_row (filter (fun e => entry_idempotency_key e = Some key /\ entry_account_id e = account)
    (ledger_entries db)).

(** ** Constrained writes *)

Definition account_exists (account : string) (db : DB) : bool :=
  existsb (fun a => String.eqb (acct_id a) account) (credit_accounts db).

Definition ledger_entries_kinds : list string :=
  [ "signup_grant"; "task_fund"; "task_refund"; "task_payout"; "task_tip";
    "manual_adjustment"; "peer_transfer" ].

Definition same_key (row e : EntryRow) : Prop :=
  is_Some (entry_idempotency_key row) /\ entry_account_id e = entry_account_id row /\
  entry_idempotency_key e = entry_idempotency_key row.

#[export] Instance same_key_dec row e : Decision (same_key row e).
Proof. unfold same_key. apply _. Defined.

(** [insert into ledger_entries]: [ledger_entries_kind_check],
    [ledger_entries_amount_nonzero_check], the two foreign keys, the primary key
    and [ledger_entries_account_idempotency_uidx]. *)
Definition insert_ledger_entry (row : EntryRow) (db : DB) : StmtError + DB :=
  if negb (bool_decide (entry_kind row ∈ ledger_entries_kinds)) then inl ErrOther
  else if entry_amount row =? 0 then inl ErrOther
  else if negb (in_int64 (entry_amount row)) then inl ErrOther
  else if negb (account_exists (entry_account_id row) db) then inl ErrOther
  else if negb (match entry_task_id row with
                | None => true
                | Some task => bool_decide (is_Some (tasks db !! task))
                end) then inl ErrOther
  else if bool_decide (Exists (fun e => entry_id e = entry_id row) (ledger_entries db)) then inl ErrUniqueViolation
  else if bool_decide (Exists (same_key row) (ledger_entries db)) then inl ErrUniqueViolation
  else inr (with_entries (row :: ledger_entries db) db).

Definition insert_task_fund (task account : string) (amount : Z) (db : DB) : StmtError + DB :=
  if negb (bool_decide (is_Some (tasks db !! task))) then inl ErrOther
  else if negb (account_exists account db) then inl ErrOther
  else if amount <=? 0 then inl ErrOther
  else if negb (in_int64 amount) then inl ErrOther
  else if bool_decide (is_Some (task_funds db !! task)) then inl ErrUniqueViolation
  else inr (with_funds (<[task := MkFundRow account amount]> (task_funds db)) db).

Definition delete_task_fund (task : string) (db : DB) : StmtError + DB :=
  inr (with_funds (delete task (task_funds db)) db).

Definition update_task_fund (task : string) (amount : Z) (db : DB) : StmtError + DB :=
  match task_funds db !! task with
  | None => inr db
  | Some fund =>
      if amount <=? 0 then inl ErrOther
      else inr (with_funds (<[task := MkFundRow (fund_account_id fund) amount]> (task_funds db)) db)
  end.

Definition task_states : list string := [ "draft"; "open"; "closed"; "cancelled"; "expired" ].

Definition update_task_state (task state : string) (db : DB) : StmtError + DB :=
  match tasks db !! task with
  | None => inr db
  | Some row =>
      if negb (bool_decide (state ∈ task_states)) then inl ErrOther
      else inr (with_tasks (<[task := MkTaskRow state (task_created_by_user_id row)
             (task_organization_id row) (task_reward_kind row) (task_reward_credit_amount row)]> (tasks db)) db)
  end.

(** [tasks_reward_check]; [reward_credit_amount] is an [integer] column. *)
Definition tasks_reward_check (kind : string) (amount : option Z) : bool :=
  match amount with
  | None => bool_decide (kind = "none" \/ kind = "collectible")
  | Some amount => bool_decide (kind = "credit" \/ kind = "bundle") && (0 <? amount)
  end.

Definition update_task_reward (kind : string) (amount : Z) (task : string) (db : DB) : StmtError + DB :=
  match tasks db !! task with
  | None => inr db
  | Some row =>
      if negb (in_int32 amount) then inl ErrOther
      else if negb (tasks_reward_check kind (Some amount)) then inl ErrOther
      else inr (with_tasks (<[task := MkTaskRow (task_state row) (task_created_by_user_id row)
             (task_organization_id row) kind (Some amount)]> (tasks db)) db)
  end.

(** [submissions_single_accepted_idx] *)
Definition other_accepted (submission task : string) (db : DB) : Prop :=
  map_Exists (fun id row => id <> submission /\ sub_task_id row = task /\ sub_state row = "accepted")
    (submissions db).

#[export] Instance other_accepted_dec submission task db : Decision (other_accepted submission task db).
Proof. unfold other_accepted. apply _. Defined.

Definition update_submission_accepted (submission key : string) (db : DB) : StmtError + DB :=
  match submissions db !! submission with
  | None => inr db
  | Some row =>
      if bool_decide (other_accepted submission (sub_task_id row) db) then inl ErrUniqueViolation
      else inr (with_submissions (<[submission := MkSubmissionRow (sub_task_id row) (sub_user_id row)
             "accepted" (Some key) (sub_changes_idempotency_key row) (sub_review_idempotency_key row)
             (sub_review_note row) (sub_reviewed_by_user_id row)]> (submissions db)) db)
  end.

(** The nullable foreign key [reviewed_by_user_id]. *)
Definition user_reference_ok (user : option string) (db : DB) : bool :=
  match user with
  | None => true
  | Some user => bool_decide (user ∈ users db)
  end.

Definition update_submission_changes_requested (submission note : string) (reviewer : option string)
    (key : string) (db : DB) : StmtError + DB :=
  match submissions db !! submission with
  | None => inr db
  | Some row =>
      if negb (user_reference_ok reviewer db) then inl ErrOther
      else inr (with_submissions (<[submission := MkSubmissionRow (sub_task_id row) (sub_user_id row)
             "changes_requested" (sub_accepted_idempotency_key row) (Some key) (sub_review_idempotency_key row)
             note reviewer]> (submissions db)) db)
  end.

Definition update_submission_rejected (submission note : string) (reviewer : option string)
    (key : string) (db : DB) : StmtError + DB :=
  match submissions db !! submission with
  | None => inr db
  | Some row =>
      if negb (user_reference_ok reviewer db) then inl ErrOther
      else inr (with_submissions (<[submission := MkSubmissionRow (sub_task_id row) (sub_user_id row)
             "rejected" (sub_accepted_idempotency_key row) (sub_changes_idempotency_key row) (Some key)
             note reviewer]> (submissions db)) db)
  end.

Definition set_sub_state (state : string) (row : SubmissionRow) : SubmissionRow :=
  MkSubmissionRow (sub_task_id row) (sub_user_id row) state (sub_accepted_idempotency_key row)
    (sub_changes_idempotency_key row) (sub_review_idempotency_key row) (sub_review_note row)
    (sub_reviewed_by_user_id row).

(** The [where] clause of [supersedeCompetingSubmissions]. *)
Definition competing (task accepted : string) (kv : string * SubmissionRow) : Prop :=
  sub_task_id kv.2 = task /\ kv.1 <> accepted /\ sub_state kv.2 = "submitted".

#[export] Instance competing_dec task accepted kv : Decision (competing task accepted kv).
Proof. unfold competing. apply _. Defined.

(** [update submissions set state = 'superseded' ... returning id, user_id] *)
Definition supersede_submissions (task accepted : string) (db : DB) :
    list (string * SubmissionRow) * DB :=
  let rows := filter (competing task accepted) (map_to_list (submissions db)) in
  (rows, with_submissions
     (map_imap (fun id row => Some (if decide (competing task accepted (id, row))
        then set_sub_state "superseded" row else row)) (submissions db)) db).

Definition set_res_state (state : string) (row : ReservationRow) : ReservationRow :=
  MkReservationRow (res_task_id row) (res_assignee_kind row) (res_user_id row)
    (res_requested_by_user_id row) state.

(** [task_reservations_one_active_idx] *)
Definition one_active (reservations : gmap string ReservationRow) : Prop :=
  map_Forall (fun i a => map_Forall (fun j b =>
      res_state a = "active" -> res_state b = "active" -> res_task_id a = res_task_id b -> i = j)
    reservations) reservations.

#[export] Instance one_active_dec reservations : Decision (one_active reservations).
Proof. unfold one_active. apply _. Defined.

(** [update task_reservations set state = $2 where <matching>] *)
Definition update_reservations (matching : ReservationRow -> bool) (state : string) (db : DB) : StmtError + DB :=
  let updated := (fun row => if matching row then set_res_state state row else row) <$> task_reservations db in
  if String.eqb state "active" && negb (bool_decide (one_active updated)) then inl ErrUniqueViolation
  else inr (with_reservations updated db).

(** [insert into task_implementor_bans ... on conflict do nothing] *)
Definition insert_ban (task user banned_by : string) (db : DB) : StmtError + DB :=
  match task_implementor_bans db !! (task, "user", user) with
  | Some _ => inr db
  | None =>
      if negb (bool_decide (is_Some (tasks db !! task))) then inl ErrOther
      else if negb (bool_decide (user ∈ users db)) then inl ErrOther
      else if negb (bool_decide (banned_by ∈ users db)) then inl ErrOther
      else inr (with_bans (<[(task, "user", user) := MkBanRow user banned_by]> (task_implementor_bans db)) db)
  end.

Definition set_col_state (state : string) (row : CollectibleRow) : CollectibleRow :=
  MkCollectibleRow (col_name row) (col_kind row) state (col_transfer_policy row) (col_owner_user_id row)
    (col_owner_kind row) (col_organization_id row) (col_art row) (col_catalog_slug row)
    (col_edition_number row) (col_issued_by_user_id row).

Definition set_col_owner (owner : string) (row : CollectibleRow) : CollectibleRow :=
  MkCollectibleRow (col_name row) (col_kind row) (col_state row) (col_transfer_policy row) owner
    "user" (col_organization_id row) (col_art row) (col_catalog_slug row)
    (col_edition_number row) (col_issued_by_user_id row).

(** [update collectibles ... where id = $1] *)
Definition update_collectible (f : CollectibleRow -> CollectibleRow) (collectible : string) (db : DB) : StmtError + DB :=
  inr (with_collectibles (alter f collectible (collectibles db)) db).

Definition delete_fund_collectibles (task : string) (db : DB) : StmtError + DB :=
  inr (with_fund_collectibles (filter (fun kv => kv.2 <> task) (task_fund_collectibles db)) db).

(** [insert into work_day_counters ... on conflict do update ... returning used]:
    the counter column is a [bigint]. *)
Definition bump_counter (key day : string) (amount : Z) (db : DB) : StmtError + (Z * DB) :=
  let used := default 0 (work_day_counters db !! (key, day)) + amount in
  if in_int64 used then inr (used, with_counters (<[(key, day) := used]> (work_day_counters db)) db)
  else inl ErrOther.

Definition insert_event (row : EventRow) (db : DB) : StmtError + DB :=
  if negb (bool_decide (ev_actor_user_id row ∈ users db)) then inl ErrOther
  else if bool_decide (Exists (fun e => ev_seq e = ev_seq row \/ ev_id e = ev_id row) (domain_events db))
  then inl ErrUniqueViolation
  else inr (with_events (row :: domain_events db) (domain_event_recipients db) db).

Definition insert_event_recipient (seq : Z) (user : string) (db : DB) : StmtError + DB :=
  if negb (bool_decide (user ∈ users db)) then inl ErrOther
  else if bool_decide ((seq, user) ∈ domain_event_recipients db) then inl ErrUniqueViolation
  else inr (with_events (domain_events db) ((seq, user) :: domain_event_recipients db) db).
