(* ===== verification/Tx.v ===== *)
(** * Transactions: the effect monad of the store

    A store operation is a state-passing computation over one open transaction.
    Every statement the source sends consumes one step, and the environment
    decides which steps fail, so a theorem that quantifies over the environment
    holds under every schedule of database faults.  [st_base] is what is committed
    and [st_db] what the open transaction sees: [Commit] copies the second over the
    first, and the deferred [Rollback] of an operation that returns without a
    commit drops it.  The row locks ([for update]) of the source serialise
    conflicting transactions, so operations run one after another here. *)

From S2P Require Import Prelude.
From S2P Require Import Core.
From S2P Require Import Events.
From S2P Require Import LedgerValues.
From S2P Require Import Database.

Local Open Scope string_scope.
Local Open Scope Z_scope.

Record Env := MkEnv {
  env_fails : nat -> bool;              (* does the statement of this step fail? *)
  env_day : nat -> string;              (* the UTC day of [time.Now()] *)
  env_now : nat -> Z;                   (* [time.Now()] *)
  env_tx_now : Z;                       (* the transaction's [now()] *)
  env_seq : nat -> Z;                   (* [nextval] of the event sequence *)
  env_event_id : nat -> TypedIDResult KDomainEvent;  (* [core.NewDomainEventID()] *)
  env_notification_id : nat -> TypedIDResult KNotification;
  env_delivery_id : nat -> TypedIDResult KWebhookDelivery
}.

(** The effect is the same over every database [S]: the ledger's tables [DB]
    here, the tables of event delivery in [Delivery.v]. *)
Record TxStateOf (S : Type) := MkTxState { st_base : S; st_db : S; st_step : nat }.
#[global] Arguments MkTxState {S} _ _ _.
#[global] Arguments st_base {S} _.
#[global] Arguments st_db {S} _.
#[global] Arguments st_step {S} _.

Definition MOf (S A : Type) : Type := Env -> TxStateOf S -> A * TxStateOf S.

#[export] Instance M_ret {S} : MRet (MOf S) := fun A a _ st => (a, st).
#[export] Instance M_bind {S} : MBind (MOf S) := fun A B k m env st => let '(a, st') := m env st in k a env st'.

Notation TxState := (TxStateOf DB).
Notation M := (MOf DB).

Section Statements.
Context {DB : Type}.
Local Notation TxState := (TxStateOf DB).
Local Notation M := (MOf DB).

(** ** Statements *)

Definition tick (st : TxState) : TxState := MkTxState (st_base st) (st_db st) (S (st_step st)).

(** One SQL statement: it may fault, else it reads or changes the transaction's view. *)
Definition stmt {A} (f : DB -> StmtError + (A * DB)) : M (StmtError + A) := fun env st =>
  if env_fails env (st_step st) then (inl ErrOther, tick st)
  else match f (st_db st) with
       | inl err => (inl err, tick st)
       | inr (a, db') => (inr a, MkTxState (st_base st) db' (S (st_step st)))
       end.

(** [tx.QueryRow(...).Scan(...)] of a query that changes nothing. *)
Definition query_row {A} (f : DB -> StmtError + A) : M (StmtError + A) :=
  stmt (fun db => match f db with inl err => inl err | inr a => inr (a, db) end).

(** [tx.Query(...)], the rows being read by a loop. *)
Definition query_rows {A} (f : DB -> list A) : M (StmtError + list A) :=
  query_row (fun db => inr (f db)).

(** [tx.Exec(...)]: the error, or [None] for the nil of the source. *)
Definition exec (f : DB -> StmtError + DB) : M (option StmtError) :=
  result ← stmt (fun db => match f db with inl err => inl err | inr db' => inr (tt, db') end);
  mret (match result with inl err => Some err | inr _ => None end).

(** [rows.Scan] and [rows.Err]: points that may fail without touching data. *)
Definition fault_point : M bool := fun env st => (env_fails env (st_step st), tick st).

(** [tx.Begin] and [tx.Commit]. *)
Definition begin_tx : M (option StmtError) := fun env st =>
  if env_fails env (st_step st) then (Some ErrOther, tick st)
  else (None, MkTxState (st_base st) (st_base st) (S (st_step st))).

Definition commit_tx : M (option StmtError) := fun env st =>
  if env_fails env (st_step st) then (Some ErrOther, tick st)
  else (None, MkTxState (st_db st) (st_db st) (S (st_step st))).

(** A statement on the pool, outside the open transaction, its error ignored. *)
Definition exec_outside (f : DB -> StmtError + DB) : M unit := fun env st =>
  if env_fails env (st_step st) then (tt, tick st)
  else match f (st_base st) with
       | inl _ => (tt, tick st)
       | inr base' => (tt, MkTxState base' (st_db st) (S (st_step st)))
       end.

(** A statement on the pool that is its own transaction, and a read of the pool. *)
Definition autocommit {A} (f : DB -> StmtError + (A * DB)) : M (StmtError + A) := fun env st =>
  if env_fails env (st_step st) then (inl ErrOther, tick st)
  else match f (st_base st) with
       | inl err => (inl err, tick st)
       | inr (a, base') => (inr a, MkTxState base' (st_db st) (S (st_step st)))
       end.

Definition pool_query {A} (f : DB -> StmtError + A) : M (StmtError + A) :=
  autocommit (fun db => match f db with inl err => inl err | inr a => inr (a, db) end).

(** ** Clock, sequence and identifiers *)

Definition current_day : M string := fun env st => (env_day env (st_step st), st).
Definition current_time : M Z := fun env st => (env_now env (st_step st), st).
Definition transaction_time : M Z := fun env st => (env_tx_now env, st).
Definition next_sequence : M Z := fun env st => (env_seq env (st_step st), st).
Definition NewDomainEventID : M (TypedIDResult KDomainEvent) := fun env st =>
  (env_event_id env (st_step st), tick st).

(** [core.NewNotificationID()], [core.NewWebhookDeliveryID()] *)
Definition NewNotificationID : M (TypedIDResult KNotification) := fun env st =>
  (env_notification_id env (st_step st), tick st).
Definition NewWebhookDeliveryID : M (TypedIDResult KWebhookDelivery) := fun env st =>
  (env_delivery_id env (st_step st), tick st).

(** ** Running an operation: what it returns and what it leaves committed *)

Definition run {A} (env : Env) (db : DB) (m : M A) : A * DB :=
  let '(a, st) := m env (MkTxState db db 0) in (a, st_base st).

(** ** Weakest preconditions *)

Definition wp {A} (env : Env) (m : M A) (Q : A -> TxState -> Prop) (st : TxState) : Prop :=
  let '(a, st') := m env st in Q a st'.

End Statements.

#[global] Arguments wp : simpl never.
#[global] Arguments mret : simpl never.
#[global] Arguments mbind : simpl never.

Section WP.
Context {DB : Type} {env : Env}.
Local Notation TxState := (TxStateOf DB).
Local Notation M := (MOf DB).
Implicit Types (st : TxState).

Lemma wp_ret {A} (a : A) Q st : Q a st -> wp env (mret a) Q st.
Proof. done. Qed.

Lemma wp_bind {A B} (m : M A) (k : A -> M B) Q st :
  wp env m (fun a st' => wp env (k a) Q st') st -> wp env (mbind k m) Q st.
Proof. unfold wp, mbind, M_bind. by destruct (m env st). Qed.

Lemma wp_mono {A} (m : M A) (P Q : A -> TxState -> Prop) st :
  wp env m P st -> (forall a st', P a st' -> Q a st') -> wp env m Q st.
Proof. unfold wp. destruct (m env st). auto. Qed.

Lemma wp_run {A} (m : M A) (Q : A -> TxState -> Prop) db :
  wp env m Q (MkTxState db db 0) ->
  exists st, Q (fst (run env db m)) st /\ snd (run env db m) = st_base st.
Proof. unfold wp, run. destruct (m env _) as [a st]. intros H. by exists st. Qed.

(** What holds of the answer and the database a run ends with. *)
Lemma run_ends {A} db (m : M A) (P : A -> DB -> Prop) :
  wp env m (fun a st => P a (st_base st)) (MkTxState db db 0) -> P (fst (run env db m)) (snd (run env db m)).
Proof. intros (st & Hst & Hb)%wp_run. by rewrite Hb. Qed.

Lemma wp_stmt {A} (f : DB -> StmtError + (A * DB)) Q st :
  Q (inl ErrOther) (tick st) ->
  match f (st_db st) with
  | inl err => Q (inl err) (tick st)
  | inr (a, db') => Q (inr a) (MkTxState (st_base st) db' (S (st_step st)))
  end ->
  wp env (stmt f) Q st.
Proof.
  intros Hf Hs. unfold wp, stmt. destruct (env_fails env (st_step st)); [done|].
  by destruct (f (st_db st)) as [|[]].
Qed.

Lemma wp_query_row {A} (f : DB -> StmtError + A) Q st :
  Q (inl ErrOther) (tick st) -> Q (f (st_db st)) (tick st) -> wp env (query_row f) Q st.
Proof. intros Hf Hs. apply wp_stmt; [done|]. by destruct (f (st_db st)). Qed.

Lemma wp_query_rows {A} (f : DB -> list A) Q st :
  Q (inl ErrOther) (tick st) -> Q (inr (f (st_db st))) (tick st) -> wp env (query_rows f) Q st.
Proof. exact (wp_query_row _ Q st). Qed.

Lemma wp_exec f Q st :
  Q (Some ErrOther) (tick st) ->
  match f (st_db st) with
  | inl err => Q (Some err) (tick st)
  | inr db' => Q None (MkTxState (st_base st) db' (S (st_step st)))
  end ->
  wp env (exec f) Q st.
Proof. intros Hf Hs. apply wp_bind, wp_stmt; [done|]. by destruct (f (st_db st)). Qed.

Lemma wp_fault_point Q st : (forall b, Q b (tick st)) -> wp env fault_point Q st.
Proof. intros H. apply H. Qed.

Lemma wp_begin Q st :
  Q (Some ErrOther) (tick st) ->
  Q None (MkTxState (st_base st) (st_base st) (S (st_step st))) -> wp env begin_tx Q st.
Proof. unfold wp, begin_tx. by destruct (env_fails _ _). Qed.

Lemma wp_commit Q st :
  Q (Some ErrOther) (tick st) ->
  Q None (MkTxState (st_db st) (st_db st) (S (st_step st))) -> wp env commit_tx Q st.
Proof. unfold wp, commit_tx. by destruct (env_fails _ _). Qed.

Lemma wp_exec_outside f Q st :
  Q tt (tick st) ->
  (forall base', f (st_base st) = inr base' -> Q tt (MkTxState base' (st_db st) (S (st_step st)))) ->
  wp env (exec_outside f) Q st.
Proof.
  unfold wp, exec_outside. intros Hf Hs. destruct (env_fails _ _); [done|].
  destruct (f (st_base st)); [done|]. by apply Hs.
Qed.

Lemma wp_current_day Q st : (forall day, Q day st) -> wp env current_day Q st.
Proof. intros H. apply H. Qed.

Lemma wp_current_time Q st : (forall t, Q t st) -> wp env current_time Q st.
Proof. intros H. apply H. Qed.

Lemma wp_transaction_time Q st : (forall t, Q t st) -> wp env transaction_time Q st.
Proof. intros H. apply H. Qed.

Lemma wp_next_sequence Q st : (forall s, Q s st) -> wp env next_sequence Q st.
Proof. intros H. apply H. Qed.

Lemma wp_new_event_id Q st : (forall r, Q r (tick st)) -> wp env NewDomainEventID Q st.
Proof. intros H. apply H. Qed.

Lemma wp_autocommit {A} (f : DB -> StmtError + (A * DB)) Q st :
  Q (inl ErrOther) (tick st) ->
  match f (st_base st) with
  | inl err => Q (inl err) (tick st)
  | inr (a, base') => Q (inr a) (MkTxState base' (st_db st) (S (st_step st)))
  end ->
  wp env (autocommit f) Q st.
Proof.
  intros Hf Hs. unfold wp, autocommit. destruct (env_fails env (st_step st)); [done|].
  by destruct (f (st_base st)) as [|[]].
Qed.

Lemma wp_pool_query {A} (f : DB -> StmtError + A) Q st :
  Q (inl ErrOther) (tick st) -> Q (f (st_base st)) (tick st) -> wp env (pool_query f) Q st.
Proof. intros Hf Hs. apply wp_autocommit; [done|]. by destruct (f (st_base st)). Qed.

(** The same, keeping whether the statement failed. *)
Lemma wp_fault_point_at Q st : Q (env_fails env (st_step st)) (tick st) -> wp env fault_point Q st.
Proof. done. Qed.

Lemma wp_autocommit_at {A} (f : DB -> StmtError + (A * DB)) Q st :
  (env_fails env (st_step st) = true -> Q (inl ErrOther) (tick st)) ->
  (env_fails env (st_step st) = false ->
    match f (st_base st) with
    | inl err => Q (inl err) (tick st)
    | inr (a, base') => Q (inr a) (MkTxState base' (st_db st) (S (st_step st)))
    end) ->
  wp env (autocommit f) Q st.
Proof.
  intros Hf Hs. unfold wp, autocommit. destruct (env_fails env (st_step st)); [by apply Hf|].
  specialize (Hs eq_refl). by destruct (f (st_base st)) as [|[]].
Qed.

Lemma wp_pool_query_at {A} (f : DB -> StmtError + A) Q st :
  (env_fails env (st_step st) = true -> Q (inl ErrOther) (tick st)) ->
  (env_fails env (st_step st) = false -> Q (f (st_base st)) (tick st)) -> wp env (pool_query f) Q st.
Proof. intros Hf Hs. apply wp_autocommit_at; [done|]. intros E. specialize (Hs E). by destruct (f (st_base st)). Qed.

Lemma wp_new_notification_id Q st : (forall r, Q r (tick st)) -> wp env NewNotificationID Q st.
Proof. intros H. apply H. Qed.

Lemma wp_new_delivery_id Q st : (forall r, Q r (tick st)) -> wp env NewWebhookDeliveryID Q st.
Proof. intros H. apply H. Qed.
End WP.

(** ** Early returns *)

(** [if err := m; err != nil { return f(err) }], and the same of a result that carries
    a value. *)
Definition check {S E R} (m : MOf S (option E)) (f : E -> R) (k : MOf S R) : MOf S R :=
  result ← m;
  match result with Some err => mret (f err) | None => k end.

Definition attempt {S E A R} (m : MOf S (E + A)) (f : E -> R) (k : A -> MOf S R) : MOf S R :=
  result ← m;
  match result with inl err => mret (f err) | inr a => k a end.

Notation "'let*' x := m 'else' f 'in' k" := (attempt m f (fun x => k))
  (at level 200, x name, m at level 200, f at level 200, k at level 200).
Notation "'let*' ' p := m 'else' f 'in' k" := (attempt m f (fun p => k))
  (at level 200, p strict pattern, m at level 200, f at level 200, k at level 200).
Notation "'do*' m 'else' f 'in' k" := (check m f k)
  (at level 200, m at level 200, f at level 200, k at level 200).

Section EarlyReturns.
Context {S : Type} {env : Env}.

Lemma wp_check {E R} (m : MOf S (option E)) (f : E -> R) k Q st :
  wp env m (fun r st' => match r with Some err => Q (f err) st' | None => wp env k Q st' end) st ->
  wp env (check m f k) Q st.
Proof. intros H. apply wp_bind. eapply wp_mono; [exact H|]. intros [err|] st' Hr; [by apply wp_ret|done]. Qed.

Lemma wp_attempt {E A R} (m : MOf S (E + A)) (f : E -> R) k Q st :
  wp env m (fun r st' => match r with inl err => Q (f err) st' | inr a => wp env (k a) Q st' end) st ->
  wp env (attempt m f k) Q st.
Proof. intros H. apply wp_bind. eapply wp_mono; [exact H|]. intros [err|a] st' Hr; [by apply wp_ret|done]. Qed.

End EarlyReturns.

(** ** Running without faults *)

Definition no_faults (env : Env) : Prop := forall n, env_fails env n = false.

Section NoFaults.
Context {DB : Type} {env : Env} (Hok : no_faults env).
Local Notation TxState := (TxStateOf DB).
Implicit Types (st : TxState).

Lemma wp_query_row_ok {A} (f : DB -> StmtError + A) Q st :
  Q (f (st_db st)) (tick st) -> wp env (query_row f) Q st.
Proof using Hok.
  intros HQ. unfold wp, query_row, stmt. rewrite Hok. by destruct (f (st_db st)).
Qed.

Lemma wp_query_rows_ok {A} (f : DB -> list A) Q st :
  Q (inr (f (st_db st))) (tick st) -> wp env (query_rows f) Q st.
Proof using Hok. intros HQ. by apply wp_query_row_ok. Qed.

Lemma wp_fault_point_ok Q st : Q false (tick st) -> wp env fault_point Q st.
Proof using Hok. unfold wp, fault_point. by rewrite Hok. Qed.

Lemma wp_begin_ok Q st :
  Q None (MkTxState (st_base st) (st_base st) (S (st_step st))) -> wp env begin_tx Q st.
Proof using Hok. unfold wp, begin_tx. by rewrite Hok. Qed.

Lemma wp_commit_ok Q st :
  Q None (MkTxState (st_db st) (st_db st) (S (st_step st))) -> wp env commit_tx Q st.
Proof using Hok. unfold wp, commit_tx. by rewrite Hok. Qed.

Lemma wp_exec_ok (f : DB -> StmtError + DB) Q st :
  match f (st_db st) with
  | inl err => Q (Some err) (tick st)
  | inr db' => Q None (MkTxState (st_base st) db' (S (st_step st)))
  end ->
  wp env (exec f) Q st.
Proof using Hok.
  intros Hs. apply wp_bind. unfold wp, stmt. rewrite Hok. by destruct (f (st_db st)).
Qed.

Lemma wp_autocommit_ok {A} (f : DB -> StmtError + (A * DB)) Q st :
  match f (st_base st) with
  | inl err => Q (inl err) (tick st)
  | inr (a, base') => Q (inr a) (MkTxState base' (st_db st) (S (st_step st)))
  end ->
  wp env (autocommit f) Q st.
Proof using Hok.
  intros Hs. unfold wp, autocommit. rewrite Hok. by destruct (f (st_base st)) as [|[]].
Qed.

Lemma wp_pool_query_ok {A} (f : DB -> StmtError + A) Q st :
  Q (f (st_base st)) (tick st) -> wp env (pool_query f) Q st.
Proof using Hok. intros Hs. apply wp_autocommit_ok. by destruct (f (st_base st)). Qed.
End NoFaults.

(** ** Steps only go forward *)

Definition forward {S A} (m : MOf S A) : Prop := forall env st, (st_step st <= st_step (snd (m env st)))%nat.

(** The steps a run takes. *)
Definition steps {S A} (env : Env) (db : S) (m : MOf S A) : nat := st_step (snd (m env (MkTxState db db 0))).

Section Forward.
Context {S : Type}.

Lemma forward_ret {A} (a : A) : forward (S:=S) (mret a).
Proof. intros env st. done. Qed.

Lemma forward_bind {A B} (m : MOf S A) (k : A -> MOf S B) : forward m -> (forall a, forward (k a)) -> forward (mbind k m).
Proof.
  intros Hm Hk env st. unfold mbind, M_bind. specialize (Hm env st). destruct (m env st) as [a st1]. cbn in Hm.
  specialize (Hk a env st1). lia.
Qed.

Lemma forward_stmt {A} (f : S -> StmtError + (A * S)) : forward (stmt f).
Proof. intros env st. unfold stmt. destruct (env_fails _ _); [cbn; lia|]. destruct (f _) as [|[]]; cbn; lia. Qed.

Lemma forward_autocommit {A} (f : S -> StmtError + (A * S)) : forward (autocommit f).
Proof. intros env st. unfold autocommit. destruct (env_fails _ _); [cbn; lia|]. destruct (f _) as [|[]]; cbn; lia. Qed.

Lemma forward_query_row {A} (f : S -> StmtError + A) : forward (query_row f).
Proof. apply forward_stmt. Qed.

Lemma forward_query_rows {A} (f : S -> list A) : forward (query_rows f).
Proof. apply forward_query_row. Qed.

Lemma forward_pool_query {A} (f : S -> StmtError + A) : forward (pool_query f).
Proof. apply forward_autocommit. Qed.

Lemma forward_exec (f : S -> StmtError + S) : forward (exec f).
Proof. apply forward_bind; [apply forward_stmt|]. intros a. apply forward_ret. Qed.

Lemma forward_fault_point : forward (S:=S) fault_point.
Proof. intros env st. cbn. lia. Qed.

Lemma forward_begin : forward (S:=S) begin_tx.
Proof. intros env st. unfold begin_tx. destruct (env_fails _ _); cbn; lia. Qed.

Lemma forward_commit : forward (S:=S) commit_tx.
Proof. intros env st. unfold commit_tx. destruct (env_fails _ _); cbn; lia. Qed.

Lemma forward_current_time : forward (S:=S) current_time.
Proof. intros env st. done. Qed.

Lemma forward_transaction_time : forward (S:=S) transaction_time.
Proof. intros env st. done. Qed.

Lemma forward_next_sequence : forward (S:=S) next_sequence.
Proof. intros env st. done. Qed.

Lemma forward_notification_id : forward (S:=S) NewNotificationID.
Proof. intros env st. cbn. lia. Qed.

Lemma forward_delivery_id : forward (S:=S) NewWebhookDeliveryID.
Proof. intros env st. cbn. lia. Qed.

(** A computation that has gone past [horizon] owes nothing more. *)
Lemma wp_late {A} env (m : MOf S A) (horizon : nat) (Q : A -> TxStateOf S -> Prop) st :
  forward m -> (horizon < st_step st)%nat -> wp env m (fun a st' => (st_step st' <= horizon)%nat -> Q a st') st.
Proof. intros Hm Hlt. unfold wp. specialize (Hm env st). destruct (m env st) as [a st']. cbn in Hm. lia. Qed.

Lemma wp_within_bind {A B} env (m : MOf S A) (k : A -> MOf S B) (horizon : nat) P Q st :
  wp env m (fun a st1 => (st_step st1 <= horizon)%nat -> P a st1) st -> (forall a, forward (k a)) ->
  (forall a st1, (st_step st1 <= horizon)%nat -> P a st1 ->
     wp env (k a) (fun b st2 => (st_step st2 <= horizon)%nat -> Q b st2) st1) ->
  wp env (mbind k m) (fun b st2 => (st_step st2 <= horizon)%nat -> Q b st2) st.
Proof.
  intros Hm Hf Hk. apply wp_bind. eapply wp_mono; [exact Hm|]. cbn. intros a st1 HP.
  destruct (decide (st_step st1 <= horizon)%nat); [by apply Hk; auto|]. apply wp_late; [done|lia].
Qed.
Lemma forward_check {E R} (m : MOf S (option E)) (f : E -> R) k : forward m -> forward k -> forward (S:=S) (check m f k).
Proof. intros Hm Hk. apply forward_bind; [done|]. intros [|]; [apply forward_ret|done]. Qed.

Lemma forward_attempt {E A R} (m : MOf S (E + A)) (f : E -> R) k : forward m -> (forall a, forward (k a)) -> forward (attempt m f k).
Proof. intros Hm Hk. apply forward_bind; [done|]. intros [|]; [apply forward_ret|auto]. Qed.
End Forward.

Create HintDb forward.
#[export] Hint Resolve forward_ret forward_stmt forward_autocommit forward_query_row forward_query_rows
  forward_pool_query forward_exec forward_fault_point forward_begin forward_commit forward_current_time forward_transaction_time
  forward_next_sequence forward_notification_id forward_delivery_id : forward.

Ltac forward_go :=
  repeat first
    [ progress cbv zeta
    | lazymatch goal with |- forward (mbind _ _) => apply forward_bind; [|intros ?] end
    | lazymatch goal with |- forward (check _ _ _) => apply forward_check | |- forward (attempt _ _ _) => apply forward_attempt; [|intros ?] end
    | solve [eauto with forward]
    | progress case_match ].

(** [wp_step] runs the next primitive of the goal, [wp_go] all of them. *)
Ltac wp_prim :=
  lazymatch goal with
  | |- wp _ (mret _) _ _ => apply wp_ret
  | |- wp _ (mbind _ _) _ _ => apply wp_bind
  | |- wp _ (query_row _) _ _ => apply wp_query_row
  | |- wp _ (query_rows _) _ _ => apply wp_query_rows
  | |- wp _ (exec _) _ _ => apply wp_exec
  | |- wp _ fault_point _ _ => apply wp_fault_point; intros []
  | |- wp _ begin_tx _ _ => apply wp_begin
  | |- wp _ commit_tx _ _ => apply wp_commit
  | |- wp _ current_day _ _ => apply wp_current_day; intros ?
  | |- wp _ current_time _ _ => apply wp_current_time; intros ?
  | |- wp _ transaction_time _ _ => apply wp_transaction_time; intros ?
  | |- wp _ next_sequence _ _ => apply wp_next_sequence; intros ?
  | |- wp _ NewDomainEventID _ _ => apply wp_new_event_id; intros ?
  | |- wp _ (pool_query _) _ _ => apply wp_pool_query
  | |- wp _ NewNotificationID _ _ => apply wp_new_notification_id; intros ?
  | |- wp _ NewWebhookDeliveryID _ _ => apply wp_new_delivery_id; intros ?
  end.

(** Use a proved specification of a sub-computation. *)
Ltac wp_use spec := eapply wp_mono; [solve [eapply spec; eauto] |]; cbn beta.

(** * Row loops of the pool

    The loop of the stores over the rows of a query that changes nothing:
    [for rows.Next()] scans a row, parses it and appends the value, and [rows.Err]
    ends it.  The scan and the end may fail. *)

Section Rows.
Context {S Row V : Type}.

Fixpoint scan_rows (scan_failed : DomainError) (parse : Row -> DomainError + V) (rows : list Row) : MOf S (DomainError + list V) :=
  match rows with
  | [] => mret (inr [])
  | row :: rows =>
      failed ← fault_point;
      if failed : bool then mret (inl scan_failed)
      else match parse row with
           | inl reason => mret (inl reason)
           | inr value =>
               rest ← scan_rows scan_failed parse rows;
               mret match rest with
                    | inl reason => inl reason
                    | inr values => inr (value :: values)
                    end
           end
  end.

(** [rows, err := db.Query(...)], the loop, and [rows.Err()]. *)
Definition read_rows (query_failed scan_failed read_failed : DomainError) (parse : Row -> DomainError + V)
    (query : S -> list Row) : MOf S (DomainError + list V) :=
  rows ← pool_query (fun db => inr (query db));
  match rows with
  | inl _ => mret (inl query_failed)
  | inr rows =>
  scanned ← scan_rows scan_failed parse rows;
  match scanned with
  | inl reason => mret (inl reason)
  | inr values =>
  failed ← fault_point;
  mret (if failed : bool then inl read_failed else inr values)
  end end.

Context {env : Env}.
Implicit Types (st : TxStateOf S).

Lemma scan_rows_wp scan_failed parse rows st (Q : DomainError + list V -> TxStateOf S -> Prop) :
  (forall r st', st_base st' = st_base st -> st_db st' = st_db st ->
     match r with inl _ => True | inr values => Forall2 (fun row v => parse row = inr v) rows values end -> Q r st') ->
  wp env (scan_rows scan_failed parse rows) Q st.
Proof.
  revert st Q. induction rows as [|row rows IH]; intros st Q HQ; cbn [scan_rows].
  - apply wp_ret, HQ; [done|done|constructor].
  - do 2 wp_prim; [by apply wp_ret, HQ|].
    destruct (parse row) as [reason|v] eqn:E; [by apply wp_ret, HQ|].
    apply wp_bind, IH. intros r st' Hb Hd Hr. apply wp_ret, HQ; [done|done|]. destruct r; [done|]. by constructor.
Qed.

(** Rows taken as they are. *)
Lemma scanned_as_is {A} (rows values : list A) : Forall2 (fun row v => @inr DomainError A row = inr v) rows values -> values = rows.
Proof. induction 1 as [|row v rows values [= ->] _ IH]; congruence. Qed.

(** What a read of the pool leaves and returns. *)
Lemma read_rows_wp query_failed scan_failed read_failed parse query st (Q : DomainError + list V -> TxStateOf S -> Prop) :
  (forall r st', st_base st' = st_base st -> st_db st' = st_db st ->
     match r with inl _ => True | inr values => Forall2 (fun row v => parse row = inr v) (query (st_base st)) values end -> Q r st') ->
  wp env (read_rows query_failed scan_failed read_failed parse query) Q st.
Proof.
  intros HQ. unfold read_rows. do 2 wp_prim; [by apply wp_ret, HQ|].
  apply wp_bind, scan_rows_wp. intros [reason|values] st' Hb Hd Hr; [by apply wp_ret, HQ|].
  do 3 wp_prim; by apply HQ.
Qed.

(** Without faults the values are the parsed rows, or an error of the first row that does not parse. *)
Lemma scan_rows_ok scan_failed parse rows st (Q : DomainError + list V -> TxStateOf S -> Prop) :
  no_faults env ->
  (forall st', st_base st' = st_base st -> st_db st' = st_db st -> Q (mapM parse rows) st') ->
  wp env (scan_rows scan_failed parse rows) Q st.
Proof.
  intros Hok. revert st Q. induction rows as [|row rows IH]; intros st Q HQ; cbn [scan_rows mapM].
  - by apply wp_ret, HQ.
  - apply wp_bind, (wp_fault_point_ok Hok). cbn [mapM] in HQ. destruct (parse row) as [reason|v]; [by apply wp_ret, HQ|].
    apply wp_bind, IH. intros st' Hb Hd. apply wp_ret.
    specialize (HQ st' Hb Hd). cbv [mbind sum_bind mret sum_ret] in HQ. by destruct (mapM parse rows).
Qed.

Lemma read_rows_ok query_failed scan_failed read_failed parse query st (Q : DomainError + list V -> TxStateOf S -> Prop) :
  no_faults env ->
  (forall st', st_base st' = st_base st -> st_db st' = st_db st -> Q (mapM parse (query (st_base st))) st') ->
  wp env (read_rows query_failed scan_failed read_failed parse query) Q st.
Proof.
  intros Hok HQ. unfold read_rows. apply wp_bind, (wp_pool_query_ok Hok).
  apply wp_bind, scan_rows_ok; [done|]. intros st' Hb Hd.
  destruct (mapM parse _); [by apply wp_ret, HQ|]. apply wp_bind, (wp_fault_point_ok Hok), wp_ret. by apply HQ.
Qed.

Lemma forward_scan_rows scan_failed parse rows : forward (scan_rows scan_failed parse rows).
Proof. induction rows; cbn [scan_rows]; forward_go. Qed.

Lemma forward_read_rows query_failed scan_failed read_failed parse query :
  forward (read_rows query_failed scan_failed read_failed parse query).
Proof. unfold read_rows. pose proof forward_scan_rows. forward_go. Qed.
End Rows.

(** ** Computations that only read *)

(** Whatever happens, both databases are as they were. *)
Definition quiet {S A} (c : MOf S A) : Prop :=
  forall env st, st_base (snd (c env st)) = st_base st /\ st_db (snd (c env st)) = st_db st.

Section Quiet.
Context {S : Type}.

Lemma quiet_ret {A} (a : A) : quiet (S:=S) (mret a).
Proof. done. Qed.

Lemma quiet_bind {A B} (c : MOf S A) (k : A -> MOf S B) : quiet c -> (forall a, quiet (k a)) -> quiet (mbind k c).
Proof.
  intros Hc Hk env st. unfold mbind, M_bind. specialize (Hc env st). destruct (c env st) as [a st1]. cbn in Hc.
  destruct (Hk a env st1) as [-> ->]. done.
Qed.

Lemma quiet_check {E R} (c : MOf S (option E)) (f : E -> R) k : quiet c -> quiet k -> quiet (check c f k).
Proof. intros Hc Hk. apply quiet_bind; [done|]. intros [|]; [apply quiet_ret|auto]. Qed.

Lemma quiet_attempt {E A R} (c : MOf S (E + A)) (f : E -> R) k : quiet c -> (forall a, quiet (k a)) -> quiet (attempt c f k).
Proof. intros Hc Hk. apply quiet_bind; [done|]. intros [|]; [apply quiet_ret|auto]. Qed.

Lemma quiet_pool_query {A} (f : S -> StmtError + A) : quiet (pool_query f).
Proof. intros env st. unfold pool_query, autocommit. destruct (env_fails _ _); [done|]. by destruct (f (st_base st)). Qed.

Lemma quiet_fault_point : quiet (S:=S) fault_point.
Proof. done. Qed.

Lemma quiet_event_id : quiet (S:=S) NewDomainEventID.
Proof. done. Qed.

Lemma quiet_scan_rows {Row V} failed (parse : Row -> DomainError + V) rows : quiet (S:=S) (scan_rows failed parse rows).
Proof.
  induction rows as [|row rows IH]; cbn [scan_rows]; [apply quiet_ret|]. apply quiet_bind; [apply quiet_fault_point|]. intros [|]; [apply quiet_ret|].
  destruct (parse row); [apply quiet_ret|]. apply quiet_bind; [done|]. intros [|]; apply quiet_ret.
Qed.

Lemma quiet_read_rows {Row V} e1 e2 e3 (parse : Row -> DomainError + V) (query : S -> list Row) : quiet (read_rows e1 e2 e3 parse query).
Proof.
  apply quiet_bind; [apply quiet_pool_query|]. intros [|]; [apply quiet_ret|]. apply quiet_bind; [apply quiet_scan_rows|].
  intros [|]; [apply quiet_ret|]. apply quiet_bind; [apply quiet_fault_point|]. intros; apply quiet_ret.
Qed.

Lemma wp_quiet {A} env (c : MOf S A) (Q : A -> TxStateOf S -> Prop) st :
  quiet c -> (forall a st', st_base st' = st_base st -> st_db st' = st_db st -> Q a st') -> wp env c Q st.
Proof. intros Hc HQ. unfold wp. specialize (Hc env st). destruct (c env st) as [a st']. cbn in Hc. destruct Hc. by apply HQ. Qed.
End Quiet.

Create HintDb quiet.
#[export] Hint Resolve quiet_ret quiet_pool_query quiet_fault_point quiet_event_id quiet_scan_rows quiet_read_rows : quiet.

Ltac quiet_go :=
  repeat first
    [ progress cbv zeta
    | lazymatch goal with
      | |- quiet (mbind _ _) => apply quiet_bind; [|intros ?]
      | |- quiet (check _ _ _) => apply quiet_check
      | |- quiet (attempt _ _ _) => apply quiet_attempt; [|intros ?]
      end
    | solve [eauto with quiet]
    | progress case_match ].
