(* ===== verification/LedgerSpec.v ===== *)
(** * The abstract ledger: what the store promises

    The specification the store refines.  An abstract ledger is the list of
    postings and the credits allocated per task; the only way it changes is by
    the five movements below, each an executable partial function.  [view] reads
    the abstract ledger out of the tables. *)

From S2P Require Import Prelude.
From S2P Require Import Core.
From S2P Require Import LedgerValues.
From S2P Require Import Database.
Local Open Scope string_scope.
Local Open Scope Z_scope.

Record Posting := MkPosting {
  p_account : string;
  p_kind : string;
  p_amount : Z;
  p_task : option string
}.

Record Ledger := MkLedger {
  postings : list Posting;
  allocations : gmap string FundRow
}.

Definition posting_of (e : EntryRow) : Posting :=
  MkPosting (entry_account_id e) (entry_kind e) (entry_amount e) (entry_task_id e).

Definition view (db : DB) : Ledger :=
  MkLedger (posting_of <$> ledger_entries db) (task_funds db).

(** ** Balances *)

Definition total_where (P : Posting -> bool) (ps : list Posting) : Z :=
  sum_Z ((fun p => if P p then p_amount p else 0) <$> ps).

Definition spendable (account : string) (l : Ledger) : Z :=
  total_where (fun p => String.eqb (p_account p) account) (postings l).

Definition on_task (task : string) (p : Posting) : bool := bool_decide (p_task p = Some task).

Definition task_total (task : string) (l : Ledger) : Z := total_where (on_task task) (postings l).

Definition allocated (task : string) (l : Ledger) : Z :=
  match allocations l !! task with Some f => fund_credit_amount f | None => 0 end.

Definition is_grant (p : Posting) : bool :=
  bool_decide (p_kind p = EntryKind_String EntryKindSignupGrant \/
               p_kind p = EntryKind_String EntryKindManualAdjustment).

(** Credits issued by grants, and credits in circulation (spendable or allocated). *)
Definition issued (l : Ledger) : Z := total_where is_grant (postings l).
Definition supply (l : Ledger) : Z :=
  total_where (fun _ => true) (postings l) + map_sum fund_credit_amount (allocations l).

(** ** Movements *)

Inductive Movement :=
| Fund (account task : string) (amount : Z)
| Payout (worker task : string) (amount : Z)
| Refund (task : string)
| Transfer (kind : EntryKind) (from to : string) (task : option string) (amount : Z)
| Grant (account : string) (amount : Z).

Definition post (account : string) (kind : EntryKind) (amount : Z) (task : option string) (l : Ledger) : Ledger :=
  MkLedger (MkPosting account (EntryKind_String kind) amount task :: postings l) (allocations l).

Definition set_allocation (task : string) (fund : option FundRow) (l : Ledger) : Ledger :=
  MkLedger (postings l) (partial_alter (fun _ => fund) task (allocations l)).

Definition apply_movement (m : Movement) (l : Ledger) : option Ledger :=
  match m with
  | Fund account task amount =>
      match allocations l !! task with
      | Some _ => None
      | None =>
          if (0 <? amount) && (amount <=? spendable account l) then
            Some (set_allocation task (Some (MkFundRow account amount))
                    (post account EntryKindTaskFund (- amount) (Some task) l))
          else None
      end
  | Payout worker task amount =>
      match allocations l !! task with
      | None => None
      | Some fund =>
          let remaining := fund_credit_amount fund - amount in
          if (0 <? amount) && (0 <=? remaining) then
            Some (set_allocation task
                    (if remaining =? 0 then None else Some (MkFundRow (fund_account_id fund) remaining))
                    (post worker EntryKindTaskPayout amount (Some task) l))
          else None
      end
  | Refund task =>
      match allocations l !! task with
      | None => None
      | Some fund =>
          Some (set_allocation task None
                  (post (fund_account_id fund) EntryKindTaskRefund (fund_credit_amount fund) (Some task) l))
      end
  | Transfer kind from to task amount =>
      if (0 <? amount) && (amount <=? spendable from l) &&
         bool_decide (kind = EntryKindTaskTip \/ kind = EntryKindPeerTransfer) then
        Some (post to kind amount task (post from kind (- amount) task l))
      else None
  | Grant account amount =>
      if 0 <? amount then Some (post account EntryKindManualAdjustment amount None l) else None
  end.

Fixpoint apply_movements (ms : list Movement) (l : Ledger) : option Ledger :=
  match ms with
  | [] => Some l
  | m :: ms => match apply_movement m l with Some l' => apply_movements ms l' | None => None end
  end.

(** What a movement issues. *)
Definition movement_issue (m : Movement) : Z :=
  match m with Grant _ amount => amount | _ => 0 end.

(** ** The invariant *)

Record balanced (l : Ledger) : Prop := {
  balanced_supply : supply l = issued l;
  balanced_spendable : forall account, 0 <= spendable account l;
  balanced_task : forall task, allocated task l + task_total task l = 0;
  balanced_allocations : map_Forall (fun _ f => 0 < fund_credit_amount f) (allocations l)
}.

(** ** Lemmas *)

Lemma spendable_account_sum account db :
  spendable account (view db) = account_sum account (ledger_entries db).
Proof.
  unfold spendable, total_where, account_sum, entries_of, view. cbn [postings].
  induction (ledger_entries db) as [|e es IH]; [done|].
  rewrite filter_cons, !fmap_cons. unfold sum_Z in *. cbn. rewrite IH.
  destruct (String.eqb_spec (entry_account_id e) account); case_decide; try done.
Qed.

Lemma total_where_post P account kind amount task l :
  total_where P (postings (post account kind amount task l)) =
  (if P (MkPosting account (EntryKind_String kind) amount task) then amount else 0) + total_where P (postings l).
Proof. done. Qed.

Lemma postings_set_allocation task fund l : postings (set_allocation task fund l) = postings l.
Proof. done. Qed.

Lemma spendable_post account kind amount task l a :
  spendable a (post account kind amount task l) =
  (if String.eqb account a then amount else 0) + spendable a l.
Proof. done. Qed.

Lemma spendable_set_allocation task fund l a : spendable a (set_allocation task fund l) = spendable a l.
Proof. done. Qed.

Lemma allocated_set task fund l t :
  allocated t (set_allocation task fund l) =
  if decide (t = task) then match fund with Some f => fund_credit_amount f | None => 0 end else allocated t l.
Proof.
  unfold allocated, set_allocation; cbn. destruct (decide (t = task)) as [->|].
  - by rewrite lookup_partial_alter_eq.
  - by rewrite lookup_partial_alter_ne.
Qed.

Lemma map_sum_partial_alter (f : FundRow -> Z) (m : gmap string FundRow) k o :
  map_sum f (partial_alter (fun _ => o) k m) =
  map_sum f m - (match m !! k with Some v => f v | None => 0 end) + (match o with Some v => f v | None => 0 end).
Proof.
  destruct o as [v|].
  - change (partial_alter (fun _ => Some v) k m) with (<[k:=v]> m). destruct (m !! k) as [w|] eqn:E.
    + by rewrite (map_sum_update f m k w).
    + rewrite map_sum_insert_new by done. lia.
  - change (partial_alter (fun _ => None) k m) with (delete k m). destruct (m !! k) as [w|] eqn:E.
    + rewrite (map_sum_delete f m k w) by done. lia.
    + rewrite delete_id by done. lia.
Qed.

Lemma supply_set_allocation task fund l :
  supply (set_allocation task fund l) =
  supply l - allocated task l + (match fund with Some f => fund_credit_amount f | None => 0 end).
Proof.
  unfold supply, allocated. rewrite postings_set_allocation. unfold set_allocation; cbn.
  rewrite map_sum_partial_alter. lia.
Qed.

Lemma supply_post account kind amount task l : supply (post account kind amount task l) = amount + supply l.
Proof. unfold supply. rewrite total_where_post. cbn [allocations post]. lia. Qed.

Lemma allocated_post account kind amount task l t : allocated t (post account kind amount task l) = allocated t l.
Proof. done. Qed.

Definition grant_kind (kind : EntryKind) : bool :=
  match kind with EntryKindSignupGrant | EntryKindManualAdjustment => true | _ => false end.

Lemma is_grant_kind account kind amount task :
  is_grant (MkPosting account (EntryKind_String kind) amount task) = grant_kind kind.
Proof. by destruct kind. Qed.

Lemma issued_post account kind amount task l :
  issued (post account kind amount task l) = (if grant_kind kind then amount else 0) + issued l.
Proof. unfold issued. rewrite total_where_post, is_grant_kind. done. Qed.

Lemma allocated_lookup task l o :
  allocations l !! task = o -> allocated task l = match o with Some f => fund_credit_amount f | None => 0 end.
Proof. by intros <-. Qed.

Lemma task_total_post account kind amount task l t :
  task_total t (post account kind amount task l) =
  (if decide (task = Some t) then amount else 0) + task_total t l.
Proof. unfold task_total. rewrite total_where_post. unfold on_task; cbn. by case_decide; case_bool_decide. Qed.

Lemma task_total_set task fund l t : task_total t (set_allocation task fund l) = task_total t l.
Proof. done. Qed.

Lemma issued_set task fund l : issued (set_allocation task fund l) = issued l.
Proof. done. Qed.

#[global] Arguments spendable : simpl never.
#[global] Arguments allocated : simpl never.
#[global] Arguments supply : simpl never.
#[global] Arguments issued : simpl never.
#[global] Arguments task_total : simpl never.

Create Rewrite HintDb ledger.
#[export] Hint Rewrite spendable_post spendable_set_allocation allocated_set allocated_post
  supply_set_allocation supply_post issued_post issued_set task_total_post task_total_set : ledger.

(** Split a movement into its successful branch, its guards as arithmetic. *)
Ltac movement_cases H :=
  cbn in H; repeat split_match_in H; simplify_eq;
  repeat match goal with
  | E : (_ && _) = true |- _ => apply andb_true_iff in E as [? ?]
  | E : bool_decide _ = true |- _ => apply bool_decide_eq_true in E
  | E : (_ <? _) = true |- _ => apply Z.ltb_lt in E
  | E : (_ <=? _) = true |- _ => apply Z.leb_le in E
  | E : (_ =? _) = true |- _ => apply Z.eqb_eq in E
  | E : (_ =? _) = false |- _ => apply Z.eqb_neq in E
  | E : allocations ?l !! ?t = ?o |- _ =>
      lazymatch goal with
      | _ : allocated t l = _ |- _ => fail
      | _ => pose proof (allocated_lookup t l o E)
      end
  end; cbn in *.

(** A movement changes the supply by what it issues, and issues what it says. *)
Lemma apply_movement_supply m l l' :
  apply_movement m l = Some l' ->
  supply l' = supply l + movement_issue m /\ issued l' = issued l + movement_issue m.
Proof.
  destruct m; intros H; movement_cases H; autorewrite with ledger; cbn; try lia.
  destruct_or!; subst; cbn; lia.
Qed.

(** No movement overdraws an account. *)
Lemma apply_movement_spendable m l l' :
  apply_movement m l = Some l' -> map_Forall (fun _ f => 0 < fund_credit_amount f) (allocations l) ->
  (forall a, 0 <= spendable a l) -> forall a, 0 <= spendable a l'.
Proof.
  intros H Hpos Hl a. pose proof (Hl a).
  destruct m; movement_cases H; autorewrite with ledger;
    repeat match goal with |- context [String.eqb ?x ?y] => destruct (String.eqb_spec x y); subst end; try lia.
  pose proof (Hpos _ _ E). cbn in *. lia.
Qed.

(** The credits of a task are fully accounted for by its postings. *)
Lemma apply_movement_task m l l' :
  apply_movement m l = Some l' ->
  (forall t, allocated t l + task_total t l = 0) -> forall t, allocated t l' + task_total t l' = 0.
Proof.
  intros H Hl t. pose proof (Hl t).
  destruct m; movement_cases H; autorewrite with ledger; repeat case_decide; simplify_eq; cbn; try lia.
Qed.

Lemma apply_movement_allocations m l l' :
  apply_movement m l = Some l' -> map_Forall (fun _ f => 0 < fund_credit_amount f) (allocations l) ->
  map_Forall (fun _ f => 0 < fund_credit_amount f) (allocations l').
Proof.
  intros H Hl t f. destruct m; movement_cases H; try (by apply Hl);
    destruct (decide (t = task)) as [->|];
    rewrite ?lookup_partial_alter_eq, ?lookup_partial_alter_ne by done; try (by apply Hl); intros [= <-]; cbn; lia.
Qed.

Lemma apply_movement_balanced m l l' :
  apply_movement m l = Some l' -> balanced l -> balanced l'.
Proof.
  intros H [Hs Hn Ht Ha]. pose proof (apply_movement_supply _ _ _ H).
  split; [lia|by eapply apply_movement_spendable|by eapply apply_movement_task|
          by eapply apply_movement_allocations].
Qed.

Lemma apply_movements_app ms ns l :
  apply_movements (ms ++ ns) l =
  match apply_movements ms l with Some l' => apply_movements ns l' | None => None end.
Proof. revert l. induction ms as [|m ms IH]; intros l; cbn; [done|]. by destruct (apply_movement m l). Qed.

Lemma apply_movements_balanced ms l l' :
  apply_movements ms l = Some l' -> balanced l -> balanced l'.
Proof.
  revert l. induction ms as [|m ms IH]; intros l; cbn; [by intros [= <-]|].
  destruct (apply_movement m l) as [l1|] eqn:E; [|done].
  intros H Hb. eapply IH; [done|]. by eapply apply_movement_balanced.
Qed.

(** The account a movement takes credits from. *)
Definition debit_of (m : Movement) : option string :=
  match m with Fund account _ _ => Some account | Transfer _ from _ _ _ => Some from | _ => None end.

Lemma apply_movement_debit m l l' a :
  apply_movement m l = Some l' -> balanced l -> spendable a l' < spendable a l -> debit_of m = Some a.
Proof.
  intros H Hb. destruct m; movement_cases H; autorewrite with ledger;
    repeat match goal with |- context [String.eqb ?x ?y] => destruct (String.eqb_spec x y); subst end; try done; try lia.
  pose proof (balanced_allocations _ Hb _ _ E). cbn in *. lia.
Qed.

Lemma apply_movements_debit ms l l' a :
  apply_movements ms l = Some l' -> balanced l -> spendable a l' < spendable a l ->
  exists m, m ∈ ms /\ debit_of m = Some a.
Proof.
  revert l. induction ms as [|m ms IH]; intros l; cbn; [intros [= <-] _; lia|].
  destruct (apply_movement m l) as [l1|] eqn:E; [|done]. intros H Hb Hless.
  destruct (decide (spendable a l1 < spendable a l)) as [Hl1|Hl1].
  - exists m. split; [by left|]. by eapply apply_movement_debit.
  - destruct (IH l1 H (apply_movement_balanced _ _ _ E Hb)) as (m' & Hm' & Ha); [lia|]. exists m'. split; [by right|done].
Qed.

Lemma apply_movements_supply ms l l' :
  apply_movements ms l = Some l' ->
  supply l' = supply l + sum_Z (movement_issue <$> ms) /\ issued l' = issued l + sum_Z (movement_issue <$> ms).
Proof.
  revert l. induction ms as [|m ms IH]; intros l; cbn; [intros [= <-]; lia|].
  destruct (apply_movement m l) as [l1|] eqn:E; [|done].
  intros H%IH. apply apply_movement_supply in E. unfold sum_Z in *. lia.
Qed.

Lemma balanced_empty : balanced (MkLedger [] ∅).
Proof. by split. Qed.
