(* ===== verification/Outbox.v ===== *)
(** * The transactional event outbox

    Models the recording side of [internal/db/event_store.go]: the insertion of a
    domain event with its recipients inside the transaction of the mutation that
    produced it, and [ReviewEventDrafts] of [internal/ledger/events.go]. *)

From S2P Require Import Prelude.
From S2P Require Import Core.
From S2P Require Import Events.
From S2P Require Import LedgerValues.
From S2P Require Import Database.
From S2P Require Import Tx.
Local Open Scope string_scope.
Local Open Scope Z_scope.

Section Outbox.
Context `{UUIDLib}.

Definition taskRefValue (ref : TaskRef) : option string :=
  match ref with TaskSubject id => Some (TypedID_String id) | NoTask => None end.
Definition submissionRefValue (ref : SubmissionRef) : option string :=
  match ref with SubmissionSubject id => Some (TypedID_String id) | NoSubmission => None end.
Definition reservationRefValue (ref : ReservationRef) : option string :=
  match ref with ReservationSubject id => Some (TypedID_String id) | NoReservation => None end.
Definition seriesRefValue (ref : SeriesRef) : option string :=
  match ref with SeriesSubject id => Some (TypedID_String id) | NoSeries => None end.
Definition organizationRefValue (ref : OrganizationRef) : option string :=
  match ref with OrganizationSubject id => Some (TypedID_String id) | NoOrganization => None end.
Definition collectibleRefValue (ref : CollectibleRef) : option string :=
  match ref with CollectibleSubject id => Some (TypedID_String id) | NoCollectible => None end.

Definition actor_kind (actor : Actor) : string :=
  match actor with ActorSystem => "system" | ActorUser _ => "user" end.

(** The row an event draft becomes ([draft.Event(now)] with its columns). *)
Definition event_row (sequence occurredAt : Z) (draft : Draft) : EventRow :=
  let subject := Draft_Subject draft in
  MkEventRow sequence (TypedID_String (Draft_ID draft)) (Kind_String (Draft_Kind draft))
    (actor_kind (Draft_Actor draft)) (TypedID_String (ActorUserID (Draft_Actor draft)))
    (taskRefValue (Subject_Task subject)) (submissionRefValue (Subject_Submission subject))
    (reservationRefValue (Subject_Reservation subject)) (seriesRefValue (Subject_Series subject))
    (organizationRefValue (Subject_Organization subject))
    (collectibleRefValue (Subject_Collectible subject))
    (Metadata_JSON (Draft_Metadata draft)) occurredAt (DispatchState_String DispatchStateRecorded).

Fixpoint insert_recipients (sequence : Z) (recipients : list UserID) : M (option StmtError) :=
  match recipients with
  | [] => mret None
  | recipient :: recipients =>
      err ← exec (insert_event_recipient sequence (TypedID_String recipient));
      match err with
      | Some err => mret (Some err)
      | None => insert_recipients sequence recipients
      end
  end.

(** The first statement locks the fence row and changes nothing. *)
Definition insertDomainEventInTx (draft : Draft) (occurredAt : Z) : M (StmtError + Z) :=
  fence ← exec (fun db => inr db);
  match fence with
  | Some err => mret (inl err)
  | None =>
      sequence ← next_sequence;
      err ← exec (insert_event (event_row sequence occurredAt draft));
      match err with
      | Some err => mret (inl err)
      | None =>
          err ← insert_recipients sequence (Users (Draft_Recipients draft));
          match err with
          | Some err => mret (inl err)
          | None => mret (inr sequence)
          end
      end
  end.

Definition recordEventDraftInTx (draft : Draft) : M (option StmtError) :=
  now ← current_time;
  result ← insertDomainEventInTx draft now;
  match result with
  | inl err => mret (Some err)
  | inr _ => mret None
  end.

(** The loop [for _, draft := range recorded]. *)
Fixpoint recordEventDrafts (drafts : list Draft) : M (option StmtError) :=
  match drafts with
  | [] => mret None
  | draft :: drafts =>
      err ← recordEventDraftInTx draft;
      match err with
      | Some err => mret (Some err)
      | None => recordEventDrafts drafts
      end
  end.

(** ** [ReviewEventDrafts] *)

(** The closure [appendDraft]. *)
Definition appendDraft (reviewDraft : Draft) (actor : Actor) (extraRecipients : Recipients)
    (kind : Kind) (metadata : Metadata) (worker : UserID) (drafts : list Draft) : M (DomainError + list Draft) :=
  id ← NewDomainEventID;
  match NewDraft id kind actor (Draft_Subject reviewDraft) metadata
          (NewRecipients (worker :: Users extraRecipients)) with
  | DraftCreated value => mret (inr (drafts ++ [value])%list)
  | DraftRejected reason => mret (inl reason)
  end.

Definition ReviewEventDrafts (reviewDraft : Draft) (reviewer : Reviewer) (taskID : TaskID)
    (payout : PayoutOutcome) (tip : TipOutcome) : M (DomainError + list Draft) :=
  let '(actor, extraRecipients) := reviewerActor reviewer in
  let append := appendDraft reviewDraft actor extraRecipients in
  paid ← match payout with
    | NoPayout => mret (inr [])
    | CreditPayout worker amount =>
        append KindPayoutReceived (TaskAmountMetadata taskID (CreditAmount_Int64 amount)) worker []
    | CollectiblePayout worker _ => append KindPayoutReceived (TaskMetadata taskID) worker []
    | BundlePayout worker amount _ =>
        append KindPayoutReceived (TaskAmountMetadata taskID (CreditAmount_Int64 amount)) worker []
    end;
  match paid with
  | inl reason => mret (inl reason)
  | inr drafts =>
      match tip with
      | NoTip => mret (inr drafts)
      | CreditTip worker amount =>
          append KindTipReceived (TaskAmountMetadata taskID (CreditAmount_Int64 amount)) worker drafts
      | CollectibleTip worker collectible =>
          append KindTipReceived (TaskCollectibleMetadata taskID collectible) worker drafts
      | BundleTip worker amount _ =>
          append KindTipReceived (TaskAmountMetadata taskID (CreditAmount_Int64 amount)) worker drafts
      end
  end.

(** ** What recording leaves in the database *)

(** The constraints an inserted event row met: a sequence number and an identifier
    of its own, an actor and recipients that are users, each recipient once. *)
Record insertable (db : DB) (seq : Z) (draft : Draft) : Prop := {
  insertable_fresh : Forall (fun e => ev_seq e <> seq /\ ev_id e <> TypedID_String (Draft_ID draft)) (domain_events db);
  insertable_actor : TypedID_String (ActorUserID (Draft_Actor draft)) ∈ users db;
  insertable_users : Forall (fun u => TypedID_String u ∈ users db) (Users (Draft_Recipients draft));
  insertable_once : NoDup (TypedID_String <$> Users (Draft_Recipients draft))
}.

(** The tables with one event more. *)
Definition after_recording (db : DB) (seq now : Z) (draft : Draft) : DB :=
  with_events (event_row seq now draft :: domain_events db)
    (rev ((fun u => (seq, TypedID_String u)) <$> Users (Draft_Recipients draft)) ++ domain_event_recipients db)%list db.

(** [recorded db drafts db']: [db'] is [db] with one recorded event per draft, in
    order, and exactly the recipients of each draft. *)
Inductive recorded : DB -> list Draft -> DB -> Prop :=
| recorded_nil db : recorded db [] db
| recorded_cons db draft drafts seq now db' :
    insertable db seq draft ->
    recorded (after_recording db seq now draft) drafts db' ->
    recorded db (draft :: drafts) db'.

Lemma recorded_app db1 ds1 db2 ds2 db3 :
  recorded db1 ds1 db2 -> recorded db2 ds2 db3 -> recorded db1 (ds1 ++ ds2) db3.
Proof. induction 1; cbn; [done|]. intros ?. econstructor; eauto. Qed.

(** Recording touches the two outbox tables only. *)
Lemma recorded_with_events db drafts db' :
  recorded db drafts db' -> exists e r, db' = with_events e r db.
Proof.
  induction 1 as [db|? ? ? ? ? ? _ _ (e & r & ->)].
  - exists (domain_events db), (domain_event_recipients db). by destruct db.
  - by exists e, r.
Qed.

(** One event row per draft, newest first, with the draft's kind and id. *)
Lemma recorded_events db drafts db' :
  recorded db drafts db' ->
  (fun e => (ev_id e, ev_kind e, ev_dispatch_state e)) <$> domain_events db' =
  (rev ((fun d => (TypedID_String (Draft_ID d), Kind_String (Draft_Kind d), "recorded")) <$> drafts) ++
   ((fun e => (ev_id e, ev_kind e, ev_dispatch_state e)) <$> domain_events db))%list.
Proof.
  induction 1 as [|db d ds seq now db' _ _ IH]; [done|].
  rewrite IH. cbn. rewrite <- app_assoc. done.
Qed.

Section Specs.
Context {env : Env}.

Lemma insert_recipients_wp seq us st (Q : option StmtError -> TxState -> Prop) :
  (forall err st', st_base st' = st_base st -> Q (Some err) st') ->
  (forall n, Forall (fun u => TypedID_String u ∈ users (st_db st)) us ->
     NoDup (TypedID_String <$> us) ->
     Forall (fun u => (seq, TypedID_String u) ∉ domain_event_recipients (st_db st)) us ->
     Q None (MkTxState (st_base st)
     (with_events (domain_events (st_db st))
       (rev ((fun u => (seq, TypedID_String u)) <$> us) ++ domain_event_recipients (st_db st))%list
       (st_db st)) n)) ->
  wp env (insert_recipients seq us) Q st.
Proof.
  revert st. induction us as [|u us IH]; intros st Hf Hs; cbn.
  - apply wp_ret. destruct st as [base [] n]. apply Hs; constructor.
  - apply wp_bind, wp_exec; [by apply wp_ret, Hf|].
    unfold insert_event_recipient. case_bool_decide as Hu; cbn [negb]; [|by apply wp_ret, Hf].
    case_bool_decide as Hin; [by apply wp_ret, Hf|].
    apply IH; [intros; by apply Hf|].
    intros n Hus Hnd Hfresh. cbn in *. specialize (Hs n). rewrite <- app_assoc in Hs. apply Hs.
    + by constructor.
    + constructor; [|done]. intros (v & Hv & Hvus)%list_elem_of_fmap.
      apply (Forall_elem _ _ _ Hfresh Hvus). rewrite <- Hv. by left.
    + constructor; [done|]. eapply Forall_impl; [|exact Hfresh]. intros v Hv ?. apply Hv. by right.
Qed.

Lemma insertDomainEventInTx_wp d now st (Q : StmtError + Z -> TxState -> Prop) :
  (forall err st', st_base st' = st_base st -> Q (inl err) st') ->
  (forall seq n, insertable (st_db st) seq d ->
     Q (inr seq) (MkTxState (st_base st) (after_recording (st_db st) seq now d) n)) ->
  wp env (insertDomainEventInTx d now) Q st.
Proof.
  intros Hf Hs. unfold insertDomainEventInTx. repeat wp_prim; cbn; [by apply Hf..|].
  unfold insert_event. case_bool_decide as Hu; cbn [negb]; [|by repeat wp_prim; apply Hf].
  case_bool_decide as Hin; [by repeat wp_prim; apply Hf|].
  wp_prim. apply insert_recipients_wp; cbn.
  - intros err st' Hb. repeat wp_prim. by apply Hf.
  - intros k Hus Hnd _. repeat wp_prim. apply Hs.
    split; try done. apply List.Forall_forall. intros e He. cbn in Hin.
    rewrite Exists_exists in Hin. naive_solver.
Qed.

Lemma recordEventDraft_wp d st (Q : option StmtError -> TxState -> Prop) :
  (forall err st', st_base st' = st_base st -> Q (Some err) st') ->
  (forall db' n, recorded (st_db st) [d] db' -> Q None (MkTxState (st_base st) db' n)) ->
  wp env (recordEventDraftInTx d) Q st.
Proof.
  intros Hf Hs. unfold recordEventDraftInTx. wp_prim. wp_prim. apply wp_bind, insertDomainEventInTx_wp.
  - intros err st' Hb. wp_prim. by apply Hf.
  - intros seq n Hi. wp_prim. apply Hs. econstructor; [done|constructor].
Qed.

Lemma recordEventDrafts_wp ds st (Q : option StmtError -> TxState -> Prop) :
  (forall err st', st_base st' = st_base st -> Q (Some err) st') ->
  (forall db' n, recorded (st_db st) ds db' -> Q None (MkTxState (st_base st) db' n)) ->
  wp env (recordEventDrafts ds) Q st.
Proof.
  revert st. induction ds as [|d ds IH]; intros st Hf Hs; cbn.
  - apply wp_ret. destruct st as [base db n]. apply Hs. constructor.
  - apply wp_bind, recordEventDraft_wp; [intros; apply wp_ret; by apply Hf|].
    intros db1 n Hd. apply IH; [intros; by apply Hf|].
    intros db2 k Hds. apply Hs. apply (recorded_app _ [d] _ ds _ Hd Hds).
Qed.

(** The drafts of a review differ from its outcome only by their fresh ids. *)
Definition outcome_kinds (payout : PayoutOutcome) (tip : TipOutcome) : list Kind :=
  ((match payout with NoPayout => [] | _ => [KindPayoutReceived] end) ++
   (match tip with NoTip => [] | _ => [KindTipReceived] end))%list.

Lemma appendDraft_wp d actor extra kind metadata worker ds st (Q : DomainError + list Draft -> TxState -> Prop) :
  (forall reason st', st_base st' = st_base st -> Q (inl reason) st') ->
  (forall d' n, Draft_Kind d' = kind -> Q (inr (ds ++ [d'])%list) (MkTxState (st_base st) (st_db st) n)) ->
  wp env (appendDraft d actor extra kind metadata worker ds) Q st.
Proof.
  intros Hf Hs. unfold appendDraft. do 2 wp_prim.
  unfold NewDraft. destruct r; wp_prim; [by apply Hs|by apply Hf].
Qed.

Lemma ReviewEventDrafts_wp d reviewer task payout tip st (Q : DomainError + list Draft -> TxState -> Prop) :
  (forall reason st', st_base st' = st_base st -> Q (inl reason) st') ->
  (forall ds n, Draft_Kind <$> ds = outcome_kinds payout tip ->
     Q (inr ds) (MkTxState (st_base st) (st_db st) n)) ->
  wp env (ReviewEventDrafts d reviewer task payout tip) Q st.
Proof.
  intros Hf Hs. unfold ReviewEventDrafts. destruct (reviewerActor reviewer) as [actor extra].
  apply wp_bind.
  assert (forall ds n, Draft_Kind <$> ds = outcome_kinds payout NoTip ->
    wp env (match tip with
      | NoTip => mret (inr ds)
      | CreditTip worker amount => appendDraft d actor extra KindTipReceived
          (TaskAmountMetadata task (CreditAmount_Int64 amount)) worker ds
      | CollectibleTip worker collectible => appendDraft d actor extra KindTipReceived
          (TaskCollectibleMetadata task collectible) worker ds
      | BundleTip worker amount _ => appendDraft d actor extra KindTipReceived
          (TaskAmountMetadata task (CreditAmount_Int64 amount)) worker ds
      end) Q (MkTxState (st_base st) (st_db st) n)) as Htip.
  { intros ds n Hds. unfold outcome_kinds in *. rewrite app_nil_r in Hds.
    destruct tip; [apply wp_ret, Hs; by rewrite app_nil_r|..].
    all: apply appendDraft_wp; cbn; [done|]; intros d' k Hk; apply Hs.
    all: by rewrite fmap_app, Hds; cbn; rewrite Hk. }
  destruct payout;
    first [apply wp_ret; destruct st; by apply Htip
          | apply appendDraft_wp; [intros; wp_prim; by apply Hf|];
            intros d' n Hk; apply Htip; cbn; by rewrite Hk].
Qed.

End Specs.
End Outbox.
