(* ===== verification/LedgerHelpers.v ===== *)
(** * Helpers of the ledger store

    Models [internal/db/ledger_store_helpers.go], the charge half of
    [internal/db/work_budget_store.go], and the helpers of
    [collectible_store.go], [task_store.go] and [task_lifecycle_sweeps.go] the
    ledger store calls. *)

From S2P Require Import Prelude.
From S2P Require Import Core.
From S2P Require Import OrgRoles.
From S2P Require Import Assets.
From S2P Require Import Events.
From S2P Require Import LedgerValues.
From S2P Require Import Database.
From S2P Require Import Tx.
From S2P Require Import Outbox.
Local Open Scope string_scope.
Local Open Scope Z_scope.

Section Helpers.
Context `{UUIDLib}.

(** ** Accounts *)

Inductive accountLockResult :=
| accountLocked (id : string) (parsedID : CreditAccountID)
| accountLockRejected (reason : DomainError).

Definition parse_account (rawID : string) : accountLockResult :=
  match ParseCreditAccountID rawID with
  | TypedIDCreated value => accountLocked rawID value
  | TypedIDRejected reason => accountLockRejected reason
  end.

Definition lockUserAccount (userID : UserID) : M accountLockResult :=
  scan ← query_row (fun db => first_row (acct_id <$> accounts_of_user (TypedID_String userID) db));
  mret match scan with
  | inl ErrNoRows => accountLockRejected (invalid_state "user has no credit account")
  | inl _ => accountLockRejected (invalid_state "lock credit account failed")
  | inr rawID => parse_account rawID
  end.

Definition lockOrganizationAccount (organizationID : OrganizationID) : M accountLockResult :=
  scan ← query_row (fun db =>
    first_row (acct_id <$> accounts_of_organization (TypedID_String organizationID) db));
  mret match scan with
  | inl ErrNoRows => accountLockRejected (invalid_state "organization has no credit account")
  | inl _ => accountLockRejected (invalid_state "lock organization credit account failed")
  | inr rawID => parse_account rawID
  end.

(** [select coalesce(sum(amount), 0) from ledger_entries where account_id = $1] *)
Definition read_spendable (account : string) : M (StmtError + Z) :=
  query_row (fun db => scan_int64 (account_sum account (ledger_entries db))).

(** ** Tasks *)

Record taskLockedRow := MkTaskLocked {
  locked_state : string;
  locked_rawCreatedBy : string;
  locked_rewardKind : string;
  locked_rewardCreditAmount : Z
}.

Inductive taskLockResult :=
| taskLocked (row : taskLockedRow)
| taskLockRejected (reason : DomainError).

Definition select_task (taskID : TaskID) : M (StmtError + TaskRow) :=
  query_row (fun db => match tasks db !! TypedID_String taskID with
                       | Some row => inr row
                       | None => inl ErrNoRows
                       end).

Definition locked_of (row : TaskRow) : taskLockedRow :=
  MkTaskLocked (task_state row) (task_created_by_user_id row) (task_reward_kind row)
    (default 0 (task_reward_credit_amount row)).

Definition task_not_found : DomainError := NewDomainError ErrorCodeNotFound "task was not found".

Definition lockTaskOwnedByOrganization (taskID : TaskID) (organizationID : OrganizationID) : M taskLockResult :=
  scan ← select_task taskID;
  mret match scan with
  | inl ErrNoRows => taskLockRejected task_not_found
  | inl _ => taskLockRejected (invalid_state "lock task failed")
  | inr row =>
      if negb (String.eqb (default "" (task_organization_id row)) (TypedID_String organizationID)) then
        taskLockRejected (permission_denied "task is not owned by the organization")
      else taskLocked (locked_of row)
  end.

Definition lockTaskOwnedBy (taskID : TaskID) (requester : UserID) (action : string) : M taskLockResult :=
  scan ← select_task taskID;
  mret match scan with
  | inl ErrNoRows => taskLockRejected task_not_found
  | inl _ => taskLockRejected (invalid_state "lock task failed")
  | inr row =>
      if negb (String.eqb (task_created_by_user_id row) (TypedID_String requester)) then
        taskLockRejected (permission_denied ("only the task owner can " +:+ action +:+ " the task"))
      else taskLocked (locked_of row)
  end.

(** The row loop of [organizationMemberPermission]. *)
Fixpoint scan_roles (raws : list string) : M (DomainError + list Role) :=
  match raws with
  | [] => mret (inr [])
  | raw :: raws =>
      failed ← fault_point;
      if failed : bool then mret (inl (invalid_state "scan member role failed"))
      else match ParseRole raw with
           | RoleRejected reason => mret (inl reason)
           | RoleAccepted role =>
               rest ← scan_roles raws;
               match rest with
               | inl reason => mret (inl reason)
               | inr roles => mret (inr (role :: roles))
               end
           end
  end.

(** The rows of the join on memberships and their roles. *)
Definition member_roles (organization user : string) (db : DB) : list string :=
  m ← organization_memberships db;
  if bool_decide (mem_organization_id m = organization /\ mem_user_id m = user /\ mem_status m = "active")
  then mem_roles m else [].

Definition organizationMemberPermission (rawOrganizationID : string) (member : UserID)
    (permission : Permission) : M PermissionCheck :=
  rows ← query_rows (member_roles rawOrganizationID (TypedID_String member));
  match rows with
  | inl _ => mret (PermissionDenied (invalid_state "read member roles failed"))
  | inr raws =>
      scanned ← scan_roles raws;
      match scanned with
      | inl reason => mret (PermissionDenied reason)
      | inr roles =>
          failed ← fault_point;
          if failed : bool then mret (PermissionDenied (invalid_state "read member roles failed"))
          else mret (CheckPermission roles permission)
      end
  end.

Definition reviewerOrganizationPermission (rawOrganizationID : string) (requester : UserID) : M PermissionCheck :=
  organizationMemberPermission rawOrganizationID requester PermissionReviewSubmissions.

Definition lockTaskForReview (taskID : TaskID) (reviewer : Reviewer) (action : string) : M taskLockResult :=
  let denied := taskLockRejected (permission_denied
    ("only the task owner or an organization reviewer can " +:+ action +:+ " the task")) in
  scan ← select_task taskID;
  match scan with
  | inl ErrNoRows => mret (taskLockRejected task_not_found)
  | inl _ => mret (taskLockRejected (invalid_state "lock task failed"))
  | inr row =>
      let locked := taskLocked (locked_of row) in
      let rawOrganizationID := default "" (task_organization_id row) in
      match reviewer with
      | UserReviewer id =>
          if String.eqb (task_created_by_user_id row) (TypedID_String id) then mret locked
          else if negb (String.eqb rawOrganizationID "") then
            check ← reviewerOrganizationPermission rawOrganizationID id;
            match check with
            | PermissionGranted => mret locked
            | PermissionDenied _ => mret denied
            end
          else mret denied
      | OrganizationReviewer id =>
          if negb (String.eqb rawOrganizationID "") && String.eqb rawOrganizationID (TypedID_String id)
          then mret locked else mret denied
      end
  end.

Definition reviewerUserColumn (reviewer : Reviewer) : option string :=
  match reviewer with
  | UserReviewer id => Some (TypedID_String id)
  | OrganizationReviewer _ => None
  end.

(** ** Funding *)

Inductive fundingRewardResult :=
| fundingRewardAccepted (RewardKindUpdate : string)
| fundingRewardRejected (reason : DomainError).

Definition requireCreditRewardFunding (taskRow : taskLockedRow) (amount : CreditAmount) : fundingRewardResult :=
  let declared :=
    if negb (locked_rewardCreditAmount taskRow =? CreditAmount_Int64 amount) then
      fundingRewardRejected (conflict "funding amount must match the declared credit reward")
    else fundingRewardAccepted "" in
  switch (locked_rewardKind taskRow)
    [ ("credit", declared); ("bundle", declared); ("collectible", fundingRewardAccepted "bundle") ]
    (fundingRewardAccepted "credit").

(** [None] is the nil of the source: funding may proceed. *)
Definition requireFundableTask (taskID : TaskID) (taskRow : taskLockedRow) (amount : CreditAmount) : M (option FundResult) :=
  if negb (String.eqb (locked_state taskRow) "draft") then
    mret (Some (FundRejected (conflict "only draft tasks can be funded")))
  else
    match requireCreditRewardFunding taskRow amount with
    | fundingRewardRejected reason => mret (Some (FundRejected reason))
    | fundingRewardAccepted rewardKindUpdate =>
        if String.eqb rewardKindUpdate "" then mret None
        else
          err ← exec (update_task_reward rewardKindUpdate (CreditAmount_Int64 amount) (TypedID_String taskID));
          match err with
          | Some _ => mret (Some (FundRejected (invalid_state "update task reward kind failed")))
          | None => mret None
          end
    end.

Inductive fundBuildResult :=
| fundBuilt (value : TaskFund)
| fundBuildRejected (reason : DomainError).

Definition buildFund (taskID : TaskID) (rawFunderAccountID : string) (amount : Z) : fundBuildResult :=
  match ParseCreditAccountID rawFunderAccountID with
  | TypedIDRejected reason => fundBuildRejected reason
  | TypedIDCreated account =>
      match NewCreditAmount amount with
      | CreditAmountRejected reason => fundBuildRejected reason
      | CreditAmountAccepted amount => fundBuilt (MkTaskFund taskID account amount)
      end
  end.

Definition findFundForKey (key : string) (taskID : TaskID) (funderAccountID : string) : M (option FundResult) :=
  scan ← query_row (entry_with_key key funderAccountID);
  mret match scan with
  | inl ErrNoRows => None
  | inl _ => Some (FundRejected (invalid_state "check fund idempotency failed"))
  | inr row =>
      if negb (String.eqb (entry_kind row) (EntryKind_String EntryKindTaskFund))
         || negb (String.eqb (default "" (entry_task_id row)) (TypedID_String taskID)) then
        Some (FundRejected (invalid_state "idempotency key was used for a different command"))
      else
        match buildFund taskID (entry_account_id row) (wrap64 (- entry_amount row)) with
        | fundBuildRejected reason => Some (FundRejected reason)
        | fundBuilt value => Some (TaskFunded value IdempotentReplay [])
        end
  end.

Definition new_entry (id : LedgerEntryID) (account kind : string) (amount : Z) (task : option TaskID)
    (key : option string) (note : string) (now : Z) : EntryRow :=
  MkEntryRow (TypedID_String id) account kind amount (TypedID_String <$> task) key note now.

Definition completeFunding (accountID : string) (parsedID : CreditAccountID) (taskID : TaskID)
    (amount : CreditAmount) (entryID : LedgerEntryID) (key : IdempotencyKey)
    (insufficientMessage : string) (draft : Draft) : M FundResult :=
  exists_scan ← query_row (fun db => inr (bool_decide (is_Some (task_funds db !! TypedID_String taskID))));
  match exists_scan with
  | inl _ => mret (FundRejected (invalid_state "check existing task fund failed"))
  | inr true => mret (FundRejected (invalid_state "task is already funded"))
  | inr false =>
  spendable_scan ← read_spendable accountID;
  match spendable_scan with
  | inl _ => mret (FundRejected (invalid_state "read account balance failed"))
  | inr spendable =>
  if spendable <? CreditAmount_Int64 amount then mret (FundRejected (invalid_argument insufficientMessage))
  else
  err ← exec (insert_task_fund (TypedID_String taskID) accountID (CreditAmount_Int64 amount));
  match err with
  | Some _ => mret (FundRejected (invalid_state "insert task fund failed"))
  | None =>
  now ← transaction_time;
  err ← exec (insert_ledger_entry (new_entry entryID accountID "task_fund"
           (wrap64 (- CreditAmount_Int64 amount)) (Some taskID) (Some (IdempotencyKey_String key)) "" now));
  match err with
  | Some _ => mret (FundRejected (invalid_state "insert task fund ledger entry failed"))
  | None =>
  err ← recordEventDraftInTx draft;
  match err with
  | Some _ => mret (FundRejected (invalid_state "record task funded event failed"))
  | None =>
  err ← commit_tx;
  match err with
  | Some _ => mret (FundRejected (invalid_state "commit fund task transaction failed"))
  | None => mret (TaskFunded (MkTaskFund taskID parsedID amount) FirstExecution [draft])
  end end end end end end.

(** ** Paying a review *)

Inductive payoutResult :=
| payoutResolved (outcome : PayoutOutcome)
| payoutRejected (reason : DomainError).

Record reviewFundCommand := MkReviewFundCommand {
  rf_taskID : TaskID;
  rf_rawWorkerID : string;
  rf_payoutEntryID : LedgerEntryID;
  rf_refundEntryID : LedgerEntryID;
  rf_idempotencyKey : IdempotencyKey;
  rf_selection : CreditReviewSelection;
  rf_closeTask : bool;
  rf_missingIsNoPayout : bool
}.

Definition select_fund (taskID : TaskID) : M (StmtError + FundRow) :=
  query_row (fun db => match task_funds db !! TypedID_String taskID with
                       | Some row => inr row
                       | None => inl ErrNoRows
                       end).

(** Settling the fund row once the payout is written: close or keep it. *)
Definition settle_fund (command : reviewFundCommand) (funderAccount : string) (remaining : Z) : M (option DomainError) :=
  let task := TypedID_String (rf_taskID command) in
  if rf_closeTask command then
    refunded ← (if 0 <? remaining then
        now ← transaction_time;
        exec (insert_ledger_entry (new_entry (rf_refundEntryID command) funderAccount "task_refund"
                remaining (Some (rf_taskID command)) None "" now))
      else mret None);
    match refunded with
    | Some _ => mret (Some (invalid_state "insert partial accept refund ledger entry failed"))
    | None =>
        err ← exec (delete_task_fund task);
        mret match err with
        | Some _ => Some (invalid_state "clear task fund failed")
        | None => None
        end
    end
  else if remaining =? 0 then
    err ← exec (delete_task_fund task);
    mret match err with
    | Some _ => Some (invalid_state "clear task fund failed")
    | None => None
    end
  else
    err ← exec (update_task_fund task remaining);
    mret match err with
    | Some _ => Some (invalid_state "update task fund after partial payout failed")
    | None => None
    end.

Definition payout_amount (selection : CreditReviewSelection) (amount : Z) : Z :=
  match selection with
  | PartialCreditReviewSelection partial => CreditAmount_Int64 partial
  | _ => amount
  end.

(** [payReviewFund] from the fund row on. *)
Definition pay_from_fund (command : reviewFundCommand) (fund : FundRow) : M payoutResult :=
  let amount := fund_credit_amount fund in
  let payoutAmount := payout_amount (rf_selection command) amount in
  if amount <? payoutAmount then
    mret (payoutRejected (invalid_argument "credit payout cannot exceed allocated credits"))
  else
  match ParseUserID (rf_rawWorkerID command) with
  | TypedIDRejected reason => mret (payoutRejected reason)
  | TypedIDCreated worker =>
  scan ← query_row (fun db => first_row (acct_id <$> accounts_of_user (rf_rawWorkerID command) db));
  match scan with
  | inl ErrNoRows => mret (payoutRejected (invalid_state "submission author has no credit account"))
  | inl _ => mret (payoutRejected (invalid_state "lock worker credit account failed"))
  | inr workerAccountID =>
  now ← transaction_time;
  err ← exec (insert_ledger_entry (new_entry (rf_payoutEntryID command) workerAccountID "task_payout"
           payoutAmount (Some (rf_taskID command)) (Some (IdempotencyKey_String (rf_idempotencyKey command))) "" now));
  match err with
  | Some _ => mret (payoutRejected (invalid_state "insert task payout ledger entry failed"))
  | None =>
  settled ← settle_fund command (fund_account_id fund) (wrap64 (amount - payoutAmount));
  match settled with
  | Some reason => mret (payoutRejected reason)
  | None =>
  mret match NewCreditAmount payoutAmount with
  | CreditAmountRejected reason => payoutRejected reason
  | CreditAmountAccepted value => payoutResolved (CreditPayout worker value)
  end
  end end end end.

Definition payReviewFund (command : reviewFundCommand) : M payoutResult :=
  let fund_missing := payoutRejected (conflict "credit reward fund is missing") in
  match rf_selection command with
  | NoCreditReviewSelection => mret (payoutResolved NoPayout)
  | selection =>
      scan ← select_fund (rf_taskID command);
      match scan with
      | inl ErrNoRows =>
          mret match selection with
          | PartialCreditReviewSelection _ => fund_missing
          | _ => if rf_missingIsNoPayout command then payoutResolved NoPayout else fund_missing
          end
      | inl _ => mret (payoutRejected (invalid_state "read task fund failed"))
      | inr fund => pay_from_fund command fund
      end
  end.

Definition payOutEscrow (command : AcceptStoreCommand) (rawWorkerID : string) : M payoutResult :=
  payReviewFund (MkReviewFundCommand (accept_TaskID command) rawWorkerID (accept_PayoutEntryID command)
    (accept_RefundEntryID command) (accept_IdempotencyKey command) (accept_CreditSelection command) true true).

(** ** Tips *)

Inductive tipResult :=
| tipResolved (outcome : TipOutcome)
| tipRejected (reason : DomainError).

Definition payCreditTip (taskID : TaskID) (reviewer : Reviewer) (rawWorkerID : string)
    (debitEntryID creditEntryID : LedgerEntryID) (idempotencyKey : IdempotencyKey)
    (selection : TipSelection) : M tipResult :=
  match selection with
  | NoTipSelection => mret (tipResolved NoTip)
  | CreditTipSelection amount =>
  match reviewer with
  | OrganizationReviewer _ =>
      mret (tipRejected (invalid_argument "an organization credential cannot pay a credit tip"))
  | UserReviewer requester =>
  requesterAccount ← lockUserAccount requester;
  match requesterAccount with
  | accountLockRejected reason => mret (tipRejected reason)
  | accountLocked requesterID _ =>
  balance_scan ← read_spendable requesterID;
  match balance_scan with
  | inl _ => mret (tipRejected (invalid_state "read requester balance failed"))
  | inr balance =>
  if balance <? CreditAmount_Int64 amount then
    mret (tipRejected (invalid_argument "insufficient credits to tip the implementor"))
  else
  match ParseUserID rawWorkerID with
  | TypedIDRejected reason => mret (tipRejected reason)
  | TypedIDCreated worker =>
  scan ← query_row (fun db => first_row (acct_id <$> accounts_of_user rawWorkerID db));
  match scan with
  | inl ErrNoRows => mret (tipRejected (invalid_state "submission author has no credit account"))
  | inl _ => mret (tipRejected (invalid_state "lock worker credit account failed"))
  | inr workerAccountID =>
  let debitKey := IdempotencyKey_String idempotencyKey +:+ ":tip-debit" in
  let creditKey := IdempotencyKey_String idempotencyKey +:+ ":tip-credit" in
  now ← transaction_time;
  err ← exec (insert_ledger_entry (new_entry debitEntryID requesterID "task_tip"
           (wrap64 (- CreditAmount_Int64 amount)) (Some taskID) (Some debitKey) "" now));
  match err with
  | Some _ => mret (tipRejected (invalid_state "insert task tip debit failed"))
  | None =>
  err ← exec (insert_ledger_entry (new_entry creditEntryID workerAccountID "task_tip"
           (CreditAmount_Int64 amount) (Some taskID) (Some creditKey) "" now));
  match err with
  | Some _ => mret (tipRejected (invalid_state "insert task tip credit failed"))
  | None => mret (tipResolved (CreditTip worker amount))
  end end end end end end end end.

(** ** Collectibles *)

Inductive collectibleParseResult :=
| collectibleParsed (value : Collectible)
| collectibleParseRejected (reason : DomainError).

Definition parseCollectible (rawID : string) (row : CollectibleRow) : collectibleParseResult :=
  let rawOrganizationID := default "" (col_organization_id row) in
  let rawCatalogSlug := default "" (col_catalog_slug row) in
  let rawIssuer := default "" (col_issued_by_user_id row) in
  match ParseCollectibleID rawID with
  | TypedIDRejected reason => collectibleParseRejected reason
  | TypedIDCreated collectibleID =>
  match NewCollectibleName (col_name row) with
  | CollectibleNameRejected reason => collectibleParseRejected reason
  | CollectibleNameAccepted name =>
  match ParseCollectibleKind (col_kind row) with
  | CollectibleKindRejected reason => collectibleParseRejected reason
  | CollectibleKindAccepted kind =>
  match ParseCollectibleState (col_state row) with
  | CollectibleStateRejected reason => collectibleParseRejected reason
  | CollectibleStateAccepted state =>
  match ParseTransferPolicy (col_transfer_policy row) with
  | TransferPolicyRejected reason => collectibleParseRejected reason
  | TransferPolicyAccepted policy =>
  if negb (ValidCollectibleOwnerKind (col_owner_kind row)) then
    collectibleParseRejected (NewDomainError ErrorCodeInvalidEnum "collectible owner kind is invalid")
  else
  let organization_valid :=
    if String.eqb rawOrganizationID "" then true
    else match ParseOrganizationID rawOrganizationID with TypedIDCreated _ => true | _ => false end in
  if negb organization_valid then
    collectibleParseRejected (invalid_argument "collectible organization is invalid")
  else
  let catalogResult : DomainError + CatalogRef :=
    if String.eqb rawCatalogSlug "" then inr NoCatalogRef
    else match NewCatalogSlug rawCatalogSlug with
         | CatalogSlugRejected reason => inl reason
         | CatalogSlugAccepted slug => inr (FromCatalog slug)
         end in
  match catalogResult with
  | inl reason => collectibleParseRejected reason
  | inr catalogRef =>
  let editionRef := match col_edition_number row with
                    | None => NoEditionNumber
                    | Some number => EditionNumbered number
                    end in
  let issuerResult : DomainError + IssuerRef :=
    if String.eqb rawIssuer "" then inr NoIssuer
    else match ParseUserID rawIssuer with
         | TypedIDRejected reason => inl reason
         | TypedIDCreated issuer => inr (IssuedBy issuer)
         end in
  match issuerResult with
  | inl reason => collectibleParseRejected reason
  | inr issuerRef =>
      collectibleParsed (MkCollectible collectibleID name kind state policy (col_owner_kind row)
        (col_owner_user_id row) rawOrganizationID (col_art row) catalogRef editionRef issuerRef)
  end end end end end end end.

(** The [rows.Next] / [rows.Scan] of the one row, then [parseCollectible]. *)
Definition lockCollectible (collectibleID : CollectibleID) : M collectibleParseResult :=
  rows ← query_rows (fun db => match collectibles db !! TypedID_String collectibleID with
                               | Some row => [row]
                               | None => []
                               end);
  match rows with
  | inl _ => mret (collectibleParseRejected (invalid_state "lock collectible failed"))
  | inr [] => mret (collectibleParseRejected (invalid_argument "collectible was not found"))
  | inr (row :: _) =>
      failed ← fault_point;
      if failed : bool then mret (collectibleParseRejected (invalid_state "scan collectible failed"))
      else mret (parseCollectible (TypedID_String collectibleID) row)
  end.

Definition is_active_member (organization user : string) (db : DB) : bool :=
  existsb (fun m => bool_decide (mem_organization_id m = organization /\ mem_user_id m = user /\
                                 mem_status m = "active")) (organization_memberships db).

Fixpoint require_members (organization : string) (ids : list UserID) : M (option DomainError) :=
  match ids with
  | [] => mret None
  | userID :: ids =>
      scan ← query_row (fun db => inr (is_active_member organization (TypedID_String userID) db));
      match scan with
      | inl _ => mret (Some (invalid_state "check collectible organization membership failed"))
      | inr false => mret (Some (permission_denied
          "within-organization collectible can only be tipped between organization members"))
      | inr true => require_members organization ids
      end
  end.

(** [Some reason] is the pair [(reason, true)] of the source. *)
Definition requireSharedCollectibleOrganization (collectible : Collectible) (from to : UserID) : M (option DomainError) :=
  if String.eqb (Collectible_OrganizationID collectible) "" then
    mret (Some (invalid_state "within-organization collectible has no organization"))
  else require_members (Collectible_OrganizationID collectible) [from; to].

Definition payCollectibleTip (reviewer : Reviewer) (rawWorkerID : string)
    (selection : CollectibleTipSelection) : M tipResult :=
  let not_available := tipRejected (invalid_argument "collectible is not available to tip") in
  match selection with
  | NoCollectibleTipSelection => mret (tipResolved NoTip)
  | CollectibleTipSelected id =>
  match reviewer with
  | OrganizationReviewer _ =>
      mret (tipRejected (invalid_argument "an organization credential cannot tip a collectible"))
  | UserReviewer requester =>
  match ParseUserID rawWorkerID with
  | TypedIDRejected reason => mret (tipRejected reason)
  | TypedIDCreated worker =>
  collectibleResult ← lockCollectible id;
  match collectibleResult with
  | collectibleParseRejected _ => mret not_available
  | collectibleParsed collectible =>
  let user_owned := String.eqb (Collectible_OwnerKind collectible) CollectibleOwnerKindUser in
  if user_owned && String.eqb (Collectible_OwnerID collectible) (TypedID_String worker) then
    mret (tipResolved (CollectibleTip worker id))
  else if negb user_owned || negb (String.eqb (Collectible_OwnerID collectible) (TypedID_String requester)) then
    mret not_available
  else if negb (bool_decide (Collectible_State collectible = CollectibleStateMinted)) then
    mret (tipRejected (invalid_state "collectible is not available to tip"))
  else
  match AllowsTip (Collectible_Policy collectible) with
  | RewardDenied reason => mret (tipRejected reason)
  | RewardAllowed =>
  shared ← (if bool_decide (Collectible_Policy collectible = TransferPolicyTransferableWithinOrg)
            then requireSharedCollectibleOrganization collectible requester worker
            else mret None);
  match shared with
  | Some reason => mret (tipRejected reason)
  | None =>
  err ← exec (update_collectible (set_col_owner (TypedID_String worker)) (TypedID_String id));
  match err with
  | Some _ => mret (tipRejected (invalid_state "transfer collectible tip failed"))
  | None => mret (tipResolved (CollectibleTip worker id))
  end end end end end end end.

(** The row loop of [heldFundCollectibleIDs]. *)
Fixpoint scan_collectible_ids (raws : list string) : M (DomainError + list string) :=
  match raws with
  | [] => mret (inr [])
  | raw :: raws =>
      failed ← fault_point;
      if failed : bool then mret (inl (invalid_state "scan collectible reward failed"))
      else
        rest ← scan_collectible_ids raws;
        match rest with
        | inl reason => mret (inl reason)
        | inr ids => mret (inr (raw :: ids))
        end
  end.

Definition held_collectibles (task : string) (db : DB) : list string :=
  merge_sort (fun a b => String.leb a b)
    ((filter (fun kv => kv.2 = task) (map_to_list (task_fund_collectibles db))).*1).

(** The row lock of the flag has no effect on the data. *)
Definition heldFundCollectibleIDs (taskID : TaskID) : M (DomainError + list string) :=
  rows ← query_rows (held_collectibles (TypedID_String taskID));
  match rows with
  | inl _ => mret (inl (invalid_state "read collectible reward failed"))
  | inr raws =>
      scanned ← scan_collectible_ids raws;
      match scanned with
      | inl reason => mret (inl reason)
      | inr ids =>
          failed ← fault_point;
          if failed : bool then mret (inl (invalid_state "read collectible reward failed"))
          else mret (inr ids)
      end
  end.

Fixpoint parse_collectible_ids (raws : list string) : DomainError + list CollectibleID :=
  match raws with
  | [] => inr []
  | raw :: raws =>
      match ParseCollectibleID raw with
      | TypedIDRejected reason => inl reason
      | TypedIDCreated id =>
          match parse_collectible_ids raws with
          | inl reason => inl reason
          | inr ids => inr (id :: ids)
          end
      end
  end.

Definition resolveCollectiblePayout (rawWorkerID : string) (rawCollectibleIDs : list string) : DomainError + PayoutOutcome :=
  match rawCollectibleIDs with
  | [] => inr NoPayout
  | _ =>
      match ParseUserID rawWorkerID with
      | TypedIDRejected reason => inl reason
      | TypedIDCreated worker =>
          match parse_collectible_ids rawCollectibleIDs with
          | inl reason => inl reason
          | inr ids => inr (CollectiblePayout worker ids)
          end
      end
  end.

(** The loop updating each held collectible. *)
Fixpoint update_collectibles (f : CollectibleRow -> CollectibleRow) (ids : list string) : M (option StmtError) :=
  match ids with
  | [] => mret None
  | id :: ids =>
      err ← exec (update_collectible f id);
      match err with
      | Some err => mret (Some err)
      | None => update_collectibles f ids
      end
  end.

Definition payOutCollectible (taskID : TaskID) (rawWorkerID : string) : M payoutResult :=
  held ← heldFundCollectibleIDs taskID;
  match held with
  | inl reason => mret (payoutRejected reason)
  | inr rawCollectibleIDs =>
  match resolveCollectiblePayout rawWorkerID rawCollectibleIDs with
  | inl reason => mret (payoutRejected reason)
  | inr NoPayout => mret (payoutResolved NoPayout)
  | inr outcome =>
  err ← update_collectibles (fun row => set_col_owner rawWorkerID (set_col_state "minted" row)) rawCollectibleIDs;
  match err with
  | Some _ => mret (payoutRejected (invalid_state "award collectible failed"))
  | None =>
  err ← exec (delete_fund_collectibles (TypedID_String taskID));
  match err with
  | Some _ => mret (payoutRejected (invalid_state "clear collectible reward failed"))
  | None => mret (payoutResolved outcome)
  end end end end.

(** [Some reason] is the pair [(reason, true)] of the source. *)
Definition refundHeldCollectibleReward (taskID : TaskID) : M (option DomainError) :=
  held ← heldFundCollectibleIDs taskID;
  match held with
  | inl reason => mret (Some reason)
  | inr [] => mret None
  | inr rawCollectibleIDs =>
  err ← update_collectibles (set_col_state "minted") rawCollectibleIDs;
  match err with
  | Some _ => mret (Some (invalid_state "return collectible failed"))
  | None =>
  err ← exec (delete_fund_collectibles (TypedID_String taskID));
  match err with
  | Some _ => mret (Some (invalid_state "clear collectible reward failed"))
  | None => mret None
  end end end.

(** ** Review bookkeeping *)

Definition parseReviewWorker (rawWorkerID : string) : DomainError + UserID :=
  match ParseUserID rawWorkerID with
  | TypedIDRejected reason => inl reason
  | TypedIDCreated worker => inr worker
  end.

Definition idempotentAccept (command : AcceptStoreCommand) (rawWorkerID : string) : M AcceptResult :=
  match parseReviewWorker rawWorkerID with
  | inl reason => mret (AcceptRejected reason)
  | inr workerID =>
      scan ← query_row (fun db => first_row (entry_amount <$> filter (fun e =>
        entry_task_id e = Some (TypedID_String (accept_TaskID command)) /\ entry_kind e = "task_payout" /\
        entry_idempotency_key e = Some (IdempotencyKey_String (accept_IdempotencyKey command)))
        (ledger_entries db)));
      let replay outcome := SubmissionAccepted (accept_TaskID command) (accept_SubmissionID command) workerID
                              outcome NoTip IdempotentReplay [] in
      mret match scan with
      | inl ErrNoRows => replay NoPayout
      | inl _ => AcceptRejected (invalid_state "read task payout failed")
      | inr amount =>
          match NewCreditAmount amount with
          | CreditAmountAccepted value => replay (CreditPayout workerID value)
          | CreditAmountRejected _ => replay NoPayout
          end
      end
  end.

(** The scan loop over the superseded rows, then the loop building the drafts. *)
Fixpoint scan_superseded (rows : list (string * SubmissionRow)) : M (option DomainError) :=
  match rows with
  | [] => mret None
  | (_, row) :: rows =>
      failed ← fault_point;
      match sub_user_id row with
      | None => mret (Some (invalid_state "scan superseded submission failed"))
      | Some _ =>
          if failed : bool then mret (Some (invalid_state "scan superseded submission failed"))
          else scan_superseded rows
      end
  end.

Fixpoint superseded_drafts (taskID : TaskID) (actor : Actor) (rows : list (string * SubmissionRow)) : M (DomainError + list Draft) :=
  match rows with
  | [] => mret (inr [])
  | (rawSubmissionID, row) :: rows =>
      match ParseSubmissionID rawSubmissionID with
      | TypedIDRejected _ => mret (inl (invalid_state "superseded submission id is invalid"))
      | TypedIDCreated submissionID =>
      match parseReviewWorker (default "" (sub_user_id row)) with
      | inl reason => mret (inl reason)
      | inr submitterID =>
      id ← NewDomainEventID;
      match NewDraft id KindSubmissionSuperseded actor (reviewSubject taskID submissionID)
              (TaskMetadata taskID) (NewRecipients [submitterID]) with
      | DraftRejected reason => mret (inl reason)
      | DraftCreated draft =>
      rest ← superseded_drafts taskID actor rows;
      match rest with
      | inl reason => mret (inl reason)
      | inr drafts => mret (inr (draft :: drafts))
      end end end end
  end.

Definition supersedeCompetingSubmissions (taskID : TaskID) (acceptedSubmissionID : SubmissionID)
    (actor : Actor) : M (DomainError + list Draft) :=
  rows ← stmt (fun db => inr (supersede_submissions (TypedID_String taskID)
                                (TypedID_String acceptedSubmissionID) db));
  match rows with
  | inl _ => mret (inl (invalid_state "supersede competing submissions failed"))
  | inr superseded =>
  scanned ← scan_superseded superseded;
  match scanned with
  | Some reason => mret (inl reason)
  | None =>
  failed ← fault_point;
  if failed : bool then mret (inl (invalid_state "read superseded submissions failed"))
  else superseded_drafts taskID actor superseded
  end end.

(** ** Reservations *)

Definition non_terminal (task : string) (row : ReservationRow) : bool :=
  String.eqb (res_task_id row) task && bool_decide (res_state row = "active" \/ res_state row = "submitted").

Definition releaseReservationsOnCancel (taskID : TaskID) : M (option DomainError) :=
  err ← exec (update_reservations (non_terminal (TypedID_String taskID)) "cancelled_by_requester");
  mret match err with
  | Some _ => Some (invalid_state "release reservations on cancel failed")
  | None => None
  end.

(** A loop scanning one user id per row. *)
Fixpoint scan_users (failure : DomainError) (raws : list string) : M (DomainError + list UserID) :=
  match raws with
  | [] => mret (inr [])
  | raw :: raws =>
      failed ← fault_point;
      if failed : bool then mret (inl failure)
      else match ParseUserID raw with
           | TypedIDRejected reason => mret (inl reason)
           | TypedIDCreated user =>
               rest ← scan_users failure raws;
               match rest with
               | inl reason => mret (inl reason)
               | inr users => mret (inr (user :: users))
               end
           end
  end.

(** [select distinct requested_by_user_id ...] *)
Definition holders_of (task : string) (db : DB) : list string :=
  remove_dups (res_requested_by_user_id <$>
    filter (fun row => Is_true (non_terminal task row)) (map_to_list (task_reservations db)).*2).

Definition lockedReservationHolders (rawTaskID : string) : M (DomainError + list UserID) :=
  rows ← query_rows (holders_of rawTaskID);
  match rows with
  | inl _ => mret (inl (invalid_state "list reservation holders failed"))
  | inr raws =>
  scanned ← scan_users (invalid_state "scan reservation holder failed") raws;
  match scanned with
  | inl reason => mret (inl reason)
  | inr holders =>
  failed ← fault_point;
  if failed : bool then mret (inl (invalid_state "read reservation holders failed"))
  else mret (inr holders)
  end end.

(** ** Work budgets *)

Definition workDayKeyAgentSpend : string := "agent_spend:".
Definition workDayKeyPeerSend : string := "peer_send:".
Definition workDayKeyBudgetRefusals : string := "budget_refusals".

Inductive dayCounterChargeResult :=
| dayCounterCharged
| dayCounterExhausted (usedBefore : Z)
| dayCounterChargeFailed.

Definition chargeWorkDayCounter (key day : string) (amount limit : Z) : M dayCounterChargeResult :=
  scan ← stmt (bump_counter key day amount);
  mret match scan with
  | inl _ => dayCounterChargeFailed
  | inr used =>
      if limit <? used then dayCounterExhausted (wrap64 (used - amount)) else dayCounterCharged
  end.

Definition recordBudgetRefusal : M unit :=
  day ← current_day;
  exec_outside (fun db => match bump_counter workDayKeyBudgetRefusals day 1 db with
                          | inl err => inl err
                          | inr (_, db') => inr db'
                          end).

Definition budgetExceededError (message : string) : DomainError :=
  NewDomainError ErrorCodeBudgetExceeded message.

Definition dailySpendBudgetMessage (spentBefore limit amount : Z) : string :=
  "daily credit spend budget exhausted (" +:+ FormatInt spentBefore +:+ " of " +:+ FormatInt limit +:+
  " credits spent today, this " +:+ FormatInt amount +:+ "-credit spend exceeds it, resets at 00:00 UTC)".

Definition peerTransferVelocityMessage (sentBefore limit amount : Z) : string :=
  "daily peer transfer ceiling reached (" +:+ FormatInt sentBefore +:+ " of " +:+ FormatInt limit +:+
  " credits sent today, this " +:+ FormatInt amount +:+ "-credit send exceeds it, resets at 00:00 UTC)".

Definition applySpendCharge (charge : SpendCharge) : M (option DomainError) :=
  match charge with
  | NoSpendCharge => mret None
  | ChargeSpendBudget credentialID dayLimit chargeAmount =>
      locked ← query_row (fun db =>
        if bool_decide (TypedID_String credentialID ∈ agent_credentials db) then inr tt else inl ErrNoRows);
      match locked with
      | inl _ => mret (Some (invalid_state "lock agent credential for spend budget failed"))
      | inr _ =>
          let amount := CreditAmount_Int64 chargeAmount in
          let limit := CreditAmount_Int64 dayLimit in
          day ← current_day;
          result ← chargeWorkDayCounter (workDayKeyAgentSpend +:+ TypedID_String credentialID) day amount limit;
          mret match result with
          | dayCounterCharged => None
          | dayCounterExhausted usedBefore =>
              Some (budgetExceededError (dailySpendBudgetMessage usedBefore limit amount))
          | dayCounterChargeFailed => Some (invalid_state "consume daily spend budget failed")
          end
      end
  end.

Definition applyPeerTransferVelocity (sourceAccountID : string) (amount : Z) : M (option DomainError) :=
  day ← current_day;
  result ← chargeWorkDayCounter (workDayKeyPeerSend +:+ sourceAccountID) day amount DailyPeerTransferCeilingCredits;
  mret match result with
  | dayCounterCharged => None
  | dayCounterExhausted usedBefore =>
      Some (budgetExceededError (peerTransferVelocityMessage usedBefore DailyPeerTransferCeilingCredits amount))
  | dayCounterChargeFailed => Some (invalid_state "consume peer transfer velocity budget failed")
  end.

(** ** Reading entries back *)

Definition parseTaskReference (rawTaskID : string) : DomainError + TaskReference :=
  if String.eqb rawTaskID "" then inr NoTaskReference
  else match ParseTaskID rawTaskID with
       | TypedIDRejected reason => inl reason
       | TypedIDCreated taskID => inr (TaskReferenced taskID)
       end.

Definition parseLedgerEntry (rawID rawKind : string) (amount : Z) (rawTaskID note : string) : DomainError + LedgerEntry :=
  match ParseLedgerEntryID rawID with
  | TypedIDRejected reason => inl reason
  | TypedIDCreated entryID =>
  match ParseEntryKind rawKind with
  | EntryKindRejected reason => inl reason
  | EntryKindAccepted kind =>
  match ParseSignedAmount amount with
  | SignedAmountRejected reason => inl reason
  | SignedAmountAccepted signed =>
  match parseTaskReference rawTaskID with
  | inl reason => inl reason
  | inr taskRef => inr (MkLedgerEntry entryID kind signed taskRef note)
  end end end end.

End Helpers.
