(* ===== verification/LedgerStore.v ===== *)
(** * The ledger store's operations

    Models [internal/db/ledger_store.go]: every operation of [LedgerStore], each
    one transaction of the monad of [Tx]. *)

From S2P Require Import Prelude.
From S2P Require Import Core.
From S2P Require Import OrgRoles.
From S2P Require Import Assets.
From S2P Require Import Events.
From S2P Require Import LedgerValues.
From S2P Require Import Database.
From S2P Require Import Tx.
From S2P Require Import Outbox.
From S2P Require Import LedgerHelpers.
Local Open Scope string_scope.
Local Open Scope Z_scope.

Section Store.
Context `{UUIDLib}.

(** ** Funding *)

Definition FundTask (command : FundStoreCommand) : M FundResult :=
  err ← begin_tx;
  match err with
  | Some _ => mret (FundRejected (invalid_state "begin fund task transaction failed"))
  | None =>
  account ← lockUserAccount (fund_FunderUserID command);
  match account with
  | accountLockRejected reason => mret (FundRejected reason)
  | accountLocked accountID parsedID =>
  existing ← findFundForKey (IdempotencyKey_String (fund_IdempotencyKey command)) (fund_TaskID command) accountID;
  match existing with
  | Some existing => mret existing
  | None =>
  task ← lockTaskOwnedBy (fund_TaskID command) (fund_FunderUserID command) "fund";
  match task with
  | taskLockRejected reason => mret (FundRejected reason)
  | taskLocked taskRow =>
  rejected ← requireFundableTask (fund_TaskID command) taskRow (fund_Amount command);
  match rejected with
  | Some rejected => mret rejected
  | None =>
  problem ← applySpendCharge (fund_Spend command);
  match problem with
  | Some problem => _ ← recordBudgetRefusal; mret (FundRejected problem)
  | None =>
      completeFunding accountID parsedID (fund_TaskID command) (fund_Amount command) (fund_EntryID command)
        (fund_IdempotencyKey command) "insufficient credits to fund the task" (fund_Draft command)
  end end end end end end.

Definition FundTaskFromOrganization (command : OrganizationFundStoreCommand) : M FundResult :=
  err ← begin_tx;
  match err with
  | Some _ => mret (FundRejected (invalid_state "begin fund task transaction failed"))
  | None =>
  account ← lockOrganizationAccount (orgfund_OrganizationID command);
  match account with
  | accountLockRejected reason => mret (FundRejected reason)
  | accountLocked accountID parsedID =>
  existing ← findFundForKey (IdempotencyKey_String (orgfund_IdempotencyKey command)) (orgfund_TaskID command) accountID;
  match existing with
  | Some existing => mret existing
  | None =>
  task ← lockTaskOwnedByOrganization (orgfund_TaskID command) (orgfund_OrganizationID command);
  match task with
  | taskLockRejected reason => mret (FundRejected reason)
  | taskLocked taskRow =>
  rejected ← requireFundableTask (orgfund_TaskID command) taskRow (orgfund_Amount command);
  match rejected with
  | Some rejected => mret rejected
  | None =>
  match parseReviewWorker (locked_rawCreatedBy taskRow) with
  | inl problem => mret (FundRejected problem)
  | inr ownerID =>
  let draft := WithRecipients (orgfund_Draft command) [ownerID] in
  problem ← applySpendCharge (orgfund_Spend command);
  match problem with
  | Some problem => _ ← recordBudgetRefusal; mret (FundRejected problem)
  | None =>
      completeFunding accountID parsedID (orgfund_TaskID command) (orgfund_Amount command) (orgfund_EntryID command)
        (orgfund_IdempotencyKey command) "insufficient organization credits to fund the task" draft
  end end end end end end end.

(** ** Accepting a submission *)

Definition combinePayouts (first second : PayoutOutcome) : PayoutOutcome :=
  let otherwise := match first with NoPayout => second | _ => first end in
  match first, second with
  | CreditPayout worker amount, CollectiblePayout worker' ids =>
      if bool_decide (worker = worker') then BundlePayout worker amount ids else otherwise
  | _, _ => otherwise
  end.

Definition combineTips (first second : TipOutcome) : TipOutcome :=
  let otherwise := match first with NoTip => second | _ => first end in
  match first, second with
  | CreditTip worker amount, CollectibleTip worker' id =>
      if bool_decide (worker = worker') then BundleTip worker amount id else otherwise
  | _, _ => otherwise
  end.

(** [select ... from submissions where id = $1 and task_id = $2]; a null
    [user_id] does not scan into a string. *)
Definition select_submission (submissionID : SubmissionID) (taskID : TaskID) : M (StmtError + (SubmissionRow * string)) :=
  query_row (fun db =>
    match submissions db !! TypedID_String submissionID with
    | Some row =>
        if String.eqb (sub_task_id row) (TypedID_String taskID) then
          match sub_user_id row with
          | Some user => inr (row, user)
          | None => inl ErrOther
          end
        else inl ErrNoRows
    | None => inl ErrNoRows
    end).

Definition is_no_payout (outcome : PayoutOutcome) : bool :=
  match outcome with NoPayout => true | _ => false end.

Definition commit_events {R} (drafts : list Draft) (record_failed commit_failed : R) (result : R) : M R :=
  err ← recordEventDrafts drafts;
  match err with
  | Some _ => mret record_failed
  | None =>
      err ← commit_tx;
      match err with
      | Some _ => mret commit_failed
      | None => mret result
      end
  end.

(** The part of [AcceptSubmission] after the submission and task updates. *)
Definition settle_accept (command : AcceptStoreCommand) (taskRow : taskLockedRow) (rawWorkerID : string) : M AcceptResult :=
  payoutResult ← payOutEscrow command rawWorkerID;
  match payoutResult with
  | payoutRejected reason => mret (AcceptRejected reason)
  | payoutResolved credit =>
  collectibleResult ← payOutCollectible (accept_TaskID command) rawWorkerID;
  match collectibleResult with
  | payoutRejected reason => mret (AcceptRejected reason)
  | payoutResolved collectible =>
  let outcome := combinePayouts credit collectible in
  if is_no_payout outcome &&
     bool_decide (locked_rewardKind taskRow = "credit" \/ locked_rewardKind taskRow = "bundle") then
    mret (AcceptRejected (conflict "credit reward fund is missing"))
  else
  problem ← applySpendCharge (accept_Spend command);
  match problem with
  | Some problem => _ ← recordBudgetRefusal; mret (AcceptRejected problem)
  | None =>
  tipResult ← payCreditTip (accept_TaskID command) (accept_Reviewer command) rawWorkerID
      (accept_TipDebitEntryID command) (accept_TipCreditEntryID command) (accept_IdempotencyKey command)
      (accept_TipSelection command);
  match tipResult with
  | tipRejected reason => mret (AcceptRejected reason)
  | tipResolved tip =>
  collectibleTipResult ← payCollectibleTip (accept_Reviewer command) rawWorkerID (accept_CollectibleTip command);
  match collectibleTipResult with
  | tipRejected reason => mret (AcceptRejected reason)
  | tipResolved collectibleTip =>
  let tipOutcome := combineTips tip collectibleTip in
  match parseReviewWorker rawWorkerID with
  | inl problem => mret (AcceptRejected problem)
  | inr workerID =>
  superseded ← supersedeCompetingSubmissions (accept_TaskID command) (accept_SubmissionID command)
      (Draft_Actor (accept_Draft command));
  match superseded with
  | inl problem => mret (AcceptRejected problem)
  | inr supersededDrafts =>
  let acceptedDraft := WithRecipients (accept_Draft command) [workerID] in
  payoutDrafts ← ReviewEventDrafts acceptedDraft (accept_Reviewer command) (accept_TaskID command) outcome tipOutcome;
  match payoutDrafts with
  | inl problem => mret (AcceptRejected problem)
  | inr payoutDrafts =>
  let recorded := (([acceptedDraft] ++ payoutDrafts) ++ supersededDrafts)%list in
  commit_events recorded
    (AcceptRejected (invalid_state "record accept events failed"))
    (AcceptRejected (invalid_state "commit accept submission transaction failed"))
    (SubmissionAccepted (accept_TaskID command) (accept_SubmissionID command) workerID outcome tipOutcome
       FirstExecution recorded)
  end end end end end end end end.

Definition AcceptSubmission (command : AcceptStoreCommand) : M AcceptResult :=
  err ← begin_tx;
  match err with
  | Some _ => mret (AcceptRejected (invalid_state "begin accept submission transaction failed"))
  | None =>
  task ← lockTaskForReview (accept_TaskID command) (accept_Reviewer command) "accept submissions for";
  match task with
  | taskLockRejected reason => mret (AcceptRejected reason)
  | taskLocked taskRow =>
  scan ← select_submission (accept_SubmissionID command) (accept_TaskID command);
  match scan with
  | inl ErrNoRows => mret (AcceptRejected (NewDomainError ErrorCodeNotFound "submission was not found for the task"))
  | inl _ => mret (AcceptRejected (invalid_state "read submission failed"))
  | inr (row, rawWorkerID) =>
  if String.eqb (sub_state row) "accepted" then
    if negb (String.eqb (default "" (sub_accepted_idempotency_key row))
               (IdempotencyKey_String (accept_IdempotencyKey command))) then
      mret (AcceptRejected (conflict "submission was already accepted with a different idempotency key"))
    else idempotentAccept command rawWorkerID
  else if negb (String.eqb (sub_state row) "submitted") then
    mret (AcceptRejected (conflict "only valid submissions can be accepted"))
  else if negb (String.eqb (locked_state taskRow) "open") then
    mret (AcceptRejected (conflict "only open tasks can accept submissions"))
  else
  err ← exec (update_submission_accepted (TypedID_String (accept_SubmissionID command))
                (IdempotencyKey_String (accept_IdempotencyKey command)));
  match err with
  | Some ErrUniqueViolation => mret (AcceptRejected (conflict "task already has an accepted submission"))
  | Some _ => mret (AcceptRejected (invalid_state "accept submission failed"))
  | None =>
  err ← exec (update_task_state (TypedID_String (accept_TaskID command)) "closed");
  match err with
  | Some _ => mret (AcceptRejected (invalid_state "close task failed"))
  | None => settle_accept command taskRow rawWorkerID
  end end end end end.

(** ** Requesting changes and rejecting *)

Definition worker_reservation (task worker : string) (states : list string) (row : ReservationRow) : bool :=
  bool_decide (res_task_id row = task /\ res_assignee_kind row = "user" /\ res_user_id row = Some worker /\
               res_state row ∈ states).

Definition RequestChanges (command : RequestChangesStoreCommand) : M RequestChangesResult :=
  let key := IdempotencyKey_String (changes_IdempotencyKey command) in
  err ← begin_tx;
  match err with
  | Some _ => mret (RequestChangesRejected (invalid_state "begin request changes transaction failed"))
  | None =>
  task ← lockTaskForReview (changes_TaskID command) (changes_Reviewer command) "review submissions for";
  match task with
  | taskLockRejected reason => mret (RequestChangesRejected reason)
  | taskLocked taskRow =>
  if negb (String.eqb (locked_state taskRow) "open") then
    mret (RequestChangesRejected (conflict "only open tasks can request submission changes"))
  else
  scan ← select_submission (changes_SubmissionID command) (changes_TaskID command);
  match scan with
  | inl ErrNoRows => mret (RequestChangesRejected (NewDomainError ErrorCodeNotFound "submission was not found for the task"))
  | inl _ => mret (RequestChangesRejected (invalid_state "read submission failed"))
  | inr (row, rawWorkerID) =>
  match parseReviewWorker rawWorkerID with
  | inl problem => mret (RequestChangesRejected problem)
  | inr workerID =>
  if String.eqb (sub_state row) "changes_requested" then
    if String.eqb (default "" (sub_changes_idempotency_key row)) key then
      mret (ChangesRequested (changes_TaskID command) (changes_SubmissionID command) workerID
              (sub_review_note row) IdempotentReplay [])
    else mret (RequestChangesRejected (conflict "changes were already requested with a different idempotency key"))
  else if negb (String.eqb (sub_state row) "submitted") then
    mret (RequestChangesRejected (conflict "only submitted work can receive requested changes"))
  else
  err ← exec (update_submission_changes_requested (TypedID_String (changes_SubmissionID command))
                (ReviewNote_String (changes_ReviewNote command)) (reviewerUserColumn (changes_Reviewer command)) key);
  match err with
  | Some _ => mret (RequestChangesRejected (invalid_state "request submission changes failed"))
  | None =>
  err ← exec (update_reservations
                (worker_reservation (TypedID_String (changes_TaskID command)) rawWorkerID ["submitted"]) "active");
  match err with
  | Some _ => mret (RequestChangesRejected (invalid_state "reactivate task reservation failed"))
  | None =>
  let draft := WithRecipients (changes_Draft command) [workerID] in
  commit_events [draft]
    (RequestChangesRejected (invalid_state "record changes requested event failed"))
    (RequestChangesRejected (invalid_state "commit request changes transaction failed"))
    (ChangesRequested (changes_TaskID command) (changes_SubmissionID command) workerID
       (ReviewNote_String (changes_ReviewNote command)) FirstExecution [draft])
  end end end end end end.

(** The ban branch of [RejectSubmission]. *)
Definition ban_implementor (command : RejectStoreCommand) (rawWorkerID : string) : M (option DomainError) :=
  match reject_BanSelection command with
  | NoBanSelection => mret None
  | BanImplementorSelection =>
      match reviewerUserColumn (reject_Reviewer command) with
      | None => mret (Some (invalid_argument "an organization credential cannot ban an implementor"))
      | Some bannedBy =>
          err ← exec (insert_ban (TypedID_String (reject_TaskID command)) rawWorkerID bannedBy);
          mret match err with
          | Some _ => Some (invalid_state "ban task implementor failed")
          | None => None
          end
      end
  end.

(** The part of [RejectSubmission] after its guards. *)
Definition settle_reject (command : RejectStoreCommand) (rawWorkerID : string) (workerID : UserID) : M RejectResult :=
  let key := IdempotencyKey_String (reject_IdempotencyKey command) in
  payoutResult ← payReviewFund (MkReviewFundCommand (reject_TaskID command) rawWorkerID
      (reject_PayoutEntryID command) (MkTypedID (MkID uuid_nil)) (reject_IdempotencyKey command)
      (reject_CreditSelection command) false true);
  match payoutResult with
  | payoutRejected reason => mret (RejectRejected reason)
  | payoutResolved payout =>
  problem ← applySpendCharge (reject_Spend command);
  match problem with
  | Some problem => _ ← recordBudgetRefusal; mret (RejectRejected problem)
  | None =>
  tipResult ← payCreditTip (reject_TaskID command) (reject_Reviewer command) rawWorkerID
      (reject_TipDebitEntryID command) (reject_TipCreditEntryID command) (reject_IdempotencyKey command)
      (reject_TipSelection command);
  match tipResult with
  | tipRejected reason => mret (RejectRejected reason)
  | tipResolved tip =>
  err ← exec (update_submission_rejected (TypedID_String (reject_SubmissionID command))
                (ReviewNote_String (reject_ReviewNote command)) (reviewerUserColumn (reject_Reviewer command)) key);
  match err with
  | Some _ => mret (RejectRejected (invalid_state "reject submission failed"))
  | None =>
  err ← exec (update_reservations
                (worker_reservation (TypedID_String (reject_TaskID command)) rawWorkerID ["active"; "submitted"])
                "cancelled_by_requester");
  match err with
  | Some _ => mret (RejectRejected (invalid_state "release rejected reservation failed"))
  | None =>
  banned ← ban_implementor command rawWorkerID;
  match banned with
  | Some problem => mret (RejectRejected problem)
  | None =>
  let rejectedDraft := WithRecipients (reject_Draft command) [workerID] in
  payoutDrafts ← ReviewEventDrafts rejectedDraft (reject_Reviewer command) (reject_TaskID command) payout tip;
  match payoutDrafts with
  | inl problem => mret (RejectRejected problem)
  | inr payoutDrafts =>
  let recorded := ([rejectedDraft] ++ payoutDrafts)%list in
  commit_events recorded
    (RejectRejected (invalid_state "record reject events failed"))
    (RejectRejected (invalid_state "commit reject submission transaction failed"))
    (SubmissionRejected (reject_TaskID command) (reject_SubmissionID command) workerID payout tip
       FirstExecution recorded)
  end end end end end end end.

Definition RejectSubmission (command : RejectStoreCommand) : M RejectResult :=
  err ← begin_tx;
  match err with
  | Some _ => mret (RejectRejected (invalid_state "begin reject submission transaction failed"))
  | None =>
  task ← lockTaskForReview (reject_TaskID command) (reject_Reviewer command) "review submissions for";
  match task with
  | taskLockRejected reason => mret (RejectRejected reason)
  | taskLocked taskRow =>
  if negb (String.eqb (locked_state taskRow) "open") then
    mret (RejectRejected (conflict "only open tasks can reject submissions"))
  else
  scan ← select_submission (reject_SubmissionID command) (reject_TaskID command);
  match scan with
  | inl ErrNoRows => mret (RejectRejected (NewDomainError ErrorCodeNotFound "submission was not found for the task"))
  | inl _ => mret (RejectRejected (invalid_state "read submission failed"))
  | inr (row, rawWorkerID) =>
  match parseReviewWorker rawWorkerID with
  | inl problem => mret (RejectRejected problem)
  | inr workerID =>
  if String.eqb (sub_state row) "rejected" then
    if String.eqb (default "" (sub_review_idempotency_key row))
         (IdempotencyKey_String (reject_IdempotencyKey command)) then
      mret (SubmissionRejected (reject_TaskID command) (reject_SubmissionID command) workerID NoPayout NoTip
              IdempotentReplay [])
    else mret (RejectRejected (conflict "submission was already rejected with a different idempotency key"))
  else if negb (String.eqb (sub_state row) "submitted") then
    mret (RejectRejected (conflict "only submitted work can be rejected"))
  else settle_reject command rawWorkerID workerID
  end end end end.

(** ** Grants *)

(** The distinct active owner, admin and billing members of the organization. *)
Definition grant_audience (organization : string) (db : DB) : list string :=
  remove_dups (mem_user_id <$> filter (fun m =>
    mem_organization_id m = organization /\ mem_status m = "active" /\
    Exists (fun role => role ∈ ["owner"; "admin"; "billing"]) (mem_roles m)) (organization_memberships db)).

Definition grantRecipients (target : GrantTarget) : M (DomainError + list UserID) :=
  match target with
  | GrantToUser id => mret (inr [id])
  | GrantToOrganization id =>
      rows ← query_rows (grant_audience (TypedID_String id));
      match rows with
      | inl _ => mret (inl (invalid_state "read credit grant recipients failed"))
      | inr raws =>
      scanned ← scan_users (invalid_state "scan credit grant recipient failed") raws;
      match scanned with
      | inl reason => mret (inl reason)
      | inr recipients =>
      failed ← fault_point;
      if failed : bool then mret (inl (invalid_state "read credit grant recipients failed"))
      else mret (inr recipients)
      end end
  end.

Definition GrantCredits (command : GrantStoreCommand) : M GrantResult :=
  let key := IdempotencyKey_String (grant_IdempotencyKey command) in
  let amount := CreditAmount_Int64 (grant_Amount command) in
  err ← begin_tx;
  match err with
  | Some _ => mret (GrantRejected (invalid_state "begin credit grant transaction failed"))
  | None =>
  account ← match grant_Target command with
    | GrantToUser id => lockUserAccount id
    | GrantToOrganization id => lockOrganizationAccount id
    end;
  match account with
  | accountLockRejected reason => mret (GrantRejected reason)
  | accountLocked accountID _ =>
  scan ← query_row (entry_with_key key accountID);
  entry ← (match scan with
    | inl ErrNoRows =>
        now ← transaction_time;
        err ← exec (insert_ledger_entry (new_entry (grant_EntryID command) accountID "manual_adjustment" amount
                 None (Some key) (GrantNote_String (grant_Note command)) now));
        mret match err with
        | Some _ => inl (invalid_state "insert credit grant ledger entry failed")
        | None => inr (grant_EntryID command, false)
        end
    | inl _ => mret (inl (invalid_state "check credit grant idempotency failed"))
    | inr existing =>
        mret (if negb (String.eqb (entry_kind existing) (EntryKind_String EntryKindManualAdjustment))
                 || negb (entry_amount existing =? amount) then
          inl (invalid_state "idempotency key was used for a different command")
        else match ParseLedgerEntryID (entry_id existing) with
             | TypedIDRejected reason => inl reason
             | TypedIDCreated value => inr (value, true)
             end)
    end : M (DomainError + LedgerEntryID * bool));
  match entry with
  | inl reason => mret (GrantRejected reason)
  | inr (entryID, replayed) =>
  resolved ← grantRecipients (grant_Target command);
  match resolved with
  | inl reason => mret (GrantRejected reason)
  | inr recipients =>
  let drafts := if replayed : bool then [] else [WithRecipients (grant_Draft command) recipients] in
  commit_events drafts
    (GrantRejected (invalid_state "record credit grant event failed"))
    (GrantRejected (invalid_state "commit credit grant transaction failed"))
    (CreditsGranted entryID (grant_Amount command) recipients
       (if replayed : bool then IdempotentReplay else FirstExecution) drafts)
  end end end end.

(** ** Refunds *)

Definition active_implementor (task user : string) (db : DB) : bool :=
  existsb (fun kv => worker_reservation task user ["active"] kv.2) (map_to_list (task_reservations db)).

(** [None] is the nil of the source: the refund is authorized. *)
Definition lockTaskRefundable (taskID : TaskID) (requester : UserID) : M (option DomainError) :=
  let not_awarded (row : TaskRow) :=
    if negb (String.eqb (task_state row) "draft") && negb (String.eqb (task_state row) "open") then
      Some (invalid_state "only tasks that are not yet awarded can be refunded")
    else None in
  scan ← select_task taskID;
  match scan with
  | inl ErrNoRows => mret (Some task_not_found)
  | inl _ => mret (Some (invalid_state "lock task failed"))
  | inr row =>
      if negb (String.eqb (task_created_by_user_id row) (TypedID_String requester)) then
        active ← query_row (fun db => inr (active_implementor (TypedID_String taskID) (TypedID_String requester) db));
        mret match active with
        | inl _ => Some (invalid_state "check active reservation failed")
        | inr false => Some (permission_denied "only the task owner or the active implementor can refund the task")
        | inr true => not_awarded row
        end
      else mret (not_awarded row)
  end.

Definition replayOrRejectRefund (command : RefundStoreCommand) (keyExists : bool) : M RefundResult :=
  if negb keyExists then mret (RefundRejected (invalid_state "task has nothing to refund"))
  else
  scan ← query_row (fun db => first_row (filter (fun e =>
    entry_task_id e = Some (TypedID_String (refund_TaskID command)) /\ entry_kind e = "task_refund" /\
    entry_idempotency_key e = Some (IdempotencyKey_String (refund_IdempotencyKey command))) (ledger_entries db)));
  mret match scan with
  | inl ErrNoRows => RefundRejected (invalid_state "idempotency key was used for a different command")
  | inl _ => RefundRejected (invalid_state "read task refund failed")
  | inr row =>
      match buildFund (refund_TaskID command) (entry_account_id row) (entry_amount row) with
      | fundBuildRejected reason => RefundRejected reason
      | fundBuilt value => TaskRefunded value IdempotentReplay []
      end
  end.

(** [select exists(select 1 from ledger_entries where idempotency_key = $1 and ...)] *)
Definition key_used (key : string) (scope : EntryRow -> bool) (db : DB) : bool :=
  existsb (fun e => bool_decide (entry_idempotency_key e = Some key) && scope e) (ledger_entries db).

(** The part of [RefundTask] after the fund row is read and the key is fresh. *)
Definition settle_refund (command : RefundStoreCommand) (fund : FundRow) : M RefundResult :=
  let task := TypedID_String (refund_TaskID command) in
  match buildFund (refund_TaskID command) (fund_account_id fund) (fund_credit_amount fund) with
  | fundBuildRejected reason => mret (RefundRejected reason)
  | fundBuilt value =>
  now ← transaction_time;
  err ← exec (insert_ledger_entry (new_entry (refund_EntryID command) (fund_account_id fund) "task_refund"
           (fund_credit_amount fund) (Some (refund_TaskID command))
           (Some (IdempotencyKey_String (refund_IdempotencyKey command))) "" now));
  match err with
  | Some _ => mret (RefundRejected (invalid_state "insert task refund ledger entry failed"))
  | None =>
  err ← exec (delete_task_fund task);
  match err with
  | Some _ => mret (RefundRejected (invalid_state "clear task fund failed"))
  | None =>
  refunded ← refundHeldCollectibleReward (refund_TaskID command);
  match refunded with
  | Some reason => mret (RefundRejected reason)
  | None =>
  err ← exec (update_task_state task "cancelled");
  match err with
  | Some _ => mret (RefundRejected (invalid_state "cancel task failed"))
  | None =>
  holders ← lockedReservationHolders task;
  match holders with
  | inl reason => mret (RefundRejected reason)
  | inr holders =>
  released ← releaseReservationsOnCancel (refund_TaskID command);
  match released with
  | Some reason => mret (RefundRejected reason)
  | None =>
  let draft := WithRecipients (refund_Draft command) holders in
  commit_events [draft]
    (RefundRejected (invalid_state "record task refund event failed"))
    (RefundRejected (invalid_state "commit refund task transaction failed"))
    (TaskRefunded value FirstExecution [draft])
  end end end end end end end.

Definition RefundTask (command : RefundStoreCommand) : M RefundResult :=
  let task := TypedID_String (refund_TaskID command) in
  let key := IdempotencyKey_String (refund_IdempotencyKey command) in
  let key_check_failed := RefundRejected (invalid_state "check refund idempotency failed") in
  err ← begin_tx;
  match err with
  | Some _ => mret (RefundRejected (invalid_state "begin refund task transaction failed"))
  | None =>
  refundable ← lockTaskRefundable (refund_TaskID command) (refund_RequesterUserID command);
  match refundable with
  | Some reason => mret (RefundRejected reason)
  | None =>
  exists_scan ← query_row (fun db => inr (key_used key (fun e => bool_decide (entry_task_id e = Some task)) db));
  match exists_scan with
  | inl _ => mret key_check_failed
  | inr keyExists =>
  scan ← select_fund (refund_TaskID command);
  match scan with
  | inl ErrNoRows => replayOrRejectRefund command keyExists
  | inl _ => mret (RefundRejected (invalid_state "read task fund failed"))
  | inr fund =>
  exists_scan ← (if negb keyExists then
      query_row (fun db => inr (key_used key (fun e => String.eqb (entry_account_id e) (fund_account_id fund)) db))
    else mret (inr keyExists));
  match exists_scan with
  | inl _ => mret key_check_failed
  | inr true => mret (RefundRejected (invalid_state "idempotency key was used for a different command"))
  | inr false => settle_refund command fund
  end end end end end.

(** ** Peer transfers *)

Inductive account_owner := owner_user (id : UserID) | owner_organization (id : OrganizationID).

Record transferAccountRef := MkTransferAccountRef { ref_key : string; ref_owner : account_owner }.

Definition user_ref (user : UserID) : transferAccountRef :=
  MkTransferAccountRef ("user:" +:+ TypedID_String user) (owner_user user).
Definition organization_ref (organization : OrganizationID) : transferAccountRef :=
  MkTransferAccountRef ("organization:" +:+ TypedID_String organization) (owner_organization organization).

Definition transferSourceRef (source : TransferSource) (actor : UserID) : transferAccountRef :=
  match source with
  | TransferFromSelf => user_ref actor
  | TransferFromOrganization id => organization_ref id
  end.

Definition transferTargetRef (target : TransferTarget) : transferAccountRef :=
  match target with
  | TransferToUser id => user_ref id
  | TransferToOrganization id => organization_ref id
  end.

Definition lockTransferAccount (ref : transferAccountRef) : M accountLockResult :=
  match ref_owner ref with
  | owner_user id => lockUserAccount id
  | owner_organization id => lockOrganizationAccount id
  end.

(** The loop locking the two accounts in key order; [locked] is the Go map. *)
Fixpoint lock_in_order (refs : list transferAccountRef) (locked : gmap string string) : M (DomainError + gmap string string) :=
  match refs with
  | [] => mret (inr locked)
  | ref :: refs =>
      result ← lockTransferAccount ref;
      match result with
      | accountLockRejected reason => mret (inl reason)
      | accountLocked id _ => lock_in_order refs (<[ref_key ref := id]> locked)
      end
  end.

Definition transferReceivers (target : TransferTarget) : M (DomainError + list UserID) :=
  match target with
  | TransferToUser id => mret (inr [id])
  | TransferToOrganization id => grantRecipients (GrantToOrganization id)
  end.

(** The in-transaction authorization of an organization source. *)
Definition authorize_source (source : TransferSource) (actor : UserID) : M (option DomainError) :=
  match source with
  | TransferFromSelf => mret None
  | TransferFromOrganization id =>
      check ← organizationMemberPermission (TypedID_String id) actor PermissionManageBilling;
      mret match check with
      | PermissionDenied _ => Some (permission_denied "sending organization credits requires the billing permission")
      | PermissionGranted => None
      end
  end.

(** The first execution of a transfer, after the replay check. *)
Definition settle_transfer (command : PeerTransferStoreCommand) (sourceAccount targetAccount : string)
    (receivers : list UserID) : M SendResult :=
  let amount := CreditAmount_Int64 (send_Amount command) in
  let debitKey := IdempotencyKey_String (send_IdempotencyKey command) +:+ ":send-debit" in
  let creditKey := IdempotencyKey_String (send_IdempotencyKey command) +:+ ":send-credit" in
  spendable_scan ← read_spendable sourceAccount;
  match spendable_scan with
  | inl _ => mret (SendRejected (invalid_state "read sender balance failed"))
  | inr spendable =>
  if spendable <? amount then mret (SendRejected (invalid_argument "insufficient credits to send"))
  else
  problem ← applyPeerTransferVelocity sourceAccount amount;
  match problem with
  | Some problem => _ ← recordBudgetRefusal; mret (SendRejected problem)
  | None =>
  problem ← applySpendCharge (send_Spend command);
  match problem with
  | Some problem => _ ← recordBudgetRefusal; mret (SendRejected problem)
  | None =>
  let noteText := match send_Note command with
                  | TransferNoteProvided note => GrantNote_String note
                  | NoTransferNote => ""
                  end in
  now ← transaction_time;
  err ← exec (insert_ledger_entry (new_entry (send_DebitEntryID command) sourceAccount "peer_transfer"
           (wrap64 (- amount)) None (Some debitKey) noteText now));
  match err with
  | Some _ => mret (SendRejected (invalid_state "insert peer transfer debit failed"))
  | None =>
  err ← exec (insert_ledger_entry (new_entry (send_CreditEntryID command) targetAccount "peer_transfer"
           amount None (Some creditKey) noteText now));
  match err with
  | Some _ => mret (SendRejected (invalid_state "insert peer transfer credit failed"))
  | None =>
  let draft := WithRecipients (send_Draft command) receivers in
  commit_events [draft]
    (SendRejected (invalid_state "record credits sent event failed"))
    (SendRejected (invalid_state "commit peer transfer transaction failed"))
    (CreditsSent (send_DebitEntryID command) (send_Amount command) receivers FirstExecution [draft])
  end end end end end.

(** The part of [PeerTransfer] after both accounts are locked. *)
Definition transfer_locked (command : PeerTransferStoreCommand) (sourceAccount targetAccount : string) : M SendResult :=
  let debitKey := IdempotencyKey_String (send_IdempotencyKey command) +:+ ":send-debit" in
  resolved ← transferReceivers (send_Target command);
  match resolved with
  | inl reason => mret (SendRejected reason)
  | inr receivers =>
  scan ← query_row (entry_with_key debitKey sourceAccount);
  match scan with
  | inl ErrNoRows => settle_transfer command sourceAccount targetAccount receivers
  | inl _ => mret (SendRejected (invalid_state "check peer transfer idempotency failed"))
  | inr existing =>
      if negb (String.eqb (entry_kind existing) (EntryKind_String EntryKindPeerTransfer))
         || negb (entry_amount existing =? wrap64 (- CreditAmount_Int64 (send_Amount command))) then
        mret (SendRejected (invalid_state "idempotency key was used for a different command"))
      else
      match ParseLedgerEntryID (entry_id existing) with
      | TypedIDRejected reason => mret (SendRejected reason)
      | TypedIDCreated value =>
          err ← commit_tx;
          mret match err with
          | Some _ => SendRejected (invalid_state "commit peer transfer replay failed")
          | None => CreditsSent value (send_Amount command) receivers IdempotentReplay []
          end
      end
  end end.

Definition PeerTransfer (command : PeerTransferStoreCommand) : M SendResult :=
  let sourceRef := transferSourceRef (send_Source command) (send_ActingUserID command) in
  let targetRef := transferTargetRef (send_Target command) in
  if String.eqb (ref_key sourceRef) (ref_key targetRef) then
    mret (SendRejected (invalid_argument "credits cannot be sent to the sending account"))
  else
  err ← begin_tx;
  match err with
  | Some _ => mret (SendRejected (invalid_state "begin peer transfer transaction failed"))
  | None =>
  denied ← authorize_source (send_Source command) (send_ActingUserID command);
  match denied with
  | Some reason => mret (SendRejected reason)
  | None =>
  let refs := if String.ltb (ref_key targetRef) (ref_key sourceRef)
              then [targetRef; sourceRef] else [sourceRef; targetRef] in
  locked ← lock_in_order refs ∅;
  match locked with
  | inl reason => mret (SendRejected reason)
  | inr locked =>
      transfer_locked command (default "" (locked !! ref_key sourceRef)) (default "" (locked !! ref_key targetRef))
  end end end.

(** ** Reads *)

Definition wallet_of (account_ids : list string) (db : DB) : StmtError + (Z * Z) :=
  match scan_int64 (sum_Z (entry_amount <$> filter (fun e => entry_account_id e ∈ account_ids) (ledger_entries db))),
        scan_int64 (map_sum (fun f => if decide (fund_account_id f ∈ account_ids) then fund_credit_amount f else 0)
                      (task_funds db)) with
  | inr spendable, inr allocated => inr (spendable, allocated)
  | _, _ => inl ErrOther
  end.

Definition StoreBalance (owner : UserID) : M BalanceResult :=
  scan ← query_row (fun db => wallet_of (acct_id <$> accounts_of_user (TypedID_String owner) db) db);
  mret match scan with
  | inl _ => BalanceRejected (invalid_state "read balance failed")
  | inr (spendable, allocated) => BalanceFound (NewBalance spendable allocated)
  end.

Definition OrganizationBalance (organizationID : OrganizationID) : M BalanceResult :=
  scan ← query_row (fun db =>
    wallet_of (acct_id <$> accounts_of_organization (TypedID_String organizationID) db) db);
  mret match scan with
  | inl _ => BalanceRejected (invalid_state "read organization balance failed")
  | inr (spendable, allocated) => BalanceFound (NewBalance spendable allocated)
  end.

Definition TaskAllocatedCredits (taskID : TaskID) : M TaskAllocatedResult :=
  scan ← query_row (fun db => inr match task_funds db !! TypedID_String taskID with
                                  | Some fund => fund_credit_amount fund
                                  | None => 0
                                  end);
  mret match scan with
  | inl _ => TaskAllocatedRejected (invalid_state "read task allocated credits failed")
  | inr allocated => TaskAllocatedFound allocated
  end.

(** [order by created_at desc, id desc] *)
Definition entry_before (a b : EntryRow) : Prop :=
  entry_created_at b < entry_created_at a \/
  (entry_created_at a = entry_created_at b /\ Is_true (String.leb (entry_id b) (entry_id a))).

#[local] Instance entry_before_dec : RelDecision entry_before.
Proof. unfold entry_before. intros ??. apply _. Defined.

Definition entries_page (account_ids : list string) (page : Pagination.Page) (db : DB) : list EntryRow :=
  Pagination.sql_page page (merge_sort entry_before
    (filter (fun e => entry_account_id e ∈ account_ids) (ledger_entries db))).

Fixpoint scan_entries (scan_failed : DomainError) (rows : list EntryRow) : M (DomainError + list LedgerEntry) :=
  match rows with
  | [] => mret (inr [])
  | row :: rows =>
      failed ← fault_point;
      if failed : bool then mret (inl scan_failed)
      else match parseLedgerEntry (entry_id row) (entry_kind row) (entry_amount row)
                   (default "" (entry_task_id row)) (entry_note row) with
           | inl reason => mret (inl reason)
           | inr entry =>
               rest ← scan_entries scan_failed rows;
               match rest with
               | inl reason => mret (inl reason)
               | inr entries => mret (inr (entry :: entries))
               end
           end
  end.

(** The two listings differ in the account they select and in their messages. *)
Definition list_entries (accounts : DB -> list string) (count_failed list_failed scan_failed read_failed : string)
    (page : Pagination.Page) : M ListEntriesResult :=
  total_scan ← query_row (fun db =>
    inr (Z.of_nat (length (filter (fun e => entry_account_id e ∈ accounts db) (ledger_entries db)))));
  match total_scan with
  | inl _ => mret (ListEntriesRejected (invalid_state count_failed))
  | inr total =>
  rows ← query_rows (fun db => entries_page (accounts db) page db);
  match rows with
  | inl _ => mret (ListEntriesRejected (invalid_state list_failed))
  | inr rows =>
  scanned ← scan_entries (invalid_state scan_failed) rows;
  match scanned with
  | inl reason => mret (ListEntriesRejected reason)
  | inr entries =>
  failed ← fault_point;
  if failed : bool then mret (ListEntriesRejected (invalid_state read_failed))
  else mret (EntriesListed entries total)
  end end end.

Definition ListEntries (owner : UserID) (page : Pagination.Page) : M ListEntriesResult :=
  list_entries (fun db => acct_id <$> accounts_of_user (TypedID_String owner) db)
    "count ledger entries failed" "list ledger entries failed" "scan ledger entry failed"
    "read ledger entries failed" page.

Definition ListOrganizationEntries (organizationID : OrganizationID) (page : Pagination.Page) : M ListEntriesResult :=
  list_entries (fun db => acct_id <$> accounts_of_organization (TypedID_String organizationID) db)
    "count organization ledger entries failed" "list organization ledger entries failed"
    "scan organization ledger entry failed" "read organization ledger entries failed" page.

End Store.
