(* ===== verification/HelperSpecs.v ===== *)
(** * Specifications of the ledger store's helpers

    Symbolic execution of each helper under every fault schedule.  A helper lemma takes what
    follows the helper as a continuation [Q]: its failures leave the committed
    database alone, and its success is described by the writes it made. *)

From S2P Require Import Prelude.
From S2P Require Import Core.
From S2P Require Import OrgRoles.
From S2P Require Import Assets.
From S2P Require Import Events.
From S2P Require Import LedgerValues.
From S2P Require Import Database.
From S2P Require Import Tx.
From S2P Require Import LedgerSpec.
From S2P Require Import Outbox.
From S2P Require Import LedgerHelpers.
From S2P Require Import LedgerStore.
Local Open Scope string_scope.
Local Open Scope Z_scope.

(** What [NewCreditAmount] and the [int64] field guarantee of an amount. *)
Definition valid_amount (amount : CreditAmount) : Prop :=
  0 < CreditAmount_Int64 amount <= int64_max.

Lemma valid_amount_opp amount :
  valid_amount amount -> wrap64 (- CreditAmount_Int64 amount) = - CreditAmount_Int64 amount.
Proof.
  intros [Hp Hm]. apply wrap64_opp_pos; [done|]. apply in_int64_spec.
  unfold int64_min, int64_max in *. lia.
Qed.

(** ** What each write does when it succeeds *)

Lemma insert_ledger_entry_inr row db db' :
  insert_ledger_entry row db = inr db' ->
  db' = with_entries (row :: ledger_entries db) db /\ entry_amount row <> 0 /\
  account_exists (entry_account_id row) db = true /\
  Forall (fun e => entry_id e <> entry_id row) (ledger_entries db) /\
  Forall (fun e => ~ same_key row e) (ledger_entries db).
Proof.
  unfold insert_ledger_entry. repeat case_match; intros [=]; subst;
  repeat match goal with
  | E : bool_decide _ = false |- _ => apply bool_decide_eq_false in E
  | E : negb _ = false |- _ => apply negb_false_iff in E
  | E : (_ =? _) = false |- _ => apply Z.eqb_neq in E
  | E : ~ Exists _ _ |- _ => apply not_Exists_Forall in E; [|apply _]
  end; done.
Qed.

Lemma insert_task_fund_inr task account amount db db' :
  insert_task_fund task account amount db = inr db' ->
  db' = with_funds (<[task := MkFundRow account amount]> (task_funds db)) db /\
  0 < amount /\ in_int64 amount = true /\ task_funds db !! task = None.
Proof.
  unfold insert_task_fund. repeat case_match; intros [=]; subst;
  repeat match goal with
  | E : bool_decide _ = false |- _ => apply bool_decide_eq_false, eq_None_not_Some in E
  | E : negb _ = false |- _ => apply negb_false_iff in E
  | E : (_ <=? _) = false |- _ => apply Z.leb_gt in E
  end; done.
Qed.

Lemma update_task_reward_inr kind amount task db db' :
  update_task_reward kind amount task db = inr db' -> exists t, db' = with_tasks t db.
Proof.
  unfold update_task_reward. repeat case_match; intros [=]; subst; [by eexists|].
  exists (tasks db'). by destruct db'.
Qed.

Lemma bump_counter_inr key day amount db used db' :
  bump_counter key day amount db = inr (used, db') ->
  used = default 0 (work_day_counters db !! (key, day)) + amount /\
  db' = with_counters (<[(key, day) := used]> (work_day_counters db)) db.
Proof. unfold bump_counter. case_match; intros [=]; by subst. Qed.

Lemma scan_int64_inr z v : scan_int64 z = inr v -> v = z /\ in_int64 z = true.
Proof. unfold scan_int64. case_match; intros [=]; by subst. Qed.

Lemma first_row_inr {A} (l : list A) a : first_row l = inr a -> a ∈ l.
Proof. destruct l; intros [=]; subst. left. Qed.

Lemma first_row_inl {A} (l : list A) err : first_row l = inl err -> l = [] /\ err = ErrNoRows.
Proof. destruct l; intros [=]; by subst. Qed.

(** ** Tactics: walking through a transaction *)

Ltac wp_match :=
  match goal with
  | |- wp _ (match ?x with _ => _ end) _ _ => let E := fresh "E" in destruct x eqn:E
  | |- ?Q (match ?x with _ => _ end) _ => is_var Q; let E := fresh "E" in destruct x eqn:E
  end.

(** Run every primitive and branch of the goal; [Hf] closes the failures. *)
Ltac wp_walk Hf :=
  repeat first [ wp_prim | wp_match | progress cbn ]; try (by apply Hf).

(** The operation stops here with a failure. *)
Ltac wp_end Hf := cbn; repeat wp_prim; by apply Hf.

(** Turn the boolean guards met on the way into propositions. *)
Ltac tx_facts :=
  repeat match goal with
  | E : negb _ = false |- _ => apply negb_false_iff in E
  | E : negb _ = true |- _ => apply negb_true_iff in E
  | E : (_ || _) = false |- _ => apply orb_false_iff in E as [? ?]
  | E : (_ && _) = true |- _ => apply andb_true_iff in E as [? ?]
  | E : String.eqb _ _ = true |- _ => apply String.eqb_eq in E
  | E : String.eqb _ _ = false |- _ => apply String.eqb_neq in E
  | E : bool_decide _ = true |- _ => apply bool_decide_eq_true in E
  | E : bool_decide _ = false |- _ => apply bool_decide_eq_false in E
  | E : (_ <? _) = true |- _ => apply Z.ltb_lt in E
  | E : (_ <? _) = false |- _ => apply Z.ltb_ge in E
  | E : (_ <=? _) = true |- _ => apply Z.leb_le in E
  | E : (_ <=? _) = false |- _ => apply Z.leb_gt in E
  | E : (_ =? _) = true |- _ => apply Z.eqb_eq in E
  | E : (_ =? _) = false |- _ => apply Z.eqb_neq in E
  | E : (match ?x with _ => _ end) = inl _ |- _ => destruct x eqn:?
  | E : (match ?x with _ => _ end) = inr _ |- _ => destruct x eqn:?
  | E : scan_int64 _ = inr _ |- _ => apply scan_int64_inr in E as [? ?]
  | _ => progress simplify_eq
  end.

Section Refinement.
Context `{UUIDLib} {env : Env}.
Implicit Types (base db : DB) (n : nat).

(** ** Locks *)

Definition user_account (user : string) (account : string) (db : DB) : Prop :=
  first_row (acct_id <$> accounts_of_user user db) = inr account.
Definition organization_account (organization account : string) (db : DB) : Prop :=
  first_row (acct_id <$> accounts_of_organization organization db) = inr account.

Lemma lockUserAccount_wp u base db n (Q : accountLockResult -> TxState -> Prop) :
  (forall reason st, st_base st = base -> Q (accountLockRejected reason) st) ->
  (forall id pid k, user_account (TypedID_String u) id db -> ParseCreditAccountID id = TypedIDCreated pid ->
     Q (accountLocked id pid) (MkTxState base db k)) ->
  wp env (lockUserAccount u) Q (MkTxState base db n).
Proof.
  intros Hf Hs. unfold lockUserAccount, parse_account. wp_walk Hf. by apply Hs.
Qed.

Lemma lockOrganizationAccount_wp o base db n (Q : accountLockResult -> TxState -> Prop) :
  (forall reason st, st_base st = base -> Q (accountLockRejected reason) st) ->
  (forall id pid k, organization_account (TypedID_String o) id db -> ParseCreditAccountID id = TypedIDCreated pid ->
     Q (accountLocked id pid) (MkTxState base db k)) ->
  wp env (lockOrganizationAccount o) Q (MkTxState base db n).
Proof.
  intros Hf Hs. unfold lockOrganizationAccount, parse_account. wp_walk Hf. by apply Hs.
Qed.

(** ** Tasks and permissions *)

Lemma lockTaskOwnedBy_wp t u action base db n (Q : taskLockResult -> TxState -> Prop) :
  (forall reason st, st_base st = base -> Q (taskLockRejected reason) st) ->
  (forall row k, tasks db !! TypedID_String t = Some row -> task_created_by_user_id row = TypedID_String u ->
     Q (taskLocked (locked_of row)) (MkTxState base db k)) ->
  wp env (lockTaskOwnedBy t u action) Q (MkTxState base db n).
Proof.
  intros Hf Hs. unfold lockTaskOwnedBy, select_task. wp_walk Hf. cbn in *. tx_facts. by apply Hs.
Qed.

Lemma lockTaskOwnedByOrganization_wp t o base db n (Q : taskLockResult -> TxState -> Prop) :
  (forall reason st, st_base st = base -> Q (taskLockRejected reason) st) ->
  (forall row k, tasks db !! TypedID_String t = Some row ->
     default "" (task_organization_id row) = TypedID_String o ->
     Q (taskLocked (locked_of row)) (MkTxState base db k)) ->
  wp env (lockTaskOwnedByOrganization t o) Q (MkTxState base db n).
Proof.
  intros Hf Hs. unfold lockTaskOwnedByOrganization, select_task. wp_walk Hf. cbn in *. tx_facts. by apply Hs.
Qed.

(** The roles a member holds, as the permission check reads them. *)
Definition holds_permission (organization user : string) (permission : Permission) (db : DB) : Prop :=
  exists roles, Forall2 (fun raw role => ParseRole raw = RoleAccepted role) (member_roles organization user db) roles /\
    CheckPermission roles permission = PermissionGranted.

Lemma scan_roles_wp raws base db n (Q : DomainError + list Role -> TxState -> Prop) :
  (forall reason st, st_base st = base -> Q (inl reason) st) ->
  (forall roles k, Forall2 (fun raw role => ParseRole raw = RoleAccepted role) raws roles ->
     Q (inr roles) (MkTxState base db k)) ->
  wp env (scan_roles raws) Q (MkTxState base db n).
Proof.
  revert n Q. induction raws as [|raw raws IH]; intros n Q Hf Hs; cbn.
  - apply wp_ret, Hs. constructor.
  - do 2 wp_prim; [wp_end Hf|]. destruct (ParseRole raw) eqn:E; [|wp_end Hf].
    apply wp_bind, IH; [intros; wp_end Hf|].
    intros roles k Hr. apply wp_ret, Hs. by constructor.
Qed.

Lemma organizationMemberPermission_wp o u p base db n (Q : PermissionCheck -> TxState -> Prop) :
  (forall reason st, st_base st = base -> Q (PermissionDenied reason) st) ->
  (forall k, holds_permission o (TypedID_String u) p db -> Q PermissionGranted (MkTxState base db k)) ->
  wp env (organizationMemberPermission o u p) Q (MkTxState base db n).
Proof.
  intros Hf Hs. unfold organizationMemberPermission. do 2 wp_prim; cbn; [wp_end Hf|].
  apply wp_bind, scan_roles_wp; [intros; wp_end Hf|].
  intros roles k Hr. do 2 wp_prim; apply wp_ret; [by apply Hf|].
  destruct (CheckPermission roles p) eqn:E; [apply Hs; by exists roles|by apply Hf].
Qed.

(** Who may review the submissions of a task. *)
Definition may_review (reviewer : Reviewer) (row : TaskRow) (db : DB) : Prop :=
  match reviewer with
  | UserReviewer id =>
      task_created_by_user_id row = TypedID_String id \/
      exists organization, task_organization_id row = Some organization /\ organization <> "" /\
        holds_permission organization (TypedID_String id) PermissionReviewSubmissions db
  | OrganizationReviewer id => task_organization_id row = Some (TypedID_String id) /\ TypedID_String id <> ""
  end.

Lemma default_nonempty (o : option string) s : default "" o <> "" -> default "" o = s -> o = Some s.
Proof. destruct o; cbn; [by intros ? ->|done]. Qed.

Lemma lockTaskForReview_wp t reviewer action base db n (Q : taskLockResult -> TxState -> Prop) :
  (forall reason st, st_base st = base -> Q (taskLockRejected reason) st) ->
  (forall row k, tasks db !! TypedID_String t = Some row -> may_review reviewer row db ->
     Q (taskLocked (locked_of row)) (MkTxState base db k)) ->
  wp env (lockTaskForReview t reviewer action) Q (MkTxState base db n).
Proof.
  intros Hf Hs. unfold lockTaskForReview, select_task, reviewerOrganizationPermission.
  do 2 wp_prim; cbn; [wp_end Hf|].
  destruct (tasks db !! TypedID_String t) as [row|] eqn:Ht; [|wp_end Hf].
  destruct reviewer as [u|o].
  - case_match; [apply wp_ret, Hs; [done|left; by tx_facts]|].
    case_match; [|wp_end Hf]. tx_facts.
    apply wp_bind, organizationMemberPermission_wp; [intros; wp_end Hf|].
    intros k Hp. apply wp_ret, Hs; [done|right]. eexists. split; [by apply default_nonempty|done].
  - case_match; apply wp_ret; [|by apply Hf]. tx_facts. apply Hs; [done|]. split; [by apply default_nonempty|congruence].
Qed.

(** ** Budgets *)

(** [charged charge db db']: the charge fits its limit and is counted. *)
Definition charged_counter (key : string) (amount limit : Z) (db db' : DB) : Prop :=
  exists day used, bump_counter key day amount db = inr (used, db') /\ used <= limit.

Definition charged (charge : SpendCharge) (db db' : DB) : Prop :=
  match charge with
  | NoSpendCharge => db' = db
  | ChargeSpendBudget credential limit amount =>
      charged_counter (workDayKeyAgentSpend +:+ TypedID_String credential)
        (CreditAmount_Int64 amount) (CreditAmount_Int64 limit) db db'
  end.

Lemma charged_frame charge db db' : charged charge db db' -> exists c, db' = with_counters c db.
Proof.
  destruct charge; cbn; [intros ->; exists (work_day_counters db); by destruct db|].
  intros (day & used & Hb & _). apply bump_counter_inr in Hb as [_ ->]. by eexists.
Qed.

Lemma applySpendCharge_wp charge base db n (Q : option DomainError -> TxState -> Prop) :
  (forall reason st, st_base st = base -> Q (Some reason) st) ->
  (forall db' k, charged charge db db' -> Q None (MkTxState base db' k)) ->
  wp env (applySpendCharge charge) Q (MkTxState base db n).
Proof.
  intros Hf Hs. unfold applySpendCharge, chargeWorkDayCounter. destruct charge as [|c limit amount].
  { by apply wp_ret, Hs. }
  do 2 wp_prim; cbn; [wp_end Hf|]. case_match; [wp_end Hf|].
  do 2 wp_prim. do 2 apply wp_bind. apply wp_stmt; cbn; [repeat wp_prim; by apply Hf|].
  destruct (bump_counter _ _ _ _) as [|[used db']] eqn:E; repeat wp_prim; [by apply Hf|].
  split_match; tx_facts; [by apply Hf|]. apply Hs. cbn. exists day, used. done.
Qed.

Lemma applyPeerTransferVelocity_wp account amount base db n (Q : option DomainError -> TxState -> Prop) :
  (forall reason st, st_base st = base -> Q (Some reason) st) ->
  (forall db' k, charged_counter (workDayKeyPeerSend +:+ account) amount DailyPeerTransferCeilingCredits db db' ->
     Q None (MkTxState base db' k)) ->
  wp env (applyPeerTransferVelocity account amount) Q (MkTxState base db n).
Proof.
  intros Hf Hs. unfold applyPeerTransferVelocity, chargeWorkDayCounter.
  do 2 wp_prim. do 2 apply wp_bind. apply wp_stmt; cbn; [repeat wp_prim; by apply Hf|].
  destruct (bump_counter _ _ _ _) as [|[used db']] eqn:E; repeat wp_prim; [by apply Hf|].
  split_match; tx_facts; [by apply Hf|]. apply Hs. exists day, used. done.
Qed.

(** A refused operation leaves the committed database as it was, except that a
    budget refusal may have been counted. *)
Definition refused (db db' : DB) : Prop :=
  db' = db \/ exists day used, bump_counter workDayKeyBudgetRefusals day 1 db = inr (used, db').

Lemma refused_refl db : refused db db.
Proof. by left. Qed.

Lemma recordBudgetRefusal_wp {R} (r : R) st (Q : R -> TxState -> Prop) :
  (forall st', refused (st_base st) (st_base st') -> Q r st') ->
  wp env (_ ← recordBudgetRefusal; mret r) Q st.
Proof.
  intros Hs. apply wp_bind. unfold recordBudgetRefusal. do 2 wp_prim. apply wp_exec_outside.
  - apply wp_ret, Hs, refused_refl.
  - intros base' Hb. apply wp_ret, Hs. right. case_match; simplify_eq. case_match; simplify_eq. eauto.
Qed.
(** ** Committing *)

Lemma commit_events_wp {R} ds (rf cf r : R) base db n (Q : R -> TxState -> Prop) :
  (forall st, st_base st = base -> Q rf st) -> (forall st, st_base st = base -> Q cf st) ->
  (forall db' k, recorded db ds db' -> Q r (MkTxState db' db' k)) ->
  wp env (commit_events ds rf cf r) Q (MkTxState base db n).
Proof.
  intros Hf1 Hf2 Hs. unfold commit_events. apply wp_bind, recordEventDrafts_wp.
  - intros. wp_end Hf1.
  - intros db' k Hr. do 2 wp_prim; cbn; [wp_end Hf2|]. repeat wp_prim; by apply Hs.
Qed.

(** ** Funding *)

Lemma findFundForKey_wp key t account base db n (Q : option FundResult -> TxState -> Prop) :
  (forall reason st, st_base st = base -> Q (Some (FundRejected reason)) st) ->
  (forall row value k, entry_with_key key account db = inr row ->
     entry_kind row = "task_fund" -> default "" (entry_task_id row) = TypedID_String t ->
     buildFund t (entry_account_id row) (wrap64 (- entry_amount row)) = fundBuilt value ->
     Q (Some (TaskFunded value IdempotentReplay [])) (MkTxState base db k)) ->
  (forall k, entry_with_key key account db = inl ErrNoRows -> Q None (MkTxState base db k)) ->
  wp env (findFundForKey key t account) Q (MkTxState base db n).
Proof.
  intros Hf Hr Hs. unfold findFundForKey. repeat wp_prim; cbn; [wp_end Hf|].
  destruct (entry_with_key key account db) as [[]|row] eqn:E; [by apply Hs|by apply Hf..|].
  split_match; [by apply Hf|]. split_match; [|by apply Hf]. tx_facts. by eapply Hr.
Qed.

(** The reward a funded task carries: declared already, or switched by the funding. *)
Definition reward_switched (t : TaskID) (row : TaskRow) (amount : CreditAmount) (db db' : DB) : Prop :=
  match requireCreditRewardFunding (locked_of row) amount with
  | fundingRewardRejected _ => False
  | fundingRewardAccepted kind =>
      if String.eqb kind "" then db' = db
      else update_task_reward kind (CreditAmount_Int64 amount) (TypedID_String t) db = inr db'
  end.

Lemma requireFundableTask_wp t row amount base db n (Q : option FundResult -> TxState -> Prop) :
  (forall reason st, st_base st = base -> Q (Some (FundRejected reason)) st) ->
  (forall db' k, task_state row = "draft" -> reward_switched t row amount db db' -> Q None (MkTxState base db' k)) ->
  wp env (requireFundableTask t (locked_of row) amount) Q (MkTxState base db n).
Proof.
  intros Hf Hs. unfold requireFundableTask, reward_switched in *. split_match; [wp_end Hf|]. tx_facts.
  destruct (requireCreditRewardFunding (locked_of row) amount) as [kind|]; [|wp_end Hf].
  destruct (String.eqb kind ""); [repeat wp_prim; by apply Hs|].
  repeat wp_prim; cbn; [wp_end Hf|]. split_match; [wp_end Hf|]. repeat wp_prim; by apply Hs.
Qed.

Lemma reward_switched_frame t row amount db db' :
  reward_switched t row amount db db' -> exists ts, db' = with_tasks ts db.
Proof.
  unfold reward_switched. repeat case_match; [|by apply update_task_reward_inr|done].
  intros ->. exists (tasks db). by destruct db.
Qed.

Definition fund_entry (entryID : LedgerEntryID) (account : string) (t : TaskID) (amount : CreditAmount)
    (key : IdempotencyKey) (now : Z) : EntryRow :=
  new_entry entryID account "task_fund" (- CreditAmount_Int64 amount) (Some t) (Some (IdempotencyKey_String key)) "" now.

Lemma completeFunding_wp account pid t amount entryID key message draft base db n (Q : FundResult -> TxState -> Prop) :
  valid_amount amount ->
  (forall reason st, st_base st = base -> Q (FundRejected reason) st) ->
  (forall now db1 db2 db' k,
     CreditAmount_Int64 amount <= account_sum account (ledger_entries db) ->
     insert_task_fund (TypedID_String t) account (CreditAmount_Int64 amount) db = inr db1 ->
     insert_ledger_entry (fund_entry entryID account t amount key now) db1 = inr db2 ->
     recorded db2 [draft] db' ->
     Q (TaskFunded (MkTaskFund t pid amount) FirstExecution [draft]) (MkTxState db' db' k)) ->
  wp env (completeFunding account pid t amount entryID key message draft) Q (MkTxState base db n).
Proof.
  intros Ha Hf Hs. unfold completeFunding, read_spendable, fund_entry in *. rewrite (valid_amount_opp _ Ha).
  repeat wp_prim; cbn; [wp_end Hf|]. case_bool_decide; [wp_end Hf|].
  repeat wp_prim; cbn; [wp_end Hf|]. split_match; [wp_end Hf|]. split_match; [wp_end Hf|]. tx_facts.
  repeat wp_prim; cbn; [wp_end Hf|]. split_match; [wp_end Hf|].
  repeat wp_prim; cbn; [wp_end Hf|]. split_match; [wp_end Hf|].
  apply wp_bind, recordEventDraft_wp; [intros; wp_end Hf|]. intros db' k Hr.
  repeat wp_prim; cbn; [wp_end Hf|]. repeat wp_prim. by eapply Hs.
Qed.

(** ** Payouts *)

Definition funds_ok (db : DB) : Prop :=
  map_Forall (fun _ f => 0 < fund_credit_amount f <= int64_max) (task_funds db).

Definition drop_fund (t : TaskID) (db : DB) : DB := with_funds (delete (TypedID_String t) (task_funds db)) db.

(** What becomes of the fund row once the worker is paid. *)
Inductive settled (command : reviewFundCommand) (account : string) (remaining : Z) (db : DB) : DB -> Prop :=
| settled_refunded now db1 :
    rf_closeTask command = true -> 0 < remaining ->
    insert_ledger_entry (new_entry (rf_refundEntryID command) account "task_refund" remaining
      (Some (rf_taskID command)) None "" now) db = inr db1 ->
    settled command account remaining db (drop_fund (rf_taskID command) db1)
| settled_spent :
    remaining = 0 -> settled command account remaining db (drop_fund (rf_taskID command) db)
| settled_kept :
    rf_closeTask command = false -> 0 < remaining ->
    settled command account remaining db
      (with_funds (<[TypedID_String (rf_taskID command) := MkFundRow account remaining]> (task_funds db)) db).

Lemma settle_fund_wp command fund remaining base db n (Q : option DomainError -> TxState -> Prop) :
  task_funds db !! TypedID_String (rf_taskID command) = Some fund -> 0 <= remaining ->
  (forall reason st, st_base st = base -> Q (Some reason) st) ->
  (forall db' k, settled command (fund_account_id fund) remaining db db' -> Q None (MkTxState base db' k)) ->
  wp env (settle_fund command (fund_account_id fund) remaining) Q (MkTxState base db n).
Proof.
  intros Hfund Hr Hf Hs. unfold settle_fund. split_match.
  - wp_prim. split_match; tx_facts.
    + repeat wp_prim; cbn; [wp_end Hf|]. split_match; [wp_end Hf|].
      repeat wp_prim; cbn; [wp_end Hf|]. repeat wp_prim; apply Hs. by econstructor 1.
    + wp_prim. cbn. repeat wp_prim; cbn; [wp_end Hf|]. repeat wp_prim; apply Hs. constructor 2. lia.
  - split_match; tx_facts.
    + repeat wp_prim; cbn; [wp_end Hf|]. repeat wp_prim; apply Hs. by constructor 2.
    + repeat wp_prim; cbn; [wp_end Hf|]. unfold update_task_fund. rewrite Hfund.
      destruct (Z.leb_spec remaining 0); [lia|]. repeat wp_prim; apply Hs. constructor 3; [done|lia].
Qed.

Inductive paid (command : reviewFundCommand) (db : DB) : PayoutOutcome -> DB -> Prop :=
| paid_nothing :
    rf_selection command = NoCreditReviewSelection \/
    (rf_selection command = FullCreditReviewSelection /\
     task_funds db !! TypedID_String (rf_taskID command) = None) ->
    paid command db NoPayout db
| paid_credits fund account worker amount now db1 db2 :
    task_funds db !! TypedID_String (rf_taskID command) = Some fund ->
    rf_selection command <> NoCreditReviewSelection ->
    ParseUserID (rf_rawWorkerID command) = TypedIDCreated worker ->
    user_account (rf_rawWorkerID command) account db ->
    amount = payout_amount (rf_selection command) (fund_credit_amount fund) ->
    0 < amount <= fund_credit_amount fund ->
    insert_ledger_entry (new_entry (rf_payoutEntryID command) account "task_payout" amount
      (Some (rf_taskID command)) (Some (IdempotencyKey_String (rf_idempotencyKey command))) "" now) db = inr db1 ->
    settled command (fund_account_id fund) (fund_credit_amount fund - amount) db1 db2 ->
    paid command db (CreditPayout worker (MkCreditAmount amount)) db2.

(** Whatever the remainder, settling commits nothing. *)
Lemma settle_fund_base command account remaining base db n :
  wp env (settle_fund command account remaining) (fun _ st => st_base st = base) (MkTxState base db n).
Proof.
  unfold settle_fund. split_match; [|split_match].
  - wp_prim. split_match; repeat (wp_prim; cbn); try done; repeat split_match; repeat (wp_prim; cbn); done.
  - repeat (wp_prim; cbn); done.
  - repeat (wp_prim; cbn); [done|]. split_match; repeat wp_prim; done.
Qed.

Lemma pay_from_fund_wp command fund base db n (Q : payoutResult -> TxState -> Prop) :
  rf_selection command <> NoCreditReviewSelection -> funds_ok db ->
  task_funds db !! TypedID_String (rf_taskID command) = Some fund ->
  (forall reason st, st_base st = base -> Q (payoutRejected reason) st) ->
  (forall outcome db' k, paid command db outcome db' -> Q (payoutResolved outcome) (MkTxState base db' k)) ->
  wp env (pay_from_fund command fund) Q (MkTxState base db n).
Proof.
  intros Hsel Hok Hfund Hf Hs. pose proof (Hok _ _ Hfund) as Hrange. cbn in Hrange. unfold pay_from_fund.
  set (p := payout_amount (rf_selection command) (fund_credit_amount fund)).
  split_match; [wp_end Hf|]. tx_facts. split_match; [|wp_end Hf].
  repeat wp_prim; cbn; [wp_end Hf|]. split_match; [split_match; wp_end Hf|].
  repeat wp_prim; cbn; [wp_end Hf|]. split_match; [wp_end Hf|]. rename d into db1.
  pose proof (insert_ledger_entry_inr _ _ _ E2) as (Hd & _).
  wp_prim. unfold NewCreditAmount. destruct (Z.leb_spec p 0) as [Hp|Hp].
  - eapply wp_mono; [apply (settle_fund_base _ _ _ base)|]. intros o st Hb. cbn in Hb.
    destruct o; wp_end Hf.
  - rewrite wrap64_id by (apply in_int64_spec; unfold int64_min, int64_max in *; lia).
    apply settle_fund_wp; [by subst|lia|intros; wp_end Hf|].
    intros db' k Hset. repeat wp_prim; apply Hs. econstructor; eauto; lia.
Qed.

Lemma payReviewFund_wp command base db n (Q : payoutResult -> TxState -> Prop) :
  rf_missingIsNoPayout command = true -> funds_ok db ->
  (forall reason st, st_base st = base -> Q (payoutRejected reason) st) ->
  (forall outcome db' k, paid command db outcome db' -> Q (payoutResolved outcome) (MkTxState base db' k)) ->
  wp env (payReviewFund command) Q (MkTxState base db n).
Proof.
  intros Hm Hok Hf Hs. unfold payReviewFund, select_fund. rewrite Hm.
  destruct (rf_selection command) eqn:Hsel; [..|repeat wp_prim; by apply Hs, paid_nothing; left].
  all: repeat wp_prim; cbn; [wp_end Hf|].
  all: destruct (task_funds db !! TypedID_String (rf_taskID command)) eqn:Hfund;
    [apply pay_from_fund_wp; auto; congruence|].
  - repeat wp_prim; apply Hs, paid_nothing. by right.
  - wp_end Hf.
Qed.
End Refinement.
