(* ===== verification/ReviewSpecs.v ===== *)
(** * Specifications of the tip, collectible, supersede and refund helpers

    The second half of the helper specifications of [HelperSpecs], in the same
    continuation style. *)

From S2P Require Import Prelude.
From S2P Require Import Core.
From S2P Require Import OrgRoles.
From S2P Require Import Assets.
From S2P Require Import Events.
From S2P Require Import LedgerValues.
From S2P Require Import Database.
From S2P Require Import Tx.
From S2P Require Import LedgerSpec.
From S2P Require Import Outbox.
From S2P Require Import LedgerHelpers.
From S2P Require Import LedgerStore.
From S2P Require Import HelperSpecs.
Local Open Scope string_scope.
Local Open Scope Z_scope.

Section Refinement.
Context `{UUIDLib} {env : Env}.
Implicit Types (base db : DB) (n : nat).

(** ** Credit tips *)

Definition tip_entry (entryID : LedgerEntryID) (account : string) (amount : Z) (t : TaskID) (key : string) (now : Z) : EntryRow :=
  new_entry entryID account "task_tip" amount (Some t) (Some key) "" now.

Inductive tipped (t : TaskID) (reviewer : Reviewer) (rawWorker : string) (debitID creditID : LedgerEntryID)
    (key : IdempotencyKey) (selection : TipSelection) (db : DB) : TipOutcome -> DB -> Prop :=
| tipped_none : selection = NoTipSelection -> tipped t reviewer rawWorker debitID creditID key selection db NoTip db
| tipped_credit requester worker from to amount now db1 db2 :
    selection = CreditTipSelection amount -> reviewer = UserReviewer requester ->
    user_account (TypedID_String requester) from db ->
    CreditAmount_Int64 amount <= account_sum from (ledger_entries db) ->
    ParseUserID rawWorker = TypedIDCreated worker -> user_account rawWorker to db ->
    insert_ledger_entry (tip_entry debitID from (- CreditAmount_Int64 amount) t
      (IdempotencyKey_String key +:+ ":tip-debit") now) db = inr db1 ->
    insert_ledger_entry (tip_entry creditID to (CreditAmount_Int64 amount) t
      (IdempotencyKey_String key +:+ ":tip-credit") now) db1 = inr db2 ->
    tipped t reviewer rawWorker debitID creditID key selection db (CreditTip worker amount) db2.

Definition valid_tip (selection : TipSelection) : Prop :=
  match selection with NoTipSelection => True | CreditTipSelection amount => valid_amount amount end.

Lemma payCreditTip_wp t reviewer rawWorker debitID creditID key selection base db n (Q : tipResult -> TxState -> Prop) :
  valid_tip selection ->
  (forall reason st, st_base st = base -> Q (tipRejected reason) st) ->
  (forall outcome db' k, tipped t reviewer rawWorker debitID creditID key selection db outcome db' ->
     Q (tipResolved outcome) (MkTxState base db' k)) ->
  wp env (payCreditTip t reviewer rawWorker debitID creditID key selection) Q (MkTxState base db n).
Proof.
  intros Hv Hf Hs. unfold payCreditTip, read_spendable. destruct selection as [|amount].
  { repeat wp_prim. by apply Hs, tipped_none. }
  destruct reviewer as [requester|]; [|wp_end Hf]. rewrite (valid_amount_opp _ Hv).
  apply wp_bind, lockUserAccount_wp; [intros; wp_end Hf|]. intros from pid k Hfrom _.
  repeat wp_prim; cbn; [wp_end Hf|]. split_match; [wp_end Hf|]. tx_facts.
  split_match; [wp_end Hf|]. tx_facts. split_match; [|wp_end Hf].
  repeat wp_prim; cbn; [wp_end Hf|]. split_match; [split_match; wp_end Hf|].
  repeat wp_prim; cbn; [wp_end Hf|]. split_match; [wp_end Hf|].
  repeat wp_prim; cbn; [wp_end Hf|]. split_match; [wp_end Hf|].
  repeat wp_prim. apply Hs. by econstructor 2.
Qed.

(** ** Collectible tips *)

Lemma parseCollectible_inv rawID row c :
  parseCollectible rawID row = collectibleParsed c ->
  Collectible_OwnerKind c = col_owner_kind row /\ Collectible_OwnerID c = col_owner_user_id row /\
  ParseCollectibleState (col_state row) = CollectibleStateAccepted (Collectible_State c) /\
  ParseTransferPolicy (col_transfer_policy row) = TransferPolicyAccepted (Collectible_Policy c) /\
  Collectible_OrganizationID c = default "" (col_organization_id row).
Proof. unfold parseCollectible. repeat split_match; intros [=]; by subst. Qed.

(** The collectible moved: the tipper owned it, minted, under a policy that lets
    it be tipped, and a within-organization one stays inside its organization. *)
Record collectible_moved (reviewer : Reviewer) (rawWorker : string) (id : CollectibleID) (worker : UserID) (db : DB) : Prop := {
  moved_worker : ParseUserID rawWorker = TypedIDCreated worker;
  moved_row : exists requester row policy, reviewer = UserReviewer requester /\
    collectibles db !! TypedID_String id = Some row /\
    col_owner_kind row = "user" /\ col_owner_user_id row = TypedID_String requester /\
    col_state row = "minted" /\
    ParseTransferPolicy (col_transfer_policy row) = TransferPolicyAccepted policy /\
    AllowsTip policy = RewardAllowed /\
    (policy = TransferPolicyTransferableWithinOrg -> forall user, user = requester \/ user = worker ->
       is_active_member (default "" (col_organization_id row)) (TypedID_String user) db = true)
}.

Inductive collectible_tipped (reviewer : Reviewer) (rawWorker : string) (selection : CollectibleTipSelection)
    (db : DB) : TipOutcome -> DB -> Prop :=
| ctip_none : selection = NoCollectibleTipSelection -> collectible_tipped reviewer rawWorker selection db NoTip db
| ctip_held id worker row : selection = CollectibleTipSelected id ->
    ParseUserID rawWorker = TypedIDCreated worker -> collectibles db !! TypedID_String id = Some row ->
    col_owner_kind row = "user" -> col_owner_user_id row = TypedID_String worker ->
    collectible_tipped reviewer rawWorker selection db (CollectibleTip worker id) db
| ctip_moved id worker : selection = CollectibleTipSelected id ->
    collectible_moved reviewer rawWorker id worker db ->
    collectible_tipped reviewer rawWorker selection db (CollectibleTip worker id)
      (with_collectibles (alter (set_col_owner (TypedID_String worker)) (TypedID_String id) (collectibles db)) db).

Lemma require_members_wp organization ids base db n (Q : option DomainError -> TxState -> Prop) :
  (forall reason st, st_base st = base -> Q (Some reason) st) ->
  (forall k, Forall (fun u => is_active_member organization (TypedID_String u) db = true) ids ->
     Q None (MkTxState base db k)) ->
  wp env (require_members organization ids) Q (MkTxState base db n).
Proof.
  revert n. induction ids as [|u ids IH]; intros n Hf Hs; cbn; [repeat wp_prim; by apply Hs|].
  repeat wp_prim; cbn; [wp_end Hf|]. split_match; [|wp_end Hf].
  apply IH; [done|]. intros k Hall. apply Hs. by constructor.
Qed.

Lemma ParseCollectibleState_minted raw :
  ParseCollectibleState raw = CollectibleStateAccepted CollectibleStateMinted -> raw = "minted".
Proof.
  unfold ParseCollectibleState. intros E. apply switch_inv in E as [|E]; [done|].
  repeat (apply elem_of_cons in E as [E|E]; [by inv E|]). by apply not_elem_of_nil in E.
Qed.

Lemma lockCollectible_wp id base db n (Q : collectibleParseResult -> TxState -> Prop) :
  (forall reason st, st_base st = base -> Q (collectibleParseRejected reason) st) ->
  (forall row c k, collectibles db !! TypedID_String id = Some row ->
     parseCollectible (TypedID_String id) row = collectibleParsed c ->
     Q (collectibleParsed c) (MkTxState base db k)) ->
  wp env (lockCollectible id) Q (MkTxState base db n).
Proof.
  intros Hf Hs. unfold lockCollectible. repeat wp_prim; cbn; [wp_end Hf|].
  destruct (collectibles db !! TypedID_String id) as [row|] eqn:Hrow; cbn; [|wp_end Hf].
  repeat wp_prim; cbn; [wp_end Hf|].
  repeat wp_prim. destruct (parseCollectible _ row) eqn:E; [by eapply Hs|by apply Hf].
Qed.

Lemma payCollectibleTip_wp reviewer rawWorker selection base db n (Q : tipResult -> TxState -> Prop) :
  (forall reason st, st_base st = base -> Q (tipRejected reason) st) ->
  (forall outcome db' k, collectible_tipped reviewer rawWorker selection db outcome db' ->
     Q (tipResolved outcome) (MkTxState base db' k)) ->
  wp env (payCollectibleTip reviewer rawWorker selection) Q (MkTxState base db n).
Proof.
  intros Hf Hs. unfold payCollectibleTip. destruct selection as [|id].
  { repeat wp_prim. by apply Hs, ctip_none. }
  destruct reviewer as [requester|]; [|wp_end Hf].
  destruct (ParseUserID rawWorker) as [worker|] eqn:Hw; [|wp_end Hf].
  apply wp_bind, lockCollectible_wp; [intros; wp_end Hf|].
  intros row c k Hrow Hc. apply parseCollectible_inv in Hc as (Hk & Ho & Hst & Hp & Horg).
  rewrite Hk, Ho. destruct (_ && _) eqn:Hheld.
  { apply andb_true_iff in Hheld as [Hkind%String.eqb_eq Howner%String.eqb_eq]. repeat wp_prim.
    by apply Hs, (ctip_held _ _ _ _ _ _ row). }
  destruct (_ || _) eqn:Hown; [wp_end Hf|]. destruct (negb (bool_decide (_ = CollectibleStateMinted))) eqn:Hm; [wp_end Hf|].
  destruct (AllowsTip (Collectible_Policy c)) eqn:Hpol; [|wp_end Hf].
  tx_facts. rewrite Hm in Hst. apply ParseCollectibleState_minted in Hst.
  assert (forall k', (Collectible_Policy c = TransferPolicyTransferableWithinOrg ->
      forall user, user = requester \/ user = worker ->
      is_active_member (default "" (col_organization_id row)) (TypedID_String user) db = true) ->
    Q (tipResolved (CollectibleTip worker id)) (MkTxState base
      (with_collectibles (alter (set_col_owner (TypedID_String worker)) (TypedID_String id) (collectibles db)) db) k')) as Hmove.
  { intros k' Horg'. apply Hs, ctip_moved; [done|]. split; [done|].
    by exists requester, row, (Collectible_Policy c). }
  wp_prim. case_bool_decide as Hwithin.
  - unfold requireSharedCollectibleOrganization. split_match; [wp_end Hf|].
    apply require_members_wp; [intros; wp_end Hf|]. intros k' Hall.
    apply Forall_cons_1 in Hall as [Hm1 [Hm2 _]%Forall_cons_1]. rewrite Horg in *.
    repeat wp_prim; cbn; [wp_end Hf|]. repeat wp_prim. apply Hmove. by intros _ user [-> | ->].
  - repeat wp_prim; cbn; [wp_end Hf|]. repeat wp_prim. by apply Hmove.
Qed.
(** ** Collectible rewards *)

Lemma update_collectibles_wp f ids base db n (Q : option StmtError -> TxState -> Prop) :
  (forall err st, st_base st = base -> Q (Some err) st) ->
  (forall k, Q None (MkTxState base
     (with_collectibles (foldl (fun m id => alter f id m) (collectibles db) ids) db) k)) ->
  wp env (update_collectibles f ids) Q (MkTxState base db n).
Proof.
  revert db n. induction ids as [|id ids IH]; intros db n Hf Hs; cbn.
  - repeat wp_prim. destruct db. apply Hs.
  - repeat wp_prim; cbn; [wp_end Hf|]. apply IH; [done|]. intros k. apply Hs.
Qed.

Lemma scan_collectible_ids_wp raws base db n (Q : DomainError + list string -> TxState -> Prop) :
  (forall reason st, st_base st = base -> Q (inl reason) st) ->
  (forall k, Q (inr raws) (MkTxState base db k)) ->
  wp env (scan_collectible_ids raws) Q (MkTxState base db n).
Proof.
  revert n Q. induction raws as [|raw raws IH]; intros n Q Hf Hs; cbn; [repeat wp_prim; by apply Hs|].
  do 2 wp_prim; cbn; [wp_end Hf|]. apply wp_bind, IH; [intros; wp_end Hf|].
  intros k. repeat wp_prim. apply Hs.
Qed.

Lemma heldFundCollectibleIDs_wp t base db n (Q : DomainError + list string -> TxState -> Prop) :
  (forall reason st, st_base st = base -> Q (inl reason) st) ->
  (forall k, Q (inr (held_collectibles (TypedID_String t) db)) (MkTxState base db k)) ->
  wp env (heldFundCollectibleIDs t) Q (MkTxState base db n).
Proof.
  intros Hf Hs. unfold heldFundCollectibleIDs. do 2 wp_prim; cbn; [wp_end Hf|].
  apply wp_bind, scan_collectible_ids_wp; [intros; wp_end Hf|]. intros k.
  do 2 wp_prim; cbn; [wp_end Hf|]. repeat wp_prim. apply Hs.
Qed.

(** The held collectibles of a task, each put through [f], are no longer held. *)
Definition release_held (f : CollectibleRow -> CollectibleRow) (t : TaskID) (db : DB) : DB :=
  with_fund_collectibles (filter (fun kv => kv.2 <> TypedID_String t) (task_fund_collectibles db))
    (with_collectibles (foldl (fun m id => alter f id m) (collectibles db)
       (held_collectibles (TypedID_String t) db)) db).

Definition award_to (worker : string) (row : CollectibleRow) : CollectibleRow :=
  set_col_owner worker (set_col_state "minted" row).

Inductive collectibles_paid (t : TaskID) (rawWorker : string) (db : DB) : PayoutOutcome -> DB -> Prop :=
| cpaid_nothing : held_collectibles (TypedID_String t) db = [] -> collectibles_paid t rawWorker db NoPayout db
| cpaid_awarded worker ids :
    ParseUserID rawWorker = TypedIDCreated worker ->
    parse_collectible_ids (held_collectibles (TypedID_String t) db) = inr ids ->
    held_collectibles (TypedID_String t) db <> [] ->
    collectibles_paid t rawWorker db (CollectiblePayout worker ids) (release_held (award_to rawWorker) t db).

Lemma payOutCollectible_wp t rawWorker base db n (Q : payoutResult -> TxState -> Prop) :
  (forall reason st, st_base st = base -> Q (payoutRejected reason) st) ->
  (forall outcome db' k, collectibles_paid t rawWorker db outcome db' ->
     Q (payoutResolved outcome) (MkTxState base db' k)) ->
  wp env (payOutCollectible t rawWorker) Q (MkTxState base db n).
Proof.
  intros Hf Hs. unfold payOutCollectible.
  apply wp_bind, heldFundCollectibleIDs_wp; [intros; wp_end Hf|]. intros k.
  unfold resolveCollectiblePayout. destruct (held_collectibles (TypedID_String t) db) as [|i rest] eqn:Hheld.
  { repeat wp_prim. by apply Hs, cpaid_nothing. }
  destruct (ParseUserID rawWorker) as [worker|] eqn:Hw; [|wp_end Hf].
  destruct (parse_collectible_ids (i :: rest)) as [|ids] eqn:Hids; [wp_end Hf|].
  apply wp_bind, update_collectibles_wp; [intros; wp_end Hf|]. intros k'.
  repeat wp_prim; cbn -[held_collectibles]; [wp_end Hf|]. repeat wp_prim. apply Hs.
  rewrite <- Hheld in Hids. epose proof (cpaid_awarded t rawWorker db worker ids Hw Hids) as Hp.
  unfold release_held in Hp. rewrite Hheld in Hp. by apply Hp.
Qed.

Lemma refundHeldCollectibleReward_wp t base db n (Q : option DomainError -> TxState -> Prop) :
  (forall reason st, st_base st = base -> Q (Some reason) st) ->
  (forall db' k, (held_collectibles (TypedID_String t) db = [] /\ db' = db) \/
       (held_collectibles (TypedID_String t) db <> [] /\ db' = release_held (set_col_state "minted") t db) ->
     Q None (MkTxState base db' k)) ->
  wp env (refundHeldCollectibleReward t) Q (MkTxState base db n).
Proof.
  intros Hf Hs. unfold refundHeldCollectibleReward.
  apply wp_bind, heldFundCollectibleIDs_wp; [intros; wp_end Hf|]. intros k.
  unfold release_held in Hs. destruct (held_collectibles (TypedID_String t) db) as [|i rest] eqn:Hheld.
  { repeat wp_prim. apply Hs. by left. }
  apply wp_bind, update_collectibles_wp; [intros; wp_end Hf|]. intros k'.
  repeat wp_prim; cbn; [wp_end Hf|]. repeat wp_prim. apply Hs. by right.
Qed.

(** ** Superseding the competing submissions *)

Definition supersedes (t : TaskID) (accepted : SubmissionID) (ds : list Draft) (db db' : DB) : Prop :=
  db' = snd (supersede_submissions (TypedID_String t) (TypedID_String accepted) db) /\
  Forall2 (fun d kv => Draft_Kind d = KindSubmissionSuperseded /\
      exists submission submitter, ParseSubmissionID kv.1 = TypedIDCreated submission /\
        ParseUserID (default "" (sub_user_id kv.2)) = TypedIDCreated submitter /\
        Draft_Subject d = reviewSubject t submission /\ Draft_Recipients d = NewRecipients [submitter])
    ds (fst (supersede_submissions (TypedID_String t) (TypedID_String accepted) db)).

Lemma scan_superseded_wp rows base db n (Q : option DomainError -> TxState -> Prop) :
  (forall reason st, st_base st = base -> Q (Some reason) st) ->
  (forall k, Q None (MkTxState base db k)) ->
  wp env (scan_superseded rows) Q (MkTxState base db n).
Proof.
  revert n. induction rows as [|[id row] rows IH]; intros n Hf Hs; cbn; [repeat wp_prim; by apply Hs|].
  do 2 wp_prim; cbn; (split_match; [|wp_end Hf]); [wp_end Hf|]. by apply IH.
Qed.

Lemma superseded_drafts_wp t actor rows base db n (Q : DomainError + list Draft -> TxState -> Prop) :
  (forall reason st, st_base st = base -> Q (inl reason) st) ->
  (forall ds k, Forall2 (fun d kv => Draft_Kind d = KindSubmissionSuperseded /\
      exists submission submitter, ParseSubmissionID kv.1 = TypedIDCreated submission /\
        ParseUserID (default "" (sub_user_id kv.2)) = TypedIDCreated submitter /\
        Draft_Subject d = reviewSubject t submission /\ Draft_Recipients d = NewRecipients [submitter]) ds rows ->
     Q (inr ds) (MkTxState base db k)) ->
  wp env (superseded_drafts t actor rows) Q (MkTxState base db n).
Proof.
  revert n Q. induction rows as [|[id row] rows IH]; intros n Q Hf Hs; cbn -[ParseTypedID].
  - repeat wp_prim. apply Hs. constructor.
  - destruct (ParseSubmissionID id) as [submission|] eqn:Hid; [|wp_end Hf].
    unfold parseReviewWorker. destruct (ParseUserID (default "" (sub_user_id row))) as [submitter|] eqn:Hu; [|wp_end Hf].
    repeat wp_prim. unfold NewDraft. destruct r; [|wp_end Hf].
    apply wp_bind, IH; [intros; wp_end Hf|]. intros ds k Hds.
    repeat wp_prim. apply Hs. constructor; [|done]. split; [done|]. by exists submission, submitter.
Qed.

Lemma supersedeCompetingSubmissions_wp t accepted actor base db n (Q : DomainError + list Draft -> TxState -> Prop) :
  (forall reason st, st_base st = base -> Q (inl reason) st) ->
  (forall ds db' k, supersedes t accepted ds db db' -> Q (inr ds) (MkTxState base db' k)) ->
  wp env (supersedeCompetingSubmissions t accepted actor) Q (MkTxState base db n).
Proof.
  intros Hf Hs. unfold supersedeCompetingSubmissions. apply wp_bind, wp_stmt; cbn -[supersede_submissions]; [wp_end Hf|].
  destruct (supersede_submissions _ _ db) as [rows db1] eqn:Hsup.
  apply wp_bind, scan_superseded_wp; [intros; wp_end Hf|]. intros k.
  do 2 wp_prim; cbn; [wp_end Hf|]. apply superseded_drafts_wp; [done|].
  intros ds k' Hds. apply Hs. unfold supersedes. by rewrite Hsup.
Qed.

(** ** Reservations and audiences *)

Definition parse_users (raws : list string) (us : list UserID) : Prop :=
  Forall2 (fun raw u => ParseUserID raw = TypedIDCreated u) raws us.

Lemma scan_users_wp failure raws base db n (Q : DomainError + list UserID -> TxState -> Prop) :
  (forall reason st, st_base st = base -> Q (inl reason) st) ->
  (forall us k, parse_users raws us -> Q (inr us) (MkTxState base db k)) ->
  wp env (scan_users failure raws) Q (MkTxState base db n).
Proof.
  revert n Q. induction raws as [|raw raws IH]; intros n Q Hf Hs; cbn -[ParseTypedID].
  - repeat wp_prim. apply Hs. constructor.
  - do 2 wp_prim; [wp_end Hf|]. destruct (ParseUserID raw) as [u|] eqn:Hu; [|wp_end Hf].
    apply wp_bind, IH; [intros; wp_end Hf|]. intros us k Hus.
    repeat wp_prim. apply Hs. by constructor.
Qed.

Lemma lockedReservationHolders_wp task base db n (Q : DomainError + list UserID -> TxState -> Prop) :
  (forall reason st, st_base st = base -> Q (inl reason) st) ->
  (forall us k, parse_users (holders_of task db) us -> Q (inr us) (MkTxState base db k)) ->
  wp env (lockedReservationHolders task) Q (MkTxState base db n).
Proof.
  intros Hf Hs. unfold lockedReservationHolders. do 2 wp_prim; cbn -[holders_of]; [wp_end Hf|].
  apply wp_bind, scan_users_wp; [intros; wp_end Hf|]. intros us k Hus.
  do 2 wp_prim; [wp_end Hf|]. repeat wp_prim. by apply Hs.
Qed.

Lemma releaseReservationsOnCancel_wp t base db n (Q : option DomainError -> TxState -> Prop) :
  (forall reason st, st_base st = base -> Q (Some reason) st) ->
  (forall db' k, update_reservations (non_terminal (TypedID_String t)) "cancelled_by_requester" db = inr db' ->
     Q None (MkTxState base db' k)) ->
  wp env (releaseReservationsOnCancel t) Q (MkTxState base db n).
Proof.
  intros Hf Hs. unfold releaseReservationsOnCancel. repeat wp_prim; cbn -[update_reservations]; [wp_end Hf|].
  split_match; repeat wp_prim; [by apply Hf|by apply Hs].
Qed.

Definition granted_to (target : GrantTarget) (us : list UserID) (db : DB) : Prop :=
  match target with
  | GrantToUser id => us = [id]
  | GrantToOrganization id => parse_users (grant_audience (TypedID_String id) db) us
  end.

Lemma grantRecipients_wp target base db n (Q : DomainError + list UserID -> TxState -> Prop) :
  (forall reason st, st_base st = base -> Q (inl reason) st) ->
  (forall us k, granted_to target us db -> Q (inr us) (MkTxState base db k)) ->
  wp env (grantRecipients target) Q (MkTxState base db n).
Proof.
  intros Hf Hs. unfold grantRecipients. destruct target; [repeat wp_prim; by apply Hs|].
  do 2 wp_prim; cbn -[grant_audience]; [wp_end Hf|].
  apply wp_bind, scan_users_wp; [intros; wp_end Hf|]. intros us k Hus.
  do 2 wp_prim; [wp_end Hf|]. repeat wp_prim. by apply Hs.
Qed.

Definition received_by (target : TransferTarget) (us : list UserID) (db : DB) : Prop :=
  match target with
  | TransferToUser id => us = [id]
  | TransferToOrganization id => granted_to (GrantToOrganization id) us db
  end.

Lemma transferReceivers_wp target base db n (Q : DomainError + list UserID -> TxState -> Prop) :
  (forall reason st, st_base st = base -> Q (inl reason) st) ->
  (forall us k, received_by target us db -> Q (inr us) (MkTxState base db k)) ->
  wp env (transferReceivers target) Q (MkTxState base db n).
Proof.
  intros Hf Hs. destruct target; [repeat wp_prim; by apply Hs|]. by apply grantRecipients_wp.
Qed.

(** ** Submissions *)

Lemma select_submission_wp s t base db n (Q : StmtError + (SubmissionRow * string) -> TxState -> Prop) :
  (forall err st, st_base st = base -> Q (inl err) st) ->
  (forall row raw k, submissions db !! TypedID_String s = Some row -> sub_task_id row = TypedID_String t ->
     sub_user_id row = Some raw -> Q (inr (row, raw)) (MkTxState base db k)) ->
  wp env (select_submission s t) Q (MkTxState base db n).
Proof.
  intros Hf Hs. unfold select_submission. apply wp_query_row; cbn; [by apply Hf|].
  destruct (submissions db !! TypedID_String s) as [row|] eqn:Hrow; [|by apply Hf].
  split_match; [|by apply Hf]. split_match; [|by apply Hf]. tx_facts. by apply Hs.
Qed.

(** ** The two accounts of a transfer *)

Definition owner_account (ref : transferAccountRef) (account : string) (db : DB) : Prop :=
  match ref_owner ref with
  | owner_user id => user_account (TypedID_String id) account db
  | owner_organization id => organization_account (TypedID_String id) account db
  end /\ exists pid, ParseCreditAccountID account = TypedIDCreated pid.

Lemma lockTransferAccount_wp ref base db n (Q : accountLockResult -> TxState -> Prop) :
  (forall reason st, st_base st = base -> Q (accountLockRejected reason) st) ->
  (forall id pid k, owner_account ref id db -> Q (accountLocked id pid) (MkTxState base db k)) ->
  wp env (lockTransferAccount ref) Q (MkTxState base db n).
Proof.
  intros Hf Hs. unfold lockTransferAccount, owner_account in *.
  destruct (ref_owner ref); [apply lockUserAccount_wp|apply lockOrganizationAccount_wp]; eauto.
Qed.

(** Whatever the locking order, each side's account is looked up under its key. *)
Lemma lock_in_order_wp a b base db n (Q : DomainError + gmap string string -> TxState -> Prop) :
  ref_key a <> ref_key b ->
  (forall reason st, st_base st = base -> Q (inl reason) st) ->
  (forall locked x y k, owner_account a x db -> owner_account b y db ->
     locked !! ref_key a = Some x -> locked !! ref_key b = Some y -> Q (inr locked) (MkTxState base db k)) ->
  wp env (lock_in_order [a; b] ∅) Q (MkTxState base db n).
Proof.
  intros Hne Hf Hs. cbn. apply wp_bind, lockTransferAccount_wp; [intros; wp_end Hf|]. intros x px k Hx.
  apply wp_bind, lockTransferAccount_wp; [intros; wp_end Hf|]. intros y py k' Hy.
  repeat wp_prim. apply (Hs _ x y); [done..| |]; by simplify_map_eq.
Qed.
End Refinement.
