(* ===== verification/StoreSpecs.v ===== *)
(** * Specifications of the store's operations

    For every operation, the relation between its result, the database it ran on
    and the database it committed; and the theorem that the operation satisfies it
    under every environment. *)

From S2P Require Import Prelude.
From S2P Require Import Core.
From S2P Require Import OrgRoles.
From S2P Require Import Assets.
From S2P Require Import Events.
From S2P Require Import LedgerValues.
From S2P Require Import Database.
From S2P Require Import Tx.
From S2P Require Import LedgerSpec.
From S2P Require Import Outbox.
From S2P Require Import LedgerHelpers.
From S2P Require Import LedgerStore.
From S2P Require Import HelperSpecs.
From S2P Require Import ReviewSpecs.
Local Open Scope string_scope.
Local Open Scope Z_scope.

(** Run an operation from its weakest precondition. *)
Lemma run_spec {A} env db (m : M A) (S : A -> DB -> Prop) :
  wp env m (fun a st => S a (st_base st)) (MkTxState db db 0) -> S (fst (run env db m)) (snd (run env db m)).
Proof. intros Hw. apply wp_run in Hw as (st & HS & ->). done. Qed.

Section Operations.
Context `{UUIDLib} {env : Env}.
Implicit Types (db : DB).

(** A failure that left the committed database alone is a refusal. *)
Ltac refuse C := intros; repeat wp_prim; cbn in *; subst; apply C; by left.

(** A refusal of the budget is counted outside the transaction. *)
Ltac count_refusal C :=
  let reason := fresh in let st := fresh in let Hb := fresh in let st' := fresh in let Hr := fresh in
  intros reason st Hb; apply recordBudgetRefusal_wp; intros st' Hr; cbn in *; rewrite Hb in Hr; by apply C.

(** ** Funding: personal and organization funding share one specification *)

Record FundRequest := MkFundRequest {
  fr_account : string -> DB -> Prop;
  fr_owns : TaskRow -> Prop;
  fr_draft : TaskRow -> Draft -> Prop;
  fr_task : TaskID;
  fr_amount : CreditAmount;
  fr_entry : LedgerEntryID;
  fr_key : IdempotencyKey;
  fr_spend : SpendCharge
}.

Definition user_request (command : FundStoreCommand) : FundRequest :=
  MkFundRequest (user_account (TypedID_String (fund_FunderUserID command)))
    (fun row => task_created_by_user_id row = TypedID_String (fund_FunderUserID command))
    (fun _ draft => draft = fund_Draft command)
    (fund_TaskID command) (fund_Amount command) (fund_EntryID command) (fund_IdempotencyKey command)
    (fund_Spend command).

Definition organization_request (command : OrganizationFundStoreCommand) : FundRequest :=
  MkFundRequest (organization_account (TypedID_String (orgfund_OrganizationID command)))
    (fun row => default "" (task_organization_id row) = TypedID_String (orgfund_OrganizationID command))
    (fun row draft => exists owner, ParseUserID (task_created_by_user_id row) = TypedIDCreated owner /\
       draft = WithRecipients (orgfund_Draft command) [owner])
    (orgfund_TaskID command) (orgfund_Amount command) (orgfund_EntryID command) (orgfund_IdempotencyKey command)
    (orgfund_Spend command).

Inductive funded (q : FundRequest) (db : DB) : FundResult -> DB -> Prop :=
| funded_refused reason db' : refused db db' -> funded q db (FundRejected reason) db'
| funded_replay account row value :
    fr_account q account db ->
    entry_with_key (IdempotencyKey_String (fr_key q)) account db = inr row ->
    entry_kind row = "task_fund" -> default "" (entry_task_id row) = TypedID_String (fr_task q) ->
    buildFund (fr_task q) (entry_account_id row) (wrap64 (- entry_amount row)) = fundBuilt value ->
    funded q db (TaskFunded value IdempotentReplay []) db
| funded_first account pid row draft now db1 db2 db3 db4 db' :
    fr_account q account db -> ParseCreditAccountID account = TypedIDCreated pid ->
    entry_with_key (IdempotencyKey_String (fr_key q)) account db = inl ErrNoRows ->
    tasks db !! TypedID_String (fr_task q) = Some row -> fr_owns q row -> task_state row = "draft" ->
    fr_draft q row draft ->
    reward_switched (fr_task q) row (fr_amount q) db db1 ->
    charged (fr_spend q) db1 db2 ->
    CreditAmount_Int64 (fr_amount q) <= account_sum account (ledger_entries db2) ->
    insert_task_fund (TypedID_String (fr_task q)) account (CreditAmount_Int64 (fr_amount q)) db2 = inr db3 ->
    insert_ledger_entry (fund_entry (fr_entry q) account (fr_task q) (fr_amount q) (fr_key q) now) db3 = inr db4 ->
    recorded db4 [draft] db' ->
    funded q db (TaskFunded (MkTaskFund (fr_task q) pid (fr_amount q)) FirstExecution [draft]) db'.

Lemma FundTask_spec db command :
  valid_amount (fund_Amount command) ->
  funded (user_request command) db (fst (run env db (FundTask command))) (snd (run env db (FundTask command))).
Proof.
  intros Ha. apply run_spec. unfold FundTask.
  do 2 wp_prim; cbn; [refuse funded_refused|].
  apply wp_bind, lockUserAccount_wp; [refuse funded_refused|]. intros account pid k Hacc Hpid.
  apply wp_bind, findFundForKey_wp; [refuse funded_refused|..]; cbn.
  { intros row value k' Hrow Hkind Htask Hbuild. repeat wp_prim; cbn. by eapply funded_replay. }
  intros k' Hnokey. apply wp_bind, lockTaskOwnedBy_wp; [refuse funded_refused|]. intros row k1 Hrow Howns.
  apply wp_bind, requireFundableTask_wp; [refuse funded_refused|]. intros db1 k2 Hstate Hreward.
  apply wp_bind, applySpendCharge_wp.
  { count_refusal funded_refused. }
  intros db2 k3 Hcharge. apply completeFunding_wp; [done|refuse funded_refused|].
  intros. eapply (funded_first (user_request command)); eauto. done.
Qed.

Lemma FundTaskFromOrganization_spec db command :
  valid_amount (orgfund_Amount command) ->
  funded (organization_request command) db (fst (run env db (FundTaskFromOrganization command)))
    (snd (run env db (FundTaskFromOrganization command))).
Proof.
  intros Ha. apply run_spec. unfold FundTaskFromOrganization.
  do 2 wp_prim; cbn; [refuse funded_refused|].
  apply wp_bind, lockOrganizationAccount_wp; [refuse funded_refused|]. intros account pid k Hacc Hpid.
  apply wp_bind, findFundForKey_wp; [refuse funded_refused|..]; cbn.
  { intros row value k' Hrow Hkind Htask Hbuild. repeat wp_prim; cbn. by eapply funded_replay. }
  intros k' Hnokey. apply wp_bind, lockTaskOwnedByOrganization_wp; [refuse funded_refused|]. intros row k1 Hrow Howns.
  apply wp_bind, requireFundableTask_wp; [refuse funded_refused|]. intros db1 k2 Hstate Hreward.
  unfold parseReviewWorker. destruct (ParseUserID _) as [owner|] eqn:Howner; [|refuse funded_refused].
  apply wp_bind, applySpendCharge_wp.
  { count_refusal funded_refused. }
  intros db2 k3 Hcharge. apply completeFunding_wp; [done|refuse funded_refused|].
  intros. eapply (funded_first (organization_request command)); eauto. by exists owner.
Qed.
(** ** Grants *)

Definition grant_account (target : GrantTarget) : string -> DB -> Prop :=
  match target with
  | GrantToUser id => user_account (TypedID_String id)
  | GrantToOrganization id => organization_account (TypedID_String id)
  end.

Definition grant_entry (command : GrantStoreCommand) (account : string) (now : Z) : EntryRow :=
  new_entry (grant_EntryID command) account "manual_adjustment" (CreditAmount_Int64 (grant_Amount command)) None
    (Some (IdempotencyKey_String (grant_IdempotencyKey command))) (GrantNote_String (grant_Note command)) now.

Inductive granted (command : GrantStoreCommand) (db : DB) : GrantResult -> DB -> Prop :=
| granted_refused reason db' : refused db db' -> granted command db (GrantRejected reason) db'
| granted_replay account row id us :
    grant_account (grant_Target command) account db ->
    entry_with_key (IdempotencyKey_String (grant_IdempotencyKey command)) account db = inr row ->
    entry_kind row = "manual_adjustment" -> entry_amount row = CreditAmount_Int64 (grant_Amount command) ->
    ParseLedgerEntryID (entry_id row) = TypedIDCreated id -> granted_to (grant_Target command) us db ->
    granted command db (CreditsGranted id (grant_Amount command) us IdempotentReplay []) db
| granted_first account pid now us db1 db' :
    grant_account (grant_Target command) account db -> ParseCreditAccountID account = TypedIDCreated pid ->
    entry_with_key (IdempotencyKey_String (grant_IdempotencyKey command)) account db = inl ErrNoRows ->
    insert_ledger_entry (grant_entry command account now) db = inr db1 ->
    granted_to (grant_Target command) us db1 ->
    recorded db1 [WithRecipients (grant_Draft command) us] db' ->
    granted command db (CreditsGranted (grant_EntryID command) (grant_Amount command) us FirstExecution
      [WithRecipients (grant_Draft command) us]) db'.

Lemma grant_lock_wp target base db n (Q : accountLockResult -> TxState -> Prop) :
  (forall reason st, st_base st = base -> Q (accountLockRejected reason) st) ->
  (forall id pid k, grant_account target id db -> ParseCreditAccountID id = TypedIDCreated pid ->
     Q (accountLocked id pid) (MkTxState base db k)) ->
  wp env (match target with
          | GrantToUser id => lockUserAccount id
          | GrantToOrganization id => lockOrganizationAccount id
          end) Q (MkTxState base db n).
Proof. intros Hf Hs. destruct target; [apply lockUserAccount_wp|apply lockOrganizationAccount_wp]; auto. Qed.

Lemma GrantCredits_spec db command :
  granted command db (fst (run env db (GrantCredits command))) (snd (run env db (GrantCredits command))).
Proof.
  apply run_spec. unfold GrantCredits.
  do 2 wp_prim; cbn; [refuse granted_refused|].
  apply wp_bind, grant_lock_wp; [refuse granted_refused|]. intros account pid k Hacc Hpid.
  do 2 wp_prim; cbn; [repeat wp_prim; refuse granted_refused|].
  destruct (entry_with_key _ account db) as [[]|row] eqn:Hkey; [|repeat wp_prim; refuse granted_refused..|].
  - repeat wp_prim; cbn; [refuse granted_refused|]. split_match; [refuse granted_refused|].
    repeat wp_prim. cbn. apply grantRecipients_wp; [refuse granted_refused|]. intros us k' Hus.
    apply commit_events_wp; [refuse granted_refused..|]. intros db' k1 Hr. cbn. by eapply granted_first.
  - repeat wp_prim. split_match; [refuse granted_refused|].
    destruct (ParseLedgerEntryID (entry_id row)) as [id|] eqn:Hid; [|refuse granted_refused]. cbn. tx_facts.
    apply wp_bind, grantRecipients_wp; [refuse granted_refused|]. intros us k' Hus.
    apply commit_events_wp; [refuse granted_refused..|]. intros db' k1 Hr. cbn. inv Hr. by eapply granted_replay.
Qed.

(** ** Peer transfers *)

Definition send_note (command : PeerTransferStoreCommand) : string :=
  match send_Note command with TransferNoteProvided note => GrantNote_String note | NoTransferNote => "" end.
Definition debit_key (command : PeerTransferStoreCommand) : string :=
  IdempotencyKey_String (send_IdempotencyKey command) +:+ ":send-debit".
Definition credit_key (command : PeerTransferStoreCommand) : string :=
  IdempotencyKey_String (send_IdempotencyKey command) +:+ ":send-credit".
Definition send_source (command : PeerTransferStoreCommand) : transferAccountRef :=
  transferSourceRef (send_Source command) (send_ActingUserID command).
Definition send_target (command : PeerTransferStoreCommand) : transferAccountRef :=
  transferTargetRef (send_Target command).

(** An organization source needs a member with the billing permission. *)
Definition may_send (command : PeerTransferStoreCommand) (db : DB) : Prop :=
  match send_Source command with
  | TransferFromSelf => True
  | TransferFromOrganization id =>
      holds_permission (TypedID_String id) (TypedID_String (send_ActingUserID command)) PermissionManageBilling db
  end.

Definition debit_entry (command : PeerTransferStoreCommand) (account : string) (now : Z) : EntryRow :=
  new_entry (send_DebitEntryID command) account "peer_transfer" (- CreditAmount_Int64 (send_Amount command)) None
    (Some (debit_key command)) (send_note command) now.
Definition credit_entry (command : PeerTransferStoreCommand) (account : string) (now : Z) : EntryRow :=
  new_entry (send_CreditEntryID command) account "peer_transfer" (CreditAmount_Int64 (send_Amount command)) None
    (Some (credit_key command)) (send_note command) now.

Inductive sent (command : PeerTransferStoreCommand) (db : DB) : SendResult -> DB -> Prop :=
| sent_refused reason db' : refused db db' -> sent command db (SendRejected reason) db'
| sent_replay source target row id us :
    may_send command db -> received_by (send_Target command) us db ->
    owner_account (send_source command) source db -> owner_account (send_target command) target db ->
    entry_with_key (debit_key command) source db = inr row ->
    entry_kind row = "peer_transfer" -> entry_amount row = - CreditAmount_Int64 (send_Amount command) ->
    ParseLedgerEntryID (entry_id row) = TypedIDCreated id ->
    sent command db (CreditsSent id (send_Amount command) us IdempotentReplay []) db
| sent_first source target us now db1 db2 db3 db4 db' :
    ref_key (send_source command) <> ref_key (send_target command) ->
    may_send command db -> received_by (send_Target command) us db ->
    owner_account (send_source command) source db -> owner_account (send_target command) target db ->
    entry_with_key (debit_key command) source db = inl ErrNoRows ->
    CreditAmount_Int64 (send_Amount command) <= account_sum source (ledger_entries db) ->
    charged_counter (workDayKeyPeerSend +:+ source) (CreditAmount_Int64 (send_Amount command))
      DailyPeerTransferCeilingCredits db db1 ->
    charged (send_Spend command) db1 db2 ->
    insert_ledger_entry (debit_entry command source now) db2 = inr db3 ->
    insert_ledger_entry (credit_entry command target now) db3 = inr db4 ->
    recorded db4 [WithRecipients (send_Draft command) us] db' ->
    sent command db (CreditsSent (send_DebitEntryID command) (send_Amount command) us FirstExecution
      [WithRecipients (send_Draft command) us]) db'.

Lemma authorize_source_wp command base db n (Q : option DomainError -> TxState -> Prop) :
  (forall reason st, st_base st = base -> Q (Some reason) st) ->
  (forall k, may_send command db -> Q None (MkTxState base db k)) ->
  wp env (authorize_source (send_Source command) (send_ActingUserID command)) Q (MkTxState base db n).
Proof.
  intros Hf Hs. unfold authorize_source, may_send in *. destruct (send_Source command); [repeat wp_prim; by apply Hs|].
  apply wp_bind, organizationMemberPermission_wp; [intros; wp_end Hf|]. intros k Hp. repeat wp_prim. by apply Hs.
Qed.

Lemma settle_transfer_wp command source target us db n :
  valid_amount (send_Amount command) ->
  ref_key (send_source command) <> ref_key (send_target command) -> may_send command db ->
  owner_account (send_source command) source db -> owner_account (send_target command) target db ->
  received_by (send_Target command) us db -> entry_with_key (debit_key command) source db = inl ErrNoRows ->
  wp env (settle_transfer command source target us) (fun r st => sent command db r (st_base st)) (MkTxState db db n).
Proof.
  intros Ha Hne Hmay Hsrc Htgt Hus Hkey. unfold settle_transfer, read_spendable. fold (send_note command) (debit_key command) (credit_key command).
  rewrite (valid_amount_opp _ Ha).
  do 2 wp_prim; cbn; [refuse sent_refused|]. split_match; [refuse sent_refused|].
  split_match; [refuse sent_refused|]. tx_facts.
  apply wp_bind, applyPeerTransferVelocity_wp.
  { count_refusal sent_refused. }
  intros db1 k Hvel. apply wp_bind, applySpendCharge_wp.
  { count_refusal sent_refused. }
  intros db2 k' Hcharge. repeat wp_prim; cbn; [refuse sent_refused|]. split_match; [refuse sent_refused|].
  repeat wp_prim; cbn; [refuse sent_refused|]. split_match; [refuse sent_refused|].
  apply commit_events_wp; [refuse sent_refused..|]. intros db' k1 Hr. cbn. by eapply sent_first.
Qed.

Lemma transfer_locked_wp command source target db n :
  valid_amount (send_Amount command) ->
  ref_key (send_source command) <> ref_key (send_target command) -> may_send command db ->
  owner_account (send_source command) source db -> owner_account (send_target command) target db ->
  wp env (transfer_locked command source target) (fun r st => sent command db r (st_base st)) (MkTxState db db n).
Proof.
  intros Ha Hne Hmay Hsrc Htgt. unfold transfer_locked. fold (debit_key command).
  apply wp_bind, transferReceivers_wp; [refuse sent_refused|]. intros us k Hus.
  do 2 wp_prim; cbn -[settle_transfer]; [refuse sent_refused|].
  destruct (entry_with_key (debit_key command) source db) as [[]|row] eqn:Hkey;
    [by apply settle_transfer_wp|refuse sent_refused..|].
  rewrite (valid_amount_opp _ Ha). split_match; [refuse sent_refused|]. tx_facts.
  destruct (ParseLedgerEntryID (entry_id row)) as [id|] eqn:Hid; [|refuse sent_refused].
  repeat wp_prim; cbn; [refuse sent_refused|]. by eapply sent_replay.
Qed.

Lemma PeerTransfer_spec db command :
  valid_amount (send_Amount command) ->
  sent command db (fst (run env db (PeerTransfer command))) (snd (run env db (PeerTransfer command))).
Proof.
  intros Ha. apply run_spec. unfold PeerTransfer. fold (send_source command) (send_target command).
  split_match; [refuse sent_refused|]. tx_facts.
  do 2 wp_prim; cbn -[transfer_locked]; [refuse sent_refused|].
  apply wp_bind, authorize_source_wp; [refuse sent_refused|]. intros k Hmay. apply wp_bind.
  split_match; apply lock_in_order_wp; try done; try (refuse sent_refused);
    intros locked x y k' Hx Hy Hlx Hly; rewrite Hlx, Hly; by apply transfer_locked_wp.
Qed.
(** ** Requested changes *)

Definition changes_key (command : RequestChangesStoreCommand) : string :=
  IdempotencyKey_String (changes_IdempotencyKey command).

(** The submission under review, with its author. *)
Definition reviewed (s : SubmissionID) (t : TaskID) (row : SubmissionRow) (worker : UserID) (db : DB) : Prop :=
  submissions db !! TypedID_String s = Some row /\ sub_task_id row = TypedID_String t /\
  exists raw, sub_user_id row = Some raw /\ ParseUserID raw = TypedIDCreated worker.

Definition worker_of (row : SubmissionRow) : string := default "" (sub_user_id row).

Inductive changes_requested (command : RequestChangesStoreCommand) (db : DB) : RequestChangesResult -> DB -> Prop :=
| changes_refused reason db' : db' = db -> changes_requested command db (RequestChangesRejected reason) db'
| changes_replay task row worker :
    tasks db !! TypedID_String (changes_TaskID command) = Some task ->
    may_review (changes_Reviewer command) task db ->
    reviewed (changes_SubmissionID command) (changes_TaskID command) row worker db ->
    sub_state row = "changes_requested" -> default "" (sub_changes_idempotency_key row) = changes_key command ->
    changes_requested command db (ChangesRequested (changes_TaskID command) (changes_SubmissionID command) worker
      (sub_review_note row) IdempotentReplay []) db
| changes_first task row worker db1 db2 db' :
    tasks db !! TypedID_String (changes_TaskID command) = Some task -> task_state task = "open" ->
    may_review (changes_Reviewer command) task db ->
    reviewed (changes_SubmissionID command) (changes_TaskID command) row worker db ->
    sub_state row = "submitted" ->
    update_submission_changes_requested (TypedID_String (changes_SubmissionID command))
      (ReviewNote_String (changes_ReviewNote command)) (reviewerUserColumn (changes_Reviewer command))
      (changes_key command) db = inr db1 ->
    update_reservations (worker_reservation (TypedID_String (changes_TaskID command)) (worker_of row) ["submitted"])
      "active" db1 = inr db2 ->
    recorded db2 [WithRecipients (changes_Draft command) [worker]] db' ->
    changes_requested command db (ChangesRequested (changes_TaskID command) (changes_SubmissionID command) worker
      (ReviewNote_String (changes_ReviewNote command)) FirstExecution
      [WithRecipients (changes_Draft command) [worker]]) db'.

Ltac refuse_same C := intros; repeat wp_prim; cbn in *; subst; by apply C.

Lemma RequestChanges_spec db command :
  changes_requested command db (fst (run env db (RequestChanges command))) (snd (run env db (RequestChanges command))).
Proof.
  apply run_spec. unfold RequestChanges. fold (changes_key command).
  do 2 wp_prim; cbn -[update_submission_changes_requested update_reservations]; [refuse_same changes_refused|].
  apply wp_bind, lockTaskForReview_wp; [refuse_same changes_refused|]. intros task k Htask Hmay.
  cbn [locked_state locked_of]. split_match; [refuse_same changes_refused|]. tx_facts.
  apply wp_bind, select_submission_wp; [intros [] ? ?; refuse_same changes_refused|].
  intros row raw k' Hrow Hst Hraw. unfold parseReviewWorker.
  destruct (ParseUserID raw) as [worker|] eqn:Hw; [|refuse_same changes_refused].
  assert (reviewed (changes_SubmissionID command) (changes_TaskID command) row worker db) as Hrev by (repeat split; eauto).
  split_match; [split_match; [|refuse_same changes_refused]|].
  { tx_facts. repeat wp_prim; cbn. by eapply changes_replay. }
  split_match; [refuse_same changes_refused|]. tx_facts.
  do 2 wp_prim; [refuse_same changes_refused|]. cbn [st_db tick]. split_match; [refuse_same changes_refused|].
  do 2 wp_prim; [refuse_same changes_refused|]. cbn [st_db tick]. split_match; [refuse_same changes_refused|].
  apply commit_events_wp; [refuse_same changes_refused..|]. intros db' k1 Hr. cbn.
  eapply changes_first; eauto. unfold worker_of. by rewrite Hraw.
Qed.

(** ** Refunds *)

Definition refund_key (command : RefundStoreCommand) : string :=
  IdempotencyKey_String (refund_IdempotencyKey command).

(** The refund of a task is open to its owner and its active implementor. *)
Definition may_refund (requester : UserID) (t : TaskID) (row : TaskRow) (db : DB) : Prop :=
  task_created_by_user_id row = TypedID_String requester \/
  active_implementor (TypedID_String t) (TypedID_String requester) db = true.

Definition not_awarded (row : TaskRow) : Prop := task_state row = "draft" \/ task_state row = "open".

Lemma lockTaskRefundable_wp t requester base db n (Q : option DomainError -> TxState -> Prop) :
  (forall reason st, st_base st = base -> Q (Some reason) st) ->
  (forall row k, tasks db !! TypedID_String t = Some row -> may_refund requester t row db -> not_awarded row ->
     Q None (MkTxState base db k)) ->
  wp env (lockTaskRefundable t requester) Q (MkTxState base db n).
Proof.
  intros Hf Hs. unfold lockTaskRefundable, select_task, not_awarded in *.
  assert (forall row k, tasks db !! TypedID_String t = Some row -> may_refund requester t row db ->
    Q (if negb (String.eqb (task_state row) "draft") && negb (String.eqb (task_state row) "open") then
         Some (invalid_state "only tasks that are not yet awarded can be refunded") else None)
      (MkTxState base db k)) as Hst.
  { intros row k Hrow Hmay. destruct (String.eqb_spec (task_state row) "draft"); cbn; [by eapply Hs; eauto|].
    destruct (String.eqb_spec (task_state row) "open"); cbn; [by eapply Hs; eauto|by apply Hf]. }
  do 2 wp_prim; cbn -[active_implementor]; [wp_end Hf|].
  destruct (tasks db !! TypedID_String t) as [row|] eqn:Hrow; [|wp_end Hf].
  destruct (String.eqb_spec (task_created_by_user_id row) (TypedID_String requester)); cbn [negb].
  - repeat wp_prim. apply Hst; [done|by left].
  - repeat wp_prim; [wp_end Hf|]. cbn [st_db tick].
    destruct (active_implementor (TypedID_String t) (TypedID_String requester) db) eqn:Hact; [|wp_end Hf]. apply Hst; [done|by right].
Qed.

Definition refund_entry (command : RefundStoreCommand) (fund : FundRow) (now : Z) : EntryRow :=
  new_entry (refund_EntryID command) (fund_account_id fund) "task_refund" (fund_credit_amount fund)
    (Some (refund_TaskID command)) (Some (refund_key command)) "" now.

Inductive refunded (command : RefundStoreCommand) (db : DB) : RefundResult -> DB -> Prop :=
| refunded_refused reason db' : db' = db -> refunded command db (RefundRejected reason) db'
| refunded_replay row e value :
    tasks db !! TypedID_String (refund_TaskID command) = Some row ->
    may_refund (refund_RequesterUserID command) (refund_TaskID command) row db -> not_awarded row ->
    task_funds db !! TypedID_String (refund_TaskID command) = None ->
    e ∈ ledger_entries db -> entry_task_id e = Some (TypedID_String (refund_TaskID command)) ->
    entry_kind e = "task_refund" -> entry_idempotency_key e = Some (refund_key command) ->
    buildFund (refund_TaskID command) (entry_account_id e) (entry_amount e) = fundBuilt value ->
    refunded command db (TaskRefunded value IdempotentReplay []) db
| refunded_first row fund value now holders db1 db2 db3 db4 db' :
    tasks db !! TypedID_String (refund_TaskID command) = Some row ->
    may_refund (refund_RequesterUserID command) (refund_TaskID command) row db -> not_awarded row ->
    task_funds db !! TypedID_String (refund_TaskID command) = Some fund ->
    buildFund (refund_TaskID command) (fund_account_id fund) (fund_credit_amount fund) = fundBuilt value ->
    insert_ledger_entry (refund_entry command fund now) db = inr db1 ->
    (held_collectibles (TypedID_String (refund_TaskID command)) (drop_fund (refund_TaskID command) db1) = [] /\
       db2 = drop_fund (refund_TaskID command) db1 \/
     held_collectibles (TypedID_String (refund_TaskID command)) (drop_fund (refund_TaskID command) db1) <> [] /\
       db2 = release_held (set_col_state "minted") (refund_TaskID command) (drop_fund (refund_TaskID command) db1)) ->
    update_task_state (TypedID_String (refund_TaskID command)) "cancelled" db2 = inr db3 ->
    parse_users (holders_of (TypedID_String (refund_TaskID command)) db3) holders ->
    update_reservations (non_terminal (TypedID_String (refund_TaskID command))) "cancelled_by_requester" db3 = inr db4 ->
    recorded db4 [WithRecipients (refund_Draft command) holders] db' ->
    refunded command db (TaskRefunded value FirstExecution [WithRecipients (refund_Draft command) holders]) db'.

Lemma settle_refund_wp command row fund db n :
  tasks db !! TypedID_String (refund_TaskID command) = Some row ->
  may_refund (refund_RequesterUserID command) (refund_TaskID command) row db -> not_awarded row ->
  task_funds db !! TypedID_String (refund_TaskID command) = Some fund ->
  wp env (settle_refund command fund) (fun r st => refunded command db r (st_base st)) (MkTxState db db n).
Proof.
  intros Hrow Hmay Hst Hfund. unfold settle_refund. fold (refund_key command).
  destruct (buildFund _ _ _) as [value|] eqn:Hbuild; [|refuse_same refunded_refused].
  repeat wp_prim; cbn -[insert_ledger_entry]; [refuse_same refunded_refused|].
  split_match; [refuse_same refunded_refused|]. repeat wp_prim; [refuse_same refunded_refused|].
  cbn [st_db tick delete_task_fund]. apply wp_bind, refundHeldCollectibleReward_wp; [refuse_same refunded_refused|].
  intros db2 k Hheld. repeat wp_prim; [refuse_same refunded_refused|]. cbn [st_db tick].
  split_match; [refuse_same refunded_refused|].
  apply wp_bind, lockedReservationHolders_wp; [refuse_same refunded_refused|]. intros holders k' Hholders.
  apply wp_bind, releaseReservationsOnCancel_wp; [refuse_same refunded_refused|]. intros db4 k1 Hrel.
  apply commit_events_wp; [refuse_same refunded_refused..|]. intros db' k2 Hr. cbn.
  by eapply refunded_first.
Qed.

Lemma RefundTask_spec db command :
  refunded command db (fst (run env db (RefundTask command))) (snd (run env db (RefundTask command))).
Proof.
  apply run_spec. unfold RefundTask, select_fund. fold (refund_key command).
  do 2 wp_prim; cbn -[settle_refund]; [refuse_same refunded_refused|].
  apply wp_bind, lockTaskRefundable_wp; [refuse_same refunded_refused|]. intros row k Hrow Hmay Hst.
  do 2 wp_prim; cbn -[settle_refund key_used]; [refuse_same refunded_refused|].
  do 2 wp_prim; cbn -[settle_refund key_used]; [refuse_same refunded_refused|].
  destruct (task_funds db !! TypedID_String (refund_TaskID command)) as [fund|] eqn:Hfund.
  - wp_prim. destruct (key_used _ _ db); cbn [negb]; [repeat wp_prim; refuse_same refunded_refused|].
    wp_prim; [refuse_same refunded_refused|]. cbn [st_db tick].
    destruct (key_used _ _ db); [refuse_same refunded_refused|]. by eapply settle_refund_wp.
  - unfold replayOrRejectRefund. fold (refund_key command). split_match; [refuse_same refunded_refused|].
    repeat wp_prim; [refuse_same refunded_refused|]. cbn [st_db tick].
    destruct (first_row _) as [[]|e] eqn:He; [refuse_same refunded_refused..|].
    apply first_row_inr, list_elem_of_filter in He as ((Ht & Hk & Hkey) & Hin).
    destruct (buildFund _ _ _) as [value|] eqn:Hbuild; [|refuse_same refunded_refused]. by eapply refunded_replay.
Qed.
(** ** Rejections *)

Definition reject_fund (command : RejectStoreCommand) (rawWorker : string) : reviewFundCommand :=
  MkReviewFundCommand (reject_TaskID command) rawWorker (reject_PayoutEntryID command) (MkTypedID (MkID uuid_nil))
    (reject_IdempotencyKey command) (reject_CreditSelection command) false true.

Definition banned (command : RejectStoreCommand) (rawWorker : string) (db db' : DB) : Prop :=
  match reject_BanSelection command with
  | NoBanSelection => db' = db
  | BanImplementorSelection => exists by_user, reviewerUserColumn (reject_Reviewer command) = Some by_user /\
      insert_ban (TypedID_String (reject_TaskID command)) rawWorker by_user db = inr db'
  end.

Lemma ban_implementor_wp command raw base db n (Q : option DomainError -> TxState -> Prop) :
  (forall reason st, st_base st = base -> Q (Some reason) st) ->
  (forall db' k, banned command raw db db' -> Q None (MkTxState base db' k)) ->
  wp env (ban_implementor command raw) Q (MkTxState base db n).
Proof.
  intros Hf Hs. unfold ban_implementor, banned in *.
  destruct (reject_BanSelection command); [repeat wp_prim; by apply Hs|].
  destruct (reviewerUserColumn _) as [by_user|]; [|wp_end Hf].
  repeat wp_prim; [wp_end Hf|]. cbn [st_db tick]. split_match; [repeat wp_prim; by apply Hf|].
  repeat wp_prim. apply Hs. eauto.
Qed.

(** The drafts a review records: the review's own, then one per movement of value. *)
Definition review_drafts (draft : Draft) (worker : UserID) (payout : PayoutOutcome) (tip : TipOutcome)
    (ds : list Draft) : Prop :=
  exists rest, ds = WithRecipients draft [worker] :: rest /\ Draft_Kind <$> rest = outcome_kinds payout tip.

Inductive rejected (command : RejectStoreCommand) (db : DB) : RejectResult -> DB -> Prop :=
| rejected_refused reason db' : refused db db' -> rejected command db (RejectRejected reason) db'
| rejected_replay task row worker :
    tasks db !! TypedID_String (reject_TaskID command) = Some task ->
    may_review (reject_Reviewer command) task db ->
    reviewed (reject_SubmissionID command) (reject_TaskID command) row worker db ->
    sub_state row = "rejected" ->
    default "" (sub_review_idempotency_key row) = IdempotencyKey_String (reject_IdempotencyKey command) ->
    rejected command db (SubmissionRejected (reject_TaskID command) (reject_SubmissionID command) worker
      NoPayout NoTip IdempotentReplay []) db
| rejected_first task row worker payout tip ds db1 db2 db3 db4 db5 db6 db' :
    tasks db !! TypedID_String (reject_TaskID command) = Some task -> task_state task = "open" ->
    may_review (reject_Reviewer command) task db ->
    reviewed (reject_SubmissionID command) (reject_TaskID command) row worker db ->
    sub_state row = "submitted" ->
    paid (reject_fund command (worker_of row)) db payout db1 ->
    charged (reject_Spend command) db1 db2 ->
    tipped (reject_TaskID command) (reject_Reviewer command) (worker_of row) (reject_TipDebitEntryID command)
      (reject_TipCreditEntryID command) (reject_IdempotencyKey command) (reject_TipSelection command) db2 tip db3 ->
    update_submission_rejected (TypedID_String (reject_SubmissionID command))
      (ReviewNote_String (reject_ReviewNote command)) (reviewerUserColumn (reject_Reviewer command))
      (IdempotencyKey_String (reject_IdempotencyKey command)) db3 = inr db4 ->
    update_reservations (worker_reservation (TypedID_String (reject_TaskID command)) (worker_of row)
      ["active"; "submitted"]) "cancelled_by_requester" db4 = inr db5 ->
    banned command (worker_of row) db5 db6 ->
    review_drafts (reject_Draft command) worker payout tip ds ->
    recorded db6 ds db' ->
    rejected command db (SubmissionRejected (reject_TaskID command) (reject_SubmissionID command) worker
      payout tip FirstExecution ds) db'.

Lemma RejectSubmission_spec db command :
  funds_ok db -> valid_tip (reject_TipSelection command) ->
  rejected command db (fst (run env db (RejectSubmission command))) (snd (run env db (RejectSubmission command))).
Proof.
  intros Hok Htip. apply run_spec. unfold RejectSubmission.
  do 2 wp_prim; cbn -[settle_reject]; [refuse rejected_refused|].
  apply wp_bind, lockTaskForReview_wp; [refuse rejected_refused|]. intros task k Htask Hmay.
  cbn [locked_state locked_of]. split_match; [refuse rejected_refused|]. tx_facts.
  apply wp_bind, select_submission_wp; [intros [] ? ?; refuse rejected_refused|].
  intros row raw k' Hrow Hst Hraw. unfold parseReviewWorker.
  destruct (ParseUserID raw) as [worker|] eqn:Hw; [|refuse rejected_refused].
  assert (reviewed (reject_SubmissionID command) (reject_TaskID command) row worker db) as Hrev by (repeat split; eauto).
  assert (worker_of row = raw) as Hwo by (unfold worker_of; by rewrite Hraw).
  split_match; [split_match; [|refuse rejected_refused]|].
  { tx_facts. repeat wp_prim; cbn. by eapply rejected_replay. }
  split_match; [refuse rejected_refused|]. tx_facts. unfold settle_reject. fold (reject_fund command (worker_of row)).
  apply wp_bind, payReviewFund_wp; [done|done|refuse rejected_refused|]. intros payout db1 k1 Hpaid.
  apply wp_bind, applySpendCharge_wp; [count_refusal rejected_refused|]. intros db2 k2 Hcharge.
  apply wp_bind, payCreditTip_wp; [done|refuse rejected_refused|]. intros tip db3 k3 Htipped.
  do 2 wp_prim; [refuse rejected_refused|]. cbn [st_db tick]. split_match; [refuse rejected_refused|].
  do 2 wp_prim; [refuse rejected_refused|]. cbn [st_db tick]. split_match; [refuse rejected_refused|].
  apply wp_bind, ban_implementor_wp; [refuse rejected_refused|]. intros db6 k4 Hban.
  apply wp_bind, ReviewEventDrafts_wp; [refuse rejected_refused|]. intros rest k5 Hkinds.
  apply commit_events_wp; [refuse rejected_refused..|]. intros db' k6 Hr. cbn.
  eapply rejected_first; eauto. by exists rest.
Qed.

(** ** Acceptances *)

Definition accept_fund (command : AcceptStoreCommand) (rawWorker : string) : reviewFundCommand :=
  MkReviewFundCommand (accept_TaskID command) rawWorker (accept_PayoutEntryID command) (accept_RefundEntryID command)
    (accept_IdempotencyKey command) (accept_CreditSelection command) true true.

Definition accept_key (command : AcceptStoreCommand) : string :=
  IdempotencyKey_String (accept_IdempotencyKey command).

Definition submitted_for (command : AcceptStoreCommand) : string := TypedID_String (accept_SubmissionID command).

Inductive accepted (command : AcceptStoreCommand) (db : DB) : AcceptResult -> DB -> Prop :=
| accepted_refused reason db' : refused db db' -> accepted command db (AcceptRejected reason) db'
| accepted_replay task row worker outcome :
    tasks db !! TypedID_String (accept_TaskID command) = Some task ->
    may_review (accept_Reviewer command) task db ->
    reviewed (accept_SubmissionID command) (accept_TaskID command) row worker db ->
    sub_state row = "accepted" -> default "" (sub_accepted_idempotency_key row) = accept_key command ->
    (outcome = NoPayout \/ exists e, e ∈ ledger_entries db /\ entry_kind e = "task_payout" /\
       entry_task_id e = Some (TypedID_String (accept_TaskID command)) /\
       entry_idempotency_key e = Some (accept_key command) /\
       outcome = CreditPayout worker (MkCreditAmount (entry_amount e))) ->
    accepted command db (SubmissionAccepted (accept_TaskID command) (accept_SubmissionID command) worker
      outcome NoTip IdempotentReplay []) db
| accepted_first task row worker credit collectible tip ctip ds superseded db1 db2 db3 db4 db5 db6 db7 db8 db' :
    tasks db !! TypedID_String (accept_TaskID command) = Some task -> task_state task = "open" ->
    may_review (accept_Reviewer command) task db ->
    reviewed (accept_SubmissionID command) (accept_TaskID command) row worker db ->
    sub_state row = "submitted" ->
    update_submission_accepted (TypedID_String (accept_SubmissionID command)) (accept_key command) db = inr db1 ->
    update_task_state (TypedID_String (accept_TaskID command)) "closed" db1 = inr db2 ->
    paid (accept_fund command (worker_of row)) db2 credit db3 ->
    collectibles_paid (accept_TaskID command) (worker_of row) db3 collectible db4 ->
    (combinePayouts credit collectible = NoPayout -> task_reward_kind task <> "credit" /\ task_reward_kind task <> "bundle") ->
    charged (accept_Spend command) db4 db5 ->
    tipped (accept_TaskID command) (accept_Reviewer command) (worker_of row) (accept_TipDebitEntryID command)
      (accept_TipCreditEntryID command) (accept_IdempotencyKey command) (accept_TipSelection command) db5 tip db6 ->
    collectible_tipped (accept_Reviewer command) (worker_of row) (accept_CollectibleTip command) db6 ctip db7 ->
    supersedes (accept_TaskID command) (accept_SubmissionID command) superseded db7 db8 ->
    review_drafts (accept_Draft command) worker (combinePayouts credit collectible) (combineTips tip ctip) ds ->
    recorded db8 (ds ++ superseded) db' ->
    accepted command db (SubmissionAccepted (accept_TaskID command) (accept_SubmissionID command) worker
      (combinePayouts credit collectible) (combineTips tip ctip) FirstExecution (ds ++ superseded)) db'.

Lemma update_submission_accepted_inr s key db db' :
  update_submission_accepted s key db = inr db' -> exists ss, db' = with_submissions ss db.
Proof.
  unfold update_submission_accepted. repeat split_match; intros [=]; subst; [by eexists|].
  exists (submissions db'). by destruct db'.
Qed.

Lemma update_task_state_inr t state db db' :
  update_task_state t state db = inr db' -> exists ts, db' = with_tasks ts db.
Proof.
  unfold update_task_state. repeat split_match; intros [=]; subst; [by eexists|].
  exists (tasks db'). by destruct db'.
Qed.

Lemma settle_accept_wp command task row raw db db1 db2 n :
  funds_ok db -> valid_tip (accept_TipSelection command) ->
  tasks db !! TypedID_String (accept_TaskID command) = Some task -> task_state task = "open" ->
  may_review (accept_Reviewer command) task db ->
  submissions db !! TypedID_String (accept_SubmissionID command) = Some row ->
  sub_task_id row = TypedID_String (accept_TaskID command) -> sub_user_id row = Some raw ->
  sub_state row = "submitted" ->
  update_submission_accepted (TypedID_String (accept_SubmissionID command)) (accept_key command) db = inr db1 ->
  update_task_state (TypedID_String (accept_TaskID command)) "closed" db1 = inr db2 ->
  wp env (settle_accept command (locked_of task) (worker_of row))
    (fun r st => accepted command db r (st_base st)) (MkTxState db db2 n).
Proof.
  intros Hok Htip Htask Hopen Hmay Hrow Hst Hraw Hsub Hu1 Hu2. unfold settle_accept, payOutEscrow.
  fold (accept_fund command (worker_of row)).
  assert (funds_ok db2) as Hok2.
  { apply update_submission_accepted_inr in Hu1 as [? ->]. by apply update_task_state_inr in Hu2 as [? ->]. }
  apply wp_bind, payReviewFund_wp; [done|done|refuse accepted_refused|]. intros credit db3 k3 Hpaid.
  apply wp_bind, payOutCollectible_wp; [refuse accepted_refused|]. intros collectible db4 k4 Hcol.
  cbn [locked_rewardKind locked_of]. split_match; [refuse accepted_refused|].
  assert (combinePayouts credit collectible = NoPayout ->
    task_reward_kind task <> "credit" /\ task_reward_kind task <> "bundle") as Hkind.
  { intros Hnone. rewrite Hnone in E. cbn in E. tx_facts. tauto. }
  apply wp_bind, applySpendCharge_wp; [count_refusal accepted_refused|]. intros db5 k5 Hcharge.
  apply wp_bind, payCreditTip_wp; [done|refuse accepted_refused|]. intros tip db6 k6 Htipped.
  apply wp_bind, payCollectibleTip_wp; [refuse accepted_refused|]. intros ctip db7 k7 Hctip.
  assert (worker_of row = raw) as Hwo by (unfold worker_of; by rewrite Hraw).
  unfold parseReviewWorker. destruct (ParseUserID (worker_of row)) as [worker|] eqn:Hworker; [|refuse accepted_refused].
  apply wp_bind, supersedeCompetingSubmissions_wp; [refuse accepted_refused|]. intros superseded db8 k8 Hsup.
  apply wp_bind, ReviewEventDrafts_wp; [refuse accepted_refused|]. intros rest k9 Hkinds.
  apply commit_events_wp; [refuse accepted_refused..|]. intros db' k10 Hr. cbn [st_base].
  eapply accepted_first; eauto; [|by exists rest]. rewrite Hwo in Hworker. by repeat split; eauto.
Qed.

Lemma idempotentAccept_wp command raw worker base db n (Q : AcceptResult -> TxState -> Prop) :
  ParseUserID raw = TypedIDCreated worker ->
  (forall reason st, st_base st = base -> Q (AcceptRejected reason) st) ->
  (forall outcome k, (outcome = NoPayout \/ exists e, e ∈ ledger_entries db /\ entry_kind e = "task_payout" /\
       entry_task_id e = Some (TypedID_String (accept_TaskID command)) /\
       entry_idempotency_key e = Some (accept_key command) /\
       outcome = CreditPayout worker (MkCreditAmount (entry_amount e))) ->
     Q (SubmissionAccepted (accept_TaskID command) (accept_SubmissionID command) worker outcome NoTip
          IdempotentReplay []) (MkTxState base db k)) ->
  wp env (idempotentAccept command raw) Q (MkTxState base db n).
Proof.
  intros Hw Hf Hs. unfold idempotentAccept, parseReviewWorker. rewrite Hw. fold (accept_key command).
  repeat wp_prim; [by apply Hf|]. cbn [st_db tick].
  destruct (first_row _) as [[]|amount] eqn:He; [by apply Hs; left|by apply Hf..|].
  apply first_row_inr, list_elem_of_fmap in He as (e & -> & He).
  apply list_elem_of_filter in He as ((Ht & Hk & Hkey) & Hin).
  unfold NewCreditAmount. split_match; apply Hs; [by left|right]. by exists e.
Qed.

Lemma AcceptSubmission_spec db command :
  funds_ok db -> valid_tip (accept_TipSelection command) ->
  accepted command db (fst (run env db (AcceptSubmission command))) (snd (run env db (AcceptSubmission command))).
Proof.
  intros Hok Htip. apply run_spec. unfold AcceptSubmission. fold (accept_key command).
  do 2 wp_prim; cbn -[settle_accept idempotentAccept]; [refuse accepted_refused|].
  apply wp_bind, lockTaskForReview_wp; [refuse accepted_refused|]. intros task k Htask Hmay.
  apply wp_bind, select_submission_wp; [intros [] ? ?; refuse accepted_refused|].
  intros row raw k' Hrow Hst Hraw.
  assert (worker_of row = raw) as Hwo by (unfold worker_of; by rewrite Hraw).
  assert (forall worker, ParseUserID raw = TypedIDCreated worker ->
    reviewed (accept_SubmissionID command) (accept_TaskID command) row worker db) as Hrev by (repeat split; eauto).
  cbn [locked_state locked_of]. split_match; [split_match; [refuse accepted_refused|]|].
  { tx_facts. destruct (ParseUserID (worker_of row)) as [worker|] eqn:Hw.
    - apply (idempotentAccept_wp _ _ _ _ _ _ _ Hw); [refuse accepted_refused|].
      intros outcome k1 Ho. cbn. eapply accepted_replay; eauto.
    - unfold idempotentAccept, parseReviewWorker. rewrite Hw. refuse accepted_refused. }
  split_match; [refuse accepted_refused|]. split_match; [refuse accepted_refused|]. tx_facts.
  do 2 wp_prim; [refuse accepted_refused|]. cbn [st_db tick]. split_match; [split_match; refuse accepted_refused|].
  do 2 wp_prim; [refuse accepted_refused|]. cbn [st_db tick]. split_match; [refuse accepted_refused|].
  by eapply settle_accept_wp; eauto.
Qed.
End Operations.
