(* ===== verification/Refinement.v ===== *)
(** * The store's operations as movements of the abstract ledger

    The commands, their results, and for each operation the list of movements of
    the abstract ledger its execution stands for.  [LedgerCorrect] puts them
    together into the refinement theorem. *)

From S2P Require Import Prelude.
From S2P Require Import Core.
From S2P Require Import OrgRoles.
From S2P Require Import Assets.
From S2P Require Import Events.
From S2P Require Import LedgerValues.
From S2P Require Import Database.
From S2P Require Import Tx.
From S2P Require Import LedgerSpec.
From S2P Require Import Outbox.
From S2P Require Import LedgerHelpers.
From S2P Require Import LedgerStore.
From S2P Require Import HelperSpecs.
From S2P Require Import ReviewSpecs.
From S2P Require Import StoreSpecs.
Local Open Scope string_scope.
Local Open Scope Z_scope.

(** ** Commands *)

Inductive Command :=
| CFund (command : FundStoreCommand)
| COrganizationFund (command : OrganizationFundStoreCommand)
| CAccept (command : AcceptStoreCommand)
| CRequestChanges (command : RequestChangesStoreCommand)
| CReject (command : RejectStoreCommand)
| CRefund (command : RefundStoreCommand)
| CGrant (command : GrantStoreCommand)
| CSend (command : PeerTransferStoreCommand).

Inductive Result :=
| RFund (result : FundResult)
| RAccept (result : AcceptResult)
| RRequestChanges (result : RequestChangesResult)
| RReject (result : RejectResult)
| RRefund (result : RefundResult)
| RGrant (result : GrantResult)
| RSend (result : SendResult).

(** [Some e] for an execution, [None] for a rejection. *)
Definition execution_of (result : Result) : option (Execution * list Draft) :=
  match result with
  | RFund (TaskFunded _ e ds) => Some (e, ds)
  | RAccept (SubmissionAccepted _ _ _ _ _ e ds) => Some (e, ds)
  | RRequestChanges (ChangesRequested _ _ _ _ e ds) => Some (e, ds)
  | RReject (SubmissionRejected _ _ _ _ _ e ds) => Some (e, ds)
  | RRefund (TaskRefunded _ e ds) => Some (e, ds)
  | RGrant (CreditsGranted _ _ _ e ds) => Some (e, ds)
  | RSend (CreditsSent _ _ _ e ds) => Some (e, ds)
  | _ => None
  end.

(** The amounts of a command went through [NewCreditAmount]. *)
Definition valid_command (c : Command) : Prop :=
  match c with
  | CFund command => valid_amount (fund_Amount command)
  | COrganizationFund command => valid_amount (orgfund_Amount command)
  | CAccept command => valid_tip (accept_TipSelection command)
  | CReject command => valid_tip (reject_TipSelection command)
  | CGrant command => valid_amount (grant_Amount command)
  | CSend command => valid_amount (send_Amount command)
  | CRequestChanges _ | CRefund _ => True
  end.

Section Correct.
Context `{UUIDLib}.

Definition perform (c : Command) : M Result :=
  match c with
  | CFund command => r ← FundTask command; mret (RFund r)
  | COrganizationFund command => r ← FundTaskFromOrganization command; mret (RFund r)
  | CAccept command => r ← AcceptSubmission command; mret (RAccept r)
  | CRequestChanges command => r ← RequestChanges command; mret (RRequestChanges r)
  | CReject command => r ← RejectSubmission command; mret (RReject r)
  | CRefund command => r ← RefundTask command; mret (RRefund r)
  | CGrant command => r ← GrantCredits command; mret (RGrant r)
  | CSend command => r ← PeerTransfer command; mret (RSend r)
  end.

(** The specification of each operation, in one relation. *)
Inductive performed (c : Command) (db : DB) : Result -> DB -> Prop :=
| performed_fund command r db' : c = CFund command ->
    funded (user_request command) db r db' -> performed c db (RFund r) db'
| performed_organization_fund command r db' : c = COrganizationFund command ->
    funded (organization_request command) db r db' -> performed c db (RFund r) db'
| performed_accept command r db' : c = CAccept command -> accepted command db r db' -> performed c db (RAccept r) db'
| performed_changes command r db' : c = CRequestChanges command ->
    changes_requested command db r db' -> performed c db (RRequestChanges r) db'
| performed_reject command r db' : c = CReject command -> rejected command db r db' -> performed c db (RReject r) db'
| performed_refund command r db' : c = CRefund command -> refunded command db r db' -> performed c db (RRefund r) db'
| performed_grant command r db' : c = CGrant command -> granted command db r db' -> performed c db (RGrant r) db'
| performed_send command r db' : c = CSend command -> sent command db r db' -> performed c db (RSend r) db'.

Lemma run_bind_ret {A B} env db (m : M A) (f : A -> B) :
  run env db (a ← m; mret (f a)) = (f (fst (run env db m)), snd (run env db m)).
Proof. unfold run, mbind, M_bind, mret, M_ret. by destruct (m env _). Qed.

Lemma perform_spec env db c :
  funds_ok db -> valid_command c -> performed c db (fst (run env db (perform c))) (snd (run env db (perform c))).
Proof.
  intros Hok Hv. destruct c; cbn [perform valid_command] in *; rewrite run_bind_ret; cbn [fst snd].
  - by eapply performed_fund, FundTask_spec.
  - by eapply performed_organization_fund, FundTaskFromOrganization_spec.
  - by eapply performed_accept, AcceptSubmission_spec.
  - by eapply performed_changes, RequestChanges_spec.
  - by eapply performed_reject, RejectSubmission_spec.
  - by eapply performed_refund, RefundTask_spec.
  - by eapply performed_grant, GrantCredits_spec.
  - by eapply performed_send, PeerTransfer_spec.
Qed.

(** ** What each step of an operation moves *)

Lemma recorded_view db ds db' : recorded db ds db' -> view db' = view db.
Proof. intros (e & r & ->)%recorded_with_events. done. Qed.

Lemma charged_view charge db db' : charged charge db db' -> view db' = view db.
Proof. intros [c ->]%charged_frame. done. Qed.

Lemma charged_counter_frame key amount limit db db' :
  charged_counter key amount limit db db' -> exists c, db' = with_counters c db.
Proof. intros (day & used & Hb & _). apply bump_counter_inr in Hb as [_ ->]. by eexists. Qed.

Lemma refused_view db db' : refused db db' -> view db' = view db.
Proof. intros [->|(day & used & Hb)]; [done|]. by apply bump_counter_inr in Hb as [_ ->]. Qed.

Lemma insert_entry_view row db db' :
  insert_ledger_entry row db = inr db' ->
  view db' = MkLedger (posting_of row :: postings (view db)) (allocations (view db)).
Proof. intros [-> _]%insert_ledger_entry_inr. done. Qed.

(** The movements of a payout: the worker is paid, and closing the task refunds
    what is left to the funder. *)
Definition payout_movements (command : reviewFundCommand) (outcome : PayoutOutcome) (ms : list Movement) (db : DB) : Prop :=
  match outcome with
  | CreditPayout _ amount => exists account fund,
      user_account (rf_rawWorkerID command) account db /\
      task_funds db !! TypedID_String (rf_taskID command) = Some fund /\
      CreditAmount_Int64 amount = payout_amount (rf_selection command) (fund_credit_amount fund) /\
      ms = Payout account (TypedID_String (rf_taskID command)) (CreditAmount_Int64 amount) ::
        (if rf_closeTask command && (CreditAmount_Int64 amount <? fund_credit_amount fund)
         then [Refund (TypedID_String (rf_taskID command))] else [])
  | _ => ms = []
  end.

Lemma paid_movements command db outcome db' :
  paid command db outcome db' ->
  exists ms, payout_movements command outcome ms db /\ apply_movements ms (view db) = Some (view db').
Proof.
  intros [|fund account worker amount now db1 db2 Hfund Hsel Hw Hacc -> Hrange Hins Hset]; [by exists []|].
  set (p := payout_amount _ _) in *. eexists. split.
  { exists account, fund. cbn. repeat split; try done. }
  cbn [CreditAmount_Int64 apply_movements apply_movement].
  cbn [allocations view]. rewrite Hfund.
  destruct (Z.ltb_spec 0 p); [|lia]. destruct (Z.leb_spec 0 (fund_credit_amount fund - p)); [|lia]. cbn [andb].
  apply insert_entry_view in Hins as Hv. apply insert_ledger_entry_inr in Hins as [-> _].
  destruct Hset as [now' db3 Hclose Hpos Hins3|Hzero|Hclose Hpos].
  - rewrite Hclose. destruct (Z.ltb_spec p (fund_credit_amount fund)); [|lia].
    destruct (Z.eqb_spec (fund_credit_amount fund - p) 0); [lia|]. cbn [andb apply_movements apply_movement].
    cbn [allocations set_allocation]. rewrite lookup_partial_alter_eq.
    apply insert_ledger_entry_inr in Hins3 as [-> _]. unfold drop_fund, set_allocation, post, view; cbn.
    do 2 f_equal. apply map_eq. intros i. destruct (decide (i = TypedID_String (rf_taskID command))) as [->|].
    + by rewrite lookup_partial_alter_eq, lookup_delete_eq.
    + by rewrite !lookup_partial_alter_ne, lookup_delete_ne.
  - destruct (Z.ltb_spec p (fund_credit_amount fund)); [lia|]. rewrite andb_false_r, Hzero. done.
  - rewrite Hclose. destruct (Z.eqb_spec (fund_credit_amount fund - p) 0); [lia|]. done.
Qed.

Definition tip_movements (t : TaskID) (rawWorker : string) (reviewer : Reviewer) (outcome : TipOutcome)
    (ms : list Movement) (db : DB) : Prop :=
  match outcome with
  | CreditTip _ amount => exists requester from to,
      reviewer = UserReviewer requester /\ user_account (TypedID_String requester) from db /\
      user_account rawWorker to db /\
      ms = [Transfer EntryKindTaskTip from to (Some (TypedID_String t)) (CreditAmount_Int64 amount)]
  | _ => ms = []
  end.

Lemma transfer_movement kind from to task amount l :
  0 < amount -> amount <= spendable from l -> kind = EntryKindTaskTip \/ kind = EntryKindPeerTransfer ->
  apply_movement (Transfer kind from to task amount) l =
    Some (post to kind amount task (post from kind (- amount) task l)).
Proof.
  intros Hp Hs Hk. cbn. destruct (Z.ltb_spec 0 amount); [|lia]. destruct (Z.leb_spec amount (spendable from l)); [|lia].
  cbn. by rewrite bool_decide_eq_true_2.
Qed.

Lemma tipped_movements t reviewer raw debitID creditID key selection db outcome db' :
  valid_tip selection -> tipped t reviewer raw debitID creditID key selection db outcome db' ->
  exists ms, tip_movements t raw reviewer outcome ms db /\ apply_movements ms (view db) = Some (view db').
Proof.
  intros Hv [|requester worker from to amount now db1 db2 -> -> Hfrom Hbal Hw Hto Hi1 Hi2]; [by exists []|].
  eexists. split; [by exists requester, from, to|]. cbn [apply_movements]. cbn in Hv. destruct Hv as [Hpos _].
  rewrite transfer_movement; [|done|by rewrite spendable_account_sum|by left].
  rewrite (insert_entry_view _ _ _ Hi2), (insert_entry_view _ _ _ Hi1). done.
Qed.

(** Steps of a review that leave the ledger alone. *)
Lemma collectibles_paid_view t raw db outcome db' : collectibles_paid t raw db outcome db' -> view db' = view db.
Proof. by intros []. Qed.

Lemma collectible_tipped_view reviewer raw selection db outcome db' :
  collectible_tipped reviewer raw selection db outcome db' -> view db' = view db.
Proof. by intros []. Qed.

Lemma update_reservations_inr m state db db' :
  update_reservations m state db = inr db' -> exists rs, db' = with_reservations rs db.
Proof. unfold update_reservations. destruct (_ && _); intros [=]; subst; by eexists. Qed.

Lemma insert_ban_view t u b db db' : insert_ban t u b db = inr db' -> view db' = view db.
Proof. unfold insert_ban. repeat split_match; intros [=]; by subst. Qed.

Lemma update_rejected_view s note r key db db' :
  update_submission_rejected s note r key db = inr db' -> view db' = view db.
Proof. unfold update_submission_rejected. repeat split_match; intros [=]; by subst. Qed.

Lemma update_changes_view s note r key db db' :
  update_submission_changes_requested s note r key db = inr db' -> view db' = view db.
Proof. unfold update_submission_changes_requested. repeat split_match; intros [=]; by subst. Qed.

Lemma banned_view command raw db db' : banned command raw db db' -> view db' = view db.
Proof.
  unfold banned. destruct (reject_BanSelection command); [by intros ->|].
  intros (u & _ & Hb). by apply insert_ban_view in Hb.
Qed.

(** ** The movements of each operation *)

Lemma funded_movements q db value ds db' :
  valid_amount (fr_amount q) -> funded q db (TaskFunded value FirstExecution ds) db' ->
  exists account, fr_account q account db /\
    apply_movements [Fund account (TypedID_String (fr_task q)) (CreditAmount_Int64 (fr_amount q))] (view db) =
      Some (view db').
Proof.
  intros [Hpos _] Hf. inv Hf. exists account. split; [done|].
  match goal with Hr : recorded _ _ db' |- _ => rewrite (recorded_view _ _ _ Hr) end.
  match goal with Hr : insert_ledger_entry _ _ = _ |- _ => rewrite (insert_entry_view _ _ _ Hr) end.
  match goal with Hr : reward_switched _ _ _ _ _ |- _ => apply reward_switched_frame in Hr as [ts ->] end.
  match goal with Hr : charged _ _ _ |- _ => apply charged_frame in Hr as [cs ->] end.
  match goal with Hr : insert_task_fund _ _ _ _ = _ |- _ =>
    apply insert_task_fund_inr in Hr as (-> & _ & _ & Hnone) end.
  cbn [apply_movements apply_movement allocations view task_funds ledger_entries with_counters with_tasks] in *. rewrite Hnone.
  rewrite (proj2 (Z.ltb_lt _ _) Hpos), spendable_account_sum.
  match goal with Hb : _ <= account_sum _ _ |- _ => rewrite (proj2 (Z.leb_le _ _) Hb) end. done.
Qed.

Lemma granted_movements command db id amount us ds db' :
  valid_amount (grant_Amount command) ->
  granted command db (CreditsGranted id amount us FirstExecution ds) db' ->
  exists account, grant_account (grant_Target command) account db /\
    apply_movements [Grant account (CreditAmount_Int64 (grant_Amount command))] (view db) = Some (view db').
Proof.
  intros [Hpos _] Hg. inv Hg. exists account. split; [done|].
  match goal with Hr : recorded _ _ db' |- _ => rewrite (recorded_view _ _ _ Hr) end.
  match goal with Hr : insert_ledger_entry _ _ = _ |- _ => rewrite (insert_entry_view _ _ _ Hr) end.
  cbn [apply_movements apply_movement]. rewrite (proj2 (Z.ltb_lt _ _) Hpos). done.
Qed.

Lemma sent_movements command db id amount us ds db' :
  valid_amount (send_Amount command) ->
  sent command db (CreditsSent id amount us FirstExecution ds) db' ->
  exists source target, owner_account (send_source command) source db /\
    owner_account (send_target command) target db /\
    apply_movements [Transfer EntryKindPeerTransfer source target None (CreditAmount_Int64 (send_Amount command))]
      (view db) = Some (view db').
Proof.
  intros [Hpos _] Hs. inv Hs. exists source, target. split; [done|]. split; [done|].
  match goal with Hr : recorded _ _ db' |- _ => rewrite (recorded_view _ _ _ Hr) end.
  repeat match goal with Hr : insert_ledger_entry _ _ = _ |- _ => rewrite (insert_entry_view _ _ _ Hr); clear Hr end.
  match goal with Hr : charged _ _ _ |- _ => apply charged_view in Hr as -> end.
  match goal with Hr : charged_counter _ _ _ _ _ |- _ => apply charged_counter_frame in Hr as [cs ->] end.
  cbn [apply_movements]. rewrite transfer_movement; [done|done|by rewrite spendable_account_sum|by right].
Qed.

Lemma refunded_movements command db value ds db' :
  refunded command db (TaskRefunded value FirstExecution ds) db' ->
  apply_movements [Refund (TypedID_String (refund_TaskID command))] (view db) = Some (view db').
Proof.
  intros Hr. inv Hr.
  match goal with Hr : recorded _ _ db' |- _ => rewrite (recorded_view _ _ _ Hr) end.
  match goal with Hr : update_reservations _ _ _ = _ |- _ => apply update_reservations_inr in Hr as [rs ->] end.
  match goal with Hr : update_task_state _ _ _ = _ |- _ => apply update_task_state_inr in Hr as [ts ->] end.
  match goal with Hr : insert_ledger_entry _ _ = _ |- _ => apply insert_ledger_entry_inr in Hr as [-> _] end.
  cbn [apply_movements apply_movement allocations view].
  match goal with Hr : task_funds db !! _ = _ |- _ => rewrite Hr end.
  by destruct_or!; destruct_and!; subst.
Qed.

(** A review pays out of the task's fund, then tips out of the reviewer's account. *)
Definition review_movements (command : reviewFundCommand) (reviewer : Reviewer) (payout : PayoutOutcome)
    (tip : TipOutcome) (db : DB) (ms : list Movement) : Prop :=
  exists ms1 ms2, ms = (ms1 ++ ms2)%list /\ payout_movements command payout ms1 db /\
    tip_movements (rf_taskID command) (rf_rawWorkerID command) reviewer tip ms2 db.

(** The accounts a tip is looked up in do not change during the review. *)
Lemma tip_movements_accounts t raw reviewer tip ms db db' :
  credit_accounts db' = credit_accounts db -> tip_movements t raw reviewer tip ms db' ->
  tip_movements t raw reviewer tip ms db.
Proof.
  intros Heq. unfold tip_movements, user_account, accounts_of_user. rewrite Heq. by destruct tip.
Qed.

Lemma insert_entry_accounts row db db' :
  insert_ledger_entry row db = inr db' -> credit_accounts db' = credit_accounts db.
Proof. by intros [-> _]%insert_ledger_entry_inr. Qed.

Lemma paid_accounts command db outcome db' : paid command db outcome db' -> credit_accounts db' = credit_accounts db.
Proof.
  intros [|fund account worker amount now db1 db2 _ _ _ _ _ _ Hins Hset]; [done|].
  apply insert_entry_accounts in Hins as <-. destruct Hset as [? ? _ _ Hins3| |]; [|done|done].
  by apply insert_entry_accounts in Hins3 as <-.
Qed.

Lemma rejected_movements command db t s w payout tip ds db' :
  valid_tip (reject_TipSelection command) ->
  rejected command db (SubmissionRejected t s w payout tip FirstExecution ds) db' ->
  exists row ms, submissions db !! TypedID_String (reject_SubmissionID command) = Some row /\
    review_movements (reject_fund command (worker_of row)) (reject_Reviewer command) payout tip db ms /\
    apply_movements ms (view db) = Some (view db').
Proof.
  intros Hv Hr. inv Hr.
  match goal with Hr : recorded _ _ db' |- _ => rewrite (recorded_view _ _ _ Hr) end.
  match goal with Hr : banned _ _ _ _ |- _ => rewrite (banned_view _ _ _ _ Hr) end.
  match goal with Hr : update_reservations _ _ _ = _ |- _ => apply update_reservations_inr in Hr as [rs ->] end.
  match goal with Hr : update_submission_rejected _ _ _ _ _ = _ |- _ => apply update_rejected_view in Hr end.
  match goal with Hp : paid _ _ _ _ |- _ =>
    pose proof (paid_accounts _ _ _ _ Hp) as Hacc; apply paid_movements in Hp as (ms1 & Hms1 & Hpv) end.
  match goal with Hc : charged _ _ _ |- _ => apply charged_frame in Hc as [cs ->] end.
  match goal with Ht : tipped _ _ _ _ _ _ _ _ _ _ |- _ => apply tipped_movements in Ht as (ms2 & Hms2 & Htv); [|done] end.
  match goal with Hr : reviewed _ _ _ _ _ |- _ => destruct Hr as (Hrow & _) end.
  exists row, (ms1 ++ ms2)%list. split; [done|]. split.
  - exists ms1, ms2. split; [done|]. split; [done|]. by eapply tip_movements_accounts.
  - rewrite apply_movements_app, Hpv. etransitivity; [exact Htv|]. symmetry. f_equal.
    change (view (with_reservations rs db4)) with (view db4). congruence.
Qed.

Lemma supersedes_view t s ds db db' : supersedes t s ds db db' -> view db' = view db.
Proof. by intros [-> _]. Qed.

(** The payout of an accept before the collectible rewards are merged in. *)
Definition credit_part (payout : PayoutOutcome) : PayoutOutcome :=
  match payout with
  | BundlePayout worker amount _ => CreditPayout worker amount
  | CollectiblePayout _ _ => NoPayout
  | _ => payout
  end.

Definition credit_tip_part (tip : TipOutcome) : TipOutcome :=
  match tip with
  | BundleTip worker amount _ => CreditTip worker amount
  | CollectibleTip _ _ => NoTip
  | _ => tip
  end.

Lemma credit_part_combine db command credit db' t raw col db3 db4 :
  paid command db credit db' -> collectibles_paid t raw db3 col db4 ->
  credit_part (combinePayouts credit col) = credit.
Proof. intros [] []; cbn; try done. by case_bool_decide. Qed.

Lemma credit_tip_part_combine t reviewer raw d c k sel db tip db' sel' db2 ctip db3 :
  tipped t reviewer raw d c k sel db tip db' -> collectible_tipped reviewer raw sel' db2 ctip db3 ->
  credit_tip_part (combineTips tip ctip) = tip.
Proof. intros [] []; cbn; try done; by case_bool_decide. Qed.

Lemma collectibles_paid_accounts t raw db outcome db' :
  collectibles_paid t raw db outcome db' -> credit_accounts db' = credit_accounts db.
Proof. by intros []. Qed.

Lemma accepted_movements command db t s w payout tip ds db' :
  valid_tip (accept_TipSelection command) ->
  accepted command db (SubmissionAccepted t s w payout tip FirstExecution ds) db' ->
  exists row ms, submissions db !! TypedID_String (accept_SubmissionID command) = Some row /\
    review_movements (accept_fund command (worker_of row)) (accept_Reviewer command)
      (credit_part payout) (credit_tip_part tip) db ms /\
    apply_movements ms (view db) = Some (view db').
Proof.
  intros Hv Hr. inv Hr.
  match goal with Hr : recorded _ _ db' |- _ => rewrite (recorded_view _ _ _ Hr) end.
  match goal with Hr : supersedes _ _ _ _ _ |- _ => rewrite (supersedes_view _ _ _ _ _ Hr) end.
  match goal with Hp : paid _ _ _ _, Hc : collectibles_paid _ _ _ _ _ |- _ =>
    rewrite (credit_part_combine _ _ _ _ _ _ _ _ _ Hp Hc);
    pose proof (paid_accounts _ _ _ _ Hp) as Hacc; apply paid_movements in Hp as (ms1 & Hms1 & Hpv);
    pose proof (collectibles_paid_accounts _ _ _ _ _ Hc) as Hacc2; apply collectibles_paid_view in Hc as Hcv end.
  match goal with Ht : tipped _ _ _ _ _ _ _ _ _ _, Hc : collectible_tipped _ _ _ _ _ _ |- _ =>
    rewrite (credit_tip_part_combine _ _ _ _ _ _ _ _ _ _ _ _ _ _ Ht Hc);
    rewrite (collectible_tipped_view _ _ _ _ _ _ Hc);
    apply tipped_movements in Ht as (ms2 & Hms2 & Htv); [|done] end.
  match goal with Hc : charged _ _ _ |- _ => apply charged_frame in Hc as [cs ->] end.
  match goal with Hr : update_submission_accepted _ _ _ = _ |- _ => apply update_submission_accepted_inr in Hr as [ss ->] end.
  match goal with Hr : update_task_state _ _ _ = _ |- _ => apply update_task_state_inr in Hr as [ts ->] end.
  match goal with Hr : reviewed _ _ _ _ _ |- _ => destruct Hr as (Hrow & _) end.
  exists row, (ms1 ++ ms2)%list. split; [done|]. split.
  - exists ms1, ms2. split; [done|]. split; [done|]. eapply tip_movements_accounts; [|done]. etransitivity; [exact Hacc2|exact Hacc].
  - rewrite apply_movements_app. change (view db) with (view (with_tasks ts (with_submissions ss db))).
    rewrite Hpv, <- Hcv. exact Htv.
Qed.
End Correct.
