(* ===== verification/LedgerCorrect.v ===== *)
(** * Correctness of the ledger store

    The properties of the store that follow from its specifications, for any
    command under any schedule of database faults, and for any sequence of them:
    conservation, solvency, reconciliation, atomicity, idempotency and the
    event outbox. *)

From S2P Require Import Prelude.
From S2P Require Import Core.
From S2P Require Import OrgRoles.
From S2P Require Import Assets.
From S2P Require Import Events.
From S2P Require Import LedgerValues.
From S2P Require Import Database.
From S2P Require Import Tx.
From S2P Require Import LedgerSpec.
From S2P Require Import Outbox.
From S2P Require Import LedgerHelpers.
From S2P Require Import LedgerStore.
From S2P Require Import HelperSpecs.
From S2P Require Import ReviewSpecs.
From S2P Require Import StoreSpecs.
From S2P Require Import Refinement.
Local Open Scope string_scope.
Local Open Scope Z_scope.

(** The invariant of the database: a balanced ledger whose allocations fit the
    [bigint] column. *)
Record ledger_ok (db : DB) : Prop := {
  ledger_balanced : balanced (view db);
  ledger_funds : funds_ok db
}.

Definition movement_bounded (m : Movement) : Prop :=
  match m with Fund _ _ amount => amount <= int64_max | _ => True end.

Definition allocations_bounded (l : Ledger) : Prop :=
  map_Forall (fun _ f => 0 < fund_credit_amount f <= int64_max) (allocations l).

Lemma apply_movement_bounded m l l' :
  apply_movement m l = Some l' -> movement_bounded m -> allocations_bounded l -> allocations_bounded l'.
Proof.
  intros H Hm Hl t f. unfold allocations_bounded in *.
  destruct m; movement_cases H; try (by apply Hl); destruct (decide (t = task)) as [->|];
    rewrite ?lookup_partial_alter_eq, ?lookup_partial_alter_ne by done; try (by apply Hl); intros [= <-]; cbn.
  - lia.
  - pose proof (Hl _ _ E). cbn in *. lia.
Qed.

Lemma apply_movements_bounded ms l l' :
  apply_movements ms l = Some l' -> Forall movement_bounded ms -> allocations_bounded l -> allocations_bounded l'.
Proof.
  revert l. induction ms as [|m ms IH]; intros l; cbn; [by intros [= <-]|].
  destruct (apply_movement m l) as [l1|] eqn:E; [|done]. intros Ha [Hm Hms]%Forall_cons_1 Hl.
  eapply IH; [done|done|]. by eapply apply_movement_bounded.
Qed.

(** The credits an execution issues: those of a grant executed for the first time. *)
Definition issued_by (c : Command) (r : Result) : Z :=
  match c, r with
  | CGrant command, RGrant (CreditsGranted _ _ _ FirstExecution _) => CreditAmount_Int64 (grant_Amount command)
  | _, _ => 0
  end.

Section Correct.
Context `{UUIDLib}.

Lemma payout_movements_plain command outcome ms db :
  payout_movements command outcome ms db ->
  sum_Z (movement_issue <$> ms) = 0 /\ Forall movement_bounded ms.
Proof.
  destruct outcome; cbn; try (intros ->; by split).
  intros (account & fund & _ & _ & _ & ->). case_match; cbn; split; try done; by repeat constructor.
Qed.

Lemma tip_movements_plain t raw reviewer outcome ms db :
  tip_movements t raw reviewer outcome ms db ->
  sum_Z (movement_issue <$> ms) = 0 /\ Forall movement_bounded ms.
Proof.
  destruct outcome; cbn; try (intros ->; by split).
  intros (? & ? & ? & _ & _ & _ & ->). split; [done|]. by repeat constructor.
Qed.

Lemma review_movements_plain command reviewer payout tip db ms :
  review_movements command reviewer payout tip db ms ->
  sum_Z (movement_issue <$> ms) = 0 /\ Forall movement_bounded ms.
Proof.
  intros (ms1 & ms2 & -> & [Hi1 Hb1]%payout_movements_plain & [Hi2 Hb2]%tip_movements_plain).
  rewrite fmap_app, sum_Z_app, Hi1, Hi2. split; [done|]. by apply Forall_app.
Qed.

(** The movements each command stands for: none unless it executed for the first
    time, and then those of its operation. *)
Definition command_movements (c : Command) (db : DB) (r : Result) (ms : list Movement) : Prop :=
  match execution_of r with
  | Some (FirstExecution, _) =>
      match c, r with
      | CFund command, RFund _ => exists account,
          user_account (TypedID_String (fund_FunderUserID command)) account db /\
          ms = [Fund account (TypedID_String (fund_TaskID command)) (CreditAmount_Int64 (fund_Amount command))]
      | COrganizationFund command, RFund _ => exists account,
          organization_account (TypedID_String (orgfund_OrganizationID command)) account db /\
          ms = [Fund account (TypedID_String (orgfund_TaskID command)) (CreditAmount_Int64 (orgfund_Amount command))]
      | CAccept command, RAccept (SubmissionAccepted _ _ _ payout tip _ _) => exists row,
          submissions db !! TypedID_String (accept_SubmissionID command) = Some row /\
          review_movements (accept_fund command (worker_of row)) (accept_Reviewer command)
            (credit_part payout) (credit_tip_part tip) db ms
      | CRequestChanges _, RRequestChanges _ => ms = []
      | CReject command, RReject (SubmissionRejected _ _ _ payout tip _ _) => exists row,
          submissions db !! TypedID_String (reject_SubmissionID command) = Some row /\
          review_movements (reject_fund command (worker_of row)) (reject_Reviewer command) payout tip db ms
      | CRefund command, RRefund _ => ms = [Refund (TypedID_String (refund_TaskID command))]
      | CGrant command, RGrant _ => exists account,
          grant_account (grant_Target command) account db /\
          ms = [Grant account (CreditAmount_Int64 (grant_Amount command))]
      | CSend command, RSend _ => exists source target,
          owner_account (send_source command) source db /\ owner_account (send_target command) target db /\
          ms = [Transfer EntryKindPeerTransfer source target None (CreditAmount_Int64 (send_Amount command))]
      | _, _ => False
      end
  | _ => ms = []
  end.

Lemma command_movements_plain c db r ms :
  valid_command c -> command_movements c db r ms ->
  sum_Z (movement_issue <$> ms) = issued_by c r /\ Forall movement_bounded ms.
Proof.
  intros Hv. unfold command_movements. destruct c, r as [[? [] ?|]|[? ? ? ? ? [] ?|]|[? ? ? ? [] ?|]|[? ? ? ? ? [] ?|]|[? [] ?|]|[? ? ? [] ?|]|[? ? ? [] ?|]];
    cbn in *; try done; try (intros ->; by split).
  - intros (account & _ & ->). split; [done|]. repeat constructor. apply Hv.
  - intros (account & _ & ->). split; [done|]. repeat constructor. apply Hv.
  - intros (row & _ & Hr). by eapply review_movements_plain.
  - intros (row & _ & Hr). by eapply review_movements_plain.
  - intros ->. split; [done|]. by repeat constructor.
  - intros (account & _ & ->). split; [cbn; lia|]. by repeat constructor.
  - intros (source & target & _ & _ & ->). split; [done|]. by repeat constructor.
Qed.

(** Whatever happens, an operation is the list of its movements. *)
Lemma performed_refines c db r db' :
  valid_command c -> performed c db r db' ->
  exists ms, command_movements c db r ms /\ apply_movements ms (view db) = Some (view db').
Proof.
  intros Hv Hp. unfold command_movements.
  assert (view db' = view db -> exists ms : list Movement, ms = [] /\ apply_movements ms (view db) = Some (view db')) as Hnone.
  { intros Heq. exists []. by rewrite Heq. }
  destruct Hp as [command r db' -> Hf|command r db' -> Hf|command r db' -> Hf|command r db' -> Hf
                 |command r db' -> Hf|command r db' -> Hf|command r db' -> Hf|command r db' -> Hf];
    cbn [valid_command] in *.
  - destruct r as [value [] ds|]; cbn; [|by apply Hnone; inv Hf|by apply Hnone; inv Hf; apply refused_view].
    apply funded_movements in Hf as (account & Ha & Hm); [|done]. eexists. split; [|exact Hm]. by exists account.
  - destruct r as [value [] ds|]; cbn; [|by apply Hnone; inv Hf|by apply Hnone; inv Hf; apply refused_view].
    apply funded_movements in Hf as (account & Ha & Hm); [|done]. eexists. split; [|exact Hm]. by exists account.
  - destruct r as [t s w payout tip [] ds|]; cbn; [|by apply Hnone; inv Hf|by apply Hnone; inv Hf; apply refused_view].
    apply accepted_movements in Hf as (row & ms & Hrow & Hr & Hm); [|done]. exists ms. split; [|done]. by exists row.
  - destruct r as [t s w note [] ds|]; cbn; apply Hnone; inv Hf; try done.
    match goal with Hr : recorded _ _ db' |- _ => rewrite (recorded_view _ _ _ Hr) end.
    match goal with Hr : update_reservations _ _ _ = _ |- _ => apply update_reservations_inr in Hr as [rs ->] end.
    match goal with Hr : update_submission_changes_requested _ _ _ _ _ = _ |- _ => by apply update_changes_view in Hr end.
  - destruct r as [t s w payout tip [] ds|]; cbn; [|by apply Hnone; inv Hf|by apply Hnone; inv Hf; apply refused_view].
    apply rejected_movements in Hf as (row & ms & Hrow & Hr & Hm); [|done]. exists ms. split; [|done]. by exists row.
  - destruct r as [value [] ds|]; cbn; [|by apply Hnone; inv Hf|by apply Hnone; inv Hf].
    apply refunded_movements in Hf as Hm. eexists. by split; [|exact Hm].
  - destruct r as [id a us [] ds|]; cbn; [|by apply Hnone; inv Hf|by apply Hnone; inv Hf; apply refused_view].
    apply granted_movements in Hf as (account & Ha & Hm); [|done]. eexists. split; [|exact Hm]. by exists account.
  - destruct r as [id a us [] ds|]; cbn; [|by apply Hnone; inv Hf|by apply Hnone; inv Hf; apply refused_view].
    apply sent_movements in Hf as (source & target & Hs & Ht & Hm); [|done]. eexists. split; [|exact Hm]. by exists source, target.
Qed.

(** C1: Refinement. Whatever a store operation meets (any command, any state, any schedule of
    database faults), what it does to the tables is exactly what the abstract ledger does for the
    movements its result stands for: none for a refusal or a replay, and for a first execution the
    funding, payout, refund, transfer or grant of that operation, from and to the accounts the
    command names. *)
Theorem store_refines_ledger env db c :
  ledger_ok db -> valid_command c ->
  exists ms, command_movements c db (fst (run env db (perform c))) ms /\
    apply_movements ms (view db) = Some (view (snd (run env db (perform c)))).
Proof. intros Hok Hv. apply performed_refines; [done|]. by apply perform_spec; [apply ledger_funds|]. Qed.

Lemma performed_movements c db r db' :
  valid_command c -> performed c db r db' ->
  exists ms, apply_movements ms (view db) = Some (view db') /\
    sum_Z (movement_issue <$> ms) = issued_by c r /\ Forall movement_bounded ms.
Proof.
  intros Hv Hp. apply performed_refines in Hp as (ms & Hc & Hm); [|done]. exists ms. split; [done|].
  by eapply command_movements_plain.
Qed.

Lemma performed_ledger_ok c db r db' :
  valid_command c -> performed c db r db' -> ledger_ok db -> ledger_ok db'.
Proof.
  intros Hv Hp [Hb Hf]. apply performed_movements in Hp as (ms & Hm & _ & Hbound); [|done].
  split; [by eapply apply_movements_balanced|]. by apply (apply_movements_bounded _ _ _ Hm Hbound).
Qed.

(** ** Runs of the store *)

Fixpoint execute (schedule : list (Env * Command)) (db : DB) : list Result * DB :=
  match schedule with
  | [] => ([], db)
  | (env, c) :: schedule =>
      let '(r, db1) := run env db (perform c) in
      let '(rs, db2) := execute schedule db1 in (r :: rs, db2)
  end.

Definition total_issued (schedule : list (Env * Command)) (results : list Result) : Z :=
  sum_Z (zip_with (fun ec r => issued_by ec.2 r) schedule results).

Lemma execute_ledger_ok schedule db :
  Forall (fun ec => valid_command ec.2) schedule -> ledger_ok db -> ledger_ok (snd (execute schedule db)).
Proof.
  revert db. induction schedule as [|[env c] schedule IH]; intros db Hv Hok; cbn; [done|].
  apply Forall_cons_1 in Hv as [Hc Hv]. pose proof (perform_spec env db c (ledger_funds _ Hok) Hc) as Hp.
  destruct (run env db (perform c)) as [r db1]. cbn in *.
  specialize (IH db1 Hv (performed_ledger_ok _ _ _ _ Hc Hp Hok)). by destruct (execute schedule db1).
Qed.

(** C2: Conservation. Over any run of commands, with database faults anywhere, the credits in
    circulation (posted to accounts plus allocated to tasks) change by exactly the amounts of the
    grants that executed for the first time. *)
Theorem supply_conserved schedule db :
  Forall (fun ec => valid_command ec.2) schedule -> ledger_ok db ->
  supply (view (snd (execute schedule db))) =
  supply (view db) + total_issued schedule (fst (execute schedule db)).
Proof.
  revert db. induction schedule as [|[env c] schedule IH]; intros db Hv Hok; cbn; [unfold total_issued; cbn; lia|].
  apply Forall_cons_1 in Hv as [Hc Hv]. pose proof (perform_spec env db c (ledger_funds _ Hok) Hc) as Hp.
  destruct (run env db (perform c)) as [r db1]. cbn in *.
  specialize (IH db1 Hv (performed_ledger_ok _ _ _ _ Hc Hp Hok)).
  apply performed_movements in Hp as (ms & [Hs _]%apply_movements_supply & Hi & _); [|done].
  destruct (execute schedule db1) as [rs db2]. cbn in *. unfold total_issued in *. cbn.
  change (foldr Z.add 0) with sum_Z. lia.
Qed.

(** C3: Solvency. After any run of commands no account's entries sum below zero. *)
Theorem accounts_never_overdrawn schedule db account :
  Forall (fun ec => valid_command ec.2) schedule -> ledger_ok db ->
  0 <= account_sum account (ledger_entries (snd (execute schedule db))).
Proof.
  intros Hv Hok. destruct (execute_ledger_ok _ _ Hv Hok) as [Hb _].
  rewrite <- spendable_account_sum. apply (balanced_spendable _ Hb).
Qed.

(** C4: Reconciliation. After any run of commands the credits a task holds in escrow are the
    negation of the entries posted on it: every credit taken for a task was paid out, refunded or is
    still allocated. *)
Theorem tasks_reconciled schedule db task :
  Forall (fun ec => valid_command ec.2) schedule -> ledger_ok db ->
  let l := view (snd (execute schedule db)) in allocated task l = - task_total task l.
Proof.
  intros Hv Hok. destruct (execute_ledger_ok _ _ Hv Hok) as [Hb _].
  cbn. pose proof (balanced_task _ Hb task). lia.
Qed.

(** ** Atomicity, replays and the outbox *)

Definition event_digest (e : EventRow) : string * string * string := (ev_id e, ev_kind e, ev_dispatch_state e).
Definition draft_digest (d : Draft) : string * string * string :=
  (TypedID_String (Draft_ID d), Kind_String (Draft_Kind d), "recorded").
Definition draft_users (d : Draft) : list string := TypedID_String <$> Users (Draft_Recipients d).

Lemma recorded_recipients db ds db' :
  recorded db ds db' ->
  (domain_event_recipients db').*2 = (rev (concat (draft_users <$> ds)) ++ (domain_event_recipients db).*2)%list.
Proof.
  induction 1 as [|db d ds seq now db' _ _ IH]; [done|]. rewrite IH. cbn.
  rewrite fmap_app, rev_app_distr, <- app_assoc. f_equal. f_equal.
  rewrite fmap_rev. f_equal. unfold draft_users. by rewrite <- list_fmap_compose.
Qed.

(** The events of [db'] are those of [db] and one recorded event per draft. *)
Definition outbox_holds (ds : list Draft) (db db' : DB) : Prop :=
  event_digest <$> domain_events db' = (rev (draft_digest <$> ds) ++ (event_digest <$> domain_events db))%list /\
  (domain_event_recipients db').*2 = (rev (concat (draft_users <$> ds)) ++ (domain_event_recipients db).*2)%list.

Lemma recorded_outbox db0 db ds db' :
  recorded db ds db' -> domain_events db = domain_events db0 ->
  domain_event_recipients db = domain_event_recipients db0 -> outbox_holds ds db0 db'.
Proof.
  intros Hr He Hu. split.
  - etransitivity; [exact (recorded_events _ _ _ Hr)|]. by rewrite He.
  - rewrite (recorded_recipients _ _ _ Hr). by rewrite Hu.
Qed.

(** Every write of the store but the outbox's own leaves the outbox alone. *)
Definition same_outbox (db db' : DB) : Prop :=
  domain_events db' = domain_events db /\ domain_event_recipients db' = domain_event_recipients db /\
  users db' = users db.

Lemma same_outbox_trans db1 db2 db3 : same_outbox db1 db2 -> same_outbox db2 db3 -> same_outbox db1 db3.
Proof. unfold same_outbox. intros (-> & -> & ->) (-> & -> & ->). done. Qed.

Lemma insert_entry_outbox row db db' : insert_ledger_entry row db = inr db' -> same_outbox db db'.
Proof. by intros [-> _]%insert_ledger_entry_inr. Qed.
Lemma insert_fund_outbox t a z db db' : insert_task_fund t a z db = inr db' -> same_outbox db db'.
Proof. by intros [-> _]%insert_task_fund_inr. Qed.
Lemma charged_outbox c db db' : charged c db db' -> same_outbox db db'.
Proof. by intros [? ->]%charged_frame. Qed.
Lemma charged_counter_outbox k a l db db' : charged_counter k a l db db' -> same_outbox db db'.
Proof. by intros [? ->]%charged_counter_frame. Qed.
Lemma reward_outbox t row a db db' : reward_switched t row a db db' -> same_outbox db db'.
Proof. by intros [? ->]%reward_switched_frame. Qed.
Lemma reservations_outbox m s db db' : update_reservations m s db = inr db' -> same_outbox db db'.
Proof. by intros [? ->]%update_reservations_inr. Qed.
Lemma task_state_outbox t s db db' : update_task_state t s db = inr db' -> same_outbox db db'.
Proof. by intros [? ->]%update_task_state_inr. Qed.
Lemma accepted_outbox s k db db' : update_submission_accepted s k db = inr db' -> same_outbox db db'.
Proof. by intros [? ->]%update_submission_accepted_inr. Qed.
Lemma changes_outbox s n r k db db' : update_submission_changes_requested s n r k db = inr db' -> same_outbox db db'.
Proof. unfold update_submission_changes_requested. repeat split_match; intros [=]; by subst. Qed.
Lemma reject_outbox s n r k db db' : update_submission_rejected s n r k db = inr db' -> same_outbox db db'.
Proof. unfold update_submission_rejected. repeat split_match; intros [=]; by subst. Qed.
Lemma banned_outbox command raw db db' : banned command raw db db' -> same_outbox db db'.
Proof.
  unfold banned. destruct (reject_BanSelection command); [by intros ->|].
  intros (u & _ & Hb). revert Hb. unfold insert_ban. repeat split_match; intros [=]; by subst.
Qed.
Lemma paid_outbox command db outcome db' : paid command db outcome db' -> same_outbox db db'.
Proof.
  intros [|fund account worker amount now db1 db2 _ _ _ _ _ _ Hins Hset]; [done|].
  apply insert_entry_outbox in Hins. eapply same_outbox_trans; [done|].
  destruct Hset as [? ? _ _ Hins3| |]; [|done|done]. by apply insert_entry_outbox in Hins3.
Qed.
Lemma tipped_outbox t r raw d c k sel db tip db' : tipped t r raw d c k sel db tip db' -> same_outbox db db'.
Proof.
  intros [|? ? ? ? ? ? db1 db2 _ _ _ _ _ _ H1 H2]; [done|].
  eapply same_outbox_trans; by eapply insert_entry_outbox.
Qed.
Lemma collectibles_outbox t raw db o db' : collectibles_paid t raw db o db' -> same_outbox db db'.
Proof. by intros []. Qed.
Lemma collectible_tip_outbox r raw sel db o db' : collectible_tipped r raw sel db o db' -> same_outbox db db'.
Proof. by intros []. Qed.
Lemma supersedes_outbox t s ds db db' : supersedes t s ds db db' -> same_outbox db db'.
Proof. by intros [-> _]. Qed.

Lemma released_outbox t f (P Q : Prop) db db' :
  P /\ db' = drop_fund t db \/ Q /\ db' = release_held f t (drop_fund t db) -> same_outbox db db'.
Proof. by intros [[_ ->]|[_ ->]]. Qed.

Create HintDb outbox.
#[local] Hint Resolve insert_entry_outbox insert_fund_outbox charged_outbox charged_counter_outbox reward_outbox
  reservations_outbox task_state_outbox accepted_outbox changes_outbox reject_outbox banned_outbox paid_outbox
  released_outbox tipped_outbox collectibles_outbox collectible_tip_outbox supersedes_outbox : outbox.

(** Chain the outbox frames of the writes that led to a state. *)
Ltac outbox_chain :=
  lazymatch goal with
  | |- same_outbox ?db ?db => done
  | |- same_outbox ?db0 ?db => eapply same_outbox_trans; [|solve [eauto 2 with outbox]]; outbox_chain
  end.

Lemma recorded_chain db0 db ds db' : recorded db ds db' -> same_outbox db0 db -> outbox_holds ds db0 db'.
Proof. intros Hr (He & Hu & _). by eapply recorded_outbox. Qed.

Lemma performed_outbox c db r db' ds :
  performed c db r db' -> execution_of r = Some (FirstExecution, ds) -> outbox_holds ds db db'.
Proof.
  intros Hp He. destruct Hp as [? [] ? ? Hf|? [] ? ? Hf|? [] ? ? Hf|? [] ? ? Hf|? [] ? ? Hf|? [] ? ? Hf|? [] ? ? Hf|? [] ? ? Hf];
    cbn in He; simplify_eq; inv Hf; eapply recorded_chain; try eassumption; try outbox_chain.
Qed.

(** The drafts a result hands to the dispatcher. *)
Definition drafts_of (r : Result) : list Draft :=
  match execution_of r with Some (_, ds) => ds | None => [] end.

Lemma refused_outbox db db' : refused db db' -> same_outbox db db'.
Proof.
  intros [->|(day & used & Hb)]; [done|]. revert Hb. unfold bump_counter. case_match; [|done]. by intros [= _ <-].
Qed.

(** Whatever a command does, what it leaves in the outbox is its drafts. *)
Lemma performed_recorded c db r db' :
  performed c db r db' -> exists db0, same_outbox db db0 /\ recorded db0 (drafts_of r) db'.
Proof.
  intros Hp. destruct Hp as [? [] ? ? Hf|? [] ? ? Hf|? [] ? ? Hf|? [] ? ? Hf|? [] ? ? Hf|? [] ? ? Hf|? [] ? ? Hf|? [] ? ? Hf];
    inv Hf; cbn; try (eexists; split; [by apply refused_outbox|constructor]);
    try (eexists; split; [|constructor]; done);
    eexists; (split; [|eassumption]); outbox_chain.
Qed.

(** C5: Atomicity. A command that does not execute (a guard, a constraint, a failed statement or a
    failed commit) leaves the database as it was, but for the counter of refused work budgets. *)
Theorem rejection_changes_nothing env db c :
  ledger_ok db -> valid_command c ->
  execution_of (fst (run env db (perform c))) = None -> refused db (snd (run env db (perform c))).
Proof.
  intros Hok Hv He. pose proof (perform_spec env db c (ledger_funds _ Hok) Hv) as Hp.
  destruct (run env db (perform c)) as [r db']. cbn in *.
  destruct Hp as [? [] ? ? Hf|? [] ? ? Hf|? [] ? ? Hf|? [] ? ? Hf|? [] ? ? Hf|? [] ? ? Hf|? [] ? ? Hf|? [] ? ? Hf];
    cbn in He; simplify_eq; inv Hf; first [done|apply refused_refl].
Qed.

Lemma performed_replay_silent c db r db' ds :
  performed c db r db' -> execution_of r = Some (IdempotentReplay, ds) -> db' = db /\ ds = [].
Proof.
  intros Hp He. destruct Hp as [? [] ? ? Hf|? [] ? ? Hf|? [] ? ? Hf|? [] ? ? Hf|? [] ? ? Hf|? [] ? ? Hf|? [] ? ? Hf|? [] ? ? Hf];
    cbn in He; simplify_eq; by inv Hf.
Qed.

(** A command answered as a replay changes no table and hands no event to the dispatcher. *)
Theorem replay_changes_nothing env db c ds :
  ledger_ok db -> valid_command c ->
  execution_of (fst (run env db (perform c))) = Some (IdempotentReplay, ds) ->
  snd (run env db (perform c)) = db /\ ds = [].
Proof.
  intros Hok Hv. apply performed_replay_silent with (c := c). by apply perform_spec; [apply ledger_funds|].
Qed.

(** C6: Transactional outbox. A first execution commits, together with its effect, one recorded
    event per draft it returns and one recipient row per user of the draft, appended in order and
    undispatched; and it returns at least one draft. *)
Theorem execution_records_its_events env db c ds :
  ledger_ok db -> valid_command c ->
  execution_of (fst (run env db (perform c))) = Some (FirstExecution, ds) ->
  outbox_holds ds db (snd (run env db (perform c))) /\ ds <> [].
Proof.
  intros Hok Hv He. pose proof (perform_spec env db c (ledger_funds _ Hok) Hv) as Hp.
  split; [by eapply performed_outbox|].
  destruct (run env db (perform c)) as [r db']. cbn in *.
  destruct Hp as [? [] ? ? Hf|? [] ? ? Hf|? [] ? ? Hf|? [] ? ? Hf|? [] ? ? Hf|? [] ? ? Hf|? [] ? ? Hf|? [] ? ? Hf];
    cbn in He; simplify_eq; inv Hf; try done;
    match goal with Hd : review_drafts _ _ _ _ _ |- _ => destruct Hd as (rest & -> & _) end; done.
Qed.
End Correct.
