(* ===== verification/LedgerReplay.v ===== *)
(** * Idempotency of the ledger's commands

    A command retried with its idempotency key, at any later time and whatever
    other commands ran in between, returns the outcome of its first execution and
    changes nothing.  [keeps] is what any run of the store preserves, and the
    [_ok] lemmas execute the helpers in an environment without faults. *)

From S2P Require Import Prelude.
From S2P Require Import Core.
From S2P Require Import OrgRoles.
From S2P Require Import Assets.
From S2P Require Import Events.
From S2P Require Import LedgerValues.
From S2P Require Import Database.
From S2P Require Import Tx.
From S2P Require Import LedgerSpec.
From S2P Require Import Outbox.
From S2P Require Import LedgerHelpers.
From S2P Require Import LedgerStore.
From S2P Require Import HelperSpecs.
From S2P Require Import ReviewSpecs.
From S2P Require Import StoreSpecs.
From S2P Require Import Refinement.
From S2P Require Import LedgerCorrect.
Local Open Scope string_scope.
Local Open Scope Z_scope.

(** ** What the store never takes back *)

Definition keeps_entries (db db' : DB) : Prop :=
  forall key account row, entry_with_key key account db = inr row -> entry_with_key key account db' = inr row.

Definition keeps_tasks (db db' : DB) : Prop :=
  forall t row, tasks db !! t = Some row -> exists row', tasks db' !! t = Some row' /\
    task_created_by_user_id row' = task_created_by_user_id row /\
    task_organization_id row' = task_organization_id row.

Definition keeps_accepted (db db' : DB) : Prop :=
  forall s row, submissions db !! s = Some row -> sub_state row = "accepted" -> submissions db' !! s = Some row.

(** A closed or cancelled task stays so. *)
Definition final_state (state : string) : Prop := state = "closed" \/ state = "cancelled".

Definition keeps_final (db db' : DB) : Prop :=
  forall t row, tasks db !! t = Some row -> final_state (task_state row) ->
    exists row', tasks db' !! t = Some row' /\ task_state row' = task_state row.

Record keeps (db db' : DB) : Prop := {
  kept_accounts : credit_accounts db' = credit_accounts db;
  kept_memberships : organization_memberships db' = organization_memberships db;
  kept_entries : keeps_entries db db';
  kept_tasks : keeps_tasks db db';
  kept_accepted : keeps_accepted db db';
  kept_final : keeps_final db db'
}.

Lemma keeps_refl db : keeps db db.
Proof. split; [done|done|by intros ? ? ?|intros t row Hrow; by exists row|by intros ? ? ?|intros t row ?; by exists row]. Qed.

Lemma keeps_trans db1 db2 db3 : keeps db1 db2 -> keeps db2 db3 -> keeps db1 db3.
Proof.
  intros [A1 M1 E1 T1 S1 F1] [A2 M2 E2 T2 S2 F2]. split.
  - congruence.
  - congruence.
  - intros key account row Hrow. by apply E2, E1.
  - intros t row (row' & Hrow' & ? & ?)%T1. destruct (T2 _ _ Hrow') as (row'' & ? & ? & ?).
    exists row''. split; [done|]. split; congruence.
  - intros s row Hrow Hst. apply S2; [|done]. by apply S1.
  - intros t row Hrow Hst. destruct (F1 _ _ Hrow Hst) as (row' & Hrow' & Heq).
    rewrite <- Heq in Hst. destruct (F2 _ _ Hrow' Hst) as (row'' & ? & ?). exists row''. split; [done|congruence].
Qed.

(** Frames: a write that touches none of the five. *)
Lemma keeps_frame db db' :
  credit_accounts db' = credit_accounts db -> organization_memberships db' = organization_memberships db ->
  ledger_entries db' = ledger_entries db -> tasks db' = tasks db -> submissions db' = submissions db -> keeps db db'.
Proof.
  intros Ha Hm He Ht Hs. split; [done|done|..].
  - intros key account row. unfold entry_with_key. by rewrite He.
  - intros t row Hrow. exists row. by rewrite Ht.
  - intros s row. by rewrite Hs.
  - intros t row Hrow Hst. exists row. by rewrite Ht.
Qed.

Lemma insert_entry_keeps row db db' : insert_ledger_entry row db = inr db' -> keeps db db'.
Proof.
  intros (-> & _ & _ & _ & Hkeys)%insert_ledger_entry_inr. split; [done|done|..|by intros ? ? ?|].
  - intros key account e He. unfold entry_with_key in *. cbn [ledger_entries with_entries].
    rewrite filter_cons_False; [done|]. intros [Hk Ha]. apply first_row_inr in He.
    apply list_elem_of_filter in He as ((Hke & Hae) & [i Hi]%list_elem_of_lookup).
    apply (Forall_lookup_1 _ _ _ _ Hkeys Hi). unfold same_key. rewrite Hk, Ha. split; [done|]. by rewrite Hae, Hke.
  - intros t r Hr. by exists r.
  - intros t r Hr Hst. by exists r.
Qed.

(** The entry just written is the one its key finds. *)
Lemma insert_entry_found row key db db' :
  insert_ledger_entry row db = inr db' -> entry_idempotency_key row = Some key ->
  entry_with_key key (entry_account_id row) db' = inr row.
Proof.
  intros [-> _]%insert_ledger_entry_inr Hk. unfold entry_with_key. cbn [ledger_entries with_entries].
  by rewrite filter_cons_True.
Qed.

Create HintDb keeps.

Section Keeps.
Context `{UUIDLib}.

Lemma insert_fund_keeps t a z db db' : insert_task_fund t a z db = inr db' -> keeps db db'.
Proof. intros [-> _]%insert_task_fund_inr. by apply keeps_frame. Qed.
Lemma charged_keeps c db db' : charged c db db' -> keeps db db'.
Proof. intros [? ->]%charged_frame. by apply keeps_frame. Qed.
Lemma charged_counter_keeps k a l db db' : charged_counter k a l db db' -> keeps db db'.
Proof. intros [? ->]%charged_counter_frame. by apply keeps_frame. Qed.
Lemma reservations_keeps m s db db' : update_reservations m s db = inr db' -> keeps db db'.
Proof. intros [? ->]%update_reservations_inr. by apply keeps_frame. Qed.
Lemma recorded_keeps db ds db' : recorded db ds db' -> keeps db db'.
Proof. intros (e & r & ->)%recorded_with_events. by apply keeps_frame. Qed.
Lemma refused_keeps db db' : refused db db' -> keeps db db'.
Proof.
  intros [->|(day & used & [_ ->]%bump_counter_inr)]; [apply keeps_refl|by apply keeps_frame].
Qed.
Lemma banned_keeps command raw db db' : banned command raw db db' -> keeps db db'.
Proof.
  unfold banned. destruct (reject_BanSelection command); [intros ->; apply keeps_refl|].
  intros (u & _ & Hb). revert Hb. unfold insert_ban.
  repeat split_match; intros [=]; subst; first [apply keeps_refl|by apply keeps_frame].
Qed.
Lemma collectibles_keeps t raw db o db' : collectibles_paid t raw db o db' -> keeps db db'.
Proof. intros []; [apply keeps_refl|by apply keeps_frame]. Qed.
Lemma collectible_tip_keeps r raw sel db o db' : collectible_tipped r raw sel db o db' -> keeps db db'.
Proof. intros []; first [apply keeps_refl|by apply keeps_frame]. Qed.
Lemma released_keeps t f (P Q : Prop) db db' :
  P /\ db' = drop_fund t db \/ Q /\ db' = release_held f t (drop_fund t db) -> keeps db db'.
Proof. intros [[_ ->]|[_ ->]]; by apply keeps_frame. Qed.

Lemma paid_keeps command db outcome db' : paid command db outcome db' -> keeps db db'.
Proof.
  intros [|fund account worker amount now db1 db2 _ _ _ _ _ _ Hins Hset]; [apply keeps_refl|].
  apply insert_entry_keeps in Hins. eapply keeps_trans; [done|].
  destruct Hset as [? ? _ _ Hins3| |]; [|by apply keeps_frame..].
  apply insert_entry_keeps in Hins3. eapply keeps_trans; [done|]. by apply keeps_frame.
Qed.

Lemma tipped_keeps t r raw d c k sel db tip db' : tipped t r raw d c k sel db tip db' -> keeps db db'.
Proof.
  intros [|? ? ? ? ? ? db1 db2 _ _ _ _ _ _ H1 H2]; [apply keeps_refl|].
  eapply keeps_trans; by eapply insert_entry_keeps.
Qed.

(** Updating a task row keeps its owner. *)
Lemma tasks_insert_keeps t row row' db :
  tasks db !! t = Some row -> task_created_by_user_id row' = task_created_by_user_id row ->
  task_organization_id row' = task_organization_id row ->
  (final_state (task_state row) -> task_state row' = task_state row) ->
  keeps db (with_tasks (<[t := row']> (tasks db)) db).
Proof.
  intros Hrow Hc Ho Hfin. split; [done|done|by intros ? ? ?|..|by intros ? ? ?|].
  - intros u r Hr. cbn. destruct (decide (u = t)) as [->|].
    + exists row'. rewrite lookup_insert_eq. simplify_eq. done.
    + exists r. by rewrite lookup_insert_ne.
  - intros u r Hr Hst. cbn. destruct (decide (u = t)) as [->|].
    + exists row'. rewrite lookup_insert_eq. simplify_eq. auto.
    + exists r. by rewrite lookup_insert_ne.
Qed.

Lemma update_task_state_keeps t s row db db' :
  tasks db !! t = Some row -> ~ final_state (task_state row) -> update_task_state t s db = inr db' -> keeps db db'.
Proof.
  intros Hrow Hst. unfold update_task_state. rewrite Hrow. split_match; intros [=]; subst. by eapply tasks_insert_keeps.
Qed.

Lemma reward_keeps t row a db db' : reward_switched t row a db db' -> keeps db db'.
Proof.
  unfold reward_switched. repeat split_match; [intros ->; apply keeps_refl| |done].
  unfold update_task_reward. repeat split_match; intros [=]; subst; [by eapply tasks_insert_keeps|apply keeps_refl].
Qed.

(** Updating a submission that is not accepted keeps the accepted ones. *)
Lemma submissions_insert_keeps s row row' db :
  submissions db !! s = Some row -> sub_state row <> "accepted" ->
  keeps db (with_submissions (<[s := row']> (submissions db)) db).
Proof.
  intros Hrow Hst. split; [done|done|by intros ? ? ?|intros t r Hr; by exists r| |intros t r Hr; by exists r].
  intros u r Hr Ha. cbn. destruct (decide (u = s)) as [->|]; [congruence|]. by rewrite lookup_insert_ne.
Qed.

Lemma update_accepted_keeps s key row db db' :
  submissions db !! s = Some row -> sub_state row <> "accepted" ->
  update_submission_accepted s key db = inr db' -> keeps db db'.
Proof.
  intros Hrow Hst. unfold update_submission_accepted. rewrite Hrow. split_match; intros [=]; subst.
  by eapply submissions_insert_keeps.
Qed.

Lemma update_changes_keeps s note r key row db db' :
  submissions db !! s = Some row -> sub_state row <> "accepted" ->
  update_submission_changes_requested s note r key db = inr db' -> keeps db db'.
Proof.
  intros Hrow Hst. unfold update_submission_changes_requested. rewrite Hrow. split_match; intros [=]; subst.
  by eapply submissions_insert_keeps.
Qed.

Lemma update_rejected_keeps s note r key row db db' :
  submissions db !! s = Some row -> sub_state row <> "accepted" ->
  update_submission_rejected s note r key db = inr db' -> keeps db db'.
Proof.
  intros Hrow Hst. unfold update_submission_rejected. rewrite Hrow. split_match; intros [=]; subst.
  by eapply submissions_insert_keeps.
Qed.

Lemma supersedes_keeps t s ds db db' : supersedes t s ds db db' -> keeps db db'.
Proof.
  intros [-> _]. split; [done|done|by intros ? ? ?|intros u r Hr; by exists r| |intros u r Hr; by exists r].
  intros u r Hr Ha. unfold supersede_submissions. cbn [snd submissions with_submissions].
  rewrite map_lookup_imap, Hr. unfold mbind, option_bind. case_decide as Hc; [|done].
  destruct Hc as (_ & _ & Hst). cbn in Hst. congruence.
Qed.

Lemma insert_entry_submissions row db db' : insert_ledger_entry row db = inr db' -> submissions db' = submissions db.
Proof. by intros [-> _]%insert_ledger_entry_inr. Qed.

Lemma paid_submissions command db outcome db' : paid command db outcome db' -> submissions db' = submissions db.
Proof.
  intros [|fund account worker amount now db1 db2 _ _ _ _ _ _ Hins Hset]; [done|].
  apply insert_entry_submissions in Hins as <-. destruct Hset as [? ? _ _ Hins3| |]; [|done|done].
  by apply insert_entry_submissions in Hins3 as <-.
Qed.

Lemma tipped_submissions t r raw d c k sel db tip db' :
  tipped t r raw d c k sel db tip db' -> submissions db' = submissions db.
Proof.
  intros [|? ? ? ? ? ? db1 db2 _ _ _ _ _ _ H1%insert_entry_submissions H2%insert_entry_submissions]; [done|congruence].
Qed.

#[local] Hint Resolve insert_entry_keeps insert_fund_keeps charged_keeps charged_counter_keeps
  reservations_keeps recorded_keeps refused_keeps banned_keeps collectibles_keeps collectible_tip_keeps
  released_keeps paid_keeps tipped_keeps reward_keeps supersedes_keeps : keeps.

Ltac keeps_chain :=
  lazymatch goal with
  | |- keeps ?db ?db => apply keeps_refl
  | |- keeps ?db0 ?db => eapply keeps_trans; [|solve [eauto 2 with keeps]]; keeps_chain
  end.

Lemma reviewed_not_accepted s t row worker db :
  reviewed s t row worker db -> sub_state row = "submitted" ->
  submissions db !! TypedID_String s = Some row /\ sub_state row <> "accepted".
Proof. intros (Hrow & _) ->. done. Qed.

Lemma update_accepted_tasks s key db db' : update_submission_accepted s key db = inr db' -> tasks db' = tasks db.
Proof. by intros [? ->]%update_submission_accepted_inr. Qed.

Lemma accepted_keeps command db r db' : accepted command db r db' -> keeps db db'.
Proof.
  intros Ha. inv Ha; [by keeps_chain..|].
  match goal with Hr : reviewed _ _ _ _ _ |- _ => apply reviewed_not_accepted in Hr as [Hrow Hst]; [|done] end.
  match goal with Hu : update_submission_accepted _ _ _ = _ |- _ =>
    pose proof (update_accepted_tasks _ _ _ _ Hu) as Htasks; apply (update_accepted_keeps _ _ _ _ _ Hrow Hst) in Hu end.
  match goal with Hu : update_task_state _ _ _ = _ |- _ =>
    apply (update_task_state_keeps _ _ task) in Hu; [|by rewrite Htasks|by intros [Hf|Hf]; congruence] end.
  eapply keeps_trans; [done|]. eapply keeps_trans; [done|]. keeps_chain.
Qed.

Lemma refunded_keeps command db r db' : refunded command db r db' -> keeps db db'.
Proof.
  intros Hr. inv Hr; [by keeps_chain..|].
  match goal with Hi : insert_ledger_entry _ _ = _ |- _ =>
    pose proof (insert_entry_keeps _ _ _ Hi) as Hk; apply insert_ledger_entry_inr in Hi as [-> _] end.
  match goal with Hd : _ \/ _ |- _ => pose proof (released_keeps _ _ _ _ _ _ Hd) as Hk2 end.
  match goal with Hu : update_task_state _ _ _ = inr _ |- _ =>
    apply (update_task_state_keeps _ _ row) in Hu;
      [|destruct_or!; destruct_and!; by subst|intros [Hf|Hf]; match goal with Hn : not_awarded _ |- _ => destruct Hn; congruence end] end.
  eapply keeps_trans; [exact Hk|]. eapply keeps_trans; [exact Hk2|]. eapply keeps_trans; [done|]. keeps_chain.
Qed.

Lemma rejected_keeps command db r db' : rejected command db r db' -> keeps db db'.
Proof.
  intros Hr. inv Hr; [by keeps_chain..|].
  match goal with Hr : reviewed _ _ _ _ _ |- _ => apply reviewed_not_accepted in Hr as [Hrow Hst]; [|done] end.
  match goal with Hp : paid _ _ _ _, Hc : charged _ _ _, Ht : tipped _ _ _ _ _ _ _ _ _ _ |- _ =>
    rewrite <- (paid_submissions _ _ _ _ Hp) in Hrow; pose proof Hc as Hc';
    apply charged_frame in Hc' as [cs Hcs]; pose proof (tipped_submissions _ _ _ _ _ _ _ _ _ _ Ht) as Hts end.
  subst. match goal with Hu : update_submission_rejected _ _ _ _ ?db = _ |- keeps ?db0 _ =>
    eapply (update_rejected_keeps _ _ _ _ row) in Hu; [|by rewrite Hts|done];
    eapply (keeps_trans _ db); [keeps_chain|]; eapply keeps_trans; [done|]; keeps_chain end.
Qed.

Lemma changes_keeps command db r db' : changes_requested command db r db' -> keeps db db'.
Proof.
  intros Hr. inv Hr; [by keeps_chain..|].
  match goal with Hr : reviewed _ _ _ _ _ |- _ => apply reviewed_not_accepted in Hr as [Hrow Hst]; [|done] end.
  match goal with Hu : update_submission_changes_requested _ _ _ _ _ = _ |- _ =>
    apply (update_changes_keeps _ _ _ _ _ _ _ Hrow Hst) in Hu end.
  eapply keeps_trans; [done|]. keeps_chain.
Qed.

Lemma performed_keeps c db r db' : performed c db r db' -> keeps db db'.
Proof.
  intros Hp. destruct Hp as [? ? ? ? Hf|? ? ? ? Hf|? ? ? ? Hf|? ? ? ? Hf|? ? ? ? Hf|? ? ? ? Hf|? ? ? ? Hf|? ? ? ? Hf].
  3: by eapply accepted_keeps. 3: by eapply changes_keeps. 3: by eapply rejected_keeps. 3: by eapply refunded_keeps.
  all: inv Hf; by keeps_chain.
Qed.

Lemma execute_keeps schedule db :
  Forall (fun ec => valid_command ec.2) schedule -> ledger_ok db -> keeps db (snd (execute schedule db)).
Proof.
  revert db. induction schedule as [|[env c] schedule IH]; intros db Hv Hok; cbn; [apply keeps_refl|].
  apply Forall_cons_1 in Hv as [Hc Hv]. pose proof (perform_spec env db c (ledger_funds _ Hok) Hc) as Hp.
  destruct (run env db (perform c)) as [r db1]. cbn in *.
  specialize (IH db1 Hv (performed_ledger_ok _ _ _ _ Hc Hp Hok)).
  destruct (execute schedule db1). eapply keeps_trans; [by eapply performed_keeps|done].
Qed.

(** ** Running without faults *)

Section NoFaults.
Context {env : Env} (Hok : no_faults env).

Lemma lockUserAccount_ok u account pid base db n (Q : accountLockResult -> TxState -> Prop) :
  user_account (TypedID_String u) account db -> ParseCreditAccountID account = TypedIDCreated pid ->
  (forall k, Q (accountLocked account pid) (MkTxState base db k)) ->
  wp env (lockUserAccount u) Q (MkTxState base db n).
Proof using Hok.
  intros Ha Hp Hs. unfold lockUserAccount, parse_account. apply wp_bind, wp_query_row_ok; [exact Hok|]. cbn [st_db].
  unfold user_account in Ha. rewrite Ha, Hp. apply wp_ret, Hs.
Qed.

Lemma lockOrganizationAccount_ok o account pid base db n (Q : accountLockResult -> TxState -> Prop) :
  organization_account (TypedID_String o) account db -> ParseCreditAccountID account = TypedIDCreated pid ->
  (forall k, Q (accountLocked account pid) (MkTxState base db k)) ->
  wp env (lockOrganizationAccount o) Q (MkTxState base db n).
Proof using Hok.
  intros Ha Hp Hs. unfold lockOrganizationAccount, parse_account. apply wp_bind, wp_query_row_ok; [exact Hok|]. cbn [st_db].
  unfold organization_account in Ha. rewrite Ha, Hp. apply wp_ret, Hs.
Qed.

Lemma findFundForKey_ok key t account amount row pid base db n (Q : option FundResult -> TxState -> Prop) :
  entry_with_key key account db = inr row -> entry_kind row = "task_fund" ->
  entry_task_id row = Some (TypedID_String t) -> entry_account_id row = account ->
  entry_amount row = - CreditAmount_Int64 amount -> valid_amount amount ->
  ParseCreditAccountID account = TypedIDCreated pid ->
  (forall k, Q (Some (TaskFunded (MkTaskFund t pid amount) IdempotentReplay [])) (MkTxState base db k)) ->
  wp env (findFundForKey key t account) Q (MkTxState base db n).
Proof using Hok.
  intros He Hk Ht Ha Hamt Hv Hp Hs. unfold findFundForKey. apply wp_bind, wp_query_row_ok; [exact Hok|]. cbn [st_db].
  rewrite He, Hk, Ht. cbn [default id from_option]. rewrite !String.eqb_refl. cbn [negb orb].
  unfold buildFund. rewrite Ha, Hp, Hamt, Z.opp_involutive.
  rewrite wrap64_id by (apply in_int64_spec; destruct Hv; unfold int64_min, int64_max in *; lia).
  unfold NewCreditAmount. destruct (Z.leb_spec (CreditAmount_Int64 amount) 0); [destruct Hv; lia|].
  destruct amount. apply wp_ret, Hs.
Qed.

Lemma scan_roles_ok raws roles base db n (Q : DomainError + list Role -> TxState -> Prop) :
  Forall2 (fun raw role => ParseRole raw = RoleAccepted role) raws roles ->
  (forall k, Q (inr roles) (MkTxState base db k)) ->
  wp env (scan_roles raws) Q (MkTxState base db n).
Proof using Hok.
  intros Hr. revert n Q. induction Hr as [|raw role raws roles Hraw Hr IH]; intros n Q Hs; cbn -[ParseRole].
  - apply wp_ret, Hs.
  - apply wp_bind, wp_fault_point_ok; [exact Hok|]. rewrite Hraw. apply wp_bind, IH. intros k. apply wp_ret, Hs.
Qed.

Lemma organizationMemberPermission_ok o u p base db n (Q : PermissionCheck -> TxState -> Prop) :
  holds_permission o (TypedID_String u) p db -> (forall k, Q PermissionGranted (MkTxState base db k)) ->
  wp env (organizationMemberPermission o u p) Q (MkTxState base db n).
Proof using Hok.
  intros (roles & Hr & Hc) Hs. unfold organizationMemberPermission.
  apply wp_bind, wp_query_rows_ok; [exact Hok|]. cbn [st_db]. apply wp_bind. eapply scan_roles_ok; [done|]. intros k.
  apply wp_bind, wp_fault_point_ok; [exact Hok|]. rewrite Hc. apply wp_ret, Hs.
Qed.

Lemma scan_users_ok failure raws us base db n (Q : DomainError + list UserID -> TxState -> Prop) :
  parse_users raws us -> (forall k, Q (inr us) (MkTxState base db k)) ->
  wp env (scan_users failure raws) Q (MkTxState base db n).
Proof using Hok.
  intros Hr. revert n Q. induction Hr as [|raw u raws us Hraw Hr IH]; intros n Q Hs; cbn -[ParseTypedID].
  - apply wp_ret, Hs.
  - apply wp_bind, wp_fault_point_ok; [exact Hok|]. rewrite Hraw. apply wp_bind, IH. intros k. apply wp_ret, Hs.
Qed.

Lemma grantRecipients_ok target us base db n (Q : DomainError + list UserID -> TxState -> Prop) :
  granted_to target us db -> (forall k, Q (inr us) (MkTxState base db k)) ->
  wp env (grantRecipients target) Q (MkTxState base db n).
Proof using Hok.
  intros Hg Hs. unfold grantRecipients. destruct target; cbn in Hg; [subst; apply wp_ret, Hs|].
  apply wp_bind, wp_query_rows_ok; [exact Hok|]. cbn [st_db]. apply wp_bind. eapply scan_users_ok; [done|]. intros k.
  apply wp_bind, wp_fault_point_ok; [exact Hok|]. apply wp_ret, Hs.
Qed.

Lemma lockTaskForReview_ok t reviewer action row base db n (Q : taskLockResult -> TxState -> Prop) :
  tasks db !! TypedID_String t = Some row -> may_review reviewer row db ->
  (forall k, Q (taskLocked (locked_of row)) (MkTxState base db k)) ->
  wp env (lockTaskForReview t reviewer action) Q (MkTxState base db n).
Proof using Hok.
  intros Hrow Hmay Hs. unfold lockTaskForReview, select_task, reviewerOrganizationPermission.
  apply wp_bind, wp_query_row_ok; [exact Hok|]. cbn [st_db]. rewrite Hrow. destruct reviewer as [u|o]; cbn in Hmay.
  - destruct (String.eqb_spec (task_created_by_user_id row) (TypedID_String u)); [apply wp_ret, Hs|].
    destruct Hmay as [|(o & -> & Hne & Hp)]; [done|]. cbn [default id from_option].
    rewrite (proj2 (String.eqb_neq _ _)) by done. cbn [negb].
    apply wp_bind, organizationMemberPermission_ok; [done|]. intros k. apply wp_ret, Hs.
  - destruct Hmay as [-> Hne]. cbn [default id from_option]. rewrite String.eqb_refl, (proj2 (String.eqb_neq _ _)) by done.
    apply wp_ret, Hs.
Qed.

Lemma select_submission_ok s t row raw base db n (Q : StmtError + (SubmissionRow * string) -> TxState -> Prop) :
  submissions db !! TypedID_String s = Some row -> sub_task_id row = TypedID_String t -> sub_user_id row = Some raw ->
  (forall k, Q (inr (row, raw)) (MkTxState base db k)) ->
  wp env (select_submission s t) Q (MkTxState base db n).
Proof using Hok.
  intros Hrow Ht Hu Hs. apply wp_query_row_ok; [exact Hok|]. cbn [st_db]. rewrite Hrow, Ht, String.eqb_refl, Hu. apply Hs.
Qed.

Lemma idempotentAccept_ok command raw worker base db n (Q : AcceptResult -> TxState -> Prop) :
  ParseUserID raw = TypedIDCreated worker ->
  (forall outcome k, Q (SubmissionAccepted (accept_TaskID command) (accept_SubmissionID command) worker outcome NoTip
     IdempotentReplay []) (MkTxState base db k)) ->
  wp env (idempotentAccept command raw) Q (MkTxState base db n).
Proof using Hok.
  intros Hw Hs. unfold idempotentAccept, parseReviewWorker. rewrite Hw. apply wp_bind, wp_query_row_ok; [exact Hok|]. cbn [st_db].
  apply wp_ret. destruct (first_row _) as [err|amount] eqn:He.
  - apply first_row_inl in He as [_ ->]. apply Hs.
  - destruct (NewCreditAmount amount); apply Hs.
Qed.

Lemma transferReceivers_ok target us base db n (Q : DomainError + list UserID -> TxState -> Prop) :
  received_by target us db -> (forall k, Q (inr us) (MkTxState base db k)) ->
  wp env (transferReceivers target) Q (MkTxState base db n).
Proof using Hok.
  intros Hr Hs. destruct target as [|o]; [cbn in *; subst; apply wp_ret, Hs|].
  by apply (grantRecipients_ok (GrantToOrganization o) us).
Qed.

End NoFaults.

(** What an operation that reads only returns. *)
Lemma run_equal {A} env db (m : M A) (a : A) :
  wp env m (fun r st => r = a /\ st_base st = db) (MkTxState db db 0) -> run env db m = (a, db).
Proof. unfold wp, run. destruct (m env _) as [r st]. by intros [-> ->]. Qed.

Lemma user_account_kept u account db db' : keeps db db' -> user_account u account db -> user_account u account db'.
Proof. intros [Ha _ _ _ _]. unfold user_account, accounts_of_user. by rewrite Ha. Qed.

Lemma organization_account_kept o account db db' :
  keeps db db' -> organization_account o account db -> organization_account o account db'.
Proof. intros [Ha _ _ _ _]. unfold organization_account, accounts_of_organization. by rewrite Ha. Qed.

Lemma holds_permission_kept o u p db db' : keeps db db' -> holds_permission o u p db -> holds_permission o u p db'.
Proof. intros [_ Hm _ _ _]. unfold holds_permission, member_roles. by rewrite Hm. Qed.

Lemma granted_to_kept target us db db' : keeps db db' -> granted_to target us db -> granted_to target us db'.
Proof. intros [_ Hm _ _ _]. destruct target; cbn; [done|]. unfold grant_audience. by rewrite Hm. Qed.

Lemma may_review_kept reviewer t row db db' :
  keeps db db' -> tasks db !! t = Some row -> may_review reviewer row db ->
  exists row', tasks db' !! t = Some row' /\ may_review reviewer row' db'.
Proof.
  intros Hk Hrow Hmay. destruct (kept_tasks _ _ Hk _ _ Hrow) as (row' & Hrow' & Hc & Ho).
  exists row'. split; [done|]. destruct reviewer; cbn in *; [|by rewrite Ho].
  destruct Hmay as [|(o & Ho' & Hne & Hp)]; [left; congruence|right]. exists o. split; [congruence|]. split; [done|].
  by eapply holds_permission_kept.
Qed.

Lemma owner_account_kept ref account db db' : keeps db db' -> owner_account ref account db -> owner_account ref account db'.
Proof.
  intros Hk [Ha Hp]. split; [|done].
  destruct (ref_owner ref); [by eapply user_account_kept|by eapply organization_account_kept].
Qed.

Lemma may_send_kept command db db' : keeps db db' -> may_send command db -> may_send command db'.
Proof. intros Hk. unfold may_send. destruct (send_Source command); [done|]. by apply holds_permission_kept. Qed.

Lemma received_by_kept target us db db' : keeps db db' -> received_by target us db -> received_by target us db'.
Proof. intros Hk. destruct target; [done|]. by apply granted_to_kept. Qed.

(** Everything a retry relies on survives the first execution and what followed. *)
Lemma kept_until env db c r db1 schedule :
  ledger_ok db -> valid_command c -> run env db (perform c) = (r, db1) ->
  Forall (fun ec => valid_command ec.2) schedule ->
  performed c db r db1 /\ keeps db (snd (execute schedule db1)) /\ keeps db1 (snd (execute schedule db1)).
Proof.
  intros Hl Hv Hrun Hs. pose proof (perform_spec env db c (ledger_funds _ Hl) Hv) as Hp. rewrite Hrun in Hp. cbn in Hp.
  assert (keeps db1 (snd (execute schedule db1))) as Hk.
  { apply execute_keeps; [done|]. by eapply performed_ledger_ok. }
  split; [done|]. split; [|done]. eapply keeps_trans; [by eapply performed_keeps|done].
Qed.

(** The specification of each command, read off the common relation. *)
Lemma performed_inv c db r db' :
  performed c db r db' ->
  match c, r with
  | CFund command, RFund r => funded (user_request command) db r db'
  | COrganizationFund command, RFund r => funded (organization_request command) db r db'
  | CAccept command, RAccept r => accepted command db r db'
  | CRequestChanges command, RRequestChanges r => changes_requested command db r db'
  | CReject command, RReject r => rejected command db r db'
  | CRefund command, RRefund r => refunded command db r db'
  | CGrant command, RGrant r => granted command db r db'
  | CSend command, RSend r => sent command db r db'
  | _, _ => False
  end.
Proof. intros []; by subst. Qed.

(** ** Retrying a funding *)

(** The entry a first funding wrote, and where it finds itself later. *)
Lemma funded_entry q db fund ds db' :
  funded q db (TaskFunded fund FirstExecution ds) db' ->
  exists account pid now, fr_account q account db /\ ParseCreditAccountID account = TypedIDCreated pid /\
    fund = MkTaskFund (fr_task q) pid (fr_amount q) /\
    entry_with_key (IdempotencyKey_String (fr_key q)) account db' =
      inr (fund_entry (fr_entry q) account (fr_task q) (fr_amount q) (fr_key q) now).
Proof.
  intros Hf. inv Hf. exists account, pid, now. repeat split; try done.
  match goal with Hr : recorded _ _ db' |- _ => apply (kept_entries _ _ (recorded_keeps _ _ _ Hr)) end.
  by eapply (insert_entry_found (fund_entry _ _ _ _ _ _)).
Qed.

(** C7: Retrying a funding, after any further commands and in any fault-free environment, replays
    it: the same fund is answered and the database does not change. *)
Theorem funding_is_idempotent env env' db command fund ds db1 schedule :
  ledger_ok db -> valid_amount (fund_Amount command) ->
  run env db (perform (CFund command)) = (RFund (TaskFunded fund FirstExecution ds), db1) ->
  Forall (fun ec => valid_command ec.2) schedule -> no_faults env' ->
  run env' (snd (execute schedule db1)) (FundTask command) =
    (TaskFunded fund IdempotentReplay [], snd (execute schedule db1)).
Proof.
  intros Hl Hv Hrun Hsched Hok. destruct (kept_until _ _ (CFund command) _ _ _ Hl Hv Hrun Hsched) as (Hp & Hk & Hk1).
  apply performed_inv, funded_entry in Hp as (account & pid & now & Hacc & Hpid & -> & He). cbn in Hacc, He.
  apply run_equal. unfold FundTask. apply wp_bind, wp_begin_ok; [done|]. cbn [st_base st_step].
  apply wp_bind, (lockUserAccount_ok Hok _ account pid); [by apply (user_account_kept _ _ _ _ Hk)|done|].
  intros k. apply wp_bind. eapply (findFundForKey_ok Hok); [by apply (kept_entries _ _ Hk1), He|done..|].
  intros k'. by apply wp_ret.
Qed.

(** Retrying an organization's funding, after any further commands, replays it with the same
    fund and changes nothing. *)
Theorem organization_funding_is_idempotent env env' db command fund ds db1 schedule :
  ledger_ok db -> valid_amount (orgfund_Amount command) ->
  run env db (perform (COrganizationFund command)) = (RFund (TaskFunded fund FirstExecution ds), db1) ->
  Forall (fun ec => valid_command ec.2) schedule -> no_faults env' ->
  run env' (snd (execute schedule db1)) (FundTaskFromOrganization command) =
    (TaskFunded fund IdempotentReplay [], snd (execute schedule db1)).
Proof.
  intros Hl Hv Hrun Hsched Hok. destruct (kept_until _ _ (COrganizationFund command) _ _ _ Hl Hv Hrun Hsched) as (Hp & Hk & Hk1).
  apply performed_inv, funded_entry in Hp as (account & pid & now & Hacc & Hpid & -> & He). cbn in Hacc, He.
  apply run_equal. unfold FundTaskFromOrganization. apply wp_bind, wp_begin_ok; [done|]. cbn [st_base st_step].
  apply wp_bind, (lockOrganizationAccount_ok Hok _ account pid); [by apply (organization_account_kept _ _ _ _ Hk)|done|].
  intros k. apply wp_bind. eapply (findFundForKey_ok Hok); [by apply (kept_entries _ _ Hk1), He|done..|].
  intros k'. by apply wp_ret.
Qed.
(** ** Retrying an acceptance *)

Lemma accepted_row command db t s w payout tip ds db' :
  accepted command db (SubmissionAccepted t s w payout tip FirstExecution ds) db' ->
  t = accept_TaskID command /\ s = accept_SubmissionID command /\
  exists task row raw, tasks db !! TypedID_String t = Some task /\ may_review (accept_Reviewer command) task db /\
    submissions db' !! TypedID_String s = Some row /\ sub_state row = "accepted" /\ sub_task_id row = TypedID_String t /\
    sub_accepted_idempotency_key row = Some (accept_key command) /\
    sub_user_id row = Some raw /\ ParseUserID raw = TypedIDCreated w.
Proof.
  intros Ha. inv Ha. split; [done|]. split; [done|].
  match goal with Hr : reviewed _ _ _ _ _ |- _ => destruct Hr as (Hrow & Htask & raw & Hu & Hw) end.
  match goal with Hu1 : update_submission_accepted _ _ _ = inr ?db1 |- _ =>
    unfold update_submission_accepted in Hu1; rewrite Hrow in Hu1; split_match_in Hu1; [done|];
    injection Hu1 as <-; set (row' := MkSubmissionRow _ _ "accepted" _ _ _ _ _) in * end.
  exists task, row', raw. split; [done|]. split; [done|]. split; [|done].
  match goal with Hr : recorded _ _ db' |- _ => apply (kept_accepted _ _ (recorded_keeps _ _ _ Hr)); [|done] end.
  match goal with Hr : supersedes _ _ _ _ _ |- _ => apply (kept_accepted _ _ (supersedes_keeps _ _ _ _ _ Hr)); [|done] end.
  match goal with Hr : collectible_tipped _ _ _ _ _ _ |- _ =>
    apply (kept_accepted _ _ (collectible_tip_keeps _ _ _ _ _ _ Hr)); [|done] end.
  match goal with Hr : tipped _ _ _ _ _ _ _ _ _ _ |- _ => rewrite (tipped_submissions _ _ _ _ _ _ _ _ _ _ Hr) end.
  match goal with Hr : charged _ _ _ |- _ => apply charged_frame in Hr as [cs ->] end.
  match goal with Hr : collectibles_paid _ _ _ _ _ |- _ =>
    apply (kept_accepted _ _ (collectibles_keeps _ _ _ _ _ Hr)); [|done] end.
  match goal with Hr : paid _ _ _ _ |- _ => rewrite (paid_submissions _ _ _ _ Hr) end.
  match goal with Hr : update_task_state _ _ _ = _ |- _ => apply update_task_state_inr in Hr as [ts ->] end.
  apply lookup_insert_eq.
Qed.

(** Retrying an acceptance, after any further commands, answers the same task, submission and
    worker as a replay and pays nothing again. *)
Theorem accept_is_idempotent env env' db command t s w payout tip ds db1 schedule :
  ledger_ok db -> valid_tip (accept_TipSelection command) ->
  run env db (perform (CAccept command)) = (RAccept (SubmissionAccepted t s w payout tip FirstExecution ds), db1) ->
  Forall (fun ec => valid_command ec.2) schedule -> no_faults env' ->
  exists outcome, run env' (snd (execute schedule db1)) (AcceptSubmission command) =
    (SubmissionAccepted t s w outcome NoTip IdempotentReplay [], snd (execute schedule db1)).
Proof.
  intros Hl Hv Hrun Hsched Hok. destruct (kept_until _ _ (CAccept command) _ _ _ Hl Hv Hrun Hsched) as (Hp & Hk & Hk1).
  apply performed_inv, accepted_row in Hp as (-> & -> & task & row & raw & Htask & Hmay & Hrow & Hst & Ht & Hkey & Hu & Hw).
  apply (fun Hr => kept_accepted _ _ Hk1 _ _ Hr Hst) in Hrow.
  destruct (may_review_kept _ _ _ _ _ Hk Htask Hmay) as (task' & Htask' & Hmay').
  set (dbN := snd (execute schedule db1)) in *.
  assert (wp env' (AcceptSubmission command) (fun r st => (exists outcome,
    r = SubmissionAccepted (accept_TaskID command) (accept_SubmissionID command) w outcome NoTip IdempotentReplay []) /\
    st_base st = dbN) (MkTxState dbN dbN 0)) as Hwp.
  { unfold AcceptSubmission. apply wp_bind, wp_begin_ok; [done|]. cbn [st_base st_step].
    apply wp_bind. eapply (lockTaskForReview_ok Hok); [done..|]. intros k.
    apply wp_bind. eapply (select_submission_ok Hok); [done..|]. intros k'.
    rewrite Hst, Hkey. fold (accept_key command). cbn [default id from_option]. rewrite !String.eqb_refl. cbn [negb].
    eapply (idempotentAccept_ok Hok); [done|]. intros outcome k1. split; [by exists outcome|done]. }
  unfold wp, run in *. destruct (AcceptSubmission command env' _) as [r st]. destruct Hwp as [[outcome ->] ->].
  by exists outcome.
Qed.
End Keeps.

(** ** Retrying a grant or a transfer *)

Section Parsed.
Context `{UUIDLaws}.

(** Retrying a grant, after any further commands, replays it with the same entry and recipients
    and issues no more credits. *)
Theorem grant_is_idempotent env env' db command id amount us ds db1 schedule :
  ledger_ok db -> valid_amount (grant_Amount command) ->
  run env db (perform (CGrant command)) = (RGrant (CreditsGranted id amount us FirstExecution ds), db1) ->
  Forall (fun ec => valid_command ec.2) schedule -> no_faults env' ->
  run env' (snd (execute schedule db1)) (GrantCredits command) =
    (CreditsGranted id amount us IdempotentReplay [], snd (execute schedule db1)).
Proof.
  intros Hl Hv Hrun Hsched Hok. destruct (kept_until _ _ (CGrant command) _ _ _ Hl Hv Hrun Hsched) as (Hp & Hk & Hk1).
  apply performed_inv in Hp. inv Hp.
  match goal with Hi : insert_ledger_entry _ _ = _, Hr : recorded _ _ _, Hg : granted_to _ _ _ |- _ =>
    eapply insert_entry_found in Hi as He; [|done]; apply (kept_entries _ _ (recorded_keeps _ _ _ Hr)) in He;
    apply (kept_entries _ _ Hk1) in He; apply (granted_to_kept _ _ _ _ (recorded_keeps _ _ _ Hr)) in Hg;
    apply (granted_to_kept _ _ _ _ Hk1) in Hg end.
  apply run_equal. unfold GrantCredits. apply wp_bind, wp_begin_ok; [done|]. cbn [st_base st_step]. apply wp_bind.
  assert (forall Q n, (forall k, Q (accountLocked account pid) (MkTxState (snd (execute schedule db1)) (snd (execute schedule db1)) k)) ->
    wp env' (match grant_Target command with
      | GrantToUser id => lockUserAccount id
      | GrantToOrganization id => lockOrganizationAccount id
      end) Q (MkTxState (snd (execute schedule db1)) (snd (execute schedule db1)) n)) as Hlock.
  { intros Q n HQ. destruct (grant_Target command); [eapply lockUserAccount_ok|eapply lockOrganizationAccount_ok];
      eauto; [by apply (user_account_kept _ _ _ _ Hk)|by apply (organization_account_kept _ _ _ _ Hk)]. }
  apply Hlock. intros k. apply wp_bind, wp_query_row_ok; [done|]. cbn [st_db].
  change (entry_account_id (grant_entry command account now)) with account in He. rewrite He.
  cbn [grant_entry entry_kind entry_amount entry_id new_entry]. rewrite String.eqb_refl, Z.eqb_refl, ParseTypedID_String.
  cbn [negb orb]. apply wp_bind, wp_ret, wp_bind. eapply (grantRecipients_ok Hok); [done|]. intros k'.
  cbn. apply wp_bind, wp_ret, wp_bind, wp_commit_ok; [done|]. by apply wp_ret.
Qed.
Lemma lock_in_order_ok env a b x y base db n (Q : DomainError + gmap string string -> TxState -> Prop) :
  no_faults env -> ref_key a <> ref_key b -> owner_account a x db -> owner_account b y db ->
  (forall locked k, locked !! ref_key a = Some x -> locked !! ref_key b = Some y -> Q (inr locked) (MkTxState base db k)) ->
  wp env (lock_in_order [a; b] ∅) Q (MkTxState base db n).
Proof.
  intros Hok Hne [Ha [pa Hpa]] [Hb [pb Hpb]] Hs.
  assert (forall ref z pid m (Q' : accountLockResult -> TxState -> Prop), ParseCreditAccountID z = TypedIDCreated pid ->
    match ref_owner ref with
    | owner_user id => user_account (TypedID_String id) z db
    | owner_organization id => organization_account (TypedID_String id) z db
    end -> (forall k, Q' (accountLocked z pid) (MkTxState base db k)) ->
    wp env (lockTransferAccount ref) Q' (MkTxState base db m)) as Hlock.
  { intros ref z pid m Q' Hz Hacc HQ. unfold lockTransferAccount. destruct (ref_owner ref);
      [by eapply (lockUserAccount_ok Hok)|by eapply (lockOrganizationAccount_ok Hok)]. }
  cbn. apply wp_bind, (Hlock _ _ _ _ _ Hpa Ha). intros k. apply wp_bind, (Hlock _ _ _ _ _ Hpb Hb). intros k'.
  apply wp_ret, Hs; by simplify_map_eq.
Qed.

(** Retrying a peer transfer, after any further commands, replays it with the same entry and
    moves no more credits. *)
Theorem transfer_is_idempotent env env' db command id amount us ds db1 schedule :
  ledger_ok db -> valid_amount (send_Amount command) ->
  run env db (perform (CSend command)) = (RSend (CreditsSent id amount us FirstExecution ds), db1) ->
  Forall (fun ec => valid_command ec.2) schedule -> no_faults env' ->
  run env' (snd (execute schedule db1)) (PeerTransfer command) =
    (CreditsSent id amount us IdempotentReplay [], snd (execute schedule db1)).
Proof.
  intros Hl Hv Hrun Hsched Hok. destruct (kept_until _ _ (CSend command) _ _ _ Hl Hv Hrun Hsched) as (Hp & Hk & Hk1).
  apply performed_inv in Hp. inv Hp.
  match goal with Hi : insert_ledger_entry (debit_entry _ _ _) _ = _, Hj : insert_ledger_entry (credit_entry _ _ _) _ = _,
      Hr : recorded _ _ _ |- _ =>
    eapply insert_entry_found in Hi as He; [|done]; apply (kept_entries _ _ (insert_entry_keeps _ _ _ Hj)) in He;
    apply (kept_entries _ _ (recorded_keeps _ _ _ Hr)) in He; apply (kept_entries _ _ Hk1) in He end.
  change (entry_account_id (debit_entry command source now)) with source in He.
  set (dbN := snd (execute schedule db1)) in *.
  apply run_equal. unfold PeerTransfer. fold (send_source command) (send_target command).
  rewrite (proj2 (String.eqb_neq _ _)) by done. apply wp_bind, wp_begin_ok; [done|]. cbn [st_base st_step]. apply wp_bind.
  assert (forall Q n, (forall k, Q None (MkTxState dbN dbN k)) ->
    wp env' (authorize_source (send_Source command) (send_ActingUserID command)) Q (MkTxState dbN dbN n)) as Hauth.
  { intros Q n HQ. match goal with Hm : may_send command db |- _ => apply (may_send_kept _ _ _ Hk) in Hm end.
    unfold authorize_source, may_send in *. destruct (send_Source command); [by apply wp_ret|].
    apply wp_bind. eapply (organizationMemberPermission_ok Hok); [done|]. intros k. by apply wp_ret. }
  apply Hauth. intros k. apply wp_bind.
  assert (forall n, wp env' (transfer_locked command source target)
    (fun r st => r = CreditsSent (send_DebitEntryID command) (send_Amount command) us IdempotentReplay [] /\ st_base st = dbN)
    (MkTxState dbN dbN n)) as Hstep.
  { intros n. unfold transfer_locked. fold (debit_key command).
    match goal with Hm : received_by _ us db |- _ => apply (received_by_kept _ _ _ _ Hk) in Hm end.
    apply wp_bind. eapply (transferReceivers_ok Hok); [done|]. intros k'.
    apply wp_bind, wp_query_row_ok; [done|]. cbn [st_db]. rewrite He.
    cbn [debit_entry entry_kind entry_amount entry_id new_entry]. rewrite String.eqb_refl, (valid_amount_opp _ Hv), Z.eqb_refl.
    cbn [negb orb]. rewrite ParseTypedID_String. apply wp_bind, wp_commit_ok; [done|]. by apply wp_ret. }
  repeat match goal with Ho : owner_account _ _ db |- _ => apply (owner_account_kept _ _ _ _ Hk) in Ho end.
  split_match; eapply (lock_in_order_ok _ _ _ _ _ _ _ _ _ Hok); try eassumption; try congruence;
    intros locked k' H1 H2; rewrite H1, H2; apply Hstep.
Qed.
End Parsed.
