(* ===== verification/LedgerBehaviour.v ===== *)
(** * What each operation does

    The effect of every first execution on the tables: who may run it, which
    credits move, what becomes of the task, its submissions and its reservations,
    and how work budgets bound it. *)

From S2P Require Import Prelude.
From S2P Require Import Core.
From S2P Require Import OrgRoles.
From S2P Require Import Assets.
From S2P Require Import Events.
From S2P Require Import LedgerValues.
From S2P Require Import Database.
From S2P Require Import Tx.
From S2P Require Import LedgerSpec.
From S2P Require Import Outbox.
From S2P Require Import LedgerHelpers.
From S2P Require Import LedgerStore.
From S2P Require Import HelperSpecs.
From S2P Require Import ReviewSpecs.
From S2P Require Import StoreSpecs.
From S2P Require Import Refinement.
From S2P Require Import LedgerCorrect.
From S2P Require Import LedgerReplay.
Local Open Scope string_scope.
Local Open Scope Z_scope.

(** ** Sums of the ledger *)

Lemma account_sum_cons a e es :
  account_sum a (e :: es) = (if decide (entry_account_id e = a) then entry_amount e else 0) + account_sum a es.
Proof. unfold account_sum, entries_of. rewrite filter_cons. by case_decide. Qed.

#[local] Arguments account_sum : simpl never.
#[local] Arguments held_collectibles : simpl never.
#[local] Arguments supersede_submissions : simpl never.

(** What one account gains. *)
Definition moved (account : string) (amount : Z) (a : string) : Z := if decide (account = a) then amount else 0.

Lemma update_reservations_eq m state db db' :
  update_reservations m state db = inr db' ->
  db' = with_reservations ((fun row => if m row then set_res_state state row else row) <$> task_reservations db) db.
Proof. unfold update_reservations. by destruct (_ && _); intros [= <-]. Qed.

(** Turn the writes of an operation into the tables they leave. *)
Ltac flatten :=
  repeat match goal with
  | Hr : recorded _ _ _ |- _ => apply recorded_with_events in Hr as (? & ? & ->)
  | Hr : update_reservations _ _ _ = inr _ |- _ => apply update_reservations_eq in Hr as ->
  | Hr : charged _ _ _ |- _ => apply charged_frame in Hr as [? ->]
  | Hr : charged_counter _ _ _ _ _ |- _ => apply charged_counter_frame in Hr as [? ->]
  | Hr : insert_task_fund _ _ _ _ = inr _ |- _ => apply insert_task_fund_inr in Hr as (-> & _ & _ & ?)
  | Hr : insert_ledger_entry _ _ = inr _ |- _ => apply insert_ledger_entry_inr in Hr as (-> & _)
  end; cbn in *.

Section Behaviour.
Context `{UUIDLib}.


(** ** Funding *)

(** The reward a task declares once it is funded. *)
Definition funded_reward (kind : string) : string :=
  if String.eqb kind "bundle" || String.eqb kind "collectible" then "bundle" else "credit".

Lemma reward_switched_row t row amount db db' :
  valid_amount amount -> tasks db !! TypedID_String t = Some row -> reward_switched t row amount db db' ->
  exists row', tasks db' !! TypedID_String t = Some row' /\ task_state row' = task_state row /\
    task_created_by_user_id row' = task_created_by_user_id row /\
    task_reward_kind row' = funded_reward (task_reward_kind row) /\
    task_reward_credit_amount row' = Some (CreditAmount_Int64 amount).
Proof.
  intros [Hpos _] Hrow. unfold reward_switched, requireCreditRewardFunding, funded_reward.
  cbn [locked_of locked_rewardKind locked_rewardCreditAmount]. rewrite !switch_cons, switch_nil.
  assert (forall k, update_task_reward k (CreditAmount_Int64 amount) (TypedID_String t) db = inr db' ->
    exists row', tasks db' !! TypedID_String t = Some row' /\ task_state row' = task_state row /\
      task_created_by_user_id row' = task_created_by_user_id row /\ task_reward_kind row' = k /\
      task_reward_credit_amount row' = Some (CreditAmount_Int64 amount)) as Hset.
  { intros k Hu. unfold update_task_reward in Hu. rewrite Hrow in Hu. repeat split_match_in Hu; simplify_eq.
    eexists. cbn. by rewrite lookup_insert_eq. }
  assert (default 0 (task_reward_credit_amount row) = CreditAmount_Int64 amount ->
    task_reward_credit_amount row = Some (CreditAmount_Int64 amount)) as Hdeclared.
  { destruct (task_reward_credit_amount row); cbn; [by intros ->|lia]. }
  assert (forall k, task_reward_kind row = k -> (if negb (default 0 (task_reward_credit_amount row) =? CreditAmount_Int64 amount)
      then False else db' = db) ->
    exists row', tasks db' !! TypedID_String t = Some row' /\ task_state row' = task_state row /\
      task_created_by_user_id row' = task_created_by_user_id row /\ task_reward_kind row' = k /\
      task_reward_credit_amount row' = Some (CreditAmount_Int64 amount)) as Hsame.
  { intros k Hk. split_match; [done|]. apply negb_false_iff, Z.eqb_eq, Hdeclared in E. intros ->. by exists row. }
  destruct (String.eqb_spec (task_reward_kind row) "credit") as [Hk|].
  { rewrite Hk. intros Hu. apply (Hsame _ Hk). revert Hu. by destruct (negb _). }
  destruct (String.eqb_spec (task_reward_kind row) "bundle") as [Hk|].
  { intros Hu. apply (Hsame _ Hk). revert Hu. destruct (negb _); cbn; done. }
  destruct (String.eqb_spec (task_reward_kind row) "collectible") as [Hk|]; cbn; apply Hset.
Qed.

Lemma reward_switched_others t row amount db db' u :
  reward_switched t row amount db db' -> u <> TypedID_String t -> tasks db' !! u = tasks db !! u.
Proof.
  unfold reward_switched. repeat split_match; [by intros ->| |done].
  unfold update_task_reward. repeat split_match; intros [=]; subst; [|done]. intros Hne. by apply lookup_insert_ne, not_eq_sym.
Qed.

(** The escrow a first funding leaves behind. *)
Record escrowed (t : TaskID) (account : string) (amount : CreditAmount) (db db' : DB) : Prop := {
  escrowed_fresh : task_funds db !! TypedID_String t = None;
  escrowed_fund : task_funds db' = <[TypedID_String t := MkFundRow account (CreditAmount_Int64 amount)]> (task_funds db);
  escrowed_covered : CreditAmount_Int64 amount <= account_sum account (ledger_entries db);
  escrowed_sums : forall a, account_sum a (ledger_entries db') =
    account_sum a (ledger_entries db) + moved account (- CreditAmount_Int64 amount) a;
  escrowed_reward : exists row row', tasks db !! TypedID_String t = Some row /\ tasks db' !! TypedID_String t = Some row' /\
    task_state row = "draft" /\ task_state row' = "draft" /\
    task_reward_kind row' = funded_reward (task_reward_kind row) /\
    task_reward_credit_amount row' = Some (CreditAmount_Int64 amount);
  escrowed_tasks : forall u, u <> TypedID_String t -> tasks db' !! u = tasks db !! u;
  escrowed_submissions : submissions db' = submissions db
}.

Lemma funded_effect q db fund ds db' :
  valid_amount (fr_amount q) -> funded q db (TaskFunded fund FirstExecution ds) db' ->
  exists account row, fr_account q account db /\ tasks db !! TypedID_String (fr_task q) = Some row /\ fr_owns q row /\
    escrowed (fr_task q) account (fr_amount q) db db'.
Proof.
  intros Hv Hf. inv Hf. exists account, row. do 3 (split; [done|]).
  match goal with Hr : reward_switched _ _ _ _ _ |- _ =>
    pose proof (reward_switched_frame _ _ _ _ _ Hr) as [ts ->];
    pose proof (fun u => reward_switched_others _ _ _ _ _ u Hr); apply reward_switched_row in Hr as (row' & Hrow' & Hst & _ & Hk & Ha);
    [|done|done] end.
  flatten. split; cbn; try done.
  - intros a. rewrite account_sum_cons. unfold moved. cbn. case_decide; lia.
  - exists row, row'. split; [done|]. split; [done|]. split; [done|]. split; [congruence|]. done.
Qed.

(** A first funding is by the creator of a draft task without a fund; the funder's account
    covers the amount and loses exactly it, the task's fund row holds it, and the task declares it
    as its credit reward (a bundle when it already promises collectibles). *)
Theorem FundTask_escrows env db command fund ds db' :
  valid_amount (fund_Amount command) ->
  run env db (FundTask command) = (TaskFunded fund FirstExecution ds, db') ->
  exists account row, user_account (TypedID_String (fund_FunderUserID command)) account db /\
    tasks db !! TypedID_String (fund_TaskID command) = Some row /\
    task_created_by_user_id row = TypedID_String (fund_FunderUserID command) /\
    escrowed (fund_TaskID command) account (fund_Amount command) db db'.
Proof.
  intros Hv Hrun. pose proof (FundTask_spec (env:=env) db command Hv) as Hf. rewrite Hrun in Hf. by apply funded_effect in Hf.
Qed.

(** A first organization funding is of a draft task of that organization without a fund; the
    organization's account covers the amount and loses exactly it, and the task's fund row and
    declared reward hold it. *)
Theorem FundTaskFromOrganization_escrows env db command fund ds db' :
  valid_amount (orgfund_Amount command) ->
  run env db (FundTaskFromOrganization command) = (TaskFunded fund FirstExecution ds, db') ->
  exists account row, organization_account (TypedID_String (orgfund_OrganizationID command)) account db /\
    tasks db !! TypedID_String (orgfund_TaskID command) = Some row /\
    default "" (task_organization_id row) = TypedID_String (orgfund_OrganizationID command) /\
    escrowed (orgfund_TaskID command) account (orgfund_Amount command) db db'.
Proof.
  intros Hv Hrun. pose proof (FundTaskFromOrganization_spec (env:=env) db command Hv) as Hf. rewrite Hrun in Hf.
  by apply funded_effect in Hf.
Qed.

(** ** Acceptance *)

(** The funds once a review has paid: settled when the review closes the task or
    the fund is spent, else reduced. *)
Definition funds_after (command : reviewFundCommand) (outcome : PayoutOutcome) (funds : gmap string FundRow) : gmap string FundRow :=
  let t := TypedID_String (rf_taskID command) in
  match outcome, funds !! t with
  | CreditPayout _ amount, Some fund =>
      let remaining := fund_credit_amount fund - CreditAmount_Int64 amount in
      if rf_closeTask command || (remaining =? 0) then delete t funds
      else <[t := MkFundRow (fund_account_id fund) remaining]> funds
  | _, _ => funds
  end.

Lemma paid_frame command db outcome db' :
  paid command db outcome db' ->
  exists es, db' = with_funds (funds_after command outcome (task_funds db)) (with_entries es db).
Proof.
  intros [|fund account worker amount now db1 db2 Hfund _ _ _ _ Hrange Hins Hset].
  { exists (ledger_entries db). by destruct db. }
  apply insert_ledger_entry_inr in Hins as [-> _]. unfold funds_after. rewrite Hfund. cbn [CreditAmount_Int64].
  destruct Hset as [now' db3 Hclose _ Hins3|Hzero|Hclose Hpos].
  - apply insert_ledger_entry_inr in Hins3 as [-> _]. rewrite Hclose. by eexists.
  - rewrite Hzero, Z.eqb_refl, orb_true_r. by eexists.
  - rewrite Hclose, (proj2 (Z.eqb_neq _ _)) by lia. by eexists.
Qed.

Lemma tipped_frame t r raw d c k sel db tip db' :
  tipped t r raw d c k sel db tip db' -> exists es, db' = with_entries es db.
Proof.
  intros [|? ? ? ? ? ? db1 db2 _ _ _ _ _ _ H1 H2]; [exists (ledger_entries db); by destruct db|].
  apply insert_ledger_entry_inr in H1 as [-> _]. apply insert_ledger_entry_inr in H2 as [-> _]. by eexists.
Qed.

Lemma foldl_alter_lookup (f : CollectibleRow -> CollectibleRow) ids (m : gmap string CollectibleRow) c :
  NoDup ids -> foldl (fun m id => alter f id m) m ids !! c = if decide (c ∈ ids) then f <$> m !! c else m !! c.
Proof.
  revert m. induction ids as [|id ids IH]; intros m Hnd; cbn.
  { by rewrite decide_False by apply not_elem_of_nil. }
  apply list.NoDup_cons in Hnd as [Hid Hnd]. rewrite IH by done.
  destruct (decide (c = id)) as [->|Hne].
  - rewrite decide_False, decide_True by (done || by left). by rewrite lookup_alter_eq.
  - rewrite lookup_alter_ne by done. destruct (decide (c ∈ ids)).
    + by rewrite decide_True by (by right).
    + rewrite decide_False; [done|]. by intros [|]%elem_of_cons.
Qed.

Lemma held_collectibles_elem t c db :
  c ∈ held_collectibles t db <-> task_fund_collectibles db !! c = Some t.
Proof.
  unfold held_collectibles. rewrite merge_sort_Permutation, list_elem_of_fmap. split.
  - intros ([c' u] & -> & [Heq Hin]%list_elem_of_filter). cbn in *. subst. by apply elem_of_map_to_list.
  - intros Hl. exists (c, t). split; [done|]. apply list_elem_of_filter. split; [done|]. by apply elem_of_map_to_list.
Qed.

Lemma held_collectibles_NoDup t db : NoDup (held_collectibles t db).
Proof.
  unfold held_collectibles. rewrite merge_sort_Permutation.
  apply NoDup_fmap_fst; [|apply list.NoDup_filter, NoDup_map_to_list].
  intros c u v [_ Hu]%list_elem_of_filter [_ Hv]%list_elem_of_filter.
  apply elem_of_map_to_list in Hu, Hv. congruence.
Qed.

Lemma held_collectibles_released f t db : held_collectibles (TypedID_String t) (release_held f t db) = [].
Proof.
  unfold held_collectibles, release_held. cbn.
  assert (filter (fun kv : string * string => kv.2 = TypedID_String t)
    (map_to_list (filter (fun kv : string * string => kv.2 <> TypedID_String t) (task_fund_collectibles db))) = []) as ->; [|done].
  apply elem_of_nil_inv. intros [c u] [Heq Hin]%list_elem_of_filter.
  apply elem_of_map_to_list, map_lookup_filter_Some in Hin as [_ Hne]. done.
Qed.

(** A released collectible went through [f]; the others are untouched. *)
Lemma release_held_lookup f t db c :
  collectibles (release_held f t db) !! c =
  if decide (task_fund_collectibles db !! c = Some (TypedID_String t)) then f <$> collectibles db !! c else collectibles db !! c.
Proof.
  unfold release_held. cbn. rewrite foldl_alter_lookup by apply held_collectibles_NoDup.
  pose proof (held_collectibles_elem (TypedID_String t) c db). do 2 case_decide; tauto.
Qed.

(** A collectible after the tip: the one selected, if any, is the worker's. *)
Definition tipped_with (selection : CollectibleTipSelection) (worker : UserID) (c : string) (row : CollectibleRow) : CollectibleRow :=
  match selection with
  | NoCollectibleTipSelection => row
  | CollectibleTipSelected id => if String.eqb c (TypedID_String id) then set_col_owner (TypedID_String worker) row else row
  end.

(** Everything an acceptance does to a task, its submissions and the collectibles. *)
Record acceptance (command : AcceptStoreCommand) (payout : PayoutOutcome) (db db' : DB) : Prop := {
  acceptance_reviewer : exists task, tasks db !! TypedID_String (accept_TaskID command) = Some task /\
    task_state task = "open" /\ may_review (accept_Reviewer command) task db;
  acceptance_closed : exists task, tasks db' !! TypedID_String (accept_TaskID command) = Some task /\ task_state task = "closed";
  acceptance_tasks : forall t, t <> TypedID_String (accept_TaskID command) -> tasks db' !! t = tasks db !! t;
  acceptance_accepted : exists row, submissions db' !! submitted_for command = Some row /\
    sub_task_id row = TypedID_String (accept_TaskID command) /\ sub_state row = "accepted" /\ sub_accepted_idempotency_key row = Some (accept_key command);
  acceptance_others : forall s, s <> submitted_for command -> submissions db' !! s =
    (fun row => if bool_decide (sub_task_id row = TypedID_String (accept_TaskID command) /\ sub_state row = "submitted")
                then set_sub_state "superseded" row else row) <$> submissions db !! s;
  acceptance_funds : task_funds db' = funds_after (accept_fund command "") (credit_part payout) (task_funds db);
  acceptance_released : held_collectibles (TypedID_String (accept_TaskID command)) db' = [];
  acceptance_awards : exists row worker, submissions db !! submitted_for command = Some row /\
    ParseUserID (worker_of row) = TypedIDCreated worker /\
    forall c, collectibles db' !! c = tipped_with (accept_CollectibleTip command) worker c <$>
      (if decide (task_fund_collectibles db !! c = Some (TypedID_String (accept_TaskID command)))
       then award_to (worker_of row) <$> collectibles db !! c else collectibles db !! c)
}.

Lemma released_effect f t db db' :
  (held_collectibles (TypedID_String t) db = [] /\ db' = db \/
   held_collectibles (TypedID_String t) db <> [] /\ db' = release_held f t db) ->
  held_collectibles (TypedID_String t) db' = [] /\
  (forall c, collectibles db' !! c = if decide (task_fund_collectibles db !! c = Some (TypedID_String t))
     then f <$> collectibles db !! c else collectibles db !! c) /\
  exists cs fs, db' = with_fund_collectibles fs (with_collectibles cs db).
Proof.
  intros [[Hnone ->]|[_ ->]].
  - split; [done|]. split; [|exists (collectibles db), (task_fund_collectibles db); by destruct db].
    intros c. case_decide as Hc; [|done]. apply held_collectibles_elem in Hc. rewrite Hnone in Hc. by apply not_elem_of_nil in Hc.
  - split; [apply held_collectibles_released|]. split; [|by eexists _, _]. intros c. apply release_held_lookup.
Qed.

Lemma collectibles_paid_effect t raw db outcome db' :
  collectibles_paid t raw db outcome db' ->
  held_collectibles (TypedID_String t) db' = [] /\
  (forall c, collectibles db' !! c = if decide (task_fund_collectibles db !! c = Some (TypedID_String t))
     then award_to raw <$> collectibles db !! c else collectibles db !! c) /\
  exists cs fs, db' = with_fund_collectibles fs (with_collectibles cs db).
Proof. intros Hp. apply released_effect. inv Hp; [by left|by right]. Qed.

Lemma collectible_tipped_frame r raw sel db o db' :
  collectible_tipped r raw sel db o db' -> exists cs, db' = with_collectibles cs db.
Proof.
  intros [].
  - exists (collectibles db). by destruct db.
  - exists (collectibles db). by destruct db.
  - by eexists.
Qed.

Lemma collectible_tipped_rows r raw worker sel db o db' :
  collectible_tipped r raw sel db o db' -> ParseUserID raw = TypedIDCreated worker ->
  forall c, collectibles db' !! c = tipped_with sel worker c <$> collectibles db !! c.
Proof.
  intros [->|id w row -> Hw Hrow Hk Ho|id w -> Hmoved] Hraw c; unfold tipped_with.
  - by destruct (collectibles db !! c).
  - rewrite Hw in Hraw. injection Hraw as ->. destruct (String.eqb_spec c (TypedID_String id)) as [->|_].
    + rewrite Hrow. destruct row. cbn in *. by subst.
    + by destruct (collectibles db !! c).
  - assert (w = worker) as -> by (destruct Hmoved; congruence). destruct (String.eqb_spec c (TypedID_String id)) as [->|Hne].
    + cbn. by rewrite lookup_alter_eq.
    + cbn. rewrite lookup_alter_ne by done. by destruct (collectibles db !! c).
Qed.


Lemma supersedes_frame t s ds db db' :
  supersedes t s ds db db' -> exists ss, db' = with_submissions ss db /\
    forall i, i <> TypedID_String s -> ss !! i =
      (fun row => if bool_decide (sub_task_id row = TypedID_String t /\ sub_state row = "submitted")
                  then set_sub_state "superseded" row else row) <$> submissions db !! i.
Proof.
  intros [-> _]. eexists. split; [done|]. intros i Hne. rewrite map_lookup_imap.
  destruct (submissions db !! i) as [row|]; [|done].
  unfold mbind, option_bind, fmap, option_fmap, option_map, competing. cbn.
  f_equal. case_decide as Hc; case_bool_decide as Hb; tauto.
Qed.

Definition set_task_state (state : string) (row : TaskRow) : TaskRow :=
  MkTaskRow state (task_created_by_user_id row) (task_organization_id row) (task_reward_kind row)
    (task_reward_credit_amount row).

Definition set_sub_accepted (key : string) (row : SubmissionRow) : SubmissionRow :=
  MkSubmissionRow (sub_task_id row) (sub_user_id row) "accepted" (Some key) (sub_changes_idempotency_key row)
    (sub_review_idempotency_key row) (sub_review_note row) (sub_reviewed_by_user_id row).

Lemma update_task_state_rows t state row db db' :
  tasks db !! t = Some row -> update_task_state t state db = inr db' ->
  db' = with_tasks (<[t := set_task_state state row]> (tasks db)) db.
Proof. intros Hrow. unfold update_task_state. rewrite Hrow. split_match; by intros [= <-]. Qed.

Lemma update_submission_accepted_rows s key row db db' :
  submissions db !! s = Some row -> update_submission_accepted s key db = inr db' ->
  db' = with_submissions (<[s := set_sub_accepted key row]> (submissions db)) db.
Proof. intros Hrow. unfold update_submission_accepted. rewrite Hrow. split_match; by intros [= <-]. Qed.

Lemma accepted_effect command db t s w payout tip ds db' :
  accepted command db (SubmissionAccepted t s w payout tip FirstExecution ds) db' -> acceptance command payout db db'.
Proof.
  intros Ha. pose proof (accepted_row _ _ _ _ _ _ _ _ _ Ha) as (-> & -> & _ & row' & _ & _ & _ & Hrow' & Hst' & Htask' & Hkey' & _).
  inv Ha.
  match goal with Hr : reviewed _ _ _ _ _ |- _ => destruct Hr as (Hrow & Htask & raw & Hraw & Hworker) end.
  assert (ParseUserID (worker_of row) = TypedIDCreated w) as Hw by by (unfold worker_of; rewrite Hraw).
  match goal with Hp : paid _ _ _ _, Hc : collectibles_paid _ _ _ _ _ |- _ =>
    pose proof (credit_part_combine _ _ _ _ _ _ _ _ _ Hp Hc) as Hcredit end.
  match goal with Hr : supersedes _ _ _ _ _ |- _ => apply supersedes_frame in Hr as (ss & -> & Hss) end.
  match goal with Hr : update_submission_accepted _ _ _ = inr _ |- _ => apply (update_submission_accepted_rows _ _ _ _ _ Hrow) in Hr as -> end.
  match goal with Ht : tasks db !! _ = Some _, Hr : update_task_state _ _ _ = inr _ |- _ =>
    eapply update_task_state_rows in Hr; [|exact Ht]; subst end.
  match goal with Hr : paid _ _ _ _ |- _ => apply paid_frame in Hr as [es ->] end.
  match goal with Hr : collectibles_paid _ _ _ _ _ |- _ => apply collectibles_paid_effect in Hr as (Hnone & Hcol & cs & fs & ->) end.
  match goal with Hr : tipped _ _ _ _ _ _ _ _ _ _ |- _ => apply tipped_frame in Hr as [es' ->] end.
  match goal with Hr : collectible_tipped _ _ _ _ _ _ |- _ => 
    pose proof (collectible_tipped_rows _ _ w _ _ _ _ Hr) as Hctip; apply collectible_tipped_frame in Hr as [cs' ->] end.
  flatten. split; cbn.
  - by exists task.
  - exists (set_task_state "closed" task). by rewrite lookup_insert_eq.
  - intros t Hne. by rewrite lookup_insert_ne.
  - by exists row'.
  - intros s Hne. rewrite Hss by done. cbn. by rewrite lookup_insert_ne by (by apply not_eq_sym).
  - by rewrite Hcredit.
  - exact Hnone.
  - exists row, w. split; [done|]. split; [exact Hw|]. intros c. rewrite (Hctip Hw). cbn. by rewrite <- Hcol.
Qed.

(** C8: A first acceptance is by someone entitled to review the open task; it closes the task,
    accepts the one submission under the command's key, leaves every other submission as it was
    unless it was still pending (then superseded), settles the escrow by what was paid and releases
    every collectible held for the task; those collectibles become the worker's, so does the one
    selected as a tip, if any, and every other collectible keeps its row. *)
Theorem AcceptSubmission_settles env db command t s w payout tip ds db' :
  ledger_ok db -> valid_tip (accept_TipSelection command) ->
  run env db (AcceptSubmission command) = (SubmissionAccepted t s w payout tip FirstExecution ds, db') ->
  acceptance command payout db db'.
Proof.
  intros Hl Hv Hrun. pose proof (AcceptSubmission_spec (env:=env) db command (ledger_funds _ Hl) Hv) as Ha.
  rewrite Hrun in Ha. by eapply accepted_effect.
Qed.

(** ** Rejection *)

Definition banned_in (command : RejectStoreCommand) (worker : string) (db db' : DB) : Prop :=
  match reject_BanSelection command with
  | NoBanSelection => task_implementor_bans db' = task_implementor_bans db
  | BanImplementorSelection =>
      is_Some (task_implementor_bans db' !! (TypedID_String (reject_TaskID command), "user", worker))
  end.

Lemma banned_frame command raw db db' :
  banned command raw db db' -> banned_in command raw db db' /\ exists bs, db' = with_bans bs db.
Proof.
  unfold banned, banned_in. destruct (reject_BanSelection command).
  { intros ->. split; [done|]. exists (task_implementor_bans db). by destruct db. }
  intros (by_user & _ & Hb). unfold insert_ban in Hb. split_match_in Hb.
  - injection Hb as <-. split; [by rewrite E|]. exists (task_implementor_bans db). by destruct db.
  - repeat split_match_in Hb; simplify_eq. split; [cbn; by rewrite lookup_insert_eq|by eexists].
Qed.

Record rejection (command : RejectStoreCommand) (payout : PayoutOutcome) (db db' : DB) : Prop := {
  rejection_reviewer : exists task, tasks db !! TypedID_String (reject_TaskID command) = Some task /\
    task_state task = "open" /\ may_review (reject_Reviewer command) task db;
  rejection_tasks : tasks db' = tasks db;
  rejection_submission : exists row row', submissions db !! TypedID_String (reject_SubmissionID command) = Some row /\
    sub_state row = "submitted" /\
    submissions db' = <[TypedID_String (reject_SubmissionID command) := row']> (submissions db) /\
    sub_state row' = "rejected" /\ sub_review_note row' = ReviewNote_String (reject_ReviewNote command) /\
    sub_review_idempotency_key row' = Some (IdempotencyKey_String (reject_IdempotencyKey command)) /\
    task_reservations db' = (fun r => if worker_reservation (TypedID_String (reject_TaskID command)) (worker_of row)
        ["active"; "submitted"] r then set_res_state "cancelled_by_requester" r else r) <$> task_reservations db /\
    banned_in command (worker_of row) db db';
  rejection_funds : task_funds db' = funds_after (reject_fund command "") payout (task_funds db);
  rejection_collectibles : task_fund_collectibles db' = task_fund_collectibles db /\ collectibles db' = collectibles db
}.

Lemma rejected_effect command db t s w payout tip ds db' :
  rejected command db (SubmissionRejected t s w payout tip FirstExecution ds) db' -> rejection command payout db db'.
Proof.
  intros Hr. inv Hr.
  match goal with Hr : reviewed _ _ _ _ _ |- _ => destruct Hr as (Hrow & _) end.
  match goal with Hr : paid _ _ _ _ |- _ => apply paid_frame in Hr as [es ->] end.
  match goal with Hr : tipped _ _ _ _ _ _ _ _ _ _ |- _ => apply tipped_frame in Hr as [es' ->] end.
  match goal with Hr : banned _ _ _ _ |- _ => apply banned_frame in Hr as [Hban [bs ->]] end.
  match goal with Hr : charged _ _ _ |- _ => apply charged_frame in Hr as [cs ->] end.
  match goal with Hr : update_submission_rejected _ _ _ _ _ = inr _ |- _ =>
    unfold update_submission_rejected in Hr; cbn in Hr; rewrite Hrow in Hr; split_match_in Hr; [done|]; injection Hr as <- end.
  flatten. split; cbn; try done.
  - by exists task.
  - do 2 eexists. unfold banned_in in *. cbn in Hban |- *. repeat (split; [done|]). done.
Qed.

(** A first rejection is by someone entitled to review the open task; it turns the submitted
    submission to rejected with the review note, cancels the worker's reservation, bans the worker
    when asked to, pays at most part of the escrow, and leaves tasks and collectibles alone. *)
Theorem RejectSubmission_effect env db command t s w payout tip ds db' :
  ledger_ok db -> valid_tip (reject_TipSelection command) ->
  run env db (RejectSubmission command) = (SubmissionRejected t s w payout tip FirstExecution ds, db') ->
  rejection command payout db db'.
Proof.
  intros Hl Hv Hrun. pose proof (RejectSubmission_spec (env:=env) db command (ledger_funds _ Hl) Hv) as Hr.
  rewrite Hrun in Hr. by eapply rejected_effect.
Qed.

(** ** Refunds *)

Record cancellation (command : RefundStoreCommand) (value : TaskFund) (db db' : DB) : Prop := {
  cancellation_task : exists row, tasks db !! TypedID_String (refund_TaskID command) = Some row /\
    may_refund (refund_RequesterUserID command) (refund_TaskID command) row db /\ not_awarded row /\
    tasks db' = <[TypedID_String (refund_TaskID command) := set_task_state "cancelled" row]> (tasks db);
  cancellation_fund : exists fund, task_funds db !! TypedID_String (refund_TaskID command) = Some fund /\
    TaskFund_CreditAmount value = MkCreditAmount (fund_credit_amount fund) /\
    task_funds db' = delete (TypedID_String (refund_TaskID command)) (task_funds db) /\
    (forall a, account_sum a (ledger_entries db') =
       account_sum a (ledger_entries db) + moved (fund_account_id fund) (fund_credit_amount fund) a);
  cancellation_reservations : task_reservations db' =
    (fun r => if non_terminal (TypedID_String (refund_TaskID command)) r
              then set_res_state "cancelled_by_requester" r else r) <$> task_reservations db;
  cancellation_released : held_collectibles (TypedID_String (refund_TaskID command)) db' = [];
  cancellation_collectibles : forall c, collectibles db' !! c =
    if decide (task_fund_collectibles db !! c = Some (TypedID_String (refund_TaskID command)))
    then set_col_state "minted" <$> collectibles db !! c else collectibles db !! c;
  cancellation_submissions : submissions db' = submissions db
}.

Lemma buildFund_amount t account amount value :
  buildFund t account amount = fundBuilt value -> TaskFund_CreditAmount value = MkCreditAmount amount.
Proof. unfold buildFund, NewCreditAmount. repeat split_match; by intros [= <-]. Qed.

Lemma refunded_effect command db value ds db' :
  refunded command db (TaskRefunded value FirstExecution ds) db' -> cancellation command value db db'.
Proof.
  intros Hr. inv Hr.
  match goal with Hb : buildFund _ _ _ = _ |- _ => apply buildFund_amount in Hb end.
  match goal with Hd : _ \/ _ |- _ => apply released_effect in Hd as (Hnone & Hcol & cs & fs & ->) end.
  match goal with Hi : insert_ledger_entry _ _ = _ |- _ => apply insert_ledger_entry_inr in Hi as [-> _] end.
  match goal with Ht : tasks db !! _ = Some _, Hu : update_task_state _ _ _ = inr _ |- _ =>
    eapply update_task_state_rows in Hu; [|exact Ht]; subst end.
  flatten. split; cbn; try done.
  - by exists row.
  - exists fund. do 3 (split; [done|]). intros a. rewrite account_sum_cons. unfold moved. cbn. case_decide; lia.
Qed.

(** A first refund is for the task's creator or active implementor, on a draft or open task; it
    cancels the task, returns the whole fund to the account it came from, cancels the live
    reservations, releases the held collectibles to minted, and leaves submissions alone. *)
Theorem RefundTask_effect env db command value ds db' :
  run env db (RefundTask command) = (TaskRefunded value FirstExecution ds, db') -> cancellation command value db db'.
Proof.
  intros Hrun. pose proof (RefundTask_spec (env:=env) db command) as Hr. rewrite Hrun in Hr. by eapply refunded_effect.
Qed.

(** ** Requested changes *)

Record change_request (command : RequestChangesStoreCommand) (db db' : DB) : Prop := {
  change_reviewer : exists task, tasks db !! TypedID_String (changes_TaskID command) = Some task /\
    task_state task = "open" /\ may_review (changes_Reviewer command) task db;
  change_submission : exists row row', submissions db !! TypedID_String (changes_SubmissionID command) = Some row /\
    sub_state row = "submitted" /\
    submissions db' = <[TypedID_String (changes_SubmissionID command) := row']> (submissions db) /\
    sub_state row' = "changes_requested" /\ sub_review_note row' = ReviewNote_String (changes_ReviewNote command) /\
    sub_changes_idempotency_key row' = Some (changes_key command) /\
    task_reservations db' = (fun r => if worker_reservation (TypedID_String (changes_TaskID command)) (worker_of row)
        ["submitted"] r then set_res_state "active" r else r) <$> task_reservations db;
  change_one_active : one_active (task_reservations db');
  change_rest : tasks db' = tasks db /\ ledger_entries db' = ledger_entries db /\ task_funds db' = task_funds db
}.

Lemma update_reservations_one_active m db db' :
  update_reservations m "active" db = inr db' -> one_active (task_reservations db').
Proof.
  unfold update_reservations. rewrite String.eqb_refl. cbn [andb]. destruct (negb _) eqn:E; [done|]. intros [= <-].
  by apply negb_false_iff, bool_decide_eq_true in E.
Qed.

Lemma changes_effect command db t s w note ds db' :
  changes_requested command db (ChangesRequested t s w note FirstExecution ds) db' -> change_request command db db'.
Proof.
  intros Hr. inv Hr.
  match goal with Hr : reviewed _ _ _ _ _ |- _ => destruct Hr as (Hrow & _) end.
  match goal with Hr : update_submission_changes_requested _ _ _ _ _ = inr _ |- _ =>
    unfold update_submission_changes_requested in Hr; rewrite Hrow in Hr; split_match_in Hr; [done|]; injection Hr as <- end.
  match goal with Hr : update_reservations _ _ _ = inr _ |- _ => pose proof (update_reservations_one_active _ _ _ Hr) end.
  flatten. split; cbn; try done.
  - by exists task.
  - do 2 eexists. repeat (split; [done|]). done.
Qed.

(** A first request for changes is by someone entitled to review the open task; it turns the
    submitted submission to changes_requested with the note, makes the worker's reservation active
    again without a second active reservation on the task, and touches no task, entry or fund. *)
Theorem RequestChanges_effect env db command t s w note ds db' :
  run env db (RequestChanges command) = (ChangesRequested t s w note FirstExecution ds, db') -> change_request command db db'.
Proof.
  intros Hrun. pose proof (RequestChanges_spec (env:=env) db command) as Hr. rewrite Hrun in Hr. by eapply changes_effect.
Qed.

(** ** Collectible tips *)

(** Who may tip a collectible to the worker of a review: it is a reward of the
    task, just awarded; or the worker's already; or the reviewer's to give. *)
Definition tip_entitled (command : AcceptStoreCommand) (id : CollectibleID) (worker : UserID) (db : DB) : Prop :=
  exists row, collectibles db !! TypedID_String id = Some row /\
    (task_fund_collectibles db !! TypedID_String id = Some (TypedID_String (accept_TaskID command)) \/
     (col_owner_kind row = "user" /\ col_owner_user_id row = TypedID_String worker) \/
     exists raw, collectible_moved (accept_Reviewer command) raw id worker db).

Definition owned_by_user (user : UserID) (id : CollectibleID) (db : DB) : Prop :=
  exists row, collectibles db !! TypedID_String id = Some row /\ col_owner_kind row = "user" /\
    col_owner_user_id row = TypedID_String user.

Lemma collectible_tipped_effect reviewer raw id worker db outcome db' :
  ParseUserID raw = TypedIDCreated worker -> collectible_tipped reviewer raw (CollectibleTipSelected id) db outcome db' ->
  (owned_by_user worker id db \/ collectible_moved reviewer raw id worker db) /\ owned_by_user worker id db' /\
  forall c, c <> TypedID_String id -> collectibles db' !! c = collectibles db !! c.
Proof.
  intros Hw Ht. inversion Ht as [|? w row Hsel Hw' Hrow Hkind Howner|? w Hsel Hm]; simplify_eq.
  - assert (owned_by_user w id0 db') as Ho by (by exists row). assert (w = worker) as -> by congruence. auto.
  - assert (w = worker) as -> by (pose proof (moved_worker _ _ _ _ _ Hm); congruence).
    split; [by right|]. destruct (moved_row _ _ _ _ _ Hm) as (_ & row & _ & _ & Hrow & Hkind & _).
    split; [|intros c Hne; cbn; by rewrite lookup_alter_ne].
    exists (set_col_owner (TypedID_String worker) row). cbn. by rewrite lookup_alter_eq, Hrow.
Qed.

(** A collectible that was no reward of the task moves as it would have before the review. *)
Lemma collectible_moved_before reviewer raw id worker db db6 :
  collectibles db6 !! TypedID_String id = collectibles db !! TypedID_String id ->
  organization_memberships db6 = organization_memberships db ->
  collectible_moved reviewer raw id worker db6 -> collectible_moved reviewer raw id worker db.
Proof.
  intros Hcol Hmem [Hw (requester & row & policy & Hr & Hrow & Hrest)]. split; [done|].
  exists requester, row, policy. split; [done|]. rewrite <- Hcol. split; [done|]. unfold is_active_member in *. by rewrite <- Hmem.
Qed.

(** A collectible tipped by a first acceptance was, before the review, a reward of the task, the
    worker's already, or the reviewing user's own minted collectible under a policy that allows the
    tip (within its organization, both being active members); afterwards the worker owns it, and no
    collectible that is neither the tip nor a reward of the task changes. *)
Theorem collectible_tip_is_entitled env db command t s w payout tip ds db' id :
  ledger_ok db -> valid_tip (accept_TipSelection command) -> accept_CollectibleTip command = CollectibleTipSelected id ->
  run env db (AcceptSubmission command) = (SubmissionAccepted t s w payout tip FirstExecution ds, db') ->
  tip_entitled command id w db /\ owned_by_user w id db' /\
  forall c, c <> TypedID_String id -> task_fund_collectibles db !! c <> Some (TypedID_String (accept_TaskID command)) ->
    collectibles db' !! c = collectibles db !! c.
Proof.
  intros Hl Hv Hsel Hrun. pose proof (AcceptSubmission_spec (env:=env) db command (ledger_funds _ Hl) Hv) as Ha.
  rewrite Hrun in Ha. cbn [fst snd] in Ha. inv Ha.
  match goal with Hr : reviewed _ _ _ _ _ |- _ => destruct Hr as (_ & _ & Hparse) end.
  match goal with Hr : supersedes _ _ _ _ _ |- _ => apply supersedes_frame in Hr as (ss & -> & _) end.
  match goal with Hr : update_submission_accepted _ _ _ = inr _ |- _ => apply update_submission_accepted_inr in Hr as [sb ->] end.
  match goal with Hr : update_task_state _ _ _ = inr _ |- _ => apply update_task_state_inr in Hr as [ts ->] end.
  match goal with Hr : paid _ _ _ _ |- _ => apply paid_frame in Hr as [es ->] end.
  match goal with Hr : collectibles_paid _ _ _ _ _ |- _ => apply collectibles_paid_effect in Hr as (_ & Hcol & cs & fs & ->) end.
  match goal with Hr : charged _ _ _ |- _ => apply charged_frame in Hr as [? ->] end.
  match goal with Hr : tipped _ _ _ _ _ _ _ _ _ _ |- _ => apply tipped_frame in Hr as [es' ->] end.
  match goal with Hr : recorded _ _ _ |- _ => apply recorded_with_events in Hr as (? & ? & ->) end.
  destruct Hparse as (raw & Hraw & Hparse). assert (worker_of row = raw) as Hwo by (unfold worker_of; by rewrite Hraw).
  match goal with Hr : collectible_tipped _ _ _ _ _ _ |- _ => rewrite Hsel, Hwo in Hr;
    apply (collectible_tipped_effect _ _ _ _ _ _ _ Hparse) in Hr as (Hwho & Hnow & Hothers) end.
  cbn in Hothers, Hcol. split; [|split; [done|]].
  - clear Hnow Hothers Hrun. unfold tip_entitled. pose proof (Hcol (TypedID_String id)) as Hid.
    destruct (decide _) as [Hf|Hf] in Hid.
    + destruct Hwho as [(r & Hr & _)|Hm].
      2: destruct (moved_row _ _ _ _ _ Hm) as (_ & r & _ & _ & Hr & _).
      all: cbn in Hr; rewrite Hr in Hid; apply eq_sym, fmap_Some in Hid as (r0 & Hr0 & _); exists r0; auto.
    + destruct Hwho as [(r & Hr & Hk & Ho)|Hm].
      * exists r. cbn in Hr. rewrite Hr in Hid. auto.
      * apply (collectible_moved_before _ _ _ _ db) in Hm; [|done|done].
        destruct (moved_row _ _ _ _ _ Hm) as (_ & r & _ & _ & Hr & _). exists r. eauto.
  - intros c Hne Hf. cbn. rewrite (Hothers c Hne), Hcol. by rewrite decide_False.
Qed.

(** ** Transfers and grants *)

Record transferred (source target : transferAccountRef) (amount : CreditAmount) (db db' : DB) : Prop := {
  transferred_accounts : exists from to, owner_account source from db /\ owner_account target to db /\
    CreditAmount_Int64 amount <= account_sum from (ledger_entries db) /\
    forall a, account_sum a (ledger_entries db') =
      account_sum a (ledger_entries db) + moved from (- CreditAmount_Int64 amount) a + moved to (CreditAmount_Int64 amount) a;
  transferred_parties : ref_key source <> ref_key target;
  transferred_rest : tasks db' = tasks db /\ task_funds db' = task_funds db /\ submissions db' = submissions db /\
    collectibles db' = collectibles db
}.

Lemma sent_effect command db id amount us ds db' :
  sent command db (CreditsSent id amount us FirstExecution ds) db' ->
  transferred (send_source command) (send_target command) (send_Amount command) db db' /\ may_send command db.
Proof.
  intros Hs. inv Hs. split; [|done].
  flatten. split; cbn; try done.
  do 2 eexists. do 3 (split; [done|]). intros a. rewrite !account_sum_cons. unfold moved. cbn. do 2 case_decide; lia.
Qed.

(** A first grant adds exactly its amount to the target's account and to no other, is reported
    to the granted user or to the organization's owners, admins and billing members, and touches no
    task, fund or submission. *)
Theorem GrantCredits_issues env db command id amount us ds db' :
  run env db (GrantCredits command) = (CreditsGranted id amount us FirstExecution ds, db') ->
  exists account, grant_account (grant_Target command) account db /\ granted_to (grant_Target command) us db /\
    (forall a, account_sum a (ledger_entries db') =
       account_sum a (ledger_entries db) + moved account (CreditAmount_Int64 (grant_Amount command)) a) /\
    tasks db' = tasks db /\ task_funds db' = task_funds db /\ submissions db' = submissions db.
Proof.
  intros Hrun. pose proof (GrantCredits_spec (env:=env) db command) as Hg. rewrite Hrun in Hg. cbn [fst snd] in Hg. inv Hg.
  exists account. split; [done|]. flatten. split.
  - match goal with Hg : granted_to _ _ _ |- _ => unfold granted_to in *; by destruct (grant_Target command) end.
  - cbn. split; [|done]. intros a. rewrite account_sum_cons. unfold moved. cbn. case_decide; lia.
Qed.
End Behaviour.
