(* ===== verification/LedgerInvariants.v ===== *)
(** * Invariants over the life of the store

    Properties of any run of commands: at most one accepted submission per task,
    no escrow left on a finished task, the daily ceiling on peer transfers; and
    what a retry can meet. *)

From S2P Require Import Prelude.
From S2P Require Import Core.
From S2P Require Import OrgRoles.
From S2P Require Import Assets.
From S2P Require Import Events.
From S2P Require Import LedgerValues.
From S2P Require Import Database.
From S2P Require Import Tx.
From S2P Require Import LedgerSpec.
From S2P Require Import Outbox.
From S2P Require Import LedgerHelpers.
From S2P Require Import LedgerStore.
From S2P Require Import HelperSpecs.
From S2P Require Import ReviewSpecs.
From S2P Require Import StoreSpecs.
From S2P Require Import Refinement.
From S2P Require Import LedgerCorrect.
From S2P Require Import LedgerReplay.
From S2P Require Import LedgerBehaviour.
Local Open Scope string_scope.
Local Open Scope Z_scope.

Section Invariants.
Context `{UUIDLib}.

(** ** Reading a run *)

(** A property of the database that every performed command keeps holds after any run. *)
Lemma execute_invariant (P : DB -> Prop) (ok : Command -> Prop) :
  (forall c db r db', ok c -> valid_command c -> ledger_ok db -> performed c db r db' -> P db -> P db') ->
  forall schedule db, Forall (fun ec => ok ec.2 /\ valid_command ec.2) schedule -> ledger_ok db -> P db ->
    P (snd (execute schedule db)).
Proof.
  intros Hstep schedule. induction schedule as [|[env c] schedule IH]; intros db Hv Hok HP; cbn; [done|].
  apply Forall_cons_1 in Hv as [[Hc Hvc] Hv]. pose proof (perform_spec env db c (ledger_funds _ Hok) Hvc) as Hp.
  destruct (run env db (perform c)) as [r db1]. cbn in *.
  assert (ledger_ok db1) as Hok1 by (by apply (performed_ledger_ok c db r db1)).
  assert (P db1) as HP1 by (by apply (Hstep c db r db1)).
  specialize (IH db1 Hv Hok1 HP1). by destruct (execute schedule db1).
Qed.

(** ** Escrow *)

Definition live (state : string) : Prop := state = "draft" \/ state = "open".

(** Only draft and open tasks hold credits. *)
Definition escrow_live (db : DB) : Prop :=
  forall t fund, task_funds db !! t = Some fund -> exists row, tasks db !! t = Some row /\ live (task_state row).

(** An acceptance that pays no credits may leave the fund of a credit task behind. *)
Definition settles_escrow (c : Command) : Prop :=
  match c with CAccept command => accept_CreditSelection command <> NoCreditReviewSelection | _ => True end.

Lemma escrow_live_frame db db' : tasks db' = tasks db -> task_funds db' = task_funds db -> escrow_live db -> escrow_live db'.
Proof. unfold escrow_live. by intros -> ->. Qed.

Lemma refused_frame db db' : refused db db' -> exists cs, db' = with_counters cs db.
Proof.
  intros [->|(day & used & [_ ->]%bump_counter_inr)]; [exists (work_day_counters db); by destruct db|by eexists].
Qed.

(** An acceptance that settles the escrow leaves no fund on its task. *)
Lemma accepted_no_fund command db t s w payout tip ds db' :
  accept_CreditSelection command <> NoCreditReviewSelection ->
  accepted command db (SubmissionAccepted t s w payout tip FirstExecution ds) db' ->
  task_funds db' !! TypedID_String (accept_TaskID command) = None.
Proof.
  intros Hsel Ha. apply accepted_effect in Ha as Heff. rewrite (acceptance_funds _ _ _ _ Heff).
  inv Ha. match goal with Hp : paid _ _ _ _, Hc : collectibles_paid _ _ _ _ _ |- _ =>
    rewrite (credit_part_combine _ _ _ _ _ _ _ _ _ Hp Hc); clear Hc; rename Hp into Hpaid end.
  match goal with Hu : update_task_state _ _ _ = inr _ |- _ => apply update_task_state_inr in Hu as [ts ->] end.
  match goal with Hu : update_submission_accepted _ _ _ = inr _ |- _ => apply update_submission_accepted_inr in Hu as [ss ->] end.
  inv Hpaid.
  - cbn in *. by destruct_or!; destruct_and?.
  - cbn in *. unfold funds_after. cbn. match goal with Hf : task_funds db !! _ = Some _ |- _ => rewrite Hf end.
    apply lookup_delete_eq.
Qed.

Lemma funds_after_lookup command outcome funds t fund :
  funds_after command outcome funds !! t = Some fund -> is_Some (funds !! t).
Proof.
  unfold funds_after. repeat split_match; try (intros Hl; by exists fund).
  - intros Hl. apply lookup_delete_Some in Hl as [_ ?]. by exists fund.
  - destruct (decide (t = TypedID_String (rf_taskID command))) as [->|]; [by rewrite E0|].
    rewrite lookup_insert_ne by done. by exists fund.
Qed.

Lemma escrowed_live t account amount db db' : escrowed t account amount db db' -> escrow_live db -> escrow_live db'.
Proof.
  intros [_ Hf _ _ (row & row' & _ & Hrow' & _ & Hst & _) Ht _] Hl u fund Hu. rewrite Hf in Hu.
  destruct (decide (u = TypedID_String t)) as [->|Hne]; [exists row'; split; [done|by left]|].
  rewrite lookup_insert_ne in Hu by done. rewrite Ht by done. by eapply Hl.
Qed.

(** What an execution does to the tasks and to their funds. *)
Definition table_step (db db' : DB) : Prop :=
  (tasks db' = tasks db /\ task_funds db' = task_funds db) \/
  (exists t account amount, escrowed t account amount db db') \/
  (tasks db' = tasks db /\ forall t, is_Some (task_funds db' !! t) -> is_Some (task_funds db !! t)) \/
  (exists t, (forall u, u <> t -> tasks db' !! u = tasks db !! u) /\ task_funds db' !! t = None /\
     forall u, is_Some (task_funds db' !! u) -> is_Some (task_funds db !! u)).

Lemma table_step_live db db' : table_step db db' -> escrow_live db -> escrow_live db'.
Proof.
  intros [[Ht Hf]|[(t & account & amount & He)|[[Ht Hf]|(t & Ht & Hnone & Hf)]]] Hl.
  - by eapply escrow_live_frame.
  - by eapply escrowed_live.
  - intros u fund Hu. rewrite Ht. destruct (Hf u) as [fund' Hu']; [by eexists|]. by eapply Hl.
  - intros u fund Hu. destruct (decide (u = t)) as [->|Hne]; [congruence|]. rewrite Ht by done.
    destruct (Hf u) as [fund' Hu']; [by eexists|]. by eapply Hl.
Qed.

Lemma same_tables_step db db' : tasks db' = tasks db -> task_funds db' = task_funds db -> table_step db db'.
Proof. by left. Qed.

Lemma performed_table_step c db r db' :
  settles_escrow c -> valid_command c -> performed c db r db' -> table_step db db'.
Proof.
  intros Hs Hv Hp.
  assert (refused db db' -> table_step db db') as Href by (intros [cs ->]%refused_frame; by apply same_tables_step).
  assert (table_step db db) as Hrefl by by apply same_tables_step.
  destruct Hp as [command r db' -> Hf|command r db' -> Hf|command r db' -> Hf|command r db' -> Hf
                 |command r db' -> Hf|command r db' -> Hf|command r db' -> Hf|command r db' -> Hf]; cbn [settles_escrow valid_command] in *.
  - destruct r as [value [] ds|]; [|inv Hf; auto..].
    apply funded_effect in Hf as (account & row & _ & _ & _ & He); [|done]. right; left. by do 3 eexists.
  - destruct r as [value [] ds|]; [|inv Hf; auto..].
    apply funded_effect in Hf as (account & row & _ & _ & _ & He); [|done]. right; left. by do 3 eexists.
  - destruct r as [t s w payout tip [] ds|]; [|inv Hf; auto..].
    right; right; right. exists (TypedID_String (accept_TaskID command)). apply accepted_effect in Hf as He.
    split; [apply (acceptance_tasks _ _ _ _ He)|]. split; [by eapply accepted_no_fund|].
    intros u. rewrite (acceptance_funds _ _ _ _ He). intros [fund Hu]. by eapply funds_after_lookup.
  - destruct r as [t s w note [] ds|]; [|inv Hf; auto..].
    apply changes_effect in Hf. destruct (change_rest _ _ _ Hf) as (? & _ & ?). by apply same_tables_step.
  - destruct r as [t s w payout tip [] ds|]; [|inv Hf; auto..].
    apply rejected_effect in Hf as He. right; right; left. split; [apply (rejection_tasks _ _ _ _ He)|].
    intros u. rewrite (rejection_funds _ _ _ _ He). intros [fund Hu]. by eapply funds_after_lookup.
  - destruct r as [value [] ds|]; [|inv Hf; auto..].
    right; right; right. exists (TypedID_String (refund_TaskID command)). apply refunded_effect in Hf as He.
    destruct (cancellation_task _ _ _ _ He) as (row & _ & _ & _ & ->).
    destruct (cancellation_fund _ _ _ _ He) as (fund & _ & _ & -> & _).
    split; [by intros u Hne; apply lookup_insert_ne, not_eq_sym|]. split; [apply lookup_delete_eq|].
    intros u [f Hu]. apply lookup_delete_Some in Hu as [_ ?]. by exists f.
  - inv Hf; [auto..|]. flatten. by apply same_tables_step.
  - inv Hf; [auto..|]. flatten. by apply same_tables_step.
Qed.

(** Over any run of commands in which acceptances pay the escrowed credits, only draft and open
    tasks hold credits: no escrow is stranded on a closed or cancelled task. *)
Theorem escrow_stays_live schedule db :
  Forall (fun ec => settles_escrow ec.2 /\ valid_command ec.2) schedule -> ledger_ok db -> escrow_live db ->
  escrow_live (snd (execute schedule db)).
Proof.
  apply execute_invariant. intros c db' r db'' Hs Hv _ Hp. by apply table_step_live, (performed_table_step c db' r).
Qed.
(** ** Accepted submissions *)

(** A task with an accepted submission is closed, and has just the one. *)
Record reviews_ok (db : DB) : Prop := {
  accepted_closed : forall i row, submissions db !! i = Some row -> sub_state row = "accepted" ->
    exists task, tasks db !! sub_task_id row = Some task /\ task_state task = "closed";
  accepted_unique : forall i j a b, submissions db !! i = Some a -> submissions db !! j = Some b ->
    sub_state a = "accepted" -> sub_state b = "accepted" -> sub_task_id a = sub_task_id b -> i = j
}.

(** An accepted submission was accepted before, or has just been, on an open task. *)
Definition newly_accepted (db db' : DB) (s t : string) : Prop :=
  (exists task, tasks db !! t = Some task /\ task_state task = "open") /\
  (exists task, tasks db' !! t = Some task /\ task_state task = "closed") /\
  exists row, submissions db' !! s = Some row /\ sub_task_id row = t /\
  forall i row, i <> s -> submissions db' !! i = Some row -> sub_state row = "accepted" -> submissions db !! i = Some row.

Definition review_step (db db' : DB) : Prop :=
  (forall i row, submissions db' !! i = Some row -> sub_state row = "accepted" -> submissions db !! i = Some row) \/
  exists s t, newly_accepted db db' s t.

Lemma insert_not_accepted db db' s row' :
  submissions db' = <[s := row']> (submissions db) -> sub_state row' <> "accepted" -> review_step db db'.
Proof.
  intros Heq Hst. left. intros i row. rewrite Heq. destruct (decide (i = s)) as [->|].
  - rewrite lookup_insert_eq. intros [= <-] ?. done.
  - by rewrite lookup_insert_ne.
Qed.

Lemma same_submissions_step db db' : submissions db' = submissions db -> review_step db db'.
Proof. intros Heq. left. intros i row. by rewrite Heq. Qed.

Lemma acceptance_step command payout db db' : acceptance command payout db db' -> review_step db db'.
Proof.
  intros [(task & Htask & Hopen & _) Hclosed _ (row & Hrow & Ht & _ & _) Hothers _ _ _]. right.
  exists (submitted_for command), (TypedID_String (accept_TaskID command)).
  split; [by exists task|]. split; [done|]. exists row. do 2 (split; [done|]).
  intros i r Hne Hr Hst. rewrite Hothers in Hr by done. destruct (submissions db !! i) as [r'|]; [|done].
  cbn in Hr. case_bool_decide; simplify_eq; done.
Qed.

Lemma performed_review_step c db r db' : valid_command c -> performed c db r db' -> review_step db db'.
Proof.
  intros Hv Hp.
  assert (refused db db' -> review_step db db') as Href by (intros [cs ->]%refused_frame; by apply same_submissions_step).
  assert (review_step db db) as Hrefl by by apply same_submissions_step.
  destruct Hp as [command r db' -> Hf|command r db' -> Hf|command r db' -> Hf|command r db' -> Hf
                 |command r db' -> Hf|command r db' -> Hf|command r db' -> Hf|command r db' -> Hf]; cbn [valid_command] in *.
  - destruct r as [value [] ds|]; [|inv Hf; auto..].
    apply funded_effect in Hf as (account & row & _ & _ & _ & He); [|done].
    apply same_submissions_step, (escrowed_submissions _ _ _ _ _ He).
  - destruct r as [value [] ds|]; [|inv Hf; auto..].
    apply funded_effect in Hf as (account & row & _ & _ & _ & He); [|done].
    apply same_submissions_step, (escrowed_submissions _ _ _ _ _ He).
  - destruct r as [t s w payout tip [] ds|]; [|inv Hf; auto..]. by eapply acceptance_step, accepted_effect.
  - destruct r as [t s w note [] ds|]; [|inv Hf; auto..]. apply changes_effect in Hf.
    destruct (change_submission _ _ _ Hf) as (row & row' & _ & _ & Hs & Hst & _).
    eapply insert_not_accepted; [done|congruence].
  - destruct r as [t s w payout tip [] ds|]; [|inv Hf; auto..]. apply rejected_effect in Hf.
    destruct (rejection_submission _ _ _ _ Hf) as (row & row' & _ & _ & Hs & Hst & _).
    eapply insert_not_accepted; [done|congruence].
  - destruct r as [value [] ds|]; [|inv Hf; auto..]. apply refunded_effect in Hf.
    apply same_submissions_step, (cancellation_submissions _ _ _ _ Hf).
  - inv Hf; [auto..|]. flatten. by apply same_submissions_step.
  - inv Hf; [auto..|]. flatten. by apply same_submissions_step.
Qed.

Lemma review_step_ok db db' : keeps db db' -> review_step db db' -> reviews_ok db -> reviews_ok db'.
Proof.
  intros Hk Hstep [Hclosed Huniq].
  assert (forall t task, tasks db !! t = Some task -> task_state task = "closed" ->
    exists task', tasks db' !! t = Some task' /\ task_state task' = "closed") as Hfinal.
  { intros t task Ht Hst. destruct (kept_final _ _ Hk t task Ht) as (task' & ? & ?); [by left|]. exists task'. split; congruence. }
  assert (forall i row, submissions db !! i = Some row -> sub_state row = "accepted" ->
    exists task, tasks db' !! sub_task_id row = Some task /\ task_state task = "closed") as Hold.
  { intros i row Hrow Hst. destruct (Hclosed _ _ Hrow Hst) as (task & ? & ?). by eapply Hfinal. }
  destruct Hstep as [Hsame|(s & t & (task & Hopen & Hst) & Hcl & rows & Hrows & Ht & Hother)].
  { split; [intros i row Hi Ha; eapply Hold; [by apply Hsame|done]|].
    intros i j a b Hi Hj Ha Hb. apply Huniq; auto. }
  assert (forall i row, i <> s -> submissions db' !! i = Some row -> sub_state row = "accepted" -> sub_task_id row <> t) as Hno.
  { intros i row Hne Hi Ha Heq. destruct (Hclosed i row) as (task' & Htask' & Hst'); [by apply Hother|done|]. congruence. }
  split.
  - intros i row Hi Ha. destruct (decide (i = s)) as [->|Hne]; [by simplify_eq|]. eapply Hold; [by apply Hother|done].
  - intros i j a b Hi Hj Ha Hb Heq. destruct (decide (i = s)) as [->|Hne], (decide (j = s)) as [->|Hne']; simplify_eq.
    + done.
    + exfalso. apply (Hno j b); [done..|congruence].
    + exfalso. apply (Hno i a); [done..|congruence].
    + apply (Huniq i j a b); auto.
Qed.

(** C9: Over any run of commands: a task has at most one accepted submission, and a task with an
    accepted submission is closed. *)
Theorem one_accepted_submission_per_task schedule db :
  Forall (fun ec => valid_command ec.2) schedule -> ledger_ok db -> reviews_ok db -> reviews_ok (snd (execute schedule db)).
Proof.
  intros Hv. apply (execute_invariant _ (fun _ => True)).
  - intros c db' r db'' _ Hvc _ Hp. eapply review_step_ok; [by eapply performed_keeps|by eapply performed_review_step].
  - clear -Hv. induction Hv; by constructor.
Qed.

(** ** Day counters *)

Definition counter (key day : string) (db : DB) : Z := default 0 (work_day_counters db !! (key, day)).

(** All the days of one key. *)
Definition day_total (key : string) (db : DB) : Z :=
  map_sum id (filter (fun kv => kv.1.1 = key) (work_day_counters db)).

Lemma bump_counter_counter key day amount db used db' :
  bump_counter key day amount db = inr (used, db') ->
  counter key day db' = used /\ used = counter key day db + amount /\
  forall k d, (k, d) <> (key, day) -> counter k d db' = counter k d db.
Proof.
  intros [-> ->]%bump_counter_inr. unfold counter. cbn. rewrite lookup_insert_eq. split; [done|]. split; [done|].
  intros k d Hne. by rewrite lookup_insert_ne by (by apply not_eq_sym).
Qed.

Lemma bump_counter_total key day amount db used db' k :
  bump_counter key day amount db = inr (used, db') ->
  day_total k db' = day_total k db + (if decide (k = key) then amount else 0).
Proof.
  intros [-> ->]%bump_counter_inr. unfold day_total. cbn. case_decide as Hk.
  - subst. rewrite map_filter_insert_True by done. set (m := filter _ _).
    assert (m !! (key, day) = work_day_counters db !! (key, day)) as Hl.
    { unfold m. destruct (work_day_counters db !! (key, day)) as [v|] eqn:E.
      - by apply map_lookup_filter_Some_2.
      - apply map_lookup_filter_None_2. by left. }
    destruct (work_day_counters db !! (key, day)) as [v|] eqn:E; cbn.
    + rewrite (map_sum_update id m (key, day) v) by done. cbn. lia.
    + rewrite map_sum_insert_new by done. cbn. lia.
  - rewrite map_filter_insert_False by (cbn; congruence). rewrite Z.add_0_r. f_equal.
    apply map_eq. intros [k' d']. rewrite !map_lookup_filter. destruct (decide ((key, day) = (k', d'))) as [[= <- <-]|Hne].
    + rewrite lookup_delete_eq. cbn. destruct (work_day_counters db !! (key, day)); cbn; [|done].
      unfold guard. case_decide; done.
    + by rewrite lookup_delete_ne.
Qed.

(** Flatten the writes of an operation, its charges apart. *)
Ltac flatten_but_charge :=
  repeat match goal with
  | Hr : recorded _ _ _ |- _ => apply recorded_with_events in Hr as (? & ? & ->)
  | Hr : update_reservations _ _ _ = inr _ |- _ => apply update_reservations_eq in Hr as ->
  | Hr : insert_task_fund _ _ _ _ = inr _ |- _ => apply insert_task_fund_inr in Hr as (-> & _ & _ & ?)
  | Hr : insert_ledger_entry _ _ = inr _ |- _ => apply insert_ledger_entry_inr in Hr as (-> & _)
  | Hr : paid _ _ _ _ |- _ => apply paid_frame in Hr as [? ->]
  | Hr : tipped _ _ _ _ _ _ _ _ _ _ |- _ => apply tipped_frame in Hr as [? ->]
  end; cbn [work_day_counters with_events with_reservations with_funds with_entries with_submissions with_tasks
    with_collectibles with_fund_collectibles with_bans].

(** The work-credential charge of a command. *)
Definition spend_of (c : Command) : SpendCharge :=
  match c with
  | CFund command => fund_Spend command
  | COrganizationFund command => orgfund_Spend command
  | CAccept command => accept_Spend command
  | CReject command => reject_Spend command
  | CSend command => send_Spend command
  | CRequestChanges _ | CRefund _ | CGrant _ => NoSpendCharge
  end.

(** A transfer charges its sender's daily ceiling first. *)
Definition velocity_charged (c : Command) (db db0 db1 : DB) : Prop :=
  match c with
  | CSend command => exists account, owner_account (send_source command) account db /\
      charged_counter (workDayKeyPeerSend +:+ account) (CreditAmount_Int64 (send_Amount command))
        DailyPeerTransferCeilingCredits db0 db1
  | _ => db1 = db0
  end.

(** All an execution does to the counters. *)
Lemma performed_charges c db r db' ds :
  performed c db r db' -> execution_of r = Some (FirstExecution, ds) ->
  exists db0 db1 db2, work_day_counters db0 = work_day_counters db /\ velocity_charged c db db0 db1 /\
    charged (spend_of c) db1 db2 /\ work_day_counters db' = work_day_counters db2.
Proof.
  intros Hp He. destruct Hp as [command [] db' -> Hf|command [] db' -> Hf|command [] db' -> Hf|command [] db' -> Hf
                 |command [] db' -> Hf|command [] db' -> Hf|command [] db' -> Hf|command [] db' -> Hf];
    cbn in He; simplify_eq; inv Hf; cbn [velocity_charged spend_of].
  - match goal with Hr : reward_switched _ _ _ _ ?db1, Hc : charged _ _ ?db2 |- _ =>
      exists db1, db1, db2; apply reward_switched_frame in Hr as [ts ->] end. flatten_but_charge. done.
  - match goal with Hr : reward_switched _ _ _ _ ?db1, Hc : charged _ _ ?db2 |- _ =>
      exists db1, db1, db2; apply reward_switched_frame in Hr as [ts ->] end. flatten_but_charge. done.
  - match goal with Hc : charged _ ?db4 ?db5 |- _ => exists db4, db4, db5 end.
    match goal with Hr : supersedes _ _ _ _ _ |- _ => apply supersedes_frame in Hr as (ss & -> & _) end.
    match goal with Hr : collectible_tipped _ _ _ _ _ _ |- _ => apply collectible_tipped_frame in Hr as [cs' ->] end.
    match goal with Hr : collectibles_paid _ _ _ _ _ |- _ => apply collectibles_paid_effect in Hr as (_ & _ & cs & fs & ->) end.
    match goal with Hr : update_task_state _ _ _ = inr _ |- _ => apply update_task_state_inr in Hr as [ts ->] end.
    match goal with Hr : update_submission_accepted _ _ _ = inr _ |- _ => apply update_submission_accepted_inr in Hr as [sb ->] end.
    flatten_but_charge. done.
  - exists db, db, db. match goal with Hr : update_submission_changes_requested _ _ _ _ _ = inr _ |- _ =>
      unfold update_submission_changes_requested in Hr; repeat split_match_in Hr; simplify_eq end; flatten_but_charge; done.
  - match goal with Hc : charged _ ?db4 ?db5 |- _ => exists db4, db4, db5 end.
    match goal with Hr : banned _ _ _ _ |- _ => apply banned_frame in Hr as [_ [bs ->]] end.
    match goal with Hr : update_submission_rejected _ _ _ _ _ = inr _ |- _ =>
      unfold update_submission_rejected in Hr; repeat split_match_in Hr; simplify_eq end; flatten_but_charge; done.
  - exists db, db, db. match goal with Hd : _ \/ _ |- _ => apply released_effect in Hd as (_ & _ & cs & fs & ->) end.
    match goal with Hr : update_task_state _ _ _ = inr _ |- _ => apply update_task_state_inr in Hr as [ts ->] end.
    flatten_but_charge. done.
  - exists db, db, db. flatten_but_charge. done.
  - match goal with Hv : charged_counter _ _ _ _ ?db1, Hc : charged _ ?db1 ?db2 |- _ => exists db, db1, db2 end.
    flatten_but_charge. split; [done|]. split; [by exists source|]. done.
Qed.

Lemma counter_eq key day db db' : work_day_counters db' = work_day_counters db -> counter key day db' = counter key day db.
Proof. unfold counter. by intros ->. Qed.

Lemma day_total_eq key db db' : work_day_counters db' = work_day_counters db -> day_total key db' = day_total key db.
Proof. unfold day_total. by intros ->. Qed.

(** Keys of different kinds never meet. *)
Lemma peer_key_agent a b : workDayKeyPeerSend +:+ a <> workDayKeyAgentSpend +:+ b.
Proof. done. Qed.

Lemma peer_key_inj a b : workDayKeyPeerSend +:+ a = workDayKeyPeerSend +:+ b -> a = b.
Proof. apply (inj (String.app _)). Qed.

(** A charge touches its own key alone. *)
Lemma charged_counter_total key amount limit db db' :
  charged_counter key amount limit db db' ->
  (exists day, counter key day db' = counter key day db + amount /\ counter key day db' <= limit /\
     forall k d, (k, d) <> (key, day) -> counter k d db' = counter k d db) /\
  forall k, day_total k db' = day_total k db + (if decide (k = key) then amount else 0).
Proof.
  intros (day & used & Hb & Hle). split; [|intros k; by eapply bump_counter_total].
  apply bump_counter_counter in Hb as (Hu & Heq & Hne). exists day. split; [congruence|]. split; [congruence|done].
Qed.

Lemma charged_peer charge db db' account :
  charged charge db db' ->
  (forall day, counter (workDayKeyPeerSend +:+ account) day db' = counter (workDayKeyPeerSend +:+ account) day db) /\
  day_total (workDayKeyPeerSend +:+ account) db' = day_total (workDayKeyPeerSend +:+ account) db.
Proof.
  destruct charge; cbn; [by intros ->|]. intros Hc. apply charged_counter_total in Hc as [(day & _ & _ & Hne) Ht].
  split; [intros d; apply Hne; intros [= _]|]. rewrite Ht, decide_False by (intros [= _]). lia.
Qed.

Lemma refused_counters db db' key :
  refused db db' -> key <> workDayKeyBudgetRefusals ->
  (forall day, counter key day db' = counter key day db) /\ day_total key db' = day_total key db.
Proof.
  intros [->|(day & used & Hb)] Hne; [done|]. split.
  - apply bump_counter_counter in Hb as (_ & _ & Hb). intros d. apply Hb. congruence.
  - rewrite (bump_counter_total _ _ _ _ _ _ key Hb), decide_False by done. lia.
Qed.

(** A command executed through a capped work credential adds its amount to that credential's
    counter of one day, keeps the counter within the cap, and touches no other day. *)
Theorem capped_spend_is_counted env db c ds credential limit amount :
  ledger_ok db -> valid_command c ->
  execution_of (fst (run env db (perform c))) = Some (FirstExecution, ds) ->
  spend_of c = ChargeSpendBudget credential limit amount ->
  let key := workDayKeyAgentSpend +:+ TypedID_String credential in
  let db' := snd (run env db (perform c)) in
  exists day, counter key day db' = counter key day db + CreditAmount_Int64 amount /\
    counter key day db' <= CreditAmount_Int64 limit /\
    forall d, d <> day -> counter key d db' = counter key d db.
Proof.
  intros Hok Hv He Hs key db'. pose proof (perform_spec env db c (ledger_funds _ Hok) Hv) as Hp.
  apply (performed_charges _ _ _ _ ds) in Hp as (db0 & db1 & db2 & H0 & Hvel & Hc & H2); [|done].
  fold db' in H2. rewrite Hs in Hc. cbn in Hc. fold key in Hc.
  apply charged_counter_total in Hc as [(day & Heq & Hle & Hne) _].
  assert (forall d, counter key d db1 = counter key d db) as H1.
  { intros d. rewrite <- (counter_eq _ _ _ _ H0). unfold velocity_charged in Hvel. destruct c; try by rewrite Hvel.
    destruct Hvel as (account & _ & Hvel). apply charged_counter_total in Hvel as [(d' & _ & _ & Hv') _].
    by apply Hv'. }
  exists day. rewrite !(counter_eq _ _ _ _ H2), <- !H1. split; [done|]. split; [done|].
  intros d Hd. rewrite (counter_eq _ _ _ _ H2), <- H1. apply Hne. congruence.
Qed.

(** ** The daily ceiling on peer transfers *)

(** What a command sends from an account, given the accounts of [db]. *)
Definition sent_from (account : string) (db : DB) (c : Command) (r : Result) : Z :=
  match c, r with
  | CSend command, RSend (CreditsSent _ _ _ FirstExecution _) =>
      let owner := match ref_owner (send_source command) with
                   | owner_user id => accounts_of_user (TypedID_String id) db
                   | owner_organization id => accounts_of_organization (TypedID_String id) db
                   end in
      match first_row (acct_id <$> owner) with
      | inr source => if decide (account = source) then CreditAmount_Int64 (send_Amount command) else 0
      | inl _ => 0
      end
  | _, _ => 0
  end.

Definition peer_key (account : string) : string := workDayKeyPeerSend +:+ account.

Lemma sent_from_source account command db r source :
  owner_account (send_source command) source db ->
  execution_of (RSend r) <> None -> (forall ds, execution_of (RSend r) <> Some (IdempotentReplay, ds)) ->
  sent_from account db (CSend command) (RSend r) =
    if decide (account = source) then CreditAmount_Int64 (send_Amount command) else 0.
Proof.
  intros [Ho _] Hex Hre. unfold sent_from. destruct r as [id amount us [] ds|]; [|by destruct (Hre ds)|done].
  unfold user_account, organization_account in Ho. by destruct (ref_owner (send_source command)); rewrite Ho.
Qed.

Lemma sent_from_none account db c r :
  (forall ds, execution_of r <> Some (FirstExecution, ds)) -> sent_from account db c r = 0.
Proof.
  intros Hr. unfold sent_from. destruct c; try done. destruct r as [| | | | | |[id amount us [] ds|]]; try done. by destruct (Hr ds).
Qed.

Lemma sent_from_accounts account db0 db c r :
  credit_accounts db = credit_accounts db0 -> sent_from account db c r = sent_from account db0 c r.
Proof. intros Heq. unfold sent_from, accounts_of_user, accounts_of_organization. by rewrite Heq. Qed.

Lemma performed_sends c db r db' account :
  valid_command c -> performed c db r db' ->
  (forall day, counter (peer_key account) day db <= DailyPeerTransferCeilingCredits ->
     counter (peer_key account) day db' <= DailyPeerTransferCeilingCredits) /\
  day_total (peer_key account) db' = day_total (peer_key account) db + sent_from account db c r.
Proof.
  intros Hv Hp. destruct (execution_of r) as [[[] ds]|] eqn:He.
  - destruct (performed_charges _ _ _ _ ds Hp He) as (db0 & db1 & db2 & H0 & Hvel & Hc & H2).
    apply (charged_peer _ _ _ account) in Hc as [Hcc Hct]. fold (peer_key account) in Hcc, Hct.
    rewrite (day_total_eq _ _ _ H2), Hct, <- (day_total_eq _ _ _ H0).
    assert (forall day, counter (peer_key account) day db' = counter (peer_key account) day db1) as Hday.
    { intros day. by rewrite (counter_eq _ _ _ _ H2). }
    unfold velocity_charged in Hvel. destruct c; try (
      split; [intros day; by rewrite Hday, Hvel, (counter_eq _ _ _ _ H0)|]; rewrite Hvel; cbn; lia).
    destruct Hvel as (source & Hsrc & Hvel). apply charged_counter_total in Hvel as [(d & Heq & Hle & Hne) Ht].
    inv Hp; simplify_eq. rewrite (sent_from_source _ _ _ _ source) by (rewrite ?He; done).
    split.
    + intros day Hd. rewrite Hday. destruct (decide ((peer_key account, day) = (peer_key source, d))) as [Hk|Hk].
      * apply (f_equal fst) in Hk as Hk1. apply (f_equal snd) in Hk as Hk2. cbn [fst snd] in Hk1, Hk2.
        rewrite Hk1, Hk2. exact Hle.
      * rewrite Hne by done. by rewrite (counter_eq _ _ _ _ H0).
    + rewrite Ht. unfold peer_key. destruct (decide (account = source)) as [->|Hne']; [by rewrite decide_True|].
      rewrite decide_False; [done|]. by intros Hk%peer_key_inj.
  - apply performed_replay_silent with (ds := ds) in Hp as Hr; [|done]. destruct Hr as [-> _].
    rewrite sent_from_none by (by rewrite He). split; [done|lia].
  - assert (refused db db') as Hr.
    { destruct Hp as [? [] ? ? Hf|? [] ? ? Hf|? [] ? ? Hf|? [] ? ? Hf|? [] ? ? Hf|? [] ? ? Hf|? [] ? ? Hf|? [] ? ? Hf];
        cbn in He; simplify_eq; inv Hf; first [done|apply refused_refl]. }
    apply (refused_counters _ _ (peer_key account)) in Hr as [Hc Ht]; [|done].
    rewrite sent_from_none by (by rewrite He). split; [intros day; by rewrite Hc|lia].
Qed.

(** C11: Over any run of commands an account's daily transfer counters never pass the ceiling, and
    together they grow by exactly what was sent from the account. *)
Theorem daily_peer_ceiling schedule db account :
  Forall (fun ec => valid_command ec.2) schedule -> ledger_ok db ->
  (forall day, counter (peer_key account) day db <= DailyPeerTransferCeilingCredits) ->
  let '(results, db') := execute schedule db in
  (forall day, counter (peer_key account) day db' <= DailyPeerTransferCeilingCredits) /\
  day_total (peer_key account) db' = day_total (peer_key account) db +
    sum_Z (zip_with (fun ec r => sent_from account db ec.2 r) schedule results).
Proof.
  assert (forall schedule db0 db, credit_accounts db = credit_accounts db0 ->
    Forall (fun ec => valid_command ec.2) schedule -> ledger_ok db ->
    (forall day, counter (peer_key account) day db <= DailyPeerTransferCeilingCredits) ->
    let '(results, db') := execute schedule db in
    (forall day, counter (peer_key account) day db' <= DailyPeerTransferCeilingCredits) /\
    day_total (peer_key account) db' = day_total (peer_key account) db +
      sum_Z (zip_with (fun ec r => sent_from account db0 ec.2 r) schedule results)) as Hgen; [|by apply Hgen].
  clear. intros schedule db0. induction schedule as [|[env c] schedule IH]; intros db Hacc Hv Hok Hle; cbn; [split; [done|lia]|].
  apply Forall_cons_1 in Hv as [Hc Hv]. pose proof (perform_spec env db c (ledger_funds _ Hok) Hc) as Hp.
  destruct (run env db (perform c)) as [r db1]. cbn in Hp, Hc.
  destruct (performed_sends _ _ _ _ account Hc Hp) as [Hle1 Ht1].
  specialize (IH db1). rewrite (kept_accounts _ _ (performed_keeps _ _ _ _ Hp)) in IH.
  specialize (IH Hacc Hv (performed_ledger_ok _ _ _ _ Hc Hp Hok) (fun day => Hle1 day (Hle day))).
  destruct (execute schedule db1) as [rs db2]. destruct IH as [IH1 IH2]. split; [done|].
  rewrite IH2, Ht1. cbn. rewrite (sent_from_accounts account db0 db c r Hacc). unfold sum_Z. cbn. lia.
Qed.

(** ** Who is banned *)

(** Only a rejection bans, and then on request. *)
Definition bans_on_request (c : Command) : Prop :=
  match c with CReject command => reject_BanSelection command = BanImplementorSelection | _ => False end.

(** One write of an operation, as the equation of the bans before and after it. *)
Ltac bans_step :=
  match goal with
  | Hr : recorded _ _ _ |- _ => apply recorded_with_events in Hr as (? & ? & Hr)
  | Hr : update_reservations _ _ _ = inr _ |- _ => apply update_reservations_eq in Hr
  | Hr : charged _ _ _ |- _ => apply charged_frame in Hr as [? Hr]
  | Hr : charged_counter _ _ _ _ _ |- _ => apply charged_counter_frame in Hr as [? Hr]
  | Hr : insert_task_fund _ _ _ _ = inr _ |- _ => apply insert_task_fund_inr in Hr as [Hr _]
  | Hr : insert_ledger_entry _ _ = inr _ |- _ => apply insert_ledger_entry_inr in Hr as [Hr _]
  | Hr : reward_switched _ _ _ _ _ |- _ => apply reward_switched_frame in Hr as [? Hr]
  | Hr : supersedes _ _ _ _ _ |- _ => apply supersedes_frame in Hr as (? & Hr & _)
  | Hr : collectible_tipped _ _ _ _ _ _ |- _ => apply collectible_tipped_frame in Hr as [? Hr]
  | Hr : tipped _ _ _ _ _ _ _ _ _ _ |- _ => apply tipped_frame in Hr as [? Hr]
  | Hr : collectibles_paid _ _ _ _ _ |- _ => apply collectibles_paid_effect in Hr as (_ & _ & ? & ? & Hr)
  | Hr : paid _ _ _ _ |- _ => apply paid_frame in Hr as [? Hr]
  | Hr : update_task_state _ _ _ = inr _ |- _ => apply update_task_state_inr in Hr as [? Hr]
  | Hr : update_submission_accepted _ _ _ = inr _ |- _ => apply update_submission_accepted_inr in Hr as [? Hr]
  | Hr : held_collectibles _ _ = [] /\ _ \/ _ |- _ => apply released_effect in Hr as (_ & _ & ? & ? & Hr)
  | Hr : update_submission_changes_requested _ _ _ _ _ = inr _ |- _ =>
      unfold update_submission_changes_requested in Hr; repeat split_match_in Hr; simplify_eq
  | Hr : update_submission_rejected _ _ _ _ _ = inr _ |- _ =>
      unfold update_submission_rejected in Hr; repeat split_match_in Hr; simplify_eq
  | Hr : _ = with_events _ _ _ |- _ => apply (f_equal task_implementor_bans) in Hr; cbn in Hr
  | Hr : ?db = _ |- _ => lazymatch type of db with DB => apply (f_equal task_implementor_bans) in Hr; cbn in Hr end
  end.

Lemma performed_bans c db r db' :
  performed c db r db' -> bans_on_request c \/ task_implementor_bans db' = task_implementor_bans db.
Proof.
  intros Hp.
  assert (refused db db' -> task_implementor_bans db' = task_implementor_bans db) as Href by by intros [cs ->]%refused_frame.
  destruct Hp as [command r db' -> Hf|command r db' -> Hf|command r db' -> Hf|command r db' -> Hf
                 |command r db' -> Hf|command r db' -> Hf|command r db' -> Hf|command r db' -> Hf]; cbn [bans_on_request].
  1-4,6-8: right; inv Hf; [by auto..|]; repeat bans_step; cbn in *; congruence.
  destruct (reject_BanSelection command) eqn:Hsel; [right|by left]. inv Hf; [by auto..|].
  match goal with Hr : banned _ _ _ _ |- _ => unfold banned in Hr; rewrite Hsel in Hr; subst end.
  repeat bans_step; cbn in *; congruence.
Qed.

(** ** Authorization *)

(** Who may have a command executed. *)
Definition authorized (c : Command) (db : DB) : Prop :=
  match c with
  | CFund command => exists row, tasks db !! TypedID_String (fund_TaskID command) = Some row /\
      task_created_by_user_id row = TypedID_String (fund_FunderUserID command)
  | COrganizationFund command => exists row, tasks db !! TypedID_String (orgfund_TaskID command) = Some row /\
      default "" (task_organization_id row) = TypedID_String (orgfund_OrganizationID command)
  | CAccept command => exists row, tasks db !! TypedID_String (accept_TaskID command) = Some row /\
      may_review (accept_Reviewer command) row db
  | CRequestChanges command => exists row, tasks db !! TypedID_String (changes_TaskID command) = Some row /\
      may_review (changes_Reviewer command) row db
  | CReject command => exists row, tasks db !! TypedID_String (reject_TaskID command) = Some row /\
      may_review (reject_Reviewer command) row db
  | CRefund command => exists row, tasks db !! TypedID_String (refund_TaskID command) = Some row /\
      may_refund (refund_RequesterUserID command) (refund_TaskID command) row db
  | CGrant _ => True
  | CSend command => may_send command db
  end.

(** Whose account a command may take credits from. *)
Definition debits (c : Command) (account : string) (db : DB) : Prop :=
  match c with
  | CFund command => user_account (TypedID_String (fund_FunderUserID command)) account db
  | COrganizationFund command => organization_account (TypedID_String (orgfund_OrganizationID command)) account db
  | CAccept command => exists requester, accept_Reviewer command = UserReviewer requester /\
      user_account (TypedID_String requester) account db
  | CReject command => exists requester, reject_Reviewer command = UserReviewer requester /\
      user_account (TypedID_String requester) account db
  | CSend command =>
      match send_Source command with
      | TransferFromSelf => user_account (TypedID_String (send_ActingUserID command)) account db
      | TransferFromOrganization id => organization_account (TypedID_String id) account db
      end
  | CRequestChanges _ | CRefund _ | CGrant _ => False
  end.

Lemma payout_movements_debit command outcome ms db m a : payout_movements command outcome ms db -> m ∈ ms -> debit_of m <> Some a.
Proof.
  destruct outcome; cbn; try (intros -> Hm; by apply elem_of_nil in Hm).
  intros (account & fund & _ & _ & _ & ->) [->|Hm]%elem_of_cons; [done|].
  destruct (_ && _); [by apply list_elem_of_singleton in Hm as ->|by apply elem_of_nil in Hm].
Qed.

Lemma tip_movements_debit t raw reviewer outcome ms db m a :
  tip_movements t raw reviewer outcome ms db -> m ∈ ms -> debit_of m = Some a ->
  exists requester, reviewer = UserReviewer requester /\ user_account (TypedID_String requester) a db.
Proof.
  destruct outcome; cbn; try (intros -> Hm; by apply elem_of_nil in Hm).
  intros (requester & from & to & -> & Hfrom & _ & ->) ->%list_elem_of_singleton [= <-]. by exists requester.
Qed.

Lemma review_movements_debit command reviewer payout tip db ms m a :
  review_movements command reviewer payout tip db ms -> m ∈ ms -> debit_of m = Some a ->
  exists requester, reviewer = UserReviewer requester /\ user_account (TypedID_String requester) a db.
Proof.
  intros (ms1 & ms2 & -> & H1 & H2) [Hm|Hm]%elem_of_app Ha; [by destruct (payout_movements_debit _ _ _ _ _ a H1 Hm)|].
  by eapply tip_movements_debit.
Qed.

(** A movement of a command takes credits from an account only if the command executed, and
    from whom it may. *)
Lemma command_movements_debit c db r ms m a :
  command_movements c db r ms -> m ∈ ms -> debit_of m = Some a ->
  (exists ds, execution_of r = Some (FirstExecution, ds)) /\ debits c a db.
Proof.
  unfold command_movements. destruct (execution_of r) as [[[] ds]|]; [|intros -> Hm; by apply elem_of_nil in Hm..].
  intros Hc Hm Ha. split; [by exists ds|].
  destruct c, r; try done; cbn in Hc.
  - destruct Hc as (account & Hacc & ->). apply list_elem_of_singleton in Hm as ->. by injection Ha as <-.
  - destruct Hc as (account & Hacc & ->). apply list_elem_of_singleton in Hm as ->. by injection Ha as <-.
  - split_match_in Hc; [|done]. destruct Hc as (row & _ & Hr). by eapply review_movements_debit.
  - subst. by apply elem_of_nil in Hm.
  - split_match_in Hc; [|done]. destruct Hc as (row & _ & Hr). by eapply review_movements_debit.
  - subst. by apply list_elem_of_singleton in Hm as ->.
  - destruct Hc as (account & _ & ->). by apply list_elem_of_singleton in Hm as ->.
  - destruct Hc as (source & target & [Hs _] & _ & ->). apply list_elem_of_singleton in Hm as ->. injection Ha as <-.
    unfold debits, send_source in *. by destruct (send_Source command).
Qed.

Lemma performed_authorized c db r db' ds :
  performed c db r db' -> execution_of r = Some (FirstExecution, ds) -> authorized c db.
Proof.
  intros Hp He.
  destruct Hp as [? [] ? -> Hf|? [] ? -> Hf|? [] ? -> Hf|? [] ? -> Hf|? [] ? -> Hf|? [] ? -> Hf|? [] ? -> Hf|? [] ? -> Hf];
    cbn in He; simplify_eq; inv Hf; cbn; eauto.
Qed.

(** C10: Authorization, as the store checks it. What executed was allowed: a task is funded by its
    creator, or from the organization it belongs to; it is reviewed by its creator or in the name of
    the organization it belongs to; it is refunded for its creator or its active implementor; a
    transfer from an organization is by an active member whose roles grant billing (who may fund
    from an organization or issue a grant is checked at the API boundary, outside this store). And
    an account loses credits only by an allowed command of its own: a user's account when that user
    funds, transfers, or tips as the reviewer; an organization's when it funds a task of its own or
    by such a transfer. *)
Theorem execution_requires_authority env db c :
  ledger_ok db -> valid_command c ->
  let db' := snd (run env db (perform c)) in
  (forall ds, execution_of (fst (run env db (perform c))) = Some (FirstExecution, ds) -> authorized c db) /\
  (forall account, account_sum account (ledger_entries db') < account_sum account (ledger_entries db) ->
     authorized c db /\ debits c account db).
Proof.
  intros Hok Hv. pose proof (perform_spec env db c (ledger_funds _ Hok) Hv) as Hp.
  cbv zeta. destruct (run env db (perform c)) as [r db']. cbn [fst snd] in *.
  split; [intros ds; by apply (performed_authorized c db r db')|]. intros account Hless.
  destruct (performed_refines _ _ _ _ Hv Hp) as (ms & Hms & Happly). rewrite <- !spendable_account_sum in Hless.
  destruct (apply_movements_debit _ _ _ _ Happly (ledger_balanced _ Hok) Hless) as (m & Hm & Ha).
  destruct (command_movements_debit _ _ _ _ _ _ Hms Hm Ha) as [[ds He] Hd]. split; [|exact Hd]. by eapply performed_authorized.
Qed.

(** ** What a retry can meet *)

(** The command is turned down, and nothing changes. *)
Definition refund_turned_down (env : Env) (db : DB) (command : RefundStoreCommand) : Prop :=
  exists reason, run env db (RefundTask command) = (RefundRejected reason, db).

Definition never_executes (env : Env) (db : DB) (c : Command) : Prop :=
  forall ds, execution_of (fst (run env db (perform c))) <> Some (FirstExecution, ds).

(** A refund retried under its own key, after any further commands, is rejected rather than
    replayed, since the cancelled task fails the guard that comes before the idempotency lookup. *)
Theorem refund_retry_is_rejected env env' db command value ds db1 schedule :
  ledger_ok db ->
  run env db (perform (CRefund command)) = (RRefund (TaskRefunded value FirstExecution ds), db1) ->
  Forall (fun ec => valid_command ec.2) schedule ->
  refund_turned_down env' (snd (execute schedule db1)) command.
Proof.
  intros Hl Hrun Hsched. destruct (kept_until _ _ (CRefund command) _ _ _ Hl I Hrun Hsched) as (Hp & _ & Hk).
  apply performed_inv, refunded_effect in Hp. destruct (cancellation_task _ _ _ _ Hp) as (row & _ & _ & _ & Ht).
  destruct (kept_final _ _ Hk (TypedID_String (refund_TaskID command)) (set_task_state "cancelled" row)) as (row' & Hrow' & Hst);
    [by rewrite Ht, lookup_insert_eq|by right|]. cbn in Hst.
  set (dbN := snd (execute schedule db1)) in *.
  unfold refund_turned_down. pose proof (RefundTask_spec (env:=env') dbN command) as Hr. destruct (run env' dbN (RefundTask command)) as [r db']. cbn in Hr.
  inv Hr; [by eexists|..]; simplify_eq; match goal with Hn : not_awarded _ |- _ => destruct Hn; congruence end.
Qed.

(** A transfer is never executed when the receiver's account already holds a credit entry under
    the same client key, whoever sent it. *)
Theorem transfer_key_is_shared_by_senders env db command target row :
  ledger_ok db -> valid_amount (send_Amount command) ->
  owner_account (send_target command) target db ->
  entry_with_key (credit_key command) target db = inr row ->
  never_executes env db (CSend command).
Proof.
  intros Hok Hv Htgt Hkey ds He. pose proof (perform_spec env db (CSend command) (ledger_funds _ Hok) Hv) as Hp.
  destruct (run env db (perform (CSend command))) as [r db']. cbn in *. apply performed_inv in Hp.
  destruct r as [| | | | | |r]; try done. inv Hp; cbn in He; simplify_eq.
  assert (target0 = target) as ->.
  { destruct Htgt as [Ht _]. match goal with Ho : owner_account (send_target command) target0 db |- _ => destruct Ho as [Ho _] end.
    unfold user_account, organization_account in *. destruct (ref_owner (send_target command)); congruence. }
  match goal with Hi : insert_ledger_entry (debit_entry _ _ _) ?db2 = inr _, Hc : insert_ledger_entry (credit_entry _ _ _) _ = inr _ |- _ =>
    apply (kept_entries _ _ (charged_counter_keeps _ _ _ _ _ H7)) in Hkey;
    apply (kept_entries _ _ (charged_keeps _ _ _ H8)) in Hkey;
    apply (kept_entries _ _ (insert_entry_keeps _ _ _ Hi)) in Hkey;
    apply insert_ledger_entry_inr in Hc as (_ & _ & _ & _ & Hall) end.
  apply first_row_inr, list_elem_of_filter in Hkey as [[Hk Ha] [i Hi]%list_elem_of_lookup].
  apply (Forall_lookup_1 _ _ _ _ Hall Hi). split; [by eexists|]. by cbn.
Qed.

End Invariants.
