(* ===== verification/EscrowSpecs.v ===== *)
(** * Escrow and custody under the ledger's commands

    What stays of the escrow of a task, of its holders and of the custody of the
    collectibles when the ledger store runs: notions the whole market's invariants
    are stated with. *)

From S2P Require Import Prelude.
From S2P Require Import Core.
From S2P Require Import Events.
From S2P Require Import LedgerValues.
From S2P Require Import Database.
From S2P Require Import LedgerSpec.
From S2P Require Import Outbox.
From S2P Require Import LedgerHelpers.
From S2P Require Import LedgerStore.
From S2P Require Import HelperSpecs.
From S2P Require Import ReviewSpecs.
From S2P Require Import StoreSpecs.
From S2P Require Import Refinement.
From S2P Require Import LedgerBehaviour.
From S2P Require Import LedgerInvariants.
Local Open Scope string_scope.
Local Open Scope Z_scope.

(** ** Unencumbered tasks *)

(** Nothing is escrowed for the task and nobody holds it. *)
Record unencumbered (task : string) (d : DB) : Prop := {
  no_fund : task_funds d !! task = None;
  no_held : held_collectibles task d = [];
  no_holder : map_Forall (fun _ row => non_terminal task row = false) (task_reservations d)
}.

Section EscrowSpecs.
Context `{UUIDLib}.
Implicit Types (d : DB).

Lemma non_terminal_set_state task state row :
  state <> "active" -> state <> "submitted" -> non_terminal task (set_res_state state row) = false.
Proof. intros Ha Hs. unfold non_terminal, set_res_state. cbn. rewrite bool_decide_false; [apply andb_false_r|]. by intros []. Qed.

(** Escrow only leaves, and nobody starts to hold anything. *)
Record lightened (d d' : DB) : Prop := {
  fewer_funds : forall t, is_Some (task_funds d' !! t) -> is_Some (task_funds d !! t);
  fewer_held : task_fund_collectibles d' ⊆ task_fund_collectibles d;
  fewer_holders : forall i row', task_reservations d' !! i = Some row' -> exists row, task_reservations d !! i = Some row /\
    forall t, non_terminal t row' = true -> non_terminal t row = true
}.

#[export] Instance lightened_preorder : PreOrder lightened.
Proof.
  split.
  - intros d. split; [done..|]. intros i row Hrow. by exists row.
  - intros d1 d2 d3 [Hf1 Hh1 Hr1] [Hf2 Hh2 Hr2]. split; [by auto|by etrans|]. intros i row3 Hi.
    destruct (Hr2 _ _ Hi) as (row2 & Hi2 & Ht2). destruct (Hr1 _ _ Hi2) as (row1 & Hi1 & Ht1). exists row1. auto.
Qed.

Lemma held_none t d : held_collectibles t d = [] <-> forall c, task_fund_collectibles d !! c <> Some t.
Proof.
  split.
  - intros Hn c Hc%held_collectibles_elem. rewrite Hn in Hc. by apply not_elem_of_nil in Hc.
  - intros Hn. apply elem_of_nil_inv. intros c Hc%held_collectibles_elem. by eapply Hn.
Qed.

Lemma unencumbered_lightened t d d' : lightened d d' -> unencumbered t d -> unencumbered t d'.
Proof.
  intros [Hf Hh Hr] [Hnf Hnh Hnr]. split.
  - apply eq_None_not_Some. intros [fund Hs]%Hf. congruence.
  - apply held_none. intros c Hc. apply held_none with (c := c) in Hnh. apply Hnh. by eapply lookup_weaken.
  - intros i row' Hi. destruct (Hr _ _ Hi) as (row & Hrow & Ht). specialize (Hnr _ _ Hrow). cbn in Hnr.
    destruct (non_terminal t row') eqn:E; [|done]. by rewrite (Ht _ E) in Hnr.
Qed.

Lemma same_escrow_lightened d d' :
  task_funds d' = task_funds d -> task_fund_collectibles d' = task_fund_collectibles d -> task_reservations d' = task_reservations d ->
  lightened d d'.
Proof. intros Hf Hh Hr. split; rewrite ?Hf, ?Hh, ?Hr; [done..|]. intros i row Hrow. by exists row. Qed.

Lemma recorded_lightened d ds d' : recorded d ds d' -> lightened d d'.
Proof. intros (e & r & ->)%recorded_with_events. by apply same_escrow_lightened. Qed.

Lemma task_state_lightened t state d d' : update_task_state t state d = inr d' -> lightened d d'.
Proof. intros [ts ->]%update_task_state_inr. by apply same_escrow_lightened. Qed.

(** Reservations that are moved out of the live states. *)
Lemma reservations_lightened matching state d d' :
  state <> "active" -> state <> "submitted" -> update_reservations matching state d = inr d' -> lightened d d'.
Proof.
  intros Ha Hs ->%update_reservations_eq. split; [done..|]. cbn. intros i row'. rewrite lookup_fmap, fmap_Some.
  intros (row & Hrow & ->). exists row. split; [done|]. intros t. case_match; [|done]. by rewrite non_terminal_set_state.
Qed.

Lemma update_task_state_others task state d d' other :
  update_task_state task state d = inr d' -> other <> task -> tasks d' !! other = tasks d !! other.
Proof.
  unfold update_task_state. destruct (tasks d !! task); [destruct (negb _)|]; intros [= <-] Hne; [|done]. cbn. by rewrite lookup_insert_ne.
Qed.

(** ** Lightening steps of the ledger *)

Lemma paid_lightened command d outcome d' : paid command d outcome d' -> lightened d d'.
Proof.
  intros [es ->]%paid_frame. split; cbn; [|done|intros i row Hrow; by exists row]. intros t [fund Hf]. by eapply funds_after_lookup.
Qed.

Lemma released_lightened f t d : lightened d (release_held f t d).
Proof. split; cbn; [done|apply map_filter_subseteq|]. intros i row Hrow. by exists row. Qed.

Lemma collectibles_paid_lightened t raw d outcome d' : collectibles_paid t raw d outcome d' -> lightened d d'.
Proof. intros []; [done|]. apply released_lightened. Qed.

Lemma drop_fund_lightened t d : lightened d (drop_fund t d).
Proof.
  split; cbn; [|done|intros i row Hrow; by exists row]. intros u [fund Hf]. apply lookup_delete_Some in Hf as [_ ?]. by exists fund.
Qed.

(** ** Ended tasks *)

Definition ended_state (state : string) : Prop := state = "cancelled" \/ state = "expired".

(** Nothing is escrowed for a cancelled or expired task and nobody holds it. *)
Definition ended_unencumbered (d : DB) : Prop :=
  forall t row, tasks d !! t = Some row -> ended_state (task_state row) -> unencumbered t d.

(** A task that has ended is settled by the step, or had ended before and is not encumbered by it. *)
Lemma ended_step d d' :
  (forall t row', tasks d' !! t = Some row' -> ended_state (task_state row') ->
     unencumbered t d' \/ ((exists row, tasks d !! t = Some row /\ ended_state (task_state row)) /\ (unencumbered t d -> unencumbered t d'))) ->
  ended_unencumbered d -> ended_unencumbered d'.
Proof. intros Hstep Hd t row' Hrow' He. destruct (Hstep _ _ Hrow' He) as [Hu|[(row & Hrow & Her) Hl]]; [done|]. by apply Hl, (Hd _ row). Qed.

(** Escrow leaves, and at most one task changes its state. *)
Lemma lightened_ended t d d' :
  (forall u, u <> t -> tasks d' !! u = tasks d !! u) ->
  (forall row, tasks d' !! t = Some row -> ended_state (task_state row) -> unencumbered t d') ->
  lightened d d' -> ended_unencumbered d -> ended_unencumbered d'.
Proof.
  intros Hother Ht Hl. apply ended_step. intros u row' Hrow' He. destruct (decide (u = t)) as [->|Hne]; [left; by eapply Ht|right].
  rewrite Hother in Hrow' by done. split; [by exists row'|]. by apply unencumbered_lightened.
Qed.

Lemma same_tasks_ended d d' : tasks d' = tasks d -> lightened d d' -> ended_unencumbered d -> ended_unencumbered d'.
Proof.
  intros Ht Hl. apply ended_step. intros u row' Hrow' He. right. rewrite Ht in Hrow'. split; [by exists row'|]. by apply unencumbered_lightened.
Qed.

Lemma funded_ended q d value ds d' :
  valid_amount (fr_amount q) -> funded q d (TaskFunded value FirstExecution ds) d' -> ended_unencumbered d -> ended_unencumbered d'.
Proof.
  intros Hv Hf. pose proof (funded_effect _ _ _ _ _ Hv Hf) as (account & row & _ & _ & _ & [_ Hfunds _ _ (_ & row' & _ & Hrow' & _ & Hdraft & _) Htasks _]).
  apply ended_step. intros u urow Hu He. right.
  assert (u <> TypedID_String (fr_task q)) as Hne by (intros ->; rewrite Hrow' in Hu; simplify_eq; rewrite Hdraft in He; by destruct He).
  rewrite Htasks in Hu by done. split; [by exists urow|]. inv Hf.
  match goal with Hr : reward_switched _ _ _ _ _ |- _ => apply reward_switched_frame in Hr as [ts ->] end.
  flatten. intros [Hnf Hnh Hnr]. split; cbn; [by rewrite lookup_insert_ne|done..].
Qed.

(** [d'] is [d] but for tables that are not about escrow. *)
Ltac same_escrow := apply same_escrow_lightened; reflexivity.

Lemma accepted_lightened command d t s w payout tip ds d' :
  accepted command d (SubmissionAccepted t s w payout tip FirstExecution ds) d' -> lightened d d'.
Proof.
  intros Ha. inv Ha.
  match goal with Hr : supersedes _ _ _ _ _ |- _ => apply supersedes_frame in Hr as (ss & -> & _) end.
  match goal with Hr : collectible_tipped _ _ _ _ _ _ |- _ => apply collectible_tipped_frame in Hr as [cs' ->] end.
  match goal with Hr : tipped _ _ _ _ _ _ _ _ _ _ |- _ => apply tipped_frame in Hr as [es' ->] end.
  match goal with Hr : update_submission_accepted _ _ _ = inr _ |- _ => apply update_submission_accepted_inr in Hr as [ss' ->] end.
  match goal with Hr : update_task_state _ _ _ = inr _ |- _ => apply task_state_lightened in Hr end.
  match goal with Hr : paid _ _ _ _ |- _ => apply paid_lightened in Hr end.
  match goal with Hr : collectibles_paid _ _ _ _ _ |- _ => apply collectibles_paid_lightened in Hr end.
  flatten. transitivity (with_submissions ss' d); [same_escrow|]. do 3 (etrans; [eassumption|]). same_escrow.
Qed.

Lemma accepted_ended command d t s w payout tip ds d' :
  accepted command d (SubmissionAccepted t s w payout tip FirstExecution ds) d' -> ended_unencumbered d -> ended_unencumbered d'.
Proof.
  intros Ha. pose proof (accepted_effect _ _ _ _ _ _ _ _ _ Ha) as He.
  apply (lightened_ended (TypedID_String (accept_TaskID command))); [apply (acceptance_tasks _ _ _ _ He)| |by eapply accepted_lightened].
  intros row Hrow Hend. destruct (acceptance_closed _ _ _ _ He) as (row' & Hrow' & Hst). rewrite Hrow in Hrow'. simplify_eq.
  rewrite Hst in Hend. by destruct Hend.
Qed.

Lemma rejected_ended command d t s w payout tip ds d' :
  rejected command d (SubmissionRejected t s w payout tip FirstExecution ds) d' -> ended_unencumbered d -> ended_unencumbered d'.
Proof.
  intros Hr. apply same_tasks_ended; [by apply rejected_effect in Hr as []|]. inv Hr.
  match goal with Hr : banned _ _ _ _ |- _ => apply banned_frame in Hr as [_ [bs ->]] end.
  match goal with Hr : update_submission_rejected _ _ _ _ _ = inr _ |- _ =>
    unfold update_submission_rejected in Hr; repeat split_match_in Hr; try done; injection Hr as <- end.
  all: match goal with Hr : tipped _ _ _ _ _ _ _ _ _ _ |- _ => apply tipped_frame in Hr as [es' ->] end.
  all: match goal with Hr : paid _ _ _ _ |- _ => apply paid_lightened in Hr end.
  all: match goal with Hr : update_reservations _ _ _ = inr _ |- _ => apply reservations_lightened in Hr; [|done..] end.
  all: flatten; etrans; [eassumption|]; etrans; [|etrans; [eassumption|same_escrow]]; same_escrow.
Qed.

Lemma refunded_ended command d value ds d' :
  refunded command d (TaskRefunded value FirstExecution ds) d' -> ended_unencumbered d -> ended_unencumbered d'.
Proof.
  intros Hr. pose proof (refunded_effect _ _ _ _ _ Hr) as [(row & _ & _ & _ & Htasks) (fund & _ & _ & Hfunds & _) Hres Hheld _ _].
  apply (lightened_ended (TypedID_String (refund_TaskID command))).
  - intros u Hne. rewrite Htasks. by rewrite lookup_insert_ne.
  - intros _ _ _. split; [rewrite Hfunds; apply lookup_delete_eq|done|]. intros i r. rewrite Hres, lookup_fmap, fmap_Some.
    intros (r0 & _ & ->). case_match eqn:E; [|done]. by apply non_terminal_set_state.
  - inv Hr.
    match goal with Hu : update_reservations _ _ _ = inr _ |- _ => apply reservations_lightened in Hu; [|done..] end.
    match goal with Hu : update_task_state _ _ _ = inr _ |- _ => apply task_state_lightened in Hu end.
    match goal with Hi : insert_ledger_entry _ _ = inr _ |- _ => apply insert_ledger_entry_inr in Hi as [-> _] end.
    match goal with Hu : recorded _ _ _ |- _ => apply recorded_lightened in Hu end.
    match goal with Hd : _ \/ _ |- _ => assert (lightened d db2) as Hd2 end.
    { transitivity (with_entries (refund_entry command fund0 now :: ledger_entries d) d); [same_escrow|].
      etrans; [apply (drop_fund_lightened (refund_TaskID command))|].
      match goal with Hd : _ \/ _ |- _ => destruct Hd as [[_ ->]|[_ ->]] end; [done|apply released_lightened]. }
    by repeat (etrans; [eassumption|]).
Qed.

Lemma changes_ended command d t s w note ds d' :
  changes_requested command d (ChangesRequested t s w note FirstExecution ds) d' -> ended_unencumbered d -> ended_unencumbered d'.
Proof.
  intros Hr. pose proof (changes_effect _ _ _ _ _ _ _ _ Hr) as [(task & Htask & Hopen & _) (row & row' & _ & _ & _ & _ & _ & _ & Hres) _ (Htasks & _ & Hfunds)].
  apply ended_step. intros u urow Hu He. rewrite Htasks in Hu. right. split; [by exists urow|].
  assert (u <> TypedID_String (changes_TaskID command)) as Hne.
  { intros ->. rewrite Htask in Hu. simplify_eq. rewrite Hopen in He. by destruct He. }
  intros [Hnf Hnh Hnr]. split; [by rewrite Hfunds| |].
  - replace (held_collectibles u d') with (held_collectibles u d); [done|]. inv Hr.
    match goal with Hr : update_submission_changes_requested _ _ _ _ _ = inr _ |- _ =>
      unfold update_submission_changes_requested in Hr; repeat split_match_in Hr; try done; injection Hr as <- end; by flatten.
  - intros i r. rewrite Hres, lookup_fmap, fmap_Some. intros (r0 & Hr0 & ->). specialize (Hnr _ _ Hr0). cbn in Hnr.
    destruct (worker_reservation _ _ _ r0) eqn:E; [|done]. unfold worker_reservation in E. apply bool_decide_eq_true in E as [E _].
    unfold non_terminal, set_res_state. cbn. rewrite E. by rewrite (proj2 (String.eqb_neq _ _)) by congruence.
Qed.


(** Every command of the ledger store keeps the ended tasks unencumbered. *)
Lemma performed_ended c d r d' :
  valid_command c -> performed c d r d' -> ended_unencumbered d -> ended_unencumbered d'.
Proof.
  intros Hv Hp.
  assert (refused d d' -> ended_unencumbered d -> ended_unencumbered d') as Href.
  { intros [cs ->]%refused_frame. apply same_tasks_ended; [done|same_escrow]. }
  destruct Hp as [command r d' -> Hf|command r d' -> Hf|command r d' -> Hf|command r d' -> Hf
                 |command r d' -> Hf|command r d' -> Hf|command r d' -> Hf|command r d' -> Hf]; cbn [valid_command] in *.
  - destruct r as [value [] ds|]; [by refine (funded_ended _ _ _ _ _ _ Hf)|by inv Hf|inv Hf; auto].
  - destruct r as [value [] ds|]; [by refine (funded_ended _ _ _ _ _ _ Hf)|by inv Hf|inv Hf; auto].
  - destruct r as [t s w payout tip [] ds|]; [by eapply accepted_ended|by inv Hf|inv Hf; auto].
  - destruct r as [t s w note [] ds|]; [by eapply changes_ended|by inv Hf|by inv Hf].
  - destruct r as [t s w payout tip [] ds|]; [by eapply rejected_ended|by inv Hf|inv Hf; auto].
  - destruct r as [value [] ds|]; [by eapply refunded_ended|by inv Hf|by inv Hf].
  - inv Hf; [auto|done|]. flatten. apply same_tasks_ended; [done|same_escrow].
  - inv Hf; [auto|done|]. flatten. apply same_tasks_ended; [done|same_escrow].
Qed.

(** ** Custody *)

(** A collectible is escrowed exactly when some task holds it. *)
Definition custody (d : DB) : Prop :=
  forall c, is_Some (task_fund_collectibles d !! c) <-> exists row, collectibles d !! c = Some row /\ col_state row = "escrowed".

Lemma same_custody d d' :
  collectibles d' = collectibles d -> task_fund_collectibles d' = task_fund_collectibles d -> custody d -> custody d'.
Proof. unfold custody. by intros -> ->. Qed.

Lemma released_custody f t d : (forall row, col_state (f row) = "minted") -> custody d -> custody (release_held f t d).
Proof.
  intros Hf Hc c. rewrite release_held_lookup. unfold release_held. cbn [task_fund_collectibles with_fund_collectibles].
  destruct (decide (task_fund_collectibles d !! c = Some (TypedID_String t))) as [E|E].
  - split.
    + intros [u Hu]. apply map_lookup_filter_Some in Hu as [Hu Hne]. cbn in Hne. congruence.
    + intros (row & Hrow & Hst). apply fmap_Some in Hrow as (row0 & _ & ->). by rewrite Hf in Hst.
  - rewrite <- (Hc c). split; intros [u Hu].
    + apply map_lookup_filter_Some in Hu as [Hu _]. by exists u.
    + exists u. apply map_lookup_filter_Some. split; [done|]. cbn. congruence.
Qed.

Lemma altered_custody f c d :
  (forall row, col_state (f row) = col_state row) -> custody d -> custody (with_collectibles (alter f c (collectibles d)) d).
Proof.
  intros Hf Hc i. rewrite (Hc i). cbn. destruct (decide (c = i)) as [->|]; [|by rewrite lookup_alter_ne].
  rewrite lookup_alter_eq. split.
  - intros (row & Hrow & Hst). exists (f row). by rewrite Hrow, Hf.
  - intros (row & (row0 & Hrow & ->)%fmap_Some & Hst). exists row0. by rewrite Hf in Hst.
Qed.

Lemma collectibles_paid_custody t raw d outcome d' : collectibles_paid t raw d outcome d' -> custody d -> custody d'.
Proof. intros []; [done|]. by apply released_custody. Qed.

Lemma collectible_tipped_custody reviewer raw sel d outcome d' :
  collectible_tipped reviewer raw sel d outcome d' -> custody d -> custody d'.
Proof. intros []; [done..|]. by apply altered_custody. Qed.

Lemma accepted_custody command d t s w payout tip ds d' :
  accepted command d (SubmissionAccepted t s w payout tip FirstExecution ds) d' -> custody d -> custody d'.
Proof.
  intros Ha. inv Ha.
  match goal with Hr : supersedes _ _ _ _ _ |- _ => apply supersedes_frame in Hr as (ss & -> & _) end.
  match goal with Hr : tipped _ _ _ _ _ _ _ _ _ _ |- _ => apply tipped_frame in Hr as [es' ->] end.
  match goal with Hr : update_submission_accepted _ _ _ = inr _ |- _ => apply update_submission_accepted_inr in Hr as [ss' ->] end.
  match goal with Hr : update_task_state _ _ _ = inr _ |- _ => apply update_task_state_inr in Hr as [ts ->] end.
  match goal with Hr : paid _ _ _ _ |- _ => apply paid_frame in Hr as [es ->] end.
  match goal with Hr : collectible_tipped _ _ _ _ _ _ |- _ => pose proof (collectible_tipped_custody _ _ _ _ _ _ Hr) as Htip end.
  match goal with Hr : collectibles_paid _ _ _ _ _ |- _ => pose proof (collectibles_paid_custody _ _ _ _ _ Hr) as Hpaid end.
  flatten. intros Hc. apply (same_custody db7); [done..|]. apply Htip. apply (same_custody db4); [done..|]. by apply Hpaid.
Qed.

Lemma refunded_custody command d value ds d' :
  refunded command d (TaskRefunded value FirstExecution ds) d' -> custody d -> custody d'.
Proof.
  intros Hr. inv Hr.
  match goal with Hu : update_task_state _ _ _ = inr _ |- _ => apply update_task_state_inr in Hu as [ts ->] end.
  flatten. intros Hc. apply (same_custody db2); [done..|].
  match goal with Hd : _ \/ _ |- _ => destruct Hd as [[_ ->]|[_ ->]] end; [by apply (same_custody d)|].
  apply released_custody; [done|]. by apply (same_custody d).
Qed.

(** Every command of the ledger store keeps custody. *)
Lemma performed_custody c d r d' : performed c d r d' -> custody d -> custody d'.
Proof.
  intros Hp.
  assert (refused d d' -> custody d -> custody d') as Href by (intros [cs ->]%refused_frame; by apply same_custody).
  destruct Hp as [command r d' -> Hf|command r d' -> Hf|command r d' -> Hf|command r d' -> Hf
                 |command r d' -> Hf|command r d' -> Hf|command r d' -> Hf|command r d' -> Hf].
  - inv Hf; [auto|done|]. match goal with Hr : reward_switched _ _ _ _ _ |- _ => apply reward_switched_frame in Hr as [ts ->] end.
    flatten. by apply same_custody.
  - inv Hf; [auto|done|]. match goal with Hr : reward_switched _ _ _ _ _ |- _ => apply reward_switched_frame in Hr as [ts ->] end.
    flatten. by apply same_custody.
  - destruct r as [t s w payout tip [] ds|]; [by eapply accepted_custody|by inv Hf|inv Hf; auto].
  - inv Hf; [done|done|].
    match goal with Hr : update_submission_changes_requested _ _ _ _ _ = inr _ |- _ =>
      unfold update_submission_changes_requested in Hr; repeat split_match_in Hr; try done; injection Hr as <- end; flatten; by apply same_custody.
  - destruct r as [t s w payout tip [] ds|]; [|by inv Hf|inv Hf; auto]. destruct (rejected_effect _ _ _ _ _ _ _ _ _ Hf) as [_ _ _ _ [? ?]].
    by apply same_custody.
  - destruct r as [value [] ds|]; [by eapply refunded_custody|by inv Hf|by inv Hf].
  - inv Hf; [auto|done|]. flatten. by apply same_custody.
  - inv Hf; [auto|done|]. flatten. by apply same_custody.
Qed.

(** ** The tasks there are *)

Lemma performed_tasks c d r d' t :
  valid_command c -> performed c d r d' -> is_Some (tasks d' !! t) -> is_Some (tasks d !! t).
Proof.
  intros Hv Hp.
  assert (tasks d' = tasks d -> is_Some (tasks d' !! t) -> is_Some (tasks d !! t)) as Hsame by (by intros ->).
  assert (refused d d' -> is_Some (tasks d' !! t) -> is_Some (tasks d !! t)) as Href by (by intros [cs ->]%refused_frame).
  assert (forall u, is_Some (tasks d !! u) -> (t <> u -> tasks d' !! t = tasks d !! t) -> is_Some (tasks d' !! t) -> is_Some (tasks d !! t)) as Hone.
  { intros u Hu Hne. destruct (decide (t = u)) as [->|]; [done|]. by rewrite Hne. }
  destruct Hp as [command r d' -> Hf|command r d' -> Hf|command r d' -> Hf|command r d' -> Hf
                 |command r d' -> Hf|command r d' -> Hf|command r d' -> Hf|command r d' -> Hf]; cbn [valid_command] in *.
  - destruct r as [value [] ds|]; [|by inv Hf|inv Hf; auto].
    apply funded_effect in Hf as (account & row & _ & Hrow & _ & He); [|done]. eapply Hone; [by eexists|apply (escrowed_tasks _ _ _ _ _ He)].
  - destruct r as [value [] ds|]; [|by inv Hf|inv Hf; auto].
    apply funded_effect in Hf as (account & row & _ & Hrow & _ & He); [|done]. eapply Hone; [by eexists|apply (escrowed_tasks _ _ _ _ _ He)].
  - destruct r as [s u w payout tip [] ds|]; [|by inv Hf|inv Hf; auto]. apply accepted_effect in Hf as [(row & Hrow & _) _ Hothers _ _ _ _ _].
    eapply Hone; [by eexists|apply Hothers].
  - destruct r as [s u w note [] ds|]; [|by inv Hf|by inv Hf]. apply changes_effect in Hf as [_ _ _ [Ht _]]. auto.
  - destruct r as [s u w payout tip [] ds|]; [|by inv Hf|inv Hf; auto]. apply rejected_effect in Hf as [_ Ht _ _ _]. auto.
  - destruct r as [value [] ds|]; [|by inv Hf|by inv Hf]. apply refunded_effect in Hf as [(row & Hrow & _ & _ & Ht) _ _ _ _ _].
    eapply Hone; [by eexists|]. intros Hne. rewrite Ht. by rewrite lookup_insert_ne.
  - inv Hf; [auto|done|]. flatten. auto.
  - inv Hf; [auto|done|]. flatten. auto.
Qed.

End EscrowSpecs.
