(* ===== verification/LedgerService.v ===== *)
(** * The ledger service

    Models [internal/ledger/service.go]: the service validates a request, draws
    the identifiers it needs, builds the event draft, calls the store, and hands
    the drafts the store recorded to the event recorder.  The service is written
    against the interface [Store]; [StoreContract] is what it relies on, and the
    database store of [LedgerStore] is an instance of both. *)

From S2P Require Import Prelude.
From S2P Require Import Core.
From S2P Require Import OrgRoles.
From S2P Require Import Assets.
From S2P Require Import Events.
From S2P Require Import LedgerValues.
From S2P Require Import Database.
From S2P Require Import Tx.
From S2P Require Import LedgerSpec.
From S2P Require Import Outbox.
From S2P Require Import LedgerHelpers.
From S2P Require Import LedgerStore.
From S2P Require Import HelperSpecs.
From S2P Require Import ReviewSpecs.
From S2P Require Import StoreSpecs.
From S2P Require Import Refinement.
From S2P Require Import LedgerCorrect.
From S2P Require Import LedgerReplay.
From S2P Require Import LedgerBehaviour.
From S2P Require Import LedgerInvariants.

(** * What the store's reads report

    Balances and listings: the balance of a wallet is the abstract ledger's, and
    the entries listed add up to it. *)
Local Open Scope string_scope.
Local Open Scope Z_scope.

(** A query, knowing whether its statement failed. *)
Lemma wp_query_row_fault {A} env (f : DB -> StmtError + A) Q st :
  (env_fails env (st_step st) = true -> Q (inl ErrOther) (tick st)) ->
  (env_fails env (st_step st) = false -> Q (f (st_db st)) (tick st)) -> wp env (query_row f) Q st.
Proof.
  intros Hf Hs. unfold wp, query_row, stmt. destruct (env_fails env (st_step st)); [by apply Hf|].
  specialize (Hs eq_refl). by destruct (f (st_db st)).
Qed.

Section Reads.
Context `{UUIDLib}.

(** ** Balances *)

(** The user has one account: what [credit_accounts_user_unique] and the creation
    of an account with its user give. *)
Definition sole_account (owner : UserID) (account : string) (db : DB) : Prop :=
  acct_id <$> accounts_of_user (TypedID_String owner) db = [account].

(** The credits the tasks funded from an account still hold. *)
Definition allocated_from (account : string) (db : DB) : Z :=
  map_sum (fun f => if decide (fund_account_id f = account) then fund_credit_amount f else 0) (task_funds db).

Lemma account_ids_sum account entries :
  sum_Z (entry_amount <$> filter (fun e => entry_account_id e ∈ [account]) entries) = account_sum account entries.
Proof.
  unfold account_sum, entries_of. do 2 f_equal. apply list_filter_iff. intros e.
  split; [by intros ?%list_elem_of_singleton|by intros ->; apply list_elem_of_singleton].
Qed.

Lemma account_ids_allocated account db :
  map_sum (fun f => if decide (fund_account_id f ∈ [account]) then fund_credit_amount f else 0) (task_funds db) =
  allocated_from account db.
Proof.
  unfold allocated_from, map_sum. f_equal. apply list_fmap_ext. intros _ [t f] _. cbn.
  destruct (decide (fund_account_id f = account)) as [->|Hne].
  - rewrite decide_True; [done|]. by apply list_elem_of_singleton.
  - rewrite decide_False; [done|]. by intros ?%list_elem_of_singleton.
Qed.

(** A wallet is reported when both sums fit the integers it is scanned into. *)
Definition wallet_fits (account : string) (db : DB) : Prop :=
  in_int64 (account_sum account (ledger_entries db)) = true /\ in_int64 (allocated_from account db) = true.

Lemma wallet_of_account account db :
  wallet_of [account] db =
    if in_int64 (account_sum account (ledger_entries db)) && in_int64 (allocated_from account db)
    then inr (account_sum account (ledger_entries db), allocated_from account db) else inl ErrOther.
Proof.
  unfold wallet_of, scan_int64. rewrite account_ids_sum, account_ids_allocated.
  by do 2 destruct (in_int64 _).
Qed.

Lemma StoreBalance_wp env owner db n account (Q : BalanceResult -> TxState -> Prop) :
  sole_account owner account db ->
  (forall reason k, (no_faults env -> ~ wallet_fits account db) -> Q (BalanceRejected reason) (MkTxState db db k)) ->
  (forall k, Q (BalanceFound (NewBalance (account_sum account (ledger_entries db)) (allocated_from account db))) (MkTxState db db k)) ->
  wp env (StoreBalance owner) Q (MkTxState db db n).
Proof.
  intros Hacc Hf Hs. unfold StoreBalance. apply wp_bind, wp_query_row_fault; cbn [st_db st_step]; intros Hfault; apply wp_ret.
  - apply Hf. intros Hok. by rewrite Hok in Hfault.
  - rewrite Hacc, wallet_of_account. destruct (_ && _) eqn:E; [apply Hs|].
    apply Hf. intros _ [H1 H2]. by rewrite H1, H2 in E.
Qed.

(** The balance reported for a user with one account is the abstract ledger's spendable sum and
    the credits their funded tasks hold, and the read changes nothing. *)
Theorem StoreBalance_reports env db owner account :
  sole_account owner account db -> no_faults env -> wallet_fits account db ->
  run env db (StoreBalance owner) =
    (BalanceFound (NewBalance (spendable account (view db)) (allocated_from account db)), db).
Proof.
  intros Hacc Hok Hfits. apply run_equal. rewrite spendable_account_sum. eapply StoreBalance_wp; [done|..].
  - intros reason k Hno. by destruct (Hno Hok).
  - by intros k.
Qed.

(** ** Listings *)

Lemma parseLedgerEntry_amount rawID rawKind amount rawTask note e :
  parseLedgerEntry rawID rawKind amount rawTask note = inr e -> SignedAmount_Int64 (LedgerEntry_Amount e) = amount.
Proof. unfold parseLedgerEntry, ParseSignedAmount. repeat split_match; intros [=]; by subst. Qed.

Definition listed_amounts (es : list LedgerEntry) : list Z := (fun e => SignedAmount_Int64 (LedgerEntry_Amount e)) <$> es.

Lemma scan_entries_wp env reason rows base db n (Q : DomainError + list LedgerEntry -> TxState -> Prop) :
  (forall r st, Q (inl r) st) ->
  (forall es k, listed_amounts es = entry_amount <$> rows -> Q (inr es) (MkTxState base db k)) ->
  wp env (scan_entries reason rows) Q (MkTxState base db n).
Proof.
  revert n Q. induction rows as [|row rows IH]; intros n Q Hf Hs; cbn -[parseLedgerEntry]; [by apply wp_ret, Hs|].
  do 2 wp_prim; [wp_prim; by apply Hf|]. destruct (parseLedgerEntry _ _ _ _ _) as [r|e] eqn:He; [wp_prim; by apply Hf|].
  apply parseLedgerEntry_amount in He. apply wp_bind, IH; [intros; wp_prim; by apply Hf|].
  intros es k Hes. wp_prim. apply Hs. unfold listed_amounts in *.
  by rewrite !fmap_cons, He, Hes.
Qed.

Lemma list_entries_wp env accounts m1 m2 m3 m4 page base db n (Q : ListEntriesResult -> TxState -> Prop) :
  (forall r st, Q (ListEntriesRejected r) st) ->
  (forall es k, listed_amounts es = entry_amount <$> entries_page (accounts db) page db ->
     Q (EntriesListed es (Z.of_nat (length (filter (fun e => entry_account_id e ∈ accounts db) (ledger_entries db)))))
       (MkTxState base db k)) ->
  wp env (list_entries accounts m1 m2 m3 m4 page) Q (MkTxState base db n).
Proof.
  intros Hf Hs. unfold list_entries. do 2 wp_prim; cbn -[entries_page]; [wp_prim; by apply Hf|].
  do 2 wp_prim; cbn -[entries_page]; [wp_prim; by apply Hf|].
  apply wp_bind, scan_entries_wp; [intros; wp_prim; by apply Hf|]. intros es k Hes.
  do 2 wp_prim; wp_prim; [by apply Hf|by apply Hs].
Qed.

(** A page that reaches the end holds every entry. *)
Lemma entries_page_all ids limit db :
  Z.of_nat (length (filter (fun e => entry_account_id e ∈ ids) (ledger_entries db))) <= limit ->
  entries_page ids (Pagination.MkPage limit 0) db ≡ₚ filter (fun e => entry_account_id e ∈ ids) (ledger_entries db).
Proof.
  intros Hl. unfold entries_page, Pagination.sql_page. cbn [Pagination.Limit Pagination.Offset]. rewrite drop_0.
  pose proof (merge_sort_Permutation entry_before (filter (fun e => entry_account_id e ∈ ids) (ledger_entries db))) as Hp.
  rewrite take_ge; [done|]. rewrite Hp. lia.
Qed.

(** The spendable balance derived from a complete listing of a user's entries is the balance
    the store reports. *)
Theorem listed_entries_derive_the_balance env env' db owner account es total limit balance :
  sole_account owner account db ->
  fst (run env db (ListEntries owner (Pagination.MkPage limit 0))) = EntriesListed es total -> total <= limit ->
  fst (run env' db (StoreBalance owner)) = BalanceFound balance ->
  DeriveSpendable es = Spendable balance.
Proof.
  intros Hacc Hlist Hlim Hbal.
  assert (in_int64 (account_sum account (ledger_entries db)) = true /\ Spendable balance = account_sum account (ledger_entries db)) as [Hin ->].
  { assert (wp env' (StoreBalance owner) (fun r _ => forall b, r = BalanceFound b ->
      in_int64 (account_sum account (ledger_entries db)) = true /\ Spendable b = account_sum account (ledger_entries db))
      (MkTxState db db 0)) as Hwp.
    { apply wp_bind, wp_query_row; cbn [st_db]; apply wp_ret; [done|]. rewrite Hacc, wallet_of_account.
      destruct (_ && _) eqn:E; [|done]. apply andb_true_iff in E as [-> _]. by intros b [= <-]. }
    apply wp_run in Hwp as (st & Hr & _). by apply Hr. }
  assert (wp env (ListEntries owner (Pagination.MkPage limit 0)) (fun r _ => forall es total, r = EntriesListed es total ->
    total = Z.of_nat (length (filter (fun e => entry_account_id e ∈ [account]) (ledger_entries db))) /\
    listed_amounts es = entry_amount <$> entries_page [account] (Pagination.MkPage limit 0) db) (MkTxState db db 0)) as Hwp.
  { unfold ListEntries. apply list_entries_wp; [done|]. rewrite Hacc. intros es' k Hes ? ? [= <- <-]. done. }
  apply wp_run in Hwp as (st & Hr & _). destruct (Hr _ _ Hlist) as [-> Hes].
  rewrite DeriveSpendable_wrap. change ((fun e => SignedAmount_Int64 (LedgerEntry_Amount e)) <$> es) with (listed_amounts es).
  rewrite Hes, (sum_Z_perm _ (entry_amount <$> filter (fun e => entry_account_id e ∈ [account]) (ledger_entries db))).
  - rewrite account_ids_sum. by apply wrap64_id.
  - by apply fmap_Permutation, entries_page_all.
Qed.
End Reads.

Local Open Scope string_scope.
Local Open Scope Z_scope.

(** ** The store interface *)

Class Store (S : Type) := {
  store_FundTask : FundStoreCommand -> S -> FundResult * S;
  store_FundTaskFromOrganization : OrganizationFundStoreCommand -> S -> FundResult * S;
  store_AcceptSubmission : AcceptStoreCommand -> S -> AcceptResult * S;
  store_RequestChanges : RequestChangesStoreCommand -> S -> RequestChangesResult * S;
  store_RejectSubmission : RejectStoreCommand -> S -> RejectResult * S;
  store_RefundTask : RefundStoreCommand -> S -> RefundResult * S;
  store_GrantCredits : GrantStoreCommand -> S -> GrantResult * S;
  store_PeerTransfer : PeerTransferStoreCommand -> S -> SendResult * S;
  store_TaskAllocatedCredits : TaskID -> S -> TaskAllocatedResult * S;
  store_Balance : UserID -> S -> BalanceResult * S;
  store_OrganizationBalance : OrganizationID -> S -> BalanceResult * S;
  store_ListEntries : UserID -> Pagination.Page -> S -> ListEntriesResult * S;
  store_ListOrganizationEntries : OrganizationID -> Pagination.Page -> S -> ListEntriesResult * S
}.

(** One command, whatever its kind. *)
Definition store_perform {S} `{Store S} (c : Command) (s : S) : Result * S :=
  match c with
  | CFund command => let '(r, s') := store_FundTask command s in (RFund r, s')
  | COrganizationFund command => let '(r, s') := store_FundTaskFromOrganization command s in (RFund r, s')
  | CAccept command => let '(r, s') := store_AcceptSubmission command s in (RAccept r, s')
  | CRequestChanges command => let '(r, s') := store_RequestChanges command s in (RRequestChanges r, s')
  | CReject command => let '(r, s') := store_RejectSubmission command s in (RReject r, s')
  | CRefund command => let '(r, s') := store_RefundTask command s in (RRefund r, s')
  | CGrant command => let '(r, s') := store_GrantCredits command s in (RGrant r, s')
  | CSend command => let '(r, s') := store_PeerTransfer command s in (RSend r, s')
  end.

(** What the service relies on: the store keeps its invariant, a replay brings
    no events, and a first execution has made its events durable. *)
Class StoreContract (S : Type) `{Store S} := {
  store_ok : S -> Prop;
  store_durable : list Draft -> S -> S -> Prop;
  store_keeps_ok c s : valid_command c -> store_ok s -> store_ok (snd (store_perform c s));
  store_replay_silent c s ds : valid_command c -> store_ok s ->
    execution_of (fst (store_perform c s)) = Some (IdempotentReplay, ds) -> ds = [];
  store_first_durable c s ds : valid_command c -> store_ok s ->
    execution_of (fst (store_perform c s)) = Some (FirstExecution, ds) -> store_durable ds s (snd (store_perform c s))
}.

(** ** The service's effects *)

Record AuditSubject := MkAuditSubject { AuditSubject_Kind : string; AuditSubject_ID : string }.

Record AuditEntry := MkAuditEntry {
  Audit_Actor : UserID;
  Audit_Action : string;
  Audit_Subject : AuditSubject;
  Audit_Metadata : string
}.

Definition ActionAdminCreditGranted : string := "admin_credit_granted".

Record ServiceState (S : Type) := MkServiceState {
  svc_store : S;
  svc_drawn : nat;                 (* identifiers drawn so far *)
  svc_dispatched : list Draft;     (* what the recorder was given, in order *)
  svc_audit : list AuditEntry
}.
Arguments MkServiceState {S}.
Arguments svc_store {S}.
Arguments svc_drawn {S}.
Arguments svc_dispatched {S}.
Arguments svc_audit {S}.

(** The identifier generators of [core]: they may fail. *)
Record Generators := MkGenerators {
  gen_entry_id : nat -> TypedIDResult KLedgerEntry;
  gen_event_id : nat -> TypedIDResult KDomainEvent
}.

Definition SM (S A : Type) : Type := Generators -> ServiceState S -> A * ServiceState S.

#[export] Instance SM_ret S : MRet (SM S) := fun A a _ st => (a, st).
#[export] Instance SM_bind S : MBind (SM S) := fun A B k m gen st => let '(a, st') := m gen st in k a gen st'.

Module Service.
Section Operations.
Context `{UUIDLib} {S : Type} `{Store S}.

Definition draw {A} (f : Generators -> nat -> A) : SM S A := fun gen st =>
  (f gen (svc_drawn st), MkServiceState (svc_store st) (Datatypes.S (svc_drawn st)) (svc_dispatched st) (svc_audit st)).

Definition newLedgerEntryID : SM S (TypedIDResult KLedgerEntry) := draw gen_entry_id.

Definition ledgerDraft (kind : Kind) (actor : Actor) (subject : Subject) (metadata : Metadata)
    (recipients : Recipients) : SM S (DraftResult) :=
  id ← draw gen_event_id;
  mret (NewDraft id kind actor subject metadata recipients).

Definition call {A} (f : S -> A * S) : SM S A := fun _ st =>
  let '(a, s') := f (svc_store st) in (a, MkServiceState s' (svc_drawn st) (svc_dispatched st) (svc_audit st)).

(** [service.recorder.Dispatch(ctx, drafts...)] *)
Definition Dispatch (drafts : list Draft) : SM S unit := fun _ st =>
  (tt, MkServiceState (svc_store st) (svc_drawn st) (svc_dispatched st ++ drafts) (svc_audit st)).

Definition audit_Record (entry : AuditEntry) : SM S unit := fun _ st =>
  (tt, MkServiceState (svc_store st) (svc_drawn st) (svc_dispatched st) (svc_audit st ++ [entry])).

(** ** Operations *)

Definition FundTask (funder : UserID) (taskID : TaskID) (amount : CreditAmount) (key : IdempotencyKey)
    (origin : SpendOrigin) : SM S FundResult :=
  entry ← newLedgerEntryID;
  match entry with
  | TypedIDRejected reason => mret (FundRejected reason)
  | TypedIDCreated entryID =>
  draft ← ledgerDraft KindTaskFunded (ActorUser funder) (taskSubject taskID)
            (TaskAmountMetadata taskID (CreditAmount_Int64 amount)) (NewRecipients [funder]);
  match draft with
  | DraftRejected reason => mret (FundRejected reason)
  | DraftCreated draft =>
  result ← call (store_FundTask (MkFundStoreCommand entryID funder taskID amount key (spendChargeFor origin amount) draft));
  match result with
  | TaskFunded _ _ events => _ ← Dispatch events; mret result
  | _ => mret result
  end end end.

Definition ReviewAcceptSubmission (reviewer : Reviewer) (taskID : TaskID) (submissionID : SubmissionID)
    (key : IdempotencyKey) (creditSelection : CreditReviewSelection) (tipSelection : TipSelection)
    (collectibleTip : CollectibleTipSelection) (origin : SpendOrigin) : SM S AcceptResult :=
  match requireReviewerCanPay reviewer tipSelection collectibleTip NoBanSelection with
  | Some reason => mret (AcceptRejected reason)
  | None =>
  payout ← newLedgerEntryID;
  match payout with TypedIDRejected reason => mret (AcceptRejected reason) | TypedIDCreated payoutEntryID =>
  refund ← newLedgerEntryID;
  match refund with TypedIDRejected reason => mret (AcceptRejected reason) | TypedIDCreated refundEntryID =>
  debit ← newLedgerEntryID;
  match debit with TypedIDRejected reason => mret (AcceptRejected reason) | TypedIDCreated tipDebitEntryID =>
  credit ← newLedgerEntryID;
  match credit with TypedIDRejected reason => mret (AcceptRejected reason) | TypedIDCreated tipCreditEntryID =>
  let '(actor, recipients) := reviewerActor reviewer in
  draft ← ledgerDraft KindSubmissionAccepted actor (reviewSubject taskID submissionID) (TaskMetadata taskID) recipients;
  match draft with
  | DraftRejected reason => mret (AcceptRejected reason)
  | DraftCreated draft =>
  result ← call (store_AcceptSubmission (MkAcceptStoreCommand payoutEntryID refundEntryID tipDebitEntryID tipCreditEntryID
    reviewer taskID submissionID key creditSelection tipSelection collectibleTip
    (tipSpendChargeFor origin tipSelection) draft));
  match result with
  | SubmissionAccepted _ _ _ _ _ _ events => _ ← Dispatch events; mret result
  | _ => mret result
  end end end end end end end.

Definition AcceptSubmission (reviewer : Reviewer) (taskID : TaskID) (submissionID : SubmissionID)
    (key : IdempotencyKey) : SM S AcceptResult :=
  ReviewAcceptSubmission reviewer taskID submissionID key FullCreditReviewSelection NoTipSelection
    NoCollectibleTipSelection SpendByUser.

Definition RequestChanges (reviewer : Reviewer) (taskID : TaskID) (submissionID : SubmissionID)
    (key : IdempotencyKey) (note : ReviewNote) : SM S RequestChangesResult :=
  let '(actor, recipients) := reviewerActor reviewer in
  draft ← ledgerDraft KindSubmissionChangesRequested actor (reviewSubject taskID submissionID) (TaskMetadata taskID) recipients;
  match draft with
  | DraftRejected reason => mret (RequestChangesRejected reason)
  | DraftCreated draft =>
  result ← call (store_RequestChanges (MkRequestChangesStoreCommand reviewer taskID submissionID key note draft));
  match result with
  | ChangesRequested _ _ _ _ _ events => _ ← Dispatch events; mret result
  | _ => mret result
  end end.

Definition RejectSubmission (reviewer : Reviewer) (taskID : TaskID) (submissionID : SubmissionID)
    (key : IdempotencyKey) (note : ReviewNote) (creditSelection : CreditReviewSelection)
    (tipSelection : TipSelection) (banSelection : BanSelection) (origin : SpendOrigin) : SM S RejectResult :=
  match requireReviewerCanPay reviewer tipSelection NoCollectibleTipSelection banSelection with
  | Some reason => mret (RejectRejected reason)
  | None =>
  payout ← newLedgerEntryID;
  match payout with TypedIDRejected reason => mret (RejectRejected reason) | TypedIDCreated payoutEntryID =>
  debit ← newLedgerEntryID;
  match debit with TypedIDRejected reason => mret (RejectRejected reason) | TypedIDCreated tipDebitEntryID =>
  credit ← newLedgerEntryID;
  match credit with TypedIDRejected reason => mret (RejectRejected reason) | TypedIDCreated tipCreditEntryID =>
  let '(actor, recipients) := reviewerActor reviewer in
  draft ← ledgerDraft KindSubmissionRejected actor (reviewSubject taskID submissionID) (TaskMetadata taskID) recipients;
  match draft with
  | DraftRejected reason => mret (RejectRejected reason)
  | DraftCreated draft =>
  result ← call (store_RejectSubmission (MkRejectStoreCommand payoutEntryID tipDebitEntryID tipCreditEntryID reviewer
    taskID submissionID key note creditSelection tipSelection banSelection (tipSpendChargeFor origin tipSelection) draft));
  match result with
  | SubmissionRejected _ _ _ _ _ _ events => _ ← Dispatch events; mret result
  | _ => mret result
  end end end end end end.

Definition RefundTask (requester : UserID) (taskID : TaskID) (key : IdempotencyKey) : SM S RefundResult :=
  entry ← newLedgerEntryID;
  match entry with
  | TypedIDRejected reason => mret (RefundRejected reason)
  | TypedIDCreated entryID =>
  draft ← ledgerDraft KindTaskCancelled (ActorUser requester) (taskSubject taskID) (TaskRefundMetadata taskID)
            (NewRecipients [requester]);
  match draft with
  | DraftRejected reason => mret (RefundRejected reason)
  | DraftCreated draft =>
  result ← call (store_RefundTask (MkRefundStoreCommand entryID requester taskID key draft));
  match result with
  | TaskRefunded _ _ events => _ ← Dispatch events; mret result
  | _ => mret result
  end end end.

Definition FundTaskFromOrganization (actingUser : UserID) (organizationID : OrganizationID) (taskID : TaskID)
    (amount : CreditAmount) (key : IdempotencyKey) (origin : SpendOrigin) : SM S FundResult :=
  entry ← newLedgerEntryID;
  match entry with
  | TypedIDRejected reason => mret (FundRejected reason)
  | TypedIDCreated entryID =>
  let subject := set_Organization (OrganizationSubject organizationID) (taskSubject taskID) in
  draft ← ledgerDraft KindTaskFunded (ActorUser actingUser) subject
            (TaskAmountMetadata taskID (CreditAmount_Int64 amount)) (NewRecipients [actingUser]);
  match draft with
  | DraftRejected reason => mret (FundRejected reason)
  | DraftCreated draft =>
  result ← call (store_FundTaskFromOrganization (MkOrganizationFundStoreCommand entryID organizationID taskID amount key
    actingUser (spendChargeFor origin amount) draft));
  match result with
  | TaskFunded _ _ events => _ ← Dispatch events; mret result
  | _ => mret result
  end end end.

(** The default case of the Go switch (a nil target) has no counterpart. *)
Definition GrantCredits (actingAdmin : UserID) (target : GrantTarget) (amount : CreditAmount) (note : GrantNote)
    (key : IdempotencyKey) : SM S GrantResult :=
  let '(subject, auditSubject) := match target with
    | GrantToUser id => (NoSubjectRefs, MkAuditSubject "user" (TypedID_String id))
    | GrantToOrganization id =>
        (set_Organization (OrganizationSubject id) NoSubjectRefs, MkAuditSubject "organization" (TypedID_String id))
    end in
  entry ← newLedgerEntryID;
  match entry with
  | TypedIDRejected reason => mret (GrantRejected reason)
  | TypedIDCreated entryID =>
  draft ← ledgerDraft KindCreditGranted (ActorUser actingAdmin) subject (AmountMetadata (CreditAmount_Int64 amount))
            (NewRecipients [actingAdmin]);
  match draft with
  | DraftRejected reason => mret (GrantRejected reason)
  | DraftCreated draft =>
  result ← call (store_GrantCredits (MkGrantStoreCommand entryID target amount note key draft));
  match result with
  | CreditsGranted _ _ _ _ events =>
      _ ← Dispatch events;
      _ ← audit_Record (MkAuditEntry actingAdmin ActionAdminCreditGranted auditSubject
            (Metadata_JSON (AmountMetadata (CreditAmount_Int64 amount))));
      mret result
  | _ => mret result
  end end end.

(** The guards of [SendCredits]: the rejection, or the subject of its event. *)
Definition send_subject (actor : UserID) (source : TransferSource) (target : TransferTarget) : DomainError + Subject :=
  let with_target subject :=
    match target with
    | TransferToOrganization id => set_Organization (OrganizationSubject id) subject
    | TransferToUser _ => subject
    end in
  match source with
  | TransferFromSelf =>
      if match target with TransferToUser id => bool_decide (id = actor) | TransferToOrganization _ => false end then
        inl (invalid_argument "credits cannot be sent to yourself")
      else inr (with_target NoSubjectRefs)
  | TransferFromOrganization id =>
      match target with
      | TransferToOrganization _ => inl (invalid_argument "organization credits can be sent to users only")
      | TransferToUser _ => inr (with_target (set_Organization (OrganizationSubject id) NoSubjectRefs))
      end
  end.

Definition SendCredits (actor : UserID) (source : TransferSource) (target : TransferTarget) (amount : CreditAmount)
    (note : TransferNote) (key : IdempotencyKey) (origin : SpendOrigin) : SM S SendResult :=
  match send_subject actor source target with
  | inl reason => mret (SendRejected reason)
  | inr subject =>
  debit ← newLedgerEntryID;
  match debit with TypedIDRejected reason => mret (SendRejected reason) | TypedIDCreated debitEntryID =>
  credit ← newLedgerEntryID;
  match credit with TypedIDRejected reason => mret (SendRejected reason) | TypedIDCreated creditEntryID =>
  draft ← ledgerDraft KindCreditsSent (ActorUser actor) subject (AmountMetadata (CreditAmount_Int64 amount))
            (NewRecipients [actor]);
  match draft with
  | DraftRejected reason => mret (SendRejected reason)
  | DraftCreated draft =>
  result ← call (store_PeerTransfer (MkPeerTransferStoreCommand debitEntryID creditEntryID actor source target amount
    note key (spendChargeFor origin amount) draft));
  match result with
  | CreditsSent _ _ _ _ events => _ ← Dispatch events; mret result
  | _ => mret result
  end end end end end.

Definition Balance (owner : UserID) : SM S BalanceResult := call (store_Balance owner).
Definition OrganizationBalance (organizationID : OrganizationID) : SM S BalanceResult :=
  call (store_OrganizationBalance organizationID).
Definition TaskAllocatedCredits (taskID : TaskID) : SM S TaskAllocatedResult := call (store_TaskAllocatedCredits taskID).
Definition ListEntries (owner : UserID) (page : Pagination.Page) : SM S ListEntriesResult :=
  call (store_ListEntries owner page).
Definition ListOrganizationEntries (organizationID : OrganizationID) (page : Pagination.Page) : SM S ListEntriesResult :=
  call (store_ListOrganizationEntries organizationID page).
End Operations.
End Service.

(** ** Requests and what they may ask of the store *)

Inductive Request :=
| QFundTask (funder : UserID) (taskID : TaskID) (amount : CreditAmount) (key : IdempotencyKey) (origin : SpendOrigin)
| QFundTaskFromOrganization (actingUser : UserID) (organizationID : OrganizationID) (taskID : TaskID)
    (amount : CreditAmount) (key : IdempotencyKey) (origin : SpendOrigin)
| QReviewAcceptSubmission (reviewer : Reviewer) (taskID : TaskID) (submissionID : SubmissionID) (key : IdempotencyKey)
    (creditSelection : CreditReviewSelection) (tipSelection : TipSelection)
    (collectibleTip : CollectibleTipSelection) (origin : SpendOrigin)
| QRequestChanges (reviewer : Reviewer) (taskID : TaskID) (submissionID : SubmissionID) (key : IdempotencyKey) (note : ReviewNote)
| QRejectSubmission (reviewer : Reviewer) (taskID : TaskID) (submissionID : SubmissionID) (key : IdempotencyKey)
    (note : ReviewNote) (creditSelection : CreditReviewSelection) (tipSelection : TipSelection)
    (banSelection : BanSelection) (origin : SpendOrigin)
| QRefundTask (requester : UserID) (taskID : TaskID) (key : IdempotencyKey)
| QGrantCredits (actingAdmin : UserID) (target : GrantTarget) (amount : CreditAmount) (note : GrantNote) (key : IdempotencyKey)
| QSendCredits (actor : UserID) (source : TransferSource) (target : TransferTarget) (amount : CreditAmount)
    (note : TransferNote) (key : IdempotencyKey) (origin : SpendOrigin).

(** The amounts of a request went through [NewCreditAmount]. *)
Definition valid_request (q : Request) : Prop :=
  match q with
  | QFundTask _ _ amount _ _ | QFundTaskFromOrganization _ _ _ amount _ _ | QGrantCredits _ _ amount _ _
  | QSendCredits _ _ _ amount _ _ _ => valid_amount amount
  | QReviewAcceptSubmission _ _ _ _ _ tip _ _ | QRejectSubmission _ _ _ _ _ _ tip _ _ => valid_tip tip
  | QRequestChanges _ _ _ _ _ | QRefundTask _ _ _ => True
  end.

Section Requests.
Context `{UUIDLib}.

(** What a draft says: the kind, and that the acting user is actor and recipient. *)
Definition draft_by (d : Draft) (kind : Kind) (user : UserID) : Prop :=
  Draft_Kind d = kind /\ Draft_Actor d = ActorUser user /\ Draft_Recipients d = NewRecipients [user].

Definition draft_by_reviewer (d : Draft) (kind : Kind) (reviewer : Reviewer) (t : TaskID) (s : SubmissionID) : Prop :=
  Draft_Kind d = kind /\ (Draft_Actor d, Draft_Recipients d) = reviewerActor reviewer /\ Draft_Subject d = reviewSubject t s.

(** The commands a request may become: its own parameters, the spend charge of
    its origin, a draft in the name of its actor, and its guards. *)
Definition asks (q : Request) (c : Command) : Prop :=
  match q, c with
  | QFundTask funder t amount key origin, CFund command => exists entry draft,
      command = MkFundStoreCommand entry funder t amount key (spendChargeFor origin amount) draft /\
      draft_by draft KindTaskFunded funder
  | QFundTaskFromOrganization acting organization t amount key origin, COrganizationFund command => exists entry draft,
      command = MkOrganizationFundStoreCommand entry organization t amount key acting (spendChargeFor origin amount) draft /\
      draft_by draft KindTaskFunded acting
  | QReviewAcceptSubmission reviewer t s key credit tip ctip origin, CAccept command => exists e1 e2 e3 e4 draft,
      command = MkAcceptStoreCommand e1 e2 e3 e4 reviewer t s key credit tip ctip (tipSpendChargeFor origin tip) draft /\
      draft_by_reviewer draft KindSubmissionAccepted reviewer t s /\
      requireReviewerCanPay reviewer tip ctip NoBanSelection = None
  | QRequestChanges reviewer t s key note, CRequestChanges command => exists draft,
      command = MkRequestChangesStoreCommand reviewer t s key note draft /\
      draft_by_reviewer draft KindSubmissionChangesRequested reviewer t s
  | QRejectSubmission reviewer t s key note credit tip ban origin, CReject command => exists e1 e2 e3 draft,
      command = MkRejectStoreCommand e1 e2 e3 reviewer t s key note credit tip ban (tipSpendChargeFor origin tip) draft /\
      draft_by_reviewer draft KindSubmissionRejected reviewer t s /\
      requireReviewerCanPay reviewer tip NoCollectibleTipSelection ban = None
  | QRefundTask requester t key, CRefund command => exists entry draft,
      command = MkRefundStoreCommand entry requester t key draft /\ draft_by draft KindTaskCancelled requester
  | QGrantCredits admin target amount note key, CGrant command => exists entry draft,
      command = MkGrantStoreCommand entry target amount note key draft /\ draft_by draft KindCreditGranted admin
  | QSendCredits actor source target amount note key origin, CSend command => exists e1 e2 draft,
      command = MkPeerTransferStoreCommand e1 e2 actor source target amount note key (spendChargeFor origin amount) draft /\
      draft_by draft KindCreditsSent actor /\ Service.send_subject actor source target = inr (Draft_Subject draft)
  | _, _ => False
  end.

Lemma asks_valid q c : valid_request q -> asks q c -> valid_command c.
Proof. destruct q, c; cbn; try done; intros Hv Ha; repeat match type of Ha with _ /\ _ => destruct Ha as [? Ha] | ex _ => destruct Ha as [? Ha] end; by subst. Qed.

Definition events_of (r : Result) : list Draft :=
  match execution_of r with Some (_, ds) => ds | None => [] end.

Context {S : Type} `{Store S}.

Definition serve (q : Request) : SM S Result :=
  match q with
  | QFundTask funder t amount key origin => r ← Service.FundTask funder t amount key origin; mret (RFund r)
  | QFundTaskFromOrganization acting organization t amount key origin =>
      r ← Service.FundTaskFromOrganization acting organization t amount key origin; mret (RFund r)
  | QReviewAcceptSubmission reviewer t s key credit tip ctip origin =>
      r ← Service.ReviewAcceptSubmission reviewer t s key credit tip ctip origin; mret (RAccept r)
  | QRequestChanges reviewer t s key note => r ← Service.RequestChanges reviewer t s key note; mret (RRequestChanges r)
  | QRejectSubmission reviewer t s key note credit tip ban origin =>
      r ← Service.RejectSubmission reviewer t s key note credit tip ban origin; mret (RReject r)
  | QRefundTask requester t key => r ← Service.RefundTask requester t key; mret (RRefund r)
  | QGrantCredits admin target amount note key => r ← Service.GrantCredits admin target amount note key; mret (RGrant r)
  | QSendCredits actor source target amount note key origin =>
      r ← Service.SendCredits actor source target amount note key origin; mret (RSend r)
  end.

(** A request is refused before the store is reached, or becomes one command
    whose events, and no others, go to the recorder. *)
Inductive served (q : Request) (st : ServiceState S) : Result -> ServiceState S -> Prop :=
| served_refused r st' :
    execution_of r = None -> svc_store st' = svc_store st -> svc_dispatched st' = svc_dispatched st ->
    served q st r st'
| served_called c r st' :
    asks q c -> store_perform c (svc_store st) = (r, svc_store st') ->
    svc_dispatched st' = (svc_dispatched st ++ events_of r)%list -> served q st r st'.

(** Run the primitives of a service operation. *)
Ltac serve_steps :=
  unfold serve, Service.newLedgerEntryID, Service.ledgerDraft, Service.draw, Service.call, Service.Dispatch,
    Service.audit_Record, mbind, SM_bind, mret, SM_ret, NewDraft;
  repeat (cbn; split_match); cbn; simplify_eq.

Ltac serve_end :=
  first
  [ by apply served_refused
  | match goal with
    | E : store_FundTask ?c _ = _ |- _ => apply (served_called _ _ (CFund c))
    | E : store_FundTaskFromOrganization ?c _ = _ |- _ => apply (served_called _ _ (COrganizationFund c))
    | E : store_AcceptSubmission ?c _ = _ |- _ => apply (served_called _ _ (CAccept c))
    | E : store_RequestChanges ?c _ = _ |- _ => apply (served_called _ _ (CRequestChanges c))
    | E : store_RejectSubmission ?c _ = _ |- _ => apply (served_called _ _ (CReject c))
    | E : store_RefundTask ?c _ = _ |- _ => apply (served_called _ _ (CRefund c))
    | E : store_GrantCredits ?c _ = _ |- _ => apply (served_called _ _ (CGrant c))
    | E : store_PeerTransfer ?c _ = _ |- _ => apply (served_called _ _ (CSend c))
    end;
    [ cbn; repeat eexists; try done; by destruct_or?
    | cbn; by repeat match goal with E : ?f _ = _ |- context [?f _] => rewrite E end
    | cbn; by rewrite ?app_nil_r ] ].

Lemma serve_spec q gen st : served q st (fst (serve q gen st)) (snd (serve q gen st)).
Proof.
  destruct q; unfold serve.
  - unfold Service.FundTask. serve_steps; serve_end.
  - unfold Service.FundTaskFromOrganization. serve_steps; serve_end.
  - unfold Service.ReviewAcceptSubmission. serve_steps; serve_end.
  - unfold Service.RequestChanges. serve_steps; serve_end.
  - unfold Service.RejectSubmission. serve_steps; serve_end.
  - unfold Service.RefundTask. serve_steps; serve_end.
  - unfold Service.GrantCredits. serve_steps; serve_end.
  - unfold Service.SendCredits. serve_steps; serve_end.
Qed.

(** Against any store that keeps its contract: serving a request keeps the store's invariant,
    and the drafts handed to the dispatcher are none, or those of a first execution that the store
    has already made durable. *)
Theorem service_dispatches_durable_events `{!StoreContract S} q gen st :
  valid_request q -> store_ok (svc_store st) ->
  let '(r, st') := serve q gen st in
  store_ok (svc_store st') /\
  exists ds, svc_dispatched st' = (svc_dispatched st ++ ds)%list /\
    (ds = [] \/ (execution_of r = Some (FirstExecution, ds) /\ store_durable ds (svc_store st) (svc_store st'))).
Proof.
  intros Hv Hok. pose proof (serve_spec q gen st) as Hs. destruct (serve q gen st) as [r st']. cbn in Hs.
  destruct Hs as [r st' _ -> ->|c r st' Ha Hc ->].
  { split; [done|]. exists []. rewrite app_nil_r. auto. }
  apply asks_valid in Ha as Hvc; [|done].
  pose proof (store_keeps_ok c _ Hvc Hok) as Hk. rewrite Hc in Hk. split; [done|].
  exists (events_of r). split; [done|]. unfold events_of.
  destruct (execution_of r) as [[[] ds]|] eqn:He; [right|left|by left].
  - split; [done|]. pose proof (store_first_durable c _ ds Hvc Hok) as Hd. rewrite Hc in Hd. by apply Hd.
  - eapply (store_replay_silent c _ ds Hvc Hok). by rewrite Hc.
Qed.

End Requests.

(** ** The database store implements the interface *)

Section Implementation.
Context `{UUIDLib} (envs : nat -> Env).

(** Each call runs in the environment of its turn. *)
Definition at_turn {A} (m : M A) (s : DB * nat) : A * (DB * nat) :=
  let '(a, db') := run (envs s.2) s.1 m in (a, (db', Datatypes.S s.2)).

#[export] Instance db_store : Store (DB * nat) := {|
  store_FundTask command := at_turn (FundTask command);
  store_FundTaskFromOrganization command := at_turn (FundTaskFromOrganization command);
  store_AcceptSubmission command := at_turn (AcceptSubmission command);
  store_RequestChanges command := at_turn (RequestChanges command);
  store_RejectSubmission command := at_turn (RejectSubmission command);
  store_RefundTask command := at_turn (RefundTask command);
  store_GrantCredits command := at_turn (GrantCredits command);
  store_PeerTransfer command := at_turn (PeerTransfer command);
  store_TaskAllocatedCredits t := at_turn (TaskAllocatedCredits t);
  store_Balance u := at_turn (StoreBalance u);
  store_OrganizationBalance o := at_turn (OrganizationBalance o);
  store_ListEntries u page := at_turn (ListEntries u page);
  store_ListOrganizationEntries o page := at_turn (ListOrganizationEntries o page)
|}.

Lemma store_perform_run c s :
  store_perform c s = (fst (run (envs s.2) s.1 (perform c)), (snd (run (envs s.2) s.1 (perform c)), Datatypes.S s.2)).
Proof.
  destruct c; cbn [perform store_perform db_store store_FundTask store_FundTaskFromOrganization store_AcceptSubmission
    store_RequestChanges store_RejectSubmission store_RefundTask store_GrantCredits store_PeerTransfer];
    rewrite run_bind_ret; unfold at_turn; by destruct (run _ _ _).
Qed.

#[export] Program Instance db_store_contract : StoreContract (DB * nat) := {|
  store_ok s := ledger_ok s.1;
  store_durable ds s s' := outbox_holds ds s.1 s'.1
|}.
Next Obligation.
  intros c s Hv Hok. rewrite store_perform_run. cbn.
  eapply (performed_ledger_ok c); [done| |exact Hok]. by apply perform_spec; [apply ledger_funds|].
Qed.
Next Obligation.
  intros c s ds Hv Hok. rewrite store_perform_run. cbn. intros He.
  assert (performed c s.1 (fst (run (envs s.2) s.1 (perform c))) (snd (run (envs s.2) s.1 (perform c)))) as Hp
    by (apply perform_spec; [apply Hok|done]).
  by eapply performed_replay_silent.
Qed.
Next Obligation.
  intros c s ds Hv Hok. rewrite store_perform_run. cbn. intros He.
  eapply performed_outbox; [|done]. apply perform_spec; [apply Hok|done].
Qed.

(** A request either leaves the store alone or is one command performed on it. *)
Lemma served_performed q gen (st : ServiceState (DB * nat)) :
  valid_request q -> ledger_ok (svc_store st).1 ->
  let '(r, st') := serve q gen st in
  svc_dispatched st' = (svc_dispatched st ++ events_of r)%list /\
  ((execution_of r = None /\ svc_store st' = svc_store st) \/
   exists c, asks q c /\ valid_command c /\ performed c (svc_store st).1 r (svc_store st').1).
Proof.
  intros Hv Hok. pose proof (serve_spec q gen st) as Hs. destruct (serve q gen st) as [r st']. cbn [fst snd] in Hs.
  destruct Hs as [r st' He Hst Hd|c r st' Ha Hc Hd].
  { split; [|by left]. unfold events_of. by rewrite He, app_nil_r. }
  split; [done|]. right. exists c. apply asks_valid in Ha as Hvc; [|done]. do 2 (split; [done|]).
  rewrite store_perform_run in Hc. injection Hc as <- <-. apply perform_spec; [apply Hok|done].
Qed.

(** C12: End to end. A request served over the database store is either refused with the store
    untouched, or becomes one command with the request's parameters, actor, spend charge and guards,
    whose effect on the tables is that of its abstract movements. *)
Theorem service_implements_ledger q gen (st : ServiceState (DB * nat)) :
  valid_request q -> ledger_ok (svc_store st).1 ->
  let '(r, st') := serve q gen st in
  (execution_of r = None /\ svc_store st' = svc_store st) \/
  exists c ms, asks q c /\ command_movements c (svc_store st).1 r ms /\
    apply_movements ms (view (svc_store st).1) = Some (view (svc_store st').1).
Proof.
  intros Hv Hok. pose proof (served_performed q gen st Hv Hok) as Hs. destruct (serve q gen st) as [r st'].
  destruct Hs as [_ [Hno|(c & Ha & Hvc & Hp)]]; [by left|right].
  apply performed_refines in Hp as (ms & Hm & Hl); [|done]. by exists c, ms.
Qed.

(** ** Reviews in the name of an organization *)

(** The reviewer and the task of a review request. *)
Definition review_of (q : Request) : option (Reviewer * TaskID) :=
  match q with
  | QReviewAcceptSubmission reviewer t _ _ _ _ _ _ | QRequestChanges reviewer t _ _ _
  | QRejectSubmission reviewer t _ _ _ _ _ _ _ => Some (reviewer, t)
  | _ => None
  end.

(** Movements of a task's escrow: out of it, never out of an account. *)
Definition escrow_movement (m : Movement) : Prop :=
  match m with Payout _ _ _ | Refund _ => True | _ => False end.

Lemma payout_movements_escrow command outcome ms db : payout_movements command outcome ms db -> Forall escrow_movement ms.
Proof.
  destruct outcome; cbn; try (intros ->; constructor). intros (account & fund & _ & _ & _ & ->).
  destruct (_ && _); repeat constructor.
Qed.

Lemma organization_review_movements command o payout tip db ms :
  review_movements command (OrganizationReviewer o) payout tip db ms -> Forall escrow_movement ms.
Proof.
  intros (ms1 & ms2 & -> & H1 & H2). apply Forall_app. split; [by eapply payout_movements_escrow|].
  destruct tip; cbn in H2; try (subst; constructor). by destruct H2 as (? & ? & ? & ? & _).
Qed.

(** Such a review does not ban. *)
Lemma organization_review_bans q c o t : review_of q = Some (OrganizationReviewer o, t) -> asks q c -> ~ bans_on_request c.
Proof.
  intros Hq Ha Hb. destruct c; try done. destruct q; try done. cbn in Hq. simplify_eq.
  destruct Ha as (e1 & e2 & e3 & draft & -> & _ & Hpay). cbn in Hb. subst. revert Hpay. cbn. by destruct tipSelection.
Qed.

(** The command of such a review carries its reviewer and task. *)
Lemma organization_review_performed q c o t db r db' :
  review_of q = Some (OrganizationReviewer o, t) -> asks q c -> valid_command c -> performed c db r db' ->
  (exists ms, Forall escrow_movement ms /\ apply_movements ms (view db) = Some (view db')) /\
  forall ds, execution_of r = Some (FirstExecution, ds) -> exists row,
    tasks db !! TypedID_String t = Some row /\ task_organization_id row = Some (TypedID_String o).
Proof.
  intros Hq Ha Hv Hp. apply performed_refines in Hp as Hr; [|done]. destruct Hr as (ms & Hm & Hl).
  apply performed_inv in Hp. unfold command_movements in Hm.
  assert (ms = [] -> exists ms, Forall escrow_movement ms /\ apply_movements ms (view db) = Some (view db')) as Hnone
    by (intros ->; exists []; split; [constructor|done]).
  destruct (execution_of r) as [[[] ds]|] eqn:He; [|by split; [apply Hnone|]..].
  destruct q; cbn in Hq; simplify_eq; destruct c; cbn in Ha; try done; destruct r as [|[]|[]|[]| | |]; cbn in He; simplify_eq; try done.
  - destruct Ha as (e1 & e2 & e3 & e4 & draft & -> & _ & _). cbn in *. destruct Hm as (row & _ & Hm).
    apply organization_review_movements in Hm. split; [by exists ms|].
    intros _ _. apply accepted_effect, acceptance_reviewer in Hp as (task & Ht & _ & Hmay & _). by exists task.
  - destruct Ha as (draft & -> & _). cbn in *. split; [by apply Hnone|].
    intros _ _. apply changes_effect, change_reviewer in Hp as (task & Ht & _ & Hmay & _). by exists task.
  - destruct Ha as (e1 & e2 & e3 & draft & -> & _ & _). cbn in *. destruct Hm as (row & _ & Hm).
    apply organization_review_movements in Hm. split; [by exists ms|].
    intros _ _. apply rejected_effect, rejection_reviewer in Hp as (task & Ht & _ & Hmay & _). by exists task.
Qed.

(** A review made in the name of an organization, end to end: whatever it asks for (tips and
    bans included), it moves credits only out of the task's escrow, never out of an account, bans
    nobody, and executes only on tasks of that organization. *)
Theorem organization_reviews_move_only_escrow q gen (st : ServiceState (DB * nat)) o t :
  valid_request q -> ledger_ok (svc_store st).1 -> review_of q = Some (OrganizationReviewer o, t) ->
  let '(r, st') := serve q gen st in
  (exists ms, Forall escrow_movement ms /\
     apply_movements ms (view (svc_store st).1) = Some (view (svc_store st').1)) /\
  task_implementor_bans (svc_store st').1 = task_implementor_bans (svc_store st).1 /\
  forall ds, execution_of r = Some (FirstExecution, ds) -> exists row,
    tasks (svc_store st).1 !! TypedID_String t = Some row /\ task_organization_id row = Some (TypedID_String o).
Proof.
  intros Hv Hok Hq. pose proof (served_performed q gen st Hv Hok) as Hs. destruct (serve q gen st) as [r st'].
  destruct Hs as [_ [[He Hst]|(c & Ha & Hvc & Hp)]].
  - rewrite Hst, He. split; [exists []; split; [constructor|done]|done].
  - destruct (organization_review_performed _ _ _ _ _ _ _ Hq Ha Hvc Hp) as [Hm Ho]. split; [done|]. split; [|done].
    apply performed_bans in Hp as [Hb|Hb]; [|done]. by apply (organization_review_bans _ _ _ _ Hq Ha) in Hb.
Qed.

(** ** Transfers *)

(** Who may have credits sent, and to whom. *)
Definition transfer_allowed (actor : UserID) (source : TransferSource) (target : TransferTarget) (db : DB) : Prop :=
  match source with
  | TransferFromSelf => target <> TransferToUser actor
  | TransferFromOrganization o => (exists user, target = TransferToUser user) /\
      holds_permission (TypedID_String o) (TypedID_String actor) PermissionManageBilling db
  end.

(** A transfer that executes is from the actor to someone else, or from an organization in
    which the actor holds the billing permission to a user; the paying account covered the amount
    and loses exactly it, the receiving account gains exactly it, no other account changes, tasks,
    funds and submissions are untouched, and exactly its recorded events are dispatched. *)
Theorem SendCredits_transfers gen (st : ServiceState (DB * nat)) actor source target amount note key origin ds :
  valid_amount amount -> ledger_ok (svc_store st).1 ->
  let '(r, st') := serve (QSendCredits actor source target amount note key origin) gen st in
  execution_of r = Some (FirstExecution, ds) ->
  transfer_allowed actor source target (svc_store st).1 /\
  transferred (transferSourceRef source actor) (transferTargetRef target) amount (svc_store st).1 (svc_store st').1 /\
  svc_dispatched st' = (svc_dispatched st ++ ds)%list.
Proof.
  intros Hv Hok. pose proof (served_performed (QSendCredits actor source target amount note key origin) gen st Hv Hok) as Hs.
  destruct (serve _ gen st) as [r st']. intros He. destruct Hs as [Hd [[Hno _]|(c & Ha & _ & Hp)]]; [congruence|].
  unfold events_of in Hd. rewrite He in Hd. apply performed_inv in Hp.
  destruct c as [| | | | | | |command]; try done. destruct Ha as (e1 & e2 & draft & -> & _ & Hguard).
  destruct r as [| | | | | |[id a us x ds'|]]; cbn in He; simplify_eq; try done.
  apply sent_effect in Hp as [Ht Hmay]. split; [|by split]. unfold may_send in Hmay. cbn in Hmay.
  destruct source as [|o], target as [u|o']; cbn in Hguard; try done.
  - case_bool_decide; [done|]. by intros [= ->].
  - split; [by exists u|done].
Qed.
End Implementation.
