(* ===== verification/DeliveryDB.v ===== *)
(** * The database tables of event delivery

    A [Delivery] value is the ledger's database with the tables that event
    dispatch, the inbox and webhooks add to it: the attempt counter of
    [domain_events], [notifications], [webhook_subscriptions] with their kinds,
    [webhook_deliveries], and the columns of [users] and [tasks] their queries
    join.  Beside the tables it keeps the requests sent to receivers.  As in [Database.v], each write checks the constraints of [migrations/].
    Columns no modelled statement reads ([dispatched_at], [state_recorded_at],
    [created_at] of deliveries) are left out, and so is the foreign key of an
    organization, whose table is not modelled. *)

From Stdlib Require Import Ascii.
From S2P Require Import Prelude.
From S2P Require Import Core.
From S2P Require Import TaskValues.
From S2P Require Import Database.
From S2P Require Import LedgerValues.
From S2P Require Import Tx.
Local Open Scope string_scope.
Local Open Scope Z_scope.

(** The [jsonb] column type of the server: what a text is stored and printed as,
    [None] when the cast fails. *)
Class JSONB := { jsonb : string -> option string }.

Record NotificationRow := MkNotificationRow {
  notif_id : string;
  notif_recipient : string;
  notif_actor : string;
  notif_kind : string;
  notif_subject_kind : string;
  notif_subject_id : string;
  notif_state : string;
  notif_metadata_json : string;
  notif_event_id : option string;
  notif_created_at : Z
}.

(** A subscription with its rows of [webhook_subscription_kinds], in the order of insertion,
    which is how [array_agg] meets them. *)
Record SubscriptionRow := MkSubscriptionRow {
  ws_id : string;
  ws_owner_kind : string;
  ws_owner_user_id : option string;
  ws_owner_organization_id : option string;
  ws_url : string;
  ws_secret : string;
  ws_state : string;
  ws_created_at : Z;
  ws_audience : string;
  ws_filter_task_type : option string;
  ws_filter_min_credit_reward : option Z;
  ws_kinds : list string
}.

Record DeliveryRow := MkDeliveryRow {
  wd_id : string;
  wd_subscription_id : string;
  wd_event_seq : Z;
  wd_state : string;
  wd_attempt_count : Z;
  wd_next_attempt_at : Z;
  wd_last_status : string
}.

(** Columns of [users], and of [tasks] with its public row, if any, in
    [task_visibility_scopes]. *)
Record ProfileRow := MkProfileRow { user_email : string; user_display_name : string }.
Record TaskInfoRow := MkTaskInfoRow { task_title : string; task_task_type : string; task_public : bool }.

(** A POST handed to the HTTP client: its address, its body and its headers. *)
Record PostRequest := MkPostRequest {
  Request_URL : string;
  Request_Body : string;
  Request_ID : string;
  Request_Timestamp : string;
  Request_Signature : string
}.

Record Delivery := MkDelivery {
  ledger : DB;
  dispatch_attempts : gmap Z Z;   (* by event sequence; absent is the default 0 *)
  notifications : list NotificationRow;
  webhook_subscriptions : list SubscriptionRow;
  webhook_deliveries : list DeliveryRow;
  user_profiles : gmap string ProfileRow;
  task_infos : gmap string TaskInfoRow;
  requests_sent : list PostRequest   (* no table: what left for the network, which no rollback takes back *)
}.

Definition with_ledger (db : DB) (d : Delivery) : Delivery :=
  MkDelivery db (dispatch_attempts d) (notifications d) (webhook_subscriptions d) (webhook_deliveries d)
    (user_profiles d) (task_infos d) (requests_sent d).
Definition with_attempts (a : gmap Z Z) (d : Delivery) : Delivery :=
  MkDelivery (ledger d) a (notifications d) (webhook_subscriptions d) (webhook_deliveries d)
    (user_profiles d) (task_infos d) (requests_sent d).
Definition with_notifications (n : list NotificationRow) (d : Delivery) : Delivery :=
  MkDelivery (ledger d) (dispatch_attempts d) n (webhook_subscriptions d) (webhook_deliveries d)
    (user_profiles d) (task_infos d) (requests_sent d).
Definition with_subscriptions (s : list SubscriptionRow) (d : Delivery) : Delivery :=
  MkDelivery (ledger d) (dispatch_attempts d) (notifications d) s (webhook_deliveries d)
    (user_profiles d) (task_infos d) (requests_sent d).
Definition with_deliveries (w : list DeliveryRow) (d : Delivery) : Delivery :=
  MkDelivery (ledger d) (dispatch_attempts d) (notifications d) (webhook_subscriptions d) w
    (user_profiles d) (task_infos d) (requests_sent d).

Definition with_requests (r : list PostRequest) (d : Delivery) : Delivery :=
  MkDelivery (ledger d) (dispatch_attempts d) (notifications d) (webhook_subscriptions d) (webhook_deliveries d)
    (user_profiles d) (task_infos d) r.

(** A computation over the ledger's tables, inside this database. *)
Definition on_ledger {A} (m : M A) : MOf Delivery A := fun env st =>
  let '(a, st') := m env (MkTxState (ledger (st_base st)) (ledger (st_db st)) (st_step st)) in
  (a, MkTxState (with_ledger (st_base st') (st_base st)) (with_ledger (st_db st') (st_db st)) (st_step st')).

(** ** [domain_events] *)

Definition with_state (state : string) (e : EventRow) : EventRow :=
  MkEventRow (ev_seq e) (ev_id e) (ev_kind e) (ev_actor_kind e) (ev_actor_user_id e) (ev_task_id e)
    (ev_submission_id e) (ev_reservation_id e) (ev_series_id e) (ev_organization_id e) (ev_collectible_id e)
    (ev_metadata_json e) (ev_occurred_at e) state.

Definition events (d : Delivery) : list EventRow := domain_events (ledger d).
Definition event_recipients (d : Delivery) : list (Z * string) := domain_event_recipients (ledger d).

Definition with_event_rows (rows : list EventRow) (d : Delivery) : Delivery :=
  with_ledger (with_events rows (event_recipients d) (ledger d)) d.

Definition attempts (d : Delivery) (seq : Z) : Z := default 0 (dispatch_attempts d !! seq).

(** [update domain_events set dispatch_state = state where P]. *)
Definition set_states (state : string) (P : EventRow -> bool) (d : Delivery) : Delivery :=
  with_event_rows ((fun e => if P e then with_state state e else e) <$> events d) d.

(** ** [notifications] *)

Section Notifications.
Context `{JSONB}.

(** The row an insert stores, [None] when the metadata is no JSON. *)
Definition stored_notification (row : NotificationRow) : option NotificationRow :=
  metadata ← jsonb (notif_metadata_json row);
  Some (MkNotificationRow (notif_id row) (notif_recipient row) (notif_actor row) (notif_kind row)
    (notif_subject_kind row) (notif_subject_id row) (notif_state row) metadata (notif_event_id row)
    (notif_created_at row)).

(** The rows the partial unique index [notifications_event_recipient_idx] forbids beside [row]. *)
Definition same_source (row other : NotificationRow) : Prop :=
  is_Some (notif_event_id row) /\ notif_event_id other = notif_event_id row /\
  notif_recipient other = notif_recipient row.

#[export] Instance same_source_dec row other : Decision (same_source row other).
Proof. unfold same_source. solve_decision. Defined.

(** [insert into notifications ... on conflict (event_id, recipient_user_id) do nothing] *)
Definition insert_notification (row : NotificationRow) (d : Delivery) : StmtError + Delivery :=
  match stored_notification row with
  | None => inl ErrOther
  | Some row =>
      if bool_decide (Exists (same_source row) (notifications d)) then inr d
      else if bool_decide (Exists (fun n => notif_id n = notif_id row) (notifications d)) then inl ErrUniqueViolation
      else if negb (bool_decide (notif_recipient row ∈ users (ledger d) /\ notif_actor row ∈ users (ledger d)))
      then inl ErrOther
      else inr (with_notifications (row :: notifications d) d)
  end.
End Notifications.

Definition set_notif_state (state : string) (row : NotificationRow) : NotificationRow :=
  MkNotificationRow (notif_id row) (notif_recipient row) (notif_actor row) (notif_kind row)
    (notif_subject_kind row) (notif_subject_id row) state (notif_metadata_json row) (notif_event_id row)
    (notif_created_at row).

(** [update notifications set state where id and recipient_user_id]: the rows affected. *)
Definition is_notification (id recipient : string) (row : NotificationRow) : Prop :=
  notif_id row = id /\ notif_recipient row = recipient.

#[export] Instance is_notification_dec id recipient row : Decision (is_notification id recipient row).
Proof. unfold is_notification. solve_decision. Defined.

Definition update_notification_state (id recipient state : string) (d : Delivery) : StmtError + (nat * Delivery) :=
  inr (length (filter (is_notification id recipient) (notifications d)),
    with_notifications
      ((fun row => if decide (is_notification id recipient row) then set_notif_state state row else row) <$> notifications d) d).

(** ** [webhook_deliveries] *)

Definition same_delivery (subscription : string) (seq : Z) (row : DeliveryRow) : Prop :=
  wd_subscription_id row = subscription /\ wd_event_seq row = seq.

#[export] Instance same_delivery_dec subscription seq row : Decision (same_delivery subscription seq row).
Proof. unfold same_delivery. solve_decision. Defined.

(** [insert into webhook_deliveries ... on conflict (subscription_id, event_seq) do nothing]: the rows inserted. *)
Definition insert_delivery (row : DeliveryRow) (d : Delivery) : StmtError + (nat * Delivery) :=
  if bool_decide (Exists (same_delivery (wd_subscription_id row) (wd_event_seq row)) (webhook_deliveries d)) then inr (0%nat, d)
  else if bool_decide (Exists (fun w => wd_id w = wd_id row) (webhook_deliveries d)) then inl ErrUniqueViolation
  else if negb (bool_decide (Exists (fun s => ws_id s = wd_subscription_id row) (webhook_subscriptions d)) &&
                bool_decide (Exists (fun e => ev_seq e = wd_event_seq row) (events d)))
  then inl ErrOther
  else inr (1%nat, with_deliveries (row :: webhook_deliveries d) d).

(** ** Writes of the webhook store *)

(** [update webhook_deliveries set ... where id = $1 and P]: the rows affected. *)
Definition update_delivery (id : string) (P : DeliveryRow -> bool) (f : DeliveryRow -> DeliveryRow) (d : Delivery) :
    StmtError + (nat * Delivery) :=
  let hit w := String.eqb (wd_id w) id && P w in
  inr (length (filter hit (webhook_deliveries d)),
    with_deliveries ((fun w => if hit w then f w else w) <$> webhook_deliveries d) d).

Definition is_pending (w : DeliveryRow) : bool := String.eqb (wd_state w) "pending".

Definition set_walk (state : string) (attempts next : Z) (status : string) (w : DeliveryRow) : DeliveryRow :=
  MkDeliveryRow (wd_id w) (wd_subscription_id w) (wd_event_seq w) state attempts next status.

(** The CHECK constraints of [webhook_subscriptions]. *)
Definition subscription_checks (row : SubscriptionRow) : bool :=
  bool_decide (ws_state row ∈ ["active"; "revoked"]) && bool_decide (ws_audience row ∈ ["recipient"; "marketplace"]) &&
  match ws_owner_user_id row, ws_owner_organization_id row with
  | Some _, None => String.eqb (ws_owner_kind row) "user"
  | None, Some _ => String.eqb (ws_owner_kind row) "organization"
  | _, _ => false
  end &&
  match ws_filter_task_type row with
  | Some task_type => bool_decide (task_type ∈ TaskType_String <$> allTaskTypes)
  | None => true
  end &&
  match ws_filter_min_credit_reward row with Some minimum => 0 <? minimum | None => true end &&
  (String.eqb (ws_audience row) "marketplace" ||
   match ws_filter_task_type row, ws_filter_min_credit_reward row with None, None => true | _, _ => false end).

(** [insert into webhook_subscriptions], then one row of [webhook_subscription_kinds]
    per kind. *)
Definition insert_subscription (row : SubscriptionRow) (d : Delivery) : StmtError + Delivery :=
  if bool_decide (Exists (fun s => ws_id s = ws_id row) (webhook_subscriptions d)) then inl ErrUniqueViolation
  else if negb (subscription_checks row) then inl ErrOther
  else if match ws_owner_user_id row with Some user => bool_decide (user ∉ users (ledger d)) | None => false end
  then inl ErrOther
  else inr (with_subscriptions (webhook_subscriptions d ++ [row]) d).

Definition add_kind (kind : string) (s : SubscriptionRow) : SubscriptionRow :=
  MkSubscriptionRow (ws_id s) (ws_owner_kind s) (ws_owner_user_id s) (ws_owner_organization_id s) (ws_url s)
    (ws_secret s) (ws_state s) (ws_created_at s) (ws_audience s) (ws_filter_task_type s)
    (ws_filter_min_credit_reward s) (ws_kinds s ++ [kind]).

Definition insert_subscription_kind (id kind : string) (d : Delivery) : StmtError + Delivery :=
  if bool_decide (Exists (fun s => ws_id s = id /\ kind ∈ ws_kinds s) (webhook_subscriptions d)) then inl ErrUniqueViolation
  else if negb (bool_decide (Exists (fun s => ws_id s = id) (webhook_subscriptions d))) then inl ErrOther
  else inr (with_subscriptions
         ((fun s => if String.eqb (ws_id s) id then add_kind kind s else s) <$> webhook_subscriptions d) d).

Definition set_subscription_state (state : string) (s : SubscriptionRow) : SubscriptionRow :=
  MkSubscriptionRow (ws_id s) (ws_owner_kind s) (ws_owner_user_id s) (ws_owner_organization_id s) (ws_url s)
    (ws_secret s) state (ws_created_at s) (ws_audience s) (ws_filter_task_type s)
    (ws_filter_min_credit_reward s) (ws_kinds s).

(** ** Names and titles *)

(** [split_part(email, '@', 1)] *)
Fixpoint split_part_at (email : string) : string :=
  match email with
  | EmptyString => ""
  | String c rest => if Ascii.eqb c "@"%char then "" else String c (split_part_at rest)
  end.

(** [displayNameSQL] *)
Definition displayNameSQL (profile : ProfileRow) : string :=
  if String.eqb (user_display_name profile) "" then split_part_at (user_email profile) else user_display_name profile.
