(* ===== verification/TaskDB.v ===== *)
(** * The database tables of tasks, reservations, series and teams

    A [Market] value is the ledger's database with what the task store reads and
    writes beside it: the other columns of [tasks] and [task_reservations], the
    visibility and attachment rows, [task_series], [teams] with their members, and
    the names of users.  As in [Database.v], each write checks the constraints of
    [migrations/].  [task_columns] holds the columns of the rows of [tasks] that the
    ledger does not read, and [reservation_columns] those of [task_reservations]. *)

From S2P Require Import Prelude.
From S2P Require Import Core.
From S2P Require Import OrgRoles.
From S2P Require Import Events.
From S2P Require Import TaskValues.
From S2P Require Import LedgerValues.
From S2P Require Import Database.
From S2P Require Import Tx.
From S2P Require Import LedgerHelpers.
From S2P Require Import DeliveryDB.
Local Open Scope string_scope.
Local Open Scope Z_scope.

(** ** Rows *)

Record TaskColumns := MkTaskColumns {
  tc_series_id : option string;
  tc_series_position : option Z;
  tc_owner_kind : string;
  tc_user_id : option string;
  tc_team_id : option string;
  tc_title : string;
  tc_description : string;
  tc_task_type : string;
  tc_reference_url : string;
  tc_participation_policy : string;
  tc_assignee_scope : string;
  tc_reservation_hours : Z;
  tc_response_schema_json : string;
  tc_payload_kind : string;
  tc_payload_json : option string;
  tc_expires_at : option Z;
  tc_created_at : Z
}.

Record VisibilityRow := MkVisibilityRow {
  vis_task_id : string;
  vis_kind : string;
  vis_scope_key : string;
  vis_user_id : option string;
  vis_team_id : option string;
  vis_organization_id : option string
}.

Record AttachmentRow := MkAttachmentRow {
  att_task_id : string;
  att_index : Z;
  att_filename : string;
  att_content_type : string;
  att_content : list Z
}.

Record ReservationColumns := MkReservationColumns {
  rc_team_id : option string;
  rc_organization_id : option string;
  rc_expires_at : Z;
  rc_created_at : Z;
  rc_via_credential : option string
}.

Record SeriesRow := MkSeriesRow {
  series_owner_kind : string;
  series_user_id : option string;
  series_team_id : option string;
  series_organization_id : option string;
  series_title : string;
  series_description : string;
  series_state : string;
  series_created_by : string
}.

Record TeamRow := MkTeamRow {
  team_name : string;
  team_owner_kind : string;
  team_organization_id : option string;
  team_owner_user_id : option string;
  team_created_by : string
}.

Record Market := MkMarket {
  tables : DB;
  task_columns : gmap string TaskColumns;
  task_visibility_scopes : list VisibilityRow;
  task_attachments : list AttachmentRow;
  reservation_columns : gmap string ReservationColumns;
  task_series : gmap string SeriesRow;
  organizations : gset string;
  teams : gmap string TeamRow;
  team_members : list (string * string);   (* team, user *)
  profiles : gmap string ProfileRow
}.

Definition with_tables (db : DB) (m : Market) : Market :=
  MkMarket db (task_columns m) (task_visibility_scopes m) (task_attachments m) (reservation_columns m)
    (task_series m) (organizations m) (teams m) (team_members m) (profiles m).
Definition with_columns (c : gmap string TaskColumns) (m : Market) : Market :=
  MkMarket (tables m) c (task_visibility_scopes m) (task_attachments m) (reservation_columns m)
    (task_series m) (organizations m) (teams m) (team_members m) (profiles m).
Definition with_visibility (v : list VisibilityRow) (m : Market) : Market :=
  MkMarket (tables m) (task_columns m) v (task_attachments m) (reservation_columns m)
    (task_series m) (organizations m) (teams m) (team_members m) (profiles m).
Definition with_attachments (a : list AttachmentRow) (m : Market) : Market :=
  MkMarket (tables m) (task_columns m) (task_visibility_scopes m) a (reservation_columns m)
    (task_series m) (organizations m) (teams m) (team_members m) (profiles m).
Definition with_reservation_columns (r : gmap string ReservationColumns) (m : Market) : Market :=
  MkMarket (tables m) (task_columns m) (task_visibility_scopes m) (task_attachments m) r
    (task_series m) (organizations m) (teams m) (team_members m) (profiles m).
Definition with_series (s : gmap string SeriesRow) (m : Market) : Market :=
  MkMarket (tables m) (task_columns m) (task_visibility_scopes m) (task_attachments m) (reservation_columns m)
    s (organizations m) (teams m) (team_members m) (profiles m).

(** ** The surroundings of the task store *)

(** The clock of the database server, the identifier generators of [internal/core],
    and the text of the attachments aggregate of a task. *)
Class World := {
  server_now : nat -> Z;
  new_task_id : nat -> TypedIDResult KTask;
  new_series_id : nat -> TypedIDResult KTaskSeries;
  new_reservation_id : nat -> TypedIDResult KTaskReservation;
  new_ledger_entry_id : nat -> TypedIDResult KLedgerEntry;
  world_jsonb :: JSONB;
  attachments_json : list (string * string * list Z) -> string
}.

(** The server's [now()]: the time of BEGIN inside a transaction, of the statement outside. *)
Definition server_time `{World} : MOf Market Z := fun _ st => (server_now (st_step st), st).

Section Generators.
Context `{World}.
Definition NewTaskID : MOf Market (TypedIDResult KTask) := fun _ st => (new_task_id (st_step st), tick st).
Definition NewTaskSeriesID : MOf Market (TypedIDResult KTaskSeries) := fun _ st => (new_series_id (st_step st), tick st).
Definition NewTaskReservationID : MOf Market (TypedIDResult KTaskReservation) := fun _ st => (new_reservation_id (st_step st), tick st).
Definition NewLedgerEntryID : MOf Market (TypedIDResult KLedgerEntry) := fun _ st => (new_ledger_entry_id (st_step st), tick st).
End Generators.

(** A computation over the ledger's tables, inside a transaction begun at [now]. *)
Definition at_time (now : Z) (env : Env) : Env :=
  MkEnv (env_fails env) (env_day env) (env_now env) now (env_seq env) (env_event_id env)
    (env_notification_id env) (env_delivery_id env).

Definition on_tables {A} (now : Z) (m : M A) : MOf Market A := fun env st =>
  let '(a, st') := m (at_time now env) (MkTxState (tables (st_base st)) (tables (st_db st)) (st_step st)) in
  (a, MkTxState (with_tables (st_base st') (st_base st)) (with_tables (st_db st') (st_db st)) (st_step st')).

(** ** Reads *)

(** A row of [tasks]. *)
Definition task_row (task : string) (m : Market) : option (TaskRow * TaskColumns) :=
  row ← tasks (tables m) !! task;
  columns ← task_columns m !! task;
  Some (row, columns).

Definition reservation_row (reservation : string) (m : Market) : option (ReservationRow * ReservationColumns) :=
  row ← task_reservations (tables m) !! reservation;
  columns ← reservation_columns m !! reservation;
  Some (row, columns).

(** [expires_at <= now()] *)
Definition due_at (expires_at : option Z) (now : Z) : bool :=
  match expires_at with Some t => t <=? now | None => false end.

(** ** Foreign keys and checks *)

Definition references_user (user : option string) (m : Market) : bool := user_reference_ok user (tables m).
Definition references_team (team : option string) (m : Market) : bool :=
  match team with Some team => bool_decide (is_Some (teams m !! team)) | None => true end.
Definition references_organization (organization : option string) (m : Market) : bool :=
  match organization with Some organization => bool_decide (organization ∈ organizations m) | None => true end.
Definition references_series (series : option string) (m : Market) : bool :=
  match series with Some series => bool_decide (is_Some (task_series m !! series)) | None => true end.

Definition is_set {A} (o : option A) : bool := match o with Some _ => true | None => false end.

(** [tasks_owner_check], and the like of [task_series], [task_visibility_scopes]
    and [task_reservations]: which of the three references a kind sets. *)
Definition owner_check (kind : string) (user team organization : option string) : bool :=
  switch kind
    [ ("user", is_set user && negb (is_set team) && negb (is_set organization));
      ("team", negb (is_set user) && is_set team && negb (is_set organization));
      ("organization", negb (is_set user) && negb (is_set team) && is_set organization);
      ("organization_team", negb (is_set user) && is_set team && is_set organization) ] false.

Definition visibility_check (kind : string) (user team organization : option string) : bool :=
  if String.eqb kind "public" then negb (is_set user) && negb (is_set team) && negb (is_set organization)
  else owner_check kind user team organization.

Definition assignee_check (kind : string) (user team organization : option string) : bool :=
  bool_decide (kind <> "organization") && owner_check kind user team organization.

Definition series_position_check (series : option string) (position : option Z) : bool :=
  match series, position with
  | None, None => true
  | Some _, Some position => 0 <? position
  | _, _ => false
  end.

Definition payload_check (kind : string) (payload : option string) : bool :=
  switch kind [ ("none", negb (is_set payload)); ("json", is_set payload) ] false.

(** The checks of [tasks] on the columns the ledger does not read. *)
Definition task_columns_check (organization : option string) (c : TaskColumns) : bool :=
  owner_check (tc_owner_kind c) (tc_user_id c) (tc_team_id c) organization &&
  series_position_check (tc_series_id c) (tc_series_position c) &&
  match tc_series_position c with Some position => in_int32 position | None => true end &&
  payload_check (tc_payload_kind c) (tc_payload_json c) &&
  bool_decide (tc_task_type c ∈ TaskType_String <$> allTaskTypes) &&
  bool_decide (tc_participation_policy c = "open" \/ tc_participation_policy c = "reservation_required") &&
  bool_decide (tc_assignee_scope c = "user" \/ tc_assignee_scope c = "organization_team" \/ tc_assignee_scope c = "team") &&
  (1 <=? tc_reservation_hours c) && (tc_reservation_hours c <=? 720).

(** ** Constrained writes *)

Section Writes.
Context `{World}.

(** The two [::jsonb] casts of the insert, [None] when one fails. *)
Definition stored_columns (c : TaskColumns) : option TaskColumns :=
  schema ← jsonb (tc_response_schema_json c);
  payload ← match tc_payload_json c with
            | Some raw => stored ← jsonb raw; Some (Some stored)
            | None => Some None
            end;
  Some (MkTaskColumns (tc_series_id c) (tc_series_position c) (tc_owner_kind c) (tc_user_id c) (tc_team_id c)
    (tc_title c) (tc_description c) (tc_task_type c) (tc_reference_url c) (tc_participation_policy c)
    (tc_assignee_scope c) (tc_reservation_hours c) schema (tc_payload_kind c) payload (tc_expires_at c) (tc_created_at c)).

(** [insert into tasks] *)
Definition insert_task (task : string) (row : TaskRow) (columns : TaskColumns) (m : Market) : StmtError + Market :=
  match stored_columns columns with
  | None => inl ErrOther
  | Some stored =>
      if negb (bool_decide (task_state row ∈ task_states)) then inl ErrOther
      else if negb (tasks_reward_check (task_reward_kind row) (task_reward_credit_amount row)) then inl ErrOther
      else if negb (match task_reward_credit_amount row with Some amount => in_int32 amount | None => true end) then inl ErrOther
      else if negb (task_columns_check (task_organization_id row) columns) then inl ErrOther
      else if negb (references_series (tc_series_id columns) m && references_user (tc_user_id columns) m &&
                    references_team (tc_team_id columns) m && references_organization (task_organization_id row) m &&
                    bool_decide (task_created_by_user_id row ∈ users (tables m))) then inl ErrOther
      else if bool_decide (is_Some (tasks (tables m) !! task)) then inl ErrUniqueViolation
      else inr (with_columns (<[task := stored]> (task_columns m))
             (with_tables (with_tasks (<[task := row]> (tasks (tables m))) (tables m)) m))
  end.

Definition same_scope (row other : VisibilityRow) : Prop :=
  vis_task_id other = vis_task_id row /\ vis_kind other = vis_kind row /\ vis_scope_key other = vis_scope_key row.

#[export] Instance same_scope_dec row other : Decision (same_scope row other).
Proof. unfold same_scope. apply _. Defined.

(** [insert into task_visibility_scopes] *)
Definition insert_visibility (row : VisibilityRow) (m : Market) : StmtError + Market :=
  if negb (visibility_check (vis_kind row) (vis_user_id row) (vis_team_id row) (vis_organization_id row)) then inl ErrOther
  else if negb (bool_decide (is_Some (tasks (tables m) !! vis_task_id row)) && references_user (vis_user_id row) m &&
                references_team (vis_team_id row) m && references_organization (vis_organization_id row) m) then inl ErrOther
  else if bool_decide (Exists (same_scope row) (task_visibility_scopes m)) then inl ErrUniqueViolation
  else inr (with_visibility (row :: task_visibility_scopes m) m).

Definition stored_content_types : list string :=
  ["image/png"; "image/jpeg"; "image/gif"; "image/webp"; "text/plain"; "application/json"; "application/pdf"].

(** [insert into task_attachments]: rows are kept in the order of insertion. *)
Definition insert_attachment (row : AttachmentRow) (m : Market) : StmtError + Market :=
  if negb ((0 <=? att_index row) && in_int32 (att_index row) && (0 <? Z.of_nat (length (att_content row))) &&
           (Z.of_nat (length (att_content row)) <=? 512000) &&
           bool_decide (att_content_type row ∈ stored_content_types)) then inl ErrOther
  else if negb (bool_decide (is_Some (tasks (tables m) !! att_task_id row))) then inl ErrOther
  else if bool_decide (Exists (fun other => att_task_id other = att_task_id row /\ att_index other = att_index row)
            (task_attachments m)) then inl ErrUniqueViolation
  else inr (with_attachments (task_attachments m ++ [row])%list m).

(** [insert into task_series] *)
Definition insert_series (series : string) (row : SeriesRow) (m : Market) : StmtError + Market :=
  if negb (owner_check (series_owner_kind row) (series_user_id row) (series_team_id row) (series_organization_id row) &&
           bool_decide (series_state row = "draft" \/ series_state row = "published" \/ series_state row = "closed")) then inl ErrOther
  else if negb (references_user (series_user_id row) m && references_team (series_team_id row) m &&
                references_organization (series_organization_id row) m &&
                bool_decide (series_created_by row ∈ users (tables m))) then inl ErrOther
  else if bool_decide (is_Some (task_series m !! series)) then inl ErrUniqueViolation
  else inr (with_series (<[series := row]> (task_series m)) m).

(** [insert into task_reservations], of any state of the domain: the checks, the
    foreign keys, the primary key and [task_reservations_one_active_idx]. *)
Definition insert_reservation (reservation : string) (row : ReservationRow) (columns : ReservationColumns) (m : Market) : StmtError + Market :=
  let db := tables m in
  if negb (assignee_check (res_assignee_kind row) (res_user_id row) (rc_team_id columns) (rc_organization_id columns)) then inl ErrOther
  else if negb (bool_decide (is_Some (tasks db !! res_task_id row)) && references_user (res_user_id row) m &&
                references_team (rc_team_id columns) m && references_organization (rc_organization_id columns) m &&
                bool_decide (res_requested_by_user_id row ∈ users db) &&
                match rc_via_credential columns with
                | Some credential => bool_decide (credential ∈ agent_credentials db)
                | None => true
                end) then inl ErrOther
  else if bool_decide (is_Some (task_reservations db !! reservation)) then inl ErrUniqueViolation
  else if negb (bool_decide (one_active (<[reservation := row]> (task_reservations db)))) then inl ErrUniqueViolation
  else inr (with_reservation_columns (<[reservation := columns]> (reservation_columns m))
         (with_tables (with_reservations (<[reservation := row]> (task_reservations db)) db) m)).

(** [state = 'active' and expires_at <= now()] *)
Definition lapsed (now : Z) (m : Market) (reservation : string) (row : ReservationRow) : bool :=
  String.eqb (res_state row) "active" &&
  match reservation_columns m !! reservation with
  | Some columns => rc_expires_at columns <=? now
  | None => false
  end.

(** [update task_reservations set state = 'expired' ... returning id, task_id, requested_by_user_id] *)
Definition expire_lapsed (now : Z) (m : Market) : list (string * ReservationRow) * Market :=
  let db := tables m in
  (filter (fun kv => Is_true (lapsed now m kv.1 kv.2)) (map_to_list (task_reservations db)),
   with_tables (with_reservations (map_imap (fun id row => Some (if lapsed now m id row then set_res_state "expired" row else row))
     (task_reservations db)) db) m).

(** [update task_reservations set state = $2 where id = $1 and task_id = $3 and state = 'active'],
    with the number of rows: an update to [active] leaves its row as it was. *)
Definition update_active_reservation (reservation task state : string) (m : Market) : StmtError + (Z * Market) :=
  let db := tables m in
  match task_reservations db !! reservation with
  | Some row =>
      if String.eqb (res_task_id row) task && String.eqb (res_state row) "active"
      then inr (1, with_tables (with_reservations (<[reservation := set_res_state state row]> (task_reservations db)) db) m)
      else inr (0, m)
  | None => inr (0, m)
  end.

(** [update tasks set state = $2 where id = $1 and state = $3], with the number of rows. *)
Definition update_task_state_from (task state prior : string) (m : Market) : StmtError + (Z * Market) :=
  match tasks (tables m) !! task with
  | Some row =>
      if String.eqb (task_state row) prior
      then match update_task_state task state (tables m) with
           | inl err => inl err
           | inr db => inr (1, with_tables db m)
           end
      else inr (0, m)
  | None => inr (0, m)
  end.
End Writes.
