(* ===== verification/OrgStore.v ===== *)
(** * Organizations and teams: what tasks ask of them

    Models the reads of [internal/db/org_store.go] that decide access, and the
    checks of [internal/org/service.go] that the task and submission services
    consult. *)

From S2P Require Import Prelude.
From S2P Require Import Core.
From S2P Require Import OrgRoles.
From S2P Require Import Auth.
From S2P Require Import Database.
From S2P Require Import Tx.
From S2P Require Import LedgerHelpers.
From S2P Require Import TaskDB.
Local Open Scope string_scope.

Module Org.

(** ** [org/values.go], [org/models.go] *)

Record TeamName := MkTeamName { TeamName_value : string }.
Inductive TeamNameResult := TeamNameAccepted (Value : TeamName) | TeamNameRejected (Reason : DomainError).
Definition NewTeamName (raw : string) : TeamNameResult :=
  let trimmed := TrimSpace raw in
  if (String.length trimmed <? 2)%nat then TeamNameRejected (invalid_argument "team name must contain at least 2 characters")
  else if (120 <? String.length trimmed)%nat then TeamNameRejected (invalid_argument "team name must contain at most 120 characters")
  else TeamNameAccepted (MkTeamName trimmed).

Inductive TeamOwner := OrganizationOwnedTeam (OrganizationID : OrganizationID) | UserOwnedTeam (OwnerUserID : UserID).

Record Team := MkTeam { Team_ID : TeamID; Team_Owner : TeamOwner; Team_Name : TeamName; Team_CreatedBy : UserID }.

(** ** [org/store_results.go] *)

Inductive MemberRolesResult := MemberRolesFound (Roles : list Role) | MemberRolesMissing | MemberRolesRejected (Reason : DomainError).
Inductive FindTeamResult := TeamFound (Value : Team) | TeamMissing (Reason : DomainError).
Inductive TeamMembersResult := TeamMembersListed (Values : list UserID) | TeamMembersRejected (Reason : DomainError).
Inductive GetTeamResult := TeamGot (Value : Team) (Members : list UserID) | GetTeamRejected (Reason : DomainError).

Section Org.
Context `{UUIDLib}.

(** ** [db/org_store.go] *)

Definition parse_role (raw : string) : DomainError + Role :=
  match ParseRole raw with RoleAccepted role => inr role | RoleRejected reason => inl reason end.

Definition FindMemberRoles (organizationID : OrganizationID) (userID : UserID) : MOf Market MemberRolesResult :=
  rows ← read_rows (invalid_state "find member roles failed") (invalid_state "scan member role failed")
    (invalid_state "read member roles failed") parse_role
    (fun m => merge_sort (fun a b => String.leb a b)
       (member_roles (TypedID_String organizationID) (TypedID_String userID) (tables m)));
  mret match rows with
       | inl reason => MemberRolesRejected reason
       | inr [] => MemberRolesMissing
       | inr roles => MemberRolesFound roles
       end.

Definition parseTeamOwner (rawOwnerKind rawOrganizationID rawOwnerUserID : string) : DomainError + TeamOwner :=
  if String.eqb rawOwnerKind "organization" then
    match ParseOrganizationID rawOrganizationID with
    | TypedIDRejected reason => inl reason
    | TypedIDCreated organization => inr (OrganizationOwnedTeam organization)
    end
  else if String.eqb rawOwnerKind "user" then
    match ParseUserID rawOwnerUserID with
    | TypedIDRejected reason => inl reason
    | TypedIDCreated user => inr (UserOwnedTeam user)
    end
  else inl (invalid_enum "team owner kind is invalid").

Definition parseTeamRow (rawID : string) (row : TeamRow) : DomainError + Team :=
  match ParseTeamID rawID with
  | TypedIDRejected reason => inl reason
  | TypedIDCreated id =>
  match NewTeamName (team_name row) with
  | TeamNameRejected reason => inl reason
  | TeamNameAccepted name =>
  match ParseUserID (team_created_by row) with
  | TypedIDRejected reason => inl reason
  | TypedIDCreated created_by =>
  match parseTeamOwner (team_owner_kind row) (default "" (team_organization_id row)) (default "" (team_owner_user_id row)) with
  | inl reason => inl reason
  | inr owner => inr (MkTeam id owner name created_by)
  end end end end.

Definition FindTeam (teamID : TeamID) : MOf Market FindTeamResult :=
  scan ← pool_query (fun m => required ErrNoRows (teams m !! TypedID_String teamID));
  mret match scan with
       | inl ErrNoRows => TeamMissing (not_found "team not found")
       | inl _ => TeamMissing (invalid_state "find team failed")
       | inr row => match parseTeamRow (TypedID_String teamID) row with
                    | inl reason => TeamMissing reason
                    | inr value => TeamFound value
                    end
       end.

Definition parse_user (raw : string) : DomainError + UserID :=
  match ParseUserID raw with TypedIDCreated user => inr user | TypedIDRejected reason => inl reason end.

Definition members_of (team : string) (m : Market) : list string :=
  merge_sort (fun a b => String.leb a b) (filter (fun kv => kv.1 = team) (team_members m)).*2.

Definition ListTeamMembers (teamID : TeamID) : MOf Market TeamMembersResult :=
  rows ← read_rows (invalid_state "list team members failed") (invalid_state "scan team member failed")
    (invalid_state "read team members failed") parse_user (members_of (TypedID_String teamID));
  mret match rows with
       | inl reason => TeamMembersRejected reason
       | inr values => TeamMembersListed values
       end.

(** ** [org/service.go] *)

Definition requirePermission (organizationID : OrganizationID) (userID : UserID) (permission : Permission) : MOf Market PermissionCheck :=
  found ← FindMemberRoles organizationID userID;
  mret match found with
       | MemberRolesFound roles => CheckPermission roles permission
       | MemberRolesMissing => PermissionDenied (permission_denied "organization membership is required")
       | MemberRolesRejected reason => PermissionDenied reason
       end.

Definition CheckOrganizationPermission : OrganizationID -> UserID -> Permission -> MOf Market PermissionCheck := requirePermission.

Definition contains_user (members : list UserID) (user : UserID) : bool := existsb (fun member => bool_decide (member = user)) members.

Definition CheckOrganizationTeamMembership (organizationID : OrganizationID) (teamID : TeamID) (userID : UserID) : MOf Market PermissionCheck :=
  found ← FindTeam teamID;
  match found with
  | TeamMissing reason => mret (PermissionDenied reason)
  | TeamFound team =>
      if negb match Team_Owner team with
              | OrganizationOwnedTeam owner => bool_decide (owner = organizationID)
              | UserOwnedTeam _ => false
              end
      then mret (PermissionDenied (permission_denied "organization team access denied"))
      else
        members ← ListTeamMembers teamID;
        mret match members with
             | TeamMembersRejected reason => PermissionDenied reason
             | TeamMembersListed values =>
                 if contains_user values userID then PermissionGranted
                 else PermissionDenied (permission_denied "organization team membership denied")
             end
  end.

Definition CheckTeamMembership (teamID : TeamID) (userID : UserID) : MOf Market PermissionCheck :=
  members ← ListTeamMembers teamID;
  mret match members with
       | TeamMembersRejected reason => PermissionDenied reason
       | TeamMembersListed values =>
           if contains_user values userID then PermissionGranted
           else PermissionDenied (permission_denied "team membership denied")
       end.

Definition canViewTeam (actor : Auth.Subject) (team : Team) (members : list UserID) : MOf Market bool :=
  match actor with
  | Auth.OrgSubject _ =>
      mret match Team_Owner team with
           | OrganizationOwnedTeam owner =>
               match Auth.orgactor_Check actor owner with Auth.Match => true | _ => false end
           | UserOwnedTeam _ => false
           end
  | Auth.GuestSubject _ => mret false
  | Auth.UserSubject user =>
      if contains_user members user then mret true
      else match Team_Owner team with
           | UserOwnedTeam owner => mret (bool_decide (owner = user))
           | OrganizationOwnedTeam organization =>
               found ← FindMemberRoles organization user;
               mret match found with MemberRolesFound _ => true | _ => false end
           end
  end.

Definition GetTeam (actor : Auth.Subject) (teamID : TeamID) : MOf Market GetTeamResult :=
  found ← FindTeam teamID;
  match found with
  | TeamMissing reason => mret (GetTeamRejected reason)
  | TeamFound team =>
  members ← ListTeamMembers teamID;
  match members with
  | TeamMembersRejected reason => mret (GetTeamRejected reason)
  | TeamMembersListed values =>
  allowed ← canViewTeam actor team values;
  mret (if allowed : bool then TeamGot team values
        else GetTeamRejected (permission_denied "team access denied"))
  end end.

End Org.
End Org.
