(* ===== verification/TaskRows.v ===== *)
(** * The rows of tasks and reservations

    Models [internal/db/task_row_parse.go], [internal/db/attachments.go] and the
    halves of [internal/db/task_store.go] that build the columns of an insert and
    parse the columns of a select. *)

From Stdlib Require Import Ascii.
From S2P Require Import Prelude.
From S2P Require Import Core.
From S2P Require Import Auth.
From S2P Require Import Json.
From S2P Require Import Calendar.
From S2P Require Import Attachments.
From S2P Require Import TaskValues.
From S2P Require Import Database.
From S2P Require Import Tx.
From S2P Require Import DeliveryDB.
From S2P Require Import TaskDB.
Local Open Scope string_scope.
Local Open Scope Z_scope.

Section TaskRows.
Context `{UUIDLib, URLLib, World}.

(** ** Columns of an insert *)

Record OwnerSQL := MkOwnerSQL { sql_kind : string; sql_userID : option string; sql_teamID : option string; sql_organizationID : option string }.

Definition ownerSQLColumns (owner : Task.Owner) : OwnerSQL :=
  match owner with
  | Task.UserOwner user => MkOwnerSQL "user" (Some (TypedID_String user)) None None
  | Task.TeamOwner team => MkOwnerSQL "team" None (Some (TypedID_String team)) None
  | Task.OrganizationOwner organization => MkOwnerSQL "organization" None None (Some (TypedID_String organization))
  | Task.OrganizationTeamOwner organization team =>
      MkOwnerSQL "organization_team" None (Some (TypedID_String team)) (Some (TypedID_String organization))
  end.

Definition visibilitySQLColumns (task : string) (visibility : Task.Visibility) : VisibilityRow :=
  match visibility with
  | Task.PublicVisibility => MkVisibilityRow task "public" "public" None None None
  | Task.UserVisibility user => MkVisibilityRow task "user" (TypedID_String user) (Some (TypedID_String user)) None None
  | Task.TeamVisibility team => MkVisibilityRow task "team" (TypedID_String team) None (Some (TypedID_String team)) None
  | Task.OrganizationVisibility organization =>
      MkVisibilityRow task "organization" (TypedID_String organization) None None (Some (TypedID_String organization))
  | Task.OrganizationTeamVisibility organization team =>
      MkVisibilityRow task "organization_team" (TypedID_String organization +:+ ":" +:+ TypedID_String team)
        None (Some (TypedID_String team)) (Some (TypedID_String organization))
  end.

Definition assigneeSQLColumns (assignee : Task.Assignee) : OwnerSQL :=
  match assignee with
  | Task.UserAssignee user => MkOwnerSQL (Task.AssigneeScope_String Task.AssigneeScopeUser) (Some (TypedID_String user)) None None
  | Task.OrganizationTeamAssignee organization team =>
      MkOwnerSQL (Task.AssigneeScope_String Task.AssigneeScopeOrganizationTeam) None (Some (TypedID_String team)) (Some (TypedID_String organization))
  | Task.TeamAssignee team => MkOwnerSQL (Task.AssigneeScope_String Task.AssigneeScopeTeam) None (Some (TypedID_String team)) None
  end.

Definition rewardSQLColumns (reward : Task.RewardSpec) : string * option Z :=
  match reward with
  | Task.NoRewardSpec => ("none", None)
  | Task.CreditRewardSpec amount => ("credit", Some (Task.CreditRewardAmount_Int64 amount))
  | Task.CollectibleRewardSpec _ => ("collectible", None)
  | Task.BundleRewardSpec credit _ => ("bundle", Some (Task.CreditRewardAmount_Int64 credit))
  end.

(** A [timestamptz] keeps microseconds. *)
Definition timestamptz (instant : Z) : Z := instant / 1000 * 1000.

Definition expirationSQLColumn (policy : Task.ExpirationPolicy) : option Z :=
  match policy with Task.ExpiresAt instant => Some (timestamptz instant) | Task.NoExpiration => None end.

Definition payloadSQLColumns (payload : Task.DataPayload) : string * option string :=
  match payload with
  | Task.NoDataPayload => ("none", None)
  | Task.JSONDataPayload source => ("json", Some (Task.PayloadSource_value source))
  end.

(** ** The columns of a select *)

(** [taskBaseRow]: [taskBaseColumns] as scanned. *)
Record taskBaseRow := MkTaskBaseRow {
  b_taskID : string;
  b_ownerKind : string; b_ownerUserID : string; b_ownerTeamID : string; b_ownerOrganizationID : string;
  b_title : string; b_description : string; b_taskType : string; b_referenceURL : string; b_state : string;
  b_rewardKind : string; b_rewardCreditAmount : Z; b_rewardCollectibleCount : Z;
  b_participationPolicy : string; b_assigneeScope : string; b_reservationTTLHours : Z;
  b_visibilityKind : string; b_visibilityUserID : string; b_visibilityTeamID : string; b_visibilityOrganizationID : string;
  b_seriesID : string; b_seriesPosition : Z;
  b_responseSchema : string; b_payloadKind : string; b_payload : string; b_createdBy : string;
  b_attachments : string; b_expiresAt : string
}.

(** [to_char(expires_at at time zone 'UTC', ...)]: seconds, and a year of four digits or more. *)
Definition to_char_utc (instant : Z) : string := RFC3339 instant.

(** [order by task_attachments.attachment_index] *)
Definition by_index (a b : AttachmentRow) : Prop := att_index a <= att_index b.

#[export] Instance by_index_dec a b : Decision (by_index a b).
Proof. unfold by_index. apply _. Defined.

(** The aggregate over [task_attachments], [''[]''] when there is none. *)
Definition attachments_text (task : string) (m : Market) : string :=
  match merge_sort by_index (filter (fun row => att_task_id row = task) (task_attachments m)) with
  | [] => "[]"
  | rows => attachments_json ((fun row => (att_filename row, att_content_type row, att_content row)) <$> rows)
  end.

(** The number of rows of [task_fund_collectibles] *)
Definition held_count (task : string) (db : DB) : Z :=
  Z.of_nat (size (filter (fun kv => kv.2 = task) (task_fund_collectibles db))).

Definition base_row (m : Market) (task : string) (row : TaskRow) (c : TaskColumns) (vis : VisibilityRow) : taskBaseRow :=
  MkTaskBaseRow task
    (tc_owner_kind c) (default "" (tc_user_id c)) (default "" (tc_team_id c)) (default "" (task_organization_id row))
    (tc_title c) (tc_description c) (tc_task_type c) (tc_reference_url c) (task_state row)
    (task_reward_kind row) (default 0 (task_reward_credit_amount row)) (held_count task (tables m))
    (tc_participation_policy c) (tc_assignee_scope c) (tc_reservation_hours c)
    (vis_kind vis) (default "" (vis_user_id vis)) (default "" (vis_team_id vis)) (default "" (vis_organization_id vis))
    (default "" (tc_series_id c)) (default 0 (tc_series_position c))
    (tc_response_schema_json c) (tc_payload_kind c) (default "" (tc_payload_json c)) (task_created_by_user_id row)
    (attachments_text task m)
    (match tc_expires_at c with Some instant => to_char_utc instant | None => "" end).

(** The rows of [taskSelectSQL] for one task, with the creator's name. *)
Definition task_select (task : string) (m : Market) : list (taskBaseRow * string) :=
  vis ← filter (fun vis => vis_task_id vis = task) (task_visibility_scopes m);
  match task_row task m with
  | None => []
  | Some (row, columns) =>
      match profiles m !! task_created_by_user_id row with
      | None => []
      | Some creator => [(base_row m task row columns vis, displayNameSQL creator)]
      end
  end.

(** ** Parsing *)

Definition parseTaskOwner (kind rawUserID rawTeamID rawOrganizationID : string) : DomainError + Task.Owner :=
  switch kind
    [ ("user", user ← outcome (ParseUserID rawUserID); inr (Task.UserOwner user));
      ("team", team ← outcome (ParseTeamID rawTeamID); inr (Task.TeamOwner team));
      ("organization", organization ← outcome (ParseOrganizationID rawOrganizationID); inr (Task.OrganizationOwner organization));
      ("organization_team",
        organization ← outcome (ParseOrganizationID rawOrganizationID);
        team ← outcome (ParseTeamID rawTeamID);
        inr (Task.OrganizationTeamOwner organization team)) ]
    (inl (invalid_enum "task owner kind is invalid")).

Definition parseTaskVisibility (kind rawUserID rawTeamID rawOrganizationID : string) : DomainError + Task.Visibility :=
  switch kind
    [ ("public", inr Task.PublicVisibility);
      ("user", user ← outcome (ParseUserID rawUserID); inr (Task.UserVisibility user));
      ("team", team ← outcome (ParseTeamID rawTeamID); inr (Task.TeamVisibility team));
      ("organization", organization ← outcome (ParseOrganizationID rawOrganizationID); inr (Task.OrganizationVisibility organization));
      ("organization_team",
        organization ← outcome (ParseOrganizationID rawOrganizationID);
        team ← outcome (ParseTeamID rawTeamID);
        inr (Task.OrganizationTeamVisibility organization team)) ]
    (inl (invalid_enum "task visibility kind is invalid")).

Definition parseSeriesPlacement (rawSeriesID : string) (rawPosition : Z) : DomainError + Task.SeriesPlacement :=
  if String.eqb rawSeriesID "" then inr Task.StandalonePlacement
  else
    series ← outcome (ParseTaskSeriesID rawSeriesID);
    position ← outcome (Task.NewSeriesPosition rawPosition);
    inr (Task.ExistingSeriesPlacement series position).

Definition parseDataPayload (kind rawPayload : string) : DomainError + Task.DataPayload :=
  switch kind
    [ ("none", inr Task.NoDataPayload);
      ("json", payload ← outcome (Task.NewPayloadSource rawPayload); inr (Task.JSONDataPayload payload)) ]
    (inl (invalid_enum "task payload kind is invalid")).

Definition collectibleRewardSpec (rawCount : Z) : DomainError + Task.CollectibleRewardCount :=
  outcome (Task.NewCollectibleRewardCount rawCount).

Definition parseRewardSpec (rawKind : string) (rawCreditAmount rawCollectibleCount : Z) : DomainError + Task.RewardSpec :=
  let count := if rawCollectibleCount =? 0 then 1 else rawCollectibleCount in
  switch rawKind
    [ ("none",
        if 0 <? rawCollectibleCount
        then count ← collectibleRewardSpec rawCollectibleCount; inr (Task.CollectibleRewardSpec count)
        else inr Task.NoRewardSpec);
      ("credit",
        amount ← outcome (Task.NewCreditRewardAmount rawCreditAmount);
        if 0 <? rawCollectibleCount
        then count ← collectibleRewardSpec rawCollectibleCount; inr (Task.BundleRewardSpec amount count)
        else inr (Task.CreditRewardSpec amount));
      ("collectible", count ← collectibleRewardSpec count; inr (Task.CollectibleRewardSpec count));
      ("bundle",
        amount ← outcome (Task.NewCreditRewardAmount rawCreditAmount);
        count ← collectibleRewardSpec count;
        inr (Task.BundleRewardSpec amount count)) ]
    (inl (invalid_enum "task reward kind is invalid")).

(** *** [json.Unmarshal] into [[]storedAttachmentRow] *)

Record storedAttachmentRow := MkStoredAttachmentRow { Row_Name : string; Row_ContentType : string; Row_Content : string }.

(** A member sets the field whose name it has, letters of either case; [null] sets nothing. *)
Definition set_attachment_member (row : storedAttachmentRow) (member : bytes * JSON) : option storedAttachmentRow :=
  let key := of_bytes (Attachment.lower_byte <$> member.1) in
  let set (update : string -> storedAttachmentRow) :=
    match member.2 with
    | JString value => Some (update (of_bytes value))
    | JNull => Some row
    | _ => None
    end in
  if String.eqb key "name" then set (fun v => MkStoredAttachmentRow v (Row_ContentType row) (Row_Content row))
  else if String.eqb key "content_type" then set (fun v => MkStoredAttachmentRow (Row_Name row) v (Row_Content row))
  else if String.eqb key "content" then set (fun v => MkStoredAttachmentRow (Row_Name row) (Row_ContentType row) v)
  else Some row.

Definition unmarshal_attachment (item : JSON) : option storedAttachmentRow :=
  match item with
  | JObject members =>
      foldl (fun row member => row ← row; set_attachment_member row member) (Some (MkStoredAttachmentRow "" "" "")) members
  | JNull => Some (MkStoredAttachmentRow "" "" "")
  | _ => None
  end.

Definition unmarshal_attachments (raw : string) : option (list storedAttachmentRow) :=
  document ← json_document (to_bytes raw);
  match document with
  | JArray items => mapM unmarshal_attachment items
  | JNull => Some []
  | _ => None
  end.

Definition parse_attachment (row : storedAttachmentRow) : DomainError + Attachment.Attachment :=
  content ← required (invalid_state "decode attachment content failed") (StdEncoding_DecodeString (Row_Content row));
  outcome (Attachment.NewStoredAttachment (Row_Name row) (Row_ContentType row) content).

Definition parseStoredAttachments (raw : string) : DomainError + list Attachment.Attachment :=
  rows ← required (invalid_state "decode attachments failed") (unmarshal_attachments raw);
  mapM parse_attachment rows.

Definition parseStoredExpiration (raw : string) : DomainError + Task.ExpirationPolicy :=
  if String.eqb raw "" then inr Task.NoExpiration
  else
    instant ← required (invalid_state "task expiration timestamp is invalid") (time_Parse_RFC3339 raw);
    inr (Task.ExpiresAt instant).

Definition parseTaskRow (row : taskBaseRow) : DomainError + Task.Task :=
  taskID ← outcome (ParseTaskID (b_taskID row));
  owner ← parseTaskOwner (b_ownerKind row) (b_ownerUserID row) (b_ownerTeamID row) (b_ownerOrganizationID row);
  title ← outcome (Task.NewTitle (b_title row));
  description ← outcome (Task.NewDescription (b_description row));
  taskType ← outcome (ParseTaskType (b_taskType row));
  reference ← outcome (NewReferenceURL (b_referenceURL row));
  state ← outcome (Task.ParseState (b_state row));
  reward ← parseRewardSpec (b_rewardKind row) (b_rewardCreditAmount row) (b_rewardCollectibleCount row);
  participation ← outcome (Task.ParseParticipationPolicy (b_participationPolicy row));
  assigneeScope ← outcome (Task.ParseAssigneeScope (b_assigneeScope row));
  ttl ← outcome (Task.NewReservationTTL (b_reservationTTLHours row));
  visibility ← parseTaskVisibility (b_visibilityKind row) (b_visibilityUserID row) (b_visibilityTeamID row) (b_visibilityOrganizationID row);
  placement ← parseSeriesPlacement (b_seriesID row) (b_seriesPosition row);
  schema ← outcome (Task.NewResponseSchemaSource (b_responseSchema row));
  payload ← parseDataPayload (b_payloadKind row) (b_payload row);
  createdBy ← outcome (ParseUserID (b_createdBy row));
  attachments ← parseStoredAttachments (b_attachments row);
  expiration ← parseStoredExpiration (b_expiresAt row);
  inr (Task.MkTask taskID owner title description taskType reference reward participation assigneeScope ttl state
    visibility placement schema payload attachments expiration createdBy).

(** A row of [scanTaskRows]. *)
Definition parse_found (row : taskBaseRow * string) : DomainError + (Task.Task * DisplayName) :=
  task ← parseTaskRow row.1;
  name ← outcome (NewDisplayName row.2);
  inr (task, name).

(** *** Reservations *)

Record reservationSQLRow := MkReservationSQLRow {
  r_id : string; r_taskID : string; r_assigneeKind : string; r_userID : string; r_teamID : string;
  r_organizationID : string; r_state : string; r_requestedBy : string; r_holderName : string
}.

(** A row of [reservationSelectSQL], [None] when its holder has no row in [users]. *)
Definition reservation_sql_row (m : Market) (id : string) : option reservationSQLRow :=
  '(row, columns) ← reservation_row id m;
  holder ← profiles m !! res_requested_by_user_id row;
  Some (MkReservationSQLRow id (res_task_id row) (res_assignee_kind row) (default "" (res_user_id row))
    (default "" (rc_team_id columns)) (default "" (rc_organization_id columns)) (res_state row)
    (res_requested_by_user_id row) (displayNameSQL holder)).

Definition parseReservationAssignee (rawKind rawUserID rawTeamID rawOrganizationID : string) : DomainError + Task.Assignee :=
  switch rawKind
    [ ("user", user ← outcome (ParseUserID rawUserID); inr (Task.UserAssignee user));
      ("organization_team",
        organization ← outcome (ParseOrganizationID rawOrganizationID);
        team ← outcome (ParseTeamID rawTeamID);
        inr (Task.OrganizationTeamAssignee organization team));
      ("team", team ← outcome (ParseTeamID rawTeamID); inr (Task.TeamAssignee team)) ]
    (inl (invalid_enum "reservation assignee kind is invalid")).

Definition parseReservationRow (row : reservationSQLRow) : DomainError + Task.Reservation :=
  id ← outcome (ParseTaskReservationID (r_id row));
  taskID ← outcome (ParseTaskID (r_taskID row));
  assignee ← parseReservationAssignee (r_assigneeKind row) (r_userID row) (r_teamID row) (r_organizationID row);
  state ← outcome (Task.ParseReservationState (r_state row));
  requestedBy ← outcome (ParseUserID (r_requestedBy row));
  holderName ← outcome (NewDisplayName (r_holderName row));
  inr (Task.MkReservation id taskID assignee state requestedBy holderName).

End TaskRows.
