(* ===== verification/TaskStore.v ===== *)
(** * The task store

    Models the operations of [internal/db/task_store.go] that change or gate a
    task's life: creation, state changes, reservations and submission eligibility,
    with the escrow helpers of [collectible_store.go], the series check of
    [series_mutations_store.go] and the reservation budget of
    [work_budget_store.go] they use. *)

From S2P Require Import Prelude.
From S2P Require Import Core.
From S2P Require Import Auth.
From S2P Require Import Assets.
From S2P Require Import Events.
From S2P Require Import Attachments.
From S2P Require Import TaskValues.
From S2P Require Import LedgerValues.
From S2P Require Import TaskWork.
From S2P Require Import Database.
From S2P Require Import Tx.
From S2P Require Import Outbox.
From S2P Require Import LedgerHelpers.
From S2P Require Import TaskDB.
From S2P Require Import TaskRows.

Local Open Scope string_scope.
Local Open Scope Z_scope.

Module Tasks.

(** ** Commands and results of [task/service.go] and [task/store_results.go] *)

Record CreateCommand := MkCreateCommand {
  create_Actor : UserID;
  create_Owner : Task.Owner;
  create_Title : Task.Title;
  create_Description : Task.Description;
  create_Type : TaskType;
  create_Reference : ReferenceURL;
  create_Reward : Task.RewardSpec;
  create_Participation : Task.ParticipationPolicy;
  create_AssigneeScope : Task.AssigneeScope;
  create_ReservationTTL : Task.ReservationTTL;
  create_Visibility : Task.Visibility;
  create_Placement : Task.SeriesPlacement;
  create_ResponseSchema : Task.ResponseSchemaSource;
  create_Payload : Task.DataPayload;
  create_Attachments : list Attachment.Attachment;
  create_Expiration : Task.ExpirationPolicy;
  create_FundCollectibleIDs : list CollectibleID
}.

Record ReservationCommand := MkReservationCommand {
  reserve_TaskID : TaskID;
  reserve_Assignee : Task.Assignee;
  reserve_RequestedBy : UserID;
  reserve_Origin : Work.ReservationOrigin;
  reserve_Draft : Draft
}.

Inductive CreateTaskStoreResult := CreateTaskStoreAccepted (Value : Task.Task) | CreateTaskStoreRejected (Reason : DomainError).
Inductive ChangeTaskStateStoreResult :=
| ChangeTaskStateStoreAccepted (Value : Task.Task) (RecordedEvents : list Draft)
| ChangeTaskStateStoreRejected (Reason : DomainError).
Inductive FindTaskStoreResult :=
| FindTaskStoreAccepted (Value : Task.Task) (CreatorDisplayName : DisplayName)
| FindTaskStoreRejected (Reason : DomainError).
Inductive CreateReservationStoreResult :=
| CreateReservationStoreAccepted (Value : Task.Reservation)
| CreateReservationStoreRejected (Reason : DomainError).
Inductive ChangeReservationStateStoreResult :=
| ChangeReservationStateStoreAccepted (Value : Task.Reservation) (RecordedEvents : list Draft)
| ChangeReservationStateStoreRejected (Reason : DomainError).
Inductive ListReservationsStoreResult :=
| ListReservationsStoreAccepted (Values : list Task.Reservation)
| ListReservationsStoreRejected (Reason : DomainError).
Inductive SubmissionEligibilityStoreResult := SubmissionEligible | SubmissionEligibilityRejected (Reason : DomainError).

Section Store.
Context `{UUIDLib, URLLib, World}.

(** ** Reading a task *)

Definition FindTask (taskID : TaskID) : MOf Market FindTaskStoreResult :=
  rows ← read_rows (invalid_state "find task failed") (invalid_state "scan task failed") (invalid_state "read tasks failed")
    parse_found (task_select (TypedID_String taskID));
  mret match rows with
       | inl reason => FindTaskStoreRejected reason
       | inr [(value, name)] => FindTaskStoreAccepted value name
       | inr _ => FindTaskStoreRejected (not_found "task was not found")
       end.

(** ** Escrow *)

Definition openable_reward (taskID : TaskID) : M (option DomainError) :=
  let task := TypedID_String taskID in
  let* '(rewardKind, creditAmount) :=
    query_row (fun db => row ← required ErrNoRows (tasks db !! task);
                         inr (task_reward_kind row, default 0 (task_reward_credit_amount row)))
  else fun _ => Some (not_found "task was not found") in
  let collectible :=
    if bool_decide (rewardKind = "collectible" \/ rewardKind = "bundle") then
      let* held := query_row (fun db => inr (held_count task db))
      else fun _ => Some (invalid_state "check collectible reward funding failed") in
      mret (if held <? 1 then Some (conflict "collectible reward must be funded before opening") else None)
    else mret None in
  if bool_decide (rewardKind = "credit" \/ rewardKind = "bundle") then
    let* allocated := query_row (fun db => required ErrNoRows (fund_credit_amount <$> task_funds db !! task))
    else fun _ => Some (conflict "credit reward must be funded before opening") in
    if negb (allocated =? creditAmount)
    then mret (Some (conflict "allocated credits must match the declared credit reward"))
    else collectible
  else collectible.

Definition requireOpenableReward (now : Z) (taskID : TaskID) : MOf Market (option DomainError) :=
  on_tables now (openable_reward taskID).

(** [idempotencyKey] is [nil] for the cancel settlement. *)
Definition refundTaskCreditFunding (now : Z) (taskID : TaskID) (idempotencyKey : option string) : MOf Market (option DomainError) :=
  scan ← on_tables now (query_row (fun db => required ErrNoRows (task_funds db !! TypedID_String taskID)));
  match scan with
  | inl ErrNoRows => mret None
  | inl _ => mret (Some (invalid_state "read task fund failed"))
  | inr fund =>
      entryResult ← NewLedgerEntryID;
      match entryResult with
      | TypedIDRejected reason => mret (Some reason)
      | TypedIDCreated entryID =>
          do* on_tables now (exec (insert_ledger_entry (new_entry entryID (fund_account_id fund) "task_refund"
                (fund_credit_amount fund) (Some taskID) idempotencyKey "" now)))
          else fun _ => Some (invalid_state "insert task refund ledger entry failed") in
          do* on_tables now (exec (delete_task_fund (TypedID_String taskID)))
          else fun _ => Some (invalid_state "clear task fund failed") in
          mret None
      end
  end.

Definition settleFundedTaskOnCancel (now : Z) (taskID : TaskID) : MOf Market (option DomainError) :=
  do* refundTaskCreditFunding now taskID None else Some in
  on_tables now (refundHeldCollectibleReward taskID).

(** *** [collectible_store.go]: escrowing a collectible at creation *)

Definition requireEscrowableCollectible (collectibleID : CollectibleID) (funder : UserID) : M (DomainError + Collectible) :=
  collectibleResult ← lockCollectible collectibleID;
  mret match collectibleResult with
       | collectibleParseRejected reason => inl reason
       | collectibleParsed collectible =>
           if negb (String.eqb (Collectible_OwnerKind collectible) CollectibleOwnerKindUser) ||
              negb (String.eqb (Collectible_OwnerID collectible) (TypedID_String funder))
           then inl (invalid_argument "only the collectible owner can fund a task with it")
           else if negb (bool_decide (Collectible_State collectible = CollectibleStateMinted))
           then inl (invalid_state "collectible is not available to escrow")
           else match AllowsRewardPayout (Collectible_Policy collectible) with
                | RewardDenied reason => inl reason
                | RewardAllowed => inr collectible
                end
       end.

(** [insert into task_fund_collectibles]: both its keys are on the collectible. *)
Definition insert_fund_collectible (task collectible : string) (db : DB) : StmtError + DB :=
  if negb (bool_decide (is_Some (tasks db !! task)) && bool_decide (is_Some (collectibles db !! collectible))) then inl ErrOther
  else if bool_decide (is_Some (task_fund_collectibles db !! collectible)) then inl ErrUniqueViolation
  else inr (with_fund_collectibles (<[collectible := task]> (task_fund_collectibles db)) db).

Definition holdCollectibleForTask (taskID : TaskID) (collectibleID : CollectibleID) : M (option DomainError) :=
  do* exec (update_collectible (set_col_state "escrowed") (TypedID_String collectibleID))
  else fun _ => Some (invalid_state "escrow collectible failed") in
  err ← exec (insert_fund_collectible (TypedID_String taskID) (TypedID_String collectibleID));
  mret match err with
       | None => None
       | Some ErrUniqueViolation => Some (conflict "collectible is already escrowed on this task")
       | Some _ => Some (invalid_state "insert collectible reward failed")
       end.

Fixpoint escrow_collectibles (now : Z) (taskID : TaskID) (funder : UserID) (ids : list CollectibleID) : MOf Market (option DomainError) :=
  match ids with
  | [] => mret None
  | collectibleID :: ids =>
      let* _ := on_tables now (requireEscrowableCollectible collectibleID funder) else Some in
      do* on_tables now (holdCollectibleForTask taskID collectibleID) else Some in
      escrow_collectibles now taskID funder ids
  end.

(** ** Creation *)

Definition insertSeriesForPlacement (seriesID : TaskSeriesID) (command : CreateCommand) :
    MOf Market (DomainError + (option string * option Z)) :=
  match create_Placement command with
  | Task.StandalonePlacement => mret (inr (None, None))
  | Task.NewSeriesPlacement title position =>
      let owner := ownerSQLColumns (create_Owner command) in
      do* exec (insert_series (TypedID_String seriesID) (MkSeriesRow (sql_kind owner) (sql_userID owner) (sql_teamID owner)
            (sql_organizationID owner) (Task.SeriesTitle_value title) "" "draft" (TypedID_String (create_Actor command))))
      else fun _ => inl (invalid_state "insert task series failed") in
      mret (inr (Some (TypedID_String seriesID), Some (Task.SeriesPosition_value position)))
  | Task.ExistingSeriesPlacement series position =>
      mret (inr (Some (TypedID_String series), Some (Task.SeriesPosition_value position)))
  end.

Fixpoint insertTaskAttachments (taskID : TaskID) (index : Z) (attachments : list Attachment.Attachment) : MOf Market (option DomainError) :=
  match attachments with
  | [] => mret None
  | value :: attachments =>
      do* exec (insert_attachment (MkAttachmentRow (TypedID_String taskID) index
            (Attachment.Name_value (Attachment.AName value)) (Attachment.ContentType_value (Attachment.AContentType value))
            (Attachment.Content_value (Attachment.AContent value))))
      else fun _ => Some (invalid_state "insert task attachment failed") in
      insertTaskAttachments taskID (index + 1) attachments
  end.

(** The two halves of the row inserted into [tasks]. *)
Definition created_row (command : CreateCommand) : TaskRow :=
  let reward := rewardSQLColumns (create_Reward command) in
  MkTaskRow (Task.State_String Task.StateDraft) (TypedID_String (create_Actor command))
    (sql_organizationID (ownerSQLColumns (create_Owner command))) reward.1 reward.2.

Definition created_columns (command : CreateCommand) (series : option string * option Z) (now : Z) : TaskColumns :=
  let owner := ownerSQLColumns (create_Owner command) in
  let payload := payloadSQLColumns (create_Payload command) in
  MkTaskColumns series.1 series.2 (sql_kind owner) (sql_userID owner) (sql_teamID owner)
    (Task.Title_value (create_Title command)) (Task.Description_value (create_Description command))
    (TaskType_String (create_Type command)) (ReferenceURL_value (create_Reference command))
    (Task.ParticipationPolicy_String (create_Participation command))
    (Task.AssigneeScope_String (create_AssigneeScope command))
    (Task.ReservationTTL_Hours (create_ReservationTTL command))
    (Task.ResponseSchemaSource_value (create_ResponseSchema command)) payload.1 payload.2
    (expirationSQLColumn (create_Expiration command)) now.

Definition CreateTask (seriesID : TaskSeriesID) (taskID : TaskID) (command : CreateCommand) : MOf Market CreateTaskStoreResult :=
  let rejected description := fun _ : StmtError => CreateTaskStoreRejected (invalid_state description) in
  do* begin_tx else rejected "begin create task transaction failed" in
  now ← server_time;
  let* series := insertSeriesForPlacement seriesID command else CreateTaskStoreRejected in
  do* exec (insert_task (TypedID_String taskID) (created_row command) (created_columns command series now))
  else rejected "insert task failed" in
  do* exec (insert_visibility (visibilitySQLColumns (TypedID_String taskID) (create_Visibility command)))
  else rejected "insert task visibility failed" in
  do* insertTaskAttachments taskID 0 (create_Attachments command) else CreateTaskStoreRejected in
  do* escrow_collectibles now taskID (create_Actor command) (create_FundCollectibleIDs command) else CreateTaskStoreRejected in
  do* commit_tx else rejected "commit create task transaction failed" in
  found ← FindTask taskID;
  mret match found with
       | FindTaskStoreRejected reason => CreateTaskStoreRejected reason
       | FindTaskStoreAccepted value _ => CreateTaskStoreAccepted value
       end.

(** ** State changes *)

Definition eqb_state (a b : Task.State) : bool := bool_decide (a = b).

(** What cancelling settles before the state is written; the holders it releases. *)
Definition settle_cancel (now : Z) (taskID : TaskID) : MOf Market (DomainError + list UserID) :=
  do* settleFundedTaskOnCancel now taskID else inl in
  let* holders := on_tables now (lockedReservationHolders (TypedID_String taskID)) else inl in
  do* on_tables now (releaseReservationsOnCancel taskID) else inl in
  mret (inr holders).

(** The plan's draft, with the creator and the released holders among its recipients. *)
Definition record_plan (now : Z) (plan : Plan) (rawCreatedBy : string) (releasedHolders : list UserID) : MOf Market (DomainError + list Draft) :=
  match plan with
  | NoEvent => mret (inr [])
  | RecordDraft draft =>
      match parseReviewWorker rawCreatedBy with
      | inl reason => mret (inl reason)
      | inr creator =>
          let draft := WithRecipients draft (creator :: releasedHolders) in
          do* on_tables now (recordEventDraftInTx draft) else fun _ => inl (invalid_state "record task state event failed") in
          mret (inr [draft])
      end
  end.

Definition ChangeTaskState (taskID : TaskID) (state : Task.State) (plan : Plan) : MOf Market ChangeTaskStateStoreResult :=
  let rejected description := fun _ : StmtError => ChangeTaskStateStoreRejected (invalid_state description) in
  do* begin_tx else rejected "begin change task state transaction failed" in
  now ← server_time;
  let* '(priorState, rawCreatedBy) :=
    query_row (fun m => row ← required ErrNoRows (tasks (tables m) !! TypedID_String taskID);
                        inr (task_state row, task_created_by_user_id row))
  else fun err => ChangeTaskStateStoreRejected
         match err with ErrNoRows => not_found "task was not found" | _ => invalid_state "lock task state failed" end in
  do* (if eqb_state state Task.StateOpen then requireOpenableReward now taskID else mret None) else ChangeTaskStateStoreRejected in
  let* releasedHolders := (if eqb_state state Task.StateCancelled then settle_cancel now taskID else mret (inr []))
  else ChangeTaskStateStoreRejected in
  let* rows := stmt (update_task_state_from (TypedID_String taskID) (Task.State_String state) priorState)
  else rejected "change task state failed" in
  if negb (rows =? 1) then mret (ChangeTaskStateStoreRejected (conflict "task state was not changed")) else
  let* recorded := record_plan now plan rawCreatedBy releasedHolders else ChangeTaskStateStoreRejected in
  do* commit_tx else rejected "commit change task state transaction failed" in
  found ← FindTask taskID;
  mret match found with
       | FindTaskStoreRejected reason => ChangeTaskStateStoreRejected reason
       | FindTaskStoreAccepted value _ => ChangeTaskStateStoreAccepted value recorded
       end.

(** ** Lapsed reservations *)

(** Any failure to build the draft is an [error]. *)
Definition expiredReservationDraft (rawReservationID rawTaskID rawHolderID : string) : MOf Market (StmtError + Draft) :=
  let* rawOwnerID := query_row (fun m => required ErrNoRows (task_created_by_user_id <$> tasks (tables m) !! rawTaskID)) else inl in
  match ParseTaskID rawTaskID, ParseTaskReservationID rawReservationID, ParseUserID rawHolderID, ParseUserID rawOwnerID with
  | TypedIDCreated taskID, TypedIDCreated reservationID, TypedIDCreated holderID, TypedIDCreated ownerID =>
      id ← NewDomainEventID;
      mret match NewDraft id KindReservationExpired ActorSystem
                   (set_Reservation (ReservationSubject reservationID) (set_Task (TaskSubject taskID) NoSubjectRefs))
                   (TaskMetadata taskID) (NewRecipients [holderID; ownerID]) with
           | DraftCreated draft => inr draft
           | DraftRejected _ => inl ErrNoRows
           end
  | _, _, _, _ => mret (inl ErrNoRows)
  end.

(** [rows.Next] and [rows.Scan] of the released rows, then [rows.Err]. *)
Fixpoint scan_released {A} (rows : list A) : MOf Market (option StmtError) :=
  match rows with
  | [] => failed ← fault_point; mret (if failed : bool then Some ErrOther else None)
  | _ :: rows => failed ← fault_point; if failed : bool then mret (Some ErrOther) else scan_released rows
  end.

Fixpoint record_released (now : Z) (released : list (string * ReservationRow)) : MOf Market (StmtError + list Draft) :=
  match released with
  | [] => mret (inr [])
  | (reservation, row) :: released =>
      let* draft := expiredReservationDraft reservation (res_task_id row) (res_requested_by_user_id row) else inl in
      do* on_tables now (recordEventDraftInTx draft) else inl in
      let* drafts := record_released now released else inl in
      mret (inr (draft :: drafts))
  end.

Definition releaseExpiredReservationsInTx (now : Z) : MOf Market (StmtError + list Draft) :=
  let* released := stmt (fun m => inr (expire_lapsed now m)) else inl in
  do* scan_released released else inl in
  record_released now released.

Definition releaseExpiredReservations : MOf Market (option StmtError) :=
  do* begin_tx else Some in
  now ← server_time;
  let* _ := releaseExpiredReservationsInTx now else Some in
  commit_tx.

(** ** Reservations *)

Definition series_unpublished (task : string) (m : Market) : bool :=
  match task_row task m with
  | Some (_, columns) =>
      match tc_series_id columns with
      | Some series =>
          match task_series m !! series with
          | Some row => negb (String.eqb (series_state row) "published")
          | None => false
          end
      | None => false
      end
  | None => false
  end.

(** The check reads the pool, not the caller's transaction. *)
Definition taskSeriesBlocksExecution (taskID : TaskID) : MOf Market (option DomainError) :=
  let* blocked := pool_query (fun m => inr (series_unpublished (TypedID_String taskID) m))
  else fun _ => Some (invalid_state "check task series state failed") in
  mret (if blocked : bool then Some (invalid_state "the task's series is not published") else None).

Definition reservationInitialState (policy : string) : DomainError + Task.ReservationState :=
  switch policy
    [ ("reservation_required", inr Task.ReservationStateActive);
      ("open", inl (conflict "task does not require reservation")) ]
    (inl (invalid_state "task participation policy is invalid")).

Definition same_assignee (columns : OwnerSQL) (kind : string) (user team organization : option string) : bool :=
  String.eqb kind (sql_kind columns) && String.eqb (default "" user) (default "" (sql_userID columns)) &&
  String.eqb (default "" team) (default "" (sql_teamID columns)) &&
  String.eqb (default "" organization) (default "" (sql_organizationID columns)).

(** A row of [task_implementor_bans] names a user. *)
Definition is_banned (task : string) (assignee : OwnerSQL) (m : Market) : bool :=
  existsb (fun '((t, kind, _), ban) => String.eqb t task && same_assignee assignee kind (Some (ban_user_id ban)) None None)
    (map_to_list (task_implementor_bans (tables m))).

Definition holds_active (task : string) (assignee : OwnerSQL) (m : Market) : bool :=
  existsb (fun '(id, row) => String.eqb (res_task_id row) task && String.eqb (res_state row) "active" &&
      let columns := reservation_columns m !! id in
      same_assignee assignee (res_assignee_kind row) (res_user_id row) (c ← columns; rc_team_id c) (c ← columns; rc_organization_id c))
    (map_to_list (task_reservations (tables m))).

(** *** [work_budget_store.go] *)

Definition workDayKeyAgentTasks : string := "agent_tasks:".

Definition dailyTaskBudgetMessage (usedBefore limit : Z) : string :=
  "daily task budget exhausted (" +:+ FormatInt usedBefore +:+ " of " +:+ FormatInt limit +:+ " used today, resets at 00:00 UTC)".

Definition concurrentReservationMessage (active limit : Z) : string :=
  "concurrent reservation budget exhausted (" +:+ FormatInt active +:+ " of " +:+ FormatInt limit +:+ " reservations active)".

(** The active reservations attributed to a credential. *)
Definition active_via (credential : string) (m : Market) : Z :=
  Z.of_nat (size (filter (fun kv => res_state kv.2 = "active" /\
    (c ← reservation_columns m !! kv.1; rc_via_credential c) = Some credential) (task_reservations (tables m)))).

(** One unit of the daily budget of a credential. *)
Definition charge_daily_task (now : Z) (credential : string) (limit : Z) : MOf Market (option DomainError) :=
  day ← current_day;
  result ← on_tables now (chargeWorkDayCounter (workDayKeyAgentTasks +:+ credential) day 1 limit);
  mret match result with
       | dayCounterCharged => None
       | dayCounterExhausted usedBefore => Some (budgetExceededError (dailyTaskBudgetMessage usedBefore limit))
       | dayCounterChargeFailed => Some (invalid_state "consume daily task budget failed")
       end.

Definition consumeReservationBudget (now : Z) (credentialID : AgentCredentialID) (limit : Z) (concurrent : Work.ReservationConcurrencyCap) :
    MOf Market (option DomainError) :=
  let credential := TypedID_String credentialID in
  let* _ := query_row (fun m => if bool_decide (credential ∈ agent_credentials (tables m)) then inr tt else inl ErrNoRows)
  else fun _ => Some (invalid_state "lock agent credential for reservation budget failed") in
  do* match concurrent with
      | Work.NoReservationConcurrencyCap => mret None
      | Work.ReservationConcurrencyCapAtMost cap =>
          let* active := query_row (fun m => inr (active_via credential m))
          else fun _ => Some (invalid_state "count credential reservations failed") in
          mret (if cap <=? active then Some (budgetExceededError (concurrentReservationMessage active cap)) else None)
      end else Some in
  charge_daily_task now credential limit.

Definition findReservation (reservationID : TaskReservationID) : MOf Market (DomainError + Task.Reservation) :=
  let* values := read_rows (invalid_state "find reservation failed") (invalid_state "scan reservation failed")
    (invalid_state "read reservations failed") parseReservationRow
    (fun m => match reservation_sql_row m (TypedID_String reservationID) with Some row => [row] | None => [] end)
  else inl in
  mret match values with
       | [value] => inr value
       | _ => inl (not_found "reservation was not found")
       end.

(** What gates the insert inside the transaction, after the task row is locked. *)
Definition reservation_gates (taskID : TaskID) (assignee : OwnerSQL) : MOf Market (option DomainError) :=
  let* banned := query_row (fun m => inr (is_banned (TypedID_String taskID) assignee m))
  else fun _ => Some (invalid_state "check task implementor ban failed") in
  if banned : bool then mret (Some (permission_denied "implementor is banned from the task")) else
  let* existing := query_row (fun m => inr (holds_active (TypedID_String taskID) assignee m))
  else fun _ => Some (invalid_state "check existing reservation failed") in
  mret (if existing : bool then Some (conflict "assignee already has an active reservation") else None).

(** [consumeReservationBudget] for a budgeted origin; a refusal is counted outside the transaction. *)
Definition consume_origin (now : Z) (origin : Work.ReservationOrigin) : MOf Market (option DomainError) :=
  match origin with
  | Work.ReservedByUserSession => mret None
  | Work.ReservedViaWorkCredential credentialID limit concurrent =>
      problem ← consumeReservationBudget now credentialID limit concurrent;
      match problem with
      | None => mret None
      | Some reason => _ ← on_tables now recordBudgetRefusal; mret (Some reason)
      end
  end.

Definition via_credential (origin : Work.ReservationOrigin) : option string :=
  match origin with
  | Work.ReservedByUserSession => None
  | Work.ReservedViaWorkCredential credentialID _ _ => Some (TypedID_String credentialID)
  end.

(** [make_interval(hours => $9)] *)
Definition hours (n : Z) : Z := n * 3600 * 10 ^ 9.

Definition CreateReservation (reservationID : TaskReservationID) (command : ReservationCommand) : MOf Market CreateReservationStoreResult :=
  let rejected description := fun _ : StmtError => CreateReservationStoreRejected (invalid_state description) in
  do* releaseExpiredReservations else rejected "release expired reservations failed" in
  do* begin_tx else rejected "begin create reservation transaction failed" in
  now ← server_time;
  let* '(policy, state, ttlHours) :=
    query_row (fun m => '(row, columns) ← required ErrNoRows (task_row (TypedID_String (reserve_TaskID command)) m);
                        inr (tc_participation_policy columns, task_state row, tc_reservation_hours columns))
  else fun _ => CreateReservationStoreRejected (not_found "task was not found") in
  if negb (String.eqb state (Task.State_String Task.StateOpen))
  then mret (CreateReservationStoreRejected (conflict "only open tasks can be reserved")) else
  do* taskSeriesBlocksExecution (reserve_TaskID command) else CreateReservationStoreRejected in
  match reservationInitialState policy with
  | inl reason => mret (CreateReservationStoreRejected reason)
  | inr reservationState =>
  let assignee := assigneeSQLColumns (reserve_Assignee command) in
  do* reservation_gates (reserve_TaskID command) assignee else CreateReservationStoreRejected in
  do* consume_origin now (reserve_Origin command) else CreateReservationStoreRejected in
  do* exec (insert_reservation (TypedID_String reservationID)
        (MkReservationRow (TypedID_String (reserve_TaskID command)) (sql_kind assignee) (sql_userID assignee)
           (TypedID_String (reserve_RequestedBy command)) (Task.ReservationState_String reservationState))
        (MkReservationColumns (sql_teamID assignee) (sql_organizationID assignee) (now + hours ttlHours) now
           (via_credential (reserve_Origin command))))
  else fun _ => CreateReservationStoreRejected (conflict "task already has an active reservation") in
  do* on_tables now (recordEventDraftInTx (reserve_Draft command)) else rejected "record reservation event failed" in
  do* commit_tx else rejected "commit create reservation transaction failed" in
  let* value := findReservation reservationID else CreateReservationStoreRejected in
  mret (CreateReservationStoreAccepted value)
  end.

(** The plan's draft of a reservation, with the holder among its recipients. *)
Definition record_reservation_plan (now : Z) (plan : Plan) (reservation : string) : MOf Market (DomainError + list Draft) :=
  match plan with
  | NoEvent => mret (inr [])
  | RecordDraft draft =>
      let* rawHolder := query_row (fun m => required ErrNoRows (res_requested_by_user_id <$> task_reservations (tables m) !! reservation))
      else fun _ => inl (invalid_state "read reservation holder failed") in
      match parseReviewWorker rawHolder with
      | inl reason => mret (inl reason)
      | inr holder =>
          let draft := WithRecipients draft [holder] in
          do* on_tables now (recordEventDraftInTx draft) else fun _ => inl (invalid_state "record reservation event failed") in
          mret (inr [draft])
      end
  end.

Definition ChangeReservationState (taskID : TaskID) (reservationID : TaskReservationID) (state : Task.ReservationState) (plan : Plan) :
    MOf Market ChangeReservationStateStoreResult :=
  let rejected description := fun _ : StmtError => ChangeReservationStateStoreRejected (invalid_state description) in
  do* releaseExpiredReservations else rejected "release expired reservations failed" in
  do* begin_tx else rejected "begin change reservation state transaction failed" in
  now ← server_time;
  let* rows := stmt (update_active_reservation (TypedID_String reservationID) (TypedID_String taskID) (Task.ReservationState_String state))
  else fun _ => ChangeReservationStateStoreRejected (conflict "reservation state was not changed") in
  if negb (rows =? 1) then mret (ChangeReservationStateStoreRejected (conflict "reservation is not active")) else
  let* recorded := record_reservation_plan now plan (TypedID_String reservationID) else ChangeReservationStateStoreRejected in
  do* commit_tx else rejected "commit change reservation state transaction failed" in
  let* value := findReservation reservationID else ChangeReservationStateStoreRejected in
  mret (ChangeReservationStateStoreAccepted value recorded).

(** [order by task_reservations.created_at desc, task_reservations.id desc] *)
Definition newest_reservation (m : Market) (a b : string) : Prop :=
  let created id := match reservation_columns m !! id with Some c => rc_created_at c | None => 0 end in
  created b < created a \/ (created a = created b /\ String.leb b a = true).

#[export] Instance newest_reservation_dec m a b : Decision (newest_reservation m a b).
Proof. unfold newest_reservation. apply _. Defined.

Definition reservations_of (task : string) (m : Market) : list string :=
  (filter (fun kv => res_task_id kv.2 = task) (map_to_list (task_reservations (tables m)))).*1.

Definition ListReservations (taskID : TaskID) (page : Pagination.Page) : MOf Market ListReservationsStoreResult :=
  do* releaseExpiredReservations else fun _ => ListReservationsStoreRejected (invalid_state "release expired reservations failed") in
  let* values := read_rows (invalid_state "list reservations failed") (invalid_state "scan reservation failed")
    (invalid_state "read reservations failed") parseReservationRow
    (fun m => Pagination.sql_page page (omap (reservation_sql_row m)
                (merge_sort (newest_reservation m) (reservations_of (TypedID_String taskID) m))))
  else ListReservationsStoreRejected in
  mret (ListReservationsStoreAccepted values).

(** ** Who may submit *)

(** The reservations whose assignee the user is, or belongs to. *)
Definition reserved_for (task user : string) (m : Market) : bool :=
  existsb (fun '(id, row) => String.eqb (res_task_id row) task && String.eqb (res_state row) "active" &&
      let member := match c ← reservation_columns m !! id; rc_team_id c with
                    | Some team => bool_decide ((team, user) ∈ team_members m)
                    | None => false
                    end in
      switch (res_assignee_kind row)
        [ ("user", bool_decide (res_user_id row = Some user)); ("organization_team", member); ("team", member) ] false)
    (map_to_list (task_reservations (tables m))).

Definition user_banned (task user : string) (m : Market) : bool :=
  existsb (fun '((t, kind, _), ban) => String.eqb t task && String.eqb kind "user" && String.eqb (ban_user_id ban) user)
    (map_to_list (task_implementor_bans (tables m))).

Definition CheckSubmissionEligibility (taskID : TaskID) (submitterID : UserID) : MOf Market SubmissionEligibilityStoreResult :=
  let task := TypedID_String taskID in
  let user := TypedID_String submitterID in
  let denied description := SubmissionEligibilityRejected (permission_denied description) in
  do* releaseExpiredReservations else fun _ => SubmissionEligibilityRejected (invalid_state "release expired reservations failed") in
  let* policy := pool_query (fun m => required ErrNoRows (tc_participation_policy ∘ snd <$> task_row task m))
  else fun _ => SubmissionEligibilityRejected (not_found "task was not found") in
  do* taskSeriesBlocksExecution taskID else SubmissionEligibilityRejected in
  let* banned := pool_query (fun m => inr (user_banned task user m))
  else fun _ => SubmissionEligibilityRejected (invalid_state "check task implementor ban failed") in
  if banned : bool then mret (denied "implementor is banned from the task") else
  if String.eqb policy (Task.ParticipationPolicy_String Task.ParticipationPolicyOpen) then mret SubmissionEligible else
  let* active := pool_query (fun m => inr (reserved_for task user m))
  else fun _ => SubmissionEligibilityRejected (invalid_state "check active reservation failed") in
  mret (if active : bool then SubmissionEligible else denied "task requires an active reservation for the submitter").

End Store.
End Tasks.

(** * The lifecycle sweeps of tasks

    Models [internal/db/task_lifecycle_sweeps.go]: expiring due tasks, one
    transaction per task, and releasing lapsed reservations. *)
Local Open Scope string_scope.
Local Open Scope Z_scope.

Module Sweeps.

Inductive ExpireDueTasksResult := ExpireDueTasksCompleted (RecordedEvents : list Draft) | ExpireDueTasksRejected (Reason : DomainError).
Inductive expireOneTaskResult := expireOneTaskExpired (draft : Draft) | expireOneTaskSkipped | expireOneTaskRejected (reason : DomainError).
Inductive ExpireDueReservationsResult :=
| ExpireDueReservationsCompleted (RecordedEvents : list Draft)
| ExpireDueReservationsRejected (Reason : DomainError).

Section Sweeps.
Context `{UUIDLib, URLLib, World}.

(** ** Due tasks *)

(** [expires_at] of a task, when its row has one. *)
Definition task_expires_at (task : string) (m : Market) : option Z :=
  columns ← task_columns m !! task; tc_expires_at columns.

(** [state = 'open' and expires_at is not null and expires_at <= now()] *)
Definition is_due_task (now : Z) (m : Market) (kv : string * TaskRow) : Prop :=
  task_state kv.2 = "open" /\ due_at (task_expires_at kv.1 m) now = true.

#[export] Instance is_due_task_dec now m kv : Decision (is_due_task now m kv).
Proof. unfold is_due_task. apply _. Defined.

(** [order by expires_at asc] *)
Definition earliest_first (m : Market) (a b : string) : Prop :=
  default 0 (task_expires_at a m) <= default 0 (task_expires_at b m).

#[export] Instance earliest_first_dec m a b : Decision (earliest_first m a b).
Proof. unfold earliest_first. apply _. Defined.

Definition due_tasks (now : Z) (m : Market) : list string :=
  merge_sort (earliest_first m) (filter (is_due_task now m) (map_to_list (tasks (tables m)))).*1.

Definition refundExpiredTaskFunding (now : Z) (taskID : TaskID) : MOf Market (option DomainError) :=
  do* Tasks.refundTaskCreditFunding now taskID (Some ("expire:" +:+ TypedID_String taskID)) else Some in
  on_tables now (refundHeldCollectibleReward taskID).

(** The select under the row lock: the state and the creator of a task that is due. *)
Definition lock_due (task : string) (now : Z) (m : Market) : StmtError + (string * string) :=
  '(row, columns) ← required ErrNoRows (task_row task m);
  if due_at (tc_expires_at columns) now then inr (task_state row, task_created_by_user_id row) else inl ErrNoRows.

(** The event of an expired task, for its owner and the holders it releases. *)
Definition record_expired (now : Z) (taskID : TaskID) (owner : UserID) (holders : list UserID) : MOf Market (DomainError + Draft) :=
  id ← NewDomainEventID;
  match NewDraft id KindTaskExpired ActorSystem (set_Task (TaskSubject taskID) NoSubjectRefs)
          (TaskMetadata taskID) (NewRecipients (owner :: holders)) with
  | DraftRejected reason => mret (inl reason)
  | DraftCreated draft =>
      do* on_tables now (recordEventDraftInTx draft) else fun _ => inl (invalid_state "record task expired event failed") in
      mret (inr draft)
  end.

(** From the lock to the commit, once the task is known to be open. *)
Definition expire_locked (now : Z) (taskID : TaskID) (owner : UserID) : MOf Market expireOneTaskResult :=
  let task := TypedID_String taskID in
  let* holders := on_tables now (lockedReservationHolders task) else expireOneTaskRejected in
  do* refundExpiredTaskFunding now taskID else expireOneTaskRejected in
  do* on_tables now (releaseReservationsOnCancel taskID) else expireOneTaskRejected in
  let* rows := stmt (update_task_state_from task (Task.State_String Task.StateExpired) (Task.State_String Task.StateOpen))
  else fun _ => expireOneTaskRejected (invalid_state "expire task failed") in
  if negb (rows =? 1) then mret expireOneTaskSkipped else
  let* draft := record_expired now taskID owner holders else expireOneTaskRejected in
  do* commit_tx else fun _ => expireOneTaskRejected (invalid_state "commit expire task transaction failed") in
  mret (expireOneTaskExpired draft).

Definition expireOneTask (rawTaskID : string) : MOf Market expireOneTaskResult :=
  match ParseTaskID rawTaskID with
  | TypedIDRejected reason => mret (expireOneTaskRejected reason)
  | TypedIDCreated taskID =>
  do* begin_tx else fun _ => expireOneTaskRejected (invalid_state "begin expire task transaction failed") in
  now ← server_time;
  scan ← query_row (lock_due rawTaskID now);
  match scan with
  | inl ErrNoRows => mret expireOneTaskSkipped
  | inl _ => mret (expireOneTaskRejected (invalid_state "lock expiring task failed"))
  | inr (state, rawOwnerID) =>
  if negb (String.eqb state (Task.State_String Task.StateOpen)) then mret expireOneTaskSkipped else
  match ParseUserID rawOwnerID with
  | TypedIDRejected reason => mret (expireOneTaskRejected reason)
  | TypedIDCreated owner => expire_locked now taskID owner
  end end end.

Fixpoint expire_all (rawIDs : list string) (recorded : list Draft) : MOf Market ExpireDueTasksResult :=
  match rawIDs with
  | [] => mret (ExpireDueTasksCompleted recorded)
  | rawID :: rawIDs =>
      result ← expireOneTask rawID;
      match result with
      | expireOneTaskExpired draft => expire_all rawIDs (recorded ++ [draft])
      | expireOneTaskSkipped => expire_all rawIDs recorded
      | expireOneTaskRejected reason => mret (ExpireDueTasksRejected reason)
      end
  end.

Definition ExpireDueTasks : MOf Market ExpireDueTasksResult :=
  now ← server_time;
  let* rawIDs := read_rows (invalid_state "list due tasks failed") (invalid_state "scan due task failed")
    (invalid_state "read due tasks failed") inr (due_tasks now)
  else ExpireDueTasksRejected in
  expire_all rawIDs [].

(** ** Lapsed reservations *)

Definition ExpireDueReservations : MOf Market ExpireDueReservationsResult :=
  let rejected description := fun _ : StmtError => ExpireDueReservationsRejected (invalid_state description) in
  do* begin_tx else rejected "begin release due reservations failed" in
  now ← server_time;
  let* drafts := Tasks.releaseExpiredReservationsInTx now else rejected "release due reservations failed" in
  do* commit_tx else rejected "commit release due reservations failed" in
  mret (ExpireDueReservationsCompleted drafts).

End Sweeps.
End Sweeps.
