(* ===== verification/CollectibleStore.v ===== *)
(** * The collectible store: custody

    Models the operations of [internal/db/collectible_store.go] that put a
    collectible in a task's reward, take it back, give it to another owner, withdraw
    it or delete it.  They read and write the tables of the ledger; the donation to
    an organization also reads [organizations].  The catalog is in [CatalogStore.v]. *)

From S2P Require Import Prelude.
From S2P Require Import Core.
From S2P Require Import OrgRoles.
From S2P Require Import Auth.
From S2P Require Import Assets.
From S2P Require Import Events.
From S2P Require Import LedgerValues.
From S2P Require Import Database.
From S2P Require Import Tx.
From S2P Require Import Outbox.
From S2P Require Import LedgerHelpers.
From S2P Require Import LedgerStore.
From S2P Require Import TaskDB.
From S2P Require Import TaskStore.

(** * The collectible catalog: values, commands and results

    Models [internal/assets/catalog.go], [internal/assets/store_results.go] and the
    command and result types of [internal/assets/service.go]: the entries a platform
    administrator awards collectibles from, and what the collectible store is asked
    and answers. *)
Local Open Scope string_scope.
Local Open Scope Z_scope.

Module Catalog.

(** ** Art *)

Definition SpriteSlugs : list string := [
  "harvest-star"; "golden-sickle"; "seedling"; "sun-token"; "rain-drop";
  "wheat-sheaf"; "red-barn"; "scarecrow"; "honey-pot"; "pumpkin";
  "apple"; "carrot"; "beehive"; "windmill"; "tractor";
  "silver-plow"; "golden-egg"; "prize-cow"; "lucky-clover"; "full-moon-harvest";
  "cornucopia"; "first-harvest-trophy"; "founders-seed"; "rainbow-field"; "golden-combine" ].

Definition KnownSpriteSlug (slug : string) : bool := existsb (fun known => String.eqb known slug) SpriteSlugs.

(** ** Entries *)

Inductive CatalogEntryState := CatalogEntryStateAvailable | CatalogEntryStateWithdrawn.

#[global] Instance CatalogEntryState_eq_dec : EqDecision CatalogEntryState.
Proof. solve_decision. Defined.

Definition CatalogEntryState_String (state : CatalogEntryState) : string :=
  match state with CatalogEntryStateAvailable => "available" | CatalogEntryStateWithdrawn => "withdrawn" end.

Inductive CatalogEntryStateResult :=
| CatalogEntryStateAccepted (Value : CatalogEntryState)
| CatalogEntryStateRejected (Reason : DomainError).

Definition ParseCatalogEntryState (raw : string) : CatalogEntryStateResult :=
  let case s := (CatalogEntryState_String s, CatalogEntryStateAccepted s) in
  switch raw [ case CatalogEntryStateAvailable; case CatalogEntryStateWithdrawn ]
    (CatalogEntryStateRejected (NewDomainError ErrorCodeInvalidEnum "catalog entry state is invalid")).

Inductive EditionCap := NoEditionCap | EditionCapOf (Limit : Z).

Record CatalogEntry := MkCatalogEntry {
  Entry_Slug : CatalogSlug;
  Entry_Name : CollectibleName;
  Entry_Kind : CollectibleKind;
  Entry_Policy : TransferPolicy;
  Entry_Art : string;
  Entry_State : CatalogEntryState;
  Entry_Cap : EditionCap
}.

Record CatalogListing := MkCatalogListing {
  Listing_Entry : CatalogEntry;
  LiveInstanceCount : Z;
  LiveOwnerCount : Z;
  OwnerDisplayName : option DisplayName
}.

Inductive CatalogListResult := CatalogListed (Values : list CatalogListing) | CatalogListRejected (Reason : DomainError).
Inductive CatalogMutationResult := CatalogMutated (Value : CatalogEntry) | CatalogMutationRejected (Reason : DomainError).

(** ** Store commands *)

Record AwardFromCatalogStoreCommand := MkAwardFromCatalog {
  award_NewID : CollectibleID;
  award_Slug : CatalogSlug;
  award_OwnerKind : string;
  award_OwnerID : string;
  award_OrganizationID : string;
  award_Issuer : UserID
}.

Record WithdrawCollectibleStoreCommand := MkWithdrawCollectible { withdraw_CollectibleID : CollectibleID; withdraw_Draft : Draft }.
Record ReleaseCollectibleStoreCommand := MkReleaseCollectible { release_CollectibleID : CollectibleID; release_Draft : Draft }.

Record TransferToOrganizationStoreCommand := MkTransferToOrganization {
  donate_FromUserID : UserID;
  donate_OrganizationID : OrganizationID;
  donate_CollectibleID : CollectibleID;
  donate_Draft : Draft
}.

Record TransferFromOrganizationStoreCommand := MkTransferFromOrganization {
  handout_OrganizationID : OrganizationID;
  handout_ActingUserID : UserID;
  handout_ToUserID : UserID;
  handout_CollectibleID : CollectibleID;
  handout_Draft : Draft
}.

Record AwardOrganizationCollectibleStoreCommand := MkAwardOrganizationCollectible {
  orgaward_OrganizationID : OrganizationID;
  orgaward_CollectibleID : CollectibleID;
  orgaward_RecipientUserID : UserID;
  orgaward_Draft : Draft
}.

Record GiftStoreCommand := MkGift {
  gift_FromUserID : UserID;
  gift_ToUserID : UserID;
  gift_CollectibleID : CollectibleID;
  gift_Draft : Draft
}.

Record FundRewardStoreCommand := MkFundReward {
  reward_FunderUserID : UserID;
  reward_TaskID : TaskID;
  reward_CollectibleID : CollectibleID
}.

Record RefundRewardStoreCommand := MkRefundReward { unreward_RequesterUserID : UserID; unreward_TaskID : TaskID }.

(** ** Store results *)

Inductive CreateStoreResult := CreateStoreAccepted (Value : Collectible) | CreateStoreRejected (Reason : DomainError).

(** A listed collectible: the value with the two display names a list read resolves. *)
Record ListedCollectible := MkListedCollectible {
  Listed_Value : Collectible;
  Listed_IssuerDisplayName : option DisplayName;
  Listed_OwnerDisplayName : option DisplayName
}.

Inductive ListStoreResult := ListStoreListed (Values : list ListedCollectible) | ListStoreRejected (Reason : DomainError).
Inductive TaskHeldCollectiblesResult := TaskHeldCollectiblesFound (IDs : list CollectibleID) | TaskHeldCollectiblesRejected (Reason : DomainError).
Inductive FundRewardResult := RewardFunded (Value : Collectible) | FundRewardRejected (Reason : DomainError).
Inductive RefundRewardResult := RewardRefunded (Values : list Collectible) | RefundRewardRejected (Reason : DomainError).
Inductive GiftResult := CollectibleGifted (Value : Collectible) (RecordedEvents : list Draft) | GiftRejected (Reason : DomainError).
Inductive WithdrawResult := CollectibleWithdrawn (Value : Collectible) (RecordedEvents : list Draft) | WithdrawRejected (Reason : DomainError).
Inductive ReleaseResult := CollectibleReleased (Value : Collectible) (RecordedEvents : list Draft) | ReleaseRejected (Reason : DomainError).
Inductive DeleteCollectibleResult := CollectibleDeleted | DeleteCollectibleRejected (Reason : DomainError).
Inductive MintResult := CollectibleMinted (Value : Collectible) | MintRejected (Reason : DomainError).

(** ** Copies of a collectible with one field changed *)

Definition set_State (state : CollectibleState) (c : Collectible) : Collectible :=
  MkCollectible (Collectible_ID c) (Collectible_Name c) (Collectible_Kind c) state (Collectible_Policy c)
    (Collectible_OwnerKind c) (Collectible_OwnerID c) (Collectible_OrganizationID c) (Collectible_Art c)
    (Collectible_Catalog c) (Collectible_Edition c) (Collectible_Issuer c).

Definition set_Owner (kind owner : string) (c : Collectible) : Collectible :=
  MkCollectible (Collectible_ID c) (Collectible_Name c) (Collectible_Kind c) (Collectible_State c) (Collectible_Policy c)
    kind owner (Collectible_OrganizationID c) (Collectible_Art c)
    (Collectible_Catalog c) (Collectible_Edition c) (Collectible_Issuer c).

Definition set_OrganizationID (organization : string) (c : Collectible) : Collectible :=
  MkCollectible (Collectible_ID c) (Collectible_Name c) (Collectible_Kind c) (Collectible_State c) (Collectible_Policy c)
    (Collectible_OwnerKind c) (Collectible_OwnerID c) organization (Collectible_Art c)
    (Collectible_Catalog c) (Collectible_Edition c) (Collectible_Issuer c).

Definition set_Edition (edition : EditionRef) (c : Collectible) : Collectible :=
  MkCollectible (Collectible_ID c) (Collectible_Name c) (Collectible_Kind c) (Collectible_State c) (Collectible_Policy c)
    (Collectible_OwnerKind c) (Collectible_OwnerID c) (Collectible_OrganizationID c) (Collectible_Art c)
    (Collectible_Catalog c) edition (Collectible_Issuer c).

(** ** [validateCatalogCap] *)

(** [None] is the nil of the source: the kind and the cap agree. *)
Definition validateCatalogCap (entry : CatalogEntry) : option DomainError :=
  match Entry_Kind entry with
  | CollectibleKindUnique =>
      if match Entry_Cap entry with EditionCapOf limit => negb (limit =? 1) | NoEditionCap => true end
      then Some (invalid_argument "unique catalog entries are capped at exactly one instance") else None
  | CollectibleKindEdition =>
      if match Entry_Cap entry with EditionCapOf limit => limit <? 1 | NoEditionCap => true end
      then Some (invalid_argument "edition catalog entries need a positive edition cap") else None
  | CollectibleKindBadge =>
      match Entry_Cap entry with
      | NoEditionCap => None
      | EditionCapOf _ => Some (invalid_argument "badge catalog entries are uncapped")
      end
  end.

(** ** Lemmas *)

Lemma ParseCatalogEntryState_String s : ParseCatalogEntryState (CatalogEntryState_String s) = CatalogEntryStateAccepted s.
Proof. by destruct s. Qed.

Lemma ParseCatalogEntryState_inv raw s : ParseCatalogEntryState raw = CatalogEntryStateAccepted s -> raw = CatalogEntryState_String s.
Proof.
  unfold ParseCatalogEntryState. rewrite !switch_cons. repeat (case_match; [by intros [= <-]; apply String.eqb_eq|]). done.
Qed.

End Catalog.

Local Open Scope string_scope.
Local Open Scope Z_scope.

Module Collectibles.
Export Catalog.

(** ** Constrained writes *)

(** [update tasks set reward_kind = $1 where id = $2]: [tasks_reward_check] again. *)
Definition update_task_reward_kind (kind task : string) (db : DB) : StmtError + DB :=
  match tasks db !! task with
  | None => inr db
  | Some row =>
      if negb (tasks_reward_check kind (task_reward_credit_amount row)) then inl ErrOther
      else inr (with_tasks (<[task := MkTaskRow (task_state row) (task_created_by_user_id row)
             (task_organization_id row) kind (task_reward_credit_amount row)]> (tasks db)) db)
  end.

(** [owner_user_id = $2, owner_kind = 'user', organization_id = null] *)
Definition set_col_left (owner : string) (row : CollectibleRow) : CollectibleRow :=
  MkCollectibleRow (col_name row) (col_kind row) (col_state row) (col_transfer_policy row) owner
    "user" None (col_art row) (col_catalog_slug row) (col_edition_number row) (col_issued_by_user_id row).

(** [owner_user_id = $2, owner_kind = 'organization', organization_id = $2] *)
Definition set_col_donated (organization : string) (row : CollectibleRow) : CollectibleRow :=
  MkCollectibleRow (col_name row) (col_kind row) (col_state row) (col_transfer_policy row) organization
    "organization" (Some organization) (col_art row) (col_catalog_slug row) (col_edition_number row) (col_issued_by_user_id row).

(** The update of a donation: [organization_id] references [organizations]. *)
Definition donate_row (organization collectible : string) (m : Market) : StmtError + Market :=
  match collectibles (tables m) !! collectible with
  | None => inr m
  | Some _ =>
      if negb (references_organization (Some organization) m) then inl ErrOther
      else db ← update_collectible (set_col_donated organization) collectible (tables m); inr (with_tables db m)
  end.

(** [delete from collectibles where id = $1 and state = 'withdrawn'], with the
    number of rows: [task_fund_collectibles] references the table. *)
Definition delete_withdrawn (collectible : string) (db : DB) : StmtError + (Z * DB) :=
  match collectibles db !! collectible with
  | Some row =>
      if String.eqb (col_state row) "withdrawn" then
        if bool_decide (is_Some (task_fund_collectibles db !! collectible)) then inl ErrOther
        else inr (1, with_collectibles (delete collectible (collectibles db)) db)
      else inr (0, db)
  | None => inr (0, db)
  end.

Section Custody.
Context `{UUIDLib}.

(** [recordEventDraftInTx], then [Commit]. *)
Definition record_and_commit {R} (draft : Draft) (record_failed commit_failed : string) (rejected : DomainError -> R) (result : R) : M R :=
  do* recordEventDraftInTx draft else fun _ => rejected (invalid_state record_failed) in
  do* commit_tx else fun _ => rejected (invalid_state commit_failed) in
  mret result.

Definition of_parsed (result : collectibleParseResult) : DomainError + Collectible :=
  match result with collectibleParsed value => inr value | collectibleParseRejected reason => inl reason end.

Definition locked_collectible (collectibleID : CollectibleID) : M (DomainError + Collectible) :=
  result ← lockCollectible collectibleID; mret (of_parsed result).

Definition owned_by (kind owner : string) (c : Collectible) : bool :=
  String.eqb (Collectible_OwnerKind c) kind && String.eqb (Collectible_OwnerID c) owner.

Definition of_organization (organization : string) (c : Collectible) : bool :=
  String.eqb (Collectible_OwnerKind c) CollectibleOwnerKindOrganization && String.eqb (Collectible_OrganizationID c) organization.

Definition in_state (state : CollectibleState) (c : Collectible) : bool := bool_decide (Collectible_State c = state).

(** ** Task rewards *)

Definition FundCollectibleReward (command : FundRewardStoreCommand) : M FundRewardResult :=
  let failed description := fun _ : StmtError => FundRewardRejected (invalid_state description) in
  let task := TypedID_String (reward_TaskID command) in
  do* begin_tx else failed "begin fund collectible reward transaction failed" in
  let* collectible := Tasks.requireEscrowableCollectible (reward_CollectibleID command) (reward_FunderUserID command)
  else FundRewardRejected in
  taskResult ← lockTaskOwnedBy (reward_TaskID command) (reward_FunderUserID command) "fund";
  match taskResult with
  | taskLockRejected reason => mret (FundRewardRejected reason)
  | taskLocked taskRow =>
  if negb (String.eqb (locked_state taskRow) "draft") then mret (FundRewardRejected (invalid_state "only draft tasks can be funded"))
  else
  let rewardKindUpdate := switch (locked_rewardKind taskRow) [ ("none", "collectible"); ("credit", "bundle") ] "" in
  do* (if String.eqb rewardKindUpdate "" then mret None else exec (update_task_reward_kind rewardKindUpdate task))
  else failed "update task reward kind failed" in
  do* Tasks.holdCollectibleForTask (reward_TaskID command) (reward_CollectibleID command) else FundRewardRejected in
  do* commit_tx else failed "commit fund collectible reward transaction failed" in
  mret (RewardFunded (set_State CollectibleStateEscrowed collectible))
  end.

Definition findCollectible (rawCollectibleID : string) : M collectibleParseResult :=
  rows ← query_rows (fun db => option_list (collectibles db !! rawCollectibleID));
  match rows with
  | inl _ => mret (collectibleParseRejected (invalid_state "read collectible failed"))
  | inr [] => mret (collectibleParseRejected (invalid_argument "collectible was not found"))
  | inr (row :: _) =>
      failed ← fault_point;
      if failed : bool then mret (collectibleParseRejected (invalid_state "scan collectible failed"))
      else mret (parseCollectible rawCollectibleID row)
  end.

(** The loop minting the held collectibles again and reading each back. *)
Fixpoint return_held (rawCollectibleIDs : list string) : M (DomainError + list Collectible) :=
  match rawCollectibleIDs with
  | [] => mret (inr [])
  | raw :: raws =>
      do* exec (update_collectible (set_col_state "minted") raw) else fun _ => inl (invalid_state "return collectible failed") in
      collectibleResult ← findCollectible raw;
      match collectibleResult with
      | collectibleParseRejected reason => mret (inl reason)
      | collectibleParsed value =>
          let* values := return_held raws else inl in
          mret (inr (value :: values))
      end
  end.

Definition RefundCollectibleReward (command : RefundRewardStoreCommand) : M RefundRewardResult :=
  let failed description := fun _ : StmtError => RefundRewardRejected (invalid_state description) in
  let task := TypedID_String (unreward_TaskID command) in
  do* begin_tx else failed "begin refund collectible reward transaction failed" in
  do* lockTaskRefundable (unreward_TaskID command) (unreward_RequesterUserID command) else RefundRewardRejected in
  let* rewardKind := query_row (fun db => required ErrNoRows (task_reward_kind <$> tasks db !! task))
  else failed "read task reward kind failed" in
  if String.eqb rewardKind "bundle" then mret (RefundRewardRejected (conflict "bundled rewards must be refunded together"))
  else
  let* heldIDs := heldFundCollectibleIDs (unreward_TaskID command) else RefundRewardRejected in
  match heldIDs with
  | [] => mret (RefundRewardRejected (invalid_state "task has no collectible reward to refund"))
  | _ :: _ =>
  let* refunded := return_held heldIDs else RefundRewardRejected in
  do* exec (delete_fund_collectibles task) else failed "clear collectible reward failed" in
  do* exec (update_task_state task "cancelled") else failed "cancel task failed" in
  do* releaseReservationsOnCancel (unreward_TaskID command) else RefundRewardRejected in
  do* commit_tx else failed "commit refund collectible reward transaction failed" in
  mret (RewardRefunded refunded)
  end.

(** ** Gifts, awards and transfers *)

Definition GiftCollectible (command : GiftStoreCommand) : M GiftResult :=
  let not_available := invalid_argument "collectible is not available to tip" in
  let to := TypedID_String (gift_ToUserID command) in
  do* begin_tx else fun _ => GiftRejected (invalid_state "begin gift collectible transaction failed") in
  let* collectible := locked_collectible (gift_CollectibleID command) else fun _ => GiftRejected not_available in
  if owned_by CollectibleOwnerKindUser to collectible then mret (CollectibleGifted collectible [])
  else if negb (owned_by CollectibleOwnerKindUser (TypedID_String (gift_FromUserID command)) collectible) then
    mret (GiftRejected not_available)
  else if negb (in_state CollectibleStateMinted collectible) then
    mret (GiftRejected (invalid_state "collectible is not available to tip"))
  else
  match AllowsTip (Collectible_Policy collectible) with
  | RewardDenied reason => mret (GiftRejected reason)
  | RewardAllowed =>
  do* (if bool_decide (Collectible_Policy collectible = TransferPolicyTransferableWithinOrg)
       then requireSharedCollectibleOrganization collectible (gift_FromUserID command) (gift_ToUserID command)
       else mret None) else GiftRejected in
  do* exec (update_collectible (set_col_owner to) (TypedID_String (gift_CollectibleID command)))
  else fun _ => GiftRejected (invalid_state "transfer collectible failed") in
  record_and_commit (gift_Draft command) "record collectible gift event failed" "commit gift collectible failed" GiftRejected
    (CollectibleGifted (set_Owner CollectibleOwnerKindUser to collectible) [gift_Draft command])
  end.

Definition AwardOrganizationCollectible (command : AwardOrganizationCollectibleStoreCommand) : M GiftResult :=
  let organization := TypedID_String (orgaward_OrganizationID command) in
  let recipient := TypedID_String (orgaward_RecipientUserID command) in
  do* begin_tx else fun _ => GiftRejected (invalid_state "begin award organization collectible transaction failed") in
  let* collectible := locked_collectible (orgaward_CollectibleID command)
  else fun _ => GiftRejected (invalid_argument "collectible is not available to award") in
  if negb (of_organization organization collectible) then
    mret (GiftRejected (invalid_argument "collectible does not belong to this organization"))
  else if negb (in_state CollectibleStateMinted collectible) then
    mret (GiftRejected (invalid_state "collectible is not available to award"))
  else
  let* isActiveMember := query_row (fun db => inr (is_active_member organization recipient db))
  else fun _ => GiftRejected (invalid_state "check organization membership failed") in
  if negb isActiveMember then
    mret (GiftRejected (invalid_argument "recipient is not an active member of this organization"))
  else
  do* exec (update_collectible (set_col_left recipient) (TypedID_String (orgaward_CollectibleID command)))
  else fun _ => GiftRejected (invalid_state "transfer organization collectible failed") in
  record_and_commit (orgaward_Draft command) "record collectible award event failed" "commit award organization collectible failed" GiftRejected
    (CollectibleGifted (set_OrganizationID "" (set_Owner CollectibleOwnerKindUser recipient collectible)) [orgaward_Draft command]).

Definition TransferCollectibleFromOrganization (command : TransferFromOrganizationStoreCommand) : M GiftResult :=
  let organization := TypedID_String (handout_OrganizationID command) in
  let to := TypedID_String (handout_ToUserID command) in
  do* begin_tx else fun _ => GiftRejected (invalid_state "begin transfer collectible transaction failed") in
  check ← organizationMemberPermission organization (handout_ActingUserID command) PermissionManageCollectibles;
  match check with
  | PermissionDenied _ =>
      mret (GiftRejected (permission_denied "transferring organization collectibles requires the manage_collectibles permission"))
  | PermissionGranted =>
  let* collectible := locked_collectible (handout_CollectibleID command)
  else fun _ => GiftRejected (invalid_argument "collectible is not available to transfer") in
  if negb (of_organization organization collectible) then
    mret (GiftRejected (invalid_argument "collectible does not belong to this organization"))
  else if negb (in_state CollectibleStateMinted collectible) then
    mret (GiftRejected (invalid_state "collectible is not available to transfer"))
  else
  match AllowsTransfer (Collectible_Policy collectible) with
  | RewardDenied reason => mret (GiftRejected reason)
  | RewardAllowed =>
  do* exec (update_collectible (set_col_left to) (TypedID_String (handout_CollectibleID command)))
  else fun _ => GiftRejected (invalid_state "transfer collectible failed") in
  record_and_commit (handout_Draft command) "record collectible transfer event failed" "commit transfer collectible failed" GiftRejected
    (CollectibleGifted (set_OrganizationID "" (set_Owner CollectibleOwnerKindUser to collectible)) [handout_Draft command])
  end end.

(** The checks of a donation, all on the tables of the ledger. *)
Definition donation_checked (command : TransferToOrganizationStoreCommand) : M (DomainError + Collectible) :=
  let organization := TypedID_String (donate_OrganizationID command) in
  let not_available := invalid_argument "collectible is not available to transfer" in
  let* collectible := locked_collectible (donate_CollectibleID command) else fun _ => inl not_available in
  if negb (owned_by CollectibleOwnerKindUser (TypedID_String (donate_FromUserID command)) collectible) then mret (inl not_available)
  else if negb (in_state CollectibleStateMinted collectible) then
    mret (inl (invalid_state "collectible is not available to transfer"))
  else
  match AllowsTransfer (Collectible_Policy collectible) with
  | RewardDenied reason => mret (inl reason)
  | RewardAllowed =>
  if bool_decide (Collectible_Policy collectible = TransferPolicyTransferableWithinOrg) then
    if negb (String.eqb (Collectible_OrganizationID collectible) organization) then
      mret (inl (permission_denied "within-organization collectible can only be donated to its own organization"))
    else
      do* requireSharedCollectibleOrganization collectible (donate_FromUserID command) (donate_FromUserID command) else inl in
      mret (inr collectible)
  else mret (inr collectible)
  end.

(** [now] is the transaction's time. *)
Definition TransferCollectibleToOrganization (now : Z) (command : TransferToOrganizationStoreCommand) : MOf Market GiftResult :=
  let organization := TypedID_String (donate_OrganizationID command) in
  do* begin_tx else fun _ => GiftRejected (invalid_state "begin transfer collectible transaction failed") in
  let* collectible := on_tables now (donation_checked command) else GiftRejected in
  do* exec (donate_row organization (TypedID_String (donate_CollectibleID command)))
  else fun _ => GiftRejected (invalid_state "transfer collectible failed") in
  do* on_tables now (recordEventDraftInTx (donate_Draft command))
  else fun _ => GiftRejected (invalid_state "record collectible transfer event failed") in
  do* commit_tx else fun _ => GiftRejected (invalid_state "commit transfer collectible failed") in
  mret (CollectibleGifted (set_OrganizationID organization (set_Owner CollectibleOwnerKindOrganization organization collectible))
    [donate_Draft command]).

(** ** Withdrawal *)

(** The draft with the holder among its recipients, when the holder is a user. *)
Definition to_holder (draft : Draft) (collectible : Collectible) : DomainError + Draft :=
  if String.eqb (Collectible_OwnerKind collectible) CollectibleOwnerKindUser then
    match ParseUserID (Collectible_OwnerID collectible) with
    | TypedIDRejected reason => inl reason
    | TypedIDCreated holder => inr (WithRecipients draft [holder])
    end
  else inr draft.

Definition WithdrawCollectible (command : WithdrawCollectibleStoreCommand) : M WithdrawResult :=
  do* begin_tx else fun _ => WithdrawRejected (invalid_state "begin withdraw collectible transaction failed") in
  let* collectible := locked_collectible (withdraw_CollectibleID command) else WithdrawRejected in
  match Collectible_Catalog collectible with
  | NoCatalogRef => mret (WithdrawRejected (invalid_argument "only catalog collectibles can be withdrawn"))
  | FromCatalog _ =>
  if in_state CollectibleStateEscrowed collectible then
    mret (WithdrawRejected (conflict "collectible is held as a task reward and cannot be withdrawn"))
  else if negb (in_state CollectibleStateMinted collectible) then
    mret (WithdrawRejected (conflict "collectible is not withdrawable in its current state"))
  else
  do* exec (update_collectible (set_col_state "withdrawn") (TypedID_String (withdraw_CollectibleID command)))
  else fun _ => WithdrawRejected (invalid_state "withdraw collectible failed") in
  match to_holder (withdraw_Draft command) collectible with
  | inl reason => mret (WithdrawRejected reason)
  | inr draft =>
      record_and_commit draft "record collectible withdrawn event failed" "commit withdraw collectible failed" WithdrawRejected
        (CollectibleWithdrawn (set_State CollectibleStateWithdrawn collectible) [draft])
  end end.

Definition DeleteWithdrawnCollectible (collectibleID : CollectibleID) : M DeleteCollectibleResult :=
  let rejected description := fun _ : StmtError => DeleteCollectibleRejected (invalid_state description) in
  let collectible := TypedID_String collectibleID in
  do* begin_tx else rejected "begin delete collectible transaction failed" in
  let* escrowed := query_row (fun db => inr (bool_decide (is_Some (task_fund_collectibles db !! collectible))))
  else rejected "check collectible escrow reference failed" in
  if escrowed : bool then mret (DeleteCollectibleRejected (conflict "collectible is referenced by a task reward escrow"))
  else
  let* tag := stmt (delete_withdrawn collectible) else rejected "delete collectible failed" in
  if negb (tag =? 1) then mret (DeleteCollectibleRejected (conflict "only withdrawn collectibles can be deleted"))
  else
  do* commit_tx else rejected "commit delete collectible failed" in
  mret CollectibleDeleted.

(** ** The held collectibles of a task *)

Fixpoint scan_held (raws : list string) (ids : list CollectibleID) : M TaskHeldCollectiblesResult :=
  match raws with
  | [] =>
      failed ← fault_point;
      mret (if failed : bool then TaskHeldCollectiblesRejected (invalid_state "read held task collectibles failed")
            else TaskHeldCollectiblesFound ids)
  | raw :: raws =>
      failed ← fault_point;
      if failed : bool then mret (TaskHeldCollectiblesRejected (invalid_state "scan held task collectible failed"))
      else match ParseCollectibleID raw with
           | TypedIDRejected reason => mret (TaskHeldCollectiblesRejected reason)
           | TypedIDCreated id => scan_held raws (ids ++ [id])%list
           end
  end.

Definition TaskHeldCollectibles (taskID : TaskID) : M TaskHeldCollectiblesResult :=
  let* raws := pool_query (fun db => inr (held_collectibles (TypedID_String taskID) db))
  else fun _ => TaskHeldCollectiblesRejected (invalid_state "list held task collectibles failed") in
  scan_held raws [].

End Custody.
End Collectibles.
