(* ===== verification/CatalogStore.v ===== *)
(** * The collectible store: the catalog and minting

    Models the operations of [internal/db/collectible_store.go] on
    [collectible_catalog_entries] and on the rows of [collectibles] they mint, and its
    listings.  A [Gallery] is the market's database with the catalog beside it, the
    creation times of collectibles and the names of organizations. *)

From S2P Require Import Prelude.
From S2P Require Import Core.
From S2P Require Import OrgRoles.
From S2P Require Import Auth.
From S2P Require Import Assets.
From S2P Require Import Events.
From S2P Require Import LedgerValues.
From S2P Require Import Database.
From S2P Require Import Tx.
From S2P Require Import Outbox.
From S2P Require Import LedgerHelpers.
From S2P Require Import DeliveryDB.
From S2P Require Import TaskDB.
From S2P Require Import CollectibleStore.

Local Open Scope string_scope.
Local Open Scope Z_scope.

Module Gallery.
Export Collectibles.

(** ** Tables *)

Record CatalogRow := MkCatalogRow {
  cat_name : string;
  cat_kind : string;
  cat_transfer_policy : string;
  cat_art : string;
  cat_state : string;
  cat_max_editions : option Z;
  cat_created_at : Z
}.

Record Gallery := MkGallery {
  market : Market;
  catalog_entries : gmap string CatalogRow;      (* by slug *)
  collectible_times : gmap string Z;             (* [collectibles.created_at] *)
  organization_names : gmap string string
}.

Definition with_market (m : Market) (g : Gallery) : Gallery :=
  MkGallery m (catalog_entries g) (collectible_times g) (organization_names g).
Definition with_catalog (c : gmap string CatalogRow) (g : Gallery) : Gallery :=
  MkGallery (market g) c (collectible_times g) (organization_names g).
Definition with_times (t : gmap string Z) (g : Gallery) : Gallery :=
  MkGallery (market g) (catalog_entries g) t (organization_names g).

Definition rows_of (g : Gallery) : gmap string CollectibleRow := collectibles (tables (market g)).

(** The rows of [collectibles], replaced. *)
Definition with_rows (c : gmap string CollectibleRow) (g : Gallery) : Gallery :=
  with_market (with_tables (with_collectibles c (tables (market g))) (market g)) g.

(** A computation over the market's database. *)
Definition on_market {A} (m : MOf Market A) : MOf Gallery A := fun env st =>
  let '(a, st') := m env (MkTxState (market (st_base st)) (market (st_db st)) (st_step st)) in
  (a, MkTxState (with_market (st_base st') (st_base st)) (with_market (st_db st') (st_db st)) (st_step st')).

(** ** Constraints of [collectibles] and of the catalog *)

Definition kinds : list string := ["unique"; "edition"; "badge"].
Definition policies : list string :=
  ["non_transferable_except_payout"; "transferable_between_users"; "transferable_within_organization"; "issuer_controlled"].

Definition collectible_checks (row : CollectibleRow) : bool :=
  bool_decide (col_kind row ∈ kinds) && bool_decide (col_state row ∈ ["minted"; "escrowed"; "awarded"; "withdrawn"]) &&
  bool_decide (col_transfer_policy row ∈ policies) && bool_decide (col_owner_kind row ∈ ["user"; "team"; "organization"]) &&
  match col_edition_number row with Some number => in_int64 number | None => true end.

(** A column that is not null has the same value in both rows. *)
Definition both {A} (a b : option A) : Prop := is_Some a /\ a = b.

Definition live (row : CollectibleRow) : Prop := col_state row <> "withdrawn".
Definition live_unique (row : CollectibleRow) : Prop := col_kind row = "unique" /\ live row.

(** The four partial unique indexes of migration 000051. *)
Definition clash (a b : CollectibleRow) : Prop :=
  (live_unique a /\ live_unique b /\ both (col_catalog_slug a) (col_catalog_slug b)) \/
  (live_unique a /\ live_unique b /\ col_catalog_slug a = None /\ col_catalog_slug b = None /\
     both (col_issued_by_user_id a) (col_issued_by_user_id b) /\ col_name a = col_name b) \/
  (both (col_catalog_slug a) (col_catalog_slug b) /\ both (col_edition_number a) (col_edition_number b)) \/
  (col_catalog_slug a = None /\ col_catalog_slug b = None /\ both (col_issued_by_user_id a) (col_issued_by_user_id b) /\
     col_name a = col_name b /\ both (col_edition_number a) (col_edition_number b)).

#[global] Instance live_unique_dec row : Decision (live_unique row).
Proof. unfold live_unique, live. apply _. Defined.
#[global] Instance both_dec {A} `{EqDecision A} (a b : option A) : Decision (both a b).
Proof. unfold both. apply _. Defined.
#[global] Instance clash_dec a b : Decision (clash a b).
Proof. unfold clash. apply _. Defined.

(** Another row of the table stands in the way of [row] under [id]. *)
Definition clashes (id : string) (row : CollectibleRow) (rows : gmap string CollectibleRow) : Prop :=
  map_Exists (fun other b => other <> id /\ clash row b) rows.

#[global] Instance clashes_dec id row rows : Decision (clashes id row rows).
Proof. unfold clashes. apply _. Defined.

Definition set_uuids (owner : string) (organization : option string) (row : CollectibleRow) : CollectibleRow :=
  MkCollectibleRow (col_name row) (col_kind row) (col_state row) (col_transfer_policy row) owner
    (col_owner_kind row) organization (col_art row) (col_catalog_slug row) (col_edition_number row) (col_issued_by_user_id row).

(** [update collectibles set state = 'minted' where id = $1], under the indexes. *)
Definition mint_again (collectible : string) (g : Gallery) : StmtError + Gallery :=
  match rows_of g !! collectible with
  | None => inr g
  | Some row =>
      if bool_decide (clashes collectible (set_col_state "minted" row) (rows_of g)) then inl ErrUniqueViolation
      else inr (with_rows (alter (set_col_state "minted") collectible (rows_of g)) g)
  end.

(** [insert into collectible_catalog_entries] *)
Definition insert_entry (slug : string) (row : CatalogRow) (g : Gallery) : StmtError + Gallery :=
  if negb (bool_decide (cat_kind row ∈ kinds) && bool_decide (cat_state row = "available" \/ cat_state row = "withdrawn") &&
           bool_decide (cat_transfer_policy row ∈ policies) &&
           match cat_max_editions row with Some limit => in_int64 limit | None => true end) then inl ErrOther
  else if bool_decide (is_Some (catalog_entries g !! slug)) then inl ErrUniqueViolation
  else inr (with_catalog (<[slug := row]> (catalog_entries g)) g).

Definition set_cat_state (state : string) (row : CatalogRow) : CatalogRow :=
  MkCatalogRow (cat_name row) (cat_kind row) (cat_transfer_policy row) (cat_art row) state (cat_max_editions row) (cat_created_at row).

(** [update collectible_catalog_entries set state = <new> where slug = $1 and state = <old>], with the number of rows. *)
Definition switch_entry (slug old new : string) (g : Gallery) : StmtError + (Z * Gallery) :=
  match catalog_entries g !! slug with
  | Some row => if String.eqb (cat_state row) old
                then inr (1, with_catalog (<[slug := set_cat_state new row]> (catalog_entries g)) g) else inr (0, g)
  | None => inr (0, g)
  end.

Definition delete_entry (slug : string) (g : Gallery) : StmtError + Gallery := inr (with_catalog (delete slug (catalog_entries g)) g).

(** ** Reads *)

(** [coalesce(max(edition_number), 0) + 1] over the rows of a series, a [bigint]. *)
Definition sql_max (numbers : list Z) : option Z :=
  match numbers with [] => None | number :: numbers => Some (foldr Z.max number numbers) end.

Definition edition_numbers (series : CollectibleRow -> bool) (rows : gmap string CollectibleRow) : list Z :=
  omap (fun kv => if series kv.2 then col_edition_number kv.2 else None) (map_to_list rows).

Definition next_edition (series : CollectibleRow -> bool) (g : Gallery) : StmtError + Z :=
  scan_int64 (default 0 (sql_max (edition_numbers series (rows_of g))) + 1).

Definition some_row (p : CollectibleRow -> bool) (g : Gallery) : bool := existsb (fun kv => p kv.2) (map_to_list (rows_of g)).

Definition of_entry (slug : string) (row : CollectibleRow) : bool := bool_decide (col_catalog_slug row = Some slug).
Definition of_issuer (issuer name : string) (row : CollectibleRow) : bool :=
  bool_decide (col_catalog_slug row = None /\ col_issued_by_user_id row = Some issuer /\ col_name row = name).
Definition is_live (row : CollectibleRow) : bool := negb (String.eqb (col_state row) "withdrawn").

(** [nullableText] *)
Definition nullableText (value : string) : option string := if String.eqb value "" then None else Some value.

Definition maxEditionsColumn (cap : EditionCap) : option Z :=
  match cap with EditionCapOf limit => Some limit | NoEditionCap => None end.

Section Store.
Context `{UUIDLib, World}.

(** The text that a [uuid] column keeps of [raw]: what the library prints of what it reads. *)
Definition uuid_column (raw : string) : option string :=
  match uuid_Parse raw with inr value => Some (uuid_String value) | inl _ => None end.

Definition uuid_columns (owner : string) (organization : option string) : option (string * option string) :=
  owner ← uuid_column owner;
  match organization with
  | None => Some (owner, None)
  | Some organization => organization ← uuid_column organization; Some (owner, Some organization)
  end.

(** [insert into collectibles] *)
Definition insert_collectible (id : string) (row : CollectibleRow) (now : Z) (g : Gallery) : StmtError + Gallery :=
  match uuid_columns (col_owner_user_id row) (col_organization_id row) with
  | None => inl ErrOther
  | Some (owner, organization) =>
      let stored := set_uuids owner organization row in
      if negb (collectible_checks stored) then inl ErrOther
      else if bool_decide (is_Some (rows_of g !! id)) then inl ErrUniqueViolation
      else if bool_decide (clashes id stored (rows_of g)) then inl ErrUniqueViolation
      else if negb (references_organization organization (market g)) then inl ErrOther
      else inr (with_times (<[id := now]> (collectible_times g)) (with_rows (<[id := stored]> (rows_of g)) g))
  end.

Definition gallery_time : MOf Gallery Z := fun _ st => (server_now (st_step st), st).

(** ** Minting *)

(** The two errors of an insert that the source tells apart. *)
Definition insert_failed (description : string) (err : StmtError) : DomainError :=
  match err with ErrUniqueViolation => conflict "collectible uniqueness constraint was violated" | _ => invalid_state description end.

(** The uniqueness check and the numbering of a custom mint: the edition number, if any. *)
Definition number_custom (issuer : string) (collectible : Collectible) : MOf Gallery (DomainError + option Z) :=
  let name := CollectibleName_String (Collectible_Name collectible) in
  if String.eqb issuer "" then mret (inr None)
  else match Collectible_Kind collectible with
  | CollectibleKindUnique =>
      let* liveExists := query_row (fun g => inr (some_row (fun row =>
          String.eqb (col_kind row) "unique" && of_issuer issuer name row && is_live row) g))
      else fun _ => inl (invalid_state "check unique collectible failed") in
      mret (if liveExists : bool then inl (conflict "a live instance of this unique collectible already exists") else inr None)
  | CollectibleKindEdition =>
      let* next := query_row (next_edition (of_issuer issuer name)) else fun _ => inl (invalid_state "number collectible edition failed") in
      mret (inr (Some next))
  | CollectibleKindBadge => mret (inr None)
  end.

Definition edition_ref (number : option Z) : EditionRef :=
  match number with Some number => EditionNumbered number | None => NoEditionNumber end.

Definition custom_row (issuer : string) (number : option Z) (c : Collectible) : CollectibleRow :=
  MkCollectibleRow (CollectibleName_String (Collectible_Name c)) (CollectibleKind_String (Collectible_Kind c))
    (CollectibleState_String (Collectible_State c)) (TransferPolicy_String (Collectible_Policy c)) (Collectible_OwnerID c)
    (Collectible_OwnerKind c) (nullableText (Collectible_OrganizationID c)) (Collectible_Art c) None number (nullableText issuer).

Definition CreateCollectible (collectible : Collectible) : MOf Gallery CreateStoreResult :=
  let issuer := match Collectible_Issuer collectible with IssuedBy id => TypedID_String id | NoIssuer => "" end in
  do* begin_tx else fun _ => CreateStoreRejected (invalid_state "begin mint collectible transaction failed") in
  now ← gallery_time;
  let* number := number_custom issuer collectible else CreateStoreRejected in
  do* exec (insert_collectible (TypedID_String (Collectible_ID collectible)) (custom_row issuer number collectible) now)
  else fun err => CreateStoreRejected (insert_failed "insert collectible failed" err) in
  do* commit_tx else fun _ => CreateStoreRejected (invalid_state "commit mint collectible transaction failed") in
  mret (CreateStoreAccepted (set_Edition (edition_ref number) collectible)).

(** ** Catalog entries *)

Definition parseCatalogEntry (rawSlug : string) (row : CatalogRow) : DomainError + CatalogEntry :=
  match NewCatalogSlug rawSlug with
  | CatalogSlugRejected reason => inl reason
  | CatalogSlugAccepted slug =>
  match NewCollectibleName (cat_name row) with
  | CollectibleNameRejected reason => inl reason
  | CollectibleNameAccepted name =>
  match ParseCollectibleKind (cat_kind row) with
  | CollectibleKindRejected reason => inl reason
  | CollectibleKindAccepted kind =>
  match ParseTransferPolicy (cat_transfer_policy row) with
  | TransferPolicyRejected reason => inl reason
  | TransferPolicyAccepted policy =>
  match ParseCatalogEntryState (cat_state row) with
  | CatalogEntryStateRejected reason => inl reason
  | CatalogEntryStateAccepted state =>
      inr (MkCatalogEntry slug name kind policy (cat_art row) state
             match cat_max_editions row with Some limit => EditionCapOf limit | None => NoEditionCap end)
  end end end end end.

(** [scanCatalogEntry] of the first of the rows read. *)
Definition scanned_entry (slug : string) (read : MOf Gallery (StmtError + list CatalogRow)) : MOf Gallery (DomainError + CatalogEntry) :=
  let* rows := read else fun _ => inl (invalid_state "read catalog entry failed") in
  match rows with
  | [] => mret (inl (not_found "catalog entry was not found"))
  | row :: _ =>
      failed ← fault_point;
      mret (if failed : bool then inl (invalid_state "scan catalog entry failed") else parseCatalogEntry slug row)
  end.

(** The read for update is inside a transaction, the other one is not. *)
Definition findCatalogEntry (slug : CatalogSlug) (forUpdate : bool) : MOf Gallery (DomainError + CatalogEntry) :=
  let raw := CatalogSlug_String slug in
  let rows g := option_list (catalog_entries g !! raw) in
  scanned_entry raw (if forUpdate then query_rows rows else pool_query (fun g => inr (rows g))).

Definition entry_row (entry : CatalogEntry) (now : Z) : CatalogRow :=
  MkCatalogRow (CollectibleName_String (Entry_Name entry)) (CollectibleKind_String (Entry_Kind entry))
    (TransferPolicy_String (Entry_Policy entry)) (Entry_Art entry) (CatalogEntryState_String (Entry_State entry))
    (maxEditionsColumn (Entry_Cap entry)) now.

Definition AddCatalogEntry (entry : CatalogEntry) : MOf Gallery CatalogMutationResult :=
  now ← gallery_time;
  result ← autocommit (fun g => g' ← insert_entry (CatalogSlug_String (Entry_Slug entry)) (entry_row entry now) g; inr (tt, g'));
  mret match result with
       | inr _ => CatalogMutated entry
       | inl ErrUniqueViolation => CatalogMutationRejected (conflict "catalog slug already exists")
       | inl _ => CatalogMutationRejected (invalid_state "insert catalog entry failed")
       end.

(** The update of an entry's state on the pool, and the read of what it left. *)
Definition switch_and_find (slug : CatalogSlug) (old new failed refused : string) : MOf Gallery CatalogMutationResult :=
  let* tag := autocommit (switch_entry (CatalogSlug_String slug) old new) else fun _ => CatalogMutationRejected (invalid_state failed) in
  if negb (tag =? 1) then mret (CatalogMutationRejected (conflict refused))
  else
    let* entry := findCatalogEntry slug false else CatalogMutationRejected in
    mret (CatalogMutated entry).

Definition WithdrawCatalogEntry (slug : CatalogSlug) : MOf Gallery CatalogMutationResult :=
  switch_and_find slug "available" "withdrawn" "withdraw catalog entry failed" "catalog entry is not available to withdraw".

Definition ReleaseCatalogEntry (slug : CatalogSlug) : MOf Gallery CatalogMutationResult :=
  switch_and_find slug "withdrawn" "available" "release catalog entry failed" "catalog entry is not withdrawn and cannot be released".

Definition DeleteCatalogEntry (slug : CatalogSlug) : MOf Gallery CatalogMutationResult :=
  let failed description := fun _ : StmtError => CatalogMutationRejected (invalid_state description) in
  do* begin_tx else failed "begin delete catalog entry transaction failed" in
  let* entry := findCatalogEntry slug true else CatalogMutationRejected in
  if negb (bool_decide (Entry_State entry = CatalogEntryStateWithdrawn)) then
    mret (CatalogMutationRejected (conflict "only withdrawn catalog entries can be deleted"))
  else
  let* hasInstances := query_row (fun g => inr (some_row (of_entry (CatalogSlug_String slug)) g))
  else failed "check catalog entry instances failed" in
  if hasInstances : bool then mret (CatalogMutationRejected (conflict "catalog entry still has instances (live or withdrawn)"))
  else
  do* exec (delete_entry (CatalogSlug_String slug)) else failed "delete catalog entry failed" in
  do* commit_tx else failed "commit delete catalog entry failed" in
  mret (CatalogMutated entry).

(** ** Awards *)

(** The uniqueness check, the numbering and the cap of an award. *)
Definition number_award (slug : string) (entry : CatalogEntry) : MOf Gallery (DomainError + option Z) :=
  match Entry_Kind entry with
  | CollectibleKindUnique =>
      let* liveExists := query_row (fun g => inr (some_row (fun row => of_entry slug row && is_live row) g))
      else fun _ => inl (invalid_state "check unique catalog instance failed") in
      mret (if liveExists : bool then inl (conflict "unique collectible already has a live instance") else inr None)
  | CollectibleKindEdition =>
      let* next := query_row (next_edition (of_entry slug)) else fun _ => inl (invalid_state "number catalog edition failed") in
      mret (if match Entry_Cap entry with EditionCapOf limit => limit <? next | NoEditionCap => false end
            then inl (conflict "edition cap reached; no further instances can be minted") else inr (Some next))
  | CollectibleKindBadge => mret (inr None)
  end.

Definition awarded_row (command : AwardFromCatalogStoreCommand) (entry : CatalogEntry) (number : option Z) : CollectibleRow :=
  MkCollectibleRow (CollectibleName_String (Entry_Name entry)) (CollectibleKind_String (Entry_Kind entry)) "minted"
    (TransferPolicy_String (Entry_Policy entry)) (award_OwnerID command) (award_OwnerKind command)
    (nullableText (award_OrganizationID command)) (Entry_Art entry) (Some (CatalogSlug_String (award_Slug command)))
    number (Some (TypedID_String (award_Issuer command))).

Definition AwardFromCatalog (command : AwardFromCatalogStoreCommand) : MOf Gallery CreateStoreResult :=
  do* begin_tx else fun _ => CreateStoreRejected (invalid_state "begin award collectible transaction failed") in
  now ← gallery_time;
  let* entry := findCatalogEntry (award_Slug command) true else CreateStoreRejected in
  if negb (bool_decide (Entry_State entry = CatalogEntryStateAvailable)) then
    mret (CreateStoreRejected (conflict "catalog entry is withdrawn and can no longer be awarded"))
  else
  let* number := number_award (CatalogSlug_String (award_Slug command)) entry else CreateStoreRejected in
  do* exec (insert_collectible (TypedID_String (award_NewID command)) (awarded_row command entry number) now)
  else fun err => CreateStoreRejected (insert_failed "insert awarded collectible failed" err) in
  do* commit_tx else fun _ => CreateStoreRejected (invalid_state "commit award collectible transaction failed") in
  mret (CreateStoreAccepted (MkCollectible (award_NewID command) (Entry_Name entry) (Entry_Kind entry) CollectibleStateMinted
    (Entry_Policy entry) (award_OwnerKind command) (award_OwnerID command) (award_OrganizationID command) (Entry_Art entry)
    (FromCatalog (award_Slug command)) (edition_ref number) (IssuedBy (award_Issuer command)))).

(** The re-check of a unique entry's live slot. *)
Definition slot_free (slug : string) (entry : CatalogEntry) : MOf Gallery (option DomainError) :=
  if bool_decide (Entry_Kind entry = CollectibleKindUnique) then
    scan ← query_row (fun g => inr (some_row (fun row => of_entry slug row && is_live row) g));
    mret match scan with
         | inl _ => Some (invalid_state "check unique catalog instance failed")
         | inr true => Some (conflict "another live instance of this unique collectible exists")
         | inr false => None
         end
  else mret None.

(** [now] is the transaction's time. *)
Definition ReleaseCollectible (now : Z) (command : ReleaseCollectibleStoreCommand) : MOf Gallery ReleaseResult :=
  let collectible_id := TypedID_String (release_CollectibleID command) in
  do* begin_tx else fun _ => ReleaseRejected (invalid_state "begin release collectible transaction failed") in
  let* collectible := on_market (on_tables now (locked_collectible (release_CollectibleID command))) else ReleaseRejected in
  if negb (in_state CollectibleStateWithdrawn collectible) then
    mret (ReleaseRejected (conflict "only withdrawn collectibles can be released"))
  else
  match Collectible_Catalog collectible with
  | NoCatalogRef => mret (ReleaseRejected (invalid_state "collectible has no catalog entry to validate against"))
  | FromCatalog slug =>
  let* entry := findCatalogEntry slug true else ReleaseRejected in
  do* slot_free (CatalogSlug_String slug) entry else ReleaseRejected in
  do* exec (mint_again collectible_id) else fun err => ReleaseRejected
    match err with
    | ErrUniqueViolation => conflict "another live instance of this unique collectible exists"
    | _ => invalid_state "release collectible failed"
    end in
  match to_holder (release_Draft command) collectible with
  | inl reason => mret (ReleaseRejected reason)
  | inr draft =>
  do* on_market (on_tables now (recordEventDraftInTx draft))
  else fun _ => ReleaseRejected (invalid_state "record collectible released event failed") in
  do* commit_tx else fun _ => ReleaseRejected (invalid_state "commit release collectible failed") in
  mret (CollectibleReleased (set_State CollectibleStateMinted collectible) [draft])
  end end.

End Store.
End Gallery.

(** * The collectible store: listings

    Models the list reads of [internal/db/collectible_store.go]: the collectibles of an
    owner, with the names of their issuers and owners, and the catalog with what
    circulates of each entry. *)
Local Open Scope string_scope.
Local Open Scope Z_scope.

Module GalleryReads.
Export Gallery.

(** [displayNameSQL] of a user row, empty for none. *)
Definition profile_name (user : string) (g : Gallery) : string :=
  match profiles (market g) !! user with Some profile => displayNameSQL profile | None => "" end.

Definition collectibleOwnerLabelSQL (g : Gallery) (row : CollectibleRow) : string :=
  switch (col_owner_kind row)
    [ ("user", profile_name (col_owner_user_id row) g);
      ("organization", default "" (organization_names g !! col_owner_user_id row));
      ("team", match teams (market g) !! col_owner_user_id row with Some team => team_name team | None => "" end) ] "".

(** [collectibleListColumns] under [collectibleIssuerJoin]. *)
Record ListedRow := MkListedRow {
  listed_id : string;
  listed_row : CollectibleRow;
  listed_issuer_name : string;
  listed_owner_name : string;
  listed_created_at : Z
}.

Definition listed (g : Gallery) (kv : string * CollectibleRow) : ListedRow :=
  MkListedRow kv.1 kv.2 (match col_issued_by_user_id kv.2 with Some issuer => profile_name issuer g | None => "" end)
    (collectibleOwnerLabelSQL g kv.2) (default 0 (collectible_times g !! kv.1)).

(** [order by collectibles.created_at desc, collectibles.id] *)
Definition newest_first (a b : ListedRow) : bool :=
  (listed_created_at b <? listed_created_at a) ||
  (listed_created_at a =? listed_created_at b) && String.leb (listed_id a) (listed_id b).

Definition owner_rows (kind owner : string) (g : Gallery) : list ListedRow :=
  merge_sort (fun a b => Is_true (newest_first a b))
    (listed g <$> filter (fun kv => col_owner_user_id kv.2 = owner /\ col_owner_kind kv.2 = kind) (map_to_list (rows_of g))).

Section Reads.
Context `{UUIDLib, World}.

Definition name_read (raw : string) : DomainError + option DisplayName :=
  if String.eqb raw "" then inr None
  else match NewDisplayName raw with DisplayNameRejected reason => inl reason | DisplayNameAccepted name => inr (Some name) end.

Definition scanCollectibleWithIssuerName (row : ListedRow) : MOf Gallery (DomainError + ListedCollectible) :=
  failed ← fault_point;
  mret (if failed : bool then inl (invalid_state "scan collectible failed")
        else match parseCollectible (listed_id row) (listed_row row) with
             | collectibleParseRejected reason => inl reason
             | collectibleParsed value =>
                 match name_read (listed_issuer_name row) with
                 | inl reason => inl reason
                 | inr issuer =>
                     match name_read (listed_owner_name row) with
                     | inl reason => inl reason
                     | inr owner => inr (MkListedCollectible value issuer owner)
                     end
                 end
             end).

Fixpoint collectListedCollectibles (rows : list ListedRow) (values : list ListedCollectible) : MOf Gallery ListStoreResult :=
  match rows with
  | [] =>
      failed ← fault_point;
      mret (if failed : bool then ListStoreRejected (invalid_state "read collectibles failed") else ListStoreListed values)
  | row :: rows =>
      let* value := scanCollectibleWithIssuerName row else ListStoreRejected in
      collectListedCollectibles rows (values ++ [value])%list
  end.

Definition ListCollectiblesByOwner (ownerKind ownerID : string) (page : Pagination.Page) : MOf Gallery ListStoreResult :=
  let* rows := pool_query (fun g => inr (Pagination.sql_page page (owner_rows ownerKind ownerID g)))
  else fun _ => ListStoreRejected (invalid_state "list collectibles failed") in
  collectListedCollectibles rows [].

Definition ListCollectibles (owner : UserID) (page : Pagination.Page) : MOf Gallery ListStoreResult :=
  let* rows := pool_query (fun g => inr (Pagination.sql_page page (owner_rows "user" (TypedID_String owner) g)))
  else fun _ => ListStoreRejected (invalid_state "list collectibles failed") in
  collectListedCollectibles rows [].

(** ** The catalog *)

(** The three correlated subqueries of a catalog row. *)
Record CatalogListingRow := MkCatalogListingRow {
  lrow_slug : string;
  lrow_entry : CatalogRow;
  lrow_live_instances : Z;
  lrow_live_owners : Z;
  lrow_owner_label : string
}.

Definition circulating (slug : string) (g : Gallery) : list CollectibleRow :=
  filter (fun row => Is_true (of_entry slug row && is_live row)) (map_to_list (rows_of g)).*2.

Definition owner_key (row : CollectibleRow) : string := col_owner_kind row +:+ ":" +:+ col_owner_user_id row.

Definition catalog_listing (g : Gallery) (kv : string * CatalogRow) : CatalogListingRow :=
  let live := circulating kv.1 g in
  MkCatalogListingRow kv.1 kv.2 (Z.of_nat (length live)) (Z.of_nat (length (remove_dups (owner_key <$> live))))
    (if String.eqb (cat_kind kv.2) "unique"
     then match live with row :: _ => collectibleOwnerLabelSQL g row | [] => "" end else "").

(** [order by created_at asc, slug asc] *)
Definition oldest_first (a b : CatalogListingRow) : bool :=
  (cat_created_at (lrow_entry a) <? cat_created_at (lrow_entry b)) ||
  (cat_created_at (lrow_entry a) =? cat_created_at (lrow_entry b)) && String.leb (lrow_slug a) (lrow_slug b).

Definition catalog_rows (g : Gallery) : list CatalogListingRow :=
  merge_sort (fun a b => Is_true (oldest_first a b)) (catalog_listing g <$> map_to_list (catalog_entries g)).

Definition scanCatalogListing (row : CatalogListingRow) : MOf Gallery (DomainError + CatalogListing) :=
  failed ← fault_point;
  mret (if failed : bool then inl (invalid_state "scan catalog listing failed")
        else match parseCatalogEntry (lrow_slug row) (lrow_entry row) with
             | inl reason => inl reason
             | inr entry =>
                 match name_read (lrow_owner_label row) with
                 | inl reason => inl reason
                 | inr label => inr (MkCatalogListing entry (lrow_live_instances row) (lrow_live_owners row) label)
                 end
             end).

Fixpoint scan_catalog (rows : list CatalogListingRow) (values : list CatalogListing) : MOf Gallery CatalogListResult :=
  match rows with
  | [] =>
      failed ← fault_point;
      mret (if failed : bool then CatalogListRejected (invalid_state "read catalog entries failed") else CatalogListed values)
  | row :: rows =>
      let* value := scanCatalogListing row else CatalogListRejected in
      scan_catalog rows (values ++ [value])%list
  end.

Definition ListCatalogEntries : MOf Gallery CatalogListResult :=
  let* rows := pool_query (fun g => inr (catalog_rows g)) else fun _ => CatalogListRejected (invalid_state "list catalog entries failed") in
  scan_catalog rows [].

End Reads.
End GalleryReads.
