(* ===== verification/CollectibleService.v ===== *)
(** * The collectible service

    Models [internal/assets/service.go] over the collectible store: who a change is
    recorded for, the validation of catalog entries, and the scope of what is minted.
    A service call that records an event returns, beside its result, the drafts it
    hands to the recorder ([Recorder.v]). *)

From S2P Require Import Prelude.
From S2P Require Import Core.
From S2P Require Import Assets.
From S2P Require Import Events.
From S2P Require Import LedgerValues.
From S2P Require Import Database.
From S2P Require Import Tx.
From S2P Require Import LedgerHelpers.
From S2P Require Import TaskDB.
From S2P Require Import CollectibleStore.
From S2P Require Import CatalogStore.
Local Open Scope string_scope.
Local Open Scope Z_scope.

(** [core.NewCollectibleID()] *)
Class CollectibleIDs := new_collectible_id : nat -> TypedIDResult KCollectible.

Module CollectibleService.
Export Gallery.

Section Service.
Context `{UUIDLib, World, CollectibleIDs}.

Definition NewCollectibleID : MOf Gallery (TypedIDResult KCollectible) := fun _ st => (new_collectible_id (st_step st), tick st).

(** A store operation of the ledger's tables, in a transaction of its own. *)
Definition on_store {A} (m : M A) : MOf Gallery A := fun env => on_market (on_tables (env_tx_now env) m) env.

Definition collectible_draft (kind : Kind) (actor : Actor) (subject : Subject) (recipients : list UserID) : MOf Gallery (DomainError + Draft) :=
  id ← NewDomainEventID;
  mret match NewDraft id kind actor subject EmptyMetadata (NewRecipients recipients) with
       | DraftCreated draft => inr draft
       | DraftRejected reason => inl reason
       end.

Definition collectibleAwardedDraft : Actor -> Subject -> list UserID -> MOf Gallery (DomainError + Draft) := collectible_draft KindCollectibleAwarded.

Definition collectible_subject (collectibleID : CollectibleID) : Subject :=
  MkSubject NoTask NoSubmission NoReservation NoSeries NoOrganization (CollectibleSubject collectibleID).

Definition gifted (result : GiftResult) : GiftResult * list Draft :=
  (result, match result with CollectibleGifted _ drafts => drafts | GiftRejected _ => [] end).

(** ** Minting *)

(** The scope of a mint: an organization's own by default. *)
Definition scope_of (ownerKind ownerID organizationID : string) : string :=
  let scopeID := TrimSpace organizationID in
  if String.eqb ownerKind CollectibleOwnerKindOrganization && String.eqb scopeID "" then ownerID else scopeID.

Definition minted (result : CreateStoreResult) : MintResult :=
  match result with CreateStoreAccepted value => CollectibleMinted value | CreateStoreRejected reason => MintRejected reason end.

Definition Mint (issuer : UserID) (ownerKind ownerID organizationID : string) (name : CollectibleName) (kind : CollectibleKind)
    (policy : TransferPolicy) (art : string) : MOf Gallery MintResult :=
  idResult ← NewCollectibleID;
  match idResult with
  | TypedIDRejected reason => mret (MintRejected reason)
  | TypedIDCreated id =>
      result ← CreateCollectible (MkCollectible id name kind CollectibleStateMinted policy ownerKind ownerID
        (scope_of ownerKind ownerID organizationID) art NoCatalogRef NoEditionNumber (IssuedBy issuer));
      mret (minted result)
  end.

Definition AwardFromCatalog (issuer : UserID) (rawSlug ownerKind ownerID organizationID : string) : MOf Gallery MintResult :=
  match NewCatalogSlug rawSlug with
  | CatalogSlugRejected reason => mret (MintRejected reason)
  | CatalogSlugAccepted slug =>
      idResult ← NewCollectibleID;
      match idResult with
      | TypedIDRejected reason => mret (MintRejected reason)
      | TypedIDCreated id =>
          result ← Gallery.AwardFromCatalog (MkAwardFromCatalog id slug ownerKind ownerID (scope_of ownerKind ownerID organizationID) issuer);
          mret (minted result)
      end
  end.

Definition AddCatalogEntry (entry : CatalogEntry) : MOf Gallery CatalogMutationResult :=
  if negb (KnownSpriteSlug (Entry_Art entry)) then
    mret (CatalogMutationRejected (invalid_argument "catalog art must name a sprite from the fixed art registry"))
  else match validateCatalogCap entry with
  | Some reason => mret (CatalogMutationRejected reason)
  | None => Gallery.AddCatalogEntry entry
  end.

(** ** Passed to the store *)

Definition ListCatalog : MOf Gallery CatalogListResult := GalleryReads.ListCatalogEntries.
Definition WithdrawCatalogEntry (slug : CatalogSlug) : MOf Gallery CatalogMutationResult := Gallery.WithdrawCatalogEntry slug.
Definition ReleaseCatalogEntry (slug : CatalogSlug) : MOf Gallery CatalogMutationResult := Gallery.ReleaseCatalogEntry slug.
Definition DeleteCatalogEntry (slug : CatalogSlug) : MOf Gallery CatalogMutationResult := Gallery.DeleteCatalogEntry slug.
Definition TaskHeldCollectibles (taskID : TaskID) : MOf Gallery TaskHeldCollectiblesResult := on_store (Collectibles.TaskHeldCollectibles taskID).

Inductive ListResult := CollectiblesListed (Values : list ListedCollectible) | ListRejected (Reason : DomainError).

Definition list_answer (result : ListStoreResult) : ListResult :=
  match result with ListStoreListed values => CollectiblesListed values | ListStoreRejected reason => ListRejected reason end.

Definition ListCollectibles (owner : UserID) (page : Pagination.Page) : MOf Gallery ListResult :=
  result ← GalleryReads.ListCollectibles owner page; mret (list_answer result).

Definition ListByOwner (ownerKind ownerID : string) (page : Pagination.Page) : MOf Gallery ListResult :=
  result ← GalleryReads.ListCollectiblesByOwner ownerKind ownerID page; mret (list_answer result).

(** ** Task rewards *)

Definition FundReward (funder : UserID) (taskID : TaskID) (collectibleID : CollectibleID) : MOf Gallery FundRewardResult :=
  on_store (FundCollectibleReward (MkFundReward funder taskID collectibleID)).

Definition RefundReward (requester : UserID) (taskID : TaskID) : MOf Gallery RefundRewardResult :=
  on_store (RefundCollectibleReward (MkRefundReward requester taskID)).

(** ** Transfers *)

Definition AwardOrganizationCollectible (organizationID : OrganizationID) (collectibleID : CollectibleID) (recipientUserID : UserID)
    : MOf Gallery (GiftResult * list Draft) :=
  let subject := set_Organization (OrganizationSubject organizationID) (collectible_subject collectibleID) in
  let* draft := collectibleAwardedDraft ActorSystem subject [recipientUserID] else fun reason => (GiftRejected reason, []) in
  result ← on_store (Collectibles.AwardOrganizationCollectible (MkAwardOrganizationCollectible organizationID collectibleID recipientUserID draft));
  mret (gifted result).

Definition GiftCollectible (from to : UserID) (collectibleID : CollectibleID) : MOf Gallery (GiftResult * list Draft) :=
  let* draft := collectibleAwardedDraft (ActorUser from) (collectible_subject collectibleID) [to; from]
  else fun reason => (GiftRejected reason, []) in
  result ← on_store (Collectibles.GiftCollectible (MkGift from to collectibleID draft));
  mret (gifted result).

Definition TransferCollectibleToOrganization (from : UserID) (organizationID : OrganizationID) (collectibleID : CollectibleID)
    : MOf Gallery (GiftResult * list Draft) :=
  let subject := set_Organization (OrganizationSubject organizationID) (collectible_subject collectibleID) in
  let* draft := collectibleAwardedDraft (ActorUser from) subject [from] else fun reason => (GiftRejected reason, []) in
  result ← (fun env => on_market (Collectibles.TransferCollectibleToOrganization (env_tx_now env)
    (MkTransferToOrganization from organizationID collectibleID draft)) env);
  mret (gifted result).

Definition TransferCollectibleFromOrganization (actor : UserID) (organizationID : OrganizationID) (to : UserID) (collectibleID : CollectibleID)
    : MOf Gallery (GiftResult * list Draft) :=
  let subject := set_Organization (OrganizationSubject organizationID) (collectible_subject collectibleID) in
  let* draft := collectibleAwardedDraft (ActorUser actor) subject [to; actor] else fun reason => (GiftRejected reason, []) in
  result ← on_store (Collectibles.TransferCollectibleFromOrganization (MkTransferFromOrganization organizationID actor to collectibleID draft));
  mret (gifted result).

(** ** Withdrawal and release *)

Definition WithdrawCollectible (actor : UserID) (collectibleID : CollectibleID) : MOf Gallery (WithdrawResult * list Draft) :=
  let* draft := collectible_draft KindCollectibleWithdrawn (ActorUser actor) (collectible_subject collectibleID) [actor]
  else fun reason => (WithdrawRejected reason, []) in
  result ← on_store (Collectibles.WithdrawCollectible (MkWithdrawCollectible collectibleID draft));
  mret (result, match result with CollectibleWithdrawn _ drafts => drafts | WithdrawRejected _ => [] end).

Definition ReleaseCollectible (actor : UserID) (collectibleID : CollectibleID) : MOf Gallery (ReleaseResult * list Draft) :=
  let* draft := collectible_draft KindCollectibleReleased (ActorUser actor) (collectible_subject collectibleID) [actor]
  else fun reason => (ReleaseRejected reason, []) in
  result ← (fun env => Gallery.ReleaseCollectible (env_tx_now env) (MkReleaseCollectible collectibleID draft) env);
  mret (result, match result with CollectibleReleased _ drafts => drafts | ReleaseRejected _ => [] end).

Definition DeleteWithdrawnCollectible (collectibleID : CollectibleID) : MOf Gallery DeleteCollectibleResult :=
  on_store (Collectibles.DeleteWithdrawnCollectible collectibleID).

End Service.
End CollectibleService.
