(* ===== verification/TaskService.v ===== *)
(** * The task service

    Models [internal/task/service.go]: what the service checks before it reaches
    the store, for creation, state changes, views and reservations.  A result is
    paired with the drafts the service hands to the recorder after the commit.
    The issuer of worker credentials is an interface of the source; it is a
    parameter here. *)

From S2P Require Import Prelude.
From S2P Require Import Core.
From S2P Require Import OrgRoles.
From S2P Require Import Auth.
From S2P Require Import Events.
From S2P Require Import TaskValues.
From S2P Require Import TaskWork.
From S2P Require Import LedgerValues.
From S2P Require Import Database.
From S2P Require Import Tx.
From S2P Require Import TaskDB.
From S2P Require Import OrgStore.
From S2P Require Import TaskRows.
From S2P Require Import TaskStore.
Local Open Scope string_scope.
Local Open Scope Z_scope.

(** [TaskCredentialIssuer]: the secret of a credential for one task, best effort. *)
Class TaskCredentialIssuer := {
  IssueTaskWorkerCredential : UserID -> TaskID -> MOf Market (option string)
}.

Module TaskService.

Inductive CreateResult := TaskCreated (Value : Task.Task) | CreateRejected (Reason : DomainError).
Inductive ChangeStateResult := TaskStateChanged (Value : Task.Task) | ChangeStateRejected (Reason : DomainError).
Inductive GetResult := TaskGot (Value : Task.Task) (CreatorDisplayName : DisplayName) | GetRejected (Reason : DomainError).
Inductive ReservationResult :=
| ReservationCreated (Value : Task.Reservation) (IssuedWorkerCredentialSecret : string)
| ReservationRejected (Reason : DomainError).
Inductive ReservationStateChangeResult :=
| ReservationStateChanged (Value : Task.Reservation)
| ReservationStateChangeRejected (Reason : DomainError).
Inductive ReservationsListResult :=
| ReservationsListed (Values : list Task.Reservation)
| ReservationsListRejected (Reason : DomainError).

Section Service.
Context `{UUIDLib, URLLib, World, TaskCredentialIssuer}.

(** ** Events *)

Definition eventActor (actor : Auth.Subject) : Actor :=
  match actor with Auth.UserSubject user => ActorUser user | _ => ActorSystem end.

Definition draftOrProblem (result : DraftResult) : DomainError + Draft :=
  match result with DraftCreated draft => inr draft | DraftRejected reason => inl reason end.

Definition taskEventDraft (kind : Kind) (actor : Actor) (taskID : TaskID) (metadata : Metadata) (recipients : Recipients) :
    MOf Market (DomainError + Draft) :=
  id ← NewDomainEventID;
  mret (draftOrProblem (NewDraft id kind actor (set_Task (TaskSubject taskID) NoSubjectRefs) metadata recipients)).

Definition reservationEventDraft (kind : Kind) (actor : Actor) (taskID : TaskID) (reservationID : TaskReservationID) (recipients : Recipients) :
    MOf Market (DomainError + Draft) :=
  id ← NewDomainEventID;
  mret (draftOrProblem (NewDraft id kind actor
    (set_Reservation (ReservationSubject reservationID) (set_Task (TaskSubject taskID) NoSubjectRefs))
    (TaskMetadata taskID) recipients)).

(** ** Permissions *)

Definition organizationIDForOwner (owner : Task.Owner) : option OrganizationID :=
  match owner with
  | Task.OrganizationOwner organization | Task.OrganizationTeamOwner organization _ => Some organization
  | _ => None
  end.

Definition from_decision (decision : Auth.Decision) : option DomainError :=
  match decision with Auth.Granted => None | Auth.Denied reason => Some reason end.

Definition organization_access (actor : Auth.Subject) (organization : OrganizationID) (reason : string) : MOf Market (option DomainError) :=
  decision ← Auth.RequireOrganizationAccess Org.CheckOrganizationPermission actor organization
    PermissionCreateOrganizationTask ErrorCodePermissionDenied reason;
  mret (from_decision decision).

(** [None] is an accepted permission. *)
Definition requireOwnerPermission (actor : Auth.Subject) (owner : Task.Owner) : MOf Market (option DomainError) :=
  let denied := Some (permission_denied "task owner access denied") in
  match actor with
  | Auth.OrgSubject organization =>
      mret (if bool_decide (organizationIDForOwner owner = Some organization) then None else denied)
  | Auth.GuestSubject _ => mret denied
  | Auth.UserSubject user =>
      match owner with
      | Task.UserOwner id => mret (if bool_decide (id = user) then None else denied)
      | Task.OrganizationOwner organization | Task.OrganizationTeamOwner organization _ =>
          organization_access actor organization "task owner access denied"
      | Task.TeamOwner _ => mret (Some (permission_denied "team-owned tasks require organization ownership in this release"))
      end
  end.

Definition requireVisibilityPermission (actor : UserID) (owner : Task.Owner) (visibility : Task.Visibility) : MOf Market (option DomainError) :=
  match visibility, organizationIDForOwner owner with
  | Task.PublicVisibility, Some organization =>
      check ← Org.CheckOrganizationPermission organization actor PermissionPublishPublicTask;
      mret match check with PermissionDenied reason => Some reason | PermissionGranted => None end
  | _, _ => mret None
  end.

Definition requireViewPermission (actor : Auth.Subject) (value : Task.Task) : MOf Market (option DomainError) :=
  let denied := Some (permission_denied "task view access denied") in
  let by_visibility :=
    match Task.TVisibility value with
    | Task.PublicVisibility => mret None
    | Task.UserVisibility user => mret (if bool_decide (actor = Auth.UserSubject user) then None else denied)
    | Task.OrganizationVisibility organization | Task.OrganizationTeamVisibility organization _ =>
        organization_access actor organization "task view access denied"
    | Task.TeamVisibility _ => mret denied
    end in
  match actor with
  | Auth.GuestSubject _ => mret denied
  | Auth.OrgSubject organization =>
      if bool_decide (organizationIDForOwner (Task.TOwner value) = Some organization) then mret None else by_visibility
  | Auth.UserSubject user =>
      if bool_decide (Task.CreatedBy value = user) then mret None else by_visibility
  end.

(** ** Creation and reading *)

Definition Create (command : Tasks.CreateCommand) : MOf Market CreateResult :=
  let actor := Tasks.create_Actor command in
  do* requireOwnerPermission (Auth.UserSubject actor) (Tasks.create_Owner command) else CreateRejected in
  do* requireVisibilityPermission actor (Tasks.create_Owner command) (Tasks.create_Visibility command) else CreateRejected in
  taskIDResult ← NewTaskID;
  match taskIDResult with
  | TypedIDRejected reason => mret (CreateRejected reason)
  | TypedIDCreated taskID =>
  seriesIDResult ← NewTaskSeriesID;
  match seriesIDResult with
  | TypedIDRejected reason => mret (CreateRejected reason)
  | TypedIDCreated seriesID =>
  storeResult ← Tasks.CreateTask seriesID taskID command;
  mret match storeResult with
       | Tasks.CreateTaskStoreRejected reason => CreateRejected reason
       | Tasks.CreateTaskStoreAccepted value => TaskCreated value
       end
  end end.

Definition find (taskID : TaskID) : MOf Market (DomainError + (Task.Task * DisplayName)) :=
  found ← Tasks.FindTask taskID;
  mret match found with
       | Tasks.FindTaskStoreRejected reason => inl reason
       | Tasks.FindTaskStoreAccepted value name => inr (value, name)
       end.

Definition Get (actor : Auth.Subject) (taskID : TaskID) : MOf Market GetResult :=
  let* '(value, name) := find taskID else GetRejected in
  do* requireViewPermission actor value else GetRejected in
  mret (TaskGot value name).

(** ** State changes *)

(** The reading half of [changeState]: the state the store is asked for. *)
Definition decide_state (actor : Auth.Subject) (taskID : TaskID) (transition : Task.State -> Task.StateTransitionResult) :
    MOf Market (DomainError + Task.State) :=
  let* '(value, _) := find taskID else inl in
  do* requireOwnerPermission actor (Task.TOwner value) else inl in
  mret match transition (Task.TState value) with
       | Task.StateTransitionRejected reason => inl reason
       | Task.StateTransitionAccepted state => inr state
       end.

Definition apply_state (taskID : TaskID) (state : Task.State) (plan : Plan) : MOf Market (ChangeStateResult * list Draft) :=
  storeResult ← Tasks.ChangeTaskState taskID state plan;
  mret match storeResult with
       | Tasks.ChangeTaskStateStoreRejected reason => (ChangeStateRejected reason, [])
       | Tasks.ChangeTaskStateStoreAccepted value recorded => (TaskStateChanged value, recorded)
       end.

Definition changeState (actor : Auth.Subject) (taskID : TaskID) (transition : Task.State -> Task.StateTransitionResult) (plan : Plan) :
    MOf Market (ChangeStateResult * list Draft) :=
  let* state := decide_state actor taskID transition else fun reason => (ChangeStateRejected reason, []) in
  apply_state taskID state plan.

Definition acting_recipients (actor : Auth.Subject) : Recipients := NewRecipients [ActorUserID (eventActor actor)].

Definition Open (actor : Auth.Subject) (taskID : TaskID) : MOf Market (ChangeStateResult * list Draft) :=
  let* draft := taskEventDraft KindTaskOpened (eventActor actor) taskID (TaskMetadata taskID) (acting_recipients actor)
  else fun reason => (ChangeStateRejected reason, []) in
  changeState actor taskID Task.OpenState (RecordDraft draft).

Definition Cancel (actor : Auth.Subject) (taskID : TaskID) : MOf Market (ChangeStateResult * list Draft) :=
  let* draft := taskEventDraft KindTaskCancelled (eventActor actor) taskID (TaskMetadata taskID) (acting_recipients actor)
  else fun reason => (ChangeStateRejected reason, []) in
  changeState actor taskID Task.CancelState (RecordDraft draft).

Definition Unpublish (actor : Auth.Subject) (taskID : TaskID) : MOf Market (ChangeStateResult * list Draft) :=
  changeState actor taskID Task.UnpublishState NoEvent.

(** ** Reservations *)

Definition issueWorkerCredential (owner : UserID) (taskID : TaskID) : MOf Market string :=
  secret ← IssueTaskWorkerCredential owner taskID;
  mret (default "" secret).

(** What [reserve] requires of the task it found. *)
Definition reservable (actor : UserID) (value : Task.Task) (requiredScope : Task.AssigneeScope) (wrongScopeMessage : string) :
    MOf Market (option DomainError) :=
  if negb (bool_decide (Task.TState value = Task.StateOpen)) then mret (Some (conflict "only open tasks can be reserved"))
  else if negb (bool_decide (Task.TAssigneeScope value = requiredScope)) then mret (Some (conflict wrongScopeMessage))
  else
    do* requireViewPermission (Auth.UserSubject actor) value else Some in
    mret (if bool_decide (Task.CreatedBy value = actor)
          then Some (conflict "task requester cannot reserve their own task") else None).

Definition reserve (actor : UserID) (origin : Work.WorkerOrigin) (taskID : TaskID) (assignee : Task.Assignee)
    (requiredScope : Task.AssigneeScope) (wrongScopeMessage : string) : MOf Market (ReservationResult * list Draft) :=
  let rejected := fun reason => (ReservationRejected reason, []) in
  let* '(value, _) := find taskID else rejected in
  do* reservable actor value requiredScope wrongScopeMessage else rejected in
  match Work.reservationOriginFor origin value with
  | inl reason => mret (rejected reason)
  | inr reservationOrigin =>
  reservationIDResult ← NewTaskReservationID;
  match reservationIDResult with
  | TypedIDRejected reason => mret (rejected reason)
  | TypedIDCreated reservationID =>
  let* draft := reservationEventDraft KindReservationRequested (ActorUser actor) taskID reservationID
      (NewRecipients [Task.CreatedBy value; actor]) else rejected in
  storeResult ← Tasks.CreateReservation reservationID
    (Tasks.MkReservationCommand taskID assignee actor reservationOrigin draft);
  match storeResult with
  | Tasks.CreateReservationStoreRejected reason => mret (rejected reason)
  | Tasks.CreateReservationStoreAccepted created =>
      secret ← issueWorkerCredential (Task.RequestedBy created) taskID;
      mret (ReservationCreated created secret, [draft])
  end end end.

Definition Reserve (actor : UserID) (origin : Work.WorkerOrigin) (taskID : TaskID) : MOf Market (ReservationResult * list Draft) :=
  reserve actor origin taskID (Task.UserAssignee actor) Task.AssigneeScopeUser "this task does not accept user reservations".

Definition granted (check : MOf Market PermissionCheck) : MOf Market (option DomainError) :=
  result ← check;
  mret match result with PermissionDenied reason => Some reason | PermissionGranted => None end.

Definition ReserveForOrganizationTeam (actor : UserID) (origin : Work.WorkerOrigin) (taskID : TaskID)
    (organizationID : OrganizationID) (teamID : TeamID) : MOf Market (ReservationResult * list Draft) :=
  do* granted (Org.CheckOrganizationTeamMembership organizationID teamID actor) else fun reason => (ReservationRejected reason, []) in
  reserve actor origin taskID (Task.OrganizationTeamAssignee organizationID teamID) Task.AssigneeScopeOrganizationTeam
    "this task does not accept organization team reservations".

Definition ReserveForTeam (actor : UserID) (origin : Work.WorkerOrigin) (taskID : TaskID) (teamID : TeamID) :
    MOf Market (ReservationResult * list Draft) :=
  do* granted (Org.CheckTeamMembership teamID actor) else fun reason => (ReservationRejected reason, []) in
  reserve actor origin taskID (Task.TeamAssignee teamID) Task.AssigneeScopeTeam "this task does not accept team reservations".

(** A listed reservation that a user cancelling it holds. *)
Definition holds (actor : Auth.Subject) (reservationID : TaskReservationID) (value : Task.Reservation) : bool :=
  bool_decide (Task.Reservation_ID value = reservationID) && bool_decide (actor = Auth.UserSubject (Task.RequestedBy value)).

Definition list_reservations (taskID : TaskID) (page : Pagination.Page) : MOf Market (DomainError + list Task.Reservation) :=
  listResult ← Tasks.ListReservations taskID page;
  mret match listResult with
       | Tasks.ListReservationsStoreRejected reason => inl reason
       | Tasks.ListReservationsStoreAccepted values => inr values
       end.

(** Who cancels decides the state: the holder, or else the task's owner. *)
Definition cancelled_state (actor : Auth.Subject) (owner : Task.Owner) (reservationID : TaskReservationID) (listed : list Task.Reservation) :
    MOf Market (DomainError + Task.ReservationState) :=
  if existsb (holds actor reservationID) listed then mret (inr Task.ReservationStateCancelledByWorker)
  else
    do* requireOwnerPermission actor owner
    else fun _ => inl (permission_denied "only the task owner or the reservation holder can cancel this reservation") in
    mret (inr Task.ReservationStateCancelledByRequester).

Definition CancelReservation (actor : Auth.Subject) (taskID : TaskID) (reservationID : TaskReservationID) :
    MOf Market (ReservationStateChangeResult * list Draft) :=
  let rejected := fun reason => (ReservationStateChangeRejected reason, []) in
  let* '(value, _) := find taskID else rejected in
  let* listed := list_reservations taskID Pagination.DefaultPage else rejected in
  let* cancelledState := cancelled_state actor (Task.TOwner value) reservationID listed else rejected in
  let* draft := reservationEventDraft KindReservationCancelled (eventActor actor) taskID reservationID (acting_recipients actor)
  else rejected in
  storeResult ← Tasks.ChangeReservationState taskID reservationID cancelledState (RecordDraft draft);
  mret match storeResult with
       | Tasks.ChangeReservationStateStoreRejected reason => rejected reason
       | Tasks.ChangeReservationStateStoreAccepted changed recorded =>
           if bool_decide (Task.Reservation_TaskID changed = taskID) then (ReservationStateChanged changed, recorded)
           else rejected (not_found "reservation was not found for the task")
       end.

Definition ListReservations (actor : Auth.Subject) (taskID : TaskID) (page : Pagination.Page) : MOf Market ReservationsListResult :=
  let* '(value, _) := find taskID else ReservationsListRejected in
  let* listed := list_reservations taskID page else ReservationsListRejected in
  ownerPermission ← requireOwnerPermission actor (Task.TOwner value);
  mret (ReservationsListed match ownerPermission with
        | None => listed
        | Some _ =>
            match actor with
            | Auth.UserSubject requester => filter (fun r => Task.RequestedBy r = requester) listed
            | _ => []
            end
        end).

Definition CheckSubmissionEligibility : TaskID -> UserID -> MOf Market Tasks.SubmissionEligibilityStoreResult :=
  Tasks.CheckSubmissionEligibility.

End Service.
End TaskService.
