(* ===== verification/TaskSpecs.v ===== *)
(** * What the task store leaves in the database

    A relation per operation of [TaskStore.v] between the
    database before it and the database it commits, and the proofs that each
    operation, in every environment, leaves the database as it was or related. *)

From S2P Require Import Prelude.
From S2P Require Import Core.
From S2P Require Import OrgRoles.
From S2P Require Import Auth.
From S2P Require Import Events.
From S2P Require Import Attachments.
From S2P Require Import TaskValues.
From S2P Require Import LedgerValues.
From S2P Require Import TaskWork.
From S2P Require Import Database.
From S2P Require Import Tx.
From S2P Require Import Outbox.
From S2P Require Import LedgerHelpers.
From S2P Require Import HelperSpecs.
From S2P Require Import ReviewSpecs.
From S2P Require Import StoreSpecs.
From S2P Require Import TaskDB.
From S2P Require Import OrgStore.
From S2P Require Import TaskRows.
From S2P Require Import TaskStore.
From S2P Require Import TaskService.

Local Open Scope string_scope.
Local Open Scope Z_scope.

(** ** Lifting *)

Lemma with_tables_id m : with_tables (tables m) m = m.
Proof. by destruct m. Qed.

Lemma with_tables_twice db db' m : with_tables db (with_tables db' m) = with_tables db m.
Proof. done. Qed.

Lemma wp_on_tables {A env} now (m : M A) (Q : A -> TxStateOf Market -> Prop) base db n :
  wp (at_time now env) m (fun a st => Q a (MkTxState (with_tables (st_base st) base) (with_tables (st_db st) db) (st_step st)))
    (MkTxState (tables base) (tables db) n) ->
  wp env (on_tables now m) Q (MkTxState base db n).
Proof. unfold wp, on_tables. cbn [st_base st_db st_step]. by destruct (m _ _). Qed.

Lemma forward_on_tables {A} now (m : M A) : forward m -> forward (on_tables now m).
Proof. intros Hm env st. specialize (Hm (at_time now env) (MkTxState (tables (st_base st)) (tables (st_db st)) (st_step st))). unfold on_tables. by destruct (m _ _). Qed.

Lemma wp_server_time {W : World} {env : Env} (Q : Z -> TxStateOf Market -> Prop) st :
  Q (server_now (st_step st)) st -> wp env server_time Q st.
Proof. done. Qed.

Section Generated.
Context {W : World} {env : Env}.
Lemma wp_new_ledger_entry_id Q st : (forall r, Q r (tick st)) -> wp env NewLedgerEntryID Q st.
Proof. intros H. apply H. Qed.
Lemma wp_new_task_id Q st : (forall r, Q r (tick st)) -> wp env NewTaskID Q st.
Proof. intros H. apply H. Qed.
Lemma wp_new_series_id Q st : (forall r, Q r (tick st)) -> wp env NewTaskSeriesID Q st.
Proof. intros H. apply H. Qed.
Lemma wp_new_reservation_id Q st : (forall r, Q r (tick st)) -> wp env NewTaskReservationID Q st.
Proof. intros H. apply H. Qed.
End Generated.

Lemma task_row_Some task m row columns :
  task_row task m = Some (row, columns) <-> tasks (tables m) !! task = Some row /\ task_columns m !! task = Some columns.
Proof. unfold task_row. rewrite bind_Some. setoid_rewrite bind_Some. naive_solver. Qed.

(** One step of the task store's code. *)
Ltac tk_prim :=
  first
    [ wp_prim
    | lazymatch goal with
      | |- wp _ (check _ _ _) _ _ => apply wp_check
      | |- wp _ (attempt _ _ _) _ _ => apply wp_attempt
      | |- wp _ server_time _ _ => apply wp_server_time
      | |- wp _ (stmt _) _ _ => apply wp_stmt
      | |- wp _ NewLedgerEntryID _ _ => apply wp_new_ledger_entry_id; intros ?
      | |- wp _ NewTaskID _ _ => apply wp_new_task_id; intros ?
      | |- wp _ NewTaskSeriesID _ _ => apply wp_new_series_id; intros ?
      | |- wp _ NewTaskReservationID _ _ => apply wp_new_reservation_id; intros ?
      | |- wp _ (on_tables _ (exec _)) _ _ => apply wp_on_tables, wp_exec
      | |- wp _ (on_tables _ (query_row _)) _ _ => apply wp_on_tables, wp_query_row
      end ].

(** The branches that fail, [Hf] saying that a failure changes nothing. *)
Ltac tk_fail Hf := repeat tk_prim; cbn; rewrite ?with_tables_id; by apply Hf.

Section TaskSpecs.
Context `{UUIDLib, URLLib, World} {env : Env}.
Implicit Types (base db m : Market) (n k : nat).

(** ** Escrow *)

(** The credits held for a task, if any, are back with their funder. *)
Inductive credit_refunded (now : Z) (t : TaskID) (key : option string) (d : DB) : DB -> Prop :=
| refunds_nothing : task_funds d !! TypedID_String t = None -> credit_refunded now t key d d
| refunds_fund fund entryID d1 :
    task_funds d !! TypedID_String t = Some fund ->
    insert_ledger_entry (new_entry entryID (fund_account_id fund) "task_refund" (fund_credit_amount fund) (Some t) key "" now) d = inr d1 ->
    credit_refunded now t key d (drop_fund t d1).

Lemma refundTaskCreditFunding_wp now t key base db n (Q : option DomainError -> TxStateOf Market -> Prop) :
  (forall reason st, st_base st = base -> Q (Some reason) st) ->
  (forall d k, credit_refunded now t key (tables db) d -> Q None (MkTxState base (with_tables d db) k)) ->
  wp env (Tasks.refundTaskCreditFunding now t key) Q (MkTxState base db n).
Proof.
  intros Hf Hs. unfold Tasks.refundTaskCreditFunding. apply wp_bind.
  tk_prim; cbn; rewrite !with_tables_id; [tk_fail Hf|].
  destruct (task_funds (tables db) !! TypedID_String t) as [fund|] eqn:E; cbn.
  - do 2 tk_prim. destruct r as [entryID|]; [|tk_fail Hf]. cbn.
    do 2 tk_prim; cbn -[insert_ledger_entry]; rewrite ?with_tables_id; [by apply Hf|].
    destruct (insert_ledger_entry _ (tables db)) as [|d1] eqn:Ei; cbn; rewrite ?with_tables_id; [by apply Hf|].
    do 2 tk_prim; cbn; rewrite ?with_tables_id; [by apply Hf|]. tk_prim. apply Hs. by econstructor.
  - tk_prim. cbn. rewrite <- (with_tables_id db). apply Hs. by constructor.
Qed.

(** The collectibles held for a task are minted again. *)
Definition held_released (t : TaskID) (d d' : DB) : Prop :=
  (held_collectibles (TypedID_String t) d = [] /\ d' = d) \/
  (held_collectibles (TypedID_String t) d <> [] /\ d' = release_held (set_col_state "minted") t d).

Lemma refundHeld_wp now t base db n (Q : option DomainError -> TxStateOf Market -> Prop) :
  (forall reason st, st_base st = base -> Q (Some reason) st) ->
  (forall d k, held_released t (tables db) d -> Q None (MkTxState base (with_tables d db) k)) ->
  wp env (on_tables now (refundHeldCollectibleReward t)) Q (MkTxState base db n).
Proof.
  intros Hf Hs. apply wp_on_tables, refundHeldCollectibleReward_wp; cbn.
  - intros reason st ->. rewrite with_tables_id. by apply Hf.
  - intros d k Hd. rewrite with_tables_id. by apply Hs.
Qed.

Lemma lockedHolders_wp now task base db n (Q : DomainError + list UserID -> TxStateOf Market -> Prop) :
  (forall reason st, st_base st = base -> Q (inl reason) st) ->
  (forall us k, parse_users (holders_of task (tables db)) us -> Q (inr us) (MkTxState base db k)) ->
  wp env (on_tables now (lockedReservationHolders task)) Q (MkTxState base db n).
Proof.
  intros Hf Hs. apply wp_on_tables, lockedReservationHolders_wp; cbn.
  - intros reason st ->. rewrite with_tables_id. by apply Hf.
  - intros us k Hu. rewrite !with_tables_id. by apply Hs.
Qed.

Lemma releaseHolders_wp now t base db n (Q : option DomainError -> TxStateOf Market -> Prop) :
  (forall reason st, st_base st = base -> Q (Some reason) st) ->
  (forall d k, update_reservations (non_terminal (TypedID_String t)) "cancelled_by_requester" (tables db) = inr d ->
     Q None (MkTxState base (with_tables d db) k)) ->
  wp env (on_tables now (releaseReservationsOnCancel t)) Q (MkTxState base db n).
Proof.
  intros Hf Hs. apply wp_on_tables, releaseReservationsOnCancel_wp; cbn.
  - intros reason st ->. rewrite with_tables_id. by apply Hf.
  - intros d k Hd. rewrite with_tables_id. by apply Hs.
Qed.

Lemma recordDraft_wp now draft base db n (Q : option StmtError -> TxStateOf Market -> Prop) :
  (forall err st, st_base st = base -> Q (Some err) st) ->
  (forall d k, recorded (tables db) [draft] d -> Q None (MkTxState base (with_tables d db) k)) ->
  wp env (on_tables now (recordEventDraftInTx draft)) Q (MkTxState base db n).
Proof.
  intros Hf Hs. apply wp_on_tables, recordEventDraft_wp; cbn.
  - intros err st ->. rewrite with_tables_id. by apply Hf.
  - intros d k Hd. rewrite with_tables_id. by apply Hs.
Qed.

Lemma credit_refunded_frame now t key d d' :
  credit_refunded now t key d d' ->
  tasks d' = tasks d /\ task_reservations d' = task_reservations d /\ collectibles d' = collectibles d /\
  task_fund_collectibles d' = task_fund_collectibles d /\ submissions d' = submissions d /\ users d' = users d /\
  domain_events d' = domain_events d.
Proof. destruct 1 as [|fund id d1 _ [-> _]%insert_ledger_entry_inr]; done. Qed.

Lemma held_released_frame t d d' :
  held_released t d d' ->
  tasks d' = tasks d /\ task_reservations d' = task_reservations d /\ task_funds d' = task_funds d /\
  ledger_entries d' = ledger_entries d /\ submissions d' = submissions d /\ users d' = users d /\ domain_events d' = domain_events d.
Proof. by intros [[_ ->]|[_ ->]]. Qed.

Lemma holders_of_frame task d d' : task_reservations d' = task_reservations d -> holders_of task d' = holders_of task d.
Proof. unfold holders_of. by intros ->. Qed.

(** Both halves of the escrow of a task, back with the funder. *)
Definition escrow_returned (now : Z) (t : TaskID) (key : option string) (d d' : DB) : Prop :=
  exists d1, credit_refunded now t key d d1 /\ held_released t d1 d'.

Lemma return_escrow_wp now t key base db n (Q : option DomainError -> TxStateOf Market -> Prop) :
  (forall reason st, st_base st = base -> Q (Some reason) st) ->
  (forall d k, escrow_returned now t key (tables db) d -> Q None (MkTxState base (with_tables d db) k)) ->
  wp env (do* Tasks.refundTaskCreditFunding now t key else Some in on_tables now (refundHeldCollectibleReward t)) Q (MkTxState base db n).
Proof.
  intros Hf Hs. apply wp_check, refundTaskCreditFunding_wp; [by intros; apply Hf|]. intros d1 k1 Hd1.
  apply refundHeld_wp; cbn; [by intros; apply Hf|]. intros d2 k2 Hd2. rewrite with_tables_twice. apply Hs. by exists d1.
Qed.

Lemma escrow_returned_frame now t key d d' :
  escrow_returned now t key d d' ->
  tasks d' = tasks d /\ task_reservations d' = task_reservations d /\ submissions d' = submissions d /\ users d' = users d /\
  domain_events d' = domain_events d.
Proof.
  intros (d1 & (Ht & Hr & _ & _ & Hs & Hu & He)%credit_refunded_frame & (Ht' & Hr' & _ & _ & Hs' & Hu' & He')%held_released_frame).
  repeat split; congruence.
Qed.

(** What ends a task: its credits refunded, its collectibles returned, its holders
    [us] found and their reservations cancelled. *)
Inductive settlement (now : Z) (t : TaskID) (key : option string) (d : DB) (us : list UserID) : DB -> Prop :=
| settled_with d2 d3 :
    escrow_returned now t key d d2 ->
    parse_users (holders_of (TypedID_String t) d) us ->
    update_reservations (non_terminal (TypedID_String t)) "cancelled_by_requester" d2 = inr d3 ->
    settlement now t key d us d3.

Lemma settle_cancel_wp now t base db n (Q : DomainError + list UserID -> TxStateOf Market -> Prop) :
  (forall reason st, st_base st = base -> Q (inl reason) st) ->
  (forall us d k, settlement now t None (tables db) us d -> Q (inr us) (MkTxState base (with_tables d db) k)) ->
  wp env (Tasks.settle_cancel now t) Q (MkTxState base db n).
Proof.
  intros Hf Hs. unfold Tasks.settle_cancel, Tasks.settleFundedTaskOnCancel.
  apply wp_check, return_escrow_wp; [by intros; apply Hf|]. intros d2 k2 Hd2.
  apply wp_attempt, lockedHolders_wp; cbn; [by intros; apply Hf|]. intros us k3 Hus.
  apply wp_check, releaseHolders_wp; cbn; [by intros; apply Hf|]. intros d3 k4 Hd3. rewrite with_tables_twice.
  tk_prim. apply Hs. econstructor; [done| |done].
  destruct (escrow_returned_frame _ _ _ _ _ Hd2) as (_ & Hr & _). by rewrite <- (holders_of_frame _ _ _ Hr).
Qed.

(** ** Opening *)

(** A declared credit reward is escrowed in full, and a collectible one at all. *)
Record reward_escrowed (task : string) (row : TaskRow) (d : DB) : Prop := {
  credit_escrowed : task_reward_kind row = "credit" \/ task_reward_kind row = "bundle" ->
    exists fund, task_funds d !! task = Some fund /\ fund_credit_amount fund = default 0 (task_reward_credit_amount row);
  collectible_escrowed : task_reward_kind row = "collectible" \/ task_reward_kind row = "bundle" -> 1 <= held_count task d
}.

Lemma openable_reward_wp env' (t : TaskID) (d0 d : DB) n (Q : option DomainError -> TxState -> Prop) :
  (forall reason st, st_base st = d0 -> Q (Some reason) st) ->
  (forall row k, tasks d !! TypedID_String t = Some row -> reward_escrowed (TypedID_String t) row d -> Q None (MkTxState d0 d k)) ->
  wp env' (Tasks.openable_reward t) Q (MkTxState d0 d n).
Proof.
  intros Hf Hs. unfold Tasks.openable_reward. tk_prim.
  tk_prim; cbn [st_db]; [by apply Hf|].
  destruct (tasks d !! TypedID_String t) as [row|] eqn:Hrow; cbn [required]; rewrite ?bind_inr, ?bind_inl; cbv beta iota; [|by apply Hf].
  assert (forall k, (task_reward_kind row = "credit" \/ task_reward_kind row = "bundle" ->
      exists fund, task_funds d !! TypedID_String t = Some fund /\ fund_credit_amount fund = default 0 (task_reward_credit_amount row)) ->
    wp env' (if bool_decide (task_reward_kind row = "collectible" \/ task_reward_kind row = "bundle") then
      let* held := query_row (fun db : DB => inr (held_count (TypedID_String t) db))
      else fun _ => Some (invalid_state "check collectible reward funding failed") in
      mret (if held <? 1 then Some (conflict "collectible reward must be funded before opening") else None)
    else mret None) Q (MkTxState d0 d k)) as Hcol.
  { intros k Hcredit. case_bool_decide as Hk; [|tk_prim; eapply Hs; eauto; by split].
    do 2 tk_prim; cbn -[held_count]; [by apply Hf|]. tk_prim. destruct (Z.ltb_spec (held_count (TypedID_String t) d) 1); [by apply Hf|].
    by eapply Hs; eauto; split. }
  destruct (decide (task_reward_kind row = "credit" \/ task_reward_kind row = "bundle")) as [Hk|Hk];
    [rewrite (bool_decide_true (_ = "credit" \/ _)) by done|rewrite (bool_decide_false (_ = "credit" \/ _)) by done; by apply Hcol].
  do 2 tk_prim; cbn; [by apply Hf|]. destruct (task_funds d !! TypedID_String t) as [fund|] eqn:Hfund; cbn; [|by apply Hf].
  destruct (Z.eqb_spec (fund_credit_amount fund) (default 0 (task_reward_credit_amount row))); cbn [negb]; [|tk_prim; by apply Hf].
  apply Hcol. intros _. by exists fund.
Qed.

(** ** State changes *)

Inductive plan_drafts (plan : Plan) (raw : string) (us : list UserID) : list Draft -> Prop :=
| plan_silent : plan = NoEvent -> plan_drafts plan raw us []
| plan_records draft creator : plan = RecordDraft draft -> ParseUserID raw = TypedIDCreated creator ->
    plan_drafts plan raw us [WithRecipients draft (creator :: us)].

Inductive state_changed (t : TaskID) (state : Task.State) (plan : Plan) (m : Market) : list Draft -> Market -> Prop :=
| state_changed_to now row us d1 d2 ds d3 :
    tasks (tables m) !! TypedID_String t = Some row ->
    (state = Task.StateOpen -> reward_escrowed (TypedID_String t) row (tables m)) ->
    (if decide (state = Task.StateCancelled) then settlement now t None (tables m) us d1 else us = [] /\ d1 = tables m) ->
    update_task_state (TypedID_String t) (Task.State_String state) d1 = inr d2 ->
    plan_drafts plan (task_created_by_user_id row) us ds ->
    recorded d2 ds d3 ->
    state_changed t state plan m ds (with_tables d3 m).

Lemma record_plan_wp now plan raw us base db n (Q : DomainError + list Draft -> TxStateOf Market -> Prop) :
  (forall reason st, st_base st = base -> Q (inl reason) st) ->
  (forall ds d k, plan_drafts plan raw us ds -> recorded (tables db) ds d -> Q (inr ds) (MkTxState base (with_tables d db) k)) ->
  wp env (Tasks.record_plan now plan raw us) Q (MkTxState base db n).
Proof.
  intros Hf Hs. unfold Tasks.record_plan. destruct plan as [|draft].
  - tk_prim. rewrite <- (with_tables_id db). apply Hs; constructor. done.
  - unfold parseReviewWorker. destruct (ParseUserID raw) as [creator|] eqn:E; [|tk_prim; by apply Hf].
    apply wp_check, recordDraft_wp; [by intros; apply Hf|]. intros d k Hd. tk_prim. apply Hs; [|done]. by econstructor.
Qed.

(** A read of the pool after the commit. *)
Lemma FindTask_wp t st (Q : Tasks.FindTaskStoreResult -> TxStateOf Market -> Prop) :
  (forall r st', st_base st' = st_base st -> st_db st' = st_db st -> Q r st') -> wp env (Tasks.FindTask t) Q st.
Proof. intros HQ. unfold Tasks.FindTask. apply wp_bind, read_rows_wp. intros r st' Hb Hd _. tk_prim. by apply HQ. Qed.

Definition change_result (r : Tasks.ChangeTaskStateStoreResult) (ds : list Draft) : Prop :=
  match r with Tasks.ChangeTaskStateStoreAccepted _ recorded => recorded = ds | Tasks.ChangeTaskStateStoreRejected _ => True end.

(** The change is all or nothing; an accepted result has committed. *)
Definition change_outcome (t : TaskID) (state : Task.State) (plan : Plan) (m : Market) (r : Tasks.ChangeTaskStateStoreResult) (m' : Market) : Prop :=
  ((exists reason, r = Tasks.ChangeTaskStateStoreRejected reason) /\ m' = m) \/
  (exists ds, state_changed t state plan m ds m' /\ change_result r ds).

Lemma ChangeTaskState_wp t state plan st (Q : Tasks.ChangeTaskStateStoreResult -> TxStateOf Market -> Prop) :
  (forall r st', change_outcome t state plan (st_base st) r (st_base st') -> Q r st') ->
  wp env (Tasks.ChangeTaskState t state plan) Q st.
Proof.
  intros HQ. destruct st as [m db0 n]. cbn [st_base] in HQ.
  assert (forall reason st', st_base st' = m -> Q (Tasks.ChangeTaskStateStoreRejected reason) st') as Hf.
  { intros reason st' Hb. apply HQ. left. split; [by eexists|done]. }
  unfold Tasks.ChangeTaskState. do 2 tk_prim; [by apply Hf|]. cbn [st_base st_step]. do 2 tk_prim. cbn [st_step].
  set (now := server_now _). do 2 tk_prim; cbn [st_db]; [by apply Hf|].
  destruct (tasks (tables m) !! TypedID_String t) as [row|] eqn:Hrow; cbn [required]; rewrite ?bind_inr, ?bind_inl; cbv beta iota; [|by apply Hf].
  set (rest := attempt _ _ _).
  assert (forall k, (state = Task.StateOpen -> reward_escrowed (TypedID_String t) row (tables m)) ->
    wp env rest Q (MkTxState m m k)) as Hrest.
  { intros k Hopen. subst rest. apply wp_attempt.
    assert (forall us d1 k1, (if decide (state = Task.StateCancelled) then settlement now t None (tables m) us d1 else us = [] /\ d1 = tables m) ->
      wp env (let* rows := stmt (update_task_state_from (TypedID_String t) (Task.State_String state) (task_state row))
        else fun _ => Tasks.ChangeTaskStateStoreRejected (invalid_state "change task state failed") in
        if negb (rows =? 1) then mret (Tasks.ChangeTaskStateStoreRejected (conflict "task state was not changed")) else
        let* recorded := Tasks.record_plan now plan (task_created_by_user_id row) us else Tasks.ChangeTaskStateStoreRejected in
        do* commit_tx else fun _ => Tasks.ChangeTaskStateStoreRejected (invalid_state "commit change task state transaction failed") in
        found ← Tasks.FindTask t;
        mret match found with
             | Tasks.FindTaskStoreRejected reason => Tasks.ChangeTaskStateStoreRejected reason
             | Tasks.FindTaskStoreAccepted value _ => Tasks.ChangeTaskStateStoreAccepted value recorded
             end) Q (MkTxState m (with_tables d1 m) k1)) as Htail.
    { intros us d1 k1 Hd1. do 2 tk_prim; cbn [st_db]; [by apply Hf|].
      unfold update_task_state_from. cbn [tables with_tables]. destruct (tasks d1 !! TypedID_String t) as [row1|]; [|tk_fail Hf].
      destruct (String.eqb (task_state row1) (task_state row)); [|tk_fail Hf].
      destruct (update_task_state _ _ d1) as [|d2] eqn:Hd2; [by apply Hf|]. cbn [Z.eqb negb]. rewrite with_tables_twice.
      apply wp_attempt, record_plan_wp; [by intros; apply Hf|]. intros ds d3 k3 Hds Hd3. cbn [tables with_tables] in *.
      do 2 tk_prim; [by apply Hf|]. cbn [st_db st_step]. rewrite with_tables_twice.
      tk_prim. apply FindTask_wp. intros r st' Hb _. cbn in Hb. tk_prim. apply HQ. right. exists ds. rewrite Hb.
      split; [by econstructor|]. by destruct r. }
    unfold Tasks.eqb_state. case_bool_decide as Hc.
    - apply settle_cancel_wp; [by intros; apply Hf|]. intros us d k1 Hd. apply Htail. by rewrite decide_True.
    - tk_prim. rewrite <- (with_tables_id m) at 2. apply Htail. by rewrite decide_False. }
  tk_prim. unfold Tasks.eqb_state. case_bool_decide as Ho; [|tk_prim; by apply Hrest].
  apply wp_on_tables, openable_reward_wp; cbn; rewrite ?with_tables_id.
  - intros reason st' Hb. apply Hf. cbn. by rewrite Hb, with_tables_id.
  - intros row' k Hrow' Hfr. cbn. rewrite ?with_tables_id. apply Hrest. intros _. by rewrite Hrow in Hrow'; simplify_eq.
Qed.

End TaskSpecs.

(** * What the reads of the task service establish

    A found task as its row says it, and what a permission the service grants
    means in the database. *)
Local Open Scope string_scope.
Local Open Scope Z_scope.

(** Take a sequence of fallible steps that succeeded apart. *)
Ltac sum_inv Hs :=
  repeat match type of Hs with
  | mbind _ _ = inr _ => let a := fresh "v" in let E := fresh "Hv" in apply sum_bind_inr in Hs as (a & E & Hs)
  end.

Section TaskReads.
Context `{UUIDLib, URLLib, World}.
Implicit Types (m : Market).

(** ** A task as its row says it *)

Record task_of_row (row : taskBaseRow) (value : Task.Task) : Prop := {
  of_id : outcome (ParseTaskID (b_taskID row)) = inr (Task.ID value);
  of_owner : parseTaskOwner (b_ownerKind row) (b_ownerUserID row) (b_ownerTeamID row) (b_ownerOrganizationID row) = inr (Task.TOwner value);
  of_title : outcome (Task.NewTitle (b_title row)) = inr (Task.TTitle value);
  of_description : outcome (Task.NewDescription (b_description row)) = inr (Task.TDescription value);
  of_type : outcome (ParseTaskType (b_taskType row)) = inr (Task.Type_ value);
  of_reference : outcome (NewReferenceURL (b_referenceURL row)) = inr (Task.Reference value);
  of_state : outcome (Task.ParseState (b_state row)) = inr (Task.TState value);
  of_reward : parseRewardSpec (b_rewardKind row) (b_rewardCreditAmount row) (b_rewardCollectibleCount row) = inr (Task.Reward value);
  of_participation : outcome (Task.ParseParticipationPolicy (b_participationPolicy row)) = inr (Task.Participation value);
  of_scope : outcome (Task.ParseAssigneeScope (b_assigneeScope row)) = inr (Task.TAssigneeScope value);
  of_ttl : outcome (Task.NewReservationTTL (b_reservationTTLHours row)) = inr (Task.TReservationTTL value);
  of_visibility : parseTaskVisibility (b_visibilityKind row) (b_visibilityUserID row) (b_visibilityTeamID row) (b_visibilityOrganizationID row) =
    inr (Task.TVisibility value);
  of_placement : parseSeriesPlacement (b_seriesID row) (b_seriesPosition row) = inr (Task.Placement value);
  of_schema : outcome (Task.NewResponseSchemaSource (b_responseSchema row)) = inr (Task.ResponseSchema value);
  of_payload : parseDataPayload (b_payloadKind row) (b_payload row) = inr (Task.Payload value);
  of_creator : outcome (ParseUserID (b_createdBy row)) = inr (Task.CreatedBy value);
  of_attachments : parseStoredAttachments (b_attachments row) = inr (Task.Attachments value);
  of_expiration : parseStoredExpiration (b_expiresAt row) = inr (Task.Expiration value)
}.

Lemma parseTaskRow_inr row value : parseTaskRow row = inr value -> task_of_row row value.
Proof. unfold parseTaskRow. intros Hs. sum_inv Hs. injection Hs as <-. by split. Qed.

(** A found task is the one row of the select. *)
Inductive task_found (t : TaskID) (m : Market) (value : Task.Task) : Prop :=
| found_row row columns vis :
    task_row (TypedID_String t) m = Some (row, columns) ->
    vis ∈ task_visibility_scopes m -> vis_task_id vis = TypedID_String t ->
    task_of_row (base_row m (TypedID_String t) row columns vis) value -> task_found t m value.

Lemma task_select_elem t m r name :
  (r, name) ∈ task_select t m ->
  exists row columns vis, task_row t m = Some (row, columns) /\ vis ∈ task_visibility_scopes m /\ vis_task_id vis = t /\
    r = base_row m t row columns vis.
Proof.
  unfold task_select. intros (vis & Hr & [Ht Hvis]%list_elem_of_filter)%list_elem_of_bind.
  destruct (task_row t m) as [[row columns]|]; [|by apply not_elem_of_nil in Hr]. destruct (profiles m !! _); [|by apply not_elem_of_nil in Hr].
  apply list_elem_of_singleton in Hr. injection Hr as -> _. by exists row, columns, vis.
Qed.

Lemma FindTask_found env t st (Q : Tasks.FindTaskStoreResult -> TxStateOf Market -> Prop) :
  (forall reason st', st_base st' = st_base st -> st_db st' = st_db st -> Q (Tasks.FindTaskStoreRejected reason) st') ->
  (forall value name st', st_base st' = st_base st -> st_db st' = st_db st -> task_found t (st_base st) value ->
     Q (Tasks.FindTaskStoreAccepted value name) st') ->
  wp env (Tasks.FindTask t) Q st.
Proof.
  intros Hf Hs. unfold Tasks.FindTask. apply wp_bind, read_rows_wp. intros r st' Hb Hd Hr. tk_prim.
  destruct r as [reason|rows]; [by apply Hf|]. destruct rows as [|[value name] [|]]; [by apply Hf| |by apply Hf].
  apply Hs; [done..|]. apply Forall2_cons_inv_r in Hr as ([row rawName] & rows & Hparse & _ & Hrows).
  unfold parse_found in Hparse. sum_inv Hparse. injection Hparse as -> _. cbn in *.
  destruct (task_select_elem (TypedID_String t) (st_base st) row rawName) as (trow & columns & vis & Hrow & Hvis & Hid & ->).
  { rewrite Hrows. by left. }
  econstructor; [done..|]. by apply parseTaskRow_inr.
Qed.

(** ** Permissions *)

(** The member's roles in the organization grant the permission. *)
Definition member_permits (organization : OrganizationID) (user : UserID) (permission : Permission) (m : Market) : Prop :=
  exists roles, Forall2 (fun raw role => Org.parse_role raw = inr role)
    (merge_sort (fun a b => String.leb a b) (member_roles (TypedID_String organization) (TypedID_String user) (tables m))) roles /\
    CheckPermission roles permission = PermissionGranted.

(** Who may act for the owner of a task. *)
Definition acts_for (actor : Auth.Subject) (owner : Task.Owner) (m : Market) : Prop :=
  match actor with
  | Auth.UserSubject user =>
      owner = Task.UserOwner user \/
      exists organization, TaskService.organizationIDForOwner owner = Some organization /\
        member_permits organization user PermissionCreateOrganizationTask m
  | Auth.OrgSubject organization => TaskService.organizationIDForOwner owner = Some organization
  | Auth.GuestSubject _ => False
  end.

Lemma requirePermission_wp env organization user permission st (Q : PermissionCheck -> TxStateOf Market -> Prop) :
  (forall reason st', st_base st' = st_base st -> st_db st' = st_db st -> Q (PermissionDenied reason) st') ->
  (forall st', st_base st' = st_base st -> st_db st' = st_db st -> member_permits organization user permission (st_base st) -> Q PermissionGranted st') ->
  wp env (Org.CheckOrganizationPermission organization user permission) Q st.
Proof.
  intros Hf Hs. unfold Org.CheckOrganizationPermission, Org.requirePermission, Org.FindMemberRoles. do 2 tk_prim.
  apply read_rows_wp. intros r st' Hb Hd Hr. do 2 tk_prim. destruct r as [reason|[|role roles]]; [by apply Hf..|].
  destruct (CheckPermission _ _) eqn:E; [|by apply Hf]. apply Hs; [done..|]. by eexists.
Qed.

Lemma requireOwnerPermission_wp env actor owner st (Q : option DomainError -> TxStateOf Market -> Prop) :
  (forall reason st', st_base st' = st_base st -> st_db st' = st_db st -> Q (Some reason) st') ->
  (forall st', st_base st' = st_base st -> st_db st' = st_db st -> acts_for actor owner (st_base st) -> Q None st') ->
  wp env (TaskService.requireOwnerPermission actor owner) Q st.
Proof.
  intros Hf Hs. unfold TaskService.requireOwnerPermission. destruct actor as [user|guest|organization]; cbn [acts_for] in Hs.
  - assert (forall organization, TaskService.organizationIDForOwner owner = Some organization ->
      wp env (TaskService.organization_access (Auth.UserSubject user) organization "task owner access denied") Q st) as Horg.
    { intros organization Ho. unfold TaskService.organization_access, Auth.RequireOrganizationAccess. cbn [Auth.orgactor_Check].
      do 2 tk_prim. apply requirePermission_wp.
      - intros reason st' Hb Hd. do 2 tk_prim. by apply Hf.
      - intros st' Hb Hd Hp. do 2 tk_prim. apply Hs; [done..|]. right. by exists organization. }
    destruct owner as [id| |organization|organization team]; [|tk_prim; by apply Hf|by apply Horg..].
    tk_prim. case_bool_decide as E; [|by apply Hf]. apply Hs; [done..|]. left. by rewrite E.
  - tk_prim. by apply Hf.
  - tk_prim. case_bool_decide; [by apply Hs|by apply Hf].
Qed.

End TaskReads.
