(* ===== verification/SweepSpecs.v ===== *)
(** * What the lifecycle sweeps and the reservations leave

    The relations of the sweeps and of the reservation operations of
    [TaskStore.v], in the manner of [TaskSpecs.v]: what one commit of each does. *)

From S2P Require Import Prelude.
From S2P Require Import Core.
From S2P Require Import Auth.
From S2P Require Import Events.
From S2P Require Import TaskValues.
From S2P Require Import TaskWork.
From S2P Require Import LedgerValues.
From S2P Require Import Database.
From S2P Require Import Tx.
From S2P Require Import Outbox.
From S2P Require Import LedgerHelpers.
From S2P Require Import LedgerSpec.
From S2P Require Import HelperSpecs.
From S2P Require Import ReviewSpecs.
From S2P Require Import StoreSpecs.
From S2P Require Import LedgerBehaviour.
From S2P Require Import EscrowSpecs.
From S2P Require Import TaskDB.
From S2P Require Import TaskRows.
From S2P Require Import TaskStore.
From S2P Require Import TaskSpecs.
Local Open Scope string_scope.
Local Open Scope Z_scope.

Section SweepSpecs.
Context `{UUIDLib, URLLib, World}.
Implicit Types (m : Market) (n k : nat).

(** ** Settled tasks *)

Lemma settlement_unencumbered now t key d us d' : settlement now t key d us d' -> unencumbered (TypedID_String t) d'.
Proof.
  intros [d2 d3 (d1 & Hc & Hh) _ Hr]. pose proof (held_released_frame _ _ _ Hh) as (_ & _ & Hf & _).
  apply update_reservations_eq in Hr. subst d3. split; cbn.
  - rewrite Hf. destruct Hc as [Hn|fund id d1 _ _]; [done|]. cbn. apply lookup_delete_eq.
  - destruct Hh as [[He ->]|[_ ->]]; [done|]. apply held_collectibles_released.
  - intros i row. rewrite lookup_fmap, fmap_Some. intros (row' & _ & ->). case_match eqn:E; [|done]. by apply non_terminal_set_state.
Qed.

Lemma settlement_lightened now t key d us d' : settlement now t key d us d' -> lightened d d'.
Proof.
  intros [d2 d3 (d1 & Hc & Hh) _ Hr%reservations_lightened]; [|done..]. etrans; [|exact Hr].
  transitivity d1.
  - destruct (credit_refunded_frame _ _ _ _ _ Hc) as (_ & Hres & _ & Hheld & _). split; rewrite ?Hheld, ?Hres; [|done|intros i row Hrow; by exists row].
    destruct Hc as [_|fund id d1 _ [-> _]%insert_ledger_entry_inr]; [done|]. cbn. intros u [f Hu]. apply lookup_delete_Some in Hu as [_ ?]. by exists f.
  - destruct (held_released_frame _ _ _ Hh) as (_ & Hres & Hf & _). split; rewrite ?Hf, ?Hres; [done| |intros i row Hrow; by exists row].
    destruct Hh as [[_ ->]|[_ ->]]; [done|]. cbn. apply map_filter_subseteq.
Qed.

Lemma settlement_tasks now t key d us d' : settlement now t key d us d' -> tasks d' = tasks d.
Proof.
  intros [d2 d3 Hc _ Hr]. apply update_reservations_eq in Hr. subst d3. cbn. by apply escrow_returned_frame in Hc as [-> _].
Qed.

(** ** Expired tasks *)

Definition expire_key (t : TaskID) : option string := Some ("expire:" +:+ TypedID_String t).

(** One task expired: it was open and due, and is settled, with its event recorded
    for its owner and the holders it had. *)
Inductive task_expired (t : TaskID) (m : Market) (draft : Draft) : Market -> Prop :=
| task_expired_at now row columns owner us id d1 d2 d3 :
    task_row (TypedID_String t) m = Some (row, columns) ->
    due_at (tc_expires_at columns) now = true -> task_state row = "open" ->
    ParseUserID (task_created_by_user_id row) = TypedIDCreated owner ->
    settlement now t (expire_key t) (tables m) us d1 ->
    update_task_state (TypedID_String t) "expired" d1 = inr d2 ->
    draft = MkDraft id KindTaskExpired ActorSystem (set_Task (TaskSubject t) NoSubjectRefs) (TaskMetadata t) (NewRecipients (owner :: us)) ->
    recorded d2 [draft] d3 ->
    task_expired t m draft (with_tables d3 m).

Context {env : Env}.

Lemma record_expired_wp now t owner us base db n (Q : DomainError + Draft -> TxStateOf Market -> Prop) :
  (forall reason st, st_base st = base -> Q (inl reason) st) ->
  (forall id d k, let draft := MkDraft id KindTaskExpired ActorSystem (set_Task (TaskSubject t) NoSubjectRefs) (TaskMetadata t) (NewRecipients (owner :: us)) in
     recorded (tables db) [draft] d -> Q (inr draft) (MkTxState base (with_tables d db) k)) ->
  wp env (Sweeps.record_expired now t owner us) Q (MkTxState base db n).
Proof.
  intros Hf Hs. unfold Sweeps.record_expired. do 2 tk_prim. destruct r as [id|]; cbn [NewDraft]; [|tk_prim; by apply Hf].
  apply wp_check, recordDraft_wp; [by intros; apply Hf|]. intros d k Hd. tk_prim. by apply (Hs id).
Qed.

(** An identifier as the database prints it. *)
Definition canonical (raw : string) : Prop := forall t, ParseTaskID raw = TypedIDCreated t -> TypedID_String t = raw.

(** What the sweep does to one listed task. *)
Definition expire_outcome (raw : string) (from : nat) (m : Market) (r : Sweeps.expireOneTaskResult) (m' : Market) : Prop :=
  match r with
  | Sweeps.expireOneTaskExpired draft => exists t, TypedID_String t = raw /\ task_expired t m draft m'
  | Sweeps.expireOneTaskSkipped => m' = m /\
      exists k, (from <= k)%nat /\ forall row columns, task_row raw m = Some (row, columns) -> task_state row = "open" -> due_at (tc_expires_at columns) (server_now k) = false
  | Sweeps.expireOneTaskRejected _ => m' = m
  end.

Lemma lock_due_inr raw now m state owner :
  Sweeps.lock_due raw now m = inr (state, owner) <->
  exists row columns, task_row raw m = Some (row, columns) /\ due_at (tc_expires_at columns) now = true /\
    state = task_state row /\ owner = task_created_by_user_id row.
Proof.
  unfold Sweeps.lock_due. destruct (task_row raw m) as [[row columns]|]; cbn [required]; rewrite ?bind_inr, ?bind_inl; [|by split; [|intros (?&?&?&_)]].
  split.
  - destruct (due_at _ _) eqn:E; intros [= <- <-]. by exists row, columns.
  - intros (? & ? & [= <- <-] & -> & -> & ->). done.
Qed.

Lemma lock_due_inl raw now m err :
  Sweeps.lock_due raw now m = inl err ->
  forall row columns, task_row raw m = Some (row, columns) -> due_at (tc_expires_at columns) now = false.
Proof.
  unfold Sweeps.lock_due. intros E row columns Hrow. rewrite Hrow in E. cbn [required] in E. rewrite bind_inr in E.
  by destruct (due_at _ _).
Qed.

Lemma expire_locked_wp now t owner row columns m n (Q : Sweeps.expireOneTaskResult -> TxStateOf Market -> Prop) :
  task_row (TypedID_String t) m = Some (row, columns) ->
  due_at (tc_expires_at columns) now = true -> task_state row = "open" ->
  ParseUserID (task_created_by_user_id row) = TypedIDCreated owner ->
  (forall reason st, st_base st = m -> Q (Sweeps.expireOneTaskRejected reason) st) ->
  (forall draft m' st, st_base st = m' -> task_expired t m draft m' -> Q (Sweeps.expireOneTaskExpired draft) st) ->
  wp env (Sweeps.expire_locked now t owner) Q (MkTxState m m n).
Proof.
  intros Hrow Hdue Hopen Howner Hf Hs. unfold Sweeps.expire_locked.
  apply wp_attempt, lockedHolders_wp; [by intros; apply Hf|]. intros us k1 Hus.
  apply wp_check, return_escrow_wp; [by intros; apply Hf|]. intros d0 k0 Hd0.
  apply wp_check, releaseHolders_wp; [by intros; apply Hf|]. intros d1 k2 Hd1. cbn [tables with_tables] in Hd1. rewrite with_tables_twice.
  assert (settlement now t (expire_key t) (tables m) us d1) as Hset by by econstructor.
  do 2 tk_prim; cbn [st_db]; [by apply Hf|]. unfold update_task_state_from. cbn [tables with_tables].
  rewrite (settlement_tasks _ _ _ _ _ _ Hset). apply task_row_Some in Hrow as Htask. destruct Htask as [Htask _].
  rewrite Htask, Hopen. cbn [String.eqb Task.State_String Ascii.eqb Bool.eqb].
  destruct (update_task_state _ _ d1) as [|d2] eqn:Hd2; [by apply Hf|]. cbn [Z.eqb negb]. rewrite with_tables_twice.
  apply wp_attempt, record_expired_wp; [by intros; apply Hf|]. intros id d3 k3 draft Hd3. cbn [tables with_tables] in Hd3.
  rewrite with_tables_twice. do 2 tk_prim; [by apply Hf|]. tk_prim. eapply Hs; [done|]. by econstructor.
Qed.

Lemma expireOneTask_wp raw st (Q : Sweeps.expireOneTaskResult -> TxStateOf Market -> Prop) :
  canonical raw ->
  (forall r st', expire_outcome raw (st_step st) (st_base st) r (st_base st') -> Q r st') ->
  wp env (Sweeps.expireOneTask raw) Q st.
Proof.
  intros Hraw HQ. destruct st as [m db0 n]. cbn [st_base st_step] in HQ.
  assert (forall reason st', st_base st' = m -> Q (Sweeps.expireOneTaskRejected reason) st') as Hf by (intros; by apply HQ).
  unfold Sweeps.expireOneTask. destruct (ParseTaskID raw) as [t|] eqn:Ht; [|tk_prim; by apply Hf].
  do 2 tk_prim; [by apply Hf|]. cbn [st_base st_step]. do 2 tk_prim. cbn [st_step]. set (now := server_now (S n)).
  do 2 tk_prim; cbn [st_db]; [tk_prim; by apply Hf|].
  destruct (Sweeps.lock_due raw now m) as [err|[state rawOwner]] eqn:Hlock.
  - assert (Q Sweeps.expireOneTaskSkipped (tick (MkTxState m m (S n)))) as Hskip.
    { apply HQ. split; [done|]. exists (S n). split; [lia|]. intros row columns Hrow _. by eapply lock_due_inl. }
    destruct err; tk_prim; [exact Hskip|by apply Hf..].
  - apply lock_due_inr in Hlock as (row & columns & Hrow & Hdue & -> & ->).
    destruct (String.eqb_spec (task_state row) (Task.State_String Task.StateOpen)) as [Hopen|Hopen]; cbn [negb].
    + destruct (ParseUserID _) as [owner|] eqn:Howner; [|tk_prim; by apply Hf]. rewrite <- (Hraw _ Ht) in Hrow.
      eapply expire_locked_wp; [done..| |].
      * by intros; apply Hf.
      * intros draft m' st' Hb Hd. apply HQ. exists t. rewrite Hb. split; [by apply Hraw|done].
    + tk_prim. apply HQ. split; [done|]. exists (S n). split; [lia|]. intros row' columns' Hrow' Hstate. by rewrite Hrow in Hrow'; simplify_eq.
Qed.

(** ** The sweep of due tasks *)

(** The tasks of the list expired one after the other, one event each. *)
Inductive expired_in_turn : list string -> Market -> list Draft -> Market -> Prop :=
| expired_none m : expired_in_turn [] m [] m
| expired_next t raws m draft m1 ds m2 :
    task_expired t m draft m1 -> expired_in_turn raws m1 ds m2 ->
    expired_in_turn (TypedID_String t :: raws) m (draft :: ds) m2.

Definition open_and_due (now : Z) (m : Market) (raw : string) : Prop :=
  exists row columns, task_row raw m = Some (row, columns) /\ task_state row = "open" /\ due_at (tc_expires_at columns) now = true.

Lemma due_tasks_elem now m raw : raw ∈ Sweeps.due_tasks now m <-> open_and_due now m raw.
Proof.
  unfold Sweeps.due_tasks. rewrite merge_sort_Permutation, list_elem_of_fmap. setoid_rewrite list_elem_of_filter.
  setoid_rewrite elem_of_map_to_list'. unfold Sweeps.is_due_task, Sweeps.task_expires_at, open_and_due. setoid_rewrite task_row_Some. split.
  - intros ([id row] & -> & [Hopen Hdue] & Hrow). cbn in *. destruct (task_columns m !! id) as [columns|] eqn:Hc; [|done]. eauto 10.
  - intros (row & columns & [Hrow Hc] & Hopen & Hdue). exists (raw, row). cbn. by rewrite Hc.
Qed.

Lemma due_tasks_NoDup now m : NoDup (Sweeps.due_tasks now m).
Proof.
  unfold Sweeps.due_tasks. rewrite merge_sort_Permutation.
  apply NoDup_fmap_fst; [|apply list.NoDup_filter; apply NoDup_map_to_list].
  intros k r1 r2 [_ E1]%list_elem_of_filter [_ E2]%list_elem_of_filter. apply elem_of_map_to_list in E1, E2. congruence.
Qed.

(** The server's clock does not go back. *)
Definition clock_advances : Prop := forall i j, (i <= j)%nat -> server_now i <= server_now j.

Lemma due_at_later expires now now' : now <= now' -> due_at expires now = true -> due_at expires now' = true.
Proof. destruct expires as [t|]; cbn; [|done]. rewrite !Z.leb_le. lia. Qed.

Lemma task_expired_others t m draft m' raw :
  task_expired t m draft m' -> raw <> TypedID_String t -> task_row raw m' = task_row raw m.
Proof.
  intros [now row columns owner us id d1 d2 d3 _ _ _ _ Hs Hu _ Hr] Hne. apply recorded_with_events in Hr as (e & r & ->).
  assert (tasks d2 !! raw = tasks (tables m) !! raw) as E.
  { rewrite <- (settlement_tasks _ _ _ _ _ _ Hs). by apply (update_task_state_others _ _ _ _ _ Hu). }
  unfold task_row. cbn. by rewrite E.
Qed.

Lemma forward_scan_users failure raws : forward (scan_users failure raws).
Proof. induction raws; cbn [scan_users]; forward_go. Qed.

Lemma forward_lockedHolders task : forward (lockedReservationHolders task).
Proof. unfold lockedReservationHolders. pose proof forward_scan_users. forward_go. Qed.

Lemma forward_scan_collectible_ids raws : forward (scan_collectible_ids raws).
Proof. induction raws; cbn [scan_collectible_ids]; forward_go. Qed.

Lemma forward_update_collectibles f ids : forward (update_collectibles f ids).
Proof. induction ids; cbn [update_collectibles]; forward_go. Qed.

Lemma forward_refundHeld t : forward (refundHeldCollectibleReward t).
Proof.
  unfold refundHeldCollectibleReward, heldFundCollectibleIDs.
  pose proof forward_scan_collectible_ids. pose proof forward_update_collectibles. forward_go.
Qed.

Lemma forward_releaseHolders t : forward (releaseReservationsOnCancel t).
Proof. unfold releaseReservationsOnCancel. forward_go. Qed.

Lemma forward_insert_recipients sequence us : forward (insert_recipients sequence us).
Proof. induction us; cbn [insert_recipients]; forward_go. Qed.

Lemma forward_recordDraft draft : forward (recordEventDraftInTx draft).
Proof. unfold recordEventDraftInTx, insertDomainEventInTx. pose proof forward_insert_recipients. forward_go. Qed.

#[local] Hint Resolve forward_on_tables forward_lockedHolders forward_refundHeld forward_releaseHolders forward_recordDraft : forward.

Lemma forward_server_time : forward server_time.
Proof. by intros ??. Qed.

Lemma forward_event_id {S} : forward (S:=S) NewDomainEventID.
Proof. intros ??. cbn. lia. Qed.

Lemma forward_entry_id : forward NewLedgerEntryID.
Proof. intros ??. cbn. lia. Qed.

#[local] Hint Resolve forward_server_time forward_event_id forward_entry_id : forward.

Lemma forward_expireOneTask raw : forward (Sweeps.expireOneTask raw).
Proof.
  unfold Sweeps.expireOneTask, Sweeps.expire_locked, Sweeps.refundExpiredTaskFunding, Tasks.refundTaskCreditFunding, Sweeps.record_expired.
  forward_go.
Qed.

Lemma wp_forward {S A} (c : MOf S A) (Q : A -> TxStateOf S -> Prop) st :
  forward c -> wp env c (fun a st' => (st_step st <= st_step st')%nat -> Q a st') st -> wp env c Q st.
Proof. intros Hf Hw. unfold wp in *. specialize (Hf env st). destruct (c env st). auto. Qed.

Lemma task_expired_lightened t m draft m' : task_expired t m draft m' -> lightened (tables m) (tables m').
Proof.
  intros [now row columns owner us id d1 d2 d3 _ _ _ _ Hs%settlement_lightened Hu%task_state_lightened _ Hr%recorded_lightened].
  cbn. by etrans; [|etrans].
Qed.

(** The task of an expiry ends expired and unencumbered. *)
Definition ended_as (state task : string) (m : Market) : Prop :=
  (exists row, tasks (tables m) !! task = Some row /\ task_state row = state) /\ unencumbered task (tables m).

Lemma task_expired_ends t m draft m' : task_expired t m draft m' -> ended_as "expired" (TypedID_String t) m'.
Proof.
  intros [now row columns owner us id d1 d2 d3 [Hrow _]%task_row_Some _ _ _ Hs Hu _ Hr]. pose proof (recorded_lightened _ _ _ Hr) as Hl.
  apply recorded_with_events in Hr as (e & r & ->). split; cbn.
  - apply (update_task_state_rows _ _ row) in Hu as ->; [|by rewrite (settlement_tasks _ _ _ _ _ _ Hs)]. cbn. rewrite lookup_insert_eq. by eexists.
  - eapply unencumbered_lightened, unencumbered_lightened, settlement_unencumbered, Hs; [exact Hl|by eapply task_state_lightened].
Qed.

Lemma expired_in_turn_ends raws m ds m' :
  expired_in_turn raws m ds m' -> NoDup raws -> Forall (fun raw => ended_as "expired" raw m') raws.
Proof.
  assert (forall raws m ds m' raw, expired_in_turn raws m ds m' -> raw ∉ raws -> ended_as "expired" raw m -> ended_as "expired" raw m') as Hkeep.
  { clear raws m ds m'. induction 1 as [|t raws m draft m1 ds m2 Ht Hrest IH]; [done|]. intros [Hne Hin]%not_elem_of_cons [(row & Hrow & Hst) Hun].
    apply IH; [done|]. split; [|by eapply unencumbered_lightened, Hun; eapply task_expired_lightened]. exists row. split; [|done].
    destruct Ht as [now row' columns owner us id d1 d2 d3 _ _ _ _ Hs Hu _ (e & r & ->)%recorded_with_events]. cbn.
    by rewrite (update_task_state_others _ _ _ _ _ Hu), (settlement_tasks _ _ _ _ _ _ Hs). }
  induction 1 as [|t raws m draft m1 ds m2 Ht Hrest IH]; intros Hnd; [constructor|]. apply list.NoDup_cons in Hnd as [Hin Hnd].
  constructor; [|by apply IH]. eapply Hkeep; [done..|]. by eapply task_expired_ends.
Qed.

Definition sweep_outcome (raws : list string) (m : Market) (recorded : list Draft) (r : Sweeps.ExpireDueTasksResult) (m' : Market) : Prop :=
  match r with
  | Sweeps.ExpireDueTasksCompleted ds => exists ds', ds = (recorded ++ ds')%list /\ expired_in_turn raws m ds' m'
  | Sweeps.ExpireDueTasksRejected _ => exists done ds', done `prefix_of` raws /\ expired_in_turn done m ds' m'
  end.

Lemma expire_all_wp from raws acc st (Q : Sweeps.ExpireDueTasksResult -> TxStateOf Market -> Prop) :
  clock_advances -> (from <= st_step st)%nat -> NoDup raws -> Forall canonical raws ->
  Forall (open_and_due (server_now from) (st_base st)) raws ->
  (forall r st', sweep_outcome raws (st_base st) acc r (st_base st') -> Q r st') ->
  wp env (Sweeps.expire_all raws acc) Q st.
Proof.
  intros Hclock. revert acc st Q. induction raws as [|raw raws IH]; intros acc st Q Hstep Hnd Hcan Hdue HQ; cbn [Sweeps.expire_all].
  { apply wp_ret, HQ. exists []. split; [by rewrite app_nil_r|constructor]. }
  apply list.NoDup_cons in Hnd as [Hfresh Hnd]. apply List.Forall_cons_iff in Hcan as [Hraw Hcan].
  apply List.Forall_cons_iff in Hdue as [Hopen Hdue].
  apply wp_bind, wp_forward, expireOneTask_wp; [apply forward_expireOneTask|done|]. intros r st1 Hr Hle.
  destruct r as [draft| |reason].
  - destruct Hr as (t & <- & Ht). apply IH; [lia|done|done| |].
    + apply List.Forall_forall. intros other Ho%list_elem_of_In. destruct (Forall_elem _ _ _ Hdue Ho) as (row & columns & Hrow & Hrest).
      exists row, columns. split; [|done]. rewrite (task_expired_others _ _ _ _ other Ht); [done|]. by intros ->.
    + intros r st2 Hr. apply HQ. destruct r as [ds|reason].
      * destruct Hr as (ds' & -> & Hturn). exists (draft :: ds'). split; [by rewrite <- app_assoc|by econstructor].
      * destruct Hr as (done & ds' & Hpre & Hturn). exists (TypedID_String t :: done), (draft :: ds').
        split; [by apply prefix_cons|by econstructor].
  - exfalso. destruct Hr as (_ & k & Hk & Hno). destruct Hopen as (row & columns & Hrow & Hstate & Hd).
    specialize (Hno _ _ Hrow Hstate). rewrite (due_at_later _ (server_now from)) in Hno; [done| |done]. apply Hclock. lia.
  - tk_prim. apply HQ. exists [], []. split; [apply prefix_nil|]. cbn in Hr. rewrite Hr. constructor.
Qed.

End SweepSpecs.
