(* ===== verification/ReservationSpecs.v ===== *)
(** * What the reservations leave

    The relations of the lapsed-reservation sweep and of the reservation operations
    of [TaskStore.v]: what one commit of each does to the database. *)

From S2P Require Import Prelude.
From S2P Require Import Core.
From S2P Require Import Auth.
From S2P Require Import Events.
From S2P Require Import TaskValues.
From S2P Require Import TaskWork.
From S2P Require Import LedgerValues.
From S2P Require Import Database.
From S2P Require Import Tx.
From S2P Require Import Outbox.
From S2P Require Import LedgerHelpers.
From S2P Require Import HelperSpecs.
From S2P Require Import ReviewSpecs.
From S2P Require Import StoreSpecs.
From S2P Require Import TaskDB.
From S2P Require Import TaskRows.
From S2P Require Import TaskStore.
From S2P Require Import TaskSpecs.
Local Open Scope string_scope.
Local Open Scope Z_scope.

Section ReservationSpecs.
Context `{UUIDLib, URLLib, World} {env : Env}.
Implicit Types (m : Market) (n k : nat).

(** ** Lapsed reservations *)

(** The event of a lapsed reservation, for its holder and the task's owner. *)
Definition lapse_draft (m : Market) (released : string * ReservationRow) (draft : Draft) : Prop :=
  exists row t r holder owner id,
    tasks (tables m) !! res_task_id released.2 = Some row /\
    ParseTaskID (res_task_id released.2) = TypedIDCreated t /\ ParseTaskReservationID released.1 = TypedIDCreated r /\
    ParseUserID (res_requested_by_user_id released.2) = TypedIDCreated holder /\
    ParseUserID (task_created_by_user_id row) = TypedIDCreated owner /\
    draft = MkDraft id KindReservationExpired ActorSystem
      (set_Reservation (ReservationSubject r) (set_Task (TaskSubject t) NoSubjectRefs)) (TaskMetadata t) (NewRecipients [holder; owner]).

(** One run of the release: the lapsed reservations expire, each with its event. *)
Inductive lapsed_released (now : Z) (m : Market) (ds : list Draft) : Market -> Prop :=
| lapsed_with released m1 d :
    expire_lapsed now m = (released, m1) -> Forall2 (lapse_draft m1) released ds -> recorded (tables m1) ds d ->
    lapsed_released now m ds (with_tables d m1).

Lemma expiredReservationDraft_wp m1 released base db n (Q : StmtError + Draft -> TxStateOf Market -> Prop) :
  (forall err st, st_base st = base -> Q (inl err) st) ->
  tasks (tables db) = tasks (tables m1) ->
  (forall draft k, lapse_draft m1 released draft -> Q (inr draft) (MkTxState base db k)) ->
  wp env (Tasks.expiredReservationDraft released.1 (res_task_id released.2) (res_requested_by_user_id released.2)) Q (MkTxState base db n).
Proof.
  intros Hf Ht Hs. unfold Tasks.expiredReservationDraft. do 2 tk_prim; cbn [st_db]; [by apply Hf|]. rewrite Ht.
  destruct (tasks (tables m1) !! res_task_id released.2) as [row|] eqn:Hrow; cbn; [|by apply Hf].
  destruct (ParseTaskID _) as [t|] eqn:E1; [|tk_prim; by apply Hf]. destruct (ParseTaskReservationID _) as [r|] eqn:E2; [|tk_prim; by apply Hf].
  destruct (ParseUserID _) as [holder|] eqn:E3; [|tk_prim; by apply Hf].
  destruct (ParseUserID (task_created_by_user_id row)) as [owner|] eqn:E4; [|tk_prim; by apply Hf].
  do 2 tk_prim. destruct r0 as [id|]; tk_prim; [|by apply Hf]. apply Hs. exists row, t, r, holder, owner, id. done.
Qed.

Lemma record_released_wp now m1 released base db n (Q : StmtError + list Draft -> TxStateOf Market -> Prop) :
  (forall err st, st_base st = base -> Q (inl err) st) ->
  tasks (tables db) = tasks (tables m1) ->
  (forall ds d k, Forall2 (lapse_draft m1) released ds -> recorded (tables db) ds d -> Q (inr ds) (MkTxState base (with_tables d db) k)) ->
  wp env (Tasks.record_released now released) Q (MkTxState base db n).
Proof.
  revert db n Q. induction released as [|[reservation row] released IH]; intros db n Q Hf Ht Hs; cbn [Tasks.record_released].
  - tk_prim. rewrite <- (with_tables_id db). apply Hs; constructor.
  - apply wp_attempt, (expiredReservationDraft_wp m1 (reservation, row)); [by intros; apply Hf|done|]. intros draft k Hdraft.
    apply wp_check, recordDraft_wp; [by intros; apply Hf|]. intros d k1 Hd. apply wp_attempt, IH; [by intros; apply Hf| |].
    + apply recorded_with_events in Hd as (e & r & ->). done.
    + intros ds d' k2 Hds Hrec. tk_prim. rewrite with_tables_twice. apply Hs; [by constructor|]. cbn in Hrec. apply (recorded_app _ [draft] _ ds _ Hd Hrec).
Qed.

Lemma scan_released_wp {A} (rows : list A) st (Q : option StmtError -> TxStateOf Market -> Prop) :
  (forall r st', st_base st' = st_base st -> st_db st' = st_db st -> Q r st') -> wp env (Tasks.scan_released rows) Q st.
Proof.
  revert st. induction rows as [|row rows IH]; intros st HQ; cbn [Tasks.scan_released].
  - do 3 tk_prim; by apply HQ.
  - do 2 tk_prim; [tk_prim; by apply HQ|]. apply IH. intros r st' Hb Hd. by apply HQ.
Qed.

Lemma releaseExpiredInTx_wp now base db n (Q : StmtError + list Draft -> TxStateOf Market -> Prop) :
  (forall err st, st_base st = base -> Q (inl err) st) ->
  (forall ds m' k, lapsed_released now db ds m' -> Q (inr ds) (MkTxState base m' k)) ->
  wp env (Tasks.releaseExpiredReservationsInTx now) Q (MkTxState base db n).
Proof.
  intros Hf Hs. unfold Tasks.releaseExpiredReservationsInTx. do 2 tk_prim; cbn [st_db]; [by apply Hf|].
  destruct (expire_lapsed now db) as [released m1] eqn:E. apply wp_check, scan_released_wp. intros [err|] [b d k] Hb Hd; [by apply Hf|].
  cbn in Hb, Hd. subst. eapply record_released_wp; [by intros; apply Hf|done|]. intros ds d k1 Hds Hd. by eapply Hs, lapsed_with.
Qed.

(** The housekeeping transaction the reservation operations start with. *)
Definition housekept (m m' : Market) : Prop := exists now ds, lapsed_released now m ds m'.

Lemma releaseExpired_wp st (Q : option StmtError -> TxStateOf Market -> Prop) :
  (forall err st', st_base st' = st_base st -> Q (Some err) st') ->
  (forall m' k, housekept (st_base st) m' -> Q None (MkTxState m' m' k)) ->
  wp env Tasks.releaseExpiredReservations Q st.
Proof.
  intros Hf Hs. unfold Tasks.releaseExpiredReservations. do 2 tk_prim; [by apply Hf|]. do 2 tk_prim.
  apply wp_attempt, releaseExpiredInTx_wp; [by intros; apply Hf|]. intros ds m' k Hm.
  tk_prim; [by apply Hf|]. cbn. apply Hs. by eexists _, _.
Qed.

Lemma ExpireDueReservations_wp st (Q : Sweeps.ExpireDueReservationsResult -> TxStateOf Market -> Prop) :
  (forall reason st', st_base st' = st_base st -> Q (Sweeps.ExpireDueReservationsRejected reason) st') ->
  (forall ds m' k, lapsed_released (server_now (S (st_step st))) (st_base st) ds m' -> Q (Sweeps.ExpireDueReservationsCompleted ds) (MkTxState m' m' k)) ->
  wp env Sweeps.ExpireDueReservations Q st.
Proof.
  intros Hf Hs. unfold Sweeps.ExpireDueReservations. do 2 tk_prim; [by apply Hf|]. do 2 tk_prim.
  apply wp_attempt, releaseExpiredInTx_wp; [by intros; apply Hf|]. intros ds m' k Hm.
  do 2 tk_prim; [by apply Hf|]. tk_prim. by apply Hs.
Qed.

(** ** Reserving *)

(** The budget of an origin, checked against the tables and charged to them. *)
Definition origin_charged (origin : Work.ReservationOrigin) (m : Market) (d' : DB) : Prop :=
  match origin with
  | Work.ReservedByUserSession => d' = tables m
  | Work.ReservedViaWorkCredential credentialID limit concurrent =>
      TypedID_String credentialID ∈ agent_credentials (tables m) /\
      match concurrent with
      | Work.NoReservationConcurrencyCap => True
      | Work.ReservationConcurrencyCapAtMost cap => Tasks.active_via (TypedID_String credentialID) m < cap
      end /\
      charged_counter (Tasks.workDayKeyAgentTasks +:+ TypedID_String credentialID) 1 limit (tables m) d'
  end.

Lemma charge_daily_task_wp now credential limit base db n (Q : option DomainError -> TxStateOf Market -> Prop) :
  (forall reason st, st_base st = base -> Q (Some reason) st) ->
  (forall d k, charged_counter (Tasks.workDayKeyAgentTasks +:+ credential) 1 limit (tables db) d -> Q None (MkTxState base (with_tables d db) k)) ->
  wp env (Tasks.charge_daily_task now credential limit) Q (MkTxState base db n).
Proof.
  intros Hf Hs. unfold Tasks.charge_daily_task, chargeWorkDayCounter. do 2 tk_prim. apply wp_bind, wp_on_tables. tk_prim. apply wp_stmt; cbn -[bump_counter].
  - tk_prim. cbn. rewrite !with_tables_id. tk_prim. by apply Hf.
  - destruct (bump_counter _ _ _ _) as [|[used d']] eqn:E; tk_prim; cbn; rewrite !with_tables_id; [tk_prim; by apply Hf|].
    destruct (Z.ltb_spec limit used); tk_prim; [by apply Hf|]. apply Hs. exists day, used. auto.
Qed.

Lemma consumeReservationBudget_wp now credentialID limit concurrent base db n (Q : option DomainError -> TxStateOf Market -> Prop) :
  (forall reason st, st_base st = base -> Q (Some reason) st) ->
  (forall d k, origin_charged (Work.ReservedViaWorkCredential credentialID limit concurrent) db d -> Q None (MkTxState base (with_tables d db) k)) ->
  wp env (Tasks.consumeReservationBudget now credentialID limit concurrent) Q (MkTxState base db n).
Proof.
  intros Hf Hs. unfold Tasks.consumeReservationBudget. do 2 tk_prim; cbn [st_db]; [by apply Hf|].
  case_bool_decide as Hc; [|by apply Hf]. apply wp_check.
  destruct concurrent as [|cap].
  - tk_prim. apply charge_daily_task_wp; [by intros; apply Hf|]. intros d k Hd. by apply Hs.
  - do 2 tk_prim; cbn -[Tasks.active_via]; [by apply Hf|]. tk_prim. destruct (Z.leb_spec cap (Tasks.active_via (TypedID_String credentialID) db)); [by apply Hf|].
    apply charge_daily_task_wp; [by intros; apply Hf|]. intros d k Hd. by apply Hs.
Qed.

(** The database a refused budget leaves: the refusal may have been counted. *)
Definition refusal_counted (m m' : Market) : Prop := exists d, refused (tables m) d /\ m' = with_tables d m.

Lemma consume_origin_wp now origin base db n (Q : option DomainError -> TxStateOf Market -> Prop) :
  (forall reason st, refusal_counted base (st_base st) -> Q (Some reason) st) ->
  (forall d k, origin_charged origin db d -> Q None (MkTxState base (with_tables d db) k)) ->
  wp env (Tasks.consume_origin now origin) Q (MkTxState base db n).
Proof.
  intros Hf Hs. unfold Tasks.consume_origin. destruct origin as [|credentialID limit concurrent].
  { tk_prim. rewrite <- (with_tables_id db). by apply Hs. }
  tk_prim. apply consumeReservationBudget_wp.
  - intros reason [b d k] Hb. cbn in Hb. subst. tk_prim. apply wp_on_tables. unfold recordBudgetRefusal. do 2 tk_prim. apply wp_exec_outside; cbn.
    + tk_prim. apply Hf. cbn. exists (tables base). split; [apply refused_refl|done].
    + intros base' Hbump. tk_prim. apply Hf. cbn. exists base'. split; [|done]. right.
      case_match; simplify_eq. case_match; simplify_eq. eauto.
  - intros d k Hd. tk_prim. by apply Hs.
Qed.

Definition new_reservation (command : Tasks.ReservationCommand) : ReservationRow :=
  let assignee := assigneeSQLColumns (Tasks.reserve_Assignee command) in
  MkReservationRow (TypedID_String (Tasks.reserve_TaskID command)) (sql_kind assignee) (sql_userID assignee)
    (TypedID_String (Tasks.reserve_RequestedBy command)) (Task.ReservationState_String Task.ReservationStateActive).

Definition new_reservation_columns (command : Tasks.ReservationCommand) (ttl now : Z) : ReservationColumns :=
  let assignee := assigneeSQLColumns (Tasks.reserve_Assignee command) in
  MkReservationColumns (sql_teamID assignee) (sql_organizationID assignee) (now + Tasks.hours ttl) now
    (Tasks.via_credential (Tasks.reserve_Origin command)).

(** A reservation committed: what held of the task and the assignee, and what was written. *)
Inductive reserved (id : TaskReservationID) (command : Tasks.ReservationCommand) (m : Market) : Market -> Prop :=
| reserved_at now row columns d1 m2 d3 :
    task_row (TypedID_String (Tasks.reserve_TaskID command)) m = Some (row, columns) ->
    task_state row = "open" -> tc_participation_policy columns = "reservation_required" ->
    Tasks.series_unpublished (TypedID_String (Tasks.reserve_TaskID command)) m = false ->
    Tasks.is_banned (TypedID_String (Tasks.reserve_TaskID command)) (assigneeSQLColumns (Tasks.reserve_Assignee command)) m = false ->
    Tasks.holds_active (TypedID_String (Tasks.reserve_TaskID command)) (assigneeSQLColumns (Tasks.reserve_Assignee command)) m = false ->
    origin_charged (Tasks.reserve_Origin command) m d1 ->
    insert_reservation (TypedID_String id) (new_reservation command) (new_reservation_columns command (tc_reservation_hours columns) now)
      (with_tables d1 m) = inr m2 ->
    recorded (tables m2) [Tasks.reserve_Draft command] d3 ->
    reserved id command m (with_tables d3 m2).

Lemma seriesBlocks_wp t st (Q : option DomainError -> TxStateOf Market -> Prop) :
  (forall reason st', st_base st' = st_base st -> Q (Some reason) st') ->
  (Tasks.series_unpublished (TypedID_String t) (st_base st) = false -> Q None (tick st)) ->
  wp env (Tasks.taskSeriesBlocksExecution t) Q st.
Proof.
  intros Hf Hs. unfold Tasks.taskSeriesBlocksExecution. do 2 tk_prim; cbn -[Tasks.series_unpublished]; [by apply Hf|].
  tk_prim. destruct (Tasks.series_unpublished _ _); [by apply Hf|by apply Hs].
Qed.

Lemma reservation_gates_wp t assignee base db n (Q : option DomainError -> TxStateOf Market -> Prop) :
  (forall reason st, st_base st = base -> Q (Some reason) st) ->
  (forall k, Tasks.is_banned (TypedID_String t) assignee db = false -> Tasks.holds_active (TypedID_String t) assignee db = false ->
     Q None (MkTxState base db k)) ->
  wp env (Tasks.reservation_gates t assignee) Q (MkTxState base db n).
Proof.
  intros Hf Hs. unfold Tasks.reservation_gates. do 2 tk_prim; cbn -[Tasks.is_banned]; [by apply Hf|].
  destruct (Tasks.is_banned _ _ db) eqn:Eb; [tk_prim; by apply Hf|]. do 2 tk_prim; cbn -[Tasks.holds_active]; [by apply Hf|].
  tk_prim. destruct (Tasks.holds_active _ _ db) eqn:Eh; [by apply Hf|by apply Hs].
Qed.

Lemma findReservation_wp id st (Q : DomainError + Task.Reservation -> TxStateOf Market -> Prop) :
  (forall r st', st_base st' = st_base st -> Q r st') -> wp env (Tasks.findReservation id) Q st.
Proof.
  intros HQ. unfold Tasks.findReservation. apply wp_attempt, read_rows_wp. intros [reason|values] st' Hb _ _; [by apply HQ|].
  tk_prim. by apply HQ.
Qed.

Lemma reservationInitialState_inr policy state :
  Tasks.reservationInitialState policy = inr state -> policy = "reservation_required" /\ state = Task.ReservationStateActive.
Proof.
  unfold Tasks.reservationInitialState. rewrite !switch_cons. destruct (String.eqb_spec policy "reservation_required") as [->|]; [by intros [=]|].
  by destruct (String.eqb policy "open").
Qed.

(** Housekeeping commits on its own; the reservation then commits or leaves at most a counted refusal. *)
Definition reserve_outcome (id : TaskReservationID) (command : Tasks.ReservationCommand) (m : Market)
    (r : Tasks.CreateReservationStoreResult) (m' : Market) : Prop :=
  ((exists reason, r = Tasks.CreateReservationStoreRejected reason) /\
    (m' = m \/ exists m1, housekept m m1 /\ refusal_counted m1 m')) \/
  exists m1, housekept m m1 /\ reserved id command m1 m'.

Lemma CreateReservation_wp id command st (Q : Tasks.CreateReservationStoreResult -> TxStateOf Market -> Prop) :
  (forall r st', reserve_outcome id command (st_base st) r (st_base st') -> Q r st') ->
  wp env (Tasks.CreateReservation id command) Q st.
Proof.
  intros HQ. unfold Tasks.CreateReservation. apply wp_check, releaseExpired_wp.
  { intros err st' Hb. apply HQ. left. split; [by eexists|by left]. }
  intros m1 k Hkept.
  assert (forall reason st', refusal_counted m1 (st_base st') -> Q (Tasks.CreateReservationStoreRejected reason) st') as Hrefused.
  { intros reason st' Hr. apply HQ. left. split; [by eexists|]. right. by exists m1. }
  assert (forall reason st', st_base st' = m1 -> Q (Tasks.CreateReservationStoreRejected reason) st') as Hf.
  { intros reason st' ->%symmetry. apply Hrefused. exists (tables (st_base st')). split; [apply refused_refl|by rewrite with_tables_id]. }
  do 2 tk_prim; [by apply Hf|]. do 2 tk_prim. cbn [st_base st_step]. set (now := server_now _).
  do 2 tk_prim; cbn [st_db]; [by apply Hf|].
  destruct (task_row _ m1) as [[row columns]|] eqn:Hrow; cbn [required]; rewrite ?bind_inr, ?bind_inl; cbv beta iota; [|by apply Hf].
  destruct (String.eqb_spec (task_state row) (Task.State_String Task.StateOpen)) as [Hopen|]; cbn [negb]; [|tk_prim; by apply Hf].
  apply wp_check, seriesBlocks_wp; [by intros; apply Hf|]. cbn [st_base]. intros Hseries.
  destruct (Tasks.reservationInitialState _) as [|state] eqn:Hpolicy; [tk_prim; by apply Hf|].
  apply reservationInitialState_inr in Hpolicy as [Hpolicy ->]. apply wp_check, reservation_gates_wp; [by intros; apply Hf|]. intros k1 Hban Hheld.
  apply wp_check, consume_origin_wp; [exact Hrefused|]. intros d1 k2 Hd1.
  do 2 tk_prim; cbn [st_db st_base st_step]; [by apply Hf|].
  destruct (insert_reservation _ _ _ _) as [|m2] eqn:Hm2; [by apply Hf|].
  apply wp_check, recordDraft_wp; [by intros; apply Hf|]. intros d3 k3 Hd3.
  do 2 tk_prim; [by apply Hf|]. cbn [st_db st_step]. apply wp_attempt, findReservation_wp. cbn [st_base]. intros r st' Hb.
  assert (reserved id command m1 (with_tables d3 m2)) as Hres by by econstructor.
  destruct r as [reason|value]; [|tk_prim]; apply HQ; right; exists m1; by rewrite Hb.
Qed.

(** ** Changing a reservation *)

Inductive holder_drafts (plan : Plan) (raw : string) : list Draft -> Prop :=
| holder_silent : plan = NoEvent -> holder_drafts plan raw []
| holder_records draft holder : plan = RecordDraft draft -> ParseUserID raw = TypedIDCreated holder ->
    holder_drafts plan raw [WithRecipients draft [holder]].

(** An active reservation of the task moved to another state, its event for the holder too. *)
Inductive reservation_changed (t : TaskID) (id : TaskReservationID) (state : Task.ReservationState) (plan : Plan) (m : Market) :
    list Draft -> Market -> Prop :=
| reservation_changed_to row ds d :
    task_reservations (tables m) !! TypedID_String id = Some row ->
    res_task_id row = TypedID_String t -> res_state row = "active" ->
    holder_drafts plan (res_requested_by_user_id row) ds ->
    recorded (with_reservations (<[TypedID_String id := set_res_state (Task.ReservationState_String state) row]> (task_reservations (tables m))) (tables m))
      ds d ->
    reservation_changed t id state plan m ds (with_tables d m).

Lemma record_reservation_plan_wp now plan id row base db n (Q : DomainError + list Draft -> TxStateOf Market -> Prop) :
  (forall reason st, st_base st = base -> Q (inl reason) st) ->
  task_reservations (tables db) !! id = Some row ->
  (forall ds d k, holder_drafts plan (res_requested_by_user_id row) ds -> recorded (tables db) ds d -> Q (inr ds) (MkTxState base (with_tables d db) k)) ->
  wp env (Tasks.record_reservation_plan now plan id) Q (MkTxState base db n).
Proof.
  intros Hf Hrow Hs. unfold Tasks.record_reservation_plan. destruct plan as [|draft].
  { tk_prim. rewrite <- (with_tables_id db). apply Hs; constructor. done. }
  do 2 tk_prim; cbn [st_db]; [by apply Hf|]. rewrite Hrow. cbn. unfold parseReviewWorker.
  destruct (ParseUserID _) as [holder|] eqn:E; [|tk_prim; by apply Hf].
  apply wp_check, recordDraft_wp; [by intros; apply Hf|]. intros d k Hd. tk_prim. apply Hs; [by econstructor|done].
Qed.

Definition change_reservation_outcome (t : TaskID) (id : TaskReservationID) (state : Task.ReservationState) (plan : Plan) (m : Market)
    (r : Tasks.ChangeReservationStateStoreResult) (m' : Market) : Prop :=
  ((exists reason, r = Tasks.ChangeReservationStateStoreRejected reason) /\ (m' = m \/ housekept m m')) \/
  exists m1 ds, housekept m m1 /\ reservation_changed t id state plan m1 ds m' /\
    match r with Tasks.ChangeReservationStateStoreAccepted _ recorded => recorded = ds | _ => True end.

Lemma ChangeReservationState_wp t id state plan st (Q : Tasks.ChangeReservationStateStoreResult -> TxStateOf Market -> Prop) :
  (forall r st', change_reservation_outcome t id state plan (st_base st) r (st_base st') -> Q r st') ->
  wp env (Tasks.ChangeReservationState t id state plan) Q st.
Proof.
  intros HQ. unfold Tasks.ChangeReservationState. apply wp_check, releaseExpired_wp.
  { intros err st' Hb. apply HQ. left. split; [by eexists|by left]. }
  intros m1 k Hkept.
  assert (forall reason st', st_base st' = m1 -> Q (Tasks.ChangeReservationStateStoreRejected reason) st') as Hf.
  { intros reason st' Hb. apply HQ. left. rewrite Hb. split; [by eexists|by right]. }
  do 2 tk_prim; [by apply Hf|]. do 4 tk_prim; cbn [st_db st_base]; [by apply Hf|].
  unfold update_active_reservation.
  destruct (task_reservations (tables m1) !! TypedID_String id) as [row|] eqn:Hrow; [|by apply Hf].
  destruct (String.eqb_spec (res_task_id row) (TypedID_String t)) as [Ht|]; [|by apply Hf].
  destruct (String.eqb_spec (res_state row) "active") as [Ha|]; cbn [andb Z.eqb negb]; [|by apply Hf].
  apply wp_attempt. eapply record_reservation_plan_wp; [by intros; apply Hf|cbn; apply lookup_insert_eq|]. intros ds d k1 Hds Hd.
  do 2 tk_prim; [by apply Hf|]. cbn [st_db st_step]. rewrite with_tables_twice. cbn [tables with_tables] in Hd.
  apply wp_attempt, findReservation_wp. cbn [st_base]. intros r st' Hb.
  destruct r as [reason|value]; [|tk_prim]; apply HQ; right; exists m1, ds; rewrite Hb; (split; [done|split; [|done]]); by econstructor.
Qed.

End ReservationSpecs.
