(* ===== verification/CreationSpecs.v ===== *)
(** * What the creation of a task leaves

    The relation of [CreateTask] of [TaskStore.v]: the rows it inserts and the
    collectibles it escrows in one commit. *)

From S2P Require Import Prelude.
From S2P Require Import Core.
From S2P Require Import Assets.
From S2P Require Import Attachments.
From S2P Require Import TaskValues.
From S2P Require Import LedgerValues.
From S2P Require Import Database.
From S2P Require Import Tx.
From S2P Require Import LedgerHelpers.
From S2P Require Import HelperSpecs.
From S2P Require Import ReviewSpecs.
From S2P Require Import TaskDB.
From S2P Require Import TaskRows.
From S2P Require Import TaskStore.
From S2P Require Import TaskSpecs.
Local Open Scope string_scope.
Local Open Scope Z_scope.

Section CreationSpecs.
Context `{UUIDLib, URLLib, World} {env : Env}.
Implicit Types (m : Market) (n k : nat).

(** ** Escrowed collectibles *)

(** A collectible the funder owns, minted, that may be a reward, is held for the task. *)
Inductive held_for (t : TaskID) (funder : UserID) (c : CollectibleID) (d : DB) : DB -> Prop :=
| held_with row d' :
    collectibles d !! TypedID_String c = Some row -> col_owner_kind row = "user" ->
    col_owner_user_id row = TypedID_String funder -> col_state row = "minted" ->
    Tasks.insert_fund_collectible (TypedID_String t) (TypedID_String c)
      (with_collectibles (alter (set_col_state "escrowed") (TypedID_String c) (collectibles d)) d) = inr d' ->
    held_for t funder c d d'.

Inductive escrows (t : TaskID) (funder : UserID) : list CollectibleID -> DB -> DB -> Prop :=
| escrows_none d : escrows t funder [] d d
| escrows_next c cs d d1 d2 : held_for t funder c d d1 -> escrows t funder cs d1 d2 -> escrows t funder (c :: cs) d d2.

Lemma requireEscrowable_wp env' c funder (base d : DB) n (Q : DomainError + Collectible -> TxState -> Prop) :
  (forall reason st, st_base st = base -> Q (inl reason) st) ->
  (forall row value k, collectibles d !! TypedID_String c = Some row -> parseCollectible (TypedID_String c) row = collectibleParsed value ->
     col_owner_kind row = "user" -> col_owner_user_id row = TypedID_String funder -> col_state row = "minted" ->
     AllowsRewardPayout (Collectible_Policy value) = RewardAllowed -> Q (inr value) (MkTxState base d k)) ->
  wp env' (Tasks.requireEscrowableCollectible c funder) Q (MkTxState base d n).
Proof.
  intros Hf Hs. unfold Tasks.requireEscrowableCollectible. apply wp_bind, lockCollectible_wp; [intros; wp_prim; by apply Hf|].
  intros row value k Hrow Hvalue. pose proof (parseCollectible_inv _ _ _ Hvalue) as (Hkind & Howner & Hstate & Hpolicy & _). wp_prim. rewrite Hkind, Howner.
  destruct (String.eqb_spec (col_owner_kind row) CollectibleOwnerKindUser) as [Ek|]; [|by apply Hf].
  destruct (String.eqb_spec (col_owner_user_id row) (TypedID_String funder)) as [Eo|]; [|by apply Hf]. cbn [negb orb].
  case_bool_decide as Em; cbn [negb]; [|by apply Hf]. rewrite Em in Hstate. apply ParseCollectibleState_minted in Hstate.
  destruct (AllowsRewardPayout _) eqn:Ep; [|by apply Hf]. by eapply Hs.
Qed.

Lemma holdCollectible_wp env' t c (base d : DB) n (Q : option DomainError -> TxState -> Prop) :
  (forall reason st, st_base st = base -> Q (Some reason) st) ->
  (forall d' k, Tasks.insert_fund_collectible (TypedID_String t) (TypedID_String c)
      (with_collectibles (alter (set_col_state "escrowed") (TypedID_String c) (collectibles d)) d) = inr d' -> Q None (MkTxState base d' k)) ->
  wp env' (Tasks.holdCollectibleForTask t c) Q (MkTxState base d n).
Proof.
  intros Hf Hs. unfold Tasks.holdCollectibleForTask. do 2 tk_prim; cbn -[Tasks.insert_fund_collectible]; [by apply Hf|].
  do 2 tk_prim; cbn -[Tasks.insert_fund_collectible]; [tk_prim; by apply Hf|].
  destruct (Tasks.insert_fund_collectible _ _ _) as [err|d'] eqn:E; tk_prim; [by destruct err; apply Hf|by apply Hs].
Qed.

Lemma escrow_collectibles_wp now t funder ids base db n (Q : option DomainError -> TxStateOf Market -> Prop) :
  (forall reason st, st_base st = base -> Q (Some reason) st) ->
  (forall d k, escrows t funder ids (tables db) d -> Q None (MkTxState base (with_tables d db) k)) ->
  wp env (Tasks.escrow_collectibles now t funder ids) Q (MkTxState base db n).
Proof.
  revert db n. induction ids as [|c ids IH]; intros db n Hf Hs; cbn [Tasks.escrow_collectibles].
  { tk_prim. rewrite <- (with_tables_id db). apply Hs. constructor. }
  apply wp_attempt, wp_on_tables, requireEscrowable_wp; cbn.
  { intros reason st Hb. apply Hf. cbn. by rewrite Hb, with_tables_id. }
  intros row value k Hrow _ Hk Ho Hm _. rewrite !with_tables_id. apply wp_check, wp_on_tables, holdCollectible_wp; cbn.
  { intros reason st Hb. apply Hf. cbn. by rewrite Hb, with_tables_id. }
  intros d1 k1 Hd1. rewrite with_tables_id. apply IH; [done|]. intros d2 k2 Hd2. rewrite with_tables_twice. apply Hs. cbn in Hd2.
  econstructor; [by econstructor|done].
Qed.

(** ** Rows *)

(** The series a placement names, and the market once a new one is inserted. *)
Inductive placed (seriesID : TaskSeriesID) (command : Tasks.CreateCommand) (m : Market) : option string * option Z -> Market -> Prop :=
| placed_alone : Tasks.create_Placement command = Task.StandalonePlacement -> placed seriesID command m (None, None) m
| placed_in_new title position m' :
    Tasks.create_Placement command = Task.NewSeriesPlacement title position ->
    (let owner := ownerSQLColumns (Tasks.create_Owner command) in
     insert_series (TypedID_String seriesID) (MkSeriesRow (sql_kind owner) (sql_userID owner) (sql_teamID owner)
       (sql_organizationID owner) (Task.SeriesTitle_value title) "" "draft" (TypedID_String (Tasks.create_Actor command))) m = inr m') ->
    placed seriesID command m (Some (TypedID_String seriesID), Some (Task.SeriesPosition_value position)) m'
| placed_in_existing series position :
    Tasks.create_Placement command = Task.ExistingSeriesPlacement series position ->
    placed seriesID command m (Some (TypedID_String series), Some (Task.SeriesPosition_value position)) m.

Definition attachment_row (t : TaskID) (index : Z) (value : Attachment.Attachment) : AttachmentRow :=
  MkAttachmentRow (TypedID_String t) index (Attachment.Name_value (Attachment.AName value))
    (Attachment.ContentType_value (Attachment.AContentType value)) (Attachment.Content_value (Attachment.AContent value)).

Inductive attached (t : TaskID) : Z -> list Attachment.Attachment -> Market -> Market -> Prop :=
| attached_none index m : attached t index [] m m
| attached_next index value values m m1 m2 :
    insert_attachment (attachment_row t index value) m = inr m1 -> attached t (index + 1) values m1 m2 ->
    attached t index (value :: values) m m2.

(** A created task: its series, its row, its visibility, its attachments and its escrow. *)
Inductive created (seriesID : TaskSeriesID) (t : TaskID) (command : Tasks.CreateCommand) (m : Market) : Market -> Prop :=
| created_with now series m1 m2 m3 m4 d5 :
    placed seriesID command m series m1 ->
    insert_task (TypedID_String t) (Tasks.created_row command) (Tasks.created_columns command series now) m1 = inr m2 ->
    insert_visibility (visibilitySQLColumns (TypedID_String t) (Tasks.create_Visibility command)) m2 = inr m3 ->
    attached t 0 (Tasks.create_Attachments command) m3 m4 ->
    escrows t (Tasks.create_Actor command) (Tasks.create_FundCollectibleIDs command) (tables m4) d5 ->
    created seriesID t command m (with_tables d5 m4).

Lemma insertSeries_wp seriesID command base db n (Q : DomainError + (option string * option Z) -> TxStateOf Market -> Prop) :
  (forall reason st, st_base st = base -> Q (inl reason) st) ->
  (forall series m' k, placed seriesID command db series m' -> Q (inr series) (MkTxState base m' k)) ->
  wp env (Tasks.insertSeriesForPlacement seriesID command) Q (MkTxState base db n).
Proof.
  intros Hf Hs. unfold Tasks.insertSeriesForPlacement. destruct (Tasks.create_Placement command) as [|title position|series position] eqn:E.
  - tk_prim. by apply Hs, placed_alone.
  - do 2 tk_prim; cbn -[insert_series]; [by apply Hf|].
    destruct (insert_series _ _ _) as [|m'] eqn:Es; [by apply Hf|]. tk_prim. by eapply Hs, placed_in_new.
  - tk_prim. by apply Hs, placed_in_existing.
Qed.

Lemma insertAttachments_wp t index values base db n (Q : option DomainError -> TxStateOf Market -> Prop) :
  (forall reason st, st_base st = base -> Q (Some reason) st) ->
  (forall m' k, attached t index values db m' -> Q None (MkTxState base m' k)) ->
  wp env (Tasks.insertTaskAttachments t index values) Q (MkTxState base db n).
Proof.
  revert index db n. induction values as [|value values IH]; intros index db n Hf Hs; cbn [Tasks.insertTaskAttachments].
  { tk_prim. apply Hs. constructor. }
  do 2 tk_prim; cbn [st_db st_base st_step]; [by apply Hf|]. fold (attachment_row t index value).
  destruct (insert_attachment _ _) as [|m'] eqn:E; [by apply Hf|]. apply IH; [done|]. intros m2 k Hm2. apply Hs. by econstructor.
Qed.

Definition create_outcome (seriesID : TaskSeriesID) (t : TaskID) (command : Tasks.CreateCommand) (m : Market)
    (r : Tasks.CreateTaskStoreResult) (m' : Market) : Prop :=
  ((exists reason, r = Tasks.CreateTaskStoreRejected reason) /\ m' = m) \/
  created seriesID t command m m' /\
  match r with Tasks.CreateTaskStoreAccepted value => task_found t m' value | Tasks.CreateTaskStoreRejected _ => True end.

Lemma CreateTask_wp seriesID t command st (Q : Tasks.CreateTaskStoreResult -> TxStateOf Market -> Prop) :
  (forall r st', create_outcome seriesID t command (st_base st) r (st_base st') -> Q r st') ->
  wp env (Tasks.CreateTask seriesID t command) Q st.
Proof.
  intros HQ. destruct st as [m db0 n]. cbn [st_base] in HQ.
  assert (forall reason st', st_base st' = m -> Q (Tasks.CreateTaskStoreRejected reason) st') as Hf.
  { intros reason st' Hb. apply HQ. left. split; [by eexists|done]. }
  unfold Tasks.CreateTask. do 2 tk_prim; [by apply Hf|]. cbn [st_base st_step]. do 2 tk_prim. cbn [st_step]. set (now := server_now _).
  apply wp_attempt, insertSeries_wp; [by intros; apply Hf|]. intros series m1 k1 Hseries.
  do 2 tk_prim; cbn [st_db st_base st_step]; [by apply Hf|]. destruct (insert_task _ _ _ m1) as [|m2] eqn:Hm2; [by apply Hf|].
  do 2 tk_prim; cbn [st_db st_base st_step]; [by apply Hf|]. destruct (insert_visibility _ m2) as [|m3] eqn:Hm3; [by apply Hf|].
  apply wp_check, insertAttachments_wp; [by intros; apply Hf|]. intros m4 k4 Hm4.
  apply wp_check, escrow_collectibles_wp; [by intros; apply Hf|]. intros d5 k5 Hd5.
  do 2 tk_prim; [by apply Hf|]. cbn [st_db st_step].
  assert (created seriesID t command m (with_tables d5 m4)) as Hc by by econstructor.
  apply wp_bind, FindTask_found; cbn [st_base].
  - intros reason st' Hb _. tk_prim. apply HQ. right. by rewrite Hb.
  - intros value name st' Hb _ Hfound. tk_prim. apply HQ. right. by rewrite Hb.
Qed.

End CreationSpecs.
