(* ===== verification/GallerySpecs.v ===== *)
(** * Specifications of minting and of the catalog

    For every operation of [CatalogStore.v], what a success has checked and done, and
    the donation to an organization; a failure leaves what is committed as it was, but
    for the statements the source sends outside a transaction. *)

From S2P Require Import Prelude.
From S2P Require Import Core.
From S2P Require Import OrgRoles.
From S2P Require Import Assets.
From S2P Require Import Events.
From S2P Require Import LedgerValues.
From S2P Require Import Database.
From S2P Require Import Tx.
From S2P Require Import Outbox.
From S2P Require Import LedgerHelpers.
From S2P Require Import LedgerStore.
From S2P Require Import HelperSpecs.
From S2P Require Import ReviewSpecs.
From S2P Require Import StoreSpecs.
From S2P Require Import TaskDB.
From S2P Require Import TaskStore.
From S2P Require Import CollectibleStore.
From S2P Require Import CatalogStore.
From S2P Require Import TaskSpecs.
From S2P Require Import CreationSpecs.

(** * Specifications of the custody operations

    For every operation of [CollectibleStore.v], what a success has checked and done;
    an operation that fails leaves what is committed as it was. *)
Local Open Scope string_scope.
Local Open Scope Z_scope.

Module CustodySpecs.
Export Collectibles.

Section CustodySpecs.
Context `{UUIDLib} {env : Env}.
Implicit Types (d base db : DB) (n k : nat).

(** ** What moves *)

(** A collectible there is, as the store reads it, in nobody's escrow. *)
Record on_hand (c : CollectibleID) (row : CollectibleRow) (value : Collectible) (d : DB) : Prop := {
  hand_row : collectibles d !! TypedID_String c = Some row;
  hand_value : parseCollectible (TypedID_String c) row = collectibleParsed value;
  hand_minted : col_state row = "minted"
}.

(** It is changed by [f] and the event is recorded. *)
Definition changed (c : CollectibleID) (f : CollectibleRow -> CollectibleRow) (draft : Draft) (d d' : DB) : Prop :=
  recorded (with_collectibles (alter f (TypedID_String c) (collectibles d)) d) [draft] d'.

(** A within-organization collectible stays with active members of its organization. *)
Definition within_organization (value : Collectible) (row : CollectibleRow) (users : list UserID) (d : DB) : Prop :=
  Collectible_Policy value = TransferPolicyTransferableWithinOrg ->
  default "" (col_organization_id row) <> "" /\
  Forall (fun user => is_active_member (default "" (col_organization_id row)) (TypedID_String user) d = true) users.

(** ** Task rewards *)

Definition kind_after (kind : string) : string := switch kind [ ("none", "collectible"); ("credit", "bundle") ] kind.

Definition set_reward_kind (kind : string) (row : TaskRow) : TaskRow :=
  MkTaskRow (task_state row) (task_created_by_user_id row) (task_organization_id row) kind (task_reward_credit_amount row).

(** The task, its reward now of a kind with a collectible. *)
Definition with_reward_kind (t : TaskID) (row : TaskRow) (d : DB) : DB :=
  with_tasks (<[TypedID_String t := set_reward_kind (kind_after (task_reward_kind row)) row]> (tasks d)) d.

Inductive reward_added (command : FundRewardStoreCommand) (d : DB) : Collectible -> DB -> Prop :=
| reward_added_with row crow value d' :
    tasks d !! TypedID_String (reward_TaskID command) = Some row ->
    task_created_by_user_id row = TypedID_String (reward_FunderUserID command) -> task_state row = "draft" ->
    on_hand (reward_CollectibleID command) crow value d -> AllowsRewardPayout (Collectible_Policy value) = RewardAllowed ->
    held_for (reward_TaskID command) (reward_FunderUserID command) (reward_CollectibleID command)
      (with_reward_kind (reward_TaskID command) row d) d' ->
    reward_added command d value d'.

(** What reading a collectible back gives once it is minted again. *)
Definition reads_minted (d : DB) (raw : string) (value : Collectible) : Prop :=
  exists crow, collectibles d !! raw = Some crow /\ parseCollectible raw (set_col_state "minted" crow) = collectibleParsed value.

Inductive reward_returned (command : RefundRewardStoreCommand) (d : DB) : list Collectible -> DB -> Prop :=
| reward_returned_with row values d2 d' :
    tasks d !! TypedID_String (unreward_TaskID command) = Some row ->
    may_refund (unreward_RequesterUserID command) (unreward_TaskID command) row d -> not_awarded row ->
    task_reward_kind row <> "bundle" ->
    held_collectibles (TypedID_String (unreward_TaskID command)) d <> [] ->
    Forall2 (reads_minted d) (held_collectibles (TypedID_String (unreward_TaskID command)) d) values ->
    update_task_state (TypedID_String (unreward_TaskID command)) "cancelled"
      (release_held (set_col_state "minted") (unreward_TaskID command) d) = inr d2 ->
    update_reservations (non_terminal (TypedID_String (unreward_TaskID command))) "cancelled_by_requester" d2 = inr d' ->
    reward_returned command d values d'.

Lemma with_tasks_insert_id t row d : tasks d !! t = Some row -> with_tasks (<[t := row]> (tasks d)) d = d.
Proof. intros Hrow. rewrite insert_id by done. by destruct d. Qed.

Lemma reward_kind_wp t row base d n (Q : option StmtError -> TxState -> Prop) :
  tasks d !! TypedID_String t = Some row ->
  (forall err st, st_base st = base -> Q (Some err) st) ->
  (forall k, Q None (MkTxState base (with_reward_kind t row d) k)) ->
  let update := switch (task_reward_kind row) [ ("none", "collectible"); ("credit", "bundle") ] "" in
  wp env (if String.eqb update "" then mret None else exec (update_task_reward_kind update (TypedID_String t))) Q (MkTxState base d n).
Proof.
  intros Hrow Hf Hs. cbv zeta.
  assert (forall kind, kind_after (task_reward_kind row) = kind -> kind <> "" ->
    wp env (exec (update_task_reward_kind kind (TypedID_String t))) Q (MkTxState base d n)) as Hup.
  { intros kind Hk _. tk_prim; cbn; [by apply Hf|]. unfold update_task_reward_kind. rewrite Hrow.
    subst kind. destruct (negb _); [by apply Hf|apply Hs]. }
  unfold with_reward_kind, kind_after in *. rewrite !switch_cons in *.
  destruct (String.eqb_spec (task_reward_kind row) "none") as [E|]; [cbn -[exec]; by apply Hup|].
  destruct (String.eqb_spec (task_reward_kind row) "credit") as [E|]; [cbn -[exec]; by apply Hup|].
  rewrite !switch_nil in *. cbn [String.eqb]. tk_prim. replace (set_reward_kind _ row) with row in Hs by by destruct row.
  by rewrite with_tasks_insert_id in Hs.
Qed.

Lemma FundCollectibleReward_wp command st (Q : FundRewardResult -> TxState -> Prop) :
  (forall reason st', st_base st' = st_base st -> Q (FundRewardRejected reason) st') ->
  (forall value d' k, reward_added command (st_base st) value d' ->
     Q (RewardFunded (set_State CollectibleStateEscrowed value)) (MkTxState d' d' k)) ->
  wp env (FundCollectibleReward command) Q st.
Proof.
  destruct st as [d db0 n]. cbn [st_base]. intros Hf Hs. unfold FundCollectibleReward.
  do 2 tk_prim; [by apply Hf|]. cbn [st_base st_step]. apply wp_attempt, requireEscrowable_wp; [by intros; apply Hf|].
  intros crow value k Hc Hv Hk Ho Hm Hp. apply wp_bind, lockTaskOwnedBy_wp; [intros; tk_prim; by apply Hf|].
  intros row k1 Hrow Hown. cbn [locked_state locked_of locked_rewardKind].
  destruct (String.eqb_spec (task_state row) "draft") as [Hdraft|]; cbn [negb]; [|tk_prim; by apply Hf].
  apply wp_check, (reward_kind_wp (reward_TaskID command) row); [done|by intros; apply Hf|]. intros k2.
  apply wp_check, holdCollectible_wp; [by intros; apply Hf|]. intros d' k3 Hh.
  do 2 tk_prim; [by apply Hf|]. cbn [st_db st_step]. tk_prim. apply Hs. apply (reward_added_with _ _ row crow); [done..|by split|done|].
  by econstructor.
Qed.

Lemma findCollectible_wp raw base d n (Q : collectibleParseResult -> TxState -> Prop) :
  (forall reason st, st_base st = base -> Q (collectibleParseRejected reason) st) ->
  (forall row value k, collectibles d !! raw = Some row -> parseCollectible raw row = collectibleParsed value ->
     Q (collectibleParsed value) (MkTxState base d k)) ->
  wp env (findCollectible raw) Q (MkTxState base d n).
Proof.
  intros Hf Hs. unfold findCollectible. do 2 tk_prim; cbn [st_db tick]; [tk_prim; by apply Hf|].
  destruct (collectibles d !! raw) as [row|] eqn:Hrow; cbn; [|tk_prim; by apply Hf].
  do 2 tk_prim; [tk_prim; by apply Hf|]. tk_prim. destruct (parseCollectible raw row) eqn:E; [by eapply Hs|by apply Hf].
Qed.

Lemma reads_minted_before d raw0 raw value :
  reads_minted (with_collectibles (alter (set_col_state "minted") raw0 (collectibles d)) d) raw value -> reads_minted d raw value.
Proof.
  intros (crow & Hrow & Hv). cbn in Hrow. destruct (decide (raw0 = raw)) as [->|Hne].
  - rewrite lookup_alter_eq in Hrow. apply fmap_Some in Hrow as (crow0 & Hrow & ->). by exists crow0.
  - rewrite lookup_alter_ne in Hrow by done. by exists crow.
Qed.

Lemma return_held_wp raws base d n (Q : DomainError + list Collectible -> TxState -> Prop) :
  (forall reason st, st_base st = base -> Q (inl reason) st) ->
  (forall values k, Forall2 (reads_minted d) raws values -> Q (inr values) (MkTxState base
     (with_collectibles (foldl (fun m id => alter (set_col_state "minted") id m) (collectibles d) raws) d) k)) ->
  wp env (return_held raws) Q (MkTxState base d n).
Proof.
  revert d n Q. induction raws as [|raw raws IH]; intros d n Q Hf Hs; cbn [return_held].
  { tk_prim. specialize (Hs [] n). cbn in Hs. replace (with_collectibles (collectibles d) d) with d in Hs by by destruct d. by apply Hs. }
  do 2 tk_prim; cbn; [by apply Hf|]. apply wp_bind, findCollectible_wp; [intros; tk_prim; by apply Hf|]. cbn.
  intros row value k Hrow Hv. rewrite lookup_alter_eq in Hrow. apply fmap_Some in Hrow as (crow & Hrow & ->).
  apply wp_attempt, IH; [by intros; apply Hf|]. intros values k1 Hvs. tk_prim. cbn. apply (Hs (value :: values)). constructor.
  - by exists crow.
  - eapply Forall2_impl; [|exact Hvs]. intros raw' v. apply reads_minted_before.
Qed.

Lemma RefundCollectibleReward_wp command st (Q : RefundRewardResult -> TxState -> Prop) :
  (forall reason st', st_base st' = st_base st -> Q (RefundRewardRejected reason) st') ->
  (forall values d' k, reward_returned command (st_base st) values d' -> Q (RewardRefunded values) (MkTxState d' d' k)) ->
  wp env (RefundCollectibleReward command) Q st.
Proof.
  destruct st as [d db0 n]. cbn [st_base]. intros Hf Hs. unfold RefundCollectibleReward.
  do 2 tk_prim; [by apply Hf|]. cbn [st_base st_step]. apply wp_check, lockTaskRefundable_wp; [by intros; apply Hf|].
  intros row k Hrow Hmay Hst. do 2 tk_prim; cbn [st_db]; [by apply Hf|]. rewrite Hrow. cbn [fmap option_fmap option_map required].
  destruct (String.eqb_spec (task_reward_kind row) "bundle") as [|Hkind]; [tk_prim; by apply Hf|].
  apply wp_attempt, heldFundCollectibleIDs_wp; [by intros; apply Hf|]. intros k1. cbn [st_base st_db].
  destruct (held_collectibles (TypedID_String (unreward_TaskID command)) d) as [|raw raws] eqn:Hheld; [tk_prim; by apply Hf|].
  apply wp_attempt, return_held_wp; [by intros; apply Hf|]. intros values k2 Hvs.
  do 2 tk_prim; cbn -[update_task_state]; [by apply Hf|]. do 2 tk_prim; cbn -[update_task_state]; [by apply Hf|].
  destruct (update_task_state _ _ _) as [|d2] eqn:Hup; [by apply Hf|].
  apply wp_check, releaseReservationsOnCancel_wp; cbn; [by intros; apply Hf|]. intros d' k3 Hrel.
  do 2 tk_prim; [by apply Hf|]. cbn [st_db st_step]. tk_prim. apply Hs. apply (reward_returned_with _ _ row _ d2); rewrite ?Hheld; [done..| |done].
  unfold release_held. by rewrite Hheld.
Qed.

(** ** Transfers *)

Lemma locked_collectible_wp c base d n (Q : DomainError + Collectible -> TxState -> Prop) :
  (forall reason st, st_base st = base -> Q (inl reason) st) ->
  (forall row value k, collectibles d !! TypedID_String c = Some row -> parseCollectible (TypedID_String c) row = collectibleParsed value ->
     Q (inr value) (MkTxState base d k)) ->
  wp env (locked_collectible c) Q (MkTxState base d n).
Proof.
  intros Hf Hs. unfold locked_collectible. apply wp_bind, lockCollectible_wp; [intros; tk_prim; by apply Hf|].
  intros row value k Hrow Hv. tk_prim. by eapply Hs.
Qed.

Lemma record_and_commit_wp {R} c f draft s1 s2 (rejected : DomainError -> R) (result : R) base d n (Q : R -> TxState -> Prop) :
  (forall reason st, st_base st = base -> Q (rejected reason) st) ->
  (forall d' k, changed c f draft d d' -> Q result (MkTxState d' d' k)) ->
  wp env (record_and_commit draft s1 s2 rejected result) Q (MkTxState base (with_collectibles (alter f (TypedID_String c) (collectibles d)) d) n).
Proof.
  intros Hf Hs. unfold record_and_commit. apply wp_check, recordEventDraft_wp; [by intros; apply Hf|]. intros d' k Hr.
  do 2 tk_prim; [by apply Hf|]. tk_prim. by apply Hs.
Qed.

Lemma in_state_minted value row :
  ParseCollectibleState (col_state row) = CollectibleStateAccepted (Collectible_State value) ->
  in_state CollectibleStateMinted value = true -> col_state row = "minted".
Proof. unfold in_state. rewrite bool_decide_eq_true. intros Hp E. rewrite E in Hp. by apply ParseCollectibleState_minted. Qed.

Lemma shared_organization_wp value from to base d n (Q : option DomainError -> TxState -> Prop) :
  (forall reason st, st_base st = base -> Q (Some reason) st) ->
  (forall k, Collectible_OrganizationID value <> "" ->
     Forall (fun user => is_active_member (Collectible_OrganizationID value) (TypedID_String user) d = true) [from; to] ->
     Q None (MkTxState base d k)) ->
  wp env (requireSharedCollectibleOrganization value from to) Q (MkTxState base d n).
Proof.
  intros Hf Hs. unfold requireSharedCollectibleOrganization. destruct (String.eqb_spec (Collectible_OrganizationID value) ""); [tk_prim; by apply Hf|].
  apply require_members_wp; auto.
Qed.

(** What every transfer finds: the collectible on hand, of an owner and under a policy. *)
Definition owned_on_hand (kind owner : string) (allows : TransferPolicy -> RewardCheck) (c : CollectibleID)
    (row : CollectibleRow) (value : Collectible) (d : DB) : Prop :=
  on_hand c row value d /\ col_owner_kind row = kind /\ col_owner_user_id row = owner /\ allows (Collectible_Policy value) = RewardAllowed.

Inductive gift_made (command : GiftStoreCommand) (d : DB) : Collectible -> DB -> Prop :=
| gift_made_with row value d' :
    owned_on_hand "user" (TypedID_String (gift_FromUserID command)) AllowsTip (gift_CollectibleID command) row value d ->
    within_organization value row [gift_FromUserID command; gift_ToUserID command] d ->
    changed (gift_CollectibleID command) (set_col_owner (TypedID_String (gift_ToUserID command))) (gift_Draft command) d d' ->
    gift_made command d value d'.

(** An organization's collectible, on hand. *)
Definition organization_on_hand (organization : OrganizationID) (c : CollectibleID) (row : CollectibleRow) (value : Collectible) (d : DB) : Prop :=
  on_hand c row value d /\ col_owner_kind row = "organization" /\ default "" (col_organization_id row) = TypedID_String organization.

Inductive award_made (command : AwardOrganizationCollectibleStoreCommand) (d : DB) : Collectible -> DB -> Prop :=
| award_made_with row value d' :
    organization_on_hand (orgaward_OrganizationID command) (orgaward_CollectibleID command) row value d ->
    is_active_member (TypedID_String (orgaward_OrganizationID command)) (TypedID_String (orgaward_RecipientUserID command)) d = true ->
    changed (orgaward_CollectibleID command) (set_col_left (TypedID_String (orgaward_RecipientUserID command))) (orgaward_Draft command) d d' ->
    award_made command d value d'.

Inductive handout_made (command : TransferFromOrganizationStoreCommand) (d : DB) : Collectible -> DB -> Prop :=
| handout_made_with row value d' :
    holds_permission (TypedID_String (handout_OrganizationID command)) (TypedID_String (handout_ActingUserID command)) PermissionManageCollectibles d ->
    organization_on_hand (handout_OrganizationID command) (handout_CollectibleID command) row value d ->
    AllowsTransfer (Collectible_Policy value) = RewardAllowed ->
    changed (handout_CollectibleID command) (set_col_left (TypedID_String (handout_ToUserID command))) (handout_Draft command) d d' ->
    handout_made command d value d'.

(** The checks of a transfer, read off the boolean tests. *)
Lemma owned_by_inv kind owner (c : CollectibleID) row value :
  parseCollectible (TypedID_String c) row = collectibleParsed value -> owned_by kind owner value = true ->
  col_owner_kind row = kind /\ col_owner_user_id row = owner.
Proof. intros (Hk & Ho & _)%parseCollectible_inv. unfold owned_by. by rewrite andb_true_iff, !String.eqb_eq, Hk, Ho. Qed.

Lemma of_organization_inv organization (c : CollectibleID) row value :
  parseCollectible (TypedID_String c) row = collectibleParsed value -> of_organization organization value = true ->
  col_owner_kind row = "organization" /\ default "" (col_organization_id row) = organization.
Proof. intros (Hk & _ & _ & _ & Ho)%parseCollectible_inv. unfold of_organization. by rewrite andb_true_iff, !String.eqb_eq, Hk, Ho. Qed.

Lemma on_hand_intro c row value d :
  collectibles d !! TypedID_String c = Some row -> parseCollectible (TypedID_String c) row = collectibleParsed value ->
  in_state CollectibleStateMinted value = true -> on_hand c row value d.
Proof. intros Hrow Hv Hm. split; [done..|]. by apply parseCollectible_inv in Hv as (_ & _ & Hst & _); eapply in_state_minted. Qed.

Lemma GiftCollectible_wp command st (Q : GiftResult -> TxState -> Prop) :
  (forall reason st', st_base st' = st_base st -> Q (GiftRejected reason) st') ->
  (forall row value st', st_base st' = st_base st -> collectibles (st_base st) !! TypedID_String (gift_CollectibleID command) = Some row ->
     parseCollectible (TypedID_String (gift_CollectibleID command)) row = collectibleParsed value ->
     col_owner_kind row = "user" -> col_owner_user_id row = TypedID_String (gift_ToUserID command) -> Q (CollectibleGifted value []) st') ->
  (forall value d' k, gift_made command (st_base st) value d' ->
     Q (CollectibleGifted (set_Owner CollectibleOwnerKindUser (TypedID_String (gift_ToUserID command)) value) [gift_Draft command])
       (MkTxState d' d' k)) ->
  wp env (GiftCollectible command) Q st.
Proof.
  destruct st as [d db0 n]. cbn [st_base]. intros Hf Hr Hs. unfold GiftCollectible.
  do 2 tk_prim; [by apply Hf|]. cbn [st_base st_step]. apply wp_attempt, locked_collectible_wp; [by intros; apply Hf|].
  intros row value k Hrow Hv. destruct (owned_by CollectibleOwnerKindUser (TypedID_String (gift_ToUserID command)) value) eqn:Eto.
  { tk_prim. apply (owned_by_inv _ _ _ _ _ Hv) in Eto as [? ?]. by eapply Hr. }
  destruct (owned_by CollectibleOwnerKindUser (TypedID_String (gift_FromUserID command)) value) eqn:Efrom; cbn [negb]; [|tk_prim; by apply Hf].
  destruct (in_state CollectibleStateMinted value) eqn:Em; cbn [negb]; [|tk_prim; by apply Hf].
  destruct (AllowsTip _) eqn:Ep; [|tk_prim; by apply Hf]. apply (owned_by_inv _ _ _ _ _ Hv) in Efrom as [Hk Ho].
  apply wp_check. assert (forall k', within_organization value row [gift_FromUserID command; gift_ToUserID command] d ->
    wp env (do* exec (update_collectible (set_col_owner (TypedID_String (gift_ToUserID command))) (TypedID_String (gift_CollectibleID command)))
      else fun _ => GiftRejected (invalid_state "transfer collectible failed") in
      record_and_commit (gift_Draft command) "record collectible gift event failed" "commit gift collectible failed" GiftRejected
        (CollectibleGifted (set_Owner CollectibleOwnerKindUser (TypedID_String (gift_ToUserID command)) value) [gift_Draft command]))
      Q (MkTxState d d k')) as Hgo.
  { intros k' Hw. do 2 tk_prim; cbn; [by apply Hf|]. apply record_and_commit_wp; [by intros; apply Hf|]. intros d' k1 Hc. apply Hs.
    apply (gift_made_with _ _ row); [|done..]. split; [by apply on_hand_intro|done]. }
  unfold within_organization in Hgo. case_bool_decide as Ew.
  - apply shared_organization_wp; [by intros; apply Hf|]. intros k' Hne Hus. apply Hgo. intros _.
    apply parseCollectible_inv in Hv as (_ & _ & _ & _ & <-). done.
  - tk_prim. by apply Hgo.
Qed.

Lemma AwardOrganizationCollectible_wp command st (Q : GiftResult -> TxState -> Prop) :
  (forall reason st', st_base st' = st_base st -> Q (GiftRejected reason) st') ->
  (forall value d' k, award_made command (st_base st) value d' ->
     Q (CollectibleGifted (set_OrganizationID "" (set_Owner CollectibleOwnerKindUser (TypedID_String (orgaward_RecipientUserID command)) value))
         [orgaward_Draft command]) (MkTxState d' d' k)) ->
  wp env (AwardOrganizationCollectible command) Q st.
Proof.
  destruct st as [d db0 n]. cbn [st_base]. intros Hf Hs. unfold AwardOrganizationCollectible.
  do 2 tk_prim; [by apply Hf|]. cbn [st_base st_step]. apply wp_attempt, locked_collectible_wp; [by intros; apply Hf|].
  intros row value k Hrow Hv. destruct (of_organization _ value) eqn:Eo; cbn [negb]; [|tk_prim; by apply Hf].
  destruct (in_state CollectibleStateMinted value) eqn:Em; cbn [negb]; [|tk_prim; by apply Hf].
  do 2 tk_prim; cbn [st_db]; [by apply Hf|]. destruct (is_active_member _ _ d) eqn:Ea; cbn [negb]; [|tk_prim; by apply Hf].
  do 2 tk_prim; cbn; [by apply Hf|]. apply record_and_commit_wp; [by intros; apply Hf|]. intros d' k1 Hc. apply Hs.
  apply (award_made_with _ _ row); [|done..]. split; [by apply on_hand_intro|]. by apply (of_organization_inv _ _ _ _ Hv).
Qed.

Lemma TransferCollectibleFromOrganization_wp command st (Q : GiftResult -> TxState -> Prop) :
  (forall reason st', st_base st' = st_base st -> Q (GiftRejected reason) st') ->
  (forall value d' k, handout_made command (st_base st) value d' ->
     Q (CollectibleGifted (set_OrganizationID "" (set_Owner CollectibleOwnerKindUser (TypedID_String (handout_ToUserID command)) value))
         [handout_Draft command]) (MkTxState d' d' k)) ->
  wp env (TransferCollectibleFromOrganization command) Q st.
Proof.
  destruct st as [d db0 n]. cbn [st_base]. intros Hf Hs. unfold TransferCollectibleFromOrganization.
  do 2 tk_prim; [by apply Hf|]. cbn [st_base st_step]. apply wp_bind, organizationMemberPermission_wp; [intros; tk_prim; by apply Hf|].
  intros k0 Hp. apply wp_attempt, locked_collectible_wp; [by intros; apply Hf|].
  intros row value k Hrow Hv. destruct (of_organization _ value) eqn:Eo; cbn [negb]; [|tk_prim; by apply Hf].
  destruct (in_state CollectibleStateMinted value) eqn:Em; cbn [negb]; [|tk_prim; by apply Hf].
  destruct (AllowsTransfer _) eqn:Et; [|tk_prim; by apply Hf].
  do 2 tk_prim; cbn; [by apply Hf|]. apply record_and_commit_wp; [by intros; apply Hf|]. intros d' k1 Hc. apply Hs.
  apply (handout_made_with _ _ row); [done| |done..]. split; [by apply on_hand_intro|]. by apply (of_organization_inv _ _ _ _ Hv).
Qed.

(** A donation, on the tables of the ledger; the organization is checked by the market. *)
Inductive donation_made (command : TransferToOrganizationStoreCommand) (d : DB) : Collectible -> DB -> Prop :=
| donation_made_with row value d' :
    owned_on_hand "user" (TypedID_String (donate_FromUserID command)) AllowsTransfer (donate_CollectibleID command) row value d ->
    within_organization value row [donate_FromUserID command; donate_FromUserID command] d ->
    (Collectible_Policy value = TransferPolicyTransferableWithinOrg ->
       default "" (col_organization_id row) = TypedID_String (donate_OrganizationID command)) ->
    changed (donate_CollectibleID command) (set_col_donated (TypedID_String (donate_OrganizationID command))) (donate_Draft command) d d' ->
    donation_made command d value d'.

Lemma donation_checked_wp command base d n (Q : DomainError + Collectible -> TxState -> Prop) :
  (forall reason st, st_base st = base -> Q (inl reason) st) ->
  (forall row value k,
     owned_on_hand "user" (TypedID_String (donate_FromUserID command)) AllowsTransfer (donate_CollectibleID command) row value d ->
     within_organization value row [donate_FromUserID command; donate_FromUserID command] d ->
     (Collectible_Policy value = TransferPolicyTransferableWithinOrg ->
        default "" (col_organization_id row) = TypedID_String (donate_OrganizationID command)) ->
     Q (inr value) (MkTxState base d k)) ->
  wp env (donation_checked command) Q (MkTxState base d n).
Proof.
  intros Hf Hs. unfold donation_checked. apply wp_attempt, locked_collectible_wp; [by intros; apply Hf|].
  intros row value k Hrow Hv. destruct (owned_by _ _ value) eqn:Eo; cbn [negb]; [|tk_prim; by apply Hf].
  destruct (in_state CollectibleStateMinted value) eqn:Em; cbn [negb]; [|tk_prim; by apply Hf].
  destruct (AllowsTransfer _) eqn:Et; [|tk_prim; by apply Hf]. apply (owned_by_inv _ _ _ _ _ Hv) in Eo as [Hk Ho].
  assert (owned_on_hand "user" (TypedID_String (donate_FromUserID command)) AllowsTransfer (donate_CollectibleID command) row value d) as Hh.
  { split; [by apply on_hand_intro|done]. }
  unfold within_organization in Hs. apply parseCollectible_inv in Hv as (_ & _ & _ & _ & Horg). rewrite Horg. case_bool_decide as Ew.
  - destruct (String.eqb_spec (default "" (col_organization_id row)) (TypedID_String (donate_OrganizationID command))) as [E|]; cbn [negb];
      [|tk_prim; by apply Hf].
    apply wp_check, shared_organization_wp; [by intros; apply Hf|]. intros k' Hne Hus. tk_prim. apply (Hs row); [done| |done]. by rewrite <- Horg.
  - tk_prim. by apply (Hs row).
Qed.

(** ** Withdrawal *)

Inductive withdrawal_made (command : WithdrawCollectibleStoreCommand) (d : DB) : Collectible -> Draft -> DB -> Prop :=
| withdrawal_made_with row value slug draft d' :
    on_hand (withdraw_CollectibleID command) row value d -> Collectible_Catalog value = FromCatalog slug ->
    to_holder (withdraw_Draft command) value = inr draft ->
    changed (withdraw_CollectibleID command) (set_col_state "withdrawn") draft d d' ->
    withdrawal_made command d value draft d'.

Lemma WithdrawCollectible_wp command st (Q : WithdrawResult -> TxState -> Prop) :
  (forall reason st', st_base st' = st_base st -> Q (WithdrawRejected reason) st') ->
  (forall value draft d' k, withdrawal_made command (st_base st) value draft d' ->
     Q (CollectibleWithdrawn (set_State CollectibleStateWithdrawn value) [draft]) (MkTxState d' d' k)) ->
  wp env (WithdrawCollectible command) Q st.
Proof.
  destruct st as [d db0 n]. cbn [st_base]. intros Hf Hs. unfold WithdrawCollectible.
  do 2 tk_prim; [by apply Hf|]. cbn [st_base st_step]. apply wp_attempt, locked_collectible_wp; [by intros; apply Hf|].
  intros row value k Hrow Hv. destruct (Collectible_Catalog value) as [|slug] eqn:Ec; [tk_prim; by apply Hf|].
  case_match; [tk_prim; by apply Hf|]. destruct (in_state CollectibleStateMinted value) eqn:Em; cbn [negb]; [|tk_prim; by apply Hf].
  do 2 tk_prim; cbn; [by apply Hf|]. destruct (to_holder _ _) as [|draft] eqn:Ed; [tk_prim; by apply Hf|].
  apply record_and_commit_wp; [by intros; apply Hf|]. intros d' k1 Hc. apply Hs.
  apply (withdrawal_made_with _ _ row value slug); [by apply on_hand_intro|done..].
Qed.

(** A withdrawn collectible that no task holds is deleted. *)
Definition deleted (c : CollectibleID) (d d' : DB) : Prop :=
  (exists row, collectibles d !! TypedID_String c = Some row /\ col_state row = "withdrawn") /\
  task_fund_collectibles d !! TypedID_String c = None /\
  d' = with_collectibles (delete (TypedID_String c) (collectibles d)) d.

Lemma DeleteWithdrawnCollectible_wp c st (Q : DeleteCollectibleResult -> TxState -> Prop) :
  (forall reason st', st_base st' = st_base st -> Q (DeleteCollectibleRejected reason) st') ->
  (forall d' k, deleted c (st_base st) d' -> Q CollectibleDeleted (MkTxState d' d' k)) ->
  wp env (DeleteWithdrawnCollectible c) Q st.
Proof.
  destruct st as [d db0 n]. cbn [st_base]. intros Hf Hs. unfold DeleteWithdrawnCollectible.
  do 2 tk_prim; [by apply Hf|]. do 2 tk_prim; cbn [st_db]; [by apply Hf|]. case_bool_decide as Eh; [tk_prim; by apply Hf|].
  do 2 tk_prim; cbn -[delete_withdrawn]; [by apply Hf|]. destruct (delete_withdrawn _ d) as [|[tag d']] eqn:E; [by apply Hf|].
  unfold delete_withdrawn in E. destruct (collectibles d !! TypedID_String c) as [row|] eqn:Hrow; [|simplify_eq; cbn; tk_prim; by apply Hf].
  destruct (String.eqb_spec (col_state row) "withdrawn") as [Hw|]; [|simplify_eq; cbn; tk_prim; by apply Hf].
  rewrite bool_decide_false in E by done. simplify_eq. cbn. do 2 tk_prim; [by apply Hf|]. tk_prim. apply Hs.
  split; [by exists row|]. split; [by apply eq_None_not_Some|done].
Qed.

End CustodySpecs.
End CustodySpecs.

Local Open Scope string_scope.
Local Open Scope Z_scope.

Module GallerySpecs.
Export Gallery.
Export CustodySpecs.

Section GallerySpecs.
Context `{UUIDLib, World} {env : Env}.
Implicit Types (g base : Gallery) (m : Market) (n k : nat).

Lemma with_market_id g : with_market (market g) g = g.
Proof. by destruct g. Qed.

Lemma wp_on_market {A} (c : MOf Market A) (Q : A -> TxStateOf Gallery -> Prop) base g n :
  wp env c (fun a st => Q a (MkTxState (with_market (st_base st) base) (with_market (st_db st) g) (st_step st)))
    (MkTxState (market base) (market g) n) ->
  wp env (on_market c) Q (MkTxState base g n).
Proof. unfold wp, on_market. cbn [st_base st_db st_step]. by destruct (c _ _). Qed.

Lemma wp_gallery_time (Q : Z -> TxStateOf Gallery -> Prop) st : Q (server_now (st_step st)) st -> wp env gallery_time Q st.
Proof. done. Qed.

(** ** Donations *)

Lemma TransferCollectibleToOrganization_wp now command st (Q : GiftResult -> TxStateOf Market -> Prop) :
  (forall reason st', st_base st' = st_base st -> Q (GiftRejected reason) st') ->
  (forall value d k, TypedID_String (donate_OrganizationID command) ∈ organizations (st_base st) ->
     donation_made command (tables (st_base st)) value d ->
     Q (CollectibleGifted (set_OrganizationID (TypedID_String (donate_OrganizationID command))
         (set_Owner CollectibleOwnerKindOrganization (TypedID_String (donate_OrganizationID command)) value)) [donate_Draft command])
       (MkTxState (with_tables d (st_base st)) (with_tables d (st_base st)) k)) ->
  wp env (TransferCollectibleToOrganization now command) Q st.
Proof.
  destruct st as [m db0 n]. cbn [st_base]. intros Hf Hs. unfold TransferCollectibleToOrganization.
  do 2 tk_prim; [by apply Hf|]. cbn [st_base st_step]. apply wp_attempt, wp_on_tables, donation_checked_wp; cbn.
  { intros reason st ->. apply Hf. cbn. by rewrite with_tables_id. }
  intros row value k Hh Hw Horg. rewrite with_tables_id. do 2 tk_prim; cbn [st_db st_base]; [by apply Hf|].
  unfold donate_row. destruct Hh as [[Hrow Hv Hm] Ho]. rewrite Hrow. cbn -[bool_decide]. case_bool_decide as Ein; cbn; [|by apply Hf].
  apply wp_check, recordDraft_wp; [by intros; apply Hf|]. cbn. intros d k1 Hr. do 2 tk_prim; [by apply Hf|]. tk_prim. cbn.
  rewrite with_tables_twice. apply Hs; [done|]. by apply (donation_made_with _ _ row).
Qed.

(** ** Minting *)

(** The number of a mint in its series, and the free slot of a unique one. *)
Definition custom_number (issuer : string) (c : Collectible) (g : Gallery) (number : option Z) : Prop :=
  let name := CollectibleName_String (Collectible_Name c) in
  if String.eqb issuer "" then number = None
  else match Collectible_Kind c with
  | CollectibleKindUnique => number = None /\
      some_row (fun row => String.eqb (col_kind row) "unique" && of_issuer issuer name row && is_live row) g = false
  | CollectibleKindEdition => exists next, number = Some next /\ next_edition (of_issuer issuer name) g = inr next
  | CollectibleKindBadge => number = None
  end.

Definition issuer_text (c : Collectible) : string :=
  match Collectible_Issuer c with IssuedBy id => TypedID_String id | NoIssuer => "" end.

Inductive custom_made (c : Collectible) (g : Gallery) : option Z -> Gallery -> Prop :=
| custom_made_with number now g' :
    custom_number (issuer_text c) c g number ->
    insert_collectible (TypedID_String (Collectible_ID c)) (custom_row (issuer_text c) number c) now g = inr g' ->
    custom_made c g number g'.

Lemma number_custom_wp issuer c base g n (Q : DomainError + option Z -> TxStateOf Gallery -> Prop) :
  (forall reason st, st_base st = base -> Q (inl reason) st) ->
  (forall number k, custom_number issuer c g number -> Q (inr number) (MkTxState base g k)) ->
  wp env (number_custom issuer c) Q (MkTxState base g n).
Proof.
  intros Hf Hs. unfold number_custom. unfold custom_number in Hs. destruct (String.eqb issuer ""); [tk_prim; by apply Hs|].
  destruct (Collectible_Kind c); [| |tk_prim; by apply Hs].
  - do 2 tk_prim; cbn [st_db]; [by apply Hf|]. tk_prim. case_match; [by apply Hf|by apply Hs].
  - do 2 tk_prim; cbn [st_db]; [by apply Hf|]. destruct (next_edition _ g) eqn:E; [by apply Hf|]. tk_prim. apply Hs. by eexists.
Qed.

Lemma CreateCollectible_wp c st (Q : CreateStoreResult -> TxStateOf Gallery -> Prop) :
  (forall reason st', st_base st' = st_base st -> Q (CreateStoreRejected reason) st') ->
  (forall number g' k, custom_made c (st_base st) number g' ->
     Q (CreateStoreAccepted (set_Edition (edition_ref number) c)) (MkTxState g' g' k)) ->
  wp env (CreateCollectible c) Q st.
Proof.
  destruct st as [g db0 n]. cbn [st_base]. intros Hf Hs. unfold CreateCollectible. fold (issuer_text c).
  do 2 tk_prim; [by apply Hf|]. cbn [st_base st_step]. apply wp_bind, wp_gallery_time. cbn [st_step].
  apply wp_attempt, number_custom_wp; [by intros; apply Hf|]. intros number k Hn.
  do 2 tk_prim; cbn [st_db st_base]; [by apply Hf|]. destruct (insert_collectible _ _ _ g) as [|g'] eqn:E; [by apply Hf|].
  do 2 tk_prim; [by apply Hf|]. tk_prim. apply Hs. by econstructor.
Qed.

(** ** Catalog entries *)

(** An entry of the catalog as the store reads it. *)
Definition entry_read (slug : CatalogSlug) (g : Gallery) (row : CatalogRow) (entry : CatalogEntry) : Prop :=
  catalog_entries g !! CatalogSlug_String slug = Some row /\ parseCatalogEntry (CatalogSlug_String slug) row = inr entry.

Lemma scanned_entry_wp slug g st (Q : DomainError + CatalogEntry -> TxStateOf Gallery -> Prop) :
  (forall reason st', st_base st' = st_base st -> Q (inl reason) st') ->
  (forall row entry k, catalog_entries g !! slug = Some row -> parseCatalogEntry slug row = inr entry ->
     Q (inr entry) (MkTxState (st_base st) (st_db st) k)) ->
  forall read, (forall (R : StmtError + list CatalogRow -> TxStateOf Gallery -> Prop),
     R (inl ErrOther) (tick st) -> R (inr (option_list (catalog_entries g !! slug))) (tick st) -> wp env read R st) ->
  wp env (scanned_entry slug read) Q st.
Proof.
  intros Hf Hs read Hread. unfold scanned_entry. apply wp_attempt, Hread; [by apply Hf|].
  destruct (catalog_entries g !! slug) as [row|] eqn:E; cbn; [|tk_prim; by apply Hf].
  do 2 tk_prim; [tk_prim; by apply Hf|]. tk_prim. destruct (parseCatalogEntry slug row) eqn:Ep; [by apply Hf|by eapply Hs].
Qed.

Lemma findCatalogEntry_wp slug base g n (Q : DomainError + CatalogEntry -> TxStateOf Gallery -> Prop) :
  (forall reason st, st_base st = base -> Q (inl reason) st) ->
  (forall row entry k, entry_read slug g row entry -> Q (inr entry) (MkTxState base g k)) ->
  wp env (findCatalogEntry slug true) Q (MkTxState base g n).
Proof.
  intros Hf Hs. unfold findCatalogEntry. eapply scanned_entry_wp; cbn [st_base st_db]; [done| |].
  - intros row entry k Hrow Hp. by eapply Hs.
  - intros R Hr1 Hr2. by apply wp_query_rows.
Qed.

Lemma findCatalogEntry_base_wp slug st (Q : DomainError + CatalogEntry -> TxStateOf Gallery -> Prop) :
  (forall r st', st_base st' = st_base st -> (forall entry, r = inr entry -> exists row, entry_read slug (st_base st) row entry) -> Q r st') ->
  wp env (findCatalogEntry slug false) Q st.
Proof.
  intros Hs. unfold findCatalogEntry. eapply (scanned_entry_wp _ (st_base st)).
  - intros reason st' Hb. by apply Hs.
  - intros row entry k Hrow Hp. apply Hs; [done|]. intros ? [= <-]. by exists row.
  - intros R Hr1 Hr2. by apply wp_pool_query.
Qed.

Definition entry_added (entry : CatalogEntry) (g g' : Gallery) : Prop :=
  exists now, insert_entry (CatalogSlug_String (Entry_Slug entry)) (entry_row entry now) g = inr g'.

Lemma AddCatalogEntry_wp entry st (Q : CatalogMutationResult -> TxStateOf Gallery -> Prop) :
  (forall reason st', st_base st' = st_base st -> Q (CatalogMutationRejected reason) st') ->
  (forall st', entry_added entry (st_base st) (st_base st') -> Q (CatalogMutated entry) st') ->
  wp env (AddCatalogEntry entry) Q st.
Proof.
  intros Hf Hs. unfold AddCatalogEntry. apply wp_bind, wp_gallery_time, wp_bind, wp_autocommit; [tk_prim; by apply Hf|].
  destruct (insert_entry _ _ _) as [err|g'] eqn:E; rewrite ?bind_inl, ?bind_inr; cbn; tk_prim; [by destruct err; apply Hf|]. apply Hs. by eexists.
Qed.

(** The state of an entry switched; reading it back may fail after that. *)
Lemma switch_and_find_wp slug old new s1 s2 st (Q : CatalogMutationResult -> TxStateOf Gallery -> Prop) :
  (forall reason st', st_base st' = st_base st -> Q (CatalogMutationRejected reason) st') ->
  (forall r st', switch_entry (CatalogSlug_String slug) old new (st_base st) = inr (1, st_base st') ->
     (forall entry, r = CatalogMutated entry -> exists row, entry_read slug (st_base st') row entry) -> Q r st') ->
  wp env (switch_and_find slug old new s1 s2) Q st.
Proof.
  intros Hf Hs. unfold switch_and_find. apply wp_attempt, wp_autocommit; [by apply Hf|].
  destruct (switch_entry _ old new _) as [|[tag g']] eqn:E; [by apply Hf|]. cbv beta iota.
  destruct (Z.eqb_spec tag 1) as [->|Ht]; cbn [negb].
  - apply wp_attempt, findCatalogEntry_base_wp. cbn. intros [reason|entry] st' Hb He.
    + apply Hs; [by rewrite Hb|done].
    + tk_prim. apply Hs; [by rewrite Hb|]. intros ? [= <-]. rewrite Hb. by apply He.
  - tk_prim. apply Hf. cbn. unfold switch_entry in E. repeat case_match; by simplify_eq.
Qed.

(** An entry that no instance refers to is deleted. *)
Definition entry_deleted (slug : CatalogSlug) (g : Gallery) (entry : CatalogEntry) (g' : Gallery) : Prop :=
  (exists row, entry_read slug g row entry) /\ Entry_State entry = CatalogEntryStateWithdrawn /\
  some_row (of_entry (CatalogSlug_String slug)) g = false /\
  g' = with_catalog (delete (CatalogSlug_String slug) (catalog_entries g)) g.

Lemma DeleteCatalogEntry_wp slug st (Q : CatalogMutationResult -> TxStateOf Gallery -> Prop) :
  (forall reason st', st_base st' = st_base st -> Q (CatalogMutationRejected reason) st') ->
  (forall entry g' k, entry_deleted slug (st_base st) entry g' -> Q (CatalogMutated entry) (MkTxState g' g' k)) ->
  wp env (DeleteCatalogEntry slug) Q st.
Proof.
  destruct st as [g db0 n]. cbn [st_base]. intros Hf Hs. unfold DeleteCatalogEntry.
  do 2 tk_prim; [by apply Hf|]. cbn [st_base st_step]. apply wp_attempt, findCatalogEntry_wp; [by intros; apply Hf|].
  intros row entry k He. case_bool_decide as Ew; cbn [negb]; [|tk_prim; by apply Hf].
  do 2 tk_prim; cbn [st_db]; [by apply Hf|]. destruct (some_row _ g) eqn:Ei; [tk_prim; by apply Hf|].
  do 2 tk_prim; cbn; [by apply Hf|]. do 2 tk_prim; [by apply Hf|]. tk_prim. apply Hs. repeat split; [by exists row|done..].
Qed.

(** ** Awards *)

Definition award_number (slug : string) (entry : CatalogEntry) (g : Gallery) (number : option Z) : Prop :=
  match Entry_Kind entry with
  | CollectibleKindUnique => number = None /\ some_row (fun row => of_entry slug row && is_live row) g = false
  | CollectibleKindEdition => exists next, number = Some next /\ next_edition (of_entry slug) g = inr next /\
      forall limit, Entry_Cap entry = EditionCapOf limit -> next <= limit
  | CollectibleKindBadge => number = None
  end.

Lemma number_award_wp slug entry base g n (Q : DomainError + option Z -> TxStateOf Gallery -> Prop) :
  (forall reason st, st_base st = base -> Q (inl reason) st) ->
  (forall number k, award_number slug entry g number -> Q (inr number) (MkTxState base g k)) ->
  wp env (number_award slug entry) Q (MkTxState base g n).
Proof.
  intros Hf Hs. unfold number_award. unfold award_number in Hs. destruct (Entry_Kind entry); [| |tk_prim; by apply Hs].
  - do 2 tk_prim; cbn [st_db]; [by apply Hf|]. tk_prim. case_match; [by apply Hf|by apply Hs].
  - do 2 tk_prim; cbn [st_db]; [by apply Hf|]. destruct (next_edition _ g) as [|next] eqn:E; [by apply Hf|]. tk_prim.
    match goal with |- context [if ?over then _ else _] => destruct over eqn:Ec end; [by apply Hf|].
    apply Hs. exists next. split; [done|]. split; [done|]. intros limit Hl. rewrite Hl in Ec. lia.
Qed.

Inductive award_minted (command : AwardFromCatalogStoreCommand) (g : Gallery) : CatalogEntry -> option Z -> Gallery -> Prop :=
| award_minted_with row entry number now g' :
    entry_read (award_Slug command) g row entry -> Entry_State entry = CatalogEntryStateAvailable ->
    award_number (CatalogSlug_String (award_Slug command)) entry g number ->
    insert_collectible (TypedID_String (award_NewID command)) (awarded_row command entry number) now g = inr g' ->
    award_minted command g entry number g'.

Definition awarded_value (command : AwardFromCatalogStoreCommand) (entry : CatalogEntry) (number : option Z) : Collectible :=
  MkCollectible (award_NewID command) (Entry_Name entry) (Entry_Kind entry) CollectibleStateMinted
    (Entry_Policy entry) (award_OwnerKind command) (award_OwnerID command) (award_OrganizationID command) (Entry_Art entry)
    (FromCatalog (award_Slug command)) (edition_ref number) (IssuedBy (award_Issuer command)).

Lemma AwardFromCatalog_wp command st (Q : CreateStoreResult -> TxStateOf Gallery -> Prop) :
  (forall reason st', st_base st' = st_base st -> Q (CreateStoreRejected reason) st') ->
  (forall entry number g' k, award_minted command (st_base st) entry number g' ->
     Q (CreateStoreAccepted (awarded_value command entry number)) (MkTxState g' g' k)) ->
  wp env (AwardFromCatalog command) Q st.
Proof.
  destruct st as [g db0 n]. cbn [st_base]. intros Hf Hs. unfold AwardFromCatalog.
  do 2 tk_prim; [by apply Hf|]. cbn [st_base st_step]. apply wp_bind, wp_gallery_time. cbn [st_step].
  apply wp_attempt, findCatalogEntry_wp; [by intros; apply Hf|]. intros row entry k He.
  case_bool_decide as Ea; cbn [negb]; [|tk_prim; by apply Hf].
  apply wp_attempt, number_award_wp; [by intros; apply Hf|]. intros number k1 Hn.
  do 2 tk_prim; cbn [st_db st_base]; [by apply Hf|]. destruct (insert_collectible _ _ _ g) as [|g'] eqn:E; [by apply Hf|].
  do 2 tk_prim; [by apply Hf|]. tk_prim. apply Hs. by econstructor.
Qed.

(** ** Release *)

Inductive release_made (command : ReleaseCollectibleStoreCommand) (g : Gallery) : Collectible -> Draft -> Gallery -> Prop :=
| release_made_with row value slug crow entry draft g1 d :
    rows_of g !! TypedID_String (release_CollectibleID command) = Some row ->
    parseCollectible (TypedID_String (release_CollectibleID command)) row = collectibleParsed value -> col_state row = "withdrawn" ->
    Collectible_Catalog value = FromCatalog slug -> entry_read slug g crow entry ->
    (Entry_Kind entry = CollectibleKindUnique -> some_row (fun row => of_entry (CatalogSlug_String slug) row && is_live row) g = false) ->
    mint_again (TypedID_String (release_CollectibleID command)) g = inr g1 ->
    to_holder (release_Draft command) value = inr draft -> recorded (tables (market g1)) [draft] d ->
    release_made command g value draft (with_market (with_tables d (market g1)) g1).

Lemma slot_free_wp slug entry base g n (Q : option DomainError -> TxStateOf Gallery -> Prop) :
  (forall reason st, st_base st = base -> Q (Some reason) st) ->
  (forall k, (Entry_Kind entry = CollectibleKindUnique -> some_row (fun row => of_entry slug row && is_live row) g = false) ->
     Q None (MkTxState base g k)) ->
  wp env (slot_free slug entry) Q (MkTxState base g n).
Proof.
  intros Hf Hs. unfold slot_free. case_bool_decide as Ek; [|tk_prim; by apply Hs].
  do 2 tk_prim; cbn [st_db]; [tk_prim; by apply Hf|]. tk_prim. case_match; [by apply Hf|by apply Hs].
Qed.

Lemma in_state_withdrawn value row :
  ParseCollectibleState (col_state row) = CollectibleStateAccepted (Collectible_State value) ->
  in_state CollectibleStateWithdrawn value = true -> col_state row = "withdrawn".
Proof.
  unfold in_state. rewrite bool_decide_eq_true. intros Hp E. rewrite E in Hp. apply switch_inv in Hp as [|Hp]; [done|].
  repeat (apply elem_of_cons in Hp as [Hp|Hp]; [by inv Hp|]). by apply not_elem_of_nil in Hp.
Qed.

Lemma ReleaseCollectible_wp now command st (Q : ReleaseResult -> TxStateOf Gallery -> Prop) :
  (forall reason st', st_base st' = st_base st -> Q (ReleaseRejected reason) st') ->
  (forall value draft g' k, release_made command (st_base st) value draft g' ->
     Q (CollectibleReleased (set_State CollectibleStateMinted value) [draft]) (MkTxState g' g' k)) ->
  wp env (ReleaseCollectible now command) Q st.
Proof.
  destruct st as [g db0 n]. cbn [st_base]. intros Hf Hs. unfold ReleaseCollectible.
  do 2 tk_prim; [by apply Hf|]. cbn [st_base st_step]. apply wp_attempt, wp_on_market, wp_on_tables, locked_collectible_wp; cbn.
  { intros reason st ->. apply Hf. cbn. by rewrite with_tables_id, with_market_id. }
  intros row value k Hrow Hv. rewrite with_tables_id, with_market_id.
  destruct (in_state CollectibleStateWithdrawn value) eqn:Ew; cbn [negb]; [|tk_prim; by apply Hf].
  destruct (Collectible_Catalog value) as [|slug] eqn:Ec; [tk_prim; by apply Hf|].
  apply wp_attempt, findCatalogEntry_wp; [by intros; apply Hf|]. intros crow entry k1 He.
  apply wp_check, slot_free_wp; [by intros; apply Hf|]. intros k2 Hfree.
  do 2 tk_prim; cbn [st_db st_base]; [by apply Hf|]. destruct (mint_again _ g) as [|g1] eqn:Em; [by apply Hf|].
  destruct (to_holder _ _) as [|draft] eqn:Ed; [tk_prim; by apply Hf|].
  apply wp_check, wp_on_market, recordDraft_wp; cbn.
  { intros err st ->. apply Hf. cbn. by rewrite with_market_id. }
  intros d k3 Hr. do 2 tk_prim; cbn; rewrite ?with_market_id; [by apply Hf|]. tk_prim. apply Hs.
  apply (release_made_with _ _ row value slug crow entry draft g1 d); [done..| |done|done|done|done|done|done].
  pose proof (parseCollectible_inv _ _ _ Hv) as (_ & _ & Hst & _). by eapply in_state_withdrawn.
Qed.

End GallerySpecs.
End GallerySpecs.
