(* ===== verification/Lifecycle.v ===== *)
(** * The life of the market

    The commits of the task store and of the ledger store as one step relation on
    the database of the market, every operation as a run of such steps, and what
    holds after any number of them. *)

From S2P Require Import Prelude.
From S2P Require Import Core.
From S2P Require Import Events.
From S2P Require Import TaskValues.
From S2P Require Import TaskWork.
From S2P Require Import LedgerValues.
From S2P Require Import Database.
From S2P Require Import Tx.
From S2P Require Import LedgerSpec.
From S2P Require Import Outbox.
From S2P Require Import LedgerHelpers.
From S2P Require Import LedgerStore.
From S2P Require Import HelperSpecs.
From S2P Require Import ReviewSpecs.
From S2P Require Import StoreSpecs.
From S2P Require Import Refinement.
From S2P Require Import LedgerCorrect.
From S2P Require Import LedgerBehaviour.
From S2P Require Import LedgerInvariants.
From S2P Require Import EscrowSpecs.
From S2P Require Import TaskDB.
From S2P Require Import TaskRows.
From S2P Require Import TaskStore.
From S2P Require Import TaskSpecs.
From S2P Require Import SweepSpecs.
From S2P Require Import ReservationSpecs.
From S2P Require Import CreationSpecs.
Local Open Scope string_scope.
Local Open Scope Z_scope.

(** ** Operations *)

Inductive Operation :=
| OLedger (c : Command)
| OCreateTask (seriesID : TaskSeriesID) (taskID : TaskID) (command : Tasks.CreateCommand)
| OChangeTaskState (taskID : TaskID) (state : Task.State) (plan : Plan)
| OCreateReservation (reservationID : TaskReservationID) (command : Tasks.ReservationCommand)
| OChangeReservationState (taskID : TaskID) (reservationID : TaskReservationID) (state : Task.ReservationState) (plan : Plan)
| OExpireDueTasks
| OExpireDueReservations.

(** The service asks the store for these states only. *)
Definition requested_state (state : Task.State) : Prop :=
  state = Task.StateDraft \/ state = Task.StateOpen \/ state = Task.StateCancelled.

Definition released_state (state : Task.ReservationState) : Prop :=
  state = Task.ReservationStateCancelledByWorker \/ state = Task.ReservationStateCancelledByRequester.

Definition valid_operation (op : Operation) : Prop :=
  match op with
  | OLedger c => valid_command c
  | OChangeTaskState _ state _ => requested_state state
  | OChangeReservationState _ _ state _ => released_state state
  | _ => True
  end.

Section Lifecycle.
Context `{UUIDLib, URLLib, World}.
Implicit Types (m : Market) (d : DB).

Definition ignore {S A} (c : MOf S A) : MOf S unit := _ ← c; mret tt.

Definition operate (op : Operation) : MOf Market unit :=
  match op with
  | OLedger c => fun env => ignore (on_tables (env_tx_now env) (perform c)) env
  | OCreateTask seriesID taskID command => ignore (Tasks.CreateTask seriesID taskID command)
  | OChangeTaskState taskID state plan => ignore (Tasks.ChangeTaskState taskID state plan)
  | OCreateReservation reservationID command => ignore (Tasks.CreateReservation reservationID command)
  | OChangeReservationState taskID reservationID state plan => ignore (Tasks.ChangeReservationState taskID reservationID state plan)
  | OExpireDueTasks => ignore Sweeps.ExpireDueTasks
  | OExpireDueReservations => ignore Sweeps.ExpireDueReservations
  end.

(** The market after an operation, and after a schedule of them. *)
Definition after (env : Env) (m : Market) (op : Operation) : Market := snd (run env m (operate op)).

Definition after_all (schedule : list (Env * Operation)) (m : Market) : Market :=
  foldl (fun m eo => after eo.1 m eo.2) m schedule.

(** ** Commits *)

(** A commit of the task store; the tasks it creates are the ones [asked] for. *)
Inductive task_commit (asked : Tasks.CreateCommand -> Prop) (m : Market) : Market -> Prop :=
| commit_created seriesID taskID command m' : asked command -> created seriesID taskID command m m' -> task_commit asked m m'
| commit_state taskID state plan ds m' : requested_state state -> state_changed taskID state plan m ds m' -> task_commit asked m m'
| commit_lapsed now ds m' : lapsed_released now m ds m' -> task_commit asked m m'
| commit_refusal m' : refusal_counted m m' -> task_commit asked m m'
| commit_reserved reservationID command m' : reserved reservationID command m m' -> task_commit asked m m'
| commit_reservation taskID reservationID state plan ds m' :
    released_state state -> reservation_changed taskID reservationID state plan m ds m' -> task_commit asked m m'
| commit_expired taskID draft m' : task_expired taskID m draft m' -> task_commit asked m m'.

(** A commit of either store. *)
Inductive commit (asked : Tasks.CreateCommand -> Prop) (m : Market) : Market -> Prop :=
| commit_ledger c r d : valid_command c -> performed c (tables m) r d -> commit asked m (with_tables d m)
| commit_tasks m' : task_commit asked m m' -> commit asked m m'.

(** The creation an operation asks for. *)
Definition asked_by (op : Operation) (command : Tasks.CreateCommand) : Prop := exists seriesID taskID, op = OCreateTask seriesID taskID command.

Lemma wp_ignore {S A} env (c : MOf S A) (Q : unit -> TxStateOf S -> Prop) st :
  wp env c (fun _ st' => Q tt st') st -> wp env (ignore c) Q st.
Proof. intros Hw. apply wp_bind. eapply wp_mono; [exact Hw|]. intros a st' HQ. by apply wp_ret. Qed.

Lemma wp_after env m op (P : Market -> Prop) :
  wp env (operate op) (fun _ st => P (st_base st)) (MkTxState m m 0) -> P (after env m op).
Proof. intros (st & HP & Hb)%wp_run. unfold after. by rewrite Hb. Qed.

Lemma housekept_commits asked m m' : housekept m m' -> task_commit asked m m'.
Proof. intros (now & ds & Hl). by eapply commit_lapsed. Qed.

(** Identifiers are stored as the database prints them. *)
Definition keys_printed (m : Market) : Prop := map_Forall (fun key _ => canonical key) (tasks (tables m)).

Lemma expire_all_commits asked env raws acc st :
  Forall canonical raws ->
  wp env (Sweeps.expire_all raws acc) (fun _ st' => rtc (task_commit asked) (st_base st) (st_base st')) st.
Proof.
  revert acc st. induction raws as [|raw raws IH]; intros acc st Hraws; cbn [Sweeps.expire_all]; [by apply wp_ret|].
  apply List.Forall_cons_iff in Hraws as [Hraw Hraws]. apply wp_bind, expireOneTask_wp; [done|]. intros r st1 Hr.
  destruct r as [draft| |reason].
  - destruct Hr as (t & _ & Ht). eapply wp_mono; [by apply IH|]. cbn. intros _ st2 Hc. eapply rtc_l; [by eapply commit_expired|done].
  - destruct Hr as [Hb _]. eapply wp_mono; [by apply IH|]. cbn. by rewrite Hb.
  - cbn in Hr. apply wp_ret. by rewrite Hr.
Qed.

Lemma due_tasks_canonical now m : keys_printed m -> Forall canonical (Sweeps.due_tasks now m).
Proof.
  intros Hk. apply List.Forall_forall. intros raw Hin%list_elem_of_In%due_tasks_elem. destruct Hin as (row & columns & [Hrow _]%task_row_Some & _).
  by apply (Hk _ _ Hrow).
Qed.

(** Every operation of the task store is a run of its commits. *)
Lemma operation_task_commits env m op :
  (forall c, op <> OLedger c) -> valid_operation op -> keys_printed m -> rtc (task_commit (asked_by op)) m (after env m op).
Proof.
  intros Hnl Hv Hkeys. apply (wp_after env m op (rtc (task_commit (asked_by op)) m)). destruct op as [c|s t command|t state plan|r command|t r state plan| |];
    cbn [operate valid_operation] in *.
  - by destruct (Hnl c).
  - apply wp_ignore, CreateTask_wp. cbn. intros r st [[_ ->]|[Hc _]]; [done|]. eapply rtc_once, commit_created, Hc. by exists s, t.
  - apply wp_ignore, ChangeTaskState_wp. cbn. intros r st [[_ ->]|(ds & Hc & _)]; [done|]. by eapply rtc_once, commit_state.
  - apply wp_ignore, CreateReservation_wp. cbn. intros res st [[_ [->|(m1 & Hk & Hr)]]|(m1 & Hk & Hr)]; [done|..].
    + eapply rtc_l, rtc_once; [by apply housekept_commits|by apply commit_refusal].
    + eapply rtc_l, rtc_once; [by apply housekept_commits|by eapply commit_reserved].
  - apply wp_ignore, ChangeReservationState_wp. cbn. intros res st [[_ [->|Hk]]|(m1 & ds & Hk & Hr & _)]; [done|..].
    + by apply rtc_once, housekept_commits.
    + eapply rtc_l, rtc_once; [by apply housekept_commits|by eapply commit_reservation].
  - apply wp_ignore. unfold Sweeps.ExpireDueTasks. do 2 tk_prim. apply wp_attempt, read_rows_wp. cbn. intros [reason|raws] st Hb _ Hraws; [by rewrite Hb|].
    eapply wp_mono; [apply expire_all_commits|by rewrite Hb]. apply scanned_as_is in Hraws as ->. by apply due_tasks_canonical.
  - apply wp_ignore, ExpireDueReservations_wp; cbn; [by intros reason st ->|]. intros ds m' k Hl. by eapply rtc_once, commit_lapsed.
Qed.

Lemma ledger_operation env m c :
  valid_command c -> ledger_ok (tables m) -> exists r d, performed c (tables m) r d /\ after env m (OLedger c) = with_tables d m.
Proof.
  intros Hv Hok. pose proof (perform_spec env (tables m) c (ledger_funds _ Hok) Hv) as Hp.
  apply (wp_after env m (OLedger c) (fun m' => exists r d, performed c (tables m) r d /\ m' = with_tables d m)).
  apply wp_ignore, wp_on_tables. unfold wp, run in *. replace (at_time (env_tx_now env) env) with env by by destruct env. cbn.
  destruct (perform c env (MkTxState (tables m) (tables m) 0)) as [r st]. cbn in *. by exists r, (st_base st).
Qed.

(** Every operation is a run of commits. *)
Lemma operation_commits env m op :
  valid_operation op -> ledger_ok (tables m) -> keys_printed m -> rtc (commit (asked_by op)) m (after env m op).
Proof.
  intros Hv Hok Hkeys. destruct op as [c| | | | | |].
  { destruct (ledger_operation env m c Hv Hok) as (r & d & Hp & ->). by eapply rtc_once, commit_ledger. }
  all: eapply (rtc_subrel (task_commit _)); [by apply commit_tasks|by apply operation_task_commits].
Qed.

(** ** Ended tasks *)

Lemma settlement_ended now t key d us d1 d2 state ds d3 :
  settlement now t key d us d1 -> update_task_state (TypedID_String t) state d1 = inr d2 -> recorded d2 ds d3 ->
  ended_unencumbered d -> ended_unencumbered d3.
Proof.
  intros Hs Hu Hr. pose proof (recorded_lightened _ _ _ Hr) as Hl.
  apply (lightened_ended (TypedID_String t)).
  - intros u Hne. apply recorded_with_events in Hr as (e & r & ->). cbn.
    by rewrite (update_task_state_others _ _ _ _ _ Hu), (settlement_tasks _ _ _ _ _ _ Hs).
  - intros row _ _. eapply unencumbered_lightened, unencumbered_lightened, settlement_unencumbered, Hs; [exact Hl|by eapply task_state_lightened].
  - etrans; [by eapply settlement_lightened|]. by etrans; [eapply task_state_lightened|].
Qed.

Lemma state_changed_ended t state plan m ds m' :
  requested_state state -> state_changed t state plan m ds m' -> ended_unencumbered (tables m) -> ended_unencumbered (tables m').
Proof.
  intros Hstate [now row us d1 d2 ds' d3 Hrow _ Hset Hu _ Hr]. cbn. destruct (decide (state = Task.StateCancelled)) as [->|Hne].
  { by eapply settlement_ended. }
  destruct Hset as [_ ->]. apply (lightened_ended (TypedID_String t)).
  - intros u Hne'. apply recorded_with_events in Hr as (e & r & ->). cbn. by apply (update_task_state_others _ _ _ _ _ Hu).
  - intros row' Hrow' He. exfalso. apply recorded_with_events in Hr as (e & r & ->). cbn in Hrow'.
    apply (update_task_state_rows _ _ row) in Hu as ->; [|done]. cbn in Hrow'. rewrite lookup_insert_eq in Hrow'. simplify_eq. cbn in He.
    destruct Hstate as [->|[->| ->]]; [by destruct He..|done].
  - by etrans; [eapply task_state_lightened|eapply recorded_lightened].
Qed.

Lemma expire_lapsed_inv now m released m1 :
  expire_lapsed now m = (released, m1) ->
  m1 = with_tables (with_reservations (map_imap (fun id row => Some (if lapsed now m id row then set_res_state "expired" row else row))
    (task_reservations (tables m))) (tables m)) m.
Proof. by intros [= _ <-]. Qed.

Lemma lapsed_lightened now m ds m' : lapsed_released now m ds m' -> lightened (tables m) (tables m') /\ tasks (tables m') = tasks (tables m).
Proof.
  intros [released m1 d Hl%expire_lapsed_inv _ Hr]. subst m1. cbn in *. pose proof (recorded_lightened _ _ _ Hr) as Hl2.
  apply recorded_with_events in Hr as (e & r & ->). split; [|done]. etrans; [|exact Hl2]. split; cbn; [done..|].
  intros i row'. rewrite map_lookup_imap, bind_Some. intros (row & Hrow & [= <-]). exists row. split; [done|]. intros t. case_match; [|done].
  by rewrite non_terminal_set_state.
Qed.

Lemma insert_reservation_inv reservation row columns m m' :
  insert_reservation reservation row columns m = inr m' ->
  m' = with_reservation_columns (<[reservation := columns]> (reservation_columns m))
         (with_tables (with_reservations (<[reservation := row]> (task_reservations (tables m))) (tables m)) m) /\
  one_active (<[reservation := row]> (task_reservations (tables m))) /\ task_reservations (tables m) !! reservation = None.
Proof.
  unfold insert_reservation. repeat case_bool_decide; repeat case_match; intros [=]; subst; try done.
  all: rewrite ?negb_false_iff, ?bool_decide_eq_true in *; by repeat split; [|apply eq_None_not_Some].
Qed.

Lemma origin_charged_frame origin m d : origin_charged origin m d -> exists cs, d = with_counters cs (tables m).
Proof.
  destruct origin; cbn; [intros ->; exists (work_day_counters (tables m)); by destruct (tables m)|].
  intros (_ & _ & Hc). by apply charged_counter_frame in Hc.
Qed.

Lemma reserved_ended id command m m' : reserved id command m m' -> ended_unencumbered (tables m) -> ended_unencumbered (tables m').
Proof.
  intros [now row columns d1 m2 d3 [Hrow _]%task_row_Some Hopen _ _ _ _ [cs ->]%origin_charged_frame Hi (e & r & ->)%recorded_with_events].
  apply insert_reservation_inv in Hi as (-> & _ & _). apply ended_step. cbn. intros t urow Hu He. right. split; [by exists urow|].
  assert (t <> TypedID_String (Tasks.reserve_TaskID command)) as Hne by (intros ->; rewrite Hrow in Hu; simplify_eq; rewrite Hopen in He; by destruct He).
  intros [Hnf Hnh Hnr]. split; [done..|]. cbn. apply map_Forall_insert_2; [|done]. unfold non_terminal. cbn.
  by rewrite (proj2 (String.eqb_neq _ _)) by congruence.
Qed.

Lemma reservation_changed_lightened t id state plan m ds m' :
  released_state state -> reservation_changed t id state plan m ds m' -> lightened (tables m) (tables m') /\ tasks (tables m') = tasks (tables m).
Proof.
  intros Hstate [row ds' d Hrow _ _ _ Hr]. pose proof (recorded_lightened _ _ _ Hr) as Hl.
  apply recorded_with_events in Hr as (e & r & ->). split; [|done]. etrans; [|exact Hl]. split; cbn; [done..|].
  intros i row'. rewrite lookup_insert. case_decide as E; [|intros Hi; by exists row']. subst i. intros [= <-]. exists row. split; [done|].
  intros u. rewrite non_terminal_set_state; [done|by destruct Hstate as [->| ->]..].
Qed.

(** *** Creation *)

Lemma placed_tables seriesID command m series m' : placed seriesID command m series m' -> tables m' = tables m.
Proof.
  intros [| |]; [done| |done]. match goal with Hi : context [insert_series] |- _ => revert Hi end. cbv zeta. unfold insert_series.
  repeat case_match; intros [=]; by subst.
Qed.

Lemma insert_task_inv task row columns m m' :
  insert_task task row columns m = inr m' ->
  tasks (tables m) !! task = None /\ exists stored, stored_columns columns = Some stored /\
    m' = with_columns (<[task := stored]> (task_columns m)) (with_tables (with_tasks (<[task := row]> (tasks (tables m))) (tables m)) m).
Proof.
  unfold insert_task. destruct (stored_columns columns) as [stored|]; [|done].
  repeat match goal with |- (if ?b then _ else _) = _ -> _ => destruct b eqn:?; [done|] end.
  intros [= <-]. split; [|by exists stored]. match goal with E : bool_decide (is_Some _) = false |- _ => by apply bool_decide_eq_false, eq_None_not_Some in E end.
Qed.

Lemma insert_visibility_tables row m m' : insert_visibility row m = inr m' -> tables m' = tables m.
Proof. unfold insert_visibility. repeat case_match; intros [=]; by subst. Qed.

Lemma attached_tables t index values m m' : attached t index values m m' -> tables m' = tables m.
Proof.
  induction 1 as [|index value values m m1 m2 Hi _ IH]; [done|]. rewrite IH. unfold insert_attachment in Hi. repeat split_match_in Hi; by simplify_eq.
Qed.

(** The tables a created task leaves, before its escrow. *)
Lemma created_tables seriesID t command m m' :
  created seriesID t command m m' ->
  tasks (tables m) !! TypedID_String t = None /\
  escrows t (Tasks.create_Actor command) (Tasks.create_FundCollectibleIDs command)
    (with_tasks (<[TypedID_String t := Tasks.created_row command]> (tasks (tables m))) (tables m)) (tables m').
Proof.
  intros [now series m1 m2 m3 m4 d5 Hp%placed_tables (Hnone & stored & _ & ->)%insert_task_inv Hv%insert_visibility_tables Ha%attached_tables He].
  rewrite <- Hp. split; [done|]. by rewrite Ha, Hv in He.
Qed.

Lemma held_for_inv t funder c d d' :
  held_for t funder c d d' ->
  task_fund_collectibles d !! TypedID_String c = None /\
  exists row, collectibles d !! TypedID_String c = Some row /\ col_owner_kind row = "user" /\ col_owner_user_id row = TypedID_String funder /\
    col_state row = "minted" /\
    d' = with_fund_collectibles (<[TypedID_String c := TypedID_String t]> (task_fund_collectibles d))
           (with_collectibles (<[TypedID_String c := set_col_state "escrowed" row]> (collectibles d)) d).
Proof.
  intros [row d1 Hrow Hk Ho Hm Hi]. unfold Tasks.insert_fund_collectible in Hi. split_match_in Hi; [done|].
  split_match_in Hi; [done|]. injection Hi as <-. cbn in *. split; [by apply bool_decide_eq_false, eq_None_not_Some in E0|].
  exists row. repeat (split; [done|]). f_equal. f_equal. apply map_eq. intros i. destruct (decide (TypedID_String c = i)) as [<-|Hne].
  - by rewrite lookup_alter_eq, lookup_insert_eq, Hrow.
  - by rewrite lookup_alter_ne, lookup_insert_ne.
Qed.

(** Escrowing only adds holds on the new task. *)
Lemma escrows_frame t funder cs d d' :
  escrows t funder cs d d' ->
  tasks d' = tasks d /\ task_funds d' = task_funds d /\ task_reservations d' = task_reservations d /\ ledger_entries d' = ledger_entries d /\
  forall c u, task_fund_collectibles d' !! c = Some u -> u <> TypedID_String t -> task_fund_collectibles d !! c = Some u.
Proof.
  induction 1 as [d|c cs d d1 d2 Hh _ (Ht & Hf & Hr & He & IH)]; [done|].
  apply held_for_inv in Hh as (_ & row & _ & _ & _ & _ & ->). cbn in *. repeat (split; [done|]). intros i u Hi Hne.
  specialize (IH _ _ Hi Hne). rewrite lookup_insert in IH. case_decide; [congruence|done].
Qed.

Lemma escrows_custody t funder cs d d' : escrows t funder cs d d' -> custody d -> custody d'.
Proof.
  induction 1 as [d|c cs d d1 d2 Hh _ IH]; [done|]. intros Hc. apply IH. apply held_for_inv in Hh as (Hnone & row & Hrow & _ & _ & _ & ->).
  intros i. cbn. rewrite !lookup_insert. case_decide as E; [|apply Hc]. split; [|by eexists]. intros _. by eexists.
Qed.

Lemma created_ended seriesID t command m m' : created seriesID t command m m' -> ended_unencumbered (tables m) -> ended_unencumbered (tables m').
Proof.
  intros Hc. apply created_tables in Hc as [Hnone (Ht & Hf & Hr & _ & Hheld)%escrows_frame].
  apply ended_step. rewrite Ht. cbn. intros u row. rewrite lookup_insert. case_decide as E; [intros [= <-] [|]; done|].
  intros Hrow He. right. split; [by exists row|]. intros [Hnf Hnh Hnr]. split; [by rewrite Hf| |by rewrite Hr].
  rewrite held_none in *. intros c Hu. apply Hheld in Hu; [by eapply Hnh|congruence].
Qed.

(** *** Every commit *)

Lemma commit_ended asked m m' : commit asked m m' -> ended_unencumbered (tables m) -> ended_unencumbered (tables m').
Proof.
  intros [c r d Hv Hp|m0 [s t command m1 Ha Hc|t state plan ds m1 Hs Hc|now ds m1 Hl|m1 (d & [cs ->]%refused_frame & ->)|id command m1 Hr
         |t id state plan ds m1 Hs Hr|t draft m1 He]].
  - by eapply performed_ended.
  - by eapply created_ended.
  - by eapply state_changed_ended.
  - apply lapsed_lightened in Hl as [Hl Ht]. by apply same_tasks_ended.
  - apply same_tasks_ended; [done|]. by apply same_escrow_lightened.
  - by eapply reserved_ended.
  - apply reservation_changed_lightened in Hr as [Hl Ht]; [|done]. by apply same_tasks_ended.
  - destruct He as [now row columns owner us i d1 d2 d3 _ _ _ _ Hset Hu _ Hrec]. by eapply settlement_ended.
Qed.

Lemma settlement_custody now t key d us d' : settlement now t key d us d' -> custody d -> custody d'.
Proof.
  intros [d2 d3 (d1 & Hc & Hh) _ Hr] Hd. apply update_reservations_eq in Hr. subst d3. apply (same_custody d2); [done..|].
  destruct (credit_refunded_frame _ _ _ _ _ Hc) as (_ & _ & Hcol & Hheld & _). apply (same_custody _ _ Hcol Hheld) in Hd.
  destruct Hh as [[_ ->]|[_ ->]]; [done|]. by apply released_custody.
Qed.

Lemma commit_custody asked m m' : commit asked m m' -> custody (tables m) -> custody (tables m').
Proof.
  intros [c r d Hv Hp|m0 [s t command m1 Ha Hc|t state plan ds m1 Hs Hc|now ds m1 Hl|m1 (d & [cs ->]%refused_frame & ->)|id command m1 Hr
         |t id state plan ds m1 Hs Hr|t draft m1 He]].
  - by eapply performed_custody.
  - apply created_tables in Hc as [_ He]. intros Hd. eapply escrows_custody; [exact He|]. by apply (same_custody (tables m)).
  - destruct Hc as [now row us d1 d2 ds' d3 _ _ Hset [ts ->]%update_task_state_inr _ (e & r & ->)%recorded_with_events]. intros Hd.
    apply (same_custody d1); [done..|]. case_decide; [by eapply settlement_custody|]. by destruct Hset as [_ ->].
  - destruct Hl as [released m2 d Hl%expire_lapsed_inv _ (e & r & ->)%recorded_with_events]. subst m2. by apply same_custody.
  - by apply same_custody.
  - destruct Hr as [now row columns d1 m2 d3 _ _ _ _ _ _ [cs ->]%origin_charged_frame (-> & _)%insert_reservation_inv (e & r & ->)%recorded_with_events].
    by apply same_custody.
  - destruct Hr as [row ds' d _ _ _ _ (e & r & ->)%recorded_with_events]. by apply same_custody.
  - destruct He as [now row columns owner us i d1 d2 d3 _ _ _ _ Hset [ts ->]%update_task_state_inr _ (e & r & ->)%recorded_with_events]. intros Hd.
    apply (same_custody d1); [done..|]. by eapply settlement_custody.
Qed.

(** ** Credits *)

(** Escrowed credits only go back to their funder. *)
Definition refunds (d d' : DB) : Prop :=
  exists ms, Forall (fun mv => exists t, mv = Refund t) ms /\ apply_movements ms (view d) = Some (view d').

Lemma same_view_refunds d d' : view d' = view d -> refunds d d'.
Proof. intros E. exists []. by rewrite E. Qed.

Lemma refunds_trans d1 d2 d3 : refunds d1 d2 -> refunds d2 d3 -> refunds d1 d3.
Proof.
  intros (ms & Hms & E1) (ns & Hns & E2). exists (ms ++ ns)%list. split; [by apply Forall_app|]. by rewrite apply_movements_app, E1.
Qed.

Lemma refunds_ok d d' : refunds d d' -> ledger_ok d -> ledger_ok d' /\ supply (view d') = supply (view d).
Proof.
  intros (ms & Hms & E) [Hb Hf].
  assert (sum_Z (movement_issue <$> ms) = 0 /\ Forall movement_bounded ms) as [Hi Hbound].
  { clear E. induction Hms as [|mv ms (t & ->) _ [IHs IHb]]; [done|]. split; [cbn; unfold sum_Z in *; lia|by constructor]. }
  split; [split; [by eapply apply_movements_balanced|by apply (apply_movements_bounded _ _ _ E Hbound)]|].
  apply apply_movements_supply in E. lia.
Qed.

Lemma credit_refunded_refunds now t key d d' : credit_refunded now t key d d' -> refunds d d'.
Proof.
  intros [Hn|fund id d1 Hfund Hi]; [by apply same_view_refunds|]. exists [Refund (TypedID_String t)]. split; [by repeat econstructor|].
  cbn. rewrite Hfund. unfold drop_fund. apply insert_entry_view in Hi as Hv. apply insert_ledger_entry_inr in Hi as [-> _]. done.
Qed.

Lemma settlement_refunds now t key d us d' : settlement now t key d us d' -> refunds d d'.
Proof.
  intros [d2 d3 (d1 & Hc & Hh) _ ->%update_reservations_eq]. eapply refunds_trans; [by eapply credit_refunded_refunds|].
  apply same_view_refunds. by destruct Hh as [[_ ->]|[_ ->]].
Qed.

Lemma escrows_view t funder cs d d' : escrows t funder cs d d' -> view d' = view d.
Proof. intros (_ & Hf & _ & He & _)%escrows_frame. unfold view. by rewrite Hf, He. Qed.

(** A commit of the task store moves no credits but refunds. *)
Lemma task_commit_refunds asked m m' : task_commit asked m m' -> refunds (tables m) (tables m').
Proof.
  intros [s t command m1 Ha Hc|t state plan ds m1 Hs Hc|now ds m1 Hl|m1 (d & [cs ->]%refused_frame & ->)|id command m1 Hr
         |t id state plan ds m1 Hs Hr|t draft m1 He].
  - apply created_tables in Hc as [_ He]. apply same_view_refunds. by rewrite (escrows_view _ _ _ _ _ He).
  - destruct Hc as [now row us d1 d2 ds' d3 _ _ Hset [ts ->]%update_task_state_inr _ (e & r & ->)%recorded_with_events].
    apply refunds_trans with d1; [|by apply same_view_refunds]. case_decide; [by eapply settlement_refunds|]. destruct Hset as [_ ->]. by apply same_view_refunds.
  - destruct Hl as [released m2 d Hl%expire_lapsed_inv _ (e & r & ->)%recorded_with_events]. subst m2. by apply same_view_refunds.
  - by apply same_view_refunds.
  - destruct Hr as [now row columns d1 m2 d3 _ _ _ _ _ _ [cs ->]%origin_charged_frame (-> & _)%insert_reservation_inv (e & r & ->)%recorded_with_events].
    by apply same_view_refunds.
  - destruct Hr as [row ds' d _ _ _ _ (e & r & ->)%recorded_with_events]. by apply same_view_refunds.
  - destruct He as [now row columns owner us i d1 d2 d3 _ _ _ _ Hset [ts ->]%update_task_state_inr _ (e & r & ->)%recorded_with_events].
    apply refunds_trans with d1; [by eapply settlement_refunds|by apply same_view_refunds].
Qed.

Lemma commit_ledger_ok asked m m' : commit asked m m' -> ledger_ok (tables m) -> ledger_ok (tables m').
Proof.
  intros [c r d Hv Hp|m1 Hc%task_commit_refunds] Hok; [by eapply performed_ledger_ok|by apply (refunds_ok _ _ Hc Hok)].
Qed.

Lemma task_commits_refunds asked m m' : rtc (task_commit asked) m m' -> refunds (tables m) (tables m').
Proof.
  induction 1 as [m|m m1 m2 Hc _ IH]; [by apply same_view_refunds|]. eapply refunds_trans; [by eapply task_commit_refunds|done].
Qed.

(** ** The invariant of the market *)

Context {Laws : UUIDLaws}.

Lemma commit_keys asked m m' : commit asked m m' -> keys_printed m -> keys_printed m'.
Proof.
  intros Hc Hk.
  assert ((forall t, is_Some (tasks (tables m') !! t) -> is_Some (tasks (tables m) !! t)) -> keys_printed m') as Hsub.
  { intros Hs t row Hrow. destruct (Hs t) as [row0 Hrow0]; [by eexists|]. by apply (Hk _ _ Hrow0). }
  destruct Hc as [c r d Hv Hp|m0 [s t command m1 Ha Hc|t state plan ds m1 Hs Hc|now ds m1 Hl|m1 (d & [cs ->]%refused_frame & ->)|id command m1 Hr
         |t id state plan ds m1 Hs Hr|t draft m1 He]].
  - apply Hsub. intros t. by eapply performed_tasks.
  - apply created_tables in Hc as [_ (Ht & _)%escrows_frame]. intros i row. rewrite Ht. cbn. rewrite lookup_insert. case_decide as E.
    + intros _. subst i. intros t' Ht'. rewrite ParseTypedID_String in Ht'. by simplify_eq.
    + apply (Hk _ row).
  - apply Hsub. intros u. destruct Hc as [now row us d1 d2 ds' d3 Hrow _ Hset Hu _ (e & r & ->)%recorded_with_events]. cbn.
    destruct (decide (u = TypedID_String t)) as [->|Hne]; [by eexists|]. rewrite (update_task_state_others _ _ _ _ _ Hu) by done.
    case_decide; [by rewrite (settlement_tasks _ _ _ _ _ _ Hset)|by destruct Hset as [_ ->]].
  - apply Hsub. apply lapsed_lightened in Hl as [_ ->]. done.
  - by apply Hsub.
  - apply Hsub. destruct Hr as [now row columns d1 m2 d3 _ _ _ _ _ _ [cs ->]%origin_charged_frame (-> & _)%insert_reservation_inv (e & r & ->)%recorded_with_events].
    done.
  - apply Hsub. by apply reservation_changed_lightened in Hr as [_ ->].
  - apply Hsub. intros u. destruct (decide (u = TypedID_String t)) as [->|Hne].
    + destruct He as [now row columns owner us i d1 d2 d3 [Hrow _]%task_row_Some _ _ _ _ _ _ _]. by eexists.
    + destruct He as [now row columns owner us i d1 d2 d3 _ _ _ _ Hset Hu _ (e & r & ->)%recorded_with_events]. cbn.
      by rewrite (update_task_state_others _ _ _ _ _ Hu), (settlement_tasks _ _ _ _ _ _ Hset).
Qed.

(** What any number of operations keeps. *)
Record market_ok (m : Market) : Prop := {
  market_ledger : ledger_ok (tables m);
  market_keys : keys_printed m;
  market_ended : ended_unencumbered (tables m);
  market_custody : custody (tables m)
}.

Lemma commits_market_ok asked m m' : rtc (commit asked) m m' -> market_ok m -> market_ok m'.
Proof.
  induction 1 as [m|m m1 m2 Hc _ IH]; [done|]. intros [Hl Hk He Hd]. apply IH. split;
    [by eapply commit_ledger_ok|by eapply commit_keys|by eapply commit_ended|by eapply commit_custody].
Qed.

Lemma after_all_ok schedule m :
  Forall (fun eo => valid_operation eo.2) schedule -> market_ok m -> market_ok (after_all schedule m).
Proof.
  revert m. induction schedule as [|[env op] schedule IH]; intros m Hv Hok; [done|]. apply List.Forall_cons_iff in Hv as [Hop Hv]. cbn in *.
  apply IH; [done|]. eapply commits_market_ok, Hok. apply operation_commits; [done|apply Hok..].
Qed.

End Lifecycle.
