(* ===== verification/GalleryFrames.v ===== *)
(** * What the market does to collectibles and to rewards

    The commits of the ledger store and of the task store never change what a
    collectible is nor whether it is withdrawn, and keep the kind of a task's reward
    in step with what is escrowed for the task. *)

From S2P Require Import Prelude.
From S2P Require Import Core.
From S2P Require Import Assets.
From S2P Require Import Events.
From S2P Require Import TaskValues.
From S2P Require Import LedgerValues.
From S2P Require Import Database.
From S2P Require Import LedgerSpec.
From S2P Require Import Outbox.
From S2P Require Import LedgerHelpers.
From S2P Require Import LedgerStore.
From S2P Require Import HelperSpecs.
From S2P Require Import ReviewSpecs.
From S2P Require Import StoreSpecs.
From S2P Require Import Refinement.
From S2P Require Import LedgerCorrect.
From S2P Require Import LedgerBehaviour.
From S2P Require Import LedgerInvariants.
From S2P Require Import EscrowSpecs.
From S2P Require Import TaskDB.
From S2P Require Import TaskRows.
From S2P Require Import TaskStore.
From S2P Require Import CollectibleStore.
From S2P Require Import CatalogStore.
From S2P Require Import TaskSpecs.
From S2P Require Import SweepSpecs.
From S2P Require Import ReservationSpecs.
From S2P Require Import CreationSpecs.
From S2P Require Import GallerySpecs.
From S2P Require Import Lifecycle.

Local Open Scope string_scope.
Local Open Scope Z_scope.

(** ** Steady collectibles *)

(** What a collectible is, whoever owns it. *)
Definition provenance (row : CollectibleRow) :=
  (col_name row, col_kind row, col_transfer_policy row, col_art row, col_catalog_slug row, col_edition_number row, col_issued_by_user_id row).

(** A within-organization collectible of a user that belongs to no organization. *)
Definition adrift (row : CollectibleRow) : Prop :=
  col_owner_kind row = "user" /\ col_organization_id row = None /\
  ParseTransferPolicy (col_transfer_policy row) = TransferPolicyAccepted TransferPolicyTransferableWithinOrg.

Lemma adrift_user owner row : adrift row -> adrift (set_col_owner owner row).
Proof. by intros (_ & ? & ?). Qed.

Definition kept (row row' : CollectibleRow) : Prop :=
  provenance row' = provenance row /\ (col_state row' = "withdrawn" <-> col_state row = "withdrawn") /\ (adrift row -> adrift row').

#[export] Instance kept_preorder : PreOrder kept.
Proof. unfold kept. split; [by intros row|]. intros r1 r2 r3 (P1 & W1 & A1) (P2 & W2 & A2). split; [congruence|]. split; [by rewrite W2|auto]. Qed.

Definition steady (rows rows' : gmap string CollectibleRow) : Prop := forall i, option_Forall2 kept (rows !! i) (rows' !! i).

#[export] Instance steady_preorder : PreOrder steady.
Proof.
  split; [intros rows i; by destruct (rows !! i); constructor|]. intros r1 r2 r3 H12 H23 i.
  specialize (H12 i). specialize (H23 i). 
  destruct H12 as [a b Hab|]; inv H23; try congruence; constructor. etrans; [exact Hab|]. congruence.
Qed.

Lemma steady_alter f c rows :
  (forall row, rows !! c = Some row -> kept row (f row)) -> steady rows (alter f c rows).
Proof.
  intros Hf i. destruct (decide (c = i)) as [<-|]; [|by rewrite lookup_alter_ne]. rewrite lookup_alter_eq.
  destruct (rows !! c) as [row|] eqn:E; constructor. by apply Hf.
Qed.

Section Frames.
Context `{UUIDLib, URLLib, World}.
Implicit Types (d : DB) (m : Market).

Lemma released_steady f t d :
  (forall row, provenance (f row) = provenance row /\ col_state (f row) = "minted" /\ (adrift row -> adrift (f row))) -> custody d ->
  steady (collectibles d) (collectibles (release_held f t d)).
Proof.
  intros Hf Hc i. rewrite release_held_lookup. case_decide as E; [|done].
  destruct (collectibles d !! i) as [row|] eqn:Hrow; constructor. destruct (Hf row) as (Hp & Hs & Ha). split; [done|]. split; [|done]. rewrite Hs.
  destruct (proj1 (Hc i)) as (row' & Hrow' & He); [by eexists|]. simplify_eq. rewrite He. done.
Qed.

Lemma paid_out_steady t raw d outcome d' : collectibles_paid t raw d outcome d' -> custody d -> steady (collectibles d) (collectibles d').
Proof. intros []; [done|]. apply released_steady. intros row. do 2 (split; [done|]). apply (adrift_user raw (set_col_state "minted" row)). Qed.

Lemma tipped_steady reviewer raw sel d outcome d' :
  collectible_tipped reviewer raw sel d outcome d' -> steady (collectibles d) (collectibles d').
Proof. intros []; [done..|]. apply steady_alter. intros row' _. do 2 (split; [done|]). apply adrift_user. Qed.

Lemma accepted_steady command d t s w payout tip ds d' :
  accepted command d (SubmissionAccepted t s w payout tip FirstExecution ds) d' -> custody d -> steady (collectibles d) (collectibles d').
Proof.
  intros Ha Hc. inv Ha.
  match goal with Hr : supersedes _ _ _ _ _ |- _ => apply supersedes_frame in Hr as (ss & -> & _) end.
  match goal with Hr : tipped _ _ _ _ _ _ _ _ _ _ |- _ => apply tipped_frame in Hr as [es' ->] end.
  match goal with Hr : update_submission_accepted _ _ _ = inr _ |- _ => apply update_submission_accepted_inr in Hr as [ss' ->] end.
  match goal with Hr : update_task_state _ _ _ = inr _ |- _ => apply update_task_state_inr in Hr as [ts ->] end.
  match goal with Hr : paid _ _ _ _ |- _ => apply paid_frame in Hr as [es ->] end.
  match goal with Hr : collectible_tipped _ _ _ _ _ _ |- _ => pose proof (tipped_steady _ _ _ _ _ _ Hr) as Htip end.
  match goal with Hr : collectibles_paid _ _ _ _ _ |- _ => pose proof (paid_out_steady _ _ _ _ _ Hr) as Hpaid end.
  flatten. etrans; [apply Hpaid; by apply (same_custody d)|exact Htip].
Qed.

Lemma refunded_steady command d value ds d' :
  refunded command d (TaskRefunded value FirstExecution ds) d' -> custody d -> steady (collectibles d) (collectibles d').
Proof.
  intros Hr Hc. inv Hr.
  match goal with Hu : update_task_state _ _ _ = inr _ |- _ => apply update_task_state_inr in Hu as [ts ->] end.
  flatten. match goal with Hd : _ \/ _ |- _ => destruct Hd as [[_ ->]|[_ ->]] end; [done|].
  apply (released_steady _ _ (drop_fund _ (with_entries _ d))); [done|]. by apply (same_custody d).
Qed.

Lemma performed_steady c d r d' : performed c d r d' -> custody d -> steady (collectibles d) (collectibles d').
Proof.
  intros Hp Hc.
  assert (refused d d' -> steady (collectibles d) (collectibles d')) as Href by (by intros [cs ->]%refused_frame).
  destruct Hp as [command r d' -> Hf|command r d' -> Hf|command r d' -> Hf|command r d' -> Hf
                 |command r d' -> Hf|command r d' -> Hf|command r d' -> Hf|command r d' -> Hf].
  - inv Hf; [auto|done|]. match goal with Hr : reward_switched _ _ _ _ _ |- _ => apply reward_switched_frame in Hr as [ts ->] end.
    by flatten.
  - inv Hf; [auto|done|]. match goal with Hr : reward_switched _ _ _ _ _ |- _ => apply reward_switched_frame in Hr as [ts ->] end.
    by flatten.
  - destruct r as [t s w payout tip [] ds|]; [by eapply accepted_steady|by inv Hf|inv Hf; auto].
  - inv Hf; [done|done|].
    match goal with Hr : update_submission_changes_requested _ _ _ _ _ = inr _ |- _ =>
      unfold update_submission_changes_requested in Hr; repeat split_match_in Hr; try done; injection Hr as <- end; by flatten.
  - destruct r as [t s w payout tip [] ds|]; [|by inv Hf|inv Hf; auto]. by destruct (rejected_effect _ _ _ _ _ _ _ _ _ Hf) as [_ _ _ _ [_ ->]].
  - destruct r as [value [] ds|]; [by eapply refunded_steady|by inv Hf|by inv Hf].
  - inv Hf; [auto|done|]. by flatten.
  - inv Hf; [auto|done|]. by flatten.
Qed.

Lemma settlement_steady now t key d us d' : settlement now t key d us d' -> custody d -> steady (collectibles d) (collectibles d').
Proof.
  intros [d2 d3 (d1 & Hc & Hh) _ ->%update_reservations_eq] Hd. cbn. destruct (credit_refunded_frame _ _ _ _ _ Hc) as (_ & _ & Hcol & Hheld & _).
  rewrite <- Hcol. destruct Hh as [[_ ->]|[_ ->]]; [done|]. apply released_steady; [done|]. by apply (same_custody d).
Qed.

Lemma escrows_steady t funder cs d d' : escrows t funder cs d d' -> steady (collectibles d) (collectibles d').
Proof.
  induction 1 as [d|c cs d d1 d2 Hh _ IH]; [done|]. etrans; [|exact IH].
  apply held_for_inv in Hh as (_ & row & Hrow & _ & _ & Hm & ->). cbn. intros i. rewrite lookup_insert. case_decide as E; [|done]. subst i.
  rewrite Hrow. constructor. split; [done|]. split; [cbn; by rewrite Hm|done].
Qed.

Lemma commit_steady asked m m' : commit asked m m' -> custody (tables m) -> steady (collectibles (tables m)) (collectibles (tables m')).
Proof.
  intros Hcommit Hd.
  destruct Hcommit as [c r d Hv Hp|m0 [s t command m1 Ha Hc|t state plan ds m1 Hs Hc|now ds m1 Hl|m1 (d & [cs ->]%refused_frame & ->)|id command m1 Hr
         |t id state plan ds m1 Hs Hr|t draft m1 He]].
  - by eapply performed_steady.
  - apply created_tables in Hc as [_ He]. by apply escrows_steady in He.
  - destruct Hc as [now row us d1 d2 ds' d3 _ _ Hset [ts ->]%update_task_state_inr _ (e & r & ->)%recorded_with_events]. cbn.
    case_decide; [by eapply settlement_steady|]. by destruct Hset as [_ ->].
  - by destruct Hl as [released m2 d ->%expire_lapsed_inv _ (e & r & ->)%recorded_with_events].
  - done.
  - by destruct Hr as [now row columns d1 m2 d3 _ _ _ _ _ _ [cs ->]%origin_charged_frame (-> & _)%insert_reservation_inv (e & r & ->)%recorded_with_events].
  - by destruct Hr as [row ds' d _ _ _ _ (e & r & ->)%recorded_with_events].
  - destruct He as [now row columns owner us i d1 d2 d3 _ _ _ _ Hset [ts ->]%update_task_state_inr _ (e & r & ->)%recorded_with_events]. cbn.
    by eapply settlement_steady.
Qed.

(** ** Reward kinds *)

Definition pays_credits (kind : string) : Prop := kind = "credit" \/ kind = "bundle".
Definition pays_collectibles (kind : string) : Prop := kind = "collectible" \/ kind = "bundle".

(** The kinds of reward there are (migration 000001's check on [tasks.reward_kind]). *)
Definition reward_kinds (d : DB) : gmap string string := task_reward_kind <$> tasks d.
Definition known_kind (kind : string) : Prop := kind ∈ ["none"; "credit"; "collectible"; "bundle"].

(** What is escrowed is for a task there is, of a kind that its reward declares. *)
Record kinds_agree (d : DB) : Prop := {
  agree_known : map_Forall (fun _ => known_kind) (reward_kinds d);
  agree_funds t : is_Some (task_funds d !! t) -> exists kind, reward_kinds d !! t = Some kind /\ pays_credits kind;
  agree_held c t : task_fund_collectibles d !! c = Some t -> exists kind, reward_kinds d !! t = Some kind /\ pays_collectibles kind
}.

Lemma same_kinds_agree d d' :
  tasks d' = tasks d -> task_funds d' = task_funds d -> task_fund_collectibles d' = task_fund_collectibles d -> kinds_agree d -> kinds_agree d'.
Proof. intros Ht Hf Hh [Hk Hc Hl]. split; unfold reward_kinds in *; rewrite ?Ht, ?Hf, ?Hh; done. Qed.

Definition same_kinds (d d' : DB) : Prop := reward_kinds d' = reward_kinds d.

#[export] Instance same_kinds_preorder : PreOrder same_kinds.
Proof. unfold same_kinds. split; [done|]. intros d1 d2 d3 H12 H23. congruence. Qed.

Lemma same_tasks_kinds d d' : tasks d' = tasks d -> same_kinds d d'.
Proof. unfold same_kinds, reward_kinds. by intros ->. Qed.

(** One task is written, its reward kind as it was. *)
Lemma insert_same_kinds d d' t row row' :
  tasks d !! t = Some row -> task_reward_kind row' = task_reward_kind row -> tasks d' = <[t := row']> (tasks d) -> same_kinds d d'.
Proof.
  intros Hrow Hk E. unfold same_kinds, reward_kinds. rewrite E, fmap_insert, Hk. apply insert_id. by rewrite lookup_fmap, Hrow.
Qed.

Lemma task_state_kinds task state d d' : update_task_state task state d = inr d' -> same_kinds d d'.
Proof.
  unfold update_task_state. destruct (tasks d !! task) as [row|] eqn:Hrow; [|by intros [= ->]]. case_match; [done|]. intros [= <-].
  by apply (insert_same_kinds _ _ task row (MkTaskRow state (task_created_by_user_id row) (task_organization_id row) (task_reward_kind row) (task_reward_credit_amount row))).
Qed.

(** No escrow is added, and no reward changes its kind. *)
Record drawn_down (d d' : DB) : Prop := {
  drawn_funds : forall t, is_Some (task_funds d' !! t) -> is_Some (task_funds d !! t);
  drawn_held : task_fund_collectibles d' ⊆ task_fund_collectibles d;
  drawn_kinds : same_kinds d d'
}.

#[export] Instance drawn_down_preorder : PreOrder drawn_down.
Proof.
  split; [by split|]. intros d1 d2 d3 [F1 H1' K1] [F2 H2 K2]. split; [by auto|by etrans..].
Qed.

Lemma lightened_drawn d d' : lightened d d' -> same_kinds d d' -> drawn_down d d'.
Proof. intros [Hf Hh _] Hk. by split. Qed.

Lemma drawn_kinds_agree d d' : drawn_down d d' -> kinds_agree d -> kinds_agree d'.
Proof.
  intros [Hf Hh Hk] [Hkn Hc Hl]. unfold same_kinds in Hk. split; rewrite Hk; [done|by auto|].
  intros c t Ht. apply (Hl c). by eapply lookup_weaken.
Qed.

(** One task is written, and nothing else is escrowed than for it. *)
Lemma written_kinds d d' t kind :
  reward_kinds d' = <[t := kind]> (reward_kinds d) -> known_kind kind ->
  (forall u, is_Some (task_funds d' !! u) -> u <> t -> is_Some (task_funds d !! u)) ->
  (is_Some (task_funds d' !! t) -> pays_credits kind) ->
  (forall c u, task_fund_collectibles d' !! c = Some u -> u <> t -> task_fund_collectibles d !! c = Some u) ->
  (forall c, task_fund_collectibles d' !! c = Some t -> pays_collectibles kind) ->
  kinds_agree d -> kinds_agree d'.
Proof.
  intros E Hkind Hfu Hft Hhu Hht [Hkn Hc Hl]. split; rewrite E.
  - by apply map_Forall_insert_2.
  - intros u Hu. destruct (decide (u = t)) as [->|Hne]; [exists kind; rewrite lookup_insert_eq; auto|].
    rewrite lookup_insert_ne by done. auto.
  - intros c u Hu. destruct (decide (u = t)) as [->|Hne]; [exists kind; rewrite lookup_insert_eq; eauto|].
    rewrite lookup_insert_ne by done. eauto.
Qed.

Lemma accepted_drawn command d t s w payout tip ds d' :
  accepted command d (SubmissionAccepted t s w payout tip FirstExecution ds) d' -> drawn_down d d'.
Proof.
  intros Ha. apply lightened_drawn; [by eapply accepted_lightened|]. inv Ha.
  match goal with Hr : update_task_state _ _ _ = inr _ |- _ => apply task_state_kinds in Hr end.
  match goal with Hr : supersedes _ _ _ _ _ |- _ => apply supersedes_frame in Hr as (ss & -> & _) end.
  match goal with Hr : collectible_tipped _ _ _ _ _ _ |- _ => apply collectible_tipped_frame in Hr as [cs' ->] end.
  match goal with Hr : tipped _ _ _ _ _ _ _ _ _ _ |- _ => apply tipped_frame in Hr as [es' ->] end.
  match goal with Hr : update_submission_accepted _ _ _ = inr _ |- _ => apply update_submission_accepted_inr in Hr as [ss' ->] end.
  match goal with Hr : paid _ _ _ _ |- _ => apply paid_frame in Hr as [es ->] end.
  match goal with Hr : collectibles_paid _ _ _ _ ?d4 |- _ => assert (tasks d4 = tasks db2) as E by by destruct Hr end.
  flatten. etrans; [eassumption|]. by apply same_tasks_kinds.
Qed.

Lemma refunded_drawn command d value ds d' :
  refunded command d (TaskRefunded value FirstExecution ds) d' -> drawn_down d d'.
Proof.
  intros Hr. pose proof (refunded_effect _ _ _ _ _ Hr) as [(row & Hrow & _ & _ & Htasks) (fund & _ & _ & Hfunds & _) _ _ _ _]. split.
  - intros t. rewrite Hfunds. intros [f [_ Hf]%lookup_delete_Some]. by eexists.
  - inv Hr. match goal with Hu : update_task_state _ _ _ = inr _ |- _ => apply update_task_state_inr in Hu as [ts ->] end.
    flatten. match goal with Hd : _ \/ _ |- _ => destruct Hd as [[_ ->]|[_ ->]] end; [done|]. apply map_filter_subseteq.
  - exact (insert_same_kinds _ _ (TypedID_String (refund_TaskID command)) row (set_task_state "cancelled" row) Hrow eq_refl Htasks).
Qed.

Lemma funded_kinds q d value ds d' :
  valid_amount (fr_amount q) -> funded q d (TaskFunded value FirstExecution ds) d' -> kinds_agree d -> kinds_agree d'.
Proof.
  intros Hv Hf. pose proof (funded_effect _ _ _ _ _ Hv Hf) as (account & row & _ & _ & _ & [_ Hfunds _ _ (row0 & row' & Hrow & Hrow' & _ & _ & Hkind & _) Htasks _]).
  assert (task_fund_collectibles d' = task_fund_collectibles d) as Hheld.
  { inv Hf. match goal with Hr : reward_switched _ _ _ _ _ |- _ => apply reward_switched_frame in Hr as [ts ->] end. by flatten. }
  intros Ha. apply (written_kinds d d' (TypedID_String (fr_task q)) (task_reward_kind row')); rewrite ?Hfunds, ?Hheld, ?Hkind; [..|done].
  - apply map_eq. intros u. unfold reward_kinds. destruct (decide (u = TypedID_String (fr_task q))) as [->|Hne].
    + by rewrite lookup_insert_eq, lookup_fmap, Hrow', <- Hkind.
    + by rewrite lookup_insert_ne, !lookup_fmap, Htasks by done.
  - unfold funded_reward, known_kind. case_match; set_solver.
  - intros u Hu Hne. by rewrite lookup_insert_ne in Hu.
  - intros _. unfold funded_reward, pays_credits. case_match; auto.
  - done.
  - intros c Hu. destruct (agree_held d Ha _ _ Hu) as (kind & Hk & Hp). unfold reward_kinds in Hk. rewrite lookup_fmap, Hrow in Hk.
    injection Hk as <-. right. unfold funded_reward. by destruct Hp as [->| ->].
Qed.

Lemma performed_kinds c d r d' : valid_command c -> performed c d r d' -> kinds_agree d -> kinds_agree d'.
Proof.
  intros Hv Hp.
  assert (refused d d' -> kinds_agree d -> kinds_agree d') as Href by (by intros [cs ->]%refused_frame; apply same_kinds_agree).
  destruct Hp as [command r d' -> Hf|command r d' -> Hf|command r d' -> Hf|command r d' -> Hf
                 |command r d' -> Hf|command r d' -> Hf|command r d' -> Hf|command r d' -> Hf]; cbn [valid_command] in *.
  - destruct r as [value [] ds|]; [by refine (funded_kinds _ _ _ _ _ _ Hf)|by inv Hf|inv Hf; auto].
  - destruct r as [value [] ds|]; [by refine (funded_kinds _ _ _ _ _ _ Hf)|by inv Hf|inv Hf; auto].
  - destruct r as [t s w payout tip [] ds|]; [by eapply drawn_kinds_agree, accepted_drawn|by inv Hf|inv Hf; auto].
  - destruct r as [t s w note [] ds|]; [|by inv Hf|by inv Hf]. inv Hf.
    match goal with Hr : update_submission_changes_requested _ _ _ _ _ = inr _ |- _ =>
      unfold update_submission_changes_requested in Hr; repeat split_match_in Hr; try done; injection Hr as <- end; flatten; by apply same_kinds_agree.
  - destruct r as [t s w payout tip [] ds|]; [|by inv Hf|inv Hf; auto]. apply rejected_effect in Hf as [_ Ht _ Hfunds [Hheld _]].
    apply drawn_kinds_agree. split; [|by rewrite Hheld|by apply same_tasks_kinds]. intros u. rewrite Hfunds. intros [f Hl]. by eapply funds_after_lookup.
  - destruct r as [value [] ds|]; [by eapply drawn_kinds_agree, refunded_drawn|by inv Hf|by inv Hf].
  - inv Hf; [auto|done|]. flatten. by apply same_kinds_agree.
  - inv Hf; [auto|done|]. flatten. by apply same_kinds_agree.
Qed.

Lemma lightened_kinds d d' : lightened d d' -> same_kinds d d' -> kinds_agree d -> kinds_agree d'.
Proof. intros Hl Hk. by apply drawn_kinds_agree, lightened_drawn. Qed.

(** A settled task takes another state; the events are recorded. *)
Lemma settled_kinds now t key d us d1 task state d2 ds d3 :
  settlement now t key d us d1 -> update_task_state task state d1 = inr d2 -> recorded d2 ds d3 -> kinds_agree d -> kinds_agree d3.
Proof.
  intros Hs Hu Hr. pose proof (recorded_lightened _ _ _ Hr) as Hl. apply recorded_with_events in Hr as (e & r & E). apply lightened_kinds.
  - etrans; [by eapply settlement_lightened|]. etrans; [by eapply task_state_lightened|done].
  - etrans; [eapply same_tasks_kinds; by eapply settlement_tasks|]. etrans; [by eapply task_state_kinds|]. subst d3. by apply same_tasks_kinds.
Qed.

Lemma escrows_held t funder cs d d' c u :
  escrows t funder cs d d' -> task_fund_collectibles d' !! c = Some u ->
  task_fund_collectibles d !! c = Some u \/ (u = TypedID_String t /\ cs <> []).
Proof.
  induction 1 as [d|c0 cs d d1 d2 Hh _ IH]; [by left|]. intros [Hu|[-> _]]%IH; [|by right].
  apply held_for_inv in Hh as (_ & row & _ & _ & _ & _ & ->). cbn in Hu. rewrite lookup_insert in Hu. case_decide; [|by left].
  right. by simplify_eq.
Qed.

(** A creation that escrows collectibles declares a reward with collectibles. *)
Definition declared (command : Tasks.CreateCommand) : Prop :=
  Tasks.create_FundCollectibleIDs command <> [] -> pays_collectibles (rewardSQLColumns (Tasks.create_Reward command)).1.

Lemma reward_kind_known reward : known_kind (rewardSQLColumns reward).1.
Proof. unfold known_kind. destruct reward; cbn; set_solver. Qed.

Lemma created_kinds seriesID t command m m' :
  declared command -> created seriesID t command m m' -> kinds_agree (tables m) -> kinds_agree (tables m').
Proof.
  intros Hd [Hnone He]%created_tables Ha. pose proof (escrows_frame _ _ _ _ _ He) as (Ht & Hf & _).
  apply (written_kinds (tables m) (tables m') (TypedID_String t) (rewardSQLColumns (Tasks.create_Reward command)).1); rewrite ?Hf; [..|done].
  - unfold reward_kinds. rewrite Ht. cbn. by rewrite fmap_insert.
  - apply reward_kind_known.
  - done.
  - intros (kind & Hk & _)%(agree_funds _ Ha). unfold reward_kinds in Hk. by rewrite lookup_fmap, Hnone in Hk.
  - intros c u [Hu|[-> _]]%(escrows_held _ _ _ _ _ _ _ He); done.
  - intros c [Hu|[_ Hcs]]%(escrows_held _ _ _ _ _ _ _ He); [|by apply Hd].
    apply (agree_held _ Ha) in Hu as (kind & Hk & _). unfold reward_kinds in Hk. by rewrite lookup_fmap, Hnone in Hk.
Qed.

Lemma commit_kinds asked m m' :
  (forall command, asked command -> declared command) -> commit asked m m' -> kinds_agree (tables m) -> kinds_agree (tables m').
Proof.
  intros Hasked [c r d Hv Hp|m0 [s t command m1 Ha Hc|t state plan ds m1 Hs Hc|now ds m1 Hl|m1 (d & [cs ->]%refused_frame & ->)|id command m1 Hr
         |t id state plan ds m1 Hs Hr|t draft m1 He]].
  - by eapply performed_kinds.
  - intros Hm. by eapply created_kinds; [apply Hasked| |].
  - destruct Hc as [now row us d1 d2 ds' d3 _ _ Hset Hu _ Hr]. cbn. case_decide; [by eapply settled_kinds|]. destruct Hset as [_ ->].
    pose proof (recorded_lightened _ _ _ Hr) as Hl. apply recorded_with_events in Hr as (e & r & ->). apply lightened_kinds.
    + etrans; [by eapply task_state_lightened|done].
    + etrans; [by eapply task_state_kinds|]. by apply same_tasks_kinds.
  - apply lapsed_lightened in Hl as [Hl Ht]. by apply lightened_kinds, same_tasks_kinds.
  - by apply same_kinds_agree.
  - destruct Hr as [now row columns d1 m2 d3 _ _ _ _ _ _ [cs ->]%origin_charged_frame (-> & _)%insert_reservation_inv (e & r & ->)%recorded_with_events].
    by apply same_kinds_agree.
  - apply reservation_changed_lightened in Hr as [Hl Ht]; [|done]. by apply lightened_kinds, same_tasks_kinds.
  - destruct He as [now row columns owner us i d1 d2 d3 _ _ _ _ Hset Hu _ Hr]. cbn. by eapply settled_kinds.
Qed.

End Frames.

(** * What a custody operation keeps

    Every commit of [CollectibleStore.v] keeps the ledger, custody, the agreement of
    escrow with rewards, and what a collectible is. *)
Local Open Scope string_scope.
Local Open Scope Z_scope.

Module GallerySteps.
Export Gallery.
Export CustodySpecs.

Section Steps.
Context `{UUIDLib, URLLib, World}.
Implicit Types (d : DB) (m : Market).

(** ** The commits *)

Inductive custody_step d : DB -> Prop :=
| step_funded command value d' : reward_added command d value d' -> custody_step d d'
| step_refunded command values d' : reward_returned command d values d' -> custody_step d d'
| step_gift command value d' : gift_made command d value d' -> custody_step d d'
| step_award command value d' : award_made command d value d' -> custody_step d d'
| step_handout command value d' : handout_made command d value d' -> custody_step d d'
| step_donation command value d' : donation_made command d value d' -> custody_step d d'
| step_withdrawal command value draft d' : withdrawal_made command d value draft d' -> custody_step d d'
| step_deleted c d' : deleted c d d' -> custody_step d d'.

(** ** What they keep *)

Record sound d : Prop := {
  sound_ledger : ledger_ok d;
  sound_keys : map_Forall (fun key _ => canonical key) (tasks d);
  sound_ended : ended_unencumbered d;
  sound_custody : custody d;
  sound_kinds : kinds_agree d
}.

Lemma sound_market m : sound (tables m) <-> market_ok m /\ kinds_agree (tables m).
Proof. split; [intros []; by split; [split|]|]. intros [[] ?]. by split. Qed.

(** What a collectible is, and no more of it in circulation. *)
Definition dimmed (rows rows' : gmap string CollectibleRow) : Prop :=
  forall i row', rows' !! i = Some row' -> exists row, rows !! i = Some row /\ provenance row' = provenance row /\ (live row' -> live row) /\ (adrift row -> adrift row').

#[export] Instance dimmed_preorder : PreOrder dimmed.
Proof.
  split; [intros rows i row; by exists row|]. intros r1 r2 r3 H12 H23 i row3 Hi.
  destruct (H23 _ _ Hi) as (row2 & Hi2 & P2 & L2 & A2). destruct (H12 _ _ Hi2) as (row1 & Hi1 & P1 & L1 & A1). exists row1.
  split; [done|]. split; [congruence|auto].
Qed.

Lemma steady_dimmed rows rows' : steady rows rows' -> dimmed rows rows'.
Proof.
  intros Hs i row' Hrow'. specialize (Hs i). rewrite Hrow' in Hs. inversion Hs as [row ? (Hp & Hl & Ha) Hrow|]; subst. exists row.
  split; [done|]. split; [done|]. split; [unfold live; by rewrite Hl|done].
Qed.

Lemma alter_dimmed f c row rows :
  rows !! c = Some row -> provenance (f row) = provenance row -> live row -> (adrift row -> adrift (f row)) -> dimmed rows (alter f c rows).
Proof.
  intros Hrow Hp Hl Ha i row'. destruct (decide (c = i)) as [<-|Hne]; [|rewrite lookup_alter_ne by done; by exists row'].
  rewrite lookup_alter_eq, Hrow. intros [= <-]. by exists row.
Qed.

(** Nothing but collectibles has changed. *)
Lemma same_rest_sound d d' :
  ledger_entries d' = ledger_entries d -> task_funds d' = task_funds d -> tasks d' = tasks d ->
  task_fund_collectibles d' = task_fund_collectibles d -> task_reservations d' = task_reservations d ->
  custody d' -> sound d -> sound d'.
Proof.
  intros He Hf Ht Hh Hr Hc [Hl Hk Hn _ Ha]. split; [| | |done|].
  - apply (refunds_ok d); [|done]. apply same_view_refunds. unfold view. by rewrite He, Hf.
  - by rewrite Ht.
  - revert Hn. apply same_tasks_ended; [done|]. apply same_escrow_lightened; done.
  - by apply (same_kinds_agree d).
Qed.

(** A collectible nobody holds takes a state other than escrowed. *)
Lemma moved_custody f c row d :
  collectibles d !! c = Some row -> col_state row <> "escrowed" -> col_state (f row) <> "escrowed" -> custody d ->
  custody (with_collectibles (alter f c (collectibles d)) d).
Proof.
  intros Hrow Hs Hf Hc i. rewrite (Hc i). cbn. destruct (decide (c = i)) as [->|]; [|by rewrite lookup_alter_ne].
  rewrite lookup_alter_eq, Hrow. cbn. split; intros (row' & [= <-] & Hst); done.
Qed.

Lemma changed_sound c f row value draft d d' :
  on_hand c row value d -> col_state (f row) <> "escrowed" -> provenance (f row) = provenance row -> (adrift row -> adrift (f row)) ->
  changed c f draft d d' -> sound d -> sound d' /\ dimmed (collectibles d) (collectibles d').
Proof.
  intros [Hrow _ Hm] Hf Hp Ha (e & r & ->)%recorded_with_events Hd. cbn. split.
  - apply (same_rest_sound d); [done..| |done].
    apply (same_custody (with_collectibles (alter f (TypedID_String c) (collectibles d)) d)); [done..|].
    apply (moved_custody _ _ row); [done| |done|apply Hd]. by rewrite Hm.
  - apply (alter_dimmed _ _ row); [done..| |done]. unfold live. by rewrite Hm.
Qed.

Lemma deleted_sound c d d' : deleted c d d' -> sound d -> sound d' /\ dimmed (collectibles d) (collectibles d').
Proof.
  intros ((row & Hrow & Hw) & Hn & ->) Hd. cbn. split.
  - apply (same_rest_sound d); [done..| |done]. intros i. rewrite (sound_custody _ Hd i). cbn. rewrite lookup_delete.
    case_decide as E; [|done]. subst i. rewrite Hrow. split; [|by intros (? & ? & _)]. intros (row' & [= <-] & Hs). congruence.
  - intros i row' [_ Hi]%lookup_delete_Some. by exists row'.
Qed.

(** *** Rewards *)

Lemma kind_after_pays kind : known_kind kind -> known_kind (kind_after kind) /\ pays_collectibles (kind_after kind) /\
  (pays_credits kind -> pays_credits (kind_after kind)).
Proof.
  unfold known_kind, pays_collectibles, pays_credits, kind_after. rewrite !switch_cons, switch_nil. intros Hk.
  repeat (apply elem_of_cons in Hk as [->|Hk]; [cbn; set_solver|]). by apply not_elem_of_nil in Hk.
Qed.

Lemma reward_added_sound command d value d' :
  reward_added command d value d' -> sound d -> sound d' /\ dimmed (collectibles d) (collectibles d').
Proof.
  intros [row crow value' d1 Hrow _ Hdraft _ _ Hh] Hd.
  assert (escrows (reward_TaskID command) (reward_FunderUserID command) [reward_CollectibleID command]
    (with_reward_kind (reward_TaskID command) row d) d1) as He by (eapply escrows_next; [done|constructor]).
  set (t := TypedID_String (reward_TaskID command)) in *. set (row' := set_reward_kind (kind_after (task_reward_kind row)) row).
  pose proof (escrows_frame _ _ _ _ _ He) as (Ht & Hf & Hr & _ & Hheld). cbn in Ht, Hf, Hr, Hheld. fold t row' in Ht.
  split; [|by apply steady_dimmed; apply escrows_steady in He]. split.
  - apply (refunds_ok d); [|apply Hd]. by apply same_view_refunds; apply escrows_view in He.
  - rewrite Ht. apply map_Forall_insert_2; [by apply (sound_keys _ Hd _ row)|apply Hd].
  - eapply ended_step; [|apply Hd]. rewrite Ht. intros u urow. rewrite lookup_insert. case_decide as E.
    + intros [= <-] Hs. cbn in Hs. rewrite Hdraft in Hs. by destruct Hs.
    + intros Hu He'. right. split; [by exists urow|]. intros [Hnf Hnh Hnr]. split; [by rewrite Hf| |by rewrite Hr].
      rewrite held_none in *. intros c Hc. apply Hheld in Hc; [by eapply Hnh|by intros ->].
  - eapply escrows_custody; [exact He|]. by apply (same_custody d); [..|apply Hd].
  - pose proof (sound_kinds _ Hd) as Ha. assert (reward_kinds d !! t = Some (task_reward_kind row)) as Hkt by (unfold reward_kinds; by rewrite lookup_fmap, Hrow).
    destruct (kind_after_pays (task_reward_kind row)) as (Hk & Hp & Hc); [by eapply (agree_known _ Ha)|].
    apply (written_kinds d d1 t (kind_after (task_reward_kind row))); rewrite ?Hf; [|done..| |by eauto|done|done].
    + unfold reward_kinds. by rewrite Ht, fmap_insert.
    + intros (kind & Hkind & Hpk)%(agree_funds _ Ha). rewrite Hkt in Hkind. simplify_eq. auto.
Qed.

(** A reward of collectibles, but not a bundle, holds no credits. *)
Lemma paid_in_collectibles t kind d :
  kinds_agree d -> reward_kinds d !! t = Some kind -> kind <> "bundle" -> held_collectibles t d <> [] -> task_funds d !! t = None.
Proof.
  intros Ha Hkt Hkind Hheld. destruct (held_collectibles t d) as [|c cs] eqn:E; [done|]. assert (c ∈ held_collectibles t d) as Hc by (rewrite E; left).
  apply held_collectibles_elem, (agree_held _ Ha) in Hc as (kind1 & Hk & Hp). rewrite Hkt in Hk. injection Hk as <-.
  apply eq_None_not_Some. intros (kind1 & Hk & Hp')%(agree_funds _ Ha). rewrite Hkt in Hk. injection Hk as <-.
  unfold pays_credits, pays_collectibles in *. destruct Hp, Hp'; congruence.
Qed.

Lemma reward_returned_sound command d values d' :
  reward_returned command d values d' -> sound d -> sound d' /\ dimmed (collectibles d) (collectibles d').
Proof.
  intros [row vs d2 d3 Hrow _ _ Hkind Hheld _ Hu Hr] Hd. set (t := TypedID_String (unreward_TaskID command)) in *.
  pose proof (sound_kinds _ Hd) as Ha. assert (reward_kinds d !! t = Some (task_reward_kind row)) as Hkt by (unfold reward_kinds; by rewrite lookup_fmap, Hrow).
  assert (task_funds d !! t = None) as Hnone by by apply (paid_in_collectibles _ _ _ Ha Hkt).
  pose proof (fun u => update_task_state_others _ _ _ _ u Hu) as Hothers. pose proof (task_state_kinds _ _ _ _ Hu) as Hkinds.
  apply update_task_state_inr in Hu as [ts ->]. apply update_reservations_eq in Hr. subst d3.
  set (d1 := release_held _ _ _) in *.
  assert (lightened d (with_reservations ((fun r => if non_terminal t r then set_res_state "cancelled_by_requester" r else r) <$>
      task_reservations d) (with_tasks ts d1))) as Hl.
  { split; cbn; [done|apply map_filter_subseteq|]. intros i row'. rewrite lookup_fmap, fmap_Some. intros (row0 & Hrow0 & ->).
    exists row0. split; [done|]. intros u. case_match; [|done]. by rewrite non_terminal_set_state. }
  split; [|cbn; apply steady_dimmed, released_steady; [done|apply Hd]]. split.
  - apply (refunds_ok d); [|apply Hd]. by apply same_view_refunds.
  - intros u urow Hu. cbn in Hu. assert (is_Some (reward_kinds d !! u)) as Hs.
    { change (reward_kinds d) with (reward_kinds d1). rewrite <- Hkinds. unfold reward_kinds. cbn. rewrite lookup_fmap, Hu. by eexists. }
    unfold reward_kinds in Hs. rewrite lookup_fmap, fmap_is_Some in Hs. destruct Hs as [row0 Hrow0]. by apply (sound_keys _ Hd _ row0).
  - eapply (lightened_ended t d); [intros u Hne; by apply Hothers| |exact Hl|apply Hd]. intros _ _ _. split; [done|apply held_collectibles_released|].
    intros i row'. cbn. rewrite lookup_fmap, fmap_Some. intros (row0 & _ & ->). case_match eqn:E; [|done]. by apply non_terminal_set_state.
  - apply (same_custody d1); [done..|]. apply released_custody; [done|apply Hd].
  - apply (drawn_kinds_agree d); [|exact Ha]. apply lightened_drawn; [exact Hl|]. etrans; [|by apply same_tasks_kinds].
    etrans; [|exact Hkinds]. by apply same_tasks_kinds.
Qed.

(** *** Every commit *)

Lemma on_hand_policy c row value d : on_hand c row value d ->
  ParseTransferPolicy (col_transfer_policy row) = TransferPolicyAccepted TransferPolicyTransferableWithinOrg ->
  Collectible_Policy value = TransferPolicyTransferableWithinOrg.
Proof. intros [_ (_ & _ & _ & Hp & _)%parseCollectible_inv _] E. rewrite E in Hp. by injection Hp. Qed.

Lemma custody_step_sound d d' : custody_step d d' -> sound d -> sound d' /\ dimmed (collectibles d) (collectibles d').
Proof.
  intros [command value d1 Hs|command values d1 Hs|command value d1 [row v d2 [Hh _] _ Hc]|command value d1 [row v d2 [Hh _] _ Hc]
         |command value d1 [row v d2 _ [Hh _] _ Hc]|command value d1 [row v d2 [Hh _] Hw _ Hc]|command value draft d1 [row v slug dr d2 Hh _ _ Hc]|c d1 Hs].
  - by eapply reward_added_sound.
  - by eapply reward_returned_sound.
  - refine (changed_sound _ _ _ _ _ _ _ Hh _ _ _ Hc); [by cbn; rewrite (hand_minted _ _ _ _ Hh)|done|apply adrift_user].
  - refine (changed_sound _ _ _ _ _ _ _ Hh _ _ _ Hc); [by cbn; rewrite (hand_minted _ _ _ _ Hh)|done|by intros (_ & _ & ?)].
  - refine (changed_sound _ _ _ _ _ _ _ Hh _ _ _ Hc); [by cbn; rewrite (hand_minted _ _ _ _ Hh)|done|by intros (_ & _ & ?)].
  - refine (changed_sound _ _ _ _ _ _ _ Hh _ _ _ Hc); [by cbn; rewrite (hand_minted _ _ _ _ Hh)|done|
    intros (_ & Hn & Hp); destruct (Hw (on_hand_policy _ _ _ _ Hh Hp)) as [He _]; by rewrite Hn in He].
  - by refine (changed_sound _ _ _ _ _ _ _ Hh _ _ _ Hc).
  - by eapply deleted_sound.
Qed.

(** No custody operation moves credits. *)
Lemma custody_step_view d d' : custody_step d d' -> view d' = view d.
Proof.
  assert (forall c f draft d1, changed c f draft d d1 -> view d1 = view d) as Hch by by intros c f draft d1 (e & r & ->)%recorded_with_events.
  intros [command value d1 Hs|command values d1 Hs|command value d1 []|command value d1 []|command value d1 []|command value d1 []|command value draft d1 []|c d1 Hs];
    [| |eauto..|by destruct Hs as (_ & _ & ->)].
  - destruct Hs as [row crow v d2 _ _ _ _ _ Hh]. by apply held_for_inv in Hh as (_ & row' & _ & _ & _ & _ & ->).
  - destruct Hs as [row vs d2 d3 _ _ _ _ _ _ [ts ->]%update_task_state_inr ->%update_reservations_eq]. done.
Qed.

End Steps.
End GallerySteps.
