(* ===== verification/GalleryLife.v ===== *)
(** * The gallery: operations and invariants

    Any number of market, collectible and catalog operations, run one after another on
    one database: the commits each is made of, and what they all keep. *)

From S2P Require Import Prelude.
From S2P Require Import Core.
From S2P Require Import Assets.
From S2P Require Import Events.
From S2P Require Import TaskValues.
From S2P Require Import LedgerValues.
From S2P Require Import Database.
From S2P Require Import Tx.
From S2P Require Import LedgerHelpers.
From S2P Require Import HelperSpecs.
From S2P Require Import ReviewSpecs.
From S2P Require Import Outbox.
From S2P Require Import LedgerCorrect.
From S2P Require Import EscrowSpecs.
From S2P Require Import TaskDB.
From S2P Require Import TaskStore.
From S2P Require Import TaskSpecs.
From S2P Require Import Lifecycle.
From S2P Require Import CollectibleStore.
From S2P Require Import CatalogStore.
From S2P Require Import CollectibleService.
From S2P Require Import GallerySpecs.
From S2P Require Import GalleryFrames.
Local Open Scope string_scope.
Local Open Scope Z_scope.

Module GalleryLife.
Export GallerySpecs.
Export GallerySteps.

(** ** Operations *)

Inductive GalleryOp :=
| GMarket (op : Operation)
| GMint (issuer : UserID) (ownerKind ownerID organizationID : string) (name : CollectibleName) (kind : CollectibleKind) (policy : TransferPolicy) (art : string)
| GAward (issuer : UserID) (rawSlug ownerKind ownerID organizationID : string)
| GAddEntry (entry : CatalogEntry)
| GWithdrawEntry (slug : CatalogSlug)
| GReleaseEntry (slug : CatalogSlug)
| GDeleteEntry (slug : CatalogSlug)
| GFundReward (funder : UserID) (taskID : TaskID) (collectibleID : CollectibleID)
| GRefundReward (requester : UserID) (taskID : TaskID)
| GAwardOrganization (organizationID : OrganizationID) (collectibleID : CollectibleID) (recipient : UserID)
| GGift (from to : UserID) (collectibleID : CollectibleID)
| GDonate (from : UserID) (organizationID : OrganizationID) (collectibleID : CollectibleID)
| GHandout (actor : UserID) (organizationID : OrganizationID) (to : UserID) (collectibleID : CollectibleID)
| GWithdraw (actor : UserID) (collectibleID : CollectibleID)
| GRelease (actor : UserID) (collectibleID : CollectibleID)
| GDelete (collectibleID : CollectibleID).

(** A market operation as the callers of the task service ask for it: its commands are
    valid, and a creation that escrows collectibles declares them. *)
Definition valid_gallery `{UUIDLib} (op : GalleryOp) : Prop :=
  match op with GMarket op => valid_operation op /\ (forall command, asked_by op command -> declared command) | _ => True end.

Section Operations.
Context `{UUIDLib, URLLib, World, CollectibleIDs}.
Import CollectibleService.

Definition gallery_operate (op : GalleryOp) : MOf Gallery unit :=
  match op with
  | GMarket op => on_market (operate op)
  | GMint issuer ownerKind ownerID organizationID name kind policy art => ignore (Mint issuer ownerKind ownerID organizationID name kind policy art)
  | GAward issuer rawSlug ownerKind ownerID organizationID => ignore (CollectibleService.AwardFromCatalog issuer rawSlug ownerKind ownerID organizationID)
  | GAddEntry entry => ignore (CollectibleService.AddCatalogEntry entry)
  | GWithdrawEntry slug => ignore (CollectibleService.WithdrawCatalogEntry slug)
  | GReleaseEntry slug => ignore (CollectibleService.ReleaseCatalogEntry slug)
  | GDeleteEntry slug => ignore (CollectibleService.DeleteCatalogEntry slug)
  | GFundReward funder taskID collectibleID => ignore (FundReward funder taskID collectibleID)
  | GRefundReward requester taskID => ignore (RefundReward requester taskID)
  | GAwardOrganization organizationID collectibleID recipient =>
      ignore (CollectibleService.AwardOrganizationCollectible organizationID collectibleID recipient)
  | GGift from to collectibleID => ignore (CollectibleService.GiftCollectible from to collectibleID)
  | GDonate from organizationID collectibleID => ignore (CollectibleService.TransferCollectibleToOrganization from organizationID collectibleID)
  | GHandout actor organizationID to collectibleID =>
      ignore (CollectibleService.TransferCollectibleFromOrganization actor organizationID to collectibleID)
  | GWithdraw actor collectibleID => ignore (CollectibleService.WithdrawCollectible actor collectibleID)
  | GRelease actor collectibleID => ignore (CollectibleService.ReleaseCollectible actor collectibleID)
  | GDelete collectibleID => ignore (CollectibleService.DeleteWithdrawnCollectible collectibleID)
  end.

Definition gallery_after (env : Env) (g : Gallery) (op : GalleryOp) : Gallery := snd (run env g (gallery_operate op)).

Definition gallery_after_all (schedule : list (Env * GalleryOp)) (g : Gallery) : Gallery :=
  foldl (fun g eo => gallery_after eo.1 g eo.2) g schedule.

End Operations.

(** ** The invariant *)

Lemma both_sym {A} (a b : option A) : both a b -> both b a.
Proof. by intros [Ha ->]. Qed.

Lemma clash_sym a b : clash a b -> clash b a.
Proof.
  unfold clash. intros [(? & ? & ?)|[(? & ? & ? & ? & ? & ?)|[(? & ?)|(? & ? & ? & ? & ?)]]]; [left|right; left|right; right; left|do 3 right];
    auto 10 using both_sym, eq_sym.
Qed.

(** No index is violated. *)
Definition indexed (rows : gmap string CollectibleRow) : Prop := forall i a, rows !! i = Some a -> ~ clashes i a rows.

Lemma indexed_pair rows i j a b : indexed rows -> rows !! i = Some a -> rows !! j = Some b -> clash a b -> i = j.
Proof.
  intros Hi Ha Hb Hc. destruct (decide (i = j)) as [|Hne]; [done|]. destruct (Hi _ _ Ha). exists j, b. by split; [|split].
Qed.

(** What the clashes of a row depend on. *)
Lemma clash_dimmed a b a' b' :
  provenance a' = provenance a -> (live a' -> live a) -> provenance b' = provenance b -> (live b' -> live b) -> clash a' b' -> clash a b.
Proof.
  unfold provenance, clash, live_unique, both. intros [= En Ek _ _ Es Ed Ei] La [= En' Ek' _ _ Es' Ed' Ei'] Lb.
  rewrite En, Ek, Es, Ed, Ei, En', Ek', Es', Ed', Ei'. naive_solver.
Qed.

Lemma dimmed_indexed rows rows' : dimmed rows rows' -> indexed rows -> indexed rows'.
Proof.
  intros Hd Hi i a' Ha' (j & b' & Hb' & Hne & Hc).
  destruct (Hd _ _ Ha') as (a & Ha & Pa & La & _). destruct (Hd _ _ Hb') as (b & Hb & Pb & Lb & _).
  apply Hne. symmetry. apply (indexed_pair rows _ _ a b); [done..|]. by eapply clash_dimmed.
Qed.

Lemma insert_indexed id row rows : ~ clashes id row rows -> indexed rows -> indexed (<[id := row]> rows).
Proof.
  intros Hn Hi i a Ha (j & b & Hb & Hne & Hc). apply lookup_insert_Some in Ha as [[-> ->]|[Hi' Ha]]; apply lookup_insert_Some in Hb as [[-> ->]|[Hj Hb]].
  - done.
  - apply Hn. by exists j, b.
  - apply Hn. exists i, a. split; [done|]. split; [done|by apply clash_sym].
  - apply (Hi _ _ Ha). by exists j, b.
Qed.

(** An entry's cap fits its kind. *)
Definition cap_fits (entry : CatalogRow) : Prop :=
  match cat_max_editions entry with
  | Some limit => 1 <= limit /\ (cat_kind entry = "edition" \/ (cat_kind entry = "unique" /\ limit = 1))
  | None => cat_kind entry = "badge"
  end.

(** An instance is of its entry's kind, and numbered up to the cap if it is an edition. *)
Definition numbered (entry : CatalogRow) (row : CollectibleRow) : Prop :=
  col_kind row = cat_kind entry /\
  match col_edition_number row with
  | Some number => cat_kind entry = "edition" /\ 1 <= number /\ forall limit, cat_max_editions entry = Some limit -> number <= limit
  | None => cat_kind entry <> "edition"
  end.

Record gallery_ok `{UUIDLib} (g : Gallery) : Prop := {
  gallery_sound : sound (tables (market g));
  gallery_indexed : indexed (rows_of g);
  gallery_caps : map_Forall (fun _ => cap_fits) (catalog_entries g);
  gallery_backed i row slug : rows_of g !! i = Some row -> col_catalog_slug row = Some slug ->
    exists entry, catalog_entries g !! slug = Some entry /\ numbered entry row
}.

Section Life.
Context `{UUIDLib, URLLib, World, CollectibleIDs}.
Implicit Types (g : Gallery) (m : Market) (d : DB).

Lemma numbered_provenance entry row row' : provenance row' = provenance row -> numbered entry row -> numbered entry row'.
Proof. unfold provenance, numbered. intros [= _ Ek _ _ _ Ed _]. by rewrite Ek, Ed. Qed.

(** The market's database is replaced, the catalog is not. *)
Lemma dimmed_ok m' g :
  sound (tables m') -> dimmed (rows_of g) (collectibles (tables m')) -> gallery_ok g -> gallery_ok (with_market m' g).
Proof.
  intros Hs Hd [_ Hi Hc Hb]. split; cbn; [done|by eapply dimmed_indexed|done|].
  intros i row' slug Hrow' Hslug. destruct (Hd _ _ Hrow') as (row & Hrow & Hp & _).
  destruct (Hb i row slug) as (entry & He & Hn); [done|unfold provenance in Hp; congruence|]. exists entry. split; [done|by eapply numbered_provenance].
Qed.

(** ** Minting *)

Record inserted (id : string) (row : CollectibleRow) g (stored : CollectibleRow) g' : Prop := {
  inserted_fresh : rows_of g !! id = None;
  inserted_provenance : provenance stored = provenance row;
  inserted_state : col_state stored = col_state row;
  inserted_free : ~ clashes id stored (rows_of g);
  inserted_result : exists now, g' = with_times (<[id := now]> (collectible_times g)) (with_rows (<[id := stored]> (rows_of g)) g)
}.

Lemma insert_collectible_inv id row now g g' :
  insert_collectible id row now g = inr g' ->
  exists owner organization, uuid_columns (col_owner_user_id row) (col_organization_id row) = Some (owner, organization) /\
    inserted id row g (set_uuids owner organization row) g'.
Proof.
  unfold insert_collectible. destruct (uuid_columns _ _) as [[owner organization]|]; [|done].
  destruct (collectible_checks _); cbn [negb]; [|done]. case_bool_decide as Ei; [done|]. case_bool_decide as Ec; [done|].
  destruct (references_organization _ _); cbn [negb]; [|done]. intros [= <-]. exists owner, organization. split; [done|].
  split; [by apply eq_None_not_Some|done..|by exists now].
Qed.

Lemma inserted_sound id row g stored g' :
  inserted id row g stored g' -> col_state row = "minted" -> sound (tables (market g)) -> sound (tables (market g')).
Proof.
  intros [Hf _ Hs _ [now ->]] Hm Hd. apply (same_rest_sound (tables (market g))); [done..| |done].
  intros i. rewrite (sound_custody _ Hd i). cbn. rewrite lookup_insert. case_decide as E; [|done]. subst i.
  unfold rows_of in Hf. rewrite Hf. split; [by intros (? & ? & _)|]. intros (row' & [= <-] & Hst). congruence.
Qed.

Lemma inserted_ok id row g stored g' :
  inserted id row g stored g' -> col_state row = "minted" ->
  (forall slug, col_catalog_slug row = Some slug -> exists entry, catalog_entries g !! slug = Some entry /\ numbered entry row) ->
  gallery_ok g -> gallery_ok g'.
Proof.
  intros Hins Hm Hrow [Hs Hi Hc Hb]. pose proof (inserted_sound _ _ _ _ _ Hins Hm Hs) as Hs'.
  destruct Hins as [Hf Hp _ Hfree [now ->]]. split; [done|by apply insert_indexed|done|].
  cbn. intros i row' slug. rewrite lookup_insert. case_decide as E; [|by apply Hb]. intros [= <-] Hslug.
  destruct (Hrow slug) as (entry & He & Hn); [unfold provenance in Hp; congruence|]. exists entry. split; [done|by eapply numbered_provenance].
Qed.

(** *** Numbers *)

Lemma ParseCollectibleKind_inv raw kind : ParseCollectibleKind raw = CollectibleKindAccepted kind -> raw = CollectibleKind_String kind.
Proof. unfold ParseCollectibleKind. rewrite !switch_cons. repeat (case_match; [by intros [= <-]; apply String.eqb_eq|]). done. Qed.

Lemma parseCatalogEntry_inv slug row entry :
  parseCatalogEntry slug row = inr entry ->
  cat_kind row = CollectibleKind_String (Entry_Kind entry) /\ cat_max_editions row = maxEditionsColumn (Entry_Cap entry) /\
  ParseCatalogEntryState (cat_state row) = CatalogEntryStateAccepted (Entry_State entry).
Proof.
  unfold parseCatalogEntry. destruct (NewCatalogSlug _); [|done]. destruct (NewCollectibleName _); [|done].
  destruct (ParseCollectibleKind _) eqn:E; [|done]. destruct (ParseTransferPolicy _); [|done]. destruct (ParseCatalogEntryState _) eqn:Es; [|done].
  intros [= <-]. cbn. apply ParseCollectibleKind_inv in E. by destruct (cat_max_editions row).
Qed.

Lemma edition_numbers_elem series rows number :
  number ∈ edition_numbers series rows <-> exists i row, rows !! i = Some row /\ series row = true /\ col_edition_number row = Some number.
Proof.
  unfold edition_numbers. rewrite list_elem_of_omap. split.
  - intros ([i row] & Hin%elem_of_map_to_list & Hn). cbn in Hn. exists i, row. by destruct (series row).
  - intros (i & row & Hrow%elem_of_map_to_list & Hs & Hn). exists (i, row). cbn. by rewrite Hs.
Qed.

Lemma sql_max_positive numbers : Forall (fun number => 1 <= number) numbers -> 0 <= default 0 (sql_max numbers).
Proof.
  destruct numbers as [|number numbers]; [done|]. intros [Hn Hns]%List.Forall_cons_iff. cbn.
  induction Hns as [|n ns Hn' _ IH]; cbn; lia.
Qed.

Lemma some_row_false p g : some_row p g = false <-> forall i row, rows_of g !! i = Some row -> p row = false.
Proof.
  unfold some_row. rewrite <- not_true_iff_false, existsb_exists. split.
  - intros Hn i row Hrow. apply not_true_iff_false. intros Hp. apply Hn. exists (i, row). split; [|done].
    by apply list_elem_of_In, elem_of_map_to_list.
  - intros Hall ([i row] & Hin & Hp). apply list_elem_of_In, elem_of_map_to_list in Hin. cbn in Hp. by rewrite (Hall _ _ Hin) in Hp.
Qed.

Lemma award_numbered command g crow entry number :
  entry_read (award_Slug command) g crow entry -> award_number (CatalogSlug_String (award_Slug command)) entry g number -> gallery_ok g ->
  numbered crow (awarded_row command entry number).
Proof.
  intros [Hrow (Hk & Hm & _)%parseCatalogEntry_inv] Hn Hg. unfold numbered. cbn. rewrite Hk, Hm. split; [done|].
  unfold award_number in Hn. destruct (Entry_Kind entry); [by destruct Hn as [-> _]| |by rewrite Hn].
  destruct Hn as (next & -> & [-> _]%scan_int64_inr & Hcap). split; [done|]. split.
  - match goal with |- 1 <= default 0 (sql_max ?ns) + 1 => cut (0 <= default 0 (sql_max ns)) end; [lia|].
    apply sql_max_positive, list.Forall_forall. intros number (i & row & Hi & Hs & Hn)%edition_numbers_elem.
    apply bool_decide_eq_true in Hs. destruct (gallery_backed g Hg _ _ _ Hi Hs) as (entry' & _ & _ & Hnum). rewrite Hn in Hnum. tauto.
  - intros limit Hl. destruct (Entry_Cap entry); [done|]. injection Hl as <-. by apply Hcap.
Qed.

Lemma award_minted_ok command g entry number g' : award_minted command g entry number g' -> gallery_ok g -> gallery_ok g'.
Proof.
  intros [crow entry' number' now g1 He _ Hn Hi] Hg. apply insert_collectible_inv in Hi as (owner & organization & _ & Hins).
  eapply inserted_ok; [exact Hins|done| |done]. cbn. intros slug [= <-]. exists crow. split; [apply He|by eapply award_numbered].
Qed.

Lemma custom_made_ok c g number g' :
  Collectible_State c = CollectibleStateMinted -> custom_made c g number g' -> gallery_ok g -> gallery_ok g'.
Proof.
  intros Hs [number' now g1 _ Hi] Hg. apply insert_collectible_inv in Hi as (owner & organization & _ & Hins).
  eapply inserted_ok; [exact Hins|cbn; by rewrite Hs|done..].
Qed.

(** ** The catalog *)

Lemma entry_row_fits entry now : validateCatalogCap entry = None -> cap_fits (entry_row entry now).
Proof.
  unfold validateCatalogCap, cap_fits. cbn. destruct (Entry_Kind entry), (Entry_Cap entry) as [|limit]; cbn; try done; case_match; try done; intros _.
  - split; [lia|]. right. split; [done|lia].
  - split; [lia|by left].
Qed.

Lemma entry_added_ok entry g g' : validateCatalogCap entry = None -> entry_added entry g g' -> gallery_ok g -> gallery_ok g'.
Proof.
  intros Hv [now Hi] [Hs Hx Hc Hb]. unfold insert_entry in Hi. destruct (negb _); [done|]. case_bool_decide as Ef; [done|]. injection Hi as <-.
  split; cbn; [done..| |].
  - apply map_Forall_insert_2; [by apply entry_row_fits|done].
  - intros i row slug Hrow Hslug. destruct (Hb _ _ _ Hrow Hslug) as (e & He & Hn). exists e. split; [|done].
    rewrite lookup_insert_ne; [done|]. intros E. apply Ef. rewrite E. by exists e.
Qed.

Lemma switch_entry_ok slug old new g g' : switch_entry slug old new g = inr (1, g') -> gallery_ok g -> gallery_ok g'.
Proof.
  unfold switch_entry. destruct (catalog_entries g !! slug) as [crow|] eqn:Hcrow; [|done]. case_match; [|done]. intros [= <-] [Hs Hx Hc Hb].
  split; cbn; [done..| |].
  - apply map_Forall_insert_2; [by apply (Hc _ _ Hcrow)|done].
  - intros i row slug' Hrow Hslug. destruct (Hb _ _ _ Hrow Hslug) as (e & He & Hn). destruct (decide (slug = slug')) as [<-|Hne].
    + exists (set_cat_state new crow). split; [apply lookup_insert_eq|]. rewrite Hcrow in He. by injection He as <-.
    + exists e. by rewrite lookup_insert_ne.
Qed.

Lemma entry_deleted_ok slug g entry g' : entry_deleted slug g entry g' -> gallery_ok g -> gallery_ok g'.
Proof.
  intros (_ & _ & Hno & ->) [Hs Hx Hc Hb]. split; cbn; [done..|by apply map_Forall_delete|].
  intros i row slug' Hrow Hslug. destruct (Hb _ _ _ Hrow Hslug) as (e & He & Hn). exists e. split; [|done].
  rewrite lookup_delete_ne; [done|]. intros E. apply (proj1 (some_row_false _ _) Hno) in Hrow. unfold of_entry in Hrow.
  apply bool_decide_eq_false in Hrow. congruence.
Qed.

(** ** Release *)

Lemma mint_again_inv id row g g' :
  rows_of g !! id = Some row -> mint_again id g = inr g' ->
  ~ clashes id (set_col_state "minted" row) (rows_of g) /\ g' = with_rows (alter (set_col_state "minted") id (rows_of g)) g.
Proof. unfold mint_again. intros ->. case_bool_decide; [done|]. by intros [= <-]. Qed.

Lemma release_made_ok command g value draft g' : release_made command g value draft g' -> gallery_ok g -> gallery_ok g'.
Proof.
  intros [row v slug crow entry dr g1 d Hrow _ Hw _ _ _ Hm _ (e & r & ->)%recorded_with_events] [Hs Hx Hc Hb].
  apply (mint_again_inv _ row) in Hm as [Hfree ->]; [|done]. set (id := TypedID_String (release_CollectibleID command)) in *.
  split; cbn; [|unfold rows_of; cbn|done|unfold rows_of; cbn].
  - apply (same_rest_sound (tables (market g))); [done..| |done].
    apply (same_custody (with_collectibles (alter (set_col_state "minted") id (rows_of g)) (tables (market g)))); [done..|].
    apply (moved_custody _ _ row); [done|by rewrite Hw|done|apply Hs].
  - replace (alter (set_col_state "minted") id (rows_of g)) with (<[id := set_col_state "minted" row]> (rows_of g)); [by apply insert_indexed|].
    apply map_eq. intros i. rewrite lookup_insert, lookup_alter. case_decide as E; [|done]. subst i. by rewrite Hrow.
  - intros i row' slug'. rewrite lookup_alter. case_decide as E; [|by apply Hb]. subst i. unfold rows_of in Hrow. rewrite Hrow. intros [= <-] Hslug.
    destruct (Hb _ _ slug' Hrow Hslug) as (e' & He' & Hn). by exists e'.
Qed.

(** ** Commits *)

(** What an operation other than the market's has committed. *)
Inductive gallery_commit (g : Gallery) : GalleryOp -> Gallery -> Prop :=
| committed_mint issuer ok oi og name kind policy art c number g' :
    Collectible_State c = CollectibleStateMinted -> custom_made c g number g' ->
    gallery_commit g (GMint issuer ok oi og name kind policy art) g'
| committed_award issuer raw ok oi og command entry number g' :
    award_minted command g entry number g' -> gallery_commit g (GAward issuer raw ok oi og) g'
| committed_entry entry g' : validateCatalogCap entry = None -> entry_added entry g g' -> gallery_commit g (GAddEntry entry) g'
| committed_withdrawn slug g' : switch_entry (CatalogSlug_String slug) "available" "withdrawn" g = inr (1, g') -> gallery_commit g (GWithdrawEntry slug) g'
| committed_available slug g' : switch_entry (CatalogSlug_String slug) "withdrawn" "available" g = inr (1, g') -> gallery_commit g (GReleaseEntry slug) g'
| committed_removed slug entry g' : entry_deleted slug g entry g' -> gallery_commit g (GDeleteEntry slug) g'
| committed_funded funder t c value d :
    reward_added (MkFundReward funder t c) (tables (market g)) value d ->
    gallery_commit g (GFundReward funder t c) (with_market (with_tables d (market g)) g)
| committed_refunded requester t values d :
    reward_returned (MkRefundReward requester t) (tables (market g)) values d ->
    gallery_commit g (GRefundReward requester t) (with_market (with_tables d (market g)) g)
| committed_organization_award organization c recipient draft value d :
    award_made (MkAwardOrganizationCollectible organization c recipient draft) (tables (market g)) value d ->
    gallery_commit g (GAwardOrganization organization c recipient) (with_market (with_tables d (market g)) g)
| committed_gift from to c draft value d :
    gift_made (MkGift from to c draft) (tables (market g)) value d ->
    gallery_commit g (GGift from to c) (with_market (with_tables d (market g)) g)
| committed_donation from organization c draft value d :
    TypedID_String organization ∈ organizations (market g) ->
    donation_made (MkTransferToOrganization from organization c draft) (tables (market g)) value d ->
    gallery_commit g (GDonate from organization c) (with_market (with_tables d (market g)) g)
| committed_handout actor organization to c draft value d :
    handout_made (MkTransferFromOrganization organization actor to c draft) (tables (market g)) value d ->
    gallery_commit g (GHandout actor organization to c) (with_market (with_tables d (market g)) g)
| committed_withdrawal actor c draft0 value draft d :
    withdrawal_made (MkWithdrawCollectible c draft0) (tables (market g)) value draft d ->
    gallery_commit g (GWithdraw actor c) (with_market (with_tables d (market g)) g)
| committed_release actor c draft0 value draft g' :
    release_made (MkReleaseCollectible c draft0) g value draft g' -> gallery_commit g (GRelease actor c) g'
| committed_deletion c d : deleted c (tables (market g)) d -> gallery_commit g (GDelete c) (with_market (with_tables d (market g)) g).

Lemma wp_on_store {A} env (m : M A) (Q : A -> TxStateOf Gallery -> Prop) base g n :
  wp (at_time (env_tx_now env) env) m (fun a st => Q a (MkTxState (with_market (with_tables (st_base st) (market base)) base)
    (with_market (with_tables (st_db st) (market g)) g) (st_step st))) (MkTxState (tables (market base)) (tables (market g)) n) ->
  wp env (CollectibleService.on_store m) Q (MkTxState base g n).
Proof. intros Hw. unfold CollectibleService.on_store. apply wp_on_market, wp_on_tables. exact Hw. Qed.

Lemma with_market_tables_id g : with_market (with_tables (tables (market g)) (market g)) g = g.
Proof. by rewrite with_tables_id, with_market_id. Qed.

(** A draft is made, and what follows is run with it, at a later step. *)
Lemma wp_draft {R} env kind actor subject recipients (f : DomainError -> R) k (Q : R -> TxStateOf Gallery -> Prop) g n :
  (forall reason n', Q (f reason) (MkTxState g g n')) -> (forall draft, wp env (k draft) Q (MkTxState g g (S n))) ->
  wp env (attempt (CollectibleService.collectible_draft kind actor subject recipients) f k) Q (MkTxState g g n).
Proof.
  intros Hf Hk. apply wp_attempt. unfold CollectibleService.collectible_draft. apply wp_bind. unfold wp, NewDomainEventID. cbn.
  destruct (NewDraft _ _ _ _ _ _); [apply Hk|apply Hf].
Qed.

(** What an operation other than the market's commits is its commit, or nothing. *)
Lemma gallery_operation_commits env g (op : GalleryOp) :
  (forall o, op <> GMarket o) -> gallery_after env g op = g \/ gallery_commit g op (gallery_after env g op).
Proof.
  intros Hnm. set (P := fun g' => g' = g \/ gallery_commit g op g').
  assert (forall g', g' = g -> P g') as Hid by (by left).
  assert (forall d, d = tables (market g) -> P (with_market (with_tables d (market g)) g)) as Hidt
    by (intros d ->; left; apply with_market_tables_id).
  assert (wp env (gallery_operate op) (fun _ st => P (st_base st)) (MkTxState g g 0) -> P (gallery_after env g op)) as Hrun
    by (intros (st & HP & Hb)%wp_run; unfold gallery_after; by rewrite Hb).
  apply Hrun. clear Hrun.
  destruct op as [o|issuer ok oi og name kind policy art|issuer raw ok oi og|entry|slug|slug|slug|funder t c|requester t|organization c recipient
    |from to c|from organization c|actor organization to c|actor c|actor c|c]; cbn [gallery_operate]; [by destruct (Hnm o)|..]; apply wp_ignore.
  - unfold CollectibleService.Mint. apply wp_bind. unfold wp at 1, CollectibleService.NewCollectibleID. cbn [st_step].
    destruct (new_collectible_id 0) as [id|]; [|by apply wp_ret, Hid]. apply wp_bind, CreateCollectible_wp; cbn; [intros; by apply wp_ret, Hid|].
    intros number g' k Hm. apply wp_ret. right. by eapply committed_mint, Hm.
  - unfold CollectibleService.AwardFromCatalog. destruct (NewCatalogSlug raw) as [slug|]; [|by apply wp_ret, Hid]. apply wp_bind.
    unfold wp at 1, CollectibleService.NewCollectibleID. cbn [st_step].
    destruct (new_collectible_id 0) as [id|]; [|by apply wp_ret, Hid]. apply wp_bind, AwardFromCatalog_wp; cbn; [intros; by apply wp_ret, Hid|].
    intros entry number g' k Hm. apply wp_ret. right. by eapply committed_award.
  - unfold CollectibleService.AddCatalogEntry. destruct (KnownSpriteSlug _); cbn [negb]; [|by apply wp_ret, Hid].
    destruct (validateCatalogCap entry) eqn:Hv; [by apply wp_ret, Hid|]. apply AddCatalogEntry_wp; cbn; [intros; by apply Hid|].
    intros st' Ha. right. by apply committed_entry.
  - apply switch_and_find_wp; cbn; [intros; by apply Hid|]. intros r st' Hs _. right. by apply committed_withdrawn.
  - apply switch_and_find_wp; cbn; [intros; by apply Hid|]. intros r st' Hs _. right. by apply committed_available.
  - apply DeleteCatalogEntry_wp; cbn; [intros; by apply Hid|]. intros entry g' k Hd. right. by eapply committed_removed.
  - apply wp_on_store, FundCollectibleReward_wp; cbn; [intros; by apply Hidt|]. intros value d k Hs. right. by eapply committed_funded.
  - apply wp_on_store, RefundCollectibleReward_wp; cbn; [intros; by apply Hidt|]. intros values d k Hs. right. by eapply committed_refunded.
  - apply wp_draft; [intros; by apply Hid|]. intros draft. apply wp_bind, wp_on_store, AwardOrganizationCollectible_wp; cbn; [intros; by apply wp_ret, Hidt|].
    intros value d k Hs. apply wp_ret. right. by eapply committed_organization_award.
  - apply wp_draft; [intros; by apply Hid|]. intros draft. apply wp_bind, wp_on_store, GiftCollectible_wp; cbn; [intros; by apply wp_ret, Hidt|intros; by apply wp_ret, Hidt|].
    intros value d k Hs. apply wp_ret. right. by eapply committed_gift.
  - apply wp_draft; [intros; by apply Hid|]. intros draft. apply wp_bind.
    apply (wp_on_market (env:=env)), TransferCollectibleToOrganization_wp; cbn.
    + intros reason st' ->. apply wp_ret, Hid, with_market_id.
    + intros value d k Ho Hs. apply wp_ret. right. by eapply committed_donation.
  - apply wp_draft; [intros; by apply Hid|]. intros draft. apply wp_bind, wp_on_store, TransferCollectibleFromOrganization_wp; cbn; [intros; by apply wp_ret, Hidt|].
    intros value d k Hs. apply wp_ret. right. by eapply committed_handout.
  - apply wp_draft; [intros; by apply Hid|]. intros draft. apply wp_bind, wp_on_store, WithdrawCollectible_wp; cbn; [intros; by apply wp_ret, Hidt|].
    intros value draft' d k Hs. apply wp_ret. right. by eapply committed_withdrawal.
  - apply wp_draft; [intros; by apply Hid|]. intros draft. apply wp_bind, ReleaseCollectible_wp; cbn; [intros; by apply wp_ret, Hid|].
    intros value draft' g' k Hs. apply wp_ret. right. by eapply committed_release.
  - apply wp_on_store, DeleteWithdrawnCollectible_wp; cbn; [intros; by apply Hidt|]. intros d k Hs. right. by eapply committed_deletion.
Qed.

Lemma run_ignore {A} env g (c : MOf Gallery A) : snd (run env g (ignore c)) = snd (run env g c).
Proof. unfold run, ignore, mbind, M_bind. by destruct (c env _). Qed.

Lemma gallery_after_market env g (op : Operation) : gallery_after env g (GMarket op) = with_market (after env (market g) op) g.
Proof. unfold gallery_after, after, run, gallery_operate, on_market. cbn [st_base st_db st_step]. by destruct (operate op env _) as [a st]. Qed.

(** ** Every operation keeps the invariant *)

Context `{!UUIDLaws}.

Lemma custody_step_ok g d : custody_step (tables (market g)) d -> gallery_ok g -> gallery_ok (with_market (with_tables d (market g)) g).
Proof. intros Hs Hg. apply custody_step_sound in Hs as [Hd Hdim]; [|apply Hg]. by apply dimmed_ok. Qed.

Lemma gallery_commit_ok g op g' : gallery_commit g op g' -> gallery_ok g -> gallery_ok g'.
Proof.
  intros [] Hg; [by eapply custom_made_ok|by eapply award_minted_ok|by eapply entry_added_ok|by eapply switch_entry_ok..
    |by eapply entry_deleted_ok| | | | | | | |by eapply release_made_ok|]; apply custody_step_ok; try done.
  - by eapply step_funded.
  - by eapply step_refunded.
  - by eapply step_award.
  - by eapply step_gift.
  - by eapply step_donation.
  - by eapply step_handout.
  - by eapply step_withdrawal.
  - by eapply step_deleted.
Qed.

Lemma commits_gallery asked m m' :
  (forall command, asked command -> declared command) -> rtc (commit asked) m m' -> sound (tables m) ->
  sound (tables m') /\ steady (collectibles (tables m)) (collectibles (tables m')).
Proof.
  intros Hasked. induction 1 as [m|m m1 m2 Hc _ IH]; intros Hs; [done|].
  destruct IH as [Hs2 Hd]; [|split; [done|etrans; [|exact Hd]; apply (commit_steady asked m m1); [done|apply Hs]]].
  apply sound_market in Hs as [Hm Hk]. apply sound_market. split; [by apply (commits_market_ok asked m m1); [apply rtc_once|]|by apply (commit_kinds asked m m1)].
Qed.

Lemma gallery_after_ok env g op : valid_gallery op -> gallery_ok g -> gallery_ok (gallery_after env g op).
Proof.
  intros Hv Hg. assert ((exists o, op = GMarket o) \/ forall o, op <> GMarket o) as [[o ->]|Hn] by (destruct op; naive_solver).
  - destruct Hv as [Ho Hasked]. rewrite gallery_after_market. pose proof (gallery_sound _ Hg) as Hs.
    destruct (commits_gallery (asked_by o) (market g) (after env (market g) o)) as [Hs' Hd]; [done| |done|by apply dimmed_ok, Hg; [|apply steady_dimmed]].
    apply sound_market in Hs as [Hm _]. by apply operation_commits; [|apply Hm..].
  - destruct (gallery_operation_commits env g op Hn) as [->|Hc]; [done|by eapply gallery_commit_ok].
Qed.

Lemma gallery_after_all_ok schedule g :
  Forall (fun eo => valid_gallery eo.2) schedule -> gallery_ok g -> gallery_ok (gallery_after_all schedule g).
Proof.
  revert g. induction schedule as [|[env op] schedule IH]; intros g Hv Hg; [done|]. apply List.Forall_cons_iff in Hv as [Hop Hv].
  apply IH; [done|]. by apply gallery_after_ok.
Qed.

End Life.
End GalleryLife.
