(* ===== verification/GalleryCorrect.v ===== *)
(** * What the gallery promises

    The theorems on collectibles, rewards and the catalog: what holds after any number
    of market, collectible and catalog operations, who may move a collectible, and what
    a refunded reward leaves. *)

From S2P Require Import Prelude.
From S2P Require Import Core.
From S2P Require Import OrgRoles.
From S2P Require Import Assets.
From S2P Require Import Events.
From S2P Require Import TaskValues.
From S2P Require Import LedgerValues.
From S2P Require Import Database.
From S2P Require Import Tx.
From S2P Require Import LedgerSpec.
From S2P Require Import Outbox.
From S2P Require Import LedgerHelpers.
From S2P Require Import LedgerStore.
From S2P Require Import HelperSpecs.
From S2P Require Import ReviewSpecs.
From S2P Require Import StoreSpecs.
From S2P Require Import Refinement.
From S2P Require Import LedgerBehaviour.
From S2P Require Import LedgerCorrect.
From S2P Require Import EscrowSpecs.
From S2P Require Import TaskDB.
From S2P Require Import TaskStore.
From S2P Require Import TaskSpecs.
From S2P Require Import Lifecycle.
From S2P Require Import CollectibleStore.
From S2P Require Import CatalogStore.
From S2P Require Import CollectibleService.
From S2P Require Import GallerySpecs.
From S2P Require Import GalleryFrames.
From S2P Require Import GalleryLife.
Export GalleryLife.
Local Open Scope string_scope.
Local Open Scope Z_scope.

(** ** Counting *)

(** Values told apart by numbers up to a limit are at most so many. *)
Lemma numbers_bound limit (ns : list Z) : NoDup ns -> Forall (fun n => 1 <= n <= limit) ns -> Z.of_nat (length ns) <= Z.max 0 limit.
Proof.
  intros Hnd Hns. assert (ns ⊆+ seqZ 1 limit) as Hsub.
  { apply NoDup_submseteq; [done|]. intros n Hn. apply elem_of_seqZ. eapply list.Forall_forall in Hns; [|done]. lia. }
  apply submseteq_length in Hsub. rewrite length_seqZ in Hsub. lia.
Qed.

(** A map whose values are numbered differently, up to a limit. *)
Lemma map_numbers_bound {V} (number : V -> option Z) limit (m : gmap string V) :
  (forall i v, m !! i = Some v -> exists n, number v = Some n /\ 1 <= n <= limit) ->
  (forall i j v w, m !! i = Some v -> m !! j = Some w -> number v = number w -> i = j) ->
  Z.of_nat (size m) <= Z.max 0 limit.
Proof.
  intros Hn Hinj. rewrite <- length_map_to_list. set (f := fun kv : string * V => default 0 (number kv.2)).
  rewrite <- (length_fmap f (map_to_list m)). apply numbers_bound.
  - apply NoDup_fmap_2_strong; [|apply NoDup_map_to_list]. intros [i v] [j w] Hi%elem_of_map_to_list Hj%elem_of_map_to_list E. unfold f in E. cbn in E.
    destruct (Hn _ _ Hi) as (a & Ha & _), (Hn _ _ Hj) as (b & Hb & _). rewrite Ha, Hb in E. cbn in E.
    assert (i = j) as -> by (apply (Hinj _ _ _ _ Hi Hj); congruence). congruence.
  - apply list.Forall_forall. intros k ([i v] & -> & Hi%elem_of_map_to_list)%list_elem_of_fmap. unfold f. cbn.
    by destruct (Hn _ _ Hi) as (n & -> & Hb).
Qed.

Section GalleryCorrect.
Context `{UUIDLaws, URLLib, World, CollectibleIDs}.
Implicit Types (g : Gallery).

(** ** Any number of operations *)

(** C13: Safety of the lifecycle. After any number of operations of the task store, the ledger
    store, the collectible service and the catalog, under any faults, a cancelled or expired task
    holds no credits, no collectible, and no active or submitted reservation. *)
Theorem ended_tasks_hold_nothing schedule g raw row :
  Forall (fun eo => valid_gallery eo.2) schedule -> gallery_ok g ->
  let d := tables (market (gallery_after_all schedule g)) in
  tasks d !! raw = Some row -> task_state row = "cancelled" \/ task_state row = "expired" ->
  task_funds d !! raw = None /\ (forall c, task_fund_collectibles d !! c <> Some raw) /\
  forall r reservation, task_reservations d !! r = Some reservation -> res_task_id reservation = raw ->
    res_state reservation <> "active" /\ res_state reservation <> "submitted".
Proof.
  intros Hv Hg d Hrow Hst. destruct (sound_ended _ (gallery_sound _ (gallery_after_all_ok _ _ Hv Hg)) _ _ Hrow Hst) as [Hf Hh Hnr].
  split; [done|]. split; [by apply held_none|]. intros r reservation Hr Ht. specialize (Hnr _ _ Hr). cbn in Hnr.
  unfold non_terminal in Hnr. rewrite Ht, String.eqb_refl in Hnr. apply bool_decide_eq_false in Hnr. tauto.
Qed.

(** C14: Custody. After any number of operations, under any faults, a collectible is in the escrowed
    state exactly when it is held for some task; what is held for a task, collectible or credits, is
    of a kind that the task's reward declares: no operation leaves one without the other. *)
Theorem rewards_stay_in_custody schedule g c :
  Forall (fun eo => valid_gallery eo.2) schedule -> gallery_ok g ->
  let d := tables (market (gallery_after_all schedule g)) in
  ((exists t, task_fund_collectibles d !! c = Some t) <-> exists row, collectibles d !! c = Some row /\ col_state row = "escrowed") /\
  (forall t, task_fund_collectibles d !! c = Some t ->
     exists row, tasks d !! t = Some row /\ (task_reward_kind row = "collectible" \/ task_reward_kind row = "bundle")) /\
  (forall t, is_Some (task_funds d !! t) ->
     exists row, tasks d !! t = Some row /\ (task_reward_kind row = "credit" \/ task_reward_kind row = "bundle")).
Proof.
  intros Hv Hg d. destruct (gallery_sound _ (gallery_after_all_ok _ _ Hv Hg)) as [_ _ _ Hc [_ Hf Hh]]. fold d in Hc, Hf, Hh.
  assert (forall t P, (exists kind, reward_kinds d !! t = Some kind /\ P kind) -> exists row, tasks d !! t = Some row /\ P (task_reward_kind row)) as Hrow.
  { unfold reward_kinds. intros t P (kind & Hk & HP). apply lookup_fmap_Some in Hk as (row & <- & Hrow). by exists row. }
  split; [apply Hc|]. split; intros t Ht; [by apply (Hrow t pays_collectibles), (Hh c)|by apply (Hrow t pays_credits), Hf].
Qed.

(** Everything but a grant of credits. *)
Definition issues_no_credits (op : GalleryOp) : Prop := match op with GMarket (OLedger (CGrant _)) => False | _ => True end.

Lemma after_supply env m op :
  valid_operation op -> issues_no_credits (GMarket op) -> market_ok m -> supply (view (tables (after env m op))) = supply (view (tables m)).
Proof.
  intros Hv Hn Hok. destruct op as [c| | | | | |].
  { destruct (ledger_operation env m c Hv (market_ledger _ Hok)) as (r & d & Hp & ->). cbn in *.
    apply performed_movements in Hp as (ms & [Hs _]%apply_movements_supply & Hi & _); [|done]. rewrite Hs, Hi. destruct c; cbn; [lia..|done|lia]. }
  all: apply refunds_ok; [|apply Hok]; eapply task_commits_refunds, operation_task_commits; [done..|apply Hok].
Qed.

Lemma inserted_view id row g stored g' : inserted id row g stored g' -> view (tables (market g')) = view (tables (market g)).
Proof. by intros [_ _ _ _ [now ->]]. Qed.

Lemma gallery_commit_view g op g' : gallery_commit g op g' -> view (tables (market g')) = view (tables (market g)).
Proof.
  assert (forall slug old new, switch_entry slug old new g = inr (1, g') -> market g' = market g) as Hsw.
  { unfold switch_entry. intros slug old new. repeat (case_match; try done). by intros [= <-]. }
  intros Hc. destruct Hc; cbn; try (by eapply custody_step_view; econstructor; eauto).
  - match goal with Hm : custom_made _ _ _ _ |- _ => revert Hm end. intros [? ? ? _ (? & ? & _ & Hi)%insert_collectible_inv]. by eapply inserted_view.
  - match goal with Hm : award_minted _ _ _ _ _ |- _ => revert Hm end. intros [? ? ? ? ? _ _ _ (? & ? & _ & Hi)%insert_collectible_inv]. by eapply inserted_view.
  - match goal with Hm : entry_added _ _ _ |- _ => revert Hm end. intros [now Hi]. unfold insert_entry in Hi. destruct (negb _); [done|].
    case_bool_decide; [done|]. by injection Hi as <-.
  - by erewrite Hsw.
  - by erewrite Hsw.
  - match goal with Hm : entry_deleted _ _ _ _ |- _ => revert Hm end. by intros (_ & _ & _ & ->).
  - match goal with Hm : release_made _ _ _ _ _ |- _ => revert Hm end.
    intros [row v slug crow entry dr g1 d Hrow _ _ _ _ _ Hm _ (e & r & ->)%recorded_with_events]. apply (mint_again_inv _ row) in Hm as [_ ->]; done.
Qed.

(** C15: Conservation across components. Over any number of operations but grants (task creations,
    state changes, reservations, sweeps, the ledger's commands, mints, awards, transfers, rewards
    and the catalog), under any faults, the ledger stays balanced and the credits in circulation do
    not change. *)
Theorem gallery_conserves_credits schedule g :
  Forall (fun eo => valid_gallery eo.2 /\ issues_no_credits eo.2) schedule -> gallery_ok g ->
  let d' := tables (market (gallery_after_all schedule g)) in
  ledger_ok d' /\ supply (view d') = supply (view (tables (market g))).
Proof.
  revert g. induction schedule as [|[env op] schedule IH]; intros g Hv Hg; [by split; [apply Hg|]|].
  apply List.Forall_cons_iff in Hv as [[Hop Hn] Hv]. cbn [snd] in Hop, Hn.
  destruct (IH (gallery_after env g op) Hv (gallery_after_ok _ _ _ Hop Hg)) as [Hl Hs]. split; [done|]. etrans; [exact Hs|].
  assert ((exists o, op = GMarket o) \/ forall o, op <> GMarket o) as [[o ->]|Hno] by (destruct op; naive_solver).
  - rewrite gallery_after_market. apply after_supply; [apply Hop|done|]. by apply sound_market, (gallery_sound g).
  - destruct (gallery_operation_commits env g op Hno) as [->|E%gallery_commit_view]; [done|by rewrite E].
Qed.

(** ** The catalog *)

(** C16: Bounds. After any number of operations, under any faults, an edition entry of the catalog
    has at most as many instances as its cap, a unique entry has at most one that is not withdrawn,
    and every instance is of its entry's kind. *)
Theorem catalog_caps_are_respected schedule g slug entry :
  Forall (fun eo => valid_gallery eo.2) schedule -> gallery_ok g ->
  let g' := gallery_after_all schedule g in
  let instances := filter (fun kv => col_catalog_slug kv.2 = Some slug) (rows_of g') in
  catalog_entries g' !! slug = Some entry ->
  (forall limit, cat_max_editions entry = Some limit -> cat_kind entry = "edition" -> Z.of_nat (size instances) <= limit) /\
  (cat_kind entry = "unique" -> (size (filter (fun kv => col_state kv.2 <> "withdrawn") instances) <= 1)%nat) /\
  map_Forall (fun _ row => col_kind row = cat_kind entry) instances.
Proof.
  intros Hv Hg g' instances He. destruct (gallery_after_all_ok _ _ Hv Hg) as [_ Hi Hc Hb]. fold g' in Hi, Hc, Hb.
  assert (forall i row, instances !! i = Some row -> rows_of g' !! i = Some row /\ col_catalog_slug row = Some slug /\ numbered entry row) as Hin.
  { intros i row [Hrow Hs]%map_lookup_filter_Some. cbn in Hs. destruct (Hb _ _ _ Hrow Hs) as (e & He' & Hn). rewrite He in He'. by simplify_eq. }
  split; [|split].
  - intros limit Hl Hk. specialize (Hc _ _ He). unfold cap_fits in Hc. rewrite Hl in Hc.
    assert (forall i row, instances !! i = Some row -> exists n, col_edition_number row = Some n /\ 1 <= n <= limit) as Hnum.
    { intros i row (_ & _ & _ & Hn)%Hin. destruct (col_edition_number row) as [n|]; [|done]. exists n. naive_solver. }
    pose proof (map_numbers_bound col_edition_number limit instances Hnum) as Hbound. rewrite Z.max_r in Hbound by lia. apply Hbound.
    intros i j v w Hv' Hw E. destruct (Hnum _ _ Hv') as (n & Hn & _). destruct (Hin _ _ Hv') as (Hi1 & Hs1 & _), (Hin _ _ Hw) as (Hi2 & Hs2 & _).
    apply (indexed_pair _ _ _ _ _ Hi Hi1 Hi2). right. right. left. split; (split; [by eexists|congruence]).
  - intros Hk. set (lives := filter _ instances).
    assert (forall i j v w, lives !! i = Some v -> lives !! j = Some w -> i = j) as Hone.
    { intros i j v w [(Hi1 & Hs1 & Hk1 & _)%Hin Hl1]%map_lookup_filter_Some [(Hi2 & Hs2 & Hk2 & _)%Hin Hl2]%map_lookup_filter_Some.
      apply (indexed_pair _ _ _ _ _ Hi Hi1 Hi2). left. unfold live_unique, live. rewrite Hk1, Hk2. repeat split; try done; try congruence; by eexists. }
    pose proof (map_numbers_bound (fun _ => Some 1) 1 lives) as Hbound. cut (Z.of_nat (size lives) <= Z.max 0 1); [lia|]. apply Hbound; [by eexists|by eauto].
  - intros i row (_ & _ & Hk & _)%Hin. done.
Qed.

(** ** Who moves a collectible *)

Definition owner_of (row : CollectibleRow) : string * string * option string :=
  (col_owner_kind row, col_owner_user_id row, col_organization_id row).

Definition member (organization : string) (user : UserID) g : Prop :=
  is_active_member organization (TypedID_String user) (tables (market g)) = true.

(** Freely transferable, or within an organization when [shared] holds. *)
Definition movable (policy : TransferPolicy) (shared : Prop) : Prop :=
  policy = TransferPolicyTransferableBetweenUsers \/ (policy = TransferPolicyTransferableWithinOrg /\ shared).

(** What [op] needs to move the collectible [c], and where it moves it. *)
Definition may_move g (op : GalleryOp) (c : string) (row row' : CollectibleRow) : Prop :=
  let organization := default "" (col_organization_id row) in
  exists policy, ParseTransferPolicy (col_transfer_policy row) = TransferPolicyAccepted policy /\
  match op with
  | GGift from to id =>
      c = TypedID_String id /\ col_owner_kind row = "user" /\ col_owner_user_id row = TypedID_String from /\
      movable policy (member organization from g /\ member organization to g) /\
      owner_of row' = ("user", TypedID_String to, col_organization_id row)
  | GDonate from target id =>
      c = TypedID_String id /\ col_owner_kind row = "user" /\ col_owner_user_id row = TypedID_String from /\
      movable policy (organization = TypedID_String target /\ member organization from g) /\
      owner_of row' = ("organization", TypedID_String target, Some (TypedID_String target))
  | GAwardOrganization target id recipient =>
      c = TypedID_String id /\ col_owner_kind row = "organization" /\ organization = TypedID_String target /\
      member organization recipient g /\ owner_of row' = ("user", TypedID_String recipient, None)
  | GHandout actor target to id =>
      c = TypedID_String id /\ col_owner_kind row = "organization" /\ organization = TypedID_String target /\
      holds_permission organization (TypedID_String actor) PermissionManageCollectibles (tables (market g)) /\
      movable policy True /\ owner_of row' = ("user", TypedID_String to, None)
  | _ => False
  end.

Lemma AllowsTip_movable policy (shared : Prop) :
  AllowsTip policy = RewardAllowed -> (policy = TransferPolicyTransferableWithinOrg -> shared) -> movable policy shared.
Proof. unfold movable. destruct policy; cbn; try done; auto. Qed.

Lemma AllowsTransfer_movable policy (shared : Prop) :
  AllowsTransfer policy = RewardAllowed -> (policy = TransferPolicyTransferableWithinOrg -> shared) -> movable policy shared.
Proof. unfold movable. destruct policy; cbn; try done; auto. Qed.

Lemma alter_moved f id c (rows : gmap string CollectibleRow) row row' :
  rows !! c = Some row -> alter f id rows !! c = Some row' -> owner_of row' <> owner_of row -> c = id /\ row' = f row.
Proof.
  intros Hrow. destruct (decide (id = c)) as [->|Hne]; [rewrite lookup_alter_eq|rewrite lookup_alter_ne by done]; rewrite Hrow; [|by intros [= ->]].
  by intros [= <-].
Qed.

(** A change of hands of a collectible on hand. *)
Lemma hands_changed id f draft g d c row row0 value row' :
  changed id f draft (tables (market g)) d -> on_hand id row0 value (tables (market g)) ->
  rows_of g !! c = Some row -> collectibles d !! c = Some row' -> owner_of row' <> owner_of row ->
  c = TypedID_String id /\ row = row0 /\ row' = f row0 /\
  ParseTransferPolicy (col_transfer_policy row0) = TransferPolicyAccepted (Collectible_Policy value).
Proof.
  intros (e & r & ->)%recorded_with_events [Hrow0 Hv _] Hrow Hrow' Hne. cbn in Hrow'.
  destruct (alter_moved _ _ _ _ _ _ Hrow Hrow' Hne) as [-> ->]. unfold rows_of in Hrow. rewrite Hrow0 in Hrow. injection Hrow as ->.
  by apply parseCollectible_inv in Hv as (_ & _ & _ & Hp & _).
Qed.

Lemma inserted_owner id new g stored g' c row row' :
  inserted id new g stored g' -> rows_of g !! c = Some row -> rows_of g' !! c = Some row' -> row' = row.
Proof.
  intros [Hf _ _ _ [now ->]] Hrow. unfold rows_of at 1. cbn. rewrite lookup_insert_ne; [congruence|]. intros ->. congruence.
Qed.

(** The commits of the gallery that leave every owner as it was. *)
Lemma owners_kept g op g' c row row' :
  match op with GMarket _ | GGift _ _ _ | GDonate _ _ _ | GAwardOrganization _ _ _ | GHandout _ _ _ _ => False | _ => True end ->
  gallery_commit g op g' -> rows_of g !! c = Some row -> rows_of g' !! c = Some row' -> owner_of row' = owner_of row.
Proof.
  assert (forall f id (rows : gmap string CollectibleRow), (forall r, owner_of (f r) = owner_of r) -> rows !! c = Some row -> alter f id rows !! c = Some row' ->
    owner_of row' = owner_of row) as Halter.
  { intros f id rows Hf Hrow Hrow'. destruct (decide (owner_of row' = owner_of row)) as [|Hne]; [done|].
    destruct (alter_moved _ _ _ _ _ _ Hrow Hrow' Hne) as [_ ->]. apply Hf. }
  intros Hop Hc Hrow Hrow'.
  destruct Hc as [issuer ok oi og name kind policy art col number g' Hs Hm|issuer raw ok oi og command entry number g' Hm|entry g' Hv [now Hi]|slug g' Hs|slug g' Hs
    |slug entry g' Hd|funder t id value d Hr|requester t values d Hr|?|?|?|?|actor id draft0 value draft d Hw|actor id draft0 value draft g' Hr|id d Hd]; try done;
    unfold rows_of in Hrow, Hrow'; cbn in Hrow'.
  - destruct Hm as [? ? ? _ (? & ? & _ & Hins)%insert_collectible_inv]. by rewrite (inserted_owner _ _ _ _ _ _ _ _ Hins Hrow Hrow').
  - destruct Hm as [? ? ? ? ? _ _ _ (? & ? & _ & Hins)%insert_collectible_inv]. by rewrite (inserted_owner _ _ _ _ _ _ _ _ Hins Hrow Hrow').
  - unfold insert_entry in Hi. destruct (negb _); [done|]. case_bool_decide; [done|]. injection Hi as <-. cbn in Hrow'. congruence.
  - unfold switch_entry in Hs. repeat (case_match; try done). injection Hs as <-. cbn in Hrow'. congruence.
  - unfold switch_entry in Hs. repeat (case_match; try done). injection Hs as <-. cbn in Hrow'. congruence.
  - destruct Hd as (_ & _ & _ & ->). cbn in Hrow'. congruence.
  - destruct Hr as [trow crow v d' _ _ _ _ _ Hh]. apply held_for_inv in Hh as (_ & row0 & Hrow0 & _ & _ & _ & ->). cbn in Hrow0, Hrow'.
    rewrite lookup_insert in Hrow'. case_decide; [|congruence]. subst c. rewrite Hrow in Hrow0. injection Hrow0 as <-. by injection Hrow' as <-.
  - destruct Hr as [trow vs d2 d3 _ _ _ _ _ _ [ts ->]%update_task_state_inr ->%update_reservations_eq]. cbn in Hrow'.
    change (foldl _ _ _) with (collectibles (release_held (set_col_state "minted") t (tables (market g)))) in Hrow'.
    rewrite release_held_lookup, Hrow in Hrow'. case_decide; by injection Hrow' as <-.
  - destruct Hw as [row0 v slug dr d' _ _ _ (e & r & ->)%recorded_with_events]. by eapply Halter; [| |exact Hrow'].
  - destruct Hr as [row0 v slug crow entry dr g1 d Hrow0 _ _ _ _ _ Hm _ (e & r & ->)%recorded_with_events].
    apply (mint_again_inv _ row0) in Hm as [_ ->]; [|done]. by eapply Halter; [| |exact Hrow'].
  - destruct Hd as (_ & _ & ->). cbn in Hrow'. apply lookup_delete_Some in Hrow' as [_ ?]. congruence.
Qed.

(** C17: Authorization. An operation of the collectible service that changes the owner of a
    collectible found it minted, and is a gift or donation by its owner under a policy that allows
    it (a within-organization one among active members of its organization, or into it), an award to
    an active member of the organization that owns it, or a transfer out by a member who may manage
    its collectibles; and the new owner is the one named. *)
Theorem ownership_changes_are_authorised env g op c row row' :
  (forall o, op <> GMarket o) -> rows_of g !! c = Some row -> rows_of (gallery_after env g op) !! c = Some row' ->
  owner_of row' <> owner_of row -> col_state row = "minted" /\ may_move g op c row row'.
Proof.
  intros Hno Hrow Hrow' Hne. destruct (gallery_operation_commits env g op Hno) as [E|Hc]; [rewrite E in Hrow'; congruence|].
  assert (match op with GMarket _ | GGift _ _ _ | GDonate _ _ _ | GAwardOrganization _ _ _ | GHandout _ _ _ _ => False | _ => True end -> False) as Hkept
    by (intros Hop; by destruct Hne; eapply owners_kept).
  unfold rows_of in Hrow'. set (g' := gallery_after env g op) in *. clearbody g'.
  destruct Hc as [?|?|?|?|?|?|?|?|organization id recipient draft value d Ha|from to id draft value d Ha|from organization id draft value d Hin Ha
    |actor organization to id draft value d Ha|?|?|?]; try (by destruct Hkept); cbn in Hrow'.
  - destruct Ha as [row0 v d' (Hh & Hk & Ho) Hm Hc].
    destruct (hands_changed _ _ _ _ _ _ _ _ _ _ Hc Hh Hrow Hrow' Hne) as (-> & -> & -> & Hp). split; [apply Hh|].
    exists (Collectible_Policy v). split; [done|]. unfold member. rewrite Ho. done.
  - destruct Ha as [row0 v d' (Hh & Hk & Ho & Hal) Hw Hc].
    destruct (hands_changed _ _ _ _ _ _ _ _ _ _ Hc Hh Hrow Hrow' Hne) as (-> & -> & -> & Hp). split; [apply Hh|].
    exists (Collectible_Policy v). repeat (split; [done|]). split; [|done]. apply AllowsTip_movable; [done|]. intros E.
    specialize (Hw E) as [_ Hw]. apply List.Forall_cons_iff in Hw as [Hf [Ht _]%List.Forall_cons_iff]. done.
  - destruct Ha as [row0 v d' (Hh & Hk & Ho & Hal) Hw Horg Hc].
    destruct (hands_changed _ _ _ _ _ _ _ _ _ _ Hc Hh Hrow Hrow' Hne) as (-> & -> & -> & Hp). split; [apply Hh|].
    exists (Collectible_Policy v). repeat (split; [done|]). split; [|done]. apply AllowsTransfer_movable; [done|]. intros E.
    specialize (Hw E) as [_ Hw]. apply List.Forall_cons_iff in Hw as [Hf _]. split; [by apply Horg|done].
  - destruct Ha as [row0 v d' Hperm (Hh & Hk & Ho) Hal Hc].
    destruct (hands_changed _ _ _ _ _ _ _ _ _ _ Hc Hh Hrow Hrow' Hne) as (-> & -> & -> & Hp). split; [apply Hh|].
    exists (Collectible_Policy v). repeat (split; [done|]). rewrite Ho. split; [done|]. split; [by apply AllowsTransfer_movable|done].
Qed.

(** ** A refunded reward *)

(** Refund of a reward. A refund that is answered was asked by the creator or active
    implementor of a draft or open task; it leaves the task cancelled and holding nothing, each
    collectible held for it minted again with its owner and returned in the answer, every other
    collectible as it was; the task held no credits and none move. *)
Theorem refunded_reward_is_returned env g requester t values :
  gallery_ok g -> fst (run env g (CollectibleService.RefundReward requester t)) = RewardRefunded values ->
  let d := tables (market g) in
  let d' := tables (market (snd (run env g (CollectibleService.RefundReward requester t)))) in
  (exists row, tasks d !! TypedID_String t = Some row /\ (task_state row = "draft" \/ task_state row = "open") /\
     may_refund requester t row d /\ tasks d' = <[TypedID_String t := set_task_state "cancelled" row]> (tasks d)) /\
  (forall c row, collectibles d !! c = Some row -> collectibles d' !! c =
     Some (if decide (task_fund_collectibles d !! c = Some (TypedID_String t)) then set_col_state "minted" row else row)) /\
  Forall2 (reads_minted d) (held_collectibles (TypedID_String t) d) values /\
  unencumbered (TypedID_String t) d' /\ task_funds d !! TypedID_String t = None /\ view d' = view d.
Proof.
  intros Hg. revert values.
  assert (wp env (CollectibleService.RefundReward requester t) (fun r st => forall values, r = RewardRefunded values -> exists d',
    reward_returned (MkRefundReward requester t) (tables (market g)) values d' /\ tables (market (st_base st)) = d') (MkTxState g g 0)) as Hw.
  { apply wp_on_store, RefundCollectibleReward_wp; cbn; [done|]. intros values d' k Hr ? [= <-]. by exists d'. }
  apply wp_run in Hw as (st & HQ & ->). intros values Hr. destruct (HQ _ Hr) as (d' & Hret & ->). clear HQ Hr. cbv zeta.
  pose proof (gallery_sound _ Hg) as Hs. destruct (reward_returned_sound _ _ _ _ Hret Hs) as [Hs' _].
  assert (view d' = view (tables (market g))) as Hview by (by eapply custody_step_view, step_refunded).
  destruct Hret as [row vs d2 d3 Hrow Hmay Hna Hkind Hheld Hvs Hu Hres]. cbn [unreward_TaskID unreward_RequesterUserID] in *.
  apply (update_task_state_rows _ _ row) in Hu; [|done]. subst d2. apply update_reservations_eq in Hres. subst d3. cbn.
  split; [exists row; by repeat split|]. split; [|split; [done|split; [|split; [|exact Hview]]]].
  - intros c crow Hc. change (foldl _ _ _) with (collectibles (release_held (set_col_state "minted") t (tables (market g)))).
    rewrite release_held_lookup, Hc. by case_decide.
  - apply (sound_ended _ Hs' _ (set_task_state "cancelled" row)); [cbn; apply lookup_insert_eq|by left].
  - apply (paid_in_collectibles _ (task_reward_kind row)); [by apply sound_kinds| |done..]. unfold reward_kinds. by rewrite lookup_fmap, Hrow.
Qed.

(** ** A collectible handed out *)

(** A within-organization collectible that a user holds and that belongs to no organization. *)
Definition stranded g (c : CollectibleID) : Prop :=
  exists row, rows_of g !! TypedID_String c = Some row /\ adrift row.

Definition deletes (c : CollectibleID) (op : GalleryOp) : Prop :=
  match op with GDelete id => TypedID_String id = TypedID_String c | _ => False end.

(** No row of a collectible goes away. *)
Definition rows_stay d d' : Prop := forall i, is_Some (collectibles d !! i) -> is_Some (collectibles d' !! i).

Lemma changed_rows_stay c f draft d d' : changed c f draft d d' -> rows_stay d d'.
Proof. intros (e & r & ->)%recorded_with_events i. cbn. by rewrite lookup_alter_is_Some. Qed.

Lemma reward_added_rows_stay command d value d' : reward_added command d value d' -> rows_stay d d'.
Proof.
  intros [row crow v d2 _ _ _ _ _ Hh] i Hi. apply held_for_inv in Hh as (_ & row' & _ & _ & _ & _ & ->). cbn.
  rewrite lookup_insert. by case_decide.
Qed.

Lemma reward_returned_rows_stay command d values d' : reward_returned command d values d' -> rows_stay d d'.
Proof.
  intros [row vs d2 d3 _ _ _ _ _ _ [ts ->]%update_task_state_inr ->%update_reservations_eq] i Hi. cbn.
  change (foldl _ _ _) with (collectibles (release_held (set_col_state "minted") (unreward_TaskID command) d)).
  rewrite release_held_lookup. case_decide; [by rewrite fmap_is_Some|done].
Qed.

#[local] Hint Resolve changed_rows_stay reward_added_rows_stay reward_returned_rows_stay : gallery.

Lemma custody_step_stranded g d c :
  custody_step (tables (market g)) d -> is_Some (collectibles d !! TypedID_String c) -> gallery_ok g ->
  stranded g c -> stranded (with_market (with_tables d (market g)) g) c.
Proof.
  intros Hs [row' Hrow'] Hg (row & Hrow & Ha). apply custody_step_sound in Hs as [_ Hdim]; [|apply Hg].
  exists row'. split; [done|]. destruct (Hdim _ _ Hrow') as (row0 & Hrow0 & _ & _ & Hk). unfold rows_of in Hrow. apply Hk. congruence.
Qed.

Lemma inserted_stranded id new g stored g' c : inserted id new g stored g' -> stranded g c -> stranded g' c.
Proof.
  intros [Hf _ _ _ [now ->]] (row & Hrow & Ha). exists row. split; [|done]. unfold rows_of at 1. cbn. rewrite lookup_insert_ne; [done|].
  intros E. congruence.
Qed.

Lemma gallery_commit_stranded g op g' c :
  gallery_commit g op g' -> gallery_ok g -> ~ deletes c op -> stranded g c -> stranded g' c.
Proof.
  intros Hc Hg Hnd Hs. assert (rows_of g' = rows_of g -> stranded g' c) as Hsame by (unfold stranded; by intros ->).
  assert (is_Some (collectibles (tables (market g)) !! TypedID_String c)) as Hi by (destruct Hs as (row & Hrow & _); by exists row).
  destruct Hc as [issuer ok oi og name kind policy art col number g' _ Hm|issuer raw ok oi og command entry number g' Hm|entry g' Hv [now Hn]|slug g' Hw|slug g' Hw
    |slug entry g' Hd|funder t id value d Hr|requester t values d Hr|organization id recipient draft value d Hr|from to id draft value d Hr
    |from organization id draft value d _ Hr|actor organization to id draft value d Hr|actor id draft0 value draft d Hr|actor id draft0 value draft g' Hr|id d Hd].
  - destruct Hm as [? ? ? _ (? & ? & _ & Hins)%insert_collectible_inv]. by eapply inserted_stranded.
  - destruct Hm as [? ? ? ? ? _ _ _ (? & ? & _ & Hins)%insert_collectible_inv]. by eapply inserted_stranded.
  - apply Hsame. unfold insert_entry in Hn. destruct (negb _); [done|]. case_bool_decide; [done|]. by injection Hn as <-.
  - apply Hsame. unfold switch_entry in Hw. repeat (case_match; try done). by injection Hw as <-.
  - apply Hsame. unfold switch_entry in Hw. repeat (case_match; try done). by injection Hw as <-.
  - apply Hsame. by destruct Hd as (_ & _ & _ & ->).
  - apply custody_step_stranded; [by eapply step_funded|by eapply reward_added_rows_stay|done..].
  - apply custody_step_stranded; [by eapply step_refunded|by eapply reward_returned_rows_stay|done..].
  - apply custody_step_stranded; [by eapply step_award|destruct Hr; by eapply changed_rows_stay|done..].
  - apply custody_step_stranded; [by eapply step_gift|destruct Hr; by eapply changed_rows_stay|done..].
  - apply custody_step_stranded; [by eapply step_donation|destruct Hr; by eapply changed_rows_stay|done..].
  - apply custody_step_stranded; [by eapply step_handout|destruct Hr; by eapply changed_rows_stay|done..].
  - apply custody_step_stranded; [by eapply step_withdrawal|destruct Hr; by eapply changed_rows_stay|done..].
  - destruct Hr as [row0 v slug crow entry dr g1 d Hrow0 _ _ _ _ _ Hm _ (e & r & ->)%recorded_with_events].
    apply (mint_again_inv _ row0) in Hm as [_ ->]; [|done]. destruct Hs as (row & Hrow & Ha). unfold stranded, rows_of in *. cbn.
    destruct (decide (TypedID_String id = TypedID_String c)) as [E|Hne].
    + rewrite E, lookup_alter_eq, Hrow. by eexists.
    + rewrite lookup_alter_ne by done. by exists row.
  - apply custody_step_stranded; [by eapply step_deleted| |done..]. destruct Hd as (_ & _ & ->). cbn. by rewrite lookup_delete_ne.
Qed.

Lemma gallery_after_stranded env g op c :
  valid_gallery op -> ~ deletes c op -> gallery_ok g -> stranded g c -> stranded (gallery_after env g op) c.
Proof.
  intros Hv Hnd Hg Hs. assert ((exists o, op = GMarket o) \/ forall o, op <> GMarket o) as [[o ->]|Hn] by (destruct op; naive_solver).
  - destruct Hv as [Ho Hasked], Hs as (row & Hrow & Ha). rewrite gallery_after_market. pose proof (gallery_sound _ Hg) as Hsound.
    destruct (commits_gallery (asked_by o) (market g) (after env (market g) o)) as [_ Hst]; [done| |done|].
    { apply sound_market in Hsound as [Hm _]. by apply operation_commits; [|apply Hm..]. }
    specialize (Hst (TypedID_String c)). unfold rows_of in Hrow. rewrite Hrow in Hst. inversion Hst as [? row' (_ & _ & Hk) E1 E2|]; subst.
    exists row'. split; [done|by apply Hk].
  - destruct (gallery_operation_commits env g op Hn) as [->|Hc]; [done|by eapply gallery_commit_stranded].
Qed.

Lemma gallery_after_all_stranded schedule g c :
  Forall (fun eo => valid_gallery eo.2 /\ ~ deletes c eo.2) schedule -> gallery_ok g -> stranded g c -> stranded (gallery_after_all schedule g) c.
Proof.
  revert g. induction schedule as [|[env op] schedule IH]; intros g Hv Hg Hs; [done|]. apply List.Forall_cons_iff in Hv as [[Hop Hnd] Hv].
  apply IH; [done|by apply gallery_after_ok|by apply gallery_after_stranded].
Qed.

Lemma with_same_tables g d : d = tables (market g) -> with_market (with_tables d (market g)) g = g.
Proof. intros ->. apply with_market_tables_id. Qed.

(** A gift of it is refused, but to who holds it already, and a donation is refused. *)
Lemma stranded_gift env g from dest c :
  stranded g c ->
  let '(r, g') := run env g (CollectibleService.GiftCollectible from dest c) in
  g' = g /\ ((exists reason, r = (GiftRejected reason, [])) \/
    (exists value, r = (CollectibleGifted value [], [])) /\ exists row, rows_of g !! TypedID_String c = Some row /\ owner_of row = ("user", TypedID_String dest, None)).
Proof.
  intros (row & Hrow & Hk & Hn & Hp). rewrite (surjective_pairing (run _ _ _)).
  apply (run_ends g (CollectibleService.GiftCollectible from dest c) (fun r g' => g' = g /\ ((exists reason, r = (GiftRejected reason, [])) \/
    (exists value, r = (CollectibleGifted value [], [])) /\ exists row, rows_of g !! TypedID_String c = Some row /\ owner_of row = ("user", TypedID_String dest, None)))).
  apply wp_draft; [intros; split; [done|left; by eexists]|]. intros draft. apply wp_bind, wp_on_store, GiftCollectible_wp; cbn.
  - intros reason st' Hb. apply wp_ret. split; [by apply with_same_tables|left; by eexists].
  - intros row0 value st' Hb Hrow0 _ Hk0 Ho. apply wp_ret. split; [by apply with_same_tables|right]. split; [by eexists|].
    unfold rows_of in *. rewrite Hrow in Hrow0. injection Hrow0 as <-. exists row. split; [done|]. unfold owner_of. by rewrite Hk, Ho, Hn.
  - intros value d' k [row0 v d1 (Hh & _) Hw _]. cbn in Hh, Hw. pose proof (hand_row _ _ _ _ Hh) as Hrow0. unfold rows_of in Hrow.
    rewrite Hrow in Hrow0. injection Hrow0 as <-. destruct (Hw (on_hand_policy _ _ _ _ Hh Hp)) as [He _]. by rewrite Hn in He.
Qed.

Lemma stranded_donation env g from organization c :
  stranded g c ->
  let '(r, g') := run env g (CollectibleService.TransferCollectibleToOrganization from organization c) in
  g' = g /\ exists reason, r = (GiftRejected reason, []).
Proof.
  intros (row & Hrow & _ & Hn & Hp). rewrite (surjective_pairing (run _ _ _)).
  apply (run_ends g (CollectibleService.TransferCollectibleToOrganization from organization c) (fun r g' => g' = g /\ exists reason, r = (GiftRejected reason, []))).
  apply wp_draft; [intros; split; [done|by eexists]|]. intros draft. apply wp_bind, wp_on_market, TransferCollectibleToOrganization_wp; cbn.
  - intros reason st' Hb. apply wp_ret. split; [cbn; rewrite Hb; by destruct g|by eexists].
  - intros value d k _ [row0 v d1 (Hh & _) Hw _ _]. cbn in Hh, Hw. pose proof (hand_row _ _ _ _ Hh) as Hrow0. unfold rows_of in Hrow.
    rewrite Hrow in Hrow0. injection Hrow0 as <-. destruct (Hw (on_hand_policy _ _ _ _ Hh Hp)) as [He _]. by rewrite Hn in He.
Qed.

Lemma handed_out_stranded env g actor organization to c value drafts :
  fst (run env g (CollectibleService.TransferCollectibleFromOrganization actor organization to c)) = (CollectibleGifted value drafts, drafts) ->
  (exists row, rows_of g !! TypedID_String c = Some row /\
     ParseTransferPolicy (col_transfer_policy row) = TransferPolicyAccepted TransferPolicyTransferableWithinOrg) ->
  exists row, rows_of (gallery_after env g (GHandout actor organization to c)) !! TypedID_String c = Some row /\
    owner_of row = ("user", TypedID_String to, None) /\ adrift row.
Proof.
  intros Hr (row & Hrow & Hp). set (g' := gallery_after _ _ _).
  assert (wp env (CollectibleService.TransferCollectibleFromOrganization actor organization to c) (fun r st => r = (CollectibleGifted value drafts, drafts) ->
    exists draft value' d, handout_made (MkTransferFromOrganization organization actor to c draft) (tables (market g)) value' d /\
      tables (market (st_base st)) = d) (MkTxState g g 0)) as Hw.
  { apply wp_draft; [done|]. intros draft. apply wp_bind, wp_on_store, TransferCollectibleFromOrganization_wp; cbn; [intros; by apply wp_ret|].
    intros value' d k Hs. apply wp_ret. intros _. by exists draft, value', d. }
  apply wp_run in Hw as (st & HQ & Hb). destruct (HQ Hr) as (draft & v & d & Hd & Ed). clear HQ Hr.
  assert (rows_of g' = collectibles d) as Erows.
  { unfold g', gallery_after. cbn [gallery_operate]. by rewrite run_ignore, Hb, <- Ed. }
  destruct Hd as [row0 v' d' _ ([Hrow0 _ _] & _) _ (e & r & ->)%recorded_with_events]. cbn in Hrow0, Erows.
  unfold rows_of in Hrow. rewrite Hrow in Hrow0. injection Hrow0 as <-. exists (set_col_left (TypedID_String to) row).
  by rewrite Erows, lookup_alter_eq, Hrow.
Qed.

(** C18: Error behaviour. A within-organization collectible that an organization transfers to a user
    (whoever the user is: no membership is checked) becomes the user's, keeps its policy and loses
    its organization for good. After any further operations of the market, the collectible service
    and the catalog, under any faults and short of deleting it, every donation of it is rejected,
    every gift of it is rejected or, when the receiver already holds it, answered without an event,
    and neither changes anything. *)
Theorem handed_out_collectible_is_stranded env g actor organization to c value drafts schedule :
  gallery_ok g ->
  fst (run env g (CollectibleService.TransferCollectibleFromOrganization actor organization to c)) = (CollectibleGifted value drafts, drafts) ->
  (exists row, rows_of g !! TypedID_String c = Some row /\
     ParseTransferPolicy (col_transfer_policy row) = TransferPolicyAccepted TransferPolicyTransferableWithinOrg) ->
  Forall (fun eo => valid_gallery eo.2 /\ ~ deletes c eo.2) schedule ->
  let g' := gallery_after env g (GHandout actor organization to c) in
  let later := gallery_after_all schedule g' in
  (exists row, rows_of g' !! TypedID_String c = Some row /\ owner_of row = ("user", TypedID_String to, None)) /\
  stranded later c /\
  (forall env' from dest,
     let '(r, g2) := run env' later (CollectibleService.GiftCollectible from dest c) in
     g2 = later /\ ((exists reason, r = (GiftRejected reason, [])) \/
       (exists value, r = (CollectibleGifted value [], [])) /\
       exists row, rows_of later !! TypedID_String c = Some row /\ owner_of row = ("user", TypedID_String dest, None))) /\
  (forall env' from into,
     let '(r, g2) := run env' later (CollectibleService.TransferCollectibleToOrganization from into c) in
     g2 = later /\ exists reason, r = (GiftRejected reason, [])).
Proof.
  intros Hg Hr Hp Hsched. cbv zeta. destruct (handed_out_stranded _ _ _ _ _ _ _ _ Hr Hp) as (row & Hrow & Ho & Ha).
  assert (stranded (gallery_after_all schedule (gallery_after env g (GHandout actor organization to c))) c) as Hs.
  { apply gallery_after_all_stranded; [done|by apply gallery_after_ok|by exists row]. }
  split; [by exists row|]. split; [done|]. split; intros; [by apply stranded_gift|by apply stranded_donation].
Qed.

End GalleryCorrect.
