(* ===== verification/LifecycleCorrect.v ===== *)
(** * What the life of a task promises

    The theorems on the task store and the task service: what each operation that
    succeeds has checked and done. *)

From S2P Require Import Prelude.
From S2P Require Import Core.
From S2P Require Import Auth.
From S2P Require Import Events.
From S2P Require Import JsonFacts.
From S2P Require Import Calendar.
From S2P Require Import Attachments.
From S2P Require Import TaskValues.
From S2P Require Import LedgerValues.
From S2P Require Import TaskWork.
From S2P Require Import Database.
From S2P Require Import Tx.
From S2P Require Import LedgerSpec.
From S2P Require Import Outbox.
From S2P Require Import LedgerHelpers.
From S2P Require Import LedgerStore.
From S2P Require Import HelperSpecs.
From S2P Require Import ReviewSpecs.
From S2P Require Import StoreSpecs.
From S2P Require Import Refinement.
From S2P Require Import LedgerCorrect.
From S2P Require Import LedgerBehaviour.
From S2P Require Import EscrowSpecs.
From S2P Require Import TaskDB.
From S2P Require Import TaskRows.
From S2P Require Import TaskStore.
From S2P Require Import TaskService.
From S2P Require Import TaskSpecs.
From S2P Require Import SweepSpecs.
From S2P Require Import ReservationSpecs.
From S2P Require Import CreationSpecs.
From S2P Require Import Lifecycle.

Local Open Scope string_scope.
Local Open Scope Z_scope.

Section LifecycleCorrect.
Context `{UUIDLaws, URLLib, World}.
Implicit Types (m : Market).

(** ** The sweep of due tasks *)

Lemma expired_in_turn_others raws m ds m' raw :
  expired_in_turn raws m ds m' -> raw ∉ raws -> task_row raw m' = task_row raw m.
Proof.
  induction 1 as [|t raws m draft m1 ds m2 Ht _ IH]; [done|]. intros [Hne Hin]%not_elem_of_cons. rewrite IH by done.
  by eapply task_expired_others.
Qed.

Lemma ExpireDueTasks_outcome env m :
  clock_advances -> keys_printed m ->
  sweep_outcome (Sweeps.due_tasks (server_now 0) m) m [] (fst (run env m Sweeps.ExpireDueTasks)) (snd (run env m Sweeps.ExpireDueTasks)).
Proof.
  intros Hclock Hkeys. set (due := Sweeps.due_tasks _ _).
  assert (wp env Sweeps.ExpireDueTasks (fun r st => sweep_outcome due m [] r (st_base st)) (MkTxState m m 0)) as (st & Hst & Hb)%wp_run.
  - unfold Sweeps.ExpireDueTasks. do 2 tk_prim. apply wp_attempt, wp_forward, read_rows_wp; [apply forward_read_rows|].
    intros [reason|raws] st Hb _ Hraws Hstep; [exists [], []; split; [apply prefix_nil|]; cbn in Hb; rewrite Hb; constructor|].
    apply scanned_as_is in Hraws as ->. cbn in Hb. cbn [st_base st_step]. apply (expire_all_wp 0); rewrite ?Hb; [done|lia|..|done].
    + apply due_tasks_NoDup.
    + by apply due_tasks_canonical.
    + apply List.Forall_forall. intros raw Hin%list_elem_of_In. by apply due_tasks_elem in Hin.
  - by rewrite Hb.
Qed.

(** An open task whose deadline [expires] has passed, read off its two rows. *)
Definition overdue (now : Z) (m : Market) (t : string) (expires : Z) : Prop :=
  exists row columns, tasks (tables m) !! t = Some row /\ task_columns m !! t = Some columns /\
    task_state row = "open" /\ tc_expires_at columns = Some expires /\ expires <= now.

(** An event that a task expired, by the system. *)
Definition reports_expiry (t : string) (draft : Draft) : Prop :=
  Draft_Kind draft = KindTaskExpired /\ Draft_Actor draft = ActorSystem /\
  exists id, TypedID_String id = t /\ Draft_Subject draft = set_Task (TaskSubject id) NoSubjectRefs.

Lemma overdue_listed now m t : t ∈ Sweeps.due_tasks now m <-> exists expires, overdue now m t expires.
Proof.
  rewrite due_tasks_elem. unfold open_and_due, overdue. setoid_rewrite task_row_Some. split.
  - intros (row & columns & [Hrow Hc] & Hopen & Hdue). destruct (tc_expires_at columns) as [e|] eqn:He; [|done].
    exists e, row, columns. by rewrite <- Z.leb_le.
  - intros (e & row & columns & Hrow & Hc & Hopen & He & Hle). exists row, columns. rewrite He. cbn. by rewrite Z.leb_le.
Qed.

Lemma overdue_expires now m t e : overdue now m t e -> default 0 (Sweeps.task_expires_at t m) = e.
Proof.
  intros (row & columns & _ & Hc & _ & He & _). unfold Sweeps.task_expires_at. rewrite Hc. cbv [mbind option_bind]. by rewrite He.
Qed.

(** What the sweep lists first is due no later than the rest. *)
Lemma listed_earliest now m expired rest t u e e' :
  Sweeps.due_tasks now m = (expired ++ rest)%list -> t ∈ expired -> u ∉ expired ->
  overdue now m t e -> overdue now m u e' -> e <= e'.
Proof.
  intros Hl Ht Hu He He'. assert (u ∈ rest) as Hr.
  { assert (u ∈ Sweeps.due_tasks now m) as Hin by (apply overdue_listed; eauto). rewrite Hl in Hin. by apply elem_of_app in Hin as [?|?]. }
  assert (stdpp.base.Total (Sweeps.earliest_first m)) as Htotal by (intros x y; unfold Sweeps.earliest_first; lia).
  assert (Sorted (Sweeps.earliest_first m) (Sweeps.due_tasks now m)) as Hs by apply (Sorted_merge_sort _).
  apply Sorted_StronglySorted in Hs; [|intros x y z; unfold Sweeps.earliest_first; lia].
  rewrite Hl in Hs. apply StronglySorted_app in Hs as (Hle & _ & _). specialize (Hle t u Ht Hr). unfold Sweeps.earliest_first in Hle.
  by rewrite (overdue_expires _ _ _ _ He), (overdue_expires _ _ _ _ He') in Hle.
Qed.

Lemma expired_in_turn_reports raws m ds m' : expired_in_turn raws m ds m' -> Forall2 reports_expiry raws ds.
Proof.
  induction 1 as [|t raws m draft m1 ds m2 Ht _ IH]; constructor; [|done].
  destruct Ht as [now row columns owner us id d1 d2 d3 _ _ _ _ _ _ -> _]. split; [done|]. split; [done|]. by exists t.
Qed.

(** C26: The sweep of due tasks, under any faults. What it expires are open tasks whose expiration
    had come when it began, none of them due later than one it leaves; each is left expired and
    holding nothing, and every other task keeps its row. When it completes it has expired every such
    task, and answers one expiration event by the system for each. *)
Theorem due_tasks_expire env m :
  clock_advances -> keys_printed m ->
  let now := server_now 0 in
  let m' := snd (run env m Sweeps.ExpireDueTasks) in
  exists expired, NoDup expired /\
    Forall (fun t => (exists expires, overdue now m t expires) /\ ended_as "expired" t m') expired /\
    (forall t u e e', t ∈ expired -> u ∉ expired -> overdue now m t e -> overdue now m u e' -> e <= e') /\
    (forall t, t ∉ expired -> task_row t m' = task_row t m) /\
    match fst (run env m Sweeps.ExpireDueTasks) with
    | Sweeps.ExpireDueTasksCompleted ds => (forall t e, overdue now m t e -> t ∈ expired) /\ Forall2 reports_expiry expired ds
    | Sweeps.ExpireDueTasksRejected _ => True
    end.
Proof.
  intros Hclock Hkeys. pose proof (ExpireDueTasks_outcome env m Hclock Hkeys) as Ho. cbv zeta.
  assert (exists expired rest ds, Sweeps.due_tasks (server_now 0) m = (expired ++ rest)%list /\
    expired_in_turn expired m ds (snd (run env m Sweeps.ExpireDueTasks)) /\
    match fst (run env m Sweeps.ExpireDueTasks) with Sweeps.ExpireDueTasksCompleted ds' => rest = [] /\ ds' = ds | _ => True end)
    as (expired & rest & ds & Hl & Hturn & Hend).
  { destruct (fst _) as [ds|reason]; [destruct Ho as (ds' & -> & Hturn); eexists _, [], ds'; by rewrite app_nil_r|].
    destruct Ho as (done & ds' & [rest Hl] & Hturn). by exists done, rest, ds'. }
  pose proof (due_tasks_NoDup (server_now 0) m) as Hnd. rewrite Hl in Hnd. apply list.NoDup_app in Hnd as [Hnd _].
  pose proof (expired_in_turn_ends _ _ _ _ Hturn Hnd) as Hends. exists expired. split; [done|]. split; [|split; [|split]].
  - apply List.Forall_forall. intros t Ht%list_elem_of_In. split; [|by apply (Forall_elem _ _ _ Hends)].
    apply overdue_listed. rewrite Hl. set_solver.
  - intros t u e e' Ht Hu He He'. by eapply listed_earliest.
  - intros t. by eapply expired_in_turn_others.
  - destruct (fst _); [|done]. destruct Hend as [-> ->]. split; [|by eapply expired_in_turn_reports].
    intros t e He. rewrite app_nil_r in Hl. rewrite <- Hl. apply overdue_listed. by exists e.
Qed.

(** ** Cancellation *)

Lemma ChangeTaskState_outcome env m t state plan :
  change_outcome t state plan m (fst (run env m (Tasks.ChangeTaskState t state plan))) (snd (run env m (Tasks.ChangeTaskState t state plan))).
Proof.
  assert (wp env (Tasks.ChangeTaskState t state plan) (fun r st => change_outcome t state plan m r (st_base st)) (MkTxState m m 0)) as (st & Hst & Hb)%wp_run.
  - by apply ChangeTaskState_wp.
  - by rewrite Hb.
Qed.

(** What a fund's return adds to each account. *)
Definition returned (fund : option FundRow) (account : string) : Z :=
  match fund with Some fund => moved (fund_account_id fund) (fund_credit_amount fund) account | None => 0 end.

Lemma settlement_returns now t key d us d' :
  settlement now t key d us d' ->
  (forall a, account_sum a (ledger_entries d') = account_sum a (ledger_entries d) + returned (task_funds d !! TypedID_String t) a) /\
  (forall c, collectibles d' !! c = if decide (task_fund_collectibles d !! c = Some (TypedID_String t))
     then set_col_state "minted" <$> collectibles d !! c else collectibles d !! c).
Proof.
  intros [d2 d3 (d1 & Hc & Hh) _ ->%update_reservations_eq]. cbn [ledger_entries collectibles with_reservations].
  destruct (held_released_frame _ _ _ Hh) as (_ & _ & _ & -> & _). destruct (credit_refunded_frame _ _ _ _ _ Hc) as (_ & _ & Hcol & Hheld & _).
  split.
  - intros a. destruct Hc as [Hn|fund id d1 Hfund [-> _]%insert_ledger_entry_inr]; [rewrite Hn; unfold returned; lia|].
    rewrite Hfund. unfold returned, moved. cbn [ledger_entries drop_fund with_funds with_entries]. rewrite account_sum_cons.
    cbn [entry_account_id entry_amount new_entry]. case_decide; lia.
  - intros c. rewrite <- Hcol, <- Hheld. destruct Hh as [[Hnone ->]|[_ ->]]; [|apply release_held_lookup].
    rewrite decide_False; [done|]. by apply held_none.
Qed.

(** A cancellation that is answered as accepted leaves the task cancelled and holding nothing,
    its credits back in the account that funded it, its collectibles minted again, and records one
    event whose recipients are the actor's draft, the creator and every holder released. *)
Theorem cancellation_settles_the_task env m t draft value ds m' :
  run env m (Tasks.ChangeTaskState t Task.StateCancelled (RecordDraft draft)) = (Tasks.ChangeTaskStateStoreAccepted value ds, m') ->
  let task := TypedID_String t in
  ended_as "cancelled" task m' /\
  (forall a, account_sum a (ledger_entries (tables m')) =
     account_sum a (ledger_entries (tables m)) + returned (task_funds (tables m) !! task) a) /\
  (forall c, collectibles (tables m') !! c = if decide (task_fund_collectibles (tables m) !! c = Some task)
     then set_col_state "minted" <$> collectibles (tables m) !! c else collectibles (tables m) !! c) /\
  exists row creator holders d,
    tasks (tables m) !! task = Some row /\ ParseUserID (task_created_by_user_id row) = TypedIDCreated creator /\
    parse_users (holders_of task (tables m)) holders /\
    d = WithRecipients draft (creator :: holders) /\ ds = [d] /\
    forall u, u = creator \/ u ∈ holders -> u ∈ Users (Draft_Recipients d).
Proof.
  intros Hrun. pose proof (ChangeTaskState_outcome env m t Task.StateCancelled (RecordDraft draft)) as Ho. rewrite Hrun in Ho. cbn [fst snd] in Ho.
  destruct Ho as [[[reason [=]] _]|(ds' & Hc & Heq)]. cbn in Heq. subst ds'.
  destruct Hc as [now row us d1 d2 ds d3 Hrow _ Hset Hu Hplan Hrec]. rewrite decide_True in Hset by done.
  destruct (settlement_returns _ _ _ _ _ _ Hset) as [Hsums Hcols]. cbn. split; [|split; [|split]].
  - pose proof (recorded_lightened _ _ _ Hrec) as Hl. split.
    + apply recorded_with_events in Hrec as (e & r & ->). cbn. apply (update_task_state_rows _ _ row) in Hu as ->; [|by rewrite (settlement_tasks _ _ _ _ _ _ Hset)].
      cbn. rewrite lookup_insert_eq. by eexists.
    + eapply unencumbered_lightened, unencumbered_lightened, settlement_unencumbered, Hset; [exact Hl|by eapply task_state_lightened].
  - intros a. rewrite <- Hsums. apply recorded_with_events in Hrec as (e & r & ->). by apply update_task_state_inr in Hu as [ts ->].
  - intros c. rewrite <- Hcols. apply recorded_with_events in Hrec as (e & r & ->). by apply update_task_state_inr in Hu as [ts ->].
  - destruct Hplan as [|draft' creator [= <-] Hcreator]; [done|]. exists row, creator, us, (WithRecipients draft (creator :: us)).
    repeat (split; [done|]). split; [by destruct Hset|]. repeat (split; [done|]). intros u Hin.
    unfold WithRecipients. cbn [Draft_Recipients]. apply NewRecipients_elem, elem_of_app. right. apply elem_of_cons. done.
Qed.

(** ** Reservations *)

Lemma CreateReservation_outcome env m id command :
  reserve_outcome id command m (fst (run env m (Tasks.CreateReservation id command))) (snd (run env m (Tasks.CreateReservation id command))).
Proof.
  assert (wp env (Tasks.CreateReservation id command) (fun r st => reserve_outcome id command m r (st_base st)) (MkTxState m m 0)) as (st & Hst & Hb)%wp_run.
  - by apply CreateReservation_wp.
  - by rewrite Hb.
Qed.

(** A reservation is created only on an open task that requires one, outside an unpublished
    series, for an assignee who is not banned, and when no reservation of the task is active; and it
    is the only one added. *)
Theorem reservation_is_gated env m id command value m' :
  run env m (Tasks.CreateReservation id command) = (Tasks.CreateReservationStoreAccepted value, m') ->
  let task := TypedID_String (Tasks.reserve_TaskID command) in
  exists m1, housekept m m1 /\
    (exists row columns, task_row task m1 = Some (row, columns) /\ task_state row = "open" /\ tc_participation_policy columns = "reservation_required") /\
    Tasks.series_unpublished task m1 = false /\
    Tasks.is_banned task (assigneeSQLColumns (Tasks.reserve_Assignee command)) m1 = false /\
    (forall r reservation, task_reservations (tables m1) !! r = Some reservation -> res_task_id reservation = task -> res_state reservation <> "active") /\
    task_reservations (tables m') = <[TypedID_String id := new_reservation command]> (task_reservations (tables m1)).
Proof.
  intros Hrun. pose proof (CreateReservation_outcome env m id command) as Ho. rewrite Hrun in Ho. cbn [fst snd] in Ho.
  destruct Ho as [[[reason [=]] _]|(m1 & Hk & Hr)]. cbn. exists m1. split; [done|].
  destruct Hr as [now row columns d1 m2 d3 Hrow Hopen Hpolicy Hseries Hban _ [cs ->]%origin_charged_frame Hi (e & r & ->)%recorded_with_events].
  apply insert_reservation_inv in Hi as (-> & Hone & Hnone). cbn in *. split; [by exists row, columns|]. do 2 (split; [done|]). split; [|done].
  intros r' reservation Hr' Ht Ha. assert (r' <> TypedID_String id) as Hne by (intros ->; congruence).
  apply Hne. symmetry. apply (Hone (TypedID_String id) (new_reservation command) (lookup_insert_eq _ _ _) r' reservation); [by rewrite lookup_insert_ne|done..].
Qed.

(** What the reservations a credential holds become with one more. *)
Lemma active_via_reserved credential id row columns m :
  task_reservations (tables m) !! id = None -> res_state row = "active" -> rc_via_credential columns = Some credential ->
  Tasks.active_via credential (with_reservation_columns (<[id := columns]> (reservation_columns m))
    (with_tables (with_reservations (<[id := row]> (task_reservations (tables m))) (tables m)) m)) = Tasks.active_via credential m + 1.
Proof.
  intros Hnone Ha Hvia. unfold Tasks.active_via. cbn.
  rewrite (map_filter_insert_True _ _ id row); cbn [fst snd].
  2:{ split; [done|]. by rewrite lookup_insert_eq. }
  rewrite map_size_insert_None.
  - rewrite Nat2Z.inj_succ. unfold Z.succ. f_equal. f_equal. f_equal. apply map_filter_ext. intros i r Hr. cbn.
    rewrite lookup_insert_ne; [done|]. intros ->. congruence.
  - apply map_lookup_filter_None. by left.
Qed.

Lemma lapsed_counters now m ds m' : lapsed_released now m ds m' -> work_day_counters (tables m') = work_day_counters (tables m).
Proof. intros [released m1 d Hl%expire_lapsed_inv _ (e & r & ->)%recorded_with_events]. by subst m1. Qed.

(** Bounds. A reservation through a work credential adds one to the credential's counter of the
    day and keeps it within the daily limit, and keeps the credential's active reservations within
    its cap. *)
Theorem reservation_stays_within_budget env m id command credential limit concurrent value m' :
  Tasks.reserve_Origin command = Work.ReservedViaWorkCredential credential limit concurrent ->
  run env m (Tasks.CreateReservation id command) = (Tasks.CreateReservationStoreAccepted value, m') ->
  (exists day, let used d := default 0 (work_day_counters d !! (Tasks.workDayKeyAgentTasks +:+ TypedID_String credential, day)) in
     used (tables m') = used (tables m) + 1 /\ used (tables m') <= limit) /\
  match concurrent with
  | Work.ReservationConcurrencyCapAtMost cap => Tasks.active_via (TypedID_String credential) m' <= cap
  | Work.NoReservationConcurrencyCap => True
  end.
Proof.
  intros Horigin Hrun. pose proof (CreateReservation_outcome env m id command) as Ho. rewrite Hrun in Ho. cbn [fst snd] in Ho.
  destruct Ho as [[[reason [=]] _]|(m1 & (now0 & ds0 & Hk) & Hr)].
  destruct Hr as [now row columns d1 m2 d3 _ _ _ _ _ _ Horg Hi (e & r & ->)%recorded_with_events]. rewrite Horigin in Horg.
  destruct Horg as (_ & Hcap & day & used & [Hused ->]%bump_counter_inr & Hlimit). apply insert_reservation_inv in Hi as (-> & _ & Hnone). cbn in Hnone.
  split.
  - exists day. cbn. rewrite lookup_insert_eq. cbn. rewrite <- (lapsed_counters _ _ _ _ Hk). lia.
  - destruct concurrent as [|cap]; [done|].
    pose proof (active_via_reserved (TypedID_String credential) (TypedID_String id) (new_reservation command)
      (new_reservation_columns command (tc_reservation_hours columns) now) m1 Hnone eq_refl) as Hav.
    unfold Tasks.active_via in *. cbn in *. rewrite Hav; [lia|]. unfold Tasks.via_credential. by rewrite Horigin.
Qed.

(** ** The service *)

Context {issuer : TaskCredentialIssuer}.

Lemma decide_state_wp env actor t transition st (Q : DomainError + Task.State -> TxStateOf Market -> Prop) :
  (forall reason st', st_base st' = st_base st -> st_db st' = st_db st -> Q (inl reason) st') ->
  (forall value state st', st_base st' = st_base st -> st_db st' = st_db st -> task_found t (st_base st) value ->
     acts_for actor (Task.TOwner value) (st_base st) -> transition (Task.TState value) = Task.StateTransitionAccepted state -> Q (inr state) st') ->
  wp env (TaskService.decide_state actor t transition) Q st.
Proof.
  intros Hf Hs. unfold TaskService.decide_state, TaskService.find. apply wp_attempt. tk_prim.
  apply FindTask_found; [intros; tk_prim; by apply Hf|]. intros value name st1 Hb1 Hd1 Hfound. tk_prim.
  apply wp_check, requireOwnerPermission_wp; [intros reason st2 Hb2 Hd2; apply Hf; congruence|]. intros st2 Hb2 Hd2 Hacts. tk_prim.
  destruct (transition _) eqn:E; [|apply Hf; congruence]. eapply Hs; [congruence..|done| |done]. by rewrite <- Hb1.
Qed.

(** The changes of state the service makes. *)
Inductive service_transition : string -> string -> Prop :=
| publishes : service_transition "draft" "open"
| cancels_draft : service_transition "draft" "cancelled"
| cancels_open : service_transition "open" "cancelled"
| withdraws : service_transition "open" "draft".

(** At most one task changes: the named one, along a transition, for someone who may act for its owner. *)
Definition lawful_change (actor : Auth.Subject) (t : TaskID) (m m' : Market) : Prop :=
  forall u, tasks (tables m') !! u = tasks (tables m) !! u \/
    (u = TypedID_String t /\ exists row row' value, tasks (tables m) !! u = Some row /\ tasks (tables m') !! u = Some row' /\
       task_found t m value /\ acts_for actor (Task.TOwner value) m /\ service_transition (task_state row) (task_state row')).

Lemma ParseState_outcome raw state : outcome (Task.ParseState raw) = inr state -> raw = Task.State_String state.
Proof.
  unfold outcome, Task.State_outcome, Task.ParseState. rewrite !switch_cons.
  repeat match goal with |- context [String.eqb raw ?l] => destruct (String.eqb_spec raw l) as [->|]; [by intros [= <-]|] end. done.
Qed.

Lemma state_changed_row t state plan m ds m' :
  state_changed t state plan m ds m' ->
  (exists row, tasks (tables m) !! TypedID_String t = Some row /\
     tasks (tables m') !! TypedID_String t = Some (set_task_state (Task.State_String state) row)) /\
  forall u, u <> TypedID_String t -> tasks (tables m') !! u = tasks (tables m) !! u.
Proof.
  intros [now row us d1 d2 ds' d3 Hrow _ Hset Hu _ (e & r & ->)%recorded_with_events].
  assert (tasks d1 = tasks (tables m)) as Ht by (case_decide; [by eapply settlement_tasks|by destruct Hset as [_ ->]]).
  cbn. split.
  - exists row. split; [done|]. apply (update_task_state_rows _ _ row) in Hu as ->; [|by rewrite Ht]. cbn. apply lookup_insert_eq.
  - intros u Hne. by rewrite (update_task_state_others _ _ _ _ _ Hu), Ht.
Qed.

Lemma changeState_lawful env actor t transition plan m n :
  (forall s s', transition s = Task.StateTransitionAccepted s' -> service_transition (Task.State_String s) (Task.State_String s')) ->
  wp env (TaskService.changeState actor t transition plan) (fun _ st => lawful_change actor t m (st_base st)) (MkTxState m m n).
Proof.
  intros Htrans. unfold TaskService.changeState. apply wp_attempt, decide_state_wp; cbn [st_base st_db].
  { intros reason st -> _. by left. }
  intros value state st Hb _ Hfound Hacts Hstate. unfold TaskService.apply_state. apply wp_bind, ChangeTaskState_wp. rewrite Hb.
  intros r st' Ho. tk_prim. destruct Ho as [[_ ->]|(ds & Hc & _)]; [by left|].
  apply state_changed_row in Hc as [(row & Hrow & Hrow') Hothers]. intros u.
  destruct (decide (u = TypedID_String t)) as [->|Hne]; [right|left; by apply Hothers]. split; [done|].
  exists row, (set_task_state (Task.State_String state) row), value. repeat (split; [done|]). cbn.
  destruct Hfound as [row0 columns vis [Hrow0 _]%task_row_Some _ _ Hof]. rewrite Hrow in Hrow0. injection Hrow0 as <-.
  pose proof (ParseState_outcome _ _ (of_state _ _ Hof)) as Hst. cbn in Hst. rewrite Hst. by apply Htrans.
Qed.

(** C27: Authorization and state machine. Opening, cancelling or unpublishing through the service
    changes at most the task named, by someone who may act for its owner, and (run without
    interleaving) along a transition of the lifecycle; under any faults. *)
Theorem service_changes_follow_the_lifecycle env actor t m :
  lawful_change actor t m (snd (run env m (TaskService.Open actor t))) /\
  lawful_change actor t m (snd (run env m (TaskService.Cancel actor t))) /\
  lawful_change actor t m (snd (run env m (TaskService.Unpublish actor t))).
Proof.
  assert (forall (c : MOf Market (TaskService.ChangeStateResult * list Draft)),
    wp env c (fun _ st => lawful_change actor t m (st_base st)) (MkTxState m m 0) -> lawful_change actor t m (snd (run env m c))) as Hrun.
  { intros c (st & Hl & Hb)%wp_run. by rewrite Hb. }
  assert (forall kind transition,
    (forall s s', transition s = Task.StateTransitionAccepted s' -> service_transition (Task.State_String s) (Task.State_String s')) ->
    wp env (let* draft := TaskService.taskEventDraft kind (TaskService.eventActor actor) t (TaskMetadata t) (TaskService.acting_recipients actor)
            else fun reason => (TaskService.ChangeStateRejected reason, []) in TaskService.changeState actor t transition (RecordDraft draft))
      (fun _ st => lawful_change actor t m (st_base st)) (MkTxState m m 0)) as Hwith.
  { intros kind transition Htrans. unfold TaskService.taskEventDraft. apply wp_attempt. do 2 tk_prim. tk_prim.
    destruct (TaskService.draftOrProblem _); [by left|]. by apply changeState_lawful. }
  repeat split; apply Hrun; [apply Hwith..|apply changeState_lawful]; intros [] s' [= <-]; constructor.
Qed.

(** ** A decision that has gone stale *)

Lemma wp_stmt_ok {S A} env (f : S -> StmtError + (A * S)) (Q : StmtError + A -> TxStateOf S -> Prop) st :
  no_faults env ->
  match f (st_db st) with
  | inl err => Q (inl err) (tick st)
  | inr (a, db') => Q (inr a) (MkTxState (st_base st) db' (Datatypes.S (st_step st)))
  end -> wp env (stmt f) Q st.
Proof. intros Hok Hs. unfold wp, stmt. rewrite Hok. by destruct (f (st_db st)) as [|[]]. Qed.

(** The store writes the draft state whatever the state of the task is. *)
Lemma ChangeTaskState_draft env t m row n (Q : Tasks.ChangeTaskStateStoreResult -> TxStateOf Market -> Prop) :
  no_faults env -> tasks (tables m) !! TypedID_String t = Some row ->
  (forall r st, tasks (tables (st_base st)) !! TypedID_String t = Some (set_task_state "draft" row) -> Q r st) ->
  wp env (Tasks.ChangeTaskState t Task.StateDraft NoEvent) Q (MkTxState m m n).
Proof.
  intros Hok Hrow HQ. unfold Tasks.ChangeTaskState. apply wp_check, (wp_begin_ok Hok). do 2 tk_prim. apply wp_attempt, (wp_query_row_ok Hok).
  cbn [st_db st_base st_step]. rewrite Hrow. cbn [required]. rewrite bind_inr. cbv beta iota. unfold Tasks.eqb_state.
  rewrite !bool_decide_false by done. do 4 tk_prim.
  apply wp_attempt, wp_stmt_ok; [done|]. cbn [st_db st_base st_step tick]. unfold update_task_state_from. rewrite Hrow, String.eqb_refl.
  destruct (update_task_state _ _ (tables m)) as [|d] eqn:Hu.
  { exfalso. unfold update_task_state in Hu. rewrite Hrow in Hu. by vm_compute in Hu. }
  change (negb (1 =? 1)) with false. cbv iota. unfold Tasks.record_plan. do 2 tk_prim. apply wp_check, (wp_commit_ok Hok). cbn [st_db st_step]. apply wp_bind, FindTask_wp. intros r st Hb _. tk_prim.
  apply HQ. cbn in Hb. rewrite Hb. cbn. apply (update_task_state_rows _ _ row) in Hu as ->; [|done]. cbn. apply lookup_insert_eq.
Qed.

(** C28: Interleaving. The service decides a transition on one read of the task and the store
    applies it against another: an unpublication decided before a cancellation commits, and applied
    after it, puts the cancelled task back to draft. *)
Theorem stale_decision_revives_a_cancelled_task env env1 env2 actor owner t m m1 state row :
  no_faults env2 ->
  fst (run env m (TaskService.decide_state actor t Task.UnpublishState)) = inr state ->
  m1 = snd (run env1 m (TaskService.Cancel owner t)) ->
  tasks (tables m1) !! TypedID_String t = Some row -> task_state row = "cancelled" ->
  exists row2, tasks (tables (snd (run env2 m1 (TaskService.apply_state t state NoEvent)))) !! TypedID_String t = Some row2 /\
    task_state row2 = "draft".
Proof.
  intros Hok Hdecide _ Hrow _.
  assert (state = Task.StateDraft) as ->.
  { assert (wp env (TaskService.decide_state actor t Task.UnpublishState) (fun r _ => forall s, r = inr s -> s = Task.StateDraft) (MkTxState m m 0))
      as (st & Hs & _)%wp_run; [|by apply Hs].
    apply decide_state_wp; [done|]. intros value s st _ _ _ _ Ht s' [= <-]. by destruct (Task.TState value); simplify_eq/=. }
  assert (wp env2 (TaskService.apply_state t Task.StateDraft NoEvent)
    (fun _ st => tasks (tables (st_base st)) !! TypedID_String t = Some (set_task_state "draft" row)) (MkTxState m1 m1 0)) as (st & Hs & Hb)%wp_run.
  { unfold TaskService.apply_state. apply wp_bind. eapply ChangeTaskState_draft; [done..|]. intros r st Hs. by tk_prim. }
  exists (set_task_state "draft" row). by rewrite Hb, Hs.
Qed.

(** ** Who may submit, and who sees a reservation *)

Lemma CheckSubmissionEligibility_wp env t u st (Q : Tasks.SubmissionEligibilityStoreResult -> TxStateOf Market -> Prop) :
  (forall reason st', st_base st' = st_base st \/ housekept (st_base st) (st_base st') -> Q (Tasks.SubmissionEligibilityRejected reason) st') ->
  (forall row columns st', housekept (st_base st) (st_base st') ->
     task_row (TypedID_String t) (st_base st') = Some (row, columns) -> Tasks.series_unpublished (TypedID_String t) (st_base st') = false ->
     Tasks.user_banned (TypedID_String t) (TypedID_String u) (st_base st') = false ->
     tc_participation_policy columns = "open" \/ Tasks.reserved_for (TypedID_String t) (TypedID_String u) (st_base st') = true ->
     Q Tasks.SubmissionEligible st') ->
  wp env (Tasks.CheckSubmissionEligibility t u) Q st.
Proof.
  intros Hf Hs. unfold Tasks.CheckSubmissionEligibility. apply wp_check, releaseExpired_wp; [by intros; apply Hf; left|]. intros m1 k Hkept.
  assert (forall reason st', st_base st' = m1 -> Q (Tasks.SubmissionEligibilityRejected reason) st') as Hr by (intros reason st' Hb; apply Hf; rewrite Hb; by right).
  do 2 tk_prim; cbn [st_base]; [by apply Hr|]. destruct (task_row _ m1) as [[row columns]|] eqn:Hrow; cbn [required fmap option_fmap option_map]; [|by apply Hr].
  apply wp_check, seriesBlocks_wp; [by intros; apply Hr|]. cbn [st_base tick]. intros Hseries.
  do 2 tk_prim; cbn -[Tasks.user_banned]; [by apply Hr|]. destruct (Tasks.user_banned _ _ m1) eqn:Hban; [tk_prim; by apply Hr|].
  destruct (String.eqb_spec (tc_participation_policy columns) "open") as [Hopen|]; [tk_prim; eapply Hs; eauto|].
  do 2 tk_prim; cbn -[Tasks.reserved_for]; [by apply Hr|]. tk_prim. destruct (Tasks.reserved_for _ _ m1) eqn:Hres; [|by apply Hr].
  eapply Hs; eauto.
Qed.

(** The user may work on the task: it is open to all, or the user holds an active
    reservation of it, personally or through a team they belong to; its series is
    published and the user is not banned. *)
Definition entitled (task user : string) (m : Market) : Prop :=
  (exists row columns, task_row task m = Some (row, columns) /\
     (tc_participation_policy columns = "open" \/
      exists id reservation, task_reservations (tables m) !! id = Some reservation /\ res_task_id reservation = task /\ res_state reservation = "active" /\
        (res_user_id reservation = Some user \/
         exists rcolumns team, reservation_columns m !! id = Some rcolumns /\ rc_team_id rcolumns = Some team /\ (team, user) ∈ team_members m))) /\
  Tasks.series_unpublished task m = false /\
  (forall kind by_user ban, task_implementor_bans (tables m) !! (task, kind, by_user) = Some ban -> kind = "user" -> ban_user_id ban <> user).

Lemma eligible_entitled task user m row columns :
  task_row task m = Some (row, columns) -> Tasks.series_unpublished task m = false -> Tasks.user_banned task user m = false ->
  tc_participation_policy columns = "open" \/ Tasks.reserved_for task user m = true -> entitled task user m.
Proof.
  intros Hrow Hseries Hban Hor. split; [|split; [done|]].
  - exists row, columns. split; [done|]. destruct Hor as [Hopen|Hres]; [by left|right]. unfold Tasks.reserved_for in Hres.
    apply existsb_exists in Hres as ([id reservation] & Hin%list_elem_of_In%elem_of_map_to_list & Hc). apply andb_true_iff in Hc as [[Ht Ha]%andb_true_iff Hsw].
    apply String.eqb_eq in Ht, Ha. exists id, reservation. repeat (split; [done|]).
    assert (forall b, (match (c ← reservation_columns m !! id; rc_team_id c) with Some team => bool_decide ((team, user) ∈ team_members m) | None => false end) = b -> b = true ->
      exists rcolumns team, reservation_columns m !! id = Some rcolumns /\ rc_team_id rcolumns = Some team /\ (team, user) ∈ team_members m) as Hteam.
    { intros b Hm ->. destruct (c ← _; _) as [team|] eqn:E; [|done]. apply bind_Some in E as (rc & Hrc & Hteam). apply bool_decide_eq_true in Hm. by exists rc, team. }
    rewrite !switch_cons in Hsw. destruct (String.eqb _ "user"); [left; by apply bool_decide_eq_true in Hsw|right].
    destruct (String.eqb _ "organization_team"); [by eapply Hteam|]. destruct (String.eqb _ "team"); [by eapply Hteam|done].
  - intros kind by_user ban Hb -> Heq. unfold Tasks.user_banned in Hban. apply not_true_iff_false in Hban. apply Hban.
    apply existsb_exists. exists ((task, "user", by_user), ban). split; [by apply list_elem_of_In, elem_of_map_to_list|].
    by rewrite !String.eqb_refl, Heq, String.eqb_refl.
Qed.

(** A caller who may not act for the owner of a task is shown only the reservations they hold. *)
Theorem reservations_are_shown_to_their_holders env actor t page m values m' :
  run env m (TaskService.ListReservations actor t page) = (TaskService.ReservationsListed values, m') ->
  (exists value m1, task_found t m value /\ housekept m m1 /\ acts_for actor (Task.TOwner value) m1) \/
  Forall (fun r => actor = Auth.UserSubject (Task.RequestedBy r)) values.
Proof.
  intros Hrun. assert (wp env (TaskService.ListReservations actor t page) (fun r _ => forall vs, r = TaskService.ReservationsListed vs ->
    (exists value m1, task_found t m value /\ housekept m m1 /\ acts_for actor (Task.TOwner value) m1) \/
    Forall (fun r => actor = Auth.UserSubject (Task.RequestedBy r)) vs) (MkTxState m m 0)) as (st & Hst & _)%wp_run; [|apply Hst; by rewrite Hrun].
  unfold TaskService.ListReservations, TaskService.find. apply wp_attempt. tk_prim. apply FindTask_found; [by intros; tk_prim|].
  intros value name st1 Hb1 Hd1 Hfound. tk_prim. unfold TaskService.list_reservations, Tasks.ListReservations. apply wp_attempt. tk_prim.
  apply wp_check, releaseExpired_wp; [by intros; tk_prim|]. intros m1 k Hkept. apply wp_attempt, read_rows_wp. cbn [st_base st_db].
  intros [reason|listed] st2 Hb2 Hd2 _; [by tk_prim|]. do 2 tk_prim. cbn [st_base] in Hb1. rewrite Hb1 in Hkept.
  tk_prim. apply requireOwnerPermission_wp.
  - intros reason st3 _ _. tk_prim. intros vs [= <-]. right. apply List.Forall_forall. intros r Hin%list_elem_of_In. destruct actor as [user| |].
    + apply list_elem_of_filter in Hin as [<- _]. done.
    + by apply not_elem_of_nil in Hin.
    + by apply not_elem_of_nil in Hin.
  - intros st3 _ _ Hacts. tk_prim. intros vs [= <-]. left. rewrite Hb2 in Hacts. by exists value, m1.
Qed.

(** ** Cancelling a reservation *)

(** The user holds the reservation. *)
Definition holds_reservation (user : UserID) (id : TaskReservationID) (m : Market) : Prop :=
  exists raw row, task_reservations (tables m) !! raw = Some row /\ ParseTaskReservationID raw = TypedIDCreated id /\
    ParseUserID (res_requested_by_user_id row) = TypedIDCreated user.

Lemma parsed_reservation_holds raw row value m :
  reservation_sql_row m raw = Some row -> parseReservationRow row = inr value ->
  holds_reservation (Task.RequestedBy value) (Task.Reservation_ID value) m.
Proof.
  unfold reservation_sql_row, reservation_row. intros ([r columns] & (r0 & Hr & (c & Hc & [= <- <-])%bind_Some)%bind_Some & (holder & Hh & [= <-])%bind_Some)%bind_Some Hp.
  unfold parseReservationRow in Hp. sum_inv Hp. injection Hp as <-. cbn in *. exists raw, r0. split; [done|].
  unfold outcome, TypedIDResult_outcome in *. repeat case_match; by simplify_eq.
Qed.

(** What allows a cancellation, and the state it leaves. *)
Definition cancellation_ground (actor : Auth.Subject) (owner : Task.Owner) (id : TaskReservationID) (m : Market) (state : Task.ReservationState) : Prop :=
  (state = Task.ReservationStateCancelledByWorker /\ exists user, actor = Auth.UserSubject user /\ holds_reservation user id m) \/
  (state = Task.ReservationStateCancelledByRequester /\ acts_for actor owner m).

Lemma sql_page_elem {A} page (l : list A) x : x ∈ Pagination.sql_page page l -> x ∈ l.
Proof.
  unfold Pagination.sql_page. intros [i Hi]%list_elem_of_lookup. apply lookup_take_Some in Hi as [Hi _]. rewrite lookup_drop in Hi.
  by eapply list_elem_of_lookup_2.
Qed.

Lemma ListReservations_wp env t page st (Q : Tasks.ListReservationsStoreResult -> TxStateOf Market -> Prop) :
  (forall reason st', Q (Tasks.ListReservationsStoreRejected reason) st') ->
  (forall values m1 k, housekept (st_base st) m1 ->
     Forall (fun r => holds_reservation (Task.RequestedBy r) (Task.Reservation_ID r) m1) values ->
     forall st', st_base st' = m1 -> st_step st' = k -> Q (Tasks.ListReservationsStoreAccepted values) st') ->
  wp env (Tasks.ListReservations t page) Q st.
Proof.
  intros Hf Hs. unfold Tasks.ListReservations. apply wp_check, releaseExpired_wp; [by intros; apply Hf|]. intros m1 k Hkept.
  apply wp_attempt, read_rows_wp. cbn [st_base]. intros [reason|values] st' Hb _ Hvalues; [by apply Hf|]. tk_prim. eapply Hs; [done| |done|done].
  apply List.Forall_forall. intros r Hin%list_elem_of_In. apply list_elem_of_lookup in Hin as [i Hi].
  destruct (Forall2_lookup_r _ _ _ _ _ Hvalues Hi) as (row & Hrow & Hparse). apply list_elem_of_lookup_2, sql_page_elem, list_elem_of_omap in Hrow as (raw & _ & Hraw).
  by eapply parsed_reservation_holds.
Qed.

Lemma cancelled_state_wp env actor owner id listed st (Q : DomainError + Task.ReservationState -> TxStateOf Market -> Prop) :
  (forall reason st', Q (inl reason) st') ->
  (forall state st', st_base st' = st_base st ->
     (Forall (fun r => holds_reservation (Task.RequestedBy r) (Task.Reservation_ID r) (st_base st)) listed ->
      cancellation_ground actor owner id (st_base st) state) -> Q (inr state) st') ->
  wp env (TaskService.cancelled_state actor owner id listed) Q st.
Proof.
  intros Hf Hs. unfold TaskService.cancelled_state. destruct (existsb _ listed) eqn:E.
  - tk_prim. apply Hs; [done|]. intros Hall. left. split; [done|]. apply existsb_exists in E as (r & Hin%list_elem_of_In & Hh).
    unfold TaskService.holds in Hh. apply andb_true_iff in Hh as [Hid%bool_decide_eq_true Hactor%bool_decide_eq_true].
    exists (Task.RequestedBy r). split; [done|]. rewrite <- Hid. by apply (Forall_elem _ _ _ Hall Hin).
  - apply wp_check, requireOwnerPermission_wp; [by intros; apply Hf|]. intros st' Hb _ Hacts. tk_prim. apply Hs; [done|]. intros _. by right.
Qed.

(** A reservation is cancelled only by its holder, and then as cancelled by the worker, or by
    someone who may act for the owner of the task, and then as cancelled by the requester; and only
    a reservation of that task. *)
Theorem reservation_cancellation_is_authorised env actor t id m value ds m' :
  run env m (TaskService.CancelReservation actor t id) = (TaskService.ReservationStateChanged value, ds, m') ->
  exists task m1 state row, task_found t m task /\ housekept m m1 /\ cancellation_ground actor (Task.TOwner task) id m1 state /\
    task_reservations (tables m') !! TypedID_String id = Some row /\ res_task_id row = TypedID_String t /\
    res_state row = Task.ReservationState_String state.
Proof.
  intros Hrun. assert (wp env (TaskService.CancelReservation actor t id) (fun r st => (exists v, r.1 = TaskService.ReservationStateChanged v) ->
    exists task m1 state row, task_found t m task /\ housekept m m1 /\ cancellation_ground actor (Task.TOwner task) id m1 state /\
      task_reservations (tables (st_base st)) !! TypedID_String id = Some row /\ res_task_id row = TypedID_String t /\
      res_state row = Task.ReservationState_String state) (MkTxState m m 0)) as (st & Hst & Hb)%wp_run.
  2:{ rewrite Hrun in Hst, Hb. cbn [fst snd] in Hst, Hb. rewrite Hb. apply Hst. by exists value. }
  assert (forall reason, ~ exists v, (TaskService.ReservationStateChangeRejected reason, [] : list Draft).1 = TaskService.ReservationStateChanged v) as Hno by (by intros reason [v [=]]).
  unfold TaskService.CancelReservation, TaskService.find. apply wp_attempt. tk_prim. apply FindTask_found; [intros; tk_prim; intros Hx; by apply Hno in Hx|].
  intros task name st1 Hb1 _ Hfound. tk_prim. apply wp_attempt. unfold TaskService.list_reservations. tk_prim.
  apply ListReservations_wp; [intros; tk_prim; intros Hx; by apply Hno in Hx|]. intros listed m1 k Hkept Hheld st2 Hb2 _. tk_prim. cbn [st_base] in Hb1. rewrite Hb1 in Hkept.
  apply wp_attempt, cancelled_state_wp; [by intros reason ? Hx%Hno|]. rewrite Hb2. intros state st3 Hb3 Hground. specialize (Hground Hheld).
  unfold TaskService.reservationEventDraft. apply wp_attempt. do 2 tk_prim. tk_prim. destruct (TaskService.draftOrProblem _) as [|draft]; [intros Hx; by apply Hno in Hx|].
  tk_prim. apply ChangeReservationState_wp. intros res st4 Ho. tk_prim. destruct Ho as [[[reason ->] _]|(m2 & ds2 & Hkept2 & Hc & _)]; [intros Hx; by apply Hno in Hx|].
  intros _. destruct Hc as [row ds' d Hrow Ht Ha _ (e & rr & ->)%recorded_with_events].
  exists task, m1, state, (set_res_state (Task.ReservationState_String state) row). repeat (split; [done|]). cbn. split; [apply lookup_insert_eq|done].
Qed.

End LifecycleCorrect.

(** * A created task reads back

    What [CreateTask] stores and what [FindTask] then reads of it: every value of
    the command whose column is not rewritten by the database comes back. *)
Local Open Scope string_scope.
Local Open Scope Z_scope.

(** ** Values their constructors accept again *)

Lemma required_text_again {R} limit missing long (accepted : string -> R) rejected raw value :
  (forall e, rejected e <> accepted value) -> (forall s, accepted s = accepted value -> s = value) ->
  Task.required_text limit missing long accepted rejected raw = accepted value ->
  Task.required_text limit missing long accepted rejected value = accepted value.
Proof.
  intros Hr Hinj. unfold Task.required_text. destruct (String.eqb_spec (TrimSpace raw) ""); [by intros ?%Hr|].
  destruct (limit <? String.length (TrimSpace raw))%nat eqn:E; [by intros ?%Hr|]. intros <-%Hinj. rewrite TrimSpace_idempotent, E.
  by rewrite (proj2 (String.eqb_neq _ _)) by done.
Qed.

Lemma NewTitle_again raw title : Task.NewTitle raw = Task.TitleAccepted title -> Task.NewTitle (Task.Title_value title) = Task.TitleAccepted title.
Proof.
  destruct title as [value]. cbn. unfold Task.NewTitle.
  refine (required_text_again 160 _ _ (fun s => Task.TitleAccepted (Task.MkTitle s)) Task.TitleRejected raw value _ _); [done|by intros s [=]].
Qed.

Lemma NewDescription_again raw description :
  Task.NewDescription raw = Task.DescriptionAccepted description ->
  Task.NewDescription (Task.Description_value description) = Task.DescriptionAccepted description.
Proof.
  destruct description as [value]. cbn. unfold Task.NewDescription.
  refine (required_text_again 8000 _ _ (fun s => Task.DescriptionAccepted (Task.MkDescription s)) Task.DescriptionRejected raw value _ _); [done|by intros s [=]].
Qed.

Lemma NewReservationTTL_again hours ttl :
  Task.NewReservationTTL hours = Task.ReservationTTLAccepted ttl -> Task.NewReservationTTL (Task.ReservationTTL_Hours ttl) = Task.ReservationTTLAccepted ttl.
Proof. unfold Task.NewReservationTTL. destruct (hours <? 1) eqn:E1; [done|]. destruct (720 <? hours) eqn:E2; [done|]. intros [= <-]. cbn. by rewrite E1, E2. Qed.

Lemma NewSeriesPosition_again raw position :
  Task.NewSeriesPosition raw = Task.SeriesPositionAccepted position ->
  Task.NewSeriesPosition (Task.SeriesPosition_value position) = Task.SeriesPositionAccepted position.
Proof. unfold Task.NewSeriesPosition. destruct (raw <? 1) eqn:E; [done|]. intros [= <-]. cbn. by rewrite E. Qed.

Section CreationCorrect.
Context `{UUIDLaws, URLLib, World}.
Implicit Types (m : Market).

Lemma NewReferenceURL_again raw reference :
  NewReferenceURL raw = ReferenceURLAccepted reference -> NewReferenceURL (ReferenceURL_value reference) = ReferenceURLAccepted reference.
Proof.
  unfold NewReferenceURL. destruct (String.eqb_spec (TrimSpace raw) "") as [|Hne]; [intros [= <-]; reflexivity|].
  destruct (2000 <? String.length (TrimSpace raw))%nat eqn:El; [done|]. destruct (url_Parse (TrimSpace raw)) as [parsed|] eqn:Ep; [|done].
  destruct (_ || _) eqn:Es; [done|]. intros [= <-]. cbn [ReferenceURL_value]. rewrite TrimSpace_idempotent, El, Ep, Es.
  by rewrite (proj2 (String.eqb_neq _ _)) by done.
Qed.

Lemma owner_reads_back owner :
  let columns := ownerSQLColumns owner in
  parseTaskOwner (sql_kind columns) (default "" (sql_userID columns)) (default "" (sql_teamID columns)) (default "" (sql_organizationID columns)) = inr owner.
Proof.
  destruct owner; cbn -[TypedID_String ParseTypedID]; unfold parseTaskOwner; rewrite ?switch_cons; cbn -[TypedID_String ParseTypedID];
    by rewrite !ParseTypedID_String.
Qed.

Lemma visibility_reads_back task visibility :
  let row := visibilitySQLColumns task visibility in
  parseTaskVisibility (vis_kind row) (default "" (vis_user_id row)) (default "" (vis_team_id row)) (default "" (vis_organization_id row)) = inr visibility.
Proof.
  destruct visibility; cbn -[TypedID_String ParseTypedID]; unfold parseTaskVisibility; rewrite ?switch_cons; cbn -[TypedID_String ParseTypedID];
    by rewrite ?ParseTypedID_String.
Qed.

Lemma participation_reads_back policy : outcome (Task.ParseParticipationPolicy (Task.ParticipationPolicy_String policy)) = inr policy.
Proof. by destruct policy. Qed.

Lemma scope_reads_back scope : outcome (Task.ParseAssigneeScope (Task.AssigneeScope_String scope)) = inr scope.
Proof. by destruct scope. Qed.

(** An expiration keeps its seconds: the column keeps microseconds and the select prints seconds. *)
Definition to_second (policy : Task.ExpirationPolicy) : Task.ExpirationPolicy :=
  match policy with Task.ExpiresAt instant => Task.ExpiresAt (instant / 10 ^ 9 * 10 ^ 9) | Task.NoExpiration => Task.NoExpiration end.

Definition on_the_calendar (policy : Task.ExpirationPolicy) : Prop :=
  match policy with Task.ExpiresAt instant => four_digit_year (instant / 10 ^ 9) | Task.NoExpiration => True end.

Lemma expiration_reads_back policy :
  on_the_calendar policy ->
  parseStoredExpiration match expirationSQLColumn policy with Some instant => to_char_utc instant | None => "" end = inr (to_second policy).
Proof.
  destruct policy as [|instant]; cbn [expirationSQLColumn on_the_calendar to_second]; [done|]. intros Hy. unfold to_char_utc, timestamptz.
  assert (RFC3339 (instant / 1000 * 1000) = RFC3339 (instant / 10 ^ 9 * 10 ^ 9)) as ->.
  { unfold RFC3339. rewrite Z.div_mul by done. assert (instant / 1000 * 1000 / 10 ^ 9 = instant / 10 ^ 9) as ->; [|done].
    change (10 ^ 9) with (1000000 * 1000). rewrite Z.div_mul_cancel_r by done. by rewrite Z.div_div. }
  pose proof (Parse_RFC3339 _ Hy) as Hp. unfold parseStoredExpiration. rewrite Hp.
  destruct (String.eqb_spec (RFC3339 (instant / 10 ^ 9 * 10 ^ 9)) "") as [E|]; [|done]. by rewrite E in Hp.
Qed.

(** The command's values came from their constructors. *)
Record made (command : Tasks.CreateCommand) : Prop := {
  made_title : exists raw, Task.NewTitle raw = Task.TitleAccepted (Tasks.create_Title command);
  made_description : exists raw, Task.NewDescription raw = Task.DescriptionAccepted (Tasks.create_Description command);
  made_reference : exists raw, NewReferenceURL raw = ReferenceURLAccepted (Tasks.create_Reference command);
  made_ttl : exists hours, Task.NewReservationTTL hours = Task.ReservationTTLAccepted (Tasks.create_ReservationTTL command);
  made_position : match Tasks.create_Placement command with
    | Task.NewSeriesPlacement _ position | Task.ExistingSeriesPlacement _ position =>
        exists raw, Task.NewSeriesPosition raw = Task.SeriesPositionAccepted position
    | Task.StandalonePlacement => True
    end
}.

(** The foreign key of [task_visibility_scopes]. *)
Definition scopes_of_tasks (m : Market) : Prop :=
  Forall (fun vis => is_Some (tasks (tables m) !! vis_task_id vis)) (task_visibility_scopes m).

(** The placement of a task once created. *)
Definition placement_of (seriesID : TaskSeriesID) (placement : Task.SeriesPlacement) : Task.SeriesPlacement :=
  match placement with Task.NewSeriesPlacement _ position => Task.ExistingSeriesPlacement seriesID position | _ => placement end.

(** The text of a series is not empty. *)
Definition series_named (placement : Task.SeriesPlacement) : Prop :=
  match placement with Task.ExistingSeriesPlacement series _ => TypedID_String series <> "" | _ => True end.

Lemma placed_placement seriesID command m series m' :
  series_named (placement_of seriesID (Tasks.create_Placement command)) -> made command -> placed seriesID command m series m' ->
  parseSeriesPlacement (default "" series.1) (default 0 series.2) = inr (placement_of seriesID (Tasks.create_Placement command)).
Proof.
  intros Hid [_ _ _ _ Hpos] Hp. unfold parseSeriesPlacement.
  destruct Hp as [E|title position m' E _|s position E]; rewrite E in *; cbn [fst snd default placement_of series_named] in *; [done|..];
    rewrite (proj2 (String.eqb_neq _ _)) by done; cbn -[TypedID_String ParseTypedID]; rewrite ParseTypedID_String; destruct Hpos as [raw Hraw];
    apply NewSeriesPosition_again in Hraw; by rewrite Hraw.
Qed.

(** The rows of a task just created. *)
Record created_rows (t : TaskID) (command : Tasks.CreateCommand) (series : option string * option Z) (m' : Market) : Prop := {
  created_task : exists now stored, stored_columns (Tasks.created_columns command series now) = Some stored /\
    task_row (TypedID_String t) m' = Some (Tasks.created_row command, stored);
  created_scope : forall vis, vis ∈ task_visibility_scopes m' -> vis_task_id vis = TypedID_String t ->
    vis = visibilitySQLColumns (TypedID_String t) (Tasks.create_Visibility command)
}.

(** What the inserts beside the ledger's tables leave alone. *)
Lemma insert_visibility_inv row m m' : insert_visibility row m = inr m' -> m' = with_visibility (row :: task_visibility_scopes m) m.
Proof. unfold insert_visibility. repeat case_match; by intros [=]. Qed.

Lemma attached_frame t index values m m' :
  attached t index values m m' -> task_columns m' = task_columns m /\ task_visibility_scopes m' = task_visibility_scopes m.
Proof.
  induction 1 as [|index value values m m1 m2 Hi _ [-> ->]]; [done|]. unfold insert_attachment in Hi. repeat split_match_in Hi; by simplify_eq.
Qed.

Lemma placed_frame seriesID command m series m' : placed seriesID command m series m' -> task_visibility_scopes m' = task_visibility_scopes m.
Proof.
  intros [| |]; [done| |done]. match goal with Hi : context [insert_series] |- _ => revert Hi end. cbv zeta. unfold insert_series.
  repeat case_match; intros [=]; by subst.
Qed.

Lemma created_inv seriesID t command m m' :
  scopes_of_tasks m -> created seriesID t command m m' ->
  exists series m1, placed seriesID command m series m1 /\ created_rows t command series m'.
Proof.
  intros Hscopes Hc. pose proof (created_tables _ _ _ _ _ Hc) as [Hfresh (Ht & _)%escrows_frame].
  destruct Hc as [now series m1 m2 m3 m4 d5 Hp Hi Hv Ha He]. exists series, m1. split; [done|].
  apply insert_task_inv in Hi as (_ & stored & Hstored & ->). apply insert_visibility_inv in Hv as ->.
  apply attached_frame in Ha as [Hcol Hvis]. cbn in *. split.
  - exists now, stored. split; [done|]. unfold task_row. cbn. rewrite Ht, Hcol. by rewrite !lookup_insert_eq.
  - cbn. rewrite Hvis, (placed_frame _ _ _ _ _ Hp). intros vis [->|Hin]%elem_of_cons Hid; [done|].
    apply (Forall_elem _ _ _ Hscopes) in Hin as [row Hrow]. rewrite Hid in Hrow. congruence.
Qed.

(** C29: Round trip. A task created reads back from its rows as commanded: identifier, creator,
    owner, title, description, type, reference, policies, visibility, series placement, and its
    expiration to the second; as a draft. *)
Theorem created_task_reads_back env m seriesID t command value m' :
  series_named (placement_of seriesID (Tasks.create_Placement command)) ->
  made command -> on_the_calendar (Tasks.create_Expiration command) -> scopes_of_tasks m ->
  run env m (Tasks.CreateTask seriesID t command) = (Tasks.CreateTaskStoreAccepted value, m') ->
  Task.ID value = t /\ Task.CreatedBy value = Tasks.create_Actor command /\ Task.TState value = Task.StateDraft /\
  Task.TOwner value = Tasks.create_Owner command /\ Task.TTitle value = Tasks.create_Title command /\
  Task.TDescription value = Tasks.create_Description command /\ Task.Type_ value = Tasks.create_Type command /\
  Task.Reference value = Tasks.create_Reference command /\ Task.Participation value = Tasks.create_Participation command /\
  Task.TAssigneeScope value = Tasks.create_AssigneeScope command /\ Task.TReservationTTL value = Tasks.create_ReservationTTL command /\
  Task.TVisibility value = Tasks.create_Visibility command /\
  Task.Placement value = placement_of seriesID (Tasks.create_Placement command) /\
  Task.Expiration value = to_second (Tasks.create_Expiration command).
Proof.
  intros Hids Hmade Hcal Hscopes Hrun.
  assert (create_outcome seriesID t command m (Tasks.CreateTaskStoreAccepted value) m') as [[[? [=]] _]|[Hc Hfound]].
  { assert (wp env (Tasks.CreateTask seriesID t command) (fun r st => create_outcome seriesID t command m r (st_base st)) (MkTxState m m 0))
      as (st & Hst & Hb)%wp_run by by apply CreateTask_wp.
    rewrite Hrun in Hst, Hb. cbn in Hst, Hb. by rewrite Hb. }
  apply created_inv in Hc as (series & m1 & Hplaced & [(now & stored & Hstored & Hrow) Hscope]); [|done].
  destruct Hfound as [row columns vis Hrow' Hvis Hid Hparse]. rewrite Hrow in Hrow'. injection Hrow' as <- <-.
  apply Hscope in Hvis; [|done]. subst vis. unfold stored_columns in Hstored.
  apply bind_Some in Hstored as (schema & _ & Hstored). apply bind_Some in Hstored as (payload & _ & [= <-]).
  destruct Hparse as [Hi Ho Ht Hd Hy Hr Hs _ Hp Ha Hl Hv Hpl _ _ Hcr _ He]. cbn in *.
  destruct (made_title _ Hmade) as [? Et%NewTitle_again]. destruct (made_description _ Hmade) as [? Ed%NewDescription_again].
  destruct (made_reference _ Hmade) as [? Er%NewReferenceURL_again]. destruct (made_ttl _ Hmade) as [? El%NewReservationTTL_again].
  rewrite ParseTypedID_String in Hi. rewrite ParseTypedID_String in Hcr. rewrite owner_reads_back in Ho. rewrite visibility_reads_back in Hv. rewrite Et in Ht.
  rewrite Ed in Hd. rewrite Er in Hr. rewrite El in Hl. rewrite ParseTaskType_String in Hy. rewrite participation_reads_back in Hp.
  rewrite scope_reads_back in Ha. rewrite expiration_reads_back in He by done. rewrite (placed_placement _ _ _ _ _ Hids Hmade Hplaced) in Hpl.
  injection Hs as Hs. cbn in *. clear Hscope Hrow. simplify_eq. by repeat split.
Qed.

(** An expiration the constructor accepts, past the year 9999 in UTC, is stored as a text the reader of tasks rejects. *)
Theorem accepted_expiration_cannot_be_read_back :
  exists raw now policy, Task.ParseExpirationPolicy raw now = Task.ExpirationPolicyAccepted policy /\
    parseStoredExpiration match expirationSQLColumn policy with Some instant => to_char_utc instant | None => "" end =
      inl (invalid_state "task expiration timestamp is invalid").
Proof.
  exists "9999-12-31T23:59:59-01:00", 0, (Task.ExpiresAt (253402304399 * 10 ^ 9)). by split; vm_compute.
Qed.

End CreationCorrect.
