(* ===== verification/Inbox.v ===== *)
(** * The inbox: notifications

    Models [internal/notification] (the sealed kinds and states, the service) and
    [internal/db/notification_store.go]. *)

From S2P Require Import Prelude.
From S2P Require Import Core.
From S2P Require Import Auth.
From S2P Require Import Database.
From S2P Require Import Tx.
From S2P Require Import DeliveryDB.
Local Open Scope string_scope.
Local Open Scope Z_scope.

Module Notification.

(** ** [notification/service.go]: kinds, states, values *)

Inductive Kind :=
| KindSubmissionCreated | KindSubmissionAccepted | KindSubmissionChangesRequested | KindSubmissionRejected
| KindSubmissionSuperseded | KindSubmissionCommented | KindTaskFunded | KindTaskCancelled | KindTaskExpired
| KindTaskCommented | KindSeriesCommented | KindReservationRequested | KindReservationApproved
| KindReservationDeclined | KindReservationCancelled | KindReservationExpired | KindPayoutReceived
| KindCreditGranted | KindTipReceived | KindCollectibleAwarded | KindCollectibleWithdrawn
| KindCollectibleReleased | KindCreditsReceived.

#[export] Instance Kind_eq_dec : EqDecision Kind.
Proof. solve_decision. Defined.

Definition Kind_String (kind : Kind) : string :=
  match kind with
  | KindSubmissionCreated => "submission_created"
  | KindSubmissionAccepted => "submission_accepted"
  | KindSubmissionChangesRequested => "submission_changes_requested"
  | KindSubmissionRejected => "submission_rejected"
  | KindSubmissionSuperseded => "submission_superseded"
  | KindSubmissionCommented => "submission_commented"
  | KindTaskFunded => "task_funded"
  | KindTaskCancelled => "task_cancelled"
  | KindTaskExpired => "task_expired"
  | KindTaskCommented => "task_commented"
  | KindSeriesCommented => "series_commented"
  | KindReservationRequested => "reservation_requested"
  | KindReservationApproved => "reservation_approved"
  | KindReservationDeclined => "reservation_declined"
  | KindReservationCancelled => "reservation_cancelled"
  | KindReservationExpired => "reservation_expired"
  | KindPayoutReceived => "payout_received"
  | KindCreditGranted => "credit_granted"
  | KindTipReceived => "tip_received"
  | KindCollectibleAwarded => "collectible_awarded"
  | KindCollectibleWithdrawn => "collectible_withdrawn"
  | KindCollectibleReleased => "collectible_released"
  | KindCreditsReceived => "credits_received"
  end.

Definition AllKinds : list Kind :=
  [ KindSubmissionCreated; KindSubmissionAccepted; KindSubmissionChangesRequested; KindSubmissionRejected;
    KindSubmissionSuperseded; KindSubmissionCommented; KindTaskFunded; KindTaskCancelled; KindTaskExpired;
    KindTaskCommented; KindSeriesCommented; KindReservationRequested; KindReservationApproved;
    KindReservationDeclined; KindReservationCancelled; KindReservationExpired; KindPayoutReceived;
    KindCreditGranted; KindTipReceived; KindCollectibleAwarded; KindCollectibleWithdrawn;
    KindCollectibleReleased; KindCreditsReceived ].

Inductive KindResult :=
| KindParsed (Value : Kind)
| KindRejected (Reason : DomainError).

Definition ParseKind (raw : string) : KindResult :=
  match list_find (fun kind => Kind_String kind = raw) AllKinds with
  | Some (_, kind) => KindParsed kind
  | None => KindRejected (NewDomainError ErrorCodeInvalidEnum "unknown notification kind")
  end.

Inductive State := StateUnread | StateRead.

#[export] Instance State_eq_dec : EqDecision State.
Proof. solve_decision. Defined.

Definition State_String (state : State) : string :=
  match state with StateUnread => "unread" | StateRead => "read" end.

Inductive StateResult :=
| StateParsed (Value : State)
| StateRejected (Reason : DomainError).

Definition ParseState (raw : string) : StateResult :=
  switch raw
    [ (State_String StateUnread, StateParsed StateUnread);
      (State_String StateRead, StateParsed StateRead) ]
    (StateRejected (NewDomainError ErrorCodeInvalidEnum "unknown notification state")).

Inductive StateFilter := AnyState | UnreadOnly.

Record Subject := MkSubject { Subject_Kind : string; Subject_ID : string }.
Record Metadata := MkMetadata { Metadata_JSON : string }.

Inductive EventRef := NoSourceEvent | FromEvent (ID : DomainEventID).
Inductive SubjectTitleRef := NoSubjectTitle | TaskSubjectTitle (Title : string).

(** The zero value of [auth.DisplayName]. *)
Definition no_display_name : DisplayName := MkDisplayName "".

Record Notification := MkNotification {
  ID : TypedID KNotification;
  RecipientID : UserID;
  ActorID : UserID;
  ActorDisplayName : DisplayName;
  NKind : Kind;
  NSubject : Subject;
  SubjectTitle : SubjectTitleRef;
  NState : State;
  NMetadata : Metadata;
  Source : EventRef;
  CreatedAt : Z
}.

(** ** [notification/store_results.go] *)

Inductive CreateStoreResult := CreateStoreAccepted | CreateStoreRejected (Reason : DomainError).
Inductive ListStoreResult := ListStoreAccepted (Values : list Notification) (Total : Z) | ListStoreRejected (Reason : DomainError).
Inductive CountStoreResult := CountUnreadCounted (Count : Z) | CountStoreRejected (Reason : DomainError).
Inductive MarkReadStoreResult := MarkReadStoreAccepted (Value : Notification) | MarkReadStoreRejected (Reason : DomainError).

(** ** [db/notification_store.go] *)

Section Store.
Context `{UUIDLib, JSONB}.

Definition source_column (source : EventRef) : option string :=
  match source with FromEvent id => Some (TypedID_String id) | NoSourceEvent => None end.

Definition notification_row (value : Notification) : NotificationRow :=
  MkNotificationRow (TypedID_String (ID value)) (TypedID_String (RecipientID value))
    (TypedID_String (ActorID value)) (Kind_String (NKind value)) (Subject_Kind (NSubject value))
    (Subject_ID (NSubject value)) (State_String (NState value)) (Metadata_JSON (NMetadata value))
    (source_column (Source value)) (CreatedAt value).

Definition Create (value : Notification) : MOf Delivery CreateStoreResult :=
  result ← autocommit (fun d =>
    match insert_notification (notification_row value) d with inl err => inl err | inr d => inr (tt, d) end);
  mret match result with
    | inl _ => CreateStoreRejected (NewDomainError ErrorCodeInvalidState "create notification failed")
    | inr _ => CreateStoreAccepted
    end.

(** *** Reading rows *)

(** A row of [notificationSelectSQL]: the notification with its two joined columns. *)
Record JoinedRow := MkJoinedRow { joined : NotificationRow; joined_name : string; joined_title : string }.

Definition joined_task_title (row : NotificationRow) (d : Delivery) : string :=
  let title task := task_title <$> task_infos d !! task in
  let subject_title := if String.eqb (notif_subject_kind row) "task" then title (notif_subject_id row) else None in
  let submission_title :=
    if String.eqb (notif_subject_kind row) "submission"
    then submission ← submissions (ledger d) !! notif_subject_id row; title (sub_task_id submission) else None in
  match subject_title, submission_title with
  | Some t, _ => t
  | None, Some t => t
  | None, None => ""
  end.

(** The inner join with [users] drops a row whose actor has none. *)
Definition join_row (d : Delivery) (row : NotificationRow) : option JoinedRow :=
  profile ← user_profiles d !! notif_actor row;
  Some (MkJoinedRow row (displayNameSQL profile) (joined_task_title row d)).

(** [order by created_at desc, id desc] *)
Definition newest_first (a b : NotificationRow) : Prop :=
  notif_created_at b < notif_created_at a \/
  notif_created_at a = notif_created_at b /\ String.leb (notif_id b) (notif_id a) = true.

#[export] Instance newest_first_dec a b : Decision (newest_first a b).
Proof. unfold newest_first. solve_decision. Defined.

Definition in_listing (recipient : string) (filter : StateFilter) (row : NotificationRow) : Prop :=
  notif_recipient row = recipient /\
  match filter with UnreadOnly => notif_state row = "unread" | AnyState => True end.

#[export] Instance in_listing_dec recipient filter row : Decision (in_listing recipient filter row).
Proof. unfold in_listing. destruct filter; solve_decision. Defined.

Definition listing (recipient : string) (state : StateFilter) (d : Delivery) : list NotificationRow :=
  merge_sort newest_first (filter (in_listing recipient state) (notifications d)).

Definition sql_page {A} (page : Pagination.Page) (rows : list A) : list A :=
  take (Z.to_nat (Pagination.Limit page)) (drop (Z.to_nat (Pagination.Offset page)) rows).

Definition scanNotificationRow (row : JoinedRow) : MOf Delivery (DomainError + Notification) :=
  let '(MkJoinedRow n rawActorName rawTitle) := row in
  fault ← fault_point;
  if fault : bool then mret (inl (NewDomainError ErrorCodeInvalidState "scan notification failed"))
  else mret
    match ParseTypedID (k:=KNotification) (notif_id n) with
    | TypedIDRejected reason => inl reason
    | TypedIDCreated id =>
    match ParseUserID (notif_recipient n) with
    | TypedIDRejected reason => inl reason
    | TypedIDCreated recipient =>
    match ParseUserID (notif_actor n) with
    | TypedIDRejected reason => inl reason
    | TypedIDCreated actor =>
    match ParseKind (notif_kind n) with
    | KindRejected reason => inl reason
    | KindParsed kind =>
    match ParseState (notif_state n) with
    | StateRejected reason => inl reason
    | StateParsed state =>
    match NewDisplayName rawActorName with
    | DisplayNameRejected reason => inl reason
    | DisplayNameAccepted name =>
        let title :=
          if (String.eqb (notif_subject_kind n) "task" || String.eqb (notif_subject_kind n) "submission") &&
             negb (String.eqb rawTitle "")
          then TaskSubjectTitle rawTitle else NoSubjectTitle in
        let rawEventID := default "" (notif_event_id n) in
        let accept source :=
          inr (MkNotification id recipient actor name kind (MkSubject (notif_subject_kind n) (notif_subject_id n))
                 title state (MkMetadata (notif_metadata_json n)) source (notif_created_at n)) in
        if String.eqb rawEventID "" then accept NoSourceEvent
        else match ParseTypedID (k:=KDomainEvent) rawEventID with
             | TypedIDRejected _ => inl (NewDomainError ErrorCodeInvalidState "notification event id is invalid")
             | TypedIDCreated event => accept (FromEvent event)
             end
    end end end end end end.

Fixpoint scan_rows (rows : list JoinedRow) (values : list Notification) : MOf Delivery (DomainError + list Notification) :=
  match rows with
  | [] => mret (inr values)
  | row :: rows =>
      parsed ← scanNotificationRow row;
      match parsed with
      | inl reason => mret (inl reason)
      | inr value => scan_rows rows (values ++ [value])
      end
  end.

Definition scanNotificationRows (rows : list JoinedRow) (total : Z) : MOf Delivery ListStoreResult :=
  scanned ← scan_rows rows [];
  match scanned with
  | inl reason => mret (ListStoreRejected reason)
  | inr values =>
      fault ← fault_point;
      mret (if fault : bool then ListStoreRejected (NewDomainError ErrorCodeInvalidState "read notifications failed")
            else ListStoreAccepted values total)
  end.

Definition List (recipient : UserID) (state : StateFilter) (page : Pagination.Page) : MOf Delivery ListStoreResult :=
  counted ← pool_query (fun d => inr (Z.of_nat (length (listing (TypedID_String recipient) state d))));
  match counted with
  | inl _ => mret (ListStoreRejected (NewDomainError ErrorCodeInvalidState "count notifications failed"))
  | inr total =>
      rows ← pool_query (fun d => inr (sql_page page (omap (join_row d) (listing (TypedID_String recipient) state d))));
      match rows with
      | inl _ => mret (ListStoreRejected (NewDomainError ErrorCodeInvalidState "list notifications failed"))
      | inr rows => scanNotificationRows rows total
      end
  end.

Definition CountUnread (recipient : UserID) : MOf Delivery CountStoreResult :=
  counted ← pool_query (fun d => inr (Z.of_nat (length (filter (in_listing (TypedID_String recipient) UnreadOnly) (notifications d)))));
  mret match counted with
    | inl _ => CountStoreRejected (NewDomainError ErrorCodeInvalidState "count unread notifications failed")
    | inr count => CountUnreadCounted count
    end.

Definition MarkRead (recipient : UserID) (id : TypedID KNotification) : MOf Delivery MarkReadStoreResult :=
  tag ← autocommit (update_notification_state (TypedID_String id) (TypedID_String recipient) (State_String StateRead));
  match tag with
  | inl _ => mret (MarkReadStoreRejected (NewDomainError ErrorCodeInvalidState "mark notification read failed"))
  | inr O => mret (MarkReadStoreRejected (NewDomainError ErrorCodeNotFound "notification was not found"))
  | inr (S _) =>
      rows ← pool_query (fun d =>
        inr (omap (join_row d) (filter (fun row => notif_id row = TypedID_String id) (notifications d))));
      match rows with
      | inl _ => mret (MarkReadStoreRejected (NewDomainError ErrorCodeInvalidState "read marked notification failed"))
      | inr rows =>
          result ← scanNotificationRows rows 1;
          mret match result with
            | ListStoreRejected reason => MarkReadStoreRejected reason
            | ListStoreAccepted [value] _ => MarkReadStoreAccepted value
            | ListStoreAccepted _ _ => MarkReadStoreRejected (NewDomainError ErrorCodeNotFound "notification was not found")
            end
      end
  end.

(** ** [notification/service.go]: the service *)

Inductive NotifyResult :=
| NotificationCreated (Value : Notification)
| NotificationSkipped
| NotifyRejected (Reason : DomainError).

Definition Notify (recipient actor : UserID) (kind : Kind) (subject : Subject) (metadata : Metadata)
    (source : EventRef) : MOf Delivery NotifyResult :=
  if decide (recipient = actor) then mret NotificationSkipped
  else
    idResult ← NewNotificationID;
    match idResult with
    | TypedIDRejected reason => mret (NotifyRejected reason)
    | TypedIDCreated id =>
        now ← current_time;
        let value := MkNotification id recipient actor no_display_name kind subject NoSubjectTitle StateUnread
                       metadata source now in
        stored ← Create value;
        mret match stored with
          | CreateStoreRejected reason => NotifyRejected reason
          | CreateStoreAccepted => NotificationCreated value
          end
    end.

Inductive ListResult := NotificationsListed (Values : list Notification) (Total : Z) | ListRejected (Reason : DomainError).
Inductive CountResult := UnreadCounted (Count : Z) | CountRejected (Reason : DomainError).
Inductive MarkReadResult := NotificationRead (Value : Notification) | MarkReadRejected (Reason : DomainError).

Definition Service_List (recipient : UserID) (state : StateFilter) (page : Pagination.Page) : MOf Delivery ListResult :=
  result ← List recipient state page;
  mret match result with
    | ListStoreAccepted values total => NotificationsListed values total
    | ListStoreRejected reason => ListRejected reason
    end.

Definition Service_CountUnread (recipient : UserID) : MOf Delivery CountResult :=
  result ← CountUnread recipient;
  mret match result with
    | CountUnreadCounted count => UnreadCounted count
    | CountStoreRejected reason => CountRejected reason
    end.

Definition Service_MarkRead (recipient : UserID) (id : TypedID KNotification) : MOf Delivery MarkReadResult :=
  result ← MarkRead recipient id;
  mret match result with
    | MarkReadStoreAccepted value => NotificationRead value
    | MarkReadStoreRejected reason => MarkReadRejected reason
    end.
End Store.
End Notification.
