(* ===== verification/EventStore.v ===== *)
(** * The event store: dispatch, recovery and feeds

    Models the rest of [internal/event/model.go] and [draft.go] (stored events,
    cursors), [internal/db/event_store.go] beyond recording, and
    [expandWebhookDeliveries] of [internal/db/webhook_store.go]. *)

From S2P Require Import Prelude.
From S2P Require Import Core.
From S2P Require Import Events.
From S2P Require Import Json.
From S2P Require Import Database.
From S2P Require Import Tx.
From S2P Require Import Outbox.
From S2P Require Import DeliveryDB.
From S2P Require Import Auth.
From S2P Require Import Inbox.
Local Open Scope string_scope.
Local Open Scope Z_scope.

(** ** [event/model.go]: events, stored events and cursors *)

Record Event := MkEvent {
  Event_ID : DomainEventID;
  Event_Kind : Kind;
  Event_Actor : Actor;
  Event_Subject : Subject;
  Event_Metadata : Metadata;
  Event_OccurredAt : Z
}.

Inductive ActorNameRef := NoActorName | ActorNamed (DisplayName : DisplayName).
Inductive TaskTitleRef := NoTaskTitle | TaskTitled (Title : string).

Record StoredEvent := MkStoredEvent {
  Stored_Event : Event;
  Stored_Cursor : Cursor;
  Stored_ActorName : ActorNameRef;
  Stored_TaskTitle : TaskTitleRef
}.

Definition WithoutEnrichment (value : StoredEvent) : StoredEvent :=
  MkStoredEvent (Stored_Event value) (Stored_Cursor value) NoActorName NoTaskTitle.

Definition CursorFromSequence (sequence : Z) : Cursor := MkCursor sequence.
Definition Cursor_String (cursor : Cursor) : string := FormatInt (Sequence cursor).

Inductive CursorResult := CursorParsed (Value : Cursor) | CursorRejected (Reason : DomainError).

Definition ParseCursor (raw : string) : CursorResult :=
  let rejected := CursorRejected (NewDomainError ErrorCodeInvalidArgument "event cursor must be a non-negative integer") in
  match ParseInt (to_bytes raw) with
  | Some sequence => if sequence <? 0 then rejected else CursorParsed (MkCursor sequence)
  | None => rejected
  end.

Inductive CursorFilter := FromStart | After (Cursor : Cursor).

(** [draft.Event(occurredAt)]: instants are points in time, [UTC] changes none. *)
Definition Draft_Event (draft : Draft) (occurredAt : Z) : Event :=
  MkEvent (Draft_ID draft) (Draft_Kind draft) (Draft_Actor draft) (Draft_Subject draft) (Draft_Metadata draft) occurredAt.

(** ** [event/store.go] *)

Inductive AppendStoreResult := AppendStoreAccepted (Value : StoredEvent) | AppendStoreRejected (Reason : DomainError).
Inductive DispatchStoreResult := DispatchStoreCompleted | DispatchStoreRejected (Reason : DomainError).
Inductive ListStoreResult := ListStoreAccepted (Values : list StoredEvent) | ListStoreRejected (Reason : DomainError).

Section EventStore.
Context `{UUIDLib, JSONB}.

(** ** [Append] *)

Definition Append (draft : Draft) (occurredAt : Z) : MOf Delivery AppendStoreResult :=
  err ← begin_tx;
  match err with
  | Some _ => mret (AppendStoreRejected (NewDomainError ErrorCodeInvalidState "begin event append failed"))
  | None =>
      inserted ← on_ledger (insertDomainEventInTx draft occurredAt);
      match inserted with
      | inl _ => mret (AppendStoreRejected (NewDomainError ErrorCodeInvalidState "append domain event failed"))
      | inr sequence =>
          err ← commit_tx;
          mret match err with
            | Some _ => AppendStoreRejected (NewDomainError ErrorCodeInvalidState "commit event append failed")
            | None => AppendStoreAccepted (WithoutEnrichment
                        (MkStoredEvent (Draft_Event draft occurredAt) (CursorFromSequence sequence) NoActorName NoTaskTitle))
            end
      end
  end.

(** ** [expandWebhookDeliveries] *)

(** The predicate of the subscription query, for one event row. *)
Definition recipient_match (d : Delivery) (e : EventRow) (s : SubscriptionRow) : bool :=
  String.eqb (ws_owner_kind s) "user" &&
    match ws_owner_user_id s with
    | Some owner => bool_decide ((ev_seq e, owner) ∈ event_recipients d)
    | None => false
    end ||
  String.eqb (ws_owner_kind s) "organization" &&
    match ev_organization_id e, ws_owner_organization_id s with
    | Some organization, Some owner => String.eqb organization owner
    | _, _ => false
    end.

Definition marketplace_match (d : Delivery) (e : EventRow) (s : SubscriptionRow) : bool :=
  String.eqb (ev_kind e) "task_opened" &&
  match ev_task_id e with
  | None => false
  | Some task =>
      match tasks (ledger d) !! task, task_infos d !! task with
      | Some row, Some info =>
          String.eqb (task_state row) "open" && task_public info &&
          match ws_filter_task_type s with
          | None => true
          | Some task_type => String.eqb (task_task_type info) task_type
          end &&
          match ws_filter_min_credit_reward s with
          | None => true
          | Some minimum => minimum <=? default 0 (task_reward_credit_amount row)
          end
      | _, _ => false
      end
  end.

Definition subscription_matches (d : Delivery) (e : EventRow) (s : SubscriptionRow) : bool :=
  String.eqb (ws_state s) "active" && bool_decide (ev_kind e ∈ ws_kinds s) &&
  (String.eqb (ws_audience s) "recipient" && recipient_match d e s ||
   String.eqb (ws_audience s) "marketplace" && marketplace_match d e s).

Definition matching_subscriptions (sequence : Z) (d : Delivery) : list string :=
  match find (fun e => ev_seq e =? sequence) (events d) with
  | None => []
  | Some e => ws_id <$> filter (subscription_matches d e) (webhook_subscriptions d)
  end.

(** The loop over the rows of the query: each scan may fail. *)
Fixpoint scan_ids (rows : list string) : MOf Delivery bool :=
  match rows with
  | [] => fault_point
  | _ :: rows =>
      fault ← fault_point;
      if fault : bool then mret true else scan_ids rows
  end.

(** One pending row per subscription; the error, or the number inserted. *)
Fixpoint insert_deliveries (sequence : Z) (subscriptions : list string) (inserted : nat) : MOf Delivery (StmtError + nat) :=
  match subscriptions with
  | [] => mret (inr inserted)
  | subscription :: subscriptions =>
      idResult ← NewWebhookDeliveryID;
      match idResult with
      | TypedIDRejected _ => mret (inl ErrOther)
      | TypedIDCreated id =>
          now ← transaction_time;
          count ← stmt (insert_delivery (MkDeliveryRow (TypedID_String id) subscription sequence "pending" 0 now ""));
          match count with
          | inl err => mret (inl err)
          | inr count => insert_deliveries sequence subscriptions (inserted + count)
          end
      end
  end.

Definition expandWebhookDeliveries (sequence : Z) : MOf Delivery (StmtError + nat) :=
  rows ← query_rows (matching_subscriptions sequence);
  match rows with
  | inl err => mret (inl err)
  | inr rows =>
      fault ← scan_ids rows;
      if fault : bool then mret (inl ErrOther) else insert_deliveries sequence rows 0
  end.

(** ** [Dispatch] *)

Definition event_by_id (id : string) (d : Delivery) : StmtError + EventRow :=
  match find (fun e => String.eqb (ev_id e) id) (events d) with
  | Some e => inr e
  | None => inl ErrNoRows
  end.

Definition is_recorded (e : EventRow) : bool := String.eqb (ev_dispatch_state e) (DispatchState_String DispatchStateRecorded).

Definition mark_dispatched (sequence : Z) (d : Delivery) : StmtError + Delivery :=
  inr (set_states (DispatchState_String DispatchStateDispatched)
         (fun e => (ev_seq e =? sequence) && is_recorded e) d).

Definition Dispatch (id : DomainEventID) : MOf Delivery DispatchStoreResult :=
  let rejected message := DispatchStoreRejected (NewDomainError ErrorCodeInvalidState message) in
  err ← begin_tx;
  match err with
  | Some _ => mret (rejected "begin event dispatch failed")
  | None =>
      row ← query_row (event_by_id (TypedID_String id));
      match row with
      | inl ErrNoRows => mret DispatchStoreCompleted
      | inl _ => mret (rejected "lock event for dispatch failed")
      | inr e =>
          match ParseDispatchState (ev_dispatch_state e) with
          | DispatchStateRejected reason => mret (DispatchStoreRejected reason)
          | DispatchStateParsed DispatchStateDispatched | DispatchStateParsed DispatchStateFailed =>
              mret DispatchStoreCompleted
          | DispatchStateParsed DispatchStateRecorded =>
              expanded ← expandWebhookDeliveries (ev_seq e);
              match expanded with
              | inl _ => mret (rejected "expand webhook deliveries failed")
              | inr _ =>
                  err ← exec (mark_dispatched (ev_seq e));
                  match err with
                  | Some _ => mret (rejected "mark event dispatched failed")
                  | None =>
                      err ← commit_tx;
                      mret match err with
                        | Some _ => rejected "commit event dispatch failed"
                        | None => DispatchStoreCompleted
                        end
                  end
              end
          end
      end
  end.

(** ** [parseStoredEventColumns] *)

(** A nullable reference column: [None] when it holds no identifier. *)
Definition parse_ref {k R} (absent : R) (present : TypedID k -> R) (raw : option string) : option R :=
  match raw with
  | None => Some absent
  | Some raw => match ParseTypedID (k:=k) raw with TypedIDCreated id => Some (present id) | TypedIDRejected _ => None end
  end.

Definition parsed_id {k} (raw : string) : option (TypedID k) :=
  match ParseTypedID (k:=k) raw with TypedIDCreated id => Some id | TypedIDRejected _ => None end.

Definition parseStoredEventColumns (e : EventRow) : option StoredEvent :=
  id ← parsed_id (k:=KDomainEvent) (ev_id e);
  kind ← match ParseKind (ev_kind e) with KindParsed kind => Some kind | KindRejected _ => None end;
  user ← parsed_id (k:=KUser) (ev_actor_user_id e);
  let actor := if String.eqb (ev_actor_kind e) "system" then ActorSystem else ActorUser user in
  task ← parse_ref NoTask TaskSubject (ev_task_id e);
  submission ← parse_ref NoSubmission SubmissionSubject (ev_submission_id e);
  reservation ← parse_ref NoReservation ReservationSubject (ev_reservation_id e);
  series ← parse_ref NoSeries SeriesSubject (ev_series_id e);
  organization ← parse_ref NoOrganization OrganizationSubject (ev_organization_id e);
  collectible ← parse_ref NoCollectible CollectibleSubject (ev_collectible_id e);
  metadata ← jsonb (ev_metadata_json e);
  Some (WithoutEnrichment (MkStoredEvent
    (MkEvent id kind actor (MkSubject task submission reservation series organization collectible)
       (MkMetadata metadata) (ev_occurred_at e))
    (CursorFromSequence (ev_seq e)) NoActorName NoTaskTitle)).

(** ** [ListRecordedBefore] *)

Definition MaxEventDispatchAttempts : Z := 20.

Inductive ListRecordedResult :=
| RecordedEventsListed (Values : list Draft) (SkippedMalformed : nat)
| ListRecordedRejected (Reason : DomainError).

(** The first statement: rows whose attempts are used up are retired. *)
Definition stale (cutoff : Z) (e : EventRow) : bool := is_recorded e && (ev_occurred_at e <=? cutoff).

Definition retire_exhausted (cutoff : Z) (d : Delivery) : Delivery :=
  set_states (DispatchState_String DispatchStateFailed)
    (fun e => stale cutoff e && (MaxEventDispatchAttempts <=? attempts d (ev_seq e))) d.

(** [order by seq] *)
Definition by_seq (a b : EventRow) : Prop := ev_seq a <= ev_seq b.
#[export] Instance by_seq_dec a b : Decision (by_seq a b).
Proof. unfold by_seq. solve_decision. Defined.

(** The second statement: the [limit] oldest stale rows are claimed, one attempt
    each, and returned. *)
Definition claimed (cutoff : Z) (limit : nat) (d : Delivery) : list EventRow :=
  take limit (merge_sort by_seq (filter (stale cutoff) (events d))).

Definition count_attempt (rows : list EventRow) (d : Delivery) : Delivery :=
  with_attempts (foldr (fun e a => <[ev_seq e := attempts d (ev_seq e) + 1]> a) (dispatch_attempts d) rows) d.

(** Rows come back in no particular order, as the table holds them here. *)
Definition claim (cutoff : Z) (limit : nat) (d : Delivery) : list EventRow * Delivery :=
  let rows := claimed cutoff limit d in
  (filter (fun e => bool_decide (ev_seq e ∈ ev_seq <$> rows)) (events d), count_attempt rows d).

(** The row loop of [ListRecordedBefore]: what parses, and how many do not. *)
Fixpoint scan_stored (rows : list EventRow) (stored : list StoredEvent) (skipped : nat) :
    MOf Delivery (list StoredEvent * nat) :=
  match rows with
  | [] => mret (stored, skipped)
  | row :: rows =>
      fault ← fault_point;
      match (if fault : bool then None else parseStoredEventColumns row) with
      | None => scan_stored rows stored (S skipped)
      | Some value => scan_stored rows (stored ++ [value]) skipped
      end
  end.

(** [sort.Slice] by sequence: the sequences are distinct. *)
Definition by_cursor (a b : StoredEvent) : Prop := Sequence (Stored_Cursor a) <= Sequence (Stored_Cursor b).
#[export] Instance by_cursor_dec a b : Decision (by_cursor a b).
Proof. unfold by_cursor. solve_decision. Defined.

Fixpoint scan_recipients (rows : list string) (users : list UserID) : MOf Delivery (option (list UserID)) :=
  match rows with
  | [] => fault ← fault_point; mret (if fault : bool then None else Some users)
  | raw :: rows =>
      fault ← fault_point;
      if fault : bool then mret None
      else match ParseUserID raw with
           | TypedIDRejected _ => mret None
           | TypedIDCreated user => scan_recipients rows (users ++ [user])
           end
  end.

Definition eventRecipients (sequence : Z) : MOf Delivery (option Recipients) :=
  rows ← pool_query (fun d => inr ((filter (fun r => r.1 = sequence) (event_recipients d)).*2));
  match rows with
  | inl _ => mret None
  | inr rows => users ← scan_recipients rows []; mret (NewRecipients <$> users)
  end.

Definition stored_draft (value : StoredEvent) (recipients : Recipients) : Draft :=
  let e := Stored_Event value in
  MkDraft (Event_ID e) (Event_Kind e) (Event_Actor e) (Event_Subject e) (Event_Metadata e) recipients.

Fixpoint rebuild_drafts (stored : list StoredEvent) (drafts : list Draft) (skipped : nat) : MOf Delivery (list Draft * nat) :=
  match stored with
  | [] => mret (drafts, skipped)
  | value :: stored =>
      recipients ← eventRecipients (Sequence (Stored_Cursor value));
      match recipients with
      | None => rebuild_drafts stored drafts (S skipped)
      | Some recipients => rebuild_drafts stored (drafts ++ [stored_draft value recipients]) skipped
      end
  end.

Definition ListRecordedBefore (cutoff : Z) (limit : nat) : MOf Delivery ListRecordedResult :=
  let rejected message := ListRecordedRejected (NewDomainError ErrorCodeInvalidState message) in
  retired ← autocommit (fun d => inr (tt, retire_exhausted cutoff d));
  match retired with
  | inl _ => mret (rejected "retire exhausted recorded events failed")
  | inr _ =>
      rows ← autocommit (fun d => inr (claim cutoff limit d));
      match rows with
      | inl _ => mret (rejected "list recorded events failed")
      | inr rows =>
          '(stored, skipped) ← scan_stored rows [] 0;
          fault ← fault_point;
          if fault : bool then mret (rejected "iterate recorded events failed")
          else
            '(drafts, skipped) ← rebuild_drafts (merge_sort by_cursor stored) [] skipped;
            mret (RecordedEventsListed drafts skipped)
      end
  end.

(** ** [ListDispatchFailed] *)

Record FailedEventRow := MkFailedEventRow {
  Failed_Sequence : Z;
  Failed_EventID : string;
  Failed_Kind : string;
  Failed_Attempts : Z;
  Failed_OccurredAt : Z
}.

Inductive ListDispatchFailedResult :=
| DispatchFailedEventsListed (Values : list FailedEventRow)
| ListDispatchFailedRejected (Reason : DomainError).

Definition failed_row (d : Delivery) (e : EventRow) : FailedEventRow :=
  MkFailedEventRow (ev_seq e) (ev_id e) (ev_kind e) (attempts d (ev_seq e)) (ev_occurred_at e).

Fixpoint scan_failed (rows values : list FailedEventRow) : MOf Delivery ListDispatchFailedResult :=
  fault ← fault_point;
  match rows with
  | [] =>
      mret (if fault : bool
            then ListDispatchFailedRejected (NewDomainError ErrorCodeInvalidState "iterate dispatch-failed events failed")
            else DispatchFailedEventsListed values)
  | row :: rows =>
      if fault : bool
      then mret (ListDispatchFailedRejected (NewDomainError ErrorCodeInvalidState "scan dispatch-failed event failed"))
      else scan_failed rows (values ++ [row])
  end.

Definition ListDispatchFailed (limit : nat) : MOf Delivery ListDispatchFailedResult :=
  rows ← pool_query (fun d =>
    inr (failed_row d <$> take limit (merge_sort by_seq
           (filter (fun e => ev_dispatch_state e = DispatchState_String DispatchStateFailed) (events d)))));
  match rows with
  | inl _ => mret (ListDispatchFailedRejected (NewDomainError ErrorCodeInvalidState "list dispatch-failed events failed"))
  | inr rows => scan_failed rows []
  end.

(** ** Feeds *)

(** A feed row: the event with the columns of the joined [users] and [tasks]. *)
Record FeedRow := MkFeedRow { feed_event : EventRow; feed_actor_name : string; feed_task_title : string }.

Definition feed_row (d : Delivery) (e : EventRow) : option FeedRow :=
  profile ← user_profiles d !! ev_actor_user_id e;
  Some (MkFeedRow e (displayNameSQL profile)
    (default "" (task ← ev_task_id e; task_title <$> task_infos d !! task))).

Definition scanEnrichedFeedEvent (row : FeedRow) : MOf Delivery (option StoredEvent) :=
  fault ← fault_point;
  mret (if fault : bool then None
        else
          stored ← parseStoredEventColumns (feed_event row);
          match NewDisplayName (feed_actor_name row) with
          | DisplayNameRejected _ => None
          | DisplayNameAccepted name =>
              Some (MkStoredEvent (Stored_Event stored) (Stored_Cursor stored) (ActorNamed name)
                (if String.eqb (feed_task_title row) "" then NoTaskTitle else TaskTitled (feed_task_title row)))
          end).

Fixpoint scan_feed (rows : list FeedRow) (values : list StoredEvent) : MOf Delivery ListStoreResult :=
  match rows with
  | [] =>
      fault ← fault_point;
      mret (if fault : bool then ListStoreRejected (NewDomainError ErrorCodeInvalidState "iterate events failed")
            else ListStoreAccepted values)
  | row :: rows =>
      stored ← scanEnrichedFeedEvent row;
      match stored with
      | None => mret (ListStoreRejected (NewDomainError ErrorCodeInvalidState "scan event failed"))
      | Some stored => scan_feed rows (values ++ [stored])
      end
  end.

(** [visible] is the owner predicate of the query. *)
Definition listEnrichedFeedPage (visible : Delivery -> EventRow -> bool) (filter_ : CursorFilter) (page : Pagination.Page) :
    MOf Delivery ListStoreResult :=
  let afterSequence := match filter_ with After cursor => Sequence cursor | FromStart => 0 end in
  rows ← pool_query (fun d =>
    inr (Notification.sql_page page (omap (feed_row d)
           (merge_sort by_seq (filter (fun e => visible d e && (afterSequence <? ev_seq e)) (events d))))));
  match rows with
  | inl _ => mret (ListStoreRejected (NewDomainError ErrorCodeInvalidState "list events failed"))
  | inr rows => scan_feed rows []
  end.

Definition ListForRecipient (recipient : UserID) : CursorFilter -> Pagination.Page -> MOf Delivery ListStoreResult :=
  listEnrichedFeedPage (fun d e => bool_decide ((ev_seq e, TypedID_String recipient) ∈ event_recipients d)).

Definition ListForOrganization (organizationID : OrganizationID) : CursorFilter -> Pagination.Page -> MOf Delivery ListStoreResult :=
  listEnrichedFeedPage (fun _ e => bool_decide (ev_organization_id e = Some (TypedID_String organizationID))).
End EventStore.
