(* ===== verification/Recorder.v ===== *)
(** * The recorder: event dispatch and its recovery sweep

    Models [internal/event/recorder.go] and the [event_dispatch] sweep of
    [cmd/sharecrop/lifecycle.go]. *)

From S2P Require Import Prelude.
From S2P Require Import Core.
From S2P Require Import Events.
From S2P Require Import Database.
From S2P Require Import Tx.
From S2P Require Import DeliveryDB.
From S2P Require Import Inbox.
From S2P Require Import EventStore.
Local Open Scope string_scope.
Local Open Scope Z_scope.

(** ** Which kinds notify, and about what *)

Inductive NotificationRule := NoNotification | NotifyAs (Kind : Notification.Kind).

Definition NotificationRuleFor (kind : Kind) : NotificationRule :=
  match kind with
  | KindTaskOpened => NoNotification
  | KindTaskFunded => NotifyAs Notification.KindTaskFunded
  | KindTaskCancelled => NotifyAs Notification.KindTaskCancelled
  | KindTaskExpired => NotifyAs Notification.KindTaskExpired
  | KindTaskCommented => NotifyAs Notification.KindTaskCommented
  | KindSeriesCommented => NotifyAs Notification.KindSeriesCommented
  | KindReservationRequested => NotifyAs Notification.KindReservationRequested
  | KindReservationApproved => NotifyAs Notification.KindReservationApproved
  | KindReservationDeclined => NotifyAs Notification.KindReservationDeclined
  | KindReservationCancelled => NotifyAs Notification.KindReservationCancelled
  | KindReservationExpired => NotifyAs Notification.KindReservationExpired
  | KindSubmissionCreated => NotifyAs Notification.KindSubmissionCreated
  | KindSubmissionAccepted => NotifyAs Notification.KindSubmissionAccepted
  | KindSubmissionChangesRequested => NotifyAs Notification.KindSubmissionChangesRequested
  | KindSubmissionRejected => NotifyAs Notification.KindSubmissionRejected
  | KindSubmissionSuperseded => NotifyAs Notification.KindSubmissionSuperseded
  | KindSubmissionCommented => NotifyAs Notification.KindSubmissionCommented
  | KindPayoutReceived => NotifyAs Notification.KindPayoutReceived
  | KindCreditGranted => NotifyAs Notification.KindCreditGranted
  | KindTipReceived => NotifyAs Notification.KindTipReceived
  | KindCollectibleAwarded => NotifyAs Notification.KindCollectibleAwarded
  | KindCollectibleWithdrawn => NotifyAs Notification.KindCollectibleWithdrawn
  | KindCollectibleReleased => NotifyAs Notification.KindCollectibleReleased
  | KindCreditsSent => NotifyAs Notification.KindCreditsReceived
  end.

Section Recorder.
Context `{UUIDLib, JSONB}.

(** The most specific reference of the event. *)
Definition NotificationSubjectFor (subject : Subject) : Notification.Subject :=
  match Subject_Submission subject, Subject_Collectible subject, Subject_Task subject,
        Subject_Series subject, Subject_Organization subject with
  | SubmissionSubject id, _, _, _, _ => Notification.MkSubject "submission" (TypedID_String id)
  | _, CollectibleSubject id, _, _, _ => Notification.MkSubject "collectible" (TypedID_String id)
  | _, _, TaskSubject id, _, _ => Notification.MkSubject "task" (TypedID_String id)
  | _, _, _, SeriesSubject id, _ => Notification.MkSubject "series" (TypedID_String id)
  | _, _, _, _, OrganizationSubject id => Notification.MkSubject "organization" (TypedID_String id)
  | _, _, _, _, _ => Notification.MkSubject "platform" ""
  end.

(** ** Fan-out *)

(** The loop over the recipients: a rejected leg is remembered, the others go on. *)
Fixpoint notify_all (draft : Draft) (kind : Notification.Kind) (recipients : list UserID) (completed : bool) :
    MOf Delivery bool :=
  match recipients with
  | [] => mret completed
  | recipient :: recipients =>
      result ← Notification.Notify recipient (ActorUserID (Draft_Actor draft)) kind
                 (NotificationSubjectFor (Draft_Subject draft))
                 (Notification.MkMetadata (Metadata_JSON (Draft_Metadata draft)))
                 (Notification.FromEvent (Draft_ID draft));
      notify_all draft kind recipients
        match result with Notification.NotifyRejected _ => false | _ => completed end
  end.

Definition fanOutNotifications (draft : Draft) : MOf Delivery bool :=
  match NotificationRuleFor (Draft_Kind draft) with
  | NoNotification => mret true
  | NotifyAs kind => notify_all draft kind (Users (Draft_Recipients draft)) true
  end.

(** ** [Dispatch] *)

Definition dispatch_draft (draft : Draft) : MOf Delivery unit :=
  completed ← fanOutNotifications draft;
  if completed : bool then _ ← EventStore.Dispatch (Draft_ID draft); mret tt else mret tt.

Fixpoint Dispatch (drafts : list Draft) : MOf Delivery unit :=
  match drafts with
  | [] => mret tt
  | draft :: drafts => _ ← dispatch_draft draft; Dispatch drafts
  end.

(** ** [cmd/sharecrop/lifecycle.go]: the recovery sweep; instants are nanoseconds *)

Definition eventDispatchGracePeriod : Z := 10 * 10 ^ 9.
Definition eventDispatchSweepBatch : nat := 200.

(** The error of the sweep, if any; the log line is left out. *)
Definition sweepRecordedEvents : MOf Delivery (option DomainError) :=
  now ← current_time;
  result ← ListRecordedBefore (now - eventDispatchGracePeriod) eventDispatchSweepBatch;
  match result with
  | ListRecordedRejected reason => mret (Some reason)
  | RecordedEventsListed drafts _ => _ ← Dispatch drafts; mret None
  end.
End Recorder.
