(* ===== verification/DeliverySpecs.v ===== *)
(** * What dispatch does to the tables

    The recorder, the event store and the sweep run symbolically in every
    environment: each operation is given a relation between the tables before and
    after, whatever statements fail on the way. *)

From S2P Require Import Prelude.
From S2P Require Import Core.
From S2P Require Import Events.
From S2P Require Import Database.
From S2P Require Import Tx.
From S2P Require Import Outbox.
From S2P Require Import DeliveryDB.
From S2P Require Import Inbox.
From S2P Require Import EventStore.
From S2P Require Import Recorder.
Local Open Scope string_scope.
Local Open Scope Z_scope.

Class JSONBLaws `{JSONB} := { jsonb_idempotent : forall s t, jsonb s = Some t -> jsonb t = Some t }.

Section Specs.
Context `{UUIDLaws, JSONB}.

(** ** Fan-out *)

(** [d] holds an inbox row for the event and the user. *)
Definition has_inbox (d : Delivery) (event user : string) : Prop :=
  exists n, n ∈ notifications d /\ notif_event_id n = Some event /\ notif_recipient n = user.

(** A row that notifies a recipient of [draft] who is not its actor. *)
Record from_draft (draft : Draft) (kind : Notification.Kind) (n : NotificationRow) : Prop := {
  from_event : notif_event_id n = Some (TypedID_String (Draft_ID draft));
  from_actor : notif_actor n = TypedID_String (ActorUserID (Draft_Actor draft));
  from_kind : notif_kind n = Notification.Kind_String kind;
  from_subject : Notification.MkSubject (notif_subject_kind n) (notif_subject_id n) =
                   NotificationSubjectFor (Draft_Subject draft);
  from_state : notif_state n = "unread";
  from_recipient : exists u, u ∈ Users (Draft_Recipients draft) /\ u <> ActorUserID (Draft_Actor draft) /\
                     notif_recipient n = TypedID_String u
}.

(** One inbox row more. *)
Inductive notified (draft : Draft) : Delivery -> Delivery -> Prop :=
| notified_one kind n d :
    NotificationRuleFor (Draft_Kind draft) = NotifyAs kind -> from_draft draft kind n ->
    ~ Exists (same_source n) (notifications d) ->
    notified draft d (with_notifications (n :: notifications d) d).

(** Every recipient but the actor has a row, when the kind notifies. *)
Definition fanned (draft : Draft) (d : Delivery) : Prop :=
  forall kind u, NotificationRuleFor (Draft_Kind draft) = NotifyAs kind ->
    u ∈ Users (Draft_Recipients draft) -> u <> ActorUserID (Draft_Actor draft) ->
    has_inbox d (TypedID_String (Draft_ID draft)) (TypedID_String u).

Lemma has_inbox_notified draft d d' event user : notified draft d d' -> has_inbox d event user -> has_inbox d' event user.
Proof. intros [] (m & Hm & ?). exists m. split; [by right|done]. Qed.

Lemma has_inbox_notified_all draft d d' event user :
  rtc (notified draft) d d' -> has_inbox d event user -> has_inbox d' event user.
Proof. induction 1; [done|]. intros ?. by eapply IHrtc, has_inbox_notified. Qed.

(** What a leg needs to succeed: the row can be inserted. *)
Lemma insert_notification_cases row d :
  match insert_notification row d with
  | inl _ => True
  | inr d' => exists n, stored_notification row = Some n /\
      ((d' = d /\ Exists (same_source n) (notifications d)) \/
       (d' = with_notifications (n :: notifications d) d /\ ~ Exists (same_source n) (notifications d)))
  end.
Proof.
  unfold insert_notification. destruct (stored_notification row) as [n|]; [|done].
  case_bool_decide as Hs; [eauto 6|]. case_bool_decide; [done|]. case_bool_decide; cbn; [|done]. eauto 6.
Qed.

Lemma stored_notification_columns row n :
  stored_notification row = Some n ->
  notif_event_id n = notif_event_id row /\ notif_actor n = notif_actor row /\ notif_kind n = notif_kind row /\
  notif_subject_kind n = notif_subject_kind row /\ notif_subject_id n = notif_subject_id row /\
  notif_state n = notif_state row /\ notif_recipient n = notif_recipient row.
Proof. unfold stored_notification. destruct (jsonb _); cbn; [|done]. by intros [= <-]. Qed.

Section Wp.
Context {env : Env}.
Implicit Types (st : TxStateOf Delivery).

(** One leg of the fan-out. *)
Lemma Notify_wp draft kind u st (Q : Notification.NotifyResult -> TxStateOf Delivery -> Prop) :
  NotificationRuleFor (Draft_Kind draft) = NotifyAs kind -> u ∈ Users (Draft_Recipients draft) ->
  (forall r st', rtc (notified draft) (st_base st) (st_base st') ->
     match r with
     | Notification.NotifyRejected _ => True
     | _ => u <> ActorUserID (Draft_Actor draft) ->
         has_inbox (st_base st') (TypedID_String (Draft_ID draft)) (TypedID_String u)
     end -> Q r st') ->
  wp env (Notification.Notify u (ActorUserID (Draft_Actor draft)) kind (NotificationSubjectFor (Draft_Subject draft))
    (Notification.MkMetadata (Metadata_JSON (Draft_Metadata draft))) (Notification.FromEvent (Draft_ID draft))) Q st.
Proof.
  intros Hrule Hu HQ. unfold Notification.Notify. case_decide as Hself; [by apply wp_ret, HQ|].
  wp_prim. wp_prim. destruct r as [id|reason]; [|by apply wp_ret, HQ]. wp_prim. wp_prim.
  apply wp_bind. unfold Notification.Create. apply wp_bind, wp_autocommit; [by apply wp_ret, wp_ret, HQ|]. cbn [tick st_base].
  set (row := Notification.notification_row _). pose proof (insert_notification_cases row (st_base st)) as Hcases.
  destruct (insert_notification row (st_base st)) as [err|d']; [by apply wp_ret, wp_ret, HQ|].
  destruct Hcases as (n & Hn & Hd). apply stored_notification_columns in Hn as (He & Ha & Hk & Hsk & Hsi & Hst & Hr).
  cbn in He, Ha, Hk, Hsk, Hsi, Hst, Hr. apply wp_ret, wp_ret, HQ; cbn [st_base].
  - destruct Hd as [[-> _]|[-> Hnew]]; [done|]. apply rtc_once. apply (notified_one _ kind); [done| |done].
    split; [done..| | |]; [|done|by exists u].
    rewrite Hsk, Hsi. by destruct (NotificationSubjectFor _).
  - intros _. destruct Hd as [[-> Hs]|[-> _]].
    + apply Exists_exists in Hs as (m & Hm & _ & Hme & Hmr). exists m. rewrite Hme, Hmr, He, Hr. by apply list_elem_of_In in Hm.
    + exists n. rewrite He, Hr. split; [by left|done].
Qed.

Lemma notify_all_wp draft kind us completed st (Q : bool -> TxStateOf Delivery -> Prop) :
  NotificationRuleFor (Draft_Kind draft) = NotifyAs kind -> us ⊆ Users (Draft_Recipients draft) ->
  (forall b st', rtc (notified draft) (st_base st) (st_base st') ->
     (b = true -> completed = true /\ forall u, u ∈ us -> u <> ActorUserID (Draft_Actor draft) ->
        has_inbox (st_base st') (TypedID_String (Draft_ID draft)) (TypedID_String u)) -> Q b st') ->
  wp env (notify_all draft kind us completed) Q st.
Proof.
  intros Hrule. revert completed st. induction us as [|u us IH]; intros completed st Hus HQ; cbn [notify_all].
  - apply wp_ret, HQ; [done|]. intros ->. split; [done|]. intros u Hu. by apply elem_of_nil in Hu.
  - apply wp_bind, (Notify_wp draft kind); [done|set_solver|]. intros r st1 Hst1 Hr.
    apply IH; [set_solver|]. intros b st2 Hst2 Hb. apply HQ; [by etrans|].
    intros ->. destruct (Hb eq_refl) as [Hc Hall]. split; [by destruct r|].
    intros v [->|Hv]%elem_of_cons Hne; [|by apply Hall].
    eapply has_inbox_notified_all; [exact Hst2|]. destruct r; [by apply Hr..|done].
Qed.

Lemma fanOutNotifications_wp draft st (Q : bool -> TxStateOf Delivery -> Prop) :
  (forall b st', rtc (notified draft) (st_base st) (st_base st') -> (b = true -> fanned draft (st_base st')) -> Q b st') ->
  wp env (fanOutNotifications draft) Q st.
Proof.
  intros HQ. unfold fanOutNotifications, fanned in *. destruct (NotificationRuleFor (Draft_Kind draft)) as [|kind] eqn:Hrule.
  - apply wp_ret, HQ; [done|]. intros _ kind u. congruence.
  - apply notify_all_wp; [done..|]. intros b st' Hst' Hb. apply HQ; [done|].
    intros ->. intros k u _. by apply Hb.
Qed.

(** ** Webhook expansion *)

Record pending_delivery (seq : Z) (subs : list string) (w : DeliveryRow) : Prop := {
  pending_seq : wd_event_seq w = seq;
  pending_state : wd_state w = "pending";
  pending_attempts : wd_attempt_count w = 0;
  pending_subscription : wd_subscription_id w ∈ subs;
  pending_id : exists id : TypedID KWebhookDelivery, wd_id w = TypedID_String id
}.

Definition has_delivery (d : Delivery) (sub : string) (seq : Z) : Prop :=
  Exists (same_delivery sub seq) (webhook_deliveries d).

(** One delivery row more, for a subscription that had none. *)
Inductive expanded (seq : Z) (subs : list string) : Delivery -> Delivery -> Prop :=
| expanded_one w d :
    pending_delivery seq subs w -> ~ has_delivery d (wd_subscription_id w) seq ->
    ~ Exists (fun v => wd_id v = wd_id w) (webhook_deliveries d) ->
    expanded seq subs d (with_deliveries (w :: webhook_deliveries d) d).

Lemma has_delivery_expanded seq subs d d' s q : rtc (expanded seq subs) d d' -> has_delivery d s q -> has_delivery d' s q.
Proof.
  induction 1 as [|d1 d2 d3 Hd _ IH]; [done|]. intros Hs. apply IH. destruct Hd. by right.
Qed.

Lemma insert_delivery_cases row d :
  match insert_delivery row d with
  | inl _ => True
  | inr (_, d') => (d' = d /\ has_delivery d (wd_subscription_id row) (wd_event_seq row)) \/
      (d' = with_deliveries (row :: webhook_deliveries d) d /\ ~ has_delivery d (wd_subscription_id row) (wd_event_seq row) /\
         ~ Exists (fun v => wd_id v = wd_id row) (webhook_deliveries d))
  end.
Proof.
  unfold insert_delivery, has_delivery. case_bool_decide; [auto|]. case_bool_decide; [done|]. destruct (negb _); auto.
Qed.

Lemma insert_deliveries_wp all seq subs inserted st (Q : StmtError + nat -> TxStateOf Delivery -> Prop) :
  subs ⊆ all ->
  (forall err st', st_base st' = st_base st -> Q (inl err) st') ->
  (forall n st', st_base st' = st_base st -> rtc (expanded seq all) (st_db st) (st_db st') ->
     (forall s, s ∈ subs -> has_delivery (st_db st') s seq) -> Q (inr n) st') ->
  wp env (insert_deliveries seq subs inserted) Q st.
Proof.
  revert inserted st. induction subs as [|s subs IH]; intros inserted st Hall Hf HQ; cbn [insert_deliveries].
  - apply wp_ret, HQ; [done..|]. intros s Hs. by apply elem_of_nil in Hs.
  - wp_prim. wp_prim. destruct r as [id|]; [|by apply wp_ret, Hf]. wp_prim. wp_prim.
    apply wp_bind, wp_stmt; [by apply wp_ret, Hf|]. cbn [tick st_db st_base].
    set (row := MkDeliveryRow _ _ _ _ _ _ _). pose proof (insert_delivery_cases row (st_db st)) as Hcases.
    destruct (insert_delivery row (st_db st)) as [err|[count d']]; [by apply wp_ret, Hf|].
    apply IH; [set_solver|done|]. cbn [st_base st_db]. intros n st' Hb Hr Hs.
    assert (rtc (expanded seq all) (st_db st) d' /\ has_delivery d' s seq) as [Hd' Hhas].
    { destruct Hcases as [[-> Hh]|(-> & Hn & Hid)]; [done|]. split; [|by left].
      apply rtc_once, expanded_one; [|done..]. split; [done..|cbn; set_solver|by exists id]. }
    apply HQ; [done|by etrans|]. intros v [->|Hv]%elem_of_cons; [|by apply Hs].
    by eapply has_delivery_expanded.
Qed.

Lemma scan_ids_wp rows st (Q : bool -> TxStateOf Delivery -> Prop) :
  (forall b st', st_base st' = st_base st -> st_db st' = st_db st -> Q b st') -> wp env (scan_ids rows) Q st.
Proof.
  revert st. induction rows as [|r rows IH]; intros st HQ; cbn [scan_ids].
  - apply wp_fault_point. intros b. by apply HQ.
  - wp_prim. apply wp_fault_point. intros []; [by apply wp_ret, HQ|]. apply IH. intros b st' Hb Hd. by apply HQ.
Qed.

Lemma expandWebhookDeliveries_wp seq st (Q : StmtError + nat -> TxStateOf Delivery -> Prop) :
  let subs := matching_subscriptions seq (st_db st) in
  (forall err st', st_base st' = st_base st -> Q (inl err) st') ->
  (forall n st', st_base st' = st_base st -> rtc (expanded seq subs) (st_db st) (st_db st') ->
     (forall s, s ∈ subs -> has_delivery (st_db st') s seq) -> Q (inr n) st') ->
  wp env (expandWebhookDeliveries seq) Q st.
Proof.
  intros subs Hf HQ. unfold expandWebhookDeliveries. wp_prim. wp_prim; [by apply wp_ret, Hf|]. cbn [tick st_db].
  apply wp_bind, scan_ids_wp. intros [] st1 Hb1 Hd1; [apply wp_ret, Hf; by rewrite Hb1|].
  eapply (insert_deliveries_wp subs); [done|intros err st2 Hb2; apply Hf; by rewrite Hb2, Hb1|].
  intros n st' Hb Hr Hs. rewrite Hd1 in Hr. apply HQ; [by rewrite Hb, Hb1|done|done].
Qed.

(** ** Dispatch *)

(** The store's dispatch of one event: nothing, or its webhook rows and its state. *)
Inductive settled (id : string) (d : Delivery) : DispatchStoreResult -> Delivery -> Prop :=
| settled_rejected reason : settled id d (DispatchStoreRejected reason) d
| settled_idle :
    (forall e, event_by_id id d = inr e -> is_recorded e = false) -> settled id d DispatchStoreCompleted d
| settled_now e d' :
    event_by_id id d = inr e -> is_recorded e = true ->
    rtc (expanded (ev_seq e) (matching_subscriptions (ev_seq e) d)) d d' ->
    (forall s, s ∈ matching_subscriptions (ev_seq e) d -> has_delivery d' s (ev_seq e)) ->
    settled id d DispatchStoreCompleted (set_states "dispatched" (fun r => (ev_seq r =? ev_seq e) && is_recorded r) d').

Lemma ParseDispatchState_String s : ParseDispatchState (DispatchState_String s) = DispatchStateParsed s.
Proof. by destruct s. Qed.

Lemma ParseDispatchState_parsed raw s : ParseDispatchState raw = DispatchStateParsed s -> raw = DispatchState_String s.
Proof.
  unfold ParseDispatchState. rewrite !switch_cons, switch_nil.
  destruct (String.eqb_spec raw (DispatchState_String DispatchStateRecorded)) as [->|]; [by intros [= <-]|].
  destruct (String.eqb_spec raw (DispatchState_String DispatchStateDispatched)) as [->|]; [by intros [= <-]|].
  destruct (String.eqb_spec raw (DispatchState_String DispatchStateFailed)) as [->|]; [by intros [= <-]|done].
Qed.

Lemma is_recorded_parsed e s :
  ParseDispatchState (ev_dispatch_state e) = DispatchStateParsed s -> s <> DispatchStateRecorded -> is_recorded e = false.
Proof. intros Hs%ParseDispatchState_parsed Hne. unfold is_recorded. rewrite Hs. by destruct s. Qed.

Lemma Dispatch_wp id st (Q : DispatchStoreResult -> TxStateOf Delivery -> Prop) :
  (forall r st', settled (TypedID_String id) (st_base st) r (st_base st') -> Q r st') ->
  wp env (EventStore.Dispatch id) Q st.
Proof.
  intros HQ. assert (forall reason st', st_base st' = st_base st -> Q (DispatchStoreRejected reason) st') as Hn.
  { intros r st' Hb. apply HQ. rewrite Hb. constructor. }
  unfold EventStore.Dispatch. wp_prim. wp_prim; [by apply wp_ret, Hn|].
  wp_prim. wp_prim; [by apply wp_ret, Hn|]. cbn [tick st_db st_base].
  destruct (event_by_id (TypedID_String id) (st_base st)) as [[]|e] eqn:He; [|by apply wp_ret, Hn..|].
  { apply wp_ret, HQ. cbn [tick st_base]. apply settled_idle. intros e. by rewrite He. }
  destruct (ParseDispatchState (ev_dispatch_state e)) as [s|] eqn:Hs; [|by apply wp_ret, Hn].
  assert (s <> DispatchStateRecorded -> settled (TypedID_String id) (st_base st) DispatchStoreCompleted (st_base st)) as Hidle.
  { intros Hne. apply settled_idle. intros f. rewrite He. intros [= <-]. by eapply is_recorded_parsed. }
  destruct s; [|by apply wp_ret, HQ, Hidle..]. apply ParseDispatchState_parsed in Hs.
  apply wp_bind, expandWebhookDeliveries_wp; cbn [st_base st_db].
  - intros err st' Hb. by apply wp_ret, Hn.
  - intros n st' Hb Hr Hall. wp_prim. wp_prim; [by apply wp_ret, Hn|]. cbn [mark_dispatched]. wp_prim.
    wp_prim; [by apply wp_ret, Hn|]. apply wp_ret, HQ. cbn [st_base st_db tick].
    apply (settled_now _ _ e); [done|unfold is_recorded; by rewrite Hs|done|done].
Qed.

(** The recorder's dispatch of one draft. *)
Definition draft_dispatched (draft : Draft) (d d' : Delivery) : Prop :=
  exists d1, rtc (notified draft) d d1 /\
    (d' = d1 \/ fanned draft d1 /\ exists r, settled (TypedID_String (Draft_ID draft)) d1 r d').

Lemma dispatch_draft_wp draft st (Q : unit -> TxStateOf Delivery -> Prop) :
  (forall st', draft_dispatched draft (st_base st) (st_base st') -> Q tt st') ->
  wp env (dispatch_draft draft) Q st.
Proof.
  intros HQ. unfold dispatch_draft. apply wp_bind, fanOutNotifications_wp. intros [] st1 Hst1 Hf.
  - apply wp_bind, Dispatch_wp. intros r st2 Hst2. apply wp_ret, HQ. exists (st_base st1). split; [done|]. right. split; [by apply Hf|by exists r].
  - apply wp_ret, HQ. exists (st_base st1). auto.
Qed.

(** Dispatching several drafts, one after the other. *)
Inductive drafts_dispatched : list Draft -> Delivery -> Delivery -> Prop :=
| drafts_dispatched_nil d : drafts_dispatched [] d d
| drafts_dispatched_cons draft drafts d1 d2 d3 :
    draft_dispatched draft d1 d2 -> drafts_dispatched drafts d2 d3 -> drafts_dispatched (draft :: drafts) d1 d3.

Lemma Recorder_Dispatch_wp drafts st (Q : unit -> TxStateOf Delivery -> Prop) :
  (forall st', drafts_dispatched drafts (st_base st) (st_base st') -> Q tt st') ->
  wp env (Recorder.Dispatch drafts) Q st.
Proof.
  revert st. induction drafts as [|draft drafts IH]; intros st HQ; cbn [Recorder.Dispatch].
  - apply wp_ret, HQ. constructor.
  - apply wp_bind, dispatch_draft_wp. intros st1 Hst1. apply IH. intros st2 Hst2. apply HQ. by econstructor.
Qed.

(** ** The recovery listing *)

(** The draft a stored row is rebuilt to, when all of it parses. *)
Definition recipient_rows (d : Delivery) (seq : Z) : list string :=
  (filter (fun r => r.1 = seq) (event_recipients d)).*2.

Definition rebuilt_recipients (d : Delivery) (seq : Z) : option Recipients :=
  NewRecipients <$> mapM (parsed_id (k:=KUser)) (recipient_rows d seq).

Definition rebuild (d : Delivery) (e : EventRow) : option Draft :=
  value ← parseStoredEventColumns e;
  recipients ← rebuilt_recipients d (ev_seq e);
  Some (stored_draft value recipients).

Lemma parse_cursor e value : parseStoredEventColumns e = Some value -> Sequence (Stored_Cursor value) = ev_seq e.
Proof. intros Hp. unfold parseStoredEventColumns in Hp. by simplify_option_eq. Qed.

Lemma scan_stored_wp rows stored skipped st (Q : list StoredEvent * nat -> TxStateOf Delivery -> Prop) :
  (forall values n st', st_base st' = st_base st ->
     (forall v, v ∈ values -> v ∈ stored \/ exists e, e ∈ rows /\ parseStoredEventColumns e = Some v) ->
     (no_faults env -> forall v, v ∈ stored \/ (exists e, e ∈ rows /\ parseStoredEventColumns e = Some v) -> v ∈ values) ->
     Q (values, n) st') ->
  wp env (scan_stored rows stored skipped) Q st.
Proof.
  revert stored skipped st. induction rows as [|row rows IH]; intros stored skipped st HQ; cbn [scan_stored].
  - apply wp_ret, HQ; [done|auto|]. intros _ v [?|(e & He & _)]; [done|by apply elem_of_nil in He].
  - wp_prim. apply wp_fault_point_at.
    assert (forall values n st', st_base st' = st_base st ->
      (forall v, v ∈ values -> v ∈ stored \/ exists e, e ∈ rows /\ parseStoredEventColumns e = Some v) ->
      (no_faults env -> parseStoredEventColumns row = None /\
         forall v, v ∈ stored \/ (exists e, e ∈ rows /\ parseStoredEventColumns e = Some v) -> v ∈ values) ->
      Q (values, n) st') as Hskip.
    { intros values n st' Hb Hin Hall. apply HQ; [done| |].
      - intros v [?|(e & ? & ?)]%Hin; [by left|right]. exists e. split; [by right|done].
      - intros Hok v Hv. destruct (Hall Hok) as [Hnone Hv']. apply Hv'.
        destruct Hv as [?|(e & [->|?]%elem_of_cons & ?)]; [by left|congruence|eauto]. }
    destruct (env_fails env (st_step st)) eqn:Hfail.
    + apply IH. intros values n st' Hb Hin Hall. apply Hskip; [done..|]. intros Hok. by rewrite Hok in Hfail.
    + destruct (parseStoredEventColumns row) as [value|] eqn:Hrow; apply IH; intros values n st' Hb Hin Hall.
      * apply HQ; [done| |].
        -- intros v [Hv|(e & ? & ?)]%Hin; [apply elem_of_app in Hv as [?|Hv]; [by left|apply list_elem_of_singleton in Hv as ->; right]|right].
           ++ exists row. split; [by left|done].
           ++ exists e. split; [by right|done].
        -- intros Hok v Hv. apply (Hall Hok). rewrite elem_of_app, list_elem_of_singleton.
           destruct Hv as [?|(e & [->|?]%elem_of_cons & ?)]; [by left; left|left; right; congruence|eauto].
      * apply Hskip; [done..|]. intros Hok. split; [done|by apply Hall].
Qed.

Lemma mapM_parsed_cons raw rows :
  mapM (parsed_id (k:=KUser)) (raw :: rows) =
    match ParseUserID raw with
    | TypedIDCreated u => cons u <$> mapM (parsed_id (k:=KUser)) rows
    | TypedIDRejected _ => None
    end.
Proof.
  change (mapM parsed_id (raw :: rows)) with
    (u ← parsed_id (k:=KUser) raw; us ← mapM parsed_id rows; Some (u :: us)).
  assert (parsed_id (k:=KUser) raw = match ParseUserID raw with TypedIDCreated u => Some u | TypedIDRejected _ => None end) as -> by done.
  destruct (ParseUserID raw) as [u|reason]; [|done]. cbn. by destruct (mapM parsed_id rows).
Qed.

Lemma scan_recipients_wp rows us st (Q : option (list UserID) -> TxStateOf Delivery -> Prop) :
  (forall r st', st_base st' = st_base st ->
     (r = None \/ r = (app us) <$> mapM (parsed_id (k:=KUser)) rows) ->
     (no_faults env -> r = (app us) <$> mapM (parsed_id (k:=KUser)) rows) -> Q r st') ->
  wp env (scan_recipients rows us) Q st.
Proof.
  revert us st. induction rows as [|raw rows IH]; intros us st HQ; cbn [scan_recipients].
  - wp_prim. apply wp_fault_point_at. destruct (env_fails env (st_step st)) eqn:Hfail; apply wp_ret, HQ; try done; [by left| | |].
    + intros Hok. by rewrite Hok in Hfail.
    + right. change (Some us = Some (us ++ []))%list. by rewrite app_nil_r.
    + intros _. change (Some us = Some (us ++ []))%list. by rewrite app_nil_r.
  - wp_prim. apply wp_fault_point_at. destruct (env_fails env (st_step st)) eqn:Hfail.
    { apply wp_ret, HQ; [done|by left|]. intros Hok. by rewrite Hok in Hfail. }
    rewrite mapM_parsed_cons in HQ. destruct (ParseUserID raw) as [u|reason] eqn:Hu.
    + assert (app (us ++ [u]) <$> mapM (parsed_id (k:=KUser)) rows =
        app us <$> (cons u <$> mapM (parsed_id (k:=KUser)) rows)) as Heq.
      { destruct (mapM parsed_id rows); cbn; [|done]. by rewrite <- app_assoc. }
      apply IH. intros r st' Hb Hr Hok. rewrite Heq in Hr, Hok. by apply HQ.
    + apply wp_ret, HQ; [done|by left|done].
Qed.

Lemma eventRecipients_wp seq st (Q : option Recipients -> TxStateOf Delivery -> Prop) :
  (forall r st', st_base st' = st_base st ->
     (r = None \/ r = rebuilt_recipients (st_base st) seq) ->
     (no_faults env -> r = rebuilt_recipients (st_base st) seq) -> Q r st') ->
  wp env (eventRecipients seq) Q st.
Proof.
  intros HQ. unfold eventRecipients. apply wp_bind, wp_pool_query_at; intros Hfail.
  { apply wp_ret, HQ; [done|by left|]. intros Hok. by rewrite Hok in Hfail. }
  apply wp_bind, scan_recipients_wp. cbn [st_base tick]. intros r st' Hb Hr Hok. apply wp_ret, HQ; [done| |].
  - destruct Hr as [-> | ->]; [by left|right]. unfold rebuilt_recipients, recipient_rows. by destruct (mapM _ _).
  - intros Hf. rewrite (Hok Hf). unfold rebuilt_recipients, recipient_rows. by destruct (mapM _ _).
Qed.

Lemma rebuild_drafts_wp stored drafts skipped st (Q : list Draft * nat -> TxStateOf Delivery -> Prop) :
  let made (v : StoredEvent) (draft : Draft) := exists r,
    rebuilt_recipients (st_base st) (Sequence (Stored_Cursor v)) = Some r /\ draft = stored_draft v r in
  (forall values n st', st_base st' = st_base st ->
     (forall draft, draft ∈ values -> draft ∈ drafts \/ exists v, v ∈ stored /\ made v draft) ->
     (no_faults env -> forall draft, draft ∈ drafts \/ (exists v, v ∈ stored /\ made v draft) -> draft ∈ values) ->
     Q (values, n) st') ->
  wp env (rebuild_drafts stored drafts skipped) Q st.
Proof.
  intros made. remember (st_base st) as base eqn:Hbase. revert drafts skipped st Hbase.
  induction stored as [|value stored IH]; intros drafts skipped st -> HQ; cbn [rebuild_drafts].
  - apply wp_ret, HQ; [done|auto|]. intros _ v [?|(e & He & _)]; [done|by apply elem_of_nil in He].
  - apply wp_bind, eventRecipients_wp. intros r st1 Hb1 Hr Hrok. destruct r as [r|].
    + destruct Hr as [|Hr]; [done|]. apply IH; [done|]. intros values n st' Hb Hin Hall. apply HQ; [done| |].
      * intros draft [Hd|(v & ? & ?)]%Hin; [apply elem_of_app in Hd as [?|Hd]; [by left|apply list_elem_of_singleton in Hd as ->; right]|right].
        -- exists value. split; [by left|]. by exists r.
        -- exists v. split; [by right|done].
      * intros Hok draft Hd. apply (Hall Hok). rewrite elem_of_app, list_elem_of_singleton.
        destruct Hd as [?|(v & [->|?]%elem_of_cons & Hm)]; [by left; left| |eauto].
        left; right. destruct Hm as (r' & Hr' & ->). congruence.
    + apply IH; [done|]. intros values n st' Hb Hin Hall. apply HQ; [done| |].
      * intros draft [?|(v & ? & ?)]%Hin; [by left|right]. exists v. split; [by right|done].
      * intros Hok draft Hd. apply (Hall Hok).
        destruct Hd as [?|(v & [->|?]%elem_of_cons & Hm)]; [by left| |eauto].
        destruct Hm as (r' & Hr' & _). rewrite <- (Hrok Hok) in Hr'. done.
Qed.

(** The tables after each of the two statements, and the drafts listed. *)
Inductive listed (cutoff : Z) (limit : nat) (d : Delivery) : ListRecordedResult -> Delivery -> Prop :=
| listed_nothing reason : listed cutoff limit d (ListRecordedRejected reason) d
| listed_retired reason : listed cutoff limit d (ListRecordedRejected reason) (retire_exhausted cutoff d)
| listed_claimed reason :
    listed cutoff limit d (ListRecordedRejected reason) (claim cutoff limit (retire_exhausted cutoff d)).2
| listed_drafts drafts skipped :
    (forall draft, draft ∈ drafts -> exists e,
       e ∈ claimed cutoff limit (retire_exhausted cutoff d) /\ rebuild d e = Some draft) ->
    listed cutoff limit d (RecordedEventsListed drafts skipped) (claim cutoff limit (retire_exhausted cutoff d)).2.

(** Without faults every claimed row that can be rebuilt is listed. *)
Definition listed_all (cutoff : Z) (limit : nat) (d : Delivery) (r : ListRecordedResult) : Prop :=
  exists drafts skipped, r = RecordedEventsListed drafts skipped /\
    forall e draft, e ∈ claimed cutoff limit (retire_exhausted cutoff d) -> rebuild d e = Some draft -> draft ∈ drafts.

Lemma claim_rows cutoff limit d e :
  NoDup (ev_seq <$> events d) -> e ∈ (claim cutoff limit d).1 <-> e ∈ claimed cutoff limit d.
Proof.
  intros Hnd. unfold claim. cbn [fst]. rewrite list_elem_of_filter, bool_decide_spec, list_elem_of_fmap.
  assert (forall x, x ∈ claimed cutoff limit d -> x ∈ events d) as Hsub.
  { intros x (i & Hx & _)%elem_of_take. apply list_elem_of_lookup_2 in Hx. rewrite merge_sort_Permutation in Hx.
    by apply list_elem_of_filter in Hx as []. }
  split.
  - intros [(x & Hx & Hin) He]. replace e with x; [done|].
    apply Hsub in Hin as Hx'. apply list_elem_of_lookup in He as [i Hi], Hx' as [j Hj].
    assert (i = j) as ->; [|congruence]. eapply NoDup_lookup; [exact Hnd|..]; rewrite list_lookup_fmap; [by rewrite Hi|by rewrite Hj, Hx].
  - intros He. split; [by exists e|by apply Hsub].
Qed.

Lemma ListRecordedBefore_wp cutoff limit st (Q : ListRecordedResult -> TxStateOf Delivery -> Prop) :
  NoDup (ev_seq <$> events (st_base st)) ->
  (forall r st', listed cutoff limit (st_base st) r (st_base st') ->
     (no_faults env -> listed_all cutoff limit (st_base st) r) -> Q r st') ->
  wp env (ListRecordedBefore cutoff limit) Q st.
Proof.
  intros Hnd HQ. assert (NoDup (ev_seq <$> events (retire_exhausted cutoff (st_base st)))) as Hnd'.
  { unfold retire_exhausted, set_states, events at 1. cbn. rewrite <- list_fmap_compose.
    erewrite list_fmap_ext; [exact Hnd|]. intros i e _. cbn. by destruct (_ && _). }
  assert (forall message st', listed cutoff limit (st_base st)
      (ListRecordedRejected (NewDomainError ErrorCodeInvalidState message)) (st_base st') -> ~ no_faults env ->
    Q (ListRecordedRejected (NewDomainError ErrorCodeInvalidState message)) st') as Hrej.
  { intros message st' Hl Hf. by apply HQ. }
  unfold ListRecordedBefore. apply wp_bind, wp_autocommit_at; intros Hfail.
  { apply wp_ret, Hrej; [constructor|]. intros Hok. by rewrite Hok in Hfail. }
  apply wp_bind, wp_autocommit_at; cbn [st_base st_step]; intros Hfail2.
  { apply wp_ret, Hrej; [constructor|]. intros Hok. by rewrite Hok in Hfail2. }
  cbn [claim]. apply wp_bind, scan_stored_wp. intros stored n st1 Hb1 Hin Hall.
  wp_prim. apply wp_fault_point_at. destruct (env_fails env (st_step st1)) eqn:Hfail3.
  { apply wp_ret, Hrej; [cbn [tick st_base]; rewrite Hb1; constructor|]. intros Hok. by rewrite Hok in Hfail3. }
  set (d1 := retire_exhausted cutoff (st_base st)) in *.
  apply wp_bind, rebuild_drafts_wp. intros drafts k st2 Hb2 Hd Hdall. apply wp_ret.
  assert (forall v, v ∈ stored -> exists e, e ∈ claimed cutoff limit d1 /\ parseStoredEventColumns e = Some v) as Hstored.
  { intros v [Hv|(e & He & Hp)]%Hin; [by apply elem_of_nil in Hv|]. exists e. split; [|done]. by apply claim_rows. }
  apply HQ.
  - rewrite Hb2. cbn [tick st_base]. rewrite Hb1. cbn [st_base]. apply listed_drafts.
    intros draft Hdraft. destruct (Hd _ Hdraft) as [Hn|(v & Hv & r & Hr & ->)]; [by apply elem_of_nil in Hn|].
    rewrite merge_sort_Permutation in Hv. destruct (Hstored _ Hv) as (e & He & Hp). exists e. split; [done|].
    unfold rebuild. rewrite Hp. cbn. rewrite (parse_cursor _ _ Hp) in Hr. cbn [tick st_base] in Hr. rewrite Hb1 in Hr.
    cbn [st_base] in Hr. change (rebuilt_recipients (st_base st) (ev_seq e) = Some r) in Hr. by rewrite Hr.
  - intros Hok. exists drafts, k. split; [done|]. intros e draft He Hr. apply (Hdall Hok). right.
    unfold rebuild in Hr. destruct (parseStoredEventColumns e) as [v|] eqn:Hp; [|done]. cbn in Hr.
    destruct (rebuilt_recipients (st_base st) (ev_seq e)) as [us|] eqn:Hus; [|done].
    change (Some (stored_draft v us) = Some draft) in Hr.
    exists v. rewrite merge_sort_Permutation. split.
    + apply (Hall Hok). right. exists e. split; [by apply claim_rows|done].
    + exists us. rewrite (parse_cursor _ _ Hp). cbn [tick st_base]. rewrite Hb1. split; [exact Hus|]. congruence.
Qed.

(** The sweep: a listing, then the dispatch of its drafts. *)
Definition swept (d d' : Delivery) : Prop :=
  exists cutoff r d1, listed cutoff eventDispatchSweepBatch d r d1 /\
    match r with
    | ListRecordedRejected _ => d' = d1
    | RecordedEventsListed drafts _ => drafts_dispatched drafts d1 d'
    end.

Lemma sweepRecordedEvents_wp st (Q : option DomainError -> TxStateOf Delivery -> Prop) :
  NoDup (ev_seq <$> events (st_base st)) ->
  (forall r st', swept (st_base st) (st_base st') -> Q r st') ->
  wp env sweepRecordedEvents Q st.
Proof.
  intros Hnd HQ. unfold sweepRecordedEvents. wp_prim. wp_prim. apply wp_bind, ListRecordedBefore_wp; [done|].
  intros r st1 Hl _. destruct r as [drafts n|reason].
  - apply wp_bind, Recorder_Dispatch_wp. intros st2 Hst2. apply wp_ret, HQ. by do 3 eexists.
  - apply wp_ret, HQ. by do 3 eexists.
Qed.
End Wp.
End Specs.
