(* ===== verification/DeliveryCorrect.v ===== *)
(** * Event delivery is correct

    The system is the database with the drafts whose inline dispatch is still due.
    Its steps are ledger commands, inline dispatches (which may be lost, repeated
    or late), recovery sweeps, reads of the inbox and changes of subscriptions, in
    any order and under any faults.  Every reachable state keeps [system_ok]. *)

From S2P Require Import Prelude.
From S2P Require Import Core.
From S2P Require Import Events.
From S2P Require Import LedgerValues.
From S2P Require Import Database.
From S2P Require Import Tx.
From S2P Require Import LedgerSpec.
From S2P Require Import Outbox.
From S2P Require Import HelperSpecs.
From S2P Require Import Refinement.
From S2P Require Import LedgerCorrect.
From S2P Require Import DeliveryDB.
From S2P Require Import Inbox.
From S2P Require Import EventStore.
From S2P Require Import Recorder.
From S2P Require Import DeliverySpecs.
Local Open Scope string_scope.
Local Open Scope Z_scope.

Section Correct.
Context `{UUIDLaws, JSONB}.

(** ** Stored events *)

(** [e] stores [draft], whatever its dispatch state. *)
Record stored_as (d : Delivery) (draft : Draft) (e : EventRow) : Prop := {
  stored_row : with_state "recorded" e = event_row (ev_seq e) (ev_occurred_at e) draft;
  stored_recipients : forall u, (ev_seq e, u) ∈ event_recipients d <-> u ∈ TypedID_String <$> Users (Draft_Recipients draft);
  stored_actor : TypedID_String (ActorUserID (Draft_Actor draft)) ∈ users (ledger d);
  stored_users : Forall (fun u => TypedID_String u ∈ users (ledger d)) (Users (Draft_Recipients draft))
}.

(** [draft] says of [e] what dispatch needs to know; its metadata may be printed anew. *)
Record describes (d : Delivery) (draft : Draft) (e : EventRow) : Prop := {
  describes_id : ev_id e = TypedID_String (Draft_ID draft);
  describes_kind : ev_kind e = Kind_String (Draft_Kind draft);
  describes_actor : ev_actor_user_id e = TypedID_String (ActorUserID (Draft_Actor draft));
  describes_recipients : forall u, (ev_seq e, u) ∈ event_recipients d <-> u ∈ TypedID_String <$> Users (Draft_Recipients draft)
}.

Lemma stored_describes d draft e : stored_as d draft e -> describes d draft e.
Proof. intros [Hrow Hus _ _]. unfold with_state, event_row in Hrow. inversion Hrow. by split. Qed.

Lemma ParseKind_String kind : ParseKind (Kind_String kind) = KindParsed kind.
Proof. by destruct kind. Qed.

Lemma Kind_String_inj k1 k2 : Kind_String k1 = Kind_String k2 -> k1 = k2.
Proof. intros E. apply (f_equal ParseKind) in E. rewrite !ParseKind_String in E. by inversion E. Qed.

Lemma parse_ref_TypedID {k R} (absent : R) present (i : TypedID k) :
  parse_ref absent present (Some (TypedID_String i)) = Some (present i).
Proof. unfold parse_ref. by rewrite ParseTypedID_String. Qed.

Lemma parsed_id_String {k} (i : TypedID k) : parsed_id (TypedID_String i) = Some i.
Proof. unfold parsed_id. by rewrite ParseTypedID_String. Qed.

(** What the columns of a draft's row parse to. *)
Definition reprinted (draft : Draft) (now seq : Z) (metadata : string) : StoredEvent :=
  WithoutEnrichment (MkStoredEvent
    (MkEvent (Draft_ID draft) (Draft_Kind draft) (Draft_Actor draft) (Draft_Subject draft) (MkMetadata metadata) now)
    (CursorFromSequence seq) NoActorName NoTaskTitle).

Lemma parse_event_row seq now draft state :
  parseStoredEventColumns (with_state state (event_row seq now draft)) =
    reprinted draft now seq <$> jsonb (Metadata_JSON (Draft_Metadata draft)).
Proof.
  unfold parseStoredEventColumns, event_row, with_state. cbn [ev_id ev_kind ev_actor_user_id ev_actor_kind ev_task_id
    ev_submission_id ev_reservation_id ev_series_id ev_organization_id ev_collectible_id ev_metadata_json ev_occurred_at ev_seq].
  rewrite !parsed_id_String, ParseKind_String.
  destruct draft as [id kind actor [task submission reservation series organization collectible] metadata recipients].
  cbn [Draft_ID Draft_Kind Draft_Actor Draft_Subject Draft_Metadata Subject_Task Subject_Submission Subject_Reservation
    Subject_Series Subject_Organization Subject_Collectible].
  assert (parse_ref NoTask TaskSubject (taskRefValue task) = Some task) as -> by (destruct task; [done|apply parse_ref_TypedID]).
  assert (parse_ref NoSubmission SubmissionSubject (submissionRefValue submission) = Some submission) as ->
    by (destruct submission; [done|apply parse_ref_TypedID]).
  assert (parse_ref NoReservation ReservationSubject (reservationRefValue reservation) = Some reservation) as ->
    by (destruct reservation; [done|apply parse_ref_TypedID]).
  assert (parse_ref NoSeries SeriesSubject (seriesRefValue series) = Some series) as ->
    by (destruct series; [done|apply parse_ref_TypedID]).
  assert (parse_ref NoOrganization OrganizationSubject (organizationRefValue organization) = Some organization) as ->
    by (destruct organization; [done|apply parse_ref_TypedID]).
  assert (parse_ref NoCollectible CollectibleSubject (collectibleRefValue collectible) = Some collectible) as ->
    by (destruct collectible; [done|apply parse_ref_TypedID]).
  destruct (jsonb (Metadata_JSON metadata)); [|done]. by destruct actor.
Qed.

Lemma parse_stored d draft e :
  stored_as d draft e ->
  parseStoredEventColumns e = reprinted draft (ev_occurred_at e) (ev_seq e) <$> jsonb (Metadata_JSON (Draft_Metadata draft)).
Proof.
  intros [Hrow _ _ _]. rewrite <- (parse_event_row _ _ _ (ev_dispatch_state e)), <- Hrow. by destruct e.
Qed.

(** ** Rebuilding recipients *)

Lemma mapM_parsed_elem raws us :
  mapM (parsed_id (k:=KUser)) raws = Some us -> forall i : UserID, i ∈ us <-> exists raw, raw ∈ raws /\ parsed_id raw = Some i.
Proof.
  intros Hm i. apply mapM_Some in Hm. split.
  - intros Hi. apply list_elem_of_lookup in Hi as [n Hn].
    destruct (Forall2_lookup_r _ _ _ _ _ Hm Hn) as (raw & Hraw & Hp). exists raw. split; [by eapply list_elem_of_lookup_2|done].
  - intros (raw & Hraw & Hp). apply list_elem_of_lookup in Hraw as [n Hn].
    destruct (Forall2_lookup_l _ _ _ _ _ Hm Hn) as (j & Hj & Hpj). assert (i = j) as -> by congruence.
    by eapply list_elem_of_lookup_2.
Qed.

Lemma recipient_rows_elem d seq raw : raw ∈ recipient_rows d seq <-> (seq, raw) ∈ event_recipients d.
Proof.
  unfold recipient_rows. rewrite list_elem_of_fmap. split.
  - intros ([q r] & -> & Hr). apply list_elem_of_filter in Hr as [<- Hr]. done.
  - intros Hr. exists (seq, raw). split; [done|]. by apply list_elem_of_filter.
Qed.

Lemma rebuild_describes d draft e draft' :
  stored_as d draft e -> rebuild d e = Some draft' -> describes d draft' e.
Proof.
  intros Hst Hr. unfold rebuild in Hr. rewrite (parse_stored _ _ _ Hst) in Hr.
  destruct (jsonb _) as [metadata|]; [|done]. cbn [fmap option_fmap option_map] in Hr.
  change (rebuilt_recipients d (ev_seq e) ≫= (fun recipients =>
    Some (stored_draft (reprinted draft (ev_occurred_at e) (ev_seq e) metadata) recipients)) = Some draft') in Hr.
  unfold rebuilt_recipients in Hr. destruct (mapM _ _) as [us|] eqn:Hus; [|done].
  change (Some (stored_draft (reprinted draft (ev_occurred_at e) (ev_seq e) metadata) (NewRecipients us)) = Some draft') in Hr.
  injection Hr as <-. destruct (stored_describes _ _ _ Hst) as [Hid Hkind Hactor Hrec].
  split; [done..|]. intros u. rewrite list_elem_of_fmap.
  assert (forall i : UserID, i ∈ us <-> i ∈ Users (Draft_Recipients draft)) as Hsame.
  { intros i. rewrite (mapM_parsed_elem _ _ Hus). split.
    - intros (raw & Hraw & Hp). apply recipient_rows_elem, Hrec, list_elem_of_fmap in Hraw as (j & -> & Hj).
      rewrite parsed_id_String in Hp. congruence.
    - intros Hi. exists (TypedID_String i). rewrite parsed_id_String. split; [|done].
      apply recipient_rows_elem, Hrec, list_elem_of_fmap. eauto. }
  rewrite Hrec, list_elem_of_fmap. cbn [stored_draft Draft_Recipients].
  split; intros (i & -> & Hi); exists i; (split; [done|]).
  - by apply NewRecipients_elem, Hsame.
  - by apply Hsame, NewRecipients_elem.
Qed.

(** The drafts agree on all but how the metadata is printed and the recipients' order. *)
Definition same_draft (metadata : string) (a b : Draft) : Prop :=
  Draft_ID b = Draft_ID a /\ Draft_Kind b = Draft_Kind a /\ Draft_Actor b = Draft_Actor a /\
  Draft_Subject b = Draft_Subject a /\ Draft_Metadata b = MkMetadata metadata /\
  (forall u, u ∈ Users (Draft_Recipients b) <-> u ∈ Users (Draft_Recipients a)).

Lemma rebuild_same d draft e metadata :
  stored_as d draft e -> jsonb (Metadata_JSON (Draft_Metadata draft)) = Some metadata ->
  exists draft', rebuild d e = Some draft' /\ same_draft metadata draft draft'.
Proof.
  intros Hst Hm. unfold rebuild. rewrite (parse_stored _ _ _ Hst), Hm. cbn [fmap option_fmap option_map].
  assert (exists us, mapM (parsed_id (k:=KUser)) (recipient_rows d (ev_seq e)) = Some us) as [us Hus].
  { apply mapM_is_Some_2, List.Forall_forall. intros raw Hraw%list_elem_of_In%recipient_rows_elem.
    apply (stored_recipients _ _ _ Hst), list_elem_of_fmap in Hraw as (u & -> & _). exists u. apply parsed_id_String. }
  exists (stored_draft (reprinted draft (ev_occurred_at e) (ev_seq e) metadata) (NewRecipients us)).
  unfold rebuilt_recipients. rewrite Hus. split; [done|]. split; [done|]. split; [done|]. split; [done|]. split; [done|].
  split; [done|]. intros u. cbn [stored_draft Draft_Recipients]. rewrite NewRecipients_elem, (mapM_parsed_elem _ _ Hus).
  split.
  - intros (raw & Hraw%recipient_rows_elem & Hp). apply (stored_recipients _ _ _ Hst), list_elem_of_fmap in Hraw as (v & -> & Hv).
    rewrite parsed_id_String in Hp. congruence.
  - intros Hu. exists (TypedID_String u). rewrite parsed_id_String. split; [|done].
    apply recipient_rows_elem, (stored_recipients _ _ _ Hst), list_elem_of_fmap. eauto.
Qed.

(** ** The invariant of the tables *)

(** An inbox row of an event: for a recipient who is not the actor, under the
    notification kind of the event's kind. *)
Record inbox_row_ok (d : Delivery) (n : NotificationRow) (e : EventRow) : Prop := {
  inbox_event : notif_event_id n = Some (ev_id e);
  inbox_recipient : (ev_seq e, notif_recipient n) ∈ event_recipients d;
  inbox_not_actor : notif_recipient n <> ev_actor_user_id e;
  inbox_actor : notif_actor n = ev_actor_user_id e;
  inbox_kind : exists kind nkind, ev_kind e = Kind_String kind /\ NotificationRuleFor kind = NotifyAs nkind /\
                 notif_kind n = Notification.Kind_String nkind
}.

(** Every recipient of the event but its actor has an inbox row, if its kind notifies. *)
Definition inbox_complete (d : Delivery) (e : EventRow) : Prop :=
  forall kind nkind u, ev_kind e = Kind_String kind -> NotificationRuleFor kind = NotifyAs nkind ->
    (ev_seq e, u) ∈ event_recipients d -> u <> ev_actor_user_id e -> has_inbox d (ev_id e) u.

Definition distinct_sources (rows : list NotificationRow) : Prop :=
  forall i j a b, rows !! i = Some a -> rows !! j = Some b -> same_source a b -> i = j.

Record delivery_ok (d : Delivery) : Prop := {
  ok_seqs : NoDup (ev_seq <$> events d);
  ok_ids : NoDup (ev_id <$> events d);
  ok_rows : Forall (fun e => exists draft, stored_as d draft e) (events d);
  ok_recipients : Forall (fun r => exists e, e ∈ events d /\ ev_seq e = r.1) (event_recipients d);
  ok_sources : distinct_sources (notifications d);
  ok_inbox : Forall (fun n => forall id, notif_event_id n = Some id -> exists e, e ∈ events d /\ inbox_row_ok d n e)
               (notifications d);
  ok_complete : Forall (fun e => ev_dispatch_state e = "dispatched" -> inbox_complete d e) (events d);
  ok_deliveries : NoDup ((fun w => (wd_subscription_id w, wd_event_seq w)) <$> webhook_deliveries d);
  ok_delivered : Forall (fun w => exists e, e ∈ events d /\ ev_seq e = wd_event_seq w /\
                   (ev_dispatch_state e = "dispatched")) (webhook_deliveries d);
  ok_attempts : map_Forall (fun _ a => 0 <= a) (dispatch_attempts d)
}.

Lemma distinct_sources_cons n rows :
  distinct_sources rows -> ~ Exists (same_source n) rows -> distinct_sources (n :: rows).
Proof.
  intros Hd Hn i j a b Hi Hj Hs.
  assert (forall k c, rows !! k = Some c -> ~ same_source n c) as Hnew.
  { intros k c Hk Hc. apply Hn, Exists_exists. exists c. split; [|done]. by apply list_elem_of_lookup_2, list_elem_of_In in Hk. }
  destruct i as [|i], j as [|j]; cbn in Hi, Hj; [done|..]; simplify_eq.
  - by destruct (Hnew _ _ Hj).
  - destruct (Hnew _ _ Hi). destruct Hs as (Hs & Hse & Hsr). split; [by rewrite Hse|]. split; congruence.
  - f_equal. by eapply Hd.
Qed.

(** A row of one event sequence is that event. *)
Lemma event_of_seq d e1 e2 :
  delivery_ok d -> e1 ∈ events d -> e2 ∈ events d -> ev_seq e1 = ev_seq e2 -> e1 = e2.
Proof.
  intros Hok H1' H2' E. apply list_elem_of_lookup in H1' as [i Hi], H2' as [j Hj].
  assert (i = j) as ->; [|congruence].
  eapply NoDup_lookup; [exact (ok_seqs _ Hok)|..]; rewrite list_lookup_fmap; [by rewrite Hi|by rewrite Hj, E].
Qed.

Lemma event_of_id d e1 e2 :
  delivery_ok d -> e1 ∈ events d -> e2 ∈ events d -> ev_id e1 = ev_id e2 -> e1 = e2.
Proof.
  intros Hok H1' H2' E. apply list_elem_of_lookup in H1' as [i Hi], H2' as [j Hj].
  assert (i = j) as ->; [|congruence].
  eapply NoDup_lookup; [exact (ok_ids _ Hok)|..]; rewrite list_lookup_fmap; [by rewrite Hi|by rewrite Hj, E].
Qed.

Lemma event_by_id_found d e : delivery_ok d -> e ∈ events d -> event_by_id (ev_id e) d = inr e.
Proof.
  intros Hok He. unfold event_by_id. destruct (find _ _) as [f|] eqn:Hf.
  - apply find_some in Hf as [Hin%list_elem_of_In Heq%String.eqb_eq]. f_equal. by apply (event_of_id d).
  - assert (String.eqb (ev_id e) (ev_id e) = false) as Hno by (by eapply (find_none _ _ Hf), list_elem_of_In).
    by rewrite String.eqb_refl in Hno.
Qed.

(** ** Each step keeps the invariant *)

(** What an event row means depends on two tables only. *)
Lemma stored_frame d d' draft e :
  event_recipients d' = event_recipients d -> users (ledger d') = users (ledger d) ->
  stored_as d draft e -> stored_as d' draft e.
Proof. intros Hr Hu []. by split; rewrite ?Hr, ?Hu. Qed.

Lemma rows_frame d d' rows :
  event_recipients d' = event_recipients d -> users (ledger d') = users (ledger d) ->
  Forall (fun e => exists draft, stored_as d draft e) rows -> Forall (fun e => exists draft, stored_as d' draft e) rows.
Proof. intros Hr Hu. apply Forall_impl. intros e [draft Hd]. exists draft. by apply (stored_frame d). Qed.

Lemma inbox_row_frame d d' n e :
  event_recipients d' = event_recipients d -> inbox_row_ok d n e -> inbox_row_ok d' n e.
Proof. intros Hr []. by split; rewrite ?Hr. Qed.

Lemma inbox_frame d d' rows :
  event_recipients d' = event_recipients d -> events d' = events d ->
  Forall (fun n => forall id, notif_event_id n = Some id -> exists e, e ∈ events d /\ inbox_row_ok d n e) rows ->
  Forall (fun n => forall id, notif_event_id n = Some id -> exists e, e ∈ events d' /\ inbox_row_ok d' n e) rows.
Proof.
  intros Hr He. rewrite He. apply Forall_impl. intros n Hn id Hid. destruct (Hn id Hid) as (e & ? & ?).
  exists e. split; [done|]. by apply (inbox_row_frame d).
Qed.

(** One inbox row more. *)
Lemma notified_ok draft e d d' :
  delivery_ok d -> e ∈ events d -> describes d draft e -> notified draft d d' -> delivery_ok d'.
Proof.
  intros [Hs Hi Hr Hrec Hsrc Hin Hc Hw Hwd Hat] He [Hid Hkind Hactor Hus] Hn. destruct Hn as [kind n d Hrule [] Hnew].
  split; try done; cbn [notifications with_notifications].
  - by apply (rows_frame d).
  - by apply distinct_sources_cons.
  - constructor; [|by apply (inbox_frame d)]. intros id Hnid. exists e. split; [done|]. destruct from_recipient as (u & Hu & Hne & Hnu).
    split; [by rewrite from_event, Hid| |by rewrite Hnu, Hactor; intros ?%TypedID_String_inj|by rewrite from_actor, Hactor|].
    + apply Hus. rewrite Hnu. apply list_elem_of_fmap. eauto.
    + exists (Draft_Kind draft), kind. done.
  - eapply Forall_impl; [|exact Hc]. intros f Hf Hst k nk u Hk Hrl Hu Hne.
    destruct (Hf Hst k nk u Hk Hrl Hu Hne) as (m & Hm & ?). exists m. split; [by right|done].
Qed.

Lemma describes_notified draft draft' e d d' : notified draft' d d' -> describes d draft e -> describes d' draft e.
Proof. by intros [] []. Qed.

Lemma events_notified draft d d' : notified draft d d' -> events d' = events d.
Proof. by intros []. Qed.

Lemma notified_all_ok draft e d d' :
  rtc (notified draft) d d' -> delivery_ok d -> e ∈ events d -> describes d draft e ->
  delivery_ok d' /\ events d' = events d /\ describes d' draft e.
Proof.
  induction 1 as [d|d1 d2 d3 Hn _ IH]; [done|]. intros Hok He Hd.
  rewrite <- (events_notified _ _ _ Hn). apply IH.
  - by eapply notified_ok.
  - by rewrite (events_notified _ _ _ Hn).
  - by eapply describes_notified.
Qed.

(** A change of dispatch states only. *)
Lemma stored_with_state d d' draft e state :
  event_recipients d' = event_recipients d -> users (ledger d') = users (ledger d) ->
  stored_as d draft e -> stored_as d' draft (with_state state e).
Proof. intros Hr Hu [Hrow Hrec Ha Hus]. split; rewrite ?Hr, ?Hu; done. Qed.

Lemma set_states_events state P d :
  events (set_states state P d) = (fun e => if P e then with_state state e else e) <$> events d.
Proof. done. Qed.

Lemma elem_of_set_states state P d e :
  e ∈ events (set_states state P d) ->
  exists e0, e0 ∈ events d /\ e = if P e0 then with_state state e0 else e0.
Proof. rewrite set_states_events. intros (e0 & -> & He0)%list_elem_of_fmap. eauto. Qed.

(** Setting states keeps the invariant when the rows set to dispatched are
    complete and no row that has deliveries leaves that state. *)
Lemma set_states_ok state P d :
  delivery_ok d ->
  (forall e, e ∈ events d -> P e = true -> ev_dispatch_state e <> "dispatched") ->
  (state = "dispatched" -> forall e, e ∈ events d -> P e = true -> inbox_complete d e) ->
  delivery_ok (set_states state P d).
Proof.
  intros [Hs Hi Hr Hrec Hsrc Hin Hc Hw Hwd Hat] Hleave Hnew.
  assert (forall e, ev_seq (if P e then with_state state e else e) = ev_seq e) as Hseq by (intros e; by destruct (P e)).
  split; rewrite ?set_states_events; try done.
  - rewrite <- list_fmap_compose. erewrite list_fmap_ext; [exact Hs|]. intros i e _. apply Hseq.
  - rewrite <- list_fmap_compose. erewrite list_fmap_ext; [exact Hi|]. intros i e _. cbn. by destruct (P e).
  - apply Forall_fmap. eapply Forall_impl; [|exact Hr]. intros e [draft Hst]. exists draft. cbn.
    destruct (P e); [by apply (stored_with_state d)|by apply (stored_frame d)].
  - eapply Forall_impl; [|exact Hrec]. intros r (e & He & Hq). exists (if P e then with_state state e else e).
    split; [apply list_elem_of_fmap; eauto|by rewrite Hseq].
  - eapply Forall_impl; [|exact Hin]. intros n Hn id Hid. destruct (Hn id Hid) as (e & He & []).
    exists (if P e then with_state state e else e). split; [apply list_elem_of_fmap; eauto|].
    destruct (P e); by split.
  - apply Forall_fmap. apply List.Forall_forall. intros e He%list_elem_of_In. cbn. intros Hst k nk u Hk Hrl Hu Hne.
    assert (inbox_complete d e) as Hce.
    { destruct (P e) eqn:Hp; [by apply Hnew|]. eapply Forall_elem in Hc; [|exact He]. by apply Hc. }
    destruct (P e); by apply (Hce k nk u).
  - eapply Forall_impl; [|exact Hwd]. intros w (e & He & Hq & Hst). exists e. split; [|done].
    apply list_elem_of_fmap. exists e. split; [|done]. destruct (P e) eqn:Hp; [|done]. by destruct (Hleave e He Hp).
Qed.

Lemma with_deliveries_ok ws d :
  delivery_ok d -> NoDup ((fun w => (wd_subscription_id w, wd_event_seq w)) <$> ws) ->
  Forall (fun w => exists e, e ∈ events d /\ ev_seq e = wd_event_seq w /\ ev_dispatch_state e = "dispatched") ws ->
  delivery_ok (with_deliveries ws d).
Proof.
  intros [Hs Hi Hr Hrec Hsrc Hin Hc _ _ Hat] Hnd Hws. split; try done; [by apply (rows_frame d)|by apply (inbox_frame d)].
Qed.

(** What expansion adds: rows of the event, for subscriptions that had none. *)
Lemma expanded_rows seq subs d d' :
  rtc (expanded seq subs) d d' -> NoDup ((fun w => (wd_subscription_id w, wd_event_seq w)) <$> webhook_deliveries d) ->
  exists ws, d' = with_deliveries ws d /\ NoDup ((fun w => (wd_subscription_id w, wd_event_seq w)) <$> ws) /\
    (forall w, w ∈ ws -> w ∈ webhook_deliveries d \/ pending_delivery seq subs w) /\
    (forall w, w ∈ webhook_deliveries d -> w ∈ ws).
Proof.
  induction 1 as [d|d1 d2 d3 Hd _ IH]; intros Hnd.
  - exists (webhook_deliveries d). split; [by destruct d|auto].
  - destruct Hd as [w d Hw Hnew _]. destruct IH as (ws & -> & Hws & Hin & Hold).
    + cbn. constructor; [|done]. intros (v & Hv & Hvin)%list_elem_of_fmap. apply Hnew, Exists_exists.
      exists v. split; [by apply list_elem_of_In|]. injection Hv as Hsub Hseq. split; [done|].
      rewrite <- Hseq. by destruct Hw.
    + exists ws. split; [done|]. split; [done|]. split.
      * intros v Hv. destruct (Hin v Hv) as [Hv'|]; [|by right]. cbn in Hv'.
        apply elem_of_cons in Hv' as [->|]; [by right|by left].
      * intros v Hv. apply Hold. cbn. by right.
Qed.

Lemma event_by_id_elem id d e : event_by_id id d = inr e -> e ∈ events d /\ ev_id e = id.
Proof.
  unfold event_by_id. destruct (find _ _) as [x|] eqn:Hf; [|done]. intros [= ->].
  apply find_some in Hf as [Hin Heq%String.eqb_eq]. by apply list_elem_of_In in Hin.
Qed.

Lemma is_recorded_state e : is_recorded e = true -> ev_dispatch_state e = "recorded".
Proof. unfold is_recorded. by destruct (String.eqb_spec (ev_dispatch_state e) (DispatchState_String DispatchStateRecorded)). Qed.

Lemma settled_ok id d r d' :
  delivery_ok d -> (forall e, e ∈ events d -> ev_id e = id -> inbox_complete d e) -> settled id d r d' -> delivery_ok d'.
Proof.
  intros Hok Hcomplete Hset. destruct Hset as [| |e d1 He Hrec Hexp _]; [done..|].
  apply event_by_id_elem in He as [He Hid].
  destruct (expanded_rows _ _ _ _ Hexp (ok_deliveries _ Hok)) as (ws & -> & Hws & Hin & _).
  set (P := fun r => (ev_seq r =? ev_seq e) && is_recorded r).
  change (delivery_ok (with_deliveries ws (set_states "dispatched" P d))).
  assert (forall f, f ∈ events d -> P f = true -> f = e) as Hone.
  { intros f Hf Hp. unfold P in Hp. apply andb_true_iff in Hp as [Hq%Z.eqb_eq _]. by apply (event_of_seq d). }
  assert (P e = true) as Hpe by (unfold P; by rewrite Z.eqb_refl, Hrec).
  apply with_deliveries_ok; [|done|].
  - apply set_states_ok; [done| |].
    + intros f Hf Hp. rewrite (Hone f Hf Hp), (is_recorded_state _ Hrec). done.
    + intros _ f Hf Hp. rewrite (Hone f Hf Hp). by apply Hcomplete.
  - apply List.Forall_forall. intros w Hw%list_elem_of_In. destruct (Hin w Hw) as [Hold|Hp].
    + eapply Forall_elem in Hold; [|exact (ok_delivered _ Hok)]. destruct Hold as (f & Hf & Hq & Hst).
      exists (if P f then with_state "dispatched" f else f). rewrite set_states_events.
      split; [apply list_elem_of_fmap; eauto|]. by destruct (P f).
    + exists (with_state "dispatched" e). rewrite set_states_events. split; [|by destruct Hp].
      apply list_elem_of_fmap. exists e. by rewrite Hpe.
Qed.

(** A fanned-out draft leaves the inbox of its event complete. *)
Lemma fanned_complete draft d e : describes d draft e -> fanned draft d -> inbox_complete d e.
Proof.
  intros [Hid Hkind Hactor Hrec] Hf kind nkind u Hk Hrule Hu Hne.
  apply Hrec, list_elem_of_fmap in Hu as (i & -> & Hi). rewrite Hid.
  rewrite Hkind in Hk. apply Kind_String_inj in Hk. subst kind. apply (Hf nkind); [done..|].
  intros ->. by apply Hne.
Qed.

(** The recorder's dispatch of a draft that describes a stored event. *)
Lemma draft_dispatched_ok draft e d d' :
  delivery_ok d -> e ∈ events d -> describes d draft e -> draft_dispatched draft d d' -> delivery_ok d'.
Proof.
  intros Hok He Hd (d1 & Hn & Hd'). destruct (notified_all_ok _ _ _ _ Hn Hok He Hd) as (Hok1 & Hev & Hd1).
  destruct Hd' as [->|[Hf [r Hset]]]; [done|]. eapply settled_ok; [done| |exact Hset].
  intros f Hfin Hid. rewrite <- (describes_id _ _ _ Hd1) in Hid.
  rewrite (event_of_id d1 f e); [by eapply fanned_complete|done|done|by rewrite Hev|done].
Qed.

(** What dispatch never changes about events. *)
Record same_events (d d' : Delivery) : Prop := {
  same_recipients : event_recipients d' = event_recipients d;
  same_users : users (ledger d') = users (ledger d);
  same_identity : forall e, e ∈ events d -> exists state, with_state state e ∈ events d';
  same_ledger : exists rows recipients, ledger d' = with_events rows recipients (ledger d);
  same_attempts : dispatch_attempts d' = dispatch_attempts d
}.

Lemma with_state_id e : with_state (ev_dispatch_state e) e = e.
Proof. by destruct e. Qed.

Lemma same_events_refl d : same_events d d.
Proof.
  split; try done; [intros e He; exists (ev_dispatch_state e); by rewrite with_state_id|].
  exists (events d), (event_recipients d). unfold events, event_recipients. by destruct (ledger d).
Qed.

Lemma same_events_trans d1 d2 d3 : same_events d1 d2 -> same_events d2 d3 -> same_events d1 d3.
Proof.
  intros [R U I (x & y & L) A] [R' U' I' (x' & y' & L') A']. split; [congruence..| | |congruence].
  - intros e (s & Hs)%I. apply I' in Hs as [t Ht]. exists t. exact Ht.
  - exists x', y'. by rewrite L', L.
Qed.

Lemma set_states_same state P d : same_events d (set_states state P d).
Proof.
  split; [done|done| |by do 2 eexists|done]. intros e He. rewrite set_states_events.
  exists (if P e then state else ev_dispatch_state e). apply list_elem_of_fmap. exists e. split; [|done].
  destruct (P e); [done|]. by rewrite with_state_id.
Qed.

Lemma notified_same draft d d' : rtc (notified draft) d d' -> same_events d d'.
Proof.
  induction 1 as [|d1 d2 d3 [] _ IH]; [apply same_events_refl|]. eapply same_events_trans; [|exact IH].
  destruct (same_events_refl d) as [R U I L A]. by split.
Qed.

Lemma expanded_same seq subs d d' : rtc (expanded seq subs) d d' -> same_events d d'.
Proof.
  induction 1 as [|d1 d2 d3 [] _ IH]; [apply same_events_refl|]. eapply same_events_trans; [|exact IH].
  destruct (same_events_refl d) as [R U I L A]. by split.
Qed.

Lemma draft_dispatched_same draft d d' : draft_dispatched draft d d' -> same_events d d'.
Proof.
  intros (d1 & Hn & [->|[_ [r Hset]]]); [by eapply notified_same|]. eapply same_events_trans; [by eapply notified_same|].
  destruct Hset as [| |e d2 _ _ Hexp _]; [apply same_events_refl..|].
  eapply same_events_trans; [by eapply expanded_same|apply set_states_same].
Qed.

Lemma describes_same d d' draft e state : same_events d d' -> describes d draft e -> describes d' draft (with_state state e).
Proof. intros [R _ _ _ _] []. by split; rewrite ?R. Qed.

Lemma drafts_dispatched_ok drafts d d' :
  drafts_dispatched drafts d d' -> delivery_ok d ->
  (forall draft, draft ∈ drafts -> exists e, e ∈ events d /\ describes d draft e) ->
  delivery_ok d' /\ same_events d d'.
Proof.
  induction 1 as [d|draft drafts d1 d2 d3 Hd _ IH]; intros Hok Hall; [split; [done|apply same_events_refl]|].
  destruct (Hall draft) as (e & He & Hde); [by left|].
  pose proof (draft_dispatched_same _ _ _ Hd) as Hsame.
  destruct IH as [Hok3 Hsame3].
  - by eapply draft_dispatched_ok.
  - intros draft' Hin. destruct (Hall draft') as (f & Hf & Hdf); [by right|].
    destruct (same_identity _ _ Hsame f Hf) as [state Hst]. exists (with_state state f).
    split; [done|by eapply describes_same].
  - split; [done|by eapply same_events_trans].
Qed.

(** ** Recording *)

Section RecordOne.
Context (d : Delivery) (db : DB) (seq now : Z) (draft : Draft).
Context (Hok : delivery_ok (with_ledger db d)) (Hins : insertable db seq draft).
Let d0 := with_ledger db d.
Let d1 := with_ledger (after_recording db seq now draft) d.
Let row := event_row seq now draft.

Lemma fresh_seq e : e ∈ domain_events db -> ev_seq e <> seq /\ ev_id e <> TypedID_String (Draft_ID draft).
Proof using Hins. intros He. exact (Forall_elem _ _ _ (insertable_fresh _ _ _ Hins) He). Qed.

Lemma recipients_after s u :
  (s, u) ∈ event_recipients d1 <->
  (s = seq /\ u ∈ TypedID_String <$> Users (Draft_Recipients draft)) \/ (s, u) ∈ domain_event_recipients db.
Proof using Type.
  unfold d1, event_recipients. cbn. rewrite elem_of_app, elem_of_rev. rewrite !list_elem_of_fmap.
  split; (intros [Hl|]; [left|by right]).
  - destruct Hl as (i & [= -> ->] & Hi). split; [done|]. eauto.
  - destruct Hl as (-> & i & -> & Hi). eauto.
Qed.

Lemma no_recipients_yet u : (seq, u) ∉ domain_event_recipients db.
Proof using Hins Hok.
  intros Hu. eapply (Forall_elem _ _ _ (ok_recipients _ Hok)) in Hu as (e & He & Hseq). cbn in Hseq.
  by destruct (fresh_seq e).
Qed.

Lemma old_recipients e u : e ∈ domain_events db -> (ev_seq e, u) ∈ event_recipients d1 <-> (ev_seq e, u) ∈ event_recipients d0.
Proof using Hins.
  intros He. rewrite recipients_after. split; [|by right]. intros [[Hs _]|]; [|done]. by destruct (fresh_seq e).
Qed.

Lemma stored_after draft' e : e ∈ domain_events db -> stored_as d0 draft' e -> stored_as d1 draft' e.
Proof using Hins.
  intros He [Hrow Hrec Ha Hus]. split; [done| |done|done]. intros u. rewrite old_recipients by done. apply Hrec.
Qed.

Lemma stored_new : stored_as d1 draft row.
Proof using Hins Hok.
  split; [done| |apply Hins|apply Hins]. intros u. rewrite recipients_after. cbn [row event_row ev_seq].
  split; [|by left]. intros [[_ Hu]|Hu]; [done|]. by apply no_recipients_yet in Hu.
Qed.

Lemma record_one_ok : delivery_ok d1.
Proof using Hins Hok.
  destruct Hok as [Hs Hi Hr Hrec Hsrc Hin Hc Hw Hwd Hat]. split; try done.
  - cbn. constructor; [|done]. intros (e & Hq & He)%list_elem_of_fmap. by destruct (fresh_seq e).
  - cbn. constructor; [|done]. intros (e & Hq & He)%list_elem_of_fmap. by destruct (fresh_seq e).
  - constructor; [exists draft; exact stored_new|]. apply List.Forall_forall. intros e He%list_elem_of_In.
    destruct (Forall_elem _ _ _ Hr He) as [draft' Hst]. exists draft'. by apply stored_after.
  - apply List.Forall_forall. intros [s u] Hu%list_elem_of_In. apply recipients_after in Hu as [[-> _]|Hu].
    + exists row. split; [by left|done].
    + destruct (Forall_elem _ _ _ Hrec Hu) as (e & He & Hq). exists e. split; [by right|done].
  - eapply Forall_impl; [|exact Hin]. intros n Hn id Hid. destruct (Hn id Hid) as (e & He & []).
    exists e. split; [by right|]. split; try done. by apply old_recipients.
  - constructor; [done|]. apply List.Forall_forall. intros e He%list_elem_of_In Hst k nk u Hk Hrl Hu Hne.
    apply old_recipients in Hu; [|done]. by eapply (Forall_elem _ _ _ Hc He).
  - eapply Forall_impl; [|exact Hwd]. intros w (e & He & ?). exists e. split; [by right|done].
Qed.
End RecordOne.

(** The tables after a command: its drafts are stored, and what was stored still is. *)
Lemma recorded_ok d db ds db' :
  recorded db ds db' -> delivery_ok (with_ledger db d) ->
  delivery_ok (with_ledger db' d) /\
  (forall draft, draft ∈ ds -> exists e, e ∈ domain_events db' /\ stored_as (with_ledger db' d) draft e) /\
  (forall draft e, e ∈ domain_events db -> stored_as (with_ledger db d) draft e ->
     e ∈ domain_events db' /\ stored_as (with_ledger db' d) draft e).
Proof.
  induction 1 as [db|db draft ds seq now db' Hins Hrec IH]; intros Hok.
  - split; [done|]. split; [|done]. intros draft Hd. by apply elem_of_nil in Hd.
  - destruct IH as (Hok' & Hnew & Hold); [exact (record_one_ok d db seq now draft Hok Hins)|].
    split; [done|]. split.
    + intros draft' [->|Hd]%elem_of_cons; [|by apply Hnew].
      exists (event_row seq now draft). apply (Hold draft); [by left|by apply stored_new].
    + intros draft' e He Hst. apply (Hold draft'); [by right|by apply stored_after].
Qed.

Lemma same_outbox_ok d db : same_outbox (ledger d) db -> delivery_ok d -> delivery_ok (with_ledger db d).
Proof.
  intros (He & Hr & Hu) [Hs Hi Hrows Hrec Hsrc Hin Hc Hw Hwd Hat].
  assert (events (with_ledger db d) = events d) as He' by exact He.
  assert (event_recipients (with_ledger db d) = event_recipients d) as Hr' by exact Hr.
  split; rewrite ?He', ?Hr'; try done.
  - by apply (rows_frame d).
  - change (notifications (with_ledger db d)) with (notifications d). eapply Forall_impl; [|exact Hin].
    intros n Hn id Hid. destruct (Hn id Hid) as (e & ? & ?). exists e. split; [done|]. by apply (inbox_row_frame d).
  - eapply Forall_impl; [|exact Hc]. intros e Hst Hd k nk u. rewrite Hr'. by apply Hst.
Qed.

(** ** The sweep, the inbox and subscriptions *)

Lemma with_attempts_ok a d :
  map_Forall (fun _ a => 0 <= a) a -> delivery_ok d -> delivery_ok (with_attempts a d).
Proof. intros Ha []. split; try done; [by apply (rows_frame d)|by apply (inbox_frame d)]. Qed.

Lemma attempts_nonneg d seq : delivery_ok d -> 0 <= attempts d seq.
Proof.
  intros Hok. unfold attempts. destruct (dispatch_attempts d !! seq) as [a|] eqn:Ha; [|done].
  exact (ok_attempts _ Hok _ _ Ha).
Qed.

Lemma count_attempt_ok rows d : delivery_ok d -> delivery_ok (count_attempt rows d).
Proof.
  intros Hok. apply with_attempts_ok; [|done]. induction rows as [|e rows IH]; [apply Hok|]. cbn.
  apply map_Forall_insert_2; [|done]. pose proof (attempts_nonneg d (ev_seq e) Hok). lia.
Qed.

Lemma with_subscriptions_ok subs d : delivery_ok d -> delivery_ok (with_subscriptions subs d).
Proof. intros []. split; try done; [by apply (rows_frame d)|by apply (inbox_frame d)]. Qed.

Lemma retire_exhausted_ok cutoff d : delivery_ok d -> delivery_ok (retire_exhausted cutoff d).
Proof.
  intros Hok. apply set_states_ok; [done| |done]. intros e _ Hp. apply andb_true_iff in Hp as [Hp _].
  apply andb_true_iff in Hp as [Hp _]. by rewrite (is_recorded_state _ Hp).
Qed.

Lemma claimed_elem cutoff limit d e :
  e ∈ claimed cutoff limit d -> e ∈ events d /\ stale cutoff e = true.
Proof.
  intros (i & Hx & _)%elem_of_take. apply list_elem_of_lookup_2 in Hx. rewrite merge_sort_Permutation in Hx.
  apply list_elem_of_filter in Hx as [Hs He]. split; [done|]. by apply Is_true_true.
Qed.

Lemma listed_ok cutoff limit d r d' :
  listed cutoff limit d r d' -> delivery_ok d ->
  delivery_ok d' /\ (forall draft drafts n, r = RecordedEventsListed drafts n -> draft ∈ drafts ->
    exists e, e ∈ events d' /\ describes d' draft e).
Proof.
  intros Hl Hok. pose proof (retire_exhausted_ok cutoff d Hok) as Hok1.
  destruct Hl as [|reason|reason|drafts n Hd]; [by split..| |].
  - split; [by apply count_attempt_ok|done].
  - split; [by apply count_attempt_ok|]. intros draft ? ? [= <- <-] Hin.
    destruct (Hd draft Hin) as (e & He & Hr). apply claimed_elem in He as [He _]. exists e. split; [done|].
    destruct (Forall_elem _ _ _ (ok_rows _ Hok1) He) as [draft0 Hst].
    assert (describes d draft e) as []; [|by split].
    eapply (rebuild_describes d draft0); [|done]. by apply (stored_frame (retire_exhausted cutoff d)).
Qed.

Lemma swept_ok d d' : swept d d' -> delivery_ok d -> delivery_ok d'.
Proof.
  intros (cutoff & r & d1 & Hl & Hd) Hok. destruct (listed_ok _ _ _ _ _ Hl Hok) as [Hok1 Hdrafts].
  destruct r as [drafts n|reason]; [|by subst]. apply (drafts_dispatched_ok drafts d1 d' Hd Hok1).
  intros draft Hin. by apply (Hdrafts draft drafts n).
Qed.

(** Stored drafts stay stored when only dispatch states change. *)
Lemma stored_same d d' draft e : same_events d d' -> e ∈ events d -> stored_as d draft e ->
  exists e', e' ∈ events d' /\ stored_as d' draft e'.
Proof.
  intros [R U I _ _] He Hst. destruct (I e He) as [state Hs]. exists (with_state state e).
  split; [done|]. by apply (stored_with_state d).
Qed.

Lemma swept_same d d' : swept d d' -> delivery_ok d ->
  event_recipients d' = event_recipients d /\ users (ledger d') = users (ledger d) /\
  (forall e, e ∈ events d -> exists state, with_state state e ∈ events d') /\
  (exists rows recipients, ledger d' = with_events rows recipients (ledger d)).
Proof.
  intros (cutoff & r & d1 & Hl & Hd) Hok. destruct (listed_ok _ _ _ _ _ Hl Hok) as [Hok1 Hdrafts].
  assert (same_events d (with_attempts (dispatch_attempts d) d1)) as [R U I L _].
  { pose proof (set_states_same (DispatchState_String DispatchStateFailed)
      (fun e => stale cutoff e && (MaxEventDispatchAttempts <=? attempts d (ev_seq e))) d) as [R U I L A].
    destruct Hl; try (by split). destruct (same_events_refl d). by split. }
  destruct r as [drafts n|reason]; [|by subst].
  destruct (drafts_dispatched_ok drafts d1 d' Hd Hok1) as [_ [R' U' I' (x & y & L') _]].
  { intros draft Hin. by apply (Hdrafts draft drafts n). }
  split; [by rewrite R'|]. split; [by rewrite U'|]. split.
  - intros e (s & Hs)%I. apply I' in Hs as [t Ht]. exists t. exact Ht.
  - destruct L as (v & w & L). exists x, y. rewrite L'. cbn in L. by rewrite L.
Qed.

Lemma set_notif_ok P state d :
  delivery_ok d ->
  delivery_ok (with_notifications ((fun n => if P n : bool then set_notif_state state n else n) <$> notifications d) d).
Proof.
  intros [Hs Hi Hr Hrec Hsrc Hin Hc Hw Hwd Hat]. split; try done; cbn [notifications with_notifications].
  - by apply (rows_frame d).
  - intros i j a b. rewrite !list_lookup_fmap. destruct (notifications d !! i) as [x|] eqn:Hx; [|done].
    destruct (notifications d !! j) as [y|] eqn:Hy; [|done]. cbn. intros [= <-] [= <-] Hss.
    apply (Hsrc i j x y Hx Hy). by destruct (P x), (P y).
  - apply Forall_fmap. eapply Forall_impl; [|exact Hin]. intros n Hn id. cbn. intros Hid.
    assert (notif_event_id n = Some id) as Hid' by (by destruct (P n)). destruct (Hn id Hid') as (e & He & []).
    exists e. split; [done|]. destruct (P n); by split.
  - eapply Forall_impl; [|exact Hc]. intros e Hf Hst k nk u Hk Hrl Hu Hne.
    destruct (Hf Hst k nk u Hk Hrl Hu Hne) as (m & Hm & Hme & Hmr).
    exists (if P m then set_notif_state state m else m). split; [apply list_elem_of_fmap; eauto|]. by destruct (P m).
Qed.
End Correct.
