(* ===== verification/DeliverySystem.v ===== *)
(** * The running system: commands, dispatches, sweeps, crashes

    The steps of the system over the database and the drafts in flight, and what
    holds in every state they reach: no inbox row without its event, exactly one
    per recipient of a dispatched event, webhook rows for dispatched events only,
    and sweeps that settle every event. *)

From S2P Require Import Prelude.
From S2P Require Import Core.
From S2P Require Import Events.
From S2P Require Import LedgerValues.
From S2P Require Import Database.
From S2P Require Import Tx.
From S2P Require Import LedgerSpec.
From S2P Require Import Outbox.
From S2P Require Import HelperSpecs.
From S2P Require Import Refinement.
From S2P Require Import LedgerCorrect.
From S2P Require Import DeliveryDB.
From S2P Require Import Inbox.
From S2P Require Import EventStore.
From S2P Require Import Recorder.
From S2P Require Import DeliverySpecs.
From S2P Require Import DeliveryCorrect.
Local Open Scope string_scope.
Local Open Scope Z_scope.

Section System.
Context `{UUIDLaws, JSONB}.

(** [in_flight] holds the drafts a command has committed: their inline dispatch
    may come now, later, again or never. *)
Record System := MkSystem { sys_db : Delivery; in_flight : list Draft }.

Inductive sys_step : System -> System -> Prop :=
| step_command env c d p :
    valid_command c ->
    sys_step (MkSystem d p)
      (MkSystem (with_ledger (snd (run env (ledger d) (perform c))) d)
        (p ++ drafts_of (fst (run env (ledger d) (perform c)))))
| step_dispatch env draft d p :
    draft ∈ p -> sys_step (MkSystem d p) (MkSystem (snd (run env d (Recorder.Dispatch [draft]))) p)
| step_sweep env d p : sys_step (MkSystem d p) (MkSystem (snd (run env d sweepRecordedEvents)) p)
| step_read env user id d p :
    sys_step (MkSystem d p) (MkSystem (snd (run env d (Notification.Service_MarkRead user id))) p)
| step_subscriptions subs d p : sys_step (MkSystem d p) (MkSystem (with_subscriptions subs d) p).

Record system_ok (s : System) : Prop := {
  system_ledger : ledger_ok (ledger (sys_db s));
  system_delivery : delivery_ok (sys_db s);
  system_in_flight : forall draft, draft ∈ in_flight s -> exists e, e ∈ events (sys_db s) /\ stored_as (sys_db s) draft e
}.

(** ** A command on the ledger's tables is a command on the system's *)

Lemma run_on_ledger {A} env d (m : M A) :
  run env d (on_ledger m) = (fst (run env (ledger d) m), with_ledger (snd (run env (ledger d) m)) d).
Proof. unfold run, on_ledger. cbn [st_base st_db st_step]. by destruct (m env _). Qed.

Lemma ledger_ok_events rows recipients db : ledger_ok (with_events rows recipients db) <-> ledger_ok db.
Proof. split; intros [Hb Hf]; by split. Qed.

Lemma swept_run env d : delivery_ok d -> swept d (snd (run env d sweepRecordedEvents)).
Proof.
  intros Hok. destruct (wp_run (env := env) sweepRecordedEvents (fun _ st => swept d (st_base st)) d) as (st & Hst & ->); [|done].
  apply sweepRecordedEvents_wp; [apply Hok|done].
Qed.

Lemma dispatched_run env d drafts : drafts_dispatched drafts d (snd (run env d (Recorder.Dispatch drafts))).
Proof.
  destruct (wp_run (env := env) (Recorder.Dispatch drafts) (fun _ st => drafts_dispatched drafts d (st_base st)) d)
    as (st & Hst & ->); [|done]. by apply Recorder_Dispatch_wp.
Qed.

(** Marking read changes states of inbox rows only, if anything. *)
Lemma scan_inbox_wp {env} rows values st (Q : DomainError + list Notification.Notification -> TxStateOf Delivery -> Prop) :
  (forall r st', st_base st' = st_base st -> Q r st') -> wp env (Notification.scan_rows rows values) Q st.
Proof.
  revert values st. induction rows as [|[row name title] rows IH]; intros values st HQ; cbn [Notification.scan_rows].
  - by apply wp_ret, HQ.
  - apply wp_bind. unfold Notification.scanNotificationRow. apply wp_bind, wp_fault_point. intros [].
    + apply wp_ret, wp_ret. by apply HQ.
    + apply wp_ret. cbv zeta. match goal with |- wp _ (match ?x with _ => _ end) _ _ => destruct x end.
      * by apply wp_ret, HQ.
      * apply IH. intros r st' Hb. by apply HQ.
Qed.

Lemma MarkRead_run env d user id :
  let d' := snd (run env d (Notification.Service_MarkRead user id)) in
  d' = d \/ d' = with_notifications ((fun row => if decide (is_notification (TypedID_String id) (TypedID_String user) row)
    then set_notif_state "read" row else row) <$> notifications d) d.
Proof.
  cbv zeta. destruct (wp_run (env := env) (Notification.Service_MarkRead user id) (fun _ st =>
    st_base st = d \/ st_base st = with_notifications ((fun row => if decide (is_notification (TypedID_String id) (TypedID_String user) row)
    then set_notif_state "read" row else row) <$> notifications d) d) d) as (st & Hst & ->); [|done].
  unfold Notification.Service_MarkRead, Notification.MarkRead. apply wp_bind, wp_bind, wp_autocommit; cbn [st_base update_notification_state].
  { by apply wp_ret, wp_ret; left. }
  destruct (length _) as [|n]; [apply wp_ret, wp_ret; by right|].
  apply wp_bind, wp_pool_query; [apply wp_ret, wp_ret; by right|].
  apply wp_bind. unfold Notification.scanNotificationRows. apply wp_bind, scan_inbox_wp. intros r st1 Hb1. destruct r as [reason|values].
  - apply wp_ret, wp_ret, wp_ret. rewrite Hb1. by right.
  - apply wp_bind, wp_fault_point. intros b. apply wp_ret, wp_ret, wp_ret. cbn [tick st_base]. rewrite Hb1. by right.
Qed.

(** ** Every step keeps the invariant *)

Lemma in_flight_same (d d' : Delivery) (p : list Draft) :
  (forall draft, draft ∈ p -> exists e, e ∈ events d /\ stored_as d draft e) ->
  event_recipients d' = event_recipients d -> users (ledger d') = users (ledger d) ->
  (forall e, e ∈ events d -> exists state, with_state state e ∈ events d') ->
  forall draft, draft ∈ p -> exists e, e ∈ events d' /\ stored_as d' draft e.
Proof.
  intros Hp Hr Hu He draft (e & Hin & Hst)%Hp. destruct (He e Hin) as [state Hs].
  exists (with_state state e). split; [done|]. by apply (stored_with_state d).
Qed.

Lemma command_ok c env d p :
  valid_command c -> system_ok (MkSystem d p) ->
  system_ok (MkSystem (with_ledger (snd (run env (ledger d) (perform c))) d) (p ++ drafts_of (fst (run env (ledger d) (perform c))))).
Proof.
  intros Hv [Hl Hd Hp]. cbn [sys_db in_flight] in *.
  pose proof (perform_spec env (ledger d) c (ledger_funds _ Hl) Hv) as Hperf.
  destruct (performed_recorded _ _ _ _ Hperf) as (db0 & Hsame & Hrec).
  pose proof (same_outbox_ok _ _ Hsame Hd) as Hok0.
  destruct (recorded_ok _ _ _ _ Hrec Hok0) as (Hok & Hnew & Hold).
  split; cbn [sys_db in_flight].
  - by eapply performed_ledger_ok.
  - done.
  - intros draft [Hin|Hin]%elem_of_app; [|by apply Hnew].
    destruct (Hp draft Hin) as (e & He & Hst). exists e. apply (Hold draft).
    + destruct Hsame as [-> _]. exact He.
    + apply (stored_frame d); [exact (proj1 (proj2 Hsame))|exact (proj2 (proj2 Hsame))|done].
Qed.

Lemma step_ok s s' : sys_step s s' -> system_ok s -> system_ok s'.
Proof.
  intros Hs Hok. destruct Hs as [env c d p Hv|env draft d p Hin|env d p|env user id d p|subs d p].
  - by apply command_ok.
  - destruct Hok as [Hl Hd Hp]. cbn [sys_db in_flight] in *.
    destruct (drafts_dispatched_ok _ _ _ (dispatched_run env d [draft]) Hd) as [Hd' [R U I (x & y & L) _]].
    { intros draft' ->%list_elem_of_singleton. destruct (Hp draft Hin) as (e & He & Hst).
      exists e. split; [done|by apply stored_describes]. }
    split; cbn [sys_db in_flight]; [by rewrite L; apply ledger_ok_events|done|by apply (in_flight_same d)].
  - destruct Hok as [Hl Hd Hp]. cbn [sys_db in_flight] in *. pose proof (swept_run env d Hd) as Hsw.
    destruct (swept_same _ _ Hsw Hd) as (R & U & I & x & y & L).
    split; cbn [sys_db in_flight]; [by rewrite L; apply ledger_ok_events|by eapply swept_ok|by apply (in_flight_same d)].
  - destruct Hok as [Hl Hd Hp]. cbn [sys_db in_flight] in *. destruct (MarkRead_run env d user id) as [-> | ->]; [by split|].
    split; cbn [sys_db in_flight]; [done| |].
    + apply (set_notif_ok (fun row => bool_decide (is_notification (TypedID_String id) (TypedID_String user) row)) "read") in Hd.
      refine (eq_ind _ (fun rows => delivery_ok (with_notifications rows d)) Hd _ (list_fmap_ext _ _ _ _)).
      intros i row _. cbn beta. case_decide; [by rewrite bool_decide_true by done|by rewrite bool_decide_false by done].
    + apply (in_flight_same d); try done. intros e He. exists (ev_dispatch_state e). by rewrite with_state_id.
  - destruct Hok as [Hl Hd Hp]. split; cbn [sys_db in_flight]; [done|by apply with_subscriptions_ok|].
    apply (in_flight_same d); try done. intros e He. exists (ev_dispatch_state e). by rewrite with_state_id.
Qed.

Lemma reachable_ok s s' : rtc sys_step s s' -> system_ok s -> system_ok s'.
Proof. induction 1; [done|]. intros ?. by eapply IHrtc, step_ok. Qed.

(** ** Safety *)

(** The notification rows of one event and one user. *)
Definition inbox_rows (d : Delivery) (event user : string) : list NotificationRow :=
  filter (fun n => notif_event_id n = Some event /\ notif_recipient n = user) (notifications d).

Lemma inbox_rows_unique d event user : delivery_ok d -> (length (inbox_rows d event user) <= 1)%nat.
Proof.
  intros Hok. pose proof (ok_sources _ Hok) as Hd. unfold inbox_rows. revert Hd. generalize (notifications d).
  intros rows. induction rows as [|n rows IH]; intros Hd; [cbn; lia|].
  assert (distinct_sources rows) as Hd'.
  { intros i j a b Hi Hj Hs. by injection (Hd (S i) (S j) a b Hi Hj Hs). }
  rewrite filter_cons. case_decide as Hn; [|by apply IH]. cbn.
  destruct (filter _ rows) as [|m rest] eqn:Hf; [done|].
  assert (m ∈ m :: rest) as Hm by (by left). rewrite <- Hf in Hm.
  apply list_elem_of_filter in Hm as [[Hme Hmr] Hm]. apply list_elem_of_lookup in Hm as [j Hj].
  destruct Hn as [Hne Hnr]. assert (same_source n m) as Hs by (unfold same_source; rewrite Hne; split; [done|split; congruence]).
  by specialize (Hd 0%nat (S j) n m eq_refl Hj Hs).
Qed.

Lemma has_inbox_rows d event user : has_inbox d event user -> inbox_rows d event user <> [].
Proof.
  intros (n & Hn & He & Hr) Hnil. assert (n ∈ inbox_rows d event user) as Hin by (by apply list_elem_of_filter).
  rewrite Hnil in Hin. by apply elem_of_nil in Hin.
Qed.

(** C30: In every state the running system reaches (the ledger's commands, dispatches that are
    repeated, late or lost, sweeps, reads and new subscriptions, under any faults), an inbox row
    that names an event belongs to a stored event, notifies one of its recipients other than its
    actor under the kind's rule, and is the only row of that event and user. *)
Theorem inbox_rows_are_justified s s' n id :
  rtc sys_step s s' -> system_ok s -> n ∈ notifications (sys_db s') -> notif_event_id n = Some id ->
  exists e, e ∈ events (sys_db s') /\ ev_id e = id /\ inbox_row_ok (sys_db s') n e /\
    inbox_rows (sys_db s') id (notif_recipient n) = [n].
Proof.
  intros Hs Hok Hn Hid. apply (reachable_ok _ _ Hs) in Hok as [_ Hok _].
  destruct (Forall_elem _ _ _ (ok_inbox _ Hok) Hn id Hid) as (e & He & Hrow). exists e.
  split; [done|]. split; [|split; [done|]].
  - destruct Hrow as [Hie _ _ _ _]. congruence.
  - pose proof (inbox_rows_unique (sys_db s') id (notif_recipient n) Hok) as Hlen.
    assert (n ∈ inbox_rows (sys_db s') id (notif_recipient n)) as Hin by (by apply list_elem_of_filter).
    destruct (inbox_rows _ _ _) as [|m [|k rows]]; [by apply elem_of_nil in Hin| |cbn in Hlen; lia].
    apply list_elem_of_singleton in Hin. by subst.
Qed.

(** In every state the running system reaches, an event marked dispatched whose kind notifies
    has exactly one inbox row for each of its recipients but its actor. *)
Theorem dispatched_events_fill_every_inbox s s' e kind nkind user :
  rtc sys_step s s' -> system_ok s -> e ∈ events (sys_db s') -> ev_dispatch_state e = "dispatched" ->
  ev_kind e = Kind_String kind -> NotificationRuleFor kind = NotifyAs nkind ->
  (ev_seq e, user) ∈ event_recipients (sys_db s') -> user <> ev_actor_user_id e ->
  length (inbox_rows (sys_db s') (ev_id e) user) = 1%nat.
Proof.
  intros Hs Hok He Hst Hk Hrule Hu Hne. apply (reachable_ok _ _ Hs) in Hok as [_ Hok _].
  pose proof (Forall_elem _ _ _ (ok_complete _ Hok) He Hst kind nkind user Hk Hrule Hu Hne) as Hhas.
  apply has_inbox_rows in Hhas. pose proof (inbox_rows_unique (sys_db s') (ev_id e) user Hok).
  destruct (inbox_rows _ _ _) as [|m [|k rows]]; [done|done|cbn in *; lia].
Qed.
End System.
