(* ===== verification/DeliveryProgress.v ===== *)
(** * Sweeps make progress

    Every sweep whose two statements run settles some recorded event or uses up
    one of its attempts, so finitely many of them leave no old event recorded,
    however the dispatches in between fail. *)

From S2P Require Import Prelude.
From S2P Require Import Core.
From S2P Require Import Events.
From S2P Require Import Database.
From S2P Require Import Tx.
From S2P Require Import DeliveryDB.
From S2P Require Import EventStore.
From S2P Require Import Recorder.
From S2P Require Import DeliverySpecs.
From S2P Require Import DeliveryCorrect.
From S2P Require Import DeliverySystem.
Local Open Scope string_scope.
Local Open Scope Z_scope.

Section Progress.
Context `{UUIDLaws, JSONB}.

(** ** Events only move forward *)

Definition advance (e e' : EventRow) : Prop :=
  e' = e \/ is_recorded e = true /\ exists state, state ∈ ["dispatched"; "dispatch_failed"] /\ e' = with_state state e.

Definition advances (d d' : Delivery) : Prop :=
  Forall2 advance (events d) (events d') /\ dispatch_attempts d' = dispatch_attempts d.

#[export] Instance advance_refl : Reflexive advance.
Proof. by left. Qed.

Lemma settled_state state : state ∈ ["dispatched"; "dispatch_failed"] -> String.eqb state (DispatchState_String DispatchStateRecorded) = false.
Proof. by intros [->|[->|[]%elem_of_nil]%elem_of_cons]%elem_of_cons. Qed.

#[export] Instance advance_trans : Transitive advance.
Proof.
  intros e1 e2 e3 [->|(Hr & s & Hs & ->)]; [done|]. intros [->|(Hr2 & _)]; [right; eauto|].
  unfold is_recorded in Hr2. cbn [with_state ev_dispatch_state] in Hr2. by rewrite (settled_state _ Hs) in Hr2.
Qed.

Lemma advances_refl d : advances d d.
Proof. by split. Qed.

Lemma advances_trans d1 d2 d3 : advances d1 d2 -> advances d2 d3 -> advances d1 d3.
Proof.
  intros [He Ha] [He' Ha']. split; [by etrans|congruence].
Qed.

Lemma advances_same d d' : events d' = events d -> dispatch_attempts d' = dispatch_attempts d -> advances d d'.
Proof. intros He Ha. unfold advances. rewrite He, Ha. apply advances_refl. Qed.

Lemma set_states_advances state P d :
  state ∈ ["dispatched"; "dispatch_failed"] -> (forall e, P e = true -> is_recorded e = true) -> advances d (set_states state P d).
Proof.
  intros Hs HP. split; [|done]. rewrite set_states_events. apply Forall2_fmap_r, Forall2_same_length_lookup_2; [done|].
  intros i e e' He He'. assert (e' = e) as -> by congruence. unfold compose. destruct (P e) eqn:Hp; [right; split; eauto|reflexivity].
Qed.

Lemma draft_dispatched_advances draft d d' : draft_dispatched draft d d' -> advances d d'.
Proof.
  intros (d1 & Hn & Hd).
  assert (advances d d1) as H1'.
  { clear Hd. induction Hn as [|x y z Hxy _ IH]; [apply advances_refl|].
    eapply advances_trans; [|exact IH]. destruct Hxy. by apply advances_same. }
  destruct Hd as [->|[_ [r Hset]]]; [done|]. eapply advances_trans; [exact H1'|].
  destruct Hset as [| |e d2 _ _ Hexp _]; [apply advances_refl..|].
  eapply advances_trans.
  - instantiate (1 := d2). induction Hexp as [|x y z Hxy _ IH]; [apply advances_refl|].
    eapply advances_trans; [|by apply IH]. destruct Hxy. by apply advances_same.
  - apply set_states_advances; [by left|]. by intros f [_ Hf]%andb_true_iff.
Qed.

Lemma drafts_dispatched_advances drafts d d' : drafts_dispatched drafts d d' -> advances d d'.
Proof. induction 1; [apply advances_refl|]. eapply advances_trans; [by eapply draft_dispatched_advances|done]. Qed.

(** ** The work that is left *)

(** A recorded event may still be claimed once per attempt left, and retired. *)
Definition work_left (d : Delivery) (e : EventRow) : nat :=
  if is_recorded e then S (Z.to_nat (MaxEventDispatchAttempts - attempts d (ev_seq e))) else 0.

Definition work (d : Delivery) : nat := sum_list_with (work_left d) (events d).

Lemma sum_list_with_le {A} (f g : A -> nat) l :
  (forall x, x ∈ l -> f x <= g x)%nat -> (sum_list_with f l <= sum_list_with g l)%nat.
Proof.
  induction l as [|x l IH]; intros Hle; cbn; [lia|]. specialize (Hle x (list_elem_of_here _ _)) as Hx.
  assert (sum_list_with f l <= sum_list_with g l)%nat; [|lia]. apply IH. intros y Hy. apply Hle. by right.
Qed.

Lemma sum_list_with_lt {A} (f g : A -> nat) l x :
  (forall x, x ∈ l -> f x <= g x)%nat -> x ∈ l -> (f x < g x)%nat -> (sum_list_with f l < sum_list_with g l)%nat.
Proof.
  intros Hle Hx Hlt. apply list_elem_of_split in Hx as (l1 & l2 & ->). rewrite !sum_list_with_app. cbn.
  assert (sum_list_with f l1 <= sum_list_with g l1)%nat by (apply sum_list_with_le; set_solver).
  assert (sum_list_with f l2 <= sum_list_with g l2)%nat by (apply sum_list_with_le; set_solver). lia.
Qed.

Lemma sum_list_with_fmap {A B} (f : B -> nat) (g : A -> B) l : sum_list_with f (g <$> l) = sum_list_with (f ∘ g) l.
Proof. induction l as [|x l IH]; [done|]. cbn. by rewrite IH. Qed.

Lemma advance_work d d' e e' :
  dispatch_attempts d' = dispatch_attempts d -> advance e e' -> (work_left d' e' <= work_left d e)%nat.
Proof.
  intros Ha [->|(_ & s & Hs & ->)]; unfold work_left, attempts; rewrite Ha; [done|].
  unfold is_recorded at 1. cbn [with_state ev_dispatch_state]. rewrite (settled_state _ Hs). lia.
Qed.

Lemma advances_work d d' : advances d d' -> (work d' <= work d)%nat.
Proof.
  intros [He Ha]. unfold work. induction He as [|e e' es es' Hee _ IH]; cbn; [lia|].
  pose proof (advance_work d d' e e' Ha Hee). lia.
Qed.

Lemma work_bound d : delivery_ok d -> (work d <= 21 * length (filter (fun e => is_recorded e = true) (events d)))%nat.
Proof.
  intros Hok. unfold work. assert (forall e, (work_left d e <= 21)%nat) as Hle.
  { intros e. pose proof (attempts_nonneg d (ev_seq e) Hok). unfold work_left, MaxEventDispatchAttempts.
    destruct (is_recorded e); lia. }
  induction (events d) as [|e es IH]; [cbn; lia|]. rewrite filter_cons. cbn [sum_list_with].
  case_decide as He; cbn [length]; [specialize (Hle e); lia|]. unfold work_left at 1.
  destruct (is_recorded e); [done|]. lia.
Qed.

(** ** One sweep *)

Lemma attempts_count rows d seq :
  attempts (count_attempt rows d) seq = if decide (seq ∈ ev_seq <$> rows) then attempts d seq + 1 else attempts d seq.
Proof.
  unfold attempts at 1, count_attempt. cbn [dispatch_attempts with_attempts].
  induction rows as [|e rows IH]; [done|]. cbn [foldr fmap list_fmap].
  destruct (decide (seq = ev_seq e)) as [->|Hne].
  - rewrite lookup_insert_eq. cbn. by rewrite decide_True by (by left).
  - rewrite lookup_insert_ne by done. rewrite IH. by destruct (decide (seq ∈ ev_seq <$> rows)) as [Hin|Hin];
      [rewrite decide_True by (by right)|rewrite decide_False by (by intros [?|?]%elem_of_cons)].
Qed.

Lemma claimed_nonempty cutoff limit d e :
  e ∈ events d -> stale cutoff e = true -> exists f, f ∈ claimed cutoff (S limit) d.
Proof.
  intros He Hs. unfold claimed. assert (e ∈ merge_sort by_seq (filter (stale cutoff) (events d))) as Hin.
  { rewrite merge_sort_Permutation. apply list_elem_of_filter. by rewrite Hs. }
  destruct (merge_sort _ _) as [|f rows]; [by apply elem_of_nil in Hin|]. exists f. cbn. by left.
Qed.

Lemma stale_retired cutoff d e :
  e ∈ events (retire_exhausted cutoff d) -> stale cutoff e = true -> attempts d (ev_seq e) < MaxEventDispatchAttempts.
Proof.
  intros (f & Hf & ->)%elem_of_set_states Hs. destruct (stale cutoff f && _) eqn:Hp.
  - done.
  - rewrite Hs in Hp. cbn in Hp. by apply Z.leb_gt in Hp.
Qed.

Lemma retire_advances cutoff d : advances d (retire_exhausted cutoff d).
Proof.
  apply set_states_advances; [cbn; right; left|]. intros e [[Hr _]%andb_true_iff _]%andb_true_iff. done.
Qed.

(** The two statements of the sweep use up work while anything is stale. *)
Lemma claim_work cutoff limit d e :
  e ∈ events d -> stale cutoff e = true ->
  (work (claim cutoff (S limit) (retire_exhausted cutoff d)).2 < work d)%nat.
Proof.
  intros He Hs. set (d1 := retire_exhausted cutoff d). cbn [claim snd].
  pose proof (advances_work _ _ (retire_advances cutoff d)) as Hle. fold d1 in Hle.
  assert (forall f, work_left (count_attempt (claimed cutoff (S limit) d1) d1) f <= work_left d1 f)%nat as Hcount.
  { intros f. unfold work_left. destruct (is_recorded f); [|done]. rewrite attempts_count. case_decide; lia. }
  assert (forall rows, work (count_attempt rows d1) =
    sum_list_with (work_left (count_attempt rows d1)) (events d1)) as Hwork by done.
  rewrite Hwork. destruct (list_find (fun f => stale cutoff f = true) (events d1)) as [[i f]|] eqn:Hfind.
  - apply list_find_Some in Hfind as (Hi & Hf & _). apply list_elem_of_lookup_2 in Hi.
    destruct (claimed_nonempty cutoff limit d1 f Hi Hf) as [g Hg].
    eapply Nat.lt_le_trans; [|exact Hle]. destruct (claimed_elem _ _ _ _ Hg) as [Hgin Hgs].
    apply (sum_list_with_lt _ _ _ g); [auto|done|]. unfold work_left. apply andb_true_iff in Hgs as [Hgr Hgc].
    rewrite Hgr, attempts_count, decide_True by (apply list_elem_of_fmap; eauto).
    assert (attempts d1 (ev_seq g) < MaxEventDispatchAttempts); [|lia].
    apply (stale_retired cutoff d g Hgin). unfold stale. by rewrite Hgr.
  - apply list_find_None in Hfind. assert (work d1 < work d)%nat as Hlt.
    { unfold work. change (events d1) with ((fun e => if stale cutoff e && (MaxEventDispatchAttempts <=? attempts d (ev_seq e))
        then with_state "dispatch_failed" e else e) <$> events d) in *.
      rewrite sum_list_with_fmap. apply (sum_list_with_lt _ _ _ e); [|done|].
      - intros f Hf. unfold compose. case_match eqn:Hp; [cbn; lia|done].
      - assert (stale cutoff e && (MaxEventDispatchAttempts <=? attempts d (ev_seq e)) = true) as Hp.
        { destruct (stale cutoff e && _) eqn:Hp; [done|]. rewrite List.Forall_forall in Hfind.
          exfalso. apply (Hfind e); [|done]. apply list_elem_of_In, list_elem_of_fmap. exists e. by rewrite Hp. }
        unfold compose. rewrite Hp. unfold work_left. apply andb_true_iff in Hs as [Hr _]. rewrite Hr. cbn. lia. }
    eapply Nat.le_lt_trans; [|exact Hlt]. by apply sum_list_with_le.
Qed.

Lemma ListRecordedBefore_claims {env} cutoff limit st (Q : ListRecordedResult -> TxStateOf Delivery -> Prop) :
  env_fails env (st_step st) = false -> env_fails env (S (st_step st)) = false ->
  (forall r st', st_base st' = (claim cutoff limit (retire_exhausted cutoff (st_base st))).2 -> Q r st') ->
  wp env (ListRecordedBefore cutoff limit) Q st.
Proof.
  intros H0' H1' HQ. unfold ListRecordedBefore.
  apply wp_bind, wp_autocommit_at; intros Hf; [congruence|]. cbn [st_base st_db].
  apply wp_bind, wp_autocommit_at; cbn [st_base st_step]; intros Hf'; [congruence|]. cbn [claim].
  apply wp_bind, scan_stored_wp. intros stored n st1 Hb1 _ _. wp_prim. wp_prim; [by apply wp_ret, HQ|].
  apply wp_bind, rebuild_drafts_wp. intros drafts k st2 Hb2 _ _. apply wp_ret, HQ.
  rewrite Hb2. cbn [tick st_base]. by rewrite Hb1.
Qed.

(** A sweep whose listing and claiming statements run, at a time past the cutoff and the grace period. *)
Definition effective (cutoff : Z) (env : Env) : Prop :=
  env_fails env 0 = false /\ env_fails env 1 = false /\ cutoff + eventDispatchGracePeriod <= env_now env 0.

Lemma effective_sweep cutoff env d :
  effective cutoff env -> exists now, cutoff <= now /\
  advances (claim now eventDispatchSweepBatch (retire_exhausted now d)).2 (snd (run env d sweepRecordedEvents)).
Proof.
  intros (H0' & H1' & Hnow). exists (env_now env 0 - eventDispatchGracePeriod). split; [lia|].
  edestruct (wp_run (env := env) sweepRecordedEvents (fun _ st => advances
    (claim (env_now env 0 - eventDispatchGracePeriod) eventDispatchSweepBatch
      (retire_exhausted (env_now env 0 - eventDispatchGracePeriod) d)).2 (st_base st)) d) as (st & Hst & ->); [|exact Hst].
  unfold sweepRecordedEvents. apply wp_bind. unfold wp at 1, current_time. cbn [st_step].
  apply wp_bind, ListRecordedBefore_claims; [done..|]. cbn [st_base]. intros r st Hb.
  destruct r as [drafts n|reason]; [|apply wp_ret; rewrite Hb; apply advances_refl].
  apply wp_bind, Recorder_Dispatch_wp. intros st' Hd%drafts_dispatched_advances. apply wp_ret. by rewrite Hb in Hd.
Qed.

Lemma stale_mono cutoff now e : cutoff <= now -> stale cutoff e = true -> stale now e = true.
Proof. unfold stale. intros Hle [-> Hc]%andb_true_iff. apply Z.leb_le in Hc. apply Z.leb_le. lia. Qed.

Lemma effective_work cutoff env d e :
  effective cutoff env -> e ∈ events d -> stale cutoff e = true ->
  (work (snd (run env d sweepRecordedEvents)) < work d)%nat.
Proof.
  intros Heff He Hs. destruct (effective_sweep cutoff env d Heff) as (now & Hnow & Hadv).
  eapply Nat.le_lt_trans; [by apply advances_work|]. eapply claim_work; [exact He|by eapply stale_mono].
Qed.

(** ** Many sweeps *)

Fixpoint sweeps (envs : list Env) (d : Delivery) : Delivery :=
  match envs with
  | [] => d
  | env :: envs => sweeps envs (snd (run env d sweepRecordedEvents))
  end.

(** The events of a sweep, whatever fails. *)
Lemma swept_advance d d' : swept d d' -> Forall2 advance (events d) (events d').
Proof.
  intros (cutoff & r & d1 & Hl & Hd).
  assert (Forall2 advance (events d) (events d1)) as H1'.
  { destruct Hl; try apply advances_refl; apply retire_advances. }
  destruct r as [drafts n|reason]; [|by subst].
  etrans; [exact H1'|]. by eapply drafts_dispatched_advances.
Qed.

Lemma advance_elem (l l' : list EventRow) e : Forall2 advance l l' -> e ∈ l -> exists e', e' ∈ l' /\ advance e e'.
Proof.
  intros Hl He. apply list_elem_of_lookup in He as [i Hi]. destruct (Forall2_lookup_l _ _ _ _ _ Hl Hi) as (e' & Hi' & ?).
  exists e'. split; [by eapply list_elem_of_lookup_2|done].
Qed.

Lemma advance_elem_r (l l' : list EventRow) e' : Forall2 advance l l' -> e' ∈ l' -> exists e, e ∈ l /\ advance e e'.
Proof.
  intros Hl He. apply list_elem_of_lookup in He as [i Hi]. destruct (Forall2_lookup_r _ _ _ _ _ Hl Hi) as (e & Hi' & ?).
  exists e. split; [by eapply list_elem_of_lookup_2|done].
Qed.

Lemma advance_stale cutoff e e' : advance e e' -> stale cutoff e' = true -> stale cutoff e = true.
Proof.
  intros [->|(_ & s & Hs & ->)] Hst; [done|]. apply andb_true_iff in Hst as [Hr _].
  unfold is_recorded in Hr. cbn [with_state ev_dispatch_state] in Hr. by rewrite (settled_state _ Hs) in Hr.
Qed.

Lemma sweeps_ok envs d : delivery_ok d -> delivery_ok (sweeps envs d) /\ Forall2 advance (events d) (events (sweeps envs d)).
Proof.
  revert d. induction envs as [|env envs IH]; intros d Hok; [done|]. cbn [sweeps].
  pose proof (swept_run env d Hok) as Hsw. destruct (IH _ (swept_ok _ _ Hsw Hok)) as [Hok' Hadv].
  split; [done|]. etrans; [by apply swept_advance|done].
Qed.

Lemma sweeps_stale cutoff envs d e :
  delivery_ok d -> Forall (effective cutoff) envs -> (work d <= length envs)%nat ->
  e ∈ events (sweeps envs d) -> stale cutoff e = false.
Proof.
  revert d. induction envs as [|env envs IH]; intros d Hok Heff Hle He; cbn [sweeps length] in *.
  - destruct (stale cutoff e) eqn:Hs; [|done]. exfalso. apply andb_true_iff in Hs as [Hr _].
    assert (work_left d e <= work d)%nat as Hw by (by apply sum_list_with_in). unfold work_left in Hw. rewrite Hr in Hw. lia.
  - apply Forall_cons_1 in Heff as [Heff Heffs]. pose proof (swept_run env d Hok) as Hsw.
    pose proof (swept_ok _ _ Hsw Hok) as Hok'. destruct (stale cutoff e) eqn:Hs; [|done]. exfalso.
    assert (exists e0, e0 ∈ events d /\ stale cutoff e0 = true) as (e0 & He0 & Hs0).
    { destruct (sweeps_ok envs _ Hok') as [_ Hadv]. pose proof (swept_advance _ _ Hsw) as Hadv0.
      destruct (advance_elem_r _ _ _ Hadv He) as (f & Hf & Hfe). destruct (advance_elem_r _ _ _ Hadv0 Hf) as (g & Hg & Hgf).
      exists g. split; [done|]. eapply advance_stale; [exact Hgf|]. by eapply advance_stale. }
    pose proof (effective_work cutoff env d e0 Heff He0 Hs0) as Hlt.
    assert (true = false); [|done]. apply (IH _ Hok' Heffs); [lia|done].
Qed.

(** C31: Liveness. After 21 sweeps per recorded event whose two statements run at a time past the
    cutoff and the grace period, every event recorded at the cutoff is dispatched with a complete
    inbox or retired as failed, however the dispatches in those sweeps fail. *)
Theorem sweeps_settle_every_event cutoff envs d e :
  delivery_ok d -> Forall (effective cutoff) envs ->
  (21 * length (filter (fun e => is_recorded e = true) (events d)) <= length envs)%nat ->
  e ∈ events d -> is_recorded e = true -> ev_occurred_at e <= cutoff ->
  let d' := sweeps envs d in
  (with_state "dispatched" e ∈ events d' /\ inbox_complete d' (with_state "dispatched" e)) \/
  with_state "dispatch_failed" e ∈ events d'.
Proof.
  intros Hok Heff Hlen He Hr Hc d'. destruct (sweeps_ok envs d Hok) as [Hok' Hadv].
  destruct (advance_elem _ _ _ Hadv He) as (e' & He' & [->|(_ & s & Hs & ->)]).
  - assert (stale cutoff e = false) as Hst.
    { eapply sweeps_stale; [exact Hok|exact Heff| |exact He']. pose proof (work_bound d Hok). lia. }
    unfold stale in Hst. rewrite Hr in Hst. cbn in Hst. apply Z.leb_gt in Hst. lia.
  - apply elem_of_cons in Hs as [->|Hs]; [left|right].
    + split; [done|]. eapply Forall_elem in He'; [|exact (ok_complete _ Hok')]. by apply He'.
    + apply list_elem_of_singleton in Hs as ->. done.
Qed.
End Progress.
