(* ===== verification/DeliveryHealthy.v ===== *)
(** * Dispatch completes when nothing fails

    In an environment without faults that generates fresh identifiers, every
    dispatch of a stored draft completes, and a sweep dispatches each event it
    can rebuild, whatever the other events of its batch are. *)

From S2P Require Import Prelude.
From S2P Require Import Core.
From S2P Require Import Events.
From S2P Require Import Database.
From S2P Require Import Tx.
From S2P Require Import Outbox.
From S2P Require Import DeliveryDB.
From S2P Require Import Inbox.
From S2P Require Import EventStore.
From S2P Require Import Recorder.
From S2P Require Import DeliverySpecs.
From S2P Require Import DeliveryCorrect.
From S2P Require Import DeliverySystem.
From S2P Require Import DeliveryProgress.

Local Open Scope string_scope.
Local Open Scope Z_scope.

(** Two postconditions at once. *)
Lemma wp_and {DB A env} (m : MOf DB A) (P Q : A -> TxStateOf DB -> Prop) st :
  wp env m P st -> wp env m Q st -> wp env m (fun a st' => P a st' /\ Q a st') st.
Proof. unfold wp. destruct (m env st). done. Qed.

(** ** The operations of dispatch only go forward *)

Section Steps.
Context `{UUIDLib, JSONB}.

Lemma forward_Notify recipient actor kind subject metadata source :
  forward (Notification.Notify recipient actor kind subject metadata source).
Proof. unfold Notification.Notify, Notification.Create. forward_go. Qed.

Lemma forward_notify_all draft kind us completed : forward (notify_all draft kind us completed).
Proof.
  revert completed. induction us as [|u us IH]; intros completed; cbn [notify_all]; [apply forward_ret|].
  apply forward_bind; [apply forward_Notify|]. intros r. apply IH.
Qed.

Lemma forward_fanOut draft : forward (fanOutNotifications draft).
Proof. unfold fanOutNotifications. case_match; [apply forward_ret|apply forward_notify_all]. Qed.

Lemma forward_scan_ids rows : forward (scan_ids rows).
Proof. induction rows; cbn [scan_ids]; forward_go. Qed.

Lemma forward_insert_deliveries seq subs inserted : forward (insert_deliveries seq subs inserted).
Proof. revert inserted. induction subs; intros inserted; cbn [insert_deliveries]; forward_go. Qed.

#[local] Hint Resolve forward_scan_ids forward_insert_deliveries forward_fanOut : forward.

Lemma forward_expand seq : forward (expandWebhookDeliveries seq).
Proof. unfold expandWebhookDeliveries. forward_go. Qed.

#[local] Hint Resolve forward_expand : forward.

Lemma forward_store_Dispatch id : forward (EventStore.Dispatch id).
Proof. unfold EventStore.Dispatch. forward_go. Qed.

#[local] Hint Resolve forward_store_Dispatch : forward.

Lemma forward_dispatch_draft draft : forward (dispatch_draft draft).
Proof. unfold dispatch_draft. forward_go. Qed.

Lemma forward_Dispatch drafts : forward (Recorder.Dispatch drafts).
Proof.
  induction drafts as [|draft drafts IH]; cbn [Recorder.Dispatch]; [apply forward_ret|].
  apply forward_bind; [apply forward_dispatch_draft|]. intros _. exact IH.
Qed.
End Steps.

Section Healthy.
Context `{UUIDLaws, JSONBLaws}.

(** The calls before step [horizon] generate identifiers, all different. *)
Definition generates {k} (ids : nat -> TypedIDResult k) (horizon : nat) : Prop :=
  forall n, (n < horizon)%nat -> exists i, ids n = TypedIDCreated i /\
    forall m, (m < horizon)%nat -> ids m = TypedIDCreated i -> m = n.

(** From step [n] on, and before the horizon, [ids] avoids [used]. *)
Definition unused {k} (ids : nat -> TypedIDResult k) (horizon n : nat) (used : list string) : Prop :=
  forall m i, (n <= m < horizon)%nat -> ids m = TypedIDCreated i -> TypedID_String i ∉ used.

Record healthy_from (env : Env) (horizon n : nat) (d : Delivery) : Prop := {
  healthy_faults : no_faults env;
  healthy_notification_ids : generates (env_notification_id env) horizon;
  healthy_delivery_ids : generates (env_delivery_id env) horizon;
  healthy_notifications : unused (env_notification_id env) horizon n (notif_id <$> notifications d);
  healthy_deliveries : unused (env_delivery_id env) horizon n (wd_id <$> webhook_deliveries d)
}.

Lemma unused_later {k} (ids : nat -> TypedIDResult k) horizon n m used :
  (n <= m)%nat -> unused ids horizon n used -> unused ids horizon m used.
Proof. intros Hle Hu j i Hj. apply Hu. lia. Qed.

Lemma healthy_frame env horizon n m d d' :
  healthy_from env horizon n d -> (n <= m)%nat -> notifications d' = notifications d ->
  webhook_deliveries d' = webhook_deliveries d -> healthy_from env horizon m d'.
Proof.
  intros [Hf Hn Hw Hun Huw] Hle En Ew. split; [done..| |]; rewrite ?En, ?Ew; by eapply unused_later.
Qed.

Lemma unused_next {k} (ids : nat -> TypedIDResult k) horizon n i used :
  generates ids horizon -> (n < horizon)%nat -> ids n = TypedIDCreated i -> unused ids horizon n used ->
  unused ids horizon (S n) (TypedID_String i :: used).
Proof.
  intros Hg Hn Hi Hu m j Hm Hj Hin. apply elem_of_cons in Hin as [Heq%TypedID_String_inj|Hin].
  - destruct (Hg n Hn) as (i' & Hi' & Huniq). assert (i' = i) as -> by congruence. subst j.
    assert (m = n); [|lia]. apply Huniq; [lia|done].
  - revert Hin. apply (Hu m); [lia|done].
Qed.

(** What a draft needs for its rows to be insertable. *)
Record sendable (d : Delivery) (draft : Draft) : Prop := {
  sendable_actor : TypedID_String (ActorUserID (Draft_Actor draft)) ∈ users (ledger d);
  sendable_users : forall u, u ∈ Users (Draft_Recipients draft) -> TypedID_String u ∈ users (ledger d);
  sendable_metadata : is_Some (jsonb (Metadata_JSON (Draft_Metadata draft)))
}.

Lemma sendable_frame d d' draft : users (ledger d') = users (ledger d) -> sendable d draft -> sendable d' draft.
Proof. intros Hu []. by split; rewrite ?Hu. Qed.

Section Wp.
Context {env : Env} {horizon : nat}.
Implicit Types (st : TxStateOf Delivery).
Definition healthy st : Prop := healthy_from env horizon (st_step st) (st_base st).

(** A postcondition owed when the computation ends before the horizon. *)
Notation within Q := (fun r st' => (st_step st' <= horizon)%nat -> Q r st').

Lemma Notify_completes draft kind u st :
  healthy st -> sendable (st_base st) draft -> u ∈ Users (Draft_Recipients draft) ->
  wp env (Notification.Notify u (ActorUserID (Draft_Actor draft)) kind (NotificationSubjectFor (Draft_Subject draft))
    (Notification.MkMetadata (Metadata_JSON (Draft_Metadata draft))) (Notification.FromEvent (Draft_ID draft)))
    (within (fun r st' => healthy st' /\ match r with Notification.NotifyRejected _ => False | _ => True end)) st.
Proof.
  intros Hh [Ha Hus [m Hm]] Hu. unfold Notification.Notify. case_decide; [by apply wp_ret|].
  apply wp_bind. unfold wp at 1, NewNotificationID.
  destruct (decide (st_step st < horizon)%nat) as [Hlt|].
  2:{ apply wp_late; [|cbn; lia]. case_match; [|apply forward_ret]. unfold Notification.Create. forward_go. }
  destruct (healthy_notification_ids _ _ _ _ Hh _ Hlt) as (i & Hi & _).
  rewrite Hi. wp_prim. wp_prim. apply wp_bind. unfold Notification.Create.
  apply wp_bind, wp_autocommit_ok; [apply Hh|]. cbn [tick st_base].
  set (row := Notification.notification_row _).
  assert (unused (env_notification_id env) horizon (S (st_step st)) (notif_id row :: (notif_id <$> notifications (st_base st)))) as Hnext.
  { apply (unused_next _ _ (st_step st)); [by apply Hh|done|done|apply Hh]. }
  assert (healthy_from env horizon (S (S (st_step st))) (st_base st)) as Hh' by (eapply healthy_frame; [exact Hh|lia|done..]).
  assert (exists n, stored_notification row = Some n /\ notif_id n = notif_id row /\ notif_recipient n = TypedID_String u /\
    notif_actor n = TypedID_String (ActorUserID (Draft_Actor draft))) as (n & Hn & Hid & Hrec & Hact).
  { unfold stored_notification. cbn [notif_metadata_json row Notification.notification_row Notification.Metadata_JSON
      Notification.NMetadata]. rewrite Hm. by eexists. }
  unfold insert_notification. rewrite Hn. case_bool_decide; [by apply wp_ret, wp_ret|].
  rewrite bool_decide_false.
  - rewrite bool_decide_true by (rewrite Hrec, Hact; auto). cbn [negb]. apply wp_ret, wp_ret. intros _. split; [|done].
    destruct Hh' as [Hfa Hgn Hgd Hun Huw]. split; [done..| |done]. cbn [tick st_base st_step notifications with_notifications].
    cbn [fmap list_fmap]. rewrite Hid. eapply unused_later; [|exact Hnext]. lia.
  - intros (x & Hx & Heq)%Exists_exists. destruct (healthy_notifications _ _ _ _ Hh (st_step st) i); [lia|done|].
    apply list_elem_of_fmap. exists x. split; [by rewrite Heq, Hid|by apply list_elem_of_In].
Qed.

(** The drafts' users stay users along the fan-out. *)
Lemma notified_users draft d d' : rtc (notified draft) d d' -> users (ledger d') = users (ledger d).
Proof. induction 1 as [|x y z [] _ IH]; [done|exact IH]. Qed.

Lemma notify_all_completes draft kind us st :
  NotificationRuleFor (Draft_Kind draft) = NotifyAs kind -> healthy st -> sendable (st_base st) draft ->
  us ⊆ Users (Draft_Recipients draft) ->
  wp env (notify_all draft kind us true) (within (fun b st' => healthy st' /\ b = true)) st.
Proof.
  intros Hrule. revert st. induction us as [|u us IH]; intros st Hh Hs Hus; cbn [notify_all]; [by apply wp_ret|].
  eapply wp_within_bind; [|intros r; apply forward_notify_all|].
  - eapply wp_mono.
    + apply wp_and; [apply (Notify_completes draft kind u); [done|done|set_solver]|].
      apply (Notify_wp draft kind u st (fun _ st' => rtc (notified draft) (st_base st) (st_base st'))); [done|set_solver|done].
    + intros r st' [Hx Hn] Hle. exact (conj (Hx Hle) Hn).
  - intros r st' _ [[Hh' Hr] Hn]. assert (sendable (st_base st') draft) as Hs'.
    { eapply sendable_frame; [by eapply notified_users|done]. }
    destruct r; [|apply IH; [done..|set_solver]|done]. apply IH; [done..|set_solver].
Qed.

Lemma fanOut_completes draft st :
  healthy st -> sendable (st_base st) draft ->
  wp env (fanOutNotifications draft) (within (fun b st' => healthy st' /\ b = true)) st.
Proof.
  intros Hh Hs. unfold fanOutNotifications. destruct (NotificationRuleFor _) as [|kind] eqn:Hrule; [by apply wp_ret|].
  by apply notify_all_completes.
Qed.

(** The inserts of one expansion: all rows go in, and nothing else changes. *)
Definition expansion_done (st : TxStateOf Delivery) (r : StmtError + nat) (st' : TxStateOf Delivery) : Prop :=
  (exists n, r = inr n) /\ (st_step st <= st_step st')%nat /\
  unused (env_delivery_id env) horizon (st_step st') (wd_id <$> webhook_deliveries (st_db st')) /\
  notifications (st_db st') = notifications (st_db st).

Lemma expansion_done_trans st st1 r st' :
  (st_step st <= st_step st1)%nat -> notifications (st_db st1) = notifications (st_db st) ->
  expansion_done st1 r st' -> expansion_done st r st'.
Proof. intros Hle Hn (Hr & Hle' & Hu & Hn'). split; [done|]. split; [lia|]. split; [done|congruence]. Qed.

Lemma insert_deliveries_completes seq subs inserted st :
  no_faults env -> generates (env_delivery_id env) horizon ->
  unused (env_delivery_id env) horizon (st_step st) (wd_id <$> webhook_deliveries (st_db st)) ->
  (forall s, s ∈ subs -> Exists (fun w => ws_id w = s) (webhook_subscriptions (st_db st))) ->
  Exists (fun e => ev_seq e = seq) (events (st_db st)) ->
  wp env (insert_deliveries seq subs inserted) (within (expansion_done st)) st.
Proof.
  intros Hf Hg. revert inserted st. induction subs as [|s subs IH]; intros inserted st Hu Hs He; cbn [insert_deliveries].
  { apply wp_ret. intros _. split; [by eexists|done]. }
  destruct (decide (st_step st < horizon)%nat) as [Hlt|].
  2:{ apply wp_bind. unfold wp at 1, NewWebhookDeliveryID. apply wp_late; [|cbn; lia].
      case_match; [|apply forward_ret]. pose proof forward_insert_deliveries. forward_go. }
  apply wp_bind. destruct (Hg _ Hlt) as (i & Hi & _). unfold wp at 1, NewWebhookDeliveryID. rewrite Hi. wp_prim. wp_prim.
  apply wp_bind. unfold wp at 1, stmt. rewrite Hf. cbn [tick st_db st_base st_step].
  unfold insert_delivery. cbn [wd_subscription_id wd_event_seq wd_id].
  pose proof (unused_next _ _ _ _ _ Hg Hlt Hi Hu) as Hnext.
  case_bool_decide as Hsame.
  { cbn. eapply wp_mono; [apply IH; cbn [tick st_step st_db]; [|intros v Hv; apply Hs; by right|done]|].
    - eapply unused_later; [|exact Hu]. lia.
    - cbn. intros r st' Hd Hle. eapply expansion_done_trans; [| |by apply Hd]; [cbn; lia|done]. }
  rewrite bool_decide_false.
  2:{ intros (x & Hx & Heq)%Exists_exists. destruct (Hu (st_step st) i); [lia|done|].
      apply list_elem_of_fmap. exists x. split; [congruence|by apply list_elem_of_In]. }
  rewrite !bool_decide_true by (try apply Hs; try done; by left). cbn [andb negb].
  eapply wp_mono; [apply IH; cbn [st_step st_db webhook_deliveries with_deliveries webhook_subscriptions]|].
  - cbn [fmap list_fmap wd_id]. eapply unused_later; [|exact Hnext]. lia.
  - intros v Hv. apply Hs. by right.
  - exact He.
  - cbn. intros r st' Hd Hle. eapply expansion_done_trans; [| |by apply Hd]; [cbn; lia|done].
Qed.

Lemma scan_ids_completes rows st :
  no_faults env ->
  wp env (scan_ids rows) (fun b st' => b = false /\ (st_step st <= st_step st')%nat /\ st_db st' = st_db st) st.
Proof.
  intros Hf. revert st. induction rows as [|r rows IH]; intros st; cbn [scan_ids].
  - apply wp_fault_point_ok; [done|]. cbn. auto.
  - apply wp_bind, wp_fault_point_ok; [done|]. eapply wp_mono; [apply IH|]. cbn. intros b st' (? & ? & ?). split; [done|]. split; [lia|done].
Qed.

Lemma matching_exists seq d s : s ∈ matching_subscriptions seq d -> Exists (fun w => ws_id w = s) (webhook_subscriptions d).
Proof.
  unfold matching_subscriptions. destruct (find _ _) as [e|]; [|by intros ?%elem_of_nil].
  intros (w & -> & [_ Hw]%list_elem_of_filter)%list_elem_of_fmap. apply Exists_exists. exists w. split; [by apply list_elem_of_In|done].
Qed.

Lemma expand_completes seq st :
  no_faults env -> generates (env_delivery_id env) horizon ->
  unused (env_delivery_id env) horizon (st_step st) (wd_id <$> webhook_deliveries (st_db st)) ->
  Exists (fun e => ev_seq e = seq) (events (st_db st)) ->
  wp env (expandWebhookDeliveries seq) (within (expansion_done st)) st.
Proof.
  intros Hf Hg Hu He. unfold expandWebhookDeliveries. apply wp_bind, wp_query_rows_ok; [done|]. cbn [tick st_db].
  apply wp_bind. eapply wp_mono; [by apply scan_ids_completes|]. cbn [tick st_step st_db]. intros b st1 (-> & Hle & Hdb).
  eapply wp_mono; [apply insert_deliveries_completes; rewrite ?Hdb|]; try done.
  - eapply unused_later; [|exact Hu]. lia.
  - intros s. apply matching_exists.
  - cbn. intros r st' Hd Hle'. eapply expansion_done_trans; [| |by apply Hd]; [lia|by rewrite Hdb].
Qed.

Lemma recorded_state e : is_recorded e = true -> ParseDispatchState (ev_dispatch_state e) = DispatchStateParsed DispatchStateRecorded.
Proof. intros Hr%is_recorded_state. by rewrite Hr. Qed.

Lemma Dispatch_completes id e st :
  healthy st -> delivery_ok (st_base st) -> e ∈ events (st_base st) -> ev_id e = TypedID_String id ->
  wp env (EventStore.Dispatch id) (within (fun _ st' => healthy st' /\
    (is_recorded e = true -> with_state "dispatched" e ∈ events (st_base st')))) st.
Proof.
  intros Hh Hok He Hid. pose proof Hh as [Hf Hgn Hgd Hun Huw].
  unfold EventStore.Dispatch. apply wp_bind, wp_begin_ok; [done|]. apply wp_bind, wp_query_row_ok; [done|].
  cbn [tick st_db st_base st_step]. rewrite <- Hid, event_by_id_found by done.
  assert (healthy_from env horizon (S (S (st_step st))) (st_base st)) as Hh' by (eapply healthy_frame; [exact Hh|lia|done..]).
  destruct (is_recorded e) eqn:Hr.
  2:{ destruct (ParseDispatchState (ev_dispatch_state e)) as [[]|] eqn:Hp; [|by apply wp_ret..].
      apply ParseDispatchState_parsed in Hp. unfold is_recorded in Hr. by rewrite Hp, String.eqb_refl in Hr. }
  rewrite recorded_state by done. eapply wp_within_bind; [|intros r; forward_go|].
  - eapply wp_mono; [apply wp_and|].
    + apply expand_completes; [done|done| |]; cbn [tick st_db st_step].
      * eapply unused_later; [|exact Huw]. lia.
      * apply Exists_exists. exists e. split; [by apply list_elem_of_In|done].
    + apply (expandWebhookDeliveries_wp (ev_seq e) _ (fun r st' => match r with inl _ => True | inr _ =>
        rtc (expanded (ev_seq e) (matching_subscriptions (ev_seq e) (st_base st))) (st_base st) (st_db st') end)); [done|].
      intros n st' _ Hx _. exact Hx.
    + cbn [tick st_step st_db]. intros r st1 [Hd Hx] Hle. exact (conj (Hd Hle) Hx).
  - cbn [tick st_step st_db]. intros r st1 _ [((n & ->) & Hle & Hu & Hnot) Hx]. cbn [tick st_step st_db] in *.
    apply wp_bind, wp_exec_ok; [done|]. cbn [mark_dispatched]. apply wp_bind, wp_commit_ok; [done|]. apply wp_ret.
    cbn [st_base st_db st_step]. intros _. split.
    + split; [done..| |]; cbn [st_step st_base set_states with_event_rows notifications with_ledger webhook_deliveries].
      * rewrite Hnot. eapply unused_later; [|exact Hun]. lia.
      * eapply unused_later; [|exact Hu]. lia.
    + intros _. rewrite set_states_events. destruct (expanded_rows _ _ _ _ Hx (ok_deliveries _ Hok)) as (ws & -> & _).
      apply list_elem_of_fmap. exists e. split; [|done]. by rewrite Z.eqb_refl, Hr.
Qed.

(** The drafts of a batch that describe stored events and can be inserted. *)
Definition deliverable (d : Delivery) (draft : Draft) : Prop :=
  sendable d draft /\ exists e, e ∈ events d /\ describes d draft e.

Lemma deliverable_same d d' draft : same_events d d' -> deliverable d draft -> deliverable d' draft.
Proof.
  intros Hs [Hsend (e & He & Hd)]. split; [by eapply sendable_frame; [apply Hs|]|].
  destruct (same_identity _ _ Hs e He) as [s He']. exists (with_state s e). split; [done|by eapply describes_same].
Qed.

Lemma deliverable_attempts a d draft : deliverable d draft -> deliverable (with_attempts a d) draft.
Proof. intros [[] (e & He & [])]. split; [by split|]. exists e. split; [done|by split]. Qed.

(** Dispatch leaves an event as it is or dispatched. *)
Definition only_dispatches (d d' : Delivery) : Prop :=
  forall e, e ∈ events d -> e ∈ events d' \/ is_recorded e = true /\ with_state "dispatched" e ∈ events d'.

Lemma draft_only_dispatches draft d d' : draft_dispatched draft d d' -> only_dispatches d d'.
Proof.
  intros (d1 & Hn & Hd) e He. assert (events d1 = events d) as Hev.
  { clear Hd. induction Hn as [|x y z Hxy _ IH]; [done|]. rewrite IH; [by destruct Hxy|by destruct Hxy]. }
  rewrite <- Hev in He. destruct Hd as [->|[_ [r Hset]]]; [by left|].
  destruct Hset as [| |e0 d2 _ _ Hexp _]; [by left..|]. rewrite set_states_events.
  assert (events d2 = events d1) as ->.
  { clear -Hexp. induction Hexp as [|x y z Hxy _ IH]; [done|]. rewrite IH. by destruct Hxy. }
  destruct ((ev_seq e =? ev_seq e0) && is_recorded e) eqn:Hp; [right|left].
  - split; [by apply andb_true_iff in Hp as [_ ?]|]. apply list_elem_of_fmap. exists e. by rewrite Hp.
  - apply list_elem_of_fmap. exists e. by rewrite Hp.
Qed.

Lemma dispatch_draft_completes draft st :
  healthy st -> delivery_ok (st_base st) -> deliverable (st_base st) draft ->
  wp env (dispatch_draft draft) (within (fun _ st' => healthy st' /\
    forall e, e ∈ events (st_base st) -> ev_id e = TypedID_String (Draft_ID draft) -> is_recorded e = true ->
      with_state "dispatched" e ∈ events (st_base st'))) st.
Proof.
  intros Hh Hok [Hs (f & Hf & Hdf)]. unfold dispatch_draft.
  eapply wp_within_bind; [|intros r; pose proof (forward_store_Dispatch (Draft_ID draft)); forward_go|].
  - eapply wp_mono.
    + apply wp_and; [by apply fanOut_completes|].
      by apply (fanOutNotifications_wp draft st (fun _ st' => rtc (notified draft) (st_base st) (st_base st'))).
    + intros b st1 [Hx Hn] Hle. exact (conj (Hx Hle) Hn).
  - intros b st1 _ [[Hh1 ->] Hn]. destruct (notified_all_ok _ _ _ _ Hn Hok Hf Hdf) as (Hok1 & Hev & _).
    apply wp_bind. eapply wp_mono; [apply (Dispatch_completes _ f); [done|done|by rewrite Hev|apply Hdf]|].
    intros r st2 Hd. apply wp_ret. intros Hle. destruct (Hd Hle) as [Hh2 He2]. split; [done|]. intros e He Hid Hr.
    rewrite (event_of_id _ e f Hok He Hf) in Hr |- * by (by rewrite Hid, (describes_id _ _ _ Hdf)). auto.
Qed.

(** A batch: every recorded event one of its drafts describes is dispatched. *)
Lemma Recorder_Dispatch_completes drafts e st :
  healthy st -> delivery_ok (st_base st) -> (forall draft, draft ∈ drafts -> deliverable (st_base st) draft) ->
  is_recorded e = true ->
  (e ∈ events (st_base st) /\ exists draft, draft ∈ drafts /\ ev_id e = TypedID_String (Draft_ID draft)) \/
  with_state "dispatched" e ∈ events (st_base st) ->
  wp env (Recorder.Dispatch drafts) (within (fun _ st' => with_state "dispatched" e ∈ events (st_base st'))) st.
Proof.
  intros Hh Hok Hall Hr. revert st Hh Hok Hall.
  induction drafts as [|draft drafts IH]; intros st Hh Hok Hall Hcase; cbn [Recorder.Dispatch].
  { apply wp_ret. intros _. destruct Hcase as [[_ (draft & Hd & _)]|?]; [by apply elem_of_nil in Hd|done]. }
  assert (deliverable (st_base st) draft) as Hdel by (apply Hall; by left).
  eapply wp_within_bind; [|intros _; apply forward_Dispatch|].
  - eapply wp_mono.
    + apply wp_and; [by apply dispatch_draft_completes|].
      by apply (dispatch_draft_wp draft st (fun _ st' => draft_dispatched draft (st_base st) (st_base st'))).
    + intros u st1 [Hx Hd] Hle. exact (conj (Hx Hle) Hd).
  - intros _ st1 _ [[Hh1 Hnow] Hd]. pose proof (draft_dispatched_same _ _ _ Hd) as Hsame. apply IH; [done| | |].
    + destruct Hdel as [_ (f & Hf & Hdf)]. by eapply draft_dispatched_ok.
    + intros draft' Hin. eapply deliverable_same; [done|]. apply Hall. by right.
    + destruct Hcase as [[He (x & [->|Hx]%elem_of_cons & Hid)]|Hdone].
      * right. by apply Hnow.
      * destruct (draft_only_dispatches _ _ _ Hd e He) as [?|[_ ?]]; [left; eauto|by right].
      * right. destruct (draft_only_dispatches _ _ _ Hd _ Hdone) as [?|[? _]]; done.
Qed.
End Wp.

(** What a run that ends before the horizon owes. *)
Lemma wp_run_within {A} env horizon (m : MOf Delivery A) (Q : Delivery -> Prop) d :
  wp env m (fun _ st => (st_step st <= horizon)%nat -> Q (st_base st)) (MkTxState d d 0) ->
  (steps env d m <= horizon)%nat -> Q (snd (run env d m)).
Proof. unfold wp, steps, run. destruct (m env _) as [a st]. auto. Qed.

(** The drafts commands committed can be dispatched, given printable metadata. *)
Lemma stored_deliverable d draft e :
  e ∈ events d -> stored_as d draft e -> is_Some (jsonb (Metadata_JSON (Draft_Metadata draft))) -> deliverable d draft.
Proof.
  intros He Hst Hm. split; [|exists e; split; [done|by apply stored_describes]].
  split; [apply Hst| |done]. intros u Hu. exact (Forall_elem _ _ _ (stored_users _ _ _ Hst) Hu).
Qed.

(** When no statement fails and identifiers do not collide, the inline dispatch of committed
    drafts leaves each of their events dispatched, with an inbox row for every recipient but the
    actor when the kind notifies. *)
Theorem healthy_dispatch_delivers s env drafts draft e :
  system_ok s -> healthy_from env (steps env (sys_db s) (Recorder.Dispatch drafts)) 0 (sys_db s) ->
  (forall draft, draft ∈ drafts -> draft ∈ in_flight s /\ is_Some (jsonb (Metadata_JSON (Draft_Metadata draft)))) ->
  draft ∈ drafts -> e ∈ events (sys_db s) -> ev_id e = TypedID_String (Draft_ID draft) -> is_recorded e = true ->
  let d' := snd (run env (sys_db s) (Recorder.Dispatch drafts)) in
  with_state "dispatched" e ∈ events d' /\ inbox_complete d' e.
Proof.
  intros [Hl Hok Hp] Hh Hall Hin He Hid Hr d'.
  assert (forall draft, draft ∈ drafts -> deliverable (sys_db s) draft) as Hdel.
  { intros x Hx. destruct (Hall x Hx) as [Hf Hm]. destruct (Hp x Hf) as (f & Hfe & Hst). by eapply stored_deliverable. }
  assert (with_state "dispatched" e ∈ events d') as Hd.
  { apply (wp_run_within env _ (Recorder.Dispatch drafts) (fun d => with_state "dispatched" e ∈ events d)) with (2 := le_n _).
    apply Recorder_Dispatch_completes; [done|done|done|done|]. left. eauto. }
  split; [done|]. destruct (drafts_dispatched_ok _ _ _ (dispatched_run env (sys_db s) drafts) Hok) as [Hok' _].
  { intros x Hx. apply Hdel, Hx. }
  exact (Forall_elem _ _ _ (ok_complete _ Hok') Hd eq_refl).
Qed.

(** ** Sweeps *)

Lemma rebuild_deliverable d draft0 e draft :
  e ∈ events d -> stored_as d draft0 e -> rebuild d e = Some draft -> deliverable d draft.
Proof.
  intros He Hst Hr. pose proof (rebuild_describes _ _ _ _ Hst Hr) as Hd. split; [|by exists e].
  destruct (stored_describes _ _ _ Hst) as [_ _ Ha Hus]. destruct Hd as [_ _ Ha' Hus']. split.
  - rewrite <- Ha', Ha. apply Hst.
  - intros u Hu. assert (TypedID_String u ∈ TypedID_String <$> Users (Draft_Recipients draft0)) as Hin.
    { apply Hus, Hus', list_elem_of_fmap. eauto. }
    apply list_elem_of_fmap in Hin as (v & -> & Hv). exact (Forall_elem _ _ _ (stored_users _ _ _ Hst) Hv).
  - unfold rebuild in Hr. rewrite (parse_stored _ _ _ Hst) in Hr. destruct (jsonb _) as [m|] eqn:Hm; [|done].
    cbn [fmap option_fmap option_map] in Hr.
    change (rebuilt_recipients d (ev_seq e) ≫= (fun recipients =>
      Some (stored_draft (reprinted draft0 (ev_occurred_at e) (ev_seq e) m) recipients)) = Some draft) in Hr.
    destruct (rebuilt_recipients _ _); [|done]. injection Hr as <-. cbn. exists m. by eapply jsonb_idempotent.
Qed.

Lemma rebuild_exists d draft0 e :
  stored_as d draft0 e -> is_Some (jsonb (ev_metadata_json e)) -> is_Some (rebuild d e).
Proof.
  intros Hst [m Hm]. destruct (rebuild_same d draft0 e m Hst) as (draft & -> & _); [|done]. rewrite <- Hm.
  destruct Hst as [Hrow _ _ _]. unfold with_state, event_row in Hrow. by inversion Hrow.
Qed.

(** The stale rows before an event in the claiming order. *)
Definition rank (cutoff : Z) (d : Delivery) (e : EventRow) : nat :=
  length (filter (fun f => stale cutoff f = true /\ ev_seq f < ev_seq e) (events d)).

#[local] Instance by_seq_total : Total by_seq.
Proof. intros a b. unfold by_seq. lia. Qed.

Lemma claimed_rank cutoff limit d e :
  NoDup (ev_seq <$> events d) -> e ∈ events d -> stale cutoff e = true -> (rank cutoff d e < limit)%nat ->
  e ∈ claimed cutoff limit d.
Proof.
  intros Hnd He Hs Hrank. unfold claimed. set (l := merge_sort by_seq (filter (stale cutoff) (events d))).
  assert (l ≡ₚ filter (stale cutoff) (events d)) as Hperm by apply merge_sort_Permutation.
  assert (e ∈ l) as Hin by (rewrite Hperm; apply list_elem_of_filter; by rewrite Hs).
  apply list_elem_of_lookup in Hin as [i Hi]. apply elem_of_take. exists i. split; [done|].
  eapply Nat.le_lt_trans; [|exact Hrank]. unfold rank.
  assert (NoDup (ev_seq <$> l)) as Hndl.
  { rewrite Hperm. clear -Hnd. induction (events d) as [|x xs IH]; [done|]. rewrite filter_cons.
    inversion_clear Hnd as [|? ? Hx Hnd']. case_decide; [|by apply IH]. cbn. constructor; [|by apply IH].
    intros (y & Hy & [_ Hyin]%list_elem_of_filter)%list_elem_of_fmap. apply Hx, list_elem_of_fmap. eauto. }
  assert (Sorted by_seq l) as Hsorted by apply (Sorted_merge_sort _).
  apply Sorted_StronglySorted in Hsorted; [|intros x y z; unfold by_seq; lia].
  assert (forall x, x ∈ take i l -> ev_seq x < ev_seq e) as Hbefore.
  { intros x (j & Hj & Hlt)%elem_of_take.
    assert (by_seq x e) as Hle.
    { rewrite <- (take_drop i l) in Hsorted. apply StronglySorted_app in Hsorted as (Hle & _ & _). apply Hle.
      - apply elem_of_take. eauto.
      - apply (list_elem_of_lookup_2 _ 0). by rewrite lookup_drop, Nat.add_0_r. }
    unfold by_seq in Hle. assert (ev_seq x <> ev_seq e); [|lia]. intros Heq.
    assert (j = i); [|lia]. eapply NoDup_lookup; [exact Hndl|..]; rewrite list_lookup_fmap; [by rewrite Hj|by rewrite Hi, Heq]. }
  assert (length (take i l) = i) as <- by (rewrite length_take; apply lookup_lt_Some in Hi; lia).
  transitivity (length (filter (fun f => ev_seq f < ev_seq e) l)).
  - rewrite <- (take_drop i l) at 2. rewrite list.filter_app, length_app.
    assert (filter (fun f => ev_seq f < ev_seq e) (take i l) = take i l) as ->; [|lia].
    clear -Hbefore. induction (take i l) as [|x xs IH]; [done|]. rewrite filter_cons_True by (apply Hbefore; by left).
    f_equal. apply IH. intros y Hy. apply Hbefore. by right.
  - rewrite Hperm, list_filter_filter. clear. induction (events d) as [|x xs IH]; [done|]. rewrite !filter_cons.
    repeat case_decide; cbn; try lia. exfalso. destruct_and!. naive_solver eauto using Is_true_true_1.
Qed.

Lemma retired_rank cutoff d e : (rank cutoff (retire_exhausted cutoff d) e <= rank cutoff d e)%nat.
Proof.
  unfold rank, retire_exhausted. rewrite set_states_events.
  set (P := fun e => stale cutoff e && (MaxEventDispatchAttempts <=? attempts d (ev_seq e))).
  change (fun e => if stale cutoff e && (MaxEventDispatchAttempts <=? attempts d (ev_seq e))
    then with_state (DispatchState_String DispatchStateFailed) e else e)
    with (fun e => if P e then with_state (DispatchState_String DispatchStateFailed) e else e).
  clearbody P. induction (events d) as [|x xs IH]; [done|]. cbn [fmap list_fmap]. rewrite !filter_cons.
  assert (stale cutoff (if P x then with_state (DispatchState_String DispatchStateFailed) x else x) = true /\
    ev_seq (if P x then with_state (DispatchState_String DispatchStateFailed) x else x) < ev_seq e ->
    stale cutoff x = true /\ ev_seq x < ev_seq e) as Himp by (destruct (P x); [intros [Hst _]; discriminate Hst|done]).
  repeat case_decide; cbn [length]; try lia; exfalso; auto.
Qed.

(** Liveness. A sweep in which no statement fails and identifiers do not collide dispatches
    every event among the 200 oldest stale ones that has attempts left and readable metadata, and
    fills its inboxes, whatever the other events of the batch are. *)
Theorem healthy_sweep_recovers env d e :
  delivery_ok d -> healthy_from env (steps env d sweepRecordedEvents) 0 d -> e ∈ events d ->
  let cutoff := env_now env 0 - eventDispatchGracePeriod in
  stale cutoff e = true -> attempts d (ev_seq e) < MaxEventDispatchAttempts ->
  (rank cutoff d e < eventDispatchSweepBatch)%nat -> is_Some (jsonb (ev_metadata_json e)) ->
  let d' := snd (run env d sweepRecordedEvents) in
  with_state "dispatched" e ∈ events d' /\ inbox_complete d' e.
Proof.
  intros Hok Hh He cutoff Hs Ha Hrank Hm d'.
  set (d1 := retire_exhausted cutoff d). pose proof (retire_exhausted_ok cutoff d Hok) as Hok1.
  assert (e ∈ events d1) as He1.
  { unfold d1, retire_exhausted. rewrite set_states_events. apply list_elem_of_fmap. exists e. split; [|done].
    apply Z.leb_gt in Ha. by rewrite Ha, andb_false_r. }
  assert (e ∈ claimed cutoff eventDispatchSweepBatch d1) as Hclaimed.
  { apply claimed_rank; [apply Hok1|done|done|]. pose proof (retired_rank cutoff d e). unfold d1. lia. }
  destruct (Forall_elem _ _ _ (ok_rows _ Hok) He) as [draft0 Hst].
  destruct (rebuild_exists d draft0 e Hst Hm) as [draft Hdraft].
  assert (is_recorded e = true) as Hr by (by apply andb_true_iff in Hs as [? _]).
  assert (with_state "dispatched" e ∈ events d') as Hd.
  { apply (wp_run_within env _ sweepRecordedEvents (fun d => with_state "dispatched" e ∈ events d)) with (2 := le_n _).
    unfold sweepRecordedEvents. apply wp_bind. unfold wp at 1, current_time. cbn [st_step]. fold cutoff.
    apply wp_bind. eapply wp_mono.
    - apply wp_and.
      + by apply (ListRecordedBefore_claims cutoff eventDispatchSweepBatch _ (fun _ st' => st_base st' =
          (claim cutoff eventDispatchSweepBatch d1).2)); [apply Hh..|].
      + apply (ListRecordedBefore_wp cutoff eventDispatchSweepBatch _ (fun r st' =>
          listed cutoff eventDispatchSweepBatch d r (st_base st') /\ listed_all cutoff eventDispatchSweepBatch d r)); [apply Hok|].
        intros r st' Hl Hall. split; [done|]. apply Hall, Hh.
    - intros r st1 [Hb [Hl (drafts & n & -> & Hall)]]. apply wp_bind.
      eapply wp_mono; [|intros ? ? Hx; apply wp_ret; exact Hx].
      destruct (listed_ok _ _ _ _ _ Hl Hok) as [Hok2 _].
      assert (forall draft, draft ∈ drafts -> deliverable (st_base st1) draft) as Hdel.
      { inversion Hl as [| | |? ? Hmade]; subst. intros x Hx. destruct (Hmade x Hx) as (f & Hf & Hfr).
        apply claimed_elem in Hf as [Hf _]. destruct (Forall_elem _ _ _ (ok_rows _ Hok1) Hf) as [draft1 Hst1].
        apply deliverable_attempts.
        apply (rebuild_deliverable d1 draft1 f); [exact Hf|exact Hst1|exact Hfr]. }
      apply (Recorder_Dispatch_completes drafts e); [|done|done|done|].
      + unfold healthy. rewrite Hb. eapply healthy_frame; [exact Hh|lia|reflexivity..].
      + left. split; [by rewrite Hb|]. exists draft. split; [by apply (Hall e)|].
        apply (describes_id _ _ _ (rebuild_describes _ _ _ _ Hst Hdraft)). }
  split; [done|]. pose proof (swept_ok _ _ (swept_run env d Hok) Hok) as Hok'.
  exact (Forall_elem _ _ _ (ok_complete _ Hok') Hd eq_refl).
Qed.
End Healthy.

(** * Appending, reading back and dispatching one event

    What [Append] stores is what the store's reads parse, and [Dispatch] of one
    event is all or nothing. *)
Local Open Scope string_scope.
Local Open Scope Z_scope.

Section Behaviour.
Context `{UUIDLaws, JSONB}.

(** ** Append *)

Lemma wp_on_ledger {A env} (m : M A) (Q : A -> TxStateOf Delivery -> Prop) st :
  wp env m (fun a st' => Q a (MkTxState (with_ledger (st_base st') (st_base st)) (with_ledger (st_db st') (st_db st)) (st_step st')))
    (MkTxState (ledger (st_base st)) (ledger (st_db st)) (st_step st)) ->
  wp env (on_ledger m) Q st.
Proof. unfold wp, on_ledger. by destruct (m env _). Qed.

Lemma with_ledger_id d : with_ledger (ledger d) d = d.
Proof. by destruct d. Qed.

Lemma Append_wp {env} draft now st (Q : AppendStoreResult -> TxStateOf Delivery -> Prop) :
  (forall reason st', st_base st' = st_base st -> Q (AppendStoreRejected reason) st') ->
  (forall seq n, insertable (ledger (st_base st)) seq draft ->
     let d' := with_ledger (after_recording (ledger (st_base st)) seq now draft) (st_base st) in
     Q (AppendStoreAccepted (WithoutEnrichment
         (MkStoredEvent (Draft_Event draft now) (CursorFromSequence seq) NoActorName NoTaskTitle))) (MkTxState d' d' n)) ->
  wp env (Append draft now) Q st.
Proof.
  intros Hf HQ. unfold Append. wp_prim. wp_prim; [by apply wp_ret, Hf|]. apply wp_bind, wp_on_ledger, insertDomainEventInTx_wp.
  - intros err st' Hb. apply wp_ret, Hf. cbn in Hb. cbn [st_base]. by rewrite Hb, with_ledger_id.
  - cbn [st_base st_db]. intros seq n Hi. rewrite with_ledger_id. wp_prim. wp_prim; [by apply wp_ret, Hf|]. by apply wp_ret, HQ.
Qed.

(** Round trip. An appended event is stored as recorded under the cursor it was answered with,
    and the store's readers rebuild from its rows the same event and a draft with the same
    recipients, up to the printing of its metadata. *)
Theorem appended_event_reads_back env d draft now value metadata :
  delivery_ok d -> fst (run env d (Append draft now)) = AppendStoreAccepted value ->
  jsonb (Metadata_JSON (Draft_Metadata draft)) = Some metadata ->
  let d' := snd (run env d (Append draft now)) in
  exists e draft', e ∈ events d' /\ is_recorded e = true /\ ev_seq e = Sequence (Stored_Cursor value) /\
    Stored_Event value = Draft_Event draft now /\
    parseStoredEventColumns e = Some (reprinted draft now (ev_seq e) metadata) /\
    rebuild d' e = Some draft' /\ same_draft metadata draft draft'.
Proof.
  intros Hok Hres Hm d'. subst d'. destruct (wp_run (env := env) (Append draft now) (fun r st =>
    forall value, r = AppendStoreAccepted value -> exists seq, insertable (ledger d) seq draft /\
      st_base st = with_ledger (after_recording (ledger d) seq now draft) d /\
      value = WithoutEnrichment (MkStoredEvent (Draft_Event draft now) (CursorFromSequence seq) NoActorName NoTaskTitle)) d)
    as (st & Hst & ->).
  { apply Append_wp; [done|]. intros seq n Hi d' value' [= <-]. by exists seq. }
  destruct (Hst value Hres) as (seq & Hi & -> & ->).
  assert (delivery_ok (with_ledger (ledger d) d)) as Hok0 by (by rewrite with_ledger_id).
  pose proof (stored_new d (ledger d) seq now draft Hok0 Hi) as Hstored.
  destruct (rebuild_same _ _ _ _ Hstored Hm) as (draft' & Hr & Hsame).
  exists (event_row seq now draft), draft'. split; [by left|]. split; [done|]. split; [done|]. split; [done|].
  split; [|done]. rewrite (parse_stored _ _ _ Hstored), Hm. done.
Qed.

(** ** Dispatch *)

Lemma matching_iff d e s :
  delivery_ok d -> e ∈ events d ->
  s ∈ matching_subscriptions (ev_seq e) d <->
  exists sub, sub ∈ webhook_subscriptions d /\ ws_id sub = s /\ subscription_matches d e sub = true.
Proof.
  intros Hok He. unfold matching_subscriptions. destruct (find _ _) as [f|] eqn:Hf.
  - apply find_some in Hf as [Hin%list_elem_of_In Heq%Z.eqb_eq]. rewrite (event_of_seq d f e) by done.
    rewrite list_elem_of_fmap. split.
    + intros (sub & -> & [Hm Hs]%list_elem_of_filter). exists sub. split; [done|]. split; [done|]. by apply Is_true_true.
    + intros (sub & Hs & <- & Hm). exists sub. split; [done|]. apply list_elem_of_filter. by rewrite Hm.
  - assert ((ev_seq e =? ev_seq e) = false) as Hno by (by eapply (find_none _ _ Hf), list_elem_of_In).
    by rewrite Z.eqb_refl in Hno.
Qed.

(** An event that is still recorded has no webhook row yet. *)
Lemma recorded_undelivered d e s : delivery_ok d -> e ∈ events d -> is_recorded e = true -> ~ has_delivery d s (ev_seq e).
Proof.
  intros Hok He Hr (w & Hw & _ & Hseq)%Exists_exists. apply list_elem_of_In in Hw.
  destruct (Forall_elem _ _ _ (ok_delivered _ Hok) Hw) as (f & Hf & Hq & Hst).
  rewrite (event_of_seq d f e) in Hst by (try done; congruence). by rewrite (is_recorded_state _ Hr) in Hst.
Qed.

Lemma same_events_rows seq subs d d' : rtc (expanded seq subs) d d' -> events d' = events d /\ notifications d' = notifications d.
Proof. induction 1 as [|x y z [] _ IH]; [done|exact IH]. Qed.

(** The store's dispatch of a recorded event either changes nothing, or marks that event alone
    dispatched and leaves webhook deliveries of it for exactly the subscriptions that match it. *)
Theorem Dispatch_is_all_or_nothing env d id e :
  delivery_ok d -> e ∈ events d -> ev_id e = TypedID_String id -> is_recorded e = true ->
  let '(r, d') := run env d (EventStore.Dispatch id) in
  match r with
  | DispatchStoreRejected _ => d' = d
  | DispatchStoreCompleted =>
      with_state "dispatched" e ∈ events d' /\ notifications d' = notifications d /\
      (forall f, f ∈ events d -> f <> e -> f ∈ events d') /\
      forall s, has_delivery d' s (ev_seq e) <->
        exists sub, sub ∈ webhook_subscriptions d /\ ws_id sub = s /\ subscription_matches d e sub = true
  end.
Proof.
  intros Hok He Hid Hr.
  destruct (wp_run (env := env) (EventStore.Dispatch id) (fun r st => settled (TypedID_String id) d r (st_base st)) d)
    as (st & Hst & Hsnd); [by apply Dispatch_wp|].
  destruct (run env d (EventStore.Dispatch id)) as [r d']. cbn [fst snd] in *. subst d'.
  assert (event_by_id (TypedID_String id) d = inr e) as Hfound by (rewrite <- Hid; by apply event_by_id_found).
  inversion Hst as [reason E1 E2|Hidle E1 E2|e0 d2 Hf Hr0 Hexp Hall E1 E2]; subst; [done| |].
  { by rewrite (Hidle e Hfound) in Hr. }
  rewrite Hfound in Hf. injection Hf as <-. destruct (same_events_rows _ _ _ _ Hexp) as [Hev Hnot].
  destruct (expanded_rows _ _ _ _ Hexp (ok_deliveries _ Hok)) as (ws & -> & _ & Hin & Hold).
  rewrite set_states_events, Hev. split; [|split; [done|split]].
  - apply list_elem_of_fmap. exists e. split; [|done]. by rewrite Z.eqb_refl, Hr.
  - intros f Hf Hne. apply list_elem_of_fmap. exists f. split; [|done].
    destruct (Z.eqb_spec (ev_seq f) (ev_seq e)) as [Hq|]; [|done]. by destruct Hne; apply (event_of_seq d).
  - intros s. rewrite <- matching_iff by done. split; [|apply Hall].
    intros (w & Hw & Hsub & Hseq)%Exists_exists. apply list_elem_of_In in Hw. destruct (Hin w Hw) as [Hw'|Hp].
    + exfalso. apply (recorded_undelivered d e s Hok He Hr). apply Exists_exists. exists w. by rewrite <- list_elem_of_In.
    + rewrite <- Hsub. apply Hp.
Qed.
End Behaviour.
