(* ===== verification/Webhooks.v ===== *)
(** * Webhook subscriptions

    Models [internal/webhook] (endpoints, secrets, kind filters, audiences, the
    service) and the subscription half of [internal/db/webhook_store.go]. *)

From Stdlib Require Import Ascii.
From S2P Require Import Prelude.
From S2P Require Import Core.
From S2P Require Import Events.
From S2P Require Import TaskValues.
From S2P Require Import TaskWork.
From S2P Require Import Database.
From S2P Require Import Tx.
From S2P Require Import DeliveryDB.
From S2P Require Import Inbox.
From S2P Require Import EventStore.
Local Open Scope string_scope.
Local Open Scope Z_scope.

Module Webhook.

(** ** [webhook/values.go]: endpoints *)

Record EndpointURL := MkEndpointURL { EndpointURL_value : string }.

Inductive EndpointURLResult := EndpointURLAccepted (Value : EndpointURL) | EndpointURLRejected (Reason : DomainError).

Definition NewEndpointURL `{URLLib} (raw : string) : EndpointURLResult :=
  let rejected message := EndpointURLRejected (NewDomainError ErrorCodeInvalidArgument message) in
  match url_Parse raw with
  | None => rejected "webhook url is not a valid URL"
  | Some parsed =>
      if negb (String.eqb (Scheme parsed) "https") then rejected "webhook url must use https"
      else if String.eqb (Host parsed) "" || String.eqb (Hostname parsed) "" then rejected "webhook url must have a host"
      else if UserInfo parsed then rejected "webhook url must not carry userinfo"
      else EndpointURLAccepted (MkEndpointURL (URL_String parsed))
  end.

(** ** Signing secrets: [base64.RawURLEncoding] *)

Definition base64_alphabet : string := "ABCDEFGHIJKLMNOPQRSTUVWXYZabcdefghijklmnopqrstuvwxyz0123456789-_".

Definition base64_char (n : Z) : ascii := default "A"%char (String.get (Z.to_nat n) base64_alphabet).

Fixpoint in_alphabet (c : ascii) (alphabet : string) : bool :=
  match alphabet with
  | EmptyString => false
  | String a alphabet => Ascii.eqb c a || in_alphabet c alphabet
  end.

(** Three bytes make four characters; a last group of one or two makes two or three. *)
Fixpoint RawURLEncoding_EncodeToString (bytes : list Z) : string :=
  match bytes with
  | a :: b :: c :: bytes =>
      String (base64_char (Z.shiftr a 2))
        (String (base64_char (Z.lor (Z.shiftl (Z.land a 3) 4) (Z.shiftr b 4)))
          (String (base64_char (Z.lor (Z.shiftl (Z.land b 15) 2) (Z.shiftr c 6)))
            (String (base64_char (Z.land c 63)) (RawURLEncoding_EncodeToString bytes))))
  | [a; b] =>
      String (base64_char (Z.shiftr a 2))
        (String (base64_char (Z.lor (Z.shiftl (Z.land a 3) 4) (Z.shiftr b 4)))
          (String (base64_char (Z.shiftl (Z.land b 15) 2)) EmptyString))
  | [a] => String (base64_char (Z.shiftr a 2)) (String (base64_char (Z.shiftl (Z.land a 3) 4)) EmptyString)
  | [] => EmptyString
  end.

(** Line breaks are skipped; a single character left over is an error, and so is
    one outside the alphabet. [DecodeString] is read for its error only. *)
Fixpoint decodes (s : string) (count : nat) : bool :=
  match s with
  | EmptyString => negb (Nat.eqb (count mod 4) 1)
  | String c s =>
      if Ascii.eqb c "010"%char || Ascii.eqb c "013"%char then decodes s count
      else in_alphabet c base64_alphabet && decodes s (S count)
  end.

Definition RawURLEncoding_DecodeString_ok (s : string) : bool := decodes s 0.

Definition secretPrefix : string := "scrop_whsec_".

Record Secret := MkSecret { Secret_value : string }.

Inductive SecretResult := SecretAccepted (Value : Secret) | SecretRejected (Reason : DomainError).

(** What [rand.Read] of a 32-byte buffer gives: an error, or the bytes read. *)
Definition NewSecret (entropy : option (list Z)) : SecretResult :=
  match entropy with
  | None => SecretRejected (NewDomainError ErrorCodeInvalidState "generate webhook secret failed")
  | Some bytes =>
      if negb (Nat.eqb (length bytes) 32)
      then SecretRejected (NewDomainError ErrorCodeInvalidState "generate webhook secret was short")
      else SecretAccepted (MkSecret (secretPrefix +:+ RawURLEncoding_EncodeToString bytes))
  end.

Definition HasSecretPrefix (raw : string) : bool := String.prefix secretPrefix raw.

Definition ParseSecret (raw : string) : SecretResult :=
  let rejected := SecretRejected (NewDomainError ErrorCodeInvalidArgument "webhook secret is invalid") in
  if negb (String.prefix secretPrefix raw) then rejected
  else
    let encoded := String.substring (String.length secretPrefix) (String.length raw - String.length secretPrefix) raw in
    if RawURLEncoding_DecodeString_ok encoded then SecretAccepted (MkSecret raw) else rejected.

(** ** States, kind filters, owners *)

Inductive State := StateActive | StateRevoked.

Definition State_String (state : State) : string :=
  match state with StateActive => "active" | StateRevoked => "revoked" end.

Inductive StateResult := StateAccepted (Value : State) | StateRejected (Reason : DomainError).

Definition ParseState (raw : string) : StateResult :=
  switch raw
    [ (State_String StateActive, StateAccepted StateActive);
      (State_String StateRevoked, StateAccepted StateRevoked) ]
    (StateRejected (NewDomainError ErrorCodeInvalidEnum "webhook subscription state is invalid")).

Record KindFilter := MkKindFilter { filter_kinds : list Kind }.

Inductive KindFilterResult := KindFilterAccepted (Value : KindFilter) | KindFilterRejected (Reason : DomainError).

(** The loop of [NewKindFilter]: [seen] is the map keyed by the kind's text. *)
Fixpoint dedup_kinds (seen : gset string) (kinds : list Kind) : list Kind :=
  match kinds with
  | [] => []
  | kind :: kinds =>
      if decide (Kind_String kind ∈ seen) then dedup_kinds seen kinds
      else kind :: dedup_kinds ({[Kind_String kind]} ∪ seen) kinds
  end.

Definition NewKindFilter (kinds : list Kind) : KindFilterResult :=
  match dedup_kinds ∅ kinds with
  | [] => KindFilterRejected (NewDomainError ErrorCodeInvalidArgument "webhook subscription requires at least one event kind")
  | deduplicated => KindFilterAccepted (MkKindFilter deduplicated)
  end.

Definition KindFilter_Values (filter : KindFilter) : list Kind := filter_kinds filter.
Definition KindFilter_Contains (filter : KindFilter) (kind : Kind) : bool := bool_decide (kind ∈ filter_kinds filter).

Inductive Owner := OwnerUser (ID : UserID) | OwnerOrganization (ID : OrganizationID).

(** ** Audiences *)

Inductive MarketplaceTaskTypeFilter := AnyMarketplaceTaskType | MarketplaceTaskTypeIs (Value : TaskType).

Record MinimumCreditReward := MkMinimumCreditReward { MinimumCreditReward_amount : Z }.

Inductive MarketplaceRewardFilter := NoMinimumCreditReward | MinimumReward (Value : MinimumCreditReward).

Inductive MinimumCreditRewardResult :=
| MinimumCreditRewardAccepted (Value : MinimumCreditReward)
| MinimumCreditRewardRejected (Reason : DomainError).

Definition NewMinimumCreditReward (amount : Z) : MinimumCreditRewardResult :=
  if amount <=? 0
  then MinimumCreditRewardRejected (NewDomainError ErrorCodeInvalidArgument "minimum credit reward must be positive")
  else MinimumCreditRewardAccepted (MkMinimumCreditReward amount).

Inductive Audience :=
| RecipientAudience
| MarketplaceAudience (TaskType : MarketplaceTaskTypeFilter) (MinReward : MarketplaceRewardFilter).

Definition NewMarketplaceAudience : Audience := MarketplaceAudience AnyMarketplaceTaskType NoMinimumCreditReward.

Inductive AudienceKindsResult := AudienceKindsAccepted | AudienceKindsRejected (Reason : DomainError).

Definition ValidateAudienceKinds (audience : Audience) (kinds : KindFilter) : AudienceKindsResult :=
  match audience with
  | RecipientAudience => AudienceKindsAccepted
  | MarketplaceAudience _ _ =>
      if forallb (fun kind => bool_decide (kind = KindTaskOpened)) (KindFilter_Values kinds) then AudienceKindsAccepted
      else AudienceKindsRejected (NewDomainError ErrorCodeInvalidArgument "marketplace subscriptions may listen only for task_opened")
  end.

(** ** [webhook/entitlement.go] *)

Definition RequiredScopeForKind (kind : Kind) : Agent.Scope :=
  match kind with
  | KindTaskOpened | KindTaskCancelled | KindTaskExpired | KindTaskCommented | KindSeriesCommented => Agent.ScopeTasksRead
  | KindReservationRequested | KindReservationApproved | KindReservationDeclined | KindReservationCancelled
  | KindReservationExpired => Agent.ScopeTasksRead
  | KindSubmissionCreated | KindSubmissionAccepted | KindSubmissionChangesRequested | KindSubmissionRejected
  | KindSubmissionSuperseded | KindSubmissionCommented => Agent.ScopeSubmissionsRead
  | KindTaskFunded | KindPayoutReceived | KindTipReceived | KindCreditGranted | KindCreditsSent => Agent.ScopeLedgerRead
  | KindCollectibleAwarded | KindCollectibleWithdrawn | KindCollectibleReleased => Agent.ScopeCollectiblesRead
  end.

Definition MissingKindEntitlements (scopes : Agent.ScopeSet) (kinds : KindFilter) : list Kind :=
  List.filter (fun kind =>
    match Agent.Allows scopes (RequiredScopeForKind kind) with Agent.ScopeGranted => false | Agent.ScopeDenied _ => true end)
    (KindFilter_Values kinds).

(** ** [webhook/model.go] *)

Record Subscription := MkSubscription {
  ID : TypedID KWebhookSubscription;
  SOwner : Owner;
  SURL : EndpointURL;
  Kinds : KindFilter;
  SAudience : Audience;
  SState : State;
  CreatedAt : Z
}.

Inductive DeliveryState := DeliveryStatePending | DeliveryStateDelivered | DeliveryStateDead.

Definition DeliveryState_String (state : DeliveryState) : string :=
  match state with
  | DeliveryStatePending => "pending"
  | DeliveryStateDelivered => "delivered"
  | DeliveryStateDead => "dead"
  end.

Inductive DeliveryStateResult := DeliveryStateAccepted (Value : DeliveryState) | DeliveryStateRejected (Reason : DomainError).

Definition ParseDeliveryState (raw : string) : DeliveryStateResult :=
  switch raw
    [ (DeliveryState_String DeliveryStatePending, DeliveryStateAccepted DeliveryStatePending);
      (DeliveryState_String DeliveryStateDelivered, DeliveryStateAccepted DeliveryStateDelivered);
      (DeliveryState_String DeliveryStateDead, DeliveryStateAccepted DeliveryStateDead) ]
    (DeliveryStateRejected (NewDomainError ErrorCodeInvalidEnum "webhook delivery state is invalid")).

(** The read model of a delivery row. *)
Record DeliveryView := MkDeliveryView {
  View_ID : TypedID KWebhookDelivery;
  View_EventCursor : Cursor;
  View_State : DeliveryState;
  View_AttemptCount : Z;
  View_NextAttemptAt : Z;
  View_LastStatus : string
}.

(** ** [webhook/store.go] *)

Inductive CreateStoreResult := CreateStoreAccepted | CreateStoreRejected (Reason : DomainError).
Inductive ListStoreResult := ListStoreListed (Values : list Subscription) | ListStoreRejected (Reason : DomainError).
Inductive RevokeStoreResult := RevokeStoreRevoked (Value : Subscription) | RevokeStoreRejected (Reason : DomainError).
Inductive ListDeliveriesStoreResult :=
| ListDeliveriesStoreListed (Values : list DeliveryView) (Total : Z)
| ListDeliveriesStoreRejected (Reason : DomainError).

(** ** [db/webhook_store.go]: subscriptions *)

Section Store.
Context `{UUIDLib, URLLib}.

Definition webhookOwnerColumns (owner : Owner) : string * option string * option string :=
  match owner with
  | OwnerUser id => ("user", Some (TypedID_String id), None)
  | OwnerOrganization id => ("organization", None, Some (TypedID_String id))
  end.

Definition webhookAudienceColumns (audience : Audience) : string * option string * option Z :=
  match audience with
  | RecipientAudience => ("recipient", None, None)
  | MarketplaceAudience taskType minReward =>
      ("marketplace",
       match taskType with MarketplaceTaskTypeIs value => Some (TaskType_String value) | AnyMarketplaceTaskType => None end,
       match minReward with MinimumReward reward => Some (MinimumCreditReward_amount reward) | NoMinimumCreditReward => None end)
  end.

Definition subscription_row (subscription : Subscription) (secret : Secret) : SubscriptionRow :=
  let '(ownerKind, ownerUserID, ownerOrganizationID) := webhookOwnerColumns (SOwner subscription) in
  let '(audienceKind, filterTaskType, filterMinReward) := webhookAudienceColumns (SAudience subscription) in
  MkSubscriptionRow (TypedID_String (ID subscription)) ownerKind ownerUserID ownerOrganizationID
    (EndpointURL_value (SURL subscription)) (Secret_value secret) (State_String (SState subscription))
    (CreatedAt subscription) audienceKind filterTaskType filterMinReward [].

Fixpoint insert_kinds (id : string) (kinds : list Kind) : MOf Delivery (option StmtError) :=
  match kinds with
  | [] => mret None
  | kind :: kinds =>
      err ← exec (insert_subscription_kind id (Kind_String kind));
      match err with
      | Some err => mret (Some err)
      | None => insert_kinds id kinds
      end
  end.

(** The check on the owner's kind in the source cannot fail for the two owners there are. *)
Definition CreateSubscription (subscription : Subscription) (secret : Secret) : MOf Delivery CreateStoreResult :=
  let rejected message := CreateStoreRejected (NewDomainError ErrorCodeInvalidState message) in
  err ← begin_tx;
  match err with
  | Some _ => mret (rejected "begin create webhook subscription transaction failed")
  | None =>
      err ← exec (insert_subscription (subscription_row subscription secret));
      match err with
      | Some _ => mret (rejected "insert webhook subscription failed")
      | None =>
          err ← insert_kinds (TypedID_String (ID subscription)) (KindFilter_Values (Kinds subscription));
          match err with
          | Some _ => mret (rejected "insert webhook subscription kind failed")
          | None =>
              err ← commit_tx;
              mret match err with
                | Some _ => rejected "commit create webhook subscription transaction failed"
                | None => CreateStoreAccepted
                end
          end
      end
  end.

(** *** Reading subscriptions *)

Definition webhookOwnerIdentity (owner : Owner) : string * string :=
  match owner with
  | OwnerUser id => ("user", TypedID_String id)
  | OwnerOrganization id => ("organization", TypedID_String id)
  end.

Definition webhookOwnerPredicate (owner : Owner) (s : SubscriptionRow) : bool :=
  let '(ownerKind, ownerID) := webhookOwnerIdentity owner in
  String.eqb (ws_owner_kind s) ownerKind &&
  match ws_owner_user_id s, ws_owner_organization_id s with
  | Some id, _ | None, Some id => String.eqb id ownerID
  | None, None => false
  end.

Definition parseWebhookAudience (rawAudience rawTaskType : string) (rawMinReward : Z) : option Audience :=
  if String.eqb rawAudience "recipient" then Some RecipientAudience
  else if String.eqb rawAudience "marketplace" then
    taskType ← (if String.eqb rawTaskType "" then Some AnyMarketplaceTaskType
                else match ParseTaskType rawTaskType with
                     | TaskTypeAccepted value => Some (MarketplaceTaskTypeIs value)
                     | TaskTypeRejected _ => None
                     end);
    minReward ← (if rawMinReward =? 0 then Some NoMinimumCreditReward
                 else match NewMinimumCreditReward rawMinReward with
                      | MinimumCreditRewardAccepted value => Some (MinimumReward value)
                      | MinimumCreditRewardRejected _ => None
                      end);
    Some (MarketplaceAudience taskType minReward)
  else None.

Definition parse_owner (s : SubscriptionRow) : option Owner :=
  if String.eqb (ws_owner_kind s) "user"
  then user ← ws_owner_user_id s; OwnerUser <$> parsed_id (k:=KUser) user
  else if String.eqb (ws_owner_kind s) "organization"
  then organization ← ws_owner_organization_id s; OwnerOrganization <$> parsed_id (k:=KOrganization) organization
  else None.

Definition parse_kinds (rawKinds : list string) : option (list Kind) :=
  mapM (fun raw => match ParseKind raw with KindParsed kind => Some kind | KindRejected _ => None end) rawKinds.

(** The parsing half of [scanWebhookSubscription]; the secret is not selected. *)
Definition parse_subscription (s : SubscriptionRow) : option Subscription :=
  id ← parsed_id (k:=KWebhookSubscription) (ws_id s);
  owner ← parse_owner s;
  url ← match NewEndpointURL (ws_url s) with EndpointURLAccepted url => Some url | EndpointURLRejected _ => None end;
  state ← match ParseState (ws_state s) with StateAccepted state => Some state | StateRejected _ => None end;
  kinds ← parse_kinds (ws_kinds s);
  kindFilter ← match NewKindFilter kinds with KindFilterAccepted value => Some value | KindFilterRejected _ => None end;
  audience ← parseWebhookAudience (ws_audience s) (default "" (ws_filter_task_type s))
               (default 0 (ws_filter_min_credit_reward s));
  Some (MkSubscription id owner url kindFilter audience state (ws_created_at s)).

Definition scanWebhookSubscription (s : SubscriptionRow) : MOf Delivery (option Subscription) :=
  fault ← fault_point;
  mret (if fault : bool then None else parse_subscription s).

Fixpoint scan_subscriptions (rows : list SubscriptionRow) (values : list Subscription) : MOf Delivery ListStoreResult :=
  match rows with
  | [] =>
      fault ← fault_point;
      mret (if fault : bool then ListStoreRejected (NewDomainError ErrorCodeInvalidState "read webhook subscriptions failed")
            else ListStoreListed values)
  | row :: rows =>
      parsed ← scanWebhookSubscription row;
      match parsed with
      | None => mret (ListStoreRejected (NewDomainError ErrorCodeInvalidState "scan webhook subscription failed"))
      | Some value => scan_subscriptions rows (values ++ [value])
      end
  end.

(** [order by created_at, id] *)
Definition oldest_first (a b : SubscriptionRow) : Prop :=
  ws_created_at a < ws_created_at b \/
  ws_created_at a = ws_created_at b /\ String.leb (ws_id a) (ws_id b) = true.

#[export] Instance oldest_first_dec a b : Decision (oldest_first a b).
Proof. unfold oldest_first. solve_decision. Defined.

Definition ListSubscriptions (owner : Owner) (page : Pagination.Page) : MOf Delivery ListStoreResult :=
  rows ← pool_query (fun d => inr (Notification.sql_page page
           (merge_sort oldest_first (filter (webhookOwnerPredicate owner) (webhook_subscriptions d)))));
  match rows with
  | inl _ => mret (ListStoreRejected (NewDomainError ErrorCodeInvalidState "list webhook subscriptions failed"))
  | inr rows => scan_subscriptions rows []
  end.

(** [update webhook_subscriptions set state = 'revoked' where ...]: the rows affected. *)
Definition revocable (owner : Owner) (id : TypedID KWebhookSubscription) (s : SubscriptionRow) : bool :=
  String.eqb (ws_id s) (TypedID_String id) && String.eqb (ws_state s) "active" && webhookOwnerPredicate owner s.

Definition revoke_rows (owner : Owner) (id : TypedID KWebhookSubscription) (d : Delivery) : StmtError + (nat * Delivery) :=
  inr (length (filter (revocable owner id) (webhook_subscriptions d)),
    with_subscriptions ((fun s => if revocable owner id s then set_subscription_state "revoked" s else s) <$>
      webhook_subscriptions d) d).

Definition RevokeSubscription (owner : Owner) (id : TypedID KWebhookSubscription) : MOf Delivery RevokeStoreResult :=
  let rejected message := RevokeStoreRejected (NewDomainError ErrorCodeInvalidState message) in
  tag ← autocommit (revoke_rows owner id);
  match tag with
  | inl _ => mret (rejected "revoke webhook subscription failed")
  | inr O => mret (RevokeStoreRejected (NewDomainError ErrorCodeInvalidArgument "active webhook subscription was not found"))
  | inr (S _) =>
      rows ← pool_query (fun d => inr (filter (fun s => ws_id s = TypedID_String id) (webhook_subscriptions d)));
      match rows with
      | inl _ => mret (rejected "read revoked webhook subscription failed")
      | inr [] => mret (rejected "read revoked webhook subscription failed")
      | inr (row :: _) =>
          parsed ← scanWebhookSubscription row;
          mret match parsed with
            | None => rejected "scan revoked webhook subscription failed"
            | Some value => RevokeStoreRevoked value
            end
      end
  end.

(** *** Reading deliveries *)

(** [order by event_seq, id] *)
Definition stream_order (a b : DeliveryRow) : Prop :=
  wd_event_seq a < wd_event_seq b \/
  wd_event_seq a = wd_event_seq b /\ String.leb (wd_id a) (wd_id b) = true.

#[export] Instance stream_order_dec a b : Decision (stream_order a b).
Proof. unfold stream_order. solve_decision. Defined.

Fixpoint scan_deliveries (rows : list DeliveryRow) (total : Z) (values : list DeliveryView) :
    MOf Delivery ListDeliveriesStoreResult :=
  let rejected message := ListDeliveriesStoreRejected (NewDomainError ErrorCodeInvalidState message) in
  match rows with
  | [] =>
      fault ← fault_point;
      mret (if fault : bool then rejected "read webhook deliveries failed" else ListDeliveriesStoreListed values total)
  | row :: rows =>
      fault ← fault_point;
      if fault : bool then mret (rejected "scan webhook delivery failed")
      else match parsed_id (k:=KWebhookDelivery) (wd_id row), ParseDeliveryState (wd_state row) with
           | None, _ => mret (rejected "webhook delivery id is invalid")
           | Some _, DeliveryStateRejected _ => mret (rejected "webhook delivery state is invalid")
           | Some id, DeliveryStateAccepted state =>
               scan_deliveries rows total
                 (values ++ [MkDeliveryView id (CursorFromSequence (wd_event_seq row)) state (wd_attempt_count row)
                               (wd_next_attempt_at row) (wd_last_status row)])
           end
  end.

Definition deliveries_of (id : TypedID KWebhookSubscription) (d : Delivery) : list DeliveryRow :=
  filter (fun w => wd_subscription_id w = TypedID_String id) (webhook_deliveries d).

Definition ListDeliveries (owner : Owner) (id : TypedID KWebhookSubscription) (page : Pagination.Page) :
    MOf Delivery ListDeliveriesStoreResult :=
  let rejected message := ListDeliveriesStoreRejected (NewDomainError ErrorCodeInvalidState message) in
  owned ← pool_query (fun d => inr (length (filter (fun s =>
             String.eqb (ws_id s) (TypedID_String id) && webhookOwnerPredicate owner s) (webhook_subscriptions d))));
  match owned with
  | inl _ => mret (rejected "read webhook subscription failed")
  | inr O => mret (ListDeliveriesStoreRejected (NewDomainError ErrorCodeNotFound "webhook subscription was not found"))
  | inr (S _) =>
      total ← pool_query (fun d => inr (Z.of_nat (length (deliveries_of id d))));
      match total with
      | inl _ => mret (rejected "count webhook deliveries failed")
      | inr total =>
          rows ← pool_query (fun d => inr (Notification.sql_page page (merge_sort stream_order (deliveries_of id d))));
          match rows with
          | inl _ => mret (rejected "list webhook deliveries failed")
          | inr rows => scan_deliveries rows total []
          end
      end
  end.

(** ** [webhook/service.go] *)

Inductive CreateResult := SubscriptionCreated (Value : Subscription) (CreatedSecret : Secret) | CreateRejected (Reason : DomainError).
Inductive ListResult := SubscriptionsListed (Values : list Subscription) | ListRejected (Reason : DomainError).
Inductive RevokeResult := SubscriptionRevoked (Value : Subscription) | RevokeRejected (Reason : DomainError).
Inductive ListDeliveriesResult :=
| DeliveriesListed (Values : list DeliveryView) (Total : Z)
| ListDeliveriesRejected (Reason : DomainError).

(** [newID] and [entropy] are what [core.NewWebhookSubscriptionID] and [rand.Read] give. *)
Definition Create (newID : TypedIDResult KWebhookSubscription) (entropy : option (list Z)) (owner : Owner)
    (endpoint : EndpointURL) (kinds : KindFilter) (audience : Audience) : MOf Delivery CreateResult :=
  match ValidateAudienceKinds audience kinds with
  | AudienceKindsRejected reason => mret (CreateRejected reason)
  | AudienceKindsAccepted =>
      match newID with
      | TypedIDRejected reason => mret (CreateRejected reason)
      | TypedIDCreated id =>
          match NewSecret entropy with
          | SecretRejected reason => mret (CreateRejected reason)
          | SecretAccepted secret =>
              now ← current_time;
              let subscription := MkSubscription id owner endpoint kinds audience StateActive now in
              stored ← CreateSubscription subscription secret;
              mret match stored with
                | CreateStoreRejected reason => CreateRejected reason
                | CreateStoreAccepted => SubscriptionCreated subscription secret
                end
          end
      end
  end.

Definition List (owner : Owner) (page : Pagination.Page) : MOf Delivery ListResult :=
  result ← ListSubscriptions owner page;
  mret match result with
    | ListStoreListed values => SubscriptionsListed values
    | ListStoreRejected reason => ListRejected reason
    end.

Definition Revoke (owner : Owner) (id : TypedID KWebhookSubscription) : MOf Delivery RevokeResult :=
  result ← RevokeSubscription owner id;
  mret match result with
    | RevokeStoreRevoked value => SubscriptionRevoked value
    | RevokeStoreRejected reason => RevokeRejected reason
    end.

Definition Service_ListDeliveries (owner : Owner) (id : TypedID KWebhookSubscription) (page : Pagination.Page) :
    MOf Delivery ListDeliveriesResult :=
  result ← ListDeliveries owner id page;
  mret match result with
    | ListDeliveriesStoreListed values total => DeliveriesListed values total
    | ListDeliveriesStoreRejected reason => ListDeliveriesRejected reason
    end.
End Store.
End Webhook.
