(* ===== verification/WebhookWire.v ===== *)
(** * What a webhook receiver is sent

    Models [internal/webhook/wire.go] (the event payload and the delivery body),
    and [internal/webhookdispatch/signature.go]. *)

From Stdlib Require Import Ascii.
From S2P Require Import Prelude.
From S2P Require Import Core.
From S2P Require Import Auth.
From S2P Require Import Events.
From S2P Require Import Json.
From S2P Require Import Calendar.
From S2P Require Import TaskValues.
From S2P Require Import Inbox.
From S2P Require Import EventStore.
From S2P Require Import Webhooks.

(** * HMAC-SHA256

    [crypto/sha256], [crypto/hmac] and [encoding/hex] of Go's standard library, as
    far as webhook signatures use them, over bytes as integers below 256. *)
Local Open Scope Z_scope.

(** ** 32-bit words *)

Definition word (x : Z) : Z := x mod 2 ^ 32.
Definition add32 (x y : Z) : Z := word (x + y).
Definition not32 (x : Z) : Z := Z.lxor x (2 ^ 32 - 1).
Definition rotr (n x : Z) : Z := Z.lor (Z.shiftr x n) (word (Z.shiftl x (32 - n))).

(** A word from its four bytes, and back, the most significant byte first. *)
Definition be32 (a b c d : Z) : Z := ((a * 256 + b) * 256 + c) * 256 + d.
Definition be_bytes (width : nat) (x : Z) : list Z :=
  (fun i => x / 256 ^ Z.of_nat (width - 1 - i) mod 256) <$> seq 0 width.

(** *** The constants: fractional parts of roots of the first primes *)

Definition is_prime (n : nat) : bool := forallb (fun d => negb (n mod d =? 0)%nat) (seq 2 (n - 2)).
Definition primes : list Z := Eval vm_compute in Z.of_nat <$> filter (fun n => is_prime n) (seq 2 310).

(** The integer cube root, bit by bit from bit [bits - 1] down. *)
Fixpoint cube_root (bits : nat) (x root : Z) : Z :=
  match bits with
  | O => root
  | S bits =>
      let candidate := root + 2 ^ Z.of_nat bits in
      cube_root bits x (if candidate ^ 3 <=? x then candidate else root)
  end.

(** 32 bits of the fraction of a prime's cube root, of the first 64 primes. *)
Definition round_constants : list Z := Eval vm_compute in (fun p => word (cube_root 36 (p * 2 ^ 96) 0)) <$> primes.

(** 32 bits of the fraction of its square root, of the first eight. *)
Definition initial_words : list Z := Eval vm_compute in (fun p => word (Z.sqrt (p * 2 ^ 64))) <$> take 8 primes.

(** ** The compression function *)

Record Digest := MkDigest { ha : Z; hb : Z; hc : Z; hd : Z; he : Z; hf : Z; hg : Z; hh : Z }.

Definition digest_init : Digest :=
  let word i := nth i initial_words 0 in
  MkDigest (word 0%nat) (word 1%nat) (word 2%nat) (word 3%nat) (word 4%nat) (word 5%nat) (word 6%nat) (word 7%nat).

(** The message schedule, kept as a window of the last sixteen words, newest first. *)
Definition schedule_next (window : list Z) : Z :=
  let at_ i := nth i window 0 in
  let s0 := Z.lxor (Z.lxor (rotr 7 (at_ 14%nat)) (rotr 18 (at_ 14%nat))) (Z.shiftr (at_ 14%nat) 3) in
  let s1 := Z.lxor (Z.lxor (rotr 17 (at_ 1%nat)) (rotr 19 (at_ 1%nat))) (Z.shiftr (at_ 1%nat) 10) in
  word (at_ 15%nat + s0 + at_ 6%nat + s1).

Definition round (d : Digest) (k w : Z) : Digest :=
  let S1 := Z.lxor (Z.lxor (rotr 6 (he d)) (rotr 11 (he d))) (rotr 25 (he d)) in
  let ch := Z.lxor (Z.land (he d) (hf d)) (Z.land (not32 (he d)) (hg d)) in
  let t1 := word (hh d + S1 + ch + k + w) in
  let S0 := Z.lxor (Z.lxor (rotr 2 (ha d)) (rotr 13 (ha d))) (rotr 22 (ha d)) in
  let maj := Z.lxor (Z.lxor (Z.land (ha d) (hb d)) (Z.land (ha d) (hc d))) (Z.land (hb d) (hc d)) in
  MkDigest (add32 t1 (add32 S0 maj)) (ha d) (hb d) (hc d) (add32 (hd d) t1) (he d) (hf d) (hg d).

(** The first sixteen rounds take the block's words, the others the schedule. *)
Fixpoint rounds (ks pending window : list Z) (d : Digest) : Digest :=
  match ks with
  | [] => d
  | k :: ks =>
      let '(w, pending) := match pending with
        | w :: pending => (w, pending)
        | [] => (schedule_next window, [])
        end in
      rounds ks pending (take 16 (w :: window)) (round d k w)
  end.

Definition block (d : Digest) (words : list Z) : Digest :=
  let r := rounds round_constants words [] d in
  MkDigest (add32 (ha d) (ha r)) (add32 (hb d) (hb r)) (add32 (hc d) (hc r)) (add32 (hd d) (hd r))
    (add32 (he d) (he r)) (add32 (hf d) (hf r)) (add32 (hg d) (hg r)) (add32 (hh d) (hh r)).

(** ** Padding and blocks *)

(** A one bit, zeros up to eight bytes short of a block, and the length in bits. *)
Definition pad (message : list Z) : list Z :=
  let n := length message in
  message ++ 0x80 :: repeat 0 ((119 - n mod 64) mod 64) ++ be_bytes 8 (8 * Z.of_nat n).

Fixpoint words_of (message : list Z) : list Z :=
  match message with
  | a :: b :: c :: d :: message => be32 a b c d :: words_of message
  | _ => []
  end.

Fixpoint blocks (fuel : nat) (d : Digest) (words : list Z) : Digest :=
  match fuel with
  | O => d
  | S fuel => if (length words <? 16)%nat then d else blocks fuel (block d (take 16 words)) (drop 16 words)
  end.

Definition digest_bytes (d : Digest) : list Z :=
  concat (be_bytes 4 <$> [ha d; hb d; hc d; hd d; he d; hf d; hg d; hh d]).

Definition Sum256 (message : list Z) : list Z :=
  let words := words_of (pad message) in digest_bytes (blocks (length words) digest_init words).

(** ** [hmac.New(sha256.New, key)], written to and summed *)

Definition block_size : nat := 64.

Definition hmac_key (key : list Z) : list Z :=
  let key := if (block_size <? length key)%nat then Sum256 key else key in
  key ++ repeat 0 (block_size - length key).

Definition HMAC_SHA256 (key message : list Z) : list Z :=
  let key := hmac_key key in
  Sum256 (map (Z.lxor 0x5c) key ++ Sum256 (map (Z.lxor 0x36) key ++ message)).

(** ** [hex.EncodeToString] *)

Definition hex_char (n : Z) : Ascii.ascii := hex_digit (Z.to_N n).

Fixpoint hex_EncodeToString (data : list Z) : string :=
  match data with
  | [] => EmptyString
  | b :: data => String (hex_char (b / 16)) (String (hex_char (b mod 16)) (hex_EncodeToString data))
  end.

(** The bytes of a Go string. *)
Definition bytes_of (s : string) : list Z := (fun c => Z.of_N (code c)) <$> to_bytes s.

(** ** The published vectors *)

Example sha256_empty :
  hex_EncodeToString (Sum256 []) = "e3b0c44298fc1c149afbf4c8996fb92427ae41e4649b934ca495991b7852b855"%string.
Proof. by vm_compute. Qed.

Example sha256_two_blocks :
  hex_EncodeToString (Sum256 (bytes_of "abcdbcdecdefdefgefghfghighijhijkijkljklmklmnlmnomnopnopq")) =
  "248d6a61d20638b8e5c026930c3e6039a33ce45964ff2167f6ecedd419db06c1"%string.
Proof. by vm_compute. Qed.

Example hmac_short_key :
  hex_EncodeToString (HMAC_SHA256 (bytes_of "Jefe") (bytes_of "what do ya want for nothing?")) =
  "5bdcc146bf60754e6a042426089575c75a003f089d2739839dec58b964ec3843"%string.
Proof. by vm_compute. Qed.

(** ** Lengths *)

Lemma Sum256_length message : length (Sum256 message) = 32%nat.
Proof. unfold Sum256. by destruct (blocks _ _ _). Qed.

Lemma hex_length data : String.length (hex_EncodeToString data) = (2 * length data)%nat.
Proof. induction data as [|b data IH]; cbn in *; lia. Qed.

Lemma pad_length message : exists k, length (pad message) = (64 * k)%nat.
Proof.
  unfold pad. set (n := length message). exists ((n + 9 + (119 - n mod 64) mod 64) / 64)%nat.
  rewrite length_app. cbn [length]. rewrite length_app, repeat_length. unfold be_bytes. rewrite length_fmap, length_seq. fold n.
  pose proof (Nat.div_mod_eq n 64) as Hn. pose proof (Nat.mod_upper_bound n 64 ltac:(lia)) as Hlt.
  set (q := (n / 64)%nat) in *. set (r := (n mod 64)%nat) in *.
  destruct (decide (r <= 55)%nat).
  - replace ((119 - r) mod 64)%nat with (55 - r)%nat by (apply (Nat.mod_unique _ _ 1); lia).
    replace (n + 9 + (55 - r))%nat with ((q + 1) * 64)%nat by lia. rewrite Nat.div_mul by lia. lia.
  - replace ((119 - r) mod 64)%nat with (119 - r)%nat by (symmetry; apply Nat.mod_small; lia).
    replace (n + 9 + (119 - r))%nat with ((q + 2) * 64)%nat by lia. rewrite Nat.div_mul by lia. lia.
Qed.

Local Open Scope string_scope.
Local Open Scope Z_scope.

(** ** [EventPayload] *)

Record EventPayload := MkEventPayload {
  Payload_ID : string;
  Payload_Kind : string;
  Payload_ActorKind : string;
  Payload_ActorUserID : string;
  Payload_ActorDisplayName : string;
  Payload_OccurredAt : string;
  Payload_Cursor : string;
  Payload_TaskID : string;
  Payload_TaskTitle : string;
  Payload_SubmissionID : string;
  Payload_ReservationID : string;
  Payload_SeriesID : string;
  Payload_OrganizationID : string;
  Payload_CollectibleID : string;
  Payload_MetadataJSON : string
}.

Section Wire.
Context `{UUIDLib}.

Definition EventPayloadFromStored (stored : StoredEvent) : EventPayload :=
  let e := Stored_Event stored in
  let subject := Event_Subject e in
  MkEventPayload
    (TypedID_String (Event_ID e))
    (Kind_String (Event_Kind e))
    (match Event_Actor e with ActorUser _ => "user" | ActorSystem => "system" end)
    (match Event_Actor e with ActorUser user => TypedID_String user | ActorSystem => "" end)
    (match Stored_ActorName stored with ActorNamed name => DisplayName_value name | NoActorName => "" end)
    (RFC3339Nano (Event_OccurredAt e))
    (Cursor_String (Stored_Cursor stored))
    (match Subject_Task subject with TaskSubject id => TypedID_String id | NoTask => "" end)
    (match Stored_TaskTitle stored with TaskTitled title => title | NoTaskTitle => "" end)
    (match Subject_Submission subject with SubmissionSubject id => TypedID_String id | NoSubmission => "" end)
    (match Subject_Reservation subject with ReservationSubject id => TypedID_String id | NoReservation => "" end)
    (match Subject_Series subject with SeriesSubject id => TypedID_String id | NoSeries => "" end)
    (match Subject_Organization subject with OrganizationSubject id => TypedID_String id | NoOrganization => "" end)
    (match Subject_Collectible subject with CollectibleSubject id => TypedID_String id | NoCollectible => "" end)
    (Metadata_JSON (Event_Metadata e)).

(** The members in the order of the struct, under their [json] tags. *)
Definition payload_members (p : EventPayload) : list (string * string) :=
  [ ("id", Payload_ID p); ("kind", Payload_Kind p); ("actor_kind", Payload_ActorKind p);
    ("actor_user_id", Payload_ActorUserID p); ("actor_display_name", Payload_ActorDisplayName p);
    ("occurred_at", Payload_OccurredAt p); ("cursor", Payload_Cursor p); ("task_id", Payload_TaskID p);
    ("task_title", Payload_TaskTitle p); ("submission_id", Payload_SubmissionID p);
    ("reservation_id", Payload_ReservationID p); ("series_id", Payload_SeriesID p);
    ("organization_id", Payload_OrganizationID p); ("collectible_id", Payload_CollectibleID p);
    ("metadata_json", Payload_MetadataJSON p) ].

(** ** [DeliveryBody] *)

Record DeliveryBody := MkDeliveryBody { Body_Event : EventPayload; Body_SubscriptionID : string }.

(** [json.Marshal] of a struct: members between braces, commas between members. *)
Fixpoint Marshal_members (members : list (string * bytes)) : bytes :=
  match members with
  | [] => ["}"%char]
  | [(name, value)] => (Marshal_string (to_bytes name) ++ ":"%char :: value ++ ["}"%char])%list
  | (name, value) :: members => (Marshal_string (to_bytes name) ++ ":"%char :: value ++ ","%char :: Marshal_members members)%list
  end.

Definition Marshal_struct (members : list (string * bytes)) : bytes := "{"%char :: Marshal_members members.

Definition string_members (members : list (string * string)) : list (string * bytes) :=
  (fun m => (m.1, Marshal_string (to_bytes m.2))) <$> members.

(** Strings and structs of strings always marshal, so the error of the source is always nil. *)
Definition EncodeDeliveryBody (stored : StoredEvent) (subscriptionID : string) : string :=
  let body := MkDeliveryBody (EventPayloadFromStored stored) subscriptionID in
  of_bytes (Marshal_struct
    [ ("event", Marshal_struct (string_members (payload_members (Body_Event body))));
      ("subscription_id", Marshal_string (to_bytes (Body_SubscriptionID body))) ]).
End Wire.

(** ** [webhookdispatch/signature.go] *)

Definition HeaderWebhookID : string := "Sharecrop-Webhook-Id".
Definition HeaderWebhookTimestamp : string := "Sharecrop-Webhook-Timestamp".
Definition HeaderWebhookSignature : string := "Sharecrop-Webhook-Signature".

(** What is written to the MAC: the timestamp, a full stop and the body. *)
Definition signed_message (unixTimestamp : Z) (body : string) : string := FormatInt unixTimestamp +:+ "." +:+ body.

Definition ComputeSignature (secret : Webhook.Secret) (unixTimestamp : Z) (body : string) : string :=
  "v1=" +:+ hex_EncodeToString (HMAC_SHA256 (bytes_of (Webhook.Secret_value secret)) (bytes_of (signed_message unixTimestamp body))).
