(* ===== verification/WireFacts.v ===== *)
(** * Webhook bodies are readable

    A JSON decoder reads a delivery body back as the event's fields, and the
    signature covers an unambiguous pair of timestamp and body. *)

From Stdlib Require Import Ascii.
From S2P Require Import Prelude.
From S2P Require Import Core.
From S2P Require Import Events.
From S2P Require Import Json.
From S2P Require Import JsonFacts.
From S2P Require Import SchemaParser.
From S2P Require Import EventStore.
From S2P Require Import WebhookWire.
From S2P Require Import Webhooks.
Local Open Scope string_scope.
Local Open Scope list_scope.

(** A bind of a known option. *)
Lemma bind_Some {A B} (x : A) (f : A -> option B) : Some x ≫= f = f x.
Proof. done. Qed.

(** ** Reading a struct *)

Lemma scan_scalar_Marshal s rest : scan_scalar (Marshal_string s ++ rest) = Some (TokenString (sanitize s), rest).
Proof.
  unfold Marshal_string. fold (quote s). cbn [app scan_scalar]. rewrite ceq_refl, <- app_assoc. cbn [app].
  rewrite scan_string_quote, bind_Some. by rewrite unquote_quote.
Qed.

Lemma scan_json_Marshal fuel nesting s rest :
  scan_json (S fuel) nesting (Marshal_string s ++ rest) = Some (JString (sanitize s), rest).
Proof.
  pose proof (scan_scalar_Marshal s rest) as Hs. revert Hs.
  change (Marshal_string s ++ rest) with ("034"%char :: (quote s ++ ["034"%char]) ++ rest).
  generalize ((quote s ++ ["034"%char]) ++ rest). intros t Hs.
  cbn [scan_json]. change (skip_space ("034"%char :: t)) with ("034"%char :: t). cbn -[scan_scalar]. by rewrite Hs.
Qed.

(** A member whose value is read with [k] fuel, whatever follows it. *)
Definition reads_as (k nesting : nat) (m : string * bytes) (value : JSON) : Prop :=
  utf8 (to_bytes m.1) /\ forall fuel rest, k <= fuel -> scan_json fuel nesting (m.2 ++ rest) = Some (value, rest).

Definition named (m : string * bytes) (value : JSON) : bytes * JSON := (to_bytes m.1, value).

Lemma scan_member fuel nesting k (m : string * bytes) value rest :
  reads_as k nesting m value -> k <= fuel ->
  scan_members (S fuel) nesting (Marshal_string (to_bytes m.1) ++ ":"%char :: m.2 ++ rest) =
    match skip_space rest with
    | c :: rest =>
        if ceq c "}"%char then Some ([named m value], rest)
        else if ceq c ","%char then
          '(members, rest) ← scan_members fuel nesting rest; Some (named m value :: members, rest)
        else None
    | [] => None
    end.
Proof.
  intros [Hname Hvalue] Hk. set (tail := ":"%char :: m.2 ++ rest).
  change (Marshal_string (to_bytes m.1) ++ tail) with ("034"%char :: (quote (to_bytes m.1) ++ ["034"%char]) ++ tail).
  rewrite <- app_assoc. cbn [app scan_members]. change (skip_space ("034"%char :: ?t)) with ("034"%char :: t). cbn beta iota.
  rewrite ceq_refl, scan_string_quote. subst tail. rewrite bind_Some, unquote_quote, sanitize_utf8 by done.
  change (skip_space (":"%char :: ?t)) with (":"%char :: t). cbn beta iota. by rewrite ceq_refl, Hvalue.
Qed.

Lemma scan_members_struct k nesting members values rest fuel :
  members <> [] -> Forall2 (reads_as k nesting) members values -> k + length members <= fuel ->
  scan_members fuel nesting (Marshal_members members ++ rest) = Some (zip_with named members values, rest).
Proof.
  intros Hne Hall. revert fuel Hne. induction Hall as [|[name text] value members values Hm Hall IH]; intros fuel Hne Hk; [done|].
  destruct fuel as [|fuel]; cbn [length] in Hk; [lia|].
  destruct members as [|m members]; cbn [Marshal_members]; rewrite <- ?app_assoc; cbn [app]; rewrite <- ?app_assoc; cbn [app].
  - rewrite (scan_member _ _ k (name, text) value) by (done || lia). by inversion Hall.
  - rewrite (scan_member _ _ k (name, text) value) by (done || lia).
    change (skip_space (","%char :: ?t)) with (","%char :: t). cbn beta iota.
    change (ceq "," "}") with false. rewrite ceq_refl, IH by (done || cbn in *; lia). by destruct values; inversion Hall.
Qed.

Lemma scan_struct k nesting members values rest fuel :
  members <> [] -> Forall2 (reads_as k nesting) members values -> S (k + length members) <= fuel ->
  scan_json fuel (S nesting) (Marshal_struct members ++ rest) = Some (JObject (zip_with named members values), rest).
Proof.
  intros Hne Hall Hk. destruct fuel as [|fuel]; [lia|]. unfold Marshal_struct. cbn [app scan_json].
  change (skip_space ("{"%char :: ?t)) with ("{"%char :: t). cbn beta iota.
  change (ceq "{" "[") with false. rewrite ceq_refl. cbn iota.
  assert (exists t, Marshal_members members ++ rest = "034"%char :: t) as [t Ht].
  { destruct members as [|[name text] [|m members]]; [done|by eexists..]. }
  pose proof (scan_members_struct k nesting members values rest fuel Hne Hall ltac:(lia)) as Hs. rewrite Ht in *.
  change (skip_space ("034"%char :: t)) with ("034"%char :: t). cbn beta iota.
  change (ceq "034" "}") with false. cbn iota. by rewrite Hs.
Qed.

(** ** The body *)

Definition text_member (m : string * string) : bytes * JSON := (to_bytes m.1, JString (sanitize (to_bytes m.2))).

Lemma read_string_members nesting members :
  Forall (fun m => utf8 (to_bytes m.1)) members ->
  Forall2 (reads_as 1 nesting) (string_members members) ((fun m => JString (sanitize (to_bytes m.2))) <$> members).
Proof.
  induction 1 as [|[name text] members Hname _ IH]; [done|]. constructor; [|done]. split; [done|].
  intros [|fuel] rest Hk; [lia|]. apply scan_json_Marshal.
Qed.

Lemma zip_text_members members :
  zip_with named (string_members members) ((fun m => JString (sanitize (to_bytes m.2))) <$> members) = text_member <$> members.
Proof. induction members as [|m members IH]; [done|]. cbn. by rewrite <- IH. Qed.

(** Plain ASCII names. *)
Lemma ascii_utf8 s : forallb is_ascii s = true -> utf8 s.
Proof. induction s as [|c s IH]; cbn; [constructor|]. intros [Hc Hs]%andb_true_iff. apply utf8_ascii; [done|by apply IH]. Qed.

Lemma payload_names_plain p : Forall (fun m => utf8 (to_bytes m.1)) (payload_members p).
Proof. repeat constructor; apply ascii_utf8; reflexivity. Qed.

(** Round trip. The body of a delivery is a JSON document that reads back as the event's
    members, in order, and the subscription id, whatever text the event carries. *)
Theorem delivery_body_reads_back `{UUIDLib} stored subscriptionID :
  json_document (to_bytes (EncodeDeliveryBody stored subscriptionID)) =
    Some (JObject
      [ (to_bytes "event", JObject (text_member <$> payload_members (EventPayloadFromStored stored)));
        text_member ("subscription_id", subscriptionID) ]).
Proof.
  unfold EncodeDeliveryBody. rewrite to_of_bytes. cbn [Body_Event Body_SubscriptionID].
  set (members := payload_members _). set (raw := Marshal_struct _).
  rewrite (json_document_fuel (2 * length raw + 2 + 30)) by lia. unfold document_within, raw.
  assert (exists n, maxScanDepth = S (S n)) as [depth ->] by (by exists (Nat.pred (Nat.pred maxScanDepth))).
  rewrite <- (app_nil_r (Marshal_struct _)).
  rewrite (scan_struct 17 _ _
    [JObject (text_member <$> members); JString (sanitize (to_bytes subscriptionID))]); [done|done| |cbn [length]; lia].
  constructor; [|constructor; [|constructor]]; (split; [by apply ascii_utf8|]).
  - intros fuel rest Hk. cbn [snd]. rewrite (scan_struct 1 _ _ ((fun m => JString (sanitize (to_bytes m.2))) <$> members)).
    + by rewrite zip_text_members.
    + done.
    + apply read_string_members, payload_names_plain.
    + unfold string_members. rewrite length_fmap. cbn [length members payload_members]. lia.
  - intros [|fuel] rest Hk; [lia|]. apply scan_json_Marshal.
Qed.

(** ** The signature *)

Lemma ComputeSignature_length secret t body : String.length (ComputeSignature secret t body) = 67.
Proof.
  unfold ComputeSignature. change (String.length ("v1=" +:+ ?s)) with (3 + String.length s).
  rewrite hex_length. unfold HMAC_SHA256. by rewrite Sum256_length.
Qed.

Lemma FormatInt_no_dot z : "."%char ∉ to_bytes (FormatInt z).
Proof.
  intros Hin.
  assert (forall ds, Forall (fun c => is_digit c = true) ds -> "."%char ∉ ds) as Hdigits.
  { intros ds Hds Hd. rewrite List.Forall_forall in Hds. apply list_elem_of_In, Hds in Hd. discriminate Hd. }
  destruct (FormatInt_bytes z) as [[E _]|[(ds & x & E & (Hds & _) & _)|(ds & x & E & (Hds & _) & _)]]; rewrite E in Hin.
  - by apply list_elem_of_singleton in Hin.
  - by apply (Hdigits ds).
  - apply elem_of_cons in Hin as [Hin|Hin]; [done|by apply (Hdigits ds)].
Qed.

Lemma split_at_mark {A} (x : A) l1 r1 l2 r2 :
  x ∉ l1 -> x ∉ l2 -> l1 ++ x :: r1 = l2 ++ x :: r2 -> l1 = l2 /\ r1 = r2.
Proof.
  revert l2. induction l1 as [|a l1 IH]; intros [|b l2] H1 H2 E; cbn in E; simplify_eq; [done| | |].
  - by destruct H2; left.
  - by destruct H1; left.
  - destruct (IH l2) as [-> ->]; [by intros ?; apply H1; right|by intros ?; apply H2; right|done|done].
Qed.

(** The signed text determines the timestamp and the body, so a signature of one delivery is
    not the signature of another time or another body with the same text. *)
Theorem signed_message_determines t1 body1 t2 body2 :
  signed_message t1 body1 = signed_message t2 body2 -> t1 = t2 /\ body1 = body2.
Proof.
  intros E. apply (f_equal to_bytes) in E. unfold signed_message in E. rewrite !to_bytes_app in E. cbn [to_bytes] in E.
  apply split_at_mark in E as [Et Eb]; [|apply FormatInt_no_dot..].
  split; [|by apply to_bytes_inj]. apply to_bytes_inj in Et. unfold FormatInt in Et. by apply (inj pretty) in Et.
Qed.
