(* ===== verification/WebhookDispatch.v ===== *)
(** * Webhook delivery: claims, retries and the pump

    Models the dispatch half of [internal/db/webhook_store.go] and
    [internal/webhookdispatch] (backoff, dispatcher).  What a POST comes to, the
    draws of the jitter source, the clock of the database server and the rows
    other replicas hold locked are the surroundings of a run. *)

From Stdlib Require Import Ascii.
From S2P Require Import Prelude.
From S2P Require Import Core.
From S2P Require Import Auth.
From S2P Require Import Events.
From S2P Require Import TaskValues.
From S2P Require Import Database.
From S2P Require Import Tx.
From S2P Require Import DeliveryDB.
From S2P Require Import Inbox.
From S2P Require Import EventStore.
From S2P Require Import Webhooks.
From S2P Require Import WebhookWire.

Local Open Scope string_scope.
Local Open Scope Z_scope.

Definition second : Z := 10 ^ 9.

(** ** The surroundings of a run *)

(** A transport error, as [classifyDeliveryError] looks at it. *)
Record TransportError := MkTransportError {
  net_timeout : bool;           (* [errors.As(err, &netErr) && netErr.Timeout()] *)
  deadline_exceeded : bool;
  connection_refused : bool;
  error_text : string
}.

Inductive Reply :=
| RequestInvalid (text : string)          (* [http.NewRequestWithContext] fails *)
| TransportFailed (err : TransportError)  (* [client.Do] fails *)
| Responded (StatusCode : Z).

Class Surroundings := {
  respond : nat -> PostRequest -> Reply;
  jitter_draw : nat -> Z;                 (* [rand.Uint64] *)
  database_clock : nat -> Z;              (* [now()] of the transaction begun at a step *)
  locked_elsewhere : nat -> string -> bool  (* delivery rows other transactions hold *)
}.

(** ** [webhookdispatch/backoff.go] *)

Definition retryDelays : list Z := [30 * second; 5 * 60 * second; 30 * 60 * second; 2 * 3600 * second; 8 * 3600 * second].
Definition MaxAttempts : Z := 6.

Inductive retryDecision := retryAt (at_ : Z) | retriesExhausted.

(** Float64 arithmetic on non-negative numbers: an integer in a fixed unit, rounded
    to 53 significant bits, ties to even. *)
Definition round53 (x : Z) : Z :=
  let shift := Z.log2 x - 52 in
  if shift <=? 0 then x
  else
    let unit := 2 ^ shift in
    let q := x / unit in
    let r := x mod unit in
    let q := if 2 * r <? unit then q else if unit <? 2 * r then q + 1 else if Z.even q then q else q + 1 in
    q * unit.

(** [rand.Float64] is [float64(Uint64()<<11>>11) / (1 << 53)]. *)
Definition Float64_numerator (draw : Z) : Z := Z.shiftr (Z.shiftl draw 11 mod 2 ^ 64) 11.

(** The float64 constants [0.4] and [0.8] are this over [2^54] and over [2^53]. *)
Definition two_fifths : Z := 7205759403792794.

(** [1 - jitterFraction + 2*jitterFraction*Float64()], in units of [2^-107]. *)
Definition jitter_factor (u : Z) : Z := round53 (two_fifths * 2 ^ 54 + round53 (two_fifths * u)).

(** The bases are below [2^53], so [float64(base)] is exact; the conversion back truncates. *)
Definition jitterDelay (base draw : Z) : Z := round53 (base * jitter_factor (Float64_numerator draw)) / 2 ^ 107.

Definition decideRetry (attempt now draw : Z) : retryDecision :=
  if MaxAttempts <=? attempt then retriesExhausted
  else
    let index := attempt - 1 in
    let index := if index <? 0 then 0 else index in
    let index := if Z.of_nat (length retryDelays) <=? index then Z.of_nat (length retryDelays) - 1 else index in
    retryAt (now + jitterDelay (nth (Z.to_nat index) retryDelays 0) draw).

(** ** [db/webhook_store.go]: claims *)

Record ClaimedWebhookDelivery := MkClaimed {
  Claimed_ID : TypedID KWebhookDelivery;
  Claimed_Subscription : TypedID KWebhookSubscription;
  Claimed_URL : Webhook.EndpointURL;
  Claimed_Secret : Webhook.Secret;
  Claimed_AttemptCount : Z;
  Claimed_Event : StoredEvent
}.

Inductive ClaimDueDeliveriesResult :=
| ClaimDueDeliveriesListed (Values : list ClaimedWebhookDelivery)
| ClaimDueDeliveriesRejected (Reason : DomainError).

(** A row of the claim's join. *)
Record DueRow := MkDueRow { due_delivery : DeliveryRow; due_subscription : SubscriptionRow; due_event : FeedRow }.

Definition due_row (d : Delivery) (w : DeliveryRow) : option DueRow :=
  subscription ← find (fun s => String.eqb (ws_id s) (wd_subscription_id w)) (webhook_subscriptions d);
  e ← find (fun e => ev_seq e =? wd_event_seq w) (events d);
  row ← feed_row d e;
  Some (MkDueRow w subscription row).

(** [order by next_attempt_at] *)
Definition next_first (a b : DeliveryRow) : Prop := wd_next_attempt_at a <= wd_next_attempt_at b.
#[export] Instance next_first_dec a b : Decision (next_first a b).
Proof. unfold next_first. solve_decision. Defined.

Definition is_due (now : Z) (w : DeliveryRow) : bool := is_pending w && (wd_next_attempt_at w <=? now).

(** [for update skip locked] passes over the rows others hold before [limit] counts. *)
Definition due_rows (now : Z) (locked : string -> bool) (limit : nat) (d : Delivery) : list DueRow :=
  take limit (omap (due_row d)
    (filter (fun w => negb (locked (wd_id w))) (merge_sort next_first (filter (is_due now) (webhook_deliveries d))))).

Section Dispatch.
Context `{UUIDLib, JSONB, URLLib, Surroundings}.

Definition database_time : MOf Delivery Z := fun _ st => (database_clock (st_step st), st).
Definition other_locks : MOf Delivery (string -> bool) := fun _ st => (locked_elsewhere (st_step st), st).

(** The parsing half of [scanClaimedWebhookDelivery]. *)
Definition parse_claimed (row : DueRow) : option ClaimedWebhookDelivery :=
  let w := due_delivery row in
  let s := due_subscription row in
  id ← parsed_id (k:=KWebhookDelivery) (wd_id w);
  subscription ← parsed_id (k:=KWebhookSubscription) (ws_id s);
  url ← match Webhook.NewEndpointURL (ws_url s) with Webhook.EndpointURLAccepted url => Some url | Webhook.EndpointURLRejected _ => None end;
  secret ← match Webhook.ParseSecret (ws_secret s) with Webhook.SecretAccepted secret => Some secret | Webhook.SecretRejected _ => None end;
  stored ← parseStoredEventColumns (feed_event (due_event row));
  name ← match NewDisplayName (feed_actor_name (due_event row)) with DisplayNameAccepted name => Some name | DisplayNameRejected _ => None end;
  let title := feed_task_title (due_event row) in
  Some (MkClaimed id subscription url secret (wd_attempt_count w)
    (MkStoredEvent (Stored_Event stored) (Stored_Cursor stored) (ActorNamed name)
       (if String.eqb title "" then NoTaskTitle else TaskTitled title))).

Definition scanClaimedWebhookDelivery (row : DueRow) : MOf Delivery (option ClaimedWebhookDelivery) :=
  fault ← fault_point;
  mret (if fault : bool then None else parse_claimed row).

Fixpoint scan_claimed (rows : list DueRow) (values : list ClaimedWebhookDelivery) :
    MOf Delivery (DomainError + list ClaimedWebhookDelivery) :=
  let rejected message := inl (NewDomainError ErrorCodeInvalidState message) in
  match rows with
  | [] =>
      fault ← fault_point;
      mret (if fault : bool then rejected "iterate claimed webhook deliveries failed" else inr values)
  | row :: rows =>
      claimed ← scanClaimedWebhookDelivery row;
      match claimed with
      | None => mret (rejected "scan claimed webhook delivery failed")
      | Some claimed => scan_claimed rows (values ++ [claimed])
      end
  end.

Definition set_next (next : Z) (w : DeliveryRow) : DeliveryRow :=
  set_walk (wd_state w) (wd_attempt_count w) next (wd_last_status w) w.

(** [update webhook_deliveries set next_attempt_at = now() + hold where id = $1], for each claimed row. *)
Fixpoint hold_claimed (values : list ClaimedWebhookDelivery) (until : Z) : MOf Delivery (option StmtError) :=
  match values with
  | [] => mret None
  | claimed :: values =>
      result ← stmt (update_delivery (TypedID_String (Claimed_ID claimed)) (fun _ => true) (set_next until));
      match result with
      | inl err => mret (Some err)
      | inr _ => hold_claimed values until
      end
  end.

Definition ClaimDueDeliveries (limit : nat) (hold : Z) : MOf Delivery ClaimDueDeliveriesResult :=
  let rejected message := ClaimDueDeliveriesRejected (NewDomainError ErrorCodeInvalidState message) in
  now ← database_time;
  err ← begin_tx;
  match err with
  | Some _ => mret (rejected "begin webhook claim transaction failed")
  | None =>
      locked ← other_locks;
      rows ← query_rows (due_rows now locked limit);
      match rows with
      | inl _ => mret (rejected "claim webhook deliveries failed")
      | inr rows =>
          scanned ← scan_claimed rows [];
          match scanned with
          | inl reason => mret (ClaimDueDeliveriesRejected reason)
          | inr values =>
              err ← hold_claimed values (now + hold);
              match err with
              | Some _ => mret (rejected "hold claimed webhook delivery failed")
              | None =>
                  err ← commit_tx;
                  mret match err with
                    | Some _ => rejected "commit webhook claim transaction failed"
                    | None => ClaimDueDeliveriesListed values
                    end
              end
          end
      end
  end.

(** ** [db/webhook_store.go]: marks *)

Inductive MarkDeliveryResult := MarkDeliveryRecorded | MarkDeliveryRejected (Reason : DomainError).

Definition marked (message : string) (tag : StmtError + nat) : MarkDeliveryResult :=
  match tag with
  | inl _ => MarkDeliveryRejected (NewDomainError ErrorCodeInvalidState message)
  | inr O => MarkDeliveryRejected (NewDomainError ErrorCodeInvalidArgument "pending webhook delivery was not found")
  | inr (S _) => MarkDeliveryRecorded
  end.

Definition MarkDelivered (id : TypedID KWebhookDelivery) (attemptCount : Z) (status : string) : MOf Delivery MarkDeliveryResult :=
  tag ← autocommit (update_delivery (TypedID_String id) is_pending
          (fun w => set_walk "delivered" attemptCount (wd_next_attempt_at w) status w));
  mret (marked "mark webhook delivery delivered failed" tag).

Inductive FailureOutcome := RetryLater (NextAttemptAt : Z) | Dead.

Definition MarkFailed (id : TypedID KWebhookDelivery) (attemptCount : Z) (status : string) (outcome : FailureOutcome) :
    MOf Delivery MarkDeliveryResult :=
  tag ← match outcome with
        | RetryLater next =>
            autocommit (update_delivery (TypedID_String id) is_pending
              (fun w => set_walk (wd_state w) attemptCount next status w))
        | Dead =>
            autocommit (update_delivery (TypedID_String id) is_pending
              (fun w => set_walk "dead" attemptCount (wd_next_attempt_at w) status w))
        end;
  mret (marked "mark webhook delivery failed attempt failed" tag).

(** ** [webhookdispatch/dispatcher.go] *)

Definition claimBatchSize : nat := 10.
Definition maxClaimBatchesPerRun : nat := 50.
Definition requestTimeout : Z := 10 * second.
Definition claimHold : Z := Z.of_nat claimBatchSize * requestTimeout + requestTimeout.
Definition lastStatusLimit : nat := 120.

Definition boundedStatus (status : string) : string :=
  if (lastStatusLimit <? String.length status)%nat then String.substring 0 lastStatusLimit status else status.

Definition string_contains (s sub : string) : bool :=
  match String.index 0 sub s with Some _ => true | None => false end.

Definition classifyDeliveryError (err : TransportError) : string :=
  if net_timeout err then "timeout"
  else if deadline_exceeded err then "timeout"
  else if connection_refused err then "connection refused"
  else if string_contains (error_text err) "webhook dial blocked" then boundedStatus ("blocked: " +:+ error_text err)
  else boundedStatus (error_text err).

(** The request joins those sent, unless [http.NewRequestWithContext] refused to build it. *)
Definition send (request : PostRequest) (d : Delivery) : Delivery :=
  with_requests (requests_sent d ++ [request])%list d.

Definition client_Do (request : PostRequest) : MOf Delivery Reply := fun _ st =>
  match respond (st_step st) request with
  | RequestInvalid text => (RequestInvalid text, tick st)
  | reply => (reply, MkTxState (send request (st_base st)) (send request (st_db st)) (S (st_step st)))
  end.
Definition Uint64 : MOf Delivery Z := fun _ st => (jitter_draw (st_step st), tick st).

Definition postDelivery (delivery : ClaimedWebhookDelivery) : MOf Delivery (string * bool) :=
  let url := Webhook.EndpointURL_value (Claimed_URL delivery) in
  if negb (String.prefix "https://" url) then mret ("blocked: url is not https", false)
  else
    let body := EncodeDeliveryBody (Claimed_Event delivery) (TypedID_String (Claimed_Subscription delivery)) in
    now ← current_time;
    let timestamp := now / second in
    reply ← client_Do (MkPostRequest url body (TypedID_String (Claimed_ID delivery)) (FormatInt timestamp)
                         (ComputeSignature (Claimed_Secret delivery) timestamp body));
    mret match reply with
      | RequestInvalid text => (boundedStatus text, false)
      | TransportFailed err => (classifyDeliveryError err, false)
      | Responded code => (FormatInt code, (200 <=? code) && (code <=? 299))
      end.

Definition attemptDelivery (delivery : ClaimedWebhookDelivery) : MOf Delivery bool :=
  let attempt := wrap64 (Claimed_AttemptCount delivery + 1) in
  '(status, succeeded) ← postDelivery delivery;
  if succeeded : bool then
    _ ← MarkDelivered (Claimed_ID delivery) attempt status;
    mret true
  else
    now ← current_time;
    draw ← (if MaxAttempts <=? attempt then mret 0 else Uint64);
    _ ← match decideRetry attempt now draw with
        | retryAt next => MarkFailed (Claimed_ID delivery) attempt status (RetryLater next)
        | retriesExhausted => MarkFailed (Claimed_ID delivery) attempt status Dead
        end;
    mret false.

Inductive RunResult := RunCompleted (Attempted Delivered : nat) | RunRejected (Reason : DomainError).

Fixpoint attempt_all (deliveries : list ClaimedWebhookDelivery) (delivered : nat) : MOf Delivery nat :=
  match deliveries with
  | [] => mret delivered
  | delivery :: deliveries =>
      succeeded ← attemptDelivery delivery;
      attempt_all deliveries (if succeeded : bool then S delivered else delivered)
  end.

(** The loop of [RunOnce], [batches] rounds of it left. *)
Fixpoint run_batches (batches : nat) (attempted delivered : nat) : MOf Delivery RunResult :=
  match batches with
  | O => mret (RunCompleted attempted delivered)
  | S batches =>
      claimResult ← ClaimDueDeliveries claimBatchSize claimHold;
      match claimResult with
      | ClaimDueDeliveriesRejected reason => mret (RunRejected reason)
      | ClaimDueDeliveriesListed values =>
          delivered ← attempt_all values delivered;
          let attempted := (attempted + length values)%nat in
          if (length values <? claimBatchSize)%nat then mret (RunCompleted attempted delivered)
          else run_batches batches attempted delivered
      end
  end.

Definition RunOnce : MOf Delivery RunResult := run_batches maxClaimBatchesPerRun 0 0.
End Dispatch.

(** * The retry schedule

    Rounding to 53 bits is monotone, so the jittered delay of every draw lies
    between those of the least and the greatest. *)
Local Open Scope Z_scope.

(** ** Rounding *)

(** The significand of [x], and how far it is rounded. *)
Lemma round53_cases x :
  0 < x ->
  round53 x = x /\ Z.log2 x <= 52 \/
  52 < Z.log2 x /\ exists q, 2 ^ 52 <= q < 2 ^ 53 /\ q = x / 2 ^ (Z.log2 x - 52) /\
    (round53 x = q * 2 ^ (Z.log2 x - 52) \/ round53 x = (q + 1) * 2 ^ (Z.log2 x - 52)).
Proof.
  intros Hx. unfold round53. set (s := Z.log2 x - 52). destruct (Z.leb_spec s 0) as [Hs|Hs]; [left; lia|right].
  split; [lia|]. exists (x / 2 ^ s). pose proof (Z.log2_spec x Hx) as [Hlo Hhi].
  replace (Z.log2 x) with (s + 52) in Hlo, Hhi by lia. replace (Z.succ (s + 52)) with (s + 53) in Hhi by lia.
  rewrite Z.pow_add_r in Hlo, Hhi by lia. assert (0 < 2 ^ s) by (apply Z.pow_pos_nonneg; lia).
  split; [|split; [done|]].
  - split; [apply Z.div_le_lower_bound; lia|apply Z.div_lt_upper_bound; lia].
  - repeat case_match; auto.
Qed.

Lemma round53_log2 x : 0 < x -> 2 ^ Z.log2 x <= round53 x <= 2 ^ (Z.log2 x + 1).
Proof.
  intros Hx. pose proof (Z.log2_spec x Hx) as [Hlo Hhi]. fold (Z.log2 x + 1) in *.
  destruct (round53_cases x Hx) as [[-> _]|[Hs (q & Hq & _ & Hr)]]; [unfold Z.succ in *; lia|].
  replace (Z.log2 x) with (52 + (Z.log2 x - 52)) at 1 by lia. replace (Z.log2 x + 1) with (53 + (Z.log2 x - 52)) by lia.
  rewrite !Z.pow_add_r by lia. assert (0 < 2 ^ (Z.log2 x - 52)) by (apply Z.pow_pos_nonneg; lia).
  destruct Hr as [-> | ->]; nia.
Qed.

(** The rounding of the remainder, as a number of units. *)
Definition half_even (q r unit : Z) : Z :=
  if 2 * r <? unit then q else if unit <? 2 * r then q + 1 else if Z.even q then q else q + 1.

Lemma half_even_bounds q r unit : q <= half_even q r unit <= q + 1.
Proof. unfold half_even. repeat case_match; lia. Qed.

Lemma half_even_mono q r1 r2 unit : r1 <= r2 -> half_even q r1 unit <= half_even q r2 unit.
Proof.
  intros Hr. unfold half_even.
  destruct (Z.ltb_spec (2 * r1) unit), (Z.ltb_spec (2 * r2) unit), (Z.ltb_spec unit (2 * r1)), (Z.ltb_spec unit (2 * r2)), (Z.even q); lia.
Qed.

Lemma round53_mono x y : 0 <= x <= y -> round53 x <= round53 y.
Proof.
  intros [Hx Hxy]. destruct (Z.eq_dec x 0) as [->|].
  { change (round53 0) with 0. destruct (Z.eq_dec y 0) as [->|]; [done|].
    pose proof (round53_log2 y ltac:(lia)). pose proof (Z.pow_nonneg 2 (Z.log2 y) ltac:(lia)). lia. }
  pose proof (Z.log2_le_mono x y Hxy) as Hlog. destruct (decide (Z.log2 x = Z.log2 y)) as [Heq|Hne].
  - unfold round53. rewrite Heq. set (s := Z.log2 y - 52). destruct (Z.leb_spec s 0); [done|].
    assert (0 < 2 ^ s) as Hu by (apply Z.pow_pos_nonneg; lia). set (u := 2 ^ s) in *. fold (half_even (x / u) (x mod u) u).
    fold (half_even (y / u) (y mod u) u). apply Z.mul_le_mono_nonneg_r; [lia|].
    pose proof (Z.div_le_mono x y u Hu Hxy) as Hq. destruct (decide (x / u = y / u)) as [E|].
    + rewrite E. apply half_even_mono. pose proof (Z.div_mod x u). pose proof (Z.div_mod y u). nia.
    + pose proof (half_even_bounds (x / u) (x mod u) u). pose proof (half_even_bounds (y / u) (y mod u) u). lia.
  - pose proof (round53_log2 x ltac:(lia)) as [_ Hhi]. pose proof (round53_log2 y ltac:(lia)) as [Hlo _].
    pose proof (Z.pow_le_mono_r 2 (Z.log2 x + 1) (Z.log2 y) ltac:(lia) ltac:(lia)). lia.
Qed.

Lemma round53_nonneg x : 0 <= x -> 0 <= round53 x.
Proof. intros Hx. change 0 with (round53 0). by apply round53_mono. Qed.

(** ** The jitter *)

Definition max_draw : Z := 2 ^ 53 - 1.

Lemma Float64_range draw : 0 <= Float64_numerator draw <= max_draw.
Proof.
  unfold Float64_numerator, max_draw. rewrite Z.shiftr_div_pow2 by lia.
  pose proof (Z.mod_pos_bound (Z.shiftl draw 11) (2 ^ 64) ltac:(lia)). Z.to_euclidean_division_equations. lia.
Qed.

Lemma jitter_factor_range u : 0 <= u <= max_draw -> jitter_factor 0 <= jitter_factor u <= jitter_factor max_draw.
Proof.
  intros Hu. unfold jitter_factor, two_fifths in *.
  assert (forall a b, 0 <= a <= b ->
    round53 (7205759403792794 * 2 ^ 54 + round53 (7205759403792794 * a)) <=
    round53 (7205759403792794 * 2 ^ 54 + round53 (7205759403792794 * b))) as Hmono.
  { intros a b Hab. apply round53_mono. pose proof (round53_nonneg (7205759403792794 * a) ltac:(lia)).
    pose proof (round53_mono (7205759403792794 * a) (7205759403792794 * b) ltac:(lia)). lia. }
  split; apply Hmono; lia.
Qed.

(** The delay at the two ends of the factor. *)
Definition delay_at (base factor : Z) : Z := round53 (base * factor) / 2 ^ 107.

Lemma jitterDelay_range base draw :
  0 <= base -> delay_at base (jitter_factor 0) <= jitterDelay base draw <= delay_at base (jitter_factor max_draw).
Proof.
  intros Hb. unfold jitterDelay, delay_at. pose proof (jitter_factor_range _ (Float64_range draw)) as [Hlo Hhi].
  set (f := jitter_factor (Float64_numerator draw)) in *.
  assert (0 <= jitter_factor 0) as H0 by (by vm_compute).
  split; apply Z.div_le_mono; try lia; apply round53_mono; nia.
Qed.

(** Each delay stays within a fifth of its base. *)
Lemma retryDelays_jittered base draw :
  base ∈ retryDelays -> 4 * base <= 5 * jitterDelay base draw <= 6 * base.
Proof.
  intros Hb. assert (Forall (fun base => 0 <= base /\ 4 * base <= 5 * delay_at base (jitter_factor 0) /\
    5 * delay_at base (jitter_factor max_draw) <= 6 * base) retryDelays) as Hall.
  { unfold retryDelays. repeat (constructor; [vm_compute; repeat split; discriminate|]). constructor. }
  destruct (Forall_elem _ _ _ Hall Hb) as (Hpos & Hlo & Hhi). pose proof (jitterDelay_range base draw Hpos). lia.
Qed.

(** A failed attempt is retried exactly when it was not the sixth, after a delay within a fifth
    of the schedule's entry for that attempt, whatever the jitter source draws and however float64
    rounds. *)
Theorem decideRetry_follows_the_schedule attempt now draw :
  match decideRetry attempt now draw with
  | retriesExhausted => MaxAttempts <= attempt
  | retryAt at_ => attempt < MaxAttempts /\ exists base,
      base ∈ retryDelays /\ (1 <= attempt -> retryDelays !! Z.to_nat (attempt - 1) = Some base) /\
      4 * base <= 5 * (at_ - now) <= 6 * base
  end.
Proof.
  unfold decideRetry, MaxAttempts. destruct (Z.leb_spec 6 attempt) as [|Hlt]; [done|]. split; [done|].
  change (Z.of_nat (length retryDelays)) with 5. set (i := if attempt - 1 <? 0 then 0 else attempt - 1).
  assert (0 <= i < 5 /\ (1 <= attempt -> i = attempt - 1)) as [Hi Hi1] by (unfold i; destruct (Z.ltb_spec (attempt - 1) 0); lia).
  destruct (Z.leb_spec 5 i); [lia|].
  assert (retryDelays !! Z.to_nat i = Some (nth (Z.to_nat i) retryDelays 0)) as Hl.
  { rewrite nth_lookup. assert (Z.to_nat i < 5)%nat as Hlen by lia.
    by destruct (lookup_lt_is_Some_2 retryDelays (Z.to_nat i) Hlen) as [b ->]. }
  exists (nth (Z.to_nat i) retryDelays 0). split; [by eapply list_elem_of_lookup_2|]. split; [by intros ->%Hi1|].
  replace (now + _ - now) with (jitterDelay (nth (Z.to_nat i) retryDelays 0) draw) by lia.
  apply retryDelays_jittered. by eapply list_elem_of_lookup_2.
Qed.
