(* ===== verification/WebhookPump.v ===== *)
(** * The webhook pump is correct

    What a claim and an attempt do to the delivery rows in every environment, and
    what holds when any number of dispatchers run beside the rest of the system:
    the retry walk, the finality of terminal rows and the exclusion of claims. *)

From S2P Require Import Prelude.
From S2P Require Import Core.
From S2P Require Import Events.
From S2P Require Import LedgerValues.
From S2P Require Import TaskValues.
From S2P Require Import Database.
From S2P Require Import Tx.
From S2P Require Import LedgerSpec.
From S2P Require Import LedgerCorrect.
From S2P Require Import DeliveryDB.
From S2P Require Import Inbox.
From S2P Require Import EventStore.
From S2P Require Import Recorder.
From S2P Require Import DeliverySpecs.
From S2P Require Import DeliveryCorrect.
From S2P Require Import DeliverySystem.
From S2P Require Import Webhooks.
From S2P Require Import WebhookDispatch.
Local Open Scope string_scope.
Local Open Scope Z_scope.

(** ** Rows changed by id *)

Definition change_rows (hit : DeliveryRow -> bool) (f : DeliveryRow -> DeliveryRow) (d : Delivery) : Delivery :=
  with_deliveries ((fun w => if hit w then f w else w) <$> webhook_deliveries d) d.

Lemma change_rows_elem hit f d w' :
  w' ∈ webhook_deliveries (change_rows hit f d) ->
  exists w, w ∈ webhook_deliveries d /\ w' = if hit w then f w else w.
Proof. cbn. intros (w & -> & Hw)%list_elem_of_fmap. eauto. Qed.

Lemma change_rows_nothing f d : change_rows (fun _ => false) f d = d.
Proof. destruct d. unfold change_rows, with_deliveries. cbn. by rewrite list_fmap_id. Qed.

Section Effects.
Context `{UUIDLaws, JSONB, URLLib, Surroundings} {env : Env}.
Implicit Types (st : TxStateOf Delivery).

(** ** Claims *)

Definition holds_row (values : list ClaimedWebhookDelivery) (w : DeliveryRow) : bool :=
  bool_decide (wd_id w ∈ (fun c => TypedID_String (Claimed_ID c)) <$> values).

(** The rows after the hold. *)
Definition held (values : list ClaimedWebhookDelivery) (until : Z) (d : Delivery) : Delivery :=
  change_rows (holds_row values) (set_next until) d.

Lemma held_nil until d : held [] until d = d.
Proof. apply (change_rows_nothing (set_next until)). Qed.

Lemma held_cons c values until d :
  held values until (change_rows (fun w => String.eqb (wd_id w) (TypedID_String (Claimed_ID c)) && true) (set_next until) d) =
    held (c :: values) until d.
Proof.
  unfold held, change_rows, with_deliveries. cbn. f_equal. rewrite <- list_fmap_compose. apply list_fmap_ext. intros i w _. cbn.
  unfold holds_row. rewrite andb_true_r.
  destruct (String.eqb_spec (wd_id w) (TypedID_String (Claimed_ID c))) as [E|E]; cbn [fmap list_fmap].
  - rewrite (bool_decide_true (_ ∈ _ :: _)) by (rewrite E; by left). cbn. by destruct (bool_decide _).
  - erewrite bool_decide_ext; [reflexivity|]. rewrite elem_of_cons. naive_solver.
Qed.

Lemma hold_claimed_wp values until st (Q : option StmtError -> TxStateOf Delivery -> Prop) :
  (forall err st', st_base st' = st_base st -> Q (Some err) st') ->
  (forall st', st_base st' = st_base st -> st_db st' = held values until (st_db st) -> Q None st') ->
  wp env (hold_claimed values until) Q st.
Proof.
  revert st. induction values as [|c values IH]; intros st Hf HQ; cbn [hold_claimed].
  - apply wp_ret, HQ; [done|by rewrite held_nil].
  - apply wp_bind, wp_stmt; [by apply wp_ret, Hf|]. cbn [update_delivery]. apply IH; [done|].
    intros st' Hb Hd. apply HQ; [done|]. rewrite Hd, <- held_cons. done.
Qed.

Lemma scan_claimed_wp rows values st (Q : DomainError + list ClaimedWebhookDelivery -> TxStateOf Delivery -> Prop) :
  (forall reason st', st_base st' = st_base st -> Q (inl reason) st') ->
  (forall more st', st_base st' = st_base st -> st_db st' = st_db st -> mapM parse_claimed rows = Some more ->
     Q (inr (values ++ more)%list) st') ->
  wp env (scan_claimed rows values) Q st.
Proof.
  revert values st. induction rows as [|row rows IH]; intros values st Hf HQ; cbn [scan_claimed].
  - wp_prim. wp_prim; apply wp_ret; [by apply Hf|]. rewrite <- (app_nil_r values). by apply HQ.
  - apply wp_bind. unfold scanClaimedWebhookDelivery. apply wp_bind, wp_fault_point. intros [].
    { apply wp_ret, wp_ret. by apply Hf. }
    apply wp_ret. destruct (parse_claimed row) as [c|] eqn:Hc; [|apply wp_ret; by apply Hf].
    apply IH; [done|]. intros more st' Hb Hd Hm. rewrite <- app_assoc. apply HQ; [done..|]. cbn [app].
    apply mapM_Some. constructor; [done|]. by apply mapM_Some.
Qed.

(** Nothing, or the due rows of the clock parsed and held. *)
Inductive claimed_due (now : Z) (locked : string -> bool) (limit : nat) (hold : Z) (d : Delivery) :
    ClaimDueDeliveriesResult -> Delivery -> Prop :=
| claimed_nothing reason : claimed_due now locked limit hold d (ClaimDueDeliveriesRejected reason) d
| claimed_rows values :
    mapM parse_claimed (due_rows now locked limit d) = Some values ->
    claimed_due now locked limit hold d (ClaimDueDeliveriesListed values) (held values (now + hold) d).

Lemma ClaimDueDeliveries_wp limit hold st (Q : ClaimDueDeliveriesResult -> TxStateOf Delivery -> Prop) :
  (forall r st', claimed_due (database_clock (st_step st)) (locked_elsewhere (S (st_step st))) limit hold
     (st_base st) r (st_base st') -> Q r st') ->
  wp env (ClaimDueDeliveries limit hold) Q st.
Proof.
  intros HQ.
  assert (forall reason st', st_base st' = st_base st -> Q (ClaimDueDeliveriesRejected reason) st') as Hf.
  { intros reason st' Hb. apply HQ. rewrite Hb. constructor. }
  unfold ClaimDueDeliveries. apply wp_bind. unfold wp at 1, database_time. wp_prim. wp_prim; [by apply wp_ret, Hf|].
  apply wp_bind. unfold wp at 1, other_locks. cbn [st_step]. wp_prim. wp_prim; [by apply wp_ret, Hf|]. cbn [tick st_db].
  apply wp_bind, scan_claimed_wp; [intros reason st1 Hb1; apply wp_ret, Hf; by rewrite Hb1|].
  intros values st1 Hb1 Hd1 Hm. cbn [app]. apply wp_bind, hold_claimed_wp.
  { intros err st2 Hb2. apply wp_ret, Hf. by rewrite Hb2, Hb1. }
  intros st2 Hb2 Hd2. wp_prim. wp_prim; [apply wp_ret, Hf; cbn [tick st_base]; by rewrite Hb2, Hb1|].
  apply wp_ret, HQ. cbn [st_base]. rewrite Hd2, Hd1. cbn [st_db]. by constructor.
Qed.

(** ** Attempts *)

(** Where an attempt may leave a pending row. *)
Inductive walked (attempt : Z) (w : DeliveryRow) : DeliveryRow -> Prop :=
| walked_delivered status : walked attempt w (set_walk "delivered" attempt (wd_next_attempt_at w) status w)
| walked_dead status : MaxAttempts <= attempt -> walked attempt w (set_walk "dead" attempt (wd_next_attempt_at w) status w)
| walked_retry next status : attempt < MaxAttempts -> walked attempt w (set_walk (wd_state w) attempt next status w).

Definition pending_row (id : string) (w : DeliveryRow) : bool := String.eqb (wd_id w) id && is_pending w.

(** What was sent, and then nothing (the mark was lost), or the pending row of the claim
    moved along the walk. *)
Definition attempted (c : ClaimedWebhookDelivery) (d d' : Delivery) : Prop :=
  exists sent, d' = with_requests sent d \/
    exists f, (forall w, walked (wrap64 (Claimed_AttemptCount c + 1)) w (f w)) /\
      d' = change_rows (pending_row (TypedID_String (Claimed_ID c))) f (with_requests sent d).

Lemma with_requests_same d : with_requests (requests_sent d) d = d.
Proof. by destruct d. Qed.

Lemma postDelivery_wp c st (Q : string * bool -> TxStateOf Delivery -> Prop) :
  (forall r st' sent, st_base st' = with_requests sent (st_base st) -> Q r st') -> wp env (postDelivery c) Q st.
Proof.
  intros HQ. assert (forall r st', st_base st' = st_base st -> Q r st') as Hnone.
  { intros r st' Hb. apply (HQ r st' (requests_sent (st_base st))). by rewrite with_requests_same. }
  unfold postDelivery. cbv zeta. destruct (negb _); [by apply wp_ret, Hnone|].
  wp_prim. wp_prim. apply wp_bind. unfold wp at 1, client_Do.
  destruct (respond _ _); apply wp_ret; [by apply Hnone|by eapply HQ..].
Qed.

(** An update whose error is ignored. *)
Lemma mark_wp message id f st (Q : MarkDeliveryResult -> TxStateOf Delivery -> Prop) :
  (forall r st', st_base st' = st_base st -> Q r st') ->
  (forall r st', st_base st' = change_rows (pending_row id) f (st_base st) -> Q r st') ->
  wp env (tag ← autocommit (update_delivery id is_pending f); mret (marked message tag)) Q st.
Proof. intros Hf HQ. apply wp_bind, wp_autocommit; [by apply wp_ret, Hf|]. cbn. by apply wp_ret, HQ. Qed.

Lemma attemptDelivery_wp c st (Q : bool -> TxStateOf Delivery -> Prop) :
  (forall b st', attempted c (st_base st) (st_base st') -> Q b st') -> wp env (attemptDelivery c) Q st.
Proof.
  intros HQ. set (attempt := wrap64 (Claimed_AttemptCount c + 1)).
  assert (forall b f st1 st2 sent, (forall w, walked attempt w (f w)) -> st_base st1 = with_requests sent (st_base st) ->
    st_base st2 = st_base st1 \/ st_base st2 = change_rows (pending_row (TypedID_String (Claimed_ID c))) f (st_base st1) ->
    Q b st2) as Hmark.
  { intros b f st1 st2 sent Hw Hb1 [Hb|Hb]; apply HQ; exists sent; rewrite Hb, Hb1; [by left|right; eauto]. }
  unfold attemptDelivery. fold attempt. apply wp_bind, postDelivery_wp. intros [status []] st1 sent Hb1.
  - apply wp_bind, mark_wp; intros r st2 Hb2; apply wp_ret;
      (eapply (Hmark _ (fun w => set_walk "delivered" attempt (wd_next_attempt_at w) status w)); [by constructor|done|auto]).
  - wp_prim. wp_prim. apply wp_bind.
    assert (forall draw st2, st_base st2 = st_base st1 ->
      wp env (_ ← match decideRetry attempt t draw with
        | retryAt next => MarkFailed (Claimed_ID c) attempt status (RetryLater next)
        | retriesExhausted => MarkFailed (Claimed_ID c) attempt status Dead
        end; mret false) Q st2) as Hdecide.
    { intros draw st2 Hb2. unfold decideRetry. destruct (Z.leb_spec MaxAttempts attempt) as [Hd|Hd]; cbv zeta.
      - apply wp_bind, mark_wp; intros r st3 Hb3; apply wp_ret;
          (eapply (Hmark _ (fun w => set_walk "dead" attempt (wd_next_attempt_at w) status w) st2); [by constructor|rewrite Hb2; exact Hb1|auto]).
      - match goal with |- context [RetryLater ?n] => set (next := n) end.
        apply wp_bind, mark_wp; intros r st3 Hb3; apply wp_ret;
          (eapply (Hmark _ (fun w => set_walk (wd_state w) attempt next status w) st2); [by constructor|rewrite Hb2; exact Hb1|auto]). }
    destruct (_ <=? _); [by apply wp_ret, Hdecide|]. unfold wp at 1, Uint64. by apply Hdecide.
Qed.
End Effects.

(** ** The rest of the system only adds fresh rows *)

(** An id as the server prints it. *)
Definition printed_id `{UUIDLib} (w : DeliveryRow) : Prop := exists id : TypedID KWebhookDelivery, wd_id w = TypedID_String id.

Section Rest.
Context `{UUIDLaws, JSONB}.

Definition fresh_row (w : DeliveryRow) : Prop := wd_state w = "pending" /\ wd_attempt_count w = 0 /\ printed_id w.

(** An active subscription of that id. *)
Definition subscribed (id : string) (d : Delivery) : Prop :=
  exists sub, sub ∈ webhook_subscriptions d /\ ws_id sub = id /\ ws_state sub = "active".

Inductive row_added : Delivery -> Delivery -> Prop :=
| row_same d d' :
    webhook_deliveries d' = webhook_deliveries d -> webhook_subscriptions d' = webhook_subscriptions d -> row_added d d'
| row_new w d d' :
    fresh_row w -> ~ Exists (fun v => wd_id v = wd_id w) (webhook_deliveries d) -> subscribed (wd_subscription_id w) d ->
    webhook_deliveries d' = w :: webhook_deliveries d -> webhook_subscriptions d' = webhook_subscriptions d -> row_added d d'.

Lemma matching_subscribed seq d id : id ∈ matching_subscriptions seq d -> subscribed id d.
Proof.
  unfold matching_subscriptions. destruct (find _ _) as [e|]; [|by intros ?%elem_of_nil].
  intros (sub & -> & Hsub)%list_elem_of_fmap. apply list_elem_of_filter in Hsub as [Hm Hsub]. exists sub. split; [done|].
  split; [done|]. unfold subscription_matches in Hm. apply Is_true_eq_true, andb_true_iff in Hm as [Hm _].
  by apply andb_true_iff in Hm as [Hm%String.eqb_eq _].
Qed.

Lemma expanded_adds seq subs d d' :
  (forall id, id ∈ subs -> subscribed id d) -> rtc (expanded seq subs) d d' -> rtc row_added d d'.
Proof.
  intros Hsubs Hd. induction Hd as [|x y z Hxy _ IH]; [done|]. destruct Hxy as [w d [] _ Hid].
  eapply rtc_l; [|by apply IH]. by eapply row_new; [|done|apply Hsubs|..].
Qed.

Lemma notified_adds draft d d' : rtc (notified draft) d d' -> rtc row_added d d'.
Proof. induction 1 as [|x y z Hxy _ IH]; [done|]. eapply rtc_l; [|exact IH]. destruct Hxy. by apply row_same. Qed.

Lemma draft_dispatched_adds draft d d' : draft_dispatched draft d d' -> rtc row_added d d'.
Proof.
  intros (d1 & Hn & Hd). apply notified_adds in Hn. destruct Hd as [->|(_ & r & Hs)]; [done|].
  etrans; [exact Hn|]. destruct Hs as [| |e d2 _ _ Hexp _]; [done..|].
  eapply rtc_r; [eapply expanded_adds; [|exact Hexp]; intros id; apply matching_subscribed|]. by apply row_same.
Qed.

Lemma drafts_dispatched_adds drafts d d' : drafts_dispatched drafts d d' -> rtc row_added d d'.
Proof. induction 1 as [|draft drafts d1 d2 d3 Hd _ IH]; [done|]. etrans; [by eapply draft_dispatched_adds|done]. Qed.

Lemma swept_adds d d' : swept d d' -> rtc row_added d d'.
Proof.
  intros (cutoff & r & d1 & Hl & Hr). assert (row_added d d1) as Hd1 by (destruct Hl; by apply row_same).
  eapply rtc_l; [exact Hd1|]. destruct r; [by eapply drafts_dispatched_adds|by subst].
Qed.

Lemma sys_step_adds s s' :
  sys_step s s' -> delivery_ok (sys_db s) ->
  exists d, rtc row_added (sys_db s) d /\ webhook_deliveries (sys_db s') = webhook_deliveries d /\
    (webhook_subscriptions (sys_db s') = webhook_subscriptions (sys_db s) \/ d = sys_db s).
Proof.
  intros Hs Hok. destruct Hs as [env c d p Hv|env draft d p Hin|env d p|env user id d p|subs d p]; cbn [sys_db] in *.
  - exists d. by split_and!; [|done|left].
  - exists (snd (run env d (Recorder.Dispatch [draft]))). pose proof (drafts_dispatched_adds _ _ _ (dispatched_run env d [draft])) as Ha.
    split; [done|]. split; [done|]. left. clear -Ha. induction Ha as [|x y z Hxy _ IH]; [done|]. rewrite IH. by destruct Hxy.
  - exists (snd (run env d sweepRecordedEvents)). pose proof (swept_adds _ _ (swept_run env d Hok)) as Ha.
    split; [done|]. split; [done|]. left. clear -Ha. induction Ha as [|x y z Hxy _ IH]; [done|]. rewrite IH. by destruct Hxy.
  - exists d. destruct (MarkRead_run env d user id) as [-> | ->]; by split_and!; [|done|left].
  - exists d. by split_and!; [|done|right].
Qed.
End Rest.

(** ** The pump beside the system *)

Section Pump.
Context `{UUIDLaws, JSONB, URLLib}.

(** [pump_claims] are the deliveries dispatchers have claimed: an attempt of each
    may come now, later, again or never, whoever made the claim. *)
Record Pump := MkPump { pump_sys : System; pump_claims : list ClaimedWebhookDelivery }.

Definition pump_db (s : Pump) : Delivery := sys_db (pump_sys s).

Definition listed_claims (r : ClaimDueDeliveriesResult) : list ClaimedWebhookDelivery :=
  match r with ClaimDueDeliveriesListed values => values | ClaimDueDeliveriesRejected _ => [] end.

Inductive pump_step : Pump -> Pump -> Prop :=
| pump_system s s' claims : sys_step s s' -> pump_step (MkPump s claims) (MkPump s' claims)
| pump_claim (world : Surroundings) env limit hold st r st' p claims :
    ClaimDueDeliveries limit hold env st = (r, st') ->
    pump_step (MkPump (MkSystem (st_base st) p) claims) (MkPump (MkSystem (st_base st') p) (claims ++ listed_claims r)%list)
| pump_attempt (world : Surroundings) env c st b st' p claims :
    c ∈ claims -> attemptDelivery c env st = (b, st') ->
    pump_step (MkPump (MkSystem (st_base st) p) claims) (MkPump (MkSystem (st_base st') p) claims).

(** What a row of the retry walk looks like. *)
Definition walk_ok (w : DeliveryRow) : Prop :=
  wd_state w = "pending" /\ 0 <= wd_attempt_count w < MaxAttempts \/
  wd_state w = "delivered" /\ 1 <= wd_attempt_count w <= MaxAttempts \/
  wd_state w = "dead" /\ wd_attempt_count w = MaxAttempts.

Record pump_ok (s : Pump) : Prop := {
  pump_system_ok : system_ok (pump_sys s);
  pump_ids : NoDup (wd_id <$> webhook_deliveries (pump_db s));
  pump_printed : Forall printed_id (webhook_deliveries (pump_db s));
  pump_walk : Forall walk_ok (webhook_deliveries (pump_db s));
  pump_counts : Forall (fun c => 0 <= Claimed_AttemptCount c < MaxAttempts) (pump_claims s)
}.
(** *** Changes of rows that keep what identifies them *)

Definition same_key (w w' : DeliveryRow) : Prop :=
  wd_id w' = wd_id w /\ wd_subscription_id w' = wd_subscription_id w /\ wd_event_seq w' = wd_event_seq w.

Lemma change_rows_keys {A} (key : DeliveryRow -> A) hit f d :
  (forall w, key (f w) = key w) -> key <$> webhook_deliveries (change_rows hit f d) = key <$> webhook_deliveries d.
Proof. intros Hf. cbn. rewrite <- list_fmap_compose. apply list_fmap_ext. intros i w _. cbn. by destruct (hit w). Qed.

Lemma change_rows_ok hit f d p :
  (forall w, same_key w (f w)) -> system_ok (MkSystem d p) -> system_ok (MkSystem (change_rows hit f d) p).
Proof.
  intros Hf [Hl Hd Hp]. cbn [sys_db in_flight] in *. split; cbn [sys_db in_flight]; [done| |].
  - apply with_deliveries_ok; [done| |].
    + pose proof (change_rows_keys (fun w => (wd_subscription_id w, wd_event_seq w)) hit f d) as E. cbn in E. rewrite E; [apply Hd|].
      intros w. destruct (Hf w) as (_ & -> & ->). done.
    + apply List.Forall_forall. intros w' Hw'%list_elem_of_In. destruct (change_rows_elem hit f d w' Hw') as (w & Hw & ->).
      destruct (Forall_elem _ _ _ (ok_delivered _ Hd) Hw) as (e & He & Hq & Hs). exists e. split; [done|].
      split; [|done]. destruct (hit w); [|done]. by destruct (Hf w) as (_ & _ & ->).
  - apply (in_flight_same d); try done. intros e He. exists (ev_dispatch_state e). by rewrite with_state_id.
Qed.

Lemma with_requests_ok sent d p : system_ok (MkSystem d p) -> system_ok (MkSystem (with_requests sent d) p).
Proof.
  intros [Hl [] Hp]. cbn [sys_db in_flight] in *. split; cbn [sys_db in_flight]; [done| |].
  - split; try done; [by apply (rows_frame d)|by apply (inbox_frame d)].
  - apply (in_flight_same d); try done. intros e He. exists (ev_dispatch_state e). by rewrite with_state_id.
Qed.

Lemma same_key_next until w : same_key w (set_next until w).
Proof. done. Qed.

Lemma walked_key attempt w w' : walked attempt w w' -> same_key w w'.
Proof. by intros []. Qed.

(** *** Claims and attempts as changes of rows *)

Lemma claim_effect (world : Surroundings) env limit hold st r st' :
  ClaimDueDeliveries limit hold env st = (r, st') ->
  claimed_due (database_clock (st_step st)) (locked_elsewhere (S (st_step st))) limit hold (st_base st) r (st_base st').
Proof.
  intros E. pose proof (ClaimDueDeliveries_wp (env := env) limit hold st (fun r st' =>
    claimed_due (database_clock (st_step st)) (locked_elsewhere (S (st_step st))) limit hold (st_base st) r (st_base st'))) as Hwp.
  unfold wp in Hwp. rewrite E in Hwp. by apply Hwp.
Qed.

Lemma attempt_effect (world : Surroundings) env c st b st' :
  attemptDelivery c env st = (b, st') -> attempted c (st_base st) (st_base st').
Proof.
  intros E. pose proof (attemptDelivery_wp (env := env) c st (fun _ st' => attempted c (st_base st) (st_base st'))) as Hwp.
  unfold wp in Hwp. rewrite E in Hwp. by apply Hwp.
Qed.

(** A claimed row was due. *)
Lemma due_rows_due now locked limit d row :
  row ∈ due_rows now locked limit d ->
  due_delivery row ∈ webhook_deliveries d /\ is_due now (due_delivery row) = true /\ locked (wd_id (due_delivery row)) = false.
Proof.
  intros (i & Hi & _)%elem_of_take. apply list_elem_of_lookup_2, list_elem_of_omap in Hi as (w & Hw & Hr).
  apply list_elem_of_filter in Hw as [Hl Hw]. rewrite merge_sort_Permutation in Hw. apply list_elem_of_filter in Hw as [Hdue Hw].
  assert (due_delivery row = w) as ->.
  { unfold due_row in Hr. by simplify_option_eq. }
  split; [done|]. split; [by apply Is_true_eq_true|]. by apply negb_true_iff, Is_true_eq_true.
Qed.

Lemma parse_claimed_row row c :
  printed_id (due_delivery row) -> parse_claimed row = Some c ->
  TypedID_String (Claimed_ID c) = wd_id (due_delivery row) /\ Claimed_AttemptCount c = wd_attempt_count (due_delivery row).
Proof.
  intros [id Hid] Hc. unfold parse_claimed in Hc. rewrite Hid, parsed_id_String in *.
  apply bind_Some in Hc as (i & [= <-] & Hc). by repeat (apply bind_Some in Hc as (? & _ & Hc)); injection Hc as <-.
Qed.

(** *** The invariant *)

Lemma row_added_ok s d' :
  rtc row_added (pump_db s) d' -> NoDup (wd_id <$> webhook_deliveries (pump_db s)) ->
  Forall printed_id (webhook_deliveries (pump_db s)) -> Forall walk_ok (webhook_deliveries (pump_db s)) ->
  NoDup (wd_id <$> webhook_deliveries d') /\ Forall printed_id (webhook_deliveries d') /\ Forall walk_ok (webhook_deliveries d') /\
  (webhook_deliveries (pump_db s) ⊆ webhook_deliveries d').
Proof.
  generalize (pump_db s). intros d Hd. induction Hd as [d|d1 d2 d3 Hd _ IH]; intros Hnd Hp Hw; [done|].
  destruct Hd as [d d' E _|w d d' (Hs & Ha & Hid) Hnew _ E _]; rewrite <- ?E in *; [by apply IH|].
  rewrite E in IH. cbn in IH. destruct IH as (? & ? & ? & Hsub).
  - constructor; [|done]. intros (v & Hv & Hin)%list_elem_of_fmap. apply Hnew, Exists_exists. exists v.
    split; [by apply list_elem_of_In|done].
  - by constructor.
  - constructor; [|done]. left. split; [done|]. rewrite Ha. unfold MaxAttempts. lia.
  - split_and!; [done..|]. set_solver.
Qed.

Lemma pump_step_ok s s' : pump_step s s' -> pump_ok s -> pump_ok s'.
Proof.
  intros Hs [Hsys Hnd Hp Hw Hc].
  destruct Hs as [s s' claims Hs|world env limit hold st r st' p claims E|world env c st b st' p claims Hin E];
    cbn [pump_sys pump_claims] in *; unfold pump_db in *; cbn [pump_sys sys_db] in *.
  - destruct (sys_step_adds _ _ Hs (system_delivery _ Hsys)) as (d1 & Hd1 & E & _).
    destruct (row_added_ok (MkPump s claims) d1) as (Hnd' & Hp' & Hw' & _); [done..|].
    split; cbn [pump_sys pump_claims]; unfold pump_db; cbn [pump_sys]; rewrite ?E; [by eapply step_ok|done..].
  - apply claim_effect in E. destruct E as [reason|values Hm]; cbn [listed_claims].
    + split; cbn; [done..|]. by rewrite app_nil_r.
    + split; cbn [pump_sys pump_claims]; unfold pump_db; cbn [pump_sys sys_db].
      * by apply change_rows_ok.
      * unfold held. by rewrite (change_rows_keys wd_id).
      * apply List.Forall_forall. intros w' Hw'%list_elem_of_In. destruct (change_rows_elem _ _ _ _ Hw') as (w & Hin & ->).
        pose proof (Forall_elem _ _ _ Hp Hin) as [id Hid]. exists id. by destruct (holds_row _ _).
      * apply List.Forall_forall. intros w' Hw'%list_elem_of_In. destruct (change_rows_elem _ _ _ _ Hw') as (w & Hin & ->).
        pose proof (Forall_elem _ _ _ Hw Hin). by destruct (holds_row _ _).
      * apply Forall_app. split; [done|]. apply mapM_Some in Hm. apply List.Forall_forall. intros c Hc'%list_elem_of_In.
        apply list_elem_of_lookup in Hc' as [i Hi]. destruct (Forall2_lookup_r _ _ _ _ _ Hm Hi) as (row & Hrow & Hparse).
        apply list_elem_of_lookup_2, due_rows_due in Hrow as (Hin & Hdue & _).
        destruct (parse_claimed_row row c (Forall_elem _ _ _ Hp Hin) Hparse) as [_ ->].
        unfold is_due, is_pending in Hdue. apply andb_true_iff in Hdue as [Hpend%String.eqb_eq _].
        destruct (Forall_elem _ _ _ Hw Hin) as [[_ ?]|[[? _]|[? _]]]; [done|congruence..].
  - apply attempt_effect in E. destruct E as (sent & Hd). pose proof (with_requests_ok sent _ _ Hsys) as Hsent.
    destruct Hd as [-> | (f & Hf & ->)]; [by split|].
    pose proof (Forall_elem _ _ _ Hc Hin) as Hcount. unfold MaxAttempts in Hcount.
    assert (wrap64 (Claimed_AttemptCount c + 1) = Claimed_AttemptCount c + 1) as Hwrap.
    { apply wrap64_id. unfold in_int64, int64_min, int64_max. lia. }
    rewrite Hwrap in Hf. set (n := Claimed_AttemptCount c + 1) in *.
    split; cbn [pump_sys pump_claims]; unfold pump_db; cbn [pump_sys sys_db]; [| | | |done].
    + apply change_rows_ok; [intros w; by eapply walked_key|exact Hsent].
    + rewrite (change_rows_keys wd_id); [done|]. intros w. by destruct (walked_key _ _ _ (Hf w)) as [-> _].
    + apply List.Forall_forall. intros w' Hw'%list_elem_of_In. destruct (change_rows_elem _ _ _ _ Hw') as (w & Hw1 & ->).
      pose proof (Forall_elem _ _ _ Hp Hw1) as [id Hid]. exists id. destruct (pending_row _ w); [|done].
      destruct (walked_key _ _ _ (Hf w)) as [E _]. by rewrite E.
    + apply List.Forall_forall. intros w' Hw'%list_elem_of_In. destruct (change_rows_elem _ _ _ _ Hw') as (w & Hw1 & ->).
      pose proof (Forall_elem _ _ _ Hw Hw1) as Hwalk. destruct (pending_row _ w) eqn:Hpend; [|done].
      unfold pending_row, is_pending in Hpend. apply andb_true_iff in Hpend as [_ Hpend%String.eqb_eq].
      unfold walk_ok, MaxAttempts in *. destruct (Hf w); cbn; unfold MaxAttempts in *.
      * right; left. split; [done|lia].
      * right; right. split; [done|lia].
      * left. rewrite Hpend. split; [done|lia].
Qed.

Lemma pump_reachable_ok s s' : rtc pump_step s s' -> pump_ok s -> pump_ok s'.
Proof. induction 1; [done|]. intros ?. by eapply IHrtc, pump_step_ok. Qed.
(** *** Claimed rows were pending *)

Lemma claimed_id now locked limit d values w :
  Forall printed_id (webhook_deliveries d) -> NoDup (wd_id <$> webhook_deliveries d) ->
  mapM parse_claimed (due_rows now locked limit d) = Some values -> w ∈ webhook_deliveries d ->
  holds_row values w = true -> is_due now w = true /\ locked (wd_id w) = false.
Proof.
  intros Hp Hnd Hm Hw Hh. unfold holds_row in Hh. apply bool_decide_eq_true, list_elem_of_fmap in Hh as (c & Hid & Hc).
  apply list_elem_of_lookup in Hc as [i Hi]. apply mapM_Some in Hm.
  destruct (Forall2_lookup_r _ _ _ _ _ Hm Hi) as (row & Hrow & Hparse).
  apply list_elem_of_lookup_2, due_rows_due in Hrow as (Hin & Hdue & Hlock).
  destruct (parse_claimed_row row c (Forall_elem _ _ _ Hp Hin) Hparse) as [Hrid _].
  assert (due_delivery row = w) as <-; [|done].
  apply list_elem_of_lookup in Hin as [j Hj], Hw as [k Hk]. assert (j = k) as ->; [|congruence].
  eapply NoDup_lookup; [exact Hnd|..]; rewrite list_lookup_fmap; [by rewrite Hj|rewrite Hk; cbn; congruence].
Qed.

(** However many dispatchers claim, attempt, repeat and lose deliveries beside the running
    system, every delivery row stays on the retry walk: pending after fewer than six attempts,
    delivered by one of the six, or dead after the sixth. *)
Theorem deliveries_stay_on_the_walk s s' w :
  rtc pump_step s s' -> pump_ok s -> w ∈ webhook_deliveries (pump_db s') -> walk_ok w.
Proof. intros Hs Hok Hw. apply (pump_reachable_ok _ _ Hs) in Hok. exact (Forall_elem _ _ _ (pump_walk _ Hok) Hw). Qed.

Lemma change_rows_keeps hit f d w : w ∈ webhook_deliveries d -> hit w = false -> w ∈ webhook_deliveries (change_rows hit f d).
Proof. intros Hw Hh. cbn. apply list_elem_of_fmap. exists w. by rewrite Hh. Qed.

Lemma terminal_step s s' w :
  pump_step s s' -> pump_ok s -> w ∈ webhook_deliveries (pump_db s) -> wd_state w <> "pending" ->
  w ∈ webhook_deliveries (pump_db s').
Proof.
  intros Hs [Hsys Hnd Hp Hw Hc] Hin Hterm.
  destruct Hs as [s s' claims Hs|world env limit hold st r st' p claims E|world env c st b st' p claims Hcl E];
    unfold pump_db in *; cbn [pump_sys sys_db] in *.
  - destruct (sys_step_adds _ _ Hs (system_delivery _ Hsys)) as (d1 & Hd1 & E & _).
    destruct (row_added_ok (MkPump s claims) d1) as (_ & _ & _ & Hsub); [done..|]. rewrite E. by apply Hsub.
  - apply claim_effect in E. destruct E as [reason|values Hm]; [done|]. apply change_rows_keeps; [done|].
    destruct (holds_row values w) eqn:Hh; [|done].
    destruct (claimed_id _ _ _ _ _ w Hp Hnd Hm Hin Hh) as [Hdue _]. unfold is_due, is_pending in Hdue.
    by apply andb_true_iff in Hdue as [?%String.eqb_eq _].
  - apply attempt_effect in E. destruct E as (sent & [-> | (f & _ & ->)]); [done|]. apply change_rows_keeps; [done|].
    unfold pending_row, is_pending. destruct (String.eqb_spec (wd_state w) "pending"); [done|]. by rewrite andb_false_r.
Qed.

(** C32: Safety. Once a delivery is delivered or dead its row never changes again, whatever late or
    repeated attempts of stale claims, further claims and the rest of the system do. *)
Theorem settled_deliveries_are_final s s' w :
  rtc pump_step s s' -> pump_ok s -> w ∈ webhook_deliveries (pump_db s) -> wd_state w <> "pending" ->
  w ∈ webhook_deliveries (pump_db s').
Proof.
  intros Hs. induction Hs as [s|s1 s2 s3 H1' _ IH]; [done|]. intros Hok Hw Hst.
  apply IH; [by eapply pump_step_ok|by eapply terminal_step|done].
Qed.

(** *** Claims exclude each other *)

Definition claim_ids (values : list ClaimedWebhookDelivery) : list string := (fun c => TypedID_String (Claimed_ID c)) <$> values.

(** Steps that attempt none of the deliveries [ids] and claim before [until]. *)
Inductive quiet_step (ids : list string) (until : Z) : Pump -> Pump -> Prop :=
| quiet_system s s' claims : sys_step s s' -> quiet_step ids until (MkPump s claims) (MkPump s' claims)
| quiet_claim (world : Surroundings) env limit hold st r st' p claims :
    ClaimDueDeliveries limit hold env st = (r, st') -> database_clock (st_step st) < until ->
    quiet_step ids until (MkPump (MkSystem (st_base st) p) claims) (MkPump (MkSystem (st_base st') p) (claims ++ listed_claims r)%list)
| quiet_attempt (world : Surroundings) env c st b st' p claims :
    c ∈ claims -> TypedID_String (Claimed_ID c) ∉ ids -> attemptDelivery c env st = (b, st') ->
    quiet_step ids until (MkPump (MkSystem (st_base st) p) claims) (MkPump (MkSystem (st_base st') p) claims).

Lemma quiet_pump ids until s s' : quiet_step ids until s s' -> pump_step s s'.
Proof. intros []; by econstructor. Qed.

(** The rows [ids] are in the table, none of them due before [until]. *)
Definition parked (ids : list string) (until : Z) (rows : list DeliveryRow) : Prop :=
  ids ⊆ (wd_id <$> rows) /\ Forall (fun w => wd_id w ∈ ids -> until <= wd_next_attempt_at w) rows.

Lemma parked_added ids until d d' :
  rtc row_added d d' -> parked ids until (webhook_deliveries d) -> parked ids until (webhook_deliveries d').
Proof.
  induction 1 as [|d1 d2 d3 Hd _ IH]; [done|]. intros [Hin Hall]. apply IH.
  destruct Hd as [d d' E _|w d d' _ Hnew _ E _]; rewrite E; [done|]. split; [cbn; set_solver|].
  constructor; [|done]. intros Hw. apply Hin, list_elem_of_fmap in Hw as (v & Hv & Hvin).
  destruct Hnew. apply Exists_exists. exists v. by rewrite <- list_elem_of_In.
Qed.

Lemma parked_unchanged ids until hit f d :
  (forall w, same_key w (f w)) ->
  (forall w, w ∈ webhook_deliveries d -> wd_id w ∈ ids -> hit w = true -> until <= wd_next_attempt_at w -> until <= wd_next_attempt_at (f w)) ->
  parked ids until (webhook_deliveries d) -> parked ids until (webhook_deliveries (change_rows hit f d)).
Proof.
  intros Hf Hnext [Hin Hall]. split.
  - rewrite (change_rows_keys wd_id); [done|]. intros w. by destruct (Hf w) as [-> _].
  - apply List.Forall_forall. intros w' Hw'%list_elem_of_In. destruct (change_rows_elem _ _ _ _ Hw') as (w & Hw & ->).
    pose proof (Forall_elem _ _ _ Hall Hw) as Hu. cbn beta in Hu. destruct (hit w) eqn:Hh; [|done].
    destruct (Hf w) as [-> _]. intros Hid. by apply Hnext; auto.
Qed.

Lemma parked_step ids until s s' :
  quiet_step ids until s s' -> pump_ok s -> parked ids until (webhook_deliveries (pump_db s)) ->
  parked ids until (webhook_deliveries (pump_db s')).
Proof.
  intros Hs [Hsys Hnd Hp Hw Hc] Hpark.
  destruct Hs as [s s' claims Hs|world env limit hold st r st' p claims E Ht|world env c st b st' p claims Hcl Hid E];
    unfold pump_db in *; cbn [pump_sys sys_db] in *.
  - destruct (sys_step_adds _ _ Hs (system_delivery _ Hsys)) as (d1 & Hd1 & -> & _). by eapply parked_added.
  - apply claim_effect in E. destruct E as [reason|values Hm]; [done|]. apply parked_unchanged; [done| |done].
    intros w Hin Hw' Hh Hu. destruct (claimed_id _ _ _ _ _ w Hp Hnd Hm Hin Hh) as [Hdue _].
    unfold is_due in Hdue. apply andb_true_iff in Hdue as [_ Hdue%Z.leb_le]. lia.
  - apply attempt_effect in E. destruct E as (sent & [-> | (f & Hf & ->)]); [done|].
    apply parked_unchanged; [intros w; by eapply walked_key| |done].
    intros w _ Hw' Hh _. unfold pending_row in Hh. apply andb_true_iff in Hh as [Hwid%String.eqb_eq _]. congruence.
Qed.

Lemma parked_held values until d : claim_ids values ⊆ (wd_id <$> webhook_deliveries d) ->
  parked (claim_ids values) until (webhook_deliveries (held values until d)).
Proof.
  intros Hin. split; [unfold held; by rewrite (change_rows_keys wd_id)|].
  apply List.Forall_forall. intros w' Hw'%list_elem_of_In. destruct (change_rows_elem _ _ _ _ Hw') as (w & Hw & ->).
  unfold holds_row. fold (claim_ids values). case_bool_decide as Hh; cbn; [lia|done].
Qed.

Lemma claimed_in_table now locked limit d values :
  Forall printed_id (webhook_deliveries d) -> mapM parse_claimed (due_rows now locked limit d) = Some values ->
  Forall (fun id => exists w, w ∈ webhook_deliveries d /\ wd_id w = id /\ is_due now w = true) (claim_ids values).
Proof.
  intros Hp Hm. apply List.Forall_forall. intros id (c & -> & Hc)%list_elem_of_In%list_elem_of_fmap.
  apply list_elem_of_lookup in Hc as [i Hi]. apply mapM_Some in Hm.
  destruct (Forall2_lookup_r _ _ _ _ _ Hm Hi) as (row & Hrow & Hparse).
  apply list_elem_of_lookup_2, due_rows_due in Hrow as (Hin & Hdue & _).
  destruct (parse_claimed_row row c (Forall_elem _ _ _ Hp Hin) Hparse) as [Hid _]. by exists (due_delivery row).
Qed.

(** C33: Safety. While a claim's hold lasts no other claim gets any of its deliveries, unless the
    claimant's own attempt has rescheduled it: after the claim, whatever the system, other claims
    and attempts of other deliveries do, a claim before the hold's end lists none of them. *)
Theorem claims_are_exclusive (world world2 : Surroundings) env env2 limit limit2 hold hold2 st st' st2 st2' values r p claims s2 :
  pump_ok (MkPump (MkSystem (st_base st) p) claims) ->
  @ClaimDueDeliveries _ _ _ world limit hold env st = (ClaimDueDeliveriesListed values, st') ->
  let until := @database_clock world (st_step st) + hold in
  rtc (quiet_step (claim_ids values) until) (MkPump (MkSystem (st_base st') p) (claims ++ values)%list) s2 ->
  st_base st2 = pump_db s2 -> @database_clock world2 (st_step st2) < until ->
  @ClaimDueDeliveries _ _ _ world2 limit2 hold2 env2 st2 = (r, st2') ->
  forall id, id ∈ claim_ids values -> id ∉ claim_ids (listed_claims r).
Proof.
  intros Hok E until Hs Hb Ht E2 id Hid Hid2.
  assert (pump_ok (MkPump (MkSystem (st_base st') p) (claims ++ values)%list)) as Hok1.
  { eapply pump_step_ok; [|exact Hok]. exact (pump_claim world env limit hold st _ st' p claims E). }
  destruct Hok as [Hsys Hnd Hp Hw Hc]. unfold pump_db in Hp. cbn in Hp. apply claim_effect in E. inversion E as [|v Hm Hv Hd]; subst v.
  assert (parked (claim_ids values) until (webhook_deliveries (st_base st'))) as Hpark.
  { rewrite <- Hd. apply parked_held. intros i Hi. pose proof (claimed_in_table _ _ _ _ _ Hp Hm) as Hin.
    destruct (Forall_elem _ _ _ Hin Hi) as (w & Hw' & <- & _). apply list_elem_of_fmap. eauto. }
  assert (pump_ok s2 /\ parked (claim_ids values) until (webhook_deliveries (pump_db s2))) as [Hok2 [_ Hpark2]].
  { revert Hok1 Hpark. change (webhook_deliveries (st_base st')) with
      (webhook_deliveries (pump_db (MkPump (MkSystem (st_base st') p) (claims ++ values)%list))). clear -H0 Hs.
    induction Hs as [|x y z Hxy _ IH]; [done|]. intros Hok Hpark.
    apply IH; [by eapply pump_step_ok, Hok; eapply quiet_pump|by eapply parked_step]. }
  apply claim_effect in E2. destruct E2 as [reason|values2 Hm2]; [by apply elem_of_nil in Hid2|]. cbn [listed_claims] in Hid2.
  rewrite Hb in Hm2. pose proof (claimed_in_table _ _ _ _ _ (pump_printed _ Hok2) Hm2) as Hin2.
  destruct (Forall_elem _ _ _ Hin2 Hid2) as (w & Hw2 & Hwid & Hdue). subst id.
  pose proof (Forall_elem _ _ _ Hpark2 Hw2 Hid) as Hnext. unfold is_due in Hdue.
  apply andb_true_iff in Hdue as [_ Hdue%Z.leb_le]. lia.
Qed.
End Pump.
