(* ===== verification/WebhookDrain.v ===== *)
(** * The webhook pump makes progress

    A run of the dispatcher is a sequence of pump steps; without faults and with
    receivers that acknowledge it delivers everything that was due; one row that
    does not parse stops it. *)

From S2P Require Import Prelude.
From S2P Require Import Core.
From S2P Require Import Events.
From S2P Require Import TaskValues.
From S2P Require Import Database.
From S2P Require Import Tx.
From S2P Require Import DeliveryDB.
From S2P Require Import Inbox.
From S2P Require Import EventStore.
From S2P Require Import DeliverySystem.
From S2P Require Import DeliveryHealthy.
From S2P Require Import Webhooks.
From S2P Require Import WebhookWire.
From S2P Require Import WebhookDispatch.
From S2P Require Import WebhookPump.
Local Open Scope string_scope.
Local Open Scope Z_scope.

(** ** A run is a sequence of pump steps *)

Section Steps.
Context `{UUIDLaws, JSONB, URLLib} (world : Surroundings) (env : Env).

Definition at_base (st : TxStateOf Delivery) (p : list Draft) (claims : list ClaimedWebhookDelivery) : Pump :=
  MkPump (MkSystem (st_base st) p) claims.

Lemma attempt_all_steps values delivered st p claims :
  values ⊆ claims ->
  rtc pump_step (at_base st p claims) (at_base (snd (attempt_all values delivered env st)) p claims).
Proof.
  revert delivered st. induction values as [|c values IH]; intros delivered st Hin; cbn [attempt_all]; [done|].
  unfold mbind, M_bind. destruct (attemptDelivery c env st) as [b st1] eqn:E.
  eapply rtc_l; [eapply (pump_attempt world env c st b st1); [apply Hin; by left|done]|]. apply IH. set_solver.
Qed.

Lemma run_batches_steps batches attempted delivered st p claims :
  exists claims', rtc pump_step (at_base st p claims) (at_base (snd (run_batches batches attempted delivered env st)) p claims').
Proof.
  revert attempted delivered st claims. induction batches as [|batches IH]; intros attempted delivered st claims; cbn [run_batches].
  { by exists claims. }
  unfold mbind at 1, M_bind at 1. destruct (ClaimDueDeliveries claimBatchSize claimHold env st) as [r st1] eqn:E.
  pose proof (pump_claim world env _ _ st r st1 p claims E) as Hclaim. destruct r as [values|reason]; cbn [listed_claims] in Hclaim.
  - pose proof (attempt_all_steps values delivered st1 p (claims ++ values)%list ltac:(set_solver)) as Hall.
    unfold mbind at 1, M_bind at 1. destruct (attempt_all values delivered env st1) as [delivered' st2]. cbn [snd] in Hall.
    destruct (_ <? _)%nat.
    + exists (claims ++ values)%list. by eapply rtc_l.
    + destruct (IH (attempted + length values)%nat delivered' st2 (claims ++ values)%list) as [claims' Hrest].
      exists claims'. eapply rtc_l; [exact Hclaim|]. by etrans.
  - exists (claims ++ [])%list. by apply rtc_once.
Qed.

(** Refinement. A run of the dispatcher, in whatever surroundings and under whatever faults, is
    a sequence of the pump's claims and attempts, so every theorem about the pump's reachable states
    holds between and after runs. *)
Theorem RunOnce_is_pump_steps st p claims :
  exists claims', rtc pump_step (MkPump (MkSystem (st_base st) p) claims)
    (MkPump (MkSystem (st_base (snd (RunOnce env st))) p) claims').
Proof. apply run_batches_steps. Qed.
End Steps.

(** ** The first rows in an order *)

Section Take.
Context {A : Type} (key : A -> Z).

Definition key_le (a b : A) : Prop := key a <= key b.

#[export] Instance key_le_dec a b : Decision (key_le a b).
Proof. unfold key_le. apply _. Defined.

#[local] Instance key_le_total : Total key_le.
Proof. intros a b. unfold key_le. lia. Qed.

(** What comes before an element of the sorted list has no greater key. *)
Lemma sorted_split l e :
  e ∈ l -> exists before after, merge_sort key_le l = (before ++ e :: after)%list /\
    (length before < length (filter (fun x => (key x <= key e)%Z) l))%nat.
Proof.
  intros He. assert (merge_sort key_le l ≡ₚ l) as Hperm by apply merge_sort_Permutation.
  assert (e ∈ merge_sort key_le l) as Hin by (by rewrite Hperm).
  apply list_elem_of_split in Hin as (before & after & Hl). exists before, after. split; [done|].
  assert (Sorted key_le (merge_sort key_le l)) as Hs by (apply (Sorted_merge_sort _)).
  apply Sorted_StronglySorted in Hs; [|intros x y z; unfold key_le; lia]. rewrite Hl in Hs.
  assert (filter (fun x => (key x <= key e)%Z) before = before) as Hb.
  { apply StronglySorted_app in Hs as (Hle & _ & _). clear -Hle. induction before as [|x before IH]; [done|].
    rewrite filter_cons_True by (apply (Hle x e); by left). f_equal. apply IH. intros y z Hy. apply Hle. by right. }
  rewrite <- Hperm, Hl, list.filter_app, length_app, Hb, filter_cons_True by lia. cbn. lia.
Qed.
End Take.

Lemma merge_sort_next rows : merge_sort next_first rows = merge_sort (key_le wd_next_attempt_at) rows.
Proof. reflexivity. Qed.

Lemma omap_length {A B} (f : A -> option B) l : (length (omap f l) <= length l)%nat.
Proof. induction l as [|x l IH]; cbn; [lia|]. destruct (f x); cbn; lia. Qed.

(** A due row among the first [limit] is in the claim's result. *)
Lemma due_rows_first now locked limit d w row :
  w ∈ webhook_deliveries d -> is_due now w = true -> locked (wd_id w) = false -> due_row d w = Some row ->
  (length (filter (fun v => is_pending v /\ (wd_next_attempt_at v <= wd_next_attempt_at w)%Z) (webhook_deliveries d)) <= limit)%nat ->
  row ∈ due_rows now locked limit d.
Proof.
  intros Hw Hdue Hlock Hrow Hrank. unfold due_rows. rewrite merge_sort_next. set (due := filter (is_due now) (webhook_deliveries d)).
  assert (w ∈ due) as Hin by (apply list_elem_of_filter; by rewrite Hdue).
  destruct (sorted_split wd_next_attempt_at due w Hin) as (before & after & -> & Hlen).
  rewrite list.filter_app, filter_cons_True by (by rewrite Hlock). rewrite omap_app. cbn [omap list_omap]. rewrite Hrow.
  set (pre := omap (due_row d) _).
  assert (length pre < limit)%nat as Hpre.
  { eapply Nat.le_lt_trans; [apply omap_length|]. eapply Nat.le_lt_trans; [apply length_filter|].
    eapply Nat.lt_le_trans; [exact Hlen|]. etrans; [|exact Hrank]. unfold due. rewrite list_filter_filter.
    clear. induction (webhook_deliveries d) as [|x xs IH]; [done|]. rewrite !filter_cons.
    repeat case_decide; cbn; try lia. exfalso. destruct_and!. unfold is_due in *. naive_solver eauto using andb_prop_elim. }
  apply elem_of_take. exists (length pre). split; [|done].
  by rewrite lookup_app_r, Nat.sub_diag by lia.
Qed.

(** ** One unreadable row *)

Section Stall.
Context `{UUIDLib, JSONB, URLLib}.

(** The claim's transaction is given up at the first row that does not parse. *)
Lemma claim_unreadable (world : Surroundings) env limit hold st row :
  row ∈ due_rows (database_clock (st_step st)) (locked_elsewhere (S (st_step st))) limit (st_base st) ->
  parse_claimed row = None ->
  wp env (ClaimDueDeliveries limit hold) (fun r st' =>
    (exists reason, r = ClaimDueDeliveriesRejected reason) /\ st_base st' = st_base st) st.
Proof.
  intros Hin Hrow. apply ClaimDueDeliveries_wp. intros r st' Hr. inversion Hr as [reason E Hb|values Hm E Hb]; [eauto|].
  exfalso. apply mapM_Some in Hm. apply list_elem_of_lookup in Hin as [i Hi].
  destruct (Forall2_lookup_l _ _ _ _ _ Hm Hi) as (c & _ & Hc). congruence.
Qed.

(** Runs of the dispatcher, one after the other and with their answers, once the row [w] is
    due and while no other transaction holds it. *)
Inductive stalled_runs (w : DeliveryRow) : Delivery -> list RunResult -> Delivery -> Prop :=
| stalled_none d : stalled_runs w d [] d
| stalled_again (world : Surroundings) env st r st' answers d' :
    wd_next_attempt_at w <= database_clock (st_step st) -> locked_elsewhere (S (st_step st)) (wd_id w) = false ->
    RunOnce env st = (r, st') -> stalled_runs w (st_base st') answers d' ->
    stalled_runs w (st_base st) (r :: answers) d'.

Definition is_rejected (r : RunResult) : Prop := exists reason, r = RunRejected reason.

Lemma RunOnce_unreadable (world : Surroundings) env st r st' row :
  row ∈ due_rows (database_clock (st_step st)) (locked_elsewhere (S (st_step st))) claimBatchSize (st_base st) ->
  parse_claimed row = None -> RunOnce env st = (r, st') -> is_rejected r /\ st_base st' = st_base st.
Proof.
  intros Hin Hparse E. pose proof (claim_unreadable world env claimBatchSize claimHold st row Hin Hparse) as Hwp. unfold wp in Hwp.
  unfold RunOnce, maxClaimBatchesPerRun in E. cbn [run_batches] in E. unfold mbind at 1, M_bind at 1 in E.
  destruct (ClaimDueDeliveries _ _ env st) as [r1 st1]. destruct Hwp as [[reason ->] Hb]. injection E as <- <-. by split; [exists reason|].
Qed.

(** C35: Error behaviour. While one pending delivery among the first ten due does not parse (its
    endpoint, its secret, its event, or the display name of the event's actor), every run of the
    dispatcher that comes after it is due, and finds its row held by no other transaction, is
    rejected: it sends no request, and neither claims nor records anything for any delivery, however
    often it runs. *)
Theorem unreadable_delivery_stalls_the_pump d answers d' w row :
  w ∈ webhook_deliveries d -> is_pending w = true -> due_row d w = Some row -> parse_claimed row = None ->
  (length (filter (fun v => is_pending v /\ (wd_next_attempt_at v <= wd_next_attempt_at w)%Z) (webhook_deliveries d)) <= claimBatchSize)%nat ->
  stalled_runs w d answers d' ->
  Forall is_rejected answers /\ requests_sent d' = requests_sent d /\ d' = d.
Proof.
  intros Hw Hp Hrow Hparse Hrank Hs.
  assert (Forall is_rejected answers /\ d' = d) as [Ha ->]; [|done].
  induction Hs as [d|world env st r st' answers d' Hdue Hlock E _ IH]; [by split|].
  destruct (RunOnce_unreadable world env st r st' row) as [Hr Hb]; [|done..|].
  { apply (due_rows_first _ _ _ _ w); [done| |done..]. unfold is_due. rewrite Hp. by apply Z.leb_le. }
  rewrite Hb in IH. destruct IH as [Ha ->]; [done..|]. split; [by constructor|done].
Qed.
End Stall.

(** ** Draining *)

Section Drain.
Context `{UUIDLaws, JSONB, URLLaws} {world : Surroundings} {env : Env}.
Implicit Types (st : TxStateOf Delivery) (d : Delivery).

(** No statement fails, every receiver acknowledges, no other transaction holds a
    row, and the database's clock does not go back. *)
Record all_well : Prop := {
  well_statements : no_faults env;
  well_receivers : forall step request, exists code, respond step request = Responded code /\ 200 <= code <= 299;
  well_locks : forall step id, locked_elsewhere step id = false;
  well_clock : forall s1 s2, (s1 <= s2)%nat -> database_clock s1 <= database_clock s2
}.

(** The rows can be told apart, and the pending ones can be read. *)
Record readable (d : Delivery) : Prop := {
  readable_ids : NoDup (wd_id <$> webhook_deliveries d);
  readable_printed : Forall printed_id (webhook_deliveries d);
  readable_rows : Forall (fun w => is_pending w = true -> exists row, due_row d w = Some row /\ is_Some (parse_claimed row))
                    (webhook_deliveries d)
}.

(** The same row, delivered. *)
Definition done_row (w w' : DeliveryRow) : Prop := wd_id w' = wd_id w /\ wd_state w' = "delivered".

(** Each row as it was, or pending and now delivered; requests were sent. *)
Definition drained (d d' : Delivery) : Prop :=
  exists rows sent, d' = with_requests sent (with_deliveries rows d) /\
    Forall2 (fun w w' => w' = w \/ is_pending w = true /\ done_row w w') (webhook_deliveries d) rows.

Lemma drained_refl d : drained d d.
Proof.
  exists (webhook_deliveries d), (requests_sent d). split; [by destruct d|]. induction (webhook_deliveries d); constructor; auto.
Qed.

Lemma drained_trans d1 d2 d3 : drained d1 d2 -> drained d2 d3 -> drained d1 d3.
Proof.
  intros (rows2 & sent2 & -> & H12) (rows3 & sent3 & -> & H23). exists rows3, sent3. split; [done|]. cbn in H23.
  revert rows3 H23. induction H12 as [|w w2 l l2 Hw _ IH]; intros rows3 H23; inversion H23; subst; constructor; [|by apply IH].
  destruct Hw as [->|[Hp [Hid Hst]]]; [done|].
  match goal with Hx : _ \/ _ |- _ => destruct Hx as [->|[Hp2 [Hid2 Hst2]]] end; right.
  - done.
  - split; [done|]. split; congruence.
Qed.

Lemma drained_readable d d' : drained d d' -> readable d -> readable d'.
Proof.
  intros (rows & sent & -> & Hall) [Hnd Hp Hr].
  assert (wd_id <$> rows = wd_id <$> webhook_deliveries d) as Hids.
  { clear -Hall. induction Hall as [|w w' l l' Hw _ IH]; [done|]. cbn. rewrite IH. f_equal. by destruct Hw as [->|[_ [? _]]]. }
  split; cbn [webhook_deliveries with_deliveries with_requests].
  - by rewrite Hids.
  - clear -Hall Hp. induction Hall as [|w w' l l' Hw _ IH]; [done|]. inversion_clear Hp as [|? ? Hw1 Hl]. constructor; [|by apply IH].
    destruct Hw as [->|[_ [Hid _]]]; [done|]. destruct Hw1 as [id E]. exists id. congruence.
  - apply List.Forall_forall. intros w' Hw'%list_elem_of_In Hpend. apply list_elem_of_lookup in Hw' as [i Hi].
    destruct (Forall2_lookup_r _ _ _ _ _ Hall Hi) as (w & Hw & [->|[_ [_ Hst]]]).
    + apply list_elem_of_lookup_2 in Hw. exact (Forall_elem _ _ _ Hr Hw Hpend).
    + unfold is_pending in Hpend. by rewrite Hst in Hpend.
Qed.

Context (Hwell : all_well).

(** *** One attempt *)

Lemma https_prefix raw u : Webhook.NewEndpointURL raw = Webhook.EndpointURLAccepted u ->
  String.prefix "https://" (Webhook.EndpointURL_value u) = true.
Proof.
  unfold Webhook.NewEndpointURL. destruct (url_Parse raw) as [parsed|] eqn:Hp; [|done].
  destruct (String.eqb_spec (Scheme parsed) "https") as [Hs|]; [|done]. cbn [negb].
  destruct (String.eqb_spec (Host parsed) "") as [|Hh]; [done|]. cbn [orb]. destruct (String.eqb _ _); [done|].
  destruct (UserInfo parsed); [done|]. intros [= <-]. cbn [Webhook.EndpointURL_value].
  pose proof (url_String_prefix _ _ Hp) as Hpre. rewrite Hs in Hpre. by apply Hpre.
Qed.

Lemma parse_claimed_https row c : parse_claimed row = Some c ->
  String.prefix "https://" (Webhook.EndpointURL_value (Claimed_URL c)) = true.
Proof.
  intros Hc. unfold parse_claimed in Hc. apply bind_Some in Hc as (id & _ & Hc). apply bind_Some in Hc as (sub & _ & Hc).
  apply bind_Some in Hc as (url & Hurl & Hc). repeat (apply bind_Some in Hc as (? & _ & Hc)). injection Hc as <-.
  cbn [Claimed_URL]. destruct (Webhook.NewEndpointURL _) as [u|] eqn:Hu; [|done]. injection Hurl as <-. by eapply https_prefix.
Qed.

Lemma attemptDelivery_acknowledged c st (Q : bool -> TxStateOf Delivery -> Prop) :
  String.prefix "https://" (Webhook.EndpointURL_value (Claimed_URL c)) = true ->
  (forall st' status sent, (st_step st <= st_step st')%nat ->
    st_base st' = change_rows (pending_row (TypedID_String (Claimed_ID c)))
      (fun w => set_walk "delivered" (wrap64 (Claimed_AttemptCount c + 1)) (wd_next_attempt_at w) status w)
      (with_requests sent (st_base st)) ->
    Q true st') ->
  wp env (attemptDelivery c) Q st.
Proof.
  intros Hurl HQ. unfold attemptDelivery, postDelivery. cbv zeta. rewrite Hurl. cbn [negb].
  apply wp_bind, wp_bind. unfold wp at 1, current_time. apply wp_bind. unfold wp at 1, client_Do.
  match goal with |- context [respond ?s ?r] => set (request := r); destruct (well_receivers Hwell s request) as (code & -> & Hcode) end.
  apply wp_ret. assert ((200 <=? code) && (code <=? 299) = true) as -> by lia.
  apply wp_bind. unfold MarkDelivered. apply wp_bind, (wp_autocommit_ok (well_statements Hwell)). cbn [update_delivery].
  apply wp_ret, wp_ret, (HQ _ (FormatInt code) (requests_sent (st_base st) ++ [request])%list); cbn; [lia|done].
Qed.

(** *** A batch *)

(** The rows of the claims delivered, the others as they were. *)
Definition delivers (values : list ClaimedWebhookDelivery) (rows rows' : list DeliveryRow) : Prop :=
  Forall2 (fun w w' => if holds_row values w && is_pending w then done_row w w' else w' = w) rows rows'.

Lemma attempt_all_acknowledged values delivered st (Q : nat -> TxStateOf Delivery -> Prop) :
  Forall (fun c => String.prefix "https://" (Webhook.EndpointURL_value (Claimed_URL c)) = true) values ->
  (forall st' rows sent, (st_step st <= st_step st')%nat -> st_base st' = with_requests sent (with_deliveries rows (st_base st)) ->
     delivers values (webhook_deliveries (st_base st)) rows ->
     Q (delivered + length values)%nat st') ->
  wp env (attempt_all values delivered) Q st.
Proof.
  revert delivered st. induction values as [|c values IH]; intros delivered st Hurls HQ; cbn [attempt_all].
  - apply wp_ret. replace delivered with (delivered + length (@nil ClaimedWebhookDelivery))%nat by (cbn; lia).
    apply (HQ st (webhook_deliveries (st_base st)) (requests_sent (st_base st))); [done|by destruct (st_base st)|].
    generalize (webhook_deliveries (st_base st)). intros rows. unfold delivers. clear. induction rows; by constructor.
  - inversion_clear Hurls as [|? ? Hurl Hurls']. apply wp_bind, attemptDelivery_acknowledged; [done|]. intros st1 status sent1 Hle Hb.
    apply IH; [done|]. intros st2 rows sent2 Hle2 Hb2 Hrows.
    replace (S delivered + length values)%nat with (delivered + length (c :: values))%nat by (cbn; lia).
    apply (HQ st2 rows sent2); [lia|by rewrite Hb2, Hb|]. rewrite Hb in Hrows. cbn in Hrows. clear -Hrows. unfold delivers in *.
    revert rows Hrows. induction (webhook_deliveries (st_base st)) as [|w l IHl]; intros rows Hrows; inversion_clear Hrows as [|? w' ? l' Hw Hl]; [constructor|].
    constructor; [|by apply IHl]. unfold holds_row, pending_row in *.
    destruct (String.eqb_spec (wd_id w) (TypedID_String (Claimed_ID c))) as [Hid|Hid]; cbn [andb] in Hw.
    + rewrite (bool_decide_true (wd_id w ∈ _ <$> c :: values)) by (rewrite Hid; by left). cbn [andb].
      destruct (is_pending w) eqn:Hp; [|by rewrite Hp, andb_false_r in Hw]. cbn in Hw. rewrite andb_false_r in Hw. by subst w'.
    + erewrite (bool_decide_ext (wd_id w ∈ _ <$> c :: values)); [exact Hw|]. cbn. rewrite elem_of_cons. naive_solver.
Qed.
(** *** A claim *)

Lemma scan_claimed_ok rows values more st (Q : DomainError + list ClaimedWebhookDelivery -> TxStateOf Delivery -> Prop) :
  mapM parse_claimed rows = Some more ->
  (forall st', (st_step st <= st_step st')%nat -> st_base st' = st_base st -> st_db st' = st_db st -> Q (inr (values ++ more)%list) st') ->
  wp env (scan_claimed rows values) Q st.
Proof.
  intros Hm%mapM_Some. revert values st. induction Hm as [|row c rows more Hc _ IH]; intros values st HQ; cbn [scan_claimed].
  - apply wp_bind, (wp_fault_point_ok (well_statements Hwell)), wp_ret. rewrite <- (app_nil_r values).
    apply HQ; [cbn; lia|done..].
  - apply wp_bind. unfold scanClaimedWebhookDelivery. apply wp_bind, (wp_fault_point_ok (well_statements Hwell)), wp_ret.
    rewrite Hc. apply IH. intros st' Hle Hb Hd. rewrite <- app_assoc. apply HQ; [cbn in Hle; lia|done..].
Qed.

Lemma hold_claimed_ok values until st (Q : option StmtError -> TxStateOf Delivery -> Prop) :
  (forall st', (st_step st <= st_step st')%nat -> st_base st' = st_base st -> st_db st' = held values until (st_db st) -> Q None st') ->
  wp env (hold_claimed values until) Q st.
Proof.
  revert st. induction values as [|c values IH]; intros st HQ; cbn [hold_claimed].
  - apply wp_ret, HQ; [done..|by rewrite held_nil].
  - apply wp_bind. unfold wp at 1, stmt. rewrite (well_statements Hwell). cbn [update_delivery]. apply IH.
    intros st' Hle Hb Hd. cbn in Hle, Hb, Hd. apply HQ; [lia|done|]. rewrite Hd. apply held_cons.
Qed.

Definition due_now (now : Z) (limit : nat) (d : Delivery) : list DueRow := due_rows now (fun _ => false) limit d.

Lemma due_rows_unlocked now limit d n : due_rows now (locked_elsewhere n) limit d = due_now now limit d.
Proof.
  unfold due_now, due_rows. do 2 f_equal. apply list_filter_iff. intros w. by rewrite (well_locks Hwell).
Qed.

Lemma due_readable now limit d : readable d -> exists values, mapM parse_claimed (due_now now limit d) = Some values.
Proof.
  intros [Hnd Hp Hr]. apply mapM_is_Some_2, List.Forall_forall. intros row Hrow%list_elem_of_In.
  unfold due_now, due_rows in Hrow. apply elem_of_take in Hrow as (i & Hi & _).
  apply list_elem_of_lookup_2, list_elem_of_omap in Hi as (w & Hw & Hrow).
  apply list_elem_of_filter in Hw as [_ Hw]. rewrite merge_sort_Permutation in Hw. apply list_elem_of_filter in Hw as [Hdue Hw].
  destruct (Forall_elem _ _ _ Hr Hw) as (row' & Hrow' & Hparse).
  - by apply Is_true_eq_true, andb_true_iff in Hdue as [? _].
  - rewrite Hrow in Hrow'. by injection Hrow' as <-.
Qed.

Lemma ClaimDueDeliveries_ok limit hold values st (Q : ClaimDueDeliveriesResult -> TxStateOf Delivery -> Prop) :
  let now := database_clock (st_step st) in
  mapM parse_claimed (due_now now limit (st_base st)) = Some values ->
  (forall st', (st_step st <= st_step st')%nat -> st_base st' = held values (now + hold) (st_base st) ->
     Q (ClaimDueDeliveriesListed values) st') ->
  wp env (ClaimDueDeliveries limit hold) Q st.
Proof.
  intros now Hm HQ. pose proof (well_statements Hwell) as Hok. unfold ClaimDueDeliveries.
  apply wp_bind. unfold wp at 1, database_time. fold now. apply wp_bind, (wp_begin_ok Hok).
  apply wp_bind. unfold wp at 1, other_locks. apply wp_bind, (wp_query_rows_ok Hok). cbn [st_step st_db].
  rewrite due_rows_unlocked. apply wp_bind, (scan_claimed_ok _ _ values); [done|]. intros st1 Hle1 Hb1 Hd1.
  apply wp_bind, hold_claimed_ok. intros st2 Hle2 Hb2 Hd2. apply wp_bind, (wp_commit_ok Hok), wp_ret.
  cbn in *. apply HQ; cbn; [lia|]. by rewrite Hd2, Hd1.
Qed.

(** *** What a claim lists *)

Lemma omap_due_row d l : (due_delivery <$> omap (due_row d) l) `sublist_of` l.
Proof.
  induction l as [|w l IH]; [constructor|]. cbn. destruct (due_row d w) as [row|] eqn:Hrow; [|by apply sublist_cons].
  cbn. replace (due_delivery row) with w; [by apply sublist_skip|]. unfold due_row in Hrow. by simplify_option_eq.
Qed.

Lemma due_now_deliveries now limit d : (due_delivery <$> due_now now limit d) ⊆+ filter (is_due now) (webhook_deliveries d).
Proof.
  rewrite <- (merge_sort_Permutation next_first (filter (is_due now) (webhook_deliveries d))). apply sublist_submseteq.
  unfold due_now, due_rows. etrans; [apply fmap_sublist, sublist_take|]. etrans; [apply omap_due_row|]. apply sublist_filter.
Qed.

(** Its identifiers are those of its rows, in order. *)
Lemma claim_ids_rows now limit d values :
  readable d -> mapM parse_claimed (due_now now limit d) = Some values ->
  claim_ids values = wd_id <$> (due_delivery <$> due_now now limit d).
Proof.
  intros Hr Hm%mapM_Some. rewrite <- list_fmap_compose. unfold claim_ids.
  assert (forall row, row ∈ due_now now limit d -> printed_id (due_delivery row)) as Hp.
  { intros row Hrow. assert (due_delivery row ∈ due_delivery <$> due_now now limit d) as Hin by (apply list_elem_of_fmap; eauto).
    eapply elem_of_submseteq in Hin; [|apply due_now_deliveries]. apply list_elem_of_filter in Hin as [_ Hin].
    exact (Forall_elem _ _ _ (readable_printed _ Hr) Hin). }
  revert Hp. induction Hm as [|row c rows values Hc _ IH]; intros Hp; [done|]. cbn. f_equal.
  - apply (parse_claimed_row row c); [apply Hp; by left|done].
  - apply IH. intros r Hin. apply Hp. by right.
Qed.

Definition pendings (d : Delivery) : nat := length (filter is_pending (webhook_deliveries d)).

(** The rows a claim lists are as many as it lists, all pending. *)
Lemma held_count now limit d values :
  readable d -> mapM parse_claimed (due_now now limit d) = Some values ->
  (length values <= length (filter (fun w => holds_row values w /\ is_pending w) (webhook_deliveries d)))%nat.
Proof.
  intros Hr Hm. pose proof (claim_ids_rows now limit d values Hr Hm) as Hids.
  pose proof (due_now_deliveries now limit d) as Hsub.
  transitivity (length (claim_ids values)); [unfold claim_ids; by rewrite length_fmap|].
  rewrite <- (length_fmap wd_id (filter _ (webhook_deliveries d))). apply submseteq_length, NoDup_submseteq.
  - rewrite Hids. apply submseteq_Permutation in Hsub as [k Hperm].
    assert (NoDup (wd_id <$> filter (fun w => is_due now w) (webhook_deliveries d))) as Hnd.
    { eapply sublist_NoDup; [apply Hr|apply fmap_sublist, sublist_filter]. }
    rewrite Hperm, fmap_app in Hnd. by apply list.NoDup_app in Hnd as (? & _).
  - intros id Hid. pose proof Hid as Hin. rewrite Hids in Hin. apply list_elem_of_fmap in Hin as (w & -> & Hw).
    eapply elem_of_submseteq in Hw; [|exact Hsub]. apply list_elem_of_filter in Hw as [Hdue Hw].
    apply list_elem_of_fmap. exists w. split; [done|]. apply list_elem_of_filter. split; [|done].
    apply Is_true_eq_true, andb_true_iff in Hdue as [Hp _]. split; [|by apply Is_true_eq_left].
    apply Is_true_eq_left. by apply bool_decide_eq_true.
Qed.

(** *** A batch *)

Lemma delivers_drained now limit d values until rows sent :
  readable d -> mapM parse_claimed (due_now now limit d) = Some values ->
  delivers values (webhook_deliveries (held values until d)) rows ->
  drained d (with_requests sent (with_deliveries rows d)) /\ (pendings (with_requests sent (with_deliveries rows d)) + length values <= pendings d)%nat /\
  (forall w, w ∈ webhook_deliveries d -> holds_row values w = true -> exists w', w' ∈ rows /\ done_row w w').
Proof.
  intros Hr Hm Hrows. pose proof (held_count now limit d values Hr Hm) as Hcount.
  assert (forall w, w ∈ webhook_deliveries d -> holds_row values w = true -> is_pending w = true) as Hpend.
  { intros w Hw Hh. destruct (claimed_id now (fun _ => false) limit d values w) as [Hdue _]; [apply Hr..|done|done|done|].
    by apply andb_true_iff in Hdue as [? _]. }
  assert (Forall2 (fun w w' => if holds_row values w then is_pending w = true /\ done_row w w' else w' = w) (webhook_deliveries d) rows) as Hall.
  { unfold delivers, held in Hrows. cbn in Hrows. clear -Hrows Hpend. revert rows Hrows.
    induction (webhook_deliveries d) as [|w l IH]; intros rows Hrows; inversion_clear Hrows as [|? w' ? l' Hw Hl]; [constructor|].
    constructor; [|apply IH; [intros v Hv; apply Hpend; by right|done]].
    specialize (Hpend w ltac:(by left)). destruct (holds_row values w) eqn:Hh; [|by rewrite Hh in Hw].
    specialize (Hpend eq_refl). change (holds_row values (set_next until w)) with (holds_row values w) in Hw.
    change (is_pending (set_next until w)) with (is_pending w) in Hw. by rewrite Hh, Hpend in Hw. }
  split; [|split].
  - exists rows, sent. split; [done|]. eapply Forall2_impl; [|exact Hall]. intros w w'. cbn. destruct (holds_row values w); auto.
  - etrans; [apply Nat.add_le_mono_l, Hcount|]. unfold pendings. cbn [webhook_deliveries with_deliveries with_requests]. clear -Hall.
    induction Hall as [|w w' l l' Hw _ IH]; [done|]. rewrite !filter_cons. destruct (holds_row values w) eqn:Hh.
    + destruct Hw as [Hp [_ Hst]]. assert (is_pending w' = false) as Hp' by (unfold is_pending; by rewrite Hst).
      rewrite Hp, Hp'. repeat case_decide; cbn in *; try lia; tauto.
    + subst w'. repeat case_decide; cbn in *; try lia; tauto.
  - intros w Hw Hh. apply list_elem_of_lookup in Hw as [i Hi]. destruct (Forall2_lookup_l _ _ _ _ _ Hall Hi) as (w' & Hw' & Hd).
    rewrite Hh in Hd. exists w'. split; [by eapply list_elem_of_lookup_2|apply Hd].
Qed.

(** A claim that comes back short has listed every due row. *)
Lemma short_claim_holds_all now limit d values w :
  readable d -> mapM parse_claimed (due_now now limit d) = Some values -> (length values < limit)%nat ->
  w ∈ webhook_deliveries d -> is_due now w = true -> holds_row values w = true.
Proof.
  intros Hr Hm Hshort Hw Hdue. destruct (Forall_elem _ _ _ (readable_rows _ Hr) Hw) as (row & Hrow & _).
  { by apply andb_true_iff in Hdue as [? _]. }
  unfold holds_row. apply bool_decide_eq_true. fold (claim_ids values). rewrite (claim_ids_rows now limit d values Hr Hm).
  apply mapM_Some, Forall2_length in Hm. rewrite <- Hm in Hshort.
  assert (row ∈ due_now now limit d) as Hin.
  { unfold due_now, due_rows in *. rewrite length_take in Hshort. rewrite take_ge by lia.
    apply list_elem_of_omap. exists w. split; [|done]. apply list_elem_of_filter. split; [done|].
    rewrite merge_sort_Permutation. apply list_elem_of_filter. by rewrite Hdue. }
  apply list_elem_of_fmap. exists (due_delivery row). split; [|apply list_elem_of_fmap; eauto].
  unfold due_row in Hrow. by simplify_option_eq.
Qed.
Lemma parsed_https rows values :
  mapM parse_claimed rows = Some values ->
  Forall (fun c => String.prefix "https://" (Webhook.EndpointURL_value (Claimed_URL c)) = true) values.
Proof. intros Hm%mapM_Some. induction Hm; constructor; [by eapply parse_claimed_https|done]. Qed.

(** One round of the loop: a claim, and an attempt of each of its deliveries. *)
Lemma batch_drains delivered st (Q : nat * nat -> TxStateOf Delivery -> Prop) :
  readable (st_base st) ->
  (forall n st', (st_step st <= st_step st')%nat -> drained (st_base st) (st_base st') ->
     (pendings (st_base st') + n <= pendings (st_base st))%nat ->
     ((n < claimBatchSize)%nat -> forall w, w ∈ webhook_deliveries (st_base st) ->
        is_due (database_clock (st_step st)) w = true -> exists w', w' ∈ webhook_deliveries (st_base st') /\ done_row w w') ->
     Q (n, delivered + n)%nat st') ->
  wp env (ClaimDueDeliveries claimBatchSize claimHold) (fun r st1 => exists values, r = ClaimDueDeliveriesListed values /\
    wp env (attempt_all values delivered) (fun delivered' st2 => Q (length values, delivered') st2) st1) st.
Proof.
  intros Hr HQ. set (now := database_clock (st_step st)). set (d := st_base st) in *.
  destruct (due_readable now claimBatchSize d Hr) as [values Hm].
  apply (ClaimDueDeliveries_ok _ _ values); [done|]. intros st1 Hle1 Hb1. exists values. split; [done|].
  apply attempt_all_acknowledged; [by eapply parsed_https|]. intros st2 rows sent Hle2 Hb2 Hrows. rewrite Hb1 in Hb2, Hrows.
  destruct (delivers_drained now claimBatchSize d values (now + claimHold) rows sent Hr Hm Hrows) as (Hd & Hn & Hdone).
  change (st_base st2 = with_requests sent (with_deliveries rows d)) in Hb2. apply HQ; rewrite ?Hb2; [lia|done|done|].
  intros Hshort w Hw Hdue. apply Hdone; [done|]. by eapply short_claim_holds_all.
Qed.

Lemma drained_due now d d' w :
  drained d d' -> w ∈ webhook_deliveries d -> is_due now w = true ->
  w ∈ webhook_deliveries d' \/ exists w', w' ∈ webhook_deliveries d' /\ done_row w w'.
Proof.
  intros (rows & sent & -> & Hall) Hw _. apply list_elem_of_lookup in Hw as [i Hi].
  destruct (Forall2_lookup_l _ _ _ _ _ Hall Hi) as (w' & Hw' & Hd). apply list_elem_of_lookup_2 in Hw'.
  destruct Hd as [->|[_ Hd]]; [by left|right; eauto].
Qed.

Lemma drained_done d d' w w' :
  drained d d' -> w' ∈ webhook_deliveries d -> done_row w w' -> exists w'', w'' ∈ webhook_deliveries d' /\ done_row w w''.
Proof.
  intros (rows & sent & -> & Hall) Hw Hd. apply list_elem_of_lookup in Hw as [i Hi].
  destruct (Forall2_lookup_l _ _ _ _ _ Hall Hi) as (w'' & Hw'' & Hd2). apply list_elem_of_lookup_2 in Hw''.
  exists w''. split; [done|]. destruct Hd2 as [->|[_ [Hid Hst]]]; [done|]. destruct Hd as [Hid' _]. split; congruence.
Qed.

Lemma run_batches_drains now0 batches attempted delivered st :
  readable (st_base st) -> now0 <= database_clock (st_step st) ->
  (pendings (st_base st) < claimBatchSize * batches)%nat ->
  wp env (run_batches batches attempted delivered) (fun r st' =>
    (exists n, r = RunCompleted (attempted + n) (delivered + n)) /\ drained (st_base st) (st_base st') /\
    forall w, w ∈ webhook_deliveries (st_base st) -> is_due now0 w = true ->
      exists w', w' ∈ webhook_deliveries (st_base st') /\ done_row w w') st.
Proof.
  revert attempted delivered st. induction batches as [|batches IH]; intros attempted delivered st Hr Hnow Hp; [lia|].
  cbn [run_batches]. apply wp_bind. eapply wp_mono.
  - apply (batch_drains delivered st (fun nd st2 => nd.2 = (delivered + nd.1)%nat /\ (st_step st <= st_step st2)%nat /\
      drained (st_base st) (st_base st2) /\ (pendings (st_base st2) + nd.1 <= pendings (st_base st))%nat /\
      ((nd.1 < claimBatchSize)%nat -> forall w, w ∈ webhook_deliveries (st_base st) ->
        is_due (database_clock (st_step st)) w = true -> exists w', w' ∈ webhook_deliveries (st_base st2) /\ done_row w w'))); [done|].
    intros n st2 Hle Hd Hn Hshort. split_and!; done.
  - intros r st1 (values & -> & Hattempts). apply wp_bind. eapply wp_mono; [exact Hattempts|]. cbn [fst snd].
    intros delivered' st2 (-> & Hle & Hd & Hn & Hshort).
    assert (forall w, is_due now0 w = true -> is_due (database_clock (st_step st)) w = true) as Hlater.
    { intros w [Hpend Hdue%Z.leb_le]%andb_true_iff. unfold is_due. rewrite Hpend. cbn. apply Z.leb_le. lia. }
    destruct (Nat.ltb_spec (length values) claimBatchSize) as [Hlt|Hge].
    + apply wp_ret. split; [by eexists|]. split; [done|]. intros w Hw Hdue. apply Hshort; auto.
    + eapply wp_mono; [apply IH|].
      * by eapply drained_readable.
      * pose proof (well_clock Hwell _ _ Hle). lia.
      * unfold claimBatchSize in *. lia.
      * intros r st3 ((n & ->) & Hd3 & Hdone). split; [|split].
        -- exists (length values + n)%nat. f_equal; lia.
        -- by eapply drained_trans.
        -- intros w Hw Hdue. destruct (drained_due now0 _ _ w Hd Hw Hdue) as [Hw2|(w' & Hw' & Hdw)]; [by apply Hdone|].
           by eapply drained_done.
Qed.

(** C34: Liveness. When fewer than 500 deliveries are pending, all of them readable, no statement
    fails, no row is locked, receivers acknowledge and the database's clock does not go back, one
    run of the dispatcher completes and delivers every delivery that was due. *)
Theorem RunOnce_drains d :
  readable d -> (pendings d < 500)%nat ->
  let '(r, d') := run env d RunOnce in
  (exists n, r = RunCompleted n n) /\
  forall w, w ∈ webhook_deliveries d -> is_due (database_clock 0) w = true ->
    exists w', w' ∈ webhook_deliveries d' /\ wd_id w' = wd_id w /\ wd_state w' = "delivered".
Proof.
  intros Hr Hp. unfold run.
  pose proof (run_batches_drains (database_clock 0) maxClaimBatchesPerRun 0 0 (MkTxState d d 0) Hr ltac:(done) Hp) as Hwp.
  unfold wp in Hwp. fold RunOnce in Hwp. destruct (RunOnce env _) as [r st']. cbn [st_base] in Hwp.
  destruct Hwp as ((n & ->) & _ & Hdone). split; [by exists n|exact Hdone].
Qed.
End Drain.
