(* ===== verification/WebhookBehaviour.v ===== *)
(** * Webhook subscriptions behave

    Secrets and stored subscriptions read back, entitlements are exactly the
    granted scopes, subscriptions belong to their owner, and a revoked one gets no
    new deliveries. *)

From Stdlib Require Import Ascii.
From S2P Require Import Prelude.
From S2P Require Import Core.
From S2P Require Import Events.
From S2P Require Import TaskValues.
From S2P Require Import TaskWork.
From S2P Require Import Database.
From S2P Require Import Tx.
From S2P Require Import DeliveryDB.
From S2P Require Import Inbox.
From S2P Require Import EventStore.
From S2P Require Import DeliverySpecs.
From S2P Require Import DeliveryCorrect.
From S2P Require Import DeliverySystem.
From S2P Require Import Webhooks.
From S2P Require Import WebhookPump.
Local Open Scope string_scope.
Local Open Scope Z_scope.

(** ** Secrets *)

Lemma base64_char_ok n : 0 <= n < 64 -> Webhook.in_alphabet (Webhook.base64_char n) Webhook.base64_alphabet = true.
Proof.
  intros Hn. assert (forallb (fun k => Webhook.in_alphabet (Webhook.base64_char (Z.of_nat k)) Webhook.base64_alphabet) (seq 0 64) = true) as Hall
    by (by vm_compute).
  rewrite forallb_forall in Hall. specialize (Hall (Z.to_nat n)). rewrite Z2Nat.id in Hall by lia. apply Hall, in_seq. lia.
Qed.

(** No character of the alphabet breaks a line. *)
Lemma decodes_char n s count :
  0 <= n < 64 -> Webhook.decodes (String (Webhook.base64_char n) s) count = Webhook.decodes s (S count).
Proof.
  intros Hn. cbn [Webhook.decodes]. rewrite (base64_char_ok n Hn). cbn [andb].
  destruct (Ascii.eqb_spec (Webhook.base64_char n) "010"%char) as [E|_].
  { pose proof (base64_char_ok n Hn) as Ha. rewrite E in Ha. discriminate Ha. }
  destruct (Ascii.eqb_spec (Webhook.base64_char n) "013"%char) as [E|_]; [|done].
  pose proof (base64_char_ok n Hn) as Ha. rewrite E in Ha. discriminate Ha.
Qed.

Definition is_byte (b : Z) : Prop := 0 <= b < 256.

(** The four sextets of three bytes. *)
Lemma sextets a b c :
  is_byte a -> is_byte b -> is_byte c ->
  (0 <= Z.shiftr a 2 < 64) /\ (0 <= Z.lor (Z.shiftl (Z.land a 3) 4) (Z.shiftr b 4) < 64) /\
  (0 <= Z.lor (Z.shiftl (Z.land b 15) 2) (Z.shiftr c 6) < 64) /\ (0 <= Z.land c 63 < 64) /\
  (0 <= Z.shiftl (Z.land a 3) 4 < 64) /\ (0 <= Z.shiftl (Z.land b 15) 2 < 64).
Proof.
  unfold is_byte. intros Ha Hb Hc.
  assert (forall x y, 0 <= x < 64 -> 0 <= y < 64 -> 0 <= Z.lor x y < 64) as Hlor.
  { intros x y Hx Hy. split; [apply Z.lor_nonneg; lia|]. destruct (Z.eq_dec (Z.lor x y) 0) as [->|]; [lia|].
    change 64 with (2 ^ 6). pose proof (proj2 (Z.lor_nonneg x y) ltac:(lia)). apply Z.log2_lt_pow2; [lia|]. rewrite Z.log2_lor by lia.
    apply Z.max_lub_lt; (destruct (Z.eq_dec x 0) as [->|]; [|]); (destruct (Z.eq_dec y 0) as [->|]; [|]); try (cbn; lia);
      apply Z.log2_lt_pow2; lia. }
  change 3 with (Z.ones 2). change 15 with (Z.ones 4). change 63 with (Z.ones 6).
  rewrite !Z.land_ones, !Z.shiftr_div_pow2, !Z.shiftl_mul_pow2 by lia.
  split_and!; try (apply Hlor); Z.to_euclidean_division_equations; lia.
Qed.

Lemma encode_decodes bytes count :
  Forall is_byte bytes -> (count mod 4 = 0)%nat -> Webhook.decodes (Webhook.RawURLEncoding_EncodeToString bytes) count = true.
Proof.
  revert count. induction bytes as [bytes IH] using (induction_ltof1 _ length). unfold ltof in IH. intros count Hb Hc.
  assert (forall k, (count + k) mod 4 = k mod 4)%nat as Hmod by (intros k; rewrite Nat.Div0.add_mod, Hc; apply Nat.Div0.mod_mod).
  assert (is_byte 0) as H0 by (unfold is_byte; lia).
  destruct bytes as [|a [|b [|c bytes]]]; cbn [Webhook.RawURLEncoding_EncodeToString].
  - cbn [Webhook.decodes]. by rewrite Hc.
  - inversion_clear Hb as [|? ? Ha _]. destruct (sextets a 0 0) as (? & _ & _ & _ & ? & _); [done..|].
    rewrite !decodes_char by done. cbn [Webhook.decodes]. replace (S (S count)) with (count + 2)%nat by lia. by rewrite Hmod.
  - inversion_clear Hb as [|? ? Ha Hb']. inversion_clear Hb' as [|? ? Hb _].
    destruct (sextets a b 0) as (? & ? & _ & _ & _ & ?); [done..|].
    rewrite !decodes_char by done. cbn [Webhook.decodes]. replace (S (S (S count))) with (count + 3)%nat by lia. by rewrite Hmod.
  - inversion_clear Hb as [|? ? Ha Hb']. inversion_clear Hb' as [|? ? Hb Hc']. inversion_clear Hc' as [|? ? Hc0 Hrest].
    destruct (sextets a b c) as (? & ? & ? & ? & _); [done..|]. rewrite !decodes_char by done.
    apply IH; [cbn; lia|done|]. replace (S (S (S (S count)))) with (count + 4)%nat by lia. by rewrite Hmod.
Qed.

(** Round trip. A generated signing secret is one that stored secrets parse as. *)
Theorem generated_secret_parses bytes secret :
  Forall is_byte bytes -> Webhook.NewSecret (Some bytes) = Webhook.SecretAccepted secret ->
  Webhook.ParseSecret (Webhook.Secret_value secret) = Webhook.SecretAccepted secret.
Proof.
  intros Hb. unfold Webhook.NewSecret. destruct (negb _); [done|]. intros [= <-]. cbn [Webhook.Secret_value].
  unfold Webhook.ParseSecret. rewrite String_prefix_app. cbn [negb]. rewrite substring_app.
  unfold Webhook.RawURLEncoding_DecodeString_ok. by rewrite encode_decodes.
Qed.

(** ** Entitlements *)

(** The kinds an agent is refused are exactly those whose scope it was not granted: none is
    missing just when every kind's scope is among the agent's. *)
Theorem MissingKindEntitlements_exact scopes kinds kind :
  kind ∈ Webhook.MissingKindEntitlements (Agent.NewScopeSet scopes) kinds <->
  kind ∈ Webhook.KindFilter_Values kinds /\ Webhook.RequiredScopeForKind kind ∉ scopes.
Proof.
  unfold Webhook.MissingKindEntitlements. rewrite list_elem_of_In, filter_In, <- list_elem_of_In.
  pose proof (Agent.Allows_iff scopes (Webhook.RequiredScopeForKind kind)) as Hiff.
  destruct (Agent.Allows _ _) as [|denied]; split; intros [Hin Hd]; split; try done.
  - by destruct Hd; apply Hiff.
  - intros Hs. by apply Hiff in Hs.
Qed.

(** ** Stored subscriptions read back *)

Lemma dedup_kinds_fixed seen kinds :
  NoDup kinds -> (forall k, k ∈ kinds -> Kind_String k ∉ seen) -> Webhook.dedup_kinds seen kinds = kinds.
Proof.
  revert seen. induction kinds as [|k kinds IH]; intros seen Hnd Hseen; cbn; [done|].
  inversion_clear Hnd as [|? ? Hk Hnd']. rewrite decide_False by (apply Hseen; by left). f_equal. apply IH; [done|].
  intros k' Hk'. apply not_elem_of_union. split; [|apply Hseen; by right]. rewrite elem_of_singleton.
  intros E%Kind_String_inj. by subst.
Qed.

Lemma dedup_kinds_nodup seen kinds :
  NoDup (Webhook.dedup_kinds seen kinds) /\ forall k, k ∈ Webhook.dedup_kinds seen kinds -> Kind_String k ∉ seen.
Proof.
  revert seen. induction kinds as [|k kinds IH]; intros seen; cbn; [split; [constructor|by intros k ?%elem_of_nil]|].
  case_decide as Hk; [apply IH|]. destruct (IH ({[Kind_String k]} ∪ seen)) as [Hnd Hnew]. split.
  - constructor; [|done]. intros Hin. apply Hnew in Hin. set_solver.
  - intros k' [->|Hin]%elem_of_cons; [done|]. apply Hnew in Hin. set_solver.
Qed.

(** A subscription the service can make: its filter and its audience are constructors' results. *)
Record made_subscription `{URLLib} (s : Webhook.Subscription) : Prop := {
  made_url : Webhook.NewEndpointURL (Webhook.EndpointURL_value (Webhook.SURL s)) = Webhook.EndpointURLAccepted (Webhook.SURL s);
  made_kinds : exists kinds, Webhook.NewKindFilter kinds = Webhook.KindFilterAccepted (Webhook.Kinds s);
  made_reward : match Webhook.SAudience s with
                | Webhook.MarketplaceAudience _ (Webhook.MinimumReward r) => 0 < Webhook.MinimumCreditReward_amount r
                | _ => True
                end
}.

Section ReadBack.
Context `{UUIDLaws, JSONB, URLLib}.

Lemma parse_kinds_String kinds : Webhook.parse_kinds (Kind_String <$> kinds) = Some kinds.
Proof.
  unfold Webhook.parse_kinds. apply mapM_Some. induction kinds as [|k kinds IH]; constructor; [|done]. by rewrite ParseKind_String.
Qed.

Lemma NewKindFilter_again kinds filter :
  Webhook.NewKindFilter kinds = Webhook.KindFilterAccepted filter ->
  Webhook.NewKindFilter (Webhook.KindFilter_Values filter) = Webhook.KindFilterAccepted filter.
Proof.
  unfold Webhook.NewKindFilter. pose proof (dedup_kinds_nodup ∅ kinds) as [Hnd _].
  destruct (Webhook.dedup_kinds ∅ kinds) as [|k ks]; [done|]. intros [= <-]. cbn [Webhook.KindFilter_Values Webhook.filter_kinds].
  rewrite dedup_kinds_fixed; [done|done|]. set_solver.
Qed.

Lemma audience_reads_back (audience : Webhook.Audience) :
  match audience with
  | Webhook.MarketplaceAudience _ (Webhook.MinimumReward r) => 0 < Webhook.MinimumCreditReward_amount r
  | _ => True
  end ->
  let '(kind, taskType, minReward) := Webhook.webhookAudienceColumns audience in
  Webhook.parseWebhookAudience kind (default "" taskType) (default 0 minReward) = Some audience.
Proof.
  intros Hr. destruct audience as [|[|taskType] [|[amount]]]; cbn [Webhook.webhookAudienceColumns default] in *; try done.
  - cbn. destruct (Z.eqb_spec amount 0); [cbn in Hr; lia|]. unfold Webhook.NewMinimumCreditReward.
    destruct (Z.leb_spec amount 0); [cbn in Hr; lia|done].
  - cbn. by destruct taskType.
  - cbn. destruct (Z.eqb_spec amount 0); [cbn in Hr; lia|]. unfold Webhook.NewMinimumCreditReward.
    destruct (Z.leb_spec amount 0); [cbn in Hr; lia|]. by destruct taskType.
Qed.
Definition with_kinds (row : SubscriptionRow) (kinds : list string) : SubscriptionRow := foldl (fun r k => add_kind k r) row kinds.

Lemma with_kinds_columns row kinds :
  let row' := with_kinds row kinds in
  ws_id row' = ws_id row /\ ws_owner_kind row' = ws_owner_kind row /\ ws_owner_user_id row' = ws_owner_user_id row /\
  ws_owner_organization_id row' = ws_owner_organization_id row /\ ws_url row' = ws_url row /\ ws_secret row' = ws_secret row /\
  ws_state row' = ws_state row /\ ws_created_at row' = ws_created_at row /\ ws_audience row' = ws_audience row /\
  ws_filter_task_type row' = ws_filter_task_type row /\
  ws_filter_min_credit_reward row' = ws_filter_min_credit_reward row /\ ws_kinds row' = (ws_kinds row ++ kinds)%list.
Proof.
  unfold with_kinds. revert row. induction kinds as [|k kinds IH]; intros row; cbn [foldl]; [by rewrite app_nil_r|].
  specialize (IH (add_kind k row)). cbn in IH. destruct_and! IH. split_and!; try done. by rewrite <- app_assoc in *.
Qed.

Lemma insert_kinds_wp {env} id kinds d0 old row st (Q : option StmtError -> TxStateOf Delivery -> Prop) :
  st_db st = with_subscriptions (old ++ [row]) d0 -> Forall (fun r => ws_id r <> id) old -> ws_id row = id ->
  (forall err st', st_base st' = st_base st -> Q (Some err) st') ->
  (forall st', st_base st' = st_base st -> st_db st' = with_subscriptions (old ++ [with_kinds row (Kind_String <$> kinds)]) d0 ->
     Q None st') ->
  wp env (Webhook.insert_kinds id kinds) Q st.
Proof.
  revert row st. induction kinds as [|k kinds IH]; intros row st Hdb Hold Hid Hf HQ; cbn [Webhook.insert_kinds].
  - by apply wp_ret, HQ.
  - apply wp_bind, wp_exec; [by apply wp_ret, Hf|]. rewrite Hdb. unfold insert_subscription_kind.
    case_bool_decide; [by apply wp_ret, Hf|]. destruct (negb _); [by apply wp_ret, Hf|].
    apply (IH (add_kind (Kind_String k) row)); cbn [st_db st_base]; [|done|done|exact Hf|exact HQ].
    cbn [webhook_subscriptions with_subscriptions]. unfold with_subscriptions. cbn. f_equal. rewrite fmap_app. cbn.
    rewrite Hid, String.eqb_refl. f_equal. clear -Hold. induction Hold as [|r old Hr _ IH]; [done|]. cbn.
    destruct (String.eqb_spec (ws_id r) id); [done|]. by f_equal.
Qed.

Lemma stored_row_parses s secret :
  made_subscription s ->
  Webhook.parse_subscription (with_kinds (Webhook.subscription_row s secret) (Kind_String <$> Webhook.KindFilter_Values (Webhook.Kinds s))) = Some s.
Proof.
  intros [Hurl [kinds Hkinds] Hr]. apply audience_reads_back in Hr. set (row := with_kinds _ _).
  destruct (with_kinds_columns (Webhook.subscription_row s secret) (Kind_String <$> Webhook.KindFilter_Values (Webhook.Kinds s)))
    as (E1 & E2 & E3 & E4 & E5 & E6 & E7 & E8 & E9 & E10 & E11 & E12). fold row in E1, E2, E3, E4, E5, E6, E7, E8, E9, E10, E11, E12.
  unfold Webhook.subscription_row in *. destruct (Webhook.webhookOwnerColumns (Webhook.SOwner s)) as [[okind ouser] oorg] eqn:Ho.
  destruct (Webhook.webhookAudienceColumns (Webhook.SAudience s)) as [[akind atype] areward] eqn:Ha.
  cbn [ws_id ws_owner_kind ws_owner_user_id ws_owner_organization_id ws_url ws_secret ws_state ws_created_at ws_audience
    ws_filter_task_type ws_filter_min_credit_reward ws_kinds app] in *.
  unfold Webhook.parse_subscription. rewrite E1, E5, E7, E8, E9, E10, E11, E12, parsed_id_String, Hurl, parse_kinds_String, Hr.
  assert (Webhook.parse_owner row = Some (Webhook.SOwner s)) as ->.
  { unfold Webhook.parse_owner. rewrite E2, E3, E4. destruct (Webhook.SOwner s); cbn in Ho; simplify_eq; cbv [mbind option_bind]; cbn; by rewrite parsed_id_String. }
  cbv [mbind option_bind]. rewrite (NewKindFilter_again _ _ Hkinds). assert (Webhook.ParseState (Webhook.State_String (Webhook.SState s)) =
    Webhook.StateAccepted (Webhook.SState s)) as -> by (by destruct (Webhook.SState s)).
  by destruct s.
Qed.

Lemma TaskType_listed taskType : bool_decide (TaskType_String taskType ∈ TaskType_String <$> allTaskTypes) = true.
Proof. by destruct taskType. Qed.

Lemma subscription_row_checks s secret : made_subscription s -> subscription_checks (Webhook.subscription_row s secret) = true.
Proof.
  intros [_ _ Hr]. unfold subscription_checks, Webhook.subscription_row.
  destruct (Webhook.SState s), (Webhook.SOwner s); destruct (Webhook.SAudience s) as [|[|taskType] [|[amount]]];
    cbn [Webhook.webhookOwnerColumns Webhook.webhookAudienceColumns ws_state ws_audience ws_owner_user_id ws_owner_organization_id
      ws_owner_kind ws_filter_task_type ws_filter_min_credit_reward Webhook.MinimumCreditReward_amount] in *;
    rewrite ?TaskType_listed, ?(proj2 (Z.ltb_lt 0 amount)) by done; reflexivity.
Qed.

(** No row of the table has the subscription's id, and its owner, if a user, exists. *)
Record can_subscribe (d : Delivery) (s : Webhook.Subscription) : Prop := {
  subscribe_fresh : Forall (fun r => ws_id r <> TypedID_String (Webhook.ID s)) (webhook_subscriptions d);
  subscribe_owner : match Webhook.SOwner s with Webhook.OwnerUser user => TypedID_String user ∈ users (ledger d) | _ => True end
}.

Lemma subscription_row_id s secret : ws_id (Webhook.subscription_row s secret) = TypedID_String (Webhook.ID s).
Proof.
  unfold Webhook.subscription_row. by destruct (Webhook.webhookOwnerColumns _) as [[? ?] ?], (Webhook.webhookAudienceColumns _) as [[? ?] ?].
Qed.

Lemma subscription_row_owner s secret :
  ws_owner_user_id (Webhook.subscription_row s secret) =
    match Webhook.SOwner s with Webhook.OwnerUser user => Some (TypedID_String user) | Webhook.OwnerOrganization _ => None end.
Proof. unfold Webhook.subscription_row. destruct (Webhook.webhookAudienceColumns _) as [[? ?] ?]. by destruct (Webhook.SOwner s). Qed.

Lemma insert_subscription_ok d s secret :
  made_subscription s -> can_subscribe d s ->
  insert_subscription (Webhook.subscription_row s secret) d =
    inr (with_subscriptions (webhook_subscriptions d ++ [Webhook.subscription_row s secret])%list d).
Proof.
  intros Hs [Hfresh Howner]. unfold insert_subscription. rewrite bool_decide_false.
  2: { intros (r & Hr & E)%Exists_exists. rewrite subscription_row_id in E. by eapply (Forall_elem _ _ _ Hfresh); [apply list_elem_of_In|]. }
  rewrite subscription_row_checks, subscription_row_owner by done. cbn [negb].
  destruct (Webhook.SOwner s); [|done]. rewrite bool_decide_false by tauto. done.
Qed.

Lemma insert_kinds_ok {env} id kinds d0 old row st (Q : option StmtError -> TxStateOf Delivery -> Prop) :
  no_faults env -> st_db st = with_subscriptions (old ++ [row]) d0 -> Forall (fun r => ws_id r <> id) old -> ws_id row = id ->
  NoDup (ws_kinds row ++ (Kind_String <$> kinds))%list -> (forall st', Q None st') -> wp env (Webhook.insert_kinds id kinds) Q st.
Proof.
  intros Hok. revert row st. induction kinds as [|k kinds IH]; intros row st Hdb Hold Hid Hnd HQ; cbn [Webhook.insert_kinds].
  - by apply wp_ret.
  - apply wp_bind, (wp_exec_ok Hok). rewrite Hdb. unfold insert_subscription_kind. cbn [webhook_subscriptions with_subscriptions].
    rewrite bool_decide_false.
    2: { intros [(r & Hr & E & _)%Exists_exists|Hr]%Exists_app.
         - by eapply (Forall_elem _ _ _ Hold); [apply list_elem_of_In|].
         - apply Exists_cons in Hr as [[_ Hk]|Hr]; [|by apply Exists_nil in Hr].
           cbn in Hnd. apply list.NoDup_app in Hnd as (_ & Hnd & _). apply (Hnd _ Hk). by left. }
    rewrite bool_decide_true by (apply Exists_app; right; by left). cbn [negb].
    apply (IH (add_kind (Kind_String k) row)); cbn [st_db st_base]; [|done|done| |done].
    + unfold with_subscriptions. cbn. f_equal. rewrite fmap_app. cbn.
      rewrite Hid, String.eqb_refl. f_equal. clear -Hold. induction Hold as [|r old Hr _ IH]; [done|]. cbn.
      destruct (String.eqb_spec (ws_id r) id); [done|]. by f_equal.
    + cbn. by rewrite <- app_assoc.
Qed.

Lemma CreateSubscription_succeeds env d s secret :
  no_faults env -> made_subscription s -> can_subscribe d s ->
  fst (run env d (Webhook.CreateSubscription s secret)) = Webhook.CreateStoreAccepted.
Proof.
  intros Hok Hs Hcan. destruct (wp_run (env := env) (Webhook.CreateSubscription s secret)
    (fun r _ => r = Webhook.CreateStoreAccepted) d) as (st & Hst & _); [|done].
  unfold Webhook.CreateSubscription. apply wp_bind, (wp_begin_ok Hok), wp_bind, (wp_exec_ok Hok). cbn [st_db].
  rewrite insert_subscription_ok by done. apply wp_bind.
  apply (insert_kinds_ok _ _ d (webhook_subscriptions d) (Webhook.subscription_row s secret)); [done|done|apply Hcan|apply subscription_row_id| |].
  - assert (ws_kinds (Webhook.subscription_row s secret) = []) as ->.
    { unfold Webhook.subscription_row. by destruct (Webhook.webhookOwnerColumns _) as [[? ?] ?], (Webhook.webhookAudienceColumns _) as [[? ?] ?]. }
    destruct Hs as [_ [kinds Hk] _]. unfold Webhook.NewKindFilter in Hk. pose proof (dedup_kinds_nodup ∅ kinds) as [Hnd _].
    destruct (Webhook.dedup_kinds ∅ kinds); [done|]. injection Hk as <-. apply NoDup_fmap_2; [|done]. intros x y. apply Kind_String_inj.
  - intros st. by apply wp_bind, (wp_commit_ok Hok), wp_ret.
Qed.

(** Round trip. A subscription created is stored as one new row that reads back as the same
    subscription with its secret, or nothing is stored; and without faults a fresh subscription of
    an existing owner is stored. *)
Theorem CreateSubscription_stores env d s secret :
  made_subscription s ->
  let '(r, d') := run env d (Webhook.CreateSubscription s secret) in
  match r with
  | Webhook.CreateStoreRejected _ => d' = d
  | Webhook.CreateStoreAccepted => exists row, d' = with_subscriptions (webhook_subscriptions d ++ [row])%list d /\
      Webhook.parse_subscription row = Some s /\ ws_secret row = Webhook.Secret_value secret
  end /\ (no_faults env -> can_subscribe d s -> r = Webhook.CreateStoreAccepted).
Proof.
  intros Hs. pose proof (fun Hok => CreateSubscription_succeeds env d s secret Hok Hs) as Hsucc.
  destruct (wp_run (env := env) (Webhook.CreateSubscription s secret) (fun r st =>
    match r with
    | Webhook.CreateStoreRejected _ => st_base st = d
    | Webhook.CreateStoreAccepted => exists row, st_base st = with_subscriptions (webhook_subscriptions d ++ [row])%list d /\
        Webhook.parse_subscription row = Some s /\ ws_secret row = Webhook.Secret_value secret
    end) d) as (st & Hst & Hsnd); [|by destruct (run env d _) as [r d']; cbn in *; subst d'; split].
  unfold Webhook.CreateSubscription. wp_prim. wp_prim; [by apply wp_ret|]. apply wp_bind, wp_exec; [by apply wp_ret|].
  cbn [st_db]. set (row := Webhook.subscription_row s secret). unfold insert_subscription.
  case_bool_decide as Hid; [by apply wp_ret|]. destruct (negb _); [by apply wp_ret|].
  match goal with |- match (if ?b then _ else _) with _ => _ end => destruct b end; [by apply wp_ret|].
  apply wp_bind, (insert_kinds_wp _ _ d (webhook_subscriptions d) row); cbn [st_db st_base]; [done| | |intros err st1 Hb1; by apply wp_ret|].
  - apply List.Forall_forall. intros r Hr E. apply Hid, Exists_exists. exists r. split; [done|]. by rewrite E, <- (subscription_row_id s secret).
  - apply subscription_row_id.
  - intros st1 Hb1 Hd1. wp_prim. wp_prim; [by apply wp_ret|]. apply wp_ret. cbn [st_base]. eexists. split; [exact Hd1|].
    split; [by apply stored_row_parses|]. destruct (with_kinds_columns row (Kind_String <$> Webhook.KindFilter_Values (Webhook.Kinds s)))
      as (_ & _ & _ & _ & _ & -> & _). unfold row, Webhook.subscription_row.
    destruct (Webhook.webhookOwnerColumns _) as [[? ?] ?], (Webhook.webhookAudienceColumns _) as [[? ?] ?]. done.
Qed.
(** ** Owners *)

(** The owner columns as the table's CHECK has them. *)
Definition owner_columns_ok (row : SubscriptionRow) : Prop :=
  match ws_owner_user_id row, ws_owner_organization_id row with
  | Some _, None => ws_owner_kind row = "user"
  | None, Some _ => ws_owner_kind row = "organization"
  | _, _ => False
  end.

Lemma owned_parses owner row :
  owner_columns_ok row -> Webhook.webhookOwnerPredicate owner row = true -> Webhook.parse_owner row = Some owner.
Proof.
  unfold owner_columns_ok, Webhook.webhookOwnerPredicate, Webhook.parse_owner.
  destruct (ws_owner_user_id row) as [user|], (ws_owner_organization_id row) as [organization|]; try done; intros ->;
    destruct owner as [id|id]; cbn; try done; intros ->%String.eqb_eq; cbv [mbind option_bind]; by rewrite parsed_id_String.
Qed.

Lemma parse_subscription_owner row s : Webhook.parse_subscription row = Some s -> Webhook.parse_owner row = Some (Webhook.SOwner s).
Proof.
  intros Hs. unfold Webhook.parse_subscription in Hs. apply bind_Some in Hs as (id & _ & Hs). apply bind_Some in Hs as (owner & Ho & Hs).
  repeat (apply bind_Some in Hs as (? & _ & Hs)). by injection Hs as <-.
Qed.

Lemma scan_subscriptions_wp {env} rows values st (Q : Webhook.ListStoreResult -> TxStateOf Delivery -> Prop) :
  (forall reason st', st_base st' = st_base st -> Q (Webhook.ListStoreRejected reason) st') ->
  (forall more st', st_base st' = st_base st -> mapM Webhook.parse_subscription rows = Some more ->
     Q (Webhook.ListStoreListed (values ++ more)%list) st') ->
  wp env (Webhook.scan_subscriptions rows values) Q st.
Proof.
  revert values st. induction rows as [|row rows IH]; intros values st Hf HQ; cbn [Webhook.scan_subscriptions].
  - wp_prim. wp_prim; apply wp_ret; [by apply Hf|]. rewrite <- (app_nil_r values). by apply HQ.
  - apply wp_bind. unfold Webhook.scanWebhookSubscription. apply wp_bind, wp_fault_point. intros [].
    { apply wp_ret, wp_ret. by apply Hf. }
    apply wp_ret. destruct (Webhook.parse_subscription row) as [s|] eqn:Hs; [|apply wp_ret; by apply Hf].
    apply IH; [done|]. intros more st' Hb Hm. rewrite <- app_assoc. apply HQ; [done|]. cbn [app].
    apply mapM_Some. constructor; [done|]. by apply mapM_Some.
Qed.

(** Safety. A listing shows only subscriptions of the owner who asks, and changes nothing. *)
Theorem ListSubscriptions_only_the_owners env d owner page :
  Forall owner_columns_ok (webhook_subscriptions d) ->
  let '(r, d') := run env d (Webhook.ListSubscriptions owner page) in
  d' = d /\ match r with
             | Webhook.ListStoreListed values => Forall (fun s => Webhook.SOwner s = owner) values
             | Webhook.ListStoreRejected _ => True
             end.
Proof.
  intros Hok. destruct (wp_run (env := env) (Webhook.ListSubscriptions owner page) (fun r st => st_base st = d /\
    match r with Webhook.ListStoreListed values => Forall (fun s => Webhook.SOwner s = owner) values | Webhook.ListStoreRejected _ => True end) d)
    as (st & Hst & Hsnd); [|by destruct (run env d _) as [r d']; cbn in *; subst d'].
  unfold Webhook.ListSubscriptions. apply wp_bind, wp_pool_query; [by apply wp_ret|]. cbn [tick st_base].
  apply scan_subscriptions_wp; cbn [tick st_base]; [done|]. intros more st' Hb Hm. split; [done|]. cbn [app].
  apply mapM_Some in Hm. apply List.Forall_forall. intros s Hs%list_elem_of_In. apply list_elem_of_lookup in Hs as [i Hi].
  destruct (Forall2_lookup_r _ _ _ _ _ Hm Hi) as (row & Hrow & Hparse). apply list_elem_of_lookup_2 in Hrow.
  unfold Notification.sql_page, Pagination.sql_page in Hrow. apply elem_of_take in Hrow as (j & Hj & _). apply list_elem_of_lookup_2 in Hj.
  eapply elem_of_sublist in Hj; [|apply sublist_drop]. rewrite merge_sort_Permutation in Hj.
  apply list_elem_of_filter in Hj as [Ho Hrow]. apply parse_subscription_owner in Hparse.
  rewrite (owned_parses owner row) in Hparse; [by injection Hparse|exact (Forall_elem _ _ _ Hok Hrow)|by apply Is_true_eq_true].
Qed.

Lemma filter_none {A} (hit : A -> bool) l : (forall x, x ∈ l -> hit x = false) -> filter (fun x => hit x) l = [].
Proof.
  intros Hl. induction l as [|x l IH]; [done|]. rewrite filter_cons_False; [apply IH; intros y Hy; apply Hl; by right|].
  rewrite Hl; [by intros []|by left].
Qed.

Lemma change_none {A} (hit : A -> bool) f (l : list A) :
  (forall x, x ∈ l -> hit x = false) -> (fun x => if hit x then f x else x) <$> l = l.
Proof.
  intros Hl. induction l as [|x l IH]; [done|]. cbn. rewrite Hl by (by left). f_equal. apply IH. intros y Hy. apply Hl. by right.
Qed.

Lemma with_subscriptions_same d : with_subscriptions (webhook_subscriptions d) d = d.
Proof. by destruct d. Qed.

(** Error behaviour. To anyone but its owner a subscription is out of reach: revoking it and
    listing its deliveries are rejected and change nothing. *)
Theorem foreign_subscriptions_are_out_of_reach env d owner id page :
  (forall row, row ∈ webhook_subscriptions d -> ws_id row = TypedID_String id -> Webhook.webhookOwnerPredicate owner row = false) ->
  (exists reason, run env d (Webhook.RevokeSubscription owner id) = (Webhook.RevokeStoreRejected reason, d)) /\
  (exists reason, run env d (Webhook.ListDeliveries owner id page) = (Webhook.ListDeliveriesStoreRejected reason, d)).
Proof.
  intros Hforeign.
  assert (forall s, s ∈ webhook_subscriptions d -> String.eqb (ws_id s) (TypedID_String id) && Webhook.webhookOwnerPredicate owner s = false) as Hnone.
  { intros s Hs. destruct (String.eqb_spec (ws_id s) (TypedID_String id)) as [E|]; [|done]. by rewrite (Hforeign s Hs E). }
  assert (forall s, s ∈ webhook_subscriptions d -> Webhook.revocable owner id s = false) as Hrevocable.
  { intros s Hs. specialize (Hnone s Hs). unfold Webhook.revocable. destruct (String.eqb (ws_id s) _), (String.eqb (ws_state s) _); done. }
  split.
  - destruct (wp_run (env := env) (Webhook.RevokeSubscription owner id) (fun r st => (exists reason, r = Webhook.RevokeStoreRejected reason) /\
      st_base st = d) d) as (st & [[reason Hr] Hb] & Hsnd).
    + unfold Webhook.RevokeSubscription. apply wp_bind, wp_autocommit; [apply wp_ret; eauto|]. unfold Webhook.revoke_rows. cbn [st_base].
      rewrite (filter_none (Webhook.revocable owner id)), (change_none (Webhook.revocable owner id)), with_subscriptions_same by done.
      cbn [length]. apply wp_ret. eauto.
    + exists reason. destruct (run env d _) as [r d']. cbn in *. congruence.
  - destruct (wp_run (env := env) (Webhook.ListDeliveries owner id page) (fun r st => (exists reason, r = Webhook.ListDeliveriesStoreRejected reason) /\
      st_base st = d) d) as (st & [[reason Hr] Hb] & Hsnd).
    + unfold Webhook.ListDeliveries. apply wp_bind, wp_pool_query; [apply wp_ret; eauto|]. cbn [tick st_base].
      rewrite (filter_none (fun s => String.eqb (ws_id s) (TypedID_String id) && Webhook.webhookOwnerPredicate owner s)) by done.
      cbn [length]. apply wp_ret. eauto.
    + exists reason. destruct (run env d _) as [r d']. cbn in *. congruence.
Qed.
End ReadBack.

(** ** Revocation *)

Section Revoked.
Context `{UUIDLaws, JSONB}.

(** A step of the system that leaves the subscriptions as they are. *)
Definition steady_step (s s' : System) : Prop :=
  sys_step s s' /\ webhook_subscriptions (sys_db s') = webhook_subscriptions (sys_db s).

Lemma row_added_revoked id d d' w :
  rtc row_added d d' -> ~ subscribed id d -> w ∈ webhook_deliveries d' -> wd_subscription_id w = id ->
  w ∈ webhook_deliveries d.
Proof.
  induction 1 as [|d1 d2 d3 Hd _ IH]; [done|]. intros Hns Hw Hid.
  destruct Hd as [d1 d2 E Es|v d1 d2 _ _ Hsub E Es].
  - rewrite <- E. apply IH; [|done..]. intros (sub & Hin & ?). apply Hns. exists sub. by rewrite <- Es.
  - assert (w ∈ webhook_deliveries d2) as Hin.
    { apply IH; [|done..]. intros (sub & Hin & ?). apply Hns. exists sub. by rewrite <- Es. }
    rewrite E in Hin. apply elem_of_cons in Hin as [->|]; [|done]. by rewrite Hid in Hsub.
Qed.

(** Safety. While a subscription is revoked, commands, dispatches and sweeps give it no new
    delivery (those it already had remain and are still sent). *)
Theorem revoked_subscriptions_get_no_deliveries s s' id w :
  rtc steady_step s s' -> system_ok s -> ~ subscribed id (sys_db s) ->
  w ∈ webhook_deliveries (sys_db s') -> wd_subscription_id w = id -> w ∈ webhook_deliveries (sys_db s).
Proof.
  intros Hs. induction Hs as [s|s1 s2 s3 [Hstep Hsubs] _ IH]; [done|]. intros Hok Hns Hw Hid.
  assert (w ∈ webhook_deliveries (sys_db s2)) as Hin.
  { apply IH; [by eapply step_ok| |done..]. intros (sub & Hin & ?). apply Hns. exists sub. by rewrite <- Hsubs. }
  destruct (sys_step_adds _ _ Hstep (system_delivery _ Hok)) as (d & Hd & E & _). rewrite E in Hin.
  by eapply row_added_revoked.
Qed.
End Revoked.
