(* ===== verification/SubmissionStore.v ===== *)
(** * Submissions: values, tables and store

    Models [internal/submission/models.go], [values.go], [store_results.go] and the
    comment of [submission_comments.go] (Module [Submission]), and
    [internal/db/submission_store.go], [submission_row_parse.go] and
    [submission_comments_store.go] (Module [Submissions]).  A [Desk] is the gallery's
    database with what the submission store keeps beside the row of [submissions] that
    the ledger reads: the response and its time, receipt tokens, validation errors,
    sensitive fields, attachments and comments. *)

From Stdlib Require Import Ascii.
From S2P Require Import Prelude.
From S2P Require Import Core.
From S2P Require Import Auth.
From S2P Require Import Events.
From S2P Require Import Json.
From S2P Require Import Calendar.
From S2P Require Import Attachments.
From S2P Require Import TaskValues.
From S2P Require Import LedgerValues.
From S2P Require Import TaskWork.
From S2P Require Import Database.
From S2P Require Import Tx.
From S2P Require Import Outbox.
From S2P Require Import LedgerHelpers.
From S2P Require Import LedgerStore.
From S2P Require Import DeliveryDB.
From S2P Require Import TaskDB.
From S2P Require Import TaskRows.
From S2P Require Import TaskStore.
From S2P Require Import CatalogStore.
From S2P Require Import WebhookWire.

Local Open Scope string_scope.
Local Open Scope Z_scope.

Module Submission.

(** ** [models.go] *)

Inductive State :=
| StateSubmitted | StateInvalid | StateAccepted | StateRejected | StateChangesRequested | StateSuperseded.

#[global] Instance State_eq_dec : EqDecision State.
Proof. solve_decision. Defined.

Definition State_String (state : State) : string :=
  match state with
  | StateSubmitted => "submitted"
  | StateInvalid => "invalid"
  | StateAccepted => "accepted"
  | StateRejected => "rejected"
  | StateChangesRequested => "changes_requested"
  | StateSuperseded => "superseded"
  end.

Inductive StateResult := StateParsed (Value : State) | StateParseRejected (Reason : DomainError).

Definition allStates : list State :=
  [StateSubmitted; StateInvalid; StateAccepted; StateRejected; StateChangesRequested; StateSuperseded].

Definition ParseState (raw : string) : StateResult :=
  switch raw ((fun state => (State_String state, StateParsed state)) <$> allStates)
    (StateParseRejected (invalid_enum "submission state is invalid")).

#[global] Instance StateResult_outcome : Outcome StateResult State := fun result =>
  match result with StateParsed value => inr value | StateParseRejected reason => inl reason end.

Record ValidationError := MkValidationError { Error_Path : string; Error_Message : string }.

Inductive ValidationOutcome := ValidationPassed | ValidationFailed (Errors : list ValidationError).

Definition StateForValidation (outcome : ValidationOutcome) : State :=
  match outcome with ValidationPassed => StateSubmitted | ValidationFailed _ => StateInvalid end.

Record SensitiveField := MkSensitiveField {
  Field_Path : string;
  Field_Category : string;
  Field_Retention : string;
  Field_Redaction : string;
  Field_State : string;
  Field_RedactedAt : string
}.

(** ** [values.go] *)

Record ResponseSource := MkResponseSource { ResponseSource_value : string }.

Inductive ResponseSourceResult := ResponseSourceAccepted (Value : ResponseSource) | ResponseSourceRejected (Reason : DomainError).

Definition NewResponseSource (raw : string) : ResponseSourceResult :=
  let trimmed := TrimSpace raw in
  if String.eqb trimmed "" then ResponseSourceRejected (invalid_argument "submission response JSON is required")
  else ResponseSourceAccepted (MkResponseSource trimmed).

#[global] Instance ResponseSourceResult_outcome : Outcome ResponseSourceResult ResponseSource := fun result =>
  match result with ResponseSourceAccepted value => inr value | ResponseSourceRejected reason => inl reason end.

Record ReceiptTokenPlain := MkReceiptTokenPlain { ReceiptTokenPlain_value : string }.
Record ReceiptTokenHash := MkReceiptTokenHash { ReceiptTokenHash_value : string }.

Inductive ReceiptTokenPlainResult :=
| ReceiptTokenPlainAccepted (Value : ReceiptTokenPlain)
| ReceiptTokenPlainRejected (Reason : DomainError).

(** [base64.RawURLEncoding]: the standard encoding without its padding, ["-"] and ["_"]
    in place of ["+"] and ["/"]. *)
Definition url_char (c : ascii) : ascii :=
  if Ascii.eqb c "+"%char then "-"%char else if Ascii.eqb c "/"%char then "_"%char else c.

Definition RawURLEncoding_EncodeToString (content : list Z) : string :=
  of_bytes (url_char <$> List.filter (fun c => negb (Ascii.eqb c "="%char)) (base64_encode content)).

(** The character the standard alphabet has for one of the URL alphabet. *)
Definition std_char (c : ascii) : option ascii :=
  if Ascii.eqb c "-"%char then Some "+"%char
  else if Ascii.eqb c "_"%char then Some "/"%char
  else if Ascii.eqb c "+"%char || Ascii.eqb c "/"%char || Ascii.eqb c "="%char then None
  else Some c.

(** The padding the text would have. *)
Definition padding (n : nat) : bytes := match (n mod 4)%nat with 2%nat => ["="%char; "="%char] | 3%nat => ["="%char] | _ => [] end.

Definition RawURLEncoding_DecodeString (encoded : string) : option (list Z) :=
  chars ← mapM std_char (List.filter (fun c => negb (is_line_break c)) (to_bytes encoded));
  decode_quanta (chars ++ padding (length chars))%list.

(** [random] is what [rand.Read] of 32 bytes gave: the bytes read, or its error. *)
Definition NewReceiptTokenPlain (random : option (list Z)) : ReceiptTokenPlainResult :=
  match random with
  | None => ReceiptTokenPlainRejected (invalid_state "generate submission receipt token failed")
  | Some bytes =>
      if negb (length bytes =? 32)%nat then ReceiptTokenPlainRejected (invalid_state "generate submission receipt token was short")
      else ReceiptTokenPlainAccepted (MkReceiptTokenPlain (RawURLEncoding_EncodeToString bytes))
  end.

Definition ParseReceiptTokenPlain (raw : string) : ReceiptTokenPlainResult :=
  if String.eqb raw "" then ReceiptTokenPlainRejected (invalid_argument "submission receipt token is required")
  else match RawURLEncoding_DecodeString raw with
       | None => ReceiptTokenPlainRejected (invalid_argument "submission receipt token is invalid")
       | Some _ => ReceiptTokenPlainAccepted (MkReceiptTokenPlain raw)
       end.

(** [ReceiptTokenPlain.Hash] *)
Definition Hash (token : ReceiptTokenPlain) : ReceiptTokenHash :=
  MkReceiptTokenHash (hex_EncodeToString (Sum256 (bytes_of (ReceiptTokenPlain_value token)))).

Definition ReceiptTokenHashFromString (raw : string) : ReceiptTokenHash := MkReceiptTokenHash raw.

(** ** The submission and its comments *)

Record Submission := MkSubmission {
  ID : SubmissionID;
  TaskID_ : TaskID;
  SubmitterID : UserID;
  SubmitterDisplayName : DisplayName;
  State_ : State;
  Source : ResponseSource;
  Attachments : list Attachment.Attachment;
  Validation : ValidationOutcome;
  SensitiveFields : list SensitiveField;
  Note : ReviewNote;
  CreatedAt : Z
}.

Definition set_Source (source : ResponseSource) (s : Submission) : Submission :=
  MkSubmission (ID s) (TaskID_ s) (SubmitterID s) (SubmitterDisplayName s) (State_ s) source (Attachments s)
    (Validation s) (SensitiveFields s) (Note s) (CreatedAt s).

(** [task.CommentBody] of [series_model.go] *)
Record CommentBody := MkCommentBody { CommentBody_value : string }.

Inductive CommentBodyResult := CommentBodyAccepted (Value : CommentBody) | CommentBodyRejected (Reason : DomainError).

Definition NewCommentBody : string -> CommentBodyResult :=
  Task.required_text 4000 "comment body is required" "comment body is too long"
    (fun s => CommentBodyAccepted (MkCommentBody s)) CommentBodyRejected.

#[global] Instance CommentBodyResult_outcome : Outcome CommentBodyResult CommentBody := fun result =>
  match result with CommentBodyAccepted value => inr value | CommentBodyRejected reason => inl reason end.

Record SubmissionComment := MkSubmissionComment {
  Comment_ID : SubmissionCommentID;
  Comment_SubmissionID : SubmissionID;
  Comment_AuthorID : UserID;
  Comment_AuthorDisplayName : DisplayName;
  Comment_Body : CommentBody;
  Comment_CreatedAt : Z
}.

End Submission.

Module Submissions.
Export Gallery.

(** ** Tables *)

(** The columns of [submissions] that the ledger does not read. *)
Record SubmissionColumns := MkSubmissionColumns { sc_response_json : string; sc_created_at : Z }.

Record ReceiptRow := MkReceiptRow { rt_submission_id : string; rt_token_hash : string }.

Record ErrorRow := MkErrorRow { er_submission_id : string; er_index : Z; er_path : string; er_message : string }.

Record SensitiveRow := MkSensitiveRow {
  sf_submission_id : string;
  sf_index : Z;
  sf_path : string;
  sf_category : string;
  sf_retention : string;
  sf_redaction : string;
  sf_state : string;
  sf_redacted_at : option Z
}.

Record AttachedRow := MkAttachedRow {
  sa_submission_id : string;
  sa_index : Z;
  sa_filename : string;
  sa_content_type : string;
  sa_content : list Z
}.

Record CommentRow := MkCommentRow { co_submission_id : string; co_author_user_id : string; co_body : string; co_created_at : Z }.

Record Desk := MkDesk {
  gallery : Gallery;
  submission_columns : gmap string SubmissionColumns;
  receipt_tokens : gmap string ReceiptRow;
  validation_errors : list ErrorRow;
  sensitive_fields : list SensitiveRow;
  submission_attachments : list AttachedRow;
  submission_comments : gmap string CommentRow
}.

Definition with_gallery (g : Gallery) (k : Desk) : Desk :=
  MkDesk g (submission_columns k) (receipt_tokens k) (validation_errors k) (sensitive_fields k)
    (submission_attachments k) (submission_comments k).
Definition with_submission_columns (c : gmap string SubmissionColumns) (k : Desk) : Desk :=
  MkDesk (gallery k) c (receipt_tokens k) (validation_errors k) (sensitive_fields k) (submission_attachments k) (submission_comments k).
Definition with_receipts (r : gmap string ReceiptRow) (k : Desk) : Desk :=
  MkDesk (gallery k) (submission_columns k) r (validation_errors k) (sensitive_fields k) (submission_attachments k) (submission_comments k).
Definition with_errors (e : list ErrorRow) (k : Desk) : Desk :=
  MkDesk (gallery k) (submission_columns k) (receipt_tokens k) e (sensitive_fields k) (submission_attachments k) (submission_comments k).
Definition with_sensitive (s : list SensitiveRow) (k : Desk) : Desk :=
  MkDesk (gallery k) (submission_columns k) (receipt_tokens k) (validation_errors k) s (submission_attachments k) (submission_comments k).
Definition with_attached (a : list AttachedRow) (k : Desk) : Desk :=
  MkDesk (gallery k) (submission_columns k) (receipt_tokens k) (validation_errors k) (sensitive_fields k) a (submission_comments k).
Definition with_comments (c : gmap string CommentRow) (k : Desk) : Desk :=
  MkDesk (gallery k) (submission_columns k) (receipt_tokens k) (validation_errors k) (sensitive_fields k) (submission_attachments k) c.

Definition desk_market (k : Desk) : Market := market (gallery k).
Definition desk_tables (k : Desk) : DB := tables (desk_market k).
Definition with_desk_market (m : Market) (k : Desk) : Desk := with_gallery (with_market m (gallery k)) k.
Definition with_desk_tables (d : DB) (k : Desk) : Desk := with_desk_market (with_tables d (desk_market k)) k.

(** A computation over the gallery's database, and over the ledger's tables. *)
Definition on_gallery {A} (m : MOf Gallery A) : MOf Desk A := fun env st =>
  let '(a, st') := m env (MkTxState (gallery (st_base st)) (gallery (st_db st)) (st_step st)) in
  (a, MkTxState (with_gallery (st_base st') (st_base st)) (with_gallery (st_db st') (st_db st)) (st_step st')).

Definition on_desk_market {A} (m : MOf Market A) : MOf Desk A := on_gallery (on_market m).
Definition on_desk_tables {A} (now : Z) (m : M A) : MOf Desk A := on_desk_market (on_tables now m).

(** ** The surroundings of the submission store and service *)

(** The identifier generators, [crypto/rand], and the texts of the aggregates over
    validation errors and sensitive fields. *)
Class SubmissionWorld := {
  new_submission_id : nat -> TypedIDResult KSubmission;
  new_receipt_id : nat -> TypedIDResult KSubmissionReceiptToken;
  new_submission_comment_id : nat -> TypedIDResult KSubmissionComment;
  random_bytes : nat -> option (list Z);
  errors_json : list ErrorRow -> string;
  sensitive_json : list (SensitiveRow * string) -> string    (* with the text of [redacted_at] *)
}.

(** ** Constrained writes *)

Definition submission_states : list string := Submission.State_String <$> Submission.allStates.

Section Writes.
Context `{World}.

(** [insert into submissions], with the [::jsonb] cast of the response. *)
Definition insert_submission (id : string) (row : SubmissionRow) (response : string) (now : Z) (k : Desk) : StmtError + Desk :=
  let d := desk_tables k in
  match jsonb response with
  | None => inl ErrOther
  | Some stored =>
      if negb (bool_decide (sub_state row ∈ submission_states)) then inl ErrOther
      else if negb (bool_decide (is_Some (tasks d !! sub_task_id row)) && is_set (sub_user_id row) &&
                    references_user (sub_user_id row) (desk_market k)) then inl ErrOther
      else if bool_decide (is_Some (submissions d !! id)) then inl ErrUniqueViolation
      else inr (with_submission_columns (<[id := MkSubmissionColumns stored now]> (submission_columns k))
             (with_desk_tables (with_submissions (<[id := row]> (submissions d)) d) k))
  end.

Definition submission_exists (id : string) (k : Desk) : bool := bool_decide (is_Some (submissions (desk_tables k) !! id)).

(** [insert into submission_receipt_tokens]: the hash is unique. *)
Definition insert_receipt (id : string) (row : ReceiptRow) (k : Desk) : StmtError + Desk :=
  if negb (submission_exists (rt_submission_id row) k) then inl ErrOther
  else if bool_decide (is_Some (receipt_tokens k !! id)) then inl ErrUniqueViolation
  else if bool_decide (map_Exists (fun _ other => rt_token_hash other = rt_token_hash row) (receipt_tokens k)) then inl ErrUniqueViolation
  else inr (with_receipts (<[id := row]> (receipt_tokens k)) k).

Definition index_ok (index : Z) : bool := (0 <=? index) && in_int32 index.

(** [insert into submission_validation_errors]: rows are kept in the order of insertion. *)
Definition insert_error (row : ErrorRow) (k : Desk) : StmtError + Desk :=
  if negb (index_ok (er_index row)) then inl ErrOther
  else if negb (submission_exists (er_submission_id row) k) then inl ErrOther
  else if bool_decide (Exists (fun other => er_submission_id other = er_submission_id row /\ er_index other = er_index row)
            (validation_errors k)) then inl ErrUniqueViolation
  else inr (with_errors (validation_errors k ++ [row])%list k).

(** [insert into submission_sensitive_fields] *)
Definition insert_sensitive (row : SensitiveRow) (k : Desk) : StmtError + Desk :=
  if negb (index_ok (sf_index row) && bool_decide (sf_category row ∈ ["pii"; "secret"]) &&
           bool_decide (sf_retention row ∈ ["standard"; "delete_on_request"]) &&
           bool_decide (sf_redaction row ∈ ["replace"; "remove"]) && bool_decide (sf_state row ∈ ["active"; "redacted"])) then inl ErrOther
  else if negb (submission_exists (sf_submission_id row) k) then inl ErrOther
  else if bool_decide (Exists (fun other => sf_submission_id other = sf_submission_id row /\ sf_index other = sf_index row)
            (sensitive_fields k)) then inl ErrUniqueViolation
  else inr (with_sensitive (sensitive_fields k ++ [row])%list k).

(** [insert into submission_attachments] *)
Definition insert_attached (row : AttachedRow) (k : Desk) : StmtError + Desk :=
  if negb (index_ok (sa_index row) && (0 <? Z.of_nat (length (sa_content row))) &&
           (Z.of_nat (length (sa_content row)) <=? 512000) &&
           bool_decide (sa_content_type row ∈ stored_content_types)) then inl ErrOther
  else if negb (submission_exists (sa_submission_id row) k) then inl ErrOther
  else if bool_decide (Exists (fun other => sa_submission_id other = sa_submission_id row /\ sa_index other = sa_index row)
            (submission_attachments k)) then inl ErrUniqueViolation
  else inr (with_attached (submission_attachments k ++ [row])%list k).

(** [insert into submission_comments] *)
Definition insert_comment (id : string) (row : CommentRow) (k : Desk) : StmtError + Desk :=
  if negb (submission_exists (co_submission_id row) k && bool_decide (co_author_user_id row ∈ users (desk_tables k))) then inl ErrOther
  else if bool_decide (is_Some (submission_comments k !! id)) then inl ErrUniqueViolation
  else inr (with_comments (<[id := row]> (submission_comments k)) k).

(** [update task_reservations set state = 'submitted' ...] *)
Definition submit_reservation (task user : string) (k : Desk) : StmtError + Desk :=
  match update_reservations (worker_reservation task user ["active"]) "submitted" (desk_tables k) with
  | inl err => inl err
  | inr d => inr (with_desk_tables d k)
  end.
End Writes.

(** ** Rows of a select *)

(** [submissionSelectSQL] as scanned by [scanSubmissionRow]. *)
Record submissionSQLRow := MkSubmissionSQLRow {
  s_id : string; s_taskID : string; s_userID : string; s_submitterName : string; s_state : string; s_response : string;
  s_reviewNote : string; s_validationErrors : string; s_sensitiveFields : string; s_attachments : string; s_createdAt : string
}.

Definition by_error_index (a b : ErrorRow) : Prop := er_index a <= er_index b.
Definition by_sensitive_index (a b : SensitiveRow) : Prop := sf_index a <= sf_index b.
Definition by_attached_index (a b : AttachedRow) : Prop := sa_index a <= sa_index b.

#[global] Instance by_error_index_dec a b : Decision (by_error_index a b).
Proof. unfold by_error_index. apply _. Defined.
#[global] Instance by_sensitive_index_dec a b : Decision (by_sensitive_index a b).
Proof. unfold by_sensitive_index. apply _. Defined.
#[global] Instance by_attached_index_dec a b : Decision (by_attached_index a b).
Proof. unfold by_attached_index. apply _. Defined.

Definition errors_of (id : string) (k : Desk) : list ErrorRow :=
  merge_sort by_error_index (filter (fun row => er_submission_id row = id) (validation_errors k)).
Definition sensitive_of (id : string) (k : Desk) : list SensitiveRow :=
  merge_sort by_sensitive_index (filter (fun row => sf_submission_id row = id) (sensitive_fields k)).
Definition attached_of (id : string) (k : Desk) : list AttachedRow :=
  merge_sort by_attached_index (filter (fun row => sa_submission_id row = id) (submission_attachments k)).

(** [coalesce(jsonb_agg(...), '[]')] *)
Definition aggregate {A} (text : list A -> string) (rows : list A) : string := match rows with [] => "[]" | _ => text rows end.

(** [coalesce(to_char(redacted_at at time zone 'UTC', ...), '')] *)
Definition redacted_text (row : SensitiveRow) : string := match sf_redacted_at row with Some instant => to_char_utc instant | None => "" end.

Section Store.
Context `{UUIDLib, World, SubmissionWorld}.

Definition submission_sql_row (k : Desk) (id : string) : option submissionSQLRow :=
  row ← submissions (desk_tables k) !! id;
  columns ← submission_columns k !! id;
  user ← sub_user_id row;
  profile ← profiles (desk_market k) !! user;
  Some (MkSubmissionSQLRow id (sub_task_id row) user (displayNameSQL profile) (sub_state row) (sc_response_json columns)
    (sub_review_note row)
    (aggregate errors_json (errors_of id k))
    (aggregate (fun rows => sensitive_json ((fun row => (row, redacted_text row)) <$> rows)) (sensitive_of id k))
    (aggregate (fun rows => attachments_json ((fun row => (sa_filename row, sa_content_type row, sa_content row)) <$> rows)) (attached_of id k))
    (to_char_utc (sc_created_at columns))).

(** *** [submission_row_parse.go] *)

(** [json.Unmarshal] of an array of objects into a slice of structs of strings: a member
    sets the field whose name it has, letters of either case; [null] sets nothing. *)
Definition unmarshal_member {A} (setters : list (string * (string -> A -> A))) (value : A) (member : bytes * JSON) : option A :=
  let key := of_bytes (Attachment.lower_byte <$> member.1) in
  match list_find (fun entry : string * (string -> A -> A) => entry.1 = key) setters with
  | None => Some value
  | Some (_, (_, set)) =>
      match member.2 with
      | JString text => Some (set (of_bytes text) value)
      | JNull => Some value
      | _ => None
      end
  end.

Definition unmarshal_struct {A} (setters : list (string * (string -> A -> A))) (zero : A) (item : JSON) : option A :=
  match item with
  | JObject members => foldl (fun value member => value ← value; unmarshal_member setters value member) (Some zero) members
  | JNull => Some zero
  | _ => None
  end.

Definition unmarshal_slice {A} (setters : list (string * (string -> A -> A))) (zero : A) (raw : string) : option (list A) :=
  document ← json_document (to_bytes raw);
  match document with
  | JArray items => mapM (unmarshal_struct setters zero) items
  | JNull => Some []
  | _ => None
  end.

Definition validationErrorDTO_fields : list (string * (string -> Submission.ValidationError -> Submission.ValidationError)) :=
  [ ("path", fun v e => Submission.MkValidationError v (Submission.Error_Message e));
    ("message", fun v e => Submission.MkValidationError (Submission.Error_Path e) v) ].

Definition sensitiveFieldDTO_fields : list (string * (string -> Submission.SensitiveField -> Submission.SensitiveField)) :=
  let make p c t r s a := Submission.MkSensitiveField p c t r s a in
  let path := Submission.Field_Path in let category := Submission.Field_Category in let retention := Submission.Field_Retention in
  let redaction := Submission.Field_Redaction in let state := Submission.Field_State in let at_ := Submission.Field_RedactedAt in
  [ ("path", fun v f => make v (category f) (retention f) (redaction f) (state f) (at_ f));
    ("category", fun v f => make (path f) v (retention f) (redaction f) (state f) (at_ f));
    ("retention", fun v f => make (path f) (category f) v (redaction f) (state f) (at_ f));
    ("redaction", fun v f => make (path f) (category f) (retention f) v (state f) (at_ f));
    ("state", fun v f => make (path f) (category f) (retention f) (redaction f) v (at_ f));
    ("redacted_at", fun v f => make (path f) (category f) (retention f) (redaction f) (state f) v) ].

Definition parseValidationOutcome (raw : string) : DomainError + Submission.ValidationOutcome :=
  values ← required (invalid_state "submission validation errors are invalid")
    (unmarshal_slice validationErrorDTO_fields (Submission.MkValidationError "" "") raw);
  inr (match values with [] => Submission.ValidationPassed | _ => Submission.ValidationFailed values end).

Definition parseSensitiveFields (raw : string) : DomainError + list Submission.SensitiveField :=
  required (invalid_state "submission sensitive fields are invalid")
    (unmarshal_slice sensitiveFieldDTO_fields (Submission.MkSensitiveField "" "" "" "" "" "") raw).

Definition storedNote (raw : string) : DomainError + ReviewNote :=
  match NewStoredReviewNote raw with ReviewNoteAccepted note => inr note | ReviewNoteRejected reason => inl reason end.

Definition parseSubmissionRow (row : submissionSQLRow) : DomainError + Submission.Submission :=
  submissionID ← outcome (ParseSubmissionID (s_id row));
  taskID ← outcome (ParseTaskID (s_taskID row));
  submitterID ← outcome (ParseUserID (s_userID row));
  state ← outcome (Submission.ParseState (s_state row));
  source ← outcome (Submission.NewResponseSource (s_response row));
  outcome_ ← parseValidationOutcome (s_validationErrors row);
  sensitiveFields ← parseSensitiveFields (s_sensitiveFields row);
  note ← storedNote (s_reviewNote row);
  attachments ← parseStoredAttachments (s_attachments row);
  submitterName ← outcome (NewDisplayName (s_submitterName row));
  createdAt ← required (invalid_state "submission created_at is invalid") (time_Parse_RFC3339 (s_createdAt row));
  inr (Submission.MkSubmission submissionID taskID submitterID submitterName state source attachments outcome_ sensitiveFields
    note createdAt).

(** ** Commands and results of [service.go] and [store_results.go] *)

Record SubmitCommand := MkSubmitCommand {
  submit_TaskID : TaskID;
  submit_SubmitterID : UserID;
  submit_ResponseSource : Submission.ResponseSource;
  submit_Attachments : list Attachment.Attachment;
  submit_Budget : Work.WorkBudgetCharge;
  submit_Draft : Draft
}.

Inductive CreateSubmissionStoreResult :=
| CreateSubmissionStoreAccepted (Value : Submission.Submission)
| CreateSubmissionStoreRejected (Reason : DomainError).
Inductive FindReceiptStoreResult := ReceiptFound (Value : Submission.Submission) | ReceiptMissing (Reason : DomainError).
Inductive FindSubmissionStoreResult :=
| FindSubmissionStoreAccepted (Value : Submission.Submission)
| FindSubmissionStoreRejected (Reason : DomainError).
Inductive ListSubmissionsStoreResult :=
| ListSubmissionsStoreAccepted (Values : list Submission.Submission) (Total : Z)
| ListSubmissionsStoreRejected (Reason : DomainError).
Inductive CreateSubmissionCommentStoreResult :=
| CreateSubmissionCommentStoreAccepted (Value : Submission.SubmissionComment)
| CreateSubmissionCommentStoreRejected (Reason : DomainError).
Inductive ListSubmissionCommentsStoreResult :=
| ListSubmissionCommentsStoreAccepted (Values : list Submission.SubmissionComment)
| ListSubmissionCommentsStoreRejected (Reason : DomainError).

(** ** Creation *)

Definition desk_time : MOf Desk Z := fun _ st => (server_now (st_step st), st).

(** [fetchUserDisplayName], in the transaction or on the pool. *)
Definition fetchUserDisplayName (query : (Desk -> StmtError + string) -> MOf Desk (StmtError + string)) (userID : UserID) :
    MOf Desk (DomainError + DisplayName) :=
  let* raw := query (fun k => profile ← required ErrNoRows (profiles (desk_market k) !! TypedID_String userID); inr (displayNameSQL profile))
  else fun _ => inl (invalid_state "read user display name failed") in
  mret (outcome (NewDisplayName raw)).

Definition consumeSubmissionBudget (now : Z) (credentialID : AgentCredentialID) (limit : Z) : MOf Desk (option DomainError) :=
  let* _ := query_row (fun k => if bool_decide (TypedID_String credentialID ∈ agent_credentials (desk_tables k)) then inr tt else inl ErrNoRows)
  else fun _ => Some (invalid_state "lock agent credential for submission budget failed") in
  on_desk_market (Tasks.charge_daily_task now (TypedID_String credentialID) limit).

(** The charge of a budgeted submission; a refusal is counted outside the transaction. *)
Definition charge_submission (now : Z) (budget : Work.WorkBudgetCharge) : MOf Desk (option DomainError) :=
  match budget with
  | Work.NoWorkBudgetCharge => mret None
  | Work.ChargeDailyTaskBudget credentialID limit =>
      problem ← consumeSubmissionBudget now credentialID limit;
      match problem with
      | None => mret None
      | Some reason => _ ← on_desk_tables now recordBudgetRefusal; mret (Some reason)
      end
  end.

Fixpoint insert_errors (submission : string) (index : Z) (errors : list Submission.ValidationError) : MOf Desk (option DomainError) :=
  match errors with
  | [] => mret None
  | validationError :: errors =>
      do* exec (insert_error (MkErrorRow submission index (Submission.Error_Path validationError) (Submission.Error_Message validationError)))
      else fun _ => Some (invalid_state "insert submission validation error failed") in
      insert_errors submission (index + 1) errors
  end.

Definition outcome_errors (outcome : Submission.ValidationOutcome) : list Submission.ValidationError :=
  match outcome with Submission.ValidationPassed => [] | Submission.ValidationFailed errors => errors end.

Definition insertValidationErrors (submissionID : SubmissionID) (outcome : Submission.ValidationOutcome) : MOf Desk (option DomainError) :=
  insert_errors (TypedID_String submissionID) 0 (outcome_errors outcome).

Fixpoint insertSensitiveFields (submissionID : SubmissionID) (index : Z) (fields : list Submission.SensitiveField) : MOf Desk (option DomainError) :=
  match fields with
  | [] => mret None
  | field :: fields =>
      do* exec (insert_sensitive (MkSensitiveRow (TypedID_String submissionID) index (Submission.Field_Path field)
            (Submission.Field_Category field) (Submission.Field_Retention field) (Submission.Field_Redaction field) "active" None))
      else fun _ => Some (invalid_state "insert submission sensitive field failed") in
      insertSensitiveFields submissionID (index + 1) fields
  end.

Fixpoint insertSubmissionAttachments (submissionID : SubmissionID) (index : Z) (attachments : list Attachment.Attachment) :
    MOf Desk (option DomainError) :=
  match attachments with
  | [] => mret None
  | value :: attachments =>
      do* exec (insert_attached (MkAttachedRow (TypedID_String submissionID) index
            (Attachment.Name_value (Attachment.AName value)) (Attachment.ContentType_value (Attachment.AContentType value))
            (Attachment.Content_value (Attachment.AContent value))))
      else fun _ => Some (invalid_state "insert submission attachment failed") in
      insertSubmissionAttachments submissionID (index + 1) attachments
  end.

(** The row inserted into [submissions]; the other columns take their defaults. *)
Definition submitted_row (command : SubmitCommand) (state : Submission.State) : SubmissionRow :=
  MkSubmissionRow (TypedID_String (submit_TaskID command)) (Some (TypedID_String (submit_SubmitterID command)))
    (Submission.State_String state) None None None "" None.

(** The [created_at] that the insert stored, as text and as read. *)
Definition read_created_at (submissionID : SubmissionID) : MOf Desk (DomainError + Z) :=
  let* raw := query_row (fun k => columns ← required ErrNoRows (submission_columns k !! TypedID_String submissionID);
                                  inr (to_char_utc (sc_created_at columns)))
  else fun _ => inl (invalid_state "read submission created_at failed") in
  mret (required (invalid_state "submission created_at is invalid") (time_Parse_RFC3339 raw)).

Definition CreateSubmission (submissionID : SubmissionID) (receiptID : SubmissionReceiptTokenID) (receiptHash : Submission.ReceiptTokenHash)
    (command : SubmitCommand) (state : Submission.State) (outcome : Submission.ValidationOutcome)
    (sensitiveFields : list Submission.SensitiveField) : MOf Desk CreateSubmissionStoreResult :=
  let rejected description := fun _ : StmtError => CreateSubmissionStoreRejected (invalid_state description) in
  do* begin_tx else rejected "begin create submission transaction failed" in
  now ← desk_time;
  do* charge_submission now (submit_Budget command) else CreateSubmissionStoreRejected in
  do* exec (insert_submission (TypedID_String submissionID) (submitted_row command state)
        (Submission.ResponseSource_value (submit_ResponseSource command)) now)
  else rejected "insert submission failed" in
  do* (if bool_decide (state = Submission.StateInvalid) then mret None
       else exec (submit_reservation (TypedID_String (submit_TaskID command)) (TypedID_String (submit_SubmitterID command))))
  else rejected "mark task reservation submitted failed" in
  do* exec (insert_receipt (TypedID_String receiptID)
        (MkReceiptRow (TypedID_String submissionID) (Submission.ReceiptTokenHash_value receiptHash)))
  else rejected "insert submission receipt token failed" in
  do* insertValidationErrors submissionID outcome else CreateSubmissionStoreRejected in
  do* insertSensitiveFields submissionID 0 sensitiveFields else CreateSubmissionStoreRejected in
  do* insertSubmissionAttachments submissionID 0 (submit_Attachments command) else CreateSubmissionStoreRejected in
  let* submitterName := fetchUserDisplayName query_row (submit_SubmitterID command) else CreateSubmissionStoreRejected in
  do* on_desk_tables now (recordEventDraftInTx (submit_Draft command)) else rejected "record submission event failed" in
  let* createdAt := read_created_at submissionID else CreateSubmissionStoreRejected in
  do* commit_tx else rejected "commit create submission transaction failed" in
  mret (CreateSubmissionStoreAccepted (Submission.MkSubmission submissionID (submit_TaskID command) (submit_SubmitterID command)
    submitterName state (submit_ResponseSource command) (submit_Attachments command) outcome sensitiveFields EmptyReviewNote createdAt)).

(** ** Reads *)

Definition read_submissions (query_failed : string) (query : Desk -> list submissionSQLRow) : MOf Desk (DomainError + list Submission.Submission) :=
  read_rows (invalid_state query_failed) (invalid_state "scan submission failed") (invalid_state "read submissions failed")
    parseSubmissionRow query.

(** The submissions whose receipt has the hash. *)
Definition receipts_with (hash : string) (k : Desk) : list string :=
  (fun kv => rt_submission_id kv.2) <$> filter (fun kv => rt_token_hash kv.2 = hash) (map_to_list (receipt_tokens k)).

Definition FindByReceiptToken (hash : Submission.ReceiptTokenHash) : MOf Desk FindReceiptStoreResult :=
  let* values := read_submissions "find submission receipt failed"
    (fun k => omap (submission_sql_row k) (receipts_with (Submission.ReceiptTokenHash_value hash) k))
  else ReceiptMissing in
  mret match values with
       | [value] => ReceiptFound value
       | _ => ReceiptMissing (invalid_state "submission receipt was not found")
       end.

Definition FindSubmission (submissionID : SubmissionID) : MOf Desk FindSubmissionStoreResult :=
  let* values := read_submissions "find submission failed"
    (fun k => match submission_sql_row k (TypedID_String submissionID) with Some row => [row] | None => [] end)
  else FindSubmissionStoreRejected in
  mret match values with
       | [value] => FindSubmissionStoreAccepted value
       | _ => FindSubmissionStoreRejected (not_found "submission was not found")
       end.

(** [order by submissions.created_at] *)
Definition submitted_at (k : Desk) (id : string) : Z := match submission_columns k !! id with Some c => sc_created_at c | None => 0 end.
Definition earliest_submission (k : Desk) (a b : string) : Prop := submitted_at k a <= submitted_at k b.

#[global] Instance earliest_submission_dec k a b : Decision (earliest_submission k a b).
Proof. unfold earliest_submission. apply _. Defined.

Definition submissions_where (p : SubmissionRow -> bool) (k : Desk) : list string :=
  merge_sort (earliest_submission k) (filter (fun kv => Is_true (p kv.2)) (map_to_list (submissions (desk_tables k)))).*1.

(** The count, then the page. *)
Definition list_submissions (count_failed list_failed : string) (p : SubmissionRow -> bool) (page : Pagination.Page) :
    MOf Desk ListSubmissionsStoreResult :=
  let* total := pool_query (fun k => inr (Z.of_nat (length (submissions_where p k))))
  else fun _ => ListSubmissionsStoreRejected (invalid_state count_failed) in
  let* values := read_submissions list_failed
    (fun k => Pagination.sql_page page (omap (submission_sql_row k) (submissions_where p k)))
  else ListSubmissionsStoreRejected in
  mret (ListSubmissionsStoreAccepted values total).

Definition by_submitter (submitterID : UserID) (row : SubmissionRow) : bool := bool_decide (sub_user_id row = Some (TypedID_String submitterID)).
Definition for_task (taskID : TaskID) (row : SubmissionRow) : bool := String.eqb (sub_task_id row) (TypedID_String taskID).

Definition ListForSubmitter (submitterID : UserID) (page : Pagination.Page) : MOf Desk ListSubmissionsStoreResult :=
  list_submissions "count submitter submissions failed" "list submitter submissions failed" (by_submitter submitterID) page.

Definition ListForTask (taskID : TaskID) (page : Pagination.Page) : MOf Desk ListSubmissionsStoreResult :=
  list_submissions "count submissions failed" "list submissions failed" (for_task taskID) page.

(** ** Comments *)

Definition CreateSubmissionComment (comment : Submission.SubmissionComment) (draft : Draft) : MOf Desk CreateSubmissionCommentStoreResult :=
  let rejected description := fun _ : StmtError => CreateSubmissionCommentStoreRejected (invalid_state description) in
  do* begin_tx else rejected "begin create submission comment transaction failed" in
  now ← desk_time;
  do* exec (insert_comment (TypedID_String (Submission.Comment_ID comment))
        (MkCommentRow (TypedID_String (Submission.Comment_SubmissionID comment)) (TypedID_String (Submission.Comment_AuthorID comment))
           (Submission.CommentBody_value (Submission.Comment_Body comment)) now))
  else rejected "create submission comment failed" in
  do* on_desk_tables now (recordEventDraftInTx draft) else rejected "record submission comment event failed" in
  do* commit_tx else rejected "commit create submission comment transaction failed" in
  let* authorName := fetchUserDisplayName pool_query (Submission.Comment_AuthorID comment) else CreateSubmissionCommentStoreRejected in
  mret (CreateSubmissionCommentStoreAccepted (Submission.MkSubmissionComment (Submission.Comment_ID comment)
    (Submission.Comment_SubmissionID comment) (Submission.Comment_AuthorID comment) authorName (Submission.Comment_Body comment) now)).

(** A row of the listing: identifier, comment and the author's name. *)
Definition parseSubmissionComment (row : string * CommentRow * string) : DomainError + Submission.SubmissionComment :=
  let '(rawID, comment, rawAuthorName) := row in
  commentID ← outcome (ParseSubmissionCommentID rawID);
  submissionID ← outcome (ParseSubmissionID (co_submission_id comment));
  author ← outcome (ParseUserID (co_author_user_id comment));
  body ← outcome (Submission.NewCommentBody (co_body comment));
  authorName ← outcome (NewDisplayName rawAuthorName);
  inr (Submission.MkSubmissionComment commentID submissionID author authorName body (co_created_at comment)).

(** [order by created_at desc, id desc] *)
Definition newest_comment (a b : string * CommentRow) : Prop :=
  co_created_at b.2 < co_created_at a.2 \/ (co_created_at a.2 = co_created_at b.2 /\ String.leb b.1 a.1 = true).

#[global] Instance newest_comment_dec a b : Decision (newest_comment a b).
Proof. unfold newest_comment. apply _. Defined.

Definition comment_select (submission : string) (k : Desk) : list (string * CommentRow * string) :=
  omap (fun kv => profile ← profiles (desk_market k) !! co_author_user_id kv.2; Some (kv, displayNameSQL profile))
    (merge_sort newest_comment (filter (fun kv => co_submission_id kv.2 = submission) (map_to_list (submission_comments k)))).

Definition ListSubmissionComments (submissionID : SubmissionID) (page : Pagination.Page) : MOf Desk ListSubmissionCommentsStoreResult :=
  let* values := read_rows (invalid_state "list submission comments failed") (invalid_state "scan submission comment failed")
    (invalid_state "read submission comments failed") parseSubmissionComment
    (fun k => Pagination.sql_page page (comment_select (TypedID_String submissionID) k))
  else ListSubmissionCommentsStoreRejected in
  mret (ListSubmissionCommentsStoreAccepted values).

End Store.
End Submissions.
