(* ===== verification/SubmissionService.v ===== *)
(** * The submission service

    Models [internal/submission/service.go] and the operations of
    [submission_comments.go]: what a worker's response must pass before it is stored,
    the receipts, and who reads submissions and their comment threads.  A result is
    paired with the drafts the service hands to the recorder after the commit. *)

From S2P Require Import Prelude.
From S2P Require Import Core.
From S2P Require Import OrgRoles.
From S2P Require Import Auth.
From S2P Require Import Events.
From S2P Require Import Attachments.
From S2P Require Import TaskValues.
From S2P Require Import SchemaModel.
From S2P Require Import SchemaValue.
From S2P Require Import SchemaCheck.
From S2P Require Import TaskWork.
From S2P Require Import LedgerValues.
From S2P Require Import Database.
From S2P Require Import Tx.
From S2P Require Import TaskDB.
From S2P Require Import OrgStore.
From S2P Require Import TaskRows.
From S2P Require Import TaskStore.
From S2P Require Import SubmissionStore.

Local Open Scope string_scope.
Local Open Scope Z_scope.

Module SubmissionService.
Export Submissions.

Inductive SubmitResult :=
| SubmissionCreated (Value : Submission.Submission) (ReceiptToken : Submission.ReceiptTokenPlain)
| SubmitRejected (Reason : DomainError).
Inductive ReceiptStatusResult := ReceiptStatusFound (Value : Submission.Submission) | ReceiptStatusRejected (Reason : DomainError).
Inductive ListResult := SubmissionsListed (Values : list Submission.Submission) (Total : Z) | ListRejected (Reason : DomainError).
Inductive GetResult := SubmissionGot (Value : Submission.Submission) | GetRejected (Reason : DomainError).
Inductive SubmissionCommentResult :=
| SubmissionCommentAdded (Value : Submission.SubmissionComment) (TaskID : TaskID) (SubmitterID : UserID) (TaskCreatorID : UserID)
| SubmissionCommentRejected (Reason : DomainError).
Inductive SubmissionCommentsResult :=
| SubmissionCommentsListed (Values : list Submission.SubmissionComment)
| SubmissionCommentsListRejected (Reason : DomainError).

(** ** The response against the schema *)

Definition validationOutcome (schema : Schema) (value : Value) : Submission.ValidationOutcome :=
  match Validate schema value with
  | ValidationAccepted => Submission.ValidationPassed
  | ValidationRejected errors =>
      Submission.ValidationFailed
        ((fun e => Submission.MkValidationError (Path_String (Error_Path e)) (Error_Message e)) <$> errors)
  end.

Definition sensitiveFieldsFor (schema : Schema) (value : Value) : list Submission.SensitiveField :=
  (fun f => let policy := Sensitive_Policy f in
     Submission.MkSensitiveField (Path_String (Sensitive_Path f)) (SensitivityCategory_String (Category policy))
       (RetentionPolicy_String (Retention policy)) (RedactionPolicy_String (Redaction policy)) "active" "")
  <$> BuildSensitiveIndex schema value.

Definition parse_schema (source : Task.ResponseSchemaSource) : DomainError + Schema :=
  match ParseSchemaJSON (Task.ResponseSchemaSource_value source) with
  | SchemaParsed schema => inr schema
  | SchemaParseRejected reason => inl reason
  end.

(** [ParseValueJSON] always answers ([ParseValueJSON_answers]): the last case is not taken. *)
Definition parse_value (source : Submission.ResponseSource) : DomainError + Value :=
  match ParseValueJSON (Submission.ResponseSource_value source) with
  | Some (ValueParsed value) => inr value
  | Some (ValueParseRejected reason) => inl reason
  | None => inl (invalid_argument "response JSON is invalid")
  end.

(** A submission with the response redacted by a task's schema. *)
Definition redacted_by (schema : Task.ResponseSchemaSource) (value : Submission.Submission) : DomainError + Submission.Submission :=
  schema ← parse_schema schema;
  response ← parse_value (Submission.Source value);
  match EncodeValueJSON (RedactSensitive schema response) with
  | ValueEncodeRejected reason => inl reason
  | ValueEncoded encoded =>
      source ← outcome (Submission.NewResponseSource encoded);
      inr (Submission.set_Source source value)
  end.

Section Service.
Context `{UUIDLib, URLLib, World, SubmissionWorld}.

Definition NewSubmissionID : MOf Desk (TypedIDResult KSubmission) := fun _ st => (new_submission_id (st_step st), tick st).
Definition NewSubmissionReceiptTokenID : MOf Desk (TypedIDResult KSubmissionReceiptToken) := fun _ st => (new_receipt_id (st_step st), tick st).
Definition NewSubmissionCommentID : MOf Desk (TypedIDResult KSubmissionComment) := fun _ st => (new_submission_comment_id (st_step st), tick st).
Definition NewReceiptToken : MOf Desk Submission.ReceiptTokenPlainResult :=
  fun _ st => (Submission.NewReceiptTokenPlain (random_bytes (st_step st)), tick st).

Definition submissionEventDraft (kind : Kind) (actor : UserID) (taskID : TaskID) (submissionID : SubmissionID) (recipients : Recipients) :
    MOf Desk (DomainError + Draft) :=
  id ← NewDomainEventID;
  mret match NewDraft id kind (ActorUser actor)
               (set_Submission (SubmissionSubject submissionID) (set_Task (TaskSubject taskID) NoSubjectRefs))
               (TaskMetadata taskID) recipients with
       | DraftCreated draft => inr draft
       | DraftRejected reason => inl reason
       end.

(** ** Permissions: [None] is an accepted one *)

Definition check_organization (organizationID : OrganizationID) (userID : UserID) (permission : Permission) : MOf Desk (option DomainError) :=
  check ← on_desk_market (Org.CheckOrganizationPermission organizationID userID permission);
  mret match check with PermissionDenied reason => Some reason | PermissionGranted => None end.

Definition requireOrganizationViewPermission (organizationID : OrganizationID) (userID : UserID) : MOf Desk (option DomainError) :=
  reviewer ← check_organization organizationID userID PermissionReviewSubmissions;
  match reviewer with
  | None => mret None
  | Some _ => check_organization organizationID userID PermissionCreateOrganizationTask
  end.

Definition requireViewPermission (userID : UserID) (value : Task.Task) : MOf Desk (option DomainError) :=
  let denied := Some (permission_denied "task view access denied") in
  if bool_decide (Task.CreatedBy value = userID) then mret None
  else match Task.TVisibility value with
       | Task.PublicVisibility => mret None
       | Task.UserVisibility user => mret (if bool_decide (user = userID) then None else denied)
       | Task.OrganizationVisibility organization | Task.OrganizationTeamVisibility organization _ =>
           requireOrganizationViewPermission organization userID
       | Task.TeamVisibility _ => mret denied
       end.

Definition organizationIDForTask (value : Task.Task) : option OrganizationID :=
  match Task.TOwner value with
  | Task.OrganizationOwner organization | Task.OrganizationTeamOwner organization _ => Some organization
  | _ => None
  end.

Definition reviewPermissionResultFromDecision (decision : Auth.Decision) : option DomainError :=
  match decision with Auth.Denied reason => Some reason | Auth.Granted => None end.

Definition requireReviewPermissionForActor (actor : Auth.Subject) (value : Task.Task) : MOf Desk (option DomainError) :=
  if bool_decide (actor = Auth.UserSubject (Task.CreatedBy value)) then mret None
  else match organizationIDForTask value with
       | None => mret (Some (permission_denied "submission list access denied"))
       | Some organization =>
           decision ← on_desk_market (Auth.RequireOrganizationAccess Org.CheckOrganizationPermission actor organization
             PermissionReviewSubmissions ErrorCodePermissionDenied "submission list access denied");
           mret (reviewPermissionResultFromDecision decision)
       end.

(** ** Submitting *)

Definition find_task (taskID : TaskID) : MOf Desk (DomainError + Task.Task) :=
  found ← on_desk_market (Tasks.FindTask taskID);
  mret match found with
       | Tasks.FindTaskStoreRejected reason => inl reason
       | Tasks.FindTaskStoreAccepted value _ => inr value
       end.

Definition check_eligibility (taskID : TaskID) (submitterID : UserID) : MOf Desk (option DomainError) :=
  eligibility ← on_desk_market (Tasks.CheckSubmissionEligibility taskID submitterID);
  mret match eligibility with
       | Tasks.SubmissionEligibilityRejected reason => Some reason
       | Tasks.SubmissionEligible => None
       end.

(** What gates a submission: the task found. *)
Definition submission_gates (taskID : TaskID) (submitterID : UserID) : MOf Desk (DomainError + Task.Task) :=
  let* value := find_task taskID else inl in
  if negb (bool_decide (Task.TState value = Task.StateOpen)) then mret (inl (conflict "only open tasks accept submissions")) else
  do* requireViewPermission submitterID value else inl in
  do* check_eligibility taskID submitterID else inl in
  mret (inr value).

(** The identifiers of the submission and of its receipt, and the token. *)
Definition new_receipt : MOf Desk (DomainError + (SubmissionID * SubmissionReceiptTokenID * Submission.ReceiptTokenPlain)) :=
  submissionIDResult ← NewSubmissionID;
  match submissionIDResult with
  | TypedIDRejected reason => mret (inl reason)
  | TypedIDCreated submissionID =>
  receiptIDResult ← NewSubmissionReceiptTokenID;
  match receiptIDResult with
  | TypedIDRejected reason => mret (inl reason)
  | TypedIDCreated receiptID =>
  receiptTokenResult ← NewReceiptToken;
  mret match receiptTokenResult with
       | Submission.ReceiptTokenPlainRejected reason => inl reason
       | Submission.ReceiptTokenPlainAccepted token => inr (submissionID, receiptID, token)
       end
  end end.

(** What a caller of [Submit] asks: [Budget] and [Draft] of the command are filled by the service. *)
Record Request := MkRequest {
  request_TaskID : TaskID;
  request_SubmitterID : UserID;
  request_ResponseSource : Submission.ResponseSource;
  request_Attachments : list Attachment.Attachment
}.

Definition store_submission (request : Request) (target : Task.Task) (budget : Work.WorkBudgetCharge)
    (schema : Schema) (response : Value) : MOf Desk (SubmitResult * list Draft) :=
  let rejected := fun reason => (SubmitRejected reason, []) in
  let validated := validationOutcome schema response in
  let* '(submissionID, receiptID, token) := new_receipt else rejected in
  let* draft := submissionEventDraft KindSubmissionCreated (request_SubmitterID request) (request_TaskID request) submissionID
      (NewRecipients [Task.CreatedBy target; request_SubmitterID request]) else rejected in
  storeResult ← CreateSubmission submissionID receiptID (Submission.Hash token)
    (MkSubmitCommand (request_TaskID request) (request_SubmitterID request) (request_ResponseSource request)
       (request_Attachments request) budget draft)
    (Submission.StateForValidation validated) validated (sensitiveFieldsFor schema response);
  mret match storeResult with
       | CreateSubmissionStoreRejected reason => rejected reason
       | CreateSubmissionStoreAccepted created => (SubmissionCreated created token, [draft])
       end.

Definition Submit (origin : Work.WorkerOrigin) (request : Request) : MOf Desk (SubmitResult * list Draft) :=
  let rejected := fun reason => (SubmitRejected reason, []) in
  let* target := submission_gates (request_TaskID request) (request_SubmitterID request) else rejected in
  match Work.WorkBudgetForSubmission origin target with
  | inl reason => mret (rejected reason)
  | inr budget =>
  match parse_schema (Task.ResponseSchema target) with
  | inl reason => mret (rejected reason)
  | inr schema =>
  match parse_value (request_ResponseSource request) with
  | inl reason => mret (rejected reason)
  | inr response => store_submission request target budget schema response
  end end end.

(** ** Receipts *)

Definition redactedSubmission (value : Submission.Submission) : MOf Desk (DomainError + Submission.Submission) :=
  let* target := find_task (Submission.TaskID_ value) else inl in
  mret (redacted_by (Task.ResponseSchema target) value).

Definition FindByReceipt (token : Submission.ReceiptTokenPlain) : MOf Desk ReceiptStatusResult :=
  result ← FindByReceiptToken (Submission.Hash token);
  match result with
  | ReceiptMissing reason => mret (ReceiptStatusRejected reason)
  | ReceiptFound value =>
      let* redacted := redactedSubmission value else ReceiptStatusRejected in
      mret (ReceiptStatusFound redacted)
  end.

(** ** Reading and commenting *)

Definition loadCommentableSubmissionWithTask (actor : Auth.Subject) (submissionID : SubmissionID) :
    MOf Desk (DomainError + (Submission.Submission * Task.Task)) :=
  found ← FindSubmission submissionID;
  match found with
  | FindSubmissionStoreRejected reason => mret (inl reason)
  | FindSubmissionStoreAccepted value =>
      let* target := find_task (Submission.TaskID_ value) else inl in
      if bool_decide (actor = Auth.UserSubject (Submission.SubmitterID value)) then mret (inr (value, target)) else
      do* requireReviewPermissionForActor actor target else inl in
      mret (inr (value, target))
  end.

Definition loadCommentableSubmission (actor : Auth.Subject) (submissionID : SubmissionID) : MOf Desk (DomainError + Submission.Submission) :=
  let* '(value, _) := loadCommentableSubmissionWithTask actor submissionID else inl in
  mret (inr value).

Definition Get (actor : Auth.Subject) (submissionID : SubmissionID) : MOf Desk GetResult :=
  let* value := loadCommentableSubmission actor submissionID else GetRejected in
  mret (SubmissionGot value).

Definition listed (result : ListSubmissionsStoreResult) : ListResult :=
  match result with
  | ListSubmissionsStoreRejected reason => ListRejected reason
  | ListSubmissionsStoreAccepted values total => SubmissionsListed values total
  end.

Definition ListForTask (actor : Auth.Subject) (taskID : TaskID) (page : Pagination.Page) : MOf Desk ListResult :=
  let* target := find_task taskID else ListRejected in
  do* requireReviewPermissionForActor actor target else ListRejected in
  result ← Submissions.ListForTask taskID page;
  mret (listed result).

Definition ListForSubmitter (actor : UserID) (submitterID : UserID) (page : Pagination.Page) : MOf Desk ListResult :=
  if negb (bool_decide (actor = submitterID))
  then mret (ListRejected (permission_denied "submissions are visible only to their submitter"))
  else
    result ← Submissions.ListForSubmitter submitterID page;
    mret (listed result).

Definition AddSubmissionComment (actor : UserID) (submissionID : SubmissionID) (body : Submission.CommentBody) :
    MOf Desk (SubmissionCommentResult * list Draft) :=
  let rejected := fun reason => (SubmissionCommentRejected reason, []) in
  let* '(value, target) := loadCommentableSubmissionWithTask (Auth.UserSubject actor) submissionID else rejected in
  idResult ← NewSubmissionCommentID;
  match idResult with
  | TypedIDRejected reason => mret (rejected reason)
  | TypedIDCreated commentID =>
  let* draft := submissionEventDraft KindSubmissionCommented actor (Submission.TaskID_ value) (Submission.ID value)
      (NewRecipients [Task.CreatedBy target; Submission.SubmitterID value; actor]) else rejected in
  storeResult ← CreateSubmissionComment
    (Submission.MkSubmissionComment commentID (Submission.ID value) actor (MkDisplayName "") body 0) draft;
  mret match storeResult with
       | CreateSubmissionCommentStoreRejected reason => rejected reason
       | CreateSubmissionCommentStoreAccepted comment =>
           (SubmissionCommentAdded comment (Submission.TaskID_ value) (Submission.SubmitterID value) (Task.CreatedBy target), [draft])
       end
  end.

Definition ListSubmissionComments (actor : Auth.Subject) (submissionID : SubmissionID) (page : Pagination.Page) :
    MOf Desk SubmissionCommentsResult :=
  let* _ := loadCommentableSubmission actor submissionID else SubmissionCommentsListRejected in
  storeResult ← Submissions.ListSubmissionComments submissionID page;
  mret match storeResult with
       | ListSubmissionCommentsStoreRejected reason => SubmissionCommentsListRejected reason
       | ListSubmissionCommentsStoreAccepted values => SubmissionCommentsListed values
       end.

End Service.
End SubmissionService.
