(* ===== verification/SubmissionCorrect.v ===== *)
(** * What a submission does

    The relation of [CreateSubmission] between the desk before and after it, the gates
    and the budget of the submission service in front of it ([submit_made]), and what
    the commits of market and gallery leave of tasks and submissions ([vetted]). *)

From S2P Require Import Prelude.
From S2P Require Import Core.
From S2P Require Import OrgRoles.
From S2P Require Import Auth.
From S2P Require Import Events.
From S2P Require Import Json.
From S2P Require Import JsonFacts.
From S2P Require Import Calendar.
From S2P Require Import Attachments.
From S2P Require Import TaskValues.
From S2P Require Import SchemaModel.
From S2P Require Import SchemaValue.
From S2P Require Import SchemaCheck.
From S2P Require Import TaskWork.
From S2P Require Import LedgerValues.
From S2P Require Import Database.
From S2P Require Import Tx.
From S2P Require Import LedgerSpec.
From S2P Require Import Outbox.
From S2P Require Import LedgerHelpers.
From S2P Require Import LedgerStore.
From S2P Require Import HelperSpecs.
From S2P Require Import ReviewSpecs.
From S2P Require Import StoreSpecs.
From S2P Require Import Refinement.
From S2P Require Import LedgerCorrect.
From S2P Require Import LedgerReplay.
From S2P Require Import LedgerBehaviour.
From S2P Require Import LedgerInvariants.
From S2P Require Import EscrowSpecs.
From S2P Require Import DeliveryDB.
From S2P Require Import TaskDB.
From S2P Require Import OrgStore.
From S2P Require Import TaskRows.
From S2P Require Import TaskStore.
From S2P Require Import TaskSpecs.
From S2P Require Import SweepSpecs.
From S2P Require Import ReservationSpecs.
From S2P Require Import CreationSpecs.
From S2P Require Import Lifecycle.
From S2P Require Import LifecycleCorrect.
From S2P Require Import CollectibleStore.
From S2P Require Import CatalogStore.
From S2P Require Import CollectibleService.
From S2P Require Import GallerySpecs.
From S2P Require Import GalleryFrames.
From S2P Require Import GalleryLife.
From S2P Require Import SubmissionStore.
From S2P Require Import SubmissionService.

Local Open Scope string_scope.
Local Open Scope Z_scope.

(** * The commits of the submission store *)

Module SubmissionSpecs.
Export SubmissionService.

(** ** Lifting *)

Lemma with_desk_market_id k : with_desk_market (desk_market k) k = k.
Proof. by destruct k as [[] ? ? ? ? ? ?]. Qed.

Lemma with_desk_tables_id k : with_desk_tables (desk_tables k) k = k.
Proof. unfold with_desk_tables, desk_tables. by rewrite with_tables_id, with_desk_market_id. Qed.

Lemma wp_on_desk_market {A env} (c : MOf Market A) (Q : A -> TxStateOf Desk -> Prop) base k n :
  wp env c (fun a st => Q a (MkTxState (with_desk_market (st_base st) base) (with_desk_market (st_db st) k) (st_step st)))
    (MkTxState (desk_market base) (desk_market k) n) ->
  wp env (on_desk_market c) Q (MkTxState base k n).
Proof. unfold wp, on_desk_market, on_gallery, on_market. cbn [st_base st_db st_step]. by destruct (c _ _). Qed.

Lemma wp_on_desk_tables {A env} now (c : M A) (Q : A -> TxStateOf Desk -> Prop) base k n :
  wp (at_time now env) c (fun a st => Q a (MkTxState (with_desk_tables (st_base st) base) (with_desk_tables (st_db st) k) (st_step st)))
    (MkTxState (desk_tables base) (desk_tables k) n) ->
  wp env (on_desk_tables now c) Q (MkTxState base k n).
Proof. intros Hw. apply wp_on_desk_market, wp_on_tables. exact Hw. Qed.

Lemma quiet_on_desk_market {A} (c : MOf Market A) : quiet c -> quiet (on_desk_market c).
Proof.
  intros Hc env st. specialize (Hc env (MkTxState (desk_market (st_base st)) (desk_market (st_db st)) (st_step st))).
  unfold on_desk_market, on_gallery, on_market. cbn [st_base st_db st_step].
  change (market (gallery (st_base st))) with (desk_market (st_base st)). change (market (gallery (st_db st))) with (desk_market (st_db st)).
  destruct (c env _) as [a st']. cbn in *. destruct Hc as [-> ->]. split; apply with_desk_market_id.
Qed.

Lemma wp_desk_time `{World} env (Q : Z -> TxStateOf Desk -> Prop) st : Q (server_now (st_step st)) st -> wp env desk_time Q st.
Proof. done. Qed.

Section Specs.
Context `{UUIDLib, URLLib, World, SubmissionWorld} {env : Env}.
Implicit Types (k base : Desk) (d : DB).

(** ** Rows with consecutive indices *)

Fixpoint rows_from {A R} (make : Z -> A -> R) (index : Z) (values : list A) : list R :=
  match values with [] => [] | value :: values => make index value :: rows_from make (index + 1) values end.

Definition error_row (s : string) (index : Z) (e : Submission.ValidationError) : ErrorRow :=
  MkErrorRow s index (Submission.Error_Path e) (Submission.Error_Message e).
Definition sensitive_row (s : string) (index : Z) (f : Submission.SensitiveField) : SensitiveRow :=
  MkSensitiveRow s index (Submission.Field_Path f) (Submission.Field_Category f) (Submission.Field_Retention f) (Submission.Field_Redaction f)
    "active" None.
Definition attached_row (s : string) (index : Z) (a : Attachment.Attachment) : AttachedRow :=
  MkAttachedRow s index (Attachment.Name_value (Attachment.AName a)) (Attachment.ContentType_value (Attachment.AContentType a))
    (Attachment.Content_value (Attachment.AContent a)).

Lemma insert_errors_wp s index errors base k n (Q : option DomainError -> TxStateOf Desk -> Prop) :
  (forall reason st, st_base st = base -> Q (Some reason) st) ->
  (forall n', Q None (MkTxState base (with_errors (validation_errors k ++ rows_from (error_row s) index errors)%list k) n')) ->
  wp env (insert_errors s index errors) Q (MkTxState base k n).
Proof.
  revert index k n. induction errors as [|e errors IH]; intros index k n Hf Hs; cbn [insert_errors rows_from].
  { tk_prim. specialize (Hs n). cbn in Hs. rewrite app_nil_r in Hs. by destruct k. }
  do 2 tk_prim; cbn [st_db st_base st_step]; [by apply Hf|]. unfold insert_error. repeat split_match; try by apply Hf. apply IH; [done|].
  intros n'. specialize (Hs n'). cbn in *. by rewrite <- app_assoc.
Qed.

Lemma insertSensitive_wp sid index fields base k n (Q : option DomainError -> TxStateOf Desk -> Prop) :
  (forall reason st, st_base st = base -> Q (Some reason) st) ->
  (forall n', Q None (MkTxState base (with_sensitive (sensitive_fields k ++ rows_from (sensitive_row (TypedID_String sid)) index fields)%list k) n')) ->
  wp env (insertSensitiveFields sid index fields) Q (MkTxState base k n).
Proof.
  revert index k n. induction fields as [|e fields IH]; intros index k n Hf Hs; cbn [insertSensitiveFields rows_from].
  { tk_prim. specialize (Hs n). cbn in Hs. rewrite app_nil_r in Hs. by destruct k. }
  do 2 tk_prim; cbn [st_db st_base st_step]; [by apply Hf|]. unfold insert_sensitive. repeat split_match; try by apply Hf. apply IH; [done|].
  intros n'. specialize (Hs n'). cbn in *. by rewrite <- app_assoc.
Qed.

Lemma insertAttached_wp sid index values base k n (Q : option DomainError -> TxStateOf Desk -> Prop) :
  (forall reason st, st_base st = base -> Q (Some reason) st) ->
  (forall n', Q None (MkTxState base (with_attached (submission_attachments k ++ rows_from (attached_row (TypedID_String sid)) index values)%list k) n')) ->
  wp env (insertSubmissionAttachments sid index values) Q (MkTxState base k n).
Proof.
  revert index k n. induction values as [|e values IH]; intros index k n Hf Hs; cbn [insertSubmissionAttachments rows_from].
  { tk_prim. specialize (Hs n). cbn in Hs. rewrite app_nil_r in Hs. by destruct k. }
  do 2 tk_prim; cbn [st_db st_base st_step]; [by apply Hf|]. unfold insert_attached. repeat split_match; try by apply Hf. apply IH; [done|].
  intros n'. specialize (Hs n'). cbn in *. by rewrite <- app_assoc.
Qed.

(** ** The budget *)

Definition budget_key (credential : AgentCredentialID) : string := Tasks.workDayKeyAgentTasks +:+ TypedID_String credential.

(** What a submission's budget charges to the tables. *)
Definition budget_charged (budget : Work.WorkBudgetCharge) d d' : Prop :=
  match budget with
  | Work.NoWorkBudgetCharge => d' = d
  | Work.ChargeDailyTaskBudget credential limit =>
      TypedID_String credential ∈ agent_credentials d /\ charged_counter (budget_key credential) 1 limit d d'
  end.

(** At most the refusal counter has moved. *)
Definition refused_desk k k' : Prop := exists d, refused (desk_tables k) d /\ k' = with_desk_tables d k.

Lemma refused_desk_refl k : refused_desk k k.
Proof. exists (desk_tables k). split; [apply refused_refl|by rewrite with_desk_tables_id]. Qed.

Lemma charge_submission_wp now budget base k n (Q : option DomainError -> TxStateOf Desk -> Prop) :
  (forall reason st, refused_desk base (st_base st) -> Q (Some reason) st) ->
  (forall d n', budget_charged budget (desk_tables k) d -> Q None (MkTxState base (with_desk_tables d k) n')) ->
  wp env (charge_submission now budget) Q (MkTxState base k n).
Proof.
  intros Hf Hs. destruct budget as [|credential limit]; cbn [charge_submission].
  { tk_prim. rewrite <- (with_desk_tables_id k). by apply Hs. }
  assert (forall reason st, st_base st = base -> wp env (_ ← on_desk_tables now recordBudgetRefusal; mret (Some reason)) Q st) as Hrefuse.
  { intros reason [b k' n'] Hb. cbn in Hb. subst b. tk_prim. apply wp_on_desk_tables. unfold recordBudgetRefusal. do 2 tk_prim. apply wp_exec_outside; cbn.
    - tk_prim. apply Hf. cbn. rewrite with_desk_tables_id. apply refused_desk_refl.
    - intros base' Hbump. tk_prim. apply Hf. cbn. exists base'. split; [|done]. right. case_match; simplify_eq. case_match; simplify_eq. eauto. }
  tk_prim. unfold consumeSubmissionBudget. do 2 tk_prim; cbn [st_db]; [by apply Hrefuse|]. case_bool_decide as Hc; [|by apply Hrefuse].
  apply wp_on_desk_market, charge_daily_task_wp; cbn.
  - intros reason st Hb. apply Hrefuse. cbn. by rewrite Hb, with_desk_market_id.
  - intros d n' Hd. rewrite with_desk_market_id. tk_prim. by apply Hs.
Qed.

(** ** A submission filed *)

(** What becomes of the reservations: a valid submission consumes the submitter's own. *)
Definition reservations_after (state : Submission.State) (task user : string) (rows : gmap string ReservationRow) : gmap string ReservationRow :=
  if bool_decide (state = Submission.StateInvalid) then rows
  else (fun row => if worker_reservation task user ["active"] row then set_res_state "submitted" row else row) <$> rows.

Definition filed_tables (sid : SubmissionID) (command : SubmitCommand) (state : Submission.State) d : DB :=
  with_reservations (reservations_after state (TypedID_String (submit_TaskID command)) (TypedID_String (submit_SubmitterID command)) (task_reservations d))
    (with_submissions (<[TypedID_String sid := submitted_row command state]> (submissions d)) d).

(** The desk with the tables [d], and the rows of the submission beside them. *)
Definition filed (sid : SubmissionID) (rid : SubmissionReceiptTokenID) (hash : Submission.ReceiptTokenHash) (command : SubmitCommand)
    (outcome : Submission.ValidationOutcome) (fields : list Submission.SensitiveField) (stored : string) (now : Z) d k : Desk :=
  MkDesk (gallery (with_desk_tables d k))
    (<[TypedID_String sid := MkSubmissionColumns stored now]> (submission_columns k))
    (<[TypedID_String rid := MkReceiptRow (TypedID_String sid) (Submission.ReceiptTokenHash_value hash)]> (receipt_tokens k))
    (validation_errors k ++ rows_from (error_row (TypedID_String sid)) 0 (outcome_errors outcome))%list
    (sensitive_fields k ++ rows_from (sensitive_row (TypedID_String sid)) 0 fields)%list
    (submission_attachments k ++ rows_from (attached_row (TypedID_String sid)) 0 (submit_Attachments command))%list
    (submission_comments k).

Inductive submission_filed (sid : SubmissionID) (rid : SubmissionReceiptTokenID) (hash : Submission.ReceiptTokenHash) (command : SubmitCommand)
    (state : Submission.State) (outcome : Submission.ValidationOutcome) (fields : list Submission.SensitiveField) k :
    Submission.Submission -> Desk -> Prop :=
| filed_with now d1 d2 stored profile name createdAt :
    budget_charged (submit_Budget command) (desk_tables k) d1 ->
    jsonb (Submission.ResponseSource_value (submit_ResponseSource command)) = Some stored ->
    is_Some (tasks d1 !! TypedID_String (submit_TaskID command)) ->
    TypedID_String (submit_SubmitterID command) ∈ users d1 ->
    submissions d1 !! TypedID_String sid = None ->
    receipt_tokens k !! TypedID_String rid = None ->
    map_Forall (fun _ row => rt_token_hash row <> Submission.ReceiptTokenHash_value hash) (receipt_tokens k) ->
    profiles (desk_market k) !! TypedID_String (submit_SubmitterID command) = Some profile ->
    NewDisplayName (displayNameSQL profile) = DisplayNameAccepted name ->
    recorded (filed_tables sid command state d1) [submit_Draft command] d2 ->
    time_Parse_RFC3339 (to_char_utc now) = Some createdAt ->
    submission_filed sid rid hash command state outcome fields k
      (Submission.MkSubmission sid (submit_TaskID command) (submit_SubmitterID command) name state (submit_ResponseSource command)
         (submit_Attachments command) outcome fields EmptyReviewNote createdAt)
      (filed sid rid hash command outcome fields stored now d2 k).

Lemma insert_submission_inv id row response now k k' :
  insert_submission id row response now k = inr k' ->
  exists stored, jsonb response = Some stored /\ is_Some (tasks (desk_tables k) !! sub_task_id row) /\
    (forall user, sub_user_id row = Some user -> user ∈ users (desk_tables k)) /\ submissions (desk_tables k) !! id = None /\
    k' = with_submission_columns (<[id := MkSubmissionColumns stored now]> (submission_columns k))
           (with_desk_tables (with_submissions (<[id := row]> (submissions (desk_tables k))) (desk_tables k)) k).
Proof.
  unfold insert_submission. destruct (jsonb response) as [stored|]; [|done]. destruct (bool_decide (_ ∈ _)); cbn [negb]; [|done].
  destruct (_ && _ && _) eqn:E; cbn [negb]; [|done]. apply andb_true_iff in E as [[Ht _]%andb_true_iff Hu]. apply bool_decide_eq_true in Ht.
  case_bool_decide as Hs; [done|]. intros [= <-]. exists stored. do 2 (split; [done|]). split; [|split; [by apply eq_None_not_Some|done]].
  intros user Hrow. rewrite Hrow in Hu. by apply bool_decide_eq_true in Hu.
Qed.

Lemma insert_receipt_inv id row k k' :
  insert_receipt id row k = inr k' ->
  receipt_tokens k !! id = None /\ map_Forall (fun _ other => rt_token_hash other <> rt_token_hash row) (receipt_tokens k) /\
  k' = with_receipts (<[id := row]> (receipt_tokens k)) k.
Proof.
  unfold insert_receipt. destruct (submission_exists _ _); cbn [negb]; [|done]. case_bool_decide as Hi; [done|]. case_bool_decide as Hh; [done|].
  intros [= <-]. split; [by apply eq_None_not_Some|]. split; [|done]. intros i other Ho E. apply Hh. by exists i, other.
Qed.

Lemma fetch_in_tx_wp user base k n (Q : DomainError + DisplayName -> TxStateOf Desk -> Prop) :
  (forall reason st, st_base st = base -> Q (inl reason) st) ->
  (forall profile name n', profiles (desk_market k) !! TypedID_String user = Some profile -> NewDisplayName (displayNameSQL profile) = DisplayNameAccepted name ->
     Q (inr name) (MkTxState base k n')) ->
  wp env (fetchUserDisplayName query_row user) Q (MkTxState base k n).
Proof.
  intros Hf Hs. unfold fetchUserDisplayName. do 2 tk_prim; cbn [st_db]; [by apply Hf|].
  destruct (profiles (desk_market k) !! TypedID_String user) as [profile|] eqn:Hp; cbn [required]; rewrite ?bind_inr, ?bind_inl; cbv beta iota; [|by apply Hf].
  tk_prim. destruct (NewDisplayName _) as [name|] eqn:Hn; cbn; [by eapply Hs|by apply Hf].
Qed.

Lemma CreateSubmission_wp sid rid hash command state outcome fields st (Q : CreateSubmissionStoreResult -> TxStateOf Desk -> Prop) :
  (forall reason st', refused_desk (st_base st) (st_base st') -> Q (CreateSubmissionStoreRejected reason) st') ->
  (forall value k' n, submission_filed sid rid hash command state outcome fields (st_base st) value k' ->
     Q (CreateSubmissionStoreAccepted value) (MkTxState k' k' n)) ->
  wp env (CreateSubmission sid rid hash command state outcome fields) Q st.
Proof.
  intros Hf Hs. destruct st as [k db0 n]. cbn [st_base] in Hf, Hs.
  assert (forall reason st', st_base st' = k -> Q (CreateSubmissionStoreRejected reason) st') as Hr.
  { intros reason st' Hb. apply Hf. rewrite Hb. apply refused_desk_refl. }
  unfold CreateSubmission. do 2 tk_prim; [by apply Hr|]. cbn [st_base st_step]. tk_prim. apply wp_desk_time. cbn [st_step]. set (now := server_now _).
  apply wp_check, charge_submission_wp; [done|]. intros d1 n1 Hd1.
  do 2 tk_prim; cbn [st_db st_base st_step]; [by apply Hr|]. destruct (insert_submission _ _ _ _ _) as [|k2] eqn:Hk2; [by apply Hr|].
  apply insert_submission_inv in Hk2 as (stored & Hj & Ht & Hu & Hfresh & ->). specialize (Hu _ eq_refl).
  change (desk_tables (with_desk_tables d1 k)) with d1 in *. cbn [sub_task_id submitted_row] in Ht.
  set (k3 := with_submission_columns (<[TypedID_String sid := MkSubmissionColumns stored now]> (submission_columns k)) (with_desk_tables (filed_tables sid command state d1) k)).
  apply wp_check.
  match goal with |- wp _ (if bool_decide _ then _ else _) ?R _ =>
    assert (forall n3, R None (MkTxState k k3 n3)) as Hrest end.
  2:{ case_bool_decide as Hst.
      - tk_prim. match goal with |- context [MkTxState k ?k2 ?n2] => replace k2 with k3; [apply Hrest|] end.
        unfold k3, filed_tables, reservations_after. rewrite bool_decide_true by done. by destruct d1.
      - tk_prim; cbn [st_db st_base st_step]; [by apply Hr|]. unfold submit_reservation, update_reservations. cbn [String.eqb andb Ascii.eqb Bool.eqb].
        match goal with |- context [MkTxState k ?k2 _] => replace k2 with k3; [apply Hrest|] end.
        unfold k3, filed_tables, reservations_after. by rewrite bool_decide_false. }
  intros n3. cbv beta. do 2 tk_prim; cbn [st_db st_base st_step]; [by apply Hr|].
  destruct (insert_receipt _ _ _) as [|k4] eqn:Hk4; [by apply Hr|]. apply insert_receipt_inv in Hk4 as (Hrid & Hhash & ->).
  change (receipt_tokens k3) with (receipt_tokens k) in *. cbn [rt_token_hash] in Hhash.
  apply wp_check. unfold insertValidationErrors. apply insert_errors_wp; [by intros; apply Hr|]. intros n5.
  apply wp_check, insertSensitive_wp; [by intros; apply Hr|]. intros n6. apply wp_check, insertAttached_wp; [by intros; apply Hr|]. intros n7.
  apply wp_attempt, fetch_in_tx_wp; [by intros; apply Hr|]. intros profile name n8 Hp Hn. apply wp_check, wp_on_desk_tables, recordEventDraft_wp; cbn [st_base].
  { intros err st' Hb. apply Hr. cbn. by rewrite Hb, with_desk_tables_id. }
  intros d2 n9 Hd2. rewrite with_desk_tables_id. cbn [st_db] in Hd2. unfold read_created_at. apply wp_attempt.
  do 2 tk_prim; cbn [st_db st_base st_step]; [by apply Hr|].
  match goal with |- context [submission_columns ?k9 !! _] => change (submission_columns k9) with (<[TypedID_String sid := MkSubmissionColumns stored now]> (submission_columns k)) end.
  rewrite lookup_insert_eq. cbn [required]. rewrite bind_inr. cbv beta iota. cbn [sc_created_at]. tk_prim.
  destruct (time_Parse_RFC3339 (to_char_utc now)) as [createdAt|] eqn:Hc; cbn [required]; [|by apply Hr].
  do 2 tk_prim; [by apply Hr|]. tk_prim. cbn [st_db st_step].
  refine (Hs _ (filed sid rid hash command outcome fields stored now d2 k) _ _). by econstructor.
Qed.

(** ** The gates *)

Definition housekept_desk k k' : Prop := exists m, housekept (desk_market k) m /\ k' = with_desk_market m k.

(** What [requireViewPermission] grants. *)
Definition may_view (user : UserID) (value : Task.Task) (m : Market) : Prop :=
  Task.CreatedBy value = user \/ Task.TVisibility value = Task.PublicVisibility \/ Task.TVisibility value = Task.UserVisibility user \/
  exists organization, (Task.TVisibility value = Task.OrganizationVisibility organization \/
                        exists team, Task.TVisibility value = Task.OrganizationTeamVisibility organization team) /\
    (member_permits organization user PermissionReviewSubmissions m \/ member_permits organization user PermissionCreateOrganizationTask m).

(** What [requireReviewPermissionForActor] grants. *)
Definition may_review_submissions (actor : Auth.Subject) (value : Task.Task) (m : Market) : Prop :=
  actor = Auth.UserSubject (Task.CreatedBy value) \/
  exists organization, organizationIDForTask value = Some organization /\
    (actor = Auth.OrgSubject organization \/ exists user, actor = Auth.UserSubject user /\ member_permits organization user PermissionReviewSubmissions m).

Lemma find_task_wp t st (Q : DomainError + Task.Task -> TxStateOf Desk -> Prop) :
  (forall reason st', st_base st' = st_base st -> Q (inl reason) st') ->
  (forall value st', st_base st' = st_base st -> task_found t (desk_market (st_base st)) value -> Q (inr value) st') ->
  wp env (find_task t) Q st.
Proof.
  intros Hf Hs. destruct st as [k db n]. unfold find_task. apply wp_bind, wp_on_desk_market, FindTask_found.
  - intros reason st' Hb _. tk_prim. apply Hf. cbn in *. by rewrite Hb, with_desk_market_id.
  - intros value name st' Hb _ Ht. tk_prim. apply Hs; [|done]. cbn in *. by rewrite Hb, with_desk_market_id.
Qed.

Lemma check_organization_wp organization user permission st (Q : option DomainError -> TxStateOf Desk -> Prop) :
  (forall reason st', st_base st' = st_base st -> Q (Some reason) st') ->
  (forall st', st_base st' = st_base st -> member_permits organization user permission (desk_market (st_base st)) -> Q None st') ->
  wp env (check_organization organization user permission) Q st.
Proof.
  intros Hf Hs. destruct st as [k db n]. unfold check_organization. apply wp_bind, wp_on_desk_market, requirePermission_wp.
  - intros reason st' Hb _. tk_prim. apply Hf. cbn in *. by rewrite Hb, with_desk_market_id.
  - intros st' Hb _ Hp. tk_prim. apply Hs; [|done]. cbn in *. by rewrite Hb, with_desk_market_id.
Qed.

Lemma requireViewPermission_wp user value st (Q : option DomainError -> TxStateOf Desk -> Prop) :
  (forall reason st', st_base st' = st_base st -> Q (Some reason) st') ->
  (forall st', st_base st' = st_base st -> may_view user value (desk_market (st_base st)) -> Q None st') ->
  wp env (requireViewPermission user value) Q st.
Proof.
  intros Hf Hs. unfold requireViewPermission. case_bool_decide as Hc; [tk_prim; apply Hs; [done|by left]|].
  assert (forall organization, (Task.TVisibility value = Task.OrganizationVisibility organization \/
      exists team, Task.TVisibility value = Task.OrganizationTeamVisibility organization team) ->
    wp env (requireOrganizationViewPermission organization user) Q st) as Horg.
  { intros organization Hv. unfold requireOrganizationViewPermission. tk_prim. apply check_organization_wp.
    - intros reason st1 Hb. apply check_organization_wp; rewrite Hb; [done|]. intros st2 Hb2 Hp. apply Hs; [done|]. do 3 right. exists organization. auto.
    - intros st1 Hb Hp. tk_prim. apply Hs; [done|]. do 3 right. exists organization. auto. }
  destruct (Task.TVisibility value) as [|viewer| | |] eqn:Hv.
  - tk_prim. apply Hs; [done|]. by right; left.
  - tk_prim. case_bool_decide as E; [|by apply Hf]. apply Hs; [done|]. right; right; left. by rewrite Hv, E.
  - tk_prim. by apply Hf.
  - apply Horg. by left.
  - apply Horg. right. by eexists.
Qed.

Lemma requireReviewPermission_wp actor value st (Q : option DomainError -> TxStateOf Desk -> Prop) :
  (forall reason st', st_base st' = st_base st -> Q (Some reason) st') ->
  (forall st', st_base st' = st_base st -> may_review_submissions actor value (desk_market (st_base st)) -> Q None st') ->
  wp env (requireReviewPermissionForActor actor value) Q st.
Proof.
  intros Hf Hs. destruct st as [k db n]. unfold requireReviewPermissionForActor. case_bool_decide as Hc; [tk_prim; apply Hs; [done|by left]|].
  destruct (organizationIDForTask value) as [organization|] eqn:Ho; [|tk_prim; by apply Hf].
  assert (forall st', st_base st' = desk_market k -> st_base (MkTxState (with_desk_market (st_base st') k) (with_desk_market (st_db st') db) (st_step st')) = k) as Hid
    by (intros st' Hb; cbn; by rewrite Hb, with_desk_market_id).
  apply wp_bind, wp_on_desk_market. unfold Auth.RequireOrganizationAccess. destruct actor as [user|guest|org]; cbn [Auth.orgactor_Check].
  - apply wp_bind, requirePermission_wp; cbn [st_base]; intros; do 2 tk_prim; cbn; [by apply Hf, Hid|]. apply Hs; [by apply Hid|].
    right. exists organization. split; [done|]. right. by exists user.
  - do 2 tk_prim. by apply Hf, Hid.
  - destruct (decide (org = organization)) as [E|E]; do 2 tk_prim; [|by apply Hf, Hid]. apply Hs; [by apply Hid|]. right. exists organization. split; [done|]. left. congruence.
Qed.

Lemma submission_gates_wp t u st (Q : DomainError + Task.Task -> TxStateOf Desk -> Prop) :
  (forall reason st', st_base st' = st_base st \/ housekept_desk (st_base st) (st_base st') -> Q (inl reason) st') ->
  (forall value st', task_found t (desk_market (st_base st)) value -> Task.TState value = Task.StateOpen ->
     may_view u value (desk_market (st_base st)) -> housekept_desk (st_base st) (st_base st') ->
     entitled (TypedID_String t) (TypedID_String u) (desk_market (st_base st')) -> Q (inr value) st') ->
  wp env (submission_gates t u) Q st.
Proof.
  intros Hf Hs. unfold submission_gates. apply wp_attempt, find_task_wp; [by intros; apply Hf; left|]. intros value st1 Hb1 Hfound.
  case_bool_decide as Hopen; cbn [negb]; [|tk_prim; apply Hf; by left].
  apply wp_check, requireViewPermission_wp; rewrite Hb1; [by intros; apply Hf; left|]. intros st2 Hb2 Hview.
  unfold check_eligibility. destruct st2 as [k db n]. cbn [st_base] in Hb2. subst k.
  do 2 tk_prim. apply wp_on_desk_market, CheckSubmissionEligibility_wp; cbn.
  - intros reason st' [Hb|Hb]; tk_prim; apply Hf; cbn; [left; by rewrite Hb, with_desk_market_id|right; by eexists].
  - intros row columns st' Hk Hrow Hseries Hban Hor. do 2 tk_prim. apply Hs; [done..|by eexists|]. cbn. by eapply eligible_entitled.
Qed.

(** ** Submitting *)

Definition submit_command (request : Request) (budget : Work.WorkBudgetCharge) (draft : Draft) : SubmitCommand :=
  MkSubmitCommand (request_TaskID request) (request_SubmitterID request) (request_ResponseSource request) (request_Attachments request) budget draft.

(** The event of a submission. *)
Definition submission_draft (id : DomainEventID) (kind : Kind) (actor : UserID) (t : TaskID) (sid : SubmissionID) (recipients : Recipients) : Draft :=
  MkDraft id kind (ActorUser actor) (set_Submission (SubmissionSubject sid) (set_Task (TaskSubject t) NoSubjectRefs)) (TaskMetadata t) recipients.

(** The event [Submit] records. *)
Definition created_draft (event_id : DomainEventID) (request : Request) (target : Task.Task) (sid : SubmissionID) : Draft :=
  submission_draft event_id KindSubmissionCreated (request_SubmitterID request) (request_TaskID request) sid
    (NewRecipients [Task.CreatedBy target; request_SubmitterID request]).

(** A submission that got through: the task it found on the desk [k], the desk [k1]
    after the release of lapsed reservations, and the desk that filed it.  The relation
    is not recursive, and is only ever inverted. *)
#[local] Unset Elimination Schemes.
Inductive submit_made (origin : Work.WorkerOrigin) (request : Request) k : SubmitResult * list Draft -> Desk -> Prop :=
| submit_made_with target k1 budget schema response sid rid token event_id draft value k' :
    task_found (request_TaskID request) (desk_market k) target -> Task.TState target = Task.StateOpen ->
    may_view (request_SubmitterID request) target (desk_market k) -> housekept_desk k k1 ->
    entitled (TypedID_String (request_TaskID request)) (TypedID_String (request_SubmitterID request)) (desk_market k1) ->
    Work.WorkBudgetForSubmission origin target = inr budget ->
    parse_schema (Task.ResponseSchema target) = inr schema ->
    parse_value (request_ResponseSource request) = inr response ->
    (exists n, Submission.NewReceiptTokenPlain (random_bytes n) = Submission.ReceiptTokenPlainAccepted token) ->
    (exists n, new_submission_id n = TypedIDCreated sid) -> (exists n, new_receipt_id n = TypedIDCreated rid) ->
    draft = created_draft event_id request target sid ->
    submission_filed sid rid (Submission.Hash token) (submit_command request budget draft)
      (Submission.StateForValidation (validationOutcome schema response)) (validationOutcome schema response)
      (sensitiveFieldsFor schema response) k1 value k' ->
    submit_made origin request k (SubmissionCreated value token, [draft]) k'.
#[local] Set Elimination Schemes.

Definition submit_refused k (r : SubmitResult * list Draft) k' : Prop :=
  (exists reason, r = (SubmitRejected reason, [])) /\ exists k1, (k1 = k \/ housekept_desk k k1) /\ refused_desk k1 k'.

Lemma new_receipt_wp k db n (Q : DomainError + (SubmissionID * SubmissionReceiptTokenID * Submission.ReceiptTokenPlain) -> TxStateOf Desk -> Prop) :
  (forall reason n', Q (inl reason) (MkTxState k db n')) ->
  (forall sid rid token n', (exists n, new_submission_id n = TypedIDCreated sid) -> (exists n, new_receipt_id n = TypedIDCreated rid) ->
     (exists n, Submission.NewReceiptTokenPlain (random_bytes n) = Submission.ReceiptTokenPlainAccepted token) ->
     Q (inr (sid, rid, token)) (MkTxState k db n')) ->
  wp env new_receipt Q (MkTxState k db n).
Proof.
  intros Hf Hs. unfold new_receipt. apply wp_bind. unfold wp at 1, NewSubmissionID. cbn [st_step].
  destruct (new_submission_id n) as [sid|] eqn:E1; [|by apply wp_ret, Hf]. apply wp_bind. unfold wp at 1, NewSubmissionReceiptTokenID. cbn [st_step tick].
  destruct (new_receipt_id (S n)) as [rid|] eqn:E2; [|by apply wp_ret, Hf]. apply wp_bind. unfold wp at 1, NewReceiptToken. cbn [st_step tick].
  apply wp_ret. destruct (Submission.NewReceiptTokenPlain _) as [token|] eqn:E3; [|by apply Hf]. apply Hs; eauto.
Qed.

Lemma submissionEventDraft_wp kind actor t sid recipients k db n (Q : DomainError + Draft -> TxStateOf Desk -> Prop) :
  (forall reason, Q (inl reason) (MkTxState k db (S n))) ->
  (forall id, Q (inr (submission_draft id kind actor t sid recipients)) (MkTxState k db (S n))) ->
  wp env (submissionEventDraft kind actor t sid recipients) Q (MkTxState k db n).
Proof. intros Hf Hs. unfold submissionEventDraft. apply wp_bind, wp_new_event_id. intros [id|reason]; apply wp_ret; [apply Hs|apply Hf]. Qed.

Lemma store_submission_wp request target budget schema response k db n (Q : SubmitResult * list Draft -> TxStateOf Desk -> Prop) :
  (forall reason st', refused_desk k (st_base st') -> Q (SubmitRejected reason, []) st') ->
  (forall sid rid token event_id value k' n',
     (exists n, Submission.NewReceiptTokenPlain (random_bytes n) = Submission.ReceiptTokenPlainAccepted token) ->
     (exists n, new_submission_id n = TypedIDCreated sid) -> (exists n, new_receipt_id n = TypedIDCreated rid) ->
     submission_filed sid rid (Submission.Hash token) (submit_command request budget (created_draft event_id request target sid))
       (Submission.StateForValidation (validationOutcome schema response)) (validationOutcome schema response)
       (sensitiveFieldsFor schema response) k value k' ->
     Q (SubmissionCreated value token, [created_draft event_id request target sid]) (MkTxState k' k' n')) ->
  wp env (store_submission request target budget schema response) Q (MkTxState k db n).
Proof.
  intros Hf Hs. assert (forall reason db n, Q (SubmitRejected reason, []) (MkTxState k db n)) as Hr by (intros; apply Hf, refused_desk_refl).
  unfold store_submission. cbv zeta. apply wp_attempt, new_receipt_wp; [intros; apply Hr|]. intros sid rid token n2 Hsid Hrid Htoken. cbn beta iota.
  apply wp_attempt, submissionEventDraft_wp; [intros; apply Hr|]. intros event_id.
  apply wp_bind, CreateSubmission_wp; cbn [st_base]; [intros reason st' Hb; tk_prim; by apply Hf|].
  intros value k' n3 Hfiled. tk_prim. by eapply Hs.
Qed.

Lemma Submit_wp origin request st (Q : SubmitResult * list Draft -> TxStateOf Desk -> Prop) :
  (forall r st', submit_refused (st_base st) r (st_base st') \/ submit_made origin request (st_base st) r (st_base st') -> Q r st') ->
  wp env (Submit origin request) Q st.
Proof.
  intros HQ.
  assert (forall reason st', st_base st' = st_base st \/ housekept_desk (st_base st) (st_base st') -> Q (SubmitRejected reason, []) st') as Hf.
  { intros reason st' Hb. apply HQ. left. split; [by eexists|]. exists (st_base st'). split; [done|apply refused_desk_refl]. }
  unfold Submit. apply wp_attempt, submission_gates_wp; [done|]. intros target st1 Hfound Hopen Hview Hkept Hentitled.
  destruct (Work.WorkBudgetForSubmission origin target) as [|budget] eqn:Hbudget; [tk_prim; apply Hf; by right|].
  destruct (parse_schema _) as [|schema] eqn:Hschema; [tk_prim; apply Hf; by right|].
  destruct (parse_value _) as [|response] eqn:Hresponse; [tk_prim; apply Hf; by right|].
  destruct st1 as [k1 db1 n1]. cbn [st_base] in *. apply store_submission_wp.
  - intros reason st' Hr. apply HQ. left. split; [by eexists|]. exists k1. split; [by right|done].
  - intros sid rid token event_id value k' n' Htoken Hsid Hrid Hfiled. apply HQ. right. by econstructor.
Qed.

Lemma submit_run k origin request r k' :
  run env k (Submit origin request) = (r, k') -> submit_refused k r k' \/ submit_made origin request k r k'.
Proof.
  intros Hrun. assert (wp env (Submit origin request) (fun r st => submit_refused k r (st_base st) \/ submit_made origin request k r (st_base st)) (MkTxState k k 0))
    as (st & Hst & Hb)%wp_run by by apply Submit_wp.
  rewrite Hrun in Hst, Hb. cbn [fst snd] in Hst, Hb. by rewrite Hb.
Qed.

Lemma submit_created_made k origin request value token drafts k' :
  run env k (Submit origin request) = ((SubmissionCreated value token, drafts), k') ->
  submit_made origin request k (SubmissionCreated value token, drafts) k'.
Proof. intros [[[reason [=]] _]|Hm]%submit_run. done. Qed.

(** ** What stays as it was *)

Lemma housekept_frame (m m' : Market) : housekept m m' ->
  let d := tables m in let d' := tables m' in
  exists rs es rr, d' = with_events es rr (with_reservations rs d) /\
  task_columns m' = task_columns m /\ task_visibility_scopes m' = task_visibility_scopes m /\ task_attachments m' = task_attachments m /\ profiles m' = profiles m.
Proof. intros (now & ds & [released m1 d ->%expire_lapsed_inv _ (e & r & ->)%recorded_with_events]). by eexists _, _, _. Qed.

Lemma budget_charged_frame budget d d' : budget_charged budget d d' -> exists cs, d' = with_counters cs d.
Proof. destruct budget; cbn; [intros ->; exists (work_day_counters d); by destruct d|by intros [_ [? ->]%charged_counter_frame]; eexists]. Qed.

(** The tables once a submission is filed. *)
Lemma filed_tables_frame sid rid hash command state outcome fields k value k' :
  submission_filed sid rid hash command state outcome fields k value k' ->
  exists cs es rr, desk_tables k' = with_events es rr (filed_tables sid command state (with_counters cs (desk_tables k))).
Proof. intros [now d1 d2 stored profile name createdAt [cs ->]%budget_charged_frame _ _ _ _ _ _ _ _ (e & r & ->)%recorded_with_events _]. by exists cs, e, r. Qed.

End Specs.
End SubmissionSpecs.

(** * What the other stores do to submissions

    Reviews move a submission between states but never make one invalid nor an
    invalid one anything else, and no operation changes the schema of a task. *)

Module SubmissionFrames.
Export GalleryLife.
Export SubmissionSpecs.

Definition verdict_kept (row row' : SubmissionRow) : Prop :=
  sub_task_id row' = sub_task_id row /\ (sub_state row' = "invalid" <-> sub_state row = "invalid").

#[export] Instance verdict_kept_preorder : PreOrder verdict_kept.
Proof. unfold verdict_kept. split; [by intros row|]. intros r1 r2 r3 [T1 V1] [T2 V2]. split; [congruence|]. by rewrite V2. Qed.

Definition verdicts_kept (rows rows' : gmap string SubmissionRow) : Prop := forall s, option_Forall2 verdict_kept (rows !! s) (rows' !! s).

#[export] Instance verdicts_kept_preorder : PreOrder verdicts_kept.
Proof.
  split; [intros rows i; by destruct (rows !! i); constructor|]. intros r1 r2 r3 H12 H23 i. specialize (H12 i). specialize (H23 i).
  destruct H12 as [a b Hab|]; inv H23; try congruence; constructor. etrans; [exact Hab|]. congruence.
Qed.

Lemma verdicts_insert s row row' rows : rows !! s = Some row -> verdict_kept row row' -> verdicts_kept rows (<[s := row']> rows).
Proof.
  intros Hrow Hk i. destruct (decide (s = i)) as [<-|]; [|by rewrite lookup_insert_ne]. rewrite lookup_insert_eq, Hrow. by constructor.
Qed.

(** What a step keeps of the ledger's tables: verdicts, and that a task is there. *)
Record judged (d d' : DB) : Prop := {
  judged_rows : verdicts_kept (submissions d) (submissions d');
  judged_tasks : forall t, is_Some (tasks d !! t) -> is_Some (tasks d' !! t)
}.

#[export] Instance judged_preorder : PreOrder judged.
Proof. split; [by split|]. intros d1 d2 d3 [R1 T1] [R2 T2]. split; [by etrans|auto]. Qed.

Lemma same_judged d d' : submissions d' = submissions d -> tasks d' = tasks d -> judged d d'.
Proof. intros Hs Ht. split; [by rewrite Hs|by rewrite Ht]. Qed.

Section Frames.
Context `{UUIDLib, URLLib, World}.
Implicit Types (d : DB) (m : Market).

Lemma supersede_verdicts t s (rows : gmap string SubmissionRow) :
  verdicts_kept rows (map_imap (fun id row => Some (if decide (competing t s (id, row)) then set_sub_state "superseded" row else row)) rows).
Proof.
  intros i. rewrite map_lookup_imap. destruct (rows !! i) as [row|]; [|constructor]. cbn. constructor. case_decide as Hc; [|done].
  destruct Hc as (_ & _ & Hs). cbn in Hs. split; [done|]. cbn. by rewrite Hs.
Qed.

Lemma accepted_verdicts command d t s w payout tip ds d' :
  accepted command d (SubmissionAccepted t s w payout tip FirstExecution ds) d' -> verdicts_kept (submissions d) (submissions d').
Proof.
  intros Ha. inv Ha.
  match goal with Hr : reviewed _ _ _ _ _ |- _ => destruct Hr as (Hrow & _) end.
  match goal with Hr : supersedes _ _ _ _ _ |- _ => destruct Hr as [-> _] end.
  match goal with Hr : update_submission_accepted _ _ _ = inr _ |- _ => apply (update_submission_accepted_rows _ _ _ _ _ Hrow) in Hr as -> end.
  match goal with Hr : update_task_state _ _ _ = inr _ |- _ => apply update_task_state_inr in Hr as [ts ->] end.
  match goal with Hr : paid _ _ _ _ |- _ => apply paid_frame in Hr as [es ->] end.
  match goal with Hr : collectibles_paid _ _ _ _ _ |- _ => apply collectibles_paid_effect in Hr as (_ & _ & cs & fs & ->) end.
  match goal with Hr : tipped _ _ _ _ _ _ _ _ _ _ |- _ => apply tipped_frame in Hr as [es' ->] end.
  match goal with Hr : collectible_tipped _ _ _ _ _ _ |- _ => apply collectible_tipped_frame in Hr as [cs' ->] end.
  match goal with Hr : sub_state _ = "submitted" |- _ => rename Hr into Hst end.
  flatten. etrans; [|apply supersede_verdicts]. cbn. eapply verdicts_insert; [done|]. split; [done|]. cbn. by rewrite Hst.
Qed.

Lemma changes_verdicts command d t s w note ds d' :
  changes_requested command d (ChangesRequested t s w note FirstExecution ds) d' -> verdicts_kept (submissions d) (submissions d').
Proof.
  intros Hr. inv Hr. match goal with Hr : reviewed _ _ _ _ _ |- _ => destruct Hr as (Hrow & _) end.
  match goal with Hr : update_submission_changes_requested _ _ _ _ _ = inr _ |- _ =>
    unfold update_submission_changes_requested in Hr; rewrite Hrow in Hr; split_match_in Hr; [done|]; injection Hr as <- end.
  match goal with Hr : sub_state _ = "submitted" |- _ => rename Hr into Hst end.
  flatten. cbn. eapply verdicts_insert; [done|]. split; [done|]. cbn. by rewrite Hst.
Qed.

Lemma rejected_verdicts command d t s w payout tip ds d' :
  rejected command d (SubmissionRejected t s w payout tip FirstExecution ds) d' -> verdicts_kept (submissions d) (submissions d').
Proof.
  intros Hr. inv Hr.
  match goal with Hr : reviewed _ _ _ _ _ |- _ => destruct Hr as (Hrow & _) end.
  match goal with Hr : paid _ _ _ _ |- _ => apply paid_frame in Hr as [es ->] end.
  match goal with Hr : tipped _ _ _ _ _ _ _ _ _ _ |- _ => apply tipped_frame in Hr as [es' ->] end.
  match goal with Hr : banned _ _ _ _ |- _ => apply banned_frame in Hr as [_ [bs ->]] end.
  match goal with Hr : charged _ _ _ |- _ => apply charged_frame in Hr as [cs ->] end.
  match goal with Hr : update_submission_rejected _ _ _ _ _ = inr _ |- _ =>
    unfold update_submission_rejected in Hr; cbn in Hr; rewrite Hrow in Hr; split_match_in Hr; [done|]; injection Hr as <- end.
  match goal with Hr : sub_state _ = "submitted" |- _ => rename Hr into Hst end.
  flatten. cbn. eapply verdicts_insert; [done|]. split; [done|]. cbn. by rewrite Hst.
Qed.

Lemma performed_judged c d r d' : valid_command c -> performed c d r d' -> judged d d'.
Proof.
  intros Hv Hp. split; [|intros t [row Hrow]; destruct (kept_tasks _ _ (performed_keeps _ _ _ _ Hp) _ _ Hrow) as (row' & -> & _); by eexists].
  assert (refused d d' -> verdicts_kept (submissions d) (submissions d')) as Href by (by intros [cs ->]%refused_frame).
  destruct Hp as [command r d' -> Hf|command r d' -> Hf|command r d' -> Hf|command r d' -> Hf
                 |command r d' -> Hf|command r d' -> Hf|command r d' -> Hf|command r d' -> Hf]; cbn [valid_command] in *.
  - destruct r as [value [] ds|]; [|by inv Hf; auto..]. apply funded_effect in Hf as (account & row & _ & _ & _ & He); [|done].
    by rewrite (escrowed_submissions _ _ _ _ _ He).
  - destruct r as [value [] ds|]; [|by inv Hf; auto..]. apply funded_effect in Hf as (account & row & _ & _ & _ & He); [|done].
    by rewrite (escrowed_submissions _ _ _ _ _ He).
  - destruct r as [t s w payout tip [] ds|]; [by eapply accepted_verdicts|by inv Hf; auto..].
  - destruct r as [t s w note [] ds|]; [by eapply changes_verdicts|by inv Hf; auto..].
  - destruct r as [t s w payout tip [] ds|]; [by eapply rejected_verdicts|by inv Hf; auto..].
  - destruct r as [value [] ds|]; [|by inv Hf; auto..]. apply refunded_effect in Hf. by rewrite (cancellation_submissions _ _ _ _ Hf).
  - inv Hf; [auto; done..|]. by flatten.
  - inv Hf; [auto; done..|]. by flatten.
Qed.

(** What a step keeps of the market: that, and what a task asks for. *)
Record vetted m m' : Prop := {
  vetted_tables : judged (tables m) (tables m');
  vetted_columns : forall t, is_Some (tasks (tables m) !! t) -> task_columns m' !! t = task_columns m !! t
}.

#[export] Instance vetted_preorder : PreOrder vetted.
Proof. split; [by split|]. intros m1 m2 m3 [T1 C1] [T2 C2]. split; [by etrans|]. intros t Ht. rewrite C2; [by apply C1|by apply T1]. Qed.

Lemma tables_vetted d m : judged (tables m) d -> vetted m (with_tables d m).
Proof. by split. Qed.

Lemma task_state_judged t state d d' : update_task_state t state d = inr d' -> judged d d'.
Proof.
  unfold update_task_state. destruct (tasks d !! t) as [row|] eqn:Hrow; [|by intros [= <-]]. split_match; [done|]. intros [= <-]. split; [done|].
  intros u Hu. cbn. rewrite lookup_insert. destruct (decide (_ = u)); [by eexists|done].
Qed.

Lemma credit_refunded_judged now t key d d' : credit_refunded now t key d d' -> judged d d'.
Proof. intros (Ht & _ & _ & _ & Hs & _)%credit_refunded_frame. by apply same_judged. Qed.

Lemma settlement_judged now t key d us d' : settlement now t key d us d' -> judged d d'.
Proof.
  intros [d2 d3 (d1 & Hc & Hh) _ ->%update_reservations_eq]. trans d1; [by eapply credit_refunded_judged|].
  apply same_judged; by destruct Hh as [[_ ->]|[_ ->]].
Qed.

Lemma recorded_judged d ds d' : recorded d ds d' -> judged d d'.
Proof. intros (e & r & ->)%recorded_with_events. by apply same_judged. Qed.

Lemma escrows_judged t funder cs d d' : escrows t funder cs d d' -> judged d d'.
Proof.
  induction 1 as [d|c cs d d1 d2 Hh _ IH]; [done|]. etrans; [|exact IH]. apply held_for_inv in Hh as (_ & row & _ & _ & _ & _ & ->). by apply same_judged.
Qed.

Lemma created_vetted seriesID t command m m' : created seriesID t command m m' -> vetted m m'.
Proof.
  intros Hc. pose proof (created_tables _ _ _ _ _ Hc) as [Hnone He%escrows_judged].
  assert (forall u, is_Some (tasks (tables m) !! u) -> u <> TypedID_String t) as Hne by (intros u Hu ->; rewrite Hnone in Hu; by destruct Hu).
  split.
  - etrans; [|exact He]. split; [done|]. intros u Hu. cbn. by rewrite lookup_insert_ne by (by apply not_eq_sym, Hne).
  - intros u Hu%Hne. destruct Hc as [now series m1 m2 m3 m4 d5 Hp (_ & stored & _ & ->)%insert_task_inv ->%insert_visibility_inv [Hcol _]%attached_frame _].
    cbn. rewrite Hcol. cbn. rewrite lookup_insert_ne by done. destruct Hp as [| |]; [done| |done].
    match goal with Hi : context [insert_series] |- _ => revert Hi end. cbv zeta. unfold insert_series. repeat case_match; intros [=]; by subst.
Qed.

Lemma commit_vetted asked m m' : commit asked m m' -> vetted m m'.
Proof.
  intros [c r d Hv Hp|m0 [s t command m1 _ Hc|t state plan ds m1 _ Hc|now ds m1 Hl|m1 (d & [cs ->]%refused_frame & ->)|id command m1 Hr
         |t id state plan ds m1 _ Hr|t draft m1 He]].
  - by eapply tables_vetted, performed_judged.
  - by eapply created_vetted.
  - destruct Hc as [now row us d1 d2 ds' d3 _ _ Hset Hu _ Hr]. apply tables_vetted. trans d1.
    { case_decide; [by eapply settlement_judged|]. by destruct Hset as [_ ->]. }
    trans d2; [by eapply task_state_judged|by eapply recorded_judged].
  - destruct Hl as [released m2 d ->%expire_lapsed_inv _ Hr%recorded_judged]. split; [|done]. etrans; [|exact Hr]. by apply same_judged.
  - by apply tables_vetted, same_judged.
  - destruct Hr as [now row columns d1 m2 d3 _ _ _ _ _ _ [cs ->]%origin_charged_frame (-> & _)%insert_reservation_inv Hr%recorded_judged].
    split; [|done]. etrans; [|exact Hr]. by apply same_judged.
  - destruct Hr as [row ds' d _ _ _ _ Hr%recorded_judged]. apply tables_vetted. etrans; [|exact Hr]. by apply same_judged.
  - destruct He as [now row columns owner us i d1 d2 d3 _ _ _ _ Hset Hu _ Hr]. apply tables_vetted.
    trans d1; [by eapply settlement_judged|]. trans d2; [by eapply task_state_judged|by eapply recorded_judged].
Qed.

(** *** The gallery *)

Context `{CollectibleIDs}.
Implicit Types (g : Gallery).

Lemma changed_judged c f draft d d' : changed c f draft d d' -> judged d d'.
Proof. intros Hc%recorded_judged. etrans; [|exact Hc]. by apply same_judged. Qed.

Lemma custody_judged d d' : custody_step d d' -> judged d d'.
Proof.
  intros [command value d1 Hs|command values d1 Hs|command value d1 []|command value d1 []|command value d1 []|command value d1 []|command value draft d1 []|c d1 Hs];
    [| |by eapply changed_judged..|by destruct Hs as (_ & _ & ->); apply same_judged].
  - destruct Hs as [row crow v d2 Hrow _ _ _ _ Hh]. apply held_for_inv in Hh as (_ & row' & _ & _ & _ & _ & ->). split; [done|].
    intros u Hu. cbn. rewrite lookup_insert. destruct (decide (_ = u)); [by eexists|done].
  - destruct Hs as [row vs d2 d3 _ _ _ _ _ _ Ht%task_state_judged ->%update_reservations_eq].
    trans d2; [|by apply same_judged]. etrans; [|exact Ht]. by apply same_judged.
Qed.

Lemma inserted_vetted id row g stored g' : inserted id row g stored g' -> vetted (market g) (market g').
Proof. intros [_ _ _ _ [now ->]]. by apply tables_vetted, same_judged. Qed.

Lemma gallery_commit_vetted g op g' : gallery_commit g op g' -> vetted (market g) (market g').
Proof.
  assert (forall slug old new, switch_entry slug old new g = inr (1, g') -> market g' = market g) as Hsw.
  { unfold switch_entry. intros slug old new. repeat (case_match; try done). by intros [= <-]. }
  intros Hc. destruct Hc; cbn; try (by eapply tables_vetted, custody_judged; econstructor; eauto).
  - match goal with Hm : custom_made _ _ _ _ |- _ => revert Hm end. intros [? ? ? _ (? & ? & _ & Hi)%insert_collectible_inv]. by eapply inserted_vetted.
  - match goal with Hm : award_minted _ _ _ _ _ |- _ => revert Hm end. intros [? ? ? ? ? _ _ _ (? & ? & _ & Hi)%insert_collectible_inv]. by eapply inserted_vetted.
  - match goal with Hm : entry_added _ _ _ |- _ => revert Hm end. intros [now Hi]. unfold insert_entry in Hi. destruct (negb _); [done|].
    case_bool_decide; [done|]. by injection Hi as <-.
  - by erewrite Hsw.
  - by erewrite Hsw.
  - match goal with Hm : entry_deleted _ _ _ _ |- _ => revert Hm end. by intros (_ & _ & _ & ->).
  - match goal with Hm : release_made _ _ _ _ _ |- _ => revert Hm end.
    intros [row v slug crow entry dr g1 d Hrow _ _ _ _ _ Hm _ Hr%recorded_judged]. apply (mint_again_inv _ row) in Hm as [_ ->]; [|done].
    match type of Hr with judged ?d1 _ => split; [trans d1; [by apply same_judged|done]|done] end.
Qed.

Lemma gallery_after_vetted env g op : valid_gallery op -> gallery_ok g -> vetted (market g) (market (gallery_after env g op)).
Proof.
  intros Hv Hg. assert ((exists o, op = GMarket o) \/ forall o, op <> GMarket o) as [[o ->]|Hn] by (destruct op; naive_solver).
  - destruct Hv as [Ho _]. rewrite gallery_after_market. cbn. pose proof (gallery_sound _ Hg) as Hs. apply sound_market in Hs as [Hm _].
    pose proof (operation_commits env (market g) o Ho (market_ledger _ Hm) (market_keys _ Hm)) as Hc.
    clear -Hc. induction Hc as [m|m m1 m2 Hc _ IH]; [done|]. etrans; [by eapply commit_vetted|done].
  - destruct (gallery_operation_commits env g op Hn) as [->|Hc]; [done|by eapply gallery_commit_vetted].
Qed.

End Frames.
End SubmissionFrames.
