(* ===== verification/SubmissionLife.v ===== *)
(** * Submissions over a schedule

    Market, gallery and submission operations run one after another on one database,
    the invariant they keep, and the properties of the submission service: who may
    submit and against what, that what is accepted was valid, that a submission reads
    back from its receipt, what a receipt shows, who reads a thread, and what becomes
    of a submission filed late. *)

From Stdlib Require Import Ascii.
From S2P Require Import Prelude.
From S2P Require Import Core.
From S2P Require Import OrgRoles.
From S2P Require Import Auth.
From S2P Require Import Events.
From S2P Require Import Json.
From S2P Require Import JsonFacts.
From S2P Require Import Calendar.
From S2P Require Import Attachments.
From S2P Require Import TaskValues.
From S2P Require Import SchemaModel.
From S2P Require Import SchemaValue.
From S2P Require Import SchemaCheck.
From S2P Require Import TaskWork.
From S2P Require Import LedgerValues.
From S2P Require Import Database.
From S2P Require Import Tx.
From S2P Require Import LedgerSpec.
From S2P Require Import Outbox.
From S2P Require Import LedgerHelpers.
From S2P Require Import LedgerStore.
From S2P Require Import HelperSpecs.
From S2P Require Import ReviewSpecs.
From S2P Require Import StoreSpecs.
From S2P Require Import Refinement.
From S2P Require Import LedgerCorrect.
From S2P Require Import LedgerReplay.
From S2P Require Import LedgerBehaviour.
From S2P Require Import LedgerInvariants.
From S2P Require Import EscrowSpecs.
From S2P Require Import DeliveryDB.
From S2P Require Import TaskDB.
From S2P Require Import OrgStore.
From S2P Require Import TaskRows.
From S2P Require Import TaskStore.
From S2P Require Import TaskSpecs.
From S2P Require Import SweepSpecs.
From S2P Require Import ReservationSpecs.
From S2P Require Import CreationSpecs.
From S2P Require Import Lifecycle.
From S2P Require Import LifecycleCorrect.
From S2P Require Import CollectibleStore.
From S2P Require Import CatalogStore.
From S2P Require Import CollectibleService.
From S2P Require Import GallerySpecs.
From S2P Require Import GalleryFrames.
From S2P Require Import GalleryLife.
From S2P Require Import SubmissionStore.
From S2P Require Import SubmissionService.
From S2P Require Import SubmissionCorrect.

Local Open Scope string_scope.
Local Open Scope Z_scope.

(** * Operations and their invariant *)

Module SubmissionLife.
Export SubmissionFrames.

Inductive DeskOp :=
| DGallery (op : GalleryOp)
| DSubmit (origin : Work.WorkerOrigin) (request : Request)
| DComment (actor : UserID) (submissionID : SubmissionID) (body : Submission.CommentBody).

Definition valid_desk `{UUIDLib} (op : DeskOp) : Prop := match op with DGallery op => valid_gallery op | _ => True end.

Section Life.
Context `{UUIDLib, URLLib, World, CollectibleIDs, SubmissionWorld}.
Implicit Types (k : Desk) (g : Gallery) (m : Market) (d : DB).

Definition desk_operate (op : DeskOp) : MOf Desk unit :=
  match op with
  | DGallery op => on_gallery (gallery_operate op)
  | DSubmit origin request => ignore (Submit origin request)
  | DComment actor submissionID body => ignore (AddSubmissionComment actor submissionID body)
  end.

Definition desk_after (env : Env) k (op : DeskOp) : Desk := snd (run env k (desk_operate op)).

Definition desk_after_all (schedule : list (Env * DeskOp)) k : Desk := foldl (fun k eo => desk_after eo.1 k eo.2) k schedule.

(** ** The invariant *)

(** The rows of a submission beside its own: its response against the schema its task
    has, the errors and the sensitive fields that gives. *)
Inductive examined k (s : string) (row : SubmissionRow) : Schema -> Value -> Prop :=
| examined_with raw columns asked source schema response :
    submission_columns k !! s = Some columns -> jsonb raw = Some (sc_response_json columns) ->
    parse_value (Submission.MkResponseSource raw) = inr response ->
    is_Some (tasks (desk_tables k) !! sub_task_id row) -> task_columns (desk_market k) !! sub_task_id row = Some asked ->
    outcome (Task.NewResponseSchemaSource (tc_response_schema_json asked)) = inr source -> parse_schema source = inr schema ->
    filter (fun e => er_submission_id e = s) (validation_errors k) = rows_from (error_row s) 0 (outcome_errors (validationOutcome schema response)) ->
    filter (fun f => sf_submission_id f = s) (sensitive_fields k) = rows_from (sensitive_row s) 0 (sensitiveFieldsFor schema response) ->
    (sub_state row = "invalid" <-> validationOutcome schema response <> Submission.ValidationPassed) ->
    examined k s row schema response.

Record desk_ok k : Prop := {
  desk_gallery : gallery_ok (gallery k);
  desk_examined s row : submissions (desk_tables k) !! s = Some row -> exists schema response, examined k s row schema response;
  desk_errors : Forall (fun e => is_Some (submissions (desk_tables k) !! er_submission_id e)) (validation_errors k);
  desk_sensitive : Forall (fun f => is_Some (submissions (desk_tables k) !! sf_submission_id f)) (sensitive_fields k);
  desk_attached : Forall (fun a => is_Some (submissions (desk_tables k) !! sa_submission_id a)) (submission_attachments k);
  desk_receipts : map_Forall (fun _ r => is_Some (submissions (desk_tables k) !! rt_submission_id r)) (receipt_tokens k)
}.

(** *** The gallery moves *)

Lemma verdicts_there rows rows' s : verdicts_kept rows rows' -> is_Some (rows !! s) -> is_Some (rows' !! s).
Proof. intros Hv [row Hrow]. specialize (Hv s). rewrite Hrow in Hv. inv Hv. by eexists. Qed.

Lemma vetted_ok g k : gallery_ok g -> vetted (market (gallery k)) (market g) -> desk_ok k -> desk_ok (with_gallery g k).
Proof.
  intros Hg [[Hv Ht] Hc] [_ Hex He Hs Ha Hr]. pose proof (fun s => verdicts_there _ _ s Hv) as Hthere.
  split; [done| | | | |]; cbn.
  - intros s row' Hrow'. specialize (Hv s). unfold desk_tables, desk_market in Hrow'. cbn in Hrow'. rewrite Hrow' in Hv.
    destruct (submissions (tables (market (gallery k))) !! s) as [row|] eqn:Hrow; inversion Hv as [? ? [Htask Hinvalid]|]; subst.
    destruct (Hex _ _ Hrow) as (? & ? & [raw columns asked source schema response Hcol Hraw Hresp Htasks Hasked Hsource Hschema Herr Hsens Hst]).
    exists schema, response. apply (examined_with _ _ _ raw columns asked source); rewrite ?Htask, ?Hinvalid; try done.
    + by apply Ht.
    + unfold desk_market. cbn. by rewrite Hc.
  - eapply List.Forall_impl; [|exact He]. intros e. apply Hthere.
  - eapply List.Forall_impl; [|exact Hs]. intros e. apply Hthere.
  - eapply List.Forall_impl; [|exact Ha]. intros e. apply Hthere.
  - eapply map_Forall_impl; [exact Hr|]. intros i r. apply Hthere.
Qed.

(** *** Rows of one submission among those of all *)

Section Side.
Context {A R : Type} (key : R -> string) (make : Z -> A -> R) (sid : string) (rows : list R).
Hypothesis made_key : forall i v, key (make i v) = sid.

Lemma filter_made index values s :
  filter (fun r => key r = s) (rows_from make index values) = if decide (s = sid) then rows_from make index values else [].
Proof.
  revert index. induction values as [|v values IH]; intros index; cbn [rows_from]; [by case_decide|]. rewrite filter_cons, IH, made_key.
  repeat case_decide; congruence.
Qed.

Lemma filter_others (present : gmap string SubmissionRow) :
  Forall (fun r => is_Some (present !! key r)) rows -> present !! sid = None -> filter (fun r => key r = sid) rows = [].
Proof.
  intros Hall Hnone. induction Hall as [|r rs Hr _ IH]; [done|]. rewrite filter_cons, IH. case_decide as E; [|done].
  rewrite E, Hnone in Hr. by destruct Hr.
Qed.

Lemma filter_appended (present : gmap string SubmissionRow) index values s :
  Forall (fun r => is_Some (present !! key r)) rows -> present !! sid = None ->
  filter (fun r => key r = s) (rows ++ rows_from make index values)%list =
    if decide (s = sid) then rows_from make index values else filter (fun r => key r = s) rows.
Proof.
  intros Hall Hnone. rewrite list.filter_app, filter_made. case_decide as E; [|by rewrite app_nil_r]. subst s. by rewrite (filter_others present).
Qed.

Lemma present_appended (present present' : gmap string SubmissionRow) index values :
  (forall s, is_Some (present !! s) -> is_Some (present' !! s)) -> is_Some (present' !! sid) ->
  Forall (fun r => is_Some (present !! key r)) rows -> Forall (fun r => is_Some (present' !! key r)) (rows ++ rows_from make index values)%list.
Proof.
  intros Hmono Hsid Hall. apply Forall_app. split; [by eapply List.Forall_impl; [|exact Hall]; intros; apply Hmono|].
  revert index. induction values as [|v values IH]; intros index; cbn [rows_from]; constructor; [by rewrite made_key|apply IH].
Qed.
End Side.

(** *** A submission is filed *)

Lemma filed_tables_sound sid command state d :
  sound d -> sound (filed_tables sid command state d).
Proof.
  intros [Hl Hk Hn Hc Ha]. split; [| |apply (same_tasks_ended d); [done| |done]|by apply (same_custody d)|by apply (same_kinds_agree d)].
  - apply (refunds_ok d); [|done]. by apply same_view_refunds.
  - done.
  - split; [done..|]. cbn. unfold reservations_after. intros i row'. case_bool_decide; [by exists row'|]. rewrite lookup_fmap, fmap_Some.
    intros (row & Hrow & ->). exists row. split; [done|]. intros t. destruct (worker_reservation _ _ _ row) eqn:Ew; [|done].
    intros [Et _]%andb_true_iff. unfold non_terminal. apply andb_true_iff. split; [exact Et|]. apply bool_decide_eq_true in Ew as (_ & _ & _ & Es%list_elem_of_singleton).
    apply bool_decide_eq_true. by left.
Qed.

Lemma counters_events_sound d cs es rs : sound d -> sound (with_events es rs (with_counters cs d)).
Proof. intros Hs. apply (same_rest_sound d); [done..|apply (same_custody d); [done..|apply Hs]|done]. Qed.

(** A submission filed against the schema its task has is examined, and so are the others. *)
Lemma filed_ok sid rid hash command fields k value k' asked source schema response :
  let outcome_ := validationOutcome schema response in
  submission_filed sid rid hash command (Submission.StateForValidation outcome_) outcome_ fields k value k' ->
  fields = sensitiveFieldsFor schema response ->
  task_columns (desk_market k) !! TypedID_String (submit_TaskID command) = Some asked ->
  outcome (Task.NewResponseSchemaSource (tc_response_schema_json asked)) = inr source -> parse_schema source = inr schema ->
  parse_value (submit_ResponseSource command) = inr response ->
  desk_ok k -> desk_ok k'.
Proof.
  intros outcome_ Hfiled -> Hasked Hsource Hschema Hresponse [Hg Hex He Hs Ha Hr].
  destruct Hfiled as [now d1 d2 stored profile name createdAt [cs ->]%budget_charged_frame Hjson Htask _ Hfresh _ _ _ _ (es & rs & ->)%recorded_with_events _].
  cbn in Hfresh, Htask. set (rows := submissions (desk_tables k)) in *.
  assert (forall s, is_Some (rows !! s) -> s <> TypedID_String sid) as Hold by (intros s [row Hrow] ->; congruence).
  assert (forall s, is_Some (rows !! s) -> is_Some (<[TypedID_String sid := submitted_row command (Submission.StateForValidation outcome_)]> rows !! s)) as Hmono
    by (intros s Hrow; rewrite lookup_insert_ne; [done|by apply not_eq_sym, Hold]).
  split.
  - apply dimmed_ok; [|done|done]. apply (counters_events_sound (filed_tables _ _ _ (desk_tables k)) cs es rs), filed_tables_sound, Hg.
  - unfold desk_tables, desk_market. cbn. fold rows. intros s row. rewrite lookup_insert_Some. intros [[<- <-]|[Hne Hrow]].
    + exists schema, response. apply (examined_with _ _ _ (Submission.ResponseSource_value (submit_ResponseSource command)) (MkSubmissionColumns stored now) asked source);
        cbn; try done; [apply lookup_insert_eq| | |].
      * rewrite (filter_appended er_submission_id (error_row (TypedID_String sid)) (TypedID_String sid) _ (fun _ _ => eq_refl) (submissions (desk_tables k))); by rewrite ?decide_True.
      * rewrite (filter_appended sf_submission_id (sensitive_row (TypedID_String sid)) (TypedID_String sid) _ (fun _ _ => eq_refl) (submissions (desk_tables k))); by rewrite ?decide_True.
      * unfold outcome_. by destruct (validationOutcome schema response).
    + destruct (Hex _ _ Hrow) as (? & ? & [raw columns asked' source' schema' response' Hcol Hraw Hresp Htasks Hasked' Hsource' Hschema' Herr Hsens Hst]).
      exists schema', response'. apply (examined_with _ _ _ raw columns asked' source'); cbn; try done; [by rewrite lookup_insert_ne| |].
      * rewrite (filter_appended er_submission_id (error_row (TypedID_String sid)) (TypedID_String sid) _ (fun _ _ => eq_refl) (submissions (desk_tables k))); rewrite ?decide_False; done.
      * rewrite (filter_appended sf_submission_id (sensitive_row (TypedID_String sid)) (TypedID_String sid) _ (fun _ _ => eq_refl) (submissions (desk_tables k))); rewrite ?decide_False; done.
  - cbn. apply (present_appended er_submission_id (error_row (TypedID_String sid)) _ _ (fun _ _ => eq_refl) rows); [done|rewrite lookup_insert_eq; by eexists|done].
  - cbn. apply (present_appended sf_submission_id (sensitive_row (TypedID_String sid)) _ _ (fun _ _ => eq_refl) rows); [done|rewrite lookup_insert_eq; by eexists|done].
  - cbn. apply (present_appended sa_submission_id (attached_row (TypedID_String sid)) _ _ (fun _ _ => eq_refl) rows); [done|rewrite lookup_insert_eq; by eexists|done].
  - cbn. apply map_Forall_insert_2; [cbn; rewrite lookup_insert_eq; by eexists|]. eapply map_Forall_impl; [exact Hr|]. intros i r. apply Hmono.
Qed.

(** *** Reading a submission and its thread *)

(** The submission is the one row of the select. *)
Definition submission_read k (s : SubmissionID) (value : Submission.Submission) : Prop :=
  exists row, submission_sql_row k (TypedID_String s) = Some row /\ parseSubmissionRow row = inr value.

(** Its submitter, and who may review submissions of its task. *)
Definition thread_reader (actor : Auth.Subject) k (value : Submission.Submission) (target : Task.Task) : Prop :=
  task_found (Submission.TaskID_ value) (desk_market k) target /\
  (actor = Auth.UserSubject (Submission.SubmitterID value) \/ may_review_submissions actor target (desk_market k)).

Context {env : Env}.

Lemma FindSubmission_wp s st (Q : FindSubmissionStoreResult -> TxStateOf Desk -> Prop) :
  (forall reason st', st_base st' = st_base st -> Q (FindSubmissionStoreRejected reason) st') ->
  (forall value st', st_base st' = st_base st -> submission_read (st_base st) s value -> Q (FindSubmissionStoreAccepted value) st') ->
  wp env (FindSubmission s) Q st.
Proof.
  intros Hf Hs. unfold FindSubmission. apply wp_attempt, read_rows_wp. intros [reason|values] st' Hb _ Hr; [by apply Hf|]. tk_prim.
  destruct values as [|value [|]]; [by apply Hf| |by apply Hf]. apply Hs; [done|]. unfold submission_read.
  destruct (submission_sql_row (st_base st) (TypedID_String s)) as [row|]; [|by inv Hr]. exists row. split; [done|]. by inv Hr.
Qed.

Lemma loadCommentableSubmissionWithTask_wp actor s st (Q : DomainError + (Submission.Submission * Task.Task) -> TxStateOf Desk -> Prop) :
  (forall reason st', st_base st' = st_base st -> Q (inl reason) st') ->
  (forall value target st', st_base st' = st_base st -> submission_read (st_base st) s value -> thread_reader actor (st_base st) value target ->
     Q (inr (value, target)) st') ->
  wp env (loadCommentableSubmissionWithTask actor s) Q st.
Proof.
  intros Hf Hs. unfold loadCommentableSubmissionWithTask. apply wp_bind, FindSubmission_wp; [intros; tk_prim; by apply Hf|].
  intros value st1 Hb1 Hread. apply wp_attempt, find_task_wp; rewrite Hb1; [by intros; apply Hf|]. intros target st2 Hb2 Hfound.
  case_bool_decide as Hc; [tk_prim; apply Hs; [done|done|split; [done|by left]]|].
  apply wp_check, requireReviewPermission_wp; rewrite Hb2; [by intros; apply Hf|]. intros st3 Hb3 Hp. tk_prim. apply Hs; [done|done|split; [done|by right]].
Qed.

(** A comment filed: its thread is open to the author. *)
Inductive comment_filed (actor : UserID) (s : SubmissionID) (body : Submission.CommentBody) k : Desk -> Prop :=
| comment_filed_with value target id now draft d :
    submission_read k s value -> thread_reader (Auth.UserSubject actor) k value target ->
    is_Some (submissions (desk_tables k) !! TypedID_String (Submission.ID value)) -> TypedID_String actor ∈ users (desk_tables k) ->
    submission_comments k !! id = None -> recorded (desk_tables k) [draft] d ->
    comment_filed actor s body k
      (with_comments (<[id := MkCommentRow (TypedID_String (Submission.ID value)) (TypedID_String actor) (Submission.CommentBody_value body) now]>
         (submission_comments k)) (with_desk_tables d k)).

Definition comment_result (actor : UserID) (s : SubmissionID) (body : Submission.CommentBody) k (r : SubmissionCommentResult) k' : Prop :=
  match r with SubmissionCommentRejected _ => k' = k \/ comment_filed actor s body k k' | SubmissionCommentAdded _ _ _ _ => comment_filed actor s body k k' end.

Lemma fetch_on_pool_wp user st (Q : DomainError + DisplayName -> TxStateOf Desk -> Prop) :
  (forall r st', st_base st' = st_base st -> Q r st') -> wp env (fetchUserDisplayName pool_query user) Q st.
Proof.
  intros HQ. unfold fetchUserDisplayName. do 2 tk_prim; [by apply HQ|]. destruct (x ← _; _); [by apply HQ|]. tk_prim. by apply HQ.
Qed.

Lemma AddSubmissionComment_wp actor s body st (Q : SubmissionCommentResult * list Draft -> TxStateOf Desk -> Prop) :
  (forall r st', comment_result actor s body (st_base st) r.1 (st_base st') -> Q r st') ->
  wp env (AddSubmissionComment actor s body) Q st.
Proof.
  intros HQ. assert (forall reason st', st_base st' = st_base st -> Q (SubmissionCommentRejected reason, []) st') as Hf by (intros; apply HQ; by left).
  unfold AddSubmissionComment. apply wp_attempt, loadCommentableSubmissionWithTask_wp; [done|]. intros value target st1 Hb1 Hread Hreader.
  destruct st1 as [k db n]. cbn [st_base] in Hb1. subst k. set (k := st_base st) in *. cbn beta iota.
  apply wp_bind. unfold wp at 1, NewSubmissionCommentID. cbn [st_step]. destruct (new_submission_comment_id n) as [id|]; [|tk_prim; by apply Hf].
  apply wp_attempt. unfold tick. cbn. apply submissionEventDraft_wp; [by intros; apply Hf|]. intros event_id. set (draft := submission_draft _ _ _ _ _ _).
  apply wp_bind. unfold CreateSubmissionComment. do 2 tk_prim; [tk_prim; by apply Hf|]. tk_prim. apply wp_desk_time. cbn [st_step]. set (now := server_now _).
  do 2 tk_prim; cbn [st_db st_base st_step]; [tk_prim; by apply Hf|]. destruct (insert_comment _ _ k) as [|k2] eqn:Hk2; [tk_prim; by apply Hf|].
  unfold insert_comment in Hk2. destruct (negb _) eqn:Hrefs; [done|]. case_bool_decide as Hfresh; [done|]. injection Hk2 as <-.
  apply negb_false_iff, andb_true_iff in Hrefs as [Hsub%bool_decide_eq_true Huser%bool_decide_eq_true].
  apply wp_check, wp_on_desk_tables, recordEventDraft_wp; cbn [st_base].
  { intros err st' Hb. tk_prim. apply Hf. cbn. by rewrite Hb, with_desk_tables_id. }
  intros d n2 Hd. rewrite with_desk_tables_id. do 2 tk_prim; [tk_prim; by apply Hf|]. cbn [st_db st_base st_step].
  apply wp_attempt, fetch_on_pool_wp. cbn [st_base].
  assert (comment_filed actor s body k (with_desk_tables d (with_comments (<[TypedID_String id := MkCommentRow (TypedID_String (Submission.ID value))
    (TypedID_String actor) (Submission.CommentBody_value body) now]> (submission_comments k)) k))) as Hc
    by (refine (comment_filed_with actor s body k value target (TypedID_String id) now draft d _ _ _ _ _ _); try done; by apply eq_None_not_Some).
  intros [reason|name] st' Hb; tk_prim; apply HQ; rewrite Hb; [by right|done].
Qed.

(** *** Every operation keeps the invariant *)

Context `{!UUIDLaws}.

Lemma market_commit_ok m k : commit (fun _ => False) (desk_market k) m -> desk_ok k -> desk_ok (with_desk_market m k).
Proof.
  intros Hc Hk. pose proof (desk_gallery _ Hk) as Hg. destruct (commits_gallery (fun _ => False) (desk_market k) m) as [Hs Hd%steady_dimmed];
    [done|by apply rtc_once|apply Hg|]. apply (vetted_ok (with_market m (gallery k))); [by apply dimmed_ok|by eapply commit_vetted|done].
Qed.

Lemma housekept_ok k k' : housekept_desk k k' -> desk_ok k -> desk_ok k'.
Proof. intros (m & Hm & ->). by apply market_commit_ok, commit_tasks, housekept_commits. Qed.

Lemma refused_ok k k' : refused_desk k k' -> desk_ok k -> desk_ok k'.
Proof. intros (d & Hd & ->). apply market_commit_ok, commit_tasks, commit_refusal. by exists d. Qed.

Lemma recorded_desk_ok ds d k : recorded (desk_tables k) ds d -> desk_ok k -> desk_ok (with_desk_tables d k).
Proof.
  intros Hd Hk. apply (vetted_ok (with_market (with_tables d (desk_market k)) (gallery k))); [|by apply tables_vetted, (recorded_judged _ ds)|done].
  apply recorded_with_events in Hd as (es & rs & ->). apply dimmed_ok; [|done|apply Hk].
  pose proof (gallery_sound _ (desk_gallery _ Hk)) as Hs. by apply (counters_events_sound _ (work_day_counters (desk_tables k)) es rs) in Hs.
Qed.

Lemma comments_ok c k : desk_ok k -> desk_ok (with_comments c k).
Proof.
  intros [Hg Hex He Hs Ha Hr]. split; [done| |done..]. intros s row Hrow. destruct (Hex s row Hrow) as (schema & response & He').
  exists schema, response. destruct He'. by econstructor.
Qed.

Lemma task_found_schema t m target :
  task_found t m target -> exists asked, task_columns m !! TypedID_String t = Some asked /\
    outcome (Task.NewResponseSchemaSource (tc_response_schema_json asked)) = inr (Task.ResponseSchema target).
Proof.
  intros [row columns vis Hrow _ _ Hof]. exists columns. split; [|exact (of_schema _ _ Hof)]. by apply task_row_Some in Hrow as [_ ?].
Qed.

Lemma submit_made_ok origin request k r k' : submit_made origin request k r k' -> desk_ok k -> desk_ok k'.
Proof.
  intros [target k1 budget schema response sid rid token event_id draft value k2 Hfound _ _ Hkept _ _ Hschema Hresponse _ _ _ _ Hfiled] Hk.
  apply task_found_schema in Hfound as (asked & Hasked & Hsource).
  eapply (filed_ok _ _ _ _ _ _ _ _ asked (Task.ResponseSchema target) schema response); [exact Hfiled|done| |done..|by eapply housekept_ok].
  destruct Hkept as (m & Hm%housekept_frame & ->). cbn in Hm. destruct Hm as (_ & _ & _ & _ & Hcols & _). cbn. by rewrite Hcols.
Qed.

Lemma desk_after_gallery k (op : GalleryOp) : desk_after env k (DGallery op) = with_gallery (gallery_after env (gallery k) op) k.
Proof. unfold desk_after, gallery_after, run, desk_operate, on_gallery. cbn [st_base st_db st_step]. by destruct (gallery_operate op env _). Qed.

Lemma run_ignored {A} (k : Desk) (c : MOf Desk A) : snd (run env k (ignore c)) = snd (run env k c).
Proof. unfold run, ignore, mbind, M_bind. by destruct (c env _). Qed.

Lemma desk_after_ok k op : valid_desk op -> desk_ok k -> desk_ok (desk_after env k op).
Proof.
  intros Hv Hk. destruct op as [op|origin request|actor s body].
  - rewrite desk_after_gallery. apply vetted_ok; [|apply gallery_after_vetted|]; try done; [|apply Hk]. apply gallery_after_ok; [done|apply Hk].
  - unfold desk_after. cbn [desk_operate]. rewrite run_ignored. destruct (run env k (Submit origin request)) as [r k'] eqn:Hrun.
    apply submit_run in Hrun as [[_ (k1 & Hk1 & Href)]|Hm]; [|by eapply submit_made_ok]. eapply refused_ok; [exact Href|].
    destruct Hk1 as [->|Hkept]; [done|by eapply housekept_ok].
  - unfold desk_after. cbn [desk_operate]. rewrite run_ignored.
    assert (wp env (AddSubmissionComment actor s body) (fun r st => comment_result actor s body k r.1 (st_base st)) (MkTxState k k 0))
      as (st & Hst & Hb)%wp_run by by apply AddSubmissionComment_wp.
    destruct (run env k _) as [r k']. cbn [fst snd] in *. subst k'. destruct r as [[] ?]; cbn in Hst; [|destruct Hst as [->|Hst]; [done|]].
    all: destruct Hst; by eapply comments_ok, recorded_desk_ok.
Qed.

End Life.

Section Schedules.
Context `{UUIDLib, URLLib, World, CollectibleIDs, SubmissionWorld, !UUIDLaws}.

Lemma desk_after_all_ok schedule (k : Desk) : Forall (fun eo => valid_desk eo.2) schedule -> desk_ok k -> desk_ok (desk_after_all schedule k).
Proof.
  revert k. induction schedule as [|[env op] schedule IH]; intros k Hv Hk; [done|]. apply List.Forall_cons_iff in Hv as [Hop Hv].
  apply IH; [done|]. by apply desk_after_ok.
Qed.

Lemma passed_conforms schema response : validationOutcome schema response = Submission.ValidationPassed <-> conforms schema response.
Proof. rewrite <- (validateAt_conforms schema response RootPath). unfold validationOutcome, Validate. by destruct (validateAt _ _ _). Qed.

(** What is examined says of a submission. *)
Lemma examined_verdict (k : Desk) s row schema response : examined k s row schema response ->
  (sub_state row = "invalid" <-> ~ conforms schema response) /\ (errors_of s k = [] <-> conforms schema response).
Proof.
  intros [raw columns asked source schema' response' _ _ _ _ _ _ _ Herr _ Hst]. rewrite <- passed_conforms. split; [done|].
  unfold errors_of. rewrite Herr. unfold validationOutcome, Validate. destruct (validateAt _ _ _) as [|e es]; cbn; [done|]. split; [|done].
  intros Hn. exfalso. pose proof (merge_sort_Permutation by_error_index (rows_from (error_row s) 0
    ((fun e => Submission.MkValidationError (Path_String (Error_Path e)) (Error_Message e)) <$> e :: es))) as Hp.
  cbn in Hp. rewrite Hn in Hp. by apply Permutation_nil in Hp.
Qed.

(** C19: Validity. After any number of market, gallery and submission operations, under any faults,
    every submission stored has exactly the validation errors and sensitive fields that its response
    gives against the schema its task asks for; it is invalid exactly when the response does not
    conform, so what is accepted, rejected or awaiting review conforms. *)
Theorem accepted_submissions_conform schedule (k : Desk) :
  Forall (fun eo => valid_desk eo.2) schedule -> desk_ok k ->
  let k' := desk_after_all schedule k in
  forall s row, submissions (desk_tables k') !! s = Some row ->
    exists schema response, examined k' s row schema response /\
      (sub_state row = "invalid" <-> ~ conforms schema response) /\ (errors_of s k' = [] <-> conforms schema response).
Proof.
  intros Hv Hk k' s row Hrow. destruct (desk_examined k' (desk_after_all_ok schedule k Hv Hk) s row Hrow) as (schema & response & He).
  exists schema, response. split; [done|]. by apply examined_verdict.
Qed.
End Schedules.

(** * The service *)

Section Service.
Context `{UUIDLib, URLLib, World, CollectibleIDs, SubmissionWorld} {env : Env}.
Implicit Types (k : Desk) (d : DB).

Lemma bump_frame key day amount d used d' :
  bump_counter key day amount d = inr (used, d') ->
  used = default 0 (work_day_counters d !! (key, day)) + amount /\ default 0 (work_day_counters d' !! (key, day)) = used.
Proof. intros [-> ->]%bump_counter_inr. cbn. by rewrite lookup_insert_eq. Qed.

(** C20: Authorization. A submission is created only on an open task that its submitter may view,
    outside an unpublished series, by someone not banned who holds the task or where anyone may
    work; through a work credential it needs the task's reservation or a policy that allows the
    task, and then adds one to the credential's counter of the day within the daily limit. *)
Theorem submission_is_gated k origin request value token drafts k' :
  run env k (Submit origin request) = ((SubmissionCreated value token, drafts), k') ->
  exists target k1, task_found (request_TaskID request) (desk_market k) target /\ housekept_desk k k1 /\
    Task.TState target = Task.StateOpen /\ may_view (request_SubmitterID request) target (desk_market k) /\
    entitled (TypedID_String (request_TaskID request)) (TypedID_String (request_SubmitterID request)) (desk_market k1) /\
    match origin with
    | Work.WorkerViaCredential credential policy =>
        Task.Participation target = Task.ParticipationPolicyReservationRequired \/
        exists budget day, policy = Work.CredentialWorkEnabled budget /\ Work.checkWorkPolicyAgainstTask budget target = None /\
          TypedID_String credential ∈ agent_credentials (desk_tables k) /\
          let used d := default 0 (work_day_counters d !! (budget_key credential, day)) in
          used (desk_tables k') = used (desk_tables k) + 1 /\ used (desk_tables k') <= Work.DailyTaskLimit budget
    | _ => True
    end.
Proof.
  intros Hm%submit_created_made. inversion Hm as [target k1 budget schema response sid rid token' event_id draft v k2 Hfound Hopen Hview Hkept Hent Hbudget _ _ _ _ _ _ Hfiled]; subst.
  exists target, k1. do 5 (split; [done|]). destruct origin as [| |credential policy]; [done|done|].
  unfold Work.WorkBudgetForSubmission in Hbudget. destruct (decide _) as [Hp|Hp]; [by left|right].
  destruct policy as [|budget0]; [done|]. destruct (Work.checkWorkPolicyAgainstTask _ _) eqn:Hcheck; [done|]. injection Hbudget as <-.
  destruct Hfiled as [now d1 d2 stored profile name createdAt [Hcred (day & used & [Hused Hnow]%bump_frame & Hlimit)] _ _ _ _ _ _ _ _ (es & rs & ->)%recorded_with_events _].
  destruct Hkept as (m & Hm1%housekept_frame & ->). cbn in Hm1. destruct Hm1 as (rs' & es' & rr' & Ht & _).
  change (desk_tables (with_desk_market m k)) with (tables m) in *. rewrite Ht in Hcred, Hused. cbn in Hcred, Hused.
  exists budget0, day. do 3 (split; [done|]). cbv beta zeta.
  change (work_day_counters (desk_tables (filed _ _ _ _ _ _ _ _ _ _))) with (work_day_counters d1).
  rewrite Hnow, Hused. unfold desk_tables in *. split; [done|lia].
Qed.

(** C21: Effect of a submission. It adds one row, in the state its validation gives, and one
    recorded event for the task's creator and the submitter; a conforming one turns the submitter's
    own active reservation into submitted, one that does not conform leaves it active; tasks,
    credits and collectibles stay as they were. *)
Theorem submission_takes_effect k origin request value token drafts k' :
  run env k (Submit origin request) = ((SubmissionCreated value token, drafts), k') ->
  exists k1 target schema response draft, housekept_desk k k1 /\
    task_found (request_TaskID request) (desk_market k) target /\
    parse_schema (Task.ResponseSchema target) = inr schema /\ parse_value (request_ResponseSource request) = inr response /\
    drafts = [draft] /\ Draft_Kind draft = KindSubmissionCreated /\ Draft_Actor draft = ActorUser (request_SubmitterID request) /\
    Draft_Recipients draft = NewRecipients [Task.CreatedBy target; request_SubmitterID request] /\
    let s := TypedID_String (Submission.ID value) in let t := TypedID_String (request_TaskID request) in
    let u := TypedID_String (request_SubmitterID request) in let d := desk_tables k1 in let d' := desk_tables k' in
    outbox_holds [draft] d d' /\
    submissions d !! s = None /\
    submissions d' = <[s := MkSubmissionRow t (Some u) (Submission.State_String (Submission.State_ value)) None None None "" None]> (submissions d) /\
    (conforms schema response /\ Submission.State_ value = Submission.StateSubmitted /\
       task_reservations d' = (fun row => if worker_reservation t u ["active"] row then set_res_state "submitted" row else row) <$> task_reservations d \/
     ~ conforms schema response /\ Submission.State_ value = Submission.StateInvalid /\ task_reservations d' = task_reservations d) /\
    (tasks d', ledger_entries d', task_funds d', collectibles d', task_fund_collectibles d') =
      (tasks d, ledger_entries d, task_funds d, collectibles d, task_fund_collectibles d).
Proof.
  intros Hm%submit_created_made. inversion Hm as [target k1 budget schema response sid rid token' event_id draft v k2 Hfound Hopen Hview Hkept Hent Hbudget Hschema Hresponse _ _ _ Hdraft Hfiled].
  exists k1, target, schema, response, draft. do 4 (split; [done|]). subst draft. do 4 (split; [done|]).
  destruct Hfiled as [now d1 d2 stored profile name createdAt [cs ->]%budget_charged_frame _ _ _ Hfresh _ _ _ _ Hrec _]. cbv zeta.
  cbn [submit_TaskID submit_SubmitterID submit_command submit_Draft Submission.ID Submission.State_] in *.
  change (desk_tables (filed _ _ _ _ _ _ _ _ _ _)) with d2. split; [by eapply recorded_outbox|]. apply recorded_with_events in Hrec as (es & rs & ->).
  split; [done|]. split; [done|]. split; [|done]. rewrite <- (passed_conforms schema response). cbn. unfold reservations_after.
  destruct (validationOutcome schema response) as [|errors]; [left|right]; by split.
Qed.

(** A submission that is refused leaves the desk as it was, but for reservations that had
    lapsed and the counter of refusals. *)
Theorem refused_submission_leaves_the_desk k origin request reason drafts k' :
  run env k (Submit origin request) = ((SubmitRejected reason, drafts), k') ->
  drafts = [] /\ exists k1, (k1 = k \/ housekept_desk k k1) /\ refused_desk k1 k'.
Proof. intros [[[r [= _ ->]] Hk]|Hm]%submit_run; [done|]. inv Hm. Qed.

(** ** Who reads *)

Lemma loadCommentable_wp actor s st (Q : DomainError + Submission.Submission -> TxStateOf Desk -> Prop) :
  (forall reason st', st_base st' = st_base st -> Q (inl reason) st') ->
  (forall value st', st_base st' = st_base st -> submission_read (st_base st) s value ->
     (exists target, thread_reader actor (st_base st) value target) -> Q (inr value) st') ->
  wp env (loadCommentableSubmission actor s) Q st.
Proof.
  intros Hf Hs. unfold loadCommentableSubmission. apply wp_attempt, loadCommentableSubmissionWithTask_wp; [done|].
  intros value target st' Hb Hread Hreader. tk_prim. apply Hs; [done..|by eexists].
Qed.

Lemma wp_any {A} (c : MOf Desk A) (Q : A -> TxStateOf Desk -> Prop) st : (forall a st', Q a st') -> wp env c Q st.
Proof. intros HQ. unfold wp. destruct (c env st). apply HQ. Qed.

(** What a run of a computation ends with. *)
(** C24: Privacy, under any faults. A submission and its comments are read, and commented, only by
    its submitter, its task's creator, and who may review for the organization the task belongs to;
    the submissions of a task are listed only to its reviewers, those of a submitter only to them.
    *)
Theorem threads_are_private k actor user s t submitter body page :
  let reader actor value := submission_read k s value /\ exists target, thread_reader actor k value target in
  match fst (run env k (Get actor s)) with SubmissionGot value => reader actor value | GetRejected _ => True end /\
  match fst (run env k (ListSubmissionComments actor s page)) with
  | SubmissionCommentsListed _ => exists value, reader actor value
  | SubmissionCommentsListRejected _ => True
  end /\
  (snd (run env k (AddSubmissionComment user s body)) <> k -> exists value, reader (Auth.UserSubject user) value) /\
  match fst (run env k (ListForTask actor t page)) with
  | SubmissionsListed _ _ => exists target, task_found t (desk_market k) target /\ may_review_submissions actor target (desk_market k)
  | ListRejected _ => True
  end /\
  match fst (run env k (ListForSubmitter user submitter page)) with SubmissionsListed _ _ => user = submitter | ListRejected _ => True end.
Proof.
  intros reader. split; [|split; [|split; [|split]]].
  - apply (run_ends k (Get actor s) (fun r _ => match r with SubmissionGot value => reader actor value | GetRejected _ => True end)).
    unfold Get. apply wp_attempt, loadCommentable_wp; [done|]. intros value st' _ Hread Hreader. tk_prim. by split.
  - apply (run_ends k (ListSubmissionComments actor s page) (fun r _ => match r with SubmissionCommentsListed _ => exists value, reader actor value | SubmissionCommentsListRejected _ => True end)).
    unfold ListSubmissionComments. apply wp_attempt, loadCommentable_wp; [done|]. intros value st' _ Hread Hreader. tk_prim.
    apply wp_any. intros r st. tk_prim. destruct r; [by exists value|done].
  - apply (run_ends k (AddSubmissionComment user s body) (fun _ k' => k' <> k -> exists value, reader (Auth.UserSubject user) value)).
    apply AddSubmissionComment_wp. cbn [st_base]. intros r st' Hr Hne.
    assert (comment_filed user s body k (st_base st')) as Hc by (destruct r as [[] ?]; cbn in Hr; tauto). destruct Hc as [value target ? ? ? ? Hread Hreader].
    exists value. split; [done|by exists target].
  - apply (run_ends k (ListForTask actor t page) (fun r _ => match r with SubmissionsListed _ _ => exists target, task_found t (desk_market k) target /\ may_review_submissions actor target (desk_market k) | ListRejected _ => True end)).
    unfold ListForTask. apply wp_attempt, find_task_wp; [done|]. cbn [st_base]. intros target st1 Hb1 Hfound.
    apply wp_check, requireReviewPermission_wp; rewrite Hb1; [done|]. intros st2 Hb2 Hp. tk_prim. apply wp_any. intros r st. tk_prim.
    destruct r; [by exists target|done].
  - apply (run_ends k (ListForSubmitter user submitter page) (fun r _ => match r with SubmissionsListed _ _ => user = submitter | ListRejected _ => True end)).
    unfold ListForSubmitter. case_bool_decide; cbn [negb]; [|by tk_prim]. tk_prim. apply wp_any. intros r st. tk_prim. by destruct r.
Qed.

(** ** Submissions filed late *)

Definition reviews (c : Command) (s : SubmissionID) : Prop :=
  match c with
  | CAccept command => accept_SubmissionID command = s
  | CRequestChanges command => changes_SubmissionID command = s
  | CReject command => reject_SubmissionID command = s
  | _ => False
  end.

(** A review of a submission that awaits one is answered only while its task is open. *)
Lemma review_needs_open_task c d r d' s sub :
  performed c d r d' -> reviews c s -> submissions d !! TypedID_String s = Some sub -> sub_state sub = "submitted" \/ sub_state sub = "invalid" ->
  (forall row, tasks d !! sub_task_id sub = Some row -> task_state row <> "open") -> execution_of r = None.
Proof.
  intros Hp Hc Hsub Hst Hopen. destruct Hp as [? r d' -> Hf|? r d' -> Hf|? r d' -> Hf|? r d' -> Hf|? r d' -> Hf|? r d' -> Hf|? r d' -> Hf|? r d' -> Hf];
    cbn in Hc; try done; subst s; destruct Hf; cbn; try done; exfalso;
    match goal with Hr : reviewed _ _ _ _ _ |- _ => destruct Hr as (Hrow & Htask & _); rewrite Hsub in Hrow; injection Hrow as <- end;
    first [by destruct Hst; congruence | rewrite Htask in Hopen; by eapply Hopen].
Qed.

(** C25: Interleaving. The service checks the task on one read and the store inserts against
    another: a submission whose checks passed before the task was closed or cancelled is filed
    afterwards all the same, awaiting a review that no acceptance, rejection or request for changes
    can give while the task is not open. *)
Theorem late_submission_cannot_be_reviewed k request target budget schema response value token drafts k' c env' :
  gallery_ok (gallery k) -> valid_command c -> reviews c (Submission.ID value) ->
  (forall row, tasks (desk_tables k) !! TypedID_String (request_TaskID request) = Some row -> task_state row <> "open") ->
  run env k (store_submission request target budget schema response) = ((SubmissionCreated value token, drafts), k') ->
  (exists row, tasks (desk_tables k') !! TypedID_String (request_TaskID request) = Some row /\ task_state row <> "open") /\
  (exists sub, submissions (desk_tables k') !! TypedID_String (Submission.ID value) = Some sub /\
     sub_task_id sub = TypedID_String (request_TaskID request) /\ (conforms schema response -> sub_state sub = "submitted")) /\
  execution_of (fst (run env' (desk_tables k') (perform c))) = None.
Proof.
  intros Hg Hvalid Hc Hclosed Hrun.
  assert (exists sid rid token' draft v, SubmissionCreated v token' = SubmissionCreated value token /\
    submission_filed sid rid (Submission.Hash token') (submit_command request budget draft)
      (Submission.StateForValidation (validationOutcome schema response)) (validationOutcome schema response) (sensitiveFieldsFor schema response) k v k')
    as (sid & rid & token' & draft & v & [= -> ->] & Hfiled).
  { pose proof (run_ends (env:=env) k (store_submission request target budget schema response) (fun r k' => forall value token drafts, r = (SubmissionCreated value token, drafts) ->
      exists sid rid token' draft v, SubmissionCreated v token' = SubmissionCreated value token /\
        submission_filed sid rid (Submission.Hash token') (submit_command request budget draft)
          (Submission.StateForValidation (validationOutcome schema response)) (validationOutcome schema response) (sensitiveFieldsFor schema response) k v k')) as Hends.
    rewrite Hrun in Hends. eapply Hends; [|done]. apply store_submission_wp; [done|]. intros * _ _ _ Hf * [= <- <- <-]. by do 5 eexists. }
  pose proof (gallery_sound _ Hg) as Hs.
  destruct Hfiled as [now d1 d2 stored profile name createdAt [cs ->]%budget_charged_frame _ [row Hrow] _ Hfresh _ _ _ _ (es & rs & ->)%recorded_with_events _].
  cbn in Hrow, Hc.
  match goal with |- context [desk_tables ?k2] => change (desk_tables k2) with (with_events es rs (with_counters cs (filed_tables sid (submit_command request budget draft)
    (Submission.StateForValidation (validationOutcome schema response)) (desk_tables k)))) end.
  set (d' := with_events es rs _).
  assert (submissions d' !! TypedID_String sid = Some (submitted_row (submit_command request budget draft) (Submission.StateForValidation (validationOutcome schema response)))) as Hsub
    by apply lookup_insert_eq.
  split; [by eauto|]. split; [eexists; split; [exact Hsub|]; split; [done|]; cbn; by intros ->%passed_conforms|].
  eapply (review_needs_open_task c d'); [apply perform_spec; [|done]|exact Hc|exact Hsub| |cbn; exact Hclosed].
  - apply ledger_funds, sound_ledger. apply counters_events_sound, filed_tables_sound, Hs.
  - cbn. destruct (validationOutcome schema response); [by left|by right].
Qed.
End Service.

(** * Receipts *)

Section Tokens.
(** The encoding without padding reads back as what it encodes. *)
Lemma encode_shape content : Forall (fun b => 0 <= b < 256) content ->
  exists ns, Forall (fun n => 0 <= n < 64) ns /\ base64_encode content = ((sextet_char <$> ns) ++ Submission.padding (length ns))%list.
Proof.
  induction content as [|a|a b|a b c content IH] using triples_ind; intros Hb; [by exists []|..];
    repeat (match goal with H : Forall _ (_ :: _) |- _ => apply List.Forall_cons_iff in H as [? H] end); cbn [base64_encode].
  - exists [a / 4; a mod 4 * 16]. split; [|done]. repeat constructor; Z.to_euclidean_division_equations; lia.
  - exists [a / 4; a mod 4 * 16 + b / 16; b mod 16 * 4]. split; [|done]. repeat constructor; Z.to_euclidean_division_equations; lia.
  - destruct (IH Hb) as (ns & Hns & ->). exists (a / 4 :: a mod 4 * 16 + b / 16 :: b mod 16 * 4 + c / 64 :: c mod 64 :: ns)%list. split.
    + repeat (constructor; [Z.to_euclidean_division_equations; lia|]). done.
    + cbn [fmap list_fmap length app]. do 4 f_equal. f_equal. unfold Submission.padding.
      replace (S (S (S (S (length ns)))) mod 4)%nat with (length ns mod 4)%nat; [done|].
      change (S (S (S (S (length ns))))) with (4 + length ns)%nat. by rewrite (Nat.add_comm 4), <- Nat.Div0.add_mod_idemp_r, Nat.Div0.mod_same, Nat.add_0_r.
Qed.

Lemma sextet_in_url n : 0 <= n < 64 ->
  let c := sextet_char n in
  Ascii.eqb c "="%char = false /\ is_line_break (Submission.url_char c) = false /\ Submission.std_char (Submission.url_char c) = Some c.
Proof.
  intros Hn. assert (Forall (fun n => Ascii.eqb (sextet_char n) "="%char = false /\ is_line_break (Submission.url_char (sextet_char n)) = false /\
    Submission.std_char (Submission.url_char (sextet_char n)) = Some (sextet_char n)) (seqZ 0 64)) as H by (apply (bool_decide_unpack _); vm_compute; exact I).
  apply (Forall_elem _ _ _ H), elem_of_seqZ. lia.
Qed.

Lemma filter_padding n : List.filter (fun c => negb (Ascii.eqb c "="%char)) (Submission.padding n) = [].
Proof. unfold Submission.padding. by repeat case_match. Qed.

Lemma url_encoding_reads_back content : Forall (fun b => 0 <= b < 256) content ->
  Submission.RawURLEncoding_DecodeString (Submission.RawURLEncoding_EncodeToString content) = Some content.
Proof.
  intros Hb. unfold Submission.RawURLEncoding_DecodeString, Submission.RawURLEncoding_EncodeToString. rewrite to_of_bytes.
  destruct (encode_shape content Hb) as (ns & Hns & Henc). rewrite <- (decode_encode content Hb), Henc, List.filter_app, filter_padding, app_nil_r.
  assert (Forall (fun c => Ascii.eqb c "="%char = false /\ is_line_break (Submission.url_char c) = false /\ Submission.std_char (Submission.url_char c) = Some c)
    (sextet_char <$> ns)) as Hcs by (apply Forall_fmap; eapply List.Forall_impl; [|exact Hns]; exact sextet_in_url).
  set (cs := sextet_char <$> ns) in *. assert (length cs = length ns) as <- by apply length_fmap. clearbody cs.
  rewrite (List.forallb_filter_id _ cs) by (apply forallb_forall; intros c Hc%list_elem_of_In; by destruct (Forall_elem _ _ _ Hcs Hc) as (-> & _)).
  rewrite List.forallb_filter_id; [|apply forallb_forall; intros c (c' & <- & Hc%list_elem_of_In)%in_map_iff; by destruct (Forall_elem _ _ _ Hcs Hc) as (_ & -> & _)].
  by rewrite mapM_fmap_Forall_Some by (eapply List.Forall_impl; [|exact Hcs]; by intros c (_ & _ & ?)).
Qed.

Lemma issued_token_parses random token :
  (forall bytes, random = Some bytes -> Forall (fun b => 0 <= b < 256) bytes) ->
  Submission.NewReceiptTokenPlain random = Submission.ReceiptTokenPlainAccepted token ->
  Submission.ParseReceiptTokenPlain (Submission.ReceiptTokenPlain_value token) = Submission.ReceiptTokenPlainAccepted token.
Proof.
  intros Hr. unfold Submission.NewReceiptTokenPlain. destruct random as [bytes|]; [|done]. destruct (length bytes =? 32)%nat eqn:Hlen; [|done].
  intros [= <-]. cbn. unfold Submission.ParseReceiptTokenPlain. pose proof (url_encoding_reads_back bytes (Hr _ eq_refl)) as Hd.
  destruct (String.eqb_spec (Submission.RawURLEncoding_EncodeToString bytes) "") as [E|_]; [|by rewrite Hd].
  rewrite E in Hd. vm_compute in Hd. injection Hd as <-. done.
Qed.
End Tokens.

(** ** Rows in their order *)

Section Ordered.
Context {A R : Type} (order : relation R) `{!forall a b, Decision (order a b)} (index : R -> Z) (make : Z -> A -> R).
Hypothesis ordered : forall a b, order a b <-> index a <= index b.
Hypothesis made : forall i v, index (make i v) = i.

Lemma rows_from_elem i values r : r ∈ rows_from make i values -> i <= index r.
Proof.
  revert i. induction values as [|v values IH]; intros i; cbn [rows_from]; [by intros ?%not_elem_of_nil|].
  intros [->|Hr%IH]%elem_of_cons; [rewrite made; lia|lia].
Qed.

Lemma rows_from_sorted i values : StronglySorted order (rows_from make i values).
Proof.
  revert i. induction values as [|v values IH]; intros i; cbn [rows_from]; constructor; [done|].
  apply list.Forall_forall. intros r Hr%rows_from_elem. rewrite ordered, made. lia.
Qed.

Lemma rows_from_injective i values a b : a ∈ rows_from make i values -> b ∈ rows_from make i values -> index a = index b -> a = b.
Proof.
  revert i. induction values as [|v values IH]; intros i; cbn [rows_from]; [by intros ?%not_elem_of_nil|].
  intros [->|Ha]%elem_of_cons [->|Hb]%elem_of_cons E; [done|..|by eapply IH].
  - apply rows_from_elem in Hb. rewrite made in E. lia.
  - apply rows_from_elem in Ha. rewrite made in E. lia.
Qed.

Lemma merge_sort_rows_from i values : merge_sort order (rows_from make i values) = rows_from make i values.
Proof.
  assert (Transitive order) as Ht by (intros a b c; rewrite !ordered; lia).
  assert (base.Total order) as Htot by (intros a b; rewrite !ordered; lia).
  apply (StronglySorted_unique_strong order); [|by apply StronglySorted_merge_sort|apply rows_from_sorted|apply merge_sort_Permutation].
  intros a b Ha Hb. rewrite merge_sort_Permutation in Ha. rewrite !ordered. intros. eapply rows_from_injective; [done..|lia].
Qed.

Lemma fmap_rows_from {B} (f : R -> B) (g : A -> B) i values : (forall i v, f (make i v) = g v) -> f <$> rows_from make i values = g <$> values.
Proof. intros Hfg. revert i. induction values as [|v values IH]; intros i; [done|]. cbn. by rewrite Hfg, IH. Qed.
End Ordered.

(** * A submission reads back *)

Section ReadBack.
Context `{UUIDLib, URLLib, World, CollectibleIDs, SubmissionWorld, !UUIDLaws}.
Implicit Types (k : Desk).

(** [encode(content, 'base64')] prints the encoding with line breaks in it. *)
Record printed_attachment (a : AttachedRow) (row : storedAttachmentRow) : Prop := {
  printed_name : Row_Name row = sa_filename a;
  printed_type : Row_ContentType row = sa_content_type a;
  printed_content : List.filter (fun c => negb (is_line_break c)) (to_bytes (Row_Content row)) = base64_encode (sa_content a)
}.

(** What the aggregates print for the rows of a submission reads back as those rows. *)
Record aggregates_read_back k (s : string) : Prop := {
  errors_read_back : errors_of s k <> [] ->
    unmarshal_slice validationErrorDTO_fields (Submission.MkValidationError "" "") (errors_json (errors_of s k)) =
      Some ((fun e => Submission.MkValidationError (er_path e) (er_message e)) <$> errors_of s k);
  sensitive_read_back : sensitive_of s k <> [] ->
    unmarshal_slice sensitiveFieldDTO_fields (Submission.MkSensitiveField "" "" "" "" "" "")
      (sensitive_json ((fun row => (row, redacted_text row)) <$> sensitive_of s k)) =
      Some ((fun f => Submission.MkSensitiveField (sf_path f) (sf_category f) (sf_retention f) (sf_redaction f) (sf_state f) (redacted_text f)) <$> sensitive_of s k);
  attached_read_back : attached_of s k <> [] ->
    exists rows, unmarshal_attachments (attachments_json ((fun row => (sa_filename row, sa_content_type row, sa_content row)) <$> attached_of s k)) = Some rows /\
      Forall2 printed_attachment (attached_of s k) rows
}.

(** An attachment as its constructor makes it. *)
Record well_attached (a : Attachment.Attachment) : Prop := {
  attached_again : Attachment.NewStoredAttachment (Attachment.Name_value (Attachment.AName a))
    (Attachment.ContentType_value (Attachment.AContentType a)) (Attachment.Content_value (Attachment.AContent a)) = Attachment.AttachmentAccepted a;
  attached_bytes : Forall (fun b => 0 <= b < 256) (Attachment.Content_value (Attachment.AContent a))
}.

Lemma attachment_parses_again s index a row :
  well_attached a -> printed_attachment (attached_row s index a) row -> parse_attachment row = inr a.
Proof.
  intros [Ha Hb] [Hn Ht Hc]. unfold parse_attachment, StdEncoding_DecodeString. rewrite Hc, Hn, Ht. cbn [sa_content sa_filename sa_content_type attached_row].
  rewrite decode_encode by done. cbn [required]. by rewrite bind_inr, Ha.
Qed.

Lemma attachments_parse_again s index values text rows :
  Forall well_attached values -> unmarshal_attachments text = Some rows -> Forall2 printed_attachment (rows_from (attached_row s) index values) rows ->
  parseStoredAttachments text = inr values.
Proof.
  intros Hall Htext Hrows. unfold parseStoredAttachments. rewrite Htext. cbn [required]. rewrite bind_inr. clear Htext.
  revert index rows Hrows. induction Hall as [|a values Ha _ IH]; intros index rows Hrows; cbn [rows_from] in Hrows; inversion Hrows as [|? row ? rest Hrow Hrest]; subst; [done|].
  cbn [mapM]. rewrite (attachment_parses_again _ _ _ _ Ha Hrow), bind_inr. by rewrite (IH _ _ Hrest).
Qed.

Lemma outcome_parses_again k s errors :
  errors_of s k = rows_from (error_row s) 0 errors -> aggregates_read_back k s ->
  parseValidationOutcome (aggregate errors_json (errors_of s k)) = inr (match errors with [] => Submission.ValidationPassed | _ => Submission.ValidationFailed errors end).
Proof.
  intros He [Hr _ _]. rewrite He in *. destruct errors as [|e errors]; [done|]. unfold parseValidationOutcome. cbn [rows_from aggregate] in *.
  rewrite Hr by done. cbn [required]. rewrite bind_inr. change (?r :: rows_from _ _ errors) with (rows_from (error_row s) 0 (e :: errors)).
  rewrite (fmap_rows_from _ _ id), list_fmap_id; [done|]. by intros i [].
Qed.

Lemma sensitive_parse_again k s fields :
  sensitive_of s k = rows_from (sensitive_row s) 0 fields -> aggregates_read_back k s ->
  Forall (fun f => Submission.Field_State f = "active" /\ Submission.Field_RedactedAt f = "") fields ->
  parseSensitiveFields (aggregate (fun rows => sensitive_json ((fun row => (row, redacted_text row)) <$> rows)) (sensitive_of s k)) = inr fields.
Proof.
  intros He [_ Hr _] Hall. rewrite He in *. destruct fields as [|f fields]; [done|]. unfold parseSensitiveFields. 
  change (aggregate ?text (rows_from (sensitive_row s) 0 (f :: fields))) with (text (rows_from (sensitive_row s) 0 (f :: fields))). cbv beta. rewrite Hr by done.
  cbn [required]. f_equal. rewrite (fmap_rows_from _ _ (fun f => Submission.MkSensitiveField (Submission.Field_Path f) (Submission.Field_Category f)
    (Submission.Field_Retention f) (Submission.Field_Redaction f) "active" "")) by done.
  clear He Hr. induction Hall as [|g gs [Hs Ha] _ IH]; [done|]. cbn. f_equal; [|exact IH]. destruct g. by cbn in *; subst.
Qed.

Lemma attached_parse_again k s values :
  attached_of s k = rows_from (attached_row s) 0 values -> aggregates_read_back k s -> Forall well_attached values ->
  parseStoredAttachments (aggregate (fun rows => attachments_json ((fun row => (sa_filename row, sa_content_type row, sa_content row)) <$> rows)) (attached_of s k)) =
    inr values.
Proof.
  intros He [_ _ Hr] Hall. rewrite He in *. destruct values as [|a values]; [done|]. 
  change (aggregate ?text (rows_from (attached_row s) 0 (a :: values))) with (text (rows_from (attached_row s) 0 (a :: values))). cbv beta.
  destruct Hr as (rows & Htext & Hrows); [done|]. by eapply attachments_parse_again.
Qed.

Lemma state_parses_again state : outcome (Submission.ParseState (Submission.State_String state)) = inr state.
Proof. by destruct state. Qed.

Lemma outcome_from_errors schema response :
  match outcome_errors (validationOutcome schema response) with
  | [] => Submission.ValidationPassed
  | _ => Submission.ValidationFailed (outcome_errors (validationOutcome schema response))
  end = validationOutcome schema response.
Proof. unfold validationOutcome, Validate. by destruct (validateAt _ _ _). Qed.

Lemma sensitive_made schema response :
  Forall (fun f => Submission.Field_State f = "active" /\ Submission.Field_RedactedAt f = "") (sensitiveFieldsFor schema response).
Proof. unfold sensitiveFieldsFor. apply Forall_fmap, list.Forall_forall. by intros. Qed.

(** The rows of a submission just filed, in order. *)
Lemma filed_rows sid rid hash command state o fields k value k' :
  submission_filed sid rid hash command state o fields k value k' ->
  Forall (fun e => is_Some (submissions (desk_tables k) !! er_submission_id e)) (validation_errors k) ->
  Forall (fun f => is_Some (submissions (desk_tables k) !! sf_submission_id f)) (sensitive_fields k) ->
  Forall (fun a => is_Some (submissions (desk_tables k) !! sa_submission_id a)) (submission_attachments k) ->
  let s := TypedID_String sid in
  errors_of s k' = rows_from (error_row s) 0 (outcome_errors o) /\ sensitive_of s k' = rows_from (sensitive_row s) 0 fields /\
  attached_of s k' = rows_from (attached_row s) 0 (submit_Attachments command).
Proof.
  intros [now d1 d2 stored profile name createdAt [cs ->]%budget_charged_frame _ _ _ Hfresh _ _ _ _ _ _] He Hs Ha s. cbn in Hfresh.
  unfold errors_of, sensitive_of, attached_of. cbn [validation_errors sensitive_fields submission_attachments filed].
  rewrite (filter_appended er_submission_id (error_row s) s _ (fun _ _ => eq_refl) (submissions (desk_tables k))) by done.
  rewrite (filter_appended sf_submission_id (sensitive_row s) s _ (fun _ _ => eq_refl) (submissions (desk_tables k))) by done.
  rewrite (filter_appended sa_submission_id (attached_row s) s _ (fun _ _ => eq_refl) (submissions (desk_tables k))) by done.
  rewrite !decide_True by done. split; [|split].
  - by apply (merge_sort_rows_from _ er_index).
  - by apply (merge_sort_rows_from _ sf_index).
  - by apply (merge_sort_rows_from _ sa_index).
Qed.

(** The row of a submission just filed parses as the submission answered, its response
    as the database prints it. *)
Lemma filed_reads_back sid rid hash command schema response k value k' source columns :
  let o := validationOutcome schema response in
  submission_filed sid rid hash command (Submission.StateForValidation o) o (sensitiveFieldsFor schema response) k value k' ->
  Forall (fun e => is_Some (submissions (desk_tables k) !! er_submission_id e)) (validation_errors k) ->
  Forall (fun f => is_Some (submissions (desk_tables k) !! sf_submission_id f)) (sensitive_fields k) ->
  Forall (fun a => is_Some (submissions (desk_tables k) !! sa_submission_id a)) (submission_attachments k) ->
  submission_columns k' !! TypedID_String sid = Some columns -> outcome (Submission.NewResponseSource (sc_response_json columns)) = inr source ->
  aggregates_read_back k' (TypedID_String sid) -> Forall well_attached (submit_Attachments command) ->
  exists row, submission_sql_row k' (TypedID_String sid) = Some row /\ parseSubmissionRow row = inr (Submission.set_Source source value).
Proof.
  intros o Hfiled He Hs Ha Hcols Hsource Hread Hatt.
  destruct (filed_rows _ _ _ _ _ _ _ _ _ _ Hfiled He Hs Ha) as (Herr & Hsens & Hattached).
  pose proof (outcome_parses_again _ _ _ Herr Hread) as Ho. pose proof (sensitive_parse_again _ _ _ Hsens Hread (sensitive_made schema response)) as Hsf.
  pose proof (attached_parse_again _ _ _ Hattached Hread Hatt) as Hat. unfold o in Ho. rewrite outcome_from_errors in Ho.
  destruct Hfiled as [now d1 d2 stored profile name createdAt _ _ _ _ _ _ _ Hprofile Hname (es & rs & ->)%recorded_with_events Hcreated].
  set (k2 := filed _ _ _ _ _ _ _ _ _ _) in *. cbn in Hcols. rewrite lookup_insert_eq in Hcols. injection Hcols as <-.
  eexists. split.
  - unfold submission_sql_row.
    assert (submissions (desk_tables k2) !! TypedID_String sid = Some (submitted_row command (Submission.StateForValidation o))) as -> by apply lookup_insert_eq.
    cbv [mbind option_bind]. cbn [submission_columns k2 filed]. rewrite lookup_insert_eq. cbn [sub_user_id submitted_row].
    change (profiles (desk_market k2)) with (profiles (desk_market k)). rewrite Hprofile. reflexivity.
  - unfold parseSubmissionRow. cbn [s_id s_taskID s_userID s_submitterName s_state s_response s_reviewNote s_validationErrors s_sensitiveFields s_attachments s_createdAt
      sub_task_id sub_state sub_review_note submitted_row sc_response_json sc_created_at].
    rewrite !ParseTypedID_String, state_parses_again. cbn [sc_response_json] in Hsource. rewrite Hsource.
    cbv [mbind sum_bind outcome]. rewrite Ho, Hsf, Hat, Hname, Hcreated. by cbn.
Qed.

(** The one receipt with the hash of a new token. *)
Lemma filed_receipt sid rid hash command state o fields k value k' :
  submission_filed sid rid hash command state o fields k value k' ->
  receipts_with (Submission.ReceiptTokenHash_value hash) k' = [TypedID_String sid].
Proof.
  intros [now d1 d2 stored profile name createdAt _ _ _ _ _ Hrid Hhash _ _ _ _]. unfold receipts_with. cbn [receipt_tokens filed].
  set (h := Submission.ReceiptTokenHash_value hash). set (row := MkReceiptRow (TypedID_String sid) h).
  assert (filter (fun kv : string * ReceiptRow => rt_token_hash kv.2 = h) (map_to_list (<[TypedID_String rid := row]> (receipt_tokens k))) = [(TypedID_String rid, row)]) as ->; [|done].
  apply Permutation_singleton_r. rewrite (map_to_list_insert _ _ _ Hrid), filter_cons, decide_True by done.
  replace (filter _ (map_to_list (receipt_tokens k))) with (@nil (string * ReceiptRow)); [done|]. symmetry. apply elem_of_nil_inv.
  intros [i other] [Hh Hi%elem_of_map_to_list]%list_elem_of_filter. exact (Hhash i other Hi Hh).
Qed.

(** C22: Round trip. The token a submission answers is accepted as a receipt token, and finds that
    one submission as it was answered: submitter's name, state, attachments, validation errors and
    sensitive fields in their order, and time; its response as the database prints it. *)
Theorem receipt_reads_back env k origin request value token drafts k' columns source env' :
  desk_ok k -> run env k (Submit origin request) = ((SubmissionCreated value token, drafts), k') ->
  submission_columns k' !! TypedID_String (Submission.ID value) = Some columns ->
  outcome (Submission.NewResponseSource (sc_response_json columns)) = inr source ->
  aggregates_read_back k' (TypedID_String (Submission.ID value)) -> Forall well_attached (request_Attachments request) ->
  (forall n bytes, random_bytes n = Some bytes -> Forall (fun b => 0 <= b < 256) bytes) -> no_faults env' ->
  Submission.ParseReceiptTokenPlain (Submission.ReceiptTokenPlain_value token) = Submission.ReceiptTokenPlainAccepted token /\
  run env' k' (FindByReceiptToken (Submission.Hash token)) = (ReceiptFound (Submission.set_Source source value), k') /\
  run env' k' (FindSubmission (Submission.ID value)) = (FindSubmissionStoreAccepted (Submission.set_Source source value), k').
Proof.
  intros Hk Hrun%submit_created_made Hcols Hsource Hread Hatt Hrandom Hok.
  inversion Hrun as [target k1 budget schema response sid rid token' event_id draft v k2 _ _ _ Hkept _ _ _ _ [n Htoken] _ _ _ Hfiled]. subst v token' k2.
  apply (housekept_ok _ _ Hkept) in Hk.
  assert (Submission.ID value = sid) as Hid by by destruct Hfiled. rewrite Hid in *.
  destruct (filed_reads_back _ _ _ _ _ _ _ _ _ source columns Hfiled (desk_errors _ Hk) (desk_sensitive _ Hk) (desk_attached _ Hk) Hcols Hsource Hread Hatt)
    as (row & Hrow & Hparse).
  split; [by eapply issued_token_parses; [apply (Hrandom n)|exact Htoken]|].
  assert (forall A (c : MOf Desk A) (a : A), wp env' c (fun b st => b = a /\ st_base st = k') (MkTxState k' k' 0) -> run env' k' c = (a, k')) as Hexact.
  { intros A c a (st & [Ha Hb] & Hs)%wp_run. rewrite (surjective_pairing (run _ _ _)). rewrite Ha. congruence. }
  split; apply Hexact.
  - unfold FindByReceiptToken. apply wp_attempt, (read_rows_ok _ _ _ _ _ _ _ Hok). cbn [st_base].
    rewrite (filed_receipt _ _ _ _ _ _ _ _ _ _ Hfiled). cbn [omap list_omap]. rewrite Hrow. cbn [mapM]. rewrite Hparse, bind_inr. intros st' Hb _. by apply wp_ret.
  - unfold FindSubmission. apply wp_attempt, (read_rows_ok _ _ _ _ _ _ _ Hok). cbn [st_base].
    rewrite Hrow. cbn [mapM]. rewrite Hparse, bind_inr. intros st' Hb _. by apply wp_ret.
Qed.
End ReadBack.

(** * What a receipt shows *)

Section Receipts.
Context `{UUIDLib, URLLib, World, CollectibleIDs, SubmissionWorld}.
Implicit Types (k : Desk).

(** The submissions a token names, and what is shown of the only one. *)
Definition receipt_rows (token : Submission.ReceiptTokenPlain) k : DomainError + list Submission.Submission :=
  mapM parseSubmissionRow (omap (submission_sql_row k) (receipts_with (Submission.ReceiptTokenHash_value (Submission.Hash token)) k)).

Definition shown k (value : Submission.Submission) : ReceiptStatusResult :=
  match mapM parse_found (task_select (TypedID_String (Submission.TaskID_ value)) (desk_market k)) with
  | inl reason => ReceiptStatusRejected reason
  | inr [(target, _)] =>
      match redacted_by (Task.ResponseSchema target) value with
      | inl reason => ReceiptStatusRejected reason
      | inr redacted => ReceiptStatusFound redacted
      end
  | inr _ => ReceiptStatusRejected (not_found "task was not found")
  end.

Definition receipt_view (token : Submission.ReceiptTokenPlain) k : ReceiptStatusResult :=
  match receipt_rows token k with
  | inl reason => ReceiptStatusRejected reason
  | inr [value] => shown k value
  | inr _ => ReceiptStatusRejected (invalid_state "submission receipt was not found")
  end.

Lemma FindByReceipt_ok env token k : no_faults env -> fst (run env k (FindByReceipt token)) = receipt_view token k.
Proof.
  intros Hok. apply (run_ends k (FindByReceipt token) (fun r _ => r = receipt_view token k)). unfold FindByReceipt, receipt_view, receipt_rows.
  apply wp_bind. unfold FindByReceiptToken. apply wp_attempt, (read_rows_ok _ _ _ _ _ _ _ Hok). cbn [st_base]. intros st1 Hb1 _.
  destruct (mapM parseSubmissionRow _) as [reason|[|value [|]]]; tk_prim; [done|by tk_prim| |by tk_prim].
  apply wp_attempt. unfold redactedSubmission, find_task. destruct st1 as [b1 d1 n1]. cbn [st_base] in Hb1. subst b1.
  apply wp_attempt, wp_bind, wp_on_desk_market. unfold Tasks.FindTask. apply wp_bind, (read_rows_ok _ _ _ _ _ _ _ Hok). cbn [st_base]. intros st2 _ _.
  unfold shown. destruct (mapM parse_found _) as [reason|[|[target name] [|]]]; 
    repeat (apply wp_ret; cbv beta iota); try done. by destruct (redacted_by _ _); [|apply wp_ret].
Qed.

(** The desk with another response stored for the submission [s]. *)
Definition with_response (s : string) (raw : string) k : Desk :=
  with_submission_columns (alter (fun c => MkSubmissionColumns raw (sc_created_at c)) s (submission_columns k)) k.

(** The schema that a task asks answers to, and what a stored response is read as. *)
Definition asks k (task : string) (schema : Schema) : Prop :=
  exists columns source, task_columns (desk_market k) !! task = Some columns /\
    outcome (Task.NewResponseSchemaSource (tc_response_schema_json columns)) = inr source /\ parse_schema source = inr schema.

Definition answers (raw : string) (v : Value) : Prop :=
  exists source, outcome (Submission.NewResponseSource raw) = inr source /\ parse_value source = inr v.

(** Two readings of a submission whose responses agree on what is public. *)
Definition alike (task : string) (v w : Value) (a b : Submission.Submission) : Prop :=
  a = b \/ (exists source, b = Submission.set_Source source a /\ parse_value source = inr w) /\
           parse_value (Submission.Source a) = inr v /\ ParseTaskID task = TypedIDCreated (Submission.TaskID_ a).

Lemma set_Source_twice s1 s2 a : Submission.set_Source s1 (Submission.set_Source s2 a) = Submission.set_Source s1 a.
Proof. done. Qed.

Lemma redacted_alike task v w a b source schema :
  parse_schema source = inr schema -> RedactSensitive schema v = RedactSensitive schema w -> alike task v w a b -> redacted_by source a = redacted_by source b.
Proof.
  intros Hs Hp [->|((src & -> & Hw) & Hv & _)]; [done|]. unfold redacted_by. rewrite Hs. cbv [mbind sum_bind]. rewrite Hv.
  change (Submission.Source (Submission.set_Source src a)) with src. rewrite Hw, Hp.
  destruct (EncodeValueJSON _); [|done]. by destruct (outcome _).
Qed.

Definition with_s_response (raw : string) (row : submissionSQLRow) : submissionSQLRow :=
  MkSubmissionSQLRow (s_id row) (s_taskID row) (s_userID row) (s_submitterName row) (s_state row) raw (s_reviewNote row)
    (s_validationErrors row) (s_sensitiveFields row) (s_attachments row) (s_createdAt row).

Lemma parsed_alike row raw v w :
  answers (s_response row) v -> answers raw w ->
  match parseSubmissionRow row, parseSubmissionRow (with_s_response raw row) with
  | inl a, inl b => a = b
  | inr a, inr b => alike (s_taskID row) v w a b
  | _, _ => False
  end.
Proof.
  intros (sv & Hsv & Hv) (sw & Hsw & Hw). unfold parseSubmissionRow. cbn [with_s_response s_id s_taskID s_userID s_submitterName s_state s_response s_reviewNote
    s_validationErrors s_sensitiveFields s_attachments s_createdAt]. rewrite Hsv, Hsw.
  destruct (outcome (ParseSubmissionID _)); [done|]. cbv [mbind sum_bind]. destruct (ParseTaskID (s_taskID row)) as [taskID|] eqn:Htask; cbn [outcome TypedIDResult_outcome]; [|done].
  repeat (match goal with |- context [match ?e with inl err => inl err | inr _ => _ end] => destruct e; [done|] end).
  right. split; [by exists sw|]. by split.
Qed.

Lemma submission_sql_row_with s raw k id :
  submission_sql_row (with_response s raw k) id = (if decide (id = s) then with_s_response raw else fun row => row) <$> submission_sql_row k id.
Proof.
  unfold submission_sql_row. change (submissions (desk_tables (with_response s raw k))) with (submissions (desk_tables k)).
  destruct (submissions (desk_tables k) !! id) as [row|]; [|done]. cbv [mbind option_bind]. cbn [submission_columns with_response with_submission_columns].
  change (profiles (desk_market (with_response s raw k))) with (profiles (desk_market k)).
  destruct (decide (id = s)) as [->|Hne].
  - rewrite lookup_alter_eq. destruct (submission_columns k !! s); [|done]. cbn [fmap option_fmap option_map].
    destruct (sub_user_id row); [|done]. by destruct (profiles (desk_market k) !! _).
  - rewrite lookup_alter_ne by done. destruct (submission_columns k !! id); [|done]. destruct (sub_user_id row); [|done]. by destruct (profiles (desk_market k) !! _).
Qed.

(** The submissions of a token, before and after. *)
Lemma receipt_rows_alike token s raw k row columns v w :
  submissions (desk_tables k) !! s = Some row -> submission_columns k !! s = Some columns ->
  answers (sc_response_json columns) v -> answers raw w ->
  match receipt_rows token k, receipt_rows token (with_response s raw k) with
  | inl a, inl b => a = b
  | inr xs, inr ys => Forall2 (alike (sub_task_id row) v w) xs ys
  | _, _ => False
  end.
Proof.
  intros Hrow Hcols Hv Hw. unfold receipt_rows. change (receipts_with ?h (with_response s raw k)) with (receipts_with h k).
  induction (receipts_with _ k) as [|id ids IH]; [by constructor|]. cbn [omap list_omap]. rewrite submission_sql_row_with.
  destruct (submission_sql_row k id) as [sql|] eqn:Hsql; cbn [fmap option_fmap option_map]; [|exact IH].
  assert (match parseSubmissionRow sql, parseSubmissionRow ((if decide (id = s) then with_s_response raw else fun row => row) sql) with
          | inl a, inl b => a = b | inr a, inr b => alike (sub_task_id row) v w a b | _, _ => False end) as Hone.
  { destruct (decide (id = s)) as [->|_]; [|destruct (parseSubmissionRow sql); [done|by left]].
    unfold submission_sql_row in Hsql. rewrite Hrow in Hsql. cbv [mbind option_bind] in Hsql. rewrite Hcols in Hsql.
    destruct (sub_user_id row); [|done]. destruct (profiles _ !! _); [|done]. injection Hsql as <-. by apply parsed_alike. }
  cbn [mapM]. revert Hone. destruct (parseSubmissionRow sql), (parseSubmissionRow (_ sql)); intros Hone; try done; cbv [mbind sum_bind].
  revert IH. destruct (mapM _ _), (mapM _ _); intros IH; try done. by constructor.
Qed.

Lemma shown_alike s raw k schema task v w a b :
  canonical task -> asks k task schema -> RedactSensitive schema v = RedactSensitive schema w -> alike task v w a b -> shown k a = shown (with_response s raw k) b.
Proof.
  intros Hc (columns & source & Hcols & Hsource & Hschema) Hp Hab. unfold shown. change (desk_market (with_response s raw k)) with (desk_market k).
  assert (Submission.TaskID_ b = Submission.TaskID_ a) as -> by (by destruct Hab as [->|((? & -> & _) & _)]).
  destruct (mapM parse_found _) as [reason|[|[target name] [|]]] eqn:Hfound; try done.
  destruct Hab as [->|Hab]; [done|]. assert (TypedID_String (Submission.TaskID_ a) = task) as Htask by (apply Hc; apply Hab).
  rewrite Htask in Hfound. destruct (task_select task (desk_market k)) as [|[base rawName] rest] eqn:Hsel; [done|]. cbn [mapM] in Hfound.
  destruct (parse_found _) as [|[target' name']] eqn:Hparse; [done|]. cbv [mbind sum_bind] in Hfound. destruct (mapM parse_found rest); [done|].
  injection Hfound as -> ->. unfold parse_found in Hparse. sum_inv Hparse. injection Hparse as -> _. cbn [fst] in *.
  destruct (task_select_elem task (desk_market k) base rawName) as (trow & tcolumns & vis & Htrow%task_row_Some & _ & _ & ->); [rewrite Hsel; by left|].
  assert (tcolumns = columns) as -> by (destruct Htrow as [_ Ht]; congruence).
  rewrite (redacted_alike task v w a b (Task.ResponseSchema target) schema); [done| |done|by right].
  match goal with Hb : parseTaskRow _ = inr _ |- _ => apply parseTaskRow_inr, of_schema in Hb; cbn [b_responseSchema base_row] in Hb end.
  congruence.
Qed.

(** C23: Non-interference. When the task's schema names no field twice and keeps its marks where
    redaction looks (at fields, and at replaced strings outside unions), what a receipt answers does
    not depend on the parts of a stored response that the schema marks for removal or replacement,
    whatever token is asked about. *)
Theorem receipts_hide_what_is_sensitive env k s raw token row columns schema v w :
  no_faults env -> map_Forall (fun key _ => canonical key) (tasks (desk_tables k)) -> is_Some (tasks (desk_tables k) !! sub_task_id row) ->
  submissions (desk_tables k) !! s = Some row -> submission_columns k !! s = Some columns -> asks k (sub_task_id row) schema ->
  answers (sc_response_json columns) v -> answers raw w ->
  distinct_names schema = true -> within_reach schema = true -> same_public schema v w ->
  fst (run env (with_response s raw k) (FindByReceipt token)) = fst (run env k (FindByReceipt token)).
Proof.
  intros Hok Hcan [trow Htask] Hrow Hcols Hasks Hv Hw Hd Hreach Hp%(reached_hides _ Hd Hreach). rewrite !FindByReceipt_ok by done. unfold receipt_view.
  pose proof (receipt_rows_alike token s raw k row columns v w Hrow Hcols Hv Hw) as Halike.
  destruct (receipt_rows token k) as [a|xs], (receipt_rows token _) as [b|ys]; try done; [by subst|].
  destruct Halike as [|x y xs ys Hxy Hrest]; [done|]. destruct Hrest; [|done]. symmetry. by eapply shown_alike; [exact (Hcan _ _ Htask)|..].
Qed.
End Receipts.
End SubmissionLife.
