(* ===== verification/Samples.v ===== *)
(** * A sample marketplace

    A concrete identifier library, database, environment and commands, on which
    the witnesses evaluate the operations. *)

From Stdlib Require Import Ascii.
From S2P Require Import Prelude.
From S2P Require Import Core.
From S2P Require Import OrgRoles.
From S2P Require Import Assets.
From S2P Require Import Events.
From S2P Require Import TaskValues.
From S2P Require Import LedgerValues.
From S2P Require Import Database.
From S2P Require Import Tx.
From S2P Require Import LedgerSpec.
From S2P Require Import Outbox.
From S2P Require Import LedgerHelpers.
From S2P Require Import LedgerStore.
From S2P Require Import HelperSpecs.
From S2P Require Import ReviewSpecs.
From S2P Require Import StoreSpecs.
From S2P Require Import Refinement.
From S2P Require Import LedgerCorrect.
From S2P Require Import LedgerReplay.
From S2P Require Import LedgerService.
Local Open Scope string_scope.
Local Open Scope Z_scope.

(** ** Identifiers: a UUID is written in binary, least significant digit first *)

Fixpoint pos_text (p : positive) : string :=
  match p with
  | xH => "1"
  | xO p => String "0"%char (pos_text p)
  | xI p => String "1"%char (pos_text p)
  end.

Fixpoint text_pos (s : string) : option positive :=
  match s with
  | String "1"%char "" => Some xH
  | String "0"%char s => xO <$> text_pos s
  | String "1"%char s => xI <$> text_pos s
  | _ => None
  end.

Lemma text_pos_text p : text_pos (pos_text p) = Some p.
Proof.
  induction p as [p IH|p IH|]; cbn; [|by rewrite IH|done].
  rewrite IH. destruct p; done.
Qed.

Definition N_text (n : N) : string := match n with N0 => "" | Npos p => pos_text p end.
Definition text_N (s : string) : option N := match s with "" => Some 0%N | _ => Npos <$> text_pos s end.

Lemma text_N_text n : text_N (N_text n) = Some n.
Proof.
  destruct n as [|p]; [done|]. cbn [N_text].
  assert (text_N (pos_text p) = Npos <$> text_pos (pos_text p)) as -> by (by destruct p).
  by rewrite text_pos_text.
Qed.

Definition uuid_of (n : N) : option UUID :=
  match decide (Is_true (n <? 2 ^ 128)%N) with
  | left range => Some (MkUUID n range)
  | right _ => None
  end.

Lemma uuid_of_value v : uuid_of (uuid_value v) = Some v.
Proof.
  unfold uuid_of. destruct (decide _) as [range|Hr]; [|destruct v; by destruct Hr].
  f_equal. by apply UUID_eq.
Qed.

#[export] Instance sample_uuids : UUIDLib := {|
  uuid_String v := N_text (uuid_value v);
  uuid_Parse s := match text_N s ≫= uuid_of with Some v => inr v | None => inl "invalid UUID" end
|}.

#[export] Instance sample_uuid_laws : UUIDLaws.
Proof. split. intros v. cbn [uuid_Parse uuid_String sample_uuids]. rewrite text_N_text.
  unfold mbind, option_bind. by rewrite uuid_of_value. Qed.

Definition sample_id {k} (n : N) : TypedID k := MkTypedID (MkID (default uuid_nil (uuid_of n))).

(** URLs of the https scheme, the rest being the host. *)
#[export] Instance sample_urls : URLLib := {|
  url_Parse raw :=
    if String.prefix "https://" raw
    then let host := String.substring 8 (String.length raw - 8) raw in Some (MkURL "https" host host false raw)
    else None
|}.

(** ** Who is there *)

Definition alice : UserID := sample_id 1.     (* owns the tasks *)
Definition bob : UserID := sample_id 2.       (* works *)
Definition carol : UserID := sample_id 3.     (* works too, and keeps the books of [acme] *)
Definition acme : OrganizationID := sample_id 5.

Definition alice_account : CreditAccountID := sample_id 16.
Definition bob_account : CreditAccountID := sample_id 17.
Definition carol_account : CreditAccountID := sample_id 18.
Definition acme_account : CreditAccountID := sample_id 19.

Definition draft_task : TaskID := sample_id 32.    (* unfunded *)
Definition open_task : TaskID := sample_id 33.     (* 40 credits from alice, two submissions *)
Definition acme_task : TaskID := sample_id 34.     (* unfunded, of the organization *)

Definition bob_work : SubmissionID := sample_id 48.
Definition carol_work : SubmissionID := sample_id 49.
Definition bob_reservation : TaskReservationID := sample_id 56.
Definition bot : AgentCredentialID := sample_id 58.  (* a work credential of alice *)
Definition medal : CollectibleID := sample_id 60.

Definition sample_entry (n : N) (account : CreditAccountID) (kind : EntryKind) (amount : Z) (task : option TaskID) : EntryRow :=
  MkEntryRow (TypedID_String (sample_id (k:=KLedgerEntry) n)) (TypedID_String account) (EntryKind_String kind) amount
    (TypedID_String <$> task) (Some (N_text n)) "" 0.

Definition sample_task (state : string) (organization : option OrganizationID) (kind : string) (amount : option Z) : TaskRow :=
  MkTaskRow state (TypedID_String alice) (TypedID_String <$> organization) kind amount.

Definition sample_submission (worker : UserID) : SubmissionRow :=
  MkSubmissionRow (TypedID_String open_task) (Some (TypedID_String worker)) "submitted" None None None "" None.

Definition sample_db : DB := {|
  users := list_to_set (TypedID_String <$> [SystemUserID; alice; bob; carol]);
  agent_credentials := {[ TypedID_String bot ]};
  credit_accounts :=
    [ MkAccountRow (TypedID_String alice_account) (Some (TypedID_String alice)) None;
      MkAccountRow (TypedID_String bob_account) (Some (TypedID_String bob)) None;
      MkAccountRow (TypedID_String carol_account) (Some (TypedID_String carol)) None;
      MkAccountRow (TypedID_String acme_account) None (Some (TypedID_String acme)) ];
  organization_memberships :=
    [ MkMembershipRow (TypedID_String acme) (TypedID_String carol) "active" ["billing"; "reviewer"] ];
  tasks := list_to_map
    [ (TypedID_String draft_task, sample_task "draft" None "none" None);
      (TypedID_String open_task, sample_task "open" None "bundle" (Some 40));
      (TypedID_String acme_task, sample_task "draft" (Some acme) "credit" (Some 25)) ];
  ledger_entries :=
    [ sample_entry 67 alice_account EntryKindTaskFund (-40) (Some open_task);
      sample_entry 66 acme_account EntryKindManualAdjustment 300 None;
      sample_entry 65 bob_account EntryKindManualAdjustment 20 None;
      sample_entry 64 alice_account EntryKindManualAdjustment 1000 None ];
  task_funds := {[ TypedID_String open_task := MkFundRow (TypedID_String alice_account) 40 ]};
  task_fund_collectibles := {[ TypedID_String medal := TypedID_String open_task ]};
  collectibles := {[ TypedID_String medal :=
    MkCollectibleRow "medal" "badge" "escrowed" "transferable_between_users" (TypedID_String alice) "user" None "" None None None ]};
  submissions := list_to_map
    [ (TypedID_String bob_work, sample_submission bob); (TypedID_String carol_work, sample_submission carol) ];
  task_reservations := {[ TypedID_String bob_reservation :=
    MkReservationRow (TypedID_String open_task) "user" (Some (TypedID_String bob)) (TypedID_String bob) "submitted" ]};
  task_implementor_bans := ∅;
  work_day_counters := ∅;
  domain_events := [];
  domain_event_recipients := []
|}.

Definition sample_history : list Movement :=
  [ Grant (TypedID_String alice_account) 1000; Grant (TypedID_String bob_account) 20;
    Grant (TypedID_String acme_account) 300;
    Fund (TypedID_String alice_account) (TypedID_String open_task) 40 ].

Lemma sample_db_ok : ledger_ok sample_db.
Proof.
  split.
  - apply (apply_movements_balanced sample_history (MkLedger [] ∅)); [by vm_compute|apply balanced_empty].
  - apply map_Forall_singleton. cbn. unfold int64_max. lia.
Qed.

(** ** An environment: statement [fault], if any, fails *)

Definition sample_env (base : N) (fault : option nat) : Env := {|
  env_fails n := bool_decide (fault = Some n);
  env_day _ := "2026-01-02";
  env_now n := Z.of_nat n;
  env_tx_now := 1;
  env_seq n := Z.of_N base + Z.of_nat n;
  env_event_id n := TypedIDCreated (sample_id (base + N.of_nat n));
  env_notification_id n := TypedIDCreated (sample_id (base + N.of_nat n));
  env_delivery_id n := TypedIDCreated (sample_id (base + N.of_nat n))
|}.

Definition calm (base : N) : Env := sample_env base None.

Lemma calm_no_faults base : no_faults (calm base).
Proof. done. Qed.

(** ** Commands *)

Definition sample_draft (n : N) (kind : Kind) (subject : Subject) : Draft :=
  MkDraft (sample_id n) kind (ActorUser alice) subject (MkMetadata "{}") (NewRecipients [alice]).

Definition sample_fund : FundStoreCommand :=
  MkFundStoreCommand (sample_id 100) alice draft_task (MkCreditAmount 60) (MkIdempotencyKey "fund-1") NoSpendCharge
    (sample_draft 101 KindTaskFunded (taskSubject draft_task)).

Definition sample_organization_fund : OrganizationFundStoreCommand :=
  MkOrganizationFundStoreCommand (sample_id 102) acme acme_task (MkCreditAmount 25) (MkIdempotencyKey "fund-2") carol
    NoSpendCharge (sample_draft 103 KindTaskFunded (taskSubject acme_task)).

Definition sample_accept : AcceptStoreCommand :=
  MkAcceptStoreCommand (sample_id 104) (sample_id 105) (sample_id 106) (sample_id 107) (UserReviewer alice) open_task
    bob_work (MkIdempotencyKey "accept-1") (PartialCreditReviewSelection (MkCreditAmount 20))
    (CreditTipSelection (MkCreditAmount 5)) NoCollectibleTipSelection NoSpendCharge
    (sample_draft 108 KindSubmissionAccepted (reviewSubject open_task bob_work)).

(** A badge of alice's that is no reward of the task, and an acceptance that tips it. *)
Definition ribbon : CollectibleID := sample_id 61.

Definition ribbon_db : DB :=
  with_collectibles (<[TypedID_String ribbon :=
    MkCollectibleRow "ribbon" "badge" "minted" "transferable_between_users" (TypedID_String alice) "user" None "" None None None]>
    (collectibles sample_db)) sample_db.

Lemma ribbon_db_ok : ledger_ok ribbon_db.
Proof. destruct sample_db_ok as [Hb Hf]. by split. Qed.

Definition sample_ribbon_accept : AcceptStoreCommand :=
  MkAcceptStoreCommand (sample_id 104) (sample_id 105) (sample_id 106) (sample_id 107) (UserReviewer alice) open_task
    bob_work (MkIdempotencyKey "accept-1") (PartialCreditReviewSelection (MkCreditAmount 20))
    NoTipSelection (CollectibleTipSelected ribbon) NoSpendCharge
    (sample_draft 108 KindSubmissionAccepted (reviewSubject open_task bob_work)).

Definition sample_changes : RequestChangesStoreCommand :=
  MkRequestChangesStoreCommand (UserReviewer alice) open_task bob_work (MkIdempotencyKey "changes-1")
    (MkReviewNote "again, please") (sample_draft 109 KindSubmissionChangesRequested (reviewSubject open_task bob_work)).

Definition sample_reject : RejectStoreCommand :=
  MkRejectStoreCommand (sample_id 110) (sample_id 111) (sample_id 112) (UserReviewer alice) open_task carol_work
    (MkIdempotencyKey "reject-1") (MkReviewNote "not this") (PartialCreditReviewSelection (MkCreditAmount 10))
    NoTipSelection BanImplementorSelection NoSpendCharge
    (sample_draft 113 KindSubmissionRejected (reviewSubject open_task carol_work)).

Definition sample_refund : RefundStoreCommand :=
  MkRefundStoreCommand (sample_id 114) alice open_task (MkIdempotencyKey "refund-1")
    (sample_draft 115 KindTaskCancelled (taskSubject open_task)).

Definition sample_grant : GrantStoreCommand :=
  MkGrantStoreCommand (sample_id 116) (GrantToOrganization acme) (MkCreditAmount 50) (MkGrantNote "thanks")
    (MkIdempotencyKey "grant-1") (sample_draft 117 KindCreditGranted NoSubjectRefs).

Definition sample_send : PeerTransferStoreCommand :=
  MkPeerTransferStoreCommand (sample_id 118) (sample_id 119) alice TransferFromSelf (TransferToUser bob)
    (MkCreditAmount 70) NoTransferNote (MkIdempotencyKey "send-1") NoSpendCharge
    (sample_draft 120 KindCreditsSent NoSubjectRefs).

(** The same transfer, sent through the work credential. *)
Definition sample_agent_send : PeerTransferStoreCommand :=
  MkPeerTransferStoreCommand (sample_id 118) (sample_id 119) alice TransferFromSelf (TransferToUser bob)
    (MkCreditAmount 70) NoTransferNote (MkIdempotencyKey "send-1") (ChargeSpendBudget bot (MkCreditAmount 100) (MkCreditAmount 70))
    (sample_draft 120 KindCreditsSent NoSubjectRefs).

(** Carol reuses alice's key, towards the same receiver. *)
Definition sample_other_send : PeerTransferStoreCommand :=
  MkPeerTransferStoreCommand (sample_id 121) (sample_id 122) carol (TransferFromOrganization acme) (TransferToUser bob)
    (MkCreditAmount 5) NoTransferNote (MkIdempotencyKey "send-1") NoSpendCharge
    (sample_draft 123 KindCreditsSent NoSubjectRefs).

(** Acceptance without paying the escrowed credits. *)
Definition sample_unpaid_accept : AcceptStoreCommand :=
  MkAcceptStoreCommand (sample_id 104) (sample_id 105) (sample_id 106) (sample_id 107) (UserReviewer alice) open_task
    bob_work (MkIdempotencyKey "accept-1") NoCreditReviewSelection NoTipSelection NoCollectibleTipSelection NoSpendCharge
    (sample_draft 108 KindSubmissionAccepted (reviewSubject open_task bob_work)).

(** The generators of the service's identifiers, and the service over the database. *)
Definition sample_generators : Generators :=
  MkGenerators (fun n => TypedIDCreated (sample_id (200 + N.of_nat n))) (fun n => TypedIDCreated (sample_id (300 + N.of_nat n))).

Definition sample_turn (n : nat) : Env := calm (1000 + 100 * N.of_nat n).

Definition sample_service : ServiceState (DB * nat) := MkServiceState (sample_db, O) O [] [].

(** A day of the marketplace: one command of every kind, and one refused. *)
Definition sample_day : list (Env * Command) :=
  [ (calm 1000, CGrant sample_grant); (calm 1100, CFund sample_fund); (calm 1200, COrganizationFund sample_organization_fund);
    (calm 1300, CReject sample_reject); (sample_env 1400 (Some 9%nat), CAccept sample_accept); (calm 1500, CAccept sample_accept);
    (calm 1600, CSend sample_send); (calm 1700, CRefund sample_refund) ].

(** Discharges the validity of a concrete command. *)
Ltac sample_valid := first [exact I | split; [reflexivity | vm_compute; discriminate]].

Lemma sample_day_valid : Forall (fun ec => valid_command ec.2) sample_day.
Proof. repeat (apply Forall_cons; [sample_valid|]). constructor. Qed.

Definition first_runs (results : list Result) : list bool :=
  (fun r => match execution_of r with Some (FirstExecution, _) => true | _ => false end) <$> results.

(** The day plays out as intended: the faulty acceptance and the late refund are refused. *)
Example sample_day_results :
  first_runs (fst (execute sample_day sample_db)) = [true; true; true; true; false; true; true; false].
Proof. by vm_compute. Qed.
