(* ===== verification/Witnesses.v ===== *)
(** * The theorems at work

    Every theorem with hypotheses, applied to the sample marketplace of
    [Samples], where its hypotheses hold. *)

From S2P Require Import Prelude.
From S2P Require Import Core.
From S2P Require Import OrgRoles.
From S2P Require Import Assets.
From S2P Require Import Events.
From S2P Require Import LedgerValues.
From S2P Require Import Database.
From S2P Require Import Tx.
From S2P Require Import LedgerSpec.
From S2P Require Import Outbox.
From S2P Require Import LedgerHelpers.
From S2P Require Import LedgerStore.
From S2P Require Import HelperSpecs.
From S2P Require Import ReviewSpecs.
From S2P Require Import StoreSpecs.
From S2P Require Import Refinement.
From S2P Require Import LedgerCorrect.
From S2P Require Import LedgerReplay.
From S2P Require Import LedgerBehaviour.
From S2P Require Import LedgerInvariants.
From S2P Require Import LedgerService.
From S2P Require Import Samples.
Local Open Scope string_scope.
Local Open Scope Z_scope.

(** Evaluate a closed goal. *)
Ltac computed := vm_compute; reflexivity.

(** The database after a command that runs first, without faults. *)
Definition after (c : Command) : DB := snd (run (calm 1000) sample_db (perform c)).

Definition events_after (c : Command) : list Draft :=
  match execution_of (fst (run (calm 1000) sample_db (perform c))) with Some (_, ds) => ds | None => [] end.

(** ** The ledger *)

Lemma store_refines_ledger_witness :
  exists ms, command_movements (CAccept sample_accept) sample_db
      (fst (run (calm 1000) sample_db (perform (CAccept sample_accept)))) ms /\
    apply_movements ms (view sample_db) = Some (view (after (CAccept sample_accept))).
Proof. apply (store_refines_ledger (calm 1000) sample_db (CAccept sample_accept)); [exact sample_db_ok|sample_valid]. Defined.

Lemma supply_conserved_witness :
  supply (view (snd (execute sample_day sample_db))) = supply (view sample_db) + 50.
Proof. exact (supply_conserved sample_day sample_db sample_day_valid sample_db_ok). Defined.

Lemma accounts_never_overdrawn_witness :
  0 <= account_sum (TypedID_String alice_account) (ledger_entries (snd (execute sample_day sample_db))).
Proof. exact (accounts_never_overdrawn sample_day sample_db _ sample_day_valid sample_db_ok). Defined.

Lemma tasks_reconciled_witness :
  let l := view (snd (execute sample_day sample_db)) in
  allocated (TypedID_String draft_task) l = - task_total (TypedID_String draft_task) l.
Proof. exact (tasks_reconciled sample_day sample_db _ sample_day_valid sample_db_ok). Defined.

(** The commit of the acceptance fails. *)
Lemma rejection_changes_nothing_witness :
  refused sample_db (snd (run (sample_env 1400 (Some 9%nat)) sample_db (perform (CAccept sample_accept)))).
Proof.
  apply (rejection_changes_nothing (sample_env 1400 (Some 9%nat)) sample_db (CAccept sample_accept));
    [exact sample_db_ok|sample_valid|computed].
Defined.

Lemma after_ok c : valid_command c -> ledger_ok (after c).
Proof.
  intros Hv. eapply (performed_ledger_ok c); [done| |exact sample_db_ok].
  apply perform_spec; [apply sample_db_ok|done].
Qed.

Lemma replay_changes_nothing_witness :
  let db := after (CFund sample_fund) in
  snd (run (calm 2000) db (perform (CFund sample_fund))) = db /\ ([] : list Draft) = [].
Proof.
  apply (replay_changes_nothing (calm 2000) (after (CFund sample_fund)) (CFund sample_fund));
    [apply after_ok; sample_valid|sample_valid|computed].
Defined.

Lemma execution_records_its_events_witness :
  outbox_holds (events_after (CAccept sample_accept)) sample_db (after (CAccept sample_accept)) /\
  events_after (CAccept sample_accept) <> [].
Proof.
  apply (execution_records_its_events (calm 1000) sample_db (CAccept sample_accept));
    [exact sample_db_ok|sample_valid|computed].
Defined.

(** ** Retries *)

Lemma funding_is_idempotent_witness :
  let db := snd (execute sample_day (after (CFund sample_fund))) in
  run (calm 2000) db (FundTask sample_fund) =
    (TaskFunded (MkTaskFund draft_task alice_account (MkCreditAmount 60)) IdempotentReplay [], db).
Proof.
  apply (funding_is_idempotent (calm 1000) (calm 2000) sample_db sample_fund _ (events_after (CFund sample_fund))
    (after (CFund sample_fund)) sample_day); [exact sample_db_ok|sample_valid|computed|exact sample_day_valid|apply calm_no_faults].
Defined.

Lemma organization_funding_is_idempotent_witness :
  let db := snd (execute sample_day (after (COrganizationFund sample_organization_fund))) in
  run (calm 2000) db (FundTaskFromOrganization sample_organization_fund) =
    (TaskFunded (MkTaskFund acme_task acme_account (MkCreditAmount 25)) IdempotentReplay [], db).
Proof.
  apply (organization_funding_is_idempotent (calm 1000) (calm 2000) sample_db sample_organization_fund _
    (events_after (COrganizationFund sample_organization_fund)) (after (COrganizationFund sample_organization_fund)) sample_day);
    [exact sample_db_ok|sample_valid|computed|exact sample_day_valid|apply calm_no_faults].
Defined.

Lemma grant_is_idempotent_witness :
  let db := snd (execute sample_day (after (CGrant sample_grant))) in
  run (calm 2000) db (GrantCredits sample_grant) =
    (CreditsGranted (grant_EntryID sample_grant) (MkCreditAmount 50) [carol] IdempotentReplay [], db).
Proof.
  apply (grant_is_idempotent (calm 1000) (calm 2000) sample_db sample_grant _ _ _ (events_after (CGrant sample_grant))
    (after (CGrant sample_grant)) sample_day); [exact sample_db_ok|sample_valid|computed|exact sample_day_valid|apply calm_no_faults].
Defined.

Lemma transfer_is_idempotent_witness :
  let db := snd (execute sample_day (after (CSend sample_send))) in
  run (calm 2000) db (PeerTransfer sample_send) =
    (CreditsSent (send_DebitEntryID sample_send) (MkCreditAmount 70) [bob] IdempotentReplay [], db).
Proof.
  apply (transfer_is_idempotent (calm 1000) (calm 2000) sample_db sample_send _ _ _ (events_after (CSend sample_send))
    (after (CSend sample_send)) sample_day); [exact sample_db_ok|sample_valid|computed|exact sample_day_valid|apply calm_no_faults].
Defined.

Definition sample_payout : PayoutOutcome := BundlePayout bob (MkCreditAmount 20) [medal].
Definition sample_tip : TipOutcome := CreditTip bob (MkCreditAmount 5).

Lemma accept_is_idempotent_witness :
  let db := snd (execute sample_day (after (CAccept sample_accept))) in
  exists outcome, run (calm 2000) db (AcceptSubmission sample_accept) =
    (SubmissionAccepted open_task bob_work bob outcome NoTip IdempotentReplay [], db).
Proof.
  apply (accept_is_idempotent (calm 1000) (calm 2000) sample_db sample_accept _ _ _ sample_payout sample_tip
    (events_after (CAccept sample_accept)) (after (CAccept sample_accept)) sample_day);
    [exact sample_db_ok|sample_valid|computed|exact sample_day_valid|apply calm_no_faults].
Defined.

(** ** Effects *)

Lemma AcceptSubmission_settles_witness : acceptance sample_accept sample_payout sample_db (after (CAccept sample_accept)).
Proof.
  apply (AcceptSubmission_settles (calm 1000) sample_db sample_accept open_task bob_work bob sample_payout sample_tip
    (events_after (CAccept sample_accept))); [exact sample_db_ok|sample_valid|computed].
Defined.

Lemma collectible_tip_is_entitled_witness :
  let db' := snd (run (calm 1000) ribbon_db (AcceptSubmission sample_ribbon_accept)) in
  tip_entitled sample_ribbon_accept ribbon bob ribbon_db /\ owned_by_user bob ribbon db' /\
  forall c, c <> TypedID_String ribbon -> task_fund_collectibles ribbon_db !! c <> Some (TypedID_String open_task) ->
    collectibles db' !! c = collectibles ribbon_db !! c.
Proof.
  intros db'. apply (collectible_tip_is_entitled (calm 1000) ribbon_db sample_ribbon_accept open_task bob_work bob sample_payout
    (CollectibleTip bob ribbon)
    (match fst (run (calm 1000) ribbon_db (AcceptSubmission sample_ribbon_accept)) with
     | SubmissionAccepted _ _ _ _ _ _ ds => ds | _ => [] end));
    [exact ribbon_db_ok|sample_valid|reflexivity|computed].
Defined.

Lemma RejectSubmission_effect_witness :
  rejection sample_reject (CreditPayout carol (MkCreditAmount 10)) sample_db (after (CReject sample_reject)).
Proof.
  apply (RejectSubmission_effect (calm 1000) sample_db sample_reject open_task carol_work carol _ NoTip
    (events_after (CReject sample_reject))); [exact sample_db_ok|sample_valid|computed].
Defined.

Lemma RequestChanges_effect_witness : change_request sample_changes sample_db (after (CRequestChanges sample_changes)).
Proof.
  apply (RequestChanges_effect (calm 1000) sample_db sample_changes open_task bob_work bob "again, please"
    (events_after (CRequestChanges sample_changes))). computed.
Defined.

Lemma RefundTask_effect_witness :
  cancellation sample_refund (MkTaskFund open_task alice_account (MkCreditAmount 40)) sample_db (after (CRefund sample_refund)).
Proof.
  apply (RefundTask_effect (calm 1000) sample_db sample_refund _ (events_after (CRefund sample_refund))). computed.
Defined.

Lemma FundTask_escrows_witness :
  exists account row, user_account (TypedID_String alice) account sample_db /\
    tasks sample_db !! TypedID_String draft_task = Some row /\ task_created_by_user_id row = TypedID_String alice /\
    escrowed draft_task account (MkCreditAmount 60) sample_db (after (CFund sample_fund)).
Proof.
  apply (FundTask_escrows (calm 1000) sample_db sample_fund (MkTaskFund draft_task alice_account (MkCreditAmount 60))
    (events_after (CFund sample_fund))); [sample_valid|computed].
Defined.

Lemma FundTaskFromOrganization_escrows_witness :
  exists account row, organization_account (TypedID_String acme) account sample_db /\
    tasks sample_db !! TypedID_String acme_task = Some row /\ default "" (task_organization_id row) = TypedID_String acme /\
    escrowed acme_task account (MkCreditAmount 25) sample_db (after (COrganizationFund sample_organization_fund)).
Proof.
  apply (FundTaskFromOrganization_escrows (calm 1000) sample_db sample_organization_fund
    (MkTaskFund acme_task acme_account (MkCreditAmount 25)) (events_after (COrganizationFund sample_organization_fund)));
    [sample_valid|computed].
Defined.

Lemma GrantCredits_issues_witness :
  exists account, grant_account (GrantToOrganization acme) account sample_db /\
    granted_to (GrantToOrganization acme) [carol] sample_db /\
    (forall a, account_sum a (ledger_entries (after (CGrant sample_grant))) =
       account_sum a (ledger_entries sample_db) + moved account 50 a) /\
    tasks (after (CGrant sample_grant)) = tasks sample_db /\ task_funds (after (CGrant sample_grant)) = task_funds sample_db /\
    submissions (after (CGrant sample_grant)) = submissions sample_db.
Proof.
  apply (GrantCredits_issues (calm 1000) sample_db sample_grant (grant_EntryID sample_grant) (MkCreditAmount 50) [carol]
    (events_after (CGrant sample_grant))). computed.
Defined.

(** ** Invariants over a day *)

Lemma sample_escrow_live : escrow_live sample_db.
Proof.
  intros t fund Hf. unfold sample_db in Hf; cbn [task_funds] in Hf. apply lookup_singleton_Some in Hf as [<- _].
  exists (sample_task "open" None "bundle" (Some 40)). split; [computed|by right].
Qed.

Lemma escrow_stays_live_witness : escrow_live (snd (execute sample_day sample_db)).
Proof.
  apply (escrow_stays_live sample_day sample_db); [|exact sample_db_ok|exact sample_escrow_live].
  repeat (apply Forall_cons; [split; [first [exact I|vm_compute; discriminate]|sample_valid]|]). constructor.
Defined.

Lemma sample_reviews_ok : reviews_ok sample_db.
Proof.
  assert (forall i row, submissions sample_db !! i = Some row -> sub_state row <> "accepted") as Hno.
  { intros i row Hi. unfold sample_db in Hi; cbn [submissions list_to_map foldr fst snd] in Hi.
    apply lookup_insert_Some in Hi as [[_ <-]|[_ Hi]]; [done|].
    apply lookup_insert_Some in Hi as [[_ <-]|[_ Hi]]; [done|]. by rewrite lookup_empty in Hi. }
  split; [intros i row Hi Ha; by destruct (Hno i row Hi)|intros i j a b Hi _ Ha; by destruct (Hno i a Hi)].
Qed.

Lemma one_accepted_submission_per_task_witness : reviews_ok (snd (execute sample_day sample_db)).
Proof. exact (one_accepted_submission_per_task sample_day sample_db sample_day_valid sample_db_ok sample_reviews_ok). Defined.

Lemma execution_requires_authority_witness :
  let c := COrganizationFund sample_organization_fund in
  authorized c sample_db /\
  exists account, account_sum account (ledger_entries (after c)) < account_sum account (ledger_entries sample_db) /\ debits c account sample_db.
Proof.
  destruct (execution_requires_authority (calm 1000) sample_db (COrganizationFund sample_organization_fund) sample_db_ok ltac:(sample_valid)) as [Ha Hd].
  split; [apply (Ha (events_after (COrganizationFund sample_organization_fund))); computed|].
  exists (TypedID_String acme_account). split; [computed|apply Hd; computed].
Defined.

Lemma capped_spend_is_counted_witness :
  let key := workDayKeyAgentSpend +:+ TypedID_String bot in
  exists day, counter key day (after (CSend sample_agent_send)) = counter key day sample_db + 70 /\
    counter key day (after (CSend sample_agent_send)) <= 100 /\
    forall d, d <> day -> counter key d (after (CSend sample_agent_send)) = counter key d sample_db.
Proof.
  apply (capped_spend_is_counted (calm 1000) sample_db (CSend sample_agent_send) (events_after (CSend sample_agent_send))
    bot (MkCreditAmount 100) (MkCreditAmount 70)); [exact sample_db_ok|sample_valid|computed|reflexivity].
Defined.

Lemma daily_peer_ceiling_witness :
  let '(results, db') := execute sample_day sample_db in
  (forall day, counter (peer_key (TypedID_String alice_account)) day db' <= DailyPeerTransferCeilingCredits) /\
  day_total (peer_key (TypedID_String alice_account)) db' = day_total (peer_key (TypedID_String alice_account)) sample_db +
    sum_Z (zip_with (fun ec r => sent_from (TypedID_String alice_account) sample_db ec.2 r) sample_day results).
Proof.
  apply (daily_peer_ceiling sample_day sample_db (TypedID_String alice_account)); [exact sample_day_valid|exact sample_db_ok|].
  intros day. vm_compute. discriminate.
Defined.

Lemma refund_retry_is_rejected_witness :
  exists reason, run (calm 3000) (snd (execute sample_day (after (CRefund sample_refund)))) (RefundTask sample_refund) =
    (RefundRejected reason, snd (execute sample_day (after (CRefund sample_refund)))).
Proof.
  apply (refund_retry_is_rejected (calm 1000) (calm 3000) sample_db sample_refund
    (MkTaskFund open_task alice_account (MkCreditAmount 40)) (events_after (CRefund sample_refund)) (after (CRefund sample_refund))
    sample_day); [exact sample_db_ok|computed|exact sample_day_valid].
Defined.

Lemma transfer_key_is_shared_by_senders_witness :
  execution_of (fst (run (calm 2000) (after (CSend sample_send)) (perform (CSend sample_other_send)))) <>
    Some (FirstExecution, [send_Draft sample_other_send]).
Proof.
  apply (transfer_key_is_shared_by_senders (calm 2000) (after (CSend sample_send)) sample_other_send (TypedID_String bob_account)
    (credit_entry sample_send (TypedID_String bob_account) 1));
    [apply after_ok; sample_valid|sample_valid| |computed].
  split; [computed|exists bob_account; computed].
Defined.

(** ** The service *)

Definition sample_request : Request :=
  QSendCredits alice TransferFromSelf (TransferToUser bob) (MkCreditAmount 70) NoTransferNote (MkIdempotencyKey "send-1") SpendByUser.

Lemma service_dispatches_durable_events_witness :
  let '(r, st') := serve (H0:=db_store sample_turn) sample_request sample_generators sample_service in
  store_ok (StoreContract:=db_store_contract sample_turn) (svc_store st') /\
  exists ds, svc_dispatched st' = (svc_dispatched sample_service ++ ds)%list /\
    (ds = [] \/ (execution_of r = Some (FirstExecution, ds) /\
       store_durable (StoreContract:=db_store_contract sample_turn) ds (svc_store sample_service) (svc_store st'))).
Proof.
  apply (service_dispatches_durable_events sample_request sample_generators sample_service); [sample_valid|exact sample_db_ok].
Defined.

Lemma service_implements_ledger_witness :
  let '(r, st') := serve (H0:=db_store sample_turn) sample_request sample_generators sample_service in
  (execution_of r = None /\ svc_store st' = svc_store sample_service) \/
  exists c ms, asks sample_request c /\ command_movements c sample_db r ms /\
    apply_movements ms (view sample_db) = Some (view (svc_store st').1).
Proof.
  apply (service_implements_ledger sample_turn sample_request sample_generators sample_service); [sample_valid|exact sample_db_ok].
Defined.

(** The request is carried out, and its event dispatched. *)
Example sample_request_served :
  let '(r, st') := serve (H0:=db_store sample_turn) sample_request sample_generators sample_service in
  option_map fst (execution_of r) = Some FirstExecution /\ length (svc_dispatched st') = 1%nat.
Proof. vm_compute. split; reflexivity. Qed.

(** A reviewer for the organization cannot even ban. *)
Definition organization_request : Request :=
  QRejectSubmission (OrganizationReviewer acme) open_task bob_work (MkIdempotencyKey "k") (MkReviewNote "no")
    NoCreditReviewSelection NoTipSelection BanImplementorSelection SpendByUser.

Lemma organization_reviews_move_only_escrow_witness :
  let '(r, st') := serve (H0:=db_store sample_turn) organization_request sample_generators sample_service in
  (exists ms, Forall escrow_movement ms /\ apply_movements ms (view sample_db) = Some (view (svc_store st').1)) /\
  task_implementor_bans (svc_store st').1 = task_implementor_bans sample_db /\
  forall ds, execution_of r = Some (FirstExecution, ds) -> exists row,
    tasks sample_db !! TypedID_String open_task = Some row /\ task_organization_id row = Some (TypedID_String acme).
Proof.
  apply (organization_reviews_move_only_escrow sample_turn organization_request sample_generators sample_service acme open_task);
    [exact I|exact sample_db_ok|reflexivity].
Defined.

Lemma SendCredits_transfers_witness :
  let st' := snd (serve (H0:=db_store sample_turn) sample_request sample_generators sample_service) in
  transferred (user_ref alice) (user_ref bob) (MkCreditAmount 70) sample_db (svc_store st').1.
Proof.
  pose proof (SendCredits_transfers sample_turn sample_generators sample_service alice TransferFromSelf (TransferToUser bob)
    (MkCreditAmount 70) NoTransferNote (MkIdempotencyKey "send-1") SpendByUser) as Hs.
  assert (valid_amount (MkCreditAmount 70)) as Hv by sample_valid.
  pose proof (fun ds => Hs ds Hv sample_db_ok) as Hsend. clear Hs.
  assert (exists ds, execution_of (fst (serve (H0:=db_store sample_turn) sample_request sample_generators sample_service)) =
    Some (FirstExecution, ds)) as [ds He] by (eexists; computed).
  specialize (Hsend ds). unfold sample_request in *.
  destruct (serve _ sample_generators sample_service) as [r st']. cbn [fst snd] in *. by apply Hsend.
Defined.

(** ** Reads *)

Definition alice_balance : Balance := NewBalance 960 40.

Lemma StoreBalance_reports_witness :
  run (calm 1000) sample_db (StoreBalance alice) =
    (BalanceFound (NewBalance (spendable (TypedID_String alice_account) (view sample_db))
       (allocated_from (TypedID_String alice_account) sample_db)), sample_db).
Proof.
  apply (StoreBalance_reports (calm 1000) sample_db alice (TypedID_String alice_account));
    [computed|apply calm_no_faults|split; computed].
Defined.

Definition alice_page : Pagination.Page := Pagination.MkPage 100 0.

Definition alice_entries : list LedgerEntry :=
  match fst (run (calm 1000) sample_db (ListEntries alice alice_page)) with EntriesListed es _ => es | _ => [] end.

Lemma listed_entries_derive_the_balance_witness : DeriveSpendable alice_entries = Spendable alice_balance.
Proof.
  apply (listed_entries_derive_the_balance (calm 1000) (calm 1000) sample_db alice (TypedID_String alice_account) alice_entries 2 100
    alice_balance); [computed|computed|vm_compute; discriminate|computed].
Defined.

(** ** Events and pages *)

Lemma NewRecipients_set_witness :
  let us := [alice; bob; alice] in
  NoDup (Users (NewRecipients us)) /\ Users (NewRecipients us) `sublist_of` us /\
  forall u, u ∈ Users (NewRecipients us) <-> u ∈ us.
Proof. exact (NewRecipients_set [alice; bob; alice]). Defined.

Lemma follow_pages_complete_witness :
  Pagination.follow_pages 6 2 0 [1; 2; 3; 4; 5] = Some [1; 2; 3; 4; 5].
Proof. apply (Pagination.follow_pages_complete [1; 2; 3; 4; 5] 2 0 6); vm_compute; lia || discriminate. Defined.

(** ** Escrow left behind

    Accepted without paying its credits, a task whose reward includes credits
    closes with its fund still allocated. *)
Theorem accept_without_credits_strands_escrow :
  escrow_live sample_db /\ ~ escrow_live (after (CAccept sample_unpaid_accept)).
Proof.
  split; [exact sample_escrow_live|]. intros Hl.
  destruct (Hl (TypedID_String open_task) (MkFundRow (TypedID_String alice_account) 40)) as (row & Hrow & Hst); [computed|].
  assert (task_state <$> tasks (after (CAccept sample_unpaid_accept)) !! TypedID_String open_task = Some "closed") as Hc by computed.
  rewrite Hrow in Hc. cbn in Hc. destruct Hst as [Hst|Hst]; congruence.
Qed.
