(* ===== verification/SchemaWitnesses.v ===== *)
(** * Response schemas at work

    A schema, values that meet and miss it, and the theorems about schemas applied
    to them. *)

From Stdlib Require Import Ascii.
From S2P Require Import Prelude.
From S2P Require Import Core.
From S2P Require Import Json.
From S2P Require Import SchemaModel.
From S2P Require Import SchemaParser.
From S2P Require Import SchemaValue.
From S2P Require Import SchemaValueProofs.
From S2P Require Import SchemaCheck.
Local Open Scope string_scope.

(** A contact form: a name, an optional secret that is removed, an e-mail address
    that is replaced, and a list of public scores. *)
Definition secret : Sensitivity := IsSensitive (MkSensitive SensitivitySecret RetentionStandard RedactionRemove).
Definition personal : Sensitivity := IsSensitive (MkSensitive SensitivityPII RetentionDeleteOnRequest RedactionReplace).

Definition contact_schema : Schema :=
  ObjectSchema
    [ MkObjectField (MkFieldName "name") FieldRequired (StringSchema NotSensitive) NotSensitive;
      MkObjectField (MkFieldName "key") FieldMayOmit (StringSchema NotSensitive) secret;
      MkObjectField (MkFieldName "mail") FieldRequired (StringSchema NotSensitive) personal;
      MkObjectField (MkFieldName "scores") FieldMayOmit (ArraySchema IntegerSchema) NotSensitive ].

Definition contact_schema_json : string := json_text
  "{'kind':'object','fields':[
     {'name':'name','presence':'required','schema':{'kind':'string'}},
     {'name':'key','presence':'may_omit','schema':{'kind':'string'},
      'sensitivity':{'category':'secret','retention':'standard','redaction':'remove'}},
     {'name':' mail ','presence':'required','schema':{'kind':'string'},
      'sensitivity':{'category':'pii','retention':'delete_on_request','redaction':'replace'}},
     {'name':'scores','presence':'may_omit','schema':{'kind':'array','item':{'kind':'integer'}}}]}".

Definition contact (key mail : string) : Value :=
  ObjectValue
    [ (MkFieldName "name", StringValue "Ada"); (MkFieldName "key", StringValue key);
      (MkFieldName "mail", StringValue mail); (MkFieldName "scores", ArrayValue [IntegerValue 7; IntegerValue (-2)]) ].

Definition contact_json : string := json_text
  "{'name':'Ada', 'key':'k', 'mail':'a@b', 'scores':[7, -2]}".

Lemma parsed_schemas_are_well_formed_witness :
  well_formed (S maxNestingDepth) contact_schema /\
  (forall fuel, 2 * length (to_bytes contact_schema_json) + 2 <= fuel ->
     parseSchemaRaw (document_within fuel (to_bytes contact_schema_json)) (S maxNestingDepth) = SchemaParsed contact_schema).
Proof. apply (parsed_schemas_are_well_formed contact_schema_json contact_schema). vm_compute. reflexivity. Defined.

Lemma parsed_values_fit_witness : fits 0 (contact "k" "a@b").
Proof. apply (parsed_values_fit contact_json). vm_compute. reflexivity. Defined.

Lemma encoding_reads_back_witness :
  exists source, EncodeValueJSON (contact "k" "a@b") = ValueEncoded source /\
    ParseValueJSON source = Some (ValueParsed (contact "k" "a@b")).
Proof. apply (encoding_reads_back contact_json). vm_compute. reflexivity. Defined.

Lemma trailing_closers_are_ignored_witness :
  ParseValueJSON ("[7]" +:+ String "}" "tail") = Some (ValueParsed (ArrayValue [IntegerValue 7])).
Proof.
  apply (trailing_closers_are_ignored "[7]" (ArrayValue [IntegerValue 7]) "[7]" "}"%char "tail");
    [vm_compute; reflexivity..|right; reflexivity].
Defined.

(** The contact conforms, one without an address does not. *)
Lemma Validate_iff_conforms_witness :
  conforms contact_schema (contact "k" "a@b") /\
  ~ conforms contact_schema (ObjectValue [(MkFieldName "name", StringValue "Ada")]).
Proof.
  split; [apply Validate_iff_conforms; vm_compute; reflexivity|].
  intros H%(Validate_iff_conforms contact_schema). vm_compute in H. discriminate H.
Defined.

(** A second [scores] that is no list of integers passes. *)
Lemma repeated_members_escape_validation_witness :
  Validate contact_schema
    (ObjectValue [(MkFieldName "name", StringValue "Ada"); (MkFieldName "mail", StringValue "a@b");
                  (MkFieldName "mail", IntegerValue 5)]) = ValidationAccepted.
Proof.
  pose proof (repeated_members_escape_validation
    (match contact_schema with ObjectSchema fields => fields | _ => [] end)
    [(MkFieldName "name", StringValue "Ada"); (MkFieldName "mail", StringValue "a@b")]
    (MkFieldName "mail") (IntegerValue 5)) as H.
  cbn [app] in H. refine (eq_trans (H _) _); [|vm_compute; reflexivity].
  cbn. set_solver.
Defined.

(** Contacts that differ in the secret and the address are redacted to the same
    value, contacts that differ in a score are not; and redaction hides all that the
    contact's schema marks. *)
Lemma redaction_hides_exactly_the_sensitive_part_witness :
  (same_public contact_schema (contact "k" "a@b") (contact "other" "c@d") /\
   ~ same_public contact_schema (contact "k" "a@b") (ObjectValue [(MkFieldName "name", StringValue "Ada")])) /\
  forall v w, same_public contact_schema v w -> RedactSensitive contact_schema v = RedactSensitive contact_schema w.
Proof.
  assert (forall v w, same_public contact_schema v w -> RedactSensitive contact_schema v = RedactSensitive contact_schema w) as Hall.
  { apply (redaction_hides_exactly_the_sensitive_part contact_schema); vm_compute; reflexivity. }
  split; [split|exact Hall].
  - apply redaction_hides_exactly_the_sensitive_part. vm_compute. reflexivity.
  - intros H%Hall. vm_compute in H. discriminate H.
Defined.

(** Tokens that are to be removed from a list, and an address to be replaced in a
    variant of a union. *)
Definition leaky_schema_json : string := json_text
  "{'kind':'object','fields':[
     {'name':'tokens','presence':'required','schema':{'kind':'array','item':
       {'kind':'string','sensitivity':{'category':'secret','retention':'standard','redaction':'remove'}}}},
     {'name':'reply','presence':'required','schema':{'kind':'union','variants':[
       {'kind':'object','fields':[{'name':'mail','presence':'required','schema':{'kind':'string'},
         'sensitivity':{'category':'pii','retention':'delete_on_request','redaction':'replace'}}]}]}}]}".

Definition leaky_schema : Schema :=
  ObjectSchema
    [ MkObjectField (MkFieldName "tokens") FieldRequired (ArraySchema (StringSchema secret)) NotSensitive;
      MkObjectField (MkFieldName "reply") FieldRequired
        (UnionSchema [ObjectSchema [MkObjectField (MkFieldName "mail") FieldRequired (StringSchema NotSensitive) personal]]) NotSensitive ].

Definition leaky (token mail : string) : Value :=
  ObjectValue [ (MkFieldName "tokens", ArrayValue [StringValue token]);
                (MkFieldName "reply", ObjectValue [(MkFieldName "mail", StringValue mail)]) ].

(** The schema is accepted, the response conforms, the token is in the index of
    sensitive parts, the schema marks token and address, and redaction shows both. *)
Lemma marks_out_of_reach_are_shown token mail :
  ParseSchemaJSON leaky_schema_json = SchemaParsed leaky_schema /\
  distinct_names leaky_schema = true /\ within_reach leaky_schema = false /\
  Validate leaky_schema (leaky token mail) = ValidationAccepted /\
  (exists path policy, BuildSensitiveIndex leaky_schema (leaky token mail) = [MkSensitiveField path policy]) /\
  same_public leaky_schema (leaky token mail) (leaky "" "") /\
  RedactSensitive leaky_schema (leaky token mail) = leaky token mail.
Proof.
  split; [vm_compute; reflexivity|]. do 2 (split; [reflexivity|]). split; [vm_compute; reflexivity|].
  split; [do 2 eexists; vm_compute; reflexivity|]. split; [|vm_compute; reflexivity].
  constructor. eapply same_fields_public; [split; [left|reflexivity]|reflexivity| |].
  { constructor. repeat constructor. }
  eapply same_fields_public; [split; [right; left|reflexivity]|reflexivity| |constructor].
  eapply same_public_union; [left|]. constructor.
  eapply same_fields_replaced; [split; [left|reflexivity]|reflexivity..|constructor].
Qed.
