(* ===== verification/DeliveryWitnesses.v ===== *)
(** * Delivery at work

    The delivery theorems applied to the sample marketplace: an acceptance whose
    events are dispatched inline, or recovered by sweeps. *)

From S2P Require Import Prelude.
From S2P Require Import Core.
From S2P Require Import Events.
From S2P Require Import LedgerValues.
From S2P Require Import Database.
From S2P Require Import Tx.
From S2P Require Import LedgerSpec.
From S2P Require Import Outbox.
From S2P Require Import HelperSpecs.
From S2P Require Import Refinement.
From S2P Require Import LedgerCorrect.
From S2P Require Import DeliveryDB.
From S2P Require Import Auth.
From S2P Require Import Inbox.
From S2P Require Import EventStore.
From S2P Require Import Recorder.
From S2P Require Import DeliverySpecs.
From S2P Require Import DeliveryCorrect.
From S2P Require Import DeliverySystem.
From S2P Require Import DeliveryProgress.
From S2P Require Import DeliveryHealthy.
From S2P Require Import Samples.
Local Open Scope string_scope.
Local Open Scope Z_scope.

Ltac computed := vm_compute; reflexivity.

(** A server that prints JSON as it was written. *)
#[export] Instance sample_jsonb : JSONB := {| jsonb s := Some s |}.

#[export] Instance sample_jsonb_laws : JSONBLaws.
Proof. split. by intros s t [= <-]. Qed.

Definition bob_hook : SubscriptionRow :=
  MkSubscriptionRow (TypedID_String (sample_id (k:=KWebhookSubscription) 70)) "user" (Some (TypedID_String bob)) None
    "https://bob.example.org/hook" "scrop_whsec_AAAA" "active" 0 "recipient" None None ["submission_accepted"].

Definition sample_start : Delivery :=
  MkDelivery sample_db ∅ [] [bob_hook] []
    (list_to_map [(TypedID_String alice, MkProfileRow "alice@example.org" ""); (TypedID_String bob, MkProfileRow "bob@example.org" "Bob")]) ∅ [].

Lemma sample_start_ok : delivery_ok sample_start.
Proof.
  split; try constructor; try (by intros i j a b Hi); try done.
Qed.

Lemma sample_system_ok : system_ok (MkSystem sample_start []).
Proof. split; [exact sample_db_ok|exact sample_start_ok|]. by intros draft ?%elem_of_nil. Qed.

(** Alice accepts bob's work; the events are stored and in flight. *)
Definition acceptance : Result * DB := run (calm 1000) (ledger sample_start) (perform (CAccept sample_accept)).

Definition accepted_drafts : list Draft := ([] ++ drafts_of (fst acceptance))%list.

Definition accepted : System := MkSystem (with_ledger (snd acceptance) sample_start) accepted_drafts.

Lemma accepted_reachable : rtc sys_step (MkSystem sample_start []) accepted.
Proof.
  apply rtc_once. assert (valid_command (CAccept sample_accept)) as Hv by sample_valid.
  exact (step_command (calm 1000) (CAccept sample_accept) sample_start [] Hv).
Qed.

Lemma accepted_ok : system_ok accepted.
Proof. apply (reachable_ok _ _ accepted_reachable sample_system_ok). Qed.

(** The first draft, dispatched inline. *)
Definition accepted_draft : Draft := default (sample_draft 0 KindTaskOpened NoSubjectRefs) (head accepted_drafts).

Definition dispatched : System :=
  MkSystem (snd (run (calm 2000) (sys_db accepted) (Recorder.Dispatch [accepted_draft]))) accepted_drafts.

Lemma accepted_draft_in : accepted_draft ∈ accepted_drafts.
Proof. apply (list_elem_of_lookup_2 _ 0). computed. Qed.

Lemma dispatched_reachable : rtc sys_step (MkSystem sample_start []) dispatched.
Proof.
  eapply rtc_r; [exact accepted_reachable|]. apply (step_dispatch (calm 2000) accepted_draft (sys_db accepted) accepted_drafts).
  exact accepted_draft_in.
Qed.

Definition sample_event (s : System) (draft : Draft) : EventRow :=
  match event_by_id (TypedID_String (Draft_ID draft)) (sys_db s) with
  | inr e => e
  | inl _ => event_row 0 0 draft
  end.

Lemma sample_event_in s draft :
  match event_by_id (TypedID_String (Draft_ID draft)) (sys_db s) with inr _ => true | inl _ => false end = true ->
  sample_event s draft ∈ events (sys_db s) /\ ev_id (sample_event s draft) = TypedID_String (Draft_ID draft).
Proof.
  unfold sample_event. destruct (event_by_id _ _) as [|e] eqn:He; [done|]. intros _. by apply event_by_id_elem.
Qed.

(** ** Safety *)

Definition bob_notification : NotificationRow :=
  default (MkNotificationRow "" "" "" "" "" "" "" "" None 0) (head (notifications (sys_db dispatched))).

Lemma inbox_rows_are_justified_witness :
  exists e, e ∈ events (sys_db dispatched) /\ ev_id e = TypedID_String (Draft_ID accepted_draft) /\
    inbox_row_ok (sys_db dispatched) bob_notification e /\
    inbox_rows (sys_db dispatched) (TypedID_String (Draft_ID accepted_draft)) (notif_recipient bob_notification) = [bob_notification].
Proof.
  apply (inbox_rows_are_justified (MkSystem sample_start []) dispatched bob_notification (TypedID_String (Draft_ID accepted_draft)));
    [exact dispatched_reachable|exact sample_system_ok|apply (list_elem_of_lookup_2 _ 0); computed|computed].
Defined.

Lemma dispatched_events_fill_every_inbox_witness :
  length (inbox_rows (sys_db dispatched) (ev_id (sample_event dispatched accepted_draft)) (TypedID_String bob)) = 1%nat.
Proof.
  apply (dispatched_events_fill_every_inbox (MkSystem sample_start []) dispatched (sample_event dispatched accepted_draft)
    KindSubmissionAccepted Notification.KindSubmissionAccepted (TypedID_String bob));
    [exact dispatched_reachable|exact sample_system_ok|apply sample_event_in; computed|computed|computed|computed| |vm_compute; discriminate].
  apply (bool_decide_unpack _). computed.
Defined.

(** ** Progress: every dispatch of these sweeps fails, so the events are retired *)

Definition failing_sweep (n : nat) : Env := {|
  env_fails step := bool_decide (2 <= step)%nat;
  env_day _ := "2026-01-03";
  env_now _ := 1000 * 10 ^ 9;
  env_tx_now := 1;
  env_seq _ := 0;
  env_event_id _ := TypedIDCreated (sample_id 0);
  env_notification_id _ := TypedIDCreated (sample_id 0);
  env_delivery_id _ := TypedIDCreated (sample_id 0)
|}.

Lemma failing_sweep_effective n : effective (10 ^ 9) (failing_sweep n).
Proof. split; [done|]. split; [done|]. vm_compute. discriminate. Qed.

Lemma sweeps_settle_every_event_witness :
  let e := sample_event accepted accepted_draft in
  let d' := sweeps (failing_sweep <$> seq 0 100) (sys_db accepted) in
  (with_state "dispatched" e ∈ events d' /\ inbox_complete d' (with_state "dispatched" e)) \/
  with_state "dispatch_failed" e ∈ events d'.
Proof.
  apply (sweeps_settle_every_event (10 ^ 9) (failing_sweep <$> seq 0 100) (sys_db accepted) (sample_event accepted accepted_draft));
    [apply accepted_ok| |apply Nat.leb_le; computed|apply sample_event_in; computed|computed|apply Z.leb_le; computed].
  apply Forall_fmap, List.Forall_forall. intros n _. apply failing_sweep_effective.
Defined.

(** ** Healthy runs *)

Lemma sample_id_inj {k} (n m : N) : (n < 2 ^ 128)%N -> (m < 2 ^ 128)%N -> sample_id (k:=k) n = sample_id m -> n = m.
Proof.
  intros Hn Hm [= Heq]. assert (forall v, (v < 2 ^ 128)%N -> uuid_value (default uuid_nil (uuid_of v)) = v) as Hval.
  { intros v Hv. unfold uuid_of. destruct (decide _) as [|Hno]; [done|]. destruct Hno.
    apply Is_true_true, N.ltb_lt. exact Hv. }
  rewrite <- (Hval n Hn), <- (Hval m Hm). by rewrite Heq.
Qed.


Lemma calm_healthy base horizon d :
  (base + N.of_nat horizon < 2 ^ 128)%N -> notifications d = [] -> webhook_deliveries d = [] ->
  healthy_from (calm base) horizon 0 d.
Proof.
  intros Hb Hn Hw.
  assert (forall k n m, (n < horizon)%nat -> (m < horizon)%nat ->
    TypedIDCreated (sample_id (k:=k) (base + N.of_nat m)) = TypedIDCreated (sample_id (base + N.of_nat n)) -> m = n) as Hinj.
  { intros k n m Hn' Hm' Heq. assert (base + N.of_nat m = base + N.of_nat n)%N; [|lia].
    apply (sample_id_inj (k:=k)); [lia|lia|]. congruence. }
  split; [done| | |by rewrite Hn; intros m i _ _ ?%elem_of_nil|by rewrite Hw; intros m i _ _ ?%elem_of_nil];
    intros n Hn'; eexists; (split; [done|]); intros m Hm'; by apply Hinj.
Qed.

Lemma healthy_dispatch_delivers_witness :
  let e := sample_event accepted accepted_draft in
  let d' := snd (run (calm 2000) (sys_db accepted) (Recorder.Dispatch accepted_drafts)) in
  with_state "dispatched" e ∈ events d' /\ inbox_complete d' e.
Proof.
  apply (healthy_dispatch_delivers accepted (calm 2000) accepted_drafts accepted_draft (sample_event accepted accepted_draft));
    [exact accepted_ok| | |exact accepted_draft_in|apply sample_event_in; computed|apply sample_event_in; computed|computed].
  - apply calm_healthy; [apply N.ltb_lt; computed|done|done].
  - intros draft Hd. split; [exact Hd|by eexists].
Defined.

(** A day later, nothing having been dispatched inline. *)
Definition late : Env := {|
  env_fails _ := false;
  env_day _ := "2026-01-03";
  env_now _ := 1000 * 10 ^ 9;
  env_tx_now := 1;
  env_seq _ := 0;
  env_event_id := env_event_id (calm 3000);
  env_notification_id := env_notification_id (calm 3000);
  env_delivery_id := env_delivery_id (calm 3000)
|}.

Lemma healthy_sweep_recovers_witness :
  let e := sample_event accepted accepted_draft in
  let d' := snd (run late (sys_db accepted) sweepRecordedEvents) in
  with_state "dispatched" e ∈ events d' /\ inbox_complete d' e.
Proof.
  apply (healthy_sweep_recovers late (sys_db accepted) (sample_event accepted accepted_draft));
    [apply accepted_ok| |apply sample_event_in; computed|computed|computed|apply Nat.ltb_lt; computed|by eexists].
  destruct (calm_healthy 3000 (steps late (sys_db accepted) sweepRecordedEvents) (sys_db accepted)) as [_ Hn Hd Hun Hud];
    [apply N.ltb_lt; computed|done|done|]. split; done.
Defined.

(** ** Single events *)

Definition fresh_draft : Draft :=
  MkDraft (sample_id 900) KindTipReceived (ActorUser alice) (taskSubject open_task) (MkMetadata "{}") (NewRecipients [bob; carol]).

Lemma appended_event_reads_back_witness :
  let d' := snd (run (calm 2000) sample_start (Append fresh_draft 7)) in
  exists e draft', e ∈ events d' /\ is_recorded e = true /\ ev_seq e = 2002 /\
    Draft_Event fresh_draft 7 = Draft_Event fresh_draft 7 /\
    parseStoredEventColumns e = Some (reprinted fresh_draft 7 (ev_seq e) "{}") /\
    rebuild d' e = Some draft' /\ same_draft "{}" fresh_draft draft'.
Proof.
  apply (appended_event_reads_back (calm 2000) sample_start fresh_draft 7
    (WithoutEnrichment (MkStoredEvent (Draft_Event fresh_draft 7) (CursorFromSequence 2002) NoActorName NoTaskTitle)) "{}");
    [exact sample_start_ok|computed|done].
Defined.

Lemma Dispatch_is_all_or_nothing_witness :
  let e := sample_event accepted accepted_draft in
  let d' := snd (run (calm 2000) (sys_db accepted) (EventStore.Dispatch (Draft_ID accepted_draft))) in
  with_state "dispatched" e ∈ events d' /\ notifications d' = notifications (sys_db accepted) /\
  (forall f, f ∈ events (sys_db accepted) -> f <> e -> f ∈ events d') /\
  forall s, has_delivery d' s (ev_seq e) <->
    exists sub, sub ∈ webhook_subscriptions (sys_db accepted) /\ ws_id sub = s /\ subscription_matches (sys_db accepted) e sub = true.
Proof.
  pose proof (Dispatch_is_all_or_nothing (calm 2000) (sys_db accepted) (Draft_ID accepted_draft) (sample_event accepted accepted_draft)) as Hd.
  assert (fst (run (calm 2000) (sys_db accepted) (EventStore.Dispatch (Draft_ID accepted_draft))) = DispatchStoreCompleted) as Hr by computed.
  destruct (run _ _ _) as [r d']. cbn [fst snd] in *. subst r.
  apply Hd; [apply accepted_ok|apply sample_event_in; computed|apply sample_event_in; computed|computed].
Defined.
