(* ===== verification/TaskWitnesses.v ===== *)
(** * Tasks at work

    The theorems on the life of tasks applied to the sample marketplace: its task
    rows completed, tasks created, reserved, cancelled and expired on it. *)

From S2P Require Import Prelude.
From S2P Require Import Core.
From S2P Require Import Auth.
From S2P Require Import Events.
From S2P Require Import TaskValues.
From S2P Require Import TaskWork.
From S2P Require Import LedgerValues.
From S2P Require Import Database.
From S2P Require Import Tx.
From S2P Require Import LedgerSpec.
From S2P Require Import LedgerHelpers.
From S2P Require Import LedgerStore.
From S2P Require Import HelperSpecs.
From S2P Require Import ReviewSpecs.
From S2P Require Import Refinement.
From S2P Require Import LedgerCorrect.
From S2P Require Import EscrowSpecs.
From S2P Require Import DeliveryDB.
From S2P Require Import TaskDB.
From S2P Require Import OrgStore.
From S2P Require Import TaskRows.
From S2P Require Import TaskStore.
From S2P Require Import TaskService.
From S2P Require Import TaskSpecs.
From S2P Require Import SweepSpecs.
From S2P Require Import ReservationSpecs.
From S2P Require Import Lifecycle.
From S2P Require Import LifecycleCorrect.
From S2P Require Import Samples.
Local Open Scope string_scope.
Local Open Scope Z_scope.

(** Evaluate a closed goal. *)
Ltac computed := vm_compute; reflexivity.

(** ** The sample market *)

#[export] Instance sample_world : World := {|
  server_now n := 100 + Z.of_nat n;
  new_task_id n := TypedIDCreated (sample_id (500 + N.of_nat n));
  new_series_id n := TypedIDCreated (sample_id (600 + N.of_nat n));
  new_reservation_id n := TypedIDCreated (sample_id (700 + N.of_nat n));
  new_ledger_entry_id n := TypedIDCreated (sample_id (800 + N.of_nat n));
  world_jsonb := {| jsonb raw := Some raw |};
  attachments_json _ := "[]"
|}.

Lemma sample_clock : clock_advances.
Proof. intros i j Hij. cbn. lia. Qed.

(** Agents get no worker credential here. *)
#[export] Instance sample_issuer : TaskCredentialIssuer := {| IssueTaskWorkerCredential _ _ := mret None |}.

Definition sample_columns (owner_kind title policy : string) (user : option UserID) (expires : option Z) : TaskColumns :=
  MkTaskColumns None None owner_kind (TypedID_String <$> user) None title "what to do" "general" "" policy "user" 24
    "{}" "none" None expires 1.

Definition sample_scope (task : TaskID) : VisibilityRow := MkVisibilityRow (TypedID_String task) "public" "public" None None None.

Definition sample_profile (name : string) : ProfileRow := MkProfileRow (name +:+ "@example.org") name.

(** The open task is overdue at 100. *)
Definition sample_market : Market := {|
  tables := sample_db;
  task_columns := list_to_map
    [ (TypedID_String draft_task, sample_columns "user" "draft" "open" (Some alice) None);
      (TypedID_String open_task, sample_columns "user" "open" "reservation_required" (Some alice) (Some 50));
      (TypedID_String acme_task, sample_columns "organization" "acme" "open" None None) ];
  task_visibility_scopes := [ sample_scope draft_task; sample_scope open_task; sample_scope acme_task ];
  task_attachments := [];
  reservation_columns := {[ TypedID_String bob_reservation := MkReservationColumns None None 1000 1 None ]};
  task_series := ∅;
  organizations := {[ TypedID_String acme ]};
  teams := ∅;
  team_members := [];
  profiles := list_to_map [ (TypedID_String alice, sample_profile "alice"); (TypedID_String bob, sample_profile "bob");
    (TypedID_String carol, sample_profile "carol") ]
|}.

Lemma printed_canonical (t : TaskID) : canonical (TypedID_String t).
Proof. intros u. rewrite ParseTypedID_String. by intros [= ->]. Qed.

Lemma sample_market_ok : market_ok sample_market.
Proof.
  split; cbn.
  - exact sample_db_ok.
  - unfold keys_printed. cbn [tables sample_market sample_db tasks]. unfold list_to_map. cbn [foldr].
    repeat (apply map_Forall_insert_2; [apply printed_canonical|]). apply map_Forall_empty.
  - intros t row Hrow%elem_of_list_to_map_2 Hend. exfalso.
    repeat (apply elem_of_cons in Hrow as [[= -> ->]|Hrow]; [by destruct Hend|]). by apply not_elem_of_nil in Hrow.
  - intros c. cbn. rewrite !lookup_singleton. case_decide; subst.
    + split; [by eexists|]. by eauto.
    + split; [by intros []|]. by intros (? & ? & _).
Qed.

(** ** Operations *)

Definition sample_reserve (origin : Work.ReservationOrigin) : Tasks.ReservationCommand :=
  Tasks.MkReservationCommand open_task (Task.UserAssignee carol) carol origin
    (sample_draft 130 KindReservationRequested (taskSubject open_task)).

Definition carol_reservation : TaskReservationID := sample_id 57.

Definition cancel_draft : Draft := sample_draft 131 KindTaskCancelled (taskSubject open_task).

Definition sample_title : Task.Title := Task.MkTitle "Proofread".

Definition sample_create : Tasks.CreateCommand :=
  Tasks.MkCreateCommand alice (Task.UserOwner alice) sample_title (Task.MkDescription "two pages") TaskTypeDocumentReview
    (MkReferenceURL "https://example.org/draft") Task.NoRewardSpec Task.ParticipationPolicyReservationRequired
    Task.AssigneeScopeUser (Task.MkReservationTTL 48) Task.PublicVisibility
    (Task.NewSeriesPlacement (Task.MkSeriesTitle "Chapters") (Task.MkSeriesPosition 1))
    (Task.MkResponseSchemaSource "{}") Task.NoDataPayload [] (Task.ExpiresAt (1767225599 * 10 ^ 9 + 5)) [].

Definition new_task : TaskID := sample_id 40.
Definition new_series : TaskSeriesID := sample_id 41.

(** A day of the market: a task created, one reserved and cancelled, one funded, and the sweeps. *)
Definition sample_life : list (Env * Operation) :=
  [ (calm 1000, OCreateTask new_series new_task sample_create);
    (calm 1100, OCreateReservation carol_reservation (sample_reserve Work.ReservedByUserSession));
    (calm 1200, OChangeTaskState open_task Task.StateCancelled (RecordDraft cancel_draft));
    (calm 1300, OLedger (CFund sample_fund));
    (calm 1400, OExpireDueReservations);
    (calm 1500, OExpireDueTasks) ].

Lemma sample_life_valid : Forall (fun eo => valid_operation eo.2) sample_life.
Proof.
  repeat (apply List.Forall_cons; [first [exact I | split; [reflexivity|vm_compute; discriminate] | by right; right]|]). constructor.
Qed.

(** ** The sweep, and cancellation *)

Lemma due_tasks_expire_witness :
  let m' := snd (run (calm 1000) sample_market Sweeps.ExpireDueTasks) in
  (exists expires, overdue 100 sample_market (TypedID_String open_task) expires) /\
  exists expired, NoDup expired /\
    Forall (fun t => (exists expires, overdue 100 sample_market t expires) /\ ended_as "expired" t m') expired /\
    (forall t u e e', t ∈ expired -> u ∉ expired -> overdue 100 sample_market t e -> overdue 100 sample_market u e' -> e <= e') /\
    (forall t, t ∉ expired -> task_row t m' = task_row t sample_market) /\
    match fst (run (calm 1000) sample_market Sweeps.ExpireDueTasks) with
    | Sweeps.ExpireDueTasksCompleted ds => (forall t e, overdue 100 sample_market t e -> t ∈ expired) /\ Forall2 reports_expiry expired ds
    | Sweeps.ExpireDueTasksRejected _ => True
    end.
Proof.
  split; [apply overdue_listed; vm_compute; left|].
  exact (due_tasks_expire (calm 1000) sample_market sample_clock (market_keys _ sample_market_ok)).
Defined.

(** A run of which the result is known. *)
Lemma run_gives {S A} env (m : S) (c : MOf S A) a : fst (run env m c) = a -> run env m c = (a, snd (run env m c)).
Proof. intros <-. apply surjective_pairing. Qed.

(** The value of an option that has one. *)
Definition sure {A} (o : option A) : match o with Some _ => A | None => unit end := match o with Some a => a | None => tt end.

Abbreviation cancelling := (Tasks.ChangeTaskState open_task Task.StateCancelled (RecordDraft cancel_draft)).
Abbreviation cancelled_market := (snd (run (calm 1200) sample_market cancelling)).

Definition cancelled_task := Eval vm_compute in
  sure match fst (run (calm 1200) sample_market cancelling) with
       | Tasks.ChangeTaskStateStoreAccepted value ds => Some (value, ds)
       | Tasks.ChangeTaskStateStoreRejected _ => None
       end.

Lemma cancellation_settles_the_task_witness :
  ended_as "cancelled" (TypedID_String open_task) cancelled_market /\
  (forall a, account_sum a (ledger_entries (tables cancelled_market)) =
     account_sum a (ledger_entries (tables sample_market)) + returned (task_funds (tables sample_market) !! TypedID_String open_task) a) /\
  (forall c, collectibles (tables cancelled_market) !! c =
     if decide (task_fund_collectibles (tables sample_market) !! c = Some (TypedID_String open_task))
     then set_col_state "minted" <$> collectibles (tables sample_market) !! c else collectibles (tables sample_market) !! c) /\
  exists row creator holders d,
    tasks (tables sample_market) !! TypedID_String open_task = Some row /\ ParseUserID (task_created_by_user_id row) = TypedIDCreated creator /\
    parse_users (holders_of (TypedID_String open_task) (tables sample_market)) holders /\
    d = WithRecipients cancel_draft (creator :: holders) /\ cancelled_task.2 = [d] /\
    forall u, u = creator \/ u ∈ holders -> u ∈ Users (Draft_Recipients d).
Proof.
  apply (cancellation_settles_the_task (calm 1200) sample_market open_task cancel_draft cancelled_task.1 cancelled_task.2 cancelled_market).
  apply run_gives. computed.
Defined.

(** ** Reservations *)

Abbreviation reserving origin := (Tasks.CreateReservation carol_reservation (sample_reserve origin)).

Definition carols := Eval vm_compute in
  sure match fst (run (calm 1000) sample_market (reserving Work.ReservedByUserSession)) with
       | Tasks.CreateReservationStoreAccepted value => Some value
       | Tasks.CreateReservationStoreRejected _ => None
       end.

Abbreviation reserved_market := (snd (run (calm 1000) sample_market (reserving Work.ReservedByUserSession))).

Lemma reservation_is_gated_witness :
  exists m1, housekept sample_market m1 /\
    (exists row columns, task_row (TypedID_String open_task) m1 = Some (row, columns) /\ task_state row = "open" /\
       tc_participation_policy columns = "reservation_required") /\
    Tasks.series_unpublished (TypedID_String open_task) m1 = false /\
    Tasks.is_banned (TypedID_String open_task) (assigneeSQLColumns (Task.UserAssignee carol)) m1 = false /\
    (forall r reservation, task_reservations (tables m1) !! r = Some reservation -> res_task_id reservation = TypedID_String open_task ->
       res_state reservation <> "active") /\
    task_reservations (tables reserved_market) =
      <[TypedID_String carol_reservation := new_reservation (sample_reserve Work.ReservedByUserSession)]> (task_reservations (tables m1)).
Proof.
  apply (reservation_is_gated (calm 1000) sample_market carol_reservation (sample_reserve Work.ReservedByUserSession) carols reserved_market).
  apply run_gives. computed.
Defined.

(** Through the work credential: three tasks a day, one at a time. *)
Definition bot_origin : Work.ReservationOrigin := Work.ReservedViaWorkCredential bot 3 (Work.ReservationConcurrencyCapAtMost 1).

Lemma reservation_stays_within_budget_witness :
  let m' := snd (run (calm 1000) sample_market (reserving bot_origin)) in
  (exists day, let used d := default 0 (work_day_counters d !! (Tasks.workDayKeyAgentTasks +:+ TypedID_String bot, day)) in
     used (tables m') = used (tables sample_market) + 1 /\ used (tables m') <= 3) /\
  Tasks.active_via (TypedID_String bot) m' <= 1.
Proof.
  apply (reservation_stays_within_budget (calm 1000) sample_market carol_reservation (sample_reserve bot_origin) bot 3
    (Work.ReservationConcurrencyCapAtMost 1) carols); [reflexivity|]. apply run_gives. computed.
Defined.

(** ** The service *)

Abbreviation listing actor := (TaskService.ListReservations (Auth.UserSubject actor) open_task Pagination.DefaultPage).

Definition listed_for (result : TaskService.ReservationsListResult) : list Task.Reservation :=
  match result with
  | TaskService.ReservationsListed values => values
  | TaskService.ReservationsListRejected _ => []
  end.

Definition shown_to_alice := Eval vm_compute in listed_for (fst (run (calm 1100) reserved_market (listing alice))).
Definition shown_to_carol := Eval vm_compute in listed_for (fst (run (calm 1100) reserved_market (listing carol))).

(** Carol sees her own reservation; alice, the owner, bob's too. *)
Lemma reservations_are_shown_to_their_holders_witness :
  length shown_to_alice = 2%nat /\ shown_to_carol = [carols] /\
  ((exists value m1, task_found open_task reserved_market value /\ housekept reserved_market m1 /\
      acts_for (Auth.UserSubject carol) (Task.TOwner value) m1) \/
   Forall (fun r => Auth.UserSubject carol = Auth.UserSubject (Task.RequestedBy r)) shown_to_carol).
Proof.
  split; [reflexivity|]. split; [reflexivity|].
  eapply (reservations_are_shown_to_their_holders (calm 1100) (Auth.UserSubject carol) open_task Pagination.DefaultPage reserved_market shown_to_carol).
  apply run_gives. computed.
Defined.

Abbreviation giving_up := (TaskService.CancelReservation (Auth.UserSubject carol) open_task carol_reservation).

Definition given_up := Eval vm_compute in
  sure match fst (run (calm 1300) reserved_market giving_up) with
       | (TaskService.ReservationStateChanged value, ds) => Some (value, ds)
       | (TaskService.ReservationStateChangeRejected _, _) => None
       end.

Lemma reservation_cancellation_is_authorised_witness :
  exists task m1 state row, task_found open_task reserved_market task /\ housekept reserved_market m1 /\
    cancellation_ground (Auth.UserSubject carol) (Task.TOwner task) carol_reservation m1 state /\
    task_reservations (tables (snd (run (calm 1300) reserved_market giving_up))) !! TypedID_String carol_reservation = Some row /\
    res_task_id row = TypedID_String open_task /\ res_state row = Task.ReservationState_String state.
Proof.
  apply (reservation_cancellation_is_authorised (calm 1300) (Auth.UserSubject carol) open_task carol_reservation reserved_market
    given_up.1 given_up.2). apply run_gives. computed.
Defined.

(** Alice unpublishes and cancels at once: the decision to unpublish is taken first and written last. *)
Abbreviation service_cancelled := (snd (run (calm 1200) sample_market (TaskService.Cancel (Auth.UserSubject alice) open_task))).

Lemma stale_decision_revives_a_cancelled_task_witness :
  exists row2, tasks (tables (snd (run (calm 1300) service_cancelled (TaskService.apply_state open_task Task.StateDraft NoEvent))))
      !! TypedID_String open_task = Some row2 /\ task_state row2 = "draft".
Proof.
  apply (stale_decision_revives_a_cancelled_task (calm 1100) (calm 1200) (calm 1300) (Auth.UserSubject alice) (Auth.UserSubject alice)
    open_task sample_market service_cancelled Task.StateDraft (sample_task "cancelled" None "bundle" (Some 40)));
    [apply calm_no_faults|computed|reflexivity|computed|reflexivity].
Defined.

(** ** Creation *)

Abbreviation creating := (Tasks.CreateTask new_series new_task sample_create).

Definition created_value := Eval vm_compute in
  sure match fst (run (calm 1000) sample_market creating) with
       | Tasks.CreateTaskStoreAccepted value => Some value
       | Tasks.CreateTaskStoreRejected _ => None
       end.

Lemma sample_create_made : made sample_create.
Proof.
  split.
  - exists " Proofread ". by vm_compute.
  - exists "two pages". by vm_compute.
  - exists "https://example.org/draft". by vm_compute.
  - exists 48. by vm_compute.
  - exists 1. by vm_compute.
Qed.

Lemma sample_scopes : scopes_of_tasks sample_market.
Proof. apply (bool_decide_unpack _). by vm_compute. Qed.

Lemma created_task_reads_back_witness :
  let value := created_value in
  Task.ID value = new_task /\ Task.CreatedBy value = alice /\ Task.TState value = Task.StateDraft /\
  Task.TOwner value = Task.UserOwner alice /\ Task.TTitle value = sample_title /\
  Task.TDescription value = Task.MkDescription "two pages" /\ Task.Type_ value = TaskTypeDocumentReview /\
  Task.Reference value = MkReferenceURL "https://example.org/draft" /\
  Task.Participation value = Task.ParticipationPolicyReservationRequired /\
  Task.TAssigneeScope value = Task.AssigneeScopeUser /\ Task.TReservationTTL value = Task.MkReservationTTL 48 /\
  Task.TVisibility value = Task.PublicVisibility /\
  Task.Placement value = Task.ExistingSeriesPlacement new_series (Task.MkSeriesPosition 1) /\
  Task.Expiration value = Task.ExpiresAt (1767225599 * 10 ^ 9).
Proof.
  apply (created_task_reads_back (calm 1000) sample_market new_series new_task sample_create created_value
    (snd (run (calm 1000) sample_market creating))).
  - by vm_compute.
  - exact sample_create_made.
  - by vm_compute.
  - exact sample_scopes.
  - apply run_gives. computed.
Defined.
