(* ===== verification/GalleryWitnesses.v ===== *)
(** * The gallery and the desk at work

    The theorems on collectibles, rewards and the catalog applied to the sample market
    with a catalog entry, an edition of it that [acme] owns, and a ribbon of alice's;
    and the theorems on submissions applied to the same gallery with responses,
    receipts and a comment thread. *)

From S2P Require Import Prelude.
From S2P Require Import Core.
From S2P Require Import OrgRoles.
From S2P Require Import Auth.
From S2P Require Import Assets.
From S2P Require Import Events.
From S2P Require Import Json.
From S2P Require Import JsonFacts.
From S2P Require Import Attachments.
From S2P Require Import TaskValues.
From S2P Require Import SchemaModel.
From S2P Require Import SchemaValue.
From S2P Require Import SchemaCheck.
From S2P Require Import LedgerValues.
From S2P Require Import TaskWork.
From S2P Require Import Database.
From S2P Require Import Tx.
From S2P Require Import LedgerSpec.
From S2P Require Import Outbox.
From S2P Require Import LedgerHelpers.
From S2P Require Import LedgerStore.
From S2P Require Import HelperSpecs.
From S2P Require Import ReviewSpecs.
From S2P Require Import StoreSpecs.
From S2P Require Import Refinement.
From S2P Require Import LedgerBehaviour.
From S2P Require Import LedgerCorrect.
From S2P Require Import EscrowSpecs.
From S2P Require Import TaskDB.
From S2P Require Import TaskRows.
From S2P Require Import TaskStore.
From S2P Require Import TaskSpecs.
From S2P Require Import SweepSpecs.
From S2P Require Import Lifecycle.
From S2P Require Import CollectibleStore.
From S2P Require Import CatalogStore.
From S2P Require Import CollectibleService.
From S2P Require Import GalleryFrames.
From S2P Require Import GalleryLife.
From S2P Require Import GalleryCorrect.
From S2P Require Import SubmissionStore.
From S2P Require Import SubmissionService.
From S2P Require Import SubmissionCorrect.
From S2P Require Import SubmissionLife.
From S2P Require Import Samples.
From S2P Require Import SchemaWitnesses.
From S2P Require Import TaskWitnesses.
Local Open Scope string_scope.
Local Open Scope Z_scope.

#[export] Instance sample_collectibles : CollectibleIDs := fun n => TypedIDCreated (sample_id (900 + N.of_nat n)).

(** ** The sample gallery *)

Definition quill : CatalogSlug := MkCatalogSlug "golden-quill".
Definition trophy : CollectibleID := sample_id 62.

Definition sample_quill : CatalogRow := MkCatalogRow "Golden quill" "edition" "transferable_within_organization" "golden-egg" "available" (Some 3) 0.

Definition trophy_row : CollectibleRow :=
  MkCollectibleRow "Golden quill" "edition" "minted" "transferable_within_organization" (TypedID_String acme) "organization"
    (Some (TypedID_String acme)) "golden-egg" (Some "golden-quill") (Some 1) (Some (TypedID_String alice)).

Definition ribbon_row : CollectibleRow :=
  MkCollectibleRow "ribbon" "badge" "minted" "transferable_between_users" (TypedID_String alice) "user" None "" None None None.

(** Alice administers [acme]. *)
Definition gallery_db : DB :=
  with_collectibles (<[TypedID_String trophy := trophy_row]> (<[TypedID_String ribbon := ribbon_row]> (collectibles sample_db)))
    {| users := users sample_db; agent_credentials := agent_credentials sample_db; credit_accounts := credit_accounts sample_db;
       organization_memberships := MkMembershipRow (TypedID_String acme) (TypedID_String alice) "active" ["admin"] :: organization_memberships sample_db;
       tasks := tasks sample_db; ledger_entries := ledger_entries sample_db; task_funds := task_funds sample_db;
       task_fund_collectibles := task_fund_collectibles sample_db; collectibles := collectibles sample_db;
       submissions := submissions sample_db; task_reservations := task_reservations sample_db;
       task_implementor_bans := task_implementor_bans sample_db; work_day_counters := work_day_counters sample_db;
       domain_events := []; domain_event_recipients := [] |}.

Definition sample_gallery : Gallery :=
  MkGallery (with_tables gallery_db sample_market) {[ "golden-quill" := sample_quill ]} ∅ {[ TypedID_String acme := "Acme" ]}.

Lemma sample_gallery_ok : gallery_ok sample_gallery.
Proof.
  pose proof sample_market_ok as [Hl Hk He _]. split.
  - split; [by destruct Hl|exact Hk|by apply (same_tasks_ended (tables sample_market)); [|apply same_escrow_lightened|]| |].
    + intros c. split.
      * intros [t Ht]. cbn in Ht. apply lookup_singleton_Some in Ht as [<- _]. eexists. by split; [vm_compute|].
      * intros (row & Hrow & Hs). cbn in *. apply lookup_insert_Some in Hrow as [[_ <-]|[_ [[_ <-]|[_ [<- _]%lookup_singleton_Some]]%lookup_insert_Some]]; [done..|].
        by eexists.
    + split; cbn.
      * apply (bool_decide_unpack _). by vm_compute.
      * intros t [fund Hf]. apply lookup_singleton_Some in Hf as [<- _]. exists "bundle". split; [by vm_compute|by right].
      * intros c t Ht. apply lookup_singleton_Some in Ht as [_ <-]. exists "bundle". split; [by vm_compute|by right].
  - assert (map_Forall (fun i a => ~ clashes i a (rows_of sample_gallery)) (rows_of sample_gallery)) as Hi by (apply (bool_decide_unpack _); by vm_compute).
    intros i a Ha. exact (Hi _ _ Ha).
  - cbn. apply map_Forall_singleton. unfold cap_fits. cbn. split; [lia|by left].
  - intros i row slug Hrow Hslug. cbn in Hrow. apply lookup_insert_Some in Hrow as [[_ <-]|[_ [[_ <-]|[_ [_ <-]%lookup_singleton_Some]]%lookup_insert_Some]];
      cbn in Hslug; simplify_eq.
    exists sample_quill. split; [by vm_compute|]. split; [done|]. cbn. split; [done|]. split; [lia|]. intros limit [= <-]. lia.
Qed.

(** A season: the market's day, awards, rewards, gifts and transfers. *)
Definition sample_season : list (Env * GalleryOp) :=
  ((fun eo => (eo.1, GMarket eo.2)) <$> sample_life) ++
  [ (calm 1600, GAward alice "golden-quill" "user" (TypedID_String alice) "");
    (calm 1700, GFundReward alice acme_task ribbon);
    (calm 1800, GRefundReward alice acme_task);
    (calm 1900, GGift alice bob medal);
    (calm 2000, GHandout alice acme bob trophy);
    (calm 2100, GWithdraw alice trophy);
    (calm 2200, GRelease alice trophy);
    (calm 2300, GDelete medal) ]%list.

Lemma sample_season_valid : Forall (fun eo => valid_gallery eo.2 /\ issues_no_credits eo.2) sample_season.
Proof.
  pose proof sample_life_valid as Hv. apply Forall_app. split; [|by repeat constructor].
  apply List.Forall_forall. intros eo (lo & <- & Hin)%in_map_iff. split; [split|]; cbn.
  - by apply (proj1 (List.Forall_forall _ _) Hv).
  - intros command (s & t & E). repeat (destruct Hin as [<-|Hin]; [cbn in E; simplify_eq; by intros []|]). by destruct Hin.
  - repeat (destruct Hin as [<-|Hin]; [exact I|]). by destruct Hin.
Qed.

Lemma sample_season_requests : Forall (fun eo => valid_gallery eo.2) sample_season.
Proof. eapply List.Forall_impl; [|exact sample_season_valid]. by intros eo [? _]. Qed.

Lemma ended_tasks_hold_nothing_witness :
  let d := tables (market (gallery_after_all sample_season sample_gallery)) in
  task_funds d !! TypedID_String open_task = None /\ (forall c, task_fund_collectibles d !! c <> Some (TypedID_String open_task)) /\
  forall r reservation, task_reservations d !! r = Some reservation -> res_task_id reservation = TypedID_String open_task ->
    res_state reservation <> "active" /\ res_state reservation <> "submitted".
Proof.
  apply (ended_tasks_hold_nothing sample_season sample_gallery (TypedID_String open_task) (sample_task "cancelled" None "bundle" (Some 40)));
    [exact sample_season_requests|exact sample_gallery_ok|computed|by left].
Defined.

Lemma rewards_stay_in_custody_witness :
  let d := tables (market (gallery_after_all sample_season sample_gallery)) in
  ((exists t, task_fund_collectibles d !! TypedID_String ribbon = Some t) <->
    exists row, collectibles d !! TypedID_String ribbon = Some row /\ col_state row = "escrowed") /\
  (forall t, task_fund_collectibles d !! TypedID_String ribbon = Some t ->
     exists row, tasks d !! t = Some row /\ (task_reward_kind row = "collectible" \/ task_reward_kind row = "bundle")) /\
  (forall t, is_Some (task_funds d !! t) ->
     exists row, tasks d !! t = Some row /\ (task_reward_kind row = "credit" \/ task_reward_kind row = "bundle")).
Proof. exact (rewards_stay_in_custody sample_season sample_gallery _ sample_season_requests sample_gallery_ok). Defined.

Lemma gallery_conserves_credits_witness :
  ledger_ok (tables (market (gallery_after_all sample_season sample_gallery))) /\
  supply (view (tables (market (gallery_after_all sample_season sample_gallery)))) = supply (view gallery_db).
Proof. exact (gallery_conserves_credits sample_season sample_gallery sample_season_valid sample_gallery_ok). Defined.

(** Two of the three editions are out after the season. *)
Lemma catalog_caps_are_respected_witness :
  let g' := gallery_after_all sample_season sample_gallery in
  let instances := filter (fun kv => col_catalog_slug kv.2 = Some "golden-quill") (rows_of g') in
  size instances = 2%nat /\
  (forall limit, cat_max_editions sample_quill = Some limit -> cat_kind sample_quill = "edition" -> Z.of_nat (size instances) <= limit) /\
  (cat_kind sample_quill = "unique" -> (size (filter (fun kv => col_state kv.2 <> "withdrawn") instances) <= 1)%nat) /\
  map_Forall (fun _ row => col_kind row = cat_kind sample_quill) instances.
Proof.
  split; [computed|].
  apply (catalog_caps_are_respected sample_season sample_gallery "golden-quill" sample_quill); [exact sample_season_requests|exact sample_gallery_ok|computed].
Defined.

(** ** Moving, refunding, handing out *)

Lemma ownership_changes_are_authorised_witness :
  col_state ribbon_row = "minted" /\
  may_move sample_gallery (GGift alice bob ribbon) (TypedID_String ribbon) ribbon_row (set_col_owner (TypedID_String bob) ribbon_row).
Proof.
  apply (ownership_changes_are_authorised (calm 1600) sample_gallery (GGift alice bob ribbon) (TypedID_String ribbon));
    [by intros o|computed|computed|by intros [=]].
Defined.

Abbreviation rewarded_gallery := (gallery_after (calm 1700) sample_gallery (GFundReward alice draft_task ribbon)).
Abbreviation taking_back := (CollectibleService.RefundReward alice draft_task).

Definition taken_back := Eval vm_compute in
  sure match fst (run (calm 1800) rewarded_gallery taking_back) with RewardRefunded values => Some values | RefundRewardRejected _ => None end.

Lemma rewarded_gallery_ok : gallery_ok rewarded_gallery.
Proof. by apply gallery_after_ok; [|exact sample_gallery_ok]. Qed.

Lemma refunded_reward_is_returned_witness :
  let d := tables (market rewarded_gallery) in
  let d' := tables (market (snd (run (calm 1800) rewarded_gallery taking_back))) in
  length taken_back = 1%nat /\
  (exists row, tasks d !! TypedID_String draft_task = Some row /\ (task_state row = "draft" \/ task_state row = "open") /\
     may_refund alice draft_task row d /\ tasks d' = <[TypedID_String draft_task := set_task_state "cancelled" row]> (tasks d)) /\
  (forall c row, collectibles d !! c = Some row -> collectibles d' !! c =
     Some (if decide (task_fund_collectibles d !! c = Some (TypedID_String draft_task)) then set_col_state "minted" row else row)) /\
  Forall2 (reads_minted d) (held_collectibles (TypedID_String draft_task) d) taken_back /\
  unencumbered (TypedID_String draft_task) d' /\ task_funds d !! TypedID_String draft_task = None /\ view d' = view d.
Proof.
  split; [reflexivity|].
  apply (refunded_reward_is_returned (calm 1800) rewarded_gallery alice draft_task taken_back); [exact rewarded_gallery_ok|computed].
Defined.

(** Bob, who is no member of [acme], gets its trophy and keeps it. *)
Abbreviation handing_out := (CollectibleService.TransferCollectibleFromOrganization alice acme bob trophy).

Definition handed_out := Eval vm_compute in
  sure match fst (run (calm 2000) sample_gallery handing_out) with (CollectibleGifted value drafts, _) => Some (value, drafts) | _ => None end.

(** Bob tries to give it to alice, carol cancels a task, and bob to give it back to [acme]. *)
Definition stranded_schedule : list (Env * GalleryOp) :=
  [ (calm 2100, GGift bob alice trophy);
    (calm 2200, GMarket (OChangeTaskState open_task Task.StateCancelled (RecordDraft cancel_draft)));
    (calm 2300, GDonate bob acme trophy) ].

Lemma handed_out_collectible_is_stranded_witness :
  let g' := gallery_after (calm 2000) sample_gallery (GHandout alice acme bob trophy) in
  let later := gallery_after_all stranded_schedule g' in
  is_active_member (TypedID_String acme) (TypedID_String bob) (tables (market sample_gallery)) = false /\
  (exists row, rows_of g' !! TypedID_String trophy = Some row /\ owner_of row = ("user", TypedID_String bob, None)) /\
  stranded later trophy /\
  (forall env' from dest,
     let '(r, g2) := run env' later (CollectibleService.GiftCollectible from dest trophy) in
     g2 = later /\ ((exists reason, r = (GiftRejected reason, [])) \/
       (exists value, r = (CollectibleGifted value [], [])) /\
       exists row, rows_of later !! TypedID_String trophy = Some row /\ owner_of row = ("user", TypedID_String dest, None))) /\
  (forall env' from into,
     let '(r, g2) := run env' later (CollectibleService.TransferCollectibleToOrganization from into trophy) in
     g2 = later /\ exists reason, r = (GiftRejected reason, [])).
Proof.
  split; [reflexivity|].
  apply (handed_out_collectible_is_stranded (calm 2000) sample_gallery alice acme bob trophy handed_out.1 handed_out.2 stranded_schedule);
    [exact sample_gallery_ok|computed|eexists; split; computed|].
  repeat (apply List.Forall_cons; [split; [|by intros []]; try exact I|]); [|constructor].
  split; [by right; right|]. by intros command (seriesID & t & [=]).
Defined.

(** ** The desk *)

Import SubmissionLife.

#[export] Instance sample_submissions : SubmissionWorld := {|
  new_submission_id n := TypedIDCreated (sample_id (1000 + N.of_nat n));
  new_receipt_id n := TypedIDCreated (sample_id (1100 + N.of_nat n));
  new_submission_comment_id n := TypedIDCreated (sample_id (1200 + N.of_nat n));
  random_bytes n := Some (repeat (Z.of_nat n mod 256) 32);
  errors_json _ := "[]";
  sensitive_json rows := json_text ("[" +:+ String.concat "," ((fun row =>
    "{'path':'" +:+ sf_path row.1 +:+ "','category':'" +:+ sf_category row.1 +:+ "','retention':'" +:+ sf_retention row.1 +:+
    "','redaction':'" +:+ sf_redaction row.1 +:+ "','state':'" +:+ sf_state row.1 +:+ "','redacted_at':'" +:+ row.2 +:+ "'}") <$> rows) +:+ "]")
|}.

(** Bob holds the open task, which asks for a contact; nothing is submitted yet. *)
Definition desk_db : DB :=
  with_reservations {[ TypedID_String bob_reservation :=
    MkReservationRow (TypedID_String open_task) "user" (Some (TypedID_String bob)) (TypedID_String bob) "active" ]}
    (with_submissions ∅ gallery_db).

Definition contact_columns (policy : string) : TaskColumns :=
  MkTaskColumns None None "user" (Some (TypedID_String alice)) None "open" "what to do" "general" "" policy "user" 24
    contact_schema_json "none" None None 1.

Definition desk_market_of (policy : string) : Market :=
  with_columns (<[TypedID_String open_task := contact_columns policy]> (task_columns sample_market)) (with_tables desk_db sample_market).

Definition sample_desk (policy : string) : Desk :=
  MkDesk (with_market (desk_market_of policy) sample_gallery) ∅ ∅ [] [] [] ∅.

Abbreviation reserved_desk := (sample_desk "reservation_required").
Abbreviation public_desk := (sample_desk "open").

Lemma sample_desk_ok policy : desk_ok (sample_desk policy).
Proof.
  pose proof sample_gallery_ok as Hg. pose proof (gallery_sound _ Hg) as [Hl Hk He Hc Ha]. split; [|done|constructor..|apply map_Forall_empty].
  apply dimmed_ok; [|done|done]. split; [by destruct Hl|exact Hk| |exact Hc|by apply (same_kinds_agree gallery_db)].
  revert He. apply same_tasks_ended; [done|]. split; [done..|]. intros i row' Hrow. cbn in Hrow. apply lookup_singleton_Some in Hrow as [<- <-].
  eexists. split; [by vm_compute|]. intros t. unfold non_terminal. cbn. by rewrite !bool_decide_true by tauto.
Qed.

Definition contact_request : Request := MkRequest open_task bob (Submission.MkResponseSource contact_json) [].

Abbreviation submitting := (Submit Work.WorkerIsUser contact_request).
Abbreviation submitted_desk := (snd (run (calm 1000) reserved_desk submitting)).

Definition submitted := Eval vm_compute in
  sure match fst (run (calm 1000) reserved_desk submitting) with (SubmissionCreated value token, drafts) => Some (value, token, drafts) | _ => None end.

Lemma bob_submitted : run (calm 1000) reserved_desk submitting = ((SubmissionCreated submitted.1.1 submitted.1.2, submitted.2), submitted_desk).
Proof. apply run_gives. computed. Qed.

Lemma submitted_desk_ok : desk_ok submitted_desk.
Proof.
  pose proof (desk_after_ok (env := calm 1000) reserved_desk (DSubmit Work.WorkerIsUser contact_request) I (sample_desk_ok _)) as Hk.
  unfold desk_after in Hk. cbn [desk_operate] in Hk. by rewrite run_ignored in Hk.
Qed.

Abbreviation bobs := (Submission.ID submitted.1.1).

Definition accept_bobs : AcceptStoreCommand :=
  MkAcceptStoreCommand (sample_id 104) (sample_id 105) (sample_id 106) (sample_id 107) (UserReviewer alice) open_task
    bobs (MkIdempotencyKey "accept-1") (PartialCreditReviewSelection (MkCreditAmount 20))
    (CreditTipSelection (MkCreditAmount 5)) NoCollectibleTipSelection NoSpendCharge
    (sample_draft 108 KindSubmissionAccepted (reviewSubject open_task bobs)).

(** Bob submits, alice comments and accepts. *)
Definition desk_day : list (Env * DeskOp) :=
  [ (calm 1000, DSubmit Work.WorkerIsUser contact_request);
    (calm 1300, DComment alice bobs (Submission.MkCommentBody "thanks"));
    (calm 1400, DGallery (GMarket (OLedger (CAccept accept_bobs)))) ].

Lemma desk_day_valid : Forall (fun eo => valid_desk eo.2) desk_day.
Proof.
  repeat (apply List.Forall_cons; [try exact I|]); [|constructor]. split; [vm_compute; auto; by split|]. by intros command (seriesID & t & [=]).
Qed.

Lemma accepted_submissions_conform_witness :
  let k' := desk_after_all desk_day reserved_desk in
  size (submission_comments k') = 1%nat /\
  exists schema response, examined k' (TypedID_String bobs)
      (MkSubmissionRow (TypedID_String open_task) (Some (TypedID_String bob)) "accepted" (Some "accept-1") None None "" None) schema response /\
    ("accepted" = "invalid" <-> ~ conforms schema response) /\ (errors_of (TypedID_String bobs) k' = [] <-> conforms schema response).
Proof.
  split; [computed|].
  apply (accepted_submissions_conform desk_day reserved_desk); [exact desk_day_valid|exact (sample_desk_ok _)|computed].
Defined.

(** A bot of alice's that may work three tasks a day files for carol on the public task. *)
Definition bot_policy : Work.CredentialWorkBudget := Work.MkCredentialWorkBudget 3 Work.NoReservationConcurrencyCap Work.AnyWorkTaskType Work.NoWorkRewardFloor.
Definition bot_worker : Work.WorkerOrigin := Work.WorkerViaCredential bot (Work.CredentialWorkEnabled bot_policy).
Abbreviation bot_submitting := (Submit bot_worker contact_request).

Definition bot_submitted := Eval vm_compute in
  sure match fst (run (calm 1000) public_desk bot_submitting) with (SubmissionCreated value token, drafts) => Some (value, token, drafts) | _ => None end.

Lemma submission_is_gated_witness :
  exists target k1, task_found open_task (desk_market public_desk) target /\ housekept_desk public_desk k1 /\
    Task.TState target = Task.StateOpen /\ may_view bob target (desk_market public_desk) /\
    LifecycleCorrect.entitled (TypedID_String open_task) (TypedID_String bob) (desk_market k1) /\
    (Task.Participation target = Task.ParticipationPolicyReservationRequired \/
     exists budget day, Work.CredentialWorkEnabled bot_policy = Work.CredentialWorkEnabled budget /\ Work.checkWorkPolicyAgainstTask budget target = None /\
       TypedID_String bot ∈ agent_credentials (desk_tables public_desk) /\
       let used d := default 0 (work_day_counters d !! (budget_key bot, day)) in
       used (desk_tables (snd (run (calm 1000) public_desk bot_submitting))) = used (desk_tables public_desk) + 1 /\
       used (desk_tables (snd (run (calm 1000) public_desk bot_submitting))) <= Work.DailyTaskLimit budget).
Proof.
  apply (submission_is_gated (env := calm 1000) public_desk bot_worker contact_request bot_submitted.1.1 bot_submitted.1.2 bot_submitted.2). apply run_gives. computed.
Defined.

(** Bob's reservation is consumed. *)
Lemma submission_takes_effect_witness :
  exists k1 target schema response draft, housekept_desk reserved_desk k1 /\ task_found open_task (desk_market reserved_desk) target /\
    parse_schema (Task.ResponseSchema target) = inr schema /\ parse_value (request_ResponseSource contact_request) = inr response /\
    submitted.2 = [draft] /\ outbox_holds [draft] (desk_tables k1) (desk_tables submitted_desk) /\
    (conforms schema response /\ Submission.State_ submitted.1.1 = Submission.StateSubmitted \/ ~ conforms schema response).
Proof.
  destruct (submission_takes_effect (env := calm 1000) reserved_desk Work.WorkerIsUser contact_request _ _ _ _ bob_submitted)
    as (k1 & target & schema & response & draft & Hk & Ht & Hs & Hr & Hd & _ & _ & _ & Ho & _ & _ & Hc & _).
  exists k1, target, schema, response, draft. repeat (split; [assumption|]). destruct Hc as [(? & ? & _)|(? & _)]; [left|right]; auto.
Defined.

(** ** Receipts and late submissions *)

Definition contact_source : Submission.ResponseSource := Submission.MkResponseSource contact_json.

Lemma receipt_reads_back_witness :
  Submission.ParseReceiptTokenPlain (Submission.ReceiptTokenPlain_value submitted.1.2) = Submission.ReceiptTokenPlainAccepted submitted.1.2 /\
  run (calm 2000) submitted_desk (FindByReceiptToken (Submission.Hash submitted.1.2)) =
    (ReceiptFound (Submission.set_Source contact_source submitted.1.1), submitted_desk) /\
  run (calm 2000) submitted_desk (FindSubmission bobs) =
    (FindSubmissionStoreAccepted (Submission.set_Source contact_source submitted.1.1), submitted_desk).
Proof.
  apply (receipt_reads_back (calm 1000) reserved_desk Work.WorkerIsUser contact_request submitted.1.1 submitted.1.2 submitted.2 submitted_desk
    (MkSubmissionColumns contact_json 116) contact_source (calm 2000));
    [exact (sample_desk_ok _)|exact bob_submitted|computed|computed| |constructor| |done].
  - split; [by intros []|intros _; computed|by intros []].
  - intros n bytes. cbn [random_bytes sample_submissions]. generalize 32%nat. intros size E. assert (bytes = repeat (Z.of_nat n mod 256) size) as -> by congruence.
    apply List.Forall_forall. intros b ->%List.repeat_spec. apply Z.mod_pos_bound. lia.
Defined.

Definition other_json : string := json_text "{'name':'Ada', 'key':'other', 'mail':'c@d', 'scores':[7, -2]}".

Lemma receipts_hide_what_is_sensitive_witness :
  let token := submitted.1.2 in
  fst (run (calm 2000) (with_response (TypedID_String bobs) other_json submitted_desk) (FindByReceipt token)) =
    fst (run (calm 2000) submitted_desk (FindByReceipt token)) /\
  exists value, fst (run (calm 2000) submitted_desk (FindByReceipt token)) = ReceiptStatusFound value.
Proof.
  split; [|eexists; vm_compute; reflexivity].
  apply (receipts_hide_what_is_sensitive (calm 2000) submitted_desk (TypedID_String bobs) other_json submitted.1.2
    (MkSubmissionRow (TypedID_String open_task) (Some (TypedID_String bob)) "submitted" None None None "" None)
    (MkSubmissionColumns contact_json 116) contact_schema (contact "k" "a@b") (contact "other" "c@d")); [done| | |computed|computed| | | |computed|computed|].
  - exact (sound_keys _ (gallery_sound _ (desk_gallery _ submitted_desk_ok))).
  - eexists. vm_compute. reflexivity.
  - exists (contact_columns "reservation_required"), (Task.MkResponseSchemaSource contact_schema_json). split; [computed|]. split; computed.
  - exists contact_source. split; computed.
  - exists (Submission.MkResponseSource other_json). split; computed.
  - apply all_show_public. computed.
Defined.

(** Alice cancels the task between the checks of bob's submission and its insertion. *)
Abbreviation late_desk := (desk_after (calm 1200) reserved_desk (DGallery (GMarket (OChangeTaskState open_task Task.StateCancelled (RecordDraft cancel_draft))))).

Definition late_target := Eval vm_compute in
  sure match fst (run (calm 1100) reserved_desk (submission_gates open_task bob)) with inr value => Some value | inl _ => None end.

Abbreviation late_submitting := (store_submission contact_request late_target Work.NoWorkBudgetCharge contact_schema (contact "k" "a@b")).

Definition late_submitted := Eval vm_compute in
  sure match fst (run (calm 1300) late_desk late_submitting) with (SubmissionCreated value token, drafts) => Some (value, token, drafts) | _ => None end.

Lemma late_desk_ok : gallery_ok (gallery late_desk).
Proof.
  apply desk_gallery, desk_after_ok; [|exact (sample_desk_ok _)]. split; [by right; right|]. by intros command (seriesID & t & [=]).
Qed.

Definition accept_late : AcceptStoreCommand :=
  MkAcceptStoreCommand (sample_id 104) (sample_id 105) (sample_id 106) (sample_id 107) (UserReviewer alice) open_task
    (Submission.ID late_submitted.1.1) (MkIdempotencyKey "accept-1") (PartialCreditReviewSelection (MkCreditAmount 20))
    (CreditTipSelection (MkCreditAmount 5)) NoCollectibleTipSelection NoSpendCharge
    (sample_draft 108 KindSubmissionAccepted (reviewSubject open_task (Submission.ID late_submitted.1.1))).

Lemma late_submission_cannot_be_reviewed_witness :
  let k' := snd (run (calm 1300) late_desk late_submitting) in
  (exists row, tasks (desk_tables k') !! TypedID_String open_task = Some row /\ task_state row <> "open") /\
  (exists sub, submissions (desk_tables k') !! TypedID_String (Submission.ID late_submitted.1.1) = Some sub /\
     sub_task_id sub = TypedID_String open_task /\ (conforms contact_schema (contact "k" "a@b") -> sub_state sub = "submitted")) /\
  execution_of (fst (run (calm 1400) (desk_tables k') (perform (CAccept accept_late)))) = None.
Proof.
  apply (late_submission_cannot_be_reviewed (env := calm 1300) late_desk contact_request late_target Work.NoWorkBudgetCharge contact_schema (contact "k" "a@b")
    late_submitted.1.1 late_submitted.1.2 late_submitted.2 _ (CAccept accept_late) (calm 1400)); [exact late_desk_ok|vm_compute; auto; by split|done| |].
  - vm_compute. by intros row [= <-].
  - apply run_gives. computed.
Defined.
