(* ===== verification/WebhookWitnesses.v ===== *)
(** * The webhook pump at work

    The webhook theorems applied to the sample marketplace: the delivery of bob's
    hook, claimed, attempted and settled, and the tables around it. *)

From S2P Require Import Prelude.
From S2P Require Import Core.
From S2P Require Import Events.
From S2P Require Import TaskValues.
From S2P Require Import TaskWork.
From S2P Require Import DialPolicy.
From S2P Require Import LedgerValues.
From S2P Require Import Database.
From S2P Require Import Tx.
From S2P Require Import LedgerSpec.
From S2P Require Import LedgerCorrect.
From S2P Require Import Outbox.
From S2P Require Import DeliveryDB.
From S2P Require Import Auth.
From S2P Require Import Inbox.
From S2P Require Import EventStore.
From S2P Require Import Recorder.
From S2P Require Import DeliverySpecs.
From S2P Require Import DeliveryCorrect.
From S2P Require Import DeliverySystem.
From S2P Require Import Webhooks.
From S2P Require Import WebhookWire.
From S2P Require Import WireFacts.
From S2P Require Import WebhookDispatch.
From S2P Require Import WebhookPump.
From S2P Require Import WebhookDrain.
From S2P Require Import WebhookBehaviour.
From S2P Require Import Samples.
From S2P Require Import DeliveryWitnesses.
Local Open Scope string_scope.
Local Open Scope Z_scope.

#[export] Instance sample_url_laws : URLLaws.
Proof.
  split. intros raw u. cbn. destruct (String.prefix "https://" raw) eqn:Hp; [|done]. by intros [= <-].
Qed.

(** Receivers acknowledge, and nobody else holds a row. *)
Definition fine_world (clock : Z) : Surroundings := {|
  respond _ _ := Responded 204;
  jitter_draw _ := 0;
  database_clock _ := clock;
  locked_elsewhere _ _ := false
|}.

(** Bob's hook refuses. *)
Definition refusing_world (clock : Z) : Surroundings := {|
  respond _ _ := Responded 503;
  jitter_draw _ := 2 ^ 63;
  database_clock _ := clock;
  locked_elsewhere _ _ := false
|}.

(** ** The pump after the dispatch of the acceptance *)

Lemma rtc_pump s s' claims : rtc sys_step s s' -> rtc pump_step (MkPump s claims) (MkPump s' claims).
Proof. induction 1 as [|x y z Hxy _ IH]; [done|]. eapply rtc_l; [apply pump_system; exact Hxy|exact IH]. Qed.

Definition pump_start : Pump := MkPump (MkSystem sample_start []) [].

Lemma pump_start_ok : pump_ok pump_start.
Proof. split; [exact sample_system_ok|by constructor..]. Qed.

Definition waiting : Pump := MkPump dispatched [].

Lemma waiting_reachable : rtc pump_step pump_start waiting.
Proof. apply rtc_pump. exact dispatched_reachable. Qed.

Lemma waiting_ok : pump_ok waiting.
Proof. apply (pump_reachable_ok _ _ waiting_reachable pump_start_ok). Qed.

(** A claim, and an attempt of a delivery claimed, from any state of the pump. *)
Definition fresh_state (s : Pump) : TxStateOf Delivery := MkTxState (pump_db s) (pump_db s) 0.

Definition claim_of (s : Pump) (world : Surroundings) (env : Env) : ClaimDueDeliveriesResult * TxStateOf Delivery :=
  ClaimDueDeliveries claimBatchSize claimHold env (fresh_state s).

Definition claim_pump (s : Pump) (world : Surroundings) (env : Env) : Pump :=
  MkPump (MkSystem (st_base (snd (claim_of s world env))) (in_flight (pump_sys s)))
    (pump_claims s ++ listed_claims (fst (claim_of s world env)))%list.

Lemma claim_pump_step s world env : pump_step s (claim_pump s world env).
Proof.
  destruct s as [[d p] claims].
  exact (pump_claim world env claimBatchSize claimHold _ _ _ p claims (surjective_pairing (claim_of (MkPump (MkSystem d p) claims) world env))).
Qed.

Definition attempt_pump (s : Pump) (world : Surroundings) (env : Env) (c : ClaimedWebhookDelivery) : Pump :=
  MkPump (MkSystem (st_base (snd (attemptDelivery c env (fresh_state s)))) (in_flight (pump_sys s))) (pump_claims s).

Lemma attempt_pump_step s world env c : c ∈ pump_claims s -> pump_step s (attempt_pump s world env c).
Proof.
  destruct s as [[d p] claims]. intros Hc.
  exact (pump_attempt world env c _ _ _ p claims Hc (surjective_pairing (attemptDelivery c env (fresh_state (MkPump (MkSystem d p) claims))))).
Qed.

Lemma attempt_pump_claims s world env c : pump_claims (attempt_pump s world env c) = pump_claims s.
Proof. reflexivity. Qed.

Definition claimed_pump : Pump := claim_pump waiting (fine_world 5) (calm 3000).

Definition claimed_values : list ClaimedWebhookDelivery := Eval vm_compute in listed_claims (fst (claim_of waiting (fine_world 5) (calm 3000))).

Lemma the_claim_listed : fst (claim_of waiting (fine_world 5) (calm 3000)) = ClaimDueDeliveriesListed claimed_values.
Proof. computed. Qed.

Lemma claimed_reachable : rtc pump_step pump_start claimed_pump.
Proof. eapply rtc_r; [exact waiting_reachable|apply claim_pump_step]. Qed.

Definition first_claim : ClaimedWebhookDelivery := Eval vm_compute in
  default (MkClaimed (sample_id 0) (sample_id 0) (Webhook.MkEndpointURL "") (Webhook.MkSecret "") 0
    (MkStoredEvent (Draft_Event fresh_draft 7) (CursorFromSequence 0) NoActorName NoTaskTitle)) (head claimed_values).

Lemma first_claim_in : first_claim ∈ pump_claims claimed_pump.
Proof. apply (list_elem_of_lookup_2 _ 0). computed. Qed.

Definition attempted_pump (world : Surroundings) : Pump := attempt_pump claimed_pump world (calm 4000) first_claim.

Lemma attempted_reachable world : rtc pump_step pump_start (attempted_pump world).
Proof. eapply rtc_r; [exact claimed_reachable|apply attempt_pump_step; exact first_claim_in]. Qed.

Definition bob_delivery (s : Pump) : DeliveryRow :=
  default (MkDeliveryRow "" "" 0 "" 0 0 "") (head (webhook_deliveries (pump_db s))).

(** Refused once, the delivery stays pending; acknowledged, it is delivered. *)
Example bob_delivery_states :
  (wd_state (bob_delivery (attempted_pump (refusing_world 5))), wd_last_status (bob_delivery (attempted_pump (refusing_world 5)))) =
    ("pending", "503") /\
  wd_state (bob_delivery (attempted_pump (fine_world 5))) = "delivered".
Proof. by vm_compute. Qed.

Lemma deliveries_stay_on_the_walk_witness : walk_ok (bob_delivery (attempted_pump (refusing_world 5))).
Proof.
  apply (deliveries_stay_on_the_walk pump_start (attempted_pump (refusing_world 5)));
    [exact (attempted_reachable _)|exact pump_start_ok|apply (list_elem_of_lookup_2 _ 0); computed].
Defined.

(** The claim of the delivery outlives the acknowledged attempt; another attempt, refused, comes late. *)
Definition settled_pump : Pump := attempted_pump (fine_world 5).
Definition late_pump : Pump := attempt_pump settled_pump (refusing_world 5) (calm 5000) first_claim.

Lemma settled_deliveries_are_final_witness : bob_delivery settled_pump ∈ webhook_deliveries (pump_db late_pump).
Proof.
  apply (settled_deliveries_are_final settled_pump late_pump).
  - apply rtc_once, attempt_pump_step. unfold settled_pump, attempted_pump. rewrite attempt_pump_claims. exact first_claim_in.
  - apply (pump_reachable_ok _ _ (attempted_reachable _) pump_start_ok).
  - apply (list_elem_of_lookup_2 _ 0). computed.
  - vm_compute. discriminate.
Defined.

(** A second dispatcher claims a minute later. *)
Lemma claims_are_exclusive_witness :
  claim_ids claimed_values = [wd_id (bob_delivery waiting)] /\
  forall id, id ∈ claim_ids claimed_values ->
    id ∉ claim_ids (listed_claims (fst (claim_of claimed_pump (fine_world (60 * second)) (calm 6000)))).
Proof.
  split; [computed|].
  apply (claims_are_exclusive (fine_world 5) (fine_world (60 * second)) (calm 3000) (calm 6000) claimBatchSize claimBatchSize
    claimHold claimHold (fresh_state waiting) (snd (claim_of waiting (fine_world 5) (calm 3000))) (fresh_state claimed_pump)
    (snd (claim_of claimed_pump (fine_world (60 * second)) (calm 6000)))
    claimed_values (fst (claim_of claimed_pump (fine_world (60 * second)) (calm 6000))) accepted_drafts [] claimed_pump).
  - exact waiting_ok.
  - rewrite <- the_claim_listed. exact (surjective_pairing (claim_of waiting (fine_world 5) (calm 3000))).
  - assert (MkPump (MkSystem (st_base (snd (claim_of waiting (fine_world 5) (calm 3000)))) accepted_drafts) ([] ++ claimed_values)%list = claimed_pump)
      as ->; [|apply rtc_refl]. unfold claimed_pump, claim_pump. rewrite the_claim_listed. reflexivity.
  - reflexivity.
  - reflexivity.
  - exact (surjective_pairing (claim_of claimed_pump (fine_world (60 * second)) (calm 6000))).
Defined.

(** ** Runs of the dispatcher *)

Lemma RunOnce_is_pump_steps_witness :
  exists claims, rtc pump_step waiting
    (MkPump (MkSystem (st_base (snd (@RunOnce _ _ _ (fine_world 5) (calm 7000) (fresh_state waiting)))) accepted_drafts) claims).
Proof. exact (RunOnce_is_pump_steps (fine_world 5) (calm 7000) (fresh_state waiting) accepted_drafts []). Defined.

Lemma fine_world_all_well clock base : @all_well (fine_world clock) (calm base).
Proof.
  split; [apply calm_no_faults| |done|done].
  intros step request. exists 204. by split; [|lia].
Qed.

Definition bob_row : DeliveryRow := Eval vm_compute in bob_delivery waiting.

Lemma waiting_deliveries : webhook_deliveries (pump_db waiting) = [bob_row].
Proof. computed. Qed.

Definition bob_due : DueRow := Eval vm_compute in
  default (MkDueRow bob_row bob_hook (MkFeedRow (event_row 0 0 fresh_draft) "" "")) (due_row (pump_db waiting) bob_row).

Lemma waiting_readable : readable (pump_db waiting).
Proof.
  split; rewrite ?waiting_deliveries.
  - by apply NoDup_singleton.
  - apply Forall_singleton. exists (sample_id 2007). computed.
  - apply Forall_singleton. intros _.
    exists bob_due. split; [computed|]. apply (bool_decide_unpack _). computed.
Qed.

Lemma RunOnce_drains_witness :
  exists w', w' ∈ webhook_deliveries (snd (@run _ _ (calm 7000) (pump_db waiting) (@RunOnce _ _ _ (fine_world 5)))) /\
    wd_id w' = wd_id bob_row /\ wd_state w' = "delivered".
Proof.
  pose proof (RunOnce_drains (world := fine_world 5) (env := calm 7000) (fine_world_all_well 5 7000) (pump_db waiting) waiting_readable) as Hd.
  destruct (run _ _ _) as [r d']. cbn [snd]. apply Hd.
  - unfold pendings. rewrite waiting_deliveries. apply Nat.ltb_lt. computed.
  - rewrite waiting_deliveries. by apply list_elem_of_singleton.
  - computed.
Defined.

(** Alice's address is too long for a display name, and hers is derived from it. *)
Definition long_email : string := Nat.iter 13 (String.append "aaaaaaaaaa") "@example.org".

Definition unreadable : Delivery :=
  let d := pump_db waiting in
  MkDelivery (ledger d) (dispatch_attempts d) (notifications d) (webhook_subscriptions d) (webhook_deliveries d)
    (<[TypedID_String alice := MkProfileRow long_email ""]> (user_profiles d)) (task_infos d) (requests_sent d).

Definition unreadable_row : DueRow :=
  default (MkDueRow bob_row bob_hook (MkFeedRow (event_row 0 0 fresh_draft) "" "")) (due_row unreadable bob_row).

Definition stalled (n : N) : Delivery := snd (@run _ _ (calm n) unreadable (@RunOnce _ _ _ (fine_world 5))).

Definition stalled_answer (n : N) : RunResult := fst (@run _ _ (calm n) unreadable (@RunOnce _ _ _ (fine_world 5))).

Lemma run_stalls (world : Surroundings) env w d :
  wd_next_attempt_at w <= database_clock 0 -> locked_elsewhere 1 (wd_id w) = false ->
  stalled_runs w d [fst (run env d RunOnce)] (snd (run env d RunOnce)).
Proof.
  intros Hdue Hlock. unfold run. destruct (RunOnce env (MkTxState d d 0)) as [r st'] eqn:E.
  exact (stalled_again w world env (MkTxState d d 0) r st' [] (st_base st') Hdue Hlock E (stalled_none w (st_base st'))).
Qed.

Lemma unreadable_delivery_stalls_the_pump_witness :
  Forall is_rejected [stalled_answer 7000] /\ requests_sent (stalled 7000) = requests_sent unreadable /\ stalled 7000 = unreadable.
Proof.
  apply (unreadable_delivery_stalls_the_pump unreadable [stalled_answer 7000] (stalled 7000) bob_row unreadable_row).
  - apply (list_elem_of_lookup_2 _ 0). computed.
  - computed.
  - computed.
  - computed.
  - apply Nat.leb_le. computed.
  - apply (run_stalls (fine_world 5)); [apply Z.leb_le; computed|done].
Defined.

(** With alice's own address the same run sends its one request. *)
Example readable_delivery_is_sent :
  Request_ID <$> requests_sent (snd (@run _ _ (calm 7000) (pump_db waiting) (@RunOnce _ _ _ (fine_world 5)))) = [wd_id bob_row].
Proof. computed. Qed.

(** ** Addresses *)

#[export] Instance sample_addresses : NetIP := {|
  ParseAddrPort raw := switch raw [ ("93.184.216.34:443", Some (Addr4 (ipv4 93 184 216 34))); ("10.0.0.7:443", Some (Addr4 (ipv4 10 0 0 7))) ] None;
  Addr_String _ := "an address";
  Quote raw := raw
|}.

#[export] Instance sample_address_laws : NetIPLaws.
Proof.
  split. intros raw addr. cbn. unfold switch. cbn.
  repeat (case_match; [intros [= <-]; cbn; unfold ipv4; lia|]). done.
Qed.

Lemma dial_policy_admits_public_witness :
  StrictDialPolicy "tcp" "93.184.216.34:443" = None /\ StrictDialPolicy "tcp" "10.0.0.7:443" <> None.
Proof.
  split.
  - apply (dial_policy_admits_public "tcp" "93.184.216.34:443"). exists (Addr4 (ipv4 93 184 216 34)). split; [computed|].
    by repeat (constructor; [vm_compute; discriminate|]).
  - intros (addr & Hp & Ha)%(dial_policy_admits_public "tcp" "10.0.0.7:443"). revert Hp. vm_compute. intros [= <-].
    revert Ha. vm_compute. intros Ha. do 5 apply Forall_inv_tail in Ha. by apply Forall_inv in Ha.
Defined.

(** ** Subscriptions *)

Definition carol_hook : Webhook.Subscription :=
  Webhook.MkSubscription (sample_id 71) (Webhook.OwnerUser carol) (Webhook.MkEndpointURL "https://carol.example.org/in")
    (Webhook.MkKindFilter [KindTaskOpened])
    (Webhook.MarketplaceAudience Webhook.AnyMarketplaceTaskType (Webhook.MinimumReward (Webhook.MkMinimumCreditReward 25)))
    Webhook.StateActive 9.

Lemma carol_hook_made : made_subscription carol_hook.
Proof. split; [computed|by exists [KindTaskOpened]|cbn; lia]. Qed.

Lemma CreateSubscription_stores_witness :
  fst (run (calm 8000) sample_start (Webhook.CreateSubscription carol_hook (Webhook.MkSecret "scrop_whsec_BBBB"))) = Webhook.CreateStoreAccepted.
Proof.
  pose proof (CreateSubscription_stores (calm 8000) sample_start carol_hook (Webhook.MkSecret "scrop_whsec_BBBB") carol_hook_made) as Hs.
  destruct (run _ _ _) as [r d']. cbn [fst]. apply Hs; [apply calm_no_faults|].
  split.
  - repeat constructor. vm_compute. discriminate.
  - cbn. set_solver.
Defined.

(** ** Revocation *)

(** Bob's hook is revoked before the acceptance is dispatched. *)
Definition revoked_hook : SubscriptionRow :=
  MkSubscriptionRow (ws_id bob_hook) "user" (Some (TypedID_String bob)) None
    "https://bob.example.org/hook" "scrop_whsec_AAAA" "revoked" 0 "recipient" None None ["submission_accepted"].

Definition revoked_start : Delivery := with_subscriptions [revoked_hook] (sys_db accepted).

Definition revoked_dispatch : System :=
  MkSystem (snd (run (calm 2000) revoked_start (Recorder.Dispatch [accepted_draft]))) accepted_drafts.

Lemma revoked_start_ok : system_ok (MkSystem revoked_start accepted_drafts).
Proof. eapply step_ok; [|exact accepted_ok]. apply (step_subscriptions [revoked_hook] (sys_db accepted) accepted_drafts). Qed.

Lemma revoked_subscriptions_get_no_deliveries_witness :
  accepted_draft ∈ accepted_drafts /\ forall w, w ∈ webhook_deliveries (sys_db revoked_dispatch) -> wd_subscription_id w = ws_id bob_hook ->
    w ∈ webhook_deliveries revoked_start.
Proof.
  split; [exact accepted_draft_in|]. intros w. apply (revoked_subscriptions_get_no_deliveries (MkSystem revoked_start accepted_drafts) revoked_dispatch).
  - apply rtc_once. split; [|computed].
    apply (step_dispatch (calm 2000) accepted_draft revoked_start accepted_drafts). exact accepted_draft_in.
  - exact revoked_start_ok.
  - intros (sub & Hsub & _ & Ha). assert (webhook_subscriptions (sys_db (MkSystem revoked_start accepted_drafts)) = [revoked_hook]) as E by computed.
    rewrite E in Hsub. apply list_elem_of_singleton in Hsub as ->. discriminate.
Defined.
